(* ===== verification/_CoqProject ===== *)
-Q . S2P
Prelude.v
Currency.v
EvmManager.v
Externals.v
EvmMeter.v
Evm.v
EvmRunner.v
EvmExecution.v
EvmSafety.v
EvmDeposits.v
EvmExamples.v
EvmAccounts.v
EvmAccountsTheorems.v
EvmBridge.v
EvmBridgeTheorems.v
Currencies.v
CurrenciesTheorems.v
ChainBridge.v
RenVm.v
RenVmTheorems.v
SettmintManager.v
SettmintTheorems.v
SettmintExamples.v
Dex.v
DexPricing.v
DexSafety.v
DexTheorems.v
DexExamples.v
Incentives.v
IncentivesTheorems.v
SlashingSpans.v
StakingLedger.v
Staking.v
Slashing.v
StakingCalls.v
StakingEras.v
StakingPayout.v
StakingElection.v
StakingInvariant.v
SlashingSafety.v
StakingSafety.v
SlashingTheorems.v
StakingTheorems.v
StakingElectionTheorems.v
EraTheorems.v
StakingGenesis.v
StakingExamples.v
StakingPayoutTheorems.v
TransactionPayment.v
TransactionPaymentTheorems.v
TransactionPaymentExamples.v
Democracy.v
DemocracyTallies.v
DemocracyTheorems.v
PrecompileInput.v
Precompiles.v
PrecompileTheorems.v
PrecompileDex.v
PrecompileExamples.v
Nft.v
NftTheorems.v
EvmRpc.v
EvmRpcTheorems.v
Governance.v
GovernanceTheorems.v
RuntimeConfig.v
RuntimeTheorems.v
RuntimeGenesis.v
RuntimeExamples.v
SerpTreasury.v
SerpAuction.v
SerpAuctionLots.v
SerpAuctionSteps.v
SerpAuctionTheorems.v
RuntimeSerp.v
SettmintGateway.v
SettmintGatewayTheorems.v
Inflation.v
RewardCurve.v
RewardCurveTheorems.v
