(* ===== verification/Prelude.v ===== *)
(** * Setheum: a verification development

    The repository is a Substrate chain: pallets (lib-serml), the types they share
    (primitives), runtimes that configure them and nodes that run them. This development
    translates the pallets that hold and move value: the currency identifiers, the EVM with
    its accounts, deposits, bridge, RPC and precompiled contracts, the currencies pallet,
    the bridges to other chains, the Settmint positions with their engine and gateway, the
    SERP treasury and its auctions, the exchange with its incentives, the payment of
    transactions, democracy, non-fungible tokens, and the staking pallet with its slashing,
    payouts, genesis and the macro that makes its curve of rewards; and of the runtimes the
    governance and the parameters that the theorems on the pallets ask about. Everything is
    executable; the examples at the end of each part run it.

    Parts of the sources do not type-check. Where the text leaves one reading (a misspelt
    name, an assignment where a condition is tested) the part is modelled and the header of
    its file says how it is read; where it leaves several, the part is an argument of the
    model or is left out, and is listed below.

    ** How code is modelled

    A pallet's storage is a record; a storage map is a [gmap]. A call is a function
    [M S E A] from the storage to an outcome (a value, an error, a panic) and the storage
    it leaves. [?] is [bind]; an error keeps the writes made before it unless the call is
    [transactional]. Functions that cannot fail are functions on the storage. Integers are
    [Z] with the operation of the source: [sat_add], [checked_sub], [wrap] (release
    builds do not check overflow) and so on, at the width of the type. Code outside the
    repository (balances, the fixed-point, 256-bit and big numbers, sessions, elections, the
    interpreter of the EVM with its gasometer, hashes and signatures) is a parameter: a
    class of operations, and a class of documented laws where a theorem needs them; each
    has a concrete instance on which the witnesses run.

    ** Files

    - [Prelude]: integers, outcomes and runs, the tactics that take runs apart
      ([run_inv]), what runs keep if they succeed ([keeps_tac]) and however they end
      ([moves_tac]), when failing leaves no trace ([clean_tac]), sums over lists and finite maps, bytes.
      A file of theorems without a file of examples beside it ends with its examples and
      witnesses.
    - [Currency]: primitives/src/currency.rs and lib.rs: tokens, [CurrencyId], trading
      pairs, EVM addresses of currencies.
    - [EvmManager]: lib-serml/evm/evm-manager/src/lib.rs: the registry of ERC20 contracts.
    - [Externals]: the classes for code outside the repository, and their instances; the
      currencies of a part of a state ([part_laws]).
    - lib-serml/evm/evm/src: [EvmMeter] is runner/storage_meter.rs, [Evm] the storage and
      the calls of lib.rs that run no code, [EvmRunner] runner/mod.rs, runner/handler.rs and
      the calls that do. [EvmExecution] is a logic for running code; [EvmSafety] and
      [EvmDeposits] are instances of it; [EvmExamples] runs contracts.
    - lib-serml/evm/evm-accounts/src/lib.rs: [EvmAccounts], [EvmAccountsTheorems].
    - lib-serml/evm/evm-bridge/src/lib.rs: [EvmBridge], which gives [EvmManager] and
      [Currencies] the contracts they ask for, and [EvmBridgeTheorems].
    - lib-serml/tokens/currencies/src/lib.rs: [Currencies] (the modules [Pallet], [Single]
      and [Adapter] for the three implementations of the currency traits),
      [CurrenciesTheorems].
    - lib-serml/bridges: [ChainBridge]; [RenVm], [RenVmTheorems].
    - lib-serml/settmint: [SettmintManager] is settmint-manager/src/lib.rs, with
      [SettmintTheorems] and [SettmintExamples]; [SettmintGateway] is settmint-engine/src and
      settmint-gateway/src/lib.rs, and gives the manager the validator and the treasury it
      asks for; [SettmintGatewayTheorems].
    - lib-serml/serp: [SerpTreasury] is serp-treasury/src/lib.rs, [SerpAuction]
      serp-auction/src/lib.rs. [SerpAuctionLots] sees the three kinds of auctions as lots,
      [SerpAuctionSteps] says what each handler does to lots, stakes and totals;
      [SerpAuctionTheorems].
    - [Dex]: lib-serml/dex/dex/src/lib.rs, definition by definition. [DexPricing]: what the
      quotes promise. [DexSafety]: the invariant [dex_inv] and that every call keeps it.
      [DexTheorems], [DexExamples]: the properties and a market on a concrete chain.
    - lib-serml/dex/incentives/src/lib.rs: [Incentives], the pallet the exchange calls to
      stake shares; [IncentivesTheorems], where it discharges [DEXIncentivesLaws], the
      interface the exchange is proved against.
    - lib-serml/transaction-payment/src/lib.rs: [TransactionPayment],
      [TransactionPaymentTheorems] with the exchange underneath, and
      [TransactionPaymentExamples].
    - lib-serml/democracy/src/lib.rs: [Democracy]; [DemocracyTallies], what the operations do
      to votes, delegations and tallies; [DemocracyTheorems].
    - The precompiled contracts, runtime/common/src/precompile and
      lib-serml/evm/evm/src/precompiles.rs: [PrecompileInput] is input.rs, [Precompiles] the
      contracts and who may call them; [PrecompileTheorems]; [PrecompileDex], where the dex
      pallet is the [DEXManager] the contract asks for; [PrecompileExamples].
    - lib-serml/tokens/nft/src/lib.rs: [Nft], [NftTheorems].
    - [SlashingSpans], [StakingLedger]: the two data structures of
      lib-serml/serp/serp-staking (src/slashing.rs and src/lib.rs) with their theorems.
    - [Staking]: storage and shared helpers of the staking pallet; [Slashing]: computing and
      applying slashes; [StakingCalls]: its calls; [StakingEras]: sessions, eras, offences;
      [StakingElection]: what the election provider is given; [StakingPayout]: the end of
      an era and its rewards; [StakingGenesis]: the genesis.
    - [StakingInvariant]: the invariant [staking_inv] and the elementary writes;
      [SlashingSafety], [StakingSafety]: slashing, the calls and the hooks keep it, and
      the reachable storage.
    - [SlashingTheorems], [StakingTheorems], [StakingElectionTheorems], [EraTheorems],
      [StakingPayoutTheorems], [StakingExamples]: the properties and their witnesses.
    - lib-serml/serp/serp-staking/reward-curve/src: [RewardCurve] is log.rs and the part of
      lib.rs that computes; [RewardCurveTheorems]. [Inflation]: reward-fn/src/lib.rs and
      src/inflation.rs, with their theorems.
    - lib-serml/evm/evm/rpc/src: [EvmRpc], [EvmRpcTheorems].
    - The runtimes, runtime/{newrome,setheum,neom}/src: [Governance] is the origins, the call
      filter and authority.rs, with [GovernanceTheorems];
      [RuntimeConfig] the parameters of the pallets above, runtime/common/src/lib.rs and the
      balances of node/setheum/service/src/chain_spec/newrome.rs. [RuntimeTheorems] and
      [RuntimeGenesis] apply the theorems on the pallets to them, with [RuntimeExamples];
      [RuntimeSerp] does so for the treasury.

    ** What the theorems show

    - EVM: what a contract stores is covered by its deposit, whatever code others run, and
      the code of a live contract is never lost, also when precompiled contracts let the EVM
      run again ([layered]); the other pallets are assumed not to release that deposit, and
      not to take the provider of a contract's account. A static call writes nothing; a call
      or creation that does not succeed leaves the nonce only; the nested storage meters
      refine one budget of bytes, calls that are not committed included.
      Runs in [EvmExamples] show where this ends: [set_code] installs nothing, a reverted
      call can keep a deposit reserved, a contract can be created over another.
    - EVM accounts: the two maps are inverse, an address is bound by a signature of its owner
      or as the default address, and the signed message names one account.
    - EVM bridge and currencies: decoding stays within the output of a contract, and where it
      does not; a view on one currency is equivalent to that currency; the tokens of a
      contract are reserved, unreserved and moved without loss.
    - Bridges: resources and currencies correspond one to one, and no call changes the supply
      of a currency of this chain; signatures of RenVM are spent once, over what they sign.
    - Settmint: the totals are the sums of the positions; a transfer moves a position whole
      and, between different accounts, cannot panic. Through the gateway a position changes
      only for its owner or for who the owner authorized last, and no position is left with
      dust; a run shows that standards need no reserve.
    - SERP: over any history of auctions bidders have what they had but for the lots they won
      and the dust their bids left behind;
      what is left of a lot keeps its price; the totals are the sums of the open auctions.
      A cancellation that fails is the exception to the first and the last ([cancel_failed]).
      The shares of serping up issue the whole amount ([runtime_serpup_issues_the_amount]).
    - Exchange: the pallet's account covers every reserve and provision in every reachable
      state, also with the calls of the incentives pallet in between, unless governance
      enables a pair of a currency with itself ([self_pair_is_insolvent]); a trade never lowers the product of
      the reserves and pays what was quoted; the quotes for exact supply and exact target
      agree; liquidity cannot be diluted or withdrawn beyond its proportion; trading pairs
      follow their life cycle; failed calls leave no trace. Two theorems state where the code
      does not do what its documentation says ([provisioning_drops_second_side],
      [add_liquidity_exceeds_maximum]).
    - Incentives: staked shares are counted alike in both pools and held; what is reported as
      accumulated was issued; premium rewards can never be set.
    - Transaction payment: a transaction pays its actual fee, whichever currency the money
      comes from and however the dispatch ends, and the exchange stays solvent; the
      multiplier follows the load of the blocks.
    - Democracy: proposals are arbitrary calls, which may vote and open referenda themselves.
      Tallies are the sums of votes and delegations, votes stay sorted, the preimage of a
      passed referendum is kept for its enactment by every call but root's early one, and
      referenda that end are decided, if the preimages of those enacted are there and
      enactments are delayed; runs show a block that decides nothing, and what delay zero
      does ([enactment_on_the_spot_stops_the_block]).
    - Precompiled contracts: an encoded input is read back; only callers with low addresses
      reach the pallets; a swap through the EVM is the swap of the exchange, which stays
      solvent whatever a contract asks; a scheduled call is cancelled by its sender for the
      fee that was reserved. Two results give inputs that panic
      ([prices_of_many_decimals_panic], [long_data_panics]).
    - Tokens: whoever owns classes and tokens has their deposits reserved, in every reachable
      state; a token moves or ends only by its owner and in a class that allows it, and its
      deposit moves along; the encoding of properties is read back.
    - Currency identifiers: addresses decode to the currency they encode, for registered
      contracts; two theorems bound that claim ([decode_confuses_contracts],
      [small_contract_decodes_as_token]).
    - Staking: the pairing of stashes and controllers, the balance and the lock of every
      ledger, the counters and the exclusive roles hold in every reachable storage; within
      a span a stash is slashed the maximum; the same offence slashes once; deferred
      slashes are applied once or cancelled; funds leave through chunks that are due;
      bonded eras are a window; exposures add up and are clipped to the largest; no
      validator is paid twice for an era, and an era pays no more than its reward, but for
      rounding; the genesis leaves the invariant; the election gets each voter once, with
      its bond and without the nominations of before a slash.
    - Curve of rewards: the integer logarithm ends, does not overflow, is right in its whole
      part and monotone; where the pieces are short enough the macro ends with a curve that
      rises to the ideal stake and then falls through the points it computes itself, in
      pieces that are short but for the last ([last_piece_exceeds_the_bound]); where they are
      longer than the curve is high it panics ([few_pieces_panic]); it can make more pieces
      than it was asked for ([more_pieces_than_asked]). The inflation function is the documented curve over
      the real numbers but for a few units of its accuracy ([inflation_follows_the_curve]);
      its division of big integers is division, and its series ends before its bound.

    - EVM RPC: the search for gas ends, and answers what a limit it tried used; the message
      of a revert is looked for within what was returned, and an encoded one is read back.
    - Runtimes: accounts by themselves cannot govern the configured pallets; which
      collectives decide what ([authority_decides]); fee currencies have enabled paths to the
      native one where the genesis lists them; the fee multiplier recovers from its minimum;
      the parameters leave the room that the theorems on the pallets ask for; the authorities
      of the chain specification start as validators.

    ** Bounds

    Except in [RewardCurve] and [EvmRpc] there is no fuel: every recursion is structural, or
    by a measure (the digits of [EvmAccounts]). The search for gas in [EvmRpc] asks for the
    best block before every try: 32 turns are enough for any 64-bit limits while it stays the
    same, and 200 whatever it does ([enough_turns], [search_is_right]). In [RewardCurve] the search for a power of two
    has the 31 steps after which the source panics; the series has seven terms, of which
    the last is zero for every argument ([sum_terms_exact], [third_terms]); and the points
    take as much fuel as the first step and the height of the curve together. The 299 turns
    of the series in [Inflation] are the source's; 225 are enough ([vanishes_in_time]). What
    the interpreter of the EVM does is a well-founded tree of the calls it makes on the
    handler, because gas is finite. The invariants of the staking pallet
    hold while there are fewer than 2^32 - 1 validators and nominators and the active era
    is below 2^32 - 1 ([room], [era_room]), where the 32-bit counters of the source would
    saturate or wrap. Trading paths have at most the length the runtime configures.

    ** Not modelled

    - The prices pallet: its source does not parse, and its braces can be balanced in more
      than one way.
    - In serp-treasury the decision to serp ([serp_tes], [on_serpdown],
      [get_propper_proportion]): prices, options and amounts are mixed without a type.
    - In staking, what [end_era] stores and [make_payout], which are arguments of
      [StakingPayout], and the payout in setters, whose match does not parse; in the
      exchange [update_exchange_fee], in the incentives [update_accumulate_period], in
      democracy [second] and the two calls that note preimages (the inner functions are
      modelled): they use storage and names otherwise than these are declared.
    - Of the curve of rewards the parsing of tokens and the generated tests; in staking
      [era_payout], which names a variable that does not exist.
    - Of the runtimes the configuration of third-party pallets, the migrations and the
      runtime APIs; the node, its command line, the RPC glue and the inspection tool, which
      have no logic of their own. Weights, logging, benchmarks and storage encodings do not
      influence the results.

    ** This file

    What every component file uses: integers of width [w] as [Z] and the bounds of the
    Rust operations on them; outcomes, runs and their inversion; sums and bytes. *)

From Stdlib Require Export ZArith Lia Bool.
From stdpp Require Export base numbers option list gmap.

#[global] Open Scope Z_scope.

(** ** Unsigned machine integers *)

Definition umax (w : Z) : Z := 2 ^ w - 1.

Definition in_uint (w x : Z) : Prop := 0 <= x <= umax w.

Definition wrap (w x : Z) : Z := x mod 2 ^ w.

Definition sat_add (w a b : Z) : Z := Z.min (a + b) (umax w).

Definition sat_sub (a b : Z) : Z := Z.max (a - b) 0.

Definition sat_mul (w a b : Z) : Z := Z.min (a * b) (umax w).

Definition checked_add (w a b : Z) : option Z := if a + b <=? umax w then Some (a + b) else None.

Definition checked_sub (a b : Z) : option Z := if b <=? a then Some (a - b) else None.

Definition checked_mul (w a b : Z) : option Z := if a * b <=? umax w then Some (a * b) else None.

Definition checked_div (a b : Z) : option Z := if b =? 0 then None else Some (a / b).

(** The two's complement reading of the low [w] bits ([x as i32] and the like). *)
Definition to_signed (w x : Z) : Z :=
  let r := wrap w x in if r <? 2 ^ (w - 1) then r else r - 2 ^ w.

(** ** Outcomes and fallible state passing *)

Inductive outcome (E A : Type) : Type :=
| Ok (a : A)
| Err (e : E)
| Panic.

Arguments Ok {E A} a.
Arguments Err {E A} e.
Arguments Panic {E A}.

Definition M (S E A : Type) : Type := S -> outcome E A * S.

Definition ret {S E A : Type} (a : A) : M S E A := fun s => (Ok a, s).

Definition fail {S E A : Type} (e : E) : M S E A := fun s => (Err e, s).

Definition panic {S E A : Type} : M S E A := fun s => (Panic, s).

Definition bind {S E A B : Type} (m : M S E A) (k : A -> M S E B) : M S E B :=
  fun s =>
    match m s with
    | (Ok a, s') => k a s'
    | (Err e, s') => (Err e, s')
    | (Panic, s') => (Panic, s')
    end.

Definition get {S E : Type} : M S E S := fun s => (Ok s, s).

Definition gets {S E A : Type} (f : S -> A) : M S E A := fun s => (Ok (f s), s).

Definition modify {S E : Type} (f : S -> S) : M S E unit := fun s => (Ok tt, f s).

Definition ensure {S E : Type} (b : bool) (e : E) : M S E unit :=
  if b then ret tt else fail e.

Definition ok_or {S E A : Type} (o : option A) (e : E) : M S E A :=
  match o with Some a => ret a | None => fail e end.

(** [expect]/[unwrap] on an option. *)
Definition expect {S E A : Type} (o : option A) : M S E A :=
  match o with Some a => ret a | None => panic end.

(** [#[transactional]]: the writes of a failed call are rolled back. *)
Definition transactional {S E A : Type} (m : M S E A) : M S E A :=
  fun s =>
    match m s with
    | (Ok a, s') => (Ok a, s')
    | (Err e, _) => (Err e, s)
    | (Panic, _) => (Panic, s)
    end.

(** [let _ = call;] and [.is_err()]: the outcome is inspected, the error dropped. *)
Definition try_run {S E A : Type} (m : M S E A) : M S E (option A) :=
  fun s =>
    match m s with
    | (Ok a, s') => (Ok (Some a), s')
    | (Err _, s') => (Ok None, s')
    | (Panic, s') => (Panic, s')
    end.

(** A call into another component: its state is a part of ours and its errors
    are converted by [inj]. *)
Definition zoom {S T E X A : Type} (getT : S -> T) (setT : T -> S -> S) (inj : X -> E)
    (m : M T X A) : M S E A :=
  fun s =>
    match m (getT s) with
    | (Ok a, t) => (Ok a, setT t s)
    | (Err x, t) => (Err (inj x), setT t s)
    | (Panic, t) => (Panic, setT t s)
    end.

Declare Scope pallet_scope.
Delimit Scope pallet_scope with pallet.
#[global] Open Scope pallet_scope.

Notation "'let!' x ':=' m 'in' k" := (bind m (fun x => k))
  (at level 10, x pattern, m at level 100, k at level 200)
  : pallet_scope.
Notation "'do!' m 'in' k" := (bind m (fun _ => k))
  (at level 10, m at level 100, k at level 200) : pallet_scope.
Notation "'when!' b 'then' m" := (if b then m else ret tt)
  (at level 10, b at level 100, m at level 200) : pallet_scope.

(** A call that only reads the storage: a function of it. *)
Definition reads {S E A : Type} (f : S -> outcome E A) : M S E A := fun s => (f s, s).

Definition obind {E A B : Type} (o : outcome E A) (k : A -> outcome E B) : outcome E B :=
  match o with Ok a => k a | Err e => Err e | Panic => Panic end.

Definition oensure {E : Type} (b : bool) (e : E) : outcome E unit := if b then Ok tt else Err e.

Definition ok_or_err {E A : Type} (o : option A) (e : E) : outcome E A :=
  match o with Some a => Ok a | None => Err e end.

(** [Result::ok]. *)
Definition outcome_ok {E A : Type} (o : outcome E A) : option A :=
  match o with Ok a => Some a | _ => None end.

Notation "'let?' x ':=' m 'in' k" := (obind m (fun x => k))
  (at level 10, x pattern, m at level 100, k at level 200) : pallet_scope.
Notation "'do?' m 'in' k" := (obind m (fun _ => k))
  (at level 10, m at level 100, k at level 200) : pallet_scope.

(** A [for] loop over a collection. *)
Fixpoint for_each {S E A : Type} (body : A -> M S E unit) (l : list A) : M S E unit :=
  match l with
  | [] => ret tt
  | x :: l' => do! body x in for_each body l'
  end.

(** ** Finite sums *)

Fixpoint zsum {A : Type} (f : A -> Z) (l : list A) : Z :=
  match l with
  | [] => 0
  | x :: l' => f x + zsum f l'
  end.

(** ** Lemmas: machine integers *)

Create HintDb uint.

Lemma umax_nonneg w : 0 <= w -> 0 <= umax w.
Proof. intros Hw. unfold umax. pose proof (Z.pow_pos_nonneg 2 w). lia. Qed.

Lemma sat_add_le w a b : sat_add w a b <= a + b.
Proof. unfold sat_add. lia. Qed.

Lemma sat_add_exact w a b : a + b <= umax w -> sat_add w a b = a + b.
Proof. unfold sat_add. lia. Qed.

Lemma sat_add_range w a b : 0 <= w -> 0 <= a -> 0 <= b -> in_uint w (sat_add w a b).
Proof. intros Hw Ha Hb. pose proof (umax_nonneg w Hw). unfold in_uint, sat_add. lia. Qed.

Lemma sat_sub_exact a b : b <= a -> sat_sub a b = a - b.
Proof. unfold sat_sub. lia. Qed.

Lemma sat_sub_ge a b : a - b <= sat_sub a b.
Proof. unfold sat_sub. lia. Qed.

Lemma sat_sub_range w a b : in_uint w a -> 0 <= b -> in_uint w (sat_sub a b).
Proof. unfold in_uint, sat_sub. lia. Qed.

Lemma sat_mul_le w a b : sat_mul w a b <= a * b.
Proof. unfold sat_mul. lia. Qed.

Lemma sat_mul_nonneg w a b : 0 <= w -> 0 <= a -> 0 <= b -> 0 <= sat_mul w a b.
Proof. intros Hw Ha Hb. pose proof (umax_nonneg w Hw). unfold sat_mul. nia. Qed.

Lemma sat_mul_range w a b : 0 <= w -> 0 <= a -> 0 <= b -> in_uint w (sat_mul w a b).
Proof. intros Hw Ha Hb. pose proof (umax_nonneg w Hw). unfold in_uint, sat_mul. nia. Qed.

Lemma sat_mul_exact w a b : a * b <= umax w -> sat_mul w a b = a * b.
Proof. unfold sat_mul. lia. Qed.

Lemma wrap_exact w x : in_uint w x -> wrap w x = x.
Proof. unfold in_uint, wrap, umax. intros Hx. apply Z.mod_small. lia. Qed.

Lemma wrap_range w x : 0 <= w -> in_uint w (wrap w x).
Proof.
  intros Hw. unfold in_uint, wrap, umax.
  pose proof (Z.mod_pos_bound x (2 ^ w) (Z.pow_pos_nonneg 2 w ltac:(lia) Hw)). lia.
Qed.

Lemma checked_add_Some w a b c :
  checked_add w a b = Some c <-> c = a + b /\ a + b <= umax w.
Proof.
  unfold checked_add. destruct (Z.leb_spec (a + b) (umax w)); split; intros Hc;
    [simplify_eq; lia | destruct Hc; congruence | discriminate | lia].
Qed.

Lemma checked_sub_Some a b c : checked_sub a b = Some c <-> c = a - b /\ b <= a.
Proof.
  unfold checked_sub. destruct (Z.leb_spec b a); split; intros Hc;
    [simplify_eq; lia | destruct Hc; congruence | discriminate | lia].
Qed.

#[export] Hint Resolve sat_add_range sat_sub_range sat_mul_range wrap_range : uint.

(** ** Lemmas: runs *)

Create Rewrite HintDb pallet.

(** A run by its outcome, without comparing the storage. *)
Lemma ran {R S : Type} (x : R * S) (r : R) : x.1 = r -> x = (r, x.2).
Proof. by destruct x; intros <-. Qed.

Lemma bind_ok {S E A B : Type} (m : M S E A) (k : A -> M S E B) s b s2 :
  bind m k s = (Ok b, s2) <-> exists a s1, m s = (Ok a, s1) /\ k a s1 = (Ok b, s2).
Proof.
  unfold bind. destruct (m s) as [[a|e|] s1]; split; intros Hm; try naive_solver.
Qed.

Lemma ensure_ok {S E : Type} (b : bool) (e : E) (s : S) u s' :
  ensure b e s = (Ok u, s') <-> b = true /\ s' = s.
Proof. unfold ensure. destruct b, u; split; intros H; try naive_solver; inversion H; done. Qed.

Lemma ok_or_ok {S E A : Type} (o : option A) (e : E) (s : S) a s' :
  ok_or o e s = (Ok a, s') <-> o = Some a /\ s' = s.
Proof. unfold ok_or. destruct o; split; intros H; try naive_solver; inversion H; naive_solver. Qed.

Lemma expect_ok {S E A : Type} (o : option A) (s : S) a s' :
  @expect S E A o s = (Ok a, s') <-> o = Some a /\ s' = s.
Proof.
  unfold expect. destruct o; split; intros H; try naive_solver; inversion H; naive_solver.
Qed.

Lemma ret_ok {S E A : Type} (a b : A) (s s' : S) :
  @ret S E A a s = (Ok b, s') <-> b = a /\ s' = s.
Proof. unfold ret. split; intros H; [inversion H | destruct H; subst]; done. Qed.

Lemma gets_ok {S E A : Type} (f : S -> A) (s : S) b s' :
  @gets S E A f s = (Ok b, s') <-> b = f s /\ s' = s.
Proof. unfold gets. split; intros H; [inversion H | destruct H; subst]; done. Qed.

Lemma get_ok {S E : Type} (s b s' : S) :
  @get S E s = (Ok b, s') <-> b = s /\ s' = s.
Proof. unfold get. split; intros H; [inversion H | destruct H; subst]; done. Qed.

Lemma modify_ok {S E : Type} (f : S -> S) (s : S) u s' :
  @modify S E f s = (Ok u, s') <-> s' = f s.
Proof. unfold modify. destruct u. split; intros H; [inversion H | subst]; done. Qed.

Lemma fail_ok {S E A : Type} (e : E) (s : S) (a : A) s' :
  fail e s = (Ok a, s') <-> False.
Proof. unfold fail. split; [discriminate | done]. Qed.

Lemma panic_ok {S E A : Type} (s : S) (a : A) s' :
  @panic S E A s = (Ok a, s') <-> False.
Proof. unfold panic. split; [discriminate | done]. Qed.

Lemma transactional_ok {S E A : Type} (m : M S E A) s a s' :
  transactional m s = (Ok a, s') <-> m s = (Ok a, s').
Proof. unfold transactional. destruct (m s) as [[x|e|] t]; split; intros H; congruence. Qed.

(** The point of the attribute: a call that did not succeed left no trace. *)
Lemma transactional_rollback {S E A : Type} (m : M S E A) s r s' :
  transactional m s = (r, s') -> (forall a, r <> Ok a) -> s' = s.
Proof.
  unfold transactional. destruct (m s) as [[x|e|] t]; intros H Hr; simplify_eq; try done.
  by destruct (Hr x).
Qed.

Lemma zoom_ok {S T E X A : Type} (getT : S -> T) setT (inj : X -> E) (m : M T X A) s a s' :
  zoom getT setT inj m s = (Ok a, s') <->
  exists t, m (getT s) = (Ok a, t) /\ s' = setT t s.
Proof. unfold zoom. destruct (m (getT s)) as [[x|e|] t]; split; intros H; naive_solver. Qed.

Lemma try_run_ok {S E A : Type} (m : M S E A) s o s' :
  try_run m s = (Ok o, s') <->
  match o with
  | Some a => m s = (Ok a, s')
  | None => exists e, m s = (Err e, s')
  end.
Proof.
  unfold try_run. destruct (m s) as [[x|e|] t], o; split; intros H; naive_solver.
Qed.

Lemma reads_ok {S E A : Type} (f : S -> outcome E A) s a s' :
  reads f s = (Ok a, s') <-> f s = Ok a /\ s' = s.
Proof. unfold reads. split; [intros H; by injection H as -> -> | by intros [-> ->]]. Qed.

Lemma obind_ok {E A B : Type} (o : outcome E A) (k : A -> outcome E B) b :
  obind o k = Ok b <-> exists a, o = Ok a /\ k a = Ok b.
Proof. destruct o; simpl; split; intros H; try naive_solver. Qed.

Lemma oensure_ok {E : Type} (b : bool) (e : E) u : oensure b e = Ok u <-> b = true.
Proof. unfold oensure. destruct b, u; split; intros H; done. Qed.

Lemma ok_or_err_ok {E A : Type} (o : option A) (e : E) a : ok_or_err o e = Ok a <-> o = Some a.
Proof. destruct o; simpl; split; intros H; congruence. Qed.

#[export] Hint Rewrite @reads_ok @obind_ok @oensure_ok @ok_or_err_ok @bind_ok @ensure_ok @ok_or_ok @expect_ok @ret_ok @gets_ok @get_ok
  @modify_ok @fail_ok @panic_ok @transactional_ok @zoom_ok : pallet.

(** Take a successful run apart: every intermediate state and every guard. *)
Ltac run_step H :=
  lazymatch type of H with
  | _ /\ _ => let H1 := fresh "R" in destruct H as [H1 H]; run_step H1; run_step H
  | exists _, _ => let x := fresh "x" in destruct H as [x H]; run_step H
  | False => destruct H
  | bind _ _ _ = (Ok _, _) => rewrite bind_ok in H; run_step H
  | ensure _ _ _ = (Ok _, _) => rewrite ensure_ok in H; run_step H
  | ok_or _ _ _ = (Ok _, _) => rewrite ok_or_ok in H; run_step H
  | expect _ _ = (Ok _, _) => rewrite expect_ok in H; run_step H
  | ret _ _ = (Ok _, _) => rewrite ret_ok in H; run_step H
  | gets _ _ = (Ok _, _) => rewrite gets_ok in H; run_step H
  | get _ = (Ok _, _) => rewrite get_ok in H; run_step H
  | modify _ _ = (Ok _, _) => rewrite modify_ok in H; run_step H
  | reads _ _ = (Ok _, _) => rewrite reads_ok in H; run_step H
  | obind _ _ = Ok _ => rewrite obind_ok in H; run_step H
  | oensure _ _ = Ok _ => rewrite oensure_ok in H; run_step H
  | ok_or_err _ _ = Ok _ => rewrite ok_or_err_ok in H; run_step H
  | fail _ _ = (Ok _, _) => rewrite fail_ok in H; run_step H
  | panic _ = (Ok _, _) => rewrite panic_ok in H; run_step H
  | transactional _ _ = (Ok _, _) => rewrite transactional_ok in H; run_step H
  | zoom _ _ _ _ _ = (Ok _, _) => rewrite zoom_ok in H; run_step H
  | ?x = _ => first [is_var x; subst x | idtac]
  | _ => idtac
  end.

Ltac run_inv H := run_step H; simplify_eq/=.

(** Split boolean tests into propositions. *)
Ltac bool_inv :=
  repeat match goal with
    | H : _ && _ = true |- _ => apply andb_true_iff in H as [? ?]
    | H : negb _ = true |- _ => apply negb_true_iff in H
    | H : negb _ = false |- _ => apply negb_false_iff in H
    | H : _ || _ = false |- _ => apply orb_false_iff in H as [? ?]
    | H : (_ =? _) = true |- _ => apply Z.eqb_eq in H
    | H : (_ =? _) = false |- _ => apply Z.eqb_neq in H
    | H : (_ <=? _) = true |- _ => apply Z.leb_le in H
    | H : (_ <=? _) = false |- _ => apply Z.leb_gt in H
    | H : (_ <? _) = true |- _ => apply Z.ltb_lt in H
    | H : (_ <? _) = false |- _ => apply Z.ltb_ge in H
    | H : bool_decide _ = true |- _ => apply bool_decide_eq_true in H
    | H : bool_decide _ = false |- _ => apply bool_decide_eq_false in H
    end.

(** ** What a run keeps

    A preorder between the storage before and after: a program keeps it when each of
    its steps does. *)

Definition keeps {S E A : Type} (R : S -> S -> Prop) (m : M S E A) : Prop :=
  forall s a s', m s = (Ok a, s') -> R s s'.

Create HintDb keeps.

Section Keeps.
Context {S E : Type} (R : S -> S -> Prop) `{!PreOrder R}.

Lemma keeps_pure {A : Type} (m : M S E A) :
  (forall s a s', m s = (Ok a, s') -> s' = s) -> keeps R m.
Proof. intros Hm s a s' Hrun. apply Hm in Hrun as ->. reflexivity. Qed.

Lemma keeps_ret {A : Type} (a : A) : keeps R (@ret S E A a).
Proof. apply keeps_pure. intros s b s'. rewrite ret_ok. tauto. Qed.

Lemma keeps_gets {A : Type} (f : S -> A) : keeps R (@gets S E A f).
Proof. apply keeps_pure. intros s b s'. rewrite gets_ok. tauto. Qed.

Lemma keeps_get : keeps R (@get S E).
Proof. apply keeps_pure. intros s b s'. rewrite get_ok. tauto. Qed.

Lemma keeps_reads {A : Type} (f : S -> outcome E A) : keeps R (reads f).
Proof. apply keeps_pure. intros s b s'. rewrite reads_ok. tauto. Qed.

Lemma keeps_ensure (b : bool) (e : E) : keeps R (ensure b e).
Proof. apply keeps_pure. intros s a s'. rewrite ensure_ok. tauto. Qed.

Lemma keeps_ok_or {A : Type} (o : option A) (e : E) : keeps R (ok_or o e).
Proof. apply keeps_pure. intros s a s'. rewrite ok_or_ok. tauto. Qed.

Lemma keeps_expect {A : Type} (o : option A) : keeps R (@expect S E A o).
Proof. apply keeps_pure. intros s a s'. rewrite expect_ok. tauto. Qed.

Lemma keeps_fail {A : Type} (e : E) : keeps R (@fail S E A e).
Proof. intros s a s'. by rewrite fail_ok. Qed.

Lemma keeps_panic {A : Type} : keeps R (@panic S E A).
Proof. intros s a s'. by rewrite panic_ok. Qed.

Lemma keeps_modify (f : S -> S) : (forall s, R s (f s)) -> keeps R (@modify S E f).
Proof. intros Hf s a s'. rewrite modify_ok. by intros ->. Qed.

Lemma keeps_bind {A B : Type} (m : M S E A) (k : A -> M S E B) :
  keeps R m -> (forall a, keeps R (k a)) -> keeps R (bind m k).
Proof.
  intros Hm Hk s b s'. rewrite bind_ok. intros (a & s1 & H1 & H2).
  etransitivity; [by eapply Hm|by eapply Hk].
Qed.

Lemma keeps_transactional {A : Type} (m : M S E A) : keeps R m -> keeps R (transactional m).
Proof. intros Hm s a s'. rewrite transactional_ok. apply Hm. Qed.

Lemma keeps_for_each {A : Type} (body : A -> M S E unit) (l : list A) :
  (forall x, keeps R (body x)) -> keeps R (for_each body l).
Proof. intros Hb. induction l; [apply keeps_ret|by apply keeps_bind]. Qed.

Lemma keeps_for_each_all {A : Type} (body : A -> M S E unit) (l : list A) :
  Forall (fun x => keeps R (body x)) l -> keeps R (for_each body l).
Proof. intros Hb. induction Hb; [apply keeps_ret|by apply keeps_bind]. Qed.

End Keeps.

#[export] Hint Resolve keeps_ret keeps_gets keeps_get keeps_reads keeps_ensure keeps_ok_or
  keeps_expect keeps_fail keeps_panic : keeps.

(** Follow the program; what is left are the steps that are not structural. *)
Ltac keeps_step :=
  match goal with
  | |- keeps _ (bind _ _) => apply (keeps_bind _); [|intros ?]
  | |- keeps _ (transactional _) => apply (keeps_transactional _)
  | |- keeps _ (for_each _ _) => apply (keeps_for_each _); intros ?
  | |- keeps _ (let _ := _ in _) => cbv zeta
  | |- keeps _ (match ?x with _ => _ end) => destruct x
  | |- keeps _ _ => solve [eauto with keeps typeclass_instances]
  end.

Ltac keeps_tac := repeat keeps_step.

(** ** What a run keeps, however it ends *)

Definition moves {S E A : Type} (R : S -> S -> Prop) (m : M S E A) : Prop :=
  forall s r s', m s = (r, s') -> R s s'.

Create HintDb moves.

Section Moves.
Context {S E : Type} (R : S -> S -> Prop) `{!PreOrder R}.

Lemma moves_pure {A : Type} (m : M S E A) : (forall s, (m s).2 = s) -> moves R m.
Proof. intros Hm s r s' Hrun. specialize (Hm s). rewrite Hrun in Hm. simpl in Hm. by subst. Qed.

Lemma moves_ret {A : Type} (a : A) : moves R (@ret S E A a).
Proof. by apply moves_pure. Qed.

Lemma moves_gets {A : Type} (f : S -> A) : moves R (@gets S E A f).
Proof. by apply moves_pure. Qed.

Lemma moves_get : moves R (@get S E).
Proof. by apply moves_pure. Qed.

Lemma moves_reads {A : Type} (f : S -> outcome E A) : moves R (reads f).
Proof. by apply moves_pure. Qed.

Lemma moves_ensure (b : bool) (e : E) : moves R (ensure b e).
Proof. apply moves_pure. by destruct b. Qed.

Lemma moves_ok_or {A : Type} (o : option A) (e : E) : moves R (ok_or o e).
Proof. apply moves_pure. by destruct o. Qed.

Lemma moves_expect {A : Type} (o : option A) : moves R (@expect S E A o).
Proof. apply moves_pure. by destruct o. Qed.

Lemma moves_fail {A : Type} (e : E) : moves R (@fail S E A e).
Proof. by apply moves_pure. Qed.

Lemma moves_panic {A : Type} : moves R (@panic S E A).
Proof. by apply moves_pure. Qed.

Lemma moves_modify (f : S -> S) : (forall s, R s (f s)) -> moves R (@modify S E f).
Proof. intros Hf s r s' [= _ <-]. apply Hf. Qed.

Lemma moves_bind {A B : Type} (m : M S E A) (k : A -> M S E B) :
  moves R m -> (forall a, moves R (k a)) -> moves R (bind m k).
Proof.
  intros Hm Hk s r s'. unfold bind. destruct (m s) as [[a|e|] s1] eqn:E1; intros E2; simplify_eq;
    [|by eapply Hm..]. transitivity s1; [by eapply Hm|by eapply Hk].
Qed.

Lemma moves_try_run {A : Type} (m : M S E A) : moves R m -> moves R (try_run m).
Proof. intros Hm s r s'. unfold try_run. destruct (m s) as [[a|e|] s1] eqn:E1; intros [= <- <-]; by eapply Hm. Qed.

Lemma moves_for_each {A : Type} (body : A -> M S E unit) (l : list A) :
  (forall x, moves R (body x)) -> moves R (for_each body l).
Proof. intros Hb. induction l; simpl; [apply moves_ret|by apply moves_bind]. Qed.

Lemma moves_zoom {T X A : Type} (getT : S -> T) (setT : T -> S -> S) (inj : X -> E) (m : M T X A) :
  (forall t s, R s (setT t s)) -> moves R (zoom getT setT inj m).
Proof. intros Hs s r s'. unfold zoom. destruct (m (getT s)) as [[a|e|] t]; intros [= <- <-]; apply Hs. Qed.
End Moves.

#[export] Hint Resolve moves_ret moves_gets moves_get moves_reads moves_ensure moves_ok_or
  moves_expect moves_fail moves_panic : moves.

Ltac moves_step :=
  match goal with
  | |- moves _ (bind _ _) => apply (moves_bind _); [|intros ?]
  | |- moves _ (try_run _) => apply (moves_try_run _)
  | |- moves _ (for_each _ _) => apply (moves_for_each _); intros ?
  | |- moves _ (let _ := _ in _) => cbv zeta
  | |- moves _ (match ?x with _ => _ end) => destruct x
  | |- moves _ _ => solve [eauto with moves typeclass_instances]
  end.

Ltac moves_tac := repeat moves_step.

(** ** Failing without a trace

    A program whose guards all come before its writes leaves the storage as it was when
    it fails, without being [transactional]. *)

Definition readonly {S E A : Type} (m : M S E A) : Prop := forall s r s', m s = (r, s') -> s' = s.

Definition always_ok {S E A : Type} (m : M S E A) : Prop := forall s, exists a s', m s = (Ok a, s').

Definition clean {S E A : Type} (m : M S E A) : Prop :=
  forall s r s', m s = (r, s') -> (forall a, r <> Ok a) -> s' = s.

Create HintDb clean.

Section Clean.
Context {S E : Type}.

Lemma readonly_ret {A : Type} (a : A) : readonly (@ret S E A a).
Proof. intros s r s' [= <- <-]. done. Qed.

Lemma readonly_fail {A : Type} (e : E) : readonly (@fail S E A e).
Proof. intros s r s' [= <- <-]. done. Qed.

Lemma readonly_panic {A : Type} : readonly (@panic S E A).
Proof. intros s r s' [= <- <-]. done. Qed.

Lemma readonly_get : readonly (@get S E).
Proof. intros s r s' [= <- <-]. done. Qed.

Lemma readonly_gets {A : Type} (f : S -> A) : readonly (@gets S E A f).
Proof. intros s r s' [= <- <-]. done. Qed.

Lemma readonly_reads {A : Type} (f : S -> outcome E A) : readonly (reads f).
Proof. intros s r s' [= <- <-]. done. Qed.

Lemma readonly_ensure (b : bool) (e : E) : readonly (@ensure S E b e).
Proof. destruct b; [apply readonly_ret|apply readonly_fail]. Qed.

Lemma readonly_ok_or {A : Type} (o : option A) (e : E) : readonly (@ok_or S E A o e).
Proof. destruct o; [apply readonly_ret|apply readonly_fail]. Qed.

Lemma readonly_expect {A : Type} (o : option A) : readonly (@expect S E A o).
Proof. destruct o; [apply readonly_ret|apply readonly_panic]. Qed.

Lemma readonly_bind {A B : Type} (m : M S E A) (k : A -> M S E B) :
  readonly m -> (forall a, readonly (k a)) -> readonly (bind m k).
Proof.
  intros Hm Hk s r s'. unfold bind. destruct (m s) as [[a|e|] s1] eqn:E1; apply Hm in E1 as ->.
  - apply Hk.
  - by intros [= <- <-].
  - by intros [= <- <-].
Qed.

Lemma always_ret {A : Type} (a : A) : always_ok (@ret S E A a).
Proof. intros s. by eexists _, _. Qed.

Lemma always_get : always_ok (@get S E).
Proof. intros s. by eexists _, _. Qed.

Lemma always_gets {A : Type} (f : S -> A) : always_ok (@gets S E A f).
Proof. intros s. by eexists _, _. Qed.

Lemma always_modify (f : S -> S) : always_ok (@modify S E f).
Proof. intros s. by eexists _, _. Qed.

Lemma always_bind {A B : Type} (m : M S E A) (k : A -> M S E B) :
  always_ok m -> (forall a, always_ok (k a)) -> always_ok (bind m k).
Proof.
  intros Hm Hk s. destruct (Hm s) as (a & s1 & E1). destruct (Hk a s1) as (b & s2 & E2).
  exists b, s2. unfold bind. by rewrite E1.
Qed.

Lemma always_for_each {A : Type} (body : A -> M S E unit) (l : list A) :
  (forall x, always_ok (body x)) -> always_ok (for_each body l).
Proof. intros Hb. induction l; [apply always_ret|by apply always_bind]. Qed.

Lemma clean_readonly {A : Type} (m : M S E A) : readonly m -> clean m.
Proof. intros Hm s r s' Hrun _. by apply Hm in Hrun. Qed.

Lemma clean_always {A : Type} (m : M S E A) : always_ok m -> clean m.
Proof.
  intros Hm s r s' Hrun Hr. destruct (Hm s) as (a & s1 & E1). rewrite E1 in Hrun.
  injection Hrun as <- <-. by destruct (Hr a).
Qed.

Lemma clean_read_first {A B : Type} (m : M S E A) (k : A -> M S E B) :
  readonly m -> (forall a, clean (k a)) -> clean (bind m k).
Proof.
  intros Hm Hk s r s'. unfold bind. destruct (m s) as [[a|e|] s1] eqn:E1; apply Hm in E1 as ->.
  - apply Hk.
  - by intros [= <- <-].
  - by intros [= <- <-].
Qed.

Lemma clean_write_last {A B : Type} (m : M S E A) (k : A -> M S E B) :
  clean m -> (forall a, always_ok (k a)) -> clean (bind m k).
Proof.
  intros Hm Hk s r s'. unfold bind. destruct (m s) as [[a|e|] s1] eqn:E1.
  - intros Hrun Hr. destruct (Hk a s1) as (b & s2 & E2). rewrite E2 in Hrun.
    injection Hrun as <- <-. by destruct (Hr b).
  - intros [= <- <-] _. by eapply Hm.
  - intros [= <- <-] _. by eapply Hm.
Qed.

End Clean.

#[export] Hint Resolve readonly_ret readonly_fail readonly_panic readonly_get readonly_gets readonly_reads
  readonly_ensure readonly_ok_or readonly_expect always_ret always_get always_gets always_modify : clean.

Ltac readonly_tac :=
  repeat match goal with
    | |- readonly (bind _ _) => apply readonly_bind; [|intros ?]
    | |- readonly (let _ := _ in _) => cbv zeta
    | |- readonly (match ?x with _ => _ end) => destruct x
    | |- readonly _ => solve [auto with clean]
    end.

Ltac always_tac :=
  repeat match goal with
    | |- always_ok (bind _ _) => apply always_bind; [|intros ?]
    | |- always_ok (for_each _ _) => apply always_for_each; intros ?
    | |- always_ok (let _ := _ in _) => cbv zeta
    | |- always_ok (match ?x with _ => _ end) => destruct x
    | |- always_ok _ => solve [auto with clean]
    end.

(** Guards first, then writes: at each step one of the two rules applies. *)
Ltac clean_tac :=
  repeat match goal with
    | |- clean (let _ := _ in _) => cbv zeta
    | |- clean (bind _ _) =>
        first [ apply clean_read_first; [solve [readonly_tac]|intros ?]
              | apply clean_write_last; [|intros ?; solve [always_tac]] ]
    | |- clean (match ?x with _ => _ end) => destruct x
    | |- clean _ => first [ solve [auto with clean] | apply clean_readonly; solve [readonly_tac]
                          | apply clean_always; solve [always_tac] ]
    end.

(** ** Lemmas: sums *)

(** A run with a known outcome, without evaluating the state it leaves. *)
Lemma outcome_split {A B : Type} (p : A * B) a : p.1 = a -> p = (a, p.2).
Proof. destruct p. simpl. by intros ->. Qed.

(** What every step of a fold keeps, the fold keeps. *)
Lemma fold_left_inv {A B : Type} (P : A -> Prop) (f : A -> B -> A) (l : list B) (a : A) :
  (forall a x, P a -> P (f a x)) -> P a -> P (fold_left f l a).
Proof. intros Hf. revert a. induction l; simpl; auto. Qed.

Lemma zsum_app {A : Type} (f : A -> Z) (l k : list A) :
  zsum f (l ++ k) = zsum f l + zsum f k.
Proof. induction l; simpl; lia. Qed.

Lemma zsum_nonneg {A : Type} (f : A -> Z) (l : list A) :
  (forall x, x ∈ l -> 0 <= f x) -> 0 <= zsum f l.
Proof.
  induction l as [|x l IH]; intros Hf; simpl; [lia|].
  pose proof (Hf x ltac:(left)). specialize (IH (fun y Hy => Hf y ltac:(by right))). lia.
Qed.

Lemma zsum_ext {A : Type} (f g : A -> Z) (l : list A) :
  (forall x, x ∈ l -> f x = g x) -> zsum f l = zsum g l.
Proof.
  induction l as [|x l IH]; intros Hf; simpl; [done|].
  rewrite (Hf x ltac:(left)), IH; [done|]. intros y Hy. apply Hf. by right.
Qed.

Lemma zsum_le {A : Type} (f g : A -> Z) (l : list A) :
  (forall x, x ∈ l -> f x <= g x) -> zsum f l <= zsum g l.
Proof.
  induction l as [|x l IH]; intros Hf; simpl; [lia|].
  pose proof (Hf x ltac:(left)). specialize (IH (fun y Hy => Hf y ltac:(by right))). lia.
Qed.

#[global] Instance zsum_perm {A : Type} (f : A -> Z) : Proper ((≡ₚ) ==> (=)) (zsum f).
Proof. intros l k H. induction H; simpl; lia. Qed.

(** The sum of [f k v] over the bindings of a finite map. *)
Definition map_sum {K V : Type} `{Countable K} (f : K -> V -> Z) (m : gmap K V) : Z :=
  zsum (fun kv => f kv.1 kv.2) (map_to_list m).

Lemma map_sum_empty {K V : Type} `{Countable K} (f : K -> V -> Z) :
  map_sum f (∅ : gmap K V) = 0.
Proof. unfold map_sum. by rewrite map_to_list_empty. Qed.

Lemma map_sum_insert_new {K V : Type} `{Countable K} (f : K -> V -> Z) (m : gmap K V) k v :
  m !! k = None -> map_sum f (<[k:=v]> m) = f k v + map_sum f m.
Proof. intros Hk. unfold map_sum. by rewrite map_to_list_insert. Qed.

Lemma map_sum_delete {K V : Type} `{Countable K} (f : K -> V -> Z) (m : gmap K V) k v :
  m !! k = Some v -> map_sum f m = f k v + map_sum f (delete k m).
Proof.
  intros Hk. rewrite <- map_sum_insert_new by apply lookup_delete_eq.
  by rewrite insert_delete_id.
Qed.

(** The contribution of one key, zero when it is unbound. *)
Definition map_at {K V : Type} `{Countable K} (f : K -> V -> Z) (m : gmap K V) (k : K) : Z :=
  match m !! k with Some v => f k v | None => 0 end.

Lemma map_sum_delete_at {K V : Type} `{Countable K} (f : K -> V -> Z) (m : gmap K V) k :
  map_sum f (delete k m) = map_sum f m - map_at f m k.
Proof.
  unfold map_at. destruct (m !! k) as [v|] eqn:Hk.
  - rewrite (map_sum_delete f m k v Hk). lia.
  - rewrite delete_id by done. lia.
Qed.

Lemma map_sum_insert {K V : Type} `{Countable K} (f : K -> V -> Z) (m : gmap K V) k v :
  map_sum f (<[k:=v]> m) = map_sum f m - map_at f m k + f k v.
Proof.
  rewrite <- insert_delete_eq, map_sum_insert_new by apply lookup_delete_eq.
  rewrite map_sum_delete_at. lia.
Qed.

Lemma map_sum_nonneg {K V : Type} `{Countable K} (f : K -> V -> Z) (m : gmap K V) :
  (forall k v, m !! k = Some v -> 0 <= f k v) -> 0 <= map_sum f m.
Proof.
  intros Hf. apply zsum_nonneg. intros [k v] Hkv. simpl.
  apply Hf. by apply elem_of_map_to_list.
Qed.

Lemma map_at_le_sum {K V : Type} `{Countable K} (f : K -> V -> Z) (m : gmap K V) k :
  (forall k v, m !! k = Some v -> 0 <= f k v) -> map_at f m k <= map_sum f m.
Proof.
  intros Hf. assert (0 <= map_sum f (delete k m)) as Hd.
  { apply map_sum_nonneg. intros k' v'. rewrite lookup_delete_Some. intros [_ Hk']. by apply Hf. }
  rewrite map_sum_delete_at in Hd. lia.
Qed.

Lemma map_sum_ext {K V : Type} `{Countable K} (f g : K -> V -> Z) (m : gmap K V) :
  (forall k v, m !! k = Some v -> f k v = g k v) -> map_sum f m = map_sum g m.
Proof.
  intros Hfg. apply zsum_ext. intros [k v] Hk. apply Hfg. by apply elem_of_map_to_list.
Qed.

(** What an update at one key does to a sum whose terms change there and nowhere else. *)
Lemma map_sum_update {K V : Type} `{Countable K} (f g : K -> V -> Z) (m : gmap K V) k v :
  (forall j x, j <> k -> f j x = g j x) ->
  map_sum g (<[k := v]> m) = map_sum f m - map_at f m k + g k v.
Proof.
  intros Hfg. rewrite <- insert_delete_eq, map_sum_insert_new by apply lookup_delete_eq.
  rewrite <- map_sum_delete_at. rewrite (map_sum_ext g f); [lia|].
  intros j x Hj. apply lookup_delete_Some in Hj as [Hj _]. symmetry. apply Hfg. congruence.
Qed.

Lemma map_sum_zero {K V : Type} `{Countable K} (m : gmap K V) : map_sum (fun _ _ => 0) m = 0.
Proof. unfold map_sum. induction (map_to_list m); simpl; lia. Qed.

Lemma map_sum_linear {K V : Type} `{Countable K} (a b : Z) (f g : K -> V -> Z) (m : gmap K V) :
  map_sum (fun k v => a * f k v + b * g k v) m = a * map_sum f m + b * map_sum g m.
Proof. unfold map_sum. induction (map_to_list m) as [|x l IH]; simpl; [lia|]. rewrite IH. ring. Qed.

(** Removing the keys that satisfy [P] removes their contribution. *)
Lemma map_sum_filter {K V : Type} `{Countable K} (P : K -> Prop) `{!forall k, Decision (P k)}
    (f : K -> V -> Z) (m : gmap K V) :
  map_sum f (filter (fun kv => ~ P kv.1) m) =
  map_sum f m - map_sum (fun k v => if bool_decide (P k) then f k v else 0) m.
Proof.
  induction m as [|k v m Hk IH] using map_ind; [by rewrite map_filter_empty, !map_sum_empty|].
  rewrite !(map_sum_insert_new _ m k v) by done. destruct (decide (P k)) as [HP|HP].
  - rewrite map_filter_insert_not', bool_decide_eq_true_2 by (simpl; naive_solver).
    rewrite IH. lia.
  - rewrite map_filter_insert_True, bool_decide_eq_false_2 by done.
    rewrite map_sum_insert_new, IH by (apply map_lookup_filter_None; auto). lia.
Qed.

(** The sum over the entries picked from a map. *)
Lemma zsum_omap {A B : Type} (g : A -> option B) (f : B -> Z) (l : list A) :
  zsum f (omap g l) = zsum (fun x => match g x with Some y => f y | None => 0 end) l.
Proof. induction l as [|x l IH]; csimpl; [done|]. destruct (g x); csimpl; lia. Qed.

(** ** Big-endian bytes *)

(** The [n] big-endian bytes of [v] ([to_be_bytes], the bytes of a fixed hash). *)
Fixpoint be_bytes (n : nat) (v : Z) : list Z :=
  match n with
  | O => []
  | S n' => (v / 256 ^ Z.of_nat n') mod 256 :: be_bytes n' v
  end.

(** [from_be_bytes]. *)
Definition from_be (l : list Z) : Z := fold_left (fun acc b => acc * 256 + b) l 0.

(** [slice.starts_with]. *)
Fixpoint starts_with (p l : list Z) : bool :=
  match p, l with
  | [], _ => true
  | x :: p', y :: l' => (x =? y) && starts_with p' l'
  | _ :: _, [] => false
  end.

Lemma length_be_bytes n v : length (be_bytes n v) = n.
Proof. induction n; simpl; congruence. Qed.

Lemma be_bytes_add n a b : be_bytes n (a * 256 ^ Z.of_nat n + b) = be_bytes n b.
Proof.
  revert a. induction n as [|n IH]; intros a; [done|]. cbn [be_bytes].
  rewrite Nat2Z.inj_succ, Z.pow_succ_r by lia.
  replace (a * (256 * 256 ^ Z.of_nat n) + b) with ((a * 256) * 256 ^ Z.of_nat n + b) by lia.
  rewrite IH, Z.div_add_l by (apply Z.pow_nonzero; lia).
  rewrite Z.add_comm, Z.mod_add by lia. done.
Qed.

Lemma be_bytes_app m n a b :
  0 <= b < 256 ^ Z.of_nat n ->
  be_bytes (m + n) (a * 256 ^ Z.of_nat n + b) = be_bytes m a ++ be_bytes n b.
Proof.
  intros Hb. induction m as [|m IH]; [apply be_bytes_add|].
  cbn [be_bytes Nat.add app]. f_equal; [|done].
  rewrite Nat2Z.inj_add, Z.add_comm, (Z.add_comm (Z.of_nat m)), Z.pow_add_r by lia.
  rewrite <- Z.div_div by (try apply Z.pow_nonzero; try apply Z.pow_pos_nonneg; lia).
  rewrite Z.div_add by (apply Z.pow_nonzero; lia).
  by rewrite (Z.div_small b) by done.
Qed.

Lemma from_be_acc l acc :
  fold_left (fun acc b => acc * 256 + b) l acc = acc * 256 ^ Z.of_nat (length l) + from_be l.
Proof.
  unfold from_be. revert acc. induction l as [|x l IH]; intros acc; [simpl; lia|].
  cbn [fold_left length]. rewrite IH, (IH (0 * 256 + x)).
  rewrite Nat2Z.inj_succ, Z.pow_succ_r by lia. lia.
Qed.

Lemma from_be_app l k : from_be (l ++ k) = from_be l * 256 ^ Z.of_nat (length k) + from_be k.
Proof. unfold from_be at 1. by rewrite fold_left_app, from_be_acc. Qed.

Lemma from_be_cons x l : from_be (x :: l) = x * 256 ^ Z.of_nat (length l) + from_be l.
Proof. apply (from_be_app [x] l). Qed.

(** Decoding the bytes of an integer gives it back. *)
Lemma from_be_be_bytes n v : 0 <= v < 256 ^ Z.of_nat n -> from_be (be_bytes n v) = v.
Proof.
  revert v. induction n as [|n IH]; intros v Hv; [simpl in *; unfold from_be; simpl; lia|].
  cbn [be_bytes]. rewrite from_be_cons, length_be_bytes.
  rewrite Nat2Z.inj_succ, Z.pow_succ_r in Hv by lia.
  set (B := 256 ^ Z.of_nat n) in *. assert (0 < B) by (apply Z.pow_pos_nonneg; lia).
  assert (be_bytes n v = be_bytes n (v mod B)) as ->.
  { rewrite (Z.div_mod v B) at 1 by lia. rewrite (Z.mul_comm B). apply be_bytes_add. }
  rewrite IH by (apply Z.mod_pos_bound; lia).
  rewrite (Z.mod_small (v / B)) by (split; [apply Z.div_pos; lia | apply Z.div_lt_upper_bound; lia]).
  rewrite Z.mul_comm. symmetry. apply Z.div_mod. lia.
Qed.

Lemma be_bytes_range n v : Forall (fun b => 0 <= b < 256) (be_bytes n v).
Proof. induction n; simpl; constructor; [apply Z.mod_pos_bound; lia | done]. Qed.

Lemma from_be_range l :
  Forall (fun b => 0 <= b < 256) l -> 0 <= from_be l < 256 ^ Z.of_nat (length l).
Proof.
  induction 1 as [|x l Hx _ IH]; [unfold from_be; simpl; lia|].
  rewrite from_be_cons. cbn [length]. rewrite Nat2Z.inj_succ, Z.pow_succ_r by lia. nia.
Qed.

Lemma starts_with_app p l : starts_with p (p ++ l) = true.
Proof. induction p as [|x p IH]; simpl; [done|]. by rewrite Z.eqb_refl. Qed.
