(* ===== verification/Currency.v ===== *)
(** * Currency ids, trading pairs and their EVM addresses

    [primitives/src/currency.rs] and the parts of [primitives/src/lib.rs] it uses:
    the token table that the macro [create_currency_id!] expands to, the currency
    ids, the canonical order of a trading pair, and the encodings of a currency as
    a [u32] and as an EVM address. An [H160] and a [ResourceId] are the integers
    their big-endian bytes denote, so that the derived byte order is the order of
    the integers. *)

From Stdlib Require Import String.
From stdpp Require Import strings.
From S2P Require Import Prelude.

(** ** Tokens *)

Inductive TokenSymbol : Set :=
| DNAR
| DRAM
| SETT
| USDJ
| EURJ
| JPYJ
| GBPJ
| AUDJ
| CADJ
| CHFJ
| SGDJ
| BRLJ
| SARJ
| NEOM
| MENA
| NSETT
| JUSD
| JEUR
| JJPY
| JGBP
| JAUD
| JCAD
| JCHF
| JSGD
| JBRL
| JSAR
| RENBTC
| USD
| EUR
| JPY
| GBP
| AUD
| CAD
| CHF
| SGD
| BRL
| SAR
| KWD
| JOD
| BHD
| KYD
| OMR
| GIP.

Definition all_tokens : list TokenSymbol :=
  [DNAR; DRAM; SETT; USDJ; EURJ; JPYJ; GBPJ; AUDJ; CADJ; CHFJ; SGDJ; BRLJ; SARJ; NEOM; MENA; NSETT; JUSD; JEUR; JJPY; JGBP; JAUD; JCAD; JCHF; JSGD; JBRL; JSAR; RENBTC; USD; EUR; JPY; GBP; AUD; CAD; CHF; SGD; BRL; SAR; KWD; JOD; BHD; KYD; OMR; GIP].

(** [impl Into<u8> for TokenSymbol]. *)
Definition token_into_u8 (t : TokenSymbol) : Z :=
  match t with
  | DNAR => 0
  | DRAM => 1
  | SETT => 2
  | USDJ => 3
  | EURJ => 4
  | JPYJ => 5
  | GBPJ => 6
  | AUDJ => 7
  | CADJ => 8
  | CHFJ => 9
  | SGDJ => 10
  | BRLJ => 11
  | SARJ => 12
  | NEOM => 128
  | MENA => 129
  | NSETT => 130
  | JUSD => 131
  | JEUR => 132
  | JJPY => 133
  | JGBP => 134
  | JAUD => 135
  | JCAD => 136
  | JCHF => 137
  | JSGD => 138
  | JBRL => 139
  | JSAR => 140
  | RENBTC => 141
  | USD => 181
  | EUR => 182
  | JPY => 183
  | GBP => 184
  | AUD => 185
  | CAD => 186
  | CHF => 187
  | SGD => 188
  | BRL => 189
  | SAR => 190
  | KWD => 191
  | JOD => 192
  | BHD => 193
  | KYD => 194
  | OMR => 195
  | GIP => 196
  end.

(** [impl TryFrom<u8> for TokenSymbol]: the arms of the macro, in order. *)
Definition token_try_from_u8 (v : Z) : option TokenSymbol :=
  list_find (fun t => token_into_u8 t = v) all_tokens ≫= fun p => Some p.2.

(** The string after each token of the table. *)
Definition token_name (t : TokenSymbol) : string :=
  match t with
  | DNAR => "Setheum Dinar"
  | DRAM => "Setheum Dirham"
  | SETT => "Setter"
  | USDJ => "Setheum US Dollar"
  | EURJ => "Setheum Euro"
  | JPYJ => "Setheum Japanese Yen"
  | GBPJ => "Setheum Pound Sterling"
  | AUDJ => "Setheum Australian Dollar"
  | CADJ => "Setheum Canadian Dollar"
  | CHFJ => "Setheum Swiss Franc"
  | SGDJ => "Setheum Singapore Dollar"
  | BRLJ => "Setheum Brazilian Real"
  | SARJ => "Setheum Saudi Riyal"
  | NEOM => "Neom"
  | MENA => "Mena"
  | NSETT => "Neom Setter"
  | JUSD => "Neom US Dollar"
  | JEUR => "Neom Euro"
  | JJPY => "Neom Japanese Yen"
  | JGBP => "Neom Pound Sterling"
  | JAUD => "Neom Australian Dollar"
  | JCAD => "Neom Canadian Dollar"
  | JCHF => "Neom Swiss Franc"
  | JSGD => "Neom Singapore Dollar"
  | JBRL => "Neom Brazilian Real"
  | JSAR => "Neom Saudi Riyal"
  | RENBTC => "Ren Bitcoin"
  | USD => "Fiat US Dollar"
  | EUR => "Fiat Euro"
  | JPY => "Fiat Japanese Yen"
  | GBP => "Fiat Pound Sterling"
  | AUD => "Fiat Australian Dollar"
  | CAD => "Fiat Canadian Dollar"
  | CHF => "Fiat Swiss Franc"
  | SGD => "Fiat Singapore Dollar"
  | BRL => "Fiat Brazilian Real"
  | SAR => "Fiat Saudi Riyal"
  | KWD => "Fiat Kuwaiti Dinar"
  | JOD => "Fiat Jordanian Dinar"
  | BHD => "Fiat Bahraini Dirham"
  | KYD => "Fiat Cayman Islands Dollar"
  | OMR => "Fiat Omani Riyal"
  | GIP => "Fiat Gibraltar Pound"
  end%string.

(** [stringify!($symbol)]. *)
Definition token_symbol (t : TokenSymbol) : string :=
  match t with
  | DNAR => "DNAR"
  | DRAM => "DRAM"
  | SETT => "SETT"
  | USDJ => "USDJ"
  | EURJ => "EURJ"
  | JPYJ => "JPYJ"
  | GBPJ => "GBPJ"
  | AUDJ => "AUDJ"
  | CADJ => "CADJ"
  | CHFJ => "CHFJ"
  | SGDJ => "SGDJ"
  | BRLJ => "BRLJ"
  | SARJ => "SARJ"
  | NEOM => "NEOM"
  | MENA => "MENA"
  | NSETT => "NSETT"
  | JUSD => "JUSD"
  | JEUR => "JEUR"
  | JJPY => "JJPY"
  | JGBP => "JGBP"
  | JAUD => "JAUD"
  | JCAD => "JCAD"
  | JCHF => "JCHF"
  | JSGD => "JSGD"
  | JBRL => "JBRL"
  | JSAR => "JSAR"
  | RENBTC => "RENBTC"
  | USD => "USD"
  | EUR => "EUR"
  | JPY => "JPY"
  | GBP => "GBP"
  | AUD => "AUD"
  | CAD => "CAD"
  | CHF => "CHF"
  | SGD => "SGD"
  | BRL => "BRL"
  | SAR => "SAR"
  | KWD => "KWD"
  | JOD => "JOD"
  | BHD => "BHD"
  | KYD => "KYD"
  | OMR => "OMR"
  | GIP => "GIP"
  end%string.

Definition token_decimals (t : TokenSymbol) : Z :=
  match t with
  | DNAR => 10
  | DRAM => 10
  | SETT => 12
  | USDJ => 12
  | EURJ => 12
  | JPYJ => 12
  | GBPJ => 12
  | AUDJ => 12
  | CADJ => 12
  | CHFJ => 12
  | SGDJ => 12
  | BRLJ => 12
  | SARJ => 12
  | NEOM => 10
  | MENA => 10
  | NSETT => 12
  | JUSD => 12
  | JEUR => 12
  | JJPY => 12
  | JGBP => 12
  | JAUD => 12
  | JCAD => 12
  | JCHF => 12
  | JSGD => 12
  | JBRL => 12
  | JSAR => 12
  | RENBTC => 8
  | USD => 12
  | EUR => 12
  | JPY => 12
  | GBP => 12
  | AUD => 12
  | CAD => 12
  | CHF => 12
  | SGD => 12
  | BRL => 12
  | SAR => 12
  | KWD => 12
  | JOD => 12
  | BHD => 12
  | KYD => 12
  | OMR => 12
  | GIP => 12
  end.

(** [TokenSymbol::get_info]. *)
Definition get_info : list (string * Z) :=
  map (fun t => (token_symbol t, token_decimals t)) all_tokens.

(** ** Currency ids *)

Definition H160 : Type := Z.

Definition EvmAddress : Type := H160.

Definition ResourceId : Type := Z.

Inductive DexShare : Type :=
| DexShareToken (t : TokenSymbol)
| DexShareErc20 (a : EvmAddress).

Inductive CurrencyId : Type :=
| Token (t : TokenSymbol)
| DexShareId (l r : DexShare)
| Erc20 (a : EvmAddress)
| ChainBridge (r : ResourceId).

(** The bytes of a string ([as_bytes], [bstringify!]). *)
Definition string_bytes (s : string) : list Z :=
  map (fun c => Z.of_nat (Ascii.nat_of_ascii c)) (String.list_ascii_of_string s).

(** [impl TryFrom<Vec<u8>> for CurrencyId]. *)
Definition currency_try_from_bytes (v : list Z) : option CurrencyId :=
  list_find (fun t => string_bytes (token_symbol t) = v) all_tokens ≫= fun p => Some (Token p.2).

(** [impl TokenInfo for CurrencyId]. *)
Definition currency_id (c : CurrencyId) : option Z :=
  match c with Token t => Some (token_into_u8 t) | _ => None end.

Definition name (c : CurrencyId) : option string :=
  match c with Token t => Some (token_name t) | _ => None end.

Definition symbol (c : CurrencyId) : option string :=
  match c with Token t => Some (token_symbol t) | _ => None end.

Definition decimals (c : CurrencyId) : option Z :=
  match c with Token t => Some (token_decimals t) | _ => None end.

Definition is_token_currency_id (c : CurrencyId) : bool :=
  match c with Token _ => true | _ => false end.

Definition is_dex_share_currency_id (c : CurrencyId) : bool :=
  match c with DexShareId _ _ => true | _ => false end.

Definition is_erc20_currency_id (c : CurrencyId) : bool :=
  match c with Erc20 _ => true | _ => false end.

(** [impl Into<CurrencyId> for DexShare]. *)
Definition dex_share_into_currency (d : DexShare) : CurrencyId :=
  match d with
  | DexShareToken t => Token t
  | DexShareErc20 a => Erc20 a
  end.

Definition split_dex_share_currency_id (c : CurrencyId) : option (CurrencyId * CurrencyId) :=
  match c with
  | DexShareId token_symbol_0 token_symbol_1 =>
      Some (dex_share_into_currency token_symbol_0, dex_share_into_currency token_symbol_1)
  | _ => None
  end.

(** The two [match]es of [join_dex_share_currency_id]. *)
Definition to_dex_share (c : CurrencyId) : option DexShare :=
  match c with
  | Token s => Some (DexShareToken s)
  | Erc20 a => Some (DexShareErc20 a)
  | _ => None
  end.

Definition join_dex_share_currency_id (c0 c1 : CurrencyId) : option CurrencyId :=
  token_symbol_0 ← to_dex_share c0;
  token_symbol_1 ← to_dex_share c1;
  Some (DexShareId token_symbol_0 token_symbol_1).

(** ** The derived order *)

Definition dex_share_compare (a b : DexShare) : comparison :=
  match a, b with
  | DexShareToken t, DexShareToken u => Z.compare (token_into_u8 t) (token_into_u8 u)
  | DexShareToken _, DexShareErc20 _ => Lt
  | DexShareErc20 _, DexShareToken _ => Gt
  | DexShareErc20 x, DexShareErc20 y => Z.compare x y
  end.

Definition currency_rank (c : CurrencyId) : Z :=
  match c with Token _ => 0 | DexShareId _ _ => 1 | Erc20 _ => 2 | ChainBridge _ => 3 end.

Definition currency_compare (a b : CurrencyId) : comparison :=
  match a, b with
  | Token t, Token u => Z.compare (token_into_u8 t) (token_into_u8 u)
  | DexShareId l r, DexShareId l' r' =>
      match dex_share_compare l l' with Eq => dex_share_compare r r' | c => c end
  | Erc20 x, Erc20 y => Z.compare x y
  | ChainBridge x, ChainBridge y => Z.compare x y
  | _, _ => Z.compare (currency_rank a) (currency_rank b)
  end.

Definition currency_gtb (a b : CurrencyId) : bool :=
  match currency_compare a b with Gt => true | _ => false end.

(** ** Trading pairs *)

Record TradingPair : Type := MkPair { pair_0 : CurrencyId; pair_1 : CurrencyId }.

Definition TradingPair_new (a b : CurrencyId) : TradingPair :=
  if currency_gtb a b then MkPair b a else MkPair a b.

Definition from_token_currency_ids (c0 c1 : CurrencyId) : option TradingPair :=
  if (is_token_currency_id c0 || is_erc20_currency_id c0)
     && (is_token_currency_id c1 || is_erc20_currency_id c1)
  then Some (TradingPair_new c1 c0)
  else None.

Definition get_dex_share_currency_id (p : TradingPair) : option CurrencyId :=
  join_dex_share_currency_id (pair_0 p) (pair_1 p).

(** ** Encodings *)

Definition MIRRORED_TOKENS_ADDRESS_START : Z := 0x1000000.

Definition H160_PREFIX_TOKEN : list Z := repeat 0 16 ++ [1; 0; 0].

Definition H160_PREFIX_DEXSHARE : list Z := repeat 0 11 ++ [1].

(** [H160::as_bytes]. *)
Definition as_bytes (a : H160) : list Z := be_bytes 20 a.

(** [slice[i..i + n]]. *)
Definition slice (i n : nat) (l : list Z) : list Z := take n (drop i l).

(** [take_while(is_zero).count()]. *)
Fixpoint leading_zeros (l : list Z) : nat :=
  match l with
  | b :: l' => if b =? 0 then S (leading_zeros l') else 0%nat
  | [] => 0%nat
  end.

(** [impl From<DexShare> for u32]. *)
Definition dex_share_into_u32 (val : DexShare) : Z :=
  let bytes :=
    match val with
    | DexShareToken token => [0; 0; 0; token_into_u8 token]
    | DexShareErc20 address =>
        let leading_zeros := leading_zeros (as_bytes address) in
        let index := if (16 <? leading_zeros)%nat then 16%nat else leading_zeros in
        slice index 4 (as_bytes address)
    end in
  from_be bytes.

(** [EvmAddress::default()] with its first bytes overwritten by [copy_from_slice]. *)
Definition with_prefix (p : list Z) : H160 := from_be (p ++ drop (length p) (as_bytes 0)).

(** The address of a pair of LP tokens, from the [u32]s of its two sides. *)
Definition dex_share_address (symbol_0 symbol_1 : Z) : EvmAddress :=
  Z.lor (with_prefix H160_PREFIX_DEXSHARE) (Z.lor (Z.shiftl symbol_0 32) symbol_1).

(** [impl TryFrom<CurrencyId> for EvmAddress]. *)
Definition evm_address_try_from (val : CurrencyId) : option EvmAddress :=
  match val with
  | Token _ =>
      id ← currency_id val;
      Some (Z.lor MIRRORED_TOKENS_ADDRESS_START id)
  | DexShareId token_symbol_0 token_symbol_1 =>
      symbol_0 ← match token_symbol_0 with
                 | DexShareToken token => currency_id (Token token)
                 | DexShareErc20 _ => None
                 end;
      symbol_1 ← match token_symbol_1 with
                 | DexShareToken token => currency_id (Token token)
                 | DexShareErc20 _ => None
                 end;
      Some (dex_share_address symbol_0 symbol_1)
  | Erc20 address => Some address
  | ChainBridge _ => None
  end.

(** ** Decidability *)

Lemma token_try_from_into t : token_try_from_u8 (token_into_u8 t) = Some t.
Proof. by destruct t. Qed.

#[global] Instance token_into_u8_inj : Inj (=) (=) token_into_u8.
Proof.
  intros t u H. pose proof (token_try_from_into t) as Ht.
  rewrite H, token_try_from_into in Ht. by simplify_eq.
Qed.

#[global] Instance TokenSymbol_eq_dec : EqDecision TokenSymbol.
Proof.
  refine (fun t u => cast_if (decide (token_into_u8 t = token_into_u8 u)));
    [by apply (inj token_into_u8) | by intros ->].
Defined.

#[global] Instance TokenSymbol_countable : Countable TokenSymbol :=
  inj_countable token_into_u8 token_try_from_u8 token_try_from_into.

#[global] Instance DexShare_eq_dec : EqDecision DexShare.
Proof. solve_decision. Defined.

#[global] Instance DexShare_countable : Countable DexShare.
Proof.
  refine (inj_countable'
    (fun d => match d with DexShareToken t => inl t | DexShareErc20 a => inr a end)
    (fun s : TokenSymbol + Z =>
       match s with inl t => DexShareToken t | inr a => DexShareErc20 a end) _).
  by intros [].
Defined.

#[global] Instance CurrencyId_eq_dec : EqDecision CurrencyId.
Proof. solve_decision. Defined.

#[global] Instance CurrencyId_countable : Countable CurrencyId.
Proof.
  refine (inj_countable'
    (fun c => match c with
              | Token t => inl (inl t) | DexShareId l r => inl (inr (l, r))
              | Erc20 a => inr (inl a) | ChainBridge r => inr (inr r)
              end)
    (fun s : (TokenSymbol + (DexShare * DexShare)) + (Z + Z) =>
       match s with
       | inl (inl t) => Token t | inl (inr (l, r)) => DexShareId l r
       | inr (inl a) => Erc20 a | inr (inr r) => ChainBridge r
       end) _).
  by intros [].
Defined.

#[global] Instance TradingPair_eq_dec : EqDecision TradingPair.
Proof. solve_decision. Defined.

#[global] Instance TradingPair_countable : Countable TradingPair.
Proof.
  refine (inj_countable' (fun p => (pair_0 p, pair_1 p)) (fun q => MkPair q.1 q.2) _).
  by intros [].
Defined.

Definition currency_eqb (a b : CurrencyId) : bool := bool_decide (a = b).

(** ** The order *)

Lemma dex_share_compare_eq a b : dex_share_compare a b = Eq <-> a = b.
Proof.
  destruct a, b; simpl; rewrite ?Z.compare_eq_iff; split; intros H; try discriminate; try congruence.
  f_equal. by apply (inj token_into_u8).
Qed.

Lemma dex_share_compare_antisym a b : dex_share_compare b a = CompOpp (dex_share_compare a b).
Proof. destruct a, b; simpl; try done; apply Z.compare_antisym. Qed.

Lemma dex_share_compare_trans a b c :
  dex_share_compare a b = Lt -> dex_share_compare b c = Lt -> dex_share_compare a c = Lt.
Proof. destruct a, b, c; simpl; rewrite ?Z.compare_lt_iff; try done; lia. Qed.

Lemma currency_compare_eq a b : currency_compare a b = Eq <-> a = b.
Proof.
  destruct a, b; simpl; rewrite ?Z.compare_eq_iff; split; intros H; try discriminate; try congruence.
  - f_equal. by apply (inj token_into_u8).
  - destruct (dex_share_compare l l0) eqn:E; try discriminate.
    apply dex_share_compare_eq in E, H. congruence.
  - simplify_eq. by rewrite (proj2 (dex_share_compare_eq _ _) eq_refl), dex_share_compare_eq.
Qed.

Lemma currency_compare_antisym a b : currency_compare b a = CompOpp (currency_compare a b).
Proof.
  destruct a, b; simpl; try done; try apply Z.compare_antisym.
  rewrite (dex_share_compare_antisym l). destruct (dex_share_compare l l0); simpl; try done.
  apply dex_share_compare_antisym.
Qed.

Lemma currency_compare_trans a b c :
  currency_compare a b = Lt -> currency_compare b c = Lt -> currency_compare a c = Lt.
Proof.
  destruct a as [t|l r|x|x], b as [t'|l' r'|x'|x'], c as [t''|l'' r''|x''|x''];
    cbn [currency_compare currency_rank]; rewrite ?Z.compare_lt_iff; try done; try lia.
  destruct (dex_share_compare l l') eqn:E1, (dex_share_compare l' l'') eqn:E2; try done.
  - apply dex_share_compare_eq in E1, E2. subst.
    rewrite (proj2 (dex_share_compare_eq _ _) eq_refl). apply dex_share_compare_trans.
  - apply dex_share_compare_eq in E1. subst. by rewrite E2.
  - apply dex_share_compare_eq in E2. subst. by rewrite E1.
  - intros _ _. by rewrite (dex_share_compare_trans _ _ _ E1 E2).
Qed.

(** ** Pairs *)

Lemma TradingPair_new_comm a b : TradingPair_new a b = TradingPair_new b a.
Proof.
  unfold TradingPair_new, currency_gtb. rewrite (currency_compare_antisym a b).
  destruct (currency_compare a b) eqn:E; simpl; try done.
  apply currency_compare_eq in E. by subst.
Qed.

Lemma TradingPair_new_cases a b :
  TradingPair_new a b = MkPair a b \/ TradingPair_new a b = MkPair b a.
Proof. unfold TradingPair_new. destruct (currency_gtb a b); auto. Qed.

(** A pair read in either direction is the pair itself. *)
Lemma TradingPair_new_sides a b :
  TradingPair_new (pair_0 (TradingPair_new a b)) (pair_1 (TradingPair_new a b)) = TradingPair_new a b.
Proof.
  destruct (TradingPair_new_cases a b) as [E|E]; rewrite E; simpl; [done|].
  by rewrite TradingPair_new_comm.
Qed.

(** What a client gets from a pair: the ids it was made of, in canonical order. *)
Lemma from_token_currency_ids_Some a b p :
  from_token_currency_ids a b = Some p -> p = TradingPair_new a b.
Proof.
  unfold from_token_currency_ids. case_match; [|done]. intros. simplify_eq.
  apply TradingPair_new_comm.
Qed.

Lemma from_token_dex_share a b p :
  from_token_currency_ids a b = Some p -> exists lp, get_dex_share_currency_id p = Some lp.
Proof.
  intros Hp. pose proof (from_token_currency_ids_Some _ _ _ Hp) as ->.
  unfold from_token_currency_ids in Hp. case_match eqn:E; [|done]. bool_inv.
  destruct (TradingPair_new_cases a b) as [->| ->];
    unfold get_dex_share_currency_id, join_dex_share_currency_id; simpl;
    destruct a, b; simpl in *; try done; eauto.
Qed.

(** Joining two currencies into a share currency and splitting it again. *)
Lemma to_dex_share_into c d : to_dex_share c = Some d -> dex_share_into_currency d = c.
Proof. destruct c; simpl; intros; by simplify_eq. Qed.

Lemma split_join_dex_share a b lp :
  join_dex_share_currency_id a b = Some lp -> split_dex_share_currency_id lp = Some (a, b).
Proof.
  unfold join_dex_share_currency_id. destruct (to_dex_share a) as [da|] eqn:Ea; [|done].
  destruct (to_dex_share b) as [db|] eqn:Eb; [|done]. simpl. intros. simplify_eq. simpl.
  by rewrite (to_dex_share_into _ _ Ea), (to_dex_share_into _ _ Eb).
Qed.

(** Distinct pairs have distinct share currencies. *)
Lemma get_dex_share_inj p q lp :
  get_dex_share_currency_id p = Some lp -> get_dex_share_currency_id q = Some lp -> p = q.
Proof.
  unfold get_dex_share_currency_id. intros Hp Hq.
  apply split_join_dex_share in Hp, Hq. rewrite Hp in Hq. destruct p, q. simpl in *. by simplify_eq.
Qed.

(** ** Encodings *)

Lemma token_into_u8_range t : 0 <= token_into_u8 t < 256.
Proof. destruct t; simpl; lia. Qed.

Lemma dex_share_token_u32 t : dex_share_into_u32 (DexShareToken t) = token_into_u8 t.
Proof. unfold dex_share_into_u32, from_be. simpl. lia. Qed.

Lemma be_bytes_split m n v :
  be_bytes (m + n) v = be_bytes m (v / 256 ^ Z.of_nat n) ++ be_bytes n (v mod 256 ^ Z.of_nat n).
Proof.
  assert (0 < 256 ^ Z.of_nat n) by (apply Z.pow_pos_nonneg; lia).
  rewrite <- be_bytes_app by (apply Z.mod_pos_bound; done).
  f_equal. rewrite (Z.div_mod v (256 ^ Z.of_nat n)) at 1 by lia. lia.
Qed.

Lemma slice_range i n l :
  Forall (fun b => 0 <= b < 256) l -> 0 <= from_be (slice i n l) < 256 ^ Z.of_nat n.
Proof.
  intros Hl. unfold slice.
  pose proof (from_be_range (take n (drop i l)) ltac:(apply Forall_take, Forall_drop, Hl)) as Hr.
  split; [lia|]. eapply Z.lt_le_trans; [apply Hr|].
  apply Z.pow_le_mono_r; [lia|]. rewrite length_take. lia.
Qed.

Lemma dex_share_u32_range d : in_uint 32 (dex_share_into_u32 d).
Proof.
  unfold in_uint, umax. destruct d as [t|a].
  - rewrite dex_share_token_u32. pose proof (token_into_u8_range t). lia.
  - unfold dex_share_into_u32.
    match goal with |- 0 <= from_be (slice ?i 4 _) <= _ =>
      pose proof (slice_range i 4 (as_bytes a) (be_bytes_range _ _)) end.
    change (256 ^ Z.of_nat 4) with (2 ^ 32) in *. lia.
Qed.

Lemma land_shiftl_low a b n : 0 <= n -> 0 <= b < 2 ^ n -> Z.land (Z.shiftl a n) b = 0.
Proof.
  intros Hn Hb. apply Z.bits_inj'. intros i Hi. rewrite Z.land_spec, Z.bits_0, Z.shiftl_spec by done.
  destruct (Z.lt_ge_cases i n) as [Hin|Hin]; [by rewrite Z.testbit_neg_r by lia|].
  assert (Z.testbit b i = false) as ->; [|apply andb_false_r].
  destruct (Z.eq_dec b 0) as [->|]; [apply Z.bits_0|].
  apply Z.bits_above_log2; [lia|]. apply Z.lt_le_trans with n; [|lia]. apply Z.log2_lt_pow2; lia.
Qed.

Lemma lor_shiftl_add a b n : 0 <= n -> 0 <= b < 2 ^ n -> Z.lor (Z.shiftl a n) b = a * 2 ^ n + b.
Proof.
  intros Hn Hb. rewrite <- Z.shiftl_mul_pow2 by done.
  symmetry. rewrite Z.add_nocarry_lxor, Z.lxor_lor; try done; by apply land_shiftl_low.
Qed.

(** The address of a share currency is its prefix followed by the two sides. *)
Lemma dex_share_address_value l r :
  in_uint 32 l -> in_uint 32 r -> dex_share_address l r = 1 * 2 ^ 64 + (l * 2 ^ 32 + r).
Proof.
  unfold in_uint, umax. intros Hl Hr. unfold dex_share_address.
  rewrite (lor_shiftl_add l r 32) by lia.
  change (with_prefix H160_PREFIX_DEXSHARE) with (Z.shiftl 1 64).
  apply lor_shiftl_add; lia.
Qed.

Lemma dex_share_address_bytes l r :
  in_uint 32 l -> in_uint 32 r ->
  as_bytes (dex_share_address l r) = H160_PREFIX_DEXSHARE ++ be_bytes 4 l ++ be_bytes 4 r.
Proof.
  intros Hl Hr. rewrite dex_share_address_value by done. unfold in_uint, umax, as_bytes in *.
  change (2 ^ 64) with (256 ^ Z.of_nat 8). rewrite (be_bytes_app 12 8) by (simpl Z.of_nat; lia).
  change (2 ^ 32) with (256 ^ Z.of_nat 4). rewrite (be_bytes_app 4 4) by (simpl Z.of_nat; lia).
  done.
Qed.
