(* ===== verification/EvmManager.v ===== *)
(** * The EVM manager: currencies, [u32] ids and EVM addresses

    [lib-serml/evm/evm-manager/src/lib.rs]. The pallet keeps one map, from the
    [u32] id of an ERC20 contract to what it learned from the contract when the
    mapping was made. The contract itself is reached through the [EVMBridge] trait:
    its implementation runs EVM code and is a parameter here (class [EVMBridge]). *)

From Stdlib Require Import String.
From stdpp Require Import strings.
From S2P Require Import Prelude Currency.

(** ** The state *)

Record Erc20Info : Type := MkErc20Info {
  info_address : EvmAddress;
  info_name : list Z;
  info_symbol : list Z;
  info_decimals : Z
}.

Record InvokeContext : Type := MkInvokeContext {
  ctx_contract : EvmAddress;
  ctx_sender : EvmAddress;
  ctx_origin : EvmAddress
}.

Inductive EvmManagerError : Type := CurrencyIdExisted.

(** The trait of [lib-serml/support/src/lib.rs] as this pallet uses it: queries that
    may run code ([L] is the rest of the chain) and may fail with an error [X]. *)
Class EVMBridge (L X : Type) : Type := {
  bridge_name : InvokeContext -> M L X (list Z);
  bridge_symbol : InvokeContext -> M L X (list Z);
  bridge_decimals : InvokeContext -> M L X Z
}.

Section EvmManager.
Context {L X : Type} `{EVMBridge L X}.

Record State : Type := MkState {
  currency_id_map : gmap Z Erc20Info;
  chain : L
}.

Definition set_map (f : gmap Z Erc20Info -> gmap Z Erc20Info) (s : State) : State :=
  MkState (f (currency_id_map s)) (chain s).

Definition set_chain (l : L) (s : State) : State := MkState (currency_id_map s) l.

Definition call_bridge {A : Type} (m : M L X A) : M State (EvmManagerError + X) A :=
  zoom chain set_chain inr m.

Definition set_erc20_mapping (address : EvmAddress) : M State (EvmManagerError + X) unit :=
  let key := dex_share_into_u32 (DexShareErc20 address) in
  let! maybe_erc20_info := gets (fun s => currency_id_map s !! key) in
  match maybe_erc20_info with
  | Some erc20_info => ensure (info_address erc20_info =? address) (inl CurrencyIdExisted)
  | None =>
      let invoke_context := MkInvokeContext address 0 0 in
      let! name := call_bridge (bridge_name invoke_context) in
      let! symbol := call_bridge (bridge_symbol invoke_context) in
      let! decimals := call_bridge (bridge_decimals invoke_context) in
      modify (set_map <[key := MkErc20Info address name symbol decimals]>)
  end.

End EvmManager.

(** ** The queries, on the map *)

Section Queries.
Variable m : gmap Z Erc20Info.

Definition get_evm_address (id : Z) : option EvmAddress := info_address <$> m !! id.

(** [CurrencyIdMap::get(id).filter(|v| v.address == address)]. *)
Definition mapped (address : EvmAddress) : option Erc20Info :=
  v ← m !! dex_share_into_u32 (DexShareErc20 address);
  if info_address v =? address then Some v else None.

Definition dex_share_name (d : DexShare) : option (list Z) :=
  match d with
  | DexShareToken symbol => string_bytes <$> name (Token symbol)
  | DexShareErc20 address => info_name <$> mapped address
  end.

Definition dex_share_symbol (d : DexShare) : option (list Z) :=
  match d with
  | DexShareToken s => string_bytes <$> symbol (Token s)
  | DexShareErc20 address => info_symbol <$> mapped address
  end.

Definition dex_share_decimals (d : DexShare) : option Z :=
  match d with
  | DexShareToken s => decimals (Token s)
  | DexShareErc20 address => info_decimals <$> mapped address
  end.

(** More than 32 bytes are truncated. *)
Definition truncate32 (v : list Z) : list Z := if (32 <? length v)%nat then take 32 v else v.

Definition manager_name (c : CurrencyId) : option (list Z) :=
  truncate32 <$>
  match c with
  | Token _ => string_bytes <$> name c
  | DexShareId symbol_0 symbol_1 =>
      name_0 ← dex_share_name symbol_0;
      name_1 ← dex_share_name symbol_1;
      Some (string_bytes "LP " ++ name_0 ++ string_bytes " - " ++ name_1)
  | Erc20 address => info_name <$> mapped address
  | ChainBridge _ => None
  end.

Definition manager_symbol (c : CurrencyId) : option (list Z) :=
  truncate32 <$>
  match c with
  | Token _ => string_bytes <$> symbol c
  | DexShareId symbol_0 symbol_1 =>
      token_symbol_0 ← dex_share_symbol symbol_0;
      token_symbol_1 ← dex_share_symbol symbol_1;
      Some (string_bytes "LP_" ++ token_symbol_0 ++ string_bytes "_" ++ token_symbol_1)
  | Erc20 address => info_symbol <$> mapped address
  | ChainBridge _ => None
  end.

Definition manager_decimals (c : CurrencyId) : option Z :=
  match c with
  | Token _ => decimals c
  | DexShareId symbol_0 symbol_1 =>
      decimals_0 ← dex_share_decimals symbol_0;
      decimals_1 ← dex_share_decimals symbol_1;
      Some (Z.max decimals_0 decimals_1)
  | Erc20 address => info_decimals <$> mapped address
  | ChainBridge _ => None
  end.

(** One side of a share currency as a [u32]; an ERC20 side must be mapped. *)
Definition encode_side (d : DexShare) : option Z :=
  match d with
  | DexShareToken _ => Some (dex_share_into_u32 d)
  | DexShareErc20 address => (fun _ => dex_share_into_u32 d) <$> mapped address
  end.

Definition encode_evm_address (v : CurrencyId) : option EvmAddress :=
  match v with
  | DexShareId lhs rhs =>
      symbol_0 ← encode_side lhs;
      symbol_1 ← encode_side rhs;
      Some (dex_share_address symbol_0 symbol_1)
  | _ => evm_address_try_from v
  end.

(** One side of an LP address: four bytes, a token if the first three are zero. *)
Definition decode_side (bytes : list Z) : option DexShare :=
  if starts_with [0; 0; 0] bytes
  then b ← bytes !! 3%nat; DexShareToken <$> token_try_from_u8 b
  else (fun v => DexShareErc20 (info_address v)) <$> m !! from_be bytes.

Definition decode_evm_address (addr : EvmAddress) : option CurrencyId :=
  let address := as_bytes addr in
  if starts_with H160_PREFIX_TOKEN address then
    b ← address !! 19%nat; Token <$> token_try_from_u8 b
  else if starts_with H160_PREFIX_DEXSHARE address then
    lhs ← decode_side (slice 12 4 address);
    rhs ← decode_side (slice 16 4 address);
    Some (DexShareId lhs rhs)
  else
    (fun v => Erc20 (info_address v)) <$> m !! dex_share_into_u32 (DexShareErc20 addr).

End Queries.

(** ** The invariant: an entry is filed under the id of its own address *)

Definition map_ok (m : gmap Z Erc20Info) : Prop :=
  forall id v, m !! id = Some v -> dex_share_into_u32 (DexShareErc20 (info_address v)) = id.

Lemma map_ok_empty : map_ok ∅.
Proof. intros id v. by rewrite lookup_empty. Qed.

Lemma mapped_Some m a v :
  mapped m a = Some v <-> m !! dex_share_into_u32 (DexShareErc20 a) = Some v /\ info_address v = a.
Proof.
  unfold mapped. destruct (m !! _) as [w|]; simpl; [|naive_solver].
  case_match; bool_inv; naive_solver.
Qed.

Section Preservation.
Context {L X : Type} `{EVMBridge L X}.

Lemma call_bridge_map {A : Type} (m : M L X A) (s s' : @State L) r :
  call_bridge m s = (r, s') -> currency_id_map s' = currency_id_map s.
Proof. unfold call_bridge, zoom. destruct (m (chain s)) as [[]]; intros; by simplify_eq. Qed.

(** Registering an ERC20 contract, whatever the contract answers, only ever
    files an entry under the id of the address it describes and never replaces an
    entry; when it succeeds the address is mapped. *)
Theorem set_erc20_mapping_spec (address : EvmAddress) (s s' : @State L) r :
  set_erc20_mapping address s = (r, s') ->
  map_ok (currency_id_map s) ->
  map_ok (currency_id_map s')
  /\ (forall id v, currency_id_map s !! id = Some v -> currency_id_map s' !! id = Some v)
  /\ (r = Ok tt -> is_Some (mapped (currency_id_map s') address))
  /\ (forall v, currency_id_map s !! dex_share_into_u32 (DexShareErc20 address) = Some v ->
      info_address v <> address -> r = Err (inl CurrencyIdExisted)).
Proof.
  intros Hrun Hok. unfold set_erc20_mapping, bind at 1, gets in Hrun.
  destruct (currency_id_map s !! _) as [v|] eqn:Hm.
  - unfold ensure, ret, fail in Hrun.
    destruct (info_address v =? address) eqn:Ha; injection Hrun as <- <-; bool_inv;
      (split; [done|split; [done|split]]); try done; try (intros w Hw; congruence).
    intros _. exists v. by apply mapped_Some.
  - assert (currency_id_map s' = currency_id_map s /\ (r = Ok tt -> False) \/
            exists n sy d, currency_id_map s' =
              <[dex_share_into_u32 (DexShareErc20 address) := MkErc20Info address n sy d]>
                (currency_id_map s)) as [[-> Hr]|(n & sy & d & ->)].
    { unfold bind in Hrun.
      destruct (call_bridge (bridge_name _) s) as [[n|e|] s1] eqn:E1;
        apply call_bridge_map in E1; [|simplify_eq; left; split; done..].
      destruct (call_bridge (bridge_symbol _) s1) as [[sy|e|] s2] eqn:E2;
        apply call_bridge_map in E2; [|simplify_eq; left; split; congruence..].
      destruct (call_bridge (bridge_decimals _) s2) as [[d|e|] s3] eqn:E3;
        apply call_bridge_map in E3; [|simplify_eq; left; split; congruence..].
      unfold modify in Hrun. simplify_eq. right. exists n, sy, d. simpl. congruence. }
    + split_and!; try done; congruence.
    + split_and!.
      * intros id v. rewrite lookup_insert_Some. intros [[<- <-]|[_ Hv]]; [done|by apply Hok].
      * intros id v Hv. rewrite lookup_insert_ne; [done|]. intros <-. congruence.
      * intros _. eexists. apply mapped_Some. rewrite lookup_insert_eq. done.
      * congruence.
Qed.

End Preservation.

(** ** Round trips *)

Lemma be_bytes_4 b0 b1 b2 b3 :
  0 <= b0 < 256 -> 0 <= b1 < 256 -> 0 <= b2 < 256 -> 0 <= b3 < 256 ->
  be_bytes 4 (from_be [b0; b1; b2; b3]) = [b0; b1; b2; b3].
Proof.
  intros. replace (from_be [b0; b1; b2; b3]) with (((b0 * 256 + b1) * 256 + b2) * 256 + b3)
    by (unfold from_be; simpl; lia).
  simpl be_bytes. repeat f_equal;
    [change (256 ^ 3) with 16777216|change (256 ^ 2) with 65536|change (256 ^ 1) with 256|];
    rewrite ?Z.div_1_r; Z.div_mod_to_equations; lia.
Qed.

Lemma decode_side_token m t :
  decode_side m (be_bytes 4 (dex_share_into_u32 (DexShareToken t))) = Some (DexShareToken t).
Proof.
  rewrite dex_share_token_u32. destruct t; reflexivity.
Qed.

Lemma starts_with_zeros_small n v :
  0 <= v < 2 ^ 32 -> n = 4%nat -> starts_with [0; 0; 0] (be_bytes n v) = true -> v < 256.
Proof.
  intros Hv ->. cbn [starts_with be_bytes]. rewrite !andb_true_iff, !Z.eqb_eq.
  change (256 ^ Z.of_nat 3) with 16777216. change (256 ^ Z.of_nat 2) with 65536.
  change (256 ^ Z.of_nat 1) with 256. intros (E1 & E2 & E3 & _).
  Z.div_mod_to_equations. lia.
Qed.

Lemma decode_side_encode m d id :
  encode_side m d = Some id ->
  (forall a, d = DexShareErc20 a -> 256 <= id) ->
  decode_side m (be_bytes 4 id) = Some d.
Proof.
  destruct d as [t|a]; intros He Hid; cbn [encode_side] in He.
  - simplify_eq. apply decode_side_token.
  - apply fmap_Some in He as (v & Hv & ->). apply mapped_Some in Hv as [Hv Ha].
    pose proof (dex_share_u32_range (DexShareErc20 a)) as Hr. unfold in_uint, umax in Hr.
    specialize (Hid a eq_refl). unfold decode_side.
    destruct (starts_with _ _) eqn:E; [apply starts_with_zeros_small in E; [lia|lia|done]|].
    rewrite from_be_be_bytes by (change (256 ^ Z.of_nat 4) with (2 ^ 32); lia).
    by rewrite Hv, <- Ha.
Qed.

(** A currency whose address names it unambiguously: an ERC20 side of a share has an
    id of more than one byte, and a plain ERC20 contract is mapped and does not sit
    in the ranges reserved for tokens and shares. *)
Definition wide_side (d : DexShare) : bool :=
  match d with DexShareToken _ => true | DexShareErc20 _ => 256 <=? dex_share_into_u32 d end.

Definition decodable (m : gmap Z Erc20Info) (c : CurrencyId) : bool :=
  match c with
  | Token _ => true
  | DexShareId l r => wide_side l && wide_side r
  | Erc20 a =>
      bool_decide (is_Some (mapped m a))
      && negb (starts_with H160_PREFIX_TOKEN (as_bytes a))
      && negb (starts_with H160_PREFIX_DEXSHARE (as_bytes a))
  | ChainBridge _ => true
  end.

Lemma encode_side_u32 m d id : encode_side m d = Some id -> id = dex_share_into_u32 d.
Proof.
  destruct d; cbn [encode_side]; intros He; [by simplify_eq|].
  by apply fmap_Some in He as (v & _ & ->).
Qed.

Lemma decode_side_wide m d id :
  encode_side m d = Some id -> wide_side d = true -> decode_side m (be_bytes 4 id) = Some d.
Proof.
  intros He Hw. apply decode_side_encode; [done|]. intros a ->. simpl in Hw. bool_inv.
  by rewrite (encode_side_u32 _ _ _ He).
Qed.

(** The three slices that decoding takes of an LP address. *)
Lemma share_address_slices p (l r : list Z) :
  length p = 12%nat -> length l = 4%nat -> length r = 4%nat ->
  slice 12 4 (p ++ l ++ r) = l /\ slice 16 4 (p ++ l ++ r) = r.
Proof.
  intros Hp Hl Hr. unfold slice. split.
  - rewrite drop_app_length' by done. by apply take_app_length'.
  - rewrite app_assoc, drop_app_length' by (rewrite length_app; lia). by apply take_ge; lia.
Qed.

Lemma share_address_not_token l : starts_with H160_PREFIX_TOKEN (H160_PREFIX_DEXSHARE ++ l) = false.
Proof. done. Qed.

Lemma decode_dex_share m l r sl sr :
  encode_side m l = Some sl -> encode_side m r = Some sr ->
  wide_side l = true -> wide_side r = true ->
  decode_evm_address m (dex_share_address sl sr) = Some (DexShareId l r).
Proof.
  intros El Er Wl Wr.
  pose proof (encode_side_u32 _ _ _ El) as Ul. pose proof (encode_side_u32 _ _ _ Er) as Ur.
  unfold decode_evm_address.
  rewrite dex_share_address_bytes by (subst; apply dex_share_u32_range).
  rewrite share_address_not_token, starts_with_app.
  destruct (share_address_slices H160_PREFIX_DEXSHARE (be_bytes 4 sl) (be_bytes 4 sr)) as [-> ->];
    [done|apply length_be_bytes..|].
  by rewrite (decode_side_wide _ _ _ El Wl), (decode_side_wide _ _ _ Er Wr).
Qed.

Lemma decode_token m t id :
  currency_id (Token t) = Some id ->
  decode_evm_address m (Z.lor MIRRORED_TOKENS_ADDRESS_START id) = Some (Token t).
Proof. simpl. intros [= <-]. destruct t; reflexivity. Qed.

(** Decoding undoes encoding. Every address that [encode_evm_address] hands out
    for a decodable currency is decoded back to that very currency, so that
    distinct decodable currencies never share an address. *)
Theorem decode_encode_evm_address (m : gmap Z Erc20Info) (c : CurrencyId) (addr : EvmAddress) :
  encode_evm_address m c = Some addr -> decodable m c = true ->
  decode_evm_address m addr = Some c.
Proof.
  intros He Hd. destruct c as [t|l r|a|r]; cbn [encode_evm_address decodable] in *.
  - cbn [evm_address_try_from] in He. apply bind_Some in He as (id & Hid & ?). simplify_eq.
    by apply decode_token.
  - apply bind_Some in He as (sl & El & He). apply bind_Some in He as (sr & Er & ?).
    bool_inv. simplify_eq. by apply decode_dex_share.
  - simpl in He. simplify_eq. bool_inv.
    match goal with H : is_Some _ |- _ => destruct H as [v Hv] end. apply mapped_Some in Hv as [Hv Ha].
    unfold decode_evm_address.
    repeat match goal with H : starts_with _ _ = false |- _ => rewrite H; clear H end.
    by rewrite Hv, <- Ha.
  - done.
Qed.

(** A mapping that holds one contract, at the address [0x1234567800...00]. *)
Definition sample_address : EvmAddress := 0x1234567800000000000000000000000000000000.

Definition sample_map : gmap Z Erc20Info :=
  {[ dex_share_into_u32 (DexShareErc20 sample_address) := MkErc20Info sample_address [] [] 12 ]}.

Lemma sample_map_ok : map_ok sample_map.
Proof. intros id v. unfold sample_map. rewrite lookup_singleton_Some. by intros [<- <-]. Qed.

Lemma decode_encode_evm_address_witness :
  decode_evm_address sample_map (dex_share_address 2 (dex_share_into_u32 (DexShareErc20 sample_address)))
  = Some (DexShareId (DexShareToken SETT) (DexShareErc20 sample_address)).
Proof.
  apply (decode_encode_evm_address sample_map
           (DexShareId (DexShareToken SETT) (DexShareErc20 sample_address))); vm_compute; reflexivity.
Defined.

(** Decoding an address that was never registered can name another contract.
    The plain ERC20 branch looks the [u32] id up and does not compare the address it
    finds with the one it was given, so two contracts with the same four leading
    bytes are confused: the decoded currency is the registered one. *)
Theorem decode_confuses_contracts :
  exists m addr other,
    map_ok m /\ addr <> other /\ mapped m addr = None
    /\ decode_evm_address m addr = Some (Erc20 other).
Proof.
  exists sample_map, (sample_address + 1), sample_address.
  split; [apply sample_map_ok|]. by vm_compute.
Qed.

(** The guard of the round trip is needed. An ERC20 contract whose id fits one
    byte can be half of a share currency, and the address of that share decodes to
    the share of a native token. *)
Theorem small_contract_decodes_as_token :
  exists m a addr,
    map_ok m
    /\ encode_evm_address m (DexShareId (DexShareErc20 a) (DexShareToken SETT)) = Some addr
    /\ decode_evm_address m addr = Some (DexShareId (DexShareToken DRAM) (DexShareToken SETT)).
Proof.
  exists {[ 1 := MkErc20Info 1 [] [] 12 ]}, 1, (2 ^ 64 + 1 * 2 ^ 32 + 2).
  split; [|by vm_compute].
  intros id v. rewrite lookup_singleton_Some. by intros [<- <-].
Qed.

(** A bridge that always answers, for the witness of the registration property. *)
Section Answering.
#[local] Instance answering_bridge : EVMBridge unit unit := {
  bridge_name _ := ret [65];
  bridge_symbol _ := ret [66];
  bridge_decimals _ := ret 12
}.

Lemma set_erc20_mapping_witness :
  map_ok (currency_id_map (set_erc20_mapping sample_address (MkState ∅ tt)).2).
Proof.
  destruct (set_erc20_mapping sample_address (MkState ∅ tt)) as [r s'] eqn:E.
  apply (set_erc20_mapping_spec sample_address (MkState ∅ tt) s' r E). apply map_ok_empty.
Defined.
End Answering.
