(* ===== verification/Externals.v ===== *)
(** * The code the pallets rely on and the repository does not contain

    Each class names the operations of a third-party crate that the sources call;
    each [...Laws] class states the documented behaviour of those operations that the
    theorems use. The instances at the end are concrete functions that satisfy the
    laws: the witnesses of the theorems run on them. *)

From S2P Require Import Prelude Currency.

(** ** [sp_arithmetic::FixedU128] (the types [Price], [Ratio] and [Rate]) *)

Class FixedPoint : Type := {
  FP : Type;
  fp_zero : FP;
  fp_leb : FP -> FP -> bool;
  fp_checked_from_rational : Z -> Z -> option FP;
  fp_saturating_mul_int : FP -> Z -> Z;
  fp_checked_mul_int : FP -> Z -> option Z;
  fp_saturating_mul : FP -> FP -> FP;
  fp_saturating_from_integer : Z -> FP
}.

(** [FixedU128] is a [u128] of units of [1 / DIV]; conversions round down, and a
    result that does not fit is [None] or the maximum. *)
Class FixedPointLaws (F : FixedPoint) : Type := {
  fp_inner : FP -> Z;
  fp_div : Z;
  fp_div_pos : 0 < fp_div;
  fp_inner_range r : in_uint 128 (fp_inner r);
  fp_inner_zero : fp_inner fp_zero = 0;
  fp_leb_inner a b : fp_leb a b = (fp_inner a <=? fp_inner b);
  fp_from_rational_floor n d r :
    0 <= n -> 0 <= d -> fp_checked_from_rational n d = Some r -> 0 < d /\ fp_inner r * d <= n * fp_div;
  fp_saturating_mul_int_floor r n :
    0 <= n -> fp_saturating_mul_int r n = Z.min (fp_inner r * n / fp_div) (umax 128);
  fp_checked_mul_int_floor r n v :
    0 <= n -> fp_checked_mul_int r n = Some v -> v = fp_inner r * n / fp_div /\ v <= umax 128
}.

(** [unwrap_or_default]. *)
Definition fp_or_default `{FixedPoint} (o : option FP) : FP := default fp_zero o.

(** ** [primitive_types::U256] *)

Class U256Ops : Type := {
  U256 : Type;
  u256_from : Z -> U256;
  u256_one : U256;
  u256_saturating_mul : U256 -> U256 -> U256;
  u256_saturating_add : U256 -> U256 -> U256;
  u256_saturating_sub : U256 -> U256 -> U256;
  u256_checked_div : U256 -> U256 -> option U256;
  u256_checked_add : U256 -> U256 -> option U256;
  u256_try_into_u128 : U256 -> option Z
}.

Class U256Laws (U : U256Ops) : Type := {
  u256_val : U256 -> Z;
  u256_val_range a : in_uint 256 (u256_val a);
  u256_from_val n : in_uint 128 n -> u256_val (u256_from n) = n;
  u256_one_val : u256_val u256_one = 1;
  u256_mul_val a b : u256_val (u256_saturating_mul a b) = sat_mul 256 (u256_val a) (u256_val b);
  u256_add_val a b : u256_val (u256_saturating_add a b) = sat_add 256 (u256_val a) (u256_val b);
  u256_sub_val a b : u256_val (u256_saturating_sub a b) = sat_sub (u256_val a) (u256_val b);
  u256_div_val a b : u256_val <$> u256_checked_div a b = checked_div (u256_val a) (u256_val b);
  u256_checked_add_val a b :
    u256_val <$> u256_checked_add a b = checked_add 256 (u256_val a) (u256_val b);
  u256_try_into_val a :
    u256_try_into_u128 a = if u256_val a <=? umax 128 then Some (u256_val a) else None
}.

(** ** [orml_traits::MultiCurrency] and the account references of [frame_system] *)

Class MultiCurrency (L X AccountId : Type) : Type := {
  mc_total_issuance : CurrencyId -> L -> Z;
  mc_free_balance : CurrencyId -> AccountId -> L -> Z;
  mc_transfer : CurrencyId -> AccountId -> AccountId -> Z -> M L X unit;
  mc_deposit : CurrencyId -> AccountId -> Z -> M L X unit;
  mc_withdraw : CurrencyId -> AccountId -> Z -> M L X unit
}.

Class FrameSystem (L AccountId : Type) : Type := {
  block_number : L -> Z;
  inc_consumers : AccountId -> L -> option L;
  dec_consumers : AccountId -> L -> L
}.

(** A transfer moves its amount: the receiver gains at least that, nobody but the
    sender loses anything, and other currencies are untouched. A sender whose
    remaining dust is kept (the accounts of the dust whitelist, [keeps_dust]) loses
    the amount and no more. Deposits and withdrawals change one account and the
    issuance of one currency. The consumer counters carry no balance. *)
Class MultiCurrencyLaws (L X AccountId : Type) `{MultiCurrency L X AccountId}
    `{FrameSystem L AccountId} : Type := {
  keeps_dust : AccountId -> bool;
  mc_free_nonneg c a l : 0 <= mc_free_balance c a l;
  mc_issuance_nonneg c l : 0 <= mc_total_issuance c l;
  mc_transfer_issuance c from to v l l' c' :
    mc_transfer c from to v l = (Ok tt, l') -> mc_total_issuance c' l' = mc_total_issuance c' l;
  mc_transfer_other_currency c from to v l l' c' a :
    mc_transfer c from to v l = (Ok tt, l') -> c' <> c ->
    mc_free_balance c' a l' = mc_free_balance c' a l;
  mc_transfer_bystander c from to v l l' a :
    mc_transfer c from to v l = (Ok tt, l') -> a <> from ->
    mc_free_balance c a l <= mc_free_balance c a l';
  mc_transfer_receiver c from to v l l' :
    mc_transfer c from to v l = (Ok tt, l') -> from <> to ->
    mc_free_balance c to l + v <= mc_free_balance c to l';
  mc_transfer_sender c from to v l l' :
    mc_transfer c from to v l = (Ok tt, l') -> 0 <= v -> keeps_dust from = true ->
    mc_free_balance c from l - v <= mc_free_balance c from l';
  mc_failed_transfer c from to v l r l' :
    mc_transfer c from to v l = (r, l') -> r <> Ok tt -> l' = l;
  mc_deposit_free c who v l l' c' a :
    mc_deposit c who v l = (Ok tt, l') -> 0 <= v ->
    mc_free_balance c' a l <= mc_free_balance c' a l';
  mc_deposit_issuance c who v l l' c' :
    mc_deposit c who v l = (Ok tt, l') -> 0 <= v ->
    mc_total_issuance c' l' = mc_total_issuance c' l + (if currency_eqb c c' then v else 0);
  mc_withdraw_other c who v l l' c' a :
    mc_withdraw c who v l = (Ok tt, l') -> c' <> c \/ a <> who ->
    mc_free_balance c' a l <= mc_free_balance c' a l';
  mc_withdraw_covered c who v l l' :
    mc_withdraw c who v l = (Ok tt, l') -> v <= mc_total_issuance c l;
  mc_withdraw_issuance c who v l l' c' :
    mc_withdraw c who v l = (Ok tt, l') -> 0 <= v ->
    mc_total_issuance c' l' = mc_total_issuance c' l - (if currency_eqb c c' then v else 0);
  mc_failed_deposit c who v l x l' :
    mc_deposit c who v l = (Err x, l') -> l' = l;
  inc_consumers_free who l l' c a :
    inc_consumers who l = Some l' -> mc_free_balance c a l' = mc_free_balance c a l;
  dec_consumers_free who l c a : mc_free_balance c a (dec_consumers who l) = mc_free_balance c a l;
  dec_consumers_issuance who l c : mc_total_issuance c (dec_consumers who l) = mc_total_issuance c l
}.

(** ** Currencies of a part of the state

    A pallet that sits between the currencies and their user: what holds of the
    currencies of a part of a state holds of the whole. *)

Section Part.
Context {L S X E A : Type} `{!MultiCurrency L X A} `{!FrameSystem L A}.
Variables (part : S -> L) (put : L -> S -> S) (inj : X -> E).

Definition part_currency : MultiCurrency S E A := {|
  mc_total_issuance c s := mc_total_issuance c (part s);
  mc_free_balance c a s := mc_free_balance c a (part s);
  mc_transfer c from to v := zoom part put inj (mc_transfer c from to v);
  mc_deposit c who v := zoom part put inj (mc_deposit c who v);
  mc_withdraw c who v := zoom part put inj (mc_withdraw c who v)
|}.

Definition part_system : FrameSystem S A := {|
  block_number s := block_number (part s);
  inc_consumers a s := (fun l => put l s) <$> inc_consumers a (part s);
  dec_consumers a s := put (dec_consumers a (part s)) s
|}.

Hypothesis part_put : forall l s, part (put l s) = l.
Hypothesis put_part : forall s, put (part s) s = s.

Lemma part_ok {B : Type} (m : M L X B) (s : S) b s' :
  zoom part put inj m s = (Ok b, s') -> m (part s) = (Ok b, part s').
Proof. rewrite zoom_ok. intros (l & Hm & ->). by rewrite part_put. Qed.

Lemma part_not_ok (m : M L X unit) (s : S) r s' :
  (forall q l, m (part s) = (q, l) -> q <> Ok tt -> l = part s) ->
  zoom part put inj m s = (r, s') -> r <> Ok tt -> s' = s.
Proof.
  intros Hm. unfold zoom. destruct (m (part s)) as [q l]. intros Hrun Hr.
  rewrite (Hm q l eq_refl) in Hrun by (intros ->; congruence).
  rewrite put_part in Hrun. by destruct q; simplify_eq.
Qed.

Lemma part_laws `{!MultiCurrencyLaws L X A} : @MultiCurrencyLaws S E A part_currency part_system.
Proof.
  refine {| keeps_dust := keeps_dust |}; simpl; intros *.
  - apply mc_free_nonneg.
  - apply mc_issuance_nonneg.
  - intros Hl%part_ok. by apply (mc_transfer_issuance _ _ _ _ _ _ _ Hl).
  - intros Hl%part_ok. by apply (mc_transfer_other_currency _ _ _ _ _ _ _ _ Hl).
  - intros Hl%part_ok. by apply (mc_transfer_bystander _ _ _ _ _ _ _ Hl).
  - intros Hl%part_ok. by apply (mc_transfer_receiver _ _ _ _ _ _ Hl).
  - intros Hl%part_ok. by apply (mc_transfer_sender _ _ _ _ _ _ Hl).
  - apply part_not_ok. intros q k Hl. by apply (mc_failed_transfer _ _ _ _ _ _ _ Hl).
  - intros Hl%part_ok. by apply (mc_deposit_free _ _ _ _ _ _ _ Hl).
  - intros Hl%part_ok. by apply (mc_deposit_issuance _ _ _ _ _ _ Hl).
  - intros Hl%part_ok. by apply (mc_withdraw_other _ _ _ _ _ _ _ Hl).
  - intros Hl%part_ok. by apply (mc_withdraw_covered _ _ _ _ _ Hl).
  - intros Hl%part_ok. by apply (mc_withdraw_issuance _ _ _ _ _ _ Hl).
  - unfold zoom. destruct (mc_deposit c who v (part l)) as [[u|y|] k] eqn:Hd; try done. intros [= _ <-].
    apply mc_failed_deposit in Hd as ->. apply put_part.
  - destruct (inc_consumers who (part l)) as [k|] eqn:Hi; [|done]. intros [= <-].
    rewrite part_put. by apply (inc_consumers_free _ _ _ _ _ Hi).
  - rewrite part_put. apply dec_consumers_free.
  - rewrite part_put. apply dec_consumers_issuance.
Defined.

End Part.

(** ** [support::DEXIncentives]: what the DEX asks of the incentives pallet *)

Class DEXIncentives (L X AccountId : Type) : Type := {
  do_deposit_dex_share : AccountId -> CurrencyId -> Z -> M L X unit;
  do_withdraw_dex_share : AccountId -> CurrencyId -> Z -> M L X unit
}.

(** Staking shares moves balances of the share currency only; unstaking may also pay
    rewards, from the accounts set aside for them ([pays_rewards]). *)
Class DEXIncentivesLaws (L X AccountId : Type) `{MultiCurrency L X AccountId}
    `{DEXIncentives L X AccountId} : Type := {
  pays_rewards : AccountId -> bool;
  di_deposit_other who lp v l l' c a :
    do_deposit_dex_share who lp v l = (Ok tt, l') -> c <> lp ->
    mc_free_balance c a l' = mc_free_balance c a l;
  di_withdraw_other who lp v l l' c a :
    do_withdraw_dex_share who lp v l = (Ok tt, l') -> c <> lp -> pays_rewards a = false ->
    mc_free_balance c a l <= mc_free_balance c a l';
  di_withdraw_issuance who lp v l l' c :
    do_withdraw_dex_share who lp v l = (Ok tt, l') ->
    mc_total_issuance c l' = mc_total_issuance c l
}.

(** ** Concrete instances *)

Definition DIV : Z := 10 ^ 18.

Definition fix_trunc (v : Z) : Z := Z.max 0 (Z.min v (umax 128)).

(** Values kept in range by construction, so that every law holds of every value. *)
Record fixed : Type := MkFixed { fixed_raw : Z }.

Definition fixed_inner (r : fixed) : Z := fix_trunc (fixed_raw r).

#[global] Instance fixed_u128 : FixedPoint := {
  FP := fixed;
  fp_zero := MkFixed 0;
  fp_leb a b := fixed_inner a <=? fixed_inner b;
  fp_checked_from_rational n d :=
    if d =? 0 then None
    else if n * DIV / d <=? umax 128 then Some (MkFixed (n * DIV / d)) else None;
  fp_saturating_mul_int r n := Z.min (fixed_inner r * n / DIV) (umax 128);
  fp_checked_mul_int r n :=
    if fixed_inner r * n / DIV <=? umax 128 then Some (fixed_inner r * n / DIV) else None;
  fp_saturating_mul a b := MkFixed (Z.min (fixed_inner a * fixed_inner b / DIV) (umax 128));
  fp_saturating_from_integer n := MkFixed (Z.min (n * DIV) (umax 128))
}.

Lemma fix_trunc_range v : in_uint 128 (fix_trunc v).
Proof. unfold fix_trunc, in_uint. pose proof (umax_nonneg 128). lia. Qed.

#[global] Instance fixed_u128_laws : FixedPointLaws fixed_u128.
Proof.
  refine {| fp_inner := fixed_inner : @FP fixed_u128 -> Z; fp_div := DIV |}; try done.
  - intros r. apply fix_trunc_range.
  - intros n d r Hn Hd. simpl. destruct (Z.eqb_spec d 0); [done|].
    destruct (Z.leb_spec (n * DIV / d) (umax 128)) as [Hle|]; [|done].
    intros [= <-]. split; [lia|]. unfold fixed_inner, fix_trunc. simpl.
    assert (0 <= n * DIV / d) by (apply Z.div_pos; unfold DIV; lia).
    rewrite Z.min_l, Z.max_r by lia. rewrite Z.mul_comm. apply Z.mul_div_le. lia.
  - intros r n v Hn. simpl. case_match; [|done]. intros [= <-]. bool_inv. done.
Defined.

Record u256 : Type := MkU256 { u256_raw : Z }.

Definition u256_value (a : u256) : Z := Z.max 0 (Z.min (u256_raw a) (umax 256)).

#[global] Instance u256_ops : U256Ops := {
  U256 := u256;
  u256_from := MkU256;
  u256_one := MkU256 1;
  u256_saturating_mul a b := MkU256 (sat_mul 256 (u256_value a) (u256_value b));
  u256_saturating_add a b := MkU256 (sat_add 256 (u256_value a) (u256_value b));
  u256_saturating_sub a b := MkU256 (sat_sub (u256_value a) (u256_value b));
  u256_checked_div a b := MkU256 <$> checked_div (u256_value a) (u256_value b);
  u256_checked_add a b := MkU256 <$> checked_add 256 (u256_value a) (u256_value b);
  u256_try_into_u128 a := if u256_value a <=? umax 128 then Some (u256_value a) else None
}.

Lemma u256_value_range a : in_uint 256 (u256_value a).
Proof. unfold u256_value, in_uint. pose proof (umax_nonneg 256). lia. Qed.

Lemma u256_value_exact v : in_uint 256 v -> u256_value (MkU256 v) = v.
Proof. unfold u256_value, in_uint. simpl. lia. Qed.

#[global] Instance u256_laws : U256Laws u256_ops.
Proof.
  refine {| u256_val := u256_value : @U256 u256_ops -> Z |}; try done.
  - intros a. apply u256_value_range.
  - intros n Hn. apply u256_value_exact. unfold in_uint in *.
    assert (umax 128 <= umax 256) by (by vm_compute). lia.
  - intros a b. pose proof (u256_value_range a). pose proof (u256_value_range b).
    apply u256_value_exact, sat_mul_range; unfold in_uint in *; lia.
  - intros a b. pose proof (u256_value_range a). pose proof (u256_value_range b).
    apply u256_value_exact, sat_add_range; unfold in_uint in *; lia.
  - intros a b. pose proof (u256_value_range a). pose proof (u256_value_range b).
    apply u256_value_exact, sat_sub_range; unfold in_uint in *; lia.
  - intros a b. simpl. unfold checked_div. case_match; [done|]. simpl. f_equal.
    pose proof (u256_value_range a). pose proof (u256_value_range b).
    apply u256_value_exact. unfold in_uint in *. bool_inv.
    split; [apply Z.div_pos; lia|]. apply Z.le_trans with (u256_value a); [|lia].
    apply Z.div_le_upper_bound; nia.
  - intros a b. simpl. unfold checked_add. case_match; [|done]. simpl. f_equal.
    pose proof (u256_value_range a). pose proof (u256_value_range b).
    apply u256_value_exact. unfold in_uint in *. bool_inv. lia.
Defined.

(** A ledger: balances by currency and account, and the issuance of each currency. *)
Record Ledger : Type := MkLedger {
  balances : gmap (CurrencyId * Z) Z;
  issuance : gmap CurrencyId Z;
  consumers : gmap Z Z;
  now_block : Z
}.

Definition balance_of (c : CurrencyId) (a : Z) (l : Ledger) : Z :=
  Z.max 0 (default 0 (balances l !! (c, a))).

Definition issuance_of (c : CurrencyId) (l : Ledger) : Z := Z.max 0 (default 0 (issuance l !! c)).

Definition set_balance (c : CurrencyId) (a v : Z) (l : Ledger) : Ledger :=
  MkLedger (<[(c, a) := v]> (balances l)) (issuance l) (consumers l) (now_block l).

Definition set_issuance (c : CurrencyId) (v : Z) (l : Ledger) : Ledger :=
  MkLedger (balances l) (<[c := v]> (issuance l)) (consumers l) (now_block l).

Definition add_consumer (d a : Z) (l : Ledger) : Ledger :=
  MkLedger (balances l) (issuance l)
    (<[a := default 0 (consumers l !! a) + d]> (consumers l)) (now_block l).

Inductive LedgerError : Type := BalanceTooLow | BadOrigin.

#[global] Instance ledger_currency : MultiCurrency Ledger LedgerError Z := {
  mc_total_issuance := issuance_of;
  mc_free_balance := balance_of;
  mc_transfer c from to v l :=
    if (v =? 0) || (from =? to) then (Ok tt, l)
    else if (v <? 0) || (balance_of c from l <? v) then (Err BalanceTooLow, l)
    else
      let l1 := set_balance c from (balance_of c from l - v) l in
      (Ok tt, set_balance c to (balance_of c to l1 + v) l1);
  mc_deposit c who v l :=
    (Ok tt, set_issuance c (issuance_of c l + v) (set_balance c who (balance_of c who l + v) l));
  mc_withdraw c who v l :=
    if (balance_of c who l <? v) || (issuance_of c l <? v) then (Err BalanceTooLow, l)
    else (Ok tt, set_issuance c (issuance_of c l - v) (set_balance c who (balance_of c who l - v) l))
}.

#[global] Instance ledger_system : FrameSystem Ledger Z := {
  block_number := now_block;
  inc_consumers a l := Some (add_consumer 1 a l);
  dec_consumers a l := add_consumer (-1) a l
}.

Lemma balance_of_set c a v l c' a' :
  balance_of c' a' (set_balance c a v l) =
  if decide ((c, a) = (c', a')) then Z.max 0 v else balance_of c' a' l.
Proof. unfold balance_of, set_balance. simpl. rewrite lookup_insert. by case_decide. Qed.

Lemma balance_of_set_issuance c v l c' a : balance_of c' a (set_issuance c v l) = balance_of c' a l.
Proof. done. Qed.

Lemma issuance_of_set c v l c' :
  issuance_of c' (set_issuance c v l) = if decide (c = c') then Z.max 0 v else issuance_of c' l.
Proof. unfold issuance_of, set_issuance. simpl. rewrite lookup_insert. by case_decide. Qed.

Lemma balance_of_nonneg c a l : 0 <= balance_of c a l.
Proof. unfold balance_of. lia. Qed.

(** What a successful transfer did. *)
Lemma ledger_transfer_inv c from to v l l' :
  mc_transfer c from to v l = (Ok tt, l') ->
  (l' = l /\ (v = 0 \/ from = to)) \/
  (0 < v /\ from <> to /\ v <= balance_of c from l /\
   l' = set_balance c to (balance_of c to l + v) (set_balance c from (balance_of c from l - v) l)).
Proof.
  simpl. destruct ((v =? 0) || (from =? to)) eqn:E.
  - intros [= <-]. left. apply orb_true_iff in E as [E|E]; bool_inv; auto.
  - destruct ((v <? 0) || (balance_of c from l <? v)) eqn:E'; [done|]. intros [= <-].
    bool_inv. right. split_and!; try lia. rewrite balance_of_set. case_decide; [naive_solver|done].
Qed.

Ltac ledger_solve :=
  repeat first
    [ rewrite balance_of_set | rewrite balance_of_set_issuance | rewrite issuance_of_set ];
  repeat case_decide; simplify_eq; try done;
  repeat match goal with
    | |- context [balance_of ?c ?a ?l] =>
        lazymatch goal with
        | _ : 0 <= balance_of c a l |- _ => fail
        | _ => pose proof (balance_of_nonneg c a l)
        end
    end; try lia.

#[global] Instance ledger_laws : MultiCurrencyLaws Ledger LedgerError Z.
Proof.
  refine {| keeps_dust := fun _ => true |}.
  - apply balance_of_nonneg.
  - intros c l. simpl. unfold issuance_of. lia.
  - intros * H. apply ledger_transfer_inv in H as [[-> _]|(_ & _ & _ & ->)]; done.
  - intros * H Hc. apply ledger_transfer_inv in H as [[-> _]|(_ & _ & _ & ->)]; [done|].
    simpl. ledger_solve.
  - intros * H Ha. apply ledger_transfer_inv in H as [[-> _]|(? & _ & _ & ->)]; [done|].
    simpl. ledger_solve.
  - intros * H Hne. apply ledger_transfer_inv in H as [[-> [->| ->]]|(? & _ & _ & ->)]; [|done|].
    + simpl. lia.
    + simpl. ledger_solve.
  - intros * H Hv _. apply ledger_transfer_inv in H as [[-> _]|(? & ? & ? & ->)]; simpl; [lia|].
    ledger_solve.
  - intros * H Hr. simpl in H. repeat (destruct (_ || _) in H; [by simplify_eq|]). by simplify_eq.
  - intros * H Hv. simpl in H. simplify_eq. simpl. ledger_solve.
  - intros * H Hv. simpl in H. simplify_eq. simpl. unfold currency_eqb. ledger_solve;
      case_bool_decide; simplify_eq; unfold issuance_of, set_balance; simpl; lia.
  - intros * H Ho. simpl in H. case_match; [done|]. simplify_eq. simpl. ledger_solve. naive_solver.
  - intros * H. simpl in H. destruct (_ || _) eqn:E in H; [done|]. bool_inv. done.
  - intros * H Hv. simpl in H. destruct (_ || _) eqn:E in H; [done|]. bool_inv. simplify_eq.
    simpl. unfold currency_eqb. ledger_solve; case_bool_decide; simplify_eq; unfold issuance_of, set_balance in *; simpl; lia.
  - intros * H. simpl in H. done.
  - intros * H. simpl in H. by simplify_eq.
  - done.
  - done.
Defined.

(** No staking pallet: every request succeeds and changes nothing. *)
#[global] Instance no_incentives (L X A : Type) : DEXIncentives L X A | 100 := {
  do_deposit_dex_share _ _ _ := ret tt;
  do_withdraw_dex_share _ _ _ := ret tt
}.

#[global] Instance no_incentives_laws (L X A : Type) `{MultiCurrency L X A} :
  DEXIncentivesLaws L X A (H0 := no_incentives L X A).
Proof. refine {| pays_rewards := fun _ => false |}; intros *; intros [= <-]; intros; reflexivity. Defined.
