(* ===== verification/EvmMeter.v ===== *)
(** * The storage meter of the EVM

    [lib-serml/evm/evm/src/runner/storage_meter.rs]: what a contract call writes and
    clears is counted in bytes, and the deposit for it moves between the reserve of the
    transaction's origin and the contracts. Every nested call has a meter of its own
    whose handler is the meter of its caller, and whose outermost handler moves the
    money. The chain of [&mut dyn StorageMeterHandler] borrows is a list: the meters of
    the callers, innermost first, with the storage of the chain at the end. *)

From Stdlib Require Import String.
From S2P Require Import Prelude.

Abbreviation H160 := Z.

(** [DispatchError: From<&str>]. *)
Class DispatchErrorStr (E : Type) : Type := { dispatch_other : string -> E }.

(** [trait StorageMeterHandler], as the outermost handler implements it. *)
Class StorageMeterHandler (W E : Type) : Type := {
  reserve_storage : Z -> M W E unit;
  unreserve_storage : Z -> Z -> Z -> M W E unit;
  charge_storage : H160 -> Z -> Z -> M W E unit
}.

(** [struct StorageMeter]; its [handler] is the next meter of the chain. *)
Record StorageMeter (E : Type) : Type := MkMeter {
  contract : H160;
  limit : Z;
  total_used : Z;
  self_used : Z;
  total_refunded : Z;
  self_refunded : Z;
  result : option E
}.

Arguments MkMeter {E}.
Arguments contract {E}.
Arguments limit {E}.
Arguments total_used {E}.
Arguments self_used {E}.
Arguments total_refunded {E}.
Arguments self_refunded {E}.
Arguments result {E}.

(** A meter, the chain of its handlers, and the storage behind them; and the rest of the
    memory of the code that runs ([G]: its gasometers), which like the meters is not part
    of the storage. *)
Record Metered (W G E : Type) : Type := MkMetered {
  meter : StorageMeter E;
  handlers : list (StorageMeter E);
  memory : G;
  world : W
}.

Arguments MkMetered {W G E}.
Arguments meter {W G E}.
Arguments handlers {W G E}.
Arguments memory {W G E}.
Arguments world {W G E}.

Section Meter.
Context {W G E : Type} `{!DispatchErrorStr E} `{!StorageMeterHandler W E}.

Abbreviation St := (Metered W G E).

Definition set_meter (f : StorageMeter E -> StorageMeter E) (s : St) : St :=
  MkMetered (f (meter s)) (handlers s) (memory s) (world s).

(** The fields that [charge], [uncharge], [refund] and a child's [finish] write. *)
Definition add_used (total self : Z -> Z) (m : StorageMeter E) : StorageMeter E :=
  MkMeter (contract m) (limit m) (total (total_used m)) (self (self_used m))
    (total_refunded m) (self_refunded m) (result m).

Definition add_refunded (total self : Z -> Z) (m : StorageMeter E) : StorageMeter E :=
  MkMeter (contract m) (limit m) (total_used m) (self_used m)
    (total (total_refunded m)) (self (self_refunded m)) (result m).

Definition set_result (r : option E) (m : StorageMeter E) : StorageMeter E :=
  MkMeter (contract m) (limit m) (total_used m) (self_used m)
    (total_refunded m) (self_refunded m) r.

(** The tail of [StorageMeter::new], after the reservation. *)
Definition fresh_meter (contract : H160) (limit : Z) : StorageMeter E :=
  MkMeter contract limit 0 0 0 0 None.

(** [StorageMeter::new] on the outermost handler. *)
Definition new (contract : H160) (limit : Z) : M W E (StorageMeter E) :=
  do! reserve_storage limit in
  ret (fresh_meter contract limit).

Definition handle {A : Type} (f : M St E A) : M St E A :=
  fun s => match result (meter s) with Some e => (Err e, s) | None => f s end.

Definition available_storage (m : StorageMeter E) : Z :=
  match result m with
  | None => sat_sub (sat_add 32 (limit m) (total_refunded m)) (total_used m)
  | Some _ => 0
  end.

Definition used_storage (m : StorageMeter E) : Z :=
  if total_refunded m <? total_used m
  then to_signed 32 (total_used m - total_refunded m)
  else - to_signed 32 (total_refunded m - total_used m).

(** The child's meter: reserving storage with a meter as handler does nothing. *)
Definition child_meter (contract : H160) : M St E (StorageMeter E) :=
  handle (gets (fun s => fresh_meter contract (available_storage (meter s)))).

Definition charge (storage : Z) : M St E unit :=
  handle (modify (set_meter (add_used (fun t => sat_add 32 t storage) (fun t => sat_add 32 t storage)))).

Definition uncharge (storage : Z) : M St E unit :=
  handle (modify (set_meter (add_used (fun t => sat_sub t storage) (fun t => sat_sub t storage)))).

Definition refund (storage : Z) : M St E unit :=
  handle (modify (set_meter (add_refunded (fun t => sat_add 32 t storage) (fun t => sat_add 32 t storage)))).

(** [charge_storage] of a handler: each meter of the chain adds the amounts to its
    totals and passes the call on. *)
Fixpoint handler_charge_storage (hs : list (StorageMeter E)) (c : H160) (used refunded : Z) (w : W) :
    outcome E unit * (list (StorageMeter E) * W) :=
  match hs with
  | [] => let '(r, w') := charge_storage c used refunded w in (r, ([], w'))
  | m :: hs' =>
      match result m with
      | Some e => (Err e, (hs, w))
      | None =>
          let m' := add_used (fun t => sat_add 32 t used) (fun t => t)
                      (add_refunded (fun t => sat_add 32 t refunded) (fun t => t) m) in
          let '(r, (hs2, w')) := handler_charge_storage hs' c used refunded w in
          (r, (m' :: hs2, w'))
      end
  end.

(** [unreserve_storage] of a handler: a meter ignores it. *)
Definition handler_unreserve_storage (hs : list (StorageMeter E)) (limit used refunded : Z) : M W E unit :=
  match hs with
  | [] => unreserve_storage limit used refunded
  | _ :: _ => ret tt
  end.

Definition new_limit (m : StorageMeter E) : Z :=
  sat_sub
    (sat_sub (sat_add 32 (sat_add 32 (limit m) (self_used m)) (total_refunded m)) (total_used m))
    (self_refunded m).

(** The closure of [finish]. *)
Definition settle : M St E unit := fun s =>
  let m := meter s in
  if limit m <? sat_sub (total_used m) (total_refunded m)
  then (Err (dispatch_other "OutOfStorage"), s)
  else
    let '(r, (hs, w)) := handler_charge_storage (handlers s) (contract m) (self_used m) (self_refunded m) (world s) in
    match r with
    | Ok _ =>
        let '(r', w') := handler_unreserve_storage hs (new_limit m) (self_used m) (self_refunded m) w in
        (r', MkMetered m hs (memory s) w')
    | Err e => (Err e, MkMetered m hs (memory s) w)
    | Panic => (Panic, MkMetered m hs (memory s) w)
    end.

Definition finish : M St E unit :=
  handle (fun s =>
    match settle s with
    | (Err x, s') => (Err x, set_meter (set_result (Some x)) s')
    | r => r
    end).

(** ** Metered transactions: [run_transaction] and [run_sub_transaction] of handler.rs

    The storage is rolled back when the body asks for it or the meter does not close; the
    meters are ordinary values and are not. *)

Definition push (m : StorageMeter E) (s : St) : St := MkMetered m (meter s :: handlers s) (memory s) (world s).

Definition pop (s : St) : St :=
  match handlers s with
  | p :: hs => MkMetered p hs (memory s) (world s)
  | [] => s
  end.

Definition set_world (w : W) (s : St) : St := MkMetered (meter s) (handlers s) (memory s) w.

Definition run_sub_transaction {R : Type} (c : H160) (f : M St E (bool * R)) : M St E R := fun s =>
  match child_meter c s with
  | (Ok m, _) =>
      match f (push m s) with
      | (Ok (true, r), s1) =>
          match finish s1 with
          | (Ok _, s2) => (Ok r, pop s2)
          | (Err e, s2) => (Err e, set_world (world s) (pop s2))
          | (Panic, s2) => (Panic, s2)
          end
      | (Ok (false, r), s1) => (Ok r, set_world (world s) (pop s1))
      | (Err e, s1) => (Err e, set_world (world s) (pop s1))
      | (Panic, s1) => (Panic, s1)
      end
  | (Err e, _) => (Err e, s)
  | (Panic, _) => (Panic, s)
  end.

Definition run_transaction {R : Type} (c : H160) (limit : Z) (g : G) (f : M St E (bool * R)) : M W E R := fun w =>
  match new c limit w with
  | (Ok m, w1) =>
      match f (MkMetered m [] g w1) with
      | (Ok (true, r), s1) =>
          match finish s1 with
          | (Ok _, s2) => (Ok r, world s2)
          | (Err e, _) => (Err e, w)
          | (Panic, _) => (Panic, w)
          end
      | (Ok (false, r), _) => (Ok r, w)
      | (Err e, _) => (Err e, w)
      | (Panic, _) => (Panic, w)
      end
  | (Err e, _) => (Err e, w)
  | (Panic, _) => (Panic, w)
  end.

End Meter.

(** ** Usage: what the code run by a transaction does to its meters *)

Inductive usage : Type :=
| Charge (n : Z)
| Refund (n : Z)
| Child (c : H160) (us : list usage) (commits : bool).

(** The bytes written and cleared, those of abandoned children included. *)
Fixpoint gross (u : usage) : Z :=
  match u with
  | Charge n => n
  | Refund n => n
  | Child _ us _ => (fix go l := match l with [] => 0 | v :: l' => gross v + go l' end) us
  end.

Fixpoint usage_ok (u : usage) : Prop :=
  match u with
  | Charge n => 0 <= n
  | Refund n => 0 <= n
  | Child _ us _ => (fix go l := match l with [] => True | v :: l' => usage_ok v /\ go l' end) us
  end.

Section Usage.
Context {W G E : Type} `{!DispatchErrorStr E} `{!StorageMeterHandler W E}.

(** The meter of the code, driven by a usage. *)
Fixpoint run_usage (u : usage) : M (Metered W G E) E unit :=
  match u with
  | Charge n => charge n
  | Refund n => refund n
  | Child c us commits =>
      do! try_run (run_sub_transaction c
            (do! (fix go l := match l with [] => ret tt | v :: l' => do! run_usage v in go l' end) us in
             ret (commits, tt))) in
      ret tt
  end.

Fixpoint run_usages (us : list usage) : M (Metered W G E) E unit :=
  match us with
  | [] => ret tt
  | u :: us' => do! run_usage u in run_usages us'
  end.

Definition transaction (g : G) (c : H160) (limit : Z) (us : list usage) (commits : bool) : M W E unit :=
  run_transaction c limit g (do! run_usages us in ret (commits, tt)).

(** ** The abstract meter: one budget

    A transaction has a budget of bytes, on which the calls it makes draw as well. A call
    that leaves the budget overdrawn, or is abandoned, leaves the storage as it was before
    it, and so does one whose deposit cannot be moved. What calls within it had ended by then
    (and, where it was the deposit, the call itself) stays taken from the budget all the
    same: the bytes are counted with the callers, although nobody paid for them. *)

Record budget : Type := MkBudget {
  avail : Z;
  used : Z;
  refunded : Z;
  below_used : Z;
  below_refunded : Z
}.

Definition whole (limit : Z) : budget := MkBudget limit 0 0 0 0.

Definition open_child (b : budget) : budget := whole (Z.max 0 (avail b)).

(** What a call that ended below used. *)
Definition take_below (u r : Z) (b : budget) : budget :=
  MkBudget (avail b - (u - r)) (used b) (refunded b) (below_used b + u) (below_refunded b + r).

Fixpoint spend (u : usage) (b : budget) (w : W) : outcome E (budget * W) :=
  match u with
  | Charge n => Ok (MkBudget (avail b - n) (used b + n) (refunded b) (below_used b) (below_refunded b), w)
  | Refund n => Ok (MkBudget (avail b + n) (used b) (refunded b + n) (below_used b) (below_refunded b), w)
  | Child c us commits =>
      let? (child, w1) :=
        (fix go l b w := match l with [] => Ok (b, w) | v :: l' => let? (b', w') := spend v b w in go l' b' w' end)
          us (open_child b) w in
      let b1 := take_below (below_used child) (below_refunded child) b in
      if commits && (0 <=? avail child) then
        match charge_storage c (used child) (refunded child) w1 with
        | (Ok _, w2) => Ok (take_below (used child) (refunded child) b1, w2)
        | (Err _, _) => Ok (take_below (used child) (refunded child) b1, w)
        | (Panic, _) => Panic
        end
      else Ok (b1, w)
  end.

Fixpoint spends (us : list usage) (b : budget) (w : W) : outcome E (budget * W) :=
  match us with
  | [] => Ok (b, w)
  | u :: us' => let? (b', w') := spend u b w in spends us' b' w'
  end.

(** The whole transaction on one budget: reserve it, let the calls that commit move their
    deposits as they end, give the rest back. *)
Definition budget_transaction (c : H160) (limit : Z) (us : list usage) (commits : bool) : M W E unit := fun w =>
  match reserve_storage limit w with
  | (Ok _, w1) =>
      match spends us (whole limit) w1 with
      | Ok (b, w2) =>
          if negb commits then (Ok tt, w)
          else if avail b <? 0 then (Err (dispatch_other "OutOfStorage"), w)
          else
            match charge_storage c (used b) (refunded b) w2 with
            | (Ok _, w3) =>
                match unreserve_storage (Z.max 0 (avail b + used b - refunded b)) (used b) (refunded b) w3 with
                | (Ok _, w4) => (Ok tt, w4)
                | (Err e, _) => (Err e, w)
                | (Panic, _) => (Panic, w)
                end
            | (Err e, _) => (Err e, w)
            | (Panic, _) => (Panic, w)
            end
      | Err e => (Err e, w)
      | Panic => (Panic, w)
      end
  | (Err e, _) => (Err e, w)
  | (Panic, _) => (Panic, w)
  end.

End Usage.

(** ** Folding the nested fixpoints *)

Fixpoint grosses (us : list usage) : Z :=
  match us with [] => 0 | u :: us' => gross u + grosses us' end.

Fixpoint usages_ok (us : list usage) : Prop :=
  match us with [] => True | u :: us' => usage_ok u /\ usages_ok us' end.

Lemma usage_mutind (P : usage -> Prop) (Q : list usage -> Prop) :
  (forall n, P (Charge n)) -> (forall n, P (Refund n)) ->
  (forall c us commits, Q us -> P (Child c us commits)) ->
  Q [] -> (forall u us, P u -> Q us -> Q (u :: us)) -> (forall u, P u) /\ (forall us, Q us).
Proof.
  intros Hc Hr Hch Hn Hl.
  assert (forall u, P u) as HP.
  { fix go 1. intros [n|n|c us commits]; [apply Hc|apply Hr|]. apply Hch.
    induction us as [|u us IH]; [apply Hn|]. apply Hl; [apply go|apply IH]. }
  split; [done|]. intros us. induction us; auto.
Qed.

Lemma gross_child c us commits : gross (Child c us commits) = grosses us.
Proof. cbn [gross]. induction us as [|u us IH]; simpl; [done|]. by rewrite IH. Qed.

Lemma usage_ok_child c us commits : usage_ok (Child c us commits) <-> usages_ok us.
Proof. cbn [usage_ok]. induction us as [|u us IH]; simpl; [done|]. by rewrite IH. Qed.

Lemma gross_nonneg : (forall u, usage_ok u -> 0 <= gross u) /\ (forall us, usages_ok us -> 0 <= grosses us).
Proof.
  apply usage_mutind; try done.
  simpl. intros u us IHu IHus [Hu Hus]. specialize (IHu Hu). specialize (IHus Hus). lia.
Qed.

(** ** The refinement *)

(** Budgets stay well formed: nothing negative, and what was used is bounded by what the
    usage names. *)
Record budget_ok (g : Z) (b : budget) : Prop := {
  ok_used : 0 <= used b;
  ok_refunded : 0 <= refunded b;
  ok_below_used : 0 <= below_used b;
  ok_below_refunded : 0 <= below_refunded b;
  ok_gross : used b + refunded b + below_used b + below_refunded b <= g
}.

(** The budget of a call is its limit less the net use of the call and those below it. *)
Definition balanced (l : Z) (b : budget) : Prop :=
  avail b = l - (used b - refunded b) - (below_used b - below_refunded b).

Lemma whole_ok l : budget_ok 0 (whole l).
Proof. by split. Qed.

Lemma whole_balanced l : balanced l (whole l).
Proof. unfold balanced. simpl. lia. Qed.

Lemma take_below_balanced l u r b : balanced l b -> balanced l (take_below u r b).
Proof. unfold balanced. simpl. lia. Qed.

Section Refinement.
Context {W G E : Type} `{!DispatchErrorStr E} `{!StorageMeterHandler W E}.

(** What a nested call does to the budget once its own calls are done. *)
Definition end_child (c : H160) (commits : bool) (b : budget) (w : W) (child : budget) (w1 : W) : outcome E (budget * W) :=
  let b1 := take_below (below_used child) (below_refunded child) b in
  if commits && (0 <=? avail child) then
    match charge_storage c (used child) (refunded child) w1 with
    | (Ok _, w2) => Ok (take_below (used child) (refunded child) b1, w2)
    | (Err _, _) => Ok (take_below (used child) (refunded child) b1, w)
    | (Panic, _) => Panic
    end
  else Ok (b1, w).

Lemma spend_child c us commits b (w : W) :
  spend (E:=E) (Child c us commits) b w = let? (child, w1) := spends us (open_child b) w in end_child c commits b w child w1.
Proof.
  cbn [spend]. unfold end_child.
  assert (forall b0 w0,
    (fix go l b w := match l with [] => Ok (b, w) | v :: l' => let? (b', w') := spend v b w in go l' b' w' end) us b0 w0
    = spends (E:=E) us b0 w0) as Hgo.
  { induction us as [|u us IH]; intros b0 w0; simpl; [done|]. destruct (spend u b0 w0) as [[b1 w1]|e|]; simpl; [apply IH|done..]. }
  by rewrite Hgo.
Qed.

(** However a nested call ends, the budget has lost at most what it used. *)
Lemma end_child_cases c commits b (w : W) child w1 b' w' :
  end_child c commits b w child w1 = Ok (b', w') ->
  b' = take_below (below_used child) (below_refunded child) b
  \/ b' = take_below (used child) (refunded child) (take_below (below_used child) (below_refunded child) b).
Proof.
  unfold end_child. destruct (_ && _); [|by intros [= <- _]; left].
  destruct (charge_storage _ _ _ _) as [[[]|e|] w2]; intros [= <- _]; by right.
Qed.

Lemma end_child_ok g g' c commits b (w : W) child w1 b' w' :
  budget_ok g b -> budget_ok g' child -> end_child c commits b w child w1 = Ok (b', w') -> budget_ok (g + g') b'.
Proof. intros [] [] Hend. apply end_child_cases in Hend as [->| ->]; split; simpl; lia. Qed.

Lemma spend_ok :
  (forall u g b (w : W) b' w', usage_ok u -> budget_ok g b -> spend (E:=E) u b w = Ok (b', w') -> budget_ok (g + gross u) b') /\
  (forall us g b (w : W) b' w', usages_ok us -> budget_ok g b -> spends (E:=E) us b w = Ok (b', w') -> budget_ok (g + grosses us) b').
Proof.
  apply usage_mutind.
  - intros n g b w b' w' Hn [] [= <- _]. simpl in Hn. split; simpl; lia.
  - intros n g b w b' w' Hn [] [= <- _]. simpl in Hn. split; simpl; lia.
  - intros c us commits IH g b w b' w' Hu Hb. rewrite usage_ok_child in Hu. rewrite spend_child, gross_child.
    destruct (spends us (open_child b) w) as [[child w1]|e|] eqn:Ec; [|done..]. simpl. intros Hend.
    pose proof (IH 0 _ _ _ _ Hu (whole_ok _) Ec) as Hc. by eapply end_child_ok.
  - intros g b w b' w' _ Hb [= <- _]. simpl. by rewrite Z.add_0_r.
  - intros u us IHu IHus g b w b' w' [Hu Hus] Hb. simpl. destruct (spend u b w) as [[b1 w1]|e|] eqn:Eu; [|done..]. simpl.
    rewrite Z.add_assoc. apply IHus; [done|]. by eapply IHu.
Qed.

Lemma spend_balanced :
  (forall u l b (w : W) b' w', balanced l b -> spend (E:=E) u b w = Ok (b', w') -> balanced l b') /\
  (forall us l b (w : W) b' w', balanced l b -> spends (E:=E) us b w = Ok (b', w') -> balanced l b').
Proof.
  apply usage_mutind.
  - unfold balanced. intros n l b w b' w' Hb [= <- _]. simpl. lia.
  - unfold balanced. intros n l b w b' w' Hb [= <- _]. simpl. lia.
  - intros c us commits IH l b w b' w' Hb. rewrite spend_child.
    destruct (spends us (open_child b) w) as [[child w1]|e|]; [|done..]. simpl. intros Hend.
    apply end_child_cases in Hend as [->| ->]; by repeat apply take_below_balanced.
  - intros l b w b' w' Hb [= <- _]. done.
  - intros u us IHu IHus l b w b' w' Hb. simpl. destruct (spend u b w) as [[b1 w1]|e|] eqn:Eu; [|done..]. simpl.
    apply IHus. by eapply IHu.
Qed.

(** What an ended call leaves in the meters of its callers. *)
Definition shift (u r : Z) (m : StorageMeter E) : StorageMeter E :=
  MkMeter (contract m) (limit m) (total_used m + u) (self_used m)
    (total_refunded m + r) (self_refunded m) (result m).

Definition absorb (b : budget) : StorageMeter E -> StorageMeter E := shift (below_used b) (below_refunded b).

Lemma shift_nil (hs : list (StorageMeter E)) : shift 0 0 <$> hs = hs.
Proof. induction hs as [|m hs IH]; csimpl; [done|]. rewrite IH. unfold shift. rewrite !Z.add_0_r. by destruct m. Qed.

Lemma shift_shift u r u' r' (hs : list (StorageMeter E)) : shift u' r' <$> (shift u r <$> hs) = shift (u + u') (r + r') <$> hs.
Proof. rewrite <- list_fmap_compose. apply list_fmap_ext. intros i m _. unfold compose, shift. simpl. by rewrite !Z.add_assoc. Qed.

(** A meter that will not saturate while [g] more bytes are written or cleared. *)
Definition roomy (g : Z) (m : StorageMeter E) : Prop :=
  result m = None /\ 0 <= limit m /\ 0 <= total_used m /\ 0 <= total_refunded m
  /\ limit m + total_used m + total_refunded m + g <= umax 32.

(** Whether the deposit can be moved or not, the callers have counted the bytes. *)
Lemma handler_charge_exact hs c u r (w : W) :
  0 <= u -> 0 <= r -> Forall (roomy (u + r)) hs ->
  handler_charge_storage hs c u r w = (let '(o, w') := charge_storage c u r w in (o, (shift u r <$> hs, w'))).
Proof.
  intros Hu Hr. induction 1 as [|m hs (Hres & ? & ? & ? & ?) _ IH]; simpl; [done|].
  rewrite Hres, IH. destruct (charge_storage c u r w) as [o w']. do 3 f_equal. unfold shift, add_used, add_refunded. simpl.
  by rewrite !sat_add_exact by lia.
Qed.

(** The meter of a call that began with limit [l] and handlers [hs] simulates the budget. *)
Record sim (c l : Z) (hs : list (StorageMeter E)) (w : W) (s : Metered W G E) (b : budget) : Prop := {
  sim_contract : contract (meter s) = c;
  sim_limit : limit (meter s) = l;
  sim_result : result (meter s) = None;
  sim_used : self_used (meter s) = used b;
  sim_refunded : self_refunded (meter s) = refunded b;
  sim_total_used : total_used (meter s) = used b + below_used b;
  sim_total_refunded : total_refunded (meter s) = refunded b + below_refunded b;
  sim_handlers : handlers s = absorb b <$> hs;
  sim_world : world s = w
}.

Lemma sim_fresh c l hs (g : G) w : sim c l hs w (MkMetered (fresh_meter c l) hs g w) (whole l).
Proof. split; try done. simpl. symmetry. apply shift_nil. Qed.

Lemma sim_avail c l hs w s b g :
  sim c l hs w s b -> balanced l b -> budget_ok g b -> 0 <= l -> l + g <= umax 32 ->
  available_storage (meter s) = Z.max 0 (avail b).
Proof.
  intros [] Hb [] Hl Hg. unfold available_storage, balanced in *.
  rewrite sim_result0, sat_add_exact by lia. unfold sat_sub. lia.
Qed.

Lemma roomy_shift g g' u r m : 0 <= u -> 0 <= r -> u + r + g <= g' -> roomy g' m -> roomy g (shift u r m).
Proof. intros Hu Hr Hg (? & ? & ? & ? & ?). unfold roomy. simpl. split_and!; [done|lia..]. Qed.

Lemma sim_roomy c l hs w s b g k :
  sim c l hs w s b -> budget_ok g b -> 0 <= l -> l + g + k <= umax 32 ->
  Forall (roomy (g + k)) hs -> Forall (roomy k) (meter s :: handlers s).
Proof.
  intros [] [] Hl Hg Hhs. constructor.
  - unfold roomy. split_and!; [done|lia..].
  - rewrite sim_handlers0. apply Forall_fmap. eapply Forall_impl; [exact Hhs|]. intros m. apply roomy_shift; lia.
Qed.

(** A call that ends within its budget: its usage is left with all its callers, and its
    deposit moves if it can. *)
Lemma settle_within c l hs w s b g :
  sim c l hs w s b -> balanced l b -> budget_ok g b -> 0 <= l -> Forall (roomy g) hs -> 0 <= avail b ->
  let hs' := shift (below_used b + used b) (below_refunded b + refunded b) <$> hs in
  settle s =
  (let '(o, w1) := charge_storage c (used b) (refunded b) w in
   match o with
   | Ok _ =>
       let '(r, w2) := handler_unreserve_storage hs' (new_limit (meter s)) (used b) (refunded b) w1 in
       (r, MkMetered (meter s) hs' (memory s) w2)
   | Err e => (Err e, MkMetered (meter s) hs' (memory s) w1)
   | Panic => (Panic, MkMetered (meter s) hs' (memory s) w1)
   end).
Proof.
  intros [] Hb [] Hl Hhs Ha. unfold settle, balanced in *.
  destruct (Z.ltb_spec (limit (meter s)) (sat_sub (total_used (meter s)) (total_refunded (meter s))));
    [unfold sat_sub in *; lia|].
  rewrite sim_handlers0, sim_world0, sim_used0, sim_refunded0, sim_contract0.
  assert (Forall (roomy (used b + refunded b)) (absorb b <$> hs)) as Hroom.
  { apply Forall_fmap. eapply Forall_impl; [exact Hhs|]. intros m. apply roomy_shift; lia. }
  rewrite handler_charge_exact by done. unfold absorb. rewrite shift_shift.
  by destruct (charge_storage _ _ _ _) as [[]].
Qed.

Lemma settle_overdrawn c l hs w s b :
  sim c l hs w s b -> balanced l b -> 0 <= l -> avail b < 0 ->
  settle s = (Err (dispatch_other "OutOfStorage"), s).
Proof.
  intros [] Hb Hl Ha. unfold settle, balanced in *.
  destruct (Z.ltb_spec (limit (meter s)) (sat_sub (total_used (meter s)) (total_refunded (meter s))));
    [done|unfold sat_sub in *; lia].
Qed.

Lemma finish_live (s : Metered W G E) : result (meter s) = None ->
  finish s = match settle s with
             | (Err x, s') => (Err x, set_meter (set_result (Some x)) s')
             | r => r
             end.
Proof. intros Hr. unfold finish, handle. by rewrite Hr. Qed.

(** The fresh meter of a nested call simulates the opened budget. *)
Lemma sim_child c l hs w s b g c' :
  sim c l hs w s b -> balanced l b -> budget_ok g b -> 0 <= l -> l + g <= umax 32 ->
  child_meter c' s = (Ok (fresh_meter c' (Z.max 0 (avail b))), s)
  /\ sim c' (Z.max 0 (avail b)) (meter s :: handlers s) w (push (fresh_meter c' (Z.max 0 (avail b))) s) (open_child b).
Proof.
  intros Hs Hb Hok Hl Hg. split.
  - unfold child_meter, handle. rewrite (sim_result _ _ _ _ _ _ Hs). unfold gets.
    by rewrite (sim_avail _ _ _ _ _ _ _ Hs Hb Hok Hl Hg).
  - rewrite <- (sim_world _ _ _ _ _ _ Hs). apply sim_fresh.
Qed.

(** Popping a child whose callers have counted [u] and [r]. *)
Lemma sim_pop c l hs w s b u r m gm w1 w2 :
  sim c l hs w s b ->
  sim c l hs w2 (set_world w2 (pop (MkMetered m (shift u r <$> (meter s :: handlers s)) gm w1))) (take_below u r b).
Proof.
  intros []. unfold set_world, pop. split; simpl; try done; try lia.
  rewrite sim_handlers0. unfold absorb. by rewrite shift_shift.
Qed.

(** [run] does to the meters what [after] does to the budget, where the [k] bytes it needs
    fit. *)
Definition simulates (run : M (Metered W G E) E unit) (after : budget -> W -> outcome E (budget * W)) (k : Z) : Prop :=
  forall c l hs w s b g,
    sim c l hs w s b -> balanced l b -> budget_ok g b ->
    0 <= l -> l + g + k <= umax 32 -> Forall (roomy (g + k)) hs ->
    match after b w with
    | Ok (b', w') => exists s', run s = (Ok tt, s') /\ sim c l hs w' s' b'
    | Err _ => False
    | Panic => (run s).1 = Panic
    end.

Lemma charge_simulates n : 0 <= n -> simulates (charge n) (spend (Charge n)) n.
Proof.
  intros Hn c l hs w s b g [] Hb [] Hl Hg Hhs. simpl.
  eexists. split; [unfold charge, handle; by rewrite sim_result0|].
  split; simpl; try done; rewrite ?sat_add_exact; lia.
Qed.

Lemma refund_simulates n : 0 <= n -> simulates (refund n) (spend (Refund n)) n.
Proof.
  intros Hn c l hs w s b g [] Hb [] Hl Hg Hhs. simpl.
  eexists. split; [unfold refund, handle; by rewrite sim_result0|].
  split; simpl; try done; rewrite ?sat_add_exact; lia.
Qed.

Lemma run_child_fold c us commits :
  @run_usage W G E _ _ (Child c us commits) =
  (do! try_run (run_sub_transaction c (do! run_usages us in ret (commits, tt))) in ret tt).
Proof. reflexivity. Qed.

(** The end of a nested call. *)
Lemma end_simulates c' commits c l hs w s b child w1 s1 l' g :
  sim c l hs w s b ->
  sim c' l' (meter s :: handlers s) w1 s1 child -> balanced l' child -> budget_ok g child -> 0 <= l' ->
  Forall (roomy g) (meter s :: handlers s) ->
  match end_child c' commits b w child w1 with
  | Ok (b', w') =>
      exists s', (if commits then
                    match finish s1 with
                    | (Ok _, s2) => (@Ok E _ tt, pop s2)
                    | (Err e, s2) => (Err e, set_world (world s) (pop s2))
                    | (Panic, s2) => (Panic, s2)
                    end
                  else (Ok tt, set_world (world s) (pop s1))) = (s'.1, s'.2)
        /\ s'.1 <> Panic /\ sim c l hs w' s'.2 b'
  | Err _ => False
  | Panic => commits = true /\ (finish s1).1 = Panic
  end.
Proof.
  intros Hs Hs1 Hb Hok Hl Hroom. unfold end_child. rewrite (sim_world _ _ _ _ _ _ Hs).
  assert (forall m gm w2, sim c l hs w (set_world w (pop (MkMetered m (handlers s1) gm w2))) (take_below (below_used child) (below_refunded child) b)) as Hab.
  { intros m gm w2. rewrite (sim_handlers _ _ _ _ _ _ Hs1). by eapply sim_pop. }
  destruct commits; simpl; [|eexists (_, _); split_and!; [done|done|]; simpl; specialize (Hab (meter s1) (memory s1) (world s1)); by destruct s1].
  rewrite finish_live by apply (sim_result _ _ _ _ _ _ Hs1). destruct (Z.leb_spec 0 (avail child)) as [Ha|Ha].
  - rewrite (settle_within _ _ _ _ _ _ _ Hs1 Hb Hok Hl Hroom Ha).
    assert (forall m gm w2 w3, sim c l hs w3
      (set_world w3 (pop (MkMetered m (shift (below_used child + used child) (below_refunded child + refunded child) <$> (meter s :: handlers s)) gm w2)))
      (take_below (used child) (refunded child) (take_below (below_used child) (below_refunded child) b))) as Hcl.
    { intros m gm w2 w3.
      replace (take_below (used child) (refunded child) (take_below (below_used child) (below_refunded child) b))
        with (take_below (below_used child + used child) (below_refunded child + refunded child) b)
        by (unfold take_below; simpl; f_equal; lia).
      by eapply sim_pop. }
    destruct (charge_storage c' (used child) (refunded child) w1) as [[[]|e|] w2]; simpl; [| |done].
    + eexists (_, _). split_and!; [done|done|]. apply (Hcl (meter s1) (memory s1) w2 w2).
    + eexists (_, _). split_and!; [done|done|]. apply (Hcl (set_result (Some e) (meter s1)) (memory s1) w2 w).
  - rewrite (settle_overdrawn _ _ _ _ _ _ Hs1 Hb Hl Ha). eexists (_, _). split_and!; [done|done|]. simpl.
    apply (Hab (set_result (Some (dispatch_other "OutOfStorage")) (meter s1)) (memory s1) (world s1)).
Qed.

Lemma child_simulates c' us commits :
  usages_ok us -> simulates (run_usages us) (spends us) (grosses us) ->
  simulates (run_usage (Child c' us commits)) (spend (Child c' us commits)) (grosses us).
Proof.
  intros Huok IH c l hs w s b g Hs Hb Hok Hl Hg Hhs.
  pose proof (proj2 gross_nonneg us Huok) as Hgr.
  destruct (sim_child c l hs w s b g c' Hs Hb Hok Hl ltac:(lia)) as [Hm Hsim].
  pose proof (sim_roomy c l hs w s b g (grosses us) Hs Hok Hl Hg Hhs) as Hroom.
  assert (0 <= Z.max 0 (avail b) /\ Z.max 0 (avail b) + 0 + grosses us <= umax 32) as [Hl0 Hl'].
  { destruct Hok. unfold balanced in *. lia. }
  pose proof (IH c' (Z.max 0 (avail b)) (meter s :: handlers s) w _ _ 0 Hsim (whole_balanced _) (whole_ok _) Hl0 Hl' Hroom) as Hrun.
  rewrite run_child_fold, spend_child. unfold run_sub_transaction, try_run, bind. rewrite Hm.
  set (st := push (fresh_meter c' (Z.max 0 (avail b))) s) in *.
  destruct (spends us (open_child b) w) as [[child w1]|e|] eqn:Ec; simpl; [|done|].
  2:{ destruct (run_usages us st) as [r s1]. simpl in Hrun. by rewrite Hrun. }
  destruct Hrun as (s1 & Hrun & Hsim1). rewrite Hrun. unfold ret at 1.
  pose proof (proj2 spend_ok us 0 _ _ _ _ Huok (whole_ok _) Ec) as Hcok.
  pose proof (proj2 spend_balanced us _ _ _ _ _ (whole_balanced _) Ec) as Hcb.
  pose proof (end_simulates c' commits c l hs w s b child w1 s1 _ _ Hs Hsim1 Hcb Hcok Hl0 Hroom) as Hend.
  destruct (end_child c' commits b w child w1) as [[b' w']|e|]; [|done|].
  - destruct Hend as ([o s'] & Heq & Hno & Hs'). simpl in *. exists s'. destruct commits.
    + destruct (finish s1) as [[u|e|] s2]; injection Heq as <- <-; done.
    + by injection Heq as <- <-.
  - destruct Hend as [-> Hp]. unfold ret. cbv beta iota. destruct (finish s1) as [o s2]. simpl in Hp. by rewrite Hp.
Qed.

Lemma usage_simulates :
  (forall u, usage_ok u -> simulates (run_usage u) (spend u) (gross u)) /\
  (forall us, usages_ok us -> simulates (run_usages us) (spends us) (grosses us)).
Proof.
  apply usage_mutind.
  - intros n Hn c l hs w s b g. by apply charge_simulates.
  - intros n Hn c l hs w s b g. by apply refund_simulates.
  - intros c us commits IH Hu. apply usage_ok_child in Hu. rewrite gross_child. by apply child_simulates, IH.
  - intros _ c l hs w s b g Hs _ _ _ _ _. by exists s.
  - intros u us IHu IHus [Hu Hus] c l hs w s b g Hs Hb Hok Hl Hg Hhs. simpl in *.
    pose proof (proj2 gross_nonneg us Hus). pose proof (proj1 gross_nonneg u Hu).
    assert (Forall (roomy (g + gross u)) hs) as Hhs1.
    { eapply Forall_impl; [exact Hhs|]. unfold roomy. intros m Hm. intuition lia. }
    pose proof (IHu Hu c l hs w s b g Hs Hb Hok Hl ltac:(lia) Hhs1) as Hu1.
    destruct (spend u b w) as [[b1 w1]|e|] eqn:Eu; simpl; [|done|].
    2:{ unfold bind. destruct (run_usage u s) as [r s1]. simpl in Hu1. by rewrite Hu1. }
    destruct Hu1 as (s1 & Hrun & Hs1).
    pose proof (proj1 spend_balanced u _ _ _ _ _ Hb Eu) as Hb1. pose proof (proj1 spend_ok u _ _ _ _ _ Hu Hok Eu) as Hok1.
    assert (Forall (roomy (g + gross u + grosses us)) hs) as Hhs2 by (by rewrite <- Z.add_assoc).
    pose proof (IHus Hus c l hs w1 s1 b1 (g + gross u) Hs1 Hb1 Hok1 Hl ltac:(lia) Hhs2) as Hus1.
    unfold bind. rewrite Hrun. exact Hus1.
Qed.

Lemma new_limit_exact c l hs w s b g :
  sim c l hs w s b -> balanced l b -> budget_ok g b -> 0 <= l -> l + g <= umax 32 -> 0 <= avail b ->
  new_limit (meter s) = Z.max 0 (avail b + used b - refunded b).
Proof.
  intros [] Hb [] Hl Hg Ha. unfold new_limit, balanced in *.
  rewrite !sat_add_exact by (rewrite ?sat_add_exact; lia). unfold sat_sub. lia.
Qed.

(** C5: a metered transaction is a transaction on one budget. Whatever tree of calls the code
    makes, however they end and whatever deposits can be moved, the nested meters do what
    one budget does ([budget_transaction]): a call commits exactly when its caller's budget
    is not overdrawn by it and its deposit can be moved, deposits are moved in the order in
    which the calls end, and what is unreserved at the end is the budget that is left with
    what the outermost call used of it. A call that does not commit leaves the storage as it
    was, but the bytes of the calls that had ended within it stay taken from the budget. The
    limit with all the bytes that are written or cleared must fit 32 bits, so that no counter
    saturates. *)
Theorem meter_refines_budget (g : G) (c limit : Z) (us : list usage) (commits : bool) (w : W) :
  0 <= limit -> usages_ok us -> limit + grosses us <= umax 32 ->
  transaction g c limit us commits w = budget_transaction c limit us commits w
  /\ forall w1 b w2, spends (E:=E) us (whole limit) w1 = Ok (b, w2) ->
       avail b = limit - (used b - refunded b) - (below_used b - below_refunded b).
Proof.
  intros Hl Hu Hg. split; [|intros w1 b w2; apply (proj2 spend_balanced us), whole_balanced].
  unfold transaction, run_transaction, budget_transaction, new, bind at 1.
  destruct (reserve_storage limit w) as [[u|e|] w1]; try done. unfold ret at 1.
  pose proof (proj2 usage_simulates us Hu c limit [] w1 (MkMetered (fresh_meter c limit) [] g w1) (whole limit) 0
    (sim_fresh _ _ _ _ _) (whole_balanced _) (whole_ok _) Hl ltac:(lia) ltac:(constructor)) as Hrun.
  unfold bind. destruct (spends us (whole limit) w1) as [[b w2]|e|] eqn:Es; [|done|].
  2:{ destruct (run_usages us _) as [r s]. simpl in Hrun. by rewrite Hrun. }
  destruct Hrun as (s & Hrun & Hs). rewrite Hrun. unfold ret. destruct commits; simpl; [|done].
  pose proof (proj2 spend_ok us 0 _ _ _ _ Hu (whole_ok _) Es) as Hok.
  pose proof (proj2 spend_balanced us _ _ _ _ _ (whole_balanced _) Es) as Hb.
  rewrite finish_live by apply (sim_result _ _ _ _ _ _ Hs).
  destruct (Z.ltb_spec (avail b) 0) as [Ha|Ha].
  - by rewrite (settle_overdrawn _ _ _ _ _ _ Hs Hb Hl Ha).
  - rewrite (settle_within _ _ _ _ _ _ _ Hs Hb Hok Hl ltac:(constructor) Ha). simpl.
    rewrite (new_limit_exact _ _ _ _ _ _ _ Hs Hb Hok Hl Hg Ha).
    destruct (charge_storage _ _ _ _) as [[[]|e|] w3]; [|done..]. by destruct (unreserve_storage _ _ _ _) as [[]].
Qed.

End Refinement.
