(* ===== verification/Evm.v ===== *)
(** * The EVM pallet: storage, accounts and code

    [lib-serml/evm/evm/src/lib.rs], without the calls that run code ([EvmRunner]): the
    storage, the accounts of contracts and developers, the reference counts of code, the
    maintainers of contracts and their deployment. What the pallet asks of other crates
    and pallets is in the classes at the top. *)

From Stdlib Require Import String.
From S2P Require Import Prelude EvmMeter.

Abbreviation H256 := Z.
Abbreviation bytes := (list Z).

(** ** What the pallet relies on *)

(** [support::AddressMapping]; [get_or_create_evm_address] may write. *)
Class AddressMapping (L AccountId : Type) : Type := {
  get_account_id : H160 -> L -> AccountId;
  get_evm_address : AccountId -> L -> option H160;
  get_or_create_evm_address : AccountId -> L -> H160 * L;
  get_default_evm_address : AccountId -> H160
}.

Inductive BalanceStatus : Type := Free | Reserved.

(** [T::Currency] (free and reserved balances), [T::TransferAll], and the account
    references of [frame_system]. [unreserve] returns what could not be unreserved,
    [repatriate_reserved] what could not be moved. *)
Class NativeCurrency (L X AccountId : Type) : Type := {
  free_balance : AccountId -> L -> Z;
  reserved_balance : AccountId -> L -> Z;
  currency_transfer : AccountId -> AccountId -> Z -> M L X unit;
  reserve : AccountId -> Z -> M L X unit;
  unreserve : AccountId -> Z -> M L X Z;
  repatriate_reserved : AccountId -> AccountId -> Z -> BalanceStatus -> M L X Z;
  transfer_all : AccountId -> AccountId -> M L X unit;
  inc_providers : AccountId -> L -> L;
  dec_providers : AccountId -> M L X unit;
  reaped : L -> L -> list AccountId
}.

(** ** The errors of the third-party interpreter *)

Inductive ExitError : Type :=
| OutOfGas
| OtherError (s : string)
| InterpreterError (code : Z).

Inductive ExitSucceed : Type := Stopped | Returned | Suicided.

Inductive ExitReason : Type :=
| Succeed (s : ExitSucceed)
| Error (e : ExitError)
| Revert
| Fatal (code : Z).

Definition is_succeed (r : ExitReason) : bool := match r with Succeed _ => true | _ => false end.

(** ** Storage *)

Inductive EvmError : Type :=
| AddressNotMapped
| ContractNotFound
| NoPermission
| NumOutOfBound
| StorageExceedsStorageLimit
| ContractDevelopmentNotEnabled
| ContractDevelopmentAlreadyEnabled
| ContractAlreadyDeployed
| ContractExceedsMaxCodeSize
| OutOfStorage
| ChargeFeeFailed
| CannotKillContract
| ConflictContractAddress.

Record ContractInfo : Type := MkContractInfo {
  code_hash : H256;
  maintainer : H160;
  deployed : bool
}.

Record AccountInfo : Type := MkAccountInfo {
  nonce : Z;
  contract_info : option ContractInfo;
  developer_deposit : option Z
}.

(** [AccountInfo::new]. *)
Definition AccountInfo_new (nonce : Z) (contract_info : option ContractInfo) : AccountInfo :=
  MkAccountInfo nonce contract_info None.

Record CodeInfo : Type := MkCodeInfo {
  code_size : Z;
  ref_count : Z
}.

Inductive EvmEvent (AccountId : Type) : Type :=
| Log (address : H160) (topics : list H256) (data : bytes)
| Created (address : H160)
| CreatedFailed (address : H160) (reason : ExitReason) (output : bytes)
| Executed (contract : H160)
| ExecutedFailed (contract : H160) (reason : ExitReason) (output : bytes)
| TransferredMaintainer (contract new_maintainer : H160)
| ContractDevelopmentEnabled (who : AccountId)
| ContractDevelopmentDisabled (who : AccountId)
| ContractDeployed (contract : H160)
| ContractSetCode (contract : H160)
| ContractSelfdestructed (contract : H160).

Arguments Log {AccountId}.
Arguments Created {AccountId}.
Arguments CreatedFailed {AccountId}.
Arguments Executed {AccountId}.
Arguments ExecutedFailed {AccountId}.
Arguments TransferredMaintainer {AccountId}.
Arguments ContractDevelopmentEnabled {AccountId}.
Arguments ContractDevelopmentDisabled {AccountId}.
Arguments ContractDeployed {AccountId}.
Arguments ContractSetCode {AccountId}.
Arguments ContractSelfdestructed {AccountId}.

Record State (L AccountId : Type) : Type := MkState {
  accounts : gmap H160 AccountInfo;
  contract_storage_sizes : gmap H160 Z;
  account_storages : gmap (H160 * H256) H256;
  codes : gmap H256 bytes;
  code_infos : gmap H256 CodeInfo;
  network_contract_index : Z;
  extrinsic_origin : option AccountId;
  events : list (EvmEvent AccountId);
  chain : L
}.

Arguments MkState {L AccountId}.
Arguments accounts {L AccountId}.
Arguments contract_storage_sizes {L AccountId}.
Arguments account_storages {L AccountId}.
Arguments codes {L AccountId}.
Arguments code_infos {L AccountId}.
Arguments network_contract_index {L AccountId}.
Arguments extrinsic_origin {L AccountId}.
Arguments events {L AccountId}.
Arguments chain {L AccountId}.

(** The constants of the runtime, its origins, and the hash of the EVM. *)
Record Config (X AccountId Origin : Type) : Type := MkConfig {
  new_contract_extra_bytes : Z;
  storage_deposit_per_byte : Z;
  max_code_size : Z;
  chain_id : Z;
  network_contract_source : H160;
  developer_deposit_amount : Z;
  deployment_fee : Z;
  treasury_account : AccountId;
  ethereum_compatibility : bool;
  keccak : bytes -> H256;
  signed_by : Origin -> option AccountId;
  is_root : Origin -> bool;
  is_network_contract_origin : Origin -> bool;
  is_free_deployment_origin : Origin -> bool;
  bad_origin : X
}.

Arguments MkConfig {X AccountId Origin}.
Arguments new_contract_extra_bytes {X AccountId Origin}.
Arguments storage_deposit_per_byte {X AccountId Origin}.
Arguments max_code_size {X AccountId Origin}.
Arguments chain_id {X AccountId Origin}.
Arguments network_contract_source {X AccountId Origin}.
Arguments developer_deposit_amount {X AccountId Origin}.
Arguments deployment_fee {X AccountId Origin}.
Arguments treasury_account {X AccountId Origin}.
Arguments ethereum_compatibility {X AccountId Origin}.
Arguments keccak {X AccountId Origin}.
Arguments signed_by {X AccountId Origin}.
Arguments is_root {X AccountId Origin}.
Arguments is_network_contract_origin {X AccountId Origin}.
Arguments is_free_deployment_origin {X AccountId Origin}.
Arguments bad_origin {X AccountId Origin}.

(** ** Writes *)

Section Writes.
Context {L AccountId : Type}.
Abbreviation St := (State L AccountId).

Definition set_accounts (f : gmap H160 AccountInfo -> gmap H160 AccountInfo) (s : St) : St :=
  MkState (f (accounts s)) (contract_storage_sizes s) (account_storages s) (codes s) (code_infos s)
    (network_contract_index s) (extrinsic_origin s) (events s) (chain s).

Definition set_sizes (f : gmap H160 Z -> gmap H160 Z) (s : St) : St :=
  MkState (accounts s) (f (contract_storage_sizes s)) (account_storages s) (codes s) (code_infos s)
    (network_contract_index s) (extrinsic_origin s) (events s) (chain s).

Definition set_storages (f : gmap (H160 * H256) H256 -> gmap (H160 * H256) H256) (s : St) : St :=
  MkState (accounts s) (contract_storage_sizes s) (f (account_storages s)) (codes s) (code_infos s)
    (network_contract_index s) (extrinsic_origin s) (events s) (chain s).

Definition set_codes (f : gmap H256 bytes -> gmap H256 bytes) (s : St) : St :=
  MkState (accounts s) (contract_storage_sizes s) (account_storages s) (f (codes s)) (code_infos s)
    (network_contract_index s) (extrinsic_origin s) (events s) (chain s).

Definition set_code_infos (f : gmap H256 CodeInfo -> gmap H256 CodeInfo) (s : St) : St :=
  MkState (accounts s) (contract_storage_sizes s) (account_storages s) (codes s) (f (code_infos s))
    (network_contract_index s) (extrinsic_origin s) (events s) (chain s).

Definition set_network_contract_index (v : Z) (s : St) : St :=
  MkState (accounts s) (contract_storage_sizes s) (account_storages s) (codes s) (code_infos s)
    v (extrinsic_origin s) (events s) (chain s).

Definition set_extrinsic_origin (v : option AccountId) (s : St) : St :=
  MkState (accounts s) (contract_storage_sizes s) (account_storages s) (codes s) (code_infos s)
    (network_contract_index s) v (events s) (chain s).

Definition deposit_event (e : EvmEvent AccountId) (s : St) : St :=
  MkState (accounts s) (contract_storage_sizes s) (account_storages s) (codes s) (code_infos s)
    (network_contract_index s) (extrinsic_origin s) (events s ++ [e]) (chain s).

Definition set_chain (l : L) (s : St) : St :=
  MkState (accounts s) (contract_storage_sizes s) (account_storages s) (codes s) (code_infos s)
    (network_contract_index s) (extrinsic_origin s) (events s) l.

(** [StorageMap::mutate] and [try_mutate] end by writing the value they took out. *)
Definition put_account (a : H160) (v : option AccountInfo) : St -> St :=
  set_accounts (partial_alter (fun _ => v) a).

Definition size_of (a : H160) (s : St) : Z := default 0 (contract_storage_sizes s !! a).

Definition storage_at (a : H160) (i : H256) (s : St) : H256 := default 0 (account_storages s !! (a, i)).

Definition contract_at (a : H160) (s : St) : option ContractInfo := accounts s !! a ≫= contract_info.

End Writes.

Definition with_contract (c : option ContractInfo) (i : AccountInfo) : AccountInfo :=
  MkAccountInfo (nonce i) c (developer_deposit i).

Definition with_deposit (d : option Z) (i : AccountInfo) : AccountInfo :=
  MkAccountInfo (nonce i) (contract_info i) d.

Section Evm.
Context {L X AccountId Origin : Type}.
Context `{!AddressMapping L AccountId} `{!NativeCurrency L X AccountId}.
Variable cfg : Config X AccountId Origin.

Abbreviation St := (State L AccountId).
Abbreviation Run := (M (State L AccountId) (EvmError + X)).

(** ** Code reference counts *)

(** The closure on [CodeInfos] in [remove_contract] and [remove_account]. *)
Definition deref_code (h : H256) (s : St) : St :=
  match code_infos s !! h with
  | Some ci =>
      let refs := sat_sub (ref_count ci) 1 in
      if refs =? 0
      then set_code_infos (delete h) (set_codes (delete h) s)
      else set_code_infos <[h := MkCodeInfo (code_size ci) refs]> s
  | None => s
  end.

(** The closure on [CodeInfos] in [on_contract_initialization]. *)
Definition ref_code (h : H256) (code : bytes) (s : St) : St :=
  match code_infos s !! h with
  | Some ci => set_code_infos <[h := MkCodeInfo (code_size ci) (sat_add 32 (ref_count ci) 1)]> s
  | None =>
      set_code_infos <[h := MkCodeInfo (wrap 32 (Z.of_nat (length code))) 1]> (set_codes <[h := code]> s)
  end.

(** ** Accounts that die *)

Definition remove_account (address : H160) (s : St) : St :=
  let s := match contract_at address s with Some c => deref_code (code_hash c) s | None => s end in
  set_accounts (delete address) s.

(** [CallKillAccount::on_killed_account]; the address mapping is as it was before. *)
Definition on_killed_account (l : L) (s : St) (who : AccountId) : St :=
  let s := match get_evm_address who l with Some address => remove_account address s | None => s end in
  remove_account (get_default_evm_address who) s.

(** A call into the rest of the chain: the accounts it reaps are reported back. *)
Definition on_chain {A : Type} (m : M L X A) : Run A := fun s =>
  let '(r, l) := m (chain s) in
  let s' := fold_left (on_killed_account (chain s)) (reaped (chain s) l) (set_chain l s) in
  (match r with Ok a => Ok a | Err x => Err (inr x) | Panic => Panic end, s').

Definition create_mapping (who : AccountId) : Run H160 := fun s =>
  let '(a, l) := get_or_create_evm_address who (chain s) in (Ok a, set_chain l s).

(** ** Queries *)

(** [account_basic]: the nonce and the balance. *)
Definition account_basic (address : H160) (s : St) : Z * Z :=
  (match accounts s !! address with Some i => nonce i | None => 0 end,
   free_balance (get_account_id address (chain s)) (chain s)).

Definition code_hash_at_address (address : H160) (s : St) : H256 :=
  match contract_at address s with
  | Some c => code_hash c
  | None => keccak cfg []
  end.

Definition code_at_address (address : H160) (s : St) : bytes :=
  default [] (codes s !! code_hash_at_address address s).

Definition query_maintainer (contract : H160) (s : St) : outcome (EvmError + X) H160 :=
  match contract_at contract s with
  | Some c => Ok (maintainer c)
  | None => Err (inl ContractNotFound)
  end.

(** ** Contracts *)

Definition update_contract_storage_size (address : H160) (change : Z) (s : St) : St :=
  if change =? 0 then s
  else if 0 <? change
  then set_sizes <[address := sat_add 32 (size_of address s) change]> s
  else set_sizes <[address := sat_sub (size_of address s) (- change)]> s.

Definition on_contract_initialization (address maintainer : H160) (code : bytes) : M St ExitError unit :=
  do! ensure (Z.of_nat (length code) <=? max_code_size cfg) OutOfGas in
  let code_hash := keccak cfg code in
  let code_size := wrap 32 (Z.of_nat (length code)) in
  let info := MkContractInfo code_hash maintainer (ethereum_compatibility cfg) in
  do! modify (update_contract_storage_size address
        (to_signed 32 (sat_add 32 code_size (new_contract_extra_bytes cfg)))) in
  do! modify (ref_code code_hash code) in
  do! modify (set_accounts (partial_alter (fun maybe_account_info =>
        match maybe_account_info with
        | Some account_info => Some (with_contract (Some info) account_info)
        | None => Some (AccountInfo_new 0 (Some info))
        end) address)) in
  modify (fun s => set_chain (inc_providers (get_account_id address (chain s)) (chain s)) s).

Definition remove_contract (address dest : H160) : Run Z :=
  transactional (
    let! address_account := gets (fun s => get_account_id address (chain s)) in
    let! dest_account := gets (fun s => get_account_id dest (chain s)) in
    let! maybe_account_info := gets (fun s => accounts s !! address) in
    let! account_info := ok_or maybe_account_info (inl ContractNotFound) in
    let! info := ok_or (contract_info account_info) (inl ContractNotFound) in
    do! on_chain (transfer_all address_account dest_account) in
    do! modify (deref_code (code_hash info)) in
    do! modify (set_storages (filter (fun kv => kv.1.1 <> address))) in
    let! size := gets (size_of address) in
    do! modify (set_sizes (delete address)) in
    do! modify (put_account address (Some (with_contract None account_info))) in
    do! on_chain (dec_providers address_account) in
    ret size).

Definition do_transfer_maintainer (who : AccountId) (contract new_maintainer : H160) : Run unit :=
  let! info := gets (fun s => accounts s !! contract) in
  let! account_info := ok_or info (inl ContractNotFound) in
  let! contract_info := ok_or (contract_info account_info) (inl ContractNotFound) in
  let! address := gets (fun s => get_evm_address who (chain s)) in
  let! current := ok_or address (inl AddressNotMapped) in
  do! ensure (maintainer contract_info =? current) (inl NoPermission) in
  modify (put_account contract
    (Some (with_contract (Some (MkContractInfo (code_hash contract_info) new_maintainer (deployed contract_info)))
             account_info))).

Definition mark_deployed (contract : H160) (by_maintainer : option H160) : Run unit :=
  let! account := gets (fun s => accounts s !! contract) in
  match account with
  | Some account_info =>
      match contract_info account_info with
      | Some info =>
          do! match by_maintainer with
              | Some m => ensure (maintainer info =? m) (inl NoPermission)
              | None => ret tt
              end in
          do! ensure (negb (deployed info)) (inl ContractAlreadyDeployed) in
          modify (put_account contract
            (Some (with_contract (Some (MkContractInfo (code_hash info) (maintainer info) true)) account_info)))
      | None => fail (inl ContractNotFound)
      end
  | None => fail (inl ContractNotFound)
  end.

Definition do_selfdestruct (who : AccountId) (by_maintainer contract : H160) : Run unit :=
  let! account := gets (fun s => accounts s !! contract) in
  let! account_info := ok_or account (inl ContractNotFound) in
  let! info := ok_or (contract_info account_info) (inl ContractNotFound) in
  do! ensure (maintainer info =? by_maintainer) (inl NoPermission) in
  do! ensure (negb (deployed info)) (inl ContractAlreadyDeployed) in
  let! storage := remove_contract contract by_maintainer in
  let! contract_account := gets (fun s => get_account_id contract (chain s)) in
  let amount := sat_mul 128 (storage_deposit_per_byte cfg) storage in
  do! on_chain (repatriate_reserved contract_account who amount Free) in
  ret tt.

(** ** Calls *)

Definition ensure_signed (origin : Origin) : Run AccountId :=
  ok_or (signed_by cfg origin) (inr (bad_origin cfg)).

Definition ensure_origin (b : bool) : Run unit := ensure b (inr (bad_origin cfg)).

(** [ensure_root_or_signed]: [Either<(), AccountId>]. *)
Definition ensure_root_or_signed (origin : Origin) : Run (option AccountId) :=
  if is_root cfg origin then ret None
  else let! who := ensure_signed origin in ret (Some who).

Definition transfer_maintainer (origin : Origin) (contract new_maintainer : H160) : Run unit :=
  transactional (
    let! who := ensure_signed origin in
    do! do_transfer_maintainer who contract new_maintainer in
    modify (deposit_event (TransferredMaintainer contract new_maintainer))).

Definition deploy (origin : Origin) (contract : H160) : Run unit :=
  transactional (
    let! who := ensure_signed origin in
    let! mapped := gets (fun s => get_evm_address who (chain s)) in
    let! address := ok_or mapped (inl AddressNotMapped) in
    do! on_chain (currency_transfer who (treasury_account cfg) (deployment_fee cfg)) in
    do! mark_deployed contract (Some address) in
    modify (deposit_event (ContractDeployed contract))).

Definition deploy_free (origin : Origin) (contract : H160) : Run unit :=
  transactional (
    do! ensure_origin (is_free_deployment_origin cfg origin) in
    do! mark_deployed contract None in
    modify (deposit_event (ContractDeployed contract))).

Definition enable_contract_development (origin : Origin) : Run unit :=
  transactional (
    let! who := ensure_signed origin in
    let! address := create_mapping who in
    do! on_chain (reserve who (developer_deposit_amount cfg)) in
    let! account := gets (fun s => accounts s !! address) in
    do! match account with
        | Some account_info =>
            do! ensure (match developer_deposit account_info with None => true | Some _ => false end)
                  (inl ContractDevelopmentAlreadyEnabled) in
            modify (put_account address (Some (with_deposit (Some (developer_deposit_amount cfg)) account_info)))
        | None =>
            modify (put_account address
              (Some (with_deposit (Some (developer_deposit_amount cfg)) (AccountInfo_new 0 None))))
        end in
    modify (deposit_event (ContractDevelopmentEnabled who))).

Definition disable_contract_development (origin : Origin) : Run unit :=
  transactional (
    let! who := ensure_signed origin in
    let! mapped := gets (fun s => get_evm_address who (chain s)) in
    let! address := ok_or mapped (inl AddressNotMapped) in
    let! account := gets (fun s => accounts s !! address) in
    let! account_info := ok_or account (inl ContractDevelopmentNotEnabled) in
    let! deposit := ok_or (developer_deposit account_info) (inl ContractDevelopmentNotEnabled) in
    do! modify (put_account address (Some (with_deposit None account_info))) in
    do! on_chain (unreserve who deposit) in
    modify (deposit_event (ContractDevelopmentDisabled who))).

Definition selfdestruct (origin : Origin) (contract : H160) : Run unit :=
  transactional (
    let! who := ensure_signed origin in
    let! mapped := gets (fun s => get_evm_address who (chain s)) in
    let! maintainer := ok_or mapped (inl AddressNotMapped) in
    do! do_selfdestruct who maintainer contract in
    modify (deposit_event (ContractSelfdestructed contract))).

(** ** [SetEvmOrigin]: the origin of the extrinsic, while it runs *)

Definition pre_dispatch (who : AccountId) : St -> St := set_extrinsic_origin (Some who).

Definition post_dispatch : St -> St := set_extrinsic_origin None.

Definition set_origin (who : AccountId) : St -> St := set_extrinsic_origin (Some who).

Definition get_origin (s : St) : option AccountId := extrinsic_origin s.

End Evm.
