(* ===== verification/EvmRunner.v ===== *)
(** * Running contracts

    [lib-serml/evm/evm/src/runner/handler.rs] and [runner/mod.rs]: the handler that the
    interpreter of the EVM calls, the transactions around a call or a creation, the
    deposits for storage, and the calls of the pallet that run code.

    The interpreter is a third-party crate. What it does is a tree of the calls it makes
    on the handler ([Runtime]): a program that has ended, or a call on the handler and how
    it goes on for every answer. A nested call or creation carries the tree of the code it
    runs. The trees are well founded because gas is finite; nothing else is assumed of
    them, so what is proved holds of every bytecode. *)

From Stdlib Require Import String.
From S2P Require Import Prelude Currency EvmMeter Evm.

(** ** The interpreter *)

Record EvmConfig : Type := MkEvmConfig {
  call_l64_after_gas : bool;
  call_stipend : Z;
  estimate : bool
}.

(** The fields of [SETHEUM_CONFIG] that the handler reads, and the one [execute] sets. *)
Definition SETHEUM_CONFIG : EvmConfig :=
  {| call_l64_after_gas := true; call_stipend := 2300; estimate := false |}.

Record Context : Type := MkContext {
  address : H160;
  caller : H160;
  apparent_value : Z
}.

Record Transfer : Type := MkTransfer {
  source : H160;
  target : H160;
  value : Z
}.

Inductive CreateScheme : Type :=
| Create2 (caller : H160) (code_hash salt : H256)
| Legacy (caller : H160)
| Fixed (naddress : H160).

(** The gasometer: a third-party crate. *)
Class Gasometers : Type := {
  Gasometer : Type;
  Opcode : Type;
  Stack : Type;
  DynamicCost : Type;
  gasometer_new : Z -> EvmConfig -> Gasometer;
  gas : Gasometer -> Z;
  total_used_gas : Gasometer -> Z;
  refunded_gas : Gasometer -> Z;
  gasometer_fail : Gasometer -> Gasometer;
  record_cost : Z -> M Gasometer ExitError unit;
  record_stipend : Z -> M Gasometer ExitError unit;
  record_refund : Z -> M Gasometer ExitError unit;
  record_deposit : Z -> M Gasometer ExitError unit;
  record_transaction : Z -> M Gasometer ExitError unit;
  record_dynamic_cost : DynamicCost -> M Gasometer ExitError unit;
  static_opcode_cost : Opcode -> option Z;
  call_transaction_cost : bytes -> Z
}.

(** What the interpreter reads of the chain. *)
Inductive Query : Type :=
| QBalance (a : H160)
| QCodeSize (a : H160)
| QCodeHash (a : H160)
| QStorage (index : H256)
| QOriginalStorage (index : H256)
| QGasLeft
| QGasPrice
| QOrigin
| QBlockHash (number : Z)
| QBlockNumber
| QBlockCoinbase
| QBlockTimestamp
| QBlockDifficulty
| QBlockGasLimit
| QChainId
| QExists (a : H160)
| QDeleted (a : H160).

Inductive Runtime `{Gasometers} : Type :=
| Exit (reason : ExitReason) (return_value : bytes)
| Ask (q : Query) (k : Z -> Runtime)
| AskCode (a : H160) (k : bytes -> Runtime)
| PreValidate (opcode : Opcode) (stack : Stack) (k : outcome ExitError unit -> Runtime)
| SetStorage (index value : H256) (k : outcome ExitError unit -> Runtime)
| EmitLog (topics : list H256) (data : bytes) (k : Runtime)
| MarkDelete (target : H160) (k : outcome ExitError unit -> Runtime)
| Create (scheme : CreateScheme) (value : Z) (init_code : bytes) (target_gas : option Z)
    (sub : Context -> Runtime) (k : ExitReason * option H160 * bytes -> Runtime)
| Call (code_address : H160) (transfer : option Transfer) (input : bytes) (target_gas : option Z)
    (is_static : bool) (context : Context)
    (sub : bytes -> Runtime) (k : ExitReason * bytes -> Runtime).

(** The interpreter on a code, an input and a context; the precompiled contracts, which
    are other pallets; and what it and the pallet read of the rest of the chain. *)
Class Interpreter (L AccountId : Type) `{Gasometers} : Type := {
  runtime_new : bytes -> bytes -> Context -> Runtime;
  dynamic_opcode_cost : H160 -> Opcode -> Stack -> bool -> EvmConfig -> State L AccountId -> outcome ExitError DynamicCost;
  precompiles_execute : H160 -> bytes -> option Z -> Context -> State L AccountId ->
    option (outcome ExitError (ExitSucceed * bytes * Z)) * State L AccountId;
  system_block_hash : Z -> L -> H256;
  system_block_number : L -> Z;
  timestamp_now : L -> Z;
  rlp_caller_nonce : H160 -> Z -> bytes
}.

(** [From<DispatchError> for &'static str]. *)
Class DispatchErrorInto (E : Type) : Type := { dispatch_str : E -> string }.

Record Vicinity : Type := MkVicinity {
  gas_price : Z;
  origin : H160
}.

(** Storage key size and storage value size. *)
Definition STORAGE_SIZE : Z := 64.

Definition SYSTEM_CONTRACT_ADDRESS_PREFIX : bytes := repeat 0 11.

Definition PREDEPLOY_ADDRESS_START : Z := 0x800.

Definition as_bytes (n : nat) (v : Z) : bytes := be_bytes n v.

(** [H256::into::<H160>]: the last twenty bytes. *)
Definition h256_into_h160 (h : H256) : H160 := h mod 2 ^ 160.

(** [saturated_into::<u128>] of a [U256]. *)
Definition saturated_into_u128 (v : Z) : Z := Z.min v (umax 128).

Definition l64 (gas : Z) : Z := gas - gas / 64.

(** A [Result] as a value. *)
Definition map_err {E F A : Type} (f : E -> F) (o : outcome E A) : outcome F A :=
  match o with Ok a => Ok a | Err e => Err (f e) | Panic => Panic end.

Section Handler.
Context {L X AccountId Origin : Type} `{!AddressMapping L AccountId} `{!NativeCurrency L X AccountId}.
Context `{G : Gasometers} `{!Interpreter L AccountId}.
Context `{!DispatchErrorStr (EvmError + X)} `{!DispatchErrorInto (EvmError + X)}.
Variable cfg : Config X AccountId Origin.
Variable config : EvmConfig.

Abbreviation St := (State L AccountId).
Abbreviation DErr := (EvmError + X)%type.
Abbreviation Run := (M (State L AccountId) (EvmError + X)).

(** ** The deposits: [StorageMeterHandlerImpl] *)

Definition deposit_for (storage : Z) : Z := sat_mul 128 (storage_deposit_per_byte cfg) storage.

Definition impl_reserve_storage (origin : H160) (limit : Z) : Run unit :=
  if limit =? 0 then ret tt
  else
    let! user := gets (fun s => get_account_id origin (chain s)) in
    on_chain (reserve user (deposit_for limit)).

Definition impl_unreserve_storage (origin : H160) (limit used refunded : Z) : Run unit :=
  let total := sat_add 32 limit refunded in
  let unused := sat_sub total used in
  if unused =? 0 then ret tt
  else
    let! user := gets (fun s => get_account_id origin (chain s)) in
    do! on_chain (unreserve user (deposit_for unused)) in
    ret tt.

Definition impl_charge_storage (origin contract : H160) (used refunded : Z) : Run unit :=
  if used =? refunded then ret tt
  else
    let! user := gets (fun s => get_account_id origin (chain s)) in
    let! contract_acc := gets (fun s => get_account_id contract (chain s)) in
    if refunded <? used then
      let amount := deposit_for (used - refunded) in
      do! on_chain (unreserve user amount) in
      do! on_chain (currency_transfer user contract_acc amount) in
      on_chain (reserve contract_acc amount)
    else
      let amount := deposit_for (refunded - used) in
      do! on_chain (repatriate_reserved contract_acc user amount Reserved) in
      ret tt.

Definition handler_impl (origin : H160) : StorageMeterHandler St DErr := {|
  reserve_storage := impl_reserve_storage origin;
  unreserve_storage := impl_unreserve_storage origin;
  charge_storage := impl_charge_storage origin
|}.

(** ** The handler

    Its own state is the storage meter and the gasometer; the gasometers of the callers
    are behind its own. *)

Abbreviation HState := (Metered (State L AccountId) (list Gasometer) (EvmError + X)).
Abbreviation HM := (M (Metered (State L AccountId) (list Gasometer) (EvmError + X)) (EvmError + X)).

Definition set_memory (g : list Gasometer) (s : HState) : HState :=
  MkMetered (meter s) (handlers s) g (world s).

(** An operation of the handler's gasometer, and of its caller's. *)
Definition on_gas {A : Type} (m : M Gasometer ExitError A) : HM (outcome ExitError A) := fun s =>
  match memory s with
  | g :: gs => let '(r, g') := m g in (Ok r, set_memory (g' :: gs) s)
  | [] => (Panic, s)
  end.

Definition on_caller_gas {A : Type} (m : M Gasometer ExitError A) : HM (outcome ExitError A) := fun s =>
  match memory s with
  | g0 :: g :: gs => let '(r, g') := m g in (Ok r, set_memory (g0 :: g' :: gs) s)
  | _ => (Panic, s)
  end.

Definition read_gas {A : Type} (f : Gasometer -> A) : HM A := fun s =>
  match memory s with g :: _ => (Ok (f g), s) | [] => (Panic, s) end.

(** An operation on the storage, its result as a value. *)
Definition on_world {A : Type} (m : Run A) : HM (outcome DErr A) := fun s =>
  let '(r, w) := m (world s) in (Ok r, set_world w s).

Definition on_meter {A : Type} (m : HM A) : HM (outcome DErr A) := fun s =>
  let '(r, s') := m s in (Ok r, s').

Definition inc_nonce (a : H160) : St -> St :=
  set_accounts (partial_alter (fun maybe_account =>
    match maybe_account with
    | Some i => Some (MkAccountInfo (wrap 32 (nonce i + 1)) (contract_info i) (developer_deposit i))
    | None => Some (MkAccountInfo (wrap 32 (0 + 1)) None None)
    end) a).

Definition create_address (scheme : CreateScheme) (s : St) : outcome ExitError H160 :=
  let a :=
    match scheme with
    | Create2 caller code_hash salt =>
        h256_into_h160 (keccak cfg ([0xff] ++ as_bytes 20 caller ++ as_bytes 32 salt ++ as_bytes 32 code_hash))
    | Legacy caller => h256_into_h160 (keccak cfg (rlp_caller_nonce caller (account_basic caller s).1))
    | Fixed naddress => naddress
    end in
  if starts_with SYSTEM_CONTRACT_ADDRESS_PREFIX (as_bytes 20 a)
  then Err (OtherError (dispatch_str (inl ConflictContractAddress : EvmError + X)))
  else Ok a.

Definition is_developer_or_contract (a : H160) (s : St) : bool :=
  match accounts s !! a with
  | Some i => match contract_info i with Some _ => true | None => false end
              || match developer_deposit i with Some _ => true | None => false end
  | None => false
  end.

Definition can_call_contract (a caller : H160) (s : St) : bool :=
  match contract_at a s with
  | Some c => deployed c || (maintainer c =? caller) || is_developer_or_contract caller s
  | None => true
  end.

Definition handle_mirrored_token (a : H160) : H160 :=
  let addr := as_bytes 20 a in
  if negb (starts_with SYSTEM_CONTRACT_ADDRESS_PREFIX addr) then a
  else if starts_with H160_PREFIX_TOKEN addr || starts_with H160_PREFIX_DEXSHARE addr
  then PREDEPLOY_ADDRESS_START
  else a.

(** [Handler::transfer] and [Runner::transfer]. *)
Definition handler_transfer (t : Transfer) : HM (outcome ExitError unit) := fun s =>
  let l := chain (world s) in
  let '(r, s') := on_world (on_chain (currency_transfer (get_account_id (source t) l)
                    (get_account_id (target t) l) (saturated_into_u128 (value t)))) s in
  (match r with Ok o => Ok (map_err (fun _ => OutOfGas) o) | Err e => Err e | Panic => Panic end, s').

Definition runner_transfer (from to : H160) (value : Z) : Run unit :=
  if value =? 0 then ret tt
  else
    let! source := gets (fun s => get_account_id from (chain s)) in
    let! target := gets (fun s => get_account_id to (chain s)) in
    on_chain (currency_transfer source target value).

(** ** What the interpreter asks *)

Definition code_hash_of (a : H160) (s : St) : H256 := code_hash_at_address cfg (handle_mirrored_token a) s.

Definition code_size_of (a : H160) (s : St) : Z :=
  Z.of_nat (length (default [] (codes s !! code_hash_of (handle_mirrored_token a) s))).

Definition code_of (a : H160) (s : St) : bytes := code_at_address cfg (handle_mirrored_token a) s.

Definition block_hash (number : Z) (s : St) : H256 :=
  if umax 32 <? number then 0 else system_block_hash number (chain s).

Definition answer (v : Vicinity) (self : H160) (q : Query) (gas_left : Z) (s : St) : Z :=
  match q with
  | QBalance a => (account_basic a s).2
  | QCodeSize a => code_size_of a s
  | QCodeHash a => code_hash_of a s
  | QStorage index => storage_at self index s
  | QOriginalStorage _ => 0
  | QGasLeft => gas_left
  | QGasPrice => gas_price v
  | QOrigin => origin v
  | QBlockHash number => block_hash number s
  | QBlockNumber => system_block_number (chain s)
  | QBlockCoinbase => 0
  | QBlockTimestamp => timestamp_now (chain s) / 1000
  | QBlockDifficulty => 0
  | QBlockGasLimit => 0
  | QChainId => chain_id cfg
  | QExists _ => 1
  | QDeleted _ => 1
  end.

(** ** What the interpreter does *)

Inductive StorageChange : Type := NoChange | Added | Removed.

Definition write_storage (a : H160) (index value : H256) (s : St) : StorageChange * St :=
  let is_prev_value_default := storage_at a index s =? 0 in
  if value =? 0
  then (if is_prev_value_default then NoChange else Removed, set_storages (delete (a, index)) s)
  else (if is_prev_value_default then Added else NoChange, set_storages <[(a, index) := value]> s).

Definition set_storage (is_static : bool) (a : H160) (index value : H256) : HM (outcome ExitError unit) :=
  if is_static then ret (Err OutOfGas)
  else
    let! s := get in
    let '(change, w) := write_storage a index value (world s) in
    do! modify (set_world w) in
    match change with
    | Added =>
        do! modify (fun s => set_world (update_contract_storage_size a STORAGE_SIZE (world s)) s) in
        let! r := on_meter (charge STORAGE_SIZE) in
        ret (map_err (fun _ => OutOfGas) r)
    | Removed =>
        do! modify (fun s => set_world (update_contract_storage_size a (- STORAGE_SIZE) (world s)) s) in
        let! r := on_meter (refund STORAGE_SIZE) in
        ret (map_err (fun _ => OutOfGas) r)
    | NoChange => ret (Ok tt)
    end.

Definition mark_delete (is_static : bool) (a target : H160) : HM (outcome ExitError unit) :=
  if is_static then ret (Err OutOfGas)
  else
    let! r := on_world (remove_contract a target) in
    match r with
    | Ok storage =>
        let! r := on_meter (refund storage) in
        ret (map_err (fun e => OtherError (dispatch_str e)) r)
    | Err e => ret (Err (OtherError (dispatch_str e)))
    | Panic => panic
    end.

Definition pre_validate (is_static : bool) (a : H160) (opcode : Opcode) (stack : Stack) : HM (outcome ExitError unit) :=
  match static_opcode_cost opcode with
  | Some cost => on_gas (record_cost cost)
  | None =>
      let! s := get in
      match dynamic_opcode_cost a opcode stack is_static config (world s) with
      | Ok cost => on_gas (record_dynamic_cost cost)
      | Err e => ret (Err e)
      | Panic => panic
      end
  end.

(** The part of [execute] after the interpreter has ended. *)
Definition end_execute (reason : ExitReason) (return_value : bytes) : HM (ExitReason * bytes) :=
  match reason with
  | Succeed _ | Revert => ret (reason, return_value)
  | Error _ => ret (reason, [])
  | Fatal _ =>
      do! on_gas (fun g => (Ok tt, gasometer_fail g)) in
      ret (reason, [])
  end.

Definition get_target_gas (gas : Z) (target_gas : option Z) : Z :=
  let after_gas := if call_l64_after_gas config then l64 gas else gas in
  Z.min (default after_gas target_gas) after_gas.

(** [try_or_rollback!]: go on, or abandon the sub-transaction with [on_error]. *)
Definition try_or_rollback {R : Type} (on_error : ExitError -> R) (m : HM (outcome ExitError unit))
    (k : HM (bool * R)) : HM (bool * R) :=
  let! r := m in
  match r with
  | Ok _ => k
  | Err e => ret (false, on_error e)
  | Panic => panic
  end.

(** A sub-transaction with a gasometer of its own; [unwrap_or_else] on its result. *)
Definition sub_transaction {R : Type} (v : Vicinity) (gas_limit : Z) (contract : H160)
    (on_error : ExitError -> R) (f : HM (bool * R)) : HM R := fun s =>
  let run :=
    @run_sub_transaction St (list Gasometer) DErr _ (handler_impl (origin v)) R contract
      (do! modify (fun s => set_memory (gasometer_new gas_limit config :: memory s) s) in
       let! r := f in
       do! modify (fun s => set_memory (tl (memory s)) s) in
       ret r) in
  match run s with
  | (Err x, s') => (Ok (on_error (OtherError (dispatch_str x))), s')
  | r => r
  end.

(** Give the callee's unused gas and its refunds back to the caller. *)
Definition return_gas {R : Type} (on_error : ExitError -> R) (k : HM (bool * R)) : HM (bool * R) :=
  let! gas_left := read_gas gas in
  try_or_rollback on_error (on_caller_gas (record_stipend gas_left)) (
  let! refunded := read_gas refunded_gas in
  try_or_rollback on_error (on_caller_gas (record_refund refunded)) k).

Definition lift_initialization (m : M St ExitError unit) : HM (outcome ExitError unit) := fun s =>
  let '(r, w) := m (world s) in (Ok r, set_world w s).

(** The closure of [Handler::create], the execution of the init code being [run]. *)
Definition create_closure (v : Vicinity) (caller a : H160) (value : Z)
    (run : HM (ExitReason * bytes)) : HM (bool * (ExitReason * option H160 * bytes)) :=
  let on_error (e : ExitError) := (Error e, None, []) : ExitReason * option H160 * bytes in
  try_or_rollback on_error (handler_transfer (MkTransfer caller a value)) (
  let! (reason, out) := run in
  match reason with
  | Succeed r =>
      let! deposit := on_gas (record_deposit (Z.of_nat (length out))) in
      match deposit with
      | Ok _ =>
          return_gas on_error (
          do! modify (fun s => set_world (inc_nonce a (world s)) s) in
          try_or_rollback on_error
            (let! r := on_meter (charge (sat_add 32 (wrap 32 (Z.of_nat (length out))) (new_contract_extra_bytes cfg))) in
             ret (map_err (fun _ => OutOfGas) r)) (
          try_or_rollback on_error (lift_initialization (on_contract_initialization cfg a (origin v) out)) (
          ret (true, (Succeed r, Some a, [])))))
      | Err e => ret (false, (Error e, None, []))
      | Panic => panic
      end
  | Revert => ret (false, (Revert, None, out))
  | Error e => ret (false, (Error e, None, []))
  | Fatal e =>
      do! on_caller_gas (fun g => (Ok tt, gasometer_fail g)) in
      ret (false, (Fatal e, None, []))
  end).

(** The closure of [Handler::call]. *)
Definition call_closure (code_address : H160) (transfer : option Transfer) (input : bytes) (target_gas : Z)
    (context : Context) (run : HM (ExitReason * bytes)) : HM (bool * (ExitReason * bytes)) :=
  let on_error (e : ExitError) := (Error e, []) : ExitReason * bytes in
  try_or_rollback on_error (match transfer with Some t => handler_transfer t | None => ret (Ok tt) end) (
  try_or_rollback on_error (on_caller_gas (record_cost target_gas)) (
  let! precompile := (fun s =>
    let '(r, w) := precompiles_execute code_address input (Some target_gas) context (world s) in
    (Ok r, set_world w s)) : HM _ in
  match precompile with
  | Some (Ok (s, out, cost)) =>
      try_or_rollback on_error (on_gas (record_cost cost)) (
      return_gas on_error (ret (true, (Succeed s, out))))
  | Some (Err e) => ret (false, (Error e, []))
  | Some Panic => panic
  | None =>
      let! (reason, out) := run in
      match reason with
      | Succeed s => return_gas on_error (ret (true, (Succeed s, out)))
      | Revert => ret (false, (Revert, out))
      | Error e => ret (false, (Error e, []))
      | Fatal e =>
          do! on_caller_gas (fun g => (Ok tt, gasometer_fail g)) in
          ret (false, (Fatal e, []))
      end
  end)).

(** [Handler::create] and [Handler::call], the nested execution being [sub]. *)
Definition handler_create (v : Vicinity) (is_static : bool) (caller : H160) (scheme : CreateScheme) (value : Z)
    (target_gas : option Z) (sub : Context -> HM (ExitReason * bytes)) : HM (ExitReason * option H160 * bytes) :=
  if is_static then ret (Error OutOfGas, None, [])
  else
    let! gas_left := read_gas gas in
    let target_gas := get_target_gas gas_left target_gas in
    let! cost := on_gas (record_cost target_gas) in
    match cost with
    | Ok _ =>
        let! s := get in
        match create_address scheme (world s) with
        | Ok a =>
            do! modify (fun s => set_world (inc_nonce caller (world s)) s) in
            sub_transaction v target_gas a (fun e => (Error e, None, []))
              (create_closure v caller a value (sub (MkContext a caller value)))
        | Err e => ret (Error e, None, [])
        | Panic => panic
        end
    | Err e => ret (Error e, None, [])
    | Panic => panic
    end.

Definition handler_call (v : Vicinity) (is_static : bool) (code_address : H160) (transfer : option Transfer)
    (input : bytes) (target_gas : option Z) (context : Context)
    (sub : bytes -> HM (ExitReason * bytes)) : HM (ExitReason * bytes) :=
  if is_static && match transfer with Some _ => true | None => false end
  then ret (Error OutOfGas, [])
  else
    let! gas_left := read_gas gas in
    let target_gas := get_target_gas gas_left target_gas in
    let target_gas :=
      match transfer with
      | Some t => if value t =? 0 then target_gas else sat_add 64 target_gas (call_stipend config)
      | None => target_gas
      end in
    let! s := get in
    let code := code_of code_address (world s) in
    sub_transaction v target_gas (address context) (fun e => (Error e, []))
      (call_closure code_address transfer input target_gas context (sub code)).

(** [execute]: the interpreter runs against the handler, in the context of [self]. *)
Fixpoint execute (v : Vicinity) (is_static : bool) (self : H160) (p : Runtime) {struct p} : HM (ExitReason * bytes) :=
  match p with
  | Exit reason return_value => end_execute reason return_value
  | Ask q k =>
      let! gas_left := read_gas gas in
      let! s := get in
      execute v is_static self (k (answer v self q gas_left (world s)))
  | AskCode a k =>
      let! s := get in
      execute v is_static self (k (code_of a (world s)))
  | PreValidate opcode stack k =>
      let! r := pre_validate is_static self opcode stack in
      execute v is_static self (k r)
  | SetStorage index value k =>
      let! r := set_storage is_static self index value in
      execute v is_static self (k r)
  | EmitLog topics data k =>
      do! modify (fun s => set_world (deposit_event (Log self topics data) (world s)) s) in
      execute v is_static self k
  | MarkDelete target k =>
      let! r := mark_delete is_static self target in
      execute v is_static self (k r)
  | Create scheme value init_code target_gas sub k =>
      let! r := handler_create v is_static self scheme value target_gas
                  (fun context => execute v is_static (address context) (sub context)) in
      execute v is_static self (k r)
  | Call code_address transfer input target_gas static context sub k =>
      let! r := handler_call v is_static code_address transfer input target_gas context
                  (fun code => execute v (is_static || static) (address context) (sub code)) in
      execute v is_static self (k r)
  end.

(** ** [Runner]: the transactions *)

(** The handler of a transaction, with the gasometer it starts with. *)
Definition handler_run_transaction {R : Type} (v : Vicinity) (gas_limit storage_limit : Z) (contract : H160)
    (f : HM (bool * R)) : Run R :=
  @run_transaction St (list Gasometer) DErr _ (handler_impl (origin v)) R contract storage_limit
    [gasometer_new gas_limit config] f.

Definition used_gas (g : Gasometer) : Z := total_used_gas g - Z.min (total_used_gas g / 2) (refunded_gas g).

Record CallInfo : Type := MkCallInfo {
  call_exit_reason : ExitReason;
  call_output : bytes;
  call_used_gas : Z;
  call_used_storage : Z
}.

Record CreateInfo : Type := MkCreateInfo {
  create_exit_reason : ExitReason;
  create_address_of : H160;
  create_output : bytes;
  create_used_gas : Z;
  create_used_storage : Z
}.

(** The early returns of the closures: the error as the value of an abandoned transaction. *)
Definition value_or_rollback {A R : Type} (m : HM (outcome DErr A))
    (k : HM (bool * outcome DErr R)) : HM (bool * outcome DErr R) :=
  let! r := m in
  match r with
  | Ok _ => k
  | Err e => ret (false, Err e)
  | Panic => panic
  end.

Definition record_transaction_cost (code : bytes) : HM (outcome DErr unit) :=
  let! r := on_gas (record_transaction (call_transaction_cost code)) in
  ret (map_err (fun _ => dispatch_other "OutOfGas") r).

Definition call_body (v : Vicinity) (sender target : H160) (input : bytes) (value : Z) : HM (bool * outcome DErr CallInfo) :=
  value_or_rollback (on_world (runner_transfer sender target value)) (
  let! s := get in
  let code := code_of target (world s) in
  value_or_rollback (record_transaction_cost code) (
  let! (reason, out) := execute v false target
         (runtime_new code input (MkContext target sender (saturated_into_u128 value))) in
  let! g := read_gas used_gas in
  let! s := get in
  let info := MkCallInfo reason out g (used_storage (meter s)) in
  ret (is_succeed reason, Ok info))).

(** [Runner::call]. *)
Definition runner_call (sender origin target : H160) (input : bytes) (value gas_limit storage_limit : Z) : Run CallInfo :=
  let v := MkVicinity 1 origin in
  let! s := get in
  do! ensure (can_call_contract target sender s) (inl NoPermission) in
  do! modify (inc_nonce sender) in
  let! r := handler_run_transaction v gas_limit storage_limit target (call_body v sender target input value) in
  match r with Ok info => ret info | Err e => fail e | Panic => panic end.

Definition create_body (v : Vicinity) (source a : H160) (init : bytes) (value : Z) : HM (bool * outcome DErr CreateInfo) :=
  value_or_rollback (on_world (runner_transfer source a value)) (
  value_or_rollback (record_transaction_cost init) (
  let! (reason, out) := execute v false a (runtime_new init [] (MkContext a source (saturated_into_u128 value))) in
  let! g := read_gas used_gas in
  let! s := get in
  let info (reason : ExitReason) (out : bytes) (g storage : Z) := MkCreateInfo reason a out g storage in
  let storage := used_storage (meter s) in
  if negb (is_succeed reason) then ret (false, Ok (info reason out g storage))
  else
    let! deposit := on_gas (record_deposit (Z.of_nat (length out))) in
    match deposit with
    | Err e => ret (false, Ok (info (Error e) [] g storage))
    | Panic => panic
    | Ok _ =>
        let! g := read_gas used_gas in
        do! modify (fun s => set_world (inc_nonce a (world s)) s) in
        let! charged := on_meter (charge (sat_add 32 (wrap 32 (Z.of_nat (length out))) (new_contract_extra_bytes cfg))) in
        match charged with
        | Err _ => ret (false, Ok (info (Error OutOfGas) [] g storage))
        | Panic => panic
        | Ok _ =>
            let! s := get in
            let storage := used_storage (meter s) in
            let! initialized := lift_initialization (on_contract_initialization cfg a (origin v) out) in
            match initialized with
            | Ok _ => ret (true, Ok (info reason [] g storage))
            | Err e => ret (false, Ok (info (Error e) [] g storage))
            | Panic => panic
            end
        end
    end)).

Definition assign_address (assigned_address : option H160) (source : H160) (init : bytes) (salt : option H256)
    (s : St) : outcome DErr H160 :=
  match assigned_address with
  | Some addr => Ok addr
  | None =>
      let scheme :=
        match salt with
        | Some salt => Create2 source (keccak cfg init) salt
        | None => Legacy source
        end in
      map_err (fun _ => inl ConflictContractAddress) (create_address scheme s)
  end.

(** [Runner::inner_create]. *)
Definition inner_create (source : H160) (init : bytes) (value gas_limit storage_limit : Z)
    (assigned_address : option H160) (salt : option H256) : Run CreateInfo :=
  let v := MkVicinity 1 source in
  let! s := get in
  match assign_address assigned_address source init salt s with
  | Ok a =>
      do! modify (inc_nonce source) in
      let! r := handler_run_transaction v gas_limit storage_limit a (create_body v source a init value) in
      match r with Ok info => ret info | Err e => fail e | Panic => panic end
  | Err e => fail e
  | Panic => panic
  end.

Definition runner_create (source : H160) (init : bytes) (value gas_limit storage_limit : Z) : Run CreateInfo :=
  inner_create source init value gas_limit storage_limit None None.

Definition runner_create2 (source : H160) (init : bytes) (salt : H256) (value gas_limit storage_limit : Z) : Run CreateInfo :=
  inner_create source init value gas_limit storage_limit None (Some salt).

Definition create_at_address (source : H160) (init : bytes) (value : Z) (assigned_address : H160)
    (gas_limit storage_limit : Z) : Run CreateInfo :=
  inner_create source init value gas_limit storage_limit (Some assigned_address) None.

(** ** The calls of the pallet that run code *)

Definition call_event (target : H160) (info : CallInfo) : EvmEvent AccountId :=
  if is_succeed (call_exit_reason info) then Executed target
  else ExecutedFailed target (call_exit_reason info) (call_output info).

Definition create_event (info : CreateInfo) : EvmEvent AccountId :=
  if is_succeed (create_exit_reason info) then Created (create_address_of info)
  else CreatedFailed (create_address_of info) (create_exit_reason info) (create_output info).

Definition call (o : Origin) (target : H160) (input : bytes) (value gas_limit storage_limit : Z) : Run unit :=
  let! who := ensure_signed cfg o in
  let! source := create_mapping who in
  let! info := runner_call source source target input value gas_limit storage_limit in
  modify (deposit_event (call_event target info)).

Definition create (o : Origin) (init : bytes) (value gas_limit storage_limit : Z) : Run unit :=
  let! who := ensure_signed cfg o in
  let! source := create_mapping who in
  let! info := runner_create source init value gas_limit storage_limit in
  modify (deposit_event (create_event info)).

Definition create2 (o : Origin) (init : bytes) (salt : H256) (value gas_limit storage_limit : Z) : Run unit :=
  let! who := ensure_signed cfg o in
  let! source := create_mapping who in
  let! info := runner_create2 source init salt value gas_limit storage_limit in
  modify (deposit_event (create_event info)).

Definition create_network_contract (o : Origin) (init : bytes) (value gas_limit storage_limit : Z) : Run unit :=
  do! ensure_origin cfg (is_network_contract_origin cfg o) in
  let! index := gets network_contract_index in
  let! info := create_at_address (network_contract_source cfg) init value index gas_limit storage_limit in
  do! modify (fun s => set_network_contract_index (sat_add 64 (network_contract_index s) 1) s) in
  modify (deposit_event (create_event info)).

(** [do_set_code]. The account is taken out by [Accounts::mutate] before the closure runs
    and written back after it, whatever the closure did to the storage meanwhile. *)
Definition do_set_code (root_or_signed : option AccountId) (contract : H160) (code : bytes) : Run unit :=
  let! taken := gets (fun s => accounts s !! contract) in
  let! account_info := ok_or taken (inl ContractNotFound) in
  let! contract_info := ok_or (contract_info account_info) (inl ContractNotFound) in
  let! source :=
    match root_or_signed with
    | Some signer =>
        let! mapped := gets (fun s => get_evm_address signer (chain s)) in
        let! current := ok_or mapped (inl AddressNotMapped) in
        do! ensure (maintainer contract_info =? current) (inl NoPermission) in
        do! ensure (negb (deployed contract_info)) (inl ContractAlreadyDeployed) in
        ret current
    | None => ret (network_contract_source cfg)
    end in
  do! (if keccak cfg code =? code_hash contract_info then ret tt
       else
         do! ensure (wrap 32 (Z.of_nat (length code)) <=? max_code_size cfg) (inl ContractExceedsMaxCodeSize) in
         do! create_at_address source code 0 contract 2100000 100000 in
         ret tt) in
  modify (put_account contract taken).

Definition set_code (o : Origin) (contract : H160) (code : bytes) : Run unit :=
  transactional (
    let! root_or_signed := ensure_root_or_signed cfg o in
    do! do_set_code root_or_signed contract code in
    modify (deposit_event (ContractSetCode contract))).

(** ** [EVMTrait::execute]: calls from other pallets *)

Inductive ExecutionMode : Type := ExecuteMode | ViewMode | EstimateGasMode.

End Handler.

(** The configuration of the interpreter is the runtime's, but for [estimate]. *)
Definition execution_config (mode : ExecutionMode) : EvmConfig :=
  match mode with
  | EstimateGasMode => {| call_l64_after_gas := call_l64_after_gas SETHEUM_CONFIG;
                          call_stipend := call_stipend SETHEUM_CONFIG; estimate := true |}
  | _ => SETHEUM_CONFIG
  end.

Record InvokeContext : Type := MkInvokeContext {
  invoke_contract : H160;
  invoke_sender : H160;
  invoke_origin : H160
}.

Section EVMTrait.
Context {L X AccountId Origin : Type} `{!AddressMapping L AccountId} `{!NativeCurrency L X AccountId}.
Context `{G : Gasometers} `{!Interpreter L AccountId}.
Context `{!DispatchErrorStr (EvmError + X)} `{!DispatchErrorInto (EvmError + X)}.
Variable cfg : Config X AccountId Origin.

Definition evm_execute (context : InvokeContext) (input : bytes) (value gas_limit storage_limit : Z)
    (mode : ExecutionMode) : M (State L AccountId) (EvmError + X) CallInfo := fun s =>
  match runner_call cfg (execution_config mode) (invoke_sender context) (invoke_origin context)
          (invoke_contract context) input value gas_limit storage_limit s with
  | (Ok info, s') =>
      match mode with
      | ExecuteMode =>
          if is_succeed (call_exit_reason info)
          then (Ok info, deposit_event (Executed (invoke_contract context)) s')
          else (Ok info, s)
      | _ => (Ok info, s)
      end
  | (Err e, _) => (Err e, s)
  | (Panic, _) => (Panic, s)
  end.

(** [T::GasToWeight] and [T::ChargeTransactionPayment]. *)
Context {Imbalance : Type} (gas_to_weight : Z -> Z).
Context (unreserve_and_charge_fee : AccountId -> Z -> M L X Imbalance).
Context (refund_fee : AccountId -> Z -> Imbalance -> M L X unit).

Definition charge_scheduled (from : AccountId) (gas_limit : Z) : M (State L AccountId) (EvmError + X) Imbalance :=
  let! paid := try_run (on_chain (unreserve_and_charge_fee from (gas_to_weight gas_limit))) in
  ok_or paid (inl ChargeFeeFailed).

Definition scheduled_call (o : Origin) (from target : H160) (input : bytes) (value gas_limit storage_limit : Z) :
    M (State L AccountId) (EvmError + X) unit :=
  transactional (
    do! ensure_origin cfg (is_root cfg o) in
    let! from_account := gets (fun s => get_account_id from (chain s)) in
    let! paid := (if ethereum_compatibility cfg then ret None
                  else let! imbalance := charge_scheduled from_account gas_limit in ret (Some imbalance)) in
    let! info := runner_call cfg SETHEUM_CONFIG from from target input value gas_limit storage_limit in
    do! modify (deposit_event (call_event target info)) in
    match paid with
    | Some imbalance =>
        let refund_gas := sat_sub gas_limit (call_used_gas info) in
        if refund_gas =? 0 then ret tt
        else do! try_run (on_chain (refund_fee from_account (gas_to_weight refund_gas) imbalance)) in ret tt
    | None => ret tt
    end).

(** ** Genesis *)

Record GenesisAccount : Type := MkGenesisAccount {
  genesis_nonce : Z;
  genesis_balance : Z;
  genesis_storage : list (H256 * H256);
  genesis_code : bytes
}.

(** [expect] on the result of a call. *)
Definition expect_ok {A : Type} (m : M (State L AccountId) (EvmError + X) A) : M (State L AccountId) (EvmError + X) A := fun s =>
  match m s with (Err _, s') => (Panic, s') | r => r end.

Context (deposit_creating : AccountId -> Z -> L -> L).

(** The init code runs on a meter that is never closed. *)
Definition genesis_execute (address : H160) (code : bytes) : M (State L AccountId) (EvmError + X) bytes := fun s =>
  let source := network_contract_source cfg in
  match execute cfg SETHEUM_CONFIG (MkVicinity 1 source) false address (runtime_new code [] (MkContext address source 0))
          (MkMetered (fresh_meter address 0) [] [gasometer_new 2100000 SETHEUM_CONFIG] s) with
  | (Ok (reason, out), s') => if is_succeed reason then (Ok out, world s') else (Panic, world s')
  | (_, s') => (Panic, world s')
  end.

(** One account of [GenesisConfig::build]. *)
Definition build_account (treasury : H160) (entry : H160 * GenesisAccount) : M (State L AccountId) (EvmError + X) unit :=
  let (address, account) := entry in
  let! account_id := gets (fun s => get_account_id address (chain s)) in
  do! modify (put_account address (Some (AccountInfo_new (genesis_nonce account) None))) in
  do! modify (fun s => set_chain (deposit_creating account_id (genesis_balance account) (chain s)) s) in
  if match genesis_code account with [] => true | _ => false end then ret tt
  else
    let source := network_contract_source cfg in
    let! out := genesis_execute address (genesis_code account) in
    do! (fun s =>
      match on_contract_initialization cfg address source out s with
      | (Ok _, s') => (Ok tt, s')
      | (_, s') => (Panic, s')
      end) in
    do! (if ethereum_compatibility cfg then ret tt else expect_ok (mark_deployed address None)) in
    do! modify (set_storages (fun m => fold_left (fun m kv => <[(address, kv.1) := kv.2]> m) (genesis_storage account) m)) in
    let storage := wrap 32 (Z.of_nat (length (genesis_storage account)) * STORAGE_SIZE) in
    do! expect_ok (impl_reserve_storage cfg treasury storage) in
    expect_ok (impl_charge_storage cfg treasury address storage 0).

(** [MIRRORED_NFT_ADDRESS_START] of the primitives. *)
Definition MIRRORED_NFT_ADDRESS_START : Z := 0x2000000.

(** [GenesisConfig::build]. *)
Definition build (accounts : list (H160 * GenesisAccount)) (treasury : AccountId) : M (State L AccountId) (EvmError + X) unit :=
  let! treasury := create_mapping treasury in
  do! for_each (build_account treasury) accounts in
  modify (set_network_contract_index MIRRORED_NFT_ADDRESS_START).

End EVMTrait.
