(* ===== verification/EvmExecution.v ===== *)
(** * What every execution keeps

    A program logic for the code that the EVM runs. [ExecutionInvariant] lists what a
    property of the storage and of the open meters has to withstand, operation by
    operation; [execute_keeps] shows by induction on the tree of calls that then no
    bytecode can break it, whatever it calls, creates or abandons, and [runner_call_keeps]
    and [inner_create_keeps] carry it over the transactions of the runner. Precompiled
    contracts may run the EVM again: [layered] describes what they do, one layer of
    execution above another, and [layered_keep] is the induction over the layers. The
    instances are in [EvmSafety] and [EvmDeposits]. *)

From S2P Require Import Prelude Currency EvmMeter Evm EvmRunner.

(** An open call: its contract, and the bytes charged and refunded by its own code. *)
Record frame : Type := MkFrame {
  frame_contract : H160;
  frame_used : Z;
  frame_refunded : Z
}.

(** Hoare triples over the runs that return. *)
Definition triple {S E A : Type} (P : S -> Prop) (m : M S E A) (Q : A -> S -> Prop) : Prop :=
  forall s a s', P s -> m s = (Ok a, s') -> Q a s'.

Section Triples.
Context {S E : Type}.
Implicit Types (P : S -> Prop).

Lemma triple_ret {A : Type} P (a : A) (Q : A -> S -> Prop) : (forall s, P s -> Q a s) -> triple P (@ret S E A a) Q.
Proof. intros HQ s b s' HP. rewrite ret_ok. intros [-> ->]. auto. Qed.

Lemma triple_bind {A B : Type} P (m : M S E A) (k : A -> M S E B) R Q :
  triple P m R -> (forall a, triple (R a) (k a) Q) -> triple P (bind m k) Q.
Proof. intros Hm Hk s b s' HP. rewrite bind_ok. intros (a & s1 & H1 & H2). eapply Hk; [|done]. by eapply Hm. Qed.

Lemma triple_weaken {A : Type} P P' (m : M S E A) (Q Q' : A -> S -> Prop) :
  triple P' m Q' -> (forall s, P s -> P' s) -> (forall a s, Q' a s -> Q a s) -> triple P m Q.
Proof. intros Hm HP HQ s a s' Hs Hrun. eapply HQ, Hm; [|done]. auto. Qed.

Lemma triple_modify P (f : S -> S) (Q : unit -> S -> Prop) :
  (forall s, P s -> Q tt (f s)) -> triple P (@modify S E f) Q.
Proof. intros HQ s [] s' HP. rewrite modify_ok. intros ->. auto. Qed.

Lemma triple_panic {A : Type} P (Q : A -> S -> Prop) : triple P (@panic S E A) Q.
Proof. intros s a s' _. by rewrite panic_ok. Qed.

(** Reading the state first. *)
Lemma triple_get {B : Type} P (k : S -> M S E B) Q :
  (forall s0, triple (fun s => s = s0 /\ P s) (k s0) Q) -> triple P (bind get k) Q.
Proof. intros Hk s b s' HP. unfold bind, get. intros Hrun. by eapply (Hk s); [|done]. Qed.

End Triples.

Section Bound.
Context {G : Gasometers}.

(** No path through the code costs more than [n], a write of a slot costing [ws], a
    creation [wc], and a call [wp] for a precompiled contract that it may run. *)
Fixpoint within (ws wc wp n : Z) (p : Runtime) : Prop :=
  match p with
  | Exit _ _ => 0 <= n
  | Ask _ k => forall a, within ws wc wp n (k a)
  | AskCode _ k => forall a, within ws wc wp n (k a)
  | PreValidate _ _ k => forall r, within ws wc wp n (k r)
  | SetStorage _ _ k => forall r, within ws wc wp (n - ws) (k r)
  | EmitLog _ _ k => within ws wc wp n k
  | MarkDelete _ k => forall r, within ws wc wp n (k r)
  | Create _ _ _ _ sub k =>
      exists m, (forall c, within ws wc wp m (sub c)) /\ forall r, within ws wc wp (n - wc - m) (k r)
  | Call _ _ _ _ _ _ sub k =>
      exists m, (forall c, within ws wc wp m (sub c)) /\ forall r, within ws wc wp (n - wp - m) (k r)
  end.

Lemma within_nonneg ws wc wp p n : 0 <= ws -> 0 <= wc -> 0 <= wp -> within ws wc wp n p -> 0 <= n.
Proof.
  intros Hws Hwc Hwp. revert n.
  induction p as [| q k IH | a k IH | op st k IH | i x k IH | ts d k IH | t k IH | sch x init tg sub IHs k IH
    | a t inp tg st c sub IHs k IH]; simpl; intros n Hn.
  - done.
  - apply (IH 0), Hn.
  - apply (IH []), Hn.
  - apply (IH Panic), Hn.
  - pose proof (IH Panic _ (Hn Panic)). lia.
  - by apply IH.
  - apply (IH Panic), Hn.
  - destruct Hn as (m & Hsub & Hk). pose proof (IH (Revert, None, []) _ (Hk _)).
    pose proof (IHs (MkContext 0 0 0) _ (Hsub _)). lia.
  - destruct Hn as (m & Hsub & Hk). pose proof (IH (Revert, []) _ (Hk _)). pose proof (IHs [] _ (Hsub _)). lia.
Qed.

Lemma within_le ws wc wp p n m : n <= m -> within ws wc wp n p -> within ws wc wp m p.
Proof.
  revert n m.
  induction p as [| q k IH | a k IH | op st k IH | i x k IH | ts d k IH | t k IH | sch x init tg sub IHs k IH
    | a t inp tg st c sub IHs k IH]; simpl; intros n m Hnm Hn; eauto; try lia.
  - intros r. eapply IH; [|apply Hn]. lia.
  - destruct Hn as (j & Hsub & Hk). exists j. split; [done|]. intros r. eapply IH; [|apply Hk]. lia.
  - destruct Hn as (j & Hsub & Hk). exists j. split; [done|]. intros r. eapply IH; [|apply Hk]. lia.
Qed.

End Bound.

(** ** The interface *)

Section Interface.
Context {L X AccountId Origin : Type} `{!AddressMapping L AccountId} `{!NativeCurrency L X AccountId}.
Context `{G : Gasometers} `{!Interpreter L AccountId}.
Context `{!DispatchErrorStr (EvmError + X)} `{!DispatchErrorInto (EvmError + X)}.
Variable cfg : Config X AccountId Origin.

Abbreviation St := (State L AccountId).
Abbreviation DErr := (EvmError + X)%type.
Abbreviation HState := (Metered (State L AccountId) (list Gasometer) (EvmError + X)).
Abbreviation HM := (M (Metered (State L AccountId) (list Gasometer) (EvmError + X)) (EvmError + X)).

(** The steps of the code run for an origin [o], static throughout when [static] is. The
    index is what the code may still spend on writes. *)
Class ExecutionInvariant (static : bool) (o : H160) (ws wc wp : Z) (I : Z -> list frame -> St -> Prop) : Prop := {
  inv_weights : 0 <= ws /\ 0 <= wc /\ 0 <= wp;
  inv_spend N n fs w : 0 <= n -> I (N + n) fs w -> I N fs w;
  inv_open N c fs w : I N fs w -> I N (MkFrame c 0 0 :: fs) w;
  inv_event N fs e w : I N fs w -> I N fs (deposit_event e w);
  inv_nonce N fs a w : static <> true -> I N fs w -> I N fs (inc_nonce a w);
  inv_transfer N fs from to amount w w' :
    static <> true -> on_chain (currency_transfer from to amount) w = (Ok tt, w') -> I N fs w -> I N fs w';
  inv_precompile N fs a input gas c w r w' :
    precompiles_execute a input gas c w = (r, w') -> I (N + wp) fs w -> I N fs w';
  inv_write N c u r fs i v w change w' :
    static <> true -> write_storage c i v w = (change, w') -> I (N + ws) (MkFrame c u r :: fs) w ->
    match change with
    | NoChange => I N (MkFrame c u r :: fs) w'
    | Added => I N (MkFrame c (sat_add 32 u STORAGE_SIZE) r :: fs) (update_contract_storage_size c STORAGE_SIZE w')
    | Removed => I N (MkFrame c u (sat_add 32 r STORAGE_SIZE) :: fs) (update_contract_storage_size c (- STORAGE_SIZE) w')
    end;
  inv_delete N c u r fs target w size w' :
    static <> true -> remove_contract c target w = (Ok size, w') -> I N (MkFrame c u r :: fs) w ->
    I N (MkFrame c u (sat_add 32 r size) :: fs) w';
  inv_create N c u r fs out w w' :
    static <> true -> on_contract_initialization cfg c o out w = (Ok tt, w') -> I (N + wc) (MkFrame c u r :: fs) w ->
    I N (MkFrame c (sat_add 32 u (sat_add 32 (wrap 32 (Z.of_nat (length out))) (new_contract_extra_bytes cfg))) r :: fs) w';
  inv_charge N N0 c u r fs w0 w w' :
    I N0 fs w0 -> impl_charge_storage cfg o c u r w = (Ok tt, w') -> I N (MkFrame c u r :: fs) w -> I N fs w'
}.

(** The steps of a transaction around the code. *)
Class TransactionInvariant (o : H160) (I : Z -> list frame -> St -> Prop) : Prop := {
  inv_reserve N limit w w' : impl_reserve_storage cfg o limit w = (Ok tt, w') -> I N [] w -> I N [] w';
  inv_unreserve N limit u r w w' : impl_unreserve_storage cfg o limit u r w = (Ok tt, w') -> I N [] w -> I N [] w'
}.

(** ** The state of the handler *)

Definition own (m : StorageMeter DErr) : frame := MkFrame (contract m) (self_used m) (self_refunded m).

Definition frames (s : HState) : list frame := own <$> (meter s :: handlers s).

(** What a call leaves as it was in the meters of its callers. *)
Definition shape (m : StorageMeter DErr) : frame * option DErr := (own m, result m).

Definition callers (s : HState) : list (frame * option DErr) := shape <$> handlers s.

(** ** No error escapes

    The handler returns its errors as values; what is left are results and panics. *)
Definition quiet {A : Type} (m : HM A) : Prop := forall s e s', m s <> (Err e, s').

Lemma quiet_ret {A : Type} (a : A) : quiet (ret a).
Proof. done. Qed.

Lemma quiet_panic {A : Type} : quiet (@panic _ _ A).
Proof. done. Qed.

Lemma quiet_get : quiet get.
Proof. done. Qed.

Lemma quiet_modify f : quiet (modify f).
Proof. done. Qed.

Lemma quiet_bind {A B : Type} (m : HM A) (k : A -> HM B) : quiet m -> (forall a, quiet (k a)) -> quiet (bind m k).
Proof.
  intros Hm Hk s e s'. unfold bind. destruct (m s) as [[a|e0|] s1] eqn:H; [by apply Hk| |done].
  by destruct (Hm _ _ _ H).
Qed.

Lemma quiet_on_gas {A : Type} (m : M Gasometer ExitError A) : quiet (on_gas m).
Proof. intros s e s'. unfold on_gas. destruct (memory s); [done|]. by destruct (m g). Qed.

Lemma quiet_on_caller_gas {A : Type} (m : M Gasometer ExitError A) : quiet (on_caller_gas m).
Proof. intros s e s'. unfold on_caller_gas. destruct (memory s) as [|? []]; [done..|]. by destruct (m g0). Qed.

Lemma quiet_read_gas {A : Type} (f : Gasometer -> A) : quiet (read_gas f).
Proof. intros s e s'. unfold read_gas. by destruct (memory s). Qed.

Lemma quiet_on_world {A : Type} (m : M St DErr A) : quiet (on_world m).
Proof. intros s e s'. unfold on_world. by destruct (m (world s)). Qed.

Lemma quiet_on_meter {A : Type} (m : HM A) : quiet (on_meter m).
Proof. intros s e s'. unfold on_meter. by destruct (m s). Qed.

Lemma quiet_handler_transfer t : quiet (handler_transfer t).
Proof. intros s e s'. unfold handler_transfer, on_world. by destruct (on_chain _ _) as [[]]. Qed.

Lemma quiet_lift_initialization m : quiet (lift_initialization m).
Proof. intros s e s'. unfold lift_initialization. by destruct (m (world s)). Qed.

Lemma quiet_try_or_rollback {R : Type} (f : ExitError -> R) m k : quiet m -> quiet k -> quiet (try_or_rollback f m k).
Proof. intros Hm Hk. apply quiet_bind; [done|]. by intros []. Qed.

Lemma quiet_value_or_rollback {A R : Type} (m : HM (outcome DErr A)) (k : HM (bool * outcome DErr R)) :
  quiet m -> quiet k -> quiet (value_or_rollback m k).
Proof. intros Hm Hk. apply quiet_bind; [done|]. by intros []. Qed.

Lemma quiet_sub_transaction config v {R : Type} gas_limit c (f : ExitError -> R) body :
  quiet (sub_transaction cfg config v gas_limit c f body).
Proof. intros s e s'. unfold sub_transaction. by destruct (run_sub_transaction _ _ _) as [[]]. Qed.

Lemma quiet_return_gas {R : Type} (f : ExitError -> R) k : quiet k -> quiet (return_gas f k).
Proof.
  intros Hk. apply quiet_bind; [apply quiet_read_gas|]. intros g.
  apply quiet_try_or_rollback; [apply quiet_on_caller_gas|]. apply quiet_bind; [apply quiet_read_gas|]. intros g'.
  by apply quiet_try_or_rollback; [apply quiet_on_caller_gas|].
Qed.

Hint Resolve quiet_ret quiet_panic quiet_get quiet_modify quiet_on_gas quiet_on_caller_gas quiet_read_gas quiet_on_world
  quiet_on_meter quiet_handler_transfer quiet_lift_initialization quiet_sub_transaction : quiet.

Ltac quiet_step :=
  match goal with
  | |- quiet (bind _ _) => apply quiet_bind; [|intros ?]
  | |- quiet (return_gas _ _) => apply quiet_return_gas
  | |- quiet (try_or_rollback _ _ _) => apply quiet_try_or_rollback
  | |- quiet (value_or_rollback _ _) => apply quiet_value_or_rollback
  | |- quiet (let _ := _ in _) => cbv zeta
  | |- quiet (match ?x with _ => _ end) => destruct x
  | |- quiet _ => solve [eauto with quiet]
  end.

Ltac quiet_tac := repeat quiet_step.

Lemma quiet_execute config v p : forall b self, quiet (execute cfg config v b self p).
Proof.
  induction p; intros b self; simpl;
    unfold end_execute, pre_validate, set_storage, mark_delete, handler_create, handler_call; quiet_tac.
Qed.

Lemma quiet_create_closure v caller a value run : quiet run -> quiet (create_closure cfg v caller a value run).
Proof. intros Hrun. unfold create_closure. quiet_tac. Qed.

Lemma quiet_call_closure ca t input tg c run : quiet run -> quiet (call_closure ca t input tg c run).
Proof.
  intros Hrun. unfold call_closure. repeat quiet_step; try done.
  all: intros s e s'; by destruct (precompiles_execute _ _ _ _ _).
Qed.

Section Execution.
Variable v : Vicinity.
Context {static : bool} {ws wc wp : Z} {I : Z -> list frame -> St -> Prop}.
Context `{HI : !ExecutionInvariant static (origin v) ws wc wp I}.
Variable config : EvmConfig.

Record good (c : H160) (K : list (frame * option DErr)) (N : Z) (s : HState) : Prop := {
  good_contract : contract (meter s) = c;
  good_live : result (meter s) = None;
  good_callers : callers s = K;
  good_inv : I N (frames s) (world s)
}.

Lemma frames_callers s : frames s = own (meter s) :: (callers s).*1.
Proof.
  unfold frames, callers. csimpl. f_equal. rewrite <- list_fmap_compose. by apply list_fmap_ext.
Qed.

(** The code goes on; the code goes on unless an error is reported; the code commits. *)
Definition runs (c : H160) K (N N' : Z) {A} (m : HM A) : Prop := triple (good c K N) m (fun _ => good c K N').

Definition attempt (c : H160) K (N N' : Z) {F A} (m : HM (outcome F A)) : Prop :=
  triple (good c K N) m (fun r s => callers s = K /\ (forall a, r = Ok a -> good c K N' s)).

Definition closure (c : H160) K (N N' : Z) {R} (m : HM (bool * R)) : Prop :=
  triple (good c K N) m (fun r s => callers s = K /\ (r.1 = true -> good c K N' s)).

Lemma good_spend c K N N' s : N' <= N -> good c K N s -> good c K N' s.
Proof. intros HN []. split; try done. apply inv_spend with (N - N'); [lia|]. by replace (N' + (N - N')) with N by lia. Qed.

Lemma runs_ret c K N N' {A} (a : A) : N' <= N -> runs c K N N' (ret a).
Proof. intros HN. apply triple_ret. intros s. by apply good_spend. Qed.

Lemma runs_bind c K N N1 N' {A B} (m : HM A) (k : A -> HM B) :
  runs c K N N1 m -> (forall a, runs c K N1 N' (k a)) -> runs c K N N' (bind m k).
Proof. apply triple_bind. Qed.

Lemma runs_attempt c K N N' {F A} (m : HM (outcome F A)) : runs c K N N' m -> attempt c K N N' m.
Proof. intros Hm s r s' Hs Hrun. pose proof (Hm _ _ _ Hs Hrun) as Hs'. split; [apply Hs'|done]. Qed.

Lemma attempt_map c K N N' {F F' A} (f : F -> F') (m : HM (outcome F A)) :
  attempt c K N N' m -> attempt c K N N' (let! r := m in ret (map_err f r)).
Proof.
  intros Hm s r s' Hs. rewrite bind_ok. intros (r0 & s1 & H1 & H2). run_inv H2.
  destruct (Hm _ _ _ Hs H1) as [? Hr]. split; [done|]. intros a Ha. destruct r0; simplify_eq/=. by eapply Hr.
Qed.

Lemma closure_abandon c K N N' {R} (r : R) : closure c K N N' (ret (false, r)).
Proof. apply triple_ret. intros s Hs. split; [apply Hs|done]. Qed.

Lemma closure_commit c K N N' {R} (r : R) : N' <= N -> closure c K N N' (ret (true, r)).
Proof. intros HN. apply triple_ret. intros s Hs. split; [apply Hs|]. intros _. by eapply good_spend. Qed.

Lemma closure_panic c K N N' {R} : closure c K N N' (@panic _ _ (bool * R)).
Proof. apply triple_panic. Qed.

Lemma closure_bind c K N N1 N' {A R} (m : HM A) (k : A -> HM (bool * R)) :
  runs c K N N1 m -> (forall a, closure c K N1 N' (k a)) -> closure c K N N' (bind m k).
Proof. apply triple_bind. Qed.

Lemma try_or_rollback_closure c K N N1 N' {R} (f : ExitError -> R) m k :
  attempt c K N N1 m -> closure c K N1 N' k -> closure c K N N' (try_or_rollback f m k).
Proof.
  intros Hm Hk s r s' Hs. unfold try_or_rollback. rewrite bind_ok. intros (r0 & s1 & H1 & H2).
  destruct (Hm _ _ _ Hs H1) as [Hc Hr]. destruct r0 as [u|e|]; run_inv H2.
  - eapply Hk; [|done]. by eapply Hr.
  - by split.
Qed.

Lemma value_or_rollback_closure c K N N1 N' {A R} (m : HM (outcome DErr A)) (k : HM (bool * outcome DErr R)) :
  attempt c K N N1 m -> closure c K N1 N' k -> closure c K N N' (value_or_rollback m k).
Proof.
  intros Hm Hk s r s' Hs. unfold value_or_rollback. rewrite bind_ok. intros (r0 & s1 & H1 & H2).
  destruct (Hm _ _ _ Hs H1) as [Hc Hr]. destruct r0 as [u|e|]; run_inv H2.
  - eapply Hk; [|done]. by eapply Hr.
  - by split.
Qed.

(** ** The steps *)

(** The gasometers are no part of it. *)
Lemma good_memory c K N g s : good c K N s -> good c K N (set_memory g s).
Proof. intros []. by split. Qed.

Lemma on_gas_runs c K N {A} (m : M Gasometer ExitError A) : runs c K N N (on_gas m).
Proof.
  intros s a s' Hs. unfold on_gas. destruct (memory s); [done|]. destruct (m g) as [r g'].
  intros [= <- <-]. by apply good_memory.
Qed.

Lemma on_caller_gas_runs c K N {A} (m : M Gasometer ExitError A) : runs c K N N (on_caller_gas m).
Proof.
  intros s a s' Hs. unfold on_caller_gas. destruct (memory s) as [|? [|g gs]]; [done..|].
  destruct (m g) as [r g']. intros [= <- <-]. by apply good_memory.
Qed.

Lemma read_gas_runs c K N {A} (f : Gasometer -> A) : runs c K N N (@read_gas L X AccountId _ A f).
Proof. intros s a s' Hs. unfold read_gas. destruct (memory s); [done|]. by intros [= _ <-]. Qed.

Lemma get_runs c K N : runs c K N N get.
Proof. intros s a s' Hs. rewrite get_ok. by intros [_ ->]. Qed.

(** Only the storage changes. *)
Lemma good_world c K N N' w s :
  good c K N s -> (I N (frames s) (world s) -> I N' (frames s) w) -> good c K N' (set_world w s).
Proof. intros [] Hw. split; try done. by apply Hw. Qed.

(** The storage and the amounts of the running call change. *)
Lemma good_meter c K N m w s :
  callers s = K -> contract m = c -> result m = None -> I N (own m :: K.*1) w ->
  good c K N (MkMetered m (handlers s) (memory s) w).
Proof. intros <- Hc Hr HN. split; try done. by rewrite frames_callers. Qed.

Lemma good_own c K N s : good c K N s -> I N (MkFrame c (self_used (meter s)) (self_refunded (meter s)) :: K.*1) (world s).
Proof. intros [<- _ <- HN]. by rewrite frames_callers in HN. Qed.

Lemma set_storage_runs c K N is_static i w :
  (static = true -> is_static = true) -> 0 <= ws -> runs c K N (N - ws) (set_storage is_static c i w).
Proof.
  intros Hst Hws s a s' Hs. unfold set_storage. destruct is_static.
  { rewrite ret_ok. intros [_ ->]. by apply good_spend with N; [lia|]. }
  assert (static <> true) as Hf by (intros E; by discriminate (Hst E)).
  rewrite bind_ok. intros (s0 & s1 & H0 & H1). run_inv H0.
  destruct (write_storage c i w (world s)) as [change w1] eqn:Hw.
  assert (HN := inv_write (N - ws) c (self_used (meter s)) (self_refunded (meter s)) K.*1 i w (world s) change w1 Hf Hw).
  replace (N - ws + ws) with N in HN by lia. specialize (HN (good_own _ _ _ _ Hs)).
  destruct Hs as [Hc Hr HK _]. rewrite bind_ok in H1. destruct H1 as (u1 & s2 & H1 & H2). run_inv H1.
  destruct change.
  - run_inv H2. by apply good_meter.
  - run_inv H2. unfold on_meter, charge, handle in R. simpl in R. rewrite Hr in R.
    injection R as <- <-. by apply good_meter.
  - run_inv H2. unfold on_meter, refund, handle in R. simpl in R. rewrite Hr in R.
    injection R as <- <-. by apply good_meter.
Qed.

Lemma remove_contract_abort c t (w : St) r w' : remove_contract c t w = (r, w') -> (forall z, r <> Ok z) -> w' = w.
Proof. intros H Hr. unfold remove_contract in H. by apply transactional_rollback in H. Qed.

Lemma mark_delete_runs c K N is_static t :
  (static = true -> is_static = true) -> runs c K N N (mark_delete is_static c t).
Proof.
  intros Hst s a s' Hs. unfold mark_delete. destruct is_static.
  { rewrite ret_ok. by intros [_ ->]. }
  assert (static <> true) as Hf by (intros E; by discriminate (Hst E)).
  rewrite bind_ok. intros (r & s1 & H1 & H2). unfold on_world in H1.
  destruct (remove_contract c t (world s)) as [r0 w] eqn:Hw. injection H1 as <- <-.
  destruct r0 as [size|e|]; [|run_inv H2; rewrite (remove_contract_abort _ _ _ _ _ Hw) by done; by apply good_world with N|by run_inv H2].
  assert (HN := inv_delete N c (self_used (meter s)) (self_refunded (meter s)) K.*1 t (world s) size w Hf Hw (good_own _ _ _ _ Hs)).
  destruct Hs as [Hc Hr HK _]. run_inv H2. unfold on_meter, refund, handle in R. simpl in R. rewrite Hr in R.
  injection R as <- <-. by apply good_meter.
Qed.

Lemma pre_validate_runs c K N is_static a op st : runs c K N N (pre_validate config is_static a op st).
Proof.
  unfold pre_validate. destruct (static_opcode_cost op); [apply on_gas_runs|].
  eapply runs_bind; [apply get_runs|]. intros s0.
  destruct (dynamic_opcode_cost _ _ _ _ _ _); [apply on_gas_runs|by apply runs_ret|apply triple_panic].
Qed.

Lemma end_execute_runs c K N reason out : runs c K N N (end_execute reason out).
Proof.
  unfold end_execute. destruct reason; try (by apply runs_ret).
  eapply runs_bind; [apply on_gas_runs|]. intros _. by apply runs_ret.
Qed.

Lemma transfer_attempt c K N t : static <> true -> attempt c K N N (handler_transfer t).
Proof.
  intros Hf s r s' Hs. unfold handler_transfer, on_world.
  destruct (on_chain _ (world s)) as [r0 w] eqn:Hw. intros [= <- <-]. split; [apply Hs|].
  intros a Ha. destruct r0 as [[]|e|]; simplify_eq/=.
  apply good_world with N; [done|]. by eapply inv_transfer.
Qed.

Lemma return_gas_closure c K N N' {R} (f : ExitError -> R) k : closure c K N N' k -> closure c K N N' (return_gas f k).
Proof.
  intros Hk. unfold return_gas. eapply closure_bind; [apply read_gas_runs|]. intros g.
  eapply try_or_rollback_closure; [apply runs_attempt, on_caller_gas_runs|].
  eapply closure_bind; [apply read_gas_runs|]. intros g'.
  by eapply try_or_rollback_closure; [apply runs_attempt, on_caller_gas_runs|].
Qed.

Lemma nonce_runs c K N a : static <> true -> runs c K N N (modify (fun s => set_world (inc_nonce a (world s)) s)).
Proof. intros Hf. apply triple_modify. intros s Hs. apply good_world with N; [done|]. by apply inv_nonce. Qed.

(** Charging for the code of a new contract and installing it. *)
Definition initialize_step (c : H160) (out : bytes) {R} (f : ExitError -> R) (k : HM (bool * R)) : HM (bool * R) :=
  try_or_rollback f
    (let! r := on_meter (charge (sat_add 32 (wrap 32 (Z.of_nat (length out))) (new_contract_extra_bytes cfg))) in
     ret (map_err (fun _ => OutOfGas) r))
    (try_or_rollback f (lift_initialization (on_contract_initialization cfg c (origin v) out)) k).

Lemma charge_then_initialize c K N out s r1 s1 r2 s2 :
  static <> true -> good c K N s ->
  on_meter (charge (sat_add 32 (wrap 32 (Z.of_nat (length out))) (new_contract_extra_bytes cfg))) s = (Ok r1, s1) ->
  r1 = Ok tt /\
  (lift_initialization (on_contract_initialization cfg c (origin v) out) s1 = (Ok r2, s2) ->
   callers s2 = K /\ (r2 = Ok tt -> good c K (N - wc) s2)).
Proof.
  intros Hf Hs H1. unfold on_meter, charge, handle in H1. rewrite (good_live _ _ _ _ Hs) in H1.
  injection H1 as <- <-. split; [done|]. unfold lift_initialization. simpl.
  destruct (on_contract_initialization _ _ _ _ _) as [r w] eqn:Hw. intros [= <- <-].
  split; [apply Hs|]. intros ->.
  assert (HN := inv_create (N - wc) c (self_used (meter s)) (self_refunded (meter s)) K.*1 out (world s) w Hf Hw). replace (N - wc + wc) with N in HN by lia.
  specialize (HN (good_own _ _ _ _ Hs)). destruct Hs. simplify_eq. by apply good_meter.
Qed.

Lemma initialize_closure c K N N' out {R} (f : ExitError -> R) k :
  static <> true -> closure c K (N - wc) N' k -> closure c K N N' (initialize_step c out f k).
Proof.
  intros Hf Hk s r s' Hs. unfold initialize_step, try_or_rollback. rewrite !bind_ok.
  intros (r1 & s1 & H1 & H2). rewrite bind_ok in H1. destruct H1 as (r0 & s0 & H0 & H1). run_inv H1.
  destruct r0 as [[]|e|]; simpl in H2.
  - rewrite bind_ok in H2. destruct H2 as (r2 & s2 & H2 & H3).
    destruct (charge_then_initialize _ _ _ _ _ _ _ r2 s2 Hf Hs H0) as [_ Hi].
    destruct (Hi H2) as [HK Hg]. destruct r2 as [[]|e|]; run_inv H3.
    + eapply Hk; [|done]. by apply Hg.
    + by split.
  - by destruct (charge_then_initialize _ _ _ _ _ _ _ Panic s0 Hf Hs H0).
  - done.
Qed.

(** ** Nested calls *)

(** Passing the amounts on leaves what the callers own as it was. *)
Lemma handler_charge_keeps hs c u r (w : St) x hs' w' :
  @handler_charge_storage St DErr (handler_impl cfg (origin v)) hs c u r w = (x, (hs', w')) ->
  shape <$> hs' = shape <$> hs /\ (x = Ok tt -> impl_charge_storage cfg (origin v) c u r w = (Ok tt, w')).
Proof.
  revert x hs' w'. induction hs as [|m hs IH]; intros x hs' w'; simpl.
  - destruct (impl_charge_storage _ _ _ _ _ _) as [[[]|e|] w1]; intros [= <- <- <-]; done.
  - destruct (result m) eqn:Hm; [by intros [= <- <- <-]|].
    destruct (handler_charge_storage hs c u r w) as [x1 [hs1 w1]] eqn:Hrec. intros [= <- <- <-].
    destruct (IH _ _ _ eq_refl) as [Hs Hx]. split; [|done]. csimpl. by rewrite Hs.
Qed.

Definition entered (s : HState) : list (frame * option DErr) := shape (meter s) :: callers s.

Lemma frames_entered s : frames s = (entered s).*1.
Proof. apply frames_callers. Qed.

Lemma pop_entered (s s1 : HState) : callers s1 = entered s -> entered (pop s1) = entered s.
Proof. unfold pop, callers at 1. intros H. destruct (handlers s1) eqn:Hs; [done|]. exact H. Qed.

(** A call that is abandoned leaves its caller where it was. *)
Lemma good_abandoned c K N s s1 :
  good c K N s -> callers s1 = entered s -> good c K N (set_world (world s) (pop s1)).
Proof.
  intros [Hc Hr HK HN] H1. pose proof (pop_entered _ _ H1) as He. rewrite frames_callers in HN.
  injection He as Hm1 Hm2 Hm3 Hm4 Hcs.
  split; [by simpl; congruence..|by trans (callers s)|]. rewrite frames_callers. simpl.
  change (callers (set_world (world s) (pop s1))) with (callers (pop s1)). rewrite Hcs.
  unfold own in *. by rewrite Hm1, Hm2, Hm3.
Qed.

(** The meter of an ended call has moved its deposit. *)
Lemma finish_ended N N0 w0 s s' :
  I N0 (callers s).*1 w0 -> result (meter s) = None ->
  @finish St (list Gasometer) DErr _ (handler_impl cfg (origin v)) s = (Ok tt, s') -> I N (frames s) (world s) ->
  exists w, callers s' = callers s /\ I N (callers s).*1 w
    /\ @handler_unreserve_storage St DErr (handler_impl cfg (origin v)) (handlers s') (new_limit (meter s)) (self_used (meter s))
         (self_refunded (meter s)) w = (Ok tt, world s').
Proof.
  intros H0 Hr. unfold finish, handle, settle. rewrite Hr.
  destruct (limit (meter s) <? _); [done|].
  destruct (handler_charge_storage _ _ _ _ _) as [x [hs w]] eqn:Hch.
  destruct (handler_charge_keeps _ _ _ _ _ _ _ _ Hch) as [Hs Hx].
  destruct x as [[]|e|]; try done. rewrite frames_callers. intros Hfin HN.
  destruct (handler_unreserve_storage _ _ _ _ _) as [[[]|e|] w'] eqn:Hun; simplify_eq/=.
  exists w. split_and!; try done. eapply inv_charge; [exact H0|by apply Hx|exact HN].
Qed.

Lemma finish_err_callers s e s' :
  @finish St (list Gasometer) DErr _ (handler_impl cfg (origin v)) s = (Err e, s') -> callers s' = callers s.
Proof.
  unfold finish, handle, settle. destruct (result (meter s)); [by intros [= _ <-]|].
  destruct (limit (meter s) <? _); [by intros [= _ <-]|].
  destruct (handler_charge_storage _ _ _ _ _) as [x [hs w]] eqn:Hch.
  destruct (handler_charge_keeps _ _ _ _ _ _ _ _ Hch) as [Hs Hx].
  destruct x as [[]|e'|]; [|by intros [= _ <-]|done].
  by destruct (handler_unreserve_storage _ _ _ _ _) as [[[]|e'|] w'] eqn:Hun; intros [= _ <-].
Qed.

Lemma closure_memory c K N N' {R} (g : HState -> list Gasometer) (m : HM (bool * R)) :
  closure c K N N' m ->
  closure c K N N' (let! r := m in do! modify (fun s => set_memory (g s) s) in ret r).
Proof.
  intros Hm s r s' Hs Hrun. run_inv Hrun. destruct (Hm _ _ _ Hs R0) as [HK Hg].
  split; [done|]. intros Hr. by apply good_memory, Hg.
Qed.

Lemma good_push c K N c' l s : good c K N s -> good c' (entered s) N (push (fresh_meter c' l) s).
Proof. intros []. split; try done. by apply inv_open. Qed.

(** Back in the caller. *)
Lemma good_returned c K N N' s s2 w lim u r :
  good c K N s -> callers s2 = entered s -> I N' (callers s2).*1 w ->
  @handler_unreserve_storage St DErr (handler_impl cfg (origin v)) (handlers s2) lim u r w = (Ok tt, world s2) ->
  good c K N' (pop s2).
Proof.
  intros [Hc Hr HK _] H2 HN Hun. pose proof (pop_entered _ _ H2) as He. rewrite H2 in HN.
  assert (world (pop s2) = w) as Hw.
  { unfold pop, callers in *. destruct (handlers s2); [done|]. by injection Hun as ->. }
  injection He as Hm1 Hm2 Hm3 Hm4 Hcs.
  split; [by congruence..|by trans (callers s)|]. rewrite frames_callers, Hw, Hcs. unfold own. by rewrite Hm1, Hm2, Hm3.
Qed.

(** A nested call: an ended one has left its callers' amounts alone and passed its own
    on, an abandoned one has left nothing. *)
Lemma sub_transaction_runs c K N N' gas_limit c' {R} (f : ExitError -> R) (body : HM (bool * R)) :
  N' <= N -> quiet body -> (forall K', closure c' K' N N' body) ->
  runs c K N N' (sub_transaction cfg config v gas_limit c' f body).
Proof.
  intros HN Hq Hbody s a s' Hs. unfold sub_transaction, run_sub_transaction, child_meter, handle, gets.
  rewrite (good_live _ _ _ _ Hs).
  set (inner := bind _ _). set (m := fresh_meter c' _).
  assert (quiet inner) as Hqi by (by apply quiet_bind; [|intros _; apply quiet_bind]).
  assert (closure c' (entered s) N N' inner) as Hinner.
  { eapply closure_bind; [apply triple_modify; intros s0; by apply good_memory|].
    intros _. by apply closure_memory. }
  pose proof (Hinner (push m s)) as Hin. clearbody inner.
  destruct (inner (push m s)) as [[[[] r]|e|] s1] eqn:Hrun; [| |by destruct (Hqi _ _ _ Hrun)|done].
  - destruct (Hin _ _ (good_push _ _ _ _ _ _ Hs) eq_refl) as [HK Hg]. specialize (Hg eq_refl).
    destruct (finish s1) as [[[]|e|] s2] eqn:Hfin; [| |done]; intros [= <- <-].
    + assert (I N (callers s1).*1 (world s)) as H0 by (rewrite HK, <- frames_entered; apply Hs).
      destruct (finish_ended _ _ _ _ _ H0 (good_live _ _ _ _ Hg) Hfin (good_inv _ _ _ _ Hg)) as (w & HK2 & HNw & Hun).
      eapply good_returned; [exact Hs|by rewrite HK2|by rewrite HK2|exact Hun].
    + apply good_spend with N; [done|]. apply good_abandoned; [done|]. by rewrite (finish_err_callers _ _ _ Hfin).
  - intros [= <- <-]. apply good_spend with N; [done|]. apply good_abandoned; [done|].
    exact (proj1 (Hin _ _ (good_push _ _ _ _ _ _ Hs) eq_refl)).
Qed.

(** ** The code *)

(** The index may be split as the code goes on. *)
Lemma runs_spend c K N N1 N' {A} (m : HM A) : N' <= N1 -> runs c K N N1 m -> runs c K N N' m.
Proof. intros HN Hm s a s' Hs Hrun. eapply good_spend; [exact HN|]. by eapply Hm. Qed.

Lemma create_closure_keeps c K N N' caller value (run : HM (ExitReason * bytes)) :
  static <> true -> N' + wc <= N ->
  runs c K N (N' + wc) run -> closure c K N N' (create_closure cfg v caller c value run).
Proof.
  intros Hf HN Hrun. unfold create_closure.
  eapply try_or_rollback_closure; [by apply transfer_attempt|].
  eapply closure_bind; [exact Hrun|]. intros [reason out].
  destruct reason; try apply closure_abandon.
  - eapply closure_bind; [apply on_gas_runs|]. intros deposit.
    destruct deposit; [|apply closure_abandon|apply closure_panic].
    apply return_gas_closure. eapply closure_bind; [by apply nonce_runs|]. intros _.
    apply initialize_closure; [done|]. apply closure_commit. lia.
  - eapply closure_bind; [apply on_caller_gas_runs|]. intros _. apply closure_abandon.
Qed.

Lemma call_closure_keeps c K N N' code_address transfer input target_gas context (run : HM (ExitReason * bytes)) :
  (match transfer with Some _ => static <> true | None => True end) -> N' + wp <= N ->
  runs c K (N - wp) N' run -> closure c K N N' (call_closure code_address transfer input target_gas context run).
Proof.
  intros Hf HN Hrun. unfold call_closure.
  eapply try_or_rollback_closure.
  { instantiate (1 := N). destruct transfer; [by apply transfer_attempt|by apply runs_attempt, runs_ret]. }
  eapply try_or_rollback_closure; [apply runs_attempt, on_caller_gas_runs|].
  eapply closure_bind with (N1 := N - wp).
  { intros s r s' Hs. destruct (precompiles_execute _ _ _ _ _) as [r0 w] eqn:Hp. intros [= <- <-].
    apply good_world with N; [done|]. intros HN0. eapply inv_precompile; [exact Hp|]. by rewrite Z.sub_add. }
  intros [[[[s out] cost]|e|]|].
  - eapply try_or_rollback_closure; [apply runs_attempt, on_gas_runs|].
    apply return_gas_closure, closure_commit. lia.
  - apply closure_abandon.
  - apply closure_panic.
  - eapply closure_bind; [exact Hrun|]. intros [reason out]. destruct reason; try apply closure_abandon.
    + by apply return_gas_closure, closure_commit.
    + eapply closure_bind; [apply on_caller_gas_runs|]. intros _. apply closure_abandon.
Qed.

Lemma handler_create_runs c K N N' is_static scheme value target_gas (sub : Context -> HM (ExitReason * bytes)) :
  (static = true -> is_static = true) -> N' + wc <= N -> (forall ctx, quiet (sub ctx)) ->
  (forall ctx K', runs (address ctx) K' N (N' + wc) (sub ctx)) ->
  runs c K N N' (handler_create cfg config v is_static c scheme value target_gas sub).
Proof.
  intros Hst HN Hq Hsub. destruct inv_weights as (_ & Hwc & _). unfold handler_create.
  destruct is_static; [apply runs_ret; lia|].
  assert (static <> true) as Hf by (intros E; by discriminate (Hst E)).
  eapply runs_bind; [apply read_gas_runs|]. intros g. cbv zeta.
  eapply runs_bind; [apply on_gas_runs|]. intros [u|e|]; [|apply runs_ret; lia|apply triple_panic].
  eapply runs_bind; [apply get_runs|]. intros s0.
  destruct (create_address cfg scheme (world s0)) as [a|e|]; [|apply runs_ret; lia|apply triple_panic].
  eapply runs_bind; [by apply nonce_runs|]. intros _.
  apply sub_transaction_runs; [lia|by apply quiet_create_closure|]. intros K'.
  apply create_closure_keeps; [done|lia|]. apply (Hsub (MkContext a c value)).
Qed.

Lemma handler_call_runs c K N N' is_static code_address transfer input target_gas context
    (sub : bytes -> HM (ExitReason * bytes)) :
  (static = true -> is_static = true) -> N' + wp <= N -> (forall code, quiet (sub code)) ->
  (forall code K', runs (address context) K' (N - wp) N' (sub code)) ->
  runs c K N N' (handler_call cfg config v is_static code_address transfer input target_gas context sub).
Proof.
  intros Hst HN Hq Hsub. destruct inv_weights as (_ & _ & Hwp). unfold handler_call.
  destruct (is_static && _) eqn:Hno; [apply runs_ret; lia|].
  eapply runs_bind; [apply read_gas_runs|]. intros g. cbv zeta.
  eapply runs_bind; [apply get_runs|]. intros s0.
  apply sub_transaction_runs; [lia|by apply quiet_call_closure|]. intros K'.
  apply call_closure_keeps; [|done|apply Hsub].
  destruct transfer; [|done]. intros E. by rewrite (Hst E) in Hno.
Qed.

(** No bytecode breaks the invariant. *)
Lemma execute_keeps p : forall n N is_static c K,
  (static = true -> is_static = true) -> within ws wc wp n p ->
  runs c K (N + n) N (execute cfg config v is_static c p).
Proof.
  destruct inv_weights as (Hws & Hwc & Hwp).
  induction p as [| q k IH | a k IH | op st k IH | i x k IH | ts d k IH | t k IH | sch x init tg sub IHs k IH
    | a t inp tg st ctx sub IHs k IH]; simpl; intros n N b c K Hst Hn.
  - eapply runs_spend; [|apply end_execute_runs]. lia.
  - eapply runs_bind; [apply read_gas_runs|]. intros g. eapply runs_bind; [apply get_runs|]. intros s0. by apply IH.
  - eapply runs_bind; [apply get_runs|]. intros s0. by apply IH.
  - eapply runs_bind; [apply pre_validate_runs|]. intros r. by apply IH.
  - eapply runs_bind; [by apply set_storage_runs|]. intros r. replace (N + n - ws) with (N + (n - ws)) by lia. by apply IH.
  - eapply runs_bind; [|intros u; by apply IH]. apply triple_modify. intros s Hs. apply good_world with (N + n); [done|].
    by apply inv_event.
  - eapply runs_bind; [by apply mark_delete_runs|]. intros r. by apply IH.
  - destruct Hn as (m & Hsub & Hk). eapply runs_bind with (N1 := N + (n - wc - m)).
    + pose proof (within_nonneg ws wc wp _ _ Hws Hwc Hwp (Hsub (MkContext 0 0 0))). apply handler_create_runs; [done|lia|intros; apply quiet_execute|].
      intros ctx K'. replace (N + n) with (N + (n - wc - m) + wc + m) by lia. by apply IHs.
    + intros r. by apply IH.
  - destruct Hn as (m & Hsub & Hk). eapply runs_bind with (N1 := N + (n - wp - m)).
    + pose proof (within_nonneg ws wc wp _ _ Hws Hwc Hwp (Hsub [])). apply handler_call_runs; [done|lia|intros; apply quiet_execute|].
      intros code K'. replace (N + n - wp) with (N + (n - wp - m) + m) by lia. apply IHs; [|done]. intros E. by rewrite (Hst E).
    + intros r. by apply IH.
Qed.

(** ** Transactions *)

Context `{HT : !TransactionInvariant (origin v) I}.
Hypothesis writable : static <> true.

Definition holds (N : Z) (s : St) : Prop := I N [] s.

(** Whatever a pallet call answers, the invariant holds of what it leaves. *)
Definition steady (N N' : Z) {A} (m : M St DErr A) : Prop := forall s r s', m s = (r, s') -> holds N s -> holds N' s'.

Lemma holds_spend N N' s : N' <= N -> holds N s -> holds N' s.
Proof. intros HN. replace N with (N' + (N - N')) by lia. apply inv_spend. lia. Qed.

Lemma run_transaction_keeps c N N' gas_limit limit {R} (f : HM (bool * R)) :
  N' <= N -> quiet f -> closure c [] N N' f ->
  steady N N' (handler_run_transaction cfg config v gas_limit limit c f).
Proof.
  intros HN Hq Hf w r w' Hrun HI0. unfold handler_run_transaction, run_transaction, new, bind in Hrun.
  assert (holds N' w) as Hold by (by apply holds_spend with N).
  simpl in Hrun. destruct (impl_reserve_storage cfg (origin v) limit w) as [[[]|e|] w1] eqn:Hres;
    [|by simplify_eq..]. unfold ret in Hrun.
  set (s0 := MkMetered _ _ _ _) in Hrun.
  assert (good c [] N s0) as Hs0 by (split; try done; by eapply inv_open, inv_reserve).
  destruct (f s0) as [[[[] r0]|e|] s1] eqn:Hfs; [|by simplify_eq..].
  destruct (Hf _ _ _ Hs0 Hfs) as [HK Hg]. specialize (Hg eq_refl).
  destruct (finish s1) as [[[]|e|] s2] eqn:Hfin; [|by simplify_eq..].
  injection Hrun as <- <-.
  assert (I N' (callers s1).*1 w) as Hw0 by (by rewrite HK).
  destruct (finish_ended _ _ _ _ _ Hw0 (good_live _ _ _ _ Hg) Hfin (good_inv _ _ _ _ Hg)) as (w2 & HK2 & HNw & Hun).
  rewrite HK in HNw. destruct (handlers s2) eqn:Hh.
  { unfold holds. eapply inv_unreserve; [exact Hun|exact HNw]. }
  unfold callers in HK2, HK. rewrite Hh, HK in HK2. done.
Qed.

Lemma runner_transfer_attempt c K N from to amount : attempt c K N N (on_world (runner_transfer from to amount)).
Proof.
  intros s r s' Hs. unfold on_world. destruct (runner_transfer _ _ _ _) as [r0 w] eqn:Hw.
  intros [= <- <-]. split; [apply Hs|]. intros [] ->. unfold runner_transfer in Hw.
  apply good_world with N; [done|]. destruct (amount =? 0); run_inv Hw; [done|]. by eapply inv_transfer.
Qed.

Lemma record_transaction_cost_runs c K N code : runs c K N N (record_transaction_cost code).
Proof. eapply runs_bind; [apply on_gas_runs|]. intros r. by apply runs_ret. Qed.

Lemma call_body_keeps N n sender target input amount :
  0 <= n -> (forall code c, within ws wc wp n (runtime_new code input c)) ->
  closure target [] (N + n) N (call_body cfg config v sender target input amount).
Proof.
  intros Hn Hcode. unfold call_body.
  eapply value_or_rollback_closure; [apply runner_transfer_attempt|].
  eapply closure_bind; [apply get_runs|]. intros s0. cbv zeta.
  eapply value_or_rollback_closure; [apply runs_attempt, record_transaction_cost_runs|].
  eapply closure_bind; [by apply execute_keeps|]. intros [reason out].
  eapply closure_bind; [apply read_gas_runs|]. intros g. eapply closure_bind; [apply get_runs|]. intros s1.
  destruct (is_succeed reason); [by apply closure_commit|apply closure_abandon].
Qed.

Lemma quiet_call_body sender target input amount : quiet (call_body cfg config v sender target input amount).
Proof.
  unfold call_body, record_transaction_cost. repeat quiet_step; apply quiet_execute.
Qed.

(** The creation of a contract, once its init code has run. *)
Lemma create_body_keeps N n source a init amount :
  0 <= n -> (forall c, within ws wc wp n (runtime_new init [] c)) ->
  closure a [] (N + n + wc) N (create_body cfg config v source a init amount).
Proof.
  intros Hn Hcode. destruct inv_weights as (Hws & Hwc & _). unfold create_body.
  eapply value_or_rollback_closure; [apply runner_transfer_attempt|].
  eapply value_or_rollback_closure; [apply runs_attempt, record_transaction_cost_runs|].
  eapply closure_bind with (N1 := N + wc).
  { replace (N + n + wc) with (N + wc + n) by lia. by apply execute_keeps. }
  intros [reason out]. eapply closure_bind; [apply read_gas_runs|]. intros g.
  eapply closure_bind; [apply get_runs|]. intros s0. cbv zeta.
  destruct (negb (is_succeed reason)); [apply closure_abandon|].
  eapply closure_bind; [apply on_gas_runs|]. intros [u|e|]; [|apply closure_abandon|apply closure_panic].
  eapply closure_bind; [apply read_gas_runs|]. intros g'.
  eapply closure_bind; [by apply nonce_runs|]. intros _.
  intros s r s' Hs. rewrite bind_ok. intros (r1 & s1 & H1 & H2).
  destruct (charge_then_initialize _ _ _ _ _ _ _ Panic s1 writable Hs H1) as [-> _].
  rewrite bind_ok in H2. destruct H2 as (s2 & s3 & H2 & H3). run_inv H2.
  rewrite bind_ok in H3. destruct H3 as (r2 & s4 & H3 & H4).
  destruct (charge_then_initialize _ _ _ _ _ _ _ r2 s4 writable Hs H1) as [_ Hi]. destruct (Hi H3) as [HK Hg].
  replace (N + wc - wc) with N in Hg by lia.
  destruct r2 as [[]|e|]; run_inv H4; (split; [done|]); intros Hc; [by apply Hg|done].
Qed.

Lemma quiet_create_body source a init amount : quiet (create_body cfg config v source a init amount).
Proof.
  unfold create_body, record_transaction_cost. repeat quiet_step; apply quiet_execute.
Qed.

End Execution.

Section Calls.
Context {o : H160} {ws wc wp : Z} {I : Z -> list frame -> St -> Prop}.
Context `{HI : !ExecutionInvariant false o ws wc wp I} `{HT : !TransactionInvariant o I}.

Lemma steady_spend N N' {A} (m : M St DErr A) N0 : N' <= N0 -> @steady I N N0 A m -> @steady I N N' A m.
Proof.
  intros HN Hm s r s' Hrun Hs. specialize (Hm _ _ _ Hrun Hs). unfold holds in *.
  apply (@inv_spend false o ws wc wp I _ N' (N0 - N')); [lia|]. by replace (N' + (N0 - N')) with N0 by lia.
Qed.

Lemma steady_same N {A} (m : M St DErr A) : (forall s r s', m s = (r, s') -> s' = s) -> @steady I N N A m.
Proof. intros Hm s r s' Hrun Hs. by rewrite (Hm _ _ _ Hrun). Qed.

Lemma steady_modify N N' (f : St -> St) : (forall s, I N [] s -> I N' [] (f s)) -> @steady I N N' unit (modify f).
Proof. intros Hf s r s' Hrun Hs. injection Hrun as _ <-. by apply Hf. Qed.

Lemma steady_bind N N1 N' {A B} (m : M St DErr A) (k : A -> M St DErr B) :
  N' <= N1 -> @steady I N N1 A m -> (forall a, @steady I N1 N' B (k a)) -> @steady I N N' B (bind m k).
Proof.
  intros HN Hm Hk s r s' Hrun Hs. unfold bind in Hrun. destruct (m s) as [[a|e|] s1] eqn:H1; [by eapply Hk, Hm|..];
    injection Hrun as _ <-; (eapply steady_spend; [exact HN|exact Hm|exact H1|exact Hs]).
Qed.

Lemma steady_transactional N N' {A} (m : M St DErr A) :
  N' <= N -> (forall s a s', m s = (Ok a, s') -> I N [] s -> I N' [] s') -> @steady I N N' A (transactional m).
Proof.
  intros HN Hm s r s' Hrun Hs.
  assert (I N' [] s) as Hs' by (apply (steady_spend N N' (@get St DErr) N HN (steady_same N get ltac:(by intros ? ? ? [= _ <-])) s _ _ eq_refl Hs)).
  destruct r as [a|e|]; [rewrite transactional_ok in Hrun; by eapply Hm|..];
    by rewrite (transactional_rollback _ _ _ _ Hrun).
Qed.

Lemma steady_atomic N N' {A} (m : M St DErr A) : N' <= N -> @steady I N N' A m -> @steady I N N' A (transactional m).
Proof. intros HN Hm. apply steady_transactional; [done|]. intros s a s' Hrun Hs. by eapply Hm. Qed.

Lemma steady_try_run N N' {A} (m : M St DErr A) : @steady I N N' A m -> @steady I N N' _ (try_run m).
Proof.
  intros Hm s r s' Hrun Hs. unfold try_run in Hrun. destruct (m s) as [r0 s0] eqn:H. pose proof (Hm _ _ _ H Hs).
  destruct r0; injection Hrun as _ <-; done.
Qed.

(** [Runner::call] and [Runner::inner_create] for the origin [o]. *)
Lemma runner_call_keeps config N n sender target input amount gas_limit limit :
  0 <= n -> (forall code c, within ws wc wp n (runtime_new code input c)) ->
  @steady I (N + n) N _ (runner_call cfg config sender o target input amount gas_limit limit).
Proof.
  intros Hn Hcode s r s' Hrun HN. unfold runner_call in Hrun.
  unfold bind at 1 in Hrun. simpl in Hrun. unfold ensure in Hrun.
  destruct (can_call_contract target sender s); simpl in Hrun.
  2:{ injection Hrun as _ <-. apply (@inv_spend false o ws wc wp I _ N n); done. }
  set (v := MkVicinity 1 o). unfold bind in Hrun. simpl in Hrun.
  assert (I (N + n) [] (inc_nonce sender s)) as HN1 by (by apply (@inv_nonce false o ws wc wp I _)).
  destruct (handler_run_transaction _ _ _ _ _ _ _ _) as [r0 w] eqn:Ht.
  assert (I N [] w) as HN2.
  { change o with (origin v) in HI, HT. eapply (@run_transaction_keeps v false ws wc wp I HI config HT target (N + n) N);
      [| | |exact Ht|exact HN1]; [lia|apply quiet_call_body|]. by apply (@call_body_keeps v false ws wc wp I HI). }
  destruct r0 as [[info|e|]|e|]; injection Hrun as _ <-; done.
Qed.

Lemma inner_create_keeps config N n source init amount gas_limit limit assigned salt :
  source = o -> 0 <= n -> (forall c, within ws wc wp n (runtime_new init [] c)) ->
  @steady I (N + n + wc) N _ (inner_create cfg config source init amount gas_limit limit assigned salt).
Proof.
  intros -> Hn Hcode s r s' Hrun HN. unfold inner_create in Hrun.
  destruct (@inv_weights false o ws wc wp I _) as (Hws & Hwc & _).
  unfold bind at 1 in Hrun. simpl in Hrun.
  assert (I N [] s) as HN0 by (apply (@inv_spend false o ws wc wp I _ N (n + wc)); [lia|by rewrite Z.add_assoc]).
  destruct (assign_address _ _ _ _ _ _) as [a|e|]; [|injection Hrun as _ <-; done..].
  set (v := MkVicinity 1 o) in *. unfold bind in Hrun. simpl in Hrun.
  assert (I (N + n + wc) [] (inc_nonce o s)) as HN1 by (by apply (@inv_nonce false o ws wc wp I _)).
  destruct (handler_run_transaction _ _ _ _ _ _ _ _) as [r0 w] eqn:Ht.
  assert (I N [] w) as HN2.
  { change o with (origin v) in HI, HT. eapply (@run_transaction_keeps v false ws wc wp I HI config HT a (N + n + wc) N);
      [| | |exact Ht|exact HN1]; [lia|apply quiet_create_body|]. by apply (@create_body_keeps v false ws wc wp I HI). }
  destruct r0 as [[info|e|]|e|]; injection Hrun as _ <-; done.
Qed.

End Calls.
End Interface.

(** ** Precompiled contracts

    A precompiled contract is code of other pallets: it acts on the rest of the chain, it
    hands contracts over to other maintainers, and, when it moves an ERC20 token, it lets
    the EVM run again, for a contract that may call precompiled contracts in its turn. *)

Section Precompiles.
Context {L X AccountId Origin : Type} `{!AddressMapping L AccountId} `{!NativeCurrency L X AccountId}.
Context `{G : Gasometers}.
Context `{!DispatchErrorStr (EvmError + X)} `{!DispatchErrorInto (EvmError + X)}.
Variable cfg : Config X AccountId Origin.
Variables ws wc : Z.

(** Handing a contract over leaves its code. *)
Lemma do_transfer_maintainer_spec who c m (s : State L AccountId) r s' :
  do_transfer_maintainer (X := X) who c m s = (r, s') ->
  s' = s \/ exists i ci ci', accounts s !! c = Some i /\ contract_info i = Some ci /\ code_hash ci' = code_hash ci
    /\ s' = put_account c (Some (with_contract (Some ci') i)) s.
Proof.
  unfold do_transfer_maintainer, bind, gets, ok_or, ensure, ret, modify, fail.
  destruct (accounts s !! c) as [i|] eqn:Ha; [|intros [= _ <-]; by left].
  destruct (contract_info i) as [ci|] eqn:Hc; [|intros [= _ <-]; by left].
  destruct (get_evm_address who (chain s)); [|intros [= _ <-]; by left].
  destruct (_ =? _); intros [= _ <-]; [right|by left]. by exists i, ci, (MkContractInfo (code_hash ci) m (deployed ci)).
Qed.

(** Gas bounds what a call writes and creates, whatever the code. *)
Definition bounded (J : Interpreter L AccountId) (wp n : Z) : Prop :=
  0 <= n /\ forall code input c, within ws wc wp n (runtime_new code input c).

(** What the other pallets may do to the rest of the chain, and for whom they run code. *)
Variable acts : M L X unit -> Prop.
Variable runs_for : H160 -> Prop.

Inductive precompile_step (below : Z -> Interpreter L AccountId -> Prop) : Z -> State L AccountId -> State L AccountId -> Prop :=
| ActsOutside m w : acts m -> precompile_step below 0 w (on_chain m w).2
| HandsOver who c new_maintainer w :
    precompile_step below 0 w (do_transfer_maintainer (X := X) who c new_maintainer w).2
| RunsCode wp J n context input value gas_limit limit mode w :
    below wp J -> bounded J wp n -> runs_for (invoke_origin context) ->
    precompile_step below n w (evm_execute (Interpreter0 := J) cfg context input value gas_limit limit mode w).2.

(** A sequence of steps, and what it costs together. *)
Inductive effects (below : Z -> Interpreter L AccountId -> Prop) : Z -> State L AccountId -> State L AccountId -> Prop :=
| NoEffect w : effects below 0 w w
| Effect n k w w1 w2 : precompile_step below n w w1 -> effects below k w1 w2 -> effects below (n + k) w w2.

(** The precompiled contracts of an interpreter cost at most [wp] each, the code that they
    run being that of an interpreter one layer below. *)
Inductive layered : Z -> Interpreter L AccountId -> Prop :=
| Layered wp J below :
    0 <= wp ->
    (forall wp' J', below wp' J' -> layered wp' J') ->
    (forall b input gas c w r w', precompiles_execute b input gas c w = (r, w') ->
       exists n, n <= wp /\ effects below n w w') ->
    layered wp J.

Section Keep.
Context {T : Type}.
Variable I : T -> Z -> State L AccountId -> Prop.
Hypothesis spends : forall t N n w, 0 <= n -> I t (N + n) w -> I t N w.

Lemma effects_keep below n w w' :
  (forall n w w', precompile_step below n w w' -> forall t N, I t (N + n) w -> I t N w') ->
  effects below n w w' -> forall t N, I t (N + n) w -> I t N w'.
Proof.
  intros Hstep. induction 1 as [w|n k w w1 w2 H1 _ IH]; intros t N HN; [by rewrite Z.add_0_r in HN|].
  apply IH, (Hstep n w w1 H1). by replace (N + k + n) with (N + (n + k)) by lia.
Qed.

(** What every layer keeps if the layer below does, the precompiled contracts of every
    layer keep. *)
Lemma layered_keep :
  (forall m t N w, acts m -> I t N w -> I t N (on_chain m w).2) ->
  (forall who c new t N w, I t N w -> I t N (do_transfer_maintainer (X := X) who c new w).2) ->
  (forall wp J, 0 <= wp ->
     (forall b input gas c w r w' t N, precompiles_execute b input gas c w = (r, w') -> I t (N + wp) w -> I t N w') ->
     forall n context input value gas_limit limit mode t N w, bounded J wp n -> runs_for (invoke_origin context) ->
       I t (N + n) w -> I t N (evm_execute (Interpreter0 := J) cfg context input value gas_limit limit mode w).2) ->
  forall wp J, layered wp J -> 0 <= wp /\
    forall b input gas c w r w' t N, precompiles_execute b input gas c w = (r, w') -> I t (N + wp) w -> I t N w'.
Proof.
  intros Hacts Hhands Hruns. induction 1 as [wp J below Hwp _ IH Hp]. split; [done|].
  intros b input gas c w r w' t N Hrun HN. destruct (Hp _ _ _ _ _ _ _ Hrun) as (n & Hn & He).
  eapply (effects_keep below n w w'); [|exact He|].
  - clear - Hacts Hhands Hruns IH. intros n w w' Hstep t N HN.
    destruct Hstep as [m w Hm|who c new w|wp J n context input value gas_limit limit mode w HJ Hb Ho]; rewrite ?Z.add_0_r in HN.
    + by apply Hacts.
    + by apply Hhands.
    + destruct (IH _ _ HJ) as [Hwp' IHJ]. by apply (Hruns wp J Hwp' IHJ n).
  - apply spends with (wp - n); [lia|]. by replace (N + n + (wp - n)) with (N + wp) by lia.
Qed.

End Keep.
End Precompiles.
