(* ===== verification/EvmSafety.v ===== *)
(** * What no contract can do

    Two instances of [ExecutionInvariant] of [EvmExecution]. A static call writes nothing
    but through the precompiled contracts. The code of a live contract is never lost: the
    reference counts of code cover its users, over every call of the pallet except
    [set_code], whatever the precompiled contracts do, layer by layer. *)

From S2P Require Import Prelude Currency EvmMeter Evm EvmRunner EvmExecution.

(** ** Static calls *)

Section Static.
Context {L X AccountId Origin : Type} `{!AddressMapping L AccountId} `{!NativeCurrency L X AccountId}.
Context `{G : Gasometers} `{!Interpreter L AccountId}.
Context `{!DispatchErrorStr (EvmError + X)} `{!DispatchErrorInto (EvmError + X)}.
Variable cfg : Config X AccountId Origin.
Variable config : EvmConfig.
Variable v : Vicinity.

(** What a static call may do: emit a log, or run a precompiled contract. *)
Inductive static_step (w : State L AccountId) : State L AccountId -> Prop :=
| Emits e : static_step w (deposit_event e w)
| RunsPrecompile a input gas c r w' : precompiles_execute a input gas c w = (r, w') -> static_step w w'.

(** The storage since [w0]; the calls opened since then have charged nothing. *)
Definition unwritten (fs0 : list frame) (w0 : State L AccountId) (N : Z) (fs : list frame) (w : State L AccountId) : Prop :=
  rtc static_step w0 w
  /\ exists opened, fs = opened ++ fs0 /\ Forall (fun f => frame_used f = frame_refunded f) opened.

#[local] Instance unwritten_invariant fs0 w0 : ExecutionInvariant cfg true (origin v) 0 0 0 (unwritten fs0 w0).
Proof.
  split; try (intros; done).
  - intros N c fs w (Hw & opened & -> & Ho). split; [done|]. exists (MkFrame c 0 0 :: opened). by split; [|constructor].
  - intros N fs e w [Hw Ho]. split; [|done]. eapply rtc_r; [done|constructor].
  - intros N fs a input gas c w r w' Hp [Hw Ho]. split; [|done]. eapply rtc_r; [done|by econstructor].
  - intros N N0 c u r fs w1 w w' (_ & opened1 & -> & Ho1) Hc (Hw & opened & Heq & Ho).
    split; [|by exists opened1].
    assert (u = r) as ->.
    { destruct opened as [|f opened].
      { apply (f_equal length) in Heq. simpl in Heq. rewrite length_app in Heq. lia. }
      injection Heq as <- Heq. by inversion Ho. }
    unfold impl_charge_storage in Hc. rewrite Z.eqb_refl in Hc. by run_inv Hc.
Qed.

Lemma within_free p : within 0 0 0 0 p.
Proof. induction p; simpl; try done; exists 0; split; done. Qed.

(** C8: in a static call no bytecode writes: whatever it does and whatever it calls, the
    storage is left as the logs and the precompiled contracts make it, and the call has
    charged and refunded nothing. *)
Theorem static_call_writes_nothing (p : Runtime) (s : Metered (State L AccountId) (list Gasometer) (EvmError + X)) a s' :
  result (meter s) = None ->
  execute cfg config v true (contract (meter s)) p s = (Ok a, s') ->
  rtc static_step (world s) (world s')
  /\ self_used (meter s') = self_used (meter s) /\ self_refunded (meter s') = self_refunded (meter s).
Proof.
  intros Hr Hrun.
  assert (good (I := unwritten (frames s) (world s)) (contract (meter s)) (callers s) 0 s) as Hs.
  { split; try done. split; [done|]. by exists []. }
  pose proof (execute_keeps cfg v (I := unwritten (frames s) (world s)) config p 0 0 true _ _ ltac:(done) (within_free p) _ _ _ Hs Hrun)
    as [Hc Hr' HK (Hw & opened & Ho & _)].
  rewrite !frames_callers, HK in Ho. split; [done|].
  destruct opened as [|f opened]; [by injection Ho|].
  apply (f_equal length) in Ho. simpl in Ho. rewrite length_app in Ho. simpl in Ho. lia.
Qed.

End Static.

(** ** The code of contracts *)

Section Codes.
Context {L X AccountId Origin : Type} `{!AddressMapping L AccountId} `{!NativeCurrency L X AccountId}.
Context `{G : Gasometers}.
Context `{!DispatchErrorStr (EvmError + X)} `{!DispatchErrorInto (EvmError + X)}.
Variable cfg : Config X AccountId Origin.

Abbreviation St := (State L AccountId).
Abbreviation Run := (M (State L AccountId) (EvmError + X)).

(** The accounts whose contract has the code hash [h], and what the pallet counts. *)
Definition uses (h : H256) (a : H160) (i : AccountInfo) : Z :=
  match contract_info i with Some c => if code_hash c =? h then 1 else 0 | None => 0 end.

Definition users (h : H256) (s : St) : Z := map_sum (uses h) (accounts s).

Definition refs (h : H256) (s : St) : Z :=
  match code_infos s !! h with Some ci => ref_count ci | None => 0 end.

Record codes_ok (s : St) : Prop := {
  users_counted h : users h s <= refs h s;
  code_stored h ci : code_infos s !! h = Some ci ->
    0 <= ref_count ci /\ exists code, codes s !! h = Some code /\ keccak cfg code = h
}.

Definition uses_of (h : H256) (o : option AccountInfo) : Z := match o with Some i => uses h 0 i | None => 0 end.

Lemma uses_range h a i : 0 <= uses h a i <= 1.
Proof. unfold uses. destruct (contract_info i); [|lia]. destruct (_ =? _); lia. Qed.

Lemma users_put h a o (m : gmap H160 AccountInfo) :
  map_sum (uses h) (partial_alter (fun _ => o) a m) = map_sum (uses h) m - uses_of h (m !! a) + uses_of h o.
Proof.
  destruct o as [i|].
  - change (partial_alter (fun _ => Some i) a m) with (<[a := i]> m). rewrite map_sum_insert. done.
  - change (partial_alter (fun _ => None) a m) with (delete a m). rewrite map_sum_delete_at, Z.add_0_r. done.
Qed.

Lemma users_of_le h a (s : St) : 0 <= uses_of h (accounts s !! a) <= users h s.
Proof.
  split.
  - unfold uses_of. destruct (accounts s !! a); [apply uses_range|lia].
  - etransitivity; [|apply (map_at_le_sum (uses h) (accounts s) a); intros; apply uses_range].
    unfold map_at, uses_of. destruct (accounts s !! a); reflexivity.
Qed.

(** Dropping a reference. *)
Lemma refs_deref h h' (s : St) : codes_ok s ->
  refs h' (deref_code h s) = if h' =? h then Z.max (refs h s - 1) 0 else refs h' s.
Proof.
  intros [_ Hst]. unfold deref_code, refs. destruct (code_infos s !! h) as [ci|] eqn:Hh.
  - unfold sat_sub. destruct (Hst h ci Hh) as [Hn _].
    destruct (Z.eqb_spec (Z.max (ref_count ci - 1) 0) 0) as [Hz|Hz]; simpl;
      destruct (Z.eqb_spec h' h) as [->|Hne];
      rewrite ?lookup_delete_eq, ?lookup_insert_eq, ?lookup_delete_ne, ?lookup_insert_ne by done; done.
  - destruct (Z.eqb_spec h' h) as [->|]; [by rewrite Hh|done].
Qed.

Lemma accounts_deref h (s : St) : accounts (deref_code h s) = accounts s.
Proof. unfold deref_code. destruct (code_infos s !! h); [|done]. by destruct (_ =? _). Qed.

Lemma stored_deref h (s : St) : codes_ok s -> forall h' ci, code_infos (deref_code h s) !! h' = Some ci ->
  0 <= ref_count ci /\ exists code, codes (deref_code h s) !! h' = Some code /\ keccak cfg code = h'.
Proof.
  intros [_ Hst] h' ci. unfold deref_code. destruct (code_infos s !! h) as [ci0|] eqn:Hh; [|apply Hst].
  destruct (_ =? 0); simpl.
  - rewrite lookup_delete_Some. intros [Hne Hci]. rewrite lookup_delete_ne by done. by apply Hst.
  - destruct (decide (h = h')) as [->|Hne].
    + rewrite lookup_insert_eq. intros [= <-]. simpl. split; [unfold sat_sub; lia|]. by apply (Hst h' ci0).
    + rewrite lookup_insert_ne by done. apply Hst.
Qed.

(** An account gives up its contract, and the contract its reference. *)
Lemma codes_ok_drop a o (s : St) i c :
  accounts s !! a = Some i -> contract_info i = Some c -> (forall h, uses_of h o = 0) ->
  codes_ok s -> codes_ok (put_account a o (deref_code (code_hash c) s)).
Proof.
  intros Ha Hc Ho Hok. split; [|by apply stored_deref].
  intros h. change (refs h (put_account a o ?t)) with (refs h t). rewrite refs_deref by done.
  unfold users. simpl. rewrite accounts_deref, users_put, Ha, Ho.
  pose proof (users_counted s Hok h). pose proof (users_of_le h a s) as Hle. rewrite Ha in Hle. unfold users in *.
  assert (uses_of h (Some i) = if h =? code_hash c then 1 else 0) as Hu by (simpl; unfold uses; rewrite Hc, Z.eqb_sym; done).
  rewrite Hu in *. destruct (Z.eqb_spec h (code_hash c)) as [->|]; lia.
Qed.

(** An account without a contract is replaced by one without. *)
Lemma codes_ok_put a o (s : St) :
  (forall h, uses_of h o <= uses_of h (accounts s !! a)) -> codes_ok s -> codes_ok (put_account a o s).
Proof.
  intros Ho [Hu Hst]. split; [|done]. intros h. unfold users. simpl. rewrite users_put.
  specialize (Hu h). specialize (Ho h). unfold users, refs in *. simpl. lia.
Qed.

Lemma users_put_le a o (s : St) h :
  uses_of h o <= uses_of h (accounts s !! a) -> users h (put_account a o s) <= users h s.
Proof. intros Ho. unfold users. simpl. rewrite users_put. lia. Qed.

Lemma users_deref h h' (s : St) : users h' (deref_code h s) = users h' s.
Proof. unfold users. by rewrite accounts_deref. Qed.

(** [n] more contracts may be created before a count can saturate. *)
Definition codes_safe (N : Z) (fs : list frame) (s : St) : Prop :=
  0 <= N -> codes_ok s /\ forall h, users h s + N <= umax 32.

Lemma codes_safe_same N fs fs' (s s' : St) :
  accounts s' = accounts s -> codes s' = codes s -> code_infos s' = code_infos s -> codes_safe N fs s -> codes_safe N fs' s'.
Proof.
  intros Ha Hc Hi HN HN0. destruct (HN HN0) as [[Hu Hst] Hr]. split.
  - split; intros h; [unfold users, refs in *; rewrite Ha, Hi; apply Hu|]. rewrite Hc, Hi. apply Hst.
  - intros h. unfold users in *. rewrite Ha. apply Hr.
Qed.

Lemma remove_account_safe N fs a (s : St) : codes_safe N fs s -> codes_safe N fs (remove_account a s).
Proof.
  intros HN HN0. destruct (HN HN0) as [Hok Hr]. unfold remove_account, contract_at.
  change (set_accounts (delete a) ?t) with (put_account a None t).
  destruct (accounts s !! a) as [i|] eqn:Ha; simpl.
  - destruct (contract_info i) as [c|] eqn:Hc; simpl.
    + split; [by eapply codes_ok_drop|]. intros h. etransitivity; [|apply (Hr h)]. apply Z.add_le_mono_r.
      etransitivity; [apply users_put_le|by rewrite users_deref]. rewrite accounts_deref, Ha. apply uses_range.
    + split; [apply codes_ok_put; [|done]|].
      * intros h. rewrite Ha. apply uses_range.
      * intros h. etransitivity; [|apply (Hr h)]. apply Z.add_le_mono_r, users_put_le. rewrite Ha. apply uses_range.
  - split; [apply codes_ok_put; [|done]|].
    + intros h. by rewrite Ha.
    + intros h. etransitivity; [|apply (Hr h)]. apply Z.add_le_mono_r, users_put_le. by rewrite Ha.
Qed.

Lemma on_killed_account_safe N fs l who (s : St) : codes_safe N fs s -> codes_safe N fs (on_killed_account l s who).
Proof. intros HN. unfold on_killed_account. apply remove_account_safe. destruct (get_evm_address who l); [by apply remove_account_safe|done]. Qed.

(** Nothing that the rest of the chain does loses code. *)
Lemma on_chain_safe N fs {A : Type} (m : M L X A) s r s' : on_chain m s = (r, s') -> codes_safe N fs s -> codes_safe N fs s'.
Proof.
  intros Hm HN. unfold on_chain in Hm. destruct (m (chain s)) as [r0 l]. injection Hm as _ <-.
  apply (fold_left_inv (codes_safe N fs)); [intros; by apply on_killed_account_safe|].
  by eapply codes_safe_same; [| | |exact HN].
Qed.

(** ** What the pallet relies on

    The account of a contract has the reference of a provider that the pallet gave it when
    the contract was installed and takes back when it is removed. While it has one, giving
    its money away does not reap it. *)
Variable provided : H160 -> L -> Prop.

(** What leaves the providers alone that the pallet gave. *)
Definition spares {A : Type} (m : M L X A) : Prop := forall b l, provided b l -> provided b (m l).2.

Record provider_laws : Prop := {
  provider_given b l : provided b (inc_providers (get_account_id b l) l);
  provider_kept who b l : provided b l -> provided b (inc_providers who l);
  provider_taken b c l : b <> c -> provided b l -> provided b (dec_providers (get_account_id c l) l).2;
  provider_protects b to l u l' : provided b l -> transfer_all (get_account_id b l) to l = (Ok u, l') -> reaped l l' = [];
  transfer_all_keeps_accounts from to b l : get_account_id b (transfer_all from to l).2 = get_account_id b l;
  mapping_spares who b l : provided b l -> provided b (get_or_create_evm_address who l).2;
  transfer_spares from to v : spares (currency_transfer from to v);
  transfer_all_spares from to : spares (transfer_all from to);
  reserve_spares who v : spares (reserve who v);
  unreserve_spares who v : spares (unreserve who v);
  repatriate_spares from to v st : spares (repatriate_reserved from to v st)
}.

Hypothesis providers : provider_laws.

Definition contracts_provided (s : St) : Prop := forall b, is_Some (contract_at b s) -> provided b (chain s).

Lemma provided_mono s s' :
  (forall b, is_Some (contract_at b s') -> is_Some (contract_at b s) \/ provided b (chain s')) ->
  (forall b, provided b (chain s) -> provided b (chain s')) -> contracts_provided s -> contracts_provided s'.
Proof. intros Hc Hp Hs b Hb. destruct (Hc b Hb) as [H|H]; [|done]. by apply Hp, Hs. Qed.

Lemma provided_same s s' : accounts s' = accounts s -> chain s' = chain s -> contracts_provided s -> contracts_provided s'.
Proof. intros Ha Hc Hs b. unfold contract_at. rewrite Ha, Hc. apply Hs. Qed.

Lemma contract_at_put b a o (s : St) :
  is_Some (contract_at b (put_account a o s)) ->
  b <> a /\ is_Some (contract_at b s) \/ b = a /\ is_Some (o ≫= contract_info).
Proof.
  unfold contract_at. simpl. destruct (decide (b = a)) as [->|Hne].
  - rewrite lookup_partial_alter_eq. by right.
  - rewrite lookup_partial_alter_ne by done. by left.
Qed.

Lemma provided_put a o s :
  (is_Some (o ≫= contract_info) -> is_Some (contract_at a s)) -> contracts_provided s -> contracts_provided (put_account a o s).
Proof. intros Ho. apply provided_mono; [|done]. intros b Hb. destruct (contract_at_put _ _ _ _ Hb) as [[]|[-> ?]]; auto. Qed.

Lemma chain_deref h (w : St) : chain (deref_code h w) = chain w.
Proof. unfold deref_code. destruct (code_infos w !! h); [by destruct (_ =? _)|done]. Qed.

Lemma remove_account_mono a (s : St) :
  chain (remove_account a s) = chain s
  /\ forall b, is_Some (contract_at b (remove_account a s)) -> is_Some (contract_at b s).
Proof.
  unfold remove_account. split.
  - destruct (contract_at a s); [apply chain_deref|done].
  - intros b. set (w := match contract_at a s with Some _ => _ | None => _ end).
    assert (accounts w = accounts s) as Hw by (unfold w; destruct (contract_at a s); [apply accounts_deref|done]).
    unfold contract_at at 1 2. simpl. rewrite Hw.
    destruct (decide (b = a)) as [->|]; [by rewrite lookup_delete_eq; intros []|by rewrite lookup_delete_ne].
Qed.

(** What is reaped is no contract any more. *)
Lemma on_chain_mono {A : Type} (m : M L X A) s r s' : on_chain m s = (r, s') ->
  chain s' = (m (chain s)).2 /\ forall b, is_Some (contract_at b s') -> is_Some (contract_at b s).
Proof.
  unfold on_chain. destruct (m (chain s)) as [r0 l]. intros [= _ <-].
  apply (fold_left_inv (fun w => chain w = l /\ forall b, is_Some (contract_at b w) -> is_Some (contract_at b s))); [|done].
  intros w who [Hl Hb]. unfold on_killed_account.
  destruct (remove_account_mono (get_default_evm_address who)
    (match get_evm_address who (chain s) with Some a => remove_account a w | None => w end)) as [-> H2].
  destruct (get_evm_address who (chain s)) as [a|]; [|by auto].
  destruct (remove_account_mono a w) as [-> H1]. by auto.
Qed.

Lemma on_chain_provided {A : Type} (m : M L X A) s r s' :
  spares m -> on_chain m s = (r, s') -> contracts_provided s -> contracts_provided s'.
Proof.
  intros Hm Hrun. destruct (on_chain_mono _ _ _ _ Hrun) as [Hc Hb]. apply provided_mono; [by auto|].
  intros b. rewrite Hc. apply Hm.
Qed.

(** ** The steps of the code *)

Lemma remove_contract_safe N fs a t s size s' :
  contracts_provided s -> remove_contract a t s = (Ok size, s') -> codes_safe N fs s -> codes_safe N fs s'.
Proof.
  intros Hp Hrun HN. unfold remove_contract in Hrun. run_inv Hrun. rename x into i, x0 into c, R0 into Ha, R1 into Hc.
  eapply on_chain_safe; [exact R2|]. clear R2. unfold on_chain in R.
  destruct (transfer_all _ _ _) as [[u|e|] l] eqn:Ht; [|done..].
  assert (provided a (chain s)) as Hpa by (apply Hp; unfold contract_at; rewrite Ha; simpl; rewrite Hc; done).
  rewrite (provider_protects providers _ _ _ _ _ Hpa Ht) in R. injection R as _ <-. simpl.
  assert (codes_safe N fs (set_chain l s)) as HN1 by (by eapply codes_safe_same; [| | |exact HN]).
  eapply codes_safe_same with (fs := fs) (s := put_account a (Some (with_contract None i)) (deref_code (code_hash c) (set_chain l s)));
    [done..|].
  intros HN0. destruct (HN1 HN0) as [Hok Hr]. split; [by eapply codes_ok_drop|].
  intros h. etransitivity; [|apply (Hr h)]. apply Z.add_le_mono_r.
  etransitivity; [apply users_put_le|by rewrite users_deref]. rewrite accounts_deref. simpl. rewrite Ha. apply uses_range.
Qed.

(** Taking a reference. *)
Lemma refs_ref h code h' (s : St) :
  refs h' (ref_code h code s) = if h' =? h then sat_add 32 (refs h s) 1 else refs h' s.
Proof.
  unfold ref_code, refs. destruct (code_infos s !! h) as [ci|] eqn:Hh; simpl;
    (destruct (Z.eqb_spec h' h) as [->|]; [rewrite lookup_insert_eq|by rewrite lookup_insert_ne]); done.
Qed.

Lemma accounts_ref h code (s : St) : accounts (ref_code h code s) = accounts s.
Proof. unfold ref_code. by destruct (code_infos s !! h). Qed.

Lemma stored_ref code (s : St) : codes_ok s -> forall h' ci, code_infos (ref_code (keccak cfg code) code s) !! h' = Some ci ->
  0 <= ref_count ci /\ exists c, codes (ref_code (keccak cfg code) code s) !! h' = Some c /\ keccak cfg c = h'.
Proof.
  intros [_ Hst] h' ci. unfold ref_code. destruct (code_infos s !! keccak cfg code) as [ci0|] eqn:Hh; simpl;
    (destruct (decide (keccak cfg code = h')) as [<-|Hne];
      [rewrite lookup_insert_eq; intros [= <-]; simpl|rewrite lookup_insert_ne by done; intros Hci]).
  - destruct (Hst _ _ Hh) as [? ?]. split; [unfold sat_add; pose proof (umax_nonneg 32); lia|done].
  - by apply (Hst h' ci).
  - split; [lia|]. exists code. by rewrite lookup_insert_eq.
  - rewrite lookup_insert_ne by done. by apply (Hst h' ci).
Qed.

Lemma users_alter h a f (m : gmap H160 AccountInfo) :
  map_sum (uses h) (partial_alter f a m) = map_sum (uses h) m - uses_of h (m !! a) + uses_of h (f (m !! a)).
Proof. rewrite <- users_put. f_equal. apply partial_alter_ext. by intros ? ->. Qed.

(** An account becomes a contract, and the code is counted. *)
Lemma codes_safe_install N fs fs' a f code (s : St) :
  (forall h i, uses_of h (f i) = if h =? keccak cfg code then 1 else 0) -> codes_safe (N + 1) fs s ->
  codes_safe N fs' (set_accounts (partial_alter f a) (ref_code (keccak cfg code) code s)).
Proof.
  intros Hf HN HN0. destruct (HN ltac:(lia)) as [Hok Hr].
  assert (forall h, users h (set_accounts (partial_alter f a) (ref_code (keccak cfg code) code s))
                    <= users h s + (if h =? keccak cfg code then 1 else 0)) as Hle.
  { intros h. unfold users. simpl. rewrite accounts_ref, users_alter, Hf. pose proof (users_of_le h a s). lia. }
  split; [split; [|by apply stored_ref]|]; intros h; specialize (Hle h); specialize (Hr h).
  - change (refs h (set_accounts ?g ?t)) with (refs h t). rewrite refs_ref. pose proof (users_counted s Hok h).
    destruct (Z.eqb_spec h (keccak cfg code)) as [->|]; unfold sat_add; lia.
  - destruct (h =? keccak cfg code); lia.
Qed.

Lemma size_update_safe N fs a z (s : St) : codes_safe N fs s -> codes_safe N fs (update_contract_storage_size a z s).
Proof.
  intros HN. eapply codes_safe_same; [| | |exact HN]; unfold update_contract_storage_size;
    destruct (z =? 0); try done; by destruct (0 <? z).
Qed.

Lemma initialization_safe N fs fs' a m code s s' :
  on_contract_initialization cfg a m code s = (Ok tt, s') -> codes_safe (N + 1) fs s -> codes_safe N fs' s'.
Proof.
  intros Hrun HN. unfold on_contract_initialization in Hrun. run_inv Hrun.
  apply codes_safe_same with (fs := fs)
    (s := set_accounts (partial_alter (fun maybe => match maybe with
            | Some i => Some (with_contract (Some (MkContractInfo (keccak cfg code) m (ethereum_compatibility cfg))) i)
            | None => Some (AccountInfo_new 0 (Some (MkContractInfo (keccak cfg code) m (ethereum_compatibility cfg))))
            end) a)
          (ref_code (keccak cfg code) code (update_contract_storage_size a
            (to_signed 32 (sat_add 32 (wrap 32 (Z.of_nat (length code))) (new_contract_extra_bytes cfg))) s)));
    try done.
  eapply codes_safe_install; [|by apply size_update_safe, HN].
  intros h [i|]; simpl; unfold uses; simpl; by rewrite Z.eqb_sym.
Qed.

(** The reference of a contract that is removed is taken back, and of no other. *)
Lemma remove_contract_provided a t s size s' :
  remove_contract a t s = (Ok size, s') -> contracts_provided s -> contracts_provided s'.
Proof.
  intros Hrun Hp. unfold remove_contract in Hrun. run_inv Hrun. rename x into i, x0 into c.
  destruct (on_chain_mono _ _ _ _ R) as [Hc1 Hb1]. destruct (on_chain_mono _ _ _ _ R2) as [Hc2 Hb2].
  simpl in Hc2. rewrite chain_deref, Hc1 in Hc2. intros b Hb.
  apply Hb2, contract_at_put in Hb as [[Hne Hb]|[_ []]]; [|done].
  unfold contract_at in Hb. simpl in Hb. rewrite accounts_deref in Hb. apply Hb1, Hp in Hb.
  pose proof (transfer_all_keeps_accounts providers (get_account_id a (chain s)) (get_account_id t (chain s)) a (chain s)) as Hk.
  apply (transfer_all_spares providers (get_account_id a (chain s)) (get_account_id t (chain s))) in Hb.
  rewrite Hc2. set (l := (transfer_all _ _ (chain s)).2) in *. rewrite <- Hk. by apply (provider_taken providers).
Qed.

Lemma initialization_provided a m code s s' :
  on_contract_initialization cfg a m code s = (Ok tt, s') -> contracts_provided s -> contracts_provided s'.
Proof.
  intros Hrun Hp. unfold on_contract_initialization in Hrun. run_inv Hrun.
  set (z := to_signed 32 _). set (f := fun maybe : option AccountInfo => _). set (h := keccak cfg code).
  assert (chain (ref_code h code (update_contract_storage_size a z s)) = chain s
          /\ accounts (ref_code h code (update_contract_storage_size a z s)) = accounts s) as [Hc Ha].
  { unfold ref_code, update_contract_storage_size.
    destruct (z =? 0), (0 <? z); simpl; destruct (code_infos s !! h); done. }
  intros b Hb. simpl. rewrite Hc. destruct (decide (b = a)) as [->|Hne]; [apply (provider_given providers)|].
  apply (provider_kept providers), Hp. unfold contract_at in *. simpl in Hb. by rewrite Ha, lookup_partial_alter_ne in Hb.
Qed.

Lemma inc_nonce_provided a (s : St) : contracts_provided s -> contracts_provided (inc_nonce a s).
Proof.
  apply provided_mono; [|done]. intros b. unfold contract_at, inc_nonce. simpl. intros Hb. left.
  destruct (decide (b = a)) as [->|Hne]; [|by rewrite lookup_partial_alter_ne in Hb].
  rewrite lookup_partial_alter_eq in Hb. destruct (accounts s !! a); [done|by destruct Hb].
Qed.

Lemma inc_nonce_safe N fs a (s : St) : codes_safe N fs s -> codes_safe N fs (inc_nonce a s).
Proof.
  intros HN HN0. destruct (HN HN0) as [[Hu Hst] Hr].
  assert (forall h, users h (inc_nonce a s) = users h s) as Heq.
  { intros h. unfold users, inc_nonce. simpl. rewrite users_alter.
    destruct (accounts s !! a) as [i|]; simpl; unfold uses; simpl; lia. }
  split; [split; [|done]|]; intros h; rewrite Heq; [apply Hu|apply Hr].
Qed.

(** What every step keeps. *)
Definition codes_kept (N : Z) (fs : list frame) (s : St) : Prop := codes_safe N fs s /\ contracts_provided s.

Lemma codes_kept_same N fs fs' (s s' : St) :
  accounts s' = accounts s -> codes s' = codes s -> code_infos s' = code_infos s ->
  (forall b, provided b (chain s) -> provided b (chain s')) -> codes_kept N fs s -> codes_kept N fs' s'.
Proof.
  intros Ha Hc Hi Hp [HN Hs]. split; [by eapply codes_safe_same; [| | |exact HN]|].
  eapply provided_mono; [|exact Hp|exact Hs]. intros b. unfold contract_at. rewrite Ha. by left.
Qed.

Lemma codes_kept_spend N n fs (s : St) : 0 <= n -> codes_kept (N + n) fs s -> codes_kept N fs s.
Proof.
  intros Hn [HN Hp]. split; [|done]. intros HN0. destruct (HN ltac:(lia)) as [Hok Hr].
  split; [done|]. intros h. specialize (Hr h). lia.
Qed.

Lemma on_chain_kept N fs fs' {A : Type} (m : M L X A) s r s' :
  spares m -> on_chain m s = (r, s') -> codes_kept N fs s -> codes_kept N fs' s'.
Proof.
  intros Hm Hrun [HN Hp]. split; [|by eapply on_chain_provided].
  eapply codes_safe_same; [| | |eapply on_chain_safe; [exact Hrun|exact HN]]; done.
Qed.

(** Deposits move on the rest of the chain. *)
Lemma reserve_kept N fs o limit s s' :
  impl_reserve_storage cfg o limit s = (Ok tt, s') -> codes_kept N fs s -> codes_kept N fs s'.
Proof.
  unfold impl_reserve_storage. destruct (limit =? 0); intros Hrun; run_inv Hrun; [done|].
  eapply on_chain_kept; [apply (reserve_spares providers)|done].
Qed.

Lemma unreserve_kept N fs o limit u r s s' :
  impl_unreserve_storage cfg o limit u r s = (Ok tt, s') -> codes_kept N fs s -> codes_kept N fs s'.
Proof.
  unfold impl_unreserve_storage. destruct (_ =? 0); intros Hrun; run_inv Hrun; [done|].
  eapply on_chain_kept; [apply (unreserve_spares providers)|done].
Qed.

Lemma charge_kept N fs fs' o c u r s s' :
  impl_charge_storage cfg o c u r s = (Ok tt, s') -> codes_kept N fs s -> codes_kept N fs' s'.
Proof.
  intros Hrun HN. assert (codes_kept N fs' s) as HN' by (by eapply codes_kept_same; [..|exact HN]).
  unfold impl_charge_storage in Hrun. destruct (u =? r); [by run_inv Hrun|].
  destruct (r <? u); run_inv Hrun;
    repeat (eapply (on_chain_kept N fs' fs'); [|eassumption|];
      [first [apply (reserve_spares providers)|apply (transfer_spares providers)
             |apply (unreserve_spares providers)|apply (repatriate_spares providers)]|]); done.
Qed.

Lemma size_update_kept N fs a z (s : St) : codes_kept N fs s -> codes_kept N fs (update_contract_storage_size a z s).
Proof.
  intros [HN Hp]. split; [by apply size_update_safe|]. unfold update_contract_storage_size.
  destruct (z =? 0); [done|]. by destruct (0 <? z).
Qed.

Lemma codes_kept_put N fs a i i' (s : St) :
  accounts s !! a = i -> (forall h, uses_of h i' = uses_of h i) ->
  (is_Some (i' ≫= contract_info) -> is_Some (i ≫= contract_info)) ->
  codes_kept N fs s -> codes_kept N fs (put_account a i' s).
Proof.
  intros Ha Hi Hc [HN Hp]. split.
  - intros HN0. destruct (HN HN0) as [Hok Hr]. split.
    + apply codes_ok_put; [|done]. intros h. by rewrite Ha, Hi.
    + intros h. etransitivity; [apply Z.add_le_mono_r, users_put_le|apply Hr]. by rewrite Ha, Hi.
  - apply provided_put; [|done]. unfold contract_at. by rewrite Ha.
Qed.

(** The maintainer and the deployment of a contract are not its code. *)
Lemma uses_same_code h i c c' : contract_info i = Some c -> code_hash c' = code_hash c ->
  uses_of h (Some (with_contract (Some c') i)) = uses_of h (Some i).
Proof. intros Hi Hc. simpl. unfold uses. simpl. by rewrite Hi, Hc. Qed.

Lemma mark_deployed_kept N fs c by_maintainer s u s' :
  mark_deployed (X := X) c by_maintainer s = (Ok u, s') -> codes_kept N fs s -> codes_kept N fs s'.
Proof.
  intros Hrun HN. unfold mark_deployed in Hrun. run_inv Hrun.
  destruct (accounts s !! c) as [i|] eqn:Ha; [|by run_inv Hrun].
  destruct (contract_info i) as [ci|] eqn:Hc; [|by run_inv Hrun].
  run_inv Hrun. assert (x0 = s) as -> by (destruct by_maintainer; run_inv R; done).
  eapply codes_kept_put; [exact Ha| | |exact HN]; [intros h; by eapply uses_same_code|]. intros _. simpl. by rewrite Hc.
Qed.

Lemma transfer_maintainer_kept N fs who c m s r s' :
  do_transfer_maintainer (X := X) who c m s = (r, s') -> codes_kept N fs s -> codes_kept N fs s'.
Proof.
  intros Hrun HN. destruct (do_transfer_maintainer_spec _ _ _ _ _ _ Hrun) as [->|(i & ci & ci' & Ha & Hc & Hh & ->)]; [done|].
  eapply codes_kept_put; [exact Ha| | |exact HN]; [intros h; by eapply uses_same_code|]. intros _. simpl. by rewrite Hc.
Qed.

Lemma remove_contract_kept N fs fs' a t s size s' :
  remove_contract a t s = (Ok size, s') -> codes_kept N fs s -> codes_kept N fs' s'.
Proof.
  intros Hrun [HN Hp]. split; [|by eapply remove_contract_provided].
  eapply codes_safe_same; [| | |by eapply remove_contract_safe]; done.
Qed.

Lemma do_selfdestruct_kept N fs who m c s u s' :
  do_selfdestruct cfg who m c s = (Ok u, s') -> codes_kept N fs s -> codes_kept N fs s'.
Proof.
  intros Hrun HN. unfold do_selfdestruct in Hrun. run_inv Hrun.
  eapply (on_chain_kept N fs fs); [apply (repatriate_spares providers)|done|]. by eapply remove_contract_kept.
Qed.

(** ** Code that runs *)

Section Run.
Context `{!Interpreter L AccountId}.
Variable wp : Z.

(** The precompiled contracts keep it too, at a cost. *)
Hypothesis precompiles : 0 <= wp /\ forall b input gas c (w : St) r w' N,
  precompiles_execute b input gas c w = (r, w') -> codes_kept (N + wp) [] w -> codes_kept N [] w'.

#[local] Instance codes_kept_invariant o : ExecutionInvariant cfg false o 0 1 wp codes_kept.
Proof.
  destruct precompiles as [Hwp Hpre]. split.
  - lia.
  - intros N n fs w. apply codes_kept_spend.
  - intros N c fs w HN. by eapply codes_kept_same; [..|exact HN].
  - intros N fs e w HN. by eapply codes_kept_same; [..|exact HN].
  - intros N fs a w _ [HN Hp]. split; [by apply inc_nonce_safe|by apply inc_nonce_provided].
  - intros N fs from to amount w w' _. apply on_chain_kept, (transfer_spares providers).
  - intros N fs a input gas c w r w'. apply Hpre.
  - intros N c u r fs i x w change w' _ Hw HN. rewrite Z.add_0_r in HN.
    assert (codes_kept N (MkFrame c u r :: fs) w') as HN'.
    { unfold write_storage in Hw. destruct (x =? 0); injection Hw as _ <-; by eapply codes_kept_same; [..|exact HN]. }
    destruct change; [done|..]; apply size_update_kept; by eapply codes_kept_same; [..|exact HN'].
  - intros N c u r fs target w size w' _. apply remove_contract_kept.
  - intros N c u r fs out w w' _ Hrun [HN Hp]. split; [by eapply initialization_safe|by eapply initialization_provided].
  - intros N N0 c u r fs w0 w w' _. apply charge_kept.
Qed.

#[local] Instance codes_kept_transaction o : TransactionInvariant cfg o codes_kept.
Proof. split; intros N; [intros limit w w'; apply reserve_kept|intros limit u r w w'; apply unreserve_kept]. Qed.

(** ** The calls of the pallet *)

Abbreviation steadily N N' m := (@steady L X AccountId codes_kept N N' _ m).

Lemma on_chain_steady N {A : Type} (m : M L X A) : spares m -> steadily N N (on_chain m).
Proof. intros Hm s r s'. by apply on_chain_kept. Qed.

Lemma create_mapping_steady N who : steadily N N (create_mapping who).
Proof.
  intros s r s' Hrun HN. unfold create_mapping in Hrun. destruct (get_or_create_evm_address _ _) as [h l] eqn:Hm.
  injection Hrun as _ <-. eapply (codes_kept_same N [] [] s); [done..| |exact HN].
  intros b Hb. change l with (h, l).2. rewrite <- Hm. by apply (mapping_spares providers).
Qed.

Lemma ensure_signed_steady N o : steadily N N (ensure_signed cfg o).
Proof. apply steady_same. intros s r s'. unfold ensure_signed, ok_or. destruct (signed_by cfg o); by intros [= _ <-]. Qed.

Lemma event_steady N (f : St -> St) : (forall s, accounts (f s) = accounts s) -> (forall s, codes (f s) = codes s) ->
  (forall s, code_infos (f s) = code_infos s) -> (forall s, chain (f s) = chain s) -> steadily N N (modify f).
Proof.
  intros Ha Hc Hi Hl. apply steady_modify. intros s HN. eapply (codes_kept_same N [] [] s); [auto..| |exact HN].
  intros b. by rewrite Hl.
Qed.

(** Every call of the pallet but [set_code], with any outcome, and what the rest of the
    chain does between them. The index counts the contracts that the call may create. *)
Context {Imbalance : Type} (gas_to_weight : Z -> Z).
Context (unreserve_and_charge_fee : AccountId -> Z -> M L X Imbalance).
Context (refund_fee : AccountId -> Z -> Imbalance -> M L X unit).
Hypothesis fee_spares : forall who fee, spares (unreserve_and_charge_fee who fee).
Hypothesis refund_spares : forall who fee paid, spares (refund_fee who fee paid).

(** Gas bounds the creations of a call, whatever the code. *)
Abbreviation creates_at_most n := (bounded 0 1 _ wp n).

Inductive pallet_call : Z -> Run unit -> Prop :=
| Calls n o target input value gas_limit limit : creates_at_most n ->
    pallet_call n (call cfg SETHEUM_CONFIG o target input value gas_limit limit)
| Creates n o init value gas_limit limit : creates_at_most n ->
    pallet_call (n + 1) (create cfg SETHEUM_CONFIG o init value gas_limit limit)
| Creates2 n o init salt value gas_limit limit : creates_at_most n ->
    pallet_call (n + 1) (create2 cfg SETHEUM_CONFIG o init salt value gas_limit limit)
| CreatesNetwork n o init value gas_limit limit : creates_at_most n ->
    pallet_call (n + 1) (create_network_contract cfg SETHEUM_CONFIG o init value gas_limit limit)
| CallsScheduled n o from target input value gas_limit limit : creates_at_most n ->
    pallet_call n (scheduled_call cfg gas_to_weight unreserve_and_charge_fee refund_fee o from target input value gas_limit limit)
| Executes n context input value gas_limit limit mode : creates_at_most n ->
    pallet_call n (do! evm_execute cfg context input value gas_limit limit mode in ret tt)
| TransfersMaintainer o c m : pallet_call 0 (transfer_maintainer cfg o c m)
| Deploys o c : pallet_call 0 (deploy cfg o c)
| DeploysFree o c : pallet_call 0 (deploy_free cfg o c)
| EnablesDevelopment o : pallet_call 0 (enable_contract_development cfg o)
| DisablesDevelopment o : pallet_call 0 (disable_contract_development cfg o)
| Selfdestructs o c : pallet_call 0 (selfdestruct cfg o c)
| RestOfChain (m : M L X unit) : spares m -> pallet_call 0 (on_chain m)
| Dispatches who : pallet_call 0 (modify (pre_dispatch who))
| Dispatched : pallet_call 0 (modify post_dispatch).

Inductive reachable : Z -> St -> Prop :=
| Fresh s : accounts s = ∅ -> code_infos s = ∅ -> reachable 0 s
| Step n k m s r s' : reachable n s -> pallet_call k m -> m s = (r, s') -> reachable (n + k) s'.

Lemma event_holds N e : steadily N N (modify (deposit_event e)).
Proof. by apply event_steady. Qed.

Lemma runner_call_steady N n sender o target input value gas_limit limit config :
  creates_at_most n -> steadily (N + n) N (runner_call cfg config sender o target input value gas_limit limit).
Proof. intros [Hn Hc]. by apply (runner_call_keeps cfg (o := o) (ws := 0) (wc := 1) (wp := wp)). Qed.

Lemma inner_create_steady N n source init value gas_limit limit a salt config :
  creates_at_most n -> steadily (N + (n + 1)) N (inner_create cfg config source init value gas_limit limit a salt).
Proof.
  intros [Hn Hc]. replace (N + (n + 1)) with (N + n + 1) by lia.
  by apply (inner_create_keeps cfg (o := source) (ws := 0) (wc := 1) (wp := wp)).
Qed.

Lemma ok_or_steady N {A : Type} (o : option A) e : steadily N N (ok_or o e).
Proof. apply steady_same. intros s r s'. by destruct o; intros [= _ <-]. Qed.

Lemma ensure_steady N b e : steadily N N (ensure b e).
Proof. apply steady_same. intros s r s'. by destruct b; intros [= _ <-]. Qed.

Lemma gets_steady N {A : Type} (f : St -> A) : steadily N N (gets f).
Proof. by apply steady_same; intros s r s' [= _ <-]. Qed.

Lemma ret_steady N {A : Type} (a : A) : steadily N N (ret a).
Proof. by apply steady_same; intros s r s' [= _ <-]. Qed.

Lemma index_steady N : steadily N N (modify (fun s => set_network_contract_index (sat_add 64 (network_contract_index s) 1) s)).
Proof. by apply event_steady. Qed.

Lemma try_chain_steady N {A : Type} (m : M L X A) : spares m -> steadily N N (try_run (on_chain m)).
Proof. intros Hm. by apply steady_try_run, on_chain_steady. Qed.

Lemma codes_bind N N1 N' {A B : Type} (m : Run A) (k : A -> Run B) :
  N' <= N1 -> steadily N N1 m -> (forall a, steadily N1 N' (k a)) -> steadily N N' (bind m k).
Proof. apply (steady_bind cfg (o := 0) (ws := 0) (wc := 1) (wp := wp)). Qed.

Lemma codes_atomic N N' {A : Type} (m : Run A) : N' <= N -> steadily N N' m -> steadily N N' (transactional m).
Proof. apply (steady_atomic cfg (o := 0) (ws := 0) (wc := 1) (wp := wp)). Qed.

Lemma evm_execute_steady N n context input value gas_limit limit mode :
  creates_at_most n -> steadily (N + n) N (evm_execute cfg context input value gas_limit limit mode).
Proof.
  intros Hn s r s' Hrun HN. assert (holds (I := codes_kept) N s) as Hs.
  { destruct Hn as [Hn _]. by apply (codes_kept_spend N n). }
  unfold evm_execute in Hrun. destruct (runner_call _ _ _ _ _ _ _ _ _ s) as [r0 s0] eqn:Hc.
  pose proof (runner_call_steady N n _ _ _ _ _ _ _ _ Hn _ _ _ Hc HN) as Hs0.
  destruct r0 as [info|e|]; [|by injection Hrun as _ <-..].
  destruct mode; [|by injection Hrun as _ <-..].
  destruct (is_succeed _); injection Hrun as _ <-; [|done]. by eapply (codes_kept_same N [] []); [..|exact Hs0].
Qed.

Hint Resolve fee_spares refund_spares ok_or_steady ensure_steady gets_steady ret_steady index_steady try_chain_steady on_chain_steady
  create_mapping_steady ensure_signed_steady event_holds runner_call_steady inner_create_steady evm_execute_steady : steady.

Ltac steady_tac :=
  repeat first
    [ solve [eauto with steady]
    | eapply codes_bind; [|solve [eauto with steady]|intros ?]; [lia|]
    | apply codes_atomic; [lia|]
    | match goal with
      | |- steady _ _ (let _ := _ in _) => cbv zeta
      | |- steady _ _ (match ?x with _ => _ end) => destruct x
      end ].

Lemma call_steady N n o target input value gas_limit limit :
  creates_at_most n -> steadily (N + n) N (call cfg SETHEUM_CONFIG o target input value gas_limit limit).
Proof. intros Hn. assert (0 <= n) by apply Hn. unfold call. steady_tac. Qed.

Lemma create_steady N n o init value gas_limit limit :
  creates_at_most n -> steadily (N + (n + 1)) N (create cfg SETHEUM_CONFIG o init value gas_limit limit).
Proof. intros Hn. assert (0 <= n) by apply Hn. unfold create, runner_create. steady_tac. Qed.

Lemma create2_steady N n o init salt value gas_limit limit :
  creates_at_most n -> steadily (N + (n + 1)) N (create2 cfg SETHEUM_CONFIG o init salt value gas_limit limit).
Proof. intros Hn. assert (0 <= n) by apply Hn. unfold create2, runner_create2. steady_tac. Qed.

Lemma create_network_contract_steady N n o init value gas_limit limit :
  creates_at_most n -> steadily (N + (n + 1)) N (create_network_contract cfg SETHEUM_CONFIG o init value gas_limit limit).
Proof. intros Hn. assert (0 <= n) by apply Hn. unfold create_network_contract, create_at_address, ensure_origin. steady_tac. Qed.

Lemma scheduled_call_steady N n o from target input value gas_limit limit :
  creates_at_most n ->
  steadily (N + n) N (scheduled_call cfg gas_to_weight unreserve_and_charge_fee refund_fee o from target input value gas_limit limit).
Proof.
  intros Hn. assert (0 <= n) by apply Hn. unfold scheduled_call, charge_scheduled, ensure_origin.
  apply codes_atomic; [lia|]. do 2 (eapply codes_bind; [|solve [eauto with steady]|intros ?]; [lia|]).
  eapply codes_bind with (N1 := N + n); [lia|steady_tac|intros paid].
  - eapply codes_bind with (N1 := N + n); [lia|steady_tac|intros ?; apply ret_steady].
  - steady_tac.
Qed.

(** The calls that run no code. *)
Lemma codes_atomic_ok N {A : Type} (m : Run A) :
  (forall s a s', m s = (Ok a, s') -> codes_kept N [] s -> codes_kept N [] s') -> steadily N N (transactional m).
Proof. by apply (steady_transactional cfg (o := 0) (ws := 0) (wc := 1) (wp := wp)). Qed.

Lemma event_kept N e (s : St) : codes_kept N [] s -> codes_kept N [] (deposit_event e s).
Proof. intros HN. by eapply (codes_kept_same N [] []); [..|exact HN]. Qed.

Lemma uses_deposit h d i : uses_of h (Some (with_deposit d i)) = uses_of h (Some i).
Proof. done. Qed.

Lemma enable_steady N o : steadily N N (enable_contract_development cfg o).
Proof.
  apply codes_atomic_ok. intros s u s' Hrun HN. run_inv Hrun. apply event_kept.
  assert (codes_kept N [] x4) as HN2.
  { eapply on_chain_kept; [apply (reserve_spares providers)|exact R1|]. eapply (create_mapping_steady N); [exact R0|].
    eapply (ensure_signed_steady N); [exact R|exact HN]. }
  destruct (accounts x4 !! x1) as [i|] eqn:Ha; run_inv R2.
  - by eapply codes_kept_put; [exact Ha|..|exact HN2].
  - by eapply codes_kept_put; [exact Ha|..|exact HN2].
Qed.

Lemma disable_steady N o : steadily N N (disable_contract_development cfg o).
Proof.
  apply codes_atomic_ok. intros s u s' Hrun HN. run_inv Hrun. apply event_kept.
  eapply on_chain_kept; [apply (unreserve_spares providers)|eassumption|]. eapply codes_kept_put; [eassumption|done..|].
  by eapply (ensure_signed_steady N); [eassumption|].
Qed.

Lemma transfer_maintainer_steady N o c m : steadily N N (transfer_maintainer cfg o c m).
Proof.
  apply codes_atomic_ok. intros s u s' Hrun HN. run_inv Hrun. apply event_kept.
  eapply transfer_maintainer_kept; [eassumption|]. by eapply (ensure_signed_steady N); [eassumption|].
Qed.

Lemma deploy_steady N o c : steadily N N (deploy cfg o c).
Proof.
  apply codes_atomic_ok. intros s u s' Hrun HN. run_inv Hrun. apply event_kept.
  eapply mark_deployed_kept; [eassumption|]. eapply on_chain_kept; [apply (transfer_spares providers)|eassumption|].
  by eapply (ensure_signed_steady N); [eassumption|].
Qed.

Lemma deploy_free_steady N o c : steadily N N (deploy_free cfg o c).
Proof.
  apply codes_atomic_ok. intros s u s' Hrun HN. unfold ensure_origin in Hrun. run_inv Hrun. apply event_kept.
  by eapply mark_deployed_kept; [eassumption|].
Qed.

Lemma selfdestruct_steady N o c : steadily N N (selfdestruct cfg o c).
Proof.
  apply codes_atomic_ok. intros s u s' Hrun HN. run_inv Hrun. apply event_kept.
  eapply do_selfdestruct_kept; [eassumption|]. by eapply (ensure_signed_steady N); [eassumption|].
Qed.

Hint Resolve call_steady create_steady create2_steady create_network_contract_steady scheduled_call_steady enable_steady
  disable_steady transfer_maintainer_steady deploy_steady deploy_free_steady selfdestruct_steady : steady.

Lemma pallet_call_steady N k m : pallet_call k m -> 0 <= k /\ steadily (N + k) N m.
Proof.
  intros Hm. split.
  - destruct Hm; try (destruct H); lia.
  - destruct Hm; rewrite ?Z.add_0_r; try solve [eauto with steady].
    + assert (0 <= n) by (by destruct H). eapply codes_bind; [|eauto with steady|intros ?; apply ret_steady]. lia.
    + by apply event_steady.
    + by apply event_steady.
Qed.

Lemma reachable_codes_kept n s : reachable n s -> 0 <= n /\ codes_kept (umax 32 - n) [] s.
Proof.
  induction 1 as [s Ha Hc|n k m s r s' _ [Hn IH] Hcall Hrun].
  - split; [lia|]. split; [intros _; split|].
    + split; [intros h|intros h ci; by rewrite Hc, lookup_empty].
      unfold users, refs. by rewrite Ha, Hc, map_sum_empty, lookup_empty.
    + intros h. unfold users. rewrite Ha, map_sum_empty. lia.
    + intros b. unfold contract_at. rewrite Ha, lookup_empty. by intros [].
  - destruct (pallet_call_steady (umax 32 - (n + k)) k m Hcall) as [Hk Hs]. split; [lia|].
    eapply Hs; [exact Hrun|]. unfold holds. by replace (umax 32 - (n + k) + k) with (umax 32 - n) by lia.
Qed.

End Run.

(** The precompiled contracts, layer by layer. *)
Lemma layered_codes wp J : layered cfg 0 1 spares (fun _ => True) wp J -> 0 <= wp /\
  forall b input gas c w r w' N, precompiles_execute b input gas c w = (r, w') -> codes_kept (N + wp) [] w -> codes_kept N [] w'.
Proof.
  intros HJ. destruct (layered_keep cfg 0 1 spares (fun _ => True) (fun _ : unit => fun N => codes_kept N [])
    ltac:(intros ? N n w; apply codes_kept_spend)) with (wp := wp) (J := J) as [Hwp Hp]; [..|done|].
  - intros m t N w Hm. eapply on_chain_kept; [exact Hm|apply surjective_pairing].
  - intros who c new t N w. eapply transfer_maintainer_kept, surjective_pairing.
  - clear - providers. intros wp J Hwp Hp n context input value gas_limit limit mode t N w Hn _ HN.
    assert (forall b input gas c w r w' N, precompiles_execute b input gas c w = (r, w') ->
              codes_kept (N + wp) [] w -> codes_kept N [] w') as Hp'.
    { intros b i g x w0 r w1 N0. exact (Hp b i g x w0 r w1 t N0). }
    eapply (evm_execute_steady wp (conj Hwp Hp')); [exact Hn|apply surjective_pairing|exact HN].
  - split; [done|]. intros b input gas c w r w' N. exact (Hp b input gas c w r w' tt N).
Qed.

(** C4: the code of a contract is there as long as the contract is: whatever contracts run,
    create, delete, re-create and self-destruct, in every state that the calls of the
    pallet other than [set_code] reach, what the pallet stores under the code hash of a
    contract is a code with that hash. A reference count would have to reach 2^32 before
    code could be dropped under a contract that uses it.

    Between the calls, and behind precompiled contracts, the other pallets act on their
    own part of the chain ([RestOfChain], [layered]): they may reap accounts, hand over
    contracts and let the EVM run again, but they leave the reference of a provider alone
    that the pallet gave the account of a contract ([spares]), and an account with a
    provider is not reaped when its money is given away ([provider_laws]). *)
Theorem contract_code_is_available `{!Interpreter L AccountId} {Imbalance : Type} (gas_to_weight : Z -> Z)
    (unreserve_and_charge_fee : AccountId -> Z -> M L X Imbalance) (refund_fee : AccountId -> Z -> Imbalance -> M L X unit)
    (wp n : Z) (s : St) (a : H160) (c : ContractInfo) :
  layered cfg 0 1 spares (fun _ => True) wp _ ->
  (forall who fee, spares (unreserve_and_charge_fee who fee)) ->
  (forall who fee paid, spares (refund_fee who fee paid)) ->
  reachable wp gas_to_weight unreserve_and_charge_fee refund_fee n s -> n <= umax 32 -> contract_at a s = Some c ->
  codes s !! code_hash c = Some (code_at_address cfg a s) /\ keccak cfg (code_at_address cfg a s) = code_hash c.
Proof.
  intros Hl Hf1 Hf2 Hr Hn Hc.
  destruct (reachable_codes_kept wp (layered_codes wp _ Hl) gas_to_weight _ _ Hf1 Hf2 n s Hr) as [_ [HN _]].
  destruct (HN ltac:(lia)) as [[Hu Hst] _]. specialize (Hu (code_hash c)).
  assert (1 <= users (code_hash c) s) as H1.
  { pose proof (users_of_le (code_hash c) a s) as Hle. unfold contract_at in Hc.
    destruct (accounts s !! a) as [i|]; [|done]. simpl in *. unfold uses in Hle at 1 2. rewrite Hc, Z.eqb_refl in Hle. lia. }
  unfold refs in Hu. destruct (code_infos s !! code_hash c) as [ci|] eqn:Hci; [|lia].
  destruct (Hst _ _ Hci) as [_ (code & Hcode & Hk)].
  unfold code_at_address, code_hash_at_address. rewrite Hc, Hcode. done.
Qed.

End Codes.

(** ** Runs that do not succeed *)

Section Rollback.
Context {L X AccountId Origin : Type} `{!AddressMapping L AccountId} `{!NativeCurrency L X AccountId}.
Context `{G : Gasometers} `{!Interpreter L AccountId}.
Context `{!DispatchErrorStr (EvmError + X)} `{!DispatchErrorInto (EvmError + X)}.
Variable cfg : Config X AccountId Origin.
Variable config : EvmConfig.

Abbreviation St := (State L AccountId).
Abbreviation HM := (M (Metered (State L AccountId) (list Gasometer) (EvmError + X)) (EvmError + X)).

(** The closure of a transaction asks for a commit only with a result that [ok] accepts. *)
Definition commits_only {R : Type} (ok : R -> bool) (f : HM (bool * R)) : Prop :=
  forall s r s', f s = (Ok (true, r), s') -> ok r = true.

Lemma commits_only_bind {A R : Type} (ok : R -> bool) (m : HM A) (k : A -> HM (bool * R)) :
  (forall a, commits_only ok (k a)) -> commits_only ok (bind m k).
Proof. intros Hk s r s'. rewrite bind_ok. intros (a & s1 & _ & H2). by eapply Hk. Qed.

Lemma commits_only_ret {R : Type} (ok : R -> bool) b r : (b = true -> ok r = true) -> commits_only ok (ret (b, r)).
Proof. intros Hb s r' s'. rewrite ret_ok. intros [[= <- <-] _]. by apply Hb. Qed.

Lemma commits_only_panic {R : Type} (ok : R -> bool) : commits_only ok (@panic _ _ (bool * R)).
Proof. intros s r s'. by rewrite panic_ok. Qed.

Lemma commits_only_value {A R : Type} (ok : outcome (EvmError + X) R -> bool) (m : HM (outcome (EvmError + X) A)) k :
  commits_only ok k -> commits_only ok (value_or_rollback m k).
Proof.
  intros Hk. apply commits_only_bind. intros [a|e|]; [exact Hk|by apply commits_only_ret|apply commits_only_panic].
Qed.

(** What is not committed is not there. *)
Lemma run_transaction_rollback {R : Type} (ok : R -> bool) v gas_limit limit c (f : HM (bool * R)) (w : St) r w' :
  commits_only ok f -> handler_run_transaction cfg config v gas_limit limit c f w = (r, w') ->
  (forall x, r = Ok x -> ok x = false) -> w' = w.
Proof.
  intros Hf Hrun Hr. unfold handler_run_transaction, run_transaction in Hrun.
  destruct (new _ _ _) as [[m|e|] w1]; [|by simplify_eq..].
  set (s0 := MkMetered _ _ _ _) in Hrun.
  destruct (f s0) as [[[[] x]|e|] s1] eqn:Hs; [|by simplify_eq..].
  destruct (finish s1) as [[u|e|] s2]; [|by simplify_eq..].
  injection Hrun as <- <-. specialize (Hr x eq_refl). by rewrite (Hf _ _ _ Hs) in Hr.
Qed.

Definition call_ok (r : outcome (EvmError + X) CallInfo) : bool :=
  match r with Ok info => is_succeed (call_exit_reason info) | _ => false end.

Definition create_ok (r : outcome (EvmError + X) CreateInfo) : bool :=
  match r with Ok info => is_succeed (create_exit_reason info) | _ => false end.

Lemma call_body_commits v sender target input value : commits_only call_ok (call_body cfg config v sender target input value).
Proof.
  unfold call_body. apply commits_only_value, commits_only_bind. intros s0. cbv zeta.
  apply commits_only_value, commits_only_bind. intros [reason out].
  apply commits_only_bind. intros g. apply commits_only_bind. intros s1. by apply commits_only_ret.
Qed.

Lemma create_body_commits v source a init value : commits_only create_ok (create_body cfg config v source a init value).
Proof.
  unfold create_body. apply commits_only_value, commits_only_value, commits_only_bind. intros [reason out].
  apply commits_only_bind. intros g. apply commits_only_bind. intros s0. cbv zeta.
  destruct (is_succeed reason) eqn:Hok; simpl; [|by apply commits_only_ret].
  apply commits_only_bind. intros [u|e|]; [|by apply commits_only_ret|apply commits_only_panic].
  do 2 (apply commits_only_bind; intros ?).
  apply commits_only_bind. intros [u'|e|]; [|by apply commits_only_ret|apply commits_only_panic].
  apply commits_only_bind. intros s1. apply commits_only_bind.
  intros [u''|e|]; [by apply commits_only_ret|by apply commits_only_ret|apply commits_only_panic].
Qed.

(** C9: a call that reverts, fails, runs out of gas or of storage, or is refused leaves
    nothing behind but the nonce of its sender: not a slot, not a transfer, not a log, not
    a deposit, whatever the nested calls did and committed before. *)
Theorem unsuccessful_call_leaves_the_nonce (sender origin target : H160) (input : bytes) (value gas_limit limit : Z)
    (s s' : St) r :
  runner_call cfg config sender origin target input value gas_limit limit s = (r, s') ->
  call_ok r = false -> s' = s \/ s' = inc_nonce sender s.
Proof.
  intros Hrun Hr. unfold runner_call in Hrun. unfold bind at 1 in Hrun. simpl in Hrun. unfold ensure in Hrun.
  destruct (can_call_contract target sender s); [|injection Hrun as _ <-; by left].
  unfold bind in Hrun. simpl in Hrun.
  destruct (handler_run_transaction _ _ _ _ _ _ _ _) as [r0 w] eqn:Ht.
  right. assert (w = inc_nonce sender s) as ->.
  { eapply (run_transaction_rollback call_ok); [apply call_body_commits|exact Ht|].
    intros x ->. destruct x as [info|e|]; injection Hrun as <- <-; done. }
  destruct r0 as [[info|e|]|e|]; by injection Hrun as _ <-.
Qed.

(** And so does a creation that does not succeed. *)
Theorem unsuccessful_creation_leaves_the_nonce (source : H160) (init : bytes) (value gas_limit limit : Z)
    (assigned : option H160) (salt : option H256) (s s' : St) r :
  inner_create cfg config source init value gas_limit limit assigned salt s = (r, s') ->
  create_ok r = false -> s' = s \/ s' = inc_nonce source s.
Proof.
  intros Hrun Hr. unfold inner_create in Hrun. unfold bind at 1 in Hrun. simpl in Hrun.
  destruct (assign_address _ _ _ _ _ _) as [a|e|]; [|injection Hrun as _ <-; by left..].
  unfold bind in Hrun. simpl in Hrun.
  destruct (handler_run_transaction _ _ _ _ _ _ _ _) as [r0 w] eqn:Ht.
  right. assert (w = inc_nonce source s) as ->.
  { eapply (run_transaction_rollback create_ok); [apply create_body_commits|exact Ht|].
    intros x ->. destruct x as [info|e|]; injection Hrun as <- <-; done. }
  destruct r0 as [[info|e|]|e|]; by injection Hrun as _ <-.
Qed.

(** Setting the code of a contract does not: the account that was read before the new code
    is installed is written back after it. *)
Theorem set_code_keeps_the_account (o : Origin) (c : H160) (code : bytes) (s : St) u s' :
  set_code cfg config o c code s = (Ok u, s') -> accounts s' !! c = accounts s !! c.
Proof.
  intros Hrun. unfold set_code, ensure_root_or_signed, do_set_code in Hrun. run_inv Hrun.
  rewrite lookup_partial_alter_eq. f_equal.
  destruct (is_root cfg o); unfold ensure_signed in *; by repeat match goal with H : _ s = (Ok _, _) |- _ => run_inv H end.
Qed.

End Rollback.
