(* ===== verification/EvmDeposits.v ===== *)
(** * Storage is paid for

    The deposit reserved on the account of a contract covers the bytes that the contract
    stores, whatever code runs: an instance of [ExecutionInvariant] of [EvmExecution] for
    one contract, over the calls that move its deposit or change its storage. *)

From S2P Require Import Prelude Currency EvmMeter Evm EvmRunner EvmExecution.

Section Deposits.
Context {L X AccountId Origin : Type} `{!AddressMapping L AccountId} `{!NativeCurrency L X AccountId}.
Context `{G : Gasometers}.
Context `{!DispatchErrorStr (EvmError + X)} `{!DispatchErrorInto (EvmError + X)}.
Variable cfg : Config X AccountId Origin.

Abbreviation St := (State L AccountId).
Abbreviation Run := (M (State L AccountId) (EvmError + X)).

(** The contract and its account, which no one else uses. *)
Variable a : H160.
Variable A : AccountId.
Hypothesis account_of : forall c l, get_account_id c l = A <-> c = a.

(** The constants of the runtime leave the arithmetic room. *)
Hypothesis deposit_fits : 0 <= storage_deposit_per_byte cfg /\ storage_deposit_per_byte cfg * 2 ^ 32 <= umax 128.
Hypothesis code_fits : 0 <= new_contract_extra_bytes cfg /\ 0 <= max_code_size cfg
                       /\ max_code_size cfg + new_contract_extra_bytes cfg < 2 ^ 31.

Abbreviation d := (storage_deposit_per_byte cfg).
Abbreviation held := (reserved_balance A).

(** What the currency promises about the reserve of one account. *)
Record reserve_laws : Prop := {
  law_transfer from to v l u l' : currency_transfer from to v l = (Ok u, l') -> held l' = held l;
  law_reserve_own v l u l' : reserve A v l = (Ok u, l') -> held l' = held l + v;
  law_reserve who v l u l' : who <> A -> reserve who v l = (Ok u, l') -> held l' = held l;
  law_unreserve who v l r l' : who <> A -> unreserve who v l = (Ok r, l') -> held l' = held l;
  law_repatriate_own to v st l r l' : to <> A -> repatriate_reserved A to v st l = (Ok r, l') -> held l - v <= held l';
  law_repatriate from to v st l r l' :
    from <> A -> to <> A -> repatriate_reserved from to v st l = (Ok r, l') -> held l' = held l;
  law_transfer_all from to l u l' : transfer_all from to l = (Ok u, l') -> held l' = held l;
  law_inc_providers who l : held (inc_providers who l) = held l;
  law_dec_providers who l u l' : dec_providers who l = (Ok u, l') -> held l' = held l;
  law_mapping who l h l' : get_or_create_evm_address who l = (h, l') -> held l' = held l /\ (who <> A -> h <> a);
  law_address who l h : get_evm_address who l = Some h -> who <> A -> h <> a
}.

Hypothesis currency : reserve_laws.

(** What leaves the reserve of the account where it is, or adds to it. *)
Definition leaves {T : Type} (m : M L X T) : Prop := forall l, held l <= held (m l).2.

(** The slots of the contract that are in use. *)
Definition slot (k : H160 * H256) (v : H256) : Z := if (k.1 =? a) && negb (v =? 0) then 1 else 0.

Definition slots (w : St) : Z := map_sum slot (account_storages w).

(** The bytes that its open calls have charged and not yet passed on. *)
Definition pending (fs : list frame) : Z :=
  zsum (fun f => if frame_contract f =? a then frame_used f - frame_refunded f else 0) fs.

(** An open call can charge [N] more bytes. *)
Definition frame_ok (N : Z) (f : frame) : Prop :=
  frame_contract f = a -> 0 <= frame_used f /\ 0 <= frame_refunded f /\ frame_used f + N <= umax 32.

(** The deposit exceeds what the bytes cost by [B]. *)
Record backed (B N : Z) (fs : list frame) (w : St) : Prop := {
  backed_deposit : B <= held (chain w) - d * size_of a w + d * pending fs;
  backed_slots : STORAGE_SIZE * slots w <= size_of a w;
  backed_room : size_of a w + N <= umax 32;
  backed_frames : Forall (frame_ok N) fs
}.

Definition covered (B N : Z) (fs : list frame) (w : St) : Prop := 0 <= N -> backed B N fs w.

Lemma slots_nonneg w : 0 <= slots w.
Proof. apply map_sum_nonneg. intros k v _. unfold slot. by destruct (_ && _). Qed.

Lemma size_nonneg B N fs w : backed B N fs w -> 0 <= size_of a w.
Proof. intros []. pose proof (slots_nonneg w). unfold STORAGE_SIZE in *. lia. Qed.

Lemma frame_ok_spend N n f : 0 <= n -> frame_ok (N + n) f -> frame_ok N f.
Proof. unfold frame_ok. intros Hn Hf Ha. specialize (Hf Ha). lia. Qed.

Lemma backed_same B N fs w w' :
  held (chain w) <= held (chain w') -> contract_storage_sizes w' = contract_storage_sizes w ->
  account_storages w' = account_storages w -> backed B N fs w -> backed B N fs w'.
Proof.
  intros Hh Hs Ha []. assert (size_of a w' = size_of a w) as Hsz by (unfold size_of; by rewrite Hs).
  assert (slots w' = slots w) as Hsl by (unfold slots; by rewrite Ha).
  split; rewrite ?Hsz, ?Hsl; try done. lia.
Qed.

Lemma covered_same B N fs w w' :
  held (chain w) <= held (chain w') -> contract_storage_sizes w' = contract_storage_sizes w ->
  account_storages w' = account_storages w -> covered B N fs w -> covered B N fs w'.
Proof. intros Hh Hs Ha HN HN0. eapply backed_same; [..|by apply HN]; done. Qed.

(** The rest of the chain, and the accounts that it kills. *)
Lemma on_chain_fields {T : Type} (m : M L X T) (s : St) r s' : on_chain m s = (r, s') ->
  chain s' = (m (chain s)).2 /\ contract_storage_sizes s' = contract_storage_sizes s
  /\ account_storages s' = account_storages s
  /\ forall x, r = Ok x -> m (chain s) = (Ok x, (m (chain s)).2).
Proof.
  unfold on_chain. destruct (m (chain s)) as [r0 l] eqn:Hm. simpl.
  assert (forall (w : St) h, contract_storage_sizes (deref_code h w) = contract_storage_sizes w
            /\ account_storages (deref_code h w) = account_storages w /\ chain (deref_code h w) = chain w) as Hd.
  { intros w h. unfold deref_code. destruct (code_infos w !! h); [by destruct (_ =? _)|done]. }
  assert (forall (w : St) b, contract_storage_sizes (remove_account b w) = contract_storage_sizes w
            /\ account_storages (remove_account b w) = account_storages w /\ chain (remove_account b w) = chain w) as Hrem.
  { intros w b. unfold remove_account. destruct (contract_at b w); simpl; [apply Hd|done]. }
  assert (forall ws, let w := fold_left (on_killed_account (chain s)) ws (set_chain l s) in
            chain w = l /\ contract_storage_sizes w = contract_storage_sizes s /\ account_storages w = account_storages s) as Hf.
  { intros ws. apply (fold_left_inv (fun w : St => chain w = l /\ contract_storage_sizes w = contract_storage_sizes s
                                          /\ account_storages w = account_storages s)); [|done].
    intros w who (H1 & H2 & H3). unfold on_killed_account.
    destruct (get_evm_address who (chain s)) as [b|];
      rewrite !(proj1 (Hrem _ _)), !(proj1 (proj2 (Hrem _ _))), !(proj2 (proj2 (Hrem _ _))); done. }
  destruct (Hf (reaped (chain s) l)) as (H1 & H2 & H3).
  intros [= <- <-]. split_and!; try done. intros x. by destruct r0; intros [= ->].
Qed.

Lemma covered_on_chain B N fs {T : Type} (m : M L X T) (s : St) x s' :
  on_chain m s = (Ok x, s') -> (forall l l', m l = (Ok x, l') -> held l <= held l') -> covered B N fs s -> covered B N fs s'.
Proof.
  intros Hrun Hm. destruct (on_chain_fields m s _ s' Hrun) as (Hc & Hs & Ha & Hok).
  apply covered_same; [|done..]. rewrite Hc. by apply Hm, Hok.
Qed.

Lemma covered_spend B N n fs s : 0 <= n -> covered B (N + n) fs s -> covered B N fs s.
Proof.
  intros Hn HN HN0. destruct (HN ltac:(lia)). split; try done; [lia|].
  eapply Forall_impl; [done|]. intros f. by apply frame_ok_spend.
Qed.

Lemma covered_outside B N fs {T : Type} (m : M L X T) (s : St) r s' :
  on_chain m s = (r, s') -> leaves m -> covered B N fs s -> covered B N fs s'.
Proof.
  intros Hrun Hm. destruct (on_chain_fields m s _ s' Hrun) as (Hc & Hs & Ha & _).
  apply covered_same; [|done..]. rewrite Hc. apply Hm.
Qed.

(** What keeps the deposit with no call open keeps it within calls. *)
Lemma covered_within_calls N n fs w w' :
  0 <= n -> (forall B, covered B (N + n) [] w -> covered B N [] w') -> forall B, covered B (N + n) fs w -> covered B N fs w'.
Proof.
  intros Hn Hw B HB HN. destruct (HB ltac:(lia)) as [Hd Hs Hr Hf].
  destruct (Hw (B - d * pending fs)) as [Hd' Hs' Hr' _]; [|done|].
  - intros _. split; try done. unfold pending at 2. simpl. lia.
  - split; try done; [unfold pending at 2 in Hd'; simpl in Hd'; lia|].
    eapply Forall_impl; [exact Hf|]. intros f. by apply frame_ok_spend.
Qed.

(** ** The steps of the code *)

Lemma pending_cons f fs : pending (f :: fs) = (if frame_contract f =? a then frame_used f - frame_refunded f else 0) + pending fs.
Proof. done. Qed.

Lemma size_update c z (w : St) :
  (if c =? a then 0 <= size_of a w + z <= umax 32 else True) -> 0 <= size_of a w ->
  size_of a (update_contract_storage_size c z w) = size_of a w + (if c =? a then z else 0).
Proof.
  unfold update_contract_storage_size. intros Hz Hs. destruct (Z.eqb_spec z 0) as [->|Hne]; [destruct (c =? a); lia|].
  destruct (Z.eqb_spec c a) as [->|Hc].
  - destruct (Z.ltb_spec 0 z); unfold size_of at 1; simpl; rewrite lookup_insert_eq; simpl;
      [apply sat_add_exact; lia|unfold sat_sub; lia].
  - destruct (0 <? z); unfold size_of; simpl; rewrite lookup_insert_ne by done; lia.
Qed.

Lemma size_update_rest c z (w : St) : slots (update_contract_storage_size c z w) = slots w
  /\ chain (update_contract_storage_size c z w) = chain w.
Proof. unfold update_contract_storage_size. destruct (z =? 0); [done|]. by destruct (0 <? z). Qed.

(** What a write of a slot changes. *)
Lemma write_slots c i v (w : St) change w' : write_storage c i v w = (change, w') ->
  chain w' = chain w /\ contract_storage_sizes w' = contract_storage_sizes w /\
  slots w' = slots w + (if c =? a then match change with NoChange => 0 | Added => 1 | Removed => -1 end else 0).
Proof.
  assert (map_at slot (account_storages w) (c, i) = if (c =? a) && negb (storage_at c i w =? 0) then 1 else 0) as Hat.
  { unfold map_at, storage_at. destruct (account_storages w !! (c, i)) as [x|]; simpl; [done|].
    by destruct (c =? a). }
  unfold write_storage. destruct (Z.eqb_spec v 0) as [->|Hv]; intros [= <- <-]; (split; [done|]); (split; [done|]);
    unfold slots in *; simpl.
  - rewrite map_sum_delete_at, Hat. destruct (storage_at c i w =? 0), (c =? a); simpl; lia.
  - rewrite map_sum_insert, Hat. unfold slot at 2. simpl. apply Z.eqb_neq in Hv. rewrite Hv.
    destruct (storage_at c i w =? 0), (c =? a); simpl; lia.
Qed.

(** Other contracts are no concern. *)
Lemma backed_other B N N' c u r u' r' fs (w w' : St) :
  c <> a -> 0 <= N -> 0 <= N' -> backed B (N + N') (MkFrame c u r :: fs) w ->
  held (chain w) <= held (chain w') -> size_of a w' = size_of a w -> slots w' = slots w ->
  backed B N (MkFrame c u' r' :: fs) w'.
Proof.
  intros Hc HN HN' [Hd Hsl Hr Hfs] Hh Hs Hsl'. apply Forall_cons in Hfs as [_ Hfs].
  rewrite pending_cons in Hd. simpl in Hd. apply Z.eqb_neq in Hc as Hb. rewrite Hb in Hd.
  split; rewrite ?Hs, ?Hsl', ?pending_cons; simpl; rewrite ?Hb; try lia.
  constructor; [by intros ?|]. eapply Forall_impl; [exact Hfs|]. intros f. by apply frame_ok_spend.
Qed.

Lemma write_backed B N c u r fs i v (w : St) change w' : 0 <= N ->
  write_storage c i v w = (change, w') -> backed B (N + STORAGE_SIZE) (MkFrame c u r :: fs) w ->
  match change with
  | NoChange => backed B N (MkFrame c u r :: fs) w'
  | Added => backed B N (MkFrame c (sat_add 32 u STORAGE_SIZE) r :: fs) (update_contract_storage_size c STORAGE_SIZE w')
  | Removed => backed B N (MkFrame c u (sat_add 32 r STORAGE_SIZE) :: fs) (update_contract_storage_size c (- STORAGE_SIZE) w')
  end.
Proof.
  intros HN Hw Hb. destruct (write_slots _ _ _ _ _ _ Hw) as (Hc & Hs & Hn). unfold STORAGE_SIZE in *.
  assert (size_of a w' = size_of a w) as Hsz by (unfold size_of; by rewrite Hs).
  pose proof (size_nonneg _ _ _ _ Hb) as Hs0.
  destruct (size_update_rest c 64 w') as [Hst1 Hch1]. destruct (size_update_rest c (Z.opp 64) w') as [Hst2 Hch2].
  destruct (Z.eqb_spec c a) as [->|Hne].
  2:{ apply Z.eqb_neq in Hne as Hb'. rewrite Z.add_0_r in Hn.
      destruct change; (eapply (backed_other B N 64); [done..|exact Hb| | |]);
        rewrite ?Hch1, ?Hch2, ?Hc, ?Hst1, ?Hst2, ?size_update by (rewrite ?Hb'; lia || done); rewrite ?Hb'; lia. }
  destruct Hb as [Hd Hsl Hroom Hfs]. apply Forall_cons in Hfs as [Hf Hfs]. destruct (Hf eq_refl) as (? & ? & ?). simpl in *.
  rewrite pending_cons in Hd. simpl in Hd. rewrite Z.eqb_refl in Hd. unfold STORAGE_SIZE in *.
  pose proof (slots_nonneg w). pose proof (slots_nonneg w').
  assert (Forall (frame_ok N) fs) as Hfs' by (eapply Forall_impl; [exact Hfs|]; intros f; by apply frame_ok_spend).
  assert (0 <= sat_add 32 r 64 <= r + 64) as Hsat by (unfold sat_add; pose proof (umax_nonneg 32); lia).
  assert (0 <= d * (r + 64 - sat_add 32 r 64)) by (apply Z.mul_nonneg_nonneg; lia).
  destruct change; rewrite ?(sat_add_exact 32 u 64) by lia;
    (split; rewrite ?Hch1, ?Hch2, ?Hc, ?Hst1, ?Hst2, ?pending_cons, ?size_update by (rewrite ?Z.eqb_refl, ?Hsz; lia);
      simpl; unfold STORAGE_SIZE; rewrite ?Z.eqb_refl, ?Hc, ?Hsz; try lia);
    (constructor; [intros _; simpl; lia|done]).
Qed.

(** A contract that is removed has no slots and no size left; its bytes are refunded. *)
Lemma remove_contract_fields c t (w : St) size w' : remove_contract c t w = (Ok size, w') ->
  held (chain w') = held (chain w) /\ contract_storage_sizes w' = delete c (contract_storage_sizes w)
  /\ account_storages w' = filter (fun kv => kv.1.1 <> c) (account_storages w) /\ size = size_of c w.
Proof.
  intros Hrun. unfold remove_contract in Hrun. run_inv Hrun. rename x1 into u1, x2 into w1.
  destruct (on_chain_fields _ _ _ _ R) as (Hc & Hs & Ha & Hok). pose proof (law_transfer_all currency _ _ _ _ _ (Hok _ eq_refl)) as Ht.
  destruct (on_chain_fields _ _ _ _ R2) as (Hc2 & Hs2 & Ha2 & Hok2). pose proof (law_dec_providers currency _ _ _ _ (Hok2 _ eq_refl)) as Hd.
  assert (forall h, contract_storage_sizes (deref_code h w1) = contract_storage_sizes w1 /\ account_storages (deref_code h w1) = account_storages w1
    /\ chain (deref_code h w1) = chain w1) as Hde.
  { intros h. unfold deref_code. destruct (code_infos w1 !! h); [by destruct (_ =? _)|done]. }
  destruct (Hde (code_hash x0)) as (H1 & H2 & H3). simpl in *. unfold size_of in *. simpl in *.
  rewrite Hc2, Hd, H3, Hc, Hs2, Ha2, H1, H2, Hs, Ha. done.
Qed.

Lemma delete_backed B N c u r fs t (w : St) size w' :
  0 <= N -> remove_contract c t w = (Ok size, w') -> backed B N (MkFrame c u r :: fs) w ->
  backed B N (MkFrame c u (sat_add 32 r size) :: fs) w'.
Proof.
  intros HN Hrun Hb. pose proof (size_nonneg _ _ _ _ Hb) as Hs0. destruct Hb as [Hd Hsl Hroom Hfs].
  destruct (remove_contract_fields _ _ _ _ _ Hrun) as (Hh & Hs & Ha & ->).
  assert (size_of a w' = if c =? a then 0 else size_of a w) as Hsz.
  { unfold size_of. rewrite Hs. destruct (Z.eqb_spec c a) as [->|]; [by rewrite lookup_delete_eq|by rewrite lookup_delete_ne]. }
  assert (slots w' = if c =? a then 0 else slots w) as Hsl'.
  { assert (slots w' = slots w - map_sum (fun k v => if bool_decide (k.1 = c) then slot k v else 0) (account_storages w)) as ->.
    { unfold slots. rewrite Ha, <- (map_sum_filter (fun k : H160 * H256 => k.1 = c) slot). by f_equal. }
    destruct (Z.eqb_spec c a) as [->|Hne].
    - rewrite (map_sum_ext _ slot); [unfold slots; lia|].
      intros k v _. unfold slot. case_bool_decide; [done|]. by rewrite (proj2 (Z.eqb_neq _ _)).
    - rewrite (map_sum_ext _ (fun _ _ => 0)); [rewrite map_sum_zero; lia|].
      intros k v _. unfold slot. case_bool_decide as Hk; [|done]. by rewrite Hk, (proj2 (Z.eqb_neq _ _)). }
  destruct (Z.eqb_spec c a) as [->|Hne].
  2:{ eapply (backed_other B N 0); [done|done|done|rewrite Z.add_0_r; by split|lia|done|done]. }
  apply Forall_cons in Hfs as [Hf Hfs]. destruct (Hf eq_refl) as (? & ? & ?). simpl in *.
  rewrite pending_cons in Hd. simpl in Hd. rewrite Z.eqb_refl in Hd.
  assert (0 <= sat_add 32 r (size_of a w) <= r + size_of a w) as Hsat by (unfold sat_add; pose proof (umax_nonneg 32); lia).
  assert (0 <= d * (r + size_of a w - sat_add 32 r (size_of a w))) by (apply Z.mul_nonneg_nonneg; lia).
  split; rewrite ?Hsz, ?Hsl', ?Hh, ?pending_cons; simpl; rewrite ?Z.eqb_refl; try lia.
  constructor; [intros _; simpl; lia|done].
Qed.

(** The bytes of a new contract. *)
Definition code_bytes (out : bytes) : Z := sat_add 32 (wrap 32 (Z.of_nat (length out))) (new_contract_extra_bytes cfg).

Definition largest_code : Z := max_code_size cfg + new_contract_extra_bytes cfg.

Lemma code_bytes_range out : Z.of_nat (length out) <= max_code_size cfg ->
  0 <= code_bytes out <= largest_code /\ to_signed 32 (code_bytes out) = code_bytes out.
Proof.
  intros Hlen. destruct code_fits as (He & Hm & Hfit). unfold code_bytes, largest_code.
  rewrite wrap_exact by (unfold in_uint, umax; lia). rewrite sat_add_exact by (unfold umax; lia).
  split; [lia|]. unfold to_signed. rewrite wrap_exact by (unfold in_uint, umax; lia).
  destruct (Z.ltb_spec (Z.of_nat (length out) + new_contract_extra_bytes cfg) (2 ^ (32 - 1))); [done|].
  change (2 ^ (32 - 1)) with (2 ^ 31) in *. lia.
Qed.

Lemma initialization_fields c o out (w w' : St) : on_contract_initialization cfg c o out w = (Ok tt, w') ->
  Z.of_nat (length out) <= max_code_size cfg /\ held (chain w') = held (chain w) /\ slots w' = slots w
  /\ size_of a w' = size_of a (update_contract_storage_size c (to_signed 32 (code_bytes out)) w).
Proof.
  intros Hrun. unfold on_contract_initialization in Hrun. run_inv Hrun. bool_inv.
  change (sat_add 32 (wrap 32 (Z.of_nat (length out))) (new_contract_extra_bytes cfg)) with (code_bytes out).
  destruct (size_update_rest c (to_signed 32 (code_bytes out)) w) as [Hsl Hch].
  set (w1 := update_contract_storage_size _ _ _) in *.
  assert (forall h code (v : St), chain (ref_code h code v) = chain v /\ contract_storage_sizes (ref_code h code v) = contract_storage_sizes v
    /\ account_storages (ref_code h code v) = account_storages v) as Hr.
  { intros h code v. unfold ref_code. by destruct (code_infos v !! h). }
  destruct (Hr (keccak cfg out) out w1) as (H1 & H2 & H3).
  split_and!; [done|..].
  - simpl. rewrite (law_inc_providers currency), H1, Hch. done.
  - unfold slots in *. simpl. by rewrite H3.
  - unfold size_of. simpl. by rewrite H2.
Qed.

Lemma create_backed B N c u r fs o out (w w' : St) : 0 <= N ->
  on_contract_initialization cfg c o out w = (Ok tt, w') -> backed B (N + largest_code) (MkFrame c u r :: fs) w ->
  backed B N (MkFrame c (sat_add 32 u (code_bytes out)) r :: fs) w'.
Proof.
  intros HN Hrun Hb. destruct (initialization_fields _ _ _ _ _ Hrun) as (Hlen & Hh & Hsl & Hsz).
  destruct (code_bytes_range out Hlen) as [Hcb Hts]. rewrite Hts in Hsz.
  pose proof (size_nonneg _ _ _ _ Hb) as Hs0. pose proof (backed_room _ _ _ _ Hb) as Hroom.
  rewrite size_update in Hsz by (destruct (c =? a); lia).
  destruct (Z.eqb_spec c a) as [->|Hne].
  2:{ eapply (backed_other B N largest_code); [done|done|lia|done|lia|lia|done]. }
  destruct Hb as [Hd Hsl0 _ Hfs]. apply Forall_cons in Hfs as [Hf Hfs]. destruct (Hf eq_refl) as (? & ? & ?). simpl in *.
  rewrite pending_cons in Hd. simpl in Hd. rewrite Z.eqb_refl in Hd.
  rewrite sat_add_exact by lia.
  split; rewrite ?Hh, ?Hsl, ?Hsz, ?pending_cons; simpl; rewrite ?Z.eqb_refl; try lia.
  constructor; [intros _; simpl; lia|]. eapply Forall_impl; [exact Hfs|]. intros f. apply frame_ok_spend. lia.
Qed.

(** What the precompiled contracts of an interpreter are to keep, each for [wp] bytes. *)
Definition precompiles_covered (wp : Z) (J : Interpreter L AccountId) : Prop :=
  0 <= wp /\ forall b input gas c (w : St) r w' B N,
    precompiles_execute b input gas c w = (r, w') -> covered B (N + wp) [] w -> covered B N [] w'.

(** ** Deposits *)

Section Origin.
Variable o : H160.
Hypothesis outsider : o <> a.

Lemma origin_account l : get_account_id o l <> A.
Proof. by rewrite account_of. Qed.

Lemma reserve_covered B N fs limit s s' :
  impl_reserve_storage cfg o limit s = (Ok tt, s') -> covered B N fs s -> covered B N fs s'.
Proof.
  unfold impl_reserve_storage. destruct (limit =? 0); intros Hrun; run_inv Hrun; [done|].
  eapply covered_on_chain; [done|]. intros l l' Hl. rewrite (law_reserve currency _ _ _ _ _ (origin_account _) Hl). lia.
Qed.

Lemma unreserve_covered B N fs limit u r s s' :
  impl_unreserve_storage cfg o limit u r s = (Ok tt, s') -> covered B N fs s -> covered B N fs s'.
Proof.
  unfold impl_unreserve_storage. destruct (_ =? 0); intros Hrun; run_inv Hrun; [done|].
  eapply covered_on_chain; [done|]. intros l l' Hl. rewrite (law_unreserve currency _ _ _ _ _ (origin_account _) Hl). lia.
Qed.

(** The bytes that a call passes on are paid into, or out of, the deposit of its contract. *)
Lemma charge_held c u r s s' :
  impl_charge_storage cfg o c u r s = (Ok tt, s') -> (c = a -> 0 <= u <= umax 32 /\ 0 <= r) ->
  held (chain s) + (if c =? a then d * (u - r) else 0) <= held (chain s')
  /\ contract_storage_sizes s' = contract_storage_sizes s /\ account_storages s' = account_storages s.
Proof.
  intros Hrun Hur. unfold impl_charge_storage in Hrun.
  destruct (Z.eqb_spec u r) as [->|Hne]; [run_inv Hrun; destruct (c =? a); split; (lia || done)|].
  destruct deposit_fits as [Hd0 Hd].
  destruct (Z.ltb_spec r u); run_inv Hrun.
  - destruct (on_chain_fields _ _ _ _ R) as (H1 & S1 & A1 & O1). specialize (O1 _ eq_refl).
    apply (law_unreserve currency) in O1; [|by rewrite account_of].
    destruct (on_chain_fields _ _ _ _ R0) as (H2 & S2 & A2 & O2). specialize (O2 _ eq_refl).
    apply (law_transfer currency) in O2.
    destruct (on_chain_fields _ _ _ _ Hrun) as (H3 & S3 & A3 & O3). specialize (O3 _ eq_refl).
    split; [|by rewrite S3, S2, S1, A3, A2, A1]. rewrite <- H1 in O1. rewrite <- H2 in O2. rewrite H3.
    destruct (Z.eqb_spec c a) as [->|Hc].
    + destruct (Hur eq_refl) as [Hu Hr]. rewrite (proj2 (account_of a _) eq_refl) in *.
      apply (law_reserve_own currency) in O3. rewrite O3, O2, O1. unfold deposit_for.
      rewrite sat_mul_exact; [lia|]. etransitivity; [apply Z.mul_le_mono_nonneg_l|exact Hd]; unfold umax in *; lia.
    + apply (law_reserve currency) in O3; [|by rewrite account_of]. lia.
  - destruct (on_chain_fields _ _ _ _ R) as (H1 & S1 & A1 & O1). specialize (O1 _ eq_refl).
    split; [|done]. rewrite H1. destruct (Z.eqb_spec c a) as [->|Hc].
    + rewrite (proj2 (account_of a _) eq_refl) in *. apply (law_repatriate_own currency) in O1; [|by rewrite account_of].
      pose proof (sat_mul_le 128 d (r - u)). unfold deposit_for in *. lia.
    + apply (law_repatriate currency) in O1; [lia|by rewrite account_of..].
Qed.

Lemma charge_backed B N c u r fs s s' : 0 <= N ->
  impl_charge_storage cfg o c u r s = (Ok tt, s') -> backed B N (MkFrame c u r :: fs) s -> backed B N fs s'.
Proof.
  intros HN Hrun [Hd Hsl Hroom Hfs]. apply Forall_cons in Hfs as [Hf Hfs].
  destruct (charge_held _ _ _ _ _ Hrun) as (Hh & Hs & Ha).
  { intros ->. destruct (Hf eq_refl) as (? & ? & ?). simpl in *. lia. }
  rewrite pending_cons in Hd. simpl in Hd.
  assert (size_of a s' = size_of a s) as Hsz by (unfold size_of; by rewrite Hs).
  assert (slots s' = slots s) as Hsl' by (unfold slots; by rewrite Ha).
  split; rewrite ?Hsz, ?Hsl'; try done. destruct (c =? a); lia.
Qed.

(** ** Code that runs for the origin *)

Section Run.
Context `{!Interpreter L AccountId}.
Variable wp : Z.

(** The precompiled contracts keep it too, at a cost. *)
Hypothesis precompiles : precompiles_covered wp _.

#[local] Instance covered_invariant B : ExecutionInvariant cfg false o STORAGE_SIZE largest_code wp (covered B).
Proof.
  destruct precompiles as [Hwp Hpre]. split.
  - unfold STORAGE_SIZE, largest_code. lia.
  - intros N n fs w. apply covered_spend.
  - intros N c fs w HN HN0. destruct (HN HN0) as [Hd Hs Hr Hf]. split; [|done..|].
    + rewrite pending_cons. simpl. destruct (c =? a); lia.
    + constructor; [|done]. intros _. simpl. pose proof (size_nonneg _ _ _ _ (HN HN0)). lia.
  - intros N fs e w. by apply covered_same.
  - intros N fs b w _. by apply covered_same.
  - intros N fs from to amount w w' _ Hrun. eapply covered_on_chain; [exact Hrun|]. intros l l' Hl.
    rewrite (law_transfer currency _ _ _ _ _ _ Hl). done.
  - intros N fs b input gas c w r w' Hp. apply (covered_within_calls N wp); [done|]. intros B'. by apply (Hpre b input gas c w r).
  - intros N c u r fs i x w change w' _ Hw HN.
    assert (0 <= N -> backed B (N + STORAGE_SIZE) (MkFrame c u r :: fs) w) as HN'.
    { intros HN0. apply HN. unfold STORAGE_SIZE. lia. }
    destruct change; intros HN0; by eapply (write_backed B N c u r fs i x w _ w' HN0 Hw (HN' HN0)).
  - intros N c u r fs t w size w' _ Hrun HN HN0. by eapply delete_backed; [| |by apply HN].
  - intros N c u r fs out w w' _ Hrun HN HN0. eapply create_backed; [done|done|]. apply HN. unfold largest_code. lia.
  - intros N N0 c u r fs w0 w w' _ Hrun HN HN0. by eapply charge_backed; [| |by apply HN].
Qed.

#[local] Instance covered_transaction B : TransactionInvariant cfg o (covered B).
Proof. split; intros N; [intros limit w w'; apply reserve_covered|intros limit u r w w'; apply unreserve_covered]. Qed.

(** [Runner::call] and [Runner::inner_create]. *)
Abbreviation steadily B N N' m := (@steady L X AccountId (covered B) N N' _ m).

Abbreviation writes_at_most n := (bounded STORAGE_SIZE largest_code _ wp n).

Lemma runner_call_covered B N n sender target input value gas_limit limit config :
  writes_at_most n -> steadily B (N + n) N (runner_call cfg config sender o target input value gas_limit limit).
Proof. intros [Hn Hc]. by apply (runner_call_keeps cfg (o := o) (ws := STORAGE_SIZE) (wc := largest_code) (wp := wp)). Qed.

Lemma inner_create_covered B N n init value gas_limit limit b salt config :
  writes_at_most n -> steadily B (N + (n + largest_code)) N (inner_create cfg config o init value gas_limit limit b salt).
Proof.
  intros [Hn Hc]. rewrite Z.add_assoc.
  by apply (inner_create_keeps cfg (o := o) (ws := STORAGE_SIZE) (wc := largest_code) (wp := wp)).
Qed.

Lemma steadily_bind B N N1 N' {T U : Type} (m : Run T) (k : T -> Run U) :
  N' <= N1 -> steadily B N N1 m -> (forall x, steadily B N1 N' (k x)) -> steadily B N N' (bind m k).
Proof. apply (steady_bind cfg (o := o) (wp := wp)). Qed.

Lemma steadily_atomic B N N' {T : Type} (m : Run T) :
  N' <= N -> (forall s x s', m s = (Ok x, s') -> covered B N [] s -> covered B N' [] s') -> steadily B N N' (transactional m).
Proof. apply (steady_transactional cfg (o := o) (wp := wp)). Qed.

End Run.
End Origin.

(** ** The calls of everyone else *)

Section Calls.
Context `{!Interpreter L AccountId}.
Variable wp : Z.
Hypothesis precompiles : precompiles_covered wp _.

Abbreviation steadily B N N' m := (@steady L X AccountId (covered B) N N' _ m).

(** Gas bounds the bytes that a call writes, whatever the code. *)
Abbreviation writes_at_most n := (bounded STORAGE_SIZE largest_code _ wp n).

Lemma other_address : a + 1 <> a.
Proof. lia. Qed.

Lemma covered_bind B N N1 N' {T U : Type} (m : Run T) (k : T -> Run U) :
  N' <= N1 -> steadily B N N1 m -> (forall x, steadily B N1 N' (k x)) -> steadily B N N' (bind m k).
Proof. exact (steadily_bind (a + 1) other_address wp precompiles B N N1 N' m k). Qed.

Lemma covered_atomic B N N' {T : Type} (m : Run T) :
  N' <= N -> (forall s x s', m s = (Ok x, s') -> covered B N [] s -> covered B N' [] s') -> steadily B N N' (transactional m).
Proof. exact (steadily_atomic (a + 1) other_address wp precompiles B N N' m). Qed.

(** Who signs is not the contract. *)
Definition stranger (o : Origin) : Prop := forall who, signed_by cfg o = Some who -> who <> A.

(** [T::GasToWeight] and [T::ChargeTransactionPayment]. *)
Context {Imbalance : Type} (gas_to_weight : Z -> Z).
Context (unreserve_and_charge_fee : AccountId -> Z -> M L X Imbalance).
Context (refund_fee : AccountId -> Z -> Imbalance -> M L X unit).
Hypothesis fee_leaves : forall who fee, who <> A -> leaves (unreserve_and_charge_fee who fee).
Hypothesis refund_leaves : forall who fee paid, who <> A -> leaves (refund_fee who fee paid).

Inductive stranger_call : Z -> Run unit -> Prop :=
| StrangerCalls n o target input value gas_limit limit : writes_at_most n -> stranger o ->
    stranger_call n (call cfg SETHEUM_CONFIG o target input value gas_limit limit)
| StrangerCreates n o init value gas_limit limit : writes_at_most n -> stranger o ->
    stranger_call (n + largest_code) (create cfg SETHEUM_CONFIG o init value gas_limit limit)
| StrangerCreates2 n o init salt value gas_limit limit : writes_at_most n -> stranger o ->
    stranger_call (n + largest_code) (create2 cfg SETHEUM_CONFIG o init salt value gas_limit limit)
| StrangerCreatesNetwork n o init value gas_limit limit : writes_at_most n -> network_contract_source cfg <> a ->
    stranger_call (n + largest_code) (create_network_contract cfg SETHEUM_CONFIG o init value gas_limit limit)
| StrangerSetsCode n o c code : writes_at_most n -> stranger o -> network_contract_source cfg <> a ->
    stranger_call (n + largest_code) (set_code cfg SETHEUM_CONFIG o c code)
| StrangerScheduled n o from target input value gas_limit limit : writes_at_most n -> from <> a ->
    stranger_call n (scheduled_call cfg gas_to_weight unreserve_and_charge_fee refund_fee o from target input value gas_limit limit)
| StrangerExecutes n context input value gas_limit limit mode : writes_at_most n -> invoke_origin context <> a ->
    stranger_call n (do! evm_execute cfg context input value gas_limit limit mode in ret tt)
| StrangerSelfdestructs o c : stranger o -> stranger_call 0 (selfdestruct cfg o c)
| StrangerDeploys o c : stranger_call 0 (deploy cfg o c)
| StrangerDeploysFree o c : stranger_call 0 (deploy_free cfg o c)
| StrangerTransfersMaintainer o c m : stranger_call 0 (transfer_maintainer cfg o c m)
| StrangerEnablesDevelopment o : stranger o -> stranger_call 0 (enable_contract_development cfg o)
| StrangerDisablesDevelopment o : stranger o -> stranger_call 0 (disable_contract_development cfg o)
| StrangerRestOfChain (m : M L X unit) : leaves m -> stranger_call 0 (on_chain m).

Lemma ensure_signed_covered B N o : steadily B N N (ensure_signed cfg o).
Proof. apply steady_same. intros s r s'. unfold ensure_signed, ok_or. destruct (signed_by cfg o); by intros [= _ <-]. Qed.

Lemma event_covered B N e : steadily B N N (modify (deposit_event e)).
Proof. apply steady_modify. intros s. by apply covered_same. Qed.

(** A signed call that runs code for its signer. *)
Lemma signed_run_covered B N k {T : Type} o (run : H160 -> Run T) (k' : T -> Run unit) :
  0 <= k -> stranger o -> (forall source, source <> a -> steadily B (N + k) N (run source)) ->
  (forall x, steadily B N N (k' x)) ->
  steadily B (N + k) N (let! who := ensure_signed cfg o in let! source := create_mapping who in
                        let! info := run source in k' info).
Proof.
  intros Hk Ho Hrun Hk' s r s' H HN. unfold bind at 1, ensure_signed, ok_or in H.
  destruct (signed_by cfg o) as [who|] eqn:Hwho; simpl in H.
  2:{ injection H as _ <-. by eapply covered_spend. }
  unfold bind at 1, create_mapping in H.
  destruct (get_or_create_evm_address who (chain s)) as [source l] eqn:Hmap.
  destruct (law_mapping currency _ _ _ _ Hmap) as [Hl Hsrc]. specialize (Hsrc (Ho _ Hwho)).
  assert (covered B (N + k) [] (set_chain l s)) as HN1 by (eapply covered_same; [..|exact HN]; [simpl; lia|done|done]).
  eapply (covered_bind B (N + k) N N); [done|by apply Hrun|exact Hk'|exact H|exact HN1].
Qed.

Lemma call_covered B N n o target input value gas_limit limit : writes_at_most n -> stranger o ->
  steadily B (N + n) N (call cfg SETHEUM_CONFIG o target input value gas_limit limit).
Proof.
  intros Hn Ho. unfold call. apply signed_run_covered; [apply Hn|done| |].
  - intros source Hsrc. by apply (runner_call_covered source Hsrc wp precompiles).
  - intros info. apply event_covered.
Qed.

Lemma create_covered B N n o init value gas_limit limit : writes_at_most n -> stranger o ->
  steadily B (N + (n + largest_code)) N (create cfg SETHEUM_CONFIG o init value gas_limit limit).
Proof.
  intros Hn Ho. assert (0 <= n + largest_code) by (destruct Hn; unfold largest_code; lia).
  unfold create, runner_create. apply signed_run_covered; [done|done| |].
  - intros source Hsrc. by apply (inner_create_covered source Hsrc wp precompiles).
  - intros info. apply event_covered.
Qed.

Lemma create2_covered B N n o init salt value gas_limit limit : writes_at_most n -> stranger o ->
  steadily B (N + (n + largest_code)) N (create2 cfg SETHEUM_CONFIG o init salt value gas_limit limit).
Proof.
  intros Hn Ho. assert (0 <= n + largest_code) by (destruct Hn; unfold largest_code; lia).
  unfold create2, runner_create2. apply signed_run_covered; [done|done| |].
  - intros source Hsrc. by apply (inner_create_covered source Hsrc wp precompiles).
  - intros info. apply event_covered.
Qed.

Lemma create_network_contract_covered B N n o init value gas_limit limit :
  writes_at_most n -> network_contract_source cfg <> a ->
  steadily B (N + (n + largest_code)) N (create_network_contract cfg SETHEUM_CONFIG o init value gas_limit limit).
Proof.
  intros Hn Hsrc. assert (0 <= n + largest_code) by (destruct Hn; unfold largest_code; lia).
  unfold create_network_contract, create_at_address, ensure_origin.
  eapply covered_bind; [|by apply steady_same; intros s r s'; destruct (is_network_contract_origin _ _); intros [= _ <-]|intros _]; [lia|].
  eapply covered_bind; [|by apply steady_same; intros s r s' [= _ <-]|intros index]; [lia|].
  eapply covered_bind; [|by apply (inner_create_covered _ Hsrc wp precompiles)|intros info]; [lia|].
  eapply covered_bind; [|by apply steady_modify; intros s; apply covered_same|intros _]; [lia|]. apply event_covered.
Qed.

Lemma evm_execute_covered B N n context input value gas_limit limit mode :
  writes_at_most n -> invoke_origin context <> a ->
  steadily B (N + n) N (evm_execute cfg context input value gas_limit limit mode).
Proof.
  intros Hn Ho s r s' Hrun HN. assert (covered B N [] s) as Hs by (eapply covered_spend, HN; apply Hn).
  unfold evm_execute in Hrun. destruct (runner_call _ _ _ _ _ _ _ _ _ s) as [r0 s0] eqn:Hc.
  pose proof (runner_call_covered _ Ho wp precompiles B N n _ _ _ _ _ _ _ Hn _ _ _ Hc HN) as Hs0.
  destruct r0 as [info|e|]; [|by injection Hrun as _ <-..].
  destruct mode; [|by injection Hrun as _ <-..].
  destruct (is_succeed _); injection Hrun as _ <-; [|done]. by eapply covered_same; [..|exact Hs0].
Qed.

Lemma set_code_covered B N n o c code : writes_at_most n -> stranger o -> network_contract_source cfg <> a ->
  steadily B (N + (n + largest_code)) N (set_code cfg SETHEUM_CONFIG o c code).
Proof.
  intros Hn Ho Hsrc. assert (0 <= n + largest_code) by (destruct Hn; unfold largest_code; lia).
  apply covered_atomic; [lia|]. intros s u s' Hrun HN. unfold ensure_root_or_signed, do_set_code in Hrun. run_inv Hrun.
  assert (x0 = s /\ forall who, x = Some who -> who <> A) as [-> Hwho].
  { destruct (is_root cfg o); unfold ensure_signed in R; run_inv R; (split; [done|]); [done|].
    intros who [= <-]. by apply Ho. }
  assert (x6 = s /\ x5 <> a) as [-> Hx5].
  { destruct x as [who|]; run_inv R1; (split; [done|]); [|done].
    eapply (law_address currency); [eassumption|]. by apply Hwho. }
  assert (covered B N [] x8) as HN8.
  { destruct (_ =? _); run_inv R4; [by eapply covered_spend; [|exact HN]|].
    by eapply (inner_create_covered _ Hx5 wp precompiles); [exact Hn|eassumption|exact HN]. }
  by eapply covered_same; [..|exact HN8].
Qed.

(** The calls that run no code. *)
Lemma signed_same o (s : St) who s' : ensure_signed cfg o s = (Ok who, s') -> s' = s /\ signed_by cfg o = Some who.
Proof. unfold ensure_signed. rewrite ok_or_ok. naive_solver. Qed.

(** Removing a contract frees its deposit, which is what its maintainer is then given. *)
Lemma do_selfdestruct_covered B N who m c s u s' : who <> A ->
  do_selfdestruct cfg who m c s = (Ok u, s') -> covered B N [] s -> covered B N [] s'.
Proof.
  intros Hwho Hrun HN HN0. unfold do_selfdestruct in Hrun. run_inv Hrun.
  destruct (HN HN0) as [Hd Hsl Hr Hf]. pose proof (size_nonneg _ _ _ _ (HN HN0)) as Hs0.
  assert (backed B N [MkFrame c 0 0] s) as Hb.
  { split; [rewrite pending_cons; simpl; destruct (c =? a); lia|done|done|]. constructor; [|done]. intros _. simpl. lia. }
  destruct (remove_contract_fields _ _ _ _ _ R) as (Hh & _ & _ & Hsize).
  eapply delete_backed in Hb; [|exact HN0|exact R]. destruct Hb as [Hd' Hsl' Hr' _].
  destruct (on_chain_fields _ _ _ _ R4) as (H3 & S3 & A3 & O3). specialize (O3 _ eq_refl).
  assert (size_of a x6 = size_of a x4) as Hsz by (unfold size_of; by rewrite S3).
  assert (slots x6 = slots x4) as Hslots by (unfold slots; by rewrite A3).
  split; rewrite ?Hsz, ?Hslots; try done. rewrite pending_cons in Hd'. simpl in *. rewrite H3.
  destruct (Z.eqb_spec c a) as [->|Hne].
  - rewrite (proj2 (account_of a _) eq_refl) in *. apply (law_repatriate_own currency) in O3; [|done].
    rewrite sat_add_exact in Hd' by lia. pose proof (sat_mul_le 128 d x3). lia.
  - apply (law_repatriate currency) in O3; [lia|by rewrite account_of|done].
Qed.

Lemma covered_event B N e s : covered B N [] s -> covered B N [] (deposit_event e s).
Proof. by apply covered_same. Qed.

Lemma selfdestruct_covered B N o c : stranger o -> steadily B N N (selfdestruct cfg o c).
Proof.
  intros Ho. apply covered_atomic; [lia|]. intros s u s' Hrun HN. run_inv Hrun.
  destruct (signed_same _ _ _ _ R) as [-> Hwho]. apply covered_event.
  eapply do_selfdestruct_covered; [by apply Ho|eassumption|exact HN].
Qed.

Lemma enable_covered B N o : stranger o -> steadily B N N (enable_contract_development cfg o).
Proof.
  intros Ho. apply covered_atomic; [lia|]. intros s u s' Hrun HN. run_inv Hrun.
  destruct (signed_same _ _ _ _ R) as [-> Hwho]. unfold create_mapping in R0.
  destruct (get_or_create_evm_address x (chain s)) as [h l] eqn:Hmap. injection R0 as <- <-.
  destruct (law_mapping currency _ _ _ _ Hmap) as [Hl _].
  assert (covered B N [] (set_chain l s)) as HN1 by (eapply covered_same; [..|exact HN]; [simpl; lia|done|done]).
  assert (covered B N [] x4) as HN2.
  { eapply covered_on_chain; [exact R1| |exact HN1]. intros l1 l2 Hres.
    rewrite (law_reserve currency _ _ _ _ _ (Ho _ Hwho) Hres). lia. }
  destruct (accounts x4 !! h); run_inv R2; by eapply covered_same; [..|exact HN2].
Qed.

Lemma disable_covered B N o : stranger o -> steadily B N N (disable_contract_development cfg o).
Proof.
  intros Ho. apply covered_atomic; [lia|]. intros s u s' Hrun HN. run_inv Hrun.
  destruct (signed_same _ _ _ _ R) as [-> Hwho]. eapply (covered_same B N [] x6); [done..|].
  eapply covered_on_chain; [exact R0| |by eapply covered_same; [..|exact HN]]. intros l1 l2 Hres.
  rewrite (law_unreserve currency _ _ _ _ _ (Ho _ Hwho) Hres). lia.
Qed.

Lemma mark_deployed_same c m (s : St) u s' : mark_deployed (X := X) c m s = (Ok u, s') ->
  chain s' = chain s /\ contract_storage_sizes s' = contract_storage_sizes s /\ account_storages s' = account_storages s.
Proof.
  unfold mark_deployed. intros Hrun. run_inv Hrun.
  destruct (accounts s !! c) as [i|]; [|by run_inv Hrun]. destruct (contract_info i); [|by run_inv Hrun].
  run_inv Hrun. destruct m; run_inv R; done.
Qed.

Lemma deploy_covered B N o c : steadily B N N (deploy cfg o c).
Proof.
  apply covered_atomic; [lia|]. intros s u s' Hrun HN. run_inv Hrun.
  destruct (signed_same _ _ _ _ R) as [-> Hwho].
  match goal with H : mark_deployed _ _ _ = _ |- _ => destruct (mark_deployed_same _ _ _ _ _ H) as (Hc & Hs & Ha) end.
  apply covered_event, (covered_same B N [] x3); [by rewrite Hc|done|done|].
  eapply covered_on_chain; [exact R0| |exact HN].
  intros l1 l2 Ht. by rewrite (law_transfer currency _ _ _ _ _ _ Ht).
Qed.

Lemma deploy_free_covered B N o c : steadily B N N (deploy_free cfg o c).
Proof.
  apply covered_atomic; [lia|]. intros s u s' Hrun HN. unfold ensure_origin in Hrun. run_inv Hrun.
  match goal with H : mark_deployed _ _ _ = _ |- _ => destruct (mark_deployed_same _ _ _ _ _ H) as (Hc & Hs & Ha) end.
  by apply covered_event, (covered_same B N [] s); [rewrite Hc|..].
Qed.

Lemma transfer_maintainer_covered B N o c m : steadily B N N (transfer_maintainer cfg o c m).
Proof.
  apply covered_atomic; [lia|]. intros s u s' Hrun HN. unfold do_transfer_maintainer in Hrun. run_inv Hrun.
  destruct (signed_same _ _ _ _ R) as [-> Hwho]. by eapply covered_same; [..|exact HN].
Qed.

Lemma ensure_covered B N b e : steadily B N N (ensure b e).
Proof. apply steady_same. intros s r s'. by destruct b; intros [= _ <-]. Qed.

Lemma ret_covered B N {T : Type} (x : T) : steadily B N N (ret x).
Proof. by apply steady_same; intros s r s' [= _ <-]. Qed.

Lemma gets_covered B N N' {T U : Type} (f : St -> T) (k : T -> Run U) :
  (forall s, steadily B N N' (k (f s))) -> steadily B N N' (let! x := gets f in k x).
Proof. intros Hk s r s'. apply (Hk s). Qed.

(** The fee of a scheduled call is taken from, and paid back to, the account it was scheduled
    from. *)
Lemma charge_scheduled_covered B N who gas_limit : who <> A ->
  steadily B N N (charge_scheduled gas_to_weight unreserve_and_charge_fee who gas_limit).
Proof.
  intros Hwho. unfold charge_scheduled. apply (covered_bind B N N N); [lia|apply steady_try_run|intros paid].
  - intros s r s' Hrun. eapply covered_outside; [exact Hrun|by apply fee_leaves].
  - apply steady_same. intros s r s'. by destruct paid; intros [= _ <-].
Qed.

Lemma scheduled_call_covered B N n o from target input value gas_limit limit : writes_at_most n -> from <> a ->
  steadily B (N + n) N
    (scheduled_call cfg gas_to_weight unreserve_and_charge_fee refund_fee o from target input value gas_limit limit).
Proof.
  intros Hn Hfrom. assert (0 <= n) by apply Hn. unfold scheduled_call, ensure_origin.
  apply covered_atomic; [lia|]. intros s0 x0 s0'.
  apply (covered_bind B (N + n) (N + n) N); [lia|apply ensure_covered|intros _].
  apply gets_covered. intros s. assert (get_account_id from (chain s) <> A) as Hwho by (by rewrite account_of).
  apply (covered_bind B (N + n) (N + n) N); [lia| |intros paid].
  { destruct (ethereum_compatibility cfg); [by apply ret_covered|].
    apply (covered_bind B (N + n) (N + n) (N + n)); [lia|by apply charge_scheduled_covered|intros imbalance; by apply ret_covered]. }
  apply (covered_bind B (N + n) N N); [lia|by apply (runner_call_covered from Hfrom wp precompiles)|intros info].
  apply (covered_bind B N N N); [lia|apply event_covered|intros _].
  destruct paid as [imbalance|]; [|by apply ret_covered]. cbv zeta. destruct (_ =? 0); [by apply ret_covered|].
  apply (covered_bind B N N N); [lia|apply steady_try_run|intros ?; by apply ret_covered].
  intros s1 r s1' Hrun. eapply covered_outside; [exact Hrun|by apply refund_leaves].
Qed.

Lemma stranger_call_covered B N k m : stranger_call k m -> steadily B (N + k) N m.
Proof.
  intros Hm. destruct Hm; rewrite ?Z.add_0_r.
  - by apply call_covered.
  - by apply create_covered.
  - by apply create2_covered.
  - by apply create_network_contract_covered.
  - by apply set_code_covered.
  - by apply scheduled_call_covered.
  - eapply covered_bind; [|by apply evm_execute_covered|]; [lia|]. intros ?.
    apply steady_same. by intros ? ? ? [= _ <-].
  - by apply selfdestruct_covered.
  - apply deploy_covered.
  - apply deploy_free_covered.
  - apply transfer_maintainer_covered.
  - by apply enable_covered.
  - by apply disable_covered.
  - intros s r s' Hrun. by eapply covered_outside.
Qed.

End Calls.

(** The precompiled contracts, layer by layer. *)
Lemma layered_covered wp J : layered cfg STORAGE_SIZE largest_code leaves (fun o => o <> a) wp J -> precompiles_covered wp J.
Proof.
  intros HJ. destruct (layered_keep cfg STORAGE_SIZE largest_code leaves (fun o => o <> a) (fun B N => covered B N [])
    ltac:(intros B N n w; apply covered_spend)) with (wp := wp) (J := J) as [Hwp Hp]; [..|done|].
  - intros m B N w Hm. by eapply covered_outside; [apply surjective_pairing|].
  - intros who c new B N w. destruct (do_transfer_maintainer who c new w) as [r w'] eqn:Hrun.
    destruct (do_transfer_maintainer_spec _ _ _ _ _ _ Hrun) as [->|(i & ci & ci' & _ & _ & _ & ->)]; [done|].
    by apply covered_same.
  - clear - account_of deposit_fits code_fits currency. intros wp J Hwp Hp n context input value gas_limit limit mode B N w Hn Ho HN.
    eapply (evm_execute_covered wp (conj Hwp Hp)); [exact Hn|exact Ho|apply surjective_pairing|exact HN].
  - split; [done|]. exact Hp.
Qed.

(** What the deposit of the contract leaves above the price of its bytes. *)
Definition surplus (s : St) : Z := held (chain s) - d * size_of a s.

(** The size that the pallet keeps for the contract counts its slots, and [N] more bytes
    fit in it. *)
Definition sized (N : Z) (s : St) : Prop := STORAGE_SIZE * slots s <= size_of a s /\ size_of a s + N <= umax 32.

(** C3: the bytes that a contract stores are paid for, whatever happens: no call that
    someone else signs or schedules, whatever it runs, creates, reverts or destroys, and
    whether it succeeds or not, takes from the deposit of the contract without freeing as
    many of its bytes, or lets it store bytes without adding their price to the deposit.
    The size that the price is computed from goes on covering the slots in use.

    The account of the contract is its own: no one else signs for it, and its reserve is
    the deposit for its bytes. So the other pallets, between calls and behind precompiled
    contracts ([layered]), are not to release it ([leaves]; the scheduling of calls does
    for the account that scheduled them), and run code for others when they run code. *)
Theorem storage_stays_paid_for `{!Interpreter L AccountId} {Imbalance : Type} (gas_to_weight : Z -> Z)
    (unreserve_and_charge_fee : AccountId -> Z -> M L X Imbalance) (refund_fee : AccountId -> Z -> Imbalance -> M L X unit)
    (wp n N : Z) (m : Run unit) (s : St) r s' :
  layered cfg STORAGE_SIZE largest_code leaves (fun o => o <> a) wp _ ->
  (forall who fee, who <> A -> leaves (unreserve_and_charge_fee who fee)) ->
  (forall who fee paid, who <> A -> leaves (refund_fee who fee paid)) ->
  stranger_call wp gas_to_weight unreserve_and_charge_fee refund_fee n m ->
  0 <= N -> 0 <= n -> sized (N + n) s -> m s = (r, s') ->
  surplus s <= surplus s' /\ sized N s'.
Proof.
  intros Hl Hf1 Hf2 Hm HN Hn [Hsl Hroom] Hrun.
  assert (covered (surplus s) (N + n) [] s) as HN0.
  { intros _. split; [|done|done|done]. unfold surplus, pending. simpl. lia. }
  destruct (stranger_call_covered wp (layered_covered wp _ Hl) gas_to_weight _ _ Hf1 Hf2 (surplus s) N n m Hm s r s' Hrun HN0 HN)
    as [Hd Hsl' Hr' _].
  split; [|done]. unfold surplus at 2. unfold pending in Hd. simpl in Hd. lia.
Qed.

End Deposits.
