(* ===== verification/EvmExamples.v ===== *)
(** * Contracts on a concrete chain

    A ledger with reserves, a small interpreter and the runtime's constants in small:
    the hypotheses of [EvmMeter], [EvmSafety] and [EvmDeposits] hold there, and runs show
    what their theorems do not cover. *)

From Stdlib Require Import String.
From S2P Require Import Prelude Currency EvmMeter Evm EvmRunner EvmExecution EvmSafety EvmDeposits.

(** ** The ledger *)

Record ledger : Type := MkLedger {
  free : gmap Z Z;
  held : gmap Z Z
}.

Definition at_key (m : gmap Z Z) (k : Z) : Z := default 0 (m !! k).

Definition move (from to v : Z) (m : gmap Z Z) : gmap Z Z :=
  let m := <[from := at_key m from - v]> m in <[to := at_key m to + v]> m.

Definition ledger_transfer (from to v : Z) : M ledger string unit := fun l =>
  if v <=? at_key (free l) from then (Ok tt, MkLedger (move from to v (free l)) (held l))
  else (Err "InsufficientBalance"%string, l).

Definition ledger_reserve (who v : Z) : M ledger string unit := fun l =>
  if v <=? at_key (free l) who
  then (Ok tt, MkLedger (<[who := at_key (free l) who - v]> (free l)) (<[who := at_key (held l) who + v]> (held l)))
  else (Err "InsufficientBalance"%string, l).

Definition ledger_unreserve (who v : Z) : M ledger string Z := fun l =>
  let x := Z.min v (at_key (held l) who) in
  (Ok (v - x), MkLedger (<[who := at_key (free l) who + x]> (free l)) (<[who := at_key (held l) who - x]> (held l))).

Definition ledger_repatriate (from to v : Z) (st : BalanceStatus) : M ledger string Z := fun l =>
  let x := Z.min v (at_key (held l) from) in
  let h := <[from := at_key (held l) from - x]> (held l) in
  (Ok (v - x),
   match st with
   | Free => MkLedger (<[to := at_key (free l) to + x]> (free l)) h
   | Reserved => MkLedger (free l) (<[to := at_key h to + x]> h)
   end).

#[export] Instance ledger_mapping : AddressMapping ledger Z := {|
  get_account_id h _ := h;
  get_evm_address who _ := Some who;
  get_or_create_evm_address who l := (who, l);
  get_default_evm_address who := who
|}.

#[export] Instance ledger_currency : NativeCurrency ledger string Z := {|
  free_balance who l := at_key (free l) who;
  reserved_balance who l := at_key (held l) who;
  currency_transfer := ledger_transfer;
  reserve := ledger_reserve;
  unreserve := ledger_unreserve;
  repatriate_reserved := ledger_repatriate;
  transfer_all from to l := ledger_transfer from to (at_key (free l) from) l;
  inc_providers _ l := l;
  dec_providers _ := ret tt;
  reaped _ _ := []
|}.

Lemma at_key_insert m k v j : at_key (<[k := v]> m) j = if decide (k = j) then v else at_key m j.
Proof.
  unfold at_key. case_decide as Hk; [subst; by rewrite lookup_insert_eq|by rewrite lookup_insert_ne].
Qed.

Lemma ledger_laws (a : Z) : reserve_laws a a.
Proof.
  split; simpl; unfold ledger_transfer, ledger_reserve, ledger_unreserve, ledger_repatriate; intros;
    repeat match goal with
      | H : (if ?b then _ else _) = _ |- _ => destruct b
      | H : (_, _) = (_, _) |- _ => injection H as H; subst
      | H : (let _ := _ in _) = _ |- _ => cbv zeta in H
      end; simpl; try done.
  all: try (destruct st; simpl); rewrite ?at_key_insert; repeat case_decide; subst; try done; try lia.
  - by injection H as _ <-.
  - by injection H as <-.
Qed.

(** ** The interpreter

    A code is a list of instructions: [1; k] writes the slot [k], [2; k] clears it,
    [3; a] calls the contract [a] and [8; a] calls it statically, [4] reverts, [5; a]
    destroys the contract for [a], [7; n] creates a contract from the next [n]
    instructions at an address that depends on the creator, and [6] returns the rest. *)
#[export] Instance meters : Gasometers := {|
  Gasometer := Z;
  Opcode := unit;
  Stack := unit;
  DynamicCost := unit;
  gasometer_new limit _ := limit;
  gas g := g;
  total_used_gas _ := 0;
  refunded_gas _ := 0;
  gasometer_fail _ := 0;
  record_cost c g := if c <=? g then (Ok tt, g - c) else (Err OutOfGas, g);
  record_stipend c g := (Ok tt, g + c);
  record_refund _ := ret tt;
  record_deposit _ := ret tt;
  record_transaction _ := ret tt;
  record_dynamic_cost _ := ret tt;
  static_opcode_cost _ := Some 1;
  call_transaction_cost _ := 0
|}.

Fixpoint interpret (fuel : nat) (code : bytes) (self : H160) : Runtime :=
  match fuel with
  | O => Exit (Error OutOfGas) []
  | S fuel =>
      match code with
      | [] => Exit (Succeed Stopped) []
      | 1 :: k :: rest => SetStorage k 1 (fun _ => interpret fuel rest self)
      | 2 :: k :: rest => SetStorage k 0 (fun _ => interpret fuel rest self)
      | 3 :: a :: rest =>
          Call a None [] None false (MkContext a self 0) (fun c => interpret fuel c a) (fun _ => interpret fuel rest self)
      | 8 :: a :: rest =>
          Call a None [] None true (MkContext a self 0) (fun c => interpret fuel c a) (fun _ => interpret fuel rest self)
      | 4 :: _ => Exit Revert []
      | 5 :: a :: rest => MarkDelete a (fun _ => interpret fuel rest self)
      | 7 :: n :: rest =>
          Create (Create2 self 0 0) 0 (take (Z.to_nat n) rest) None
            (fun c => interpret fuel (take (Z.to_nat n) rest) (address c))
            (fun _ => interpret fuel (drop (Z.to_nat n) rest) self)
      | 6 :: rest => Exit (Succeed Returned) rest
      | _ => Exit (Error (InterpreterError 0)) []
      end
  end.

#[export] Instance interpreter : Interpreter ledger Z := {|
  runtime_new code _ c := interpret 6 code (address c);
  dynamic_opcode_cost _ _ _ _ _ _ := Ok tt;
  precompiles_execute _ _ _ _ w := (None, w);
  system_block_hash _ _ := 0;
  system_block_number _ := 0;
  timestamp_now _ := 0;
  rlp_caller_nonce a n := [a; n]
|}.

#[export] Instance errors_from : DispatchErrorStr (EvmError + string) := {| dispatch_other s := inr s |}.

#[export] Instance errors_into : DispatchErrorInto (EvmError + string) :=
  {| dispatch_str e := match e with inl _ => "evm"%string | inr s => s end |}.

(** The cost of the code is bounded by its fuel. *)
Lemma interpret_within ws wc wp fuel code self : 0 <= ws -> 0 <= wc -> 0 <= wp ->
  within ws wc wp ((2 ^ Z.of_nat fuel - 1) * (ws + wc + wp)) (interpret fuel code self).
Proof.
  intros Hws Hwc Hwp. revert code self. induction fuel as [|fuel IH]; intros code self; [simpl; lia|].
  assert (0 <= (2 ^ Z.of_nat fuel - 1) * (ws + wc + wp)) as H0.
  { apply Z.mul_nonneg_nonneg; [|lia]. pose proof (Z.pow_pos_nonneg 2 (Z.of_nat fuel)). lia. }
  replace (2 ^ Z.of_nat (S fuel) - 1) with (2 * (2 ^ Z.of_nat fuel - 1) + 1)
    by (rewrite Nat2Z.inj_succ, Z.pow_succ_r by lia; lia).
  set (b := (2 ^ Z.of_nat fuel - 1) * (ws + wc + wp)) in *.
  assert (forall n code self, b <= n -> within ws wc wp n (interpret fuel code self)) as IH'.
  { intros n c x Hn. eapply within_le; [exact Hn|]. apply IH. }
  replace ((2 * (2 ^ Z.of_nat fuel - 1) + 1) * (ws + wc + wp)) with (2 * b + ws + wc + wp) by (unfold b; lia).
  clearbody b. simpl.
  repeat match goal with
    | |- within _ _ _ _ (match ?x with _ => _ end) => destruct x
    end; simpl; try lia;
  first [ intros; apply IH'; lia
        | exists b; split; intros; apply IH'; lia ].
Qed.

(** ** The chain *)

Definition code_hash_of_bytes (code : bytes) : H256 :=
  fold_left (fun h b => ((h + b + 1) * 0x9e3779b97f4a7c15f39cc0605cedc8341082276bf3a27251f86c6a11d0c18e95) mod 2 ^ 256) code 1.

Definition chain_config : Config string Z (option Z) := {|
  new_contract_extra_bytes := 100;
  storage_deposit_per_byte := 2;
  max_code_size := 1000;
  chain_id := 1;
  network_contract_source := 9;
  developer_deposit_amount := 500;
  deployment_fee := 50;
  treasury_account := 8;
  ethereum_compatibility := false;
  keccak := code_hash_of_bytes;
  signed_by o := o;
  is_root o := match o with None => true | Some _ => false end;
  is_network_contract_origin o := match o with None => true | Some _ => false end;
  is_free_deployment_origin o := match o with None => true | Some _ => false end;
  bad_origin := "BadOrigin"%string
|}.

Definition alice : Z := 1000.
Definition bob : Z := 2000.

Definition genesis : State ledger Z :=
  MkState ∅ ∅ ∅ ∅ ∅ 4096 None [] (MkLedger (<[alice := 1000000]> (<[bob := 1000000]> (<[9 := 1000000]> ∅))) ∅).

(** A state after a run. *)
Definition after {A : Type} (m : M (State ledger Z) (EvmError + string) A) (s : State ledger Z) : State ledger Z := (m s).2.

Definition network (init : bytes) : M (State ledger Z) (EvmError + string) unit :=
  create_network_contract chain_config SETHEUM_CONFIG None init 0 1000000 10000.

Definition run_code (who target : Z) (limit : Z) : M (State ledger Z) (EvmError + string) unit :=
  call chain_config SETHEUM_CONFIG (Some who) target [] 0 1000000 limit.

(** A precompiled contract at 13 that lets the EVM run the contract 4096 for alice; the
    precompiled contracts of that run are those of the interpreter above. *)
Definition outer : Interpreter ledger Z := {|
  runtime_new code _ c := interpret 6 code (address c);
  dynamic_opcode_cost _ _ _ _ _ _ := Ok tt;
  precompiles_execute b _ _ _ w :=
    if b =? 13
    then let '(r, w') := evm_execute chain_config (MkInvokeContext 4096 alice alice) [] 0 1000000 1000 ExecuteMode w in
         (Some (match r with Ok info => Ok (Returned, call_output info, 0) | _ => Err OutOfGas end), w')
    else (None, w);
  system_block_hash _ _ := 0;
  system_block_number _ := 0;
  timestamp_now _ := 0;
  rlp_caller_nonce a n := [a; n]
|}.

Lemma interpreter_bounded ws wc wp (J : Interpreter ledger Z) : 0 <= ws -> 0 <= wc -> 0 <= wp ->
  (forall code input c, runtime_new code input c = interpret 6 code (address c)) -> bounded ws wc J wp (63 * (ws + wc + wp)).
Proof.
  intros Hws Hwc Hwp HJ. split; [lia|]. intros code input c. rewrite HJ. by apply (interpret_within ws wc wp 6).
Qed.

Lemma interpreter_layered ws wc acts runs_for : layered chain_config ws wc acts runs_for 0 interpreter.
Proof.
  apply (Layered _ _ _ _ _ 0 interpreter (fun _ _ => False)); [done|done|].
  intros b input gas c w r w' [= _ <-]. exists 0. split; [done|constructor].
Qed.

Lemma outer_layered ws wc acts runs_for : 0 <= ws -> 0 <= wc -> runs_for alice ->
  layered chain_config ws wc acts runs_for (63 * (ws + wc)) outer.
Proof.
  intros Hws Hwc Ho.
  apply (Layered _ _ _ _ _ (63 * (ws + wc)) outer (fun wp J => wp = 0 /\ J = interpreter)); [lia| |].
  - intros wp J [-> ->]. apply interpreter_layered.
  - intros b input gas c w r w' Hrun.
    change (precompiles_execute b input gas c w) with (if b =? 13
      then let '(r, w') := evm_execute chain_config (MkInvokeContext 4096 alice alice) [] 0 1000000 1000 ExecuteMode w in
           (Some (match r with Ok info => Ok (Returned, call_output info, 0) | _ => Err OutOfGas end), w')
      else (@None (outcome ExitError (ExitSucceed * bytes * Z)), w)) in Hrun.
    destruct (b =? 13).
    + destruct (evm_execute _ _ _ _ _ _ _ _) as [x w1] eqn:Hx. injection Hrun as _ <-.
      exists (63 * (ws + wc) + 0). split; [lia|]. eapply Effect; [|constructor].
      change w1 with (x, w1).2. rewrite <- Hx. apply RunsCode with 0; [done| |done].
      replace (63 * (ws + wc)) with (63 * (ws + wc + 0)) by lia. by apply interpreter_bounded.
    + injection Hrun as _ <-. exists 0. split; [lia|constructor].
Qed.

(** ** The hypotheses hold *)

(** A chain that writes down the deposits it is told to move, and moves none for contract 7. *)
Definition journal_chain : StorageMeterHandler (list (H160 * Z * Z)) string := {|
  reserve_storage _ := ret tt;
  unreserve_storage limit _ _ := modify (fun w => w ++ [(0, limit, 0)]);
  charge_storage c u r := if c =? 7 then fail "refused"%string else modify (fun w => w ++ [(c, u, r)])
|}.

#[local] Instance journal_errors : DispatchErrorStr string := {| dispatch_other s := s |}.

(** Five calls: one that ends after one that frees bytes within it, one that overdraws the
    budget, one that is abandoned when a call within it has ended, and one whose deposit
    cannot be moved. Of the budget of 500 there is left 266, and 394 with the 128 of the
    outermost call; the 32 and the 10 of the last two were never paid for. *)
Definition five_calls : list usage :=
  [Charge 64; Child 2 [Charge 128; Child 3 [Refund 64] true] true; Child 4 [Charge 900] true;
   Child 5 [Child 6 [Charge 32] true] false; Child 7 [Charge 10] true; Charge 64].

Lemma meter_refines_budget_witness :
  @transaction _ unit _ _ journal_chain tt 1 500 five_calls true []
    = (Ok tt, [(3, 0, 64); (2, 128, 0); (1, 128, 0); (0, 394, 0)])
  /\ @transaction _ unit _ _ journal_chain tt 1 500 five_calls true []
     = @budget_transaction _ _ _ journal_chain 1 500 five_calls true []
  /\ 266 = 500 - (128 - 0) - (170 - 64).
Proof.
  destruct (@meter_refines_budget _ unit _ _ journal_chain tt 1 500 five_calls true []) as [Heq Hb];
    [lia|simpl; lia|vm_compute; discriminate|].
  split; [vm_compute; reflexivity|]. split; [exact Heq|].
  apply (Hb [] (MkBudget 266 128 0 170 64) [(3, 0, 64); (2, 128, 0)]). vm_compute. reflexivity.
Defined.

(** A contract that writes two slots, and what a static call of it leaves. *)
Definition with_writer : State ledger Z :=
  after (do! network [6; 1; 1; 1; 2] in deploy_free chain_config None 4096) genesis.

Definition metered (s : State ledger Z) : Metered (State ledger Z) (list Z) (EvmError + string) :=
  MkMetered (MkMeter 4097 1000 0 0 0 0 None) [] [1000000] s.

Definition static_run :=
  execute chain_config SETHEUM_CONFIG (MkVicinity 1 alice) true 4097 (interpret 6 [3; 4096; 5; 8; 6; 7] 4097) (metered with_writer).

Lemma static_call_writes_nothing_witness :
  rtc (static_step (AccountId := Z)) with_writer (world static_run.2).
Proof.
  refine (proj1 (static_call_writes_nothing chain_config SETHEUM_CONFIG (MkVicinity 1 alice)
    (interpret 6 [3; 4096; 5; 8; 6; 7] 4097) (metered with_writer) (Succeed Returned, [7]) static_run.2 _ _)).
  - reflexivity.
  - vm_compute. reflexivity.
Defined.

(** A contract that calls the precompiled contract, which runs the writer: bob calls it, and
    alice pays for what the writer stores. *)
Definition with_caller : State ledger Z :=
  after (do! network [6; 3; 13] in deploy_free chain_config None 4097) with_writer.

Definition run_outer (who target limit : Z) : M (State ledger Z) (EvmError + string) unit :=
  call (Interpreter0 := outer) chain_config SETHEUM_CONFIG (Some who) target [] 0 1000000 limit.

Lemma ledger_providers : provider_laws (L := ledger) (fun _ _ => True).
Proof. by split. Qed.

Definition writer_info : ContractInfo := MkContractInfo (code_hash_of_bytes [1; 1; 1; 2]) 9 false.

Lemma outer_creates_at_most : bounded 0 1 outer (63 * (0 + 1)) (63 * (0 + 1 + 63 * (0 + 1))).
Proof. by apply interpreter_bounded. Qed.

Definition outer_network (init : bytes) : M (State ledger Z) (EvmError + string) unit :=
  create_network_contract (Interpreter0 := outer) chain_config SETHEUM_CONFIG None init 0 1000000 10000.

Definition outer_writer : State ledger Z := after (outer_network [6; 1; 1; 1; 2]) genesis.

Lemma contract_code_is_available_witness :
  codes outer_writer !! code_hash writer_info = Some [1; 1; 1; 2]
  /\ keccak chain_config (code_at_address chain_config 4096 outer_writer) = code_hash_of_bytes [1; 1; 1; 2].
Proof.
  refine (contract_code_is_available chain_config (fun _ _ => True) ledger_providers (Interpreter0 := outer)
    (fun g => g) (fun _ _ => ret tt) (fun _ _ _ => ret tt) (63 * (0 + 1)) (0 + (63 * (0 + 1 + 63 * (0 + 1)) + 1)) outer_writer 4096
    writer_info _ _ _ _ _ _).
  - by apply outer_layered.
  - done.
  - done.
  - eapply (Step chain_config _ (Interpreter0 := outer) _ _ _ _ 0 _ (outer_network [6; 1; 1; 1; 2]) genesis (Ok tt)); [by apply Fresh| |].
    + exact (CreatesNetwork chain_config (fun _ _ => True) (Interpreter0 := outer) _ _ _ _ _ None [6; 1; 1; 1; 2] 0 1000000 10000 outer_creates_at_most).
    + vm_compute. reflexivity.
  - vm_compute. discriminate.
  - vm_compute. reflexivity.
Defined.

(** Bytes that the precompiled contract lets the writer store. *)
Definition stored_below : Z := 63 * (STORAGE_SIZE + largest_code chain_config).

Lemma outer_writes_at_most :
  bounded STORAGE_SIZE (largest_code chain_config) outer stored_below (63 * (STORAGE_SIZE + largest_code chain_config + stored_below)).
Proof. by apply interpreter_bounded. Qed.

Lemma storage_stays_paid_for_witness :
  size_of 4096 (after (run_outer bob 4097 1000) with_caller) = 104 + 2 * STORAGE_SIZE
  /\ surplus chain_config 4096 4096 with_caller <= surplus chain_config 4096 4096 (after (run_outer bob 4097 1000) with_caller)
  /\ sized 4096 0 (after (run_outer bob 4097 1000) with_caller).
Proof.
  split; [vm_compute; reflexivity|].
  refine (storage_stays_paid_for chain_config 4096 4096 _ _ _ (ledger_laws 4096) (Interpreter0 := outer)
    (fun g => g) (fun _ _ => ret tt) (fun _ _ _ => ret tt) stored_below
    (63 * (STORAGE_SIZE + largest_code chain_config + stored_below)) 0 (run_outer bob 4097 1000) with_caller (Ok tt) _ _ _ _ _ _ _ _ _).
  - by intros c l.
  - split; vm_compute; discriminate.
  - split_and!; vm_compute; (discriminate || reflexivity).
  - apply outer_layered; [done|vm_compute; discriminate|done].
  - intros who fee _ l. simpl. lia.
  - intros who fee paid _ l. simpl. lia.
  - refine (StrangerCalls chain_config 4096 4096 (Interpreter0 := outer) _ _ _ _ _ (Some bob) 4097 [] 0 1000000 1000 outer_writes_at_most _).
    intros who [= <-]. discriminate.
  - done.
  - vm_compute. discriminate.
  - split; vm_compute; discriminate.
  - vm_compute. reflexivity.
Defined.

(** A run out of its storage limit, and a creation that reverts. *)
Lemma unsuccessful_call_leaves_the_nonce_witness :
  let run := runner_call chain_config SETHEUM_CONFIG alice alice 4096 [] 0 1000000 100 with_writer in
  run.1 = Err (inr "OutOfStorage"%string) /\ (run.2 = with_writer \/ run.2 = inc_nonce alice with_writer).
Proof.
  split; [vm_compute; reflexivity|].
  apply (unsuccessful_call_leaves_the_nonce chain_config SETHEUM_CONFIG alice alice 4096 [] 0 1000000 100 _ _
    (Err (inr "OutOfStorage"%string))); [vm_compute; reflexivity|reflexivity].
Defined.

Lemma unsuccessful_creation_leaves_the_nonce_witness :
  let run := runner_create chain_config SETHEUM_CONFIG alice [1; 1; 4] 0 1000000 1000 genesis in
  run.2 = genesis \/ run.2 = inc_nonce alice genesis.
Proof.
  refine (unsuccessful_creation_leaves_the_nonce chain_config SETHEUM_CONFIG alice [1; 1; 4] 0 1000000 1000 None None _ _
    (runner_create chain_config SETHEUM_CONFIG alice [1; 1; 4] 0 1000000 1000 genesis).1 _ _); vm_compute; reflexivity.
Defined.

(** ** What the theorems do not say *)

(** A call that reverts after a nested call has ended: nothing is stored, but the bytes of
    the nested call stay counted with the callers of the reverted one, and their price
    stays reserved on the account of the origin. *)
Definition nested_contracts : State ledger Z :=
  after (do! network [6; 1; 1] in do! network [6; 3; 4096; 4] in do! network [6; 3; 4097] in
         do! deploy_free chain_config None 4096 in do! deploy_free chain_config None 4097 in
         deploy_free chain_config None 4098) genesis.

Theorem reverted_calls_keep_the_deposit :
  let s := after (run_code alice 4098 1000) nested_contracts in
  account_storages s = ∅
  /\ at_key (held (chain nested_contracts)) alice = 0 /\ at_key (held (chain s)) alice = 2 * STORAGE_SIZE.
Proof. vm_compute. done. Qed.

(** Setting the code of a contract counts the new code, takes a second deposit from the
    contract's source and leaves the contract with the old code. *)
Theorem set_code_keeps_the_old_code :
  let s := after (set_code chain_config SETHEUM_CONFIG None 4096 [6; 2; 1]) with_writer in
  events s = events with_writer ++ [ContractSetCode 4096]
  /\ code_at_address chain_config 4096 s = [1; 1; 1; 2]
  /\ codes s !! code_hash_of_bytes [2; 1] = Some [2; 1]
  /\ size_of 4096 s = 2 * size_of 4096 with_writer - 2.
Proof. vm_compute. done. Qed.

(** A factory that creates a contract at an address where one is: nothing checks that
    the address is free, and whoever calls the factory last maintains the contract. *)
Definition factory : State ledger Z :=
  after (do! network [6; 7; 3; 6; 1; 1] in deploy_free chain_config None 4096) genesis.

Definition child : H160 :=
  match create_address chain_config (Create2 4096 0 0) factory with Ok a => a | _ => 0 end.

Theorem created_again_by_another_maintainer :
  let s := after (run_code alice 4096 1000) factory in
  let s' := after (run_code bob 4096 1000) s in
  (maintainer <$> contract_at child s) = Some alice /\ (maintainer <$> contract_at child s') = Some bob
  /\ (ref_count <$> code_infos s' !! code_hash_of_bytes [1; 1]) = Some 2.
Proof. vm_compute. done. Qed.
