(* ===== verification/EvmAccounts.v ===== *)
(** * Accounts of the chain and addresses of the EVM

    [lib-serml/evm/evm-accounts/src/lib.rs]: the two maps between account ids and EVM
    addresses, the calls that bind an address to an account, and the message that the
    owner of an Ethereum key signs. The account ids and the addresses are integers, read
    as 32 and 20 big-endian bytes. Hashes and the recovery of signatures are parameters;
    the rest of the chain is behind the class [AccountsChain]. *)

From Stdlib Require Import Recdef.
From S2P Require Import Prelude Currency EvmMeter Evm.

Abbreviation EvmAddress := H160.
Abbreviation AccountId := Z.

(** The bytes of a string literal. *)
Definition evm_prefix : bytes := [101; 118; 109; 58].
Definition message_prefix : bytes := [115; 101; 116; 104; 101; 117; 109; 32; 101; 118; 109; 58].
Definition ethereum_header : bytes :=
  [25; 69; 116; 104; 101; 114; 101; 117; 109; 32; 83; 105; 103; 110; 101; 100; 32; 77; 101; 115; 115; 97; 103; 101; 58; 10].

(** Third-party cryptography. *)
Record Crypto : Type := MkCrypto {
  keccak_256 : bytes -> bytes;
  blake2_256 : bytes -> bytes;
  secp256k1_ecdsa_recover : bytes -> bytes -> option bytes
}.

(** What the calls ask of other pallets; the accounts that a call reaps are reported. *)
Class AccountsChain (L X : Type) : Type := {
  account_exists : AccountId -> L -> bool;
  merge_all : AccountId -> AccountId -> M L X unit;
  on_claim : AccountId -> M L X unit;
  dead : L -> L -> list AccountId
}.

Inductive AccountsError : Type :=
| AccountIdHasMapped
| EthAddressHasMapped
| BadSignature
| InvalidSignature
| NonZeroRefCount
| LookupError
| BadOrigin.

Record Store (L : Type) : Type := MkStore {
  account_ids : gmap EvmAddress AccountId;
  evm_addresses : gmap AccountId EvmAddress;
  claims : list (AccountId * EvmAddress);
  rest : L
}.

Arguments MkStore {L}.
Arguments account_ids {L}.
Arguments evm_addresses {L}.
Arguments claims {L}.
Arguments rest {L}.

(** ** The signed message *)

(** [to_ascii_hex]. *)
Definition nibble (n : Z) : Z := if n <? 10 then 48 + n else 97 - 10 + n.

Fixpoint to_ascii_hex (data : bytes) : bytes :=
  match data with
  | [] => []
  | b :: data' => nibble (b / 16) :: nibble (b mod 16) :: to_ascii_hex data'
  end.

(** The loop of [ethereum_signable_message]: the decimal digits of [l], the last first. *)
Function push_digits (l : nat) (rev : bytes) {measure (fun l => l) l} : bytes :=
  match l with
  | O => rev
  | S _ => push_digits (l / 10)%nat (rev ++ [48 + Z.of_nat (l mod 10)])
  end.
Proof. intros l rev k _. apply Nat.div_lt; lia. Defined.

Definition ethereum_signable_message (what extra : bytes) : bytes :=
  let l := (length message_prefix + length what + length extra)%nat in
  let rev := push_digits l [] in
  ethereum_header ++ reverse rev ++ message_prefix ++ what ++ extra.

Section Accounts.
Variable crypto : Crypto.

(** [eth_recover]. *)
Definition eth_recover (s what extra : bytes) : option EvmAddress :=
  let msg := keccak_256 crypto (ethereum_signable_message what extra) in
  match secp256k1_ecdsa_recover crypto s msg with
  | Some public => Some (from_be (drop 12 (keccak_256 crypto public)))
  | None => None
  end.

(** [using_encoded] of an account id. *)
Definition encode (who : AccountId) : bytes := be_bytes 32 who.

Definition account_to_default_evm_address (who : AccountId) : EvmAddress :=
  from_be (take 20 (blake2_256 crypto (evm_prefix ++ encode who))).

(** ** The mapping *)

(** The account of an address that no one has claimed. *)
Definition padded (address : EvmAddress) : AccountId :=
  from_be (evm_prefix ++ be_bytes 20 address ++ repeat 0 8).

(** The address inside a padded account. *)
Definition underlying (who : AccountId) : option EvmAddress :=
  let data := encode who in
  if starts_with evm_prefix data then Some (from_be (slice 4 20 data)) else None.

Section State.
Context {L X : Type} `{!AccountsChain L X}.

Abbreviation St := (Store L).
Abbreviation Run := (M (Store L) (AccountsError + X)).

Definition set_ids (f : gmap EvmAddress AccountId -> gmap EvmAddress AccountId) (s : St) : St :=
  MkStore (f (account_ids s)) (evm_addresses s) (claims s) (rest s).

Definition set_addresses (f : gmap AccountId EvmAddress -> gmap AccountId EvmAddress) (s : St) : St :=
  MkStore (account_ids s) (f (evm_addresses s)) (claims s) (rest s).

Definition set_rest (l : L) (s : St) : St := MkStore (account_ids s) (evm_addresses s) (claims s) l.

Definition deposit_claim (who : AccountId) (a : EvmAddress) (s : St) : St :=
  MkStore (account_ids s) (evm_addresses s) (claims s ++ [(who, a)]) (rest s).

Definition mapping_get_account_id (address : EvmAddress) (s : St) : AccountId :=
  match account_ids s !! address with Some acc => acc | None => padded address end.

Definition mapping_get_evm_address (who : AccountId) (s : St) : option EvmAddress :=
  match evm_addresses s !! who with Some a => Some a | None => underlying who end.

Definition insert_mapping (who : AccountId) (a : EvmAddress) (s : St) : St :=
  set_addresses <[who := a]> (set_ids <[a := who]> s).

Definition mapping_get_or_create (who : AccountId) (s : St) : EvmAddress * St :=
  match mapping_get_evm_address who s with
  | Some a => (a, s)
  | None =>
      let addr := account_to_default_evm_address who in
      (addr, insert_mapping who addr s)
  end.

Definition is_linked (who : AccountId) (evm : EvmAddress) (s : St) : bool :=
  match mapping_get_evm_address who s with Some a => a =? evm | None => false end
  || (account_to_default_evm_address who =? evm).

#[export] Instance EvmAddressMapping : AddressMapping (Store L) AccountId := {|
  get_account_id := mapping_get_account_id;
  get_evm_address := mapping_get_evm_address;
  get_or_create_evm_address := mapping_get_or_create;
  get_default_evm_address := account_to_default_evm_address
|}.

(** [CallKillAccount::on_killed_account]. *)
Definition on_killed_account (s : St) (who : AccountId) : St :=
  let s := set_ids (delete (account_to_default_evm_address who)) s in
  match evm_addresses s !! who with
  | Some evm_addr => set_addresses (delete who) (set_ids (delete evm_addr) s)
  | None => s
  end.

(** A call into the rest of the chain; the accounts that it reaps are reported. *)
Definition on_rest {A : Type} (m : M L X A) : Run A := fun s =>
  let '(r, l) := m (rest s) in
  let s' := fold_left on_killed_account (dead (rest s) l) (set_rest l s) in
  (match r with Ok a => Ok a | Err x => Err (inr x) | Panic => Panic end, s').

(** ** Calls *)

(** The origin is the account that signed, if any. *)
Definition claim_account (origin : option AccountId) (eth_address : EvmAddress) (eth_signature : bytes) : Run unit :=
  transactional (
    let! who := ok_or origin (inl BadOrigin) in
    let! s := get in
    do! ensure (match evm_addresses s !! who with None => true | Some _ => false end) (inl AccountIdHasMapped) in
    do! ensure (match account_ids s !! eth_address with None => true | Some _ => false end) (inl EthAddressHasMapped) in
    let! address := ok_or (eth_recover eth_signature (to_ascii_hex (encode who)) []) (inl BadSignature) in
    do! ensure (eth_address =? address) (inl InvalidSignature) in
    let account_id := mapping_get_account_id eth_address s in
    do! (if account_exists account_id (rest s) then on_rest (merge_all account_id who) else ret tt) in
    do! modify (insert_mapping who eth_address) in
    do! on_rest (on_claim who) in
    modify (deposit_claim who eth_address)).

Definition claim_default_account (origin : option AccountId) : Run unit :=
  let! who := ok_or origin (inl BadOrigin) in
  let! s := get in
  do! ensure (match evm_addresses s !! who with None => true | Some _ => false end) (inl AccountIdHasMapped) in
  let! eth_address := (fun s => let '(a, s') := mapping_get_or_create who s in (Ok a, s')) in
  do! on_rest (on_claim who) in
  modify (deposit_claim who eth_address).

(** [StaticLookup]: the only source that is looked up is an address of twenty bytes. *)
Inductive MultiAddress : Type :=
| MultiId (who : AccountId)
| MultiIndex (i : Z)
| MultiRaw (b : bytes)
| MultiAddress32 (b : Z)
| MultiAddress20 (a : EvmAddress).

Definition lookup_source (a : MultiAddress) (s : St) : outcome (AccountsError + X) AccountId :=
  match a with
  | MultiAddress20 i => Ok (mapping_get_account_id i s)
  | _ => Err (inl LookupError)
  end.

Definition unlookup (who : AccountId) : MultiAddress := MultiId who.

End State.
End Accounts.
