(* ===== verification/EvmAccountsTheorems.v ===== *)
(** * What a claimed address is worth

    The two maps of [EvmAccounts] are inverse in every reachable state, an address that is
    bound to an account was signed for by its owner or is the default address of the
    account, and the signed message names the account. *)

From S2P Require Import Prelude Currency EvmMeter Evm EvmAccounts.

(** ** The digits of a length *)

Definition is_digit (b : Z) : Prop := 48 <= b <= 57.

(** The number that decimal digits stand for. *)
Definition from_digits (l : bytes) : Z := fold_left (fun acc b => acc * 10 + (b - 48)) l 0.

Lemma from_digits_app l b : from_digits (l ++ [b]) = from_digits l * 10 + (b - 48).
Proof. unfold from_digits. by rewrite fold_left_app. Qed.

(** What the loop adds to [rev]. *)
Lemma push_digits_acc l rev : push_digits l rev = rev ++ push_digits l [].
Proof.
  revert rev. induction l as [l IH] using lt_wf_ind. intros rev.
  rewrite push_digits_equation. rewrite (push_digits_equation l []).
  destruct l as [|l']; [by rewrite app_nil_r|].
  assert (S l' / 10 < S l')%nat as Hlt by (apply Nat.div_lt; lia).
  rewrite (IH _ Hlt), (IH _ Hlt ([] ++ _)). by rewrite app_assoc.
Qed.

Lemma push_digits_step l : (0 < l)%nat ->
  push_digits l [] = (48 + Z.of_nat (l mod 10)) :: push_digits (l / 10)%nat [].
Proof.
  intros Hl. rewrite push_digits_equation. destruct l as [|l']; [lia|]. by rewrite push_digits_acc.
Qed.

(** The loop that writes the length of the message ends after as many rounds as the length
    has decimal digits, and has then written exactly those: digits only, no leading zero,
    and read back they are the length. *)
Theorem length_digits_terminate (l : nat) :
  let ds := reverse (push_digits l []) in
  from_digits ds = Z.of_nat l
  /\ Forall is_digit ds
  /\ (l = 0%nat -> ds = [])
  /\ ((0 < l)%nat -> 10 ^ (Z.of_nat (length ds) - 1) <= Z.of_nat l < 10 ^ Z.of_nat (length ds)).
Proof.
  induction l as [l IH] using lt_wf_ind. destruct (decide (l = 0)%nat) as [->|Hl].
  { rewrite push_digits_equation. split_and!; [done|constructor|done|lia]. }
  assert (l / 10 < l)%nat as Hlt by (apply Nat.div_lt; lia).
  rewrite push_digits_step by lia. cbv zeta. rewrite reverse_cons.
  destruct (IH _ Hlt) as (Hv & Hd & Hz & Hr). set (ds := reverse _) in *.
  pose proof (Nat.div_mod_eq l 10) as Hdm. pose proof (Nat.mod_upper_bound l 10 ltac:(lia)) as Hm.
  rewrite from_digits_app, Hv, length_app. cbn [length].
  set (q := (l / 10)%nat) in *. set (m := (l mod 10)%nat) in *. clearbody q m.
  split_and!; [lia| |lia|].
  - apply Forall_app. split; [done|]. constructor; [|constructor]. unfold is_digit. lia.
  - intros _. destruct (decide (q = 0)%nat) as [H0|H0].
    + rewrite (Hz H0). cbn [length]. cbn. lia.
    + specialize (Hr ltac:(lia)).
      replace (Z.of_nat (length ds + 1)) with (Z.succ (Z.of_nat (length ds))) by lia.
      replace (Z.succ (Z.of_nat (length ds)) - 1) with (Z.succ (Z.of_nat (length ds) - 1)) by lia.
      assert (1 <= length ds)%nat.
      { destruct (length ds) eqn:E; [|lia]. simpl in Hr. lia. }
      rewrite !Z.pow_succ_r by lia. lia.
Qed.

(** ** The signed message *)

(** A digit is not the first byte of the prefix. *)
Lemma digits_split ds ds' rest rest' :
  Forall is_digit ds -> Forall is_digit ds' ->
  ds ++ message_prefix ++ rest = ds' ++ message_prefix ++ rest' -> ds = ds' /\ rest = rest'.
Proof.
  intros Hd. revert ds'. induction Hd as [|x ds Hx Hd IH]; intros ds' Hd'; destruct Hd' as [|y ds' Hy Hd'].
  - simpl. by intros [= ->].
  - simpl. intros [= <- _]. unfold is_digit in Hy. lia.
  - simpl. intros [= -> _]. unfold is_digit in Hx. lia.
  - rewrite <- !app_comm_cons. intros [= <- H]. destruct (IH _ Hd' H) as [-> ->]. done.
Qed.

Lemma nibble_inj a b : 0 <= a < 16 -> 0 <= b < 16 -> nibble a = nibble b -> a = b.
Proof. unfold nibble. destruct (Z.ltb_spec a 10), (Z.ltb_spec b 10); lia. Qed.

Lemma length_to_ascii_hex data : length (to_ascii_hex data) = (2 * length data)%nat.
Proof. induction data; simpl; lia. Qed.

(** The hexadecimal text stands for one string of bytes. *)
Lemma to_ascii_hex_inj l k :
  Forall (fun b => 0 <= b < 256) l -> Forall (fun b => 0 <= b < 256) k -> to_ascii_hex l = to_ascii_hex k -> l = k.
Proof.
  intros Hl. revert k. induction Hl as [|x l Hx Hl IH]; intros k Hk; destruct Hk as [|y k Hy Hk]; simpl; [done..|].
  assert (forall b, 0 <= b < 256 -> 0 <= b / 16 < 16) as Hdiv.
  { intros b Hb. split; [apply Z.div_pos; lia|apply Z.div_lt_upper_bound; lia]. }
  intros [= H1 H2 H3]. f_equal; [|by apply IH].
  apply nibble_inj in H1; [|by apply Hdiv..]. apply nibble_inj in H2; [|apply Z.mod_pos_bound; lia..].
  rewrite (Z.div_mod x 16), (Z.div_mod y 16) by lia. congruence.
Qed.

(** No two accounts sign the same message: from the message that the owner of a key signs
    the account can be read off. *)
Theorem signed_message_names_the_account (who who' : AccountId) :
  0 <= who < 2 ^ 256 -> 0 <= who' < 2 ^ 256 ->
  ethereum_signable_message (to_ascii_hex (encode who)) [] = ethereum_signable_message (to_ascii_hex (encode who')) [] ->
  who = who'.
Proof.
  intros Hw Hw' H. unfold ethereum_signable_message in H. apply app_inv_head in H.
  apply digits_split in H as [_ H];
    [|apply (length_digits_terminate _)|apply (length_digits_terminate _)].
  rewrite !app_nil_r in H. apply to_ascii_hex_inj in H; [|apply be_bytes_range..].
  rewrite <- (from_be_be_bytes 32 who), <- (from_be_be_bytes 32 who') by done. unfold encode in H. by rewrite H.
Qed.

(** ** Padded accounts *)

Definition address_ok (a : EvmAddress) : Prop := 0 <= a < 2 ^ 160.

Lemma from_be_range_length n l : length l = n -> Forall (fun b => 0 <= b < 256) l -> 0 <= from_be l < 256 ^ Z.of_nat n.
Proof. intros <-. apply from_be_range. Qed.

Lemma be_bytes_from_be l : Forall (fun b => 0 <= b < 256) l -> be_bytes (length l) (from_be l) = l.
Proof.
  induction l as [|x l IH]; intros Hl; [done|]. apply Forall_cons in Hl as [Hx Hl].
  rewrite from_be_cons. cbn [length]. pose proof (from_be_range l Hl).
  change (S (length l)) with (1 + length l)%nat. rewrite be_bytes_app by done. rewrite IH by done.
  simpl. rewrite Z.div_1_r, Z.mod_small by done. done.
Qed.

Lemma underlying_padded a : address_ok a -> underlying (padded a) = Some a.
Proof.
  intros Ha. unfold underlying, padded, encode.
  set (data := evm_prefix ++ be_bytes 20 a ++ repeat 0 8).
  assert (length data = 32%nat) as Hlen by (unfold data; rewrite !length_app, length_be_bytes; done).
  assert (Forall (fun b => 0 <= b < 256) data) as Hrange.
  { unfold data. apply Forall_app. split; [repeat constructor; lia|].
    apply Forall_app. split; [apply be_bytes_range|]. repeat constructor; lia. }
  rewrite <- Hlen, be_bytes_from_be by done. unfold data. rewrite starts_with_app.
  unfold slice. rewrite (drop_app_length' evm_prefix) by done.
  rewrite take_app_length' by (by rewrite length_be_bytes). by rewrite from_be_be_bytes.
Qed.

(** ** The mapping *)

Section Mapping.
Context {L X : Type} `{!AccountsChain L X}.
Variable crypto : Crypto.

Abbreviation St := (Store L).
Abbreviation Run := (M (Store L) (AccountsError + X)).
Abbreviation default_address := (account_to_default_evm_address crypto).

(** The accounts that take part: those that sign, are looked up or die. The hash does not
    collide on them, and no one has the key of the default address of one of them. *)
Variable known : AccountId -> Prop.
Hypothesis default_inj : forall w w', known w -> known w' -> default_address w = default_address w' -> w = w'.
Hypothesis default_unsigned : forall s what extra w, known w -> eth_recover crypto s what extra <> Some (default_address w).
Hypothesis dead_accounts : forall l l' : L, Forall known (dead l l').

(** The account that signs a call: no one has the key of a padded account. *)
Definition signer (o : option AccountId) : Prop := forall who, o = Some who -> known who /\ underlying who = None.

Inductive step (s : St) : St -> Prop :=
| Claims o a sig r s' : signer o -> claim_account crypto o a sig s = (r, s') -> step s s'
| ClaimsDefault o r s' : signer o -> claim_default_account crypto o s = (r, s') -> step s s'
| Maps who : known who -> step s (mapping_get_or_create crypto who s).2
| RestOfChain (m : M L X unit) r s' : on_rest crypto m s = (r, s') -> step s s'.

Inductive reachable : St -> Prop :=
| Fresh s : account_ids s = ∅ -> evm_addresses s = ∅ -> reachable s
| Step s s' : reachable s -> step s s' -> reachable s'.

(** How an address came to be bound. *)
Definition justified (a : EvmAddress) (who : AccountId) : Prop :=
  a = default_address who \/ exists sig, eth_recover crypto sig (to_ascii_hex (encode who)) [] = Some a.

Record mapped (s : St) : Prop := {
  map_inverse a who : account_ids s !! a = Some who <-> evm_addresses s !! who = Some a;
  map_accounts a who : account_ids s !! a = Some who -> known who /\ underlying who = None;
  map_default a w w' : account_ids s !! a = Some w -> known w' -> a = default_address w' -> w = w';
  map_justified a who : account_ids s !! a = Some who -> justified a who
}.

Lemma mapped_same s s' : account_ids s' = account_ids s -> evm_addresses s' = evm_addresses s -> mapped s -> mapped s'.
Proof. intros H1 H2 []. split; rewrite ?H1, ?H2; done. Qed.

(** Binding a free address to a free account. *)
Lemma mapped_insert s who a :
  mapped s -> account_ids s !! a = None -> evm_addresses s !! who = None ->
  known who -> underlying who = None -> justified a who ->
  (forall w', known w' -> a = default_address w' -> who = w') -> mapped (insert_mapping who a s).
Proof.
  intros [Hi Ha Hd Hj] Hfa Hfw Hok Hu Hjust Hdef. split; simpl.
  - intros b w. rewrite !lookup_insert_Some, Hi. naive_solver.
  - intros b w. rewrite lookup_insert_Some. intros [[<- <-]|[Hne Hb]]; [done|by apply (Ha b)].
  - intros b w w'. rewrite lookup_insert_Some. intros [[<- <-]|[Hne Hb]]; [apply Hdef|by apply Hd].
  - intros b w. rewrite lookup_insert_Some. intros [[<- <-]|[Hne Hb]]; [done|by apply Hj].
Qed.

Lemma mapped_killed s who : known who -> mapped s -> mapped (on_killed_account crypto s who).
Proof.
  intros Hok [Hi Ha Hd Hj]. unfold on_killed_account. simpl.
  destruct (evm_addresses s !! who) as [b|] eqn:Hw; simpl.
  - assert (account_ids s !! b = Some who) as Hb by (by apply Hi).
    split; simpl.
    + intros a w. rewrite !lookup_delete_Some, Hi. split; [|intros [Hne Hwa]; split_and!; try done; [naive_solver|]].
      * intros (Hne1 & Hne2 & Hwa). split; [|done]. intros <-. naive_solver.
      * intros <-. destruct (Hd (default_address who) w who); [by apply Hi|done..].
    + intros a w. rewrite !lookup_delete_Some. intros (_ & _ & H). by apply (Ha a).
    + intros a w w'. rewrite !lookup_delete_Some. intros (_ & _ & H). by apply Hd.
    + intros a w. rewrite !lookup_delete_Some. intros (_ & _ & H). by apply Hj.
  - split; simpl.
    + intros a w. rewrite lookup_delete_Some, Hi. split; [naive_solver|]. intros Hwa. split; [|done].
      intros <-. assert (w = who) as -> by (eapply Hd; [by apply Hi|done..]). congruence.
    + intros a w. rewrite lookup_delete_Some. intros [_ H]. by apply (Ha a).
    + intros a w w'. rewrite lookup_delete_Some. intros [_ H]. by apply Hd.
    + intros a w. rewrite lookup_delete_Some. intros [_ H]. by apply Hj.
Qed.

Lemma mapped_rest {A : Type} (m : M L X A) s r s' : on_rest crypto m s = (r, s') -> mapped s -> mapped s'.
Proof.
  unfold on_rest. destruct (m (rest s)) as [r0 l]. intros [= _ <-] Hs.
  pose proof (dead_accounts (rest s) l) as Hdead. assert (mapped (set_rest l s)) as Hs1 by (by apply (mapped_same s)).
  clear Hs. revert Hs1. generalize (set_rest l s). induction Hdead as [|w ws Hw _ IH]; intros t Ht; simpl; [done|].
  apply IH. by apply mapped_killed.
Qed.


#[local] Arguments to_ascii_hex : simpl never.

Lemma get_or_create_mapped who s :
  known who -> underlying who = None -> evm_addresses s !! who = None -> mapped s ->
  mapped (mapping_get_or_create crypto who s).2.
Proof.
  intros Hok Hu Hfree Hs. unfold mapping_get_or_create, mapping_get_evm_address. rewrite Hfree, Hu. simpl.
  apply mapped_insert; try done; [|by left|by intros w' Hw' ?; apply default_inj].
  destruct (account_ids s !! default_address who) as [w|] eqn:Ha; [|done].
  pose proof (map_default s Hs _ _ _ Ha Hok eq_refl) as ->. apply (map_inverse s Hs) in Ha. congruence.
Qed.

Lemma maps_mapped who s : known who -> mapped s -> mapped (mapping_get_or_create crypto who s).2.
Proof.
  intros Hok Hs. destruct (evm_addresses s !! who) as [a|] eqn:Hf.
  - unfold mapping_get_or_create, mapping_get_evm_address. by rewrite Hf.
  - destruct (underlying who) eqn:Hu; [|by apply get_or_create_mapped].
    unfold mapping_get_or_create, mapping_get_evm_address. by rewrite Hf, Hu.
Qed.

Lemma claim_default_mapped o r s s' : signer o -> claim_default_account crypto o s = (r, s') -> mapped s -> mapped s'.
Proof.
  intros Ho H Hs. unfold claim_default_account in H. destruct o as [who|]; [|by injection H as _ <-].
  destruct (Ho who eq_refl) as [Hok Hu]. revert H. unfold bind, get, ok_or, ret.
  destruct (evm_addresses s !! who) as [b|] eqn:Hf; cbn; [by intros [= _ <-]|].
  destruct (mapping_get_or_create crypto who s) as [a s1] eqn:Hg.
  assert (mapped s1) as Hs1 by (change s1 with (a, s1).2; rewrite <- Hg; by apply get_or_create_mapped).
  destruct (on_rest crypto (on_claim who) s1) as [r2 s2] eqn:Hr.
  assert (mapped s2) as Hs2 by (by eapply mapped_rest).
  destruct r2; intros [= _ <-]; [|done..]. by apply (mapped_same s2).
Qed.

(** The deaths of accounts only unbind. *)
Lemma killed_shrinks (s : St) who :
  account_ids (on_killed_account crypto s who) ⊆ account_ids s
  /\ evm_addresses (on_killed_account crypto s who) ⊆ evm_addresses s.
Proof.
  unfold on_killed_account. simpl. destruct (evm_addresses s !! who); simpl; split;
    repeat (etrans; [apply delete_subseteq|]); done.
Qed.

Lemma rest_shrinks {A : Type} (m : M L X A) s r s' :
  on_rest crypto m s = (r, s') -> account_ids s' ⊆ account_ids s /\ evm_addresses s' ⊆ evm_addresses s.
Proof.
  unfold on_rest. destruct (m (rest s)) as [r0 l]. intros [= _ <-].
  change (account_ids s) with (account_ids (set_rest l s)).
  change (evm_addresses s) with (evm_addresses (set_rest l s)).
  generalize (set_rest l s) as t. induction (dead (rest s) l) as [|w ws IH]; intros t; simpl; [done|].
  destruct (IH (on_killed_account crypto t w)), (killed_shrinks t w). split; by etrans.
Qed.

Lemma claim_mapped o a sig r s s' : signer o -> claim_account crypto o a sig s = (r, s') -> mapped s -> mapped s'.
Proof.
  intros Ho H Hs.
  destruct r as [[]|e|]; [|by rewrite (transactional_rollback _ _ _ _ H)..].
  unfold claim_account in H. destruct o as [who|]; [|by run_inv H]. destruct (Ho who eq_refl) as [Hok Hu]. run_step H.
  injection R0 as <-. apply Z.eqb_eq in R4 as <-. apply (mapped_same x8); [done..|].
  eapply mapped_rest; [exact R5|]. assert (mapped x5 /\ account_ids x5 ⊆ account_ids s /\ evm_addresses x5 ⊆ evm_addresses s) as (Hs' & Hi & He).
  { destruct (account_exists _ _) in R; [|by run_inv R]. split; [by eapply mapped_rest|by eapply rest_shrinks]. }
  apply mapped_insert; try done.
  - destruct (account_ids s !! a) eqn:E; [done|]. by eapply lookup_weaken_None.
  - destruct (evm_addresses s !! who) eqn:E; [done|]. by eapply lookup_weaken_None.
  - right. by exists sig.
  - intros w' Hw' ->. by destruct (default_unsigned sig (to_ascii_hex (encode who)) [] w').
Qed.

Lemma reachable_mapped s : reachable s -> mapped s.
Proof.
  induction 1 as [s Ha He|s s' _ IH Hstep].
  - split; rewrite ?Ha, ?He; [intros a w; by rewrite !lookup_empty|intros *; by rewrite lookup_empty..].
  - destruct Hstep as [o a sig r s' Ho H|o r s' Ho H|who Hok|m r s' H].
    + by eapply claim_mapped.
    + by eapply claim_default_mapped.
    + by apply maps_mapped.
    + by eapply mapped_rest.
Qed.

(** Whatever calls were made and whatever accounts died, the two maps between addresses and
    accounts are inverse to each other: an address belongs to at most one account, an
    account has at most one address, and neither map has an entry the other lacks. *)
Theorem maps_are_inverse s a who :
  reachable s -> account_ids s !! a = Some who <-> evm_addresses s !! who = Some a.
Proof. intros Hs. apply (map_inverse s (reachable_mapped s Hs)). Qed.

(** The account that stands for an address in the EVM leads back to the address, whether
    the address is bound to an account or not. *)
Theorem address_of_the_account_of_an_address s a :
  reachable s -> address_ok a ->
  mapping_get_evm_address (mapping_get_account_id a s) s = Some a.
Proof.
  intros Hs Ha. apply reachable_mapped in Hs. unfold mapping_get_account_id.
  destruct (account_ids s !! a) as [who|] eqn:Hi; unfold mapping_get_evm_address.
  - by rewrite (proj1 (map_inverse s Hs a who) Hi).
  - destruct (evm_addresses s !! padded a) as [b|] eqn:He; [|by apply underlying_padded].
    apply (map_inverse s Hs) in He. apply (map_accounts s Hs) in He as [_ Hu].
    by rewrite underlying_padded in Hu.
Qed.

(** No address is bound to an account that may not have it: a bound address is the default
    address of the account, or its owner signed the message that names the account. *)
Theorem bound_addresses_are_justified s a who :
  reachable s -> account_ids s !! a = Some who ->
  a = account_to_default_evm_address crypto who
  \/ exists sig, eth_recover crypto sig (to_ascii_hex (encode who)) [] = Some a.
Proof. intros Hs. apply (map_justified s (reachable_mapped s Hs)). Qed.

End Mapping.

(** * A chain with two accounts

    A toy signature scheme and a chain on which one account claims an address that it
    signed for, the other its default address, and the first is then reaped: the witnesses
    of [EvmAccountsTheorems]. *)

(** A signature is the key followed by the message; the address of a key is its byte. *)
Definition toy_recover (s msg : bytes) : option bytes :=
  match s with
  | k :: m => if bool_decide (m = msg) then Some (repeat 0 31 ++ [k mod 256]) else None
  | [] => None
  end.

Definition toy : Crypto := {|
  keccak_256 l := l;
  blake2_256 := reverse;
  secp256k1_ecdsa_recover := toy_recover
|}.

Definition toy_sign (k : Z) (who : AccountId) : bytes :=
  k :: ethereum_signable_message (to_ascii_hex (encode who)) [].

Definition two (w : AccountId) : Prop := w = 1 \/ w = 2.

(** The accounts that are alive. *)
#[export] Instance alive : AccountsChain (list Z) Z := {
  account_exists w l := bool_decide (w ∈ l);
  merge_all w _ := modify (filter (fun x => x <> w));
  on_claim _ := ret tt;
  dead l l' := filter (fun w => w ∈ l /\ w ∉ l') [1; 2]
}.

Lemma two_default_inj w w' : two w -> two w' ->
  account_to_default_evm_address toy w = account_to_default_evm_address toy w' -> w = w'.
Proof. intros [->| ->] [->| ->]; vm_compute; done. Qed.

Lemma two_default_unsigned s what extra w : two w ->
  eth_recover toy s what extra <> Some (account_to_default_evm_address toy w).
Proof.
  intros Hw. unfold eth_recover. cbn [keccak_256 secp256k1_ecdsa_recover toy]. unfold toy_recover.
  destruct s as [|k m]; [done|]. destruct (bool_decide _); [|done]. intros [= H].
  pose proof (Z.mod_pos_bound k 256 ltac:(lia)) as Hk. revert H Hk. generalize (k mod 256). intros z H Hk.
  assert (z = account_to_default_evm_address toy w) as -> by (rewrite <- H; unfold from_be; simpl; lia).
  destruct Hk as [_ Hk], Hw as [-> | ->]; by vm_compute in Hk.
Qed.

Lemma two_dead (l l' : list Z) : Forall two (dead l l').
Proof.
  apply Forall_forall. intros w Hw. apply list_elem_of_filter in Hw as [_ Hw]. unfold two. set_solver.
Qed.

Definition start : Store (list Z) := MkStore ∅ ∅ [] [1; 2; padded 77].

Definition claimed : Store (list Z) := (claim_account (X:=Z) toy (Some 1) 77 (toy_sign 77 1) start).2.
Definition defaulted : Store (list Z) := (claim_default_account (X:=Z) toy (Some 2) claimed).2.
Definition reaped : Store (list Z) := (on_rest (X:=Z) toy (modify (filter (fun x => x <> 1))) defaulted).2.

Lemma claimed_reachable : reachable (X:=Z) toy two claimed.
Proof.
  eapply Step; [by apply Fresh with (s:=start)|]. eapply Claims with (o:=Some 1); [|by apply surjective_pairing].
  intros w [= <-]. split; [by left|by vm_compute].
Qed.

Lemma defaulted_reachable : reachable (X:=Z) toy two defaulted.
Proof.
  eapply Step; [apply claimed_reachable|]. eapply ClaimsDefault with (o:=Some 2); [|by apply surjective_pairing].
  intros w [= <-]. split; [by right|by vm_compute].
Qed.

Lemma reaped_reachable : reachable (X:=Z) toy two reaped.
Proof. eapply Step; [apply defaulted_reachable|]. eapply RestOfChain, surjective_pairing. Qed.

(** Both accounts are bound, then the first dies. *)
Example claims_as_stored :
  map_to_list (evm_addresses defaulted) = [(2, 2 * 256 ^ 19); (1, 77)]
  /\ rest claimed = [1; 2]
  /\ map_to_list (evm_addresses reaped) = [(2, 2 * 256 ^ 19)]
  /\ map_to_list (account_ids reaped) = [(2 * 256 ^ 19, 2)].
Proof. vm_compute. done. Qed.

Lemma maps_are_inverse_witness :
  reachable (X:=Z) toy two defaulted
  /\ (account_ids defaulted !! 77 = Some 1 <-> evm_addresses defaulted !! 1 = Some 77)
  /\ account_ids defaulted !! 77 = Some 1.
Proof.
  split; [exact defaulted_reachable|]. split; [|by vm_compute].
  apply (maps_are_inverse (X:=Z) toy two two_default_inj two_default_unsigned two_dead), defaulted_reachable.
Defined.

Lemma address_of_the_account_of_an_address_witness :
  mapping_get_evm_address (mapping_get_account_id 5 reaped) reaped = Some 5
  /\ mapping_get_evm_address (mapping_get_account_id (2 * 256 ^ 19) reaped) reaped = Some (2 * 256 ^ 19).
Proof.
  split;
    (apply (address_of_the_account_of_an_address (X:=Z) toy two two_default_inj two_default_unsigned two_dead);
      [apply reaped_reachable|unfold address_ok; lia]).
Defined.

Lemma bound_addresses_are_justified_witness :
  account_ids defaulted !! 77 = Some 1
  /\ (77 = account_to_default_evm_address toy 1
      \/ exists sig, eth_recover toy sig (to_ascii_hex (encode 1)) [] = Some 77).
Proof.
  split; [by vm_compute|].
  apply (bound_addresses_are_justified (X:=Z) toy two two_default_inj two_default_unsigned two_dead defaulted 77 1);
    [apply defaulted_reachable|by vm_compute].
Defined.

Lemma signed_message_names_the_account_witness : 5 = 2 + 3.
Proof.
  apply signed_message_names_the_account; [lia..|]. by vm_compute.
Defined.
