(* ===== verification/EvmBridge.v ===== *)
(** * The EVM bridge: ERC20 contracts called from pallets

    [lib-serml/evm/evm-bridge/src/lib.rs]: the calls that read the name, the symbol, the
    decimals, the supply and the balances of an ERC20 contract, the call that transfers,
    and the decoding of what contracts return. The pallet keeps no state. It runs on the
    trait [EVM] of [lib-serml/support/src/lib.rs] (class [EVM]), which the EVM pallet of
    [EvmRunner] implements, and provides what [EvmManager] and [Currencies] ask for. *)

From S2P Require Import Prelude Currency EvmManager EvmMeter Evm EvmRunner.

Abbreviation InvokeContext := EvmRunner.InvokeContext.

(** [support::EVM]. *)
Class EVM (L X AccountId : Type) : Type := {
  EVM_execute : InvokeContext -> bytes -> Z -> Z -> Z -> ExecutionMode -> M L X CallInfo;
  EVM_get_origin : L -> option AccountId;
  EVM_set_origin : AccountId -> L -> L
}.

(** The modes that look leave no trace. *)
Class EVMLaws (L X AccountId : Type) `{EVM L X AccountId} : Prop := {
  view_discards context input value gas storage l r l' :
    EVM_execute context input value gas storage ViewMode l = (r, l') -> l' = l
}.

(** The part of [support::EVMBridge] that moves tokens; [EvmManager.EVMBridge] is the rest. *)
Class Erc20Bridge (L X AccountId : Type) : Type := {
  erc20_total_supply : InvokeContext -> M L X Z;
  erc20_balance_of : InvokeContext -> H160 -> M L X Z;
  erc20_transfer : InvokeContext -> H160 -> Z -> M L X unit;
  erc20_get_origin : L -> option AccountId;
  erc20_set_origin : AccountId -> L -> L
}.

Inductive BridgeError : Type :=
| ExecutionFail
| ExecutionRevert
| ExecutionFatal
| ExecutionError
| InvalidReturnValue.

Definition METHOD_NAME : Z := 0x06fdde03.
Definition METHOD_SYMBOL : Z := 0x95d89b41.
Definition METHOD_DECIMALS : Z := 0x313ce567.
Definition METHOD_TOTAL_SUPPLY : Z := 0x18160ddd.
Definition METHOD_BALANCE_OF : Z := 0x70a08231.
Definition METHOD_TRANSFER : Z := 0xa9059cbb.

(** ** What contracts return *)

Definition zlength (l : bytes) : Z := Z.of_nat (length l).

(** [U256::from(&[u8])]: big-endian, and no more than thirty-two bytes. *)
Definition u256_from_slice {E : Type} (l : bytes) : outcome E Z :=
  if zlength l <=? 32 then Ok (from_be l) else Panic.

(** [saturated_into]. *)
Definition saturated_into (w v : Z) : Z := Z.min v (umax w).

Definition handle_exit_reason (exit_reason : ExitReason) : outcome BridgeError unit :=
  match exit_reason with
  | Succeed Returned => Ok tt
  | Succeed Stopped => Ok tt
  | Succeed _ => Err ExecutionFail
  | Revert => Err ExecutionRevert
  | Fatal _ => Err ExecutionFatal
  | Error _ => Err ExecutionError
  end.

Section Decode.
(** The width of [usize]. *)
Variable usize : Z.

Definition as_usize {E : Type} (v : Z) : outcome E Z := if v <=? umax usize then Ok v else Panic.

(** [&output[a..b]]. *)
Definition slice_range {E : Type} (output : bytes) (a b : Z) : outcome E bytes :=
  if (a <=? b) && (b <=? zlength output) then Ok (slice (Z.to_nat a) (Z.to_nat (b - a)) output) else Panic.

Definition decode_string (output : bytes) : outcome BridgeError bytes :=
  do? oensure ((64 <=? zlength output) && (zlength output mod 32 =? 0)) InvalidReturnValue in
  let offset := from_be (take 32 output) in
  let? o := as_usize offset in
  let? word := slice_range output o (wrap usize (o + 32)) in
  let length := from_be word in
  let? n := as_usize length in
  let last := wrap usize (wrap usize (o + 32) + n) in
  do? oensure (last <=? zlength output) InvalidReturnValue in
  slice_range output (wrap usize (o + 32)) last.

(** ** The calls *)

Section Bridge.
Context {L X AccountId : Type} `{!EVM L X AccountId}.

Abbreviation Run := (M L (BridgeError + X)).

Definition method (m : Z) : bytes := be_bytes 4 m.

Definition on_evm {A : Type} (m : M L X A) : Run A := zoom (fun l => l) (fun l _ => l) inr m.

Definition view (context : InvokeContext) (input : bytes) : Run CallInfo :=
  on_evm (EVM_execute context input 0 2100000 0 ViewMode).

(** A result of this pallet. *)
Definition lift {A : Type} (o : outcome BridgeError A) : Run A := fun l =>
  (match o with Ok a => Ok a | Err e => Err (inl e) | Panic => Panic end, l).

Definition bridge_name_call (context : InvokeContext) : Run bytes :=
  let! info := view context (method METHOD_NAME) in
  do! lift (handle_exit_reason (call_exit_reason info)) in
  lift (decode_string (call_output info)).

Definition bridge_symbol_call (context : InvokeContext) : Run bytes :=
  let! info := view context (method METHOD_SYMBOL) in
  do! lift (handle_exit_reason (call_exit_reason info)) in
  lift (decode_string (call_output info)).

Definition bridge_decimals_call (context : InvokeContext) : Run Z :=
  let! info := view context (method METHOD_DECIMALS) in
  do! lift (handle_exit_reason (call_exit_reason info)) in
  do! lift (oensure (zlength (call_output info) =? 32) InvalidReturnValue) in
  let! value := lift (u256_from_slice (call_output info)) in
  ret (saturated_into 8 value).

Definition bridge_total_supply (context : InvokeContext) : Run Z :=
  let! info := view context (method METHOD_TOTAL_SUPPLY) in
  do! lift (handle_exit_reason (call_exit_reason info)) in
  do! lift (oensure (zlength (call_output info) =? 32) InvalidReturnValue) in
  let! value := lift (u256_from_slice (call_output info)) in
  ret (saturated_into 128 value).

Definition bridge_balance_of (context : InvokeContext) (address : H160) : Run Z :=
  let! info := view context (method METHOD_BALANCE_OF ++ be_bytes 32 address) in
  do! lift (handle_exit_reason (call_exit_reason info)) in
  let! value := lift (u256_from_slice (call_output info)) in
  ret (saturated_into 128 value).

Definition transfer_input (to : H160) (value : Z) : bytes :=
  method METHOD_TRANSFER ++ be_bytes 32 to ++ be_bytes 32 (saturated_into 128 value).

Definition bridge_transfer (context : InvokeContext) (to : H160) (value : Z) : Run unit :=
  let storage_limit := if invoke_origin context =? 0 then 0 else 1000 in
  let! info := on_evm (EVM_execute context (transfer_input to value) 0 2100000 storage_limit ExecuteMode) in
  do! lift (handle_exit_reason (call_exit_reason info)) in
  let bytes := be_bytes 32 1 in
  lift (oensure (negb (zlength (call_output info) =? 0) && bool_decide (call_output info = bytes)) InvalidReturnValue).

#[export] Instance bridge_transfers : Erc20Bridge L (BridgeError + X) AccountId := {|
  erc20_total_supply := bridge_total_supply;
  erc20_balance_of := bridge_balance_of;
  erc20_transfer := bridge_transfer;
  erc20_get_origin := EVM_get_origin;
  erc20_set_origin := EVM_set_origin
|}.

(** The context of [EvmManager] is the same record. *)
Definition context_of (c : EvmManager.InvokeContext) : InvokeContext :=
  MkInvokeContext (ctx_contract c) (ctx_sender c) (ctx_origin c).

#[export] Instance bridge_queries : EVMBridge L (BridgeError + X) := {|
  bridge_name c := bridge_name_call (context_of c);
  bridge_symbol c := bridge_symbol_call (context_of c);
  bridge_decimals c := bridge_decimals_call (context_of c)
|}.

End Bridge.
End Decode.

(** ** The EVM pallet *)

Section Pallet.
Context {L X AccountId Origin : Type} `{!AddressMapping L AccountId} `{!NativeCurrency L X AccountId}.
Context `{G : Gasometers} `{!Interpreter L AccountId}.
Context `{!DispatchErrorStr (EvmError + X)} `{!DispatchErrorInto (EvmError + X)}.
Variable cfg : Config X AccountId Origin.

#[export] Instance pallet_EVM : EVM (Evm.State L AccountId) (EvmError + X) AccountId := {|
  EVM_execute := evm_execute cfg;
  EVM_get_origin := get_origin;
  EVM_set_origin := set_origin
|}.

#[export] Instance pallet_EVM_laws : EVMLaws (Evm.State L AccountId) (EvmError + X) AccountId.
Proof.
  split. intros context input value gas storage l r l'. simpl. unfold evm_execute.
  destruct (runner_call _ _ _ _ _ _ _ _ _ _) as [[info|e|] s']; by intros [= _ <-].
Qed.

End Pallet.
