(* ===== verification/EvmBridgeTheorems.v ===== *)
(** * What a contract can make the bridge do

    The queries write nothing, a transfer succeeds only on the word true, and decoding a
    text returns the bytes that the contract laid out. Two ways in which a contract makes
    the bridge panic are shown as well. *)

From S2P Require Import Prelude Currency EvmManager EvmMeter Evm EvmRunner EvmBridge.

(** ** Decoding *)

Lemma zlength_nonneg l : 0 <= zlength l.
Proof. unfold zlength. lia. Qed.

Lemma slice_range_ok {E : Type} l a b d :
  @slice_range E l a b = Ok d <-> a <= b <= zlength l /\ d = slice (Z.to_nat a) (Z.to_nat (b - a)) l.
Proof.
  unfold slice_range. destruct (Z.leb_spec a b), (Z.leb_spec b (zlength l)); simpl; split; intros Hs;
    first [by naive_solver | destruct Hs; lia].
Qed.

Section Decoding.
Variable usize : Z.
Hypothesis usize_wide : 8 <= usize.

Lemma as_usize_ok {E : Type} v n : @as_usize usize E v = Ok n <-> n = v /\ v <= umax usize.
Proof. unfold as_usize. destruct (Z.leb_spec v (umax usize)); split; intros Hv; naive_solver lia. Qed.

(** A range whose end wraps is refused. *)
Lemma range_ok {E : Type} l a n d :
  0 <= a -> 0 <= n -> a <= umax usize -> n <= umax usize -> zlength l <= umax usize ->
  @slice_range E l a (wrap usize (a + n)) = Ok d <->
  a + n <= zlength l /\ d = slice (Z.to_nat a) (Z.to_nat n) l.
Proof.
  intros Ha Hn Ham Hnm Hl. rewrite slice_range_ok.
  assert (a + n <= umax usize -> wrap usize (a + n) = a + n) as Hfit by (intros; apply wrap_exact; unfold in_uint; lia).
  assert (umax usize < a + n -> wrap usize (a + n) < a) as Hwrap.
  { unfold wrap, umax in *. intros Hgt. assert ((a + n) mod 2 ^ usize = a + n - 2 ^ usize) as ->; [|lia].
    symmetry. apply (Z.mod_unique _ _ 1); lia. }
  destruct (Z.le_gt_cases (a + n) (umax usize)) as [Hle|Hgt].
  - rewrite (Hfit Hle). replace (a + n - a) with n by lia. naive_solver lia.
  - specialize (Hwrap Hgt). lia.
Qed.

(** Decoding succeeds exactly when the two words and the text they describe lie within the
    output, computed without wrapping, and then returns that text. *)
Theorem decode_string_spec output d :
  Forall (fun b => 0 <= b < 256) output -> zlength output <= umax usize ->
  let offset := from_be (take 32 output) in
  let size := from_be (slice (Z.to_nat offset) 32 output) in
  decode_string usize output = Ok d <->
  64 <= zlength output /\ zlength output mod 32 = 0 /\ offset + 32 + size <= zlength output
  /\ d = slice (Z.to_nat (offset + 32)) (Z.to_nat size) output.
Proof.
  intros Hb Hl offset size. assert (32 <= umax usize) as H32.
  { unfold umax. pose proof (Z.pow_le_mono_r 2 8 usize). lia. }
  assert (0 <= offset) as Ho by apply from_be_range, Forall_take, Hb.
  assert (0 <= size) as Hs by (apply from_be_range, Forall_take, Forall_drop, Hb).
  assert (forall d', slice_range (E:=BridgeError) output offset (wrap usize (offset + 32)) = Ok d' -> offset <= umax usize ->
    offset + 32 <= zlength output /\ d' = slice (Z.to_nat offset) 32 output) as Hword.
  { intros d' Hd Hou. by apply range_ok in Hd. }
  unfold decode_string. fold offset. split.
  - intros H. run_step H.
    apply as_usize_ok in R0 as [-> Hou]. apply Hword in R1 as [Hw ->]; [|done].
    fold size in R2, R3, H. apply as_usize_ok in R2 as [-> Hsu].
    rewrite (wrap_exact usize (offset + 32)) in H by (unfold in_uint; lia).
    apply range_ok in H as [Hle ->]; [|lia..]. bool_inv. split_and!; done.
  - intros (H64 & Hmod & Hle & ->).
    rewrite (proj2 (Z.leb_le _ _) H64), (proj2 (Z.eqb_eq _ _) Hmod). simpl.
    rewrite (proj2 (as_usize_ok offset offset)) by lia. simpl.
    rewrite (proj2 (range_ok (E:=BridgeError) output offset 32 _ Ho ltac:(lia) ltac:(lia) ltac:(lia) Hl)) by (split; [lia|done]).
    simpl. change (slice (Z.to_nat offset) (Pos.to_nat 32) output) with (slice (Z.to_nat offset) 32 output). fold size.
    rewrite (proj2 (as_usize_ok size size)) by lia. simpl.
    rewrite (wrap_exact usize (offset + 32)) by (unfold in_uint; lia).
    rewrite (wrap_exact usize (offset + 32 + size)) by (unfold in_uint; lia).
    rewrite (proj2 (Z.leb_le _ _) Hle). simpl. apply slice_range_ok. split; [lia|]. f_equal. lia.
Qed.
(** A text as the ABI lays it out: its offset, its length, its bytes, zeros up to a word. *)
Definition abi_encode_string (text : bytes) : bytes :=
  be_bytes 32 32 ++ be_bytes 32 (zlength text) ++ text ++ repeat 0 (Z.to_nat (- zlength text mod 32)).

Lemma zlength_app l k : zlength (l ++ k) = zlength l + zlength k.
Proof. unfold zlength. rewrite length_app. lia. Qed.

Lemma zlength_be_bytes n v : zlength (be_bytes n v) = Z.of_nat n.
Proof. unfold zlength. by rewrite length_be_bytes. Qed.

Lemma zlength_abi text : zlength (abi_encode_string text) = 64 + zlength text + - zlength text mod 32.
Proof.
  unfold abi_encode_string. rewrite !zlength_app, !zlength_be_bytes. unfold zlength at 2. rewrite repeat_length.
  pose proof (Z.mod_pos_bound (- zlength text) 32). lia.
Qed.

(** A text that a contract returns in the encoding of the ABI is read back, as long as the
    machine can address it. *)
Theorem decode_encoded_string text :
  Forall (fun b => 0 <= b < 256) text -> zlength text + 96 <= umax usize -> usize <= 64 ->
  decode_string usize (abi_encode_string text) = Ok text.
Proof.
  intros Hb Hl Hu. pose proof (zlength_nonneg text) as Hn. pose proof (Z.mod_pos_bound (- zlength text) 32 ltac:(lia)) as Hm.
  assert (umax usize <= umax 64) as Hmax by (unfold umax; pose proof (Z.pow_le_mono_r 2 usize 64); lia).
  assert (umax 64 < 256 ^ 32) as Hbig by (by vm_compute).
  assert (from_be (take 32 (abi_encode_string text)) = 32) as Hoff.
  { unfold abi_encode_string. rewrite take_app_length' by (by rewrite length_be_bytes). by vm_compute. }
  assert (slice (Z.to_nat 32) 32 (abi_encode_string text) = be_bytes 32 (zlength text)) as Hsize.
  { unfold abi_encode_string, slice. rewrite drop_app_length' by (by rewrite length_be_bytes).
    by rewrite take_app_length' by (by rewrite length_be_bytes). }
  apply decode_string_spec.
  - unfold abi_encode_string. rewrite !Forall_app. split_and!; [apply be_bytes_range..|done|].
    apply Forall_forall. intros x Hx. apply list_elem_of_In, repeat_spec in Hx as ->. lia.
  - rewrite zlength_abi. lia.
  - rewrite Hoff, Hsize, from_be_be_bytes by (simpl Z.of_nat; lia). rewrite zlength_abi. split_and!; [lia| |lia|].
    + rewrite Z.add_comm, Z.add_assoc. replace (- zlength text mod 32 + 64 + zlength text) with
        (64 + (zlength text + - zlength text mod 32)) by lia.
      pose proof (Z.div_mod (- zlength text) 32 ltac:(lia)).
      symmetry. apply (Z.mod_unique _ _ (2 - (- zlength text) / 32)); lia.
    + unfold abi_encode_string, slice. rewrite app_assoc.
      rewrite drop_app_length' by (by rewrite length_app, !length_be_bytes).
      by rewrite take_app_length' by (unfold zlength; lia).
Qed.

(** A contract that returns an aligned output whose first word points beyond its end makes
    the decoding panic: the range is taken before it is compared with the length. *)
Theorem decode_string_panics output :
  64 <= zlength output -> zlength output mod 32 = 0 -> zlength output <= umax usize ->
  zlength output < from_be (take 32 output) + 32 -> decode_string usize output = Panic.
Proof.
  intros H64 Hmod Hl Ho. unfold decode_string.
  rewrite (proj2 (Z.leb_le _ _) H64), (proj2 (Z.eqb_eq _ _) Hmod). simpl.
  set (o := from_be _) in *. unfold as_usize. destruct (Z.leb_spec o (umax usize)) as [Hou|]; [simpl|done].
  destruct (slice_range output o (wrap usize (o + 32))) as [d|e|] eqn:E; [|by unfold slice_range in E; case_match|done].
  assert (umax usize < o + 32 -> 0 <= o) by lia.
  apply slice_range_ok in E as [HE _]. unfold wrap, umax in *.
  destruct (Z.lt_ge_cases (o + 32) (2 ^ usize)) as [Hlt|Hge].
  - rewrite Z.mod_small in HE by lia. lia.
  - assert ((o + 32) mod 2 ^ usize = o + 32 - 2 ^ usize) as Hw; [|lia].
    pose proof (Z.pow_le_mono_r 2 8 usize). symmetry. apply (Z.mod_unique _ _ 1); lia.
Qed.

End Decoding.

(** ** The calls *)

Section Calls.
Context {L X AccountId : Type} `{!EVM L X AccountId} `{!EVMLaws L X AccountId}.
Variable usize : Z.

(** A call that leaves the storage as it is, however it ends. *)
Definition looks {A : Type} (m : M L (BridgeError + X) A) : Prop := forall l r l', m l = (r, l') -> l' = l.

Lemma looks_bind {A B : Type} (m : M L (BridgeError + X) A) (k : A -> M L (BridgeError + X) B) :
  looks m -> (forall a, looks (k a)) -> looks (bind m k).
Proof.
  intros Hm Hk l r l'. unfold bind. destruct (m l) as [[a|e|] l1] eqn:E; pose proof (Hm _ _ _ E) as ->.
  - apply Hk.
  - by intros [= _ <-].
  - by intros [= _ <-].
Qed.

Lemma looks_lift {A : Type} (o : outcome BridgeError A) : looks (lift o).
Proof. by intros l r l' [= _ <-]. Qed.

Lemma looks_view context input : looks (view context input).
Proof.
  intros l r l'. unfold view, on_evm, zoom. destruct (EVM_execute _ _ _ _ _ _ _) as [o l1] eqn:E.
  apply view_discards in E as ->. destruct o; by intros [= _ <-].
Qed.

Lemma looks_ret {A : Type} (a : A) : looks (ret a).
Proof. by intros l r l' [= _ <-]. Qed.

Hint Resolve looks_bind looks_lift looks_view looks_ret : looks.

(** Asking a contract for its name, symbol, decimals, supply or a balance leaves no trace,
    whatever code the contract has and however the call ends. *)
Theorem queries_write_nothing context address :
  looks (bridge_name_call usize context) /\ looks (bridge_symbol_call usize context)
  /\ looks (bridge_decimals_call context) /\ looks (bridge_total_supply context)
  /\ looks (bridge_balance_of context address).
Proof.
  unfold bridge_name_call, bridge_symbol_call, bridge_decimals_call, bridge_total_supply, bridge_balance_of.
  split_and!; repeat (apply looks_bind; [auto with looks|intros ?]); auto with looks.
Qed.

(** The balance read from a contract fits [u128]; an output of more than thirty-two bytes,
    whose length is not looked at, makes the call panic. *)
Theorem balance_of_panics_on_long_output context address l info l' :
  EVM_execute context (method METHOD_BALANCE_OF ++ be_bytes 32 address) 0 2100000 0 ViewMode l = (Ok info, l') ->
  call_exit_reason info = Succeed Returned -> 32 < zlength (call_output info) ->
  bridge_balance_of context address l = (Panic, l).
Proof.
  intros H Hr Hlen. pose proof (view_discards _ _ _ _ _ _ _ _ H) as ->.
  unfold bridge_balance_of, view, on_evm, bind, zoom. rewrite H. unfold lift. rewrite Hr. simpl.
  unfold u256_from_slice. by rewrite (proj2 (Z.leb_gt _ _) Hlen).
Qed.

(** A transfer succeeds only if the call of [transfer(to, value)] ended well and returned
    the word one; an account without code returns nothing and does not pass. *)
Theorem transfer_returned_true context to value l l' :
  bridge_transfer context to value l = (Ok tt, l') ->
  exists info, EVM_execute context (transfer_input to value) 0 2100000
                 (if invoke_origin context =? 0 then 0 else 1000) ExecuteMode l = (Ok info, l')
    /\ (call_exit_reason info = Succeed Returned \/ call_exit_reason info = Succeed Stopped)
    /\ call_output info = be_bytes 32 1.
Proof.
  unfold bridge_transfer, on_evm, bind, zoom. destruct (EVM_execute _ _ _ _ _ _ _) as [[info|e|] l1]; [|done..].
  unfold lift. destruct (handle_exit_reason _) as [[]|e|] eqn:Hr; [|done..].
  destruct (oensure _ _) as [[]|e|] eqn:Ho; [|done..]. intros [= <-]. exists info. split; [done|].
  apply oensure_ok in Ho. apply andb_true_iff in Ho as [_ Ho]. apply bool_decide_eq_true in Ho. split; [|done].
  unfold handle_exit_reason in Hr. repeat case_match; naive_solver.
Qed.

End Calls.
