(* ===== verification/Currencies.v ===== *)
(** * The currencies pallet: one interface to three kinds of money

    [lib-serml/tokens/currencies/src/lib.rs]. A currency id is an ERC20 contract, the
    native currency, or a token; the pallet sends each operation to the EVM bridge, to
    [T::NativeCurrency] or to [T::MultiCurrency]. Reserved ERC20 tokens are kept at an
    address derived from the owner's. [Pallet] is the dispatch with its calls, [Single] the
    view of the pallet on one currency ([Currency<T, GetCurrencyId>]) and [Adapter] the
    adapter of a currency of the frame ([BasicCurrencyAdapter]). *)

From S2P Require Import Prelude Currency EvmMeter Evm EvmRunner EvmAccounts EvmBridge.

Abbreviation LockIdentifier := Z.

(** ** The traits of [orml_traits] and [frame_support] *)

Class BasicCurrency (L X A : Type) : Type := {
  bc_minimum_balance : M L X Z;
  bc_total_issuance : M L X Z;
  bc_total_balance : A -> M L X Z;
  bc_free_balance : A -> M L X Z;
  bc_ensure_can_withdraw : A -> Z -> M L X unit;
  bc_transfer : A -> A -> Z -> M L X unit;
  bc_deposit : A -> Z -> M L X unit;
  bc_withdraw : A -> Z -> M L X unit;
  bc_can_slash : A -> Z -> M L X bool;
  bc_slash : A -> Z -> M L X Z;
  bc_update_balance : A -> Z -> M L X unit;
  bc_set_lock : LockIdentifier -> A -> Z -> M L X unit;
  bc_extend_lock : LockIdentifier -> A -> Z -> M L X unit;
  bc_remove_lock : LockIdentifier -> A -> M L X unit;
  bc_can_reserve : A -> Z -> M L X bool;
  bc_slash_reserved : A -> Z -> M L X Z;
  bc_reserved_balance : A -> M L X Z;
  bc_reserve : A -> Z -> M L X unit;
  bc_unreserve : A -> Z -> M L X Z;
  bc_repatriate_reserved : A -> A -> Z -> BalanceStatus -> M L X Z
}.

(** The same by currency id. *)
Class MultiCurrencies (L X A : Type) : Type := {
  of_currency : CurrencyId -> BasicCurrency L X A;
  multi_transfer_all : A -> A -> M L X unit
}.

Inductive ExistenceRequirement : Type := KeepAlive | AllowDeath.

(** [Currency], [LockableCurrency] and [ReservableCurrency] of the frame. What is withdrawn
    or deposited is an imbalance, of which the total issuance hears when it is dropped. *)
Class PalletCurrency (L X A Reasons : Type) : Type := {
  all_reasons : Reasons;
  pc_minimum_balance : Z;
  pc_total_issuance : L -> Z;
  pc_total_balance : A -> L -> Z;
  pc_free_balance : A -> L -> Z;
  pc_ensure_can_withdraw : A -> Z -> Reasons -> Z -> M L X unit;
  pc_transfer : A -> A -> Z -> ExistenceRequirement -> M L X unit;
  pc_deposit_creating : A -> Z -> L -> Z * L;
  pc_withdraw : A -> Z -> Reasons -> ExistenceRequirement -> M L X Z;
  pc_can_slash : A -> Z -> L -> bool;
  pc_slash : A -> Z -> L -> Z * Z * L;
  drop_positive : Z -> L -> L;
  drop_negative : Z -> L -> L;
  pc_set_lock : LockIdentifier -> A -> Z -> Reasons -> L -> L;
  pc_extend_lock : LockIdentifier -> A -> Z -> Reasons -> L -> L;
  pc_remove_lock : LockIdentifier -> A -> L -> L;
  pc_can_reserve : A -> Z -> L -> bool;
  pc_slash_reserved : A -> Z -> L -> Z * Z * L;
  pc_reserved_balance : A -> L -> Z;
  pc_reserve : A -> Z -> M L X unit;
  pc_unreserve : A -> Z -> L -> Z * L;
  pc_repatriate_reserved : A -> A -> Z -> BalanceStatus -> M L X Z
}.

Inductive CurrenciesError : Type :=
| AmountIntoBalanceFailed
| BalanceTooLow
| Erc20InvalidOperation
| EvmAccountNotFound
| BadOrigin
| LookupFailed.

Inductive CurrenciesEvent (A : Type) : Type :=
| Transferred (currency_id : CurrencyId) (from to : A) (amount : Z)
| BalanceUpdated (currency_id : CurrencyId) (who : A) (amount : Z)
| Deposited (currency_id : CurrencyId) (who : A) (amount : Z)
| Withdrawn (currency_id : CurrencyId) (who : A) (amount : Z).

Arguments Transferred {A}.
Arguments BalanceUpdated {A}.
Arguments Deposited {A}.
Arguments Withdrawn {A}.

(** The events of the pallet and the rest of the chain. *)
Record CState (L A : Type) : Type := MkCState {
  events : list (CurrenciesEvent A);
  backend : L
}.

Arguments MkCState {L A}.
Arguments events {L A}.
Arguments backend {L A}.

Definition set_backend {L A : Type} (l : L) (s : CState L A) : CState L A := MkCState (events s) l.

Definition deposit_event {L A : Type} (e : CurrenciesEvent A) (s : CState L A) : CState L A :=
  MkCState (events s ++ [e]) (backend s).

(** The arms of [match currency_id]. *)
Definition by_currency {B : Type} (native_id currency_id : CurrencyId) (erc20 : H160 -> B) (native multi : B) : B :=
  match currency_id with
  | Erc20 contract => erc20 contract
  | _ => if currency_eqb currency_id native_id then native else multi
  end.

Module Pallet.
Section Pallet.
Context {L X A : Type}.
Context {NC : BasicCurrency L X A} {MC : MultiCurrencies L X A} `{!AddressMapping L A} `{!Erc20Bridge L X A}.
Context `{!EqDecision A}.
Variable crypto : Crypto.
Variable GetNativeCurrencyId : CurrencyId.
Variable default_account : A.

Abbreviation St := (CState L A).
Abbreviation Run := (M St (CurrenciesError + X)).

Definition on_backend {B : Type} (m : M L X B) : Run B := zoom backend set_backend inr m.

Definition unwrap_or_default (m : M L X Z) : Run Z :=
  let! o := try_run (on_backend m) in ret (default 0 o).

(** [reserve_address]. *)
Definition erc20_prefix : bytes := [101; 114; 99; 50; 48; 58].

Definition reserve_address (address : H160) : H160 :=
  from_be (take 20 (blake2_256 crypto (erc20_prefix ++ be_bytes 20 address))).

(** The context of a query. *)
Definition query_context (contract : H160) : EvmRunner.InvokeContext := MkInvokeContext contract 0 0.

Definition erc20_balance (contract : H160) (address : H160) : Run Z :=
  unwrap_or_default (erc20_balance_of (query_context contract) address).

(** The balance of an account: nothing when it has no address. *)
Definition erc20_balance_of_account (contract : H160) (who : A) (at_address : H160 -> H160) : Run Z :=
  let! o := gets (fun s => get_evm_address who (backend s)) in
  match o with
  | Some address => erc20_balance contract (at_address address)
  | None => ret 0
  end.

Definition get_or_create (who : A) : Run H160 := fun s =>
  let '(address, l) := get_or_create_evm_address who (backend s) in (Ok address, set_backend l s).

Definition evm_address_of (who : A) : Run H160 :=
  let! o := gets (fun s => get_evm_address who (backend s)) in ok_or o (inl EvmAccountNotFound).

Abbreviation by_id := (by_currency GetNativeCurrencyId).

(** ** [MultiCurrency] *)

Definition minimum_balance (currency_id : CurrencyId) : Run Z :=
  by_id currency_id (fun _ => ret 0)
    (on_backend (@bc_minimum_balance _ _ _ NC))
    (on_backend (@bc_minimum_balance _ _ _ (of_currency currency_id))).

Definition total_issuance (currency_id : CurrencyId) : Run Z :=
  by_id currency_id (fun contract => unwrap_or_default (erc20_total_supply (query_context contract)))
    (on_backend (@bc_total_issuance _ _ _ NC))
    (on_backend (@bc_total_issuance _ _ _ (of_currency currency_id))).

Definition total_balance (currency_id : CurrencyId) (who : A) : Run Z :=
  by_id currency_id (fun contract => erc20_balance_of_account contract who (fun a => a))
    (on_backend (@bc_total_balance _ _ _ NC who))
    (on_backend (@bc_total_balance _ _ _ (of_currency currency_id) who)).

Definition free_balance (currency_id : CurrencyId) (who : A) : Run Z :=
  by_id currency_id (fun contract => erc20_balance_of_account contract who (fun a => a))
    (on_backend (@bc_free_balance _ _ _ NC who))
    (on_backend (@bc_free_balance _ _ _ (of_currency currency_id) who)).

Definition ensure_can_withdraw (currency_id : CurrencyId) (who : A) (amount : Z) : Run unit :=
  by_id currency_id
    (fun contract =>
       let! address := evm_address_of who in
       let! balance := erc20_balance contract address in
       ensure (amount <=? balance) (inl BalanceTooLow))
    (on_backend (@bc_ensure_can_withdraw _ _ _ NC who amount))
    (on_backend (@bc_ensure_can_withdraw _ _ _ (of_currency currency_id) who amount)).

Definition erc20_transfer_from (contract : H160) (from to : A) (amount : Z) : Run unit :=
  let! sender := evm_address_of from in
  let! o := gets (fun s => erc20_get_origin (backend s)) in
  let origin := default default_account o in
  let! origin_address := get_or_create origin in
  let! address := get_or_create to in
  on_backend (erc20_transfer (MkInvokeContext contract sender origin_address) address amount).

Definition transfer (currency_id : CurrencyId) (from to : A) (amount : Z) : Run unit :=
  if (amount =? 0) || bool_decide (from = to) then ret tt
  else
    do! by_id currency_id (fun contract => erc20_transfer_from contract from to amount)
          (on_backend (@bc_transfer _ _ _ NC from to amount))
          (on_backend (@bc_transfer _ _ _ (of_currency currency_id) from to amount)) in
    modify (deposit_event (Transferred currency_id from to amount)).

Definition deposit (currency_id : CurrencyId) (who : A) (amount : Z) : Run unit :=
  if amount =? 0 then ret tt
  else
    do! by_id currency_id (fun _ => fail (inl Erc20InvalidOperation))
          (on_backend (@bc_deposit _ _ _ NC who amount))
          (on_backend (@bc_deposit _ _ _ (of_currency currency_id) who amount)) in
    modify (deposit_event (Deposited currency_id who amount)).

Definition withdraw (currency_id : CurrencyId) (who : A) (amount : Z) : Run unit :=
  if amount =? 0 then ret tt
  else
    do! by_id currency_id (fun _ => fail (inl Erc20InvalidOperation))
          (on_backend (@bc_withdraw _ _ _ NC who amount))
          (on_backend (@bc_withdraw _ _ _ (of_currency currency_id) who amount)) in
    modify (deposit_event (Withdrawn currency_id who amount)).

Definition can_slash (currency_id : CurrencyId) (who : A) (amount : Z) : Run bool :=
  by_id currency_id (fun _ => ret false)
    (on_backend (@bc_can_slash _ _ _ NC who amount))
    (on_backend (@bc_can_slash _ _ _ (of_currency currency_id) who amount)).

(** What could not be slashed. *)
Definition slash (currency_id : CurrencyId) (who : A) (amount : Z) : Run Z :=
  by_id currency_id (fun _ => ret 0)
    (on_backend (@bc_slash _ _ _ NC who amount))
    (on_backend (@bc_slash _ _ _ (of_currency currency_id) who amount)).

(** ** [MultiCurrencyExtended] *)

Definition update_balance (currency_id : CurrencyId) (who : A) (by_amount : Z) : Run unit :=
  do! by_id currency_id (fun _ => fail (inl Erc20InvalidOperation))
        (on_backend (@bc_update_balance _ _ _ NC who by_amount))
        (on_backend (@bc_update_balance _ _ _ (of_currency currency_id) who by_amount)) in
  modify (deposit_event (BalanceUpdated currency_id who by_amount)).

(** ** [MultiLockableCurrency] *)

Definition set_lock (lock_id : LockIdentifier) (currency_id : CurrencyId) (who : A) (amount : Z) : Run unit :=
  by_id currency_id (fun _ => fail (inl Erc20InvalidOperation))
    (on_backend (@bc_set_lock _ _ _ NC lock_id who amount))
    (on_backend (@bc_set_lock _ _ _ (of_currency currency_id) lock_id who amount)).

Definition extend_lock (lock_id : LockIdentifier) (currency_id : CurrencyId) (who : A) (amount : Z) : Run unit :=
  by_id currency_id (fun _ => fail (inl Erc20InvalidOperation))
    (on_backend (@bc_extend_lock _ _ _ NC lock_id who amount))
    (on_backend (@bc_extend_lock _ _ _ (of_currency currency_id) lock_id who amount)).

Definition remove_lock (lock_id : LockIdentifier) (currency_id : CurrencyId) (who : A) : Run unit :=
  by_id currency_id (fun _ => fail (inl Erc20InvalidOperation))
    (on_backend (@bc_remove_lock _ _ _ NC lock_id who))
    (on_backend (@bc_remove_lock _ _ _ (of_currency currency_id) lock_id who)).

(** ** [MultiReservableCurrency] *)

Definition is_ok (m : Run unit) : Run bool :=
  let! o := try_run m in ret (match o with Some _ => true | None => false end).

Definition can_reserve (currency_id : CurrencyId) (who : A) (value : Z) : Run bool :=
  by_id currency_id (fun _ => is_ok (ensure_can_withdraw currency_id who value))
    (on_backend (@bc_can_reserve _ _ _ NC who value))
    (on_backend (@bc_can_reserve _ _ _ (of_currency currency_id) who value)).

Definition slash_reserved (currency_id : CurrencyId) (who : A) (value : Z) : Run Z :=
  by_id currency_id (fun _ => ret value)
    (on_backend (@bc_slash_reserved _ _ _ NC who value))
    (on_backend (@bc_slash_reserved _ _ _ (of_currency currency_id) who value)).

Definition reserved_balance (currency_id : CurrencyId) (who : A) : Run Z :=
  by_id currency_id (fun contract => erc20_balance_of_account contract who reserve_address)
    (on_backend (@bc_reserved_balance _ _ _ NC who))
    (on_backend (@bc_reserved_balance _ _ _ (of_currency currency_id) who)).

Definition erc20_reserve (contract : H160) (who : A) (value : Z) : Run unit :=
  if value =? 0 then ret tt
  else
    let! address := evm_address_of who in
    on_backend (erc20_transfer (MkInvokeContext contract address address) (reserve_address address) value).

Definition reserve (currency_id : CurrencyId) (who : A) (value : Z) : Run unit :=
  by_id currency_id (fun contract => erc20_reserve contract who value)
    (on_backend (@bc_reserve _ _ _ NC who value))
    (on_backend (@bc_reserve _ _ _ (of_currency currency_id) who value)).

(** What could not be unreserved. *)
Definition erc20_unreserve (contract : H160) (who : A) (value : Z) : Run Z :=
  if value =? 0 then ret value
  else
    let! o := gets (fun s => get_evm_address who (backend s)) in
    match o with
    | Some address =>
        let sender := reserve_address address in
        let! reserved := erc20_balance contract sender in
        let actual := Z.min reserved value in
        let! sent := try_run (on_backend (erc20_transfer (MkInvokeContext contract sender address) address actual)) in
        ret (match sent with Some _ => value - actual | None => value end)
    | None => ret value
    end.

Definition unreserve (currency_id : CurrencyId) (who : A) (value : Z) : Run Z :=
  by_id currency_id (fun contract => erc20_unreserve contract who value)
    (on_backend (@bc_unreserve _ _ _ NC who value))
    (on_backend (@bc_unreserve _ _ _ (of_currency currency_id) who value)).

(** What could not be moved. *)
Definition erc20_repatriate (contract : H160) (slashed beneficiary : A) (value : Z) (status : BalanceStatus) : Run Z :=
  if value =? 0 then ret value
  else if bool_decide (slashed = beneficiary) then
    match status with
    | Free => unreserve (Erc20 contract) slashed value
    | Reserved => let! reserved := reserved_balance (Erc20 contract) slashed in ret (sat_sub value reserved)
    end
  else
    let! slashed_address := evm_address_of slashed in
    let! beneficiary_address := get_or_create beneficiary in
    let slashed_reserve_address := reserve_address slashed_address in
    let beneficiary_reserve_address := reserve_address beneficiary_address in
    let! reserved := erc20_balance contract slashed_reserve_address in
    let actual := Z.min reserved value in
    let context := MkInvokeContext contract slashed_reserve_address slashed_address in
    do! (match status with
         | Free => on_backend (erc20_transfer context beneficiary_address actual)
         | Reserved => on_backend (erc20_transfer context beneficiary_reserve_address actual)
         end) in
    ret (value - actual).

Definition repatriate_reserved (currency_id : CurrencyId) (slashed beneficiary : A) (value : Z)
    (status : BalanceStatus) : Run Z :=
  by_id currency_id (fun contract => erc20_repatriate contract slashed beneficiary value status)
    (on_backend (@bc_repatriate_reserved _ _ _ NC slashed beneficiary value status))
    (on_backend (@bc_repatriate_reserved _ _ _ (of_currency currency_id) slashed beneficiary value status)).

(** ** [TransferAll] *)

Definition transfer_all (source dest : A) : Run unit :=
  transactional (
    do! on_backend (multi_transfer_all source dest) in
    let! free := on_backend (@bc_free_balance _ _ _ NC source) in
    on_backend (@bc_transfer _ _ _ NC source dest free)).

(** ** The calls: the origin that signed, if any, and the account that was looked up *)

Context {Source : Type} (lookup : Source -> L -> option A).

Definition lookup_account (source : Source) : Run A :=
  let! o := gets (fun s => lookup source (backend s)) in ok_or o (inl LookupFailed).

Definition transfer_call (origin : option A) (dest : Source) (currency_id : CurrencyId) (amount : Z) : Run unit :=
  let! from := ok_or origin (inl BadOrigin) in
  let! to := lookup_account dest in
  transfer currency_id from to amount.

Definition transfer_native_currency (origin : option A) (dest : Source) (amount : Z) : Run unit :=
  let! from := ok_or origin (inl BadOrigin) in
  let! to := lookup_account dest in
  do! on_backend (@bc_transfer _ _ _ NC from to amount) in
  modify (deposit_event (Transferred GetNativeCurrencyId from to amount)).

Definition update_balance_call (is_root : bool) (who : Source) (currency_id : CurrencyId) (amount : Z) : Run unit :=
  do! ensure is_root (inl BadOrigin) in
  let! dest := lookup_account who in
  update_balance currency_id dest amount.

End Pallet.
End Pallet.

(** ** [Currency<T, GetCurrencyId>]: the pallet on one currency *)

Module Single.
Section Single.
Context {L X A : Type}.
Context {NC : BasicCurrency L X A} {MC : MultiCurrencies L X A} `{!AddressMapping L A} `{!Erc20Bridge L X A}.
Context `{!EqDecision A}.
Variable crypto : Crypto.
Variable GetNativeCurrencyId : CurrencyId.
Variable default_account : A.

Definition currency (id : CurrencyId) : BasicCurrency (CState L A) (CurrenciesError + X) A := {|
  bc_minimum_balance := Pallet.minimum_balance GetNativeCurrencyId id;
  bc_total_issuance := Pallet.total_issuance GetNativeCurrencyId id;
  bc_total_balance := Pallet.total_balance GetNativeCurrencyId id;
  bc_free_balance := Pallet.free_balance GetNativeCurrencyId id;
  bc_ensure_can_withdraw := Pallet.ensure_can_withdraw GetNativeCurrencyId id;
  bc_transfer := Pallet.transfer GetNativeCurrencyId default_account id;
  bc_deposit := Pallet.deposit GetNativeCurrencyId id;
  bc_withdraw := Pallet.withdraw GetNativeCurrencyId id;
  bc_can_slash := Pallet.can_slash GetNativeCurrencyId id;
  bc_slash := Pallet.slash GetNativeCurrencyId id;
  bc_update_balance := Pallet.update_balance GetNativeCurrencyId id;
  bc_set_lock lock_id := Pallet.set_lock GetNativeCurrencyId lock_id id;
  bc_extend_lock lock_id := Pallet.extend_lock GetNativeCurrencyId lock_id id;
  bc_remove_lock lock_id := Pallet.remove_lock GetNativeCurrencyId lock_id id;
  bc_can_reserve := Pallet.can_reserve GetNativeCurrencyId id;
  bc_slash_reserved := Pallet.slash_reserved GetNativeCurrencyId id;
  bc_reserved_balance := Pallet.reserved_balance crypto GetNativeCurrencyId id;
  bc_reserve := Pallet.reserve crypto GetNativeCurrencyId id;
  bc_unreserve := Pallet.unreserve crypto GetNativeCurrencyId id;
  bc_repatriate_reserved := Pallet.repatriate_reserved crypto GetNativeCurrencyId id
|}.

End Single.
End Single.

(** The pallet is again a family of currencies. *)
Definition pallet_currencies {L X A : Type} {NC : BasicCurrency L X A} {MC : MultiCurrencies L X A}
    `{!AddressMapping L A} `{!Erc20Bridge L X A} `{!EqDecision A} (crypto : Crypto) (native : CurrencyId)
    (default_account : A) : MultiCurrencies (CState L A) (CurrenciesError + X) A := {|
  of_currency := Single.currency crypto native default_account;
  multi_transfer_all := Pallet.transfer_all
|}.

(** ** [BasicCurrencyAdapter] *)

Module Adapter.
Section Adapter.
Context {L X A Reasons : Type} {PC : PalletCurrency L X A Reasons}.
(** The width of [Amount]. *)
Variable amount_bits : Z.

Abbreviation Run := (M L (CurrenciesError + X)).

Definition on_pallet {B : Type} (m : M L X B) : Run B := zoom (fun l => l) (fun l _ => l) inr m.

Definition ensure_can_withdraw (who : A) (amount : Z) : Run unit :=
  let! l := get in
  let! new_balance := ok_or (checked_sub (pc_free_balance who l) amount) (inl BalanceTooLow) in
  on_pallet (pc_ensure_can_withdraw who amount all_reasons new_balance).

Definition transfer (from to : A) (amount : Z) : Run unit :=
  on_pallet (pc_transfer from to amount AllowDeath).

(** [let _ = deposit_creating(..)]: the imbalance is dropped. *)
Definition deposit (who : A) (amount : Z) : Run unit :=
  modify (fun l => let '(imbalance, l) := pc_deposit_creating who amount l in drop_positive imbalance l).

Definition withdraw (who : A) (amount : Z) : Run unit :=
  let! imbalance := on_pallet (pc_withdraw who amount all_reasons AllowDeath) in
  modify (drop_negative imbalance).

Definition slash (who : A) (amount : Z) : Run Z := fun l =>
  let '(imbalance, gap, l) := pc_slash who amount l in (Ok gap, drop_negative imbalance l).

(** [abs] of a signed integer, where the least one is its own, and [try_into] the unsigned
    type of the same width. *)
Definition i_abs (v : Z) : Z := if v =? - 2 ^ (amount_bits - 1) then v else Z.abs v.

Definition try_into_balance (v : Z) : option Z := if 0 <=? v then Some v else None.

Definition update_balance (who : A) (by_amount : Z) : Run unit :=
  let! by_balance := ok_or (try_into_balance (i_abs by_amount)) (inl AmountIntoBalanceFailed) in
  if 0 <? by_amount then deposit who by_balance else withdraw who by_balance.

Definition set_lock (lock_id : LockIdentifier) (who : A) (amount : Z) : Run unit :=
  modify (pc_set_lock lock_id who amount all_reasons).

Definition extend_lock (lock_id : LockIdentifier) (who : A) (amount : Z) : Run unit :=
  modify (pc_extend_lock lock_id who amount all_reasons).

Definition remove_lock (lock_id : LockIdentifier) (who : A) : Run unit := modify (pc_remove_lock lock_id who).

Definition slash_reserved (who : A) (value : Z) : Run Z := fun l =>
  let '(imbalance, gap, l) := pc_slash_reserved who value l in (Ok gap, drop_negative imbalance l).

Definition unreserve (who : A) (value : Z) : Run Z := fun l =>
  let '(gap, l) := pc_unreserve who value l in (Ok gap, l).

#[export] Instance adapter : BasicCurrency L (CurrenciesError + X) A := {|
  bc_minimum_balance := ret pc_minimum_balance;
  bc_total_issuance := gets pc_total_issuance;
  bc_total_balance who := gets (pc_total_balance who);
  bc_free_balance who := gets (pc_free_balance who);
  bc_ensure_can_withdraw := ensure_can_withdraw;
  bc_transfer := transfer;
  bc_deposit := deposit;
  bc_withdraw := withdraw;
  bc_can_slash who amount := gets (pc_can_slash who amount);
  bc_slash := slash;
  bc_update_balance := update_balance;
  bc_set_lock := set_lock;
  bc_extend_lock := extend_lock;
  bc_remove_lock := remove_lock;
  bc_can_reserve who value := gets (pc_can_reserve who value);
  bc_slash_reserved := slash_reserved;
  bc_reserved_balance who := gets (pc_reserved_balance who);
  bc_reserve who value := on_pallet (pc_reserve who value);
  bc_unreserve := unreserve;
  bc_repatriate_reserved slashed beneficiary value status :=
    on_pallet (pc_repatriate_reserved slashed beneficiary value status)
|}.

End Adapter.
End Adapter.
