(* ===== verification/CurrenciesTheorems.v ===== *)
(** * What the currencies pallet promises

    One currency of the pallet behaves as the currency behind it, and the tokens of a
    standard ERC20 contract are moved, reserved and unreserved without any being made or
    lost. The cryptographic hash that derives the address of reserved tokens, and the
    contracts, enter as hypotheses. *)

From S2P Require Import Prelude Currency EvmManager EvmMeter Evm EvmRunner EvmAccounts EvmAccountsTheorems EvmBridge EvmBridgeTheorems Currencies.

(** ** A program of the pallet that is a program of the backend, up to events *)

Section Same.
Context {L X A : Type}.

Definition map_err {B : Type} (o : outcome X B) : outcome (CurrenciesError + X) B :=
  match o with Ok b => Ok b | Err x => Err (inr x) | Panic => Panic end.

Definition same {B : Type} (m : M (CState L A) (CurrenciesError + X) B) (n : M L X B) : Prop :=
  forall s, (m s).1 = map_err (n (backend s)).1 /\ backend (m s).2 = (n (backend s)).2.

Lemma same_on_backend {B : Type} (n : M L X B) : same (Pallet.on_backend n) n.
Proof. intros s. unfold Pallet.on_backend, zoom. by destruct (n (backend s)) as [[b|x|] l]. Qed.

(** An event at the end. *)
Lemma same_then_event (m : M (CState L A) (CurrenciesError + X) unit) n e :
  same m n -> same (do! m in modify (deposit_event e)) n.
Proof.
  intros H s. specialize (H s). unfold bind. destruct (m s) as [[[]|x|] s'], (n (backend s)) as [[[]|y|] l];
    destruct H as [H1 H2]; simpl in *; simplify_eq; done.
Qed.

(** A shortcut that the backend takes as well. *)
Lemma same_shortcut (b : bool) m n :
  (b = true -> forall l, n l = (Ok tt, l)) -> same m n -> same (if b then ret tt else m) n.
Proof. intros Hb Hm. destruct b; [|done]. intros s. by rewrite Hb. Qed.

End Same.

(** Two currencies agree in every operation, up to the events. *)
Record equivalent {L X A : Type} (C : BasicCurrency (CState L A) (CurrenciesError + X) A) (B : BasicCurrency L X A) : Prop := {
  eq_minimum_balance : same (@bc_minimum_balance _ _ _ C) bc_minimum_balance;
  eq_total_issuance : same (@bc_total_issuance _ _ _ C) bc_total_issuance;
  eq_total_balance a : same (@bc_total_balance _ _ _ C a) (bc_total_balance a);
  eq_free_balance a : same (@bc_free_balance _ _ _ C a) (bc_free_balance a);
  eq_ensure_can_withdraw a v : same (@bc_ensure_can_withdraw _ _ _ C a v) (bc_ensure_can_withdraw a v);
  eq_transfer a b v : same (@bc_transfer _ _ _ C a b v) (bc_transfer a b v);
  eq_deposit a v : same (@bc_deposit _ _ _ C a v) (bc_deposit a v);
  eq_withdraw a v : same (@bc_withdraw _ _ _ C a v) (bc_withdraw a v);
  eq_can_slash a v : same (@bc_can_slash _ _ _ C a v) (bc_can_slash a v);
  eq_slash a v : same (@bc_slash _ _ _ C a v) (bc_slash a v);
  eq_update_balance a v : same (@bc_update_balance _ _ _ C a v) (bc_update_balance a v);
  eq_set_lock i a v : same (@bc_set_lock _ _ _ C i a v) (bc_set_lock i a v);
  eq_extend_lock i a v : same (@bc_extend_lock _ _ _ C i a v) (bc_extend_lock i a v);
  eq_remove_lock i a : same (@bc_remove_lock _ _ _ C i a) (bc_remove_lock i a);
  eq_can_reserve a v : same (@bc_can_reserve _ _ _ C a v) (bc_can_reserve a v);
  eq_slash_reserved a v : same (@bc_slash_reserved _ _ _ C a v) (bc_slash_reserved a v);
  eq_reserved_balance a : same (@bc_reserved_balance _ _ _ C a) (bc_reserved_balance a);
  eq_reserve a v : same (@bc_reserve _ _ _ C a v) (bc_reserve a v);
  eq_unreserve a v : same (@bc_unreserve _ _ _ C a v) (bc_unreserve a v);
  eq_repatriate a b v st : same (@bc_repatriate_reserved _ _ _ C a b v st) (bc_repatriate_reserved a b v st)
}.

(** Moving nothing, or to oneself, is allowed and changes nothing. *)
Class BasicCurrencyLaws (L X A : Type) (B : BasicCurrency L X A) : Prop := {
  transfer_nothing a b l : bc_transfer a b 0 l = (Ok tt, l);
  transfer_to_oneself a v l : bc_transfer a a v l = (Ok tt, l);
  deposit_nothing a l : bc_deposit a 0 l = (Ok tt, l);
  withdraw_nothing a l : bc_withdraw a 0 l = (Ok tt, l)
}.

Section Dispatch.
Context {L X A : Type}.
Context {NC : BasicCurrency L X A} {MC : MultiCurrencies L X A} `{!AddressMapping L A} `{!Erc20Bridge L X A}.
Context `{!EqDecision A}.
Variable crypto : Crypto.
Variable native : CurrencyId.
Variable default_account : A.

(** The currency behind an id, if it is not a contract. *)
Definition behind (id : CurrencyId) : BasicCurrency L X A :=
  if currency_eqb id native then NC else of_currency id.

Lemma by_currency_behind {B : Type} (id : CurrencyId) (f : H160 -> M (CState L A) (CurrenciesError + X) B)
    (op : BasicCurrency L X A -> M L X B) :
  (forall contract, id <> Erc20 contract) ->
  same (by_currency native id f (Pallet.on_backend (op NC)) (Pallet.on_backend (op (of_currency id)))) (op (behind id)).
Proof.
  intros Hid. unfold by_currency, behind. destruct id; try by destruct (currency_eqb _ _); apply same_on_backend.
  by destruct (Hid a).
Qed.

Ltac dispatched :=
  match goal with
  | |- same ?m ?n =>
      match n with
      | context [behind ?i] =>
          match eval pattern (behind i) in n with
          | ?g _ => apply (by_currency_behind i _ g)
          end
      end
  end.

(** For an id that is not a contract, the view of the pallet on that currency is the native
    currency or the token itself: every operation answers the same, fails the same and
    leaves the same balances behind. *)
Theorem one_currency_is_the_currency_behind id :
  BasicCurrencyLaws L X A (behind id) -> (forall contract, id <> Erc20 contract) ->
  equivalent (Single.currency crypto native default_account id) (behind id).
Proof.
  intros Hlaws Hid.
  split; intros; simpl; try (dispatched; exact Hid).
  - apply same_shortcut; [|apply same_then_event; dispatched; exact Hid].
    intros [->%Z.eqb_eq| ->%bool_decide_eq_true]%orb_true_iff l; [apply transfer_nothing|apply transfer_to_oneself].
  - apply same_shortcut; [|apply same_then_event; dispatched; exact Hid].
    intros ->%Z.eqb_eq l. apply deposit_nothing.
  - apply same_shortcut; [|apply same_then_event; dispatched; exact Hid].
    intros ->%Z.eqb_eq l. apply withdraw_nothing.
  - apply same_then_event; dispatched; exact Hid.
Qed.

(** ** Contracts *)

(** Nothing is issued, destroyed or locked in a contract: such operations are refused and
    leave the storage as it is. Slashing answers that nothing is left to slash, though
    nothing was taken; slashing a reserve answers that all is left. *)
Theorem contracts_are_not_controlled contract who amount lock_id s :
  amount <> 0 ->
  let refused := (Err (inl Erc20InvalidOperation), s) in
  Pallet.deposit native (Erc20 contract) who amount s = refused
  /\ Pallet.withdraw native (Erc20 contract) who amount s = refused
  /\ Pallet.update_balance native (Erc20 contract) who amount s = refused
  /\ Pallet.set_lock native lock_id (Erc20 contract) who amount s = refused
  /\ Pallet.extend_lock native lock_id (Erc20 contract) who amount s = refused
  /\ Pallet.remove_lock native lock_id (Erc20 contract) who s = refused
  /\ Pallet.can_slash native (Erc20 contract) who amount s = (Ok false, s)
  /\ Pallet.slash native (Erc20 contract) who amount s = (Ok 0, s)
  /\ Pallet.slash_reserved native (Erc20 contract) who amount s = (Ok amount, s).
Proof.
  intros Ha refused. unfold Pallet.deposit, Pallet.withdraw. rewrite (proj2 (Z.eqb_neq _ _) Ha). done.
Qed.
End Dispatch.

(** ** Standard contracts *)

Section Standard.
Context {L X A : Type}.
Context {NC : BasicCurrency L X A} {MC : MultiCurrencies L X A} `{!AddressMapping L A} `{!Erc20Bridge L X A}.
Context `{!EqDecision A}.
Variable crypto : Crypto.
Variable native : CurrencyId.
Variable default_account : A.

(** What the contract keeps for each address. *)
Variable contract : H160.
Variable bal : H160 -> L -> Z.

Abbreviation St := (CState L A).
Abbreviation hide := (Pallet.reserve_address crypto).

(** The standard of ERC20 tokens, seen through the bridge; the addresses of accounts stay,
    and an account without an address is given one, once. *)
Record standard : Prop := {
  std_balance ctx a l : invoke_contract ctx = contract -> erc20_balance_of ctx a l = (Ok (bal a l), l);
  std_nonneg a l : 0 <= bal a l;
  std_moves ctx to v l l' :
    invoke_contract ctx = contract -> erc20_transfer ctx to v l = (Ok tt, l') -> invoke_sender ctx <> to ->
    v <= bal (invoke_sender ctx) l
    /\ bal (invoke_sender ctx) l' = bal (invoke_sender ctx) l - v
    /\ bal to l' = bal to l + v
    /\ forall a, a <> invoke_sender ctx -> a <> to -> bal a l' = bal a l;
  std_refuses ctx to v l x l' a :
    invoke_contract ctx = contract -> erc20_transfer ctx to v l = (Err x, l') -> bal a l' = bal a l;
  std_addresses ctx to v l r l' who :
    invoke_contract ctx = contract -> erc20_transfer ctx to v l = (r, l') ->
    get_evm_address who l' = get_evm_address who l;
  std_created who l a l' :
    get_or_create_evm_address who l = (a, l') ->
    get_evm_address who l' = Some a
    /\ (get_evm_address who l = None \/ get_evm_address who l = Some a)
    /\ (forall w, w <> who -> get_evm_address w l' = get_evm_address w l)
    /\ forall b, bal b l' = bal b l
}.

(** The addresses of accounts and of their reserves do not collide. *)
Record apart (l : L) : Prop := {
  apart_accounts w w' a : get_evm_address w l = Some a -> get_evm_address w' l = Some a -> w = w';
  apart_reserves w w' a b : get_evm_address w l = Some a -> get_evm_address w' l = Some b -> hide a = hide b -> a = b;
  apart_kinds w w' a b : get_evm_address w l = Some a -> get_evm_address w' l = Some b -> a <> hide b
}.

(** What the account has, free and reserved, as the pallet reports it. *)
Definition holds (who : A) (s : St) (free reserved : Z) : Prop :=
  Pallet.free_balance native (Erc20 contract) who s = (Ok free, s)
  /\ Pallet.reserved_balance crypto native (Erc20 contract) who s = (Ok reserved, s).

Hypothesis std : standard.

Lemma read_balance a (s : St) : Pallet.erc20_balance contract a s = (Ok (bal a (backend s)), s).
Proof.
  unfold Pallet.erc20_balance, Pallet.unwrap_or_default, bind, try_run, Pallet.on_backend, zoom.
  rewrite (std_balance std) by done. simpl. by destruct s.
Qed.

Lemma holds_spec who s f r :
  holds who s f r <->
  match get_evm_address who (backend s) with
  | Some a => f = bal a (backend s) /\ r = bal (hide a) (backend s)
  | None => f = 0 /\ r = 0
  end.
Proof.
  unfold holds, Pallet.free_balance, Pallet.reserved_balance, by_currency, Pallet.erc20_balance_of_account, bind, gets.
  destruct (get_evm_address who (backend s)) as [a|]; [rewrite !read_balance|unfold ret]; naive_solver.
Qed.

Lemma has_address who a (s : St) :
  get_evm_address who (backend s) = Some a -> Pallet.evm_address_of (X:=X) who s = (Ok a, s).
Proof. unfold Pallet.evm_address_of, bind, gets. by intros ->. Qed.

(** A transfer between two addresses, and what it means for the accounts. *)
Lemma moved_between (from to : H160) origin v (s s' : St) :
  Pallet.on_backend (erc20_transfer (MkInvokeContext contract from origin) to v) s = (Ok tt, s') -> from <> to ->
  v <= bal from (backend s)
  /\ bal from (backend s') = bal from (backend s) - v
  /\ bal to (backend s') = bal to (backend s) + v
  /\ (forall a, a <> from -> a <> to -> bal a (backend s') = bal a (backend s))
  /\ forall who, get_evm_address who (backend s') = get_evm_address who (backend s).
Proof.
  unfold Pallet.on_backend, zoom. destruct (erc20_transfer _ _ _ _) as [[[]|x|] l] eqn:E; [|done..].
  intros [= <-] Hne. simpl. pose proof (std_moves std (MkInvokeContext contract from origin) to v _ _ eq_refl E Hne) as (H1 & H2 & H3 & H4).
  split_and!; try done. intros who. by apply (std_addresses std (MkInvokeContext contract from origin) to v _ _ _ who eq_refl E).
Qed.

(** An account none of whose addresses took part has what it had. *)
Lemma bystander_holds w (x y : H160) (s s' : St) f r :
  (forall a, a <> x -> a <> y -> bal a (backend s') = bal a (backend s)) ->
  get_evm_address w (backend s') = get_evm_address w (backend s) ->
  (forall b, get_evm_address w (backend s) = Some b -> b <> x /\ b <> y /\ hide b <> x /\ hide b <> y) ->
  holds w s f r -> holds w s' f r.
Proof.
  intros Ho Hm Hb Hw. apply holds_spec in Hw. apply holds_spec. rewrite Hm.
  destruct (get_evm_address w (backend s)) as [b|]; [|done].
  destruct (Hb b eq_refl) as (? & ? & ? & ?), Hw as [-> ->]. by rewrite !Ho.
Qed.

(** The addresses of different accounts, and of their reserves, are four different ones. *)
Lemma apart_four l w w' a b :
  apart l -> w <> w' -> get_evm_address w l = Some a -> get_evm_address w' l = Some b ->
  a <> b /\ a <> hide b /\ hide a <> b /\ hide a <> hide b.
Proof.
  intros Hap Hne Ha Hb. split_and!.
  - intros ->. by apply Hne, (apart_accounts l Hap w w' b).
  - by apply (apart_kinds l Hap w w').
  - intros E. symmetry in E. by apply (apart_kinds l Hap w' w) in E.
  - intros E. apply (apart_reserves l Hap w w' a b) in E as ->; [|done..]. by apply Hne, (apart_accounts l Hap w w' b).
Qed.

(** What nobody else notices. *)
Definition others_keep (P : A -> Prop) (s s' : St) : Prop :=
  forall other f r, P other -> holds other s f r -> holds other s' f r.

Lemma reserve_moves who value s s' f r :
  apart (backend s) -> holds who s f r -> value <> 0 ->
  Pallet.reserve crypto native (Erc20 contract) who value s = (Ok tt, s') ->
  value <= f /\ holds who s' (f - value) (r + value) /\ others_keep (fun w => w <> who) s s'
  /\ forall w, get_evm_address w (backend s') = get_evm_address w (backend s).
Proof.
  intros Hap Hh Hv H. apply holds_spec in Hh.
  unfold Pallet.reserve, by_currency, Pallet.erc20_reserve in H. rewrite (proj2 (Z.eqb_neq _ _) Hv) in H.
  destruct (get_evm_address who (backend s)) as [a|] eqn:Ha.
  - destruct Hh as [-> ->]. unfold bind at 1 in H. rewrite (has_address who a) in H by done.
    assert (a <> hide a) as Hne by (by eapply (apart_kinds _ Hap)).
    apply moved_between in H as (Hle & Hs & Ht & Ho & Hm); [|done].
    split; [done|]. split; [apply holds_spec; rewrite Hm, Ha; done|]. split; [|done].
    intros w fo ro Hw. apply bystander_holds with a (hide a); [done..|]. intros b Hb.
    by destruct (apart_four _ w who b a Hap Hw Hb Ha) as (? & ? & ? & ?).
  - exfalso. revert H. unfold bind at 1, Pallet.evm_address_of, bind, gets. by rewrite Ha.
Qed.

Lemma unreserve_moves who value s s' f r rest :
  apart (backend s) -> holds who s f r -> value <> 0 ->
  Pallet.unreserve crypto native (Erc20 contract) who value s = (Ok rest, s') ->
  (rest = value - Z.min r value \/ rest = value)
  /\ holds who s' (f + (value - rest)) (r - (value - rest)) /\ others_keep (fun w => w <> who) s s'.
Proof.
  intros Hap Hh Hv H. apply holds_spec in Hh.
  unfold Pallet.unreserve, by_currency, Pallet.erc20_unreserve in H. rewrite (proj2 (Z.eqb_neq _ _) Hv) in H.
  unfold bind at 1, gets in H. destruct (get_evm_address who (backend s)) as [a|] eqn:Ha.
  - destruct Hh as [-> ->]. unfold bind at 1 in H. rewrite read_balance in H.
    assert (a <> hide a) as Hne by (by eapply (apart_kinds _ Hap)).
    set (m := Z.min (bal (hide a) (backend s)) value) in *.
    unfold bind, try_run in H. destruct (Pallet.on_backend _ s) as [[[]|x|] s1] eqn:E in H; [..|done].
    + injection H as <- <-. apply moved_between in E as (Hle & Hs & Ht & Ho & Hm); [|done].
      split; [by left|]. split; [apply holds_spec; rewrite Hm, Ha; lia|].
      intros w fo ro Hw. apply bystander_holds with (hide a) a; [done..|]. intros b Hb.
      by destruct (apart_four _ w who b a Hap Hw Hb Ha) as (? & ? & ? & ?).
    + injection H as <- <-. unfold Pallet.on_backend, zoom in E.
      destruct (erc20_transfer _ _ _ _) as [[|y|] l] eqn:Et in E; [done| |done]. injection E as _ <-.
      assert (forall b, bal b l = bal b (backend s)) as Hb
        by (intros b; by apply (std_refuses std (MkInvokeContext contract (hide a) a) _ _ _ _ _ b eq_refl Et)).
      assert (forall w, get_evm_address w l = get_evm_address w (backend s)) as Hm
        by (intros w; by apply (std_addresses std (MkInvokeContext contract (hide a) a) _ _ _ _ _ w eq_refl Et)).
      split; [by right|]. split; [apply holds_spec; simpl; rewrite Hm, Ha, !Hb; lia|].
      intros w fo ro Hw Hho. apply holds_spec in Hho. apply holds_spec. simpl. rewrite Hm.
      destruct (get_evm_address w (backend s)); by rewrite ?Hb.
  - injection H as <- <-. replace (value - value) with 0 by lia. split; [by right|].
    split; [apply holds_spec; rewrite Ha; lia|by intros w fo ro].
Qed.

(** Reserving tokens of a standard contract moves the amount from the free to the reserved
    balance, unreserving moves it back: either all of it returns, or the contract refused
    and the call reports that none of it did. No other account is touched. *)
Theorem reserve_then_unreserve who value s s1 s2 f r rest :
  apart (backend s) -> holds who s f r -> 0 < value ->
  Pallet.reserve crypto native (Erc20 contract) who value s = (Ok tt, s1) ->
  Pallet.unreserve crypto native (Erc20 contract) who value s1 = (Ok rest, s2) ->
  value <= f /\ holds who s1 (f - value) (r + value)
  /\ (rest = 0 /\ holds who s2 f r \/ rest = value /\ holds who s2 (f - value) (r + value))
  /\ others_keep (fun w => w <> who) s s2.
Proof.
  intros Hap Hh Hv H1 H2. apply reserve_moves with (f:=f) (r:=r) in H1 as (Hle & Hh1 & Ho1 & Hm); [|done..|lia].
  assert (apart (backend s1)) as Hap1.
  { split; intros *; rewrite !Hm; apply Hap. }
  assert (0 <= r) as Hr.
  { apply holds_spec in Hh. destruct (get_evm_address who (backend s)); [|lia]. destruct Hh as [_ ->]. apply (std_nonneg std). }
  apply unreserve_moves with (f:=f - value) (r:=r + value) in H2 as (Hrest & Hh2 & Ho2); [|done..|lia].
  split; [done|]. split; [done|]. split; [|intros w fo ro Hw Hho; by apply Ho2, Ho1].
  destruct Hrest as [-> | ->].
  - left. rewrite Z.min_r in * by lia. split; [lia|]. replace f with (f - value + (value - (value - value))) by lia.
    by replace r with (r + value - (value - (value - value))) by lia.
  - right. split; [done|]. replace (f - value) with (f - value + (value - value)) by lia.
    by replace (r + value) with (r + value - (value - value)) by lia.
Qed.

(** Moving reserved tokens of one account to another moves as much as there is and is asked
    for, to the free or the reserved balance as asked, and answers what is left to move. *)
Theorem erc20_repatriate_spec slashed beneficiary value status s s' f r rest :
  slashed <> beneficiary -> 0 < value -> holds slashed s f r -> apart (backend s') ->
  Pallet.repatriate_reserved crypto native (Erc20 contract) slashed beneficiary value status s = (Ok rest, s') ->
  let moved := Z.min r value in
  rest = value - moved
  /\ holds slashed s' f (r - moved)
  /\ (forall fb rb, get_evm_address beneficiary (backend s) <> None -> holds beneficiary s fb rb ->
       match status with
       | Free => holds beneficiary s' (fb + moved) rb
       | Reserved => holds beneficiary s' fb (rb + moved)
       end)
  /\ others_keep (fun w => w <> slashed /\ w <> beneficiary) s s'.
Proof.
  intros Hne Hv Hh Hap H moved. apply holds_spec in Hh.
  unfold Pallet.repatriate_reserved, by_currency, Pallet.erc20_repatriate in H.
  rewrite (proj2 (Z.eqb_neq value 0)), bool_decide_false in H by (done || lia). unfold bind at 1 in H.
  destruct (get_evm_address slashed (backend s)) as [a|] eqn:Ha;
    [|unfold Pallet.evm_address_of, bind, gets in H; by rewrite Ha in H].
  rewrite (has_address slashed a) in H by done. destruct Hh as [-> ->].
  unfold bind at 1, Pallet.get_or_create in H. destruct (get_or_create_evm_address beneficiary (backend s)) as [b l] eqn:Hb.
  pose proof (std_created std _ _ _ _ Hb) as (Hb1 & Hb0 & Hbo & Hbal).
  unfold bind at 1 in H. rewrite read_balance in H. simpl in H. rewrite Hbal in H. fold moved in H.
  unfold bind in H.
  destruct (match status with Free => _ | Reserved => _ end) as [[[]|x|] s1] eqn:E in H; [|done..].
  injection H as <- <-. split; [done|].
  set (to := match status with Free => b | Reserved => hide b end).
  assert (Pallet.on_backend (erc20_transfer (MkInvokeContext contract (hide a) a) to moved) (set_backend l s) = (Ok tt, s1)) as Hsent
    by (by destruct status).
  pose proof (std_addresses std (MkInvokeContext contract (hide a) a) to moved l) as Hkeep.
  assert (forall w, get_evm_address w (backend s1) = get_evm_address w l) as Hm1.
  { intros w. revert Hsent. unfold Pallet.on_backend, zoom. simpl. destruct (erc20_transfer _ _ _ _) as [[[]|x|] l1] eqn:Et; [|done..].
    intros [= <-]. by apply (Hkeep (Ok tt) l1 w). }
  assert (get_evm_address slashed l = Some a) as Hal by (by rewrite Hbo).
  assert (apart l) as Hapl by (split; intros *; rewrite <- !Hm1; apply Hap).
  destruct (apart_four l _ _ a b Hapl Hne Hal Hb1) as (H1 & H2 & H3 & H4).
  assert (a <> hide a) as H5 by (by apply (apart_kinds l Hapl slashed slashed)).
  assert (b <> hide b) as H6 by (by apply (apart_kinds l Hapl beneficiary beneficiary)).
  apply moved_between in Hsent as (_ & Hs & Ht & Ho & _); [|by unfold to; destruct status]. simpl in Hs, Ht, Ho.
  split; [apply holds_spec; rewrite Hm1, Hal, Hs, Ho, !Hbal; [done|done|by unfold to; destruct status]|]. split.
  - intros fb rb Hsome Hold. destruct Hb0 as [Hb0|Hb0]; [done|]. apply holds_spec in Hold. rewrite Hb0 in Hold.
    destruct Hold as [-> ->]. unfold to in *. destruct status; apply holds_spec; rewrite Hm1, Hb1, Ht, Ho, !Hbal by congruence; lia.
  - intros w fo ro [Hw1 Hw2] Hold. apply (bystander_holds w (hide a) to (set_backend l s)); simpl; [done|by rewrite Hm1| |].
    + intros c Hc. destruct (apart_four l w slashed c a Hapl) as (? & ? & ? & ?); [done..|].
      destruct (apart_four l w beneficiary c b Hapl) as (? & ? & ? & ?); [done..|].
      unfold to; destruct status; done.
    + apply holds_spec in Hold. apply holds_spec. simpl. rewrite Hbo by done.
      destruct (get_evm_address w (backend s)); by rewrite ?Hbal.
Qed.

(** Giving addresses to accounts moves nothing that an account with an address has. *)
Lemma created_keeps who (s : St) a l :
  get_or_create_evm_address who (backend s) = (a, l) ->
  (forall b, bal b l = bal b (backend s))
  /\ get_evm_address who l = Some a
  /\ forall w b, get_evm_address w (backend s) = Some b -> get_evm_address w l = Some b.
Proof.
  intros H. destruct (std_created std _ _ _ _ H) as (H1 & H0 & Ho & Hb). split_and!; try done.
  intros w b Hw. destruct (decide (w = who)) as [->|Hne]; [|by rewrite Ho].
  destruct H0 as [H0|H0]; congruence.
Qed.

(** A transfer of tokens of a standard contract takes the amount from the sender's free
    balance and adds it to the receiver's; reserves, and what anyone else with an address
    has, stay, and one event tells of it. *)
Theorem erc20_transfer_spec from to amount s s' f r :
  from <> to -> 0 < amount -> holds from s f r -> apart (backend s') ->
  Pallet.transfer native default_account (Erc20 contract) from to amount s = (Ok tt, s') ->
  amount <= f
  /\ holds from s' (f - amount) r
  /\ (forall ft rt, get_evm_address to (backend s) <> None -> holds to s ft rt -> holds to s' (ft + amount) rt)
  /\ others_keep (fun w => w <> from /\ w <> to /\ get_evm_address w (backend s) <> None) s s'
  /\ events s' = events s ++ [Transferred (Erc20 contract) from to amount].
Proof.
  intros Hne Hv Hh Hap H. apply holds_spec in Hh. unfold Pallet.transfer in H.
  rewrite (proj2 (Z.eqb_neq amount 0)), bool_decide_false in H by (done || lia). simpl in H.
  unfold bind at 1 in H. destruct (Pallet.erc20_transfer_from _ _ _ _ _ _) as [[[]|x|] s1] eqn:E in H; [|done..].
  injection H as <-. simpl in Hap.
  unfold Pallet.erc20_transfer_from in E. unfold bind at 1 in E.
  destruct (get_evm_address from (backend s)) as [a|] eqn:Ha;
    [|unfold Pallet.evm_address_of, bind, gets in E; by rewrite Ha in E].
  rewrite (has_address from a) in E by done. destruct Hh as [-> ->].
  unfold bind, gets, Pallet.get_or_create in E. simpl in E.
  destruct (get_or_create_evm_address _ (backend s)) as [o l1] eqn:Ho1 in E.
  destruct (created_keeps _ s _ _ Ho1) as (Hb1 & _ & Hk1).
  simpl in E. destruct (get_or_create_evm_address to l1) as [b l] eqn:Hb in E.
  destruct (created_keeps _ (set_backend l1 s) _ _ Hb) as (Hb2 & Hto & Hk2). simpl in Hb2, Hk2.
  assert (forall c, bal c l = bal c (backend s)) as Hbal by (intros c; by rewrite Hb2, Hb1).
  assert (forall w c, get_evm_address w (backend s) = Some c -> get_evm_address w l = Some c) as Hk by auto.
  assert (forall w, get_evm_address w (backend s1) = get_evm_address w l) as Hm1.
  { intros w. revert E. unfold Pallet.on_backend, zoom. simpl. destruct (erc20_transfer _ _ _ _) as [[[]|x|] l2] eqn:Et; [|done..].
    intros [= <-]. by apply (std_addresses std (MkInvokeContext contract a o) b amount l (Ok tt) l2 w). }
  assert (apart l) as Hapl by (split; intros *; rewrite <- !Hm1; apply Hap).
  assert (get_evm_address from l = Some a) as Hfl by auto.
  destruct (apart_four l _ _ a b Hapl Hne Hfl Hto) as (H1 & H2 & H3 & H4).
  assert (a <> hide a) as H5 by (by apply (apart_kinds l Hapl from from)).
  assert (b <> hide b) as H6 by (by apply (apart_kinds l Hapl to to)).
  assert (events s1 = events s) as Hev.
  { revert E. unfold Pallet.on_backend, zoom. destruct (erc20_transfer _ _ _ _) as [[[]|x|] l2]; by intros [= <-]. }
  apply moved_between in E as (Hle & Hs & Ht & Ho & _); [|done]. simpl in Hle, Hs, Ht, Ho.
  split_and!.
  - by rewrite <- Hbal.
  - apply holds_spec. simpl. by rewrite Hm1, Hfl, Hs, Ho, !Hbal by done.
  - intros ft rt Hsome Hold. apply holds_spec in Hold. apply holds_spec. simpl. rewrite Hm1, Hto, Ht, Ho, !Hbal by done.
    destruct (get_evm_address to (backend s)) as [c|] eqn:Hc; [|done]. rewrite (Hk _ _ Hc) in Hto.
    injection Hto as ->. by destruct Hold as [-> ->].
  - intros w fo ro (Hw1 & Hw2 & Hw3) Hold. apply holds_spec in Hold. apply holds_spec. simpl.
    destruct (get_evm_address w (backend s)) as [c|] eqn:Hc; [|done]. rewrite Hm1, (Hk _ _ Hc).
    destruct (apart_four l w from c a Hapl Hw1 (Hk _ _ Hc) Hfl) as (? & ? & ? & ?).
    destruct (apart_four l w to c b Hapl Hw2 (Hk _ _ Hc) Hto) as (? & ? & ? & ?).
    destruct Hold as [-> ->]. by rewrite !Ho, !Hbal.
  - simpl. by rewrite Hev.
Qed.

End Standard.

(** ** The adapter *)

Section Adapting.
Context {L X A Reasons : Type} {PC : PalletCurrency L X A Reasons}.

(** Every change of a signed amount of [w] bits is a deposit or a withdrawal of its absolute
    value, which fits the balance, but for the least amount, which has no absolute value
    and is refused. *)
Theorem update_balance_by_sign w who by_amount (l : L) :
  1 < w -> - 2 ^ (w - 1) <= by_amount < 2 ^ (w - 1) ->
  Adapter.update_balance w who by_amount l =
    (if by_amount =? - 2 ^ (w - 1) then (Err (inl AmountIntoBalanceFailed), l)
     else if 0 <? by_amount then Adapter.deposit who by_amount l
     else Adapter.withdraw who (- by_amount) l)
  /\ (by_amount <> - 2 ^ (w - 1) -> in_uint w (Z.abs by_amount)).
Proof.
  intros Hw Hr. assert (2 ^ w = 2 * 2 ^ (w - 1)) as Hpow by (rewrite <- Z.pow_succ_r by lia; f_equal; lia).
  pose proof (Z.pow_pos_nonneg 2 (w - 1)). split; [|unfold in_uint, umax; lia].
  unfold Adapter.update_balance, Adapter.i_abs, Adapter.try_into_balance.
  destruct (Z.eqb_spec by_amount (- 2 ^ (w - 1))) as [->|Hne].
  - by rewrite (proj2 (Z.leb_gt 0 (- 2 ^ (w - 1)))) by lia.
  - rewrite (proj2 (Z.leb_le 0 (Z.abs by_amount))) by lia. unfold bind, ok_or, ret.
    destruct (Z.ltb_spec 0 by_amount); [by rewrite Z.abs_eq by lia|by rewrite Z.abs_neq by lia].
Qed.

End Adapting.

(** * A small chain with a native currency and one contract

    The instances on which the theorems of [EvmBridgeTheorems] and [CurrenciesTheorems]
    are run: a ledger for the native currency behind the adapter, a contract whose
    balances are a map, and contracts that return what a selector asks for. *)

(** ** Contracts that answer *)

(** Every call returns the same output; a call that executes counts. *)
Definition answer (output : bytes) : EVM Z Z Z := {|
  EVM_execute _ _ _ _ _ mode l :=
    (Ok (MkCallInfo (Succeed Returned) output 0 0), match mode with ExecuteMode => l + 1 | _ => l end);
  EVM_get_origin _ := None;
  EVM_set_origin _ l := l
|}.

Definition answer_laws (output : bytes) : @EVMLaws Z Z Z (answer output).
Proof. split. intros * H. by injection H as _ <-. Defined.

Definition text : bytes := [83; 69; 84].

Lemma decode_string_spec_witness :
  8 <= 32 /\ decode_string 32 (abi_encode_string text) = Ok text.
Proof.
  split; [lia|]. apply (decode_string_spec 32); [lia| | |].
  - apply (bool_decide_unpack _). by vm_compute.
  - by vm_compute.
  - by vm_compute.
Defined.

Lemma decode_encoded_string_witness : decode_string 32 (abi_encode_string text) = Ok text.
Proof.
  apply (decode_encoded_string 32); [lia| |by vm_compute|lia].
  apply (bool_decide_unpack _). by vm_compute.
Defined.

(** Two words, the first of which points behind the second. *)
Lemma decode_string_panics_witness : decode_string 32 (be_bytes 32 64 ++ be_bytes 32 0) = Panic.
Proof. apply (decode_string_panics 32); [lia|by vm_compute..]. Defined.

Lemma queries_write_nothing_witness :
  (@bridge_balance_of Z Z Z (answer (be_bytes 32 7)) (MkInvokeContext 5 0 0) 9 3).2 = 3
  /\ (@bridge_balance_of Z Z Z (answer (be_bytes 32 7)) (MkInvokeContext 5 0 0) 9 3).1 = Ok 7.
Proof.
  split; [|by vm_compute].
  destruct (@queries_write_nothing Z Z Z (answer (be_bytes 32 7)) (answer_laws _) 32 (MkInvokeContext 5 0 0) 9)
    as (_ & _ & _ & _ & H).
  eapply H, surjective_pairing.
Defined.

Lemma balance_of_panics_witness :
  @bridge_balance_of Z Z Z (answer (be_bytes 33 7)) (MkInvokeContext 5 0 0) 9 3 = (Panic, 3).
Proof.
  eapply (@balance_of_panics_on_long_output Z Z Z (answer (be_bytes 33 7)) (answer_laws _)); [done..|by vm_compute].
Defined.

Lemma transfer_returned_true_witness :
  exists info, @EVM_execute Z Z Z (answer (be_bytes 32 1)) (MkInvokeContext 5 6 6) (transfer_input 8 100) 0 2100000 1000 ExecuteMode 3
      = (Ok info, 4)
    /\ (call_exit_reason info = Succeed Returned \/ call_exit_reason info = Succeed Stopped)
    /\ call_output info = be_bytes 32 1.
Proof.
  apply (@transfer_returned_true Z Z Z (answer (be_bytes 32 1)) (MkInvokeContext 5 6 6) 8 100 3 4). by vm_compute.
Defined.

(** ** A chain *)

Record Chain : Type := MkChain {
  coins : gmap Z Z;
  tokens : gmap Z Z;
  addresses : gmap Z Z
}.

Definition coins_of (a : Z) (l : Chain) : Z := default 0 (coins l !! a).
Definition tokens_of (a : Z) (l : Chain) : Z := Z.max 0 (default 0 (tokens l !! a)).

Definition set_coins (a v : Z) (l : Chain) : Chain := MkChain (<[a := v]> (coins l)) (tokens l) (addresses l).
Definition set_tokens (a v : Z) (l : Chain) : Chain := MkChain (coins l) (<[a := v]> (tokens l)) (addresses l).

(** A currency of the frame without existential deposit, locks and reserves. *)
#[export] Instance coins_currency : PalletCurrency Chain Z Z unit := {|
  all_reasons := tt;
  pc_minimum_balance := 0;
  pc_total_issuance l := 0;
  pc_total_balance := coins_of;
  pc_free_balance := coins_of;
  pc_ensure_can_withdraw a v _ _ := fun l => if v <=? coins_of a l then (Ok tt, l) else (Err 1, l);
  pc_transfer a b v _ := fun l =>
    if (v =? 0) || (a =? b) then (Ok tt, l)
    else if v <=? coins_of a l then (Ok tt, set_coins b (coins_of b l + v) (set_coins a (coins_of a l - v) l))
    else (Err 1, l);
  pc_deposit_creating a v l := if v =? 0 then (0, l) else (v, set_coins a (coins_of a l + v) l);
  pc_withdraw a v _ _ := fun l =>
    if v =? 0 then (Ok 0, l) else if v <=? coins_of a l then (Ok v, set_coins a (coins_of a l - v) l) else (Err 1, l);
  pc_can_slash a v l := v <=? coins_of a l;
  pc_slash a v l := let w := Z.min v (coins_of a l) in (w, v - w, set_coins a (coins_of a l - w) l);
  drop_positive _ l := l;
  drop_negative _ l := l;
  pc_set_lock _ _ _ _ l := l;
  pc_extend_lock _ _ _ _ l := l;
  pc_remove_lock _ _ l := l;
  pc_can_reserve _ _ _ := false;
  pc_slash_reserved _ v l := (0, v, l);
  pc_reserved_balance _ _ := 0;
  pc_reserve _ _ := fail 2;
  pc_unreserve _ v l := (v, l);
  pc_repatriate_reserved _ _ v _ := ret v
|}.

Definition coins_basic : BasicCurrency Chain (CurrenciesError + Z) Z := Adapter.adapter 128.

#[export] Instance chain_currencies : MultiCurrencies Chain (CurrenciesError + Z) Z := {|
  of_currency _ := coins_basic;
  multi_transfer_all _ _ := ret tt
|}.

#[export] Instance chain_addresses : AddressMapping Chain Z := {|
  get_account_id a _ := a;
  get_evm_address who l := addresses l !! who;
  get_or_create_evm_address who l :=
    match addresses l !! who with
    | Some a => (a, l)
    | None => (who, MkChain (coins l) (tokens l) (<[who := who]> (addresses l)))
    end;
  get_default_evm_address who := who
|}.

#[export] Instance chain_contract : Erc20Bridge Chain (CurrenciesError + Z) Z := {|
  erc20_total_supply _ := ret 0;
  erc20_balance_of _ a l := (Ok (tokens_of a l), l);
  erc20_transfer ctx to v l :=
    let from := invoke_sender ctx in
    if (0 <=? v) && (v <=? tokens_of from l)
    then let l1 := set_tokens from (tokens_of from l - v) l in (Ok tt, set_tokens to (tokens_of to l1 + v) l1)
    else (Err (inr 3), l);
  erc20_get_origin _ := None;
  erc20_set_origin _ l := l
|}.

Lemma tokens_of_set a v l b : tokens_of b (set_tokens a v l) = if decide (a = b) then Z.max 0 v else tokens_of b l.
Proof. unfold tokens_of, set_tokens. simpl. rewrite lookup_insert. by case_decide. Qed.

Lemma chain_standard contract : standard (L:=Chain) (X:=CurrenciesError + Z) (A:=Z) contract tokens_of.
Proof.
  assert (forall a l, 0 <= tokens_of a l) as Hnn by (intros; unfold tokens_of; lia).
  split; [done|done| | | |].
  - intros ctx to v l l' _ H Hne. simpl in H. destruct (_ && _) eqn:E in H; [|done]. bool_inv. injection H as <-.
    pose proof (Hnn to l). split; [done|].
    assert (to <> invoke_sender ctx) by congruence. split_and!; [| |intros a Ha Hb];
      rewrite !tokens_of_set; repeat (case_decide; try congruence); lia.
  - intros ctx to v l x l' a _ H. simpl in H. destruct (_ && _) in H; [done|]. by injection H as _ <-.
  - intros ctx to v l r l' who _ H. simpl in H. destruct (_ && _) in H; by injection H as _ <-.
  - intros who l a l' H. simpl in H. destruct (addresses l !! who) as [b|] eqn:E.
    + injection H as <- <-. simpl. rewrite E. split_and!; auto.
    + injection H as <- <-. simpl. rewrite lookup_insert_eq, E. split_and!; auto.
      intros w Hw. by rewrite lookup_insert_ne.
Qed.

Lemma coins_laws : BasicCurrencyLaws Chain (CurrenciesError + Z) Z coins_basic.
Proof.
  split; intros; try done. unfold coins_basic. simpl.
  unfold Adapter.transfer, Adapter.on_pallet, zoom. simpl. by rewrite Z.eqb_refl, orb_true_r.
Qed.

Definition two_addresses (l : Chain) : Prop := addresses l = <[1 := 1]> (<[2 := 2]> ∅).

Lemma two_apart l : two_addresses l -> apart (A:=Z) toy l.
Proof.
  intros Hl.
  assert (forall w a, get_evm_address w l = Some a -> w = a /\ two a) as Hg.
  { intros w a. simpl. rewrite Hl, !lookup_insert_Some, lookup_empty. unfold two. naive_solver. }
  split.
  - intros w w' a Hw Hw'. apply Hg in Hw as [-> _]. by apply Hg in Hw' as [-> _].
  - intros w w' a b Hw Hw'. apply Hg in Hw as [_ [-> | ->]]; apply Hg in Hw' as [_ [-> | ->]]; by vm_compute.
  - intros w w' a b Hw Hw'. apply Hg in Hw as [_ [-> | ->]]; apply Hg in Hw' as [_ [-> | ->]]; by vm_compute.
Qed.

Definition setm : CurrencyId := Token DNAR.

Definition opening : CState Chain Z :=
  MkCState [] (MkChain {[1 := 50; 2 := 5]} {[1 := 100; 2 := 30]} (<[1 := 1]> (<[2 := 2]> ∅))).

(** The pallet on this chain. *)
Definition pallet (id : CurrencyId) : BasicCurrency (CState Chain Z) (CurrenciesError + (CurrenciesError + Z)) Z :=
  @Single.currency Chain (CurrenciesError + Z) Z coins_basic _ _ _ _ toy setm 1 id.

Definition contract : CurrencyId := Erc20 77.

Lemma one_currency_is_the_currency_behind_witness :
  equivalent (pallet setm) coins_basic
  /\ (@bc_transfer _ _ _ (pallet setm) 1 2 20 opening).1 = Ok tt
  /\ coins_of 2 (backend (@bc_transfer _ _ _ (pallet setm) 1 2 20 opening).2) = 25
  /\ length (events (@bc_transfer _ _ _ (pallet setm) 1 2 20 opening).2) = 1%nat.
Proof.
  split; [|by vm_compute].
  apply (@one_currency_is_the_currency_behind Chain (CurrenciesError + Z) Z coins_basic _ _ _ _ toy setm 1 setm);
    [apply coins_laws|done].
Defined.

Lemma contracts_are_not_controlled_witness :
  @Pallet.slash Chain (CurrenciesError + Z) Z coins_basic _ setm contract 1 10 opening = (Ok 0, opening).
Proof.
  destruct (@contracts_are_not_controlled Chain (CurrenciesError + Z) Z coins_basic _ setm 77 1 10 0 opening ltac:(lia))
    as (_ & _ & _ & _ & _ & _ & _ & H & _). exact H.
Defined.

Definition after_reserve : CState Chain Z := (@bc_reserve _ _ _ (pallet contract) 1 40 opening).2.
Definition after_unreserve : CState Chain Z := (@bc_unreserve _ _ _ (pallet contract) 1 40 after_reserve).2.

Lemma opening_holds : holds (X:=CurrenciesError + Z) (NC:=coins_basic) toy setm 77 1 opening 100 0.
Proof. split; by vm_compute. Qed.

Lemma reserve_then_unreserve_witness :
  40 <= 100 /\ tokens_of 1 (backend after_reserve) = 60 /\ tokens_of 1 (backend after_unreserve) = 100
  /\ holds (X:=CurrenciesError + Z) (NC:=coins_basic) toy setm 77 1 after_reserve 60 40.
Proof.
  destruct (@reserve_then_unreserve Chain (CurrenciesError + Z) Z coins_basic _ _ _ toy setm 77 tokens_of
    (chain_standard 77) 1 40 opening after_reserve after_unreserve 100 0 0) as (H1 & H2 & _);
    [by apply two_apart|apply opening_holds|lia|by vm_compute..|].
  split; [exact H1|]. split; [by vm_compute|]. split; [by vm_compute|exact H2].
Defined.

Definition after_repatriate : CState Chain Z :=
  (@bc_repatriate_reserved _ _ _ (pallet contract) 1 2 70 Reserved after_reserve).2.

Lemma erc20_repatriate_spec_witness :
  30 = 70 - Z.min 40 70
  /\ holds (X:=CurrenciesError + Z) (NC:=coins_basic) toy setm 77 1 after_repatriate 60 0
  /\ holds (X:=CurrenciesError + Z) (NC:=coins_basic) toy setm 77 2 after_repatriate 30 40.
Proof.
  destruct (@erc20_repatriate_spec Chain (CurrenciesError + Z) Z coins_basic _ _ _ _ toy setm 77 tokens_of
    (chain_standard 77) 1 2 70 Reserved after_reserve after_repatriate 60 40 30) as (H1 & H2 & H3 & _);
    [done|lia|split; by vm_compute|by apply two_apart; vm_compute|by vm_compute|].
  split; [exact H1|]. split; [exact H2|]. apply (H3 30 0); [by vm_compute|split; by vm_compute].
Defined.

Definition after_transfer : CState Chain Z := (@bc_transfer _ _ _ (pallet contract) 1 2 25 opening).2.

Lemma erc20_transfer_spec_witness :
  25 <= 100 /\ holds (X:=CurrenciesError + Z) (NC:=coins_basic) toy setm 77 1 after_transfer 75 0.
Proof.
  destruct (@erc20_transfer_spec Chain (CurrenciesError + Z) Z coins_basic _ _ _ _ toy setm 1 77 tokens_of
    (chain_standard 77) 1 2 25 opening after_transfer 100 0) as (H1 & H2 & _);
    [done|lia|apply opening_holds|by apply two_apart; vm_compute|by vm_compute|].
  split; [exact H1|exact H2].
Defined.

Lemma update_balance_by_sign_witness :
  Adapter.update_balance (X:=Z) 128 1 (- 2 ^ 127) (backend opening)
    = (Err (inl AmountIntoBalanceFailed), backend opening)
  /\ coins_of 1 (Adapter.update_balance (X:=Z) 128 1 (-8) (backend opening)).2 = 42.
Proof.
  split; [|by vm_compute].
  destruct (update_balance_by_sign (X:=Z) 128 1 (- 2 ^ 127) (backend opening)) as [H _]; [lia|lia|].
  rewrite H. by vm_compute.
Defined.
