(* ===== verification/ChainBridge.v ===== *)
(** * The chain bridge: which resource is which currency

    [lib-serml/bridges/chainbridge/src/lib.rs]: the two maps between currencies and the
    resource ids that other chains know them by, and the transfers to and from the bridge.
    The bridge proper is the third-party pallet [chainbridge] (class [Bridge]); currencies
    are behind [MultiCurrency]. A resource id is the integer that its thirty-two bytes
    spell. *)

From S2P Require Import Prelude Currency Externals.

Class Bridge (L X A : Type) : Type := {
  chain_whitelisted : Z -> L -> bool;
  bridge_account : A;
  bridge_chain_id : Z;
  transfer_fungible : Z -> ResourceId -> list Z -> Z -> M L X unit
}.

Inductive ChainBridgeError : Type :=
| InvalidDestChainId
| ResourceIdAlreadyRegistered
| ResourceIdNotRegistered
| ResourceIdCurrencyIdNotMatch
| BadOrigin.

Inductive ChainBridgeEvent : Type :=
| RegisterResourceId (resource_id : ResourceId) (currency_id : CurrencyId)
| UnregisterResourceId (resource_id : ResourceId) (currency_id : CurrencyId).

Record State (L : Type) : Type := MkState {
  resource_ids : gmap CurrencyId ResourceId;
  currency_ids : gmap Z CurrencyId;
  events : list ChainBridgeEvent;
  chain : L
}.

Arguments MkState {L}.
Arguments resource_ids {L}.
Arguments currency_ids {L}.
Arguments events {L}.
Arguments chain {L}.

Section Pallet.
Context {L X A : Type} `{!MultiCurrency L X A} `{!Bridge L X A}.
Variable NativeCurrencyId : CurrencyId.

Abbreviation St := (State L).
Abbreviation Run := (M (State L) (ChainBridgeError + X)).

Definition set_chain (l : L) (s : St) : St := MkState (resource_ids s) (currency_ids s) (events s) l.

Definition set_resource_ids (f : gmap CurrencyId ResourceId -> gmap CurrencyId ResourceId) (s : St) : St :=
  MkState (f (resource_ids s)) (currency_ids s) (events s) (chain s).

Definition set_currency_ids (f : gmap Z CurrencyId -> gmap Z CurrencyId) (s : St) : St :=
  MkState (resource_ids s) (f (currency_ids s)) (events s) (chain s).

Definition deposit_event (e : ChainBridgeEvent) (s : St) : St :=
  MkState (resource_ids s) (currency_ids s) (events s ++ [e]) (chain s).

Definition on_chain {B : Type} (m : M L X B) : Run B := zoom chain set_chain inr m.

(** The last byte of a resource id is the chain that it comes from. *)
Definition is_origin_chain_resource (resource_id : ResourceId) : bool :=
  resource_id mod 256 =? bridge_chain_id.

Definition is_bridged (currency_id : CurrencyId) : bool :=
  match currency_id with ChainBridge _ => true | _ => false end.

Definition check_match (resource_id : ResourceId) (currency_id : CurrencyId) : bool :=
  if is_origin_chain_resource resource_id then negb (is_bridged currency_id)
  else match currency_id with ChainBridge r_id => r_id =? resource_id | _ => false end.

Definition register_resource_id (allowed : bool) (resource_id : ResourceId) (currency_id : CurrencyId) : Run unit :=
  transactional (
    do! ensure allowed (inl BadOrigin) in
    let! s := get in
    do! ensure
      (match resource_ids s !! currency_id, currency_ids s !! resource_id with None, None => true | _, _ => false end)
      (inl ResourceIdAlreadyRegistered) in
    do! ensure (check_match resource_id currency_id) (inl ResourceIdCurrencyIdNotMatch) in
    do! modify (set_resource_ids <[currency_id := resource_id]>) in
    do! modify (set_currency_ids <[resource_id := currency_id]>) in
    modify (deposit_event (RegisterResourceId resource_id currency_id))).

Definition remove_resource_id (allowed : bool) (resource_id : ResourceId) : Run unit :=
  transactional (
    do! ensure allowed (inl BadOrigin) in
    let! s := get in
    match currency_ids s !! resource_id with
    | Some currency_id =>
        do! modify (set_currency_ids (delete resource_id)) in
        do! modify (set_resource_ids (delete currency_id)) in
        modify (deposit_event (UnregisterResourceId resource_id currency_id))
    | None => ret tt
    end).

Definition do_transfer_to_bridge (from : A) (currency_id : CurrencyId) (dest_chain_id : Z) (recipient : list Z)
    (amount : Z) : Run unit :=
  let! s := get in
  do! ensure (chain_whitelisted dest_chain_id (chain s)) (inl InvalidDestChainId) in
  let! resource_id := ok_or (resource_ids s !! currency_id) (inl ResourceIdNotRegistered) in
  do! (if is_origin_chain_resource resource_id
       then on_chain (mc_transfer currency_id from bridge_account amount)
       else on_chain (mc_withdraw currency_id from amount)) in
  on_chain (transfer_fungible dest_chain_id resource_id recipient (Z.min amount (umax 128))).

Definition transfer_to_bridge (origin : option A) (currency_id : CurrencyId) (dest_chain_id : Z)
    (recipient : list Z) (amount : Z) : Run unit :=
  transactional (
    let! who := ok_or origin (inl BadOrigin) in
    do_transfer_to_bridge who currency_id dest_chain_id recipient amount).

Definition transfer_native_to_bridge (origin : option A) (dest_chain_id : Z) (recipient : list Z) (amount : Z) : Run unit :=
  transactional (
    let! who := ok_or origin (inl BadOrigin) in
    do_transfer_to_bridge who NativeCurrencyId dest_chain_id recipient amount).

(** The origin of the bridge gives the account that holds what is locked. *)
Definition transfer_from_bridge (bridge_origin : option A) (to : A) (amount : Z) (resource_id : ResourceId) : Run unit :=
  transactional (
    let! bridge_account_id := ok_or bridge_origin (inl BadOrigin) in
    let! s := get in
    let! currency_id := ok_or (currency_ids s !! resource_id) (inl ResourceIdNotRegistered) in
    if is_origin_chain_resource resource_id
    then on_chain (mc_transfer currency_id bridge_account_id to amount)
    else on_chain (mc_deposit currency_id to amount)).

(** ** What holds in every reachable state *)

Inductive call : Run unit -> Prop :=
| CallRegister allowed r c : call (register_resource_id allowed r c)
| CallRemove allowed r : call (remove_resource_id allowed r)
| CallToBridge o c d rc v : 0 <= v -> call (transfer_to_bridge o c d rc v)
| CallNativeToBridge o d rc v : 0 <= v -> call (transfer_native_to_bridge o d rc v)
| CallFromBridge o to v r : 0 <= v -> call (transfer_from_bridge o to v r).

(** The states that the calls reach; in between the rest of the chain may change. *)
Inductive reachable : St -> Prop :=
| Start s : resource_ids s = ∅ -> currency_ids s = ∅ -> reachable s
| Call s m r s' : reachable s -> call m -> m s = (r, s') -> reachable s'
| Elsewhere s l : reachable s -> reachable (set_chain l s).

Record registered (s : St) : Prop := {
  reg_inverse c r : resource_ids s !! c = Some r <-> currency_ids s !! r = Some c;
  reg_match c r : resource_ids s !! c = Some r -> check_match r c = true
}.

Lemma registered_same s s' :
  resource_ids s' = resource_ids s -> currency_ids s' = currency_ids s -> registered s -> registered s'.
Proof. intros H1 H2 []. split; rewrite ?H1, ?H2; done. Qed.

Lemma on_chain_maps {B : Type} (m : M L X B) s r s' :
  on_chain m s = (r, s') -> resource_ids s' = resource_ids s /\ currency_ids s' = currency_ids s.
Proof. unfold on_chain, zoom. destruct (m (chain s)) as [[b|x|] l]; by intros [= _ <-]. Qed.

Lemma to_bridge_maps from c d rc v s u s' :
  do_transfer_to_bridge from c d rc v s = (Ok u, s') ->
  resource_ids s' = resource_ids s /\ currency_ids s' = currency_ids s.
Proof.
  intros H. unfold do_transfer_to_bridge in H. run_step H.
  destruct (is_origin_chain_resource _) in *;
    repeat match goal with HM : on_chain _ _ = _ |- _ => apply on_chain_maps in HM as [-> ->] end; done.
Qed.

Lemma call_registered m r s s' : call m -> m s = (r, s') -> registered s -> registered s'.
Proof.
  intros Hm H Hs.
  assert (forall (n : Run unit), m = transactional n -> (forall a, r <> Ok a) -> registered s') as Hrb.
  { intros n -> Hr. by rewrite (transactional_rollback _ _ _ _ H Hr). }
  destruct r as [u|x|]; [|destruct Hm; by (eapply Hrb; [reflexivity|])..]. clear Hrb.
  destruct Hm as [allowed r c|allowed r|o c d rc v Hv|o d rc v Hv|o to v r Hv].
  - unfold register_resource_id in H. run_step H.
    destruct (resource_ids s !! c) eqn:E1, (currency_ids s !! r) eqn:E2; try done.
    destruct Hs as [Hi Hc]. subst. split; simpl.
    + intros c' r'. rewrite !lookup_insert_Some, Hi. naive_solver.
    + intros c' r'. rewrite lookup_insert_Some. naive_solver.
  - unfold remove_resource_id in H. run_step H. destruct (currency_ids s !! r) as [c|] eqn:E; run_step H; [|by subst].
    destruct Hs as [Hi Hc]. subst. pose proof (proj2 (Hi _ _) E). split; simpl.
    + intros c' r'. rewrite !lookup_delete_Some, Hi. naive_solver.
    + intros c' r'. rewrite lookup_delete_Some. naive_solver.
  - unfold transfer_to_bridge in H. run_step H. apply to_bridge_maps in H as [H1 H2]. by eapply registered_same.
  - unfold transfer_native_to_bridge in H. run_step H. apply to_bridge_maps in H as [H1 H2]. by eapply registered_same.
  - unfold transfer_from_bridge in H. run_step H.
    destruct (is_origin_chain_resource _); apply on_chain_maps in H as [H1 H2]; by eapply registered_same.
Qed.

Lemma reachable_registered s : reachable s -> registered s.
Proof.
  induction 1 as [s H1 H2|s m r s' _ IH Hm H|s l _ IH].
  - split; rewrite ?H1, ?H2; [intros c r; by rewrite !lookup_empty|intros c r; by rewrite lookup_empty].
  - by eapply call_registered.
  - by apply (registered_same s).
Qed.

(** The two maps are inverse to each other, a resource of this chain is never registered
    for a currency of another, and the resource of another chain only for the currency
    that bears its id. *)
Theorem registration_is_one_to_one s c r :
  reachable s ->
  (resource_ids s !! c = Some r <-> currency_ids s !! r = Some c)
  /\ (resource_ids s !! c = Some r ->
      if is_origin_chain_resource r then is_bridged c = false else c = ChainBridge r).
Proof.
  intros Hs. apply reachable_registered in Hs as [Hi Hc]. split; [apply Hi|]. intros H. apply Hc in H.
  unfold check_match in H. destruct (is_origin_chain_resource r); [by apply negb_true_iff|].
  destruct c; try done. by apply Z.eqb_eq in H as ->.
Qed.

Context `{!FrameSystem L A} `{!MultiCurrencyLaws L X A}.

(** The message to the other chain carries no balance. *)
Hypothesis fungible_issuance : forall d r rc v l l' c,
  transfer_fungible (A:=A) d r rc v l = (Ok tt, l') -> mc_total_issuance c l' = mc_total_issuance c l.

(** What each call does to the supply of a currency. *)
Lemma on_chain_done {B : Type} (m : M L X B) s b s' :
  on_chain m s = (Ok b, s') -> exists l, m (chain s) = (Ok b, l) /\ chain s' = l.
Proof. unfold on_chain, zoom. destruct (m (chain s)) as [[a|x|] l]; [|done..]. intros [= <- <-]. by exists l. Qed.

Lemma to_bridge_supply from c0 d rc v s s' c :
  registered s -> 0 <= v -> is_bridged c = false ->
  do_transfer_to_bridge from c0 d rc v s = (Ok tt, s') -> mc_total_issuance c (chain s') = mc_total_issuance c (chain s).
Proof.
  intros Hs Hv Hb H. unfold do_transfer_to_bridge in H. run_step H.
  match goal with HM : on_chain (transfer_fungible _ _ _ _) _ = _ |- _ => apply on_chain_done in HM as (l & HM & ->) end.
  erewrite fungible_issuance by done.
  match goal with HR : resource_ids s !! c0 = Some _ |- _ => apply (reg_match s Hs) in HR; unfold check_match in HR; rename HR into Hmatch end.
  destruct (is_origin_chain_resource _);
    match goal with HM : on_chain _ s = _ |- _ => apply on_chain_done in HM as (l1 & HM & ->); rename HM into Hmove end.
  - match type of Hmove with _ = (Ok ?u, _) => destruct u end. by apply (mc_transfer_issuance _ _ _ _ _ _ _ Hmove).
  - match type of Hmove with _ = (Ok ?u, _) => destruct u end. rewrite (mc_withdraw_issuance _ _ _ _ _ c Hmove) by done.
    unfold currency_eqb. rewrite bool_decide_false; [lia|]. intros <-. by destruct c0.
Qed.

(** The bridge issues and burns only currencies of other chains: no call, successful or
    not, changes the supply of a currency of this chain. *)
Theorem bridge_keeps_home_supply s m r s' c :
  reachable s -> call m -> m s = (r, s') -> is_bridged c = false ->
  mc_total_issuance c (chain s') = mc_total_issuance c (chain s).
Proof.
  intros Hs Hm H Hb. apply reachable_registered in Hs as Hreg.
  assert (forall (n : Run unit), m = transactional n -> (forall a, r <> Ok a) ->
    mc_total_issuance c (chain s') = mc_total_issuance c (chain s)) as Hrb.
  { intros n -> Hr. by rewrite (transactional_rollback _ _ _ _ H Hr). }
  destruct r as [[]|x|]; [|destruct Hm; by (eapply Hrb; [reflexivity|])..]. clear Hrb.
  destruct Hm as [allowed r c'|allowed r|o c' d rc v Hv|o d rc v Hv|o to v r Hv].
  - unfold register_resource_id in H. run_step H. by subst.
  - unfold remove_resource_id in H. run_step H. destruct (currency_ids s !! r); run_step H; by subst.
  - unfold transfer_to_bridge in H. run_step H. by eapply to_bridge_supply.
  - unfold transfer_native_to_bridge in H. run_step H. by eapply to_bridge_supply.
  - unfold transfer_from_bridge in H. run_step H.
    match goal with HR : currency_ids s !! r = Some ?x |- _ =>
      apply (reg_inverse s Hreg) in HR; apply (reg_match s Hreg) in HR; unfold check_match in HR end.
    destruct (is_origin_chain_resource r); apply on_chain_done in H as (l & H & ->).
    + by apply (mc_transfer_issuance _ _ _ _ _ _ _ H).
    + rewrite (mc_deposit_issuance _ _ _ _ _ c H) by done.
      unfold currency_eqb. rewrite bool_decide_false; [lia|]. intros <-. unfold is_bridged in Hb. by case_match.
Qed.

End Pallet.

(** ** A registered currency on the ledger *)

#[local] Instance ledger_bridge : Bridge Ledger LedgerError Z := {|
  chain_whitelisted d _ := d =? 7;
  bridge_account := 1000;
  bridge_chain_id := 2;
  transfer_fungible _ _ _ _ := ret tt
|}.

Definition bridge_start : State Ledger :=
  MkState ∅ ∅ [] (MkLedger {[(Token DNAR, 1) := 90]} {[Token DNAR := 90]} ∅ 0).

(** The resource 2 of chain 2, this one, and the resource 5 of chain 5. *)
Definition registered_home : State Ledger :=
  (register_resource_id (L:=Ledger) (X:=LedgerError) (A:=Z) true 2 (Token DNAR) bridge_start).2.

Definition registered_both : State Ledger :=
  (register_resource_id (L:=Ledger) (X:=LedgerError) (A:=Z) true 5 (ChainBridge 5) registered_home).2.

Lemma both_reachable : reachable (L:=Ledger) (X:=LedgerError) (A:=Z) (Token DNAR) registered_both.
Proof.
  eapply Call; [eapply Call; [by apply Start with (s:=bridge_start)| |]|..];
    [apply (CallRegister _ true 2 (Token DNAR))|apply surjective_pairing
    |apply (CallRegister _ true 5 (ChainBridge 5))|apply surjective_pairing].
Qed.

Lemma registration_is_one_to_one_witness :
  resource_ids registered_both !! Token DNAR = Some 2 /\ currency_ids registered_both !! 2 = Some (Token DNAR)
  /\ is_bridged (Token DNAR) = false.
Proof.
  destruct (registration_is_one_to_one (Token DNAR) registered_both (Token DNAR) 2 both_reachable) as [H1 H2].
  split; [by vm_compute|]. split; [apply H1; by vm_compute|apply H2; by vm_compute].
Defined.

(** Thirty of the native currency go to the bridge account and are not burnt. *)
Lemma bridge_keeps_home_supply_witness :
  let s' := (transfer_native_to_bridge (L:=Ledger) (X:=LedgerError) (Token DNAR) (Some 1) 7 [] 30 registered_both).2 in
  balance_of (Token DNAR) 1000 (chain s') = 30
  /\ mc_total_issuance (Token DNAR) (chain s') = mc_total_issuance (Token DNAR) (chain registered_both).
Proof.
  split; [by vm_compute|].
  eapply (bridge_keeps_home_supply (L:=Ledger) (X:=LedgerError) (A:=Z) (Token DNAR));
    [by intros * [= <-]|apply both_reachable|apply (CallNativeToBridge (Token DNAR) (Some 1) 7 [] 30); lia
    |apply surjective_pairing|done].
Defined.
