(* ===== verification/RenVm.v ===== *)
(** * The RenVM bridge: minting against signatures

    [lib-serml/bridges/renvm-bridge/src/lib.rs]: unsigned transactions that mint bridged
    tokens or rotate the key, each with a signature of RenVM, and the burns recorded for
    RenVM to see. Hashes and the recovery of signatures are the parameters [Crypto] of
    [EvmAccounts]; the bridged token, the fee and the block number are behind [RenChain]. *)

From S2P Require Import Prelude Currency Evm EvmAccounts.

Class RenChain (L X A : Type) : Type := {
  ren_deposit : A -> Z -> M L X unit;
  ren_withdraw : A -> Z -> M L X unit;
  ren_charge_fee : A -> Z -> M L X unit;
  ren_block_number : L -> Z
}.

Inductive RenError : Type :=
| InvalidRenVmPublicKey
| InvalidMintSignature
| SignatureAlreadyUsed
| Overflow
| BadOrigin.

Inductive RenEvent (A : Type) : Type :=
| Minted (who : A) (amount : Z)
| Burnt (who : A) (dest : bytes) (amount : Z)
| RotatedKey (key : bytes).

Arguments Minted {A}.
Arguments Burnt {A}.
Arguments RotatedKey {A}.

Record State (L A : Type) : Type := MkState {
  ren_vm_public_key : option bytes;
  signatures : gset bytes;
  burn_events : gmap Z (Z * bytes * Z);
  next_burn_event_id : Z;
  events : list (RenEvent A);
  chain : L
}.

Arguments MkState {L A}.
Arguments ren_vm_public_key {L A}.
Arguments signatures {L A}.
Arguments burn_events {L A}.
Arguments next_burn_event_id {L A}.
Arguments events {L A}.
Arguments chain {L A}.

(** [Call] and the answers of [validate_unsigned]. *)
Inductive RenCall (A : Type) : Type :=
| mint_call (who : A) (p_hash : bytes) (amount : Z) (n_hash : bytes) (sig : bytes)
| rotate_key_call (new_key sig : bytes)
| burn_call (to : bytes) (amount : Z).

Arguments mint_call {A}.
Arguments rotate_key_call {A}.
Arguments burn_call {A}.

Inductive Validity : Type := Valid (priority : Z) (provides : bytes) (longevity : Z) | Stale | BadProof | InvalidCall.

Definition MINT_TX_LENGTH : Z := 168.

Section Pallet.
Context {L X A : Type} `{!RenChain L X A}.
Variable crypto : Crypto.
(** The encoding of an account, [CurrencyIdentifier] and [UnsignedPriority]. *)
Variable encode : A -> bytes.
Variable CurrencyIdentifier : bytes.
Variable UnsignedPriority : Z.

Abbreviation St := (State L A).
Abbreviation Run := (M (State L A) (RenError + X)).

Definition set_chain (l : L) (s : St) : St :=
  MkState (ren_vm_public_key s) (signatures s) (burn_events s) (next_burn_event_id s) (events s) l.

Definition set_public_key (k : option bytes) (s : St) : St :=
  MkState k (signatures s) (burn_events s) (next_burn_event_id s) (events s) (chain s).

Definition insert_signature (sig : bytes) (s : St) : St :=
  MkState (ren_vm_public_key s) ({[sig]} ∪ signatures s) (burn_events s) (next_burn_event_id s) (events s) (chain s).

Definition set_burn_events (f : gmap Z (Z * bytes * Z) -> gmap Z (Z * bytes * Z)) (s : St) : St :=
  MkState (ren_vm_public_key s) (signatures s) (f (burn_events s)) (next_burn_event_id s) (events s) (chain s).

Definition set_next_id (n : Z) (s : St) : St :=
  MkState (ren_vm_public_key s) (signatures s) (burn_events s) n (events s) (chain s).

Definition deposit_event (e : RenEvent A) (s : St) : St :=
  MkState (ren_vm_public_key s) (signatures s) (burn_events s) (next_burn_event_id s) (events s ++ [e]) (chain s).

Definition on_chain {B : Type} (m : M L X B) : Run B := zoom chain set_chain inr m.

(** Genesis. *)
Definition build (key : bytes) (s : St) : St := set_public_key (Some key) s.

Definition do_mint (sender : A) (amount : Z) (sig : bytes) : Run unit :=
  do! on_chain (ren_deposit sender amount) in
  modify (insert_signature sig).

Definition do_rotate_key (new_key sig : bytes) (s : St) : St :=
  insert_signature sig (set_public_key (Some new_key) s).

Definition mint (is_none : bool) (who : A) (amount : Z) (sig : bytes) : Run unit :=
  do! ensure is_none (inl BadOrigin) in
  do! do_mint who amount sig in
  do! try_run (on_chain (ren_charge_fee who MINT_TX_LENGTH)) in
  modify (deposit_event (Minted who amount)).

(** [try_mutate]: the id is written when the closure succeeds. *)
Definition burn (origin : option A) (to : bytes) (amount : Z) : Run unit :=
  let! sender := ok_or origin (inl BadOrigin) in
  let! s := get in
  let this_id := next_burn_event_id s in
  let! id := ok_or (checked_add 32 this_id 1) (inl Overflow) in
  do! on_chain (ren_withdraw sender amount) in
  let! s := get in
  do! modify (set_burn_events <[this_id := (ren_block_number (chain s), to, amount)]>) in
  do! modify (deposit_event (Burnt sender to amount)) in
  modify (set_next_id id).

Definition rotate_key (is_none : bool) (new_key sig : bytes) : Run unit :=
  do! ensure is_none (inl BadOrigin) in
  do! modify (do_rotate_key new_key sig) in
  modify (deposit_event (RotatedKey new_key)).

(** ** The signed messages *)

Definition signable_mint_message (p_hash : bytes) (amount : Z) (to n_hash token : bytes) : bytes :=
  p_hash ++ repeat 0 16 ++ be_bytes 16 amount ++ token ++ to ++ n_hash.

Definition signable_rotate_key_message (new_key : bytes) : bytes := new_key.

(** The address of the key that signed. *)
Definition signer_of (sig msg : bytes) : option bytes :=
  recovered ← secp256k1_ecdsa_recover crypto sig (keccak_256 crypto msg);
  Some (drop 12 (keccak_256 crypto recovered)).

Definition verify_signature (msg sig : bytes) (s : St) : outcome RenError unit :=
  let? addr := ok_or_err (signer_of sig msg) InvalidMintSignature in
  let? pubkey := ok_or_err (ren_vm_public_key s) InvalidRenVmPublicKey in
  oensure (bool_decide (addr = pubkey)) InvalidMintSignature.

Definition verify_mint_signature (p_hash : bytes) (amount : Z) (to n_hash sig : bytes) (s : St) : outcome RenError unit :=
  verify_signature (signable_mint_message p_hash amount to n_hash CurrencyIdentifier) sig s.

Definition verify_rotate_key_signature (new_key sig : bytes) (s : St) : outcome RenError unit :=
  verify_signature (signable_rotate_key_message new_key) sig s.

(** ** [ValidateUnsigned] *)

Definition valid_transaction (sig : bytes) : Validity := Valid UnsignedPriority sig 64.

Definition is_err {E B : Type} (o : outcome E B) : bool := match o with Ok _ => false | _ => true end.

Definition validate_unsigned (call : RenCall A) (s : St) : Validity :=
  match call with
  | mint_call who p_hash amount n_hash sig =>
      if bool_decide (sig ∈ signatures s) then Stale
      else if is_err (verify_mint_signature p_hash amount (encode who) n_hash sig s) then BadProof
      else valid_transaction sig
  | rotate_key_call new_key sig =>
      if bool_decide (sig ∈ signatures s) then Stale
      else if is_err (verify_rotate_key_signature new_key sig s) then BadProof
      else valid_transaction sig
  | _ => InvalidCall
  end.

Definition is_valid (v : Validity) : bool := match v with Valid _ _ _ => true | _ => false end.

(** The frame executes an unsigned call only after it was validated in the same state. *)
Definition dispatch_unsigned (call : RenCall A) : Run unit :=
  let! s := get in
  do! ensure (is_valid (validate_unsigned call s)) (inl BadOrigin) in
  match call with
  | mint_call who _ amount _ sig => mint true who amount sig
  | rotate_key_call new_key sig => rotate_key true new_key sig
  | burn_call _ _ => fail (inl BadOrigin)
  end.

(** ** Histories *)

(** What happened, in order: the unsigned calls that succeeded. Calls that fail, burns and
    changes elsewhere on the chain happen in between; a panic produces no block. *)
Inductive history : list (RenCall A) -> St -> Prop :=
| Genesis key s : signatures s = ∅ -> burn_events s = ∅ -> next_burn_event_id s = 0 -> history [] (build key s)
| Unsigned h s call s' : history h s -> dispatch_unsigned call s = (Ok tt, s') -> history (h ++ [call]) s'
| UnsignedFails h s call x s' : history h s -> dispatch_unsigned call s = (Err x, s') -> history h s'
| Burns h s o to amount r s' : history h s -> burn o to amount s = (r, s') -> history h s'
| Elsewhere h s l : history h s -> history h (set_chain l s).

Definition signature_of (call : RenCall A) : bytes :=
  match call with mint_call _ _ _ _ sig => sig | rotate_key_call _ sig => sig | burn_call _ _ => [] end.

(** The message that a call needs signed. *)
Definition message_of (call : RenCall A) : bytes :=
  match call with
  | mint_call who p_hash amount n_hash _ => signable_mint_message p_hash amount (encode who) n_hash CurrencyIdentifier
  | rotate_key_call new_key _ => signable_rotate_key_message new_key
  | burn_call _ _ => []
  end.

(** The keys that RenVM had, the last first. *)
Fixpoint keys (key : bytes) (h : list (RenCall A)) : list bytes :=
  match h with
  | [] => []
  | call :: h' => key :: keys (match call with rotate_key_call new_key _ => new_key | _ => key end) h'
  end.

End Pallet.
