(* ===== verification/RenVmTheorems.v ===== *)
(** * What RenVM signed, and how often

    Over every history of the bridge of [RenVm]: a signature is accepted once, for what it
    was given and under the key in force at the time; burns are numbered without gaps. *)

From S2P Require Import Prelude Currency Evm EvmAccounts EvmAccountsTheorems RenVm.

Section Theorems.
Context {L X A : Type} `{!RenChain L X A}.
Variable crypto : Crypto.
Variable encode : A -> bytes.
Variable CurrencyIdentifier : bytes.
Variable UnsignedPriority : Z.

Abbreviation St := (State L A).
Abbreviation dispatch := (dispatch_unsigned (L:=L) (X:=X) crypto encode CurrencyIdentifier UnsignedPriority).
Abbreviation history := (history (L:=L) (X:=X) crypto encode CurrencyIdentifier UnsignedPriority).
Abbreviation message := (message_of encode CurrencyIdentifier).

(** ** The storage that the rest of the chain does not reach *)

Lemma on_chain_frame {B : Type} (m : M L X B) (s : St) r s' :
  on_chain m s = (r, s') ->
  ren_vm_public_key s' = ren_vm_public_key s /\ signatures s' = signatures s
  /\ burn_events s' = burn_events s /\ next_burn_event_id s' = next_burn_event_id s.
Proof. unfold on_chain, zoom. destruct (m (chain s)) as [[b|x|] l]; by intros [= _ <-]. Qed.

(** The key after a call. *)
Definition key_after (call : RenCall A) (key : option bytes) : option bytes :=
  match call with rotate_key_call new_key _ => Some new_key | _ => key end.

Lemma mint_effect who amount sig (s : St) r s' :
  mint true who amount sig s = (r, s') ->
  ren_vm_public_key s' = ren_vm_public_key s
  /\ burn_events s' = burn_events s /\ next_burn_event_id s' = next_burn_event_id s
  /\ match r with Ok _ => signatures s' = {[sig]} ∪ signatures s | Err _ => signatures s' = signatures s | Panic => True end.
Proof.
  unfold mint, do_mint, bind, ensure, ret. simpl.
  destruct (on_chain _ s) as [[[]|x|] s1] eqn:E1; apply on_chain_frame in E1 as (H1 & H2 & H3 & H4);
    [|intros [= <- <-]; split_and!; done..].
  unfold try_run. simpl. destruct (on_chain _ (insert_signature sig s1)) as [[[]|x|] s2] eqn:E2;
    apply on_chain_frame in E2 as (K1 & K2 & K3 & K4); simpl in *; intros [= <- <-]; simpl;
    rewrite ?K1, ?K2, ?K3, ?K4, ?H1, ?H2, ?H3, ?H4; split_and!; done.
Qed.

(** A successful unsigned call: it was valid, and its signature is now spent. *)
Lemma dispatch_ok call (s s' : St) :
  dispatch call s = (Ok tt, s') ->
  signature_of call ∉ signatures s
  /\ (exists key, ren_vm_public_key s = Some key /\ signer_of crypto (signature_of call) (message call) = Some key)
  /\ signatures s' = {[signature_of call]} ∪ signatures s
  /\ ren_vm_public_key s' = key_after call (ren_vm_public_key s)
  /\ burn_events s' = burn_events s /\ next_burn_event_id s' = next_burn_event_id s.
Proof.
  intros H. unfold dispatch_unsigned, bind, get, ensure, ret in H.
  destruct (is_valid _) eqn:R in H; [|done].
  assert (signature_of call ∉ signatures s
    /\ exists key, ren_vm_public_key s = Some key /\ signer_of crypto (signature_of call) (message call) = Some key) as [Hnew Hkey].
  { destruct call as [who p amount n sig|new_key sig|to amount]; simpl in R; [| |done];
      (destruct (bool_decide (sig ∈ signatures s)) eqn:E; [done|]; apply bool_decide_eq_false in E; split; [done|]);
      (destruct (is_err _) eqn:E2 in R; [done|]);
      unfold verify_mint_signature, verify_rotate_key_signature, verify_signature in E2; simpl;
      (destruct (signer_of _ _ _) as [addr|]; [|done]); simpl in E2;
      (destruct (ren_vm_public_key s) as [key|]; [|done]); simpl in E2;
      (destruct (bool_decide (addr = key)) eqn:E3; [|done]); apply bool_decide_eq_true in E3; naive_solver. }
  split; [done|]. split; [done|]. destruct call as [who p amount n sig|new_key sig|to amount]; simpl in *.
  - apply mint_effect in H as (H1 & H2 & H3 & H4); done.
  - unfold rotate_key in H. run_step H. subst. done.
  - done.
Qed.

(** A failed one spends nothing. *)
Lemma dispatch_failed call (s s' : St) x :
  dispatch call s = (Err x, s') ->
  ren_vm_public_key s' = ren_vm_public_key s /\ signatures s' = signatures s
  /\ burn_events s' = burn_events s /\ next_burn_event_id s' = next_burn_event_id s.
Proof.
  intros H. unfold dispatch_unsigned, bind, get, ensure, ret in H.
  destruct (is_valid _) in H; [|by injection H as _ <-].
  destruct call as [who p amount n sig|new_key sig|to amount]; [|done|by injection H as _ <-].
  by apply mint_effect in H as (H1 & H2 & H3 & H4).
Qed.

Lemma burn_effect o to amount (s : St) r s' :
  burn o to amount s = (r, s') ->
  ren_vm_public_key s' = ren_vm_public_key s /\ signatures s' = signatures s
  /\ (burn_events s' = burn_events s /\ next_burn_event_id s' = next_burn_event_id s
      \/ next_burn_event_id s + 1 <= umax 32 /\ next_burn_event_id s' = next_burn_event_id s + 1
         /\ exists e, burn_events s' = <[next_burn_event_id s := e]> (burn_events s)).
Proof.
  unfold burn, bind, ok_or, get, ret, modify. destruct o as [sender|]; [|intros [= <- <-]; by auto].
  destruct (checked_add 32 (next_burn_event_id s) 1) as [id|] eqn:Hid; [|intros [= <- <-]; by auto].
  apply checked_add_Some in Hid as [-> Hid].
  destruct (on_chain _ s) as [[[]|x|] s1] eqn:E; apply on_chain_frame in E as (H1 & H2 & H3 & H4);
    intros [= <- <-]; simpl; rewrite ?H1, ?H2, ?H3, ?H4; split_and!; try done; [right|by left..].
  split_and!; try done. by eexists.
Qed.

(** What is spent is what was accepted, each once; each was signed by the key of the time;
    burns are numbered from zero without a gap. *)
Record ledger_of (h : list (RenCall A)) (s : St) : Prop := {
  spent sig : sig ∈ signatures s <-> sig ∈ map signature_of h;
  spent_once : NoDup (map signature_of h);
  signed : exists key0, ren_vm_public_key s = fold_left (fun k c => key_after c k) h (Some key0)
    /\ Forall2 (fun c key => signer_of crypto (signature_of c) (message c) = Some key) h (keys key0 h);
  numbered i : is_Some (burn_events s !! i) <-> 0 <= i < next_burn_event_id s;
  numbers : 0 <= next_burn_event_id s <= umax 32
}.

Lemma keys_app key0 key h c :
  fold_left (fun k c => key_after c k) h (Some key0) = Some key -> keys key0 (h ++ [c]) = keys key0 h ++ [key].
Proof.
  revert key0. induction h as [|d h IH]; intros key0 H; simpl in *; [by injection H as ->|].
  f_equal. destruct d; simpl in H |- *; by apply IH.
Qed.

(** Nothing that matters to the ledger changed. *)
Lemma ledger_same h s s' :
  ren_vm_public_key s' = ren_vm_public_key s -> signatures s' = signatures s ->
  burn_events s' = burn_events s -> next_burn_event_id s' = next_burn_event_id s -> ledger_of h s -> ledger_of h s'.
Proof. intros H1 H2 H3 H4 []. split; intros; rewrite ?H1, ?H2, ?H3, ?H4; done. Qed.

Lemma ledger_accepts h s call s' : ledger_of h s -> dispatch call s = (Ok tt, s') -> ledger_of (h ++ [call]) s'.
Proof.
  intros [Hsp Hnd (key0 & Hkey & Hsig) Hnum Hb] H. apply dispatch_ok in H as (Hnew & (key & Hk & Hsg) & H1 & H2 & H3 & H4).
  split.
  - intros sig. rewrite H1, map_app, elem_of_app, elem_of_union, Hsp. simpl. set_solver.
  - rewrite map_app, NoDup_app. split_and!; [done| |apply NoDup_singleton].
    intros sig Hs ->%list_elem_of_singleton. by apply Hnew, Hsp.
  - exists key0. rewrite fold_left_app, H2, <- Hkey. split; [done|].
    rewrite (keys_app key0 key) by congruence. apply Forall2_app; [done|]. by repeat constructor.
  - intros i. by rewrite H3, H4.
  - by rewrite H4.
Qed.

Lemma history_ledger h s : history h s -> ledger_of h s.
Proof.
  induction 1 as [key s H1 H2 H3|h s call s' _ IH H|h s call x s' _ IH H|h s o to amount r s' _ IH H|h s l _ IH].
  - split; simpl.
    + intros sig. rewrite H1. set_solver.
    + constructor.
    + exists key. split; [done|constructor].
    + intros i. rewrite H2, H3, lookup_empty, <- not_eq_None_Some. naive_solver lia.
    + rewrite H3. by vm_compute.
  - by eapply ledger_accepts.
  - apply dispatch_failed in H as (H1 & H2 & H3 & H4). by apply (ledger_same h s).
  - apply burn_effect in H as (H1 & H2 & [[H3 H4]|(Hm & H3 & e & H4)]); [by apply (ledger_same h s)|].
    destruct IH as [Hsp Hnd Hsig Hnum Hb]. split; try (by rewrite ?H1, ?H2); [|lia].
    intros i. rewrite H4, H3. destruct (decide (i = next_burn_event_id s)) as [->|Hne].
    + rewrite lookup_insert_eq. split; [lia|by eexists].
    + rewrite lookup_insert_ne, Hnum by done. lia.
  - by apply (ledger_same h s).
Qed.

(** C26: no signature is used twice: over any history of the chain the signatures of the calls
    that minted or rotated the key are all different, and exactly those are stale. *)
Theorem signatures_are_spent_once h s :
  history h s -> NoDup (map signature_of h) /\ forall sig, sig ∈ signatures s <-> sig ∈ map signature_of h.
Proof. intros H. apply history_ledger in H as []. done. Qed.

(** Nothing is minted and no key is changed that RenVM did not sign: each accepted call
    carries a signature of its message, which for a mint is of the account, the amount and
    both hashes, under the key that was in force when it was executed. *)
Theorem accepted_calls_were_signed h s :
  history h s ->
  exists key0, Forall2 (fun c key => signer_of crypto (signature_of c) (message c) = Some key) h (keys key0 h)
    /\ ren_vm_public_key s = fold_left (fun k c => key_after c k) h (Some key0).
Proof. intros H. apply history_ledger in H as [_ _ (key0 & Hk & Hs) _ _]. by exists key0. Qed.

(** Burns are numbered from zero, without a gap and without a number used twice, up to the
    largest number of 32 bits. *)
Theorem burns_are_numbered h s i :
  history h s -> (is_Some (burn_events s !! i) <-> 0 <= i < next_burn_event_id s) /\ next_burn_event_id s <= umax 32.
Proof. intros H. apply history_ledger in H as [_ _ _ Hn Hb]. split; [apply Hn|lia]. Qed.

(** From the message that RenVM signs for a mint the hashes, the amount and the account can
    be read off, and it is never the message of a rotation of the key. *)
Theorem mint_message_is_unambiguous p p' amount amount' to to' n n' token new_key :
  length p = 32%nat -> length p' = 32%nat -> length to = 32%nat -> length to' = 32%nat ->
  length new_key = 20%nat -> in_uint 128 amount -> in_uint 128 amount' ->
  (signable_mint_message p amount to n token = signable_mint_message p' amount' to' n' token ->
   p = p' /\ amount = amount' /\ to = to' /\ n = n')
  /\ signable_mint_message p amount to n token <> signable_rotate_key_message new_key.
Proof.
  intros Hp Hp' Ht Ht' Hk Ha Ha'. unfold signable_mint_message, signable_rotate_key_message. split.
  - intros H. apply app_inj_1 in H as [-> H]; [|congruence]. apply app_inv_head in H.
    apply app_inj_1 in H as [Hamount H]; [|by rewrite !length_be_bytes]. apply app_inv_head in H.
    apply app_inj_1 in H as [-> ->]; [|congruence]. split_and!; try done.
    assert (2 ^ 128 = 256 ^ Z.of_nat 16) as Hpow by done. unfold in_uint, umax in *.
    rewrite <- (from_be_be_bytes 16 amount), <- (from_be_be_bytes 16 amount') by lia. by rewrite Hamount.
  - intros H. apply (f_equal length) in H. rewrite !length_app, Hk, Hp in H. lia.
Qed.

(** The record of used signatures is of their bytes, not of what they sign: if two
    signatures of one message recover the same key, the second is valid after the first has
    minted, so that the same transfer is minted twice. *)
Theorem second_signature_mints_again who p amount n sig sig' (s s' : St) :
  sig <> sig' -> sig' ∉ signatures s ->
  signer_of crypto sig' (message (mint_call who p amount n sig)) = signer_of crypto sig (message (mint_call who p amount n sig)) ->
  dispatch (mint_call who p amount n sig) s = (Ok tt, s') ->
  validate_unsigned crypto encode CurrencyIdentifier UnsignedPriority (mint_call who p amount n sig') s'
    = Valid UnsignedPriority sig' 64.
Proof.
  intros Hne Hnew Hsame H. apply dispatch_ok in H as (_ & (key & Hk & Hs) & H1 & H2 & _). simpl in *.
  rewrite bool_decide_false by (rewrite H1; set_solver).
  unfold verify_mint_signature, verify_signature. rewrite Hsame, Hs, H2, Hk. simpl.
  by rewrite bool_decide_true.
Qed.

End Theorems.

(** * A mint, a burn and a rotation

    A history of the RenVM bridge with the toy signatures of [EvmAccountsTheorems]: the
    witnesses of [RenVmTheorems]. *)

#[local] Instance balances_chain : RenChain (gmap Z Z) Z Z := {|
  ren_deposit who v := modify (fun l => <[who := default 0 (l !! who) + v]> l);
  ren_withdraw who v l := if v <=? default 0 (l !! who) then (Ok tt, <[who := default 0 (l !! who) - v]> l) else (Err 1, l);
  ren_charge_fee _ _ := fail 2;
  ren_block_number _ := 9
|}.

Definition key_of (k : Z) : bytes := repeat 0 19 ++ [k].
Definition account (who : Z) : bytes := be_bytes 32 who.
Definition token : bytes := be_bytes 32 99.
Definition hash (n : Z) : bytes := be_bytes 32 n.

Definition sign (k : Z) (msg : bytes) : bytes := k :: msg.

Definition genesis : State (gmap Z Z) Z := build (key_of 7) (MkState None ∅ ∅ 0 [] ∅).

Definition mint_message (who amount n : Z) : bytes := signable_mint_message (hash 1) amount (account who) (hash n) token.

(** Account 3 is minted fifty, burns twenty, and the key is rotated to 8. *)
Definition first_mint (k : Z) : RenCall Z := mint_call 3 (hash 1) 50 (hash 2) (sign k (mint_message 3 50 2)).
Definition rotation : RenCall Z := rotate_key_call (key_of 8) (sign 7 (key_of 8)).

Definition run (c : RenCall Z) (s : State (gmap Z Z) Z) :=
  dispatch_unsigned (L:=gmap Z Z) (X:=Z) toy account token 100 c s.

Definition minted : State (gmap Z Z) Z := (run (first_mint 7) genesis).2.
Definition burnt : State (gmap Z Z) Z := (burn (X:=Z) (Some 3) [5; 6] 20 minted).2.
Definition rotated : State (gmap Z Z) Z := (run rotation burnt).2.

Definition toy_history := history (L:=gmap Z Z) (X:=Z) toy account token 100.

Lemma minted_history : toy_history [first_mint 7] minted.
Proof. apply (Unsigned _ _ _ _ [] genesis (first_mint 7)); [by apply Genesis|by vm_compute]. Qed.

Lemma rotated_history : toy_history [first_mint 7; rotation] rotated.
Proof.
  apply (Unsigned _ _ _ _ [first_mint 7] burnt rotation); [|by vm_compute].
  eapply Burns; [apply minted_history|apply surjective_pairing].
Qed.

(** What is left of it all. *)
Example rotated_state :
  chain rotated !! 3 = Some 30 /\ burn_events rotated !! 0 = Some (9, [5; 6], 20)
  /\ ren_vm_public_key rotated = Some (key_of 8) /\ (run (first_mint 7) rotated).1 = Err (inl BadOrigin).
Proof. by vm_compute. Qed.

Lemma signatures_are_spent_once_witness :
  NoDup (map signature_of [first_mint 7; rotation]) /\ signature_of rotation ∈ signatures rotated.
Proof.
  destruct (signatures_are_spent_once (L:=gmap Z Z) (X:=Z) toy account token 100 _ _ rotated_history) as [H1 H2].
  split; [exact H1|]. apply H2. apply (bool_decide_unpack _). by vm_compute.
Defined.

Lemma accepted_calls_were_signed_witness :
  exists key0, Forall2 (fun c key => signer_of toy (signature_of c) (message_of account token c) = Some key)
      [first_mint 7; rotation] (keys key0 [first_mint 7; rotation])
    /\ ren_vm_public_key rotated = fold_left (fun k c => key_after c k) [first_mint 7; rotation] (Some key0).
Proof. apply (accepted_calls_were_signed (L:=gmap Z Z) (X:=Z) toy account token 100 _ _ rotated_history). Defined.

Lemma burns_are_numbered_witness :
  (is_Some (burn_events rotated !! 0) <-> 0 <= 0 < next_burn_event_id rotated) /\ next_burn_event_id rotated = 1.
Proof.
  split; [|by vm_compute].
  apply (burns_are_numbered (L:=gmap Z Z) (X:=Z) toy account token 100 _ _ 0 rotated_history).
Defined.

Lemma mint_message_is_unambiguous_witness :
  mint_message 3 50 2 <> signable_rotate_key_message (key_of 8).
Proof.
  apply (mint_message_is_unambiguous (hash 1) (hash 1) 50 50 (account 3) (account 3) (hash 2) (hash 2) token (key_of 8));
    first [done | unfold in_uint, umax; lia].
Defined.

(** Two first bytes that differ by 256 are the same toy key. *)
Lemma second_signature_mints_again_witness :
  validate_unsigned toy account token 100 (first_mint 263) minted = Valid 100 (signature_of (first_mint 263)) 64.
Proof.
  apply (second_signature_mints_again (L:=gmap Z Z) (X:=Z) toy account token 100 3 (hash 1) 50 (hash 2)
    (signature_of (first_mint 7)) (signature_of (first_mint 263)) genesis minted);
    [done|by vm_compute|by vm_compute|by vm_compute].
Defined.
