(* ===== verification/SettmintManager.v ===== *)
(** * The Settmint manager: reserves and the stablecoins issued against them

    [lib-serml/settmint/settmint-manager/src/lib.rs]: a position per standard currency and
    account, the totals per currency, and the two ways to change them. The pallet has no
    calls of its own; [adjust_position] and [transfer_reserve] are called by the engine and
    the gateway. The treasury, the validator of positions, the conversion of amounts and
    the update handler are behind [SettmintChain], which [SettmintGateway] fills in. *)

From S2P Require Import Prelude Currency Externals.

(** [Amount] is an [i128]. *)
Abbreviation Amount := Z.

Class SettmintChain (L X A : Type) : Type := {
  convert : CurrencyId -> Z -> L -> Z;
  issue_standard : CurrencyId -> A -> Z -> M L X unit;
  burn_standard : A -> CurrencyId -> Z -> M L X unit;
  check_position_valid : CurrencyId -> Z -> Z -> L -> outcome X unit;
  on_update_settmint : A -> CurrencyId -> Amount -> Z -> L -> L
}.

Record Position : Type := MkPosition { reserve : Z; standard : Z }.

Definition position_default : Position := MkPosition 0 0.

Inductive SettmintError : Type :=
| StandardOverflow
| StandardTooLow
| ReserveOverflow
| ReserveTooLow
| AmountConvertFailed
| InvalidStandardType.

Inductive SettmintEvent (A : Type) : Type :=
| PositionUpdated (who : A) (currency_id : CurrencyId) (reserve_adjustment standard_adjustment : Amount)
| TransferReserve (from to : A) (currency_id : CurrencyId).

Arguments PositionUpdated {A}.
Arguments TransferReserve {A}.

Section Manager.
Context {L X A : Type} `{Countable A} `{!MultiCurrency L X A} `{!FrameSystem L A} `{!SettmintChain L X A}.
Variable StandardCurrencyIds : list CurrencyId.
Variable GetReserveCurrencyId : CurrencyId.
Variable account_id : A.

Record State : Type := MkState {
  positions : gmap (CurrencyId * A) Position;
  total_positions : gmap CurrencyId Position;
  events : list (SettmintEvent A);
  chain : L
}.

Abbreviation Run := (M State (SettmintError + X)).

Definition set_positions (f : gmap (CurrencyId * A) Position -> gmap (CurrencyId * A) Position) (s : State) : State :=
  MkState (f (positions s)) (total_positions s) (events s) (chain s).

Definition set_totals (f : gmap CurrencyId Position -> gmap CurrencyId Position) (s : State) : State :=
  MkState (positions s) (f (total_positions s)) (events s) (chain s).

Definition set_chain (l : L) (s : State) : State := MkState (positions s) (total_positions s) (events s) l.

Definition deposit_event (e : SettmintEvent A) (s : State) : State :=
  MkState (positions s) (total_positions s) (events s ++ [e]) (chain s).

Definition on_chain {B : Type} (m : M L X B) : Run B := zoom chain set_chain inr m.

(** The getters: an absent position is zero. *)
Definition position_of (s : State) (currency_id : CurrencyId) (who : A) : Position :=
  default position_default (positions s !! (currency_id, who)).

Definition total_of (s : State) (currency_id : CurrencyId) : Position :=
  default position_default (total_positions s !! currency_id).

(** ** Conversions *)

Definition i128_min : Z := - 2 ^ 127.
Definition i128_max : Z := 2 ^ 127 - 1.

Definition saturating_abs (a : Amount) : Z := if a =? i128_min then i128_max else Z.abs a.
Definition saturating_neg (a : Amount) : Z := if a =? i128_min then i128_max else - a.

Definition amount_try_from_balance (b : Z) : outcome SettmintError Amount :=
  if b <=? i128_max then Ok b else Err AmountConvertFailed.

Definition balance_try_from_amount_abs (a : Amount) : outcome SettmintError Z :=
  let v := saturating_abs a in if 0 <=? v then Ok v else Err AmountConvertFailed.

Definition lift {B : Type} (o : outcome SettmintError B) : Run B := fun s =>
  (match o with Ok b => Ok b | Err e => Err (inl e) | Panic => Panic end, s).

(** ** [update_reserve] *)

(** One side of a position: up for a positive adjustment, else down. *)
Definition adjusted (adjustment : Amount) (balance amount : Z) (overflow too_low : SettmintError) :
    outcome SettmintError Z :=
  if 0 <? adjustment
  then ok_or_err (checked_add 128 balance amount) overflow
  else ok_or_err (checked_sub balance amount) too_low.

Definition is_zero (p : Position) : bool := (reserve p =? 0) && (standard p =? 0).

(** The failure of [inc_consumers] is logged and ignored. *)
Definition inc_or_warn (who : A) (l : L) : L := default l (inc_consumers who l).

(** The closure of [Positions::try_mutate_exists]. *)
Definition update_position (who : A) (currency_id : CurrencyId) (reserve_adjustment standard_adjustment : Amount)
    (reserve_balance standard_balance : Z) : Run unit :=
  let! s := get in
  let p := position_of s currency_id who in
  let! new_reserve := lift (adjusted reserve_adjustment (reserve p) reserve_balance ReserveOverflow ReserveTooLow) in
  let! new_standard := lift (adjusted standard_adjustment (standard p) standard_balance StandardOverflow StandardTooLow) in
  do! (when! is_zero p then modify (fun s => set_chain (inc_or_warn who (chain s)) s)) in
  do! modify (fun s => set_chain (on_update_settmint who currency_id standard_adjustment (standard p) (chain s)) s) in
  let p := MkPosition new_reserve new_standard in
  if is_zero p
  then
    do! modify (fun s => set_chain (dec_consumers who (chain s)) s) in
    modify (set_positions (delete (currency_id, who)))
  else modify (set_positions <[(currency_id, who) := p]>).

(** The closure of [TotalPositions::try_mutate]. *)
Definition update_total (currency_id : CurrencyId) (reserve_adjustment standard_adjustment : Amount)
    (reserve_balance standard_balance : Z) : Run unit :=
  let! s := get in
  let t := total_of s currency_id in
  let! new_standard := lift (adjusted standard_adjustment (standard t) standard_balance StandardOverflow StandardTooLow) in
  let! new_reserve := lift (adjusted reserve_adjustment (reserve t) reserve_balance ReserveOverflow ReserveTooLow) in
  modify (set_totals <[currency_id := MkPosition new_reserve new_standard]>).

Definition update_reserve (who : A) (currency_id : CurrencyId) (reserve_adjustment standard_adjustment : Amount) : Run unit :=
  let! reserve_balance := lift (balance_try_from_amount_abs reserve_adjustment) in
  let! standard_balance := lift (balance_try_from_amount_abs standard_adjustment) in
  do! update_position who currency_id reserve_adjustment standard_adjustment reserve_balance standard_balance in
  update_total currency_id reserve_adjustment standard_adjustment reserve_balance standard_balance.

(** ** The operations *)

Definition contains (currency_id : CurrencyId) (l : list CurrencyId) : bool := existsb (currency_eqb currency_id) l.

Definition converted (currency_id : CurrencyId) (amount : Z) : Run Z := gets (fun s => convert currency_id amount (chain s)).

Definition move_reserve (who : A) (reserve_adjustment : Amount) (balance : Z) : Run unit :=
  let reserve_currency := GetReserveCurrencyId in
  if 0 <? reserve_adjustment then
    let! amount := converted reserve_currency balance in
    on_chain (mc_transfer reserve_currency who account_id amount)
  else if reserve_adjustment <? 0 then
    let! amount := converted reserve_currency balance in
    on_chain (mc_transfer reserve_currency account_id who amount)
  else ret tt.

Definition move_standard (who : A) (currency_id : CurrencyId) (standard_adjustment : Amount) (balance : Z) : Run unit :=
  if 0 <? standard_adjustment then
    let! amount := converted currency_id balance in
    on_chain (issue_standard currency_id who amount)
  else if standard_adjustment <? 0 then
    let! amount := converted currency_id balance in
    on_chain (burn_standard who currency_id amount)
  else ret tt.

Definition check_valid (currency_id : CurrencyId) (r st : Z) : Run unit :=
  on_chain (reads (check_position_valid currency_id r st)).

Definition adjust_position (who : A) (currency_id : CurrencyId) (reserve_adjustment standard_adjustment : Amount) : Run unit :=
  transactional (
    do! update_reserve who currency_id reserve_adjustment standard_adjustment in
    let! reserve_balance_adjustment := lift (balance_try_from_amount_abs reserve_adjustment) in
    let! standard_balance_adjustment := lift (balance_try_from_amount_abs standard_adjustment) in
    do! ensure (contains currency_id StandardCurrencyIds) (inl InvalidStandardType) in
    do! move_reserve who reserve_adjustment reserve_balance_adjustment in
    do! move_standard who currency_id standard_adjustment standard_balance_adjustment in
    let! p := gets (fun s => position_of s currency_id who) in
    do! check_valid currency_id (reserve p) (standard p) in
    modify (deposit_event (PositionUpdated who currency_id reserve_adjustment standard_adjustment))).

Definition transfer_reserve (from to : A) (currency_id : CurrencyId) : Run unit :=
  let! s := get in
  let p := position_of s currency_id from in
  let q := position_of s currency_id to in
  let! new_to_reserve_balance := expect (checked_add 128 (reserve q) (reserve p)) in
  let! new_to_standard_balance := expect (checked_add 128 (standard q) (standard p)) in
  do! check_valid currency_id new_to_reserve_balance new_to_standard_balance in
  let! reserve_adjustment := lift (amount_try_from_balance (reserve p)) in
  let! standard_adjustment := lift (amount_try_from_balance (standard p)) in
  do! update_reserve from currency_id (saturating_neg reserve_adjustment) (saturating_neg standard_adjustment) in
  do! update_reserve to currency_id reserve_adjustment standard_adjustment in
  modify (deposit_event (TransferReserve from to currency_id)).

(** [total_reserve]. *)
Definition total_reserve (s : State) : Z := mc_free_balance GetReserveCurrencyId account_id (chain s).

(** The gateway calls it within a transaction. *)
Definition transfer_position (from to : A) (currency_id : CurrencyId) : Run unit :=
  transactional (transfer_reserve from to currency_id).

End Manager.
