(* ===== verification/SettmintTheorems.v ===== *)
(** * The totals are the sums of the positions

    For the operations of [SettmintManager]: the invariant of the two tables, what the
    adjustment and the transfer of a position do, and why the transfer does not overflow. *)

From S2P Require Import Prelude Currency Externals SettmintManager.

Section Theorems.
Context {L X A : Type} `{Countable A} `{!MultiCurrency L X A} `{!FrameSystem L A} `{!SettmintChain L X A}.
Variable StandardCurrencyIds : list CurrencyId.
Variable GetReserveCurrencyId : CurrencyId.
Variable account_id : A.

Abbreviation St := (@State L A _ _).
Abbreviation Run := (M St (SettmintError + X)).
Abbreviation adjust := (adjust_position StandardCurrencyIds GetReserveCurrencyId account_id).

(** ** Signed adjustments *)

(** What an adjustment adds: the least amount counts as its neighbour. *)
Definition delta (a : Amount) : Z := if 0 <? a then saturating_abs a else - saturating_abs a.

Definition is_amount (a : Z) : Prop := i128_min <= a <= i128_max.

Lemma delta_exact a : i128_min < a -> delta a = a.
Proof.
  unfold delta, saturating_abs, i128_min. intros Ha. destruct (Z.eqb_spec a (- 2 ^ 127)); [lia|].
  destruct (Z.ltb_spec 0 a); lia.
Qed.

Lemma delta_neg a : 0 <= a <= i128_max -> delta (saturating_neg a) = - a.
Proof.
  unfold delta, saturating_neg, saturating_abs, i128_min, i128_max. intros Ha.
  destruct (Z.eqb_spec a (- 2 ^ 127)); [lia|]. destruct (Z.ltb_spec 0 (- a)); [lia|].
  destruct (Z.eqb_spec (- a) (- 2 ^ 127)); lia.
Qed.

Lemma abs_ok a n : balance_try_from_amount_abs a = Ok n <-> n = saturating_abs a /\ 0 <= n.
Proof.
  unfold balance_try_from_amount_abs. destruct (Z.leb_spec 0 (saturating_abs a)); split; intros Hx; naive_solver lia.
Qed.

Lemma adjusted_ok a b n e1 e2 :
  0 <= saturating_abs a ->
  adjusted a b (saturating_abs a) e1 e2 = Ok n <->
  n = b + delta a /\ (if 0 <? a then n <= umax 128 else 0 <= n).
Proof.
  intros Ha. unfold adjusted, delta. destruct (0 <? a); rewrite ok_or_err_ok.
  - rewrite checked_add_Some. naive_solver lia.
  - rewrite checked_sub_Some. naive_solver lia.
Qed.

(** ** What the storage keeps from the rest of the chain *)

Definition tables (s : St) := (positions s, total_positions s).

Lemma on_chain_tables {B : Type} (m : M L X B) (s : St) r s' : on_chain m s = (r, s') -> tables s' = tables s.
Proof. unfold on_chain, zoom. destruct (m (chain s)) as [[b|x|] l]; by intros [= _ <-]. Qed.

Lemma lift_ok {B : Type} (o : outcome SettmintError B) (s : St) b s' :
  lift (X:=X) o s = (Ok b, s') <-> o = Ok b /\ s' = s.
Proof. unfold lift. destruct o; naive_solver. Qed.

(** Writing a position: none when it is zero. *)
Definition write (c : CurrencyId) (who : A) (p : Position) (m : gmap (CurrencyId * A) Position) :=
  if is_zero p then delete (c, who) m else <[(c, who) := p]> m.

Definition moved (p : Position) (ra sa : Amount) : Position := MkPosition (reserve p + delta ra) (standard p + delta sa).

Definition fits (p : Position) : Prop := in_uint 128 (reserve p) /\ in_uint 128 (standard p).

Lemma fits_moved p ra sa :
  fits p ->
  (if 0 <? ra then reserve p + delta ra <= umax 128 else 0 <= reserve p + delta ra) ->
  (if 0 <? sa then standard p + delta sa <= umax 128 else 0 <= standard p + delta sa) ->
  0 <= saturating_abs ra -> 0 <= saturating_abs sa -> fits (moved p ra sa).
Proof.
  unfold fits, in_uint, moved, delta. simpl. intros [H1 H2] Hr Hst H3 H4. destruct (0 <? ra), (0 <? sa); lia.
Qed.

Lemma update_position_ok who c ra sa (s : St) u s' :
  0 <= saturating_abs ra -> 0 <= saturating_abs sa -> fits (position_of s c who) ->
  update_position (X:=X) who c ra sa (saturating_abs ra) (saturating_abs sa) s = (Ok u, s') ->
  positions s' = write c who (moved (position_of s c who) ra sa) (positions s)
  /\ total_positions s' = total_positions s /\ events s' = events s /\ fits (moved (position_of s c who) ra sa).
Proof.
  intros Hra Hsa Hfit Hrun. unfold update_position in Hrun. run_step Hrun.
  apply lift_ok in R as [Hr ->]. apply lift_ok in R0 as [Hst ->]. rename R1 into Hinc.
  apply adjusted_ok in Hr as [-> Hr]; [|done]. apply adjusted_ok in Hst as [-> Hst]; [|done].
  set (p := position_of s c who) in *. pose proof (fits_moved p ra sa Hfit Hr Hst Hra Hsa) as Hm.
  assert (positions x4 = positions s /\ total_positions x4 = total_positions s /\ events x4 = events s) as (E1 & E2 & E3).
  { destruct (is_zero p) in Hinc; run_step Hinc; by subst. }
  change (MkPosition _ _) with (moved p ra sa) in Hrun. unfold write.
  destruct (is_zero (moved p ra sa)); run_step Hrun; subst; simpl; by rewrite E1, E2, E3.
Qed.

Lemma update_total_ok c ra sa (s : St) u s' :
  0 <= saturating_abs ra -> 0 <= saturating_abs sa -> fits (total_of s c) ->
  update_total (X:=X) c ra sa (saturating_abs ra) (saturating_abs sa) s = (Ok u, s') ->
  positions s' = positions s /\ total_positions s' = <[c := moved (total_of s c) ra sa]> (total_positions s)
  /\ events s' = events s /\ fits (moved (total_of s c) ra sa).
Proof.
  intros Hra Hsa Hfit Hrun. unfold update_total in Hrun. run_step Hrun.
  apply lift_ok in R as [Hst ->]. apply lift_ok in R0 as [Hr ->].
  apply adjusted_ok in Hr as [-> Hr]; [|done]. apply adjusted_ok in Hst as [-> Hst]; [|done].
  subst. split_and!; try done. by apply fits_moved.
Qed.

Lemma update_reserve_ok who c ra sa (s : St) u s' :
  fits (position_of s c who) -> fits (total_of s c) ->
  update_reserve (X:=X) who c ra sa s = (Ok u, s') ->
  positions s' = write c who (moved (position_of s c who) ra sa) (positions s)
  /\ total_positions s' = <[c := moved (total_of s c) ra sa]> (total_positions s)
  /\ fits (moved (position_of s c who) ra sa) /\ fits (moved (total_of s c) ra sa) /\ events s' = events s.
Proof.
  intros Hp Ht Hrun. unfold update_reserve in Hrun. run_step Hrun.
  apply lift_ok in R as [Hr ->]. apply lift_ok in R0 as [Hst ->].
  apply abs_ok in Hr as [-> Hr]. apply abs_ok in Hst as [-> Hst].
  apply update_position_ok in R1 as (H1 & H2 & H3 & H4); [|done..].
  assert (forall s2 : St, total_positions s2 = total_positions s -> total_of s2 c = total_of s c) as Ht2
    by (intros s2 E; unfold total_of; by rewrite E).
  apply update_total_ok in Hrun as (K1 & K2 & K3 & K4); [|done..|by rewrite Ht2].
  rewrite Ht2 in K2, K4 by done. rewrite K1, K2, K3, H1, H2, H3. done.
Qed.
(** ** The invariant *)

Definition side_of (f : Position -> Z) (c : CurrencyId) (k : CurrencyId * A) (p : Position) : Z :=
  if bool_decide (k.1 = c) then f p else 0.

(** What the positions of a currency add up to. *)
Definition held (f : Position -> Z) (c : CurrencyId) (s : St) : Z := map_sum (side_of f c) (positions s).

Record consistent (s : St) : Prop := {
  totals_reserve c : reserve (total_of s c) = held reserve c s;
  totals_standard c : standard (total_of s c) = held standard c s;
  totals_fit c : fits (total_of s c);
  positions_fit k p : positions s !! k = Some p -> fits p /\ is_zero p = false
}.

Lemma consistent_same s s' : tables s' = tables s -> consistent s -> consistent s'.
Proof. unfold tables. intros [= E1 E2] []. split; intros *; unfold total_of, held; rewrite ?E1, ?E2; eauto. Qed.

Lemma position_fits s c who : consistent s -> fits (position_of s c who).
Proof.
  intros Hs. unfold position_of. destruct (positions s !! (c, who)) as [p|] eqn:E; [by apply (positions_fit s Hs) in E as []|].
  unfold fits, in_uint. simpl. pose proof (umax_nonneg 128). lia.
Qed.

(** A zero position weighs nothing, stored or not. *)
Lemma held_write f c who p s c' :
  f position_default = 0 -> (is_zero p = true -> f p = 0) ->
  map_sum (side_of f c') (write c who p (positions s)) =
  held f c' s + (if bool_decide (c = c') then f p - f (position_of s c who) else 0).
Proof.
  intros H0 Hz. unfold write, held, position_of.
  assert (map_at (side_of f c') (positions s) (c, who) =
    if bool_decide (c = c') then f (default position_default (positions s !! (c, who))) else 0) as Hat.
  { unfold map_at, side_of. simpl. destruct (positions s !! (c, who)); simpl; [done|]. rewrite H0. by case_bool_decide. }
  destruct (is_zero p).
  - rewrite map_sum_delete_at, Hat. case_bool_decide; [rewrite Hz by done|]; lia.
  - rewrite map_sum_insert, Hat. unfold side_of. simpl. case_bool_decide; lia.
Qed.

Lemma is_zero_sides p : is_zero p = true <-> reserve p = 0 /\ standard p = 0.
Proof. unfold is_zero. rewrite andb_true_iff, !Z.eqb_eq. done. Qed.

Lemma update_reserve_consistent who c ra sa s u s' :
  consistent s -> update_reserve (X:=X) who c ra sa s = (Ok u, s') -> consistent s'.
Proof.
  intros Hs Hrun. apply update_reserve_ok in Hrun as (H1 & H2 & H3 & H4 & _); [|by apply position_fits|apply (totals_fit s Hs)].
  set (p := position_of s c who) in *.
  assert (forall c', total_of s' c' = if bool_decide (c = c') then moved (total_of s c) ra sa else total_of s c') as Ht.
  { intros c'. unfold total_of at 1. rewrite H2. case_bool_decide as E; [subst; by rewrite lookup_insert_eq|].
    by rewrite lookup_insert_ne. }
  split.
  - intros c'. unfold held. rewrite Ht, H1, held_write by (done || by intros [? ?]%is_zero_sides).
    rewrite <- (totals_reserve s Hs). case_bool_decide; [subst; simpl; fold p; lia|lia].
  - intros c'. unfold held. rewrite Ht, H1, held_write by (done || by intros [? ?]%is_zero_sides).
    rewrite <- (totals_standard s Hs). case_bool_decide; [subst; simpl; fold p; lia|lia].
  - intros c'. rewrite Ht. case_bool_decide; [done|apply (totals_fit s Hs)].
  - intros k q. rewrite H1. unfold write. destruct (is_zero (moved p ra sa)) eqn:Hz.
    + rewrite lookup_delete_Some. intros [_ Hk]. by apply (positions_fit s Hs) in Hk.
    + rewrite lookup_insert_Some. intros [[_ <-]|[_ Hk]]; [done|by apply (positions_fit s Hs) in Hk].
Qed.

(** The rest of an operation does not touch the tables. *)
Lemma move_reserve_tables who ra b s r s' :
  move_reserve (X:=X) GetReserveCurrencyId account_id who ra b s = (r, s') -> tables s' = tables s.
Proof.
  unfold move_reserve, converted, bind, gets. destruct (0 <? ra); [apply on_chain_tables|].
  destruct (ra <? 0); [apply on_chain_tables|by intros [= _ <-]].
Qed.

Lemma move_standard_tables who c sa b s r s' : move_standard (X:=X) who c sa b s = (r, s') -> tables s' = tables s.
Proof.
  unfold move_standard, converted, bind, gets. destruct (0 <? sa); [apply on_chain_tables|].
  destruct (sa <? 0); [apply on_chain_tables|by intros [= _ <-]].
Qed.

(** What a successful adjustment consists of. *)
Lemma adjust_ok who c ra sa s u s' :
  adjust who c ra sa s = (Ok u, s') ->
  exists s1, update_reserve (X:=X) who c ra sa s = (Ok tt, s1) /\ tables s' = tables s1
    /\ contains c StandardCurrencyIds = true.
Proof.
  intros Hrun. unfold adjust_position in Hrun. rewrite transactional_ok in Hrun. run_step Hrun.
  apply lift_ok in R0 as [_ ->]. apply lift_ok in R1 as [_ ->]. destruct x. eexists. split; [exact R|].
  match goal with HC : move_reserve _ _ _ _ _ _ = _ |- _ => apply move_reserve_tables in HC as Hm1 end.
  match goal with HC : move_standard _ _ _ _ _ = _ |- _ => apply move_standard_tables in HC as Hm2 end.
  match goal with HC : check_valid _ _ _ _ = _ |- _ => apply on_chain_tables in HC as R5' end.
  split; [|done]. unfold tables in *. simpl. congruence.
Qed.
(** What a successful transfer consists of. *)
Lemma transfer_ok from to c s u s' :
  transfer_reserve (X:=X) from to c s = (Ok u, s') ->
  let p := position_of s c from in
  exists s1 s2, update_reserve (X:=X) from c (saturating_neg (reserve p)) (saturating_neg (standard p)) s = (Ok tt, s1)
    /\ update_reserve (X:=X) to c (reserve p) (standard p) s1 = (Ok tt, s2) /\ tables s' = tables s2
    /\ reserve p <= i128_max /\ standard p <= i128_max.
Proof.
  intros Hrun p. unfold transfer_reserve in Hrun. run_step Hrun.
  match goal with HC : check_valid _ _ _ _ = (Ok _, ?t) |- _ =>
    assert (t = s) as -> by (revert HC; unfold check_valid, on_chain, zoom, reads;
      destruct (check_position_valid _ _ _ _); intros [= _ <-]; by destruct s) end.
  repeat match goal with HL : lift _ _ = (Ok _, _) |- _ => apply lift_ok in HL as [HL ->] end.
  unfold amount_try_from_balance in *. subst p. set (p := position_of s c from) in *.
  destruct (Z.leb_spec (reserve p) i128_max); [|done]. destruct (Z.leb_spec (standard p) i128_max); [|done]. simplify_eq.
  match goal with HU : update_reserve from _ _ _ _ = (Ok ?v, ?t), HV : update_reserve to _ _ _ ?t = (Ok ?w, ?t') |- _ =>
    destruct v, w; exists t, t' end. done.
Qed.

(** ** Reachable states *)

Inductive call : Run unit -> Prop :=
| CallAdjust who c ra sa : call (adjust who c ra sa)
| CallTransfer from to c : call (transfer_position from to c).

Inductive reachable : St -> Prop :=
| Empty s : positions s = ∅ -> total_positions s = ∅ -> reachable s
| Call s m r s' : reachable s -> call m -> m s = (r, s') -> reachable s'
| Elsewhere s l : reachable s -> reachable (set_chain l s).

Lemma call_consistent m s r s' : call m -> m s = (r, s') -> consistent s -> consistent s'.
Proof.
  intros Hm Hrun Hs.
  assert (forall n : Run unit, m = transactional n -> (forall a, r <> Ok a) -> consistent s') as Hrb.
  { intros n -> Hr. by rewrite (transactional_rollback _ _ _ _ Hrun Hr). }
  destruct r as [u|x|]; [|destruct Hm; by (eapply Hrb; [reflexivity|])..]. clear Hrb.
  destruct Hm as [who c ra sa|from to c].
  - apply adjust_ok in Hrun as (s1 & Hu & Ht & _). apply (consistent_same s1); [done|]. by eapply update_reserve_consistent.
  - unfold transfer_position in Hrun. rewrite transactional_ok in Hrun.
    apply transfer_ok in Hrun as (s1 & s2 & Hu1 & Hu2 & Ht & _). apply (consistent_same s2); [done|].
    eapply update_reserve_consistent, Hu2. by eapply update_reserve_consistent.
Qed.

Lemma reachable_consistent s : reachable s -> consistent s.
Proof.
  induction 1 as [s E1 E2|s m r s' _ IH Hm Hrun|s l _ IH].
  - assert (fits position_default) by (unfold fits, in_uint; simpl; pose proof (umax_nonneg 128); lia).
    split; intros *; unfold total_of, held; rewrite ?E1, ?E2, ?lookup_empty; simpl; rewrite ?map_sum_empty; done.
  - by eapply call_consistent.
  - by apply (consistent_same s).
Qed.

(** C21: the totals of a currency are the sums of its positions, on both sides; positions that
    are stored are not zero, and everything fits 128 bits. *)
Theorem totals_are_sums s c :
  reachable s ->
  reserve (total_of s c) = held reserve c s /\ standard (total_of s c) = held standard c s
  /\ fits (total_of s c) /\ forall k p, positions s !! k = Some p -> fits p /\ is_zero p = false.
Proof. intros Hs. apply reachable_consistent in Hs as []. done. Qed.

(** An adjustment that succeeds moves the position of the caller and the total of the
    currency by exactly the two amounts, both stay within 128 bits, and no other position
    changes. *)
Theorem adjust_position_spec who c ra sa s u s' :
  reachable s -> i128_min < ra -> i128_min < sa -> adjust who c ra sa s = (Ok u, s') ->
  let p := position_of s c who in
  position_of s' c who = MkPosition (reserve p + ra) (standard p + sa)
  /\ total_of s' c = MkPosition (reserve (total_of s c) + ra) (standard (total_of s c) + sa)
  /\ fits (position_of s' c who)
  /\ contains c StandardCurrencyIds = true
  /\ forall c' w, (c', w) <> (c, who) -> position_of s' c' w = position_of s c' w.
Proof.
  intros Hs Hra Hsa Hrun p. apply reachable_consistent in Hs.
  apply adjust_ok in Hrun as (s1 & Hu & Ht & Hc). unfold tables in Ht. injection Ht as T1 T2.
  apply update_reserve_ok in Hu as (H1 & H2 & H3 & _); [|by apply position_fits|apply (totals_fit s Hs)].
  unfold moved in *. fold p in H1, H3. rewrite !delta_exact in * by done.
  assert (position_of s' c who = MkPosition (reserve p + ra) (standard p + sa)) as Hp.
  { unfold position_of. rewrite T1, H1. unfold write. destruct (is_zero _) eqn:Hz.
    - rewrite lookup_delete_eq. apply is_zero_sides in Hz as [Hz1 Hz2]. simpl in *. unfold position_default. by rewrite Hz1, Hz2.
    - by rewrite lookup_insert_eq. }
  split; [done|]. split; [unfold total_of; by rewrite T2, H2, lookup_insert_eq|]. split; [by rewrite Hp|]. split; [done|].
  intros c' w Hne. unfold position_of. rewrite T1, H1. unfold write.
  destruct (is_zero _); [by rewrite lookup_delete_ne|by rewrite lookup_insert_ne].
Qed.
(** The position after a successful update, of its account and of others. *)
Lemma update_reserve_position who c ra sa s u s' :
  consistent s -> update_reserve (X:=X) who c ra sa s = (Ok u, s') ->
  position_of s' c who = moved (position_of s c who) ra sa
  /\ (forall c' w, (c', w) <> (c, who) -> position_of s' c' w = position_of s c' w)
  /\ total_of s' c = moved (total_of s c) ra sa
  /\ forall c', c' <> c -> total_of s' c' = total_of s c'.
Proof.
  intros Hs Hrun. apply update_reserve_ok in Hrun as (H1 & H2 & _); [|by apply position_fits|apply (totals_fit s Hs)].
  split_and!.
  - unfold position_of at 1. rewrite H1. unfold write. destruct (is_zero _) eqn:Hz; [|by rewrite lookup_insert_eq].
    rewrite lookup_delete_eq. apply is_zero_sides in Hz as [Hz1 Hz2].
    destruct (moved _ _ _); simpl in *; by subst.
  - intros c' w Hne. unfold position_of. rewrite H1. unfold write.
    destruct (is_zero _); [by rewrite lookup_delete_ne|by rewrite lookup_insert_ne].
  - unfold total_of at 1. by rewrite H2, lookup_insert_eq.
  - intros c' Hne. unfold total_of. by rewrite H2, lookup_insert_ne.
Qed.

(** What the validator has accepted. *)
Lemma adjust_checked who c ra sa s u s' :
  adjust who c ra sa s = (Ok u, s') ->
  let p := position_of s' c who in exists l, check_position_valid (A := A) c (reserve p) (standard p) l = Ok tt.
Proof.
  intros Hrun p. unfold adjust_position in Hrun. rewrite transactional_ok in Hrun. run_step Hrun. subst p. subst.
  match goal with HC : check_valid _ _ _ ?t = (Ok _, _) |- _ => exists (chain t); revert HC end.
  unfold check_valid, on_chain, zoom, reads. destruct (check_position_valid _ _ _ _) as [[]| |] eqn:E; [|done..].
  by intros [= _ <-].
Qed.

Lemma transfer_checked from to c s u s' :
  transfer_reserve (X:=X) from to c s = (Ok u, s') ->
  exists l, check_position_valid (A := A) c (reserve (position_of s c to) + reserve (position_of s c from))
    (standard (position_of s c to) + standard (position_of s c from)) l = Ok tt.
Proof.
  intros Hrun. unfold transfer_reserve in Hrun. run_step Hrun. subst.
  repeat match goal with HC : checked_add _ _ _ = Some _ |- _ => apply checked_add_Some in HC as [-> _] end.
  match goal with HC : check_valid _ _ _ ?t = (Ok _, _) |- _ => exists (chain t); revert HC end.
  unfold check_valid, on_chain, zoom, reads. by destruct (check_position_valid _ _ _ _) as [[]| |].
Qed.

(** The transfer on consistent tables. *)
Lemma transfer_reserve_spec from to c s u s' :
  consistent s -> from <> to -> transfer_reserve (X:=X) from to c s = (Ok u, s') ->
  let p := position_of s c from in
  position_of s' c from = position_default
  /\ position_of s' c to = MkPosition (reserve (position_of s c to) + reserve p) (standard (position_of s c to) + standard p)
  /\ (forall c', total_of s' c' = total_of s c')
  /\ forall c' w, (c', w) <> (c, from) -> (c', w) <> (c, to) -> position_of s' c' w = position_of s c' w.
Proof.
  intros Hs Hne Hrun p.
  apply transfer_ok in Hrun as (s1 & s2 & Hu1 & Hu2 & Ht & Hr & Hst). fold p in Hu1, Hu2, Hr, Hst.
  assert (fits p) as [[Hr0 _] [Hs0 _]] by (by apply position_fits).
  pose proof (update_reserve_consistent _ _ _ _ _ _ _ Hs Hu1) as Hs1.
  apply update_reserve_position in Hu1 as (P1 & O1 & T1 & U1); [|done].
  apply update_reserve_position in Hu2 as (P2 & O2 & T2 & U2); [|done].
  fold p in P1. unfold moved in *. rewrite !delta_neg in * by lia.
  assert (i128_min < 0) as Hmin by (unfold i128_min; lia). rewrite !delta_exact in * by lia.
  assert (forall c' w, position_of s' c' w = position_of s2 c' w) as Hp2
    by (intros; unfold position_of; unfold tables in Ht; by injection Ht as -> _).
  assert (forall c', total_of s' c' = total_of s2 c') as Ht2
    by (intros; unfold total_of; unfold tables in Ht; by injection Ht as _ ->).
  split_and!.
  - rewrite Hp2, O2, P1 by congruence. unfold position_default. f_equal; lia.
  - rewrite Hp2, P2, O1 by congruence. done.
  - intros c'. rewrite Ht2. destruct (decide (c' = c)) as [->|Hc].
    + rewrite T2, T1. simpl. destruct (total_of s c); simpl. f_equal; lia.
    + by rewrite U2, U1.
  - intros c' w H1 H2. by rewrite Hp2, O2, O1.
Qed.

(** A transfer that succeeds leaves nothing of the position of [from], adds all of it to the
    position of [to], and changes neither the total nor any other position. *)
Theorem transfer_position_spec from to c s u s' :
  reachable s -> from <> to -> transfer_position (X:=X) from to c s = (Ok u, s') ->
  let p := position_of s c from in
  position_of s' c from = position_default
  /\ position_of s' c to = MkPosition (reserve (position_of s c to) + reserve p) (standard (position_of s c to) + standard p)
  /\ (forall c', total_of s' c' = total_of s c')
  /\ forall c' w, (c', w) <> (c, from) -> (c', w) <> (c, to) -> position_of s' c' w = position_of s c' w.
Proof.
  intros Hs Hne Hrun. unfold transfer_position in Hrun. rewrite transactional_ok in Hrun. by eapply transfer_reserve_spec; [apply reachable_consistent| |].
Qed.

(** Two positions of a currency are together within its total. *)
Lemma two_held f c from to s :
  consistent s -> (forall p, fits p -> 0 <= f p) -> f position_default = 0 -> from <> to ->
  f (position_of s c from) + f (position_of s c to) <= held f c s.
Proof.
  intros Hs Hf H0 Hne.
  assert (forall k p, positions s !! k = Some p -> 0 <= side_of f c k p) as Hnn.
  { intros k p Hk. apply (positions_fit s Hs) in Hk as [Hk _]. unfold side_of. case_bool_decide; [by apply Hf|lia]. }
  assert (forall w, f (position_of s c w) = map_at (side_of f c) (positions s) (c, w)) as Hat.
  { intros w. unfold position_of, map_at, side_of. simpl. rewrite bool_decide_eq_true_2 by done. by destruct (positions s !! (c, w)). }
  rewrite !Hat. unfold held.
  pose proof (map_sum_delete_at (side_of f c) (positions s) (c, from)) as Hd.
  assert (map_at (side_of f c) (positions s) (c, to) <= map_sum (side_of f c) (delete (c, from) (positions s))) as Hle; [|lia].
  replace (map_at (side_of f c) (positions s) (c, to)) with (map_at (side_of f c) (delete (c, from) (positions s)) (c, to))
    by (unfold map_at; by rewrite lookup_delete_ne by congruence).
  apply map_at_le_sum. intros k p. rewrite lookup_delete_Some. intros [_ Hk]. by apply Hnn.
Qed.

(** A run that fails in one of the ways that it may, but does not panic. *)
Definition calm {B : Type} (m : Run B) : Prop := forall s, (m s).1 <> Panic.

Lemma calm_bind {B C : Type} (m : Run B) (k : B -> Run C) : calm m -> (forall b, calm (k b)) -> calm (bind m k).
Proof.
  intros Hm Hk s. unfold bind. specialize (Hm s). destruct (m s) as [[b|x|] s1]; simpl in *; [apply Hk|done|done].
Qed.

Lemma calm_lift {B : Type} (o : outcome SettmintError B) : o <> Panic -> calm (lift (X:=X) o).
Proof. intros Ho s. unfold lift. by destruct o. Qed.

Lemma calm_ok {B : Type} (f : St -> B) (g : St -> St) : calm (fun s => (Ok (f s), g s)).
Proof. by intros s. Qed.

Lemma calm_update_reserve who c ra sa : calm (update_reserve (X:=X) who c ra sa).
Proof.
  assert (forall a, balance_try_from_amount_abs a <> Panic) as Habs by (intros a; unfold balance_try_from_amount_abs; by case_match).
  assert (forall a b n e1 e2, adjusted a b n e1 e2 <> Panic) as Hadj
    by (intros; unfold adjusted; case_match; [by destruct (checked_add _ _ _)|by destruct (checked_sub _ _)]).
  unfold update_reserve, update_position, update_total.
  repeat first [ apply calm_bind; [|intros ?] | apply calm_lift; [apply Habs || apply Hadj]
    | apply (calm_ok (fun s => s) (fun s => s)) | apply (calm_ok (fun _ => tt)) | case_match ].
Qed.

(** The comments promise that the sums of two positions cannot overflow: between different
    accounts a transfer does not panic, in whatever state the calls have led to, as long as
    the validator of positions does not. *)
Theorem transfer_does_not_panic from to c s :
  reachable s -> from <> to -> (forall r st, check_position_valid (A:=A) c r st (chain s) <> Panic) ->
  (transfer_position (X:=X) from to c s).1 <> Panic.
Proof.
  intros Hs Hne Hv. apply reachable_consistent in Hs.
  assert (forall f, (f = reserve \/ f = standard) -> checked_add 128 (f (position_of s c to)) (f (position_of s c from)) <> None) as Hadd.
  { intros f Hf. assert (f (position_of s c to) + f (position_of s c from) <= umax 128) as Hle.
    { destruct (totals_fit s Hs c) as [[_ H1] [_ H2]]. rewrite (totals_reserve s Hs) in H1. rewrite (totals_standard s Hs) in H2.
      assert (forall p, fits p -> 0 <= f p) as Hf0 by (intros p [[? _] [? _]]; by destruct Hf as [-> | ->]).
      pose proof (two_held f c from to s Hs Hf0) as Htwo. destruct Hf as [-> | ->]; specialize (Htwo eq_refl Hne); lia. }
    unfold checked_add. by rewrite (proj2 (Z.leb_le _ _) Hle). }
  unfold transfer_position, transactional.
  assert ((transfer_reserve (X:=X) from to c s).1 <> Panic) as Hp;
    [|destruct (transfer_reserve from to c s) as [[u|x|] s1]; simpl in *; done].
  unfold transfer_reserve. unfold bind at 1, get.
  destruct (checked_add _ (reserve _) _) eqn:E1; [|by apply (Hadd reserve) in E1; auto].
  destruct (checked_add _ (standard _) _) eqn:E2; [|by apply (Hadd standard) in E2; auto].
  unfold expect, bind at 1, ret. unfold bind at 1. unfold bind at 1, check_valid, on_chain, zoom, reads.
  destruct (check_position_valid _ _ _ _) eqn:E3; [|done|by apply Hv in E3].
  apply (calm_bind (lift _)); [apply calm_lift; unfold amount_try_from_balance; by case_match|intros ra].
  apply (calm_bind (lift _)); [apply calm_lift; unfold amount_try_from_balance; by case_match|intros sa].
  apply calm_bind; [apply calm_update_reserve|intros _]. apply calm_bind; [apply calm_update_reserve|intros _].
  apply (calm_ok (fun _ => tt)).
Qed.

(** Between an account and itself it can: with more than half of what 128 bits hold. *)
Theorem self_transfer_can_panic who c s :
  umax 128 < 2 * reserve (position_of s c who) -> (transfer_position (X:=X) who who c s).1 = Panic.
Proof.
  intros Hlt. unfold transfer_position, transactional, transfer_reserve, bind at 1, get, expect.
  unfold bind at 1, checked_add at 1. by rewrite (proj2 (Z.leb_gt _ _)) by lia.
Qed.

End Theorems.
