(* ===== verification/SettmintExamples.v ===== *)
(** * Positions on the ledger

    The manager of [SettmintManager] over the ledger of [Externals]: one unit of an amount
    is one of the currency, the treasury issues and burns, every position is valid. *)

From S2P Require Import Prelude Currency Externals SettmintManager SettmintTheorems.

#[local] Instance ledger_settmint : SettmintChain Ledger LedgerError Z := {|
  convert _ v _ := v;
  issue_standard c who v := mc_deposit c who v;
  burn_standard who c v := mc_withdraw c who v;
  check_position_valid _ _ _ _ := Ok tt;
  on_update_settmint _ _ _ _ l := l
|}.

Definition setter : CurrencyId := Token SETT.
Definition usdj : CurrencyId := Token USDJ.
Definition rich : Z := 2 ^ 130.

Definition start : State (L:=Ledger) (A:=Z) :=
  MkState ∅ ∅ [] (MkLedger {[(setter, 1) := rich; (setter, 2) := 100]} {[setter := rich + 100]} ∅ 0).

Definition adjust (who ra sa : Z) (s : State (L:=Ledger) (A:=Z)) :=
  adjust_position (X:=LedgerError) [usdj] setter 1000 who usdj ra sa s.

Definition opened : State (L:=Ledger) (A:=Z) := (adjust 1 50 20 start).2.
Definition opened_two : State (L:=Ledger) (A:=Z) := (adjust 2 30 0 opened).2.
Definition handed_over : State (L:=Ledger) (A:=Z) := (transfer_position (X:=LedgerError) 1 2 usdj opened_two).2.
Definition full : State (L:=Ledger) (A:=Z) := (adjust 1 i128_max 0 (adjust 1 i128_max 0 start).2).2.

Definition reached := reachable (L:=Ledger) (X:=LedgerError) (A:=Z) [usdj] setter 1000.

Lemma opened_reached : reached opened.
Proof. eapply Call; [by apply (Empty _ _ _ start)|apply CallAdjust|apply surjective_pairing]. Qed.

Lemma opened_two_reached : reached opened_two.
Proof. eapply Call; [apply opened_reached|apply CallAdjust|apply surjective_pairing]. Qed.

Lemma handed_over_reached : reached handed_over.
Proof. eapply Call; [apply opened_two_reached|apply CallTransfer|apply surjective_pairing]. Qed.

Example positions_as_stored :
  position_of handed_over usdj 2 = MkPosition 80 20 /\ position_of handed_over usdj 1 = position_default
  /\ total_of handed_over usdj = MkPosition 80 20 /\ balance_of setter 1000 (chain handed_over) = 80
  /\ balance_of usdj 1 (chain handed_over) = 20.
Proof. by vm_compute. Qed.

Lemma totals_are_sums_witness :
  reserve (total_of opened_two usdj) = held reserve usdj opened_two /\ reserve (total_of opened_two usdj) = 80.
Proof.
  split; [|by vm_compute].
  apply (totals_are_sums (L:=Ledger) (X:=LedgerError) (A:=Z) [usdj] setter 1000 opened_two usdj), opened_two_reached.
Defined.

Definition adjusted_down : State (L:=Ledger) (A:=Z) := (adjust 1 (-10) 5 opened_two).2.

Lemma adjust_position_spec_witness : position_of adjusted_down usdj 1 = MkPosition 40 25.
Proof.
  destruct (adjust_position_spec (L:=Ledger) (X:=LedgerError) (A:=Z) [usdj] setter 1000 1 usdj (-10) 5 opened_two tt adjusted_down)
    as [H _]; [apply opened_two_reached|unfold i128_min; lia|unfold i128_min; lia|unfold adjusted_down; apply ran; by vm_compute|].
  rewrite H. by vm_compute.
Defined.

Lemma transfer_position_spec_witness :
  position_of handed_over usdj 1 = position_default /\ position_of handed_over usdj 2 = MkPosition 80 20.
Proof.
  destruct (transfer_position_spec (L:=Ledger) (X:=LedgerError) (A:=Z) [usdj] setter 1000 1 2 usdj opened_two tt handed_over)
    as (H1 & H2 & _); [apply opened_two_reached|done|unfold handed_over; apply ran; by vm_compute|].
  split; [exact H1|]. rewrite H2. by vm_compute.
Defined.

Lemma transfer_does_not_panic_witness : (transfer_position (X:=LedgerError) 2 1 usdj opened_two).1 <> Panic.
Proof.
  apply (transfer_does_not_panic (L:=Ledger) (X:=LedgerError) (A:=Z) [usdj] setter 1000);
    [apply opened_two_reached|done|done].
Defined.

Lemma self_transfer_can_panic_witness : (transfer_position (X:=LedgerError) 1 1 usdj full).1 = Panic.
Proof. apply (self_transfer_can_panic (L:=Ledger) (X:=LedgerError) (A:=Z) 1 usdj full). by vm_compute. Defined.
