(* ===== verification/Dex.v ===== *)
(** * The DEX pallet

    [lib-serml/dex/dex/src/lib.rs]: trading pairs and their status, the provision
    process, liquidity and swaps. The definitions follow the file from top to bottom:
    storage, genesis, the dispatchable calls, the inner functions, the [DEXManager]
    interface. The theorems are in [DexPricing] (the swap formula), [DexSafety]
    (the invariant) and [DexTheorems] (the calls). *)

From S2P Require Import Prelude Currency Externals.

(** ** Storage *)

Abbreviation Balance := Z.

Abbreviation BlockNumber := Z.

Record TradingPairProvisionParameters : Type := MkProvision {
  min_contribution : Balance * Balance;
  target_provision : Balance * Balance;
  accumulated_provision : Balance * Balance;
  not_before : BlockNumber
}.

Inductive TradingPairStatus : Type :=
| NotEnabled
| Provisioning (p : TradingPairProvisionParameters)
| Enabled.

Inductive DexError : Type :=
| NotEnabledTradingPair
| MustBeEnabled
| MustBeProvisioning
| MustBeNotEnabled
| NotAllowedList
| InvalidContributionIncrement
| InvalidLiquidityIncrement
| InvalidCurrencyId
| InvalidTradingPathLength
| InsufficientTargetAmount
| ExcessiveSupplyAmount
| ExceedPriceImpactLimit
| InsufficientLiquidity
| ZeroSupplyAmount
| ZeroTargetAmount
| UnacceptableShareIncrement
| UnacceptableLiquidityWithdrawn.

Inductive DexEvent (AccountId : Type) : Type :=
| AddProvision (who : AccountId) (c0 : CurrencyId) (v0 : Balance) (c1 : CurrencyId) (v1 : Balance)
| AddLiquidity (who : AccountId) (c0 : CurrencyId) (v0 : Balance) (c1 : CurrencyId) (v1 : Balance)
    (share : Balance)
| RemoveLiquidity (who : AccountId) (c0 : CurrencyId) (v0 : Balance) (c1 : CurrencyId) (v1 : Balance)
    (share : Balance)
| Swap (who : AccountId) (path : list CurrencyId) (supply target : Balance)
| EnableTradingPair (p : TradingPair)
| ListTradingPair (p : TradingPair)
| DisableTradingPair (p : TradingPair)
| ProvisioningToEnabled (p : TradingPair) (v0 v1 total : Balance).

Arguments AddProvision {AccountId}.
Arguments AddLiquidity {AccountId}.
Arguments RemoveLiquidity {AccountId}.
Arguments Swap {AccountId}.
Arguments EnableTradingPair {AccountId}.
Arguments ListTradingPair {AccountId}.
Arguments DisableTradingPair {AccountId}.
Arguments ProvisioningToEnabled {AccountId}.

(** The storage of the pallet and, behind it, the rest of the chain. *)
Record State (L AccountId : Type) `{Countable AccountId} : Type := MkState {
  liquidity_pool : gmap TradingPair (Balance * Balance);
  trading_pair_statuses : gmap TradingPair TradingPairStatus;
  provisioning_pool : gmap (TradingPair * AccountId) (Balance * Balance);
  events : list (DexEvent AccountId);
  chain : L
}.

Arguments MkState {L AccountId _ _}.
Arguments liquidity_pool {L AccountId _ _}.
Arguments trading_pair_statuses {L AccountId _ _}.
Arguments provisioning_pool {L AccountId _ _}.
Arguments events {L AccountId _ _}.
Arguments chain {L AccountId _ _}.

(** What the runtime supplies: the pallet's account, the limit on paths, the fee (a
    numerator and a denominator), the order in which a storage prefix is visited,
    who may list pairs, and the mapping of ERC20 contracts ([CurrencyIdMapping]). *)
Record Config (L X AccountId Origin : Type) : Type := MkConfig {
  dex_account : AccountId;
  trading_path_limit : Z;
  exchange_fee : Z * Z;
  storage_order : list (AccountId * (Balance * Balance)) -> list (AccountId * (Balance * Balance));
  signed_by : Origin -> option AccountId;
  is_listing_origin : Origin -> bool;
  bad_origin : X;
  erc20_mapping : EvmAddress -> M L X unit;
  lp_address : CurrencyId -> L -> option EvmAddress
}.

Arguments MkConfig {L X AccountId Origin}.
Arguments dex_account {L X AccountId Origin}.
Arguments trading_path_limit {L X AccountId Origin}.
Arguments exchange_fee {L X AccountId Origin}.
Arguments storage_order {L X AccountId Origin}.
Arguments signed_by {L X AccountId Origin}.
Arguments is_listing_origin {L X AccountId Origin}.
Arguments bad_origin {L X AccountId Origin}.
Arguments erc20_mapping {L X AccountId Origin}.
Arguments lp_address {L X AccountId Origin}.

Section Dex.
Context {L X AccountId Origin : Type} `{Countable AccountId}.
Context `{!MultiCurrency L X AccountId} `{!FrameSystem L AccountId} `{!DEXIncentives L X AccountId}.
Context `{F : FixedPoint} `{U : U256Ops}.
Variable cfg : Config L X AccountId Origin.

Abbreviation St := (State L AccountId).
Abbreviation Error := (DexError + X)%type.
Abbreviation Run := (M (State L AccountId) (DexError + X)).

Definition set_pool (f : gmap TradingPair (Balance * Balance) -> gmap TradingPair (Balance * Balance))
    (s : St) : St :=
  MkState (f (liquidity_pool s)) (trading_pair_statuses s) (provisioning_pool s) (events s) (chain s).

Definition set_statuses
    (f : gmap TradingPair TradingPairStatus -> gmap TradingPair TradingPairStatus) (s : St) : St :=
  MkState (liquidity_pool s) (f (trading_pair_statuses s)) (provisioning_pool s) (events s) (chain s).

Definition set_provisions
    (f : gmap (TradingPair * AccountId) (Balance * Balance) ->
         gmap (TradingPair * AccountId) (Balance * Balance)) (s : St) : St :=
  MkState (liquidity_pool s) (trading_pair_statuses s) (f (provisioning_pool s)) (events s) (chain s).

Definition set_chain (l : L) (s : St) : St :=
  MkState (liquidity_pool s) (trading_pair_statuses s) (provisioning_pool s) (events s) l.

Definition deposit_event (e : DexEvent AccountId) : Run unit :=
  modify (fun s => MkState (liquidity_pool s) (trading_pair_statuses s) (provisioning_pool s)
                     (events s ++ [e]) (chain s)).

(** A call into another pallet. *)
Definition call {A : Type} (m : M L X A) : Run A := zoom chain set_chain inr m.

Definition dispatch_error (e : DexError) : Error := inl e.

(** [ValueQuery] getters: an absent key reads as the default. *)
Definition pool_of (s : St) (p : TradingPair) : Balance * Balance :=
  default (0, 0) (liquidity_pool s !! p).

Definition status_of (s : St) (p : TradingPair) : TradingPairStatus :=
  default NotEnabled (trading_pair_statuses s !! p).

Definition is_enabled (st : TradingPairStatus) : bool :=
  match st with Enabled => true | _ => false end.

Definition is_not_enabled (st : TradingPairStatus) : bool :=
  match st with NotEnabled => true | _ => false end.

Definition account_id : AccountId := dex_account cfg.

Definition ensure_signed (origin : Origin) : Run AccountId :=
  ok_or (signed_by cfg origin) (inr (bad_origin cfg)).

Definition ensure_listing_origin (origin : Origin) : Run unit :=
  ensure (is_listing_origin cfg origin) (inr (bad_origin cfg)).

(** The entries of [ProvisioningPool] under a pair, in the order of the iterator. *)
Definition provisions_of (s : St) (p : TradingPair) : list (AccountId * (Balance * Balance)) :=
  storage_order cfg
    (omap (fun kv => if bool_decide (kv.1.1 = p) then Some (kv.1.2, kv.2) else None)
       (map_to_list (provisioning_pool s))).

(** [for (who, contribution) in ProvisioningPool::drain_prefix(p)]: an entry is
    removed when the iterator yields it. *)
Definition drain_prefix (p : TradingPair) (body : AccountId * (Balance * Balance) -> Run unit) :
    Run unit :=
  let! entries := gets (fun s => provisions_of s p) in
  for_each (fun entry =>
              do! modify (set_provisions (delete (p, entry.1))) in
              body entry) entries.

(** ** Inner functions *)

(** The shares issued for a contribution at the initial price. *)
Definition initial_share (accumulated contribution : Balance * Balance) : Balance :=
  if accumulated.2 <? accumulated.1 then
    let initial_price_1_in_0 :=
      fp_or_default (fp_checked_from_rational accumulated.1 accumulated.2) in
    sat_add 128 (fp_saturating_mul_int initial_price_1_in_0 contribution.2) contribution.1
  else
    let initial_price_0_in_1 :=
      fp_or_default (fp_checked_from_rational accumulated.2 accumulated.1) in
    sat_add 128 (fp_saturating_mul_int initial_price_0_in_1 contribution.1) contribution.2.

(** The test of [convert_to_enabled_if_possible]. *)
Definition can_enable (now : BlockNumber) (pp : TradingPairProvisionParameters) : bool :=
  (not_before pp <=? now)
  && negb ((accumulated_provision pp).1 =? 0)
  && negb ((accumulated_provision pp).2 =? 0)
  && (((target_provision pp).1 <=? (accumulated_provision pp).1)
      || ((target_provision pp).2 <=? (accumulated_provision pp).2)).

(** One turn of its loop; the accumulator is [total_shares_issued]. *)
Definition issue_provision_share (lp : CurrencyId) (accumulated : Balance * Balance)
    (total_shares_issued : Balance) (entry : AccountId * (Balance * Balance)) : Run Balance :=
  let share_amount := initial_share accumulated entry.2 in
  let! res := try_run (call (mc_deposit lp entry.1 share_amount)) in
  let total := match res with
               | Some _ => sat_add 128 total_shares_issued share_amount
               | None => total_shares_issued
               end in
  do! modify (fun s => set_chain (dec_consumers entry.1 (chain s)) s) in
  ret total.

Fixpoint issue_provision_shares (p : TradingPair) (lp : CurrencyId) (accumulated : Balance * Balance)
    (total : Balance) (entries : list (AccountId * (Balance * Balance))) : Run Balance :=
  match entries with
  | [] => ret total
  | entry :: entries' =>
      do! modify (set_provisions (delete (p, entry.1))) in
      let! total' := issue_provision_share lp accumulated total entry in
      issue_provision_shares p lp accumulated total' entries'
  end.

Definition convert_to_enabled_if_possible (trading_pair : TradingPair) : Run unit :=
  let! status := gets (fun s => status_of s trading_pair) in
  match status with
  | Provisioning provision_parameters =>
      let! now := gets (fun s => block_number (chain s)) in
      let accumulated := accumulated_provision provision_parameters in
      if can_enable now provision_parameters then
        let! lp_share_currency_id := expect (get_dex_share_currency_id trading_pair) in
        let! entries := gets (fun s => provisions_of s trading_pair) in
        let! total_shares_issued :=
          issue_provision_shares trading_pair lp_share_currency_id accumulated 0 entries in
        do! modify (fun s =>
              let pool := pool_of s trading_pair in
              set_pool <[trading_pair := (sat_add 128 pool.1 accumulated.1,
                                          sat_sub pool.2 accumulated.2)]> s) in
        do! modify (set_statuses <[trading_pair := Enabled]>) in
        deposit_event (ProvisioningToEnabled trading_pair accumulated.1 accumulated.2
                         total_shares_issued)
      else ret tt
  | _ => ret tt
  end.

(** The pair of values given for [(currency_id_a, currency_id_b)], in the pair's order. *)
Definition in_pair_order {A : Type} (currency_id_a : CurrencyId) (trading_pair : TradingPair)
    (a b : A) : A * A :=
  if currency_eqb currency_id_a (pair_0 trading_pair) then (a, b) else (b, a).

Definition do_add_provision (who : AccountId) (currency_id_a currency_id_b : CurrencyId)
    (contribution_a contribution_b : Balance) : Run unit :=
  let trading_pair := TradingPair_new currency_id_a currency_id_b in
  let! status := gets (fun s => status_of s trading_pair) in
  match status with
  | Provisioning pp =>
      let contribution := in_pair_order currency_id_a trading_pair contribution_a contribution_b in
      do! ensure (((min_contribution pp).1 <=? contribution.1)
                  || ((min_contribution pp).2 <=? contribution.2))
            (dispatch_error InvalidContributionIncrement) in
      let! maybe_pool := gets (fun s => provisioning_pool s !! (trading_pair, who)) in
      let pool := default (0, 0) maybe_pool in
      let pool' := (sat_add 128 pool.1 contribution.1, sat_add 128 pool.2 contribution.2) in
      do! call (mc_transfer (pair_0 trading_pair) who account_id contribution.1) in
      do! call (mc_transfer (pair_1 trading_pair) who account_id contribution.2) in
      do! match maybe_pool with
          | Some _ => ret tt
          | None => modify (fun s => match inc_consumers who (chain s) with
                                     | Some l => set_chain l s
                                     | None => s
                                     end)
          end in
      do! modify (set_statuses
            <[trading_pair := Provisioning
                (MkProvision (min_contribution pp) (target_provision pp)
                   (sat_add 128 (accumulated_provision pp).1 contribution.1,
                    sat_add 128 (accumulated_provision pp).2 contribution.2)
                   (not_before pp))]>) in
      do! deposit_event (AddProvision who (pair_0 trading_pair) contribution.1
                           (pair_1 trading_pair) contribution.2) in
      modify (set_provisions <[(trading_pair, who) := pool']>)
  | _ => fail (dispatch_error MustBeProvisioning)
  end.

(** The increments of [do_add_liquidity]: of the two pools and of the shares. *)
Definition liquidity_increments (total_shares : Balance) (pool max_amount : Balance * Balance) :
    Balance * Balance * Balance :=
  if total_shares =? 0 then (max_amount.1, max_amount.2, initial_share max_amount max_amount)
  else
    let price_0_1 := fp_or_default (fp_checked_from_rational pool.2 pool.1) in
    let input_price_0_1 := fp_or_default (fp_checked_from_rational max_amount.2 max_amount.1) in
    if fp_leb input_price_0_1 price_0_1 then
      let price_1_0 := fp_or_default (fp_checked_from_rational pool.1 pool.2) in
      let amount_0 := fp_saturating_mul_int price_1_0 max_amount.2 in
      let share_increment :=
        default 0 (fp_checked_from_rational amount_0 pool.1 ≫= fun n =>
                   fp_checked_mul_int n total_shares) in
      (amount_0, max_amount.2, share_increment)
    else
      let amount_1 := fp_saturating_mul_int price_0_1 max_amount.1 in
      let share_increment :=
        default 0 (fp_checked_from_rational amount_1 pool.2 ≫= fun n =>
                   fp_checked_mul_int n total_shares) in
      (max_amount.1, amount_1, share_increment).

Definition do_add_liquidity (who : AccountId) (currency_id_a currency_id_b : CurrencyId)
    (max_amount_a max_amount_b min_share_increment : Balance) (deposit_increment_share : bool) :
    Run unit :=
  let trading_pair := TradingPair_new currency_id_a currency_id_b in
  let! lp_share_currency_id :=
    ok_or (get_dex_share_currency_id trading_pair) (dispatch_error InvalidCurrencyId) in
  let! status := gets (fun s => status_of s trading_pair) in
  do! ensure (is_enabled status) (dispatch_error MustBeEnabled) in
  let! pool := gets (fun s => pool_of s trading_pair) in
  let! total_shares := gets (fun s => mc_total_issuance lp_share_currency_id (chain s)) in
  let max_amount := in_pair_order currency_id_a trading_pair max_amount_a max_amount_b in
  let '(pool_0_increment, pool_1_increment, share_increment) :=
    liquidity_increments total_shares pool max_amount in
  do! ensure (negb (share_increment =? 0) && negb (pool_0_increment =? 0)
              && negb (pool_1_increment =? 0))
        (dispatch_error InvalidLiquidityIncrement) in
  do! ensure (min_share_increment <=? share_increment)
        (dispatch_error UnacceptableShareIncrement) in
  do! call (mc_transfer (pair_0 trading_pair) who account_id pool_0_increment) in
  do! call (mc_transfer (pair_1 trading_pair) who account_id pool_1_increment) in
  do! call (mc_deposit lp_share_currency_id who share_increment) in
  do! (when! deposit_increment_share then
         call (do_deposit_dex_share who lp_share_currency_id share_increment)) in
  do! deposit_event (AddLiquidity who (pair_0 trading_pair) pool_0_increment
                       (pair_1 trading_pair) pool_1_increment share_increment) in
  modify (set_pool <[trading_pair := (sat_add 128 pool.1 pool_0_increment,
                                      sat_add 128 pool.2 pool_1_increment)]>).

Definition do_remove_liquidity (who : AccountId) (currency_id_a currency_id_b : CurrencyId)
    (remove_share min_withdrawn_a min_withdrawn_b : Balance) (by_withdraw : bool) : Run unit :=
  transactional (
    if remove_share =? 0 then ret tt
    else
      let! trading_pair := ok_or (from_token_currency_ids currency_id_a currency_id_b)
                             (dispatch_error InvalidCurrencyId) in
      let! lp_share_currency_id :=
        ok_or (get_dex_share_currency_id trading_pair) (dispatch_error InvalidCurrencyId) in
      let! pool := gets (fun s => pool_of s trading_pair) in
      let min_withdrawn := in_pair_order currency_id_a trading_pair min_withdrawn_a min_withdrawn_b in
      let! total_shares := gets (fun s => mc_total_issuance lp_share_currency_id (chain s)) in
      let proportion := fp_or_default (fp_checked_from_rational remove_share total_shares) in
      let pool_0_decrement := fp_saturating_mul_int proportion pool.1 in
      let pool_1_decrement := fp_saturating_mul_int proportion pool.2 in
      do! ensure ((min_withdrawn.1 <=? pool_0_decrement) && (min_withdrawn.2 <=? pool_1_decrement))
            (dispatch_error UnacceptableLiquidityWithdrawn) in
      do! (when! by_withdraw then
             call (do_withdraw_dex_share who lp_share_currency_id remove_share)) in
      do! call (mc_withdraw lp_share_currency_id who remove_share) in
      do! call (mc_transfer (pair_0 trading_pair) account_id who pool_0_decrement) in
      do! call (mc_transfer (pair_1 trading_pair) account_id who pool_1_decrement) in
      do! deposit_event (RemoveLiquidity who (pair_0 trading_pair) pool_0_decrement
                           (pair_1 trading_pair) pool_1_decrement remove_share) in
      modify (set_pool <[trading_pair := (sat_sub pool.1 pool_0_decrement,
                                          sat_sub pool.2 pool_1_decrement)]>)).

Definition get_liquidity (s : St) (currency_id_a currency_id_b : CurrencyId) : Balance * Balance :=
  let trading_pair := TradingPair_new currency_id_a currency_id_b in
  let pool := pool_of s trading_pair in
  if currency_eqb currency_id_a (pair_0 trading_pair) then (pool.1, pool.2) else (pool.2, pool.1).

(** How much target is got for a supply amount. *)
Definition get_target_amount (supply_pool target_pool supply_amount : Balance) : Balance :=
  if (supply_amount =? 0) || (supply_pool =? 0) || (target_pool =? 0) then 0
  else
    let fee_numerator := (exchange_fee cfg).1 in
    let fee_denominator := (exchange_fee cfg).2 in
    let supply_amount_with_fee := sat_mul 128 supply_amount (sat_sub fee_denominator fee_numerator) in
    let numerator :=
      u256_saturating_mul (u256_from supply_amount_with_fee) (u256_from target_pool) in
    let denominator :=
      u256_saturating_add
        (u256_saturating_mul (u256_from supply_pool) (u256_from fee_denominator))
        (u256_from supply_amount_with_fee) in
    default 0 (u256_checked_div numerator denominator ≫= u256_try_into_u128).

(** How much supply is paid for a target amount. *)
Definition get_supply_amount (supply_pool target_pool target_amount : Balance) : Balance :=
  if (target_amount =? 0) || (supply_pool =? 0) || (target_pool =? 0) then 0
  else
    let fee_numerator := (exchange_fee cfg).1 in
    let fee_denominator := (exchange_fee cfg).2 in
    let numerator :=
      u256_saturating_mul
        (u256_saturating_mul (u256_from supply_pool) (u256_from target_amount))
        (u256_from fee_denominator) in
    let denominator :=
      u256_saturating_mul
        (u256_saturating_sub (u256_from target_pool) (u256_from target_amount))
        (u256_from (sat_sub fee_denominator fee_numerator)) in
    default 0 (u256_checked_div numerator denominator ≫= fun r =>
               u256_checked_add r u256_one ≫= u256_try_into_u128).

(** The check against [price_impact_limit], for the amount that leaves the pool. *)
Definition check_price_impact (price_impact_limit : option FP) (amount target_pool : Balance) :
    outcome Error unit :=
  match price_impact_limit with
  | Some limit =>
      let price_impact := default fp_zero (fp_checked_from_rational amount target_pool) in
      oensure (fp_leb price_impact limit) (dispatch_error ExceedPriceImpactLimit)
  | None => Ok tt
  end.

Definition check_path_length (path : list CurrencyId) : outcome Error unit :=
  let path_length := Z.of_nat (length path) in
  oensure ((2 <=? path_length) && (path_length <=? trading_path_limit cfg))
    (dispatch_error InvalidTradingPathLength).

(** The checks and the liquidity of one hop [a -> b]. *)
Definition hop_liquidity (s : St) (a b : CurrencyId) : outcome Error (Balance * Balance) :=
  do? oensure (is_enabled (status_of s (TradingPair_new a b))) (dispatch_error MustBeEnabled) in
  let pools := get_liquidity s a b in
  do? oensure (negb (pools.1 =? 0) && negb (pools.2 =? 0)) (dispatch_error InsufficientLiquidity) in
  Ok pools.

(** The loop of [get_target_amounts], from the first hop; [amount] is
    [target_amounts[i]]. *)
Fixpoint target_amounts_from (s : St) (limit : option FP) (amount : Balance)
    (path : list CurrencyId) : outcome Error (list Balance) :=
  match path with
  | a :: (b :: _) as rest =>
      let? (supply_pool, target_pool) := hop_liquidity s a b in
      let target_amount := get_target_amount supply_pool target_pool amount in
      do? oensure (negb (target_amount =? 0)) (dispatch_error ZeroTargetAmount) in
      do? check_price_impact limit target_amount target_pool in
      let? amounts := target_amounts_from s limit target_amount rest in
      Ok (amount :: amounts)
  | _ => Ok [amount]
  end.

Definition get_target_amounts (s : St) (path : list CurrencyId) (supply_amount : Balance)
    (price_impact_limit : option FP) : outcome Error (list Balance) :=
  do? check_path_length path in
  target_amounts_from s price_impact_limit supply_amount path.

(** The loop of [get_supply_amounts], from the last hop: the path is reversed and the
    amounts found so far are those of the suffix already priced. *)
Fixpoint supply_amounts_from (s : St) (limit : option FP) (amount : Balance)
    (rpath : list CurrencyId) (found : list Balance) : outcome Error (list Balance) :=
  match rpath with
  | b :: (a :: _) as rest =>
      let? (supply_pool, target_pool) := hop_liquidity s a b in
      let supply_amount := get_supply_amount supply_pool target_pool amount in
      do? oensure (negb (supply_amount =? 0)) (dispatch_error ZeroSupplyAmount) in
      do? check_price_impact limit amount target_pool in
      supply_amounts_from s limit supply_amount rest (amount :: found)
  | _ => Ok (amount :: found)
  end.

Definition get_supply_amounts (s : St) (path : list CurrencyId) (target_amount : Balance)
    (price_impact_limit : option FP) : outcome Error (list Balance) :=
  do? check_path_length path in
  supply_amounts_from s price_impact_limit target_amount (reverse path) [].

Definition swap_pool (supply_currency_id target_currency_id : CurrencyId)
    (supply_increment target_decrement : Balance) (s : St) : St :=
  match from_token_currency_ids supply_currency_id target_currency_id with
  | Some trading_pair =>
      let pool := pool_of s trading_pair in
      let pool' :=
        if currency_eqb supply_currency_id (pair_0 trading_pair)
        then (sat_add 128 pool.1 supply_increment, sat_sub pool.2 target_decrement)
        else (sat_sub pool.1 target_decrement, sat_add 128 pool.2 supply_increment) in
      set_pool <[trading_pair := pool']> s
  | None => s
  end.

Fixpoint swap_by_path (path : list CurrencyId) (amounts : list Balance) (s : St) : St :=
  match path, amounts with
  | a :: (b :: _) as path', x :: (y :: _) as amounts' => swap_by_path path' amounts' (swap_pool a b x y s)
  | _, _ => s
  end.

Definition do_swap_with_exact_supply (who : AccountId) (path : list CurrencyId)
    (supply_amount min_target_amount : Balance) (price_impact_limit : option FP) : Run Balance :=
  transactional (
    let! amounts := reads (fun s => get_target_amounts s path supply_amount price_impact_limit) in
    let! actual_target_amount := expect (last amounts) in
    do! ensure (min_target_amount <=? actual_target_amount)
          (dispatch_error InsufficientTargetAmount) in
    let! supply_currency := expect (head path) in
    let! target_currency := expect (last path) in
    do! call (mc_transfer supply_currency who account_id supply_amount) in
    do! modify (swap_by_path path amounts) in
    do! call (mc_transfer target_currency account_id who actual_target_amount) in
    do! deposit_event (Swap who path supply_amount actual_target_amount) in
    ret actual_target_amount).

Definition do_swap_with_exact_target (who : AccountId) (path : list CurrencyId)
    (target_amount max_supply_amount : Balance) (price_impact_limit : option FP) : Run Balance :=
  transactional (
    let! amounts := reads (fun s => get_supply_amounts s path target_amount price_impact_limit) in
    let! actual_supply_amount := expect (head amounts) in
    do! ensure (actual_supply_amount <=? max_supply_amount) (dispatch_error ExcessiveSupplyAmount) in
    let! supply_currency := expect (head path) in
    let! target_currency := expect (last path) in
    do! call (mc_transfer supply_currency who account_id actual_supply_amount) in
    do! modify (swap_by_path path amounts) in
    do! call (mc_transfer target_currency account_id who target_amount) in
    do! deposit_event (Swap who path actual_supply_amount target_amount) in
    ret actual_supply_amount).

(** ** The dispatchable calls *)

Definition swap_with_exact_supply (origin : Origin) (path : list CurrencyId)
    (supply_amount min_target_amount : Balance) : Run unit :=
  transactional (
    let! who := ensure_signed origin in
    do! do_swap_with_exact_supply who path supply_amount min_target_amount None in
    ret tt).

Definition swap_with_exact_target (origin : Origin) (path : list CurrencyId)
    (target_amount max_supply_amount : Balance) : Run unit :=
  transactional (
    let! who := ensure_signed origin in
    do! do_swap_with_exact_target who path target_amount max_supply_amount None in
    ret tt).

Definition add_liquidity (origin : Origin) (currency_id_a currency_id_b : CurrencyId)
    (max_amount_a max_amount_b min_share_increment : Balance) (deposit_increment_share : bool) :
    Run unit :=
  transactional (
    let! who := ensure_signed origin in
    let! trading_pair := ok_or (from_token_currency_ids currency_id_a currency_id_b)
                           (dispatch_error InvalidCurrencyId) in
    let! status := gets (fun s => status_of s trading_pair) in
    match status with
    | Enabled =>
        do_add_liquidity who currency_id_a currency_id_b max_amount_a max_amount_b
          min_share_increment deposit_increment_share
    | Provisioning _ =>
        do! do_add_provision who currency_id_a currency_id_b max_amount_a max_amount_b in
        convert_to_enabled_if_possible trading_pair
    | NotEnabled => fail (dispatch_error NotEnabledTradingPair)
    end).

Definition remove_liquidity (origin : Origin) (currency_id_a currency_id_b : CurrencyId)
    (remove_share min_withdrawn_a min_withdrawn_b : Balance) (by_withdraw : bool) : Run unit :=
  transactional (
    let! who := ensure_signed origin in
    do_remove_liquidity who currency_id_a currency_id_b remove_share min_withdrawn_a
      min_withdrawn_b by_withdraw).

Definition set_erc20_mapping_of (c : CurrencyId) : Run unit :=
  match c with
  | Erc20 address => call (erc20_mapping cfg address)
  | _ => ret tt
  end.

Definition list_trading_pair (origin : Origin) (currency_id_a currency_id_b : CurrencyId)
    (min_contribution_a min_contribution_b target_provision_a target_provision_b : Balance)
    (not_before : BlockNumber) : Run unit :=
  transactional (
    do! ensure_listing_origin origin in
    do! ensure (negb (currency_eqb currency_id_a currency_id_b)) (dispatch_error NotAllowedList) in
    let! trading_pair := ok_or (from_token_currency_ids currency_id_a currency_id_b)
                           (dispatch_error InvalidCurrencyId) in
    let! dex_share_currency_id :=
      ok_or (get_dex_share_currency_id trading_pair) (dispatch_error InvalidCurrencyId) in
    let! status := gets (fun s => status_of s trading_pair) in
    do! ensure (is_not_enabled status) (dispatch_error MustBeNotEnabled) in
    let! total_shares := gets (fun s => mc_total_issuance dex_share_currency_id (chain s)) in
    do! ensure (total_shares =? 0) (dispatch_error NotAllowedList) in
    do! set_erc20_mapping_of currency_id_a in
    do! set_erc20_mapping_of currency_id_b in
    let min_contribution :=
      in_pair_order currency_id_a trading_pair min_contribution_a min_contribution_b in
    let target_provision :=
      in_pair_order currency_id_a trading_pair target_provision_a target_provision_b in
    do! modify (set_statuses <[trading_pair :=
                  Provisioning (MkProvision min_contribution target_provision (0, 0) not_before)]>) in
    deposit_event (ListTradingPair trading_pair)).

Definition enable_trading_pair (origin : Origin) (currency_id_a currency_id_b : CurrencyId) :
    Run unit :=
  transactional (
    do! ensure_listing_origin origin in
    let! trading_pair := ok_or (from_token_currency_ids currency_id_a currency_id_b)
                           (dispatch_error InvalidCurrencyId) in
    let! status := gets (fun s => status_of s trading_pair) in
    do! ensure (is_not_enabled status) (dispatch_error MustBeNotEnabled) in
    do! modify (set_statuses <[trading_pair := Enabled]>) in
    deposit_event (EnableTradingPair trading_pair)).

(** One turn of the refund loop of [disable_trading_pair]. *)
Definition refund_provision (trading_pair : TradingPair) (entry : AccountId * (Balance * Balance)) :
    Run unit :=
  do! call (mc_transfer (pair_0 trading_pair) account_id entry.1 entry.2.1) in
  do! call (mc_transfer (pair_1 trading_pair) account_id entry.1 entry.2.2) in
  modify (fun s => set_chain (dec_consumers entry.1 (chain s)) s).

Definition disable_trading_pair (origin : Origin) (currency_id_a currency_id_b : CurrencyId) :
    Run unit :=
  transactional (
    do! ensure_listing_origin origin in
    let! trading_pair := ok_or (from_token_currency_ids currency_id_a currency_id_b)
                           (dispatch_error InvalidCurrencyId) in
    let! status := gets (fun s => status_of s trading_pair) in
    match status with
    | Enabled =>
        do! modify (set_statuses <[trading_pair := NotEnabled]>) in
        deposit_event (DisableTradingPair trading_pair)
    | Provisioning _ =>
        do! drain_prefix trading_pair (refund_provision trading_pair) in
        do! modify (set_statuses (delete trading_pair)) in
        deposit_event (DisableTradingPair trading_pair)
    | NotEnabled => fail (dispatch_error NotEnabledTradingPair)
    end).

(** ** Genesis *)

Record GenesisConfig : Type := MkGenesis {
  initial_listing_trading_pairs :
    list (TradingPair * (Balance * Balance) * (Balance * Balance) * BlockNumber);
  initial_enabled_trading_pairs : list TradingPair;
  initial_added_liquidity_pools : list (AccountId * list (TradingPair * (Balance * Balance)))
}.

(** [assert!(b)]. *)
Definition assert (b : bool) : Run unit := if b then ret tt else panic.

Definition valid_pair (p : TradingPair) : bool := bool_decide (is_Some (get_dex_share_currency_id p)).

Definition genesis_add_pool (who : AccountId) (entry : TradingPair * (Balance * Balance)) : Run unit :=
  let '(trading_pair, (deposit_amount_0, deposit_amount_1)) := entry in
  do! assert (valid_pair trading_pair) in
  let! status := gets (fun s => status_of s trading_pair) in
  let! result := try_run
    (match status with
     | Enabled => do_add_liquidity who (pair_0 trading_pair) (pair_1 trading_pair)
                    deposit_amount_0 deposit_amount_1 0 false
     | _ => fail (dispatch_error NotEnabledTradingPair)
     end) in
  assert (bool_decide (is_Some result)).

Definition genesis_build (g : GenesisConfig) : Run unit :=
  do! for_each (fun '(trading_pair, min_contribution, target_provision, not_before) =>
        do! assert (valid_pair trading_pair) in
        modify (set_statuses <[trading_pair := Provisioning
                 (MkProvision min_contribution target_provision (0, 0) not_before)]>))
      (initial_listing_trading_pairs g) in
  do! for_each (fun trading_pair =>
        do! assert (valid_pair trading_pair) in
        modify (set_statuses <[trading_pair := Enabled]>))
      (initial_enabled_trading_pairs g) in
  for_each (fun entry => for_each (genesis_add_pool entry.1) entry.2)
    (initial_added_liquidity_pools g).

(** ** [DEXManager] *)

Definition get_liquidity_token_address (s : St) (currency_id_a currency_id_b : CurrencyId) :
    option EvmAddress :=
  trading_pair ← from_token_currency_ids currency_id_a currency_id_b;
  dex_share_currency_id ← get_dex_share_currency_id trading_pair;
  lp_address cfg dex_share_currency_id (chain s).

Definition get_swap_target_amount (s : St) (path : list CurrencyId) (supply_amount : Balance)
    (price_impact_limit : option FP) : option Balance :=
  outcome_ok (get_target_amounts s path supply_amount price_impact_limit) ≫= last.

Definition get_swap_supply_amount (s : St) (path : list CurrencyId) (target_amount : Balance)
    (price_impact_limit : option FP) : option Balance :=
  outcome_ok (get_supply_amounts s path target_amount price_impact_limit) ≫= head.

(** [DEXManager::add_liquidity], which is transactional where the inner function is not. *)
Definition manager_add_liquidity (who : AccountId) (currency_id_a currency_id_b : CurrencyId)
    (max_amount_a max_amount_b min_share_increment : Balance) (deposit_increment_share : bool) :
    Run unit :=
  transactional (do_add_liquidity who currency_id_a currency_id_b max_amount_a max_amount_b
                   min_share_increment deposit_increment_share).

End Dex.
