(* ===== verification/DexPricing.v ===== *)
(** * The swap formula of the DEX

    What [get_target_amount] and [get_supply_amount] compute once the 256-bit
    intermediate results are shown not to saturate, and the three properties a
    constant-product exchange owes its liquidity providers and its traders: the
    product of the reserves never falls, the reserve is never emptied, and the two
    directions of the formula agree. *)

From S2P Require Import Prelude Currency Externals Dex.

(** ** Integer facts *)

Lemma floor_div_le a b : 0 < b -> a / b * b <= a.
Proof. intros Hb. rewrite Z.mul_comm. by apply Z.mul_div_le. Qed.

Lemma floor_div_lt_succ a b : 0 < b -> a < (a / b + 1) * b.
Proof. intros Hb. pose proof (Z.mul_succ_div_gt a b Hb). lia. Qed.

Lemma umax_mono v w : 0 <= v <= w -> umax v <= umax w.
Proof. intros Hvw. unfold umax. pose proof (Z.pow_le_mono_r 2 v w). lia. Qed.

Lemma u128_mul_u256 a b : in_uint 128 a -> in_uint 128 b -> a * b <= umax 256.
Proof.
  unfold in_uint, umax. intros Ha Hb. change (2 ^ 256) with (2 ^ 128 * 2 ^ 128).
  assert (a * b <= (2 ^ 128 - 1) * (2 ^ 128 - 1)) by (apply Z.mul_le_mono_nonneg; lia). lia.
Qed.

(** ** Fixed-point ratios *)

Section Ratios.
Context `{F : FixedPoint} `{!FixedPointLaws F}.

Lemma fp_mul_nonneg r n : 0 <= n -> 0 <= fp_saturating_mul_int r n.
Proof.
  intros Hn. rewrite fp_saturating_mul_int_floor by done. pose proof (fp_inner_range r) as Hr.
  pose proof fp_div_pos. unfold in_uint in Hr. pose proof (umax_nonneg 128).
  apply Z.min_glb; [apply Z.div_pos; nia|lia].
Qed.

(** A floored ratio times a pool. *)
Lemma ratio_mul_le n d v :
  0 <= n -> 0 <= d -> 0 <= v ->
  fp_saturating_mul_int (fp_or_default (fp_checked_from_rational n d)) v * d <= n * v.
Proof.
  intros Hn Hd Hv. rewrite fp_saturating_mul_int_floor by done. pose proof fp_div_pos as Hp.
  unfold fp_or_default. destruct (fp_checked_from_rational n d) as [r|] eqn:E; simpl.
  - apply fp_from_rational_floor in E as [Hd' Hr]; [|done..].
    pose proof (floor_div_le (fp_inner r * v) fp_div Hp) as Hf.
    apply Z.le_trans with (fp_inner r * v / fp_div * d); [nia|].
    apply Z.mul_le_mono_pos_r with fp_div; [done|]. nia.
  - rewrite fp_inner_zero, (Z.mul_0_l v), (Z.div_0_l fp_div) by lia. pose proof (umax_nonneg 128). nia.
Qed.

Lemma ratio_checked_mul_le n d v :
  0 <= n -> 0 <= d -> 0 <= v ->
  default 0 (fp_checked_from_rational n d ≫= fun r => fp_checked_mul_int r v) * d <= n * v.
Proof.
  intros Hn Hd Hv. pose proof fp_div_pos as Hp.
  destruct (fp_checked_from_rational n d) as [r|] eqn:E; simpl; [|nia].
  apply fp_from_rational_floor in E as [Hd' Hr]; [|done..].
  destruct (fp_checked_mul_int r v) as [w|] eqn:Ew; simpl; [|nia].
  apply fp_checked_mul_int_floor in Ew as [-> _]; [|done].
  pose proof (floor_div_le (fp_inner r * v) fp_div Hp) as Hf.
  apply Z.mul_le_mono_pos_r with fp_div; [done|]. nia.
Qed.

End Ratios.

Section Pricing.
Context {L X AccountId Origin : Type} `{Countable AccountId}.
Context `{F : FixedPoint} `{U : U256Ops} `{!U256Laws U}.
Variable cfg : Config L X AccountId Origin.

Abbreviation fee_num := ((exchange_fee cfg).1).
Abbreviation fee_den := ((exchange_fee cfg).2).
Abbreviation rate := (sat_sub (exchange_fee cfg).2 (exchange_fee cfg).1).

(** The fee is a pair of [u32]. *)
Hypothesis fee_u32 : in_uint 32 fee_num /\ in_uint 32 fee_den.

Lemma rate_range : 0 <= rate <= fee_den.
Proof. destruct fee_u32. unfold in_uint, sat_sub in *. lia. Qed.

Lemma fee_den_u128 : in_uint 128 fee_den.
Proof.
  destruct fee_u32 as [_ Hd]. unfold in_uint in *. pose proof (umax_mono 32 128). lia.
Qed.

Lemma rate_u128 : in_uint 128 rate.
Proof. pose proof rate_range. pose proof fee_den_u128. unfold in_uint in *. lia. Qed.

(** The supply net of the fee, in units of [1 / fee_den]. *)
Definition net (x : Balance) : Z := sat_mul 128 x rate.

Lemma net_range x : 0 <= x -> in_uint 128 (net x).
Proof. intros Hx. pose proof rate_range. apply sat_mul_range; lia. Qed.

Lemma net_le x : 0 <= x -> net x <= x * fee_den.
Proof.
  intros Hx. pose proof rate_range. unfold net.
  apply Z.le_trans with (x * rate); [apply sat_mul_le|]. nia.
Qed.

(** The denominator does not saturate. *)
Lemma target_denominator_fits s x :
  in_uint 128 s -> 0 <= x -> s * fee_den + net x <= umax 256.
Proof.
  intros Hs Hx. pose proof (net_range x Hx). destruct fee_u32 as [_ Hd].
  unfold in_uint, umax in *.
  assert (s * fee_den <= (2 ^ 128 - 1) * (2 ^ 32 - 1)) by (apply Z.mul_le_mono_nonneg; lia). lia.
Qed.

(** The value [get_target_amount] computes. *)
Lemma get_target_amount_value s t x :
  in_uint 128 s -> in_uint 128 t -> in_uint 128 x ->
  get_target_amount cfg s t x =
  if (x =? 0) || (s =? 0) || (t =? 0) || (s * fee_den + net x =? 0) then 0
  else net x * t / (s * fee_den + net x).
Proof.
  intros Hs Ht Hx. unfold get_target_amount. destruct ((x =? 0) || _ || _) eqn:E0; [done|].
  pose proof fee_den_u128 as Hd. pose proof (net_range x ltac:(unfold in_uint in *; lia)) as Hn.
  pose proof (target_denominator_fits s x Hs ltac:(unfold in_uint in *; lia)) as Hden.
  cbv zeta. fold (net x). cbn [orb].
  set (num := u256_saturating_mul _ _). set (den := u256_saturating_add _ _).
  assert (u256_val num = net x * t) as Enum.
  { unfold num. rewrite u256_mul_val, !u256_from_val by done.
    apply sat_mul_exact. by apply u128_mul_u256. }
  assert (u256_val den = s * fee_den + net x) as Eden.
  { unfold den. rewrite u256_add_val, u256_mul_val, !u256_from_val by done.
    rewrite (sat_mul_exact _ s) by (by apply u128_mul_u256). by apply sat_add_exact. }
  pose proof (u256_div_val num den) as Hdiv. rewrite Enum, Eden in Hdiv. unfold checked_div in Hdiv.
  destruct (Z.eqb_spec (s * fee_den + net x) 0) as [|Hnz].
  - apply fmap_None in Hdiv. by rewrite Hdiv.
  - apply fmap_Some in Hdiv as (q & Hq & Eq). rewrite Hq. simpl.
    rewrite u256_try_into_val, <- Eq. unfold in_uint in *. bool_inv.
    assert (net x * t / (s * fee_den + net x) <= t).
    { apply Z.div_le_upper_bound; nia. }
    assert (net x * t / (s * fee_den + net x) <= umax 128) as Hfit by lia.
    by rewrite (proj2 (Z.leb_le _ _) Hfit).
Qed.

Lemma get_target_amount_range s t x :
  in_uint 128 s -> in_uint 128 t -> in_uint 128 x -> 0 <= get_target_amount cfg s t x <= t.
Proof.
  intros Hs Ht Hx. rewrite get_target_amount_value by done.
  pose proof (net_range x ltac:(unfold in_uint in *; lia)) as Hn. pose proof rate_range.
  unfold in_uint in *. destruct (_ || _) eqn:E; [lia|]. bool_inv.
  split; [apply Z.div_pos; nia|]. apply Z.div_le_upper_bound; nia.
Qed.

(** The constant-product invariant: whatever the reserves and the supply, what is paid
    out leaves a product of reserves at least as large as before, never empties the
    target reserve, and is therefore always covered by it. *)
Lemma get_target_amount_product (s t x : Balance) :
  in_uint 128 s -> in_uint 128 t -> in_uint 128 x ->
  s * t <= (s + x) * (t - get_target_amount cfg s t x)
  /\ 0 <= get_target_amount cfg s t x
  /\ (0 < t -> get_target_amount cfg s t x < t \/ fee_den = 0).
Proof.
  intros Hs Ht Hx. pose proof (get_target_amount_range s t x Hs Ht Hx) as Hr.
  rewrite get_target_amount_value in * by done.
  pose proof (net_range x ltac:(unfold in_uint in *; lia)) as Hn.
  pose proof (net_le x ltac:(unfold in_uint in *; lia)) as Hnx.
  pose proof rate_range. pose proof fee_den_u128. unfold in_uint in *.
  destruct (_ || _) eqn:E; [split; [nia|lia]|]. bool_inv.
  set (f := net x) in *. set (d := fee_den) in *. set (out := f * t / (s * d + f)) in *.
  pose proof (floor_div_le (f * t) (s * d + f) ltac:(nia)) as Hout. fold out in Hout.
  split_and!; [|lia|].
  - assert (out * (s * d) <= f * (t - out)) as Hy1 by lia.
    assert (f * (t - out) <= (x * d) * (t - out)) as Hy2 by (apply Z.mul_le_mono_nonneg_r; lia).
    destruct (Z.eq_dec d 0) as [Hd0|]; [exfalso; rewrite Hd0 in *; lia|].
    assert (out * s <= x * (t - out)) by (apply Z.mul_le_mono_pos_r with d; [lia|nia]). lia.
  - intros Ht0. destruct (Z.eq_dec d 0); [by right|left]. nia.
Qed.

(** The value [get_supply_amount] computes, when it is defined. *)
Lemma get_supply_amount_pos s t y :
  in_uint 128 s -> in_uint 128 t -> in_uint 128 y ->
  get_supply_amount cfg s t y <> 0 ->
  s * y * fee_den <= umax 256 ->
  0 < (t - y) * rate /\ get_supply_amount cfg s t y = s * y * fee_den / ((t - y) * rate) + 1.
Proof.
  intros Hs Ht Hy. unfold get_supply_amount. destruct ((y =? 0) || _ || _) eqn:E0; [done|].
  cbv zeta.
  pose proof fee_den_u128 as Hd. pose proof rate_u128 as Hr. intros Hnz0 Hfit. revert Hnz0.
  set (num := u256_saturating_mul (u256_saturating_mul _ _) _).
  set (dn := u256_saturating_mul (u256_saturating_sub _ _) _).
  assert (u256_val num = s * y * fee_den) as Enum.
  { unfold num. rewrite !u256_mul_val, !u256_from_val by done.
    rewrite (sat_mul_exact _ s) by (by apply u128_mul_u256). by apply sat_mul_exact. }
  assert (u256_val dn = sat_sub t y * rate) as Edn.
  { unfold dn. rewrite u256_mul_val, u256_sub_val, !u256_from_val by done.
    apply sat_mul_exact, u128_mul_u256; [|done]. apply sat_sub_range; [done|]. unfold in_uint in *; lia. }
  pose proof (u256_div_val num dn) as Hdiv. rewrite Enum, Edn in Hdiv. unfold checked_div in Hdiv.
  destruct (Z.eqb_spec (sat_sub t y * rate) 0) as [|Hnz].
  { apply fmap_None in Hdiv. by rewrite Hdiv. }
  assert (sat_sub t y = t - y) as Esub by (unfold sat_sub in *; nia).
  rewrite Esub in *. pose proof rate_range.
  assert (0 < (t - y) * rate) by (unfold in_uint, sat_sub in *; nia).
  apply fmap_Some in Hdiv as (q & Hq & Eq). rewrite Hq. simpl.
  pose proof (u256_checked_add_val q u256_one) as Hadd. rewrite <- Eq, u256_one_val in Hadd.
  unfold checked_add in Hadd. destruct (Z.leb_spec (s * y * fee_den / ((t - y) * rate) + 1) (umax 256)).
  - apply fmap_Some in Hadd as (q' & Hq' & Eq'). rewrite Hq'. simpl.
    rewrite u256_try_into_val, <- Eq'. destruct (_ <=? _); done.
  - apply fmap_None in Hadd. by rewrite Hadd.
Qed.

(** A payment is asked for only when the target is strictly below the reserve. *)
Lemma get_supply_amount_covered s t y :
  in_uint 128 s -> in_uint 128 t -> in_uint 128 y -> get_supply_amount cfg s t y <> 0 ->
  y < t /\ in_uint 128 (get_supply_amount cfg s t y).
Proof.
  intros Hs Ht Hy. unfold get_supply_amount. destruct ((y =? 0) || _ || _); [done|]. cbv zeta.
  set (num := u256_saturating_mul (u256_saturating_mul _ _) _).
  set (dn := u256_saturating_mul (u256_saturating_sub _ _) _).
  assert (u256_val dn = sat_mul 256 (sat_sub t y) rate) as Edn.
  { unfold dn. by rewrite u256_mul_val, u256_sub_val, !u256_from_val by (done || apply rate_u128). }
  pose proof (u256_div_val num dn) as Hdiv. rewrite Edn in Hdiv. unfold checked_div in Hdiv.
  destruct (u256_checked_div num dn) as [q|]; [|done]. simpl in *.
  destruct (Z.eqb_spec (sat_mul 256 (sat_sub t y) rate) 0) as [|Hnz]; [done|].
  destruct (u256_checked_add q u256_one) as [r|]; [|done]. simpl.
  rewrite u256_try_into_val. pose proof (u256_val_range r) as Hr.
  destruct (Z.leb_spec (u256_val r) (umax 128)); simpl; [|done]. intros _. unfold in_uint in *.
  split; [|lia]. destruct (Z.lt_ge_cases y t) as [|Hge]; [done|]. exfalso. apply Hnz.
  replace (sat_sub t y) with 0 by (unfold sat_sub; lia). unfold sat_mul. simpl.
  pose proof (umax_nonneg 256). lia.
Qed.

(** C32: the two directions of the price agree. Paying what [get_supply_amount] asks
    for a target amount does buy that amount, and no smaller payment than one unit
    less would: the answer is optimal up to the unit added for rounding. *)
Theorem get_supply_amount_buys (s t y : Balance) :
  in_uint 128 s -> in_uint 128 t -> in_uint 128 y ->
  s * y * fee_den <= umax 256 ->
  let x := get_supply_amount cfg s t y in
  x <> 0 -> x * rate <= umax 128 ->
  y <= get_target_amount cfg s t x
  /\ (forall x', 0 <= x' < x - 1 -> get_target_amount cfg s t x' < y).
Proof.
  intros Hs Ht Hy Hfit x Hx0 Hxr.
  destruct (get_supply_amount_pos s t y Hs Ht Hy Hx0 Hfit) as [Hden Ex]. fold x in Ex.
  pose proof rate_range as Hr. pose proof fee_den_u128 as Hd.
  assert (0 < rate /\ 0 < t - y) as [Hrpos Hty] by (unfold in_uint in *; nia).
  set (num := s * y * fee_den) in *. set (den := (t - y) * rate) in *.
  pose proof (floor_div_lt_succ num den Hden) as Hup. rewrite <- Ex in Hup.
  pose proof (floor_div_le num den Hden) as Hlow.
  assert (0 <= num) by (unfold num, in_uint in *; nia).
  assert (0 <= num / den) by (apply Z.div_pos; lia).
  assert (s <> 0 /\ y <> 0) as [Hs0 Hy0].
  { unfold x, get_supply_amount in Hx0. destruct (_ || _) eqn:E in Hx0; [done|]. by bool_inv. }
  assert (forall z, 0 <= z -> z <= x -> in_uint 128 z /\ net z = z * rate) as Hz.
  { intros z Hz0 Hzx. assert (z * rate <= x * rate) by (apply Z.mul_le_mono_nonneg_r; lia).
    split; [unfold in_uint in *; nia|]. apply sat_mul_exact. lia. }
  split.
  - destruct (Hz x ltac:(lia) ltac:(lia)) as [Hxu Hnx]. rewrite get_target_amount_value, Hnx by done.
    unfold in_uint in *.
    destruct (_ || _) eqn:E; [rewrite !orb_true_iff in E; exfalso; destruct E as [[[E|E]|E]|E];
      bool_inv; nia|].
    apply Z.div_le_lower_bound; [nia|]. unfold num, den in Hup. nia.
  - intros x' Hx'. destruct (Hz x' ltac:(lia) ltac:(lia)) as [Hxu Hnx].
    rewrite get_target_amount_value, Hnx by done. unfold in_uint in *.
    destruct (_ || _) eqn:E; [lia|]. bool_inv.
    apply Z.div_lt_upper_bound; [nia|].
    assert (x' * den < num) by nia. unfold num, den in *. nia.
Qed.

End Pricing.
