(* ===== verification/DexSafety.v ===== *)
(** * The DEX keeps what it holds for its users

    The invariant [dex_inv]: listed pairs are pairs of exchangeable currencies, the
    amounts recorded for a pair stay within [u128], the provision accumulated for a
    pair is covered by the contributions recorded for it, and for every currency the
    reserves and the contributions together never exceed the balance of the pallet's
    account. Every dispatchable call preserves it, whether it succeeds or fails. *)

From S2P Require Import Prelude Currency Externals Dex DexPricing.

(** ** What is recorded in one currency *)

Definition side_value (c : CurrencyId) (p : TradingPair) (v : Balance * Balance) : Z :=
  (if currency_eqb c (pair_0 p) then v.1 else 0) + (if currency_eqb c (pair_1 p) then v.2 else 0).

Definition at_side (b : bool) (v : Balance * Balance) : Z := if b then v.1 else v.2.

Definition pair_u128 (v : Balance * Balance) : Prop := in_uint 128 v.1 /\ in_uint 128 v.2.

Section Safety.
Context {L X AccountId Origin : Type} `{Countable AccountId}.
Context `{!MultiCurrency L X AccountId} `{!FrameSystem L AccountId} `{!DEXIncentives L X AccountId}.
Context `{F : FixedPoint} `{U : U256Ops}.
Context `{!MultiCurrencyLaws L X AccountId} `{!DEXIncentivesLaws L X AccountId}.
Context `{!FixedPointLaws F} `{!U256Laws U}.
Variable cfg : Config L X AccountId Origin.

Abbreviation St := (State L AccountId).
Abbreviation Error := (DexError + X)%type.
Abbreviation dex := (dex_account cfg).

(** The balance of the pallet's account. *)
Definition held (c : CurrencyId) (s : St) : Z := mc_free_balance c dex (chain s).

Definition reserved (c : CurrencyId) (s : St) : Z :=
  map_sum (side_value c) (liquidity_pool s)
  + map_sum (fun k => side_value c k.1) (provisioning_pool s).

(** The contributions recorded for a pair, on one side. *)
Definition prov_total (b : bool) (p : TradingPair) (s : St) : Z :=
  map_sum (fun k v => if bool_decide (k.1 = p) then at_side b v else 0) (provisioning_pool s).

Record dex_inv (s : St) : Prop := {
  inv_pairs p : status_of s p <> NotEnabled -> valid_pair p = true /\ pair_0 p <> pair_1 p;
  inv_pools p v : liquidity_pool s !! p = Some v -> valid_pair p = true /\ pair_u128 v;
  inv_provisions k v : provisioning_pool s !! k = Some v -> valid_pair k.1 = true /\ pair_u128 v;
  inv_accumulated p pp b : status_of s p = Provisioning pp ->
    pair_u128 (accumulated_provision pp)
    /\ at_side b (accumulated_provision pp) <= prov_total b p s;
  inv_solvent c : reserved c s <= held c s
}.

(** The account of a pallet has no key, keeps its dust, and a storage prefix is
    visited completely. *)
Hypothesis dex_keyless : forall o, signed_by cfg o <> Some dex.
Hypothesis dex_whitelisted : keeps_dust dex = true.
Hypothesis dex_no_vault : pays_rewards dex = false.
Hypothesis order_complete : forall l, storage_order cfg l ≡ₚ l.

(** The fee is a pair of [u32]. *)
Hypothesis fee_u32 : in_uint 32 (exchange_fee cfg).1 /\ in_uint 32 (exchange_fee cfg).2.

(** ** Arithmetic of [side_value] *)

Lemma side_value_zero c p : side_value c p (0, 0) = 0.
Proof. unfold side_value. simpl. repeat case_match; lia. Qed.

Lemma side_value_mono c p v w : v.1 <= w.1 -> v.2 <= w.2 -> side_value c p v <= side_value c p w.
Proof. unfold side_value. intros. repeat case_match; lia. Qed.

Lemma side_value_add c p v w :
  side_value c p (v.1 + w.1, v.2 + w.2) = side_value c p v + side_value c p w.
Proof. unfold side_value. simpl. repeat case_match; lia. Qed.

Lemma side_value_sub c p v w :
  side_value c p (v.1 - w.1, v.2 - w.2) = side_value c p v - side_value c p w.
Proof. unfold side_value. simpl. repeat case_match; lia. Qed.

Lemma side_value_nonneg c p v : 0 <= v.1 -> 0 <= v.2 -> 0 <= side_value c p v.
Proof. unfold side_value. intros. repeat case_match; lia. Qed.

Lemma valid_pair_sides p :
  valid_pair p = true ->
  is_dex_share_currency_id (pair_0 p) = false /\ is_dex_share_currency_id (pair_1 p) = false.
Proof.
  unfold valid_pair. intros Hv. apply bool_decide_eq_true in Hv as [lp Hlp].
  unfold get_dex_share_currency_id, join_dex_share_currency_id in Hlp.
  destruct (pair_0 p), (pair_1 p); simpl in *; done.
Qed.

Lemma get_dex_share_valid p lp : get_dex_share_currency_id p = Some lp -> valid_pair p = true.
Proof. intros Hlp. unfold valid_pair. rewrite Hlp. by apply bool_decide_eq_true_2. Qed.

Lemma dex_share_is_share p lp :
  get_dex_share_currency_id p = Some lp -> is_dex_share_currency_id lp = true.
Proof.
  unfold get_dex_share_currency_id, join_dex_share_currency_id. intros Hlp.
  apply bind_Some in Hlp as (x & _ & Hlp). apply bind_Some in Hlp as (y & _ & Hlp).
  by simplify_eq.
Qed.

(** Share currencies are never part of a pool. *)
Lemma side_value_share c p v :
  valid_pair p = true -> is_dex_share_currency_id c = true -> side_value c p v = 0.
Proof.
  intros Hp Hc. destruct (valid_pair_sides p Hp) as [H0 H1].
  unfold side_value, currency_eqb.
  rewrite !bool_decide_eq_false_2; [done|intros ->; congruence..].
Qed.

(** ** How the storage updates change the sums *)

Lemma reserved_set_pool c p v (s : St) :
  reserved c (set_pool <[p := v]> s) =
  reserved c s - side_value c p (pool_of s p) + side_value c p v.
Proof.
  unfold reserved, pool_of. simpl. rewrite map_sum_insert. unfold map_at.
  destruct (liquidity_pool s !! p); simpl; rewrite ?side_value_zero; lia.
Qed.

Lemma reserved_set_provision c k v (s : St) :
  reserved c (set_provisions <[k := v]> s) =
  reserved c s - side_value c k.1 (default (0, 0) (provisioning_pool s !! k)) + side_value c k.1 v.
Proof.
  unfold reserved. simpl. rewrite map_sum_insert. unfold map_at.
  destruct (provisioning_pool s !! k); simpl; rewrite ?side_value_zero; lia.
Qed.

Lemma reserved_delete_provision c k (s : St) :
  reserved c (set_provisions (delete k) s) =
  reserved c s - side_value c k.1 (default (0, 0) (provisioning_pool s !! k)).
Proof.
  unfold reserved. simpl. rewrite map_sum_delete_at. unfold map_at.
  destruct (provisioning_pool s !! k); simpl; rewrite ?side_value_zero; lia.
Qed.

Lemma prov_total_insert b p k v (s : St) :
  prov_total b p (set_provisions <[k := v]> s) =
  prov_total b p s
  + (if bool_decide (k.1 = p)
     then at_side b v - at_side b (default (0, 0) (provisioning_pool s !! k)) else 0).
Proof.
  unfold prov_total. simpl. rewrite map_sum_insert. unfold map_at.
  destruct (provisioning_pool s !! k); simpl; case_bool_decide; destruct b; simpl; lia.
Qed.

Lemma prov_total_delete_other b p k (s : St) :
  k.1 <> p -> prov_total b p (set_provisions (delete k) s) = prov_total b p s.
Proof.
  intros Hk. unfold prov_total. simpl. rewrite map_sum_delete_at. unfold map_at.
  destruct (provisioning_pool s !! k); rewrite ?bool_decide_eq_false_2 by done; lia.
Qed.

Lemma pool_of_set_eq p v (s : St) : pool_of (set_pool <[p := v]> s) p = v.
Proof. unfold pool_of. simpl. by rewrite lookup_insert_eq. Qed.

Lemma pool_of_set_ne p q v (s : St) : p <> q -> pool_of (set_pool <[p := v]> s) q = pool_of s q.
Proof. intros. unfold pool_of. simpl. by rewrite lookup_insert_ne. Qed.

Lemma status_of_set_eq p st (s : St) : status_of (set_statuses <[p := st]> s) p = st.
Proof. unfold status_of. simpl. by rewrite lookup_insert_eq. Qed.

Lemma status_of_set_ne p q st (s : St) :
  p <> q -> status_of (set_statuses <[p := st]> s) q = status_of s q.
Proof. intros. unfold status_of. simpl. by rewrite lookup_insert_ne. Qed.

Lemma inv_pool_u128 (s : St) p : dex_inv s -> pair_u128 (pool_of s p).
Proof.
  intros Hi. unfold pool_of. destruct (liquidity_pool s !! p) as [v|] eqn:E; simpl.
  - by apply (inv_pools s Hi) in E as [_ E].
  - by vm_compute.
Qed.

(** ** Calls into the currency pallet *)

Lemma call_ok {A : Type} (m : M L X A) (s s' : St) a :
  call m s = (Ok a, s') -> exists l, m (chain s) = (Ok a, l) /\ s' = set_chain l s.
Proof. unfold call. by rewrite zoom_ok. Qed.

(** Amounts that come in. *)
Lemma receive_ok c who v (s s' : St) u :
  who <> dex -> call (mc_transfer c who dex v) s = (Ok u, s') ->
  exists l, s' = set_chain l s
    /\ forall c', held c' s + (if currency_eqb c' c then v else 0) <= held c' s'.
Proof.
  intros Hne Hc. apply call_ok in Hc as (l & Hl & ->). exists l. split; [done|]. intros c'.
  destruct u. unfold held, currency_eqb. simpl. case_bool_decide as E.
  - subst. by apply (mc_transfer_receiver _ _ _ _ _ _ Hl).
  - rewrite (mc_transfer_other_currency _ _ _ _ _ _ c' dex Hl) by done. lia.
Qed.

(** Amounts that go out. *)
Lemma pay_ok c who v (s s' : St) u :
  0 <= v -> call (mc_transfer c dex who v) s = (Ok u, s') ->
  exists l, s' = set_chain l s
    /\ forall c', held c' s - (if currency_eqb c' c then v else 0) <= held c' s'.
Proof.
  intros Hv Hc. apply call_ok in Hc as (l & Hl & ->). exists l. split; [done|]. intros c'.
  destruct u. unfold held, currency_eqb. simpl. case_bool_decide as E.
  - subst. by apply (mc_transfer_sender _ _ _ _ _ _ Hl).
  - rewrite (mc_transfer_other_currency _ _ _ _ _ _ c' dex Hl) by done. lia.
Qed.

(** Both sides of a pair. *)
Lemma receive_pair_ok p who v (s s1 s2 : St) u u' :
  who <> dex ->
  call (mc_transfer (pair_0 p) who dex v.1) s = (Ok u, s1) ->
  call (mc_transfer (pair_1 p) who dex v.2) s1 = (Ok u', s2) ->
  exists l, s2 = set_chain l s /\ forall c, held c s + side_value c p v <= held c s2.
Proof.
  intros Hne Ha Hb. apply receive_ok in Ha as (l1 & -> & Ha); [|done].
  apply receive_ok in Hb as (l2 & -> & Hb); [|done]. exists l2. split; [done|].
  intros c. specialize (Ha c). specialize (Hb c). unfold side_value. lia.
Qed.

Lemma pay_pair_ok p who v (s s1 s2 : St) u u' :
  0 <= v.1 -> 0 <= v.2 ->
  call (mc_transfer (pair_0 p) dex who v.1) s = (Ok u, s1) ->
  call (mc_transfer (pair_1 p) dex who v.2) s1 = (Ok u', s2) ->
  exists l, s2 = set_chain l s /\ forall c, held c s - side_value c p v <= held c s2.
Proof.
  intros H0 H1 Ha Hb. apply pay_ok in Ha as (l1 & -> & Ha); [|done].
  apply pay_ok in Hb as (l2 & -> & Hb); [|done]. exists l2. split; [done|].
  intros c. specialize (Ha c). specialize (Hb c). unfold side_value. lia.
Qed.

(** Deposits and withdrawals of shares do not touch what the pools hold. *)
Lemma deposit_held lp who v (s s' : St) u :
  0 <= v -> call (mc_deposit lp who v) s = (Ok u, s') ->
  exists l, s' = set_chain l s /\ forall c, held c s <= held c s'.
Proof.
  intros Hv Hc. apply call_ok in Hc as (l & Hl & ->). exists l. split; [done|]. intros c. destruct u.
  by apply (mc_deposit_free _ _ _ _ _ c dex Hl).
Qed.

Lemma withdraw_held lp who v (s s' : St) u :
  call (mc_withdraw lp who v) s = (Ok u, s') ->
  v <= mc_total_issuance lp (chain s)
  /\ exists l, s' = set_chain l s /\ forall c, c <> lp -> held c s <= held c s'.
Proof.
  intros Hc. apply call_ok in Hc as (l & Hl & ->). destruct u.
  split; [by eapply mc_withdraw_covered|]. exists l. split; [done|]. intros c Hne.
  apply (mc_withdraw_other _ _ _ _ _ c dex Hl). by left.
Qed.

(** ** Frame rules for the invariant *)

(** Nothing is ever recorded in a share currency. *)
Lemma reserved_share c (s : St) :
  dex_inv s -> is_dex_share_currency_id c = true -> reserved c s = 0.
Proof.
  intros Hi Hc. unfold reserved. rewrite (map_sum_ext (side_value c) (fun _ _ => 0)).
  - rewrite (map_sum_ext (fun k => side_value c k.1) (fun _ _ => 0)); [by rewrite !map_sum_zero|].
    intros k v Hk. apply side_value_share; [|done]. by apply (inv_provisions s Hi) in Hk as [? _].
  - intros k v Hk. apply side_value_share; [|done]. by apply (inv_pools s Hi) in Hk as [? _].
Qed.

(** Only the chain changed, and nothing the pools need was lost: balances of share
    currencies are irrelevant. *)
Lemma inv_set_chain (s : St) l :
  dex_inv s ->
  (forall c, is_dex_share_currency_id c = false -> reserved c s <= held c (set_chain l s)) ->
  dex_inv (set_chain l s).
Proof.
  intros Hi Hh. split; try apply Hi. intros c.
  destruct (is_dex_share_currency_id c) eqn:Hc; [|by apply Hh].
  change (reserved c (set_chain l s)) with (reserved c s).
  rewrite reserved_share by done. apply mc_free_nonneg.
Qed.

Lemma inv_event e (s s' : St) u : @deposit_event L X AccountId _ _ e s = (Ok u, s') -> dex_inv s -> dex_inv s'.
Proof.
  unfold deposit_event. rewrite modify_ok. intros -> Hi. destruct Hi as [I1 I2 I3 I4 I5].
  split; [exact I1|exact I2|exact I3|exact I4|exact I5].
Qed.

(** One pool is replaced. *)
Lemma inv_set_pool (s : St) p v :
  dex_inv s -> valid_pair p = true -> pair_u128 v ->
  (forall c, reserved c s - side_value c p (pool_of s p) + side_value c p v <= held c s) ->
  dex_inv (set_pool <[p := v]> s).
Proof.
  intros Hi Hp Hv Hh. split; try apply Hi.
  - intros q w. simpl. rewrite lookup_insert_Some. intros [[<- <-]|[_ Hq]]; [done|by apply Hi].
  - intros c. rewrite reserved_set_pool. apply Hh.
Qed.

(** One status is replaced. *)
Lemma inv_set_status (s : St) p st :
  dex_inv s ->
  (st <> NotEnabled -> valid_pair p = true /\ pair_0 p <> pair_1 p) ->
  (forall pp b, st = Provisioning pp ->
     pair_u128 (accumulated_provision pp)
     /\ at_side b (accumulated_provision pp) <= prov_total b p s) ->
  dex_inv (set_statuses <[p := st]> s).
Proof.
  intros Hi Hp Hacc. split; try apply Hi.
  - intros q. destruct (decide (p = q)) as [<-|Hne]; [by rewrite status_of_set_eq|].
    rewrite status_of_set_ne by done. apply Hi.
  - intros q pp b. destruct (decide (p = q)) as [<-|Hne]; [rewrite status_of_set_eq; apply Hacc|].
    rewrite status_of_set_ne by done. apply Hi.
Qed.

(** ** The entries under a pair *)

Lemma provisions_of_elem (s : St) p e :
  e ∈ provisions_of cfg s p <-> provisioning_pool s !! (p, e.1) = Some e.2.
Proof.
  unfold provisions_of. rewrite order_complete, list_elem_of_omap. split.
  - intros ([[q a] v] & Hin & Hx). apply elem_of_map_to_list in Hin. simpl in Hx.
    case_bool_decide; [|done]. by simplify_eq/=.
  - intros He. exists ((p, e.1), e.2). rewrite elem_of_map_to_list, bool_decide_eq_true_2 by done.
    by destruct e.
Qed.

Lemma provisions_of_sum (s : St) p (f : Balance * Balance -> Z) :
  zsum (fun e => f e.2) (provisions_of cfg s p) =
  map_sum (fun k v => if bool_decide (k.1 = p) then f v else 0) (provisioning_pool s).
Proof.
  unfold provisions_of. rewrite order_complete, zsum_omap. unfold map_sum.
  apply zsum_ext. intros [[q a] v] _. simpl. by case_bool_decide.
Qed.

Lemma side_value_sum (s : St) c p :
  map_sum (fun k v => if bool_decide (k.1 = p) then side_value c p v else 0) (provisioning_pool s)
  = side_value c p (prov_total true p s, prov_total false p s).
Proof.
  unfold side_value, prov_total. simpl.
  set (a := if currency_eqb c (pair_0 p) then 1 else 0).
  set (b := if currency_eqb c (pair_1 p) then 1 else 0).
  rewrite (map_sum_ext _ (fun k v => a * (if bool_decide (k.1 = p) then v.1 else 0)
                                     + b * (if bool_decide (k.1 = p) then v.2 else 0))).
  - rewrite map_sum_linear. unfold a, b. repeat case_match; lia.
  - intros k v _. unfold a, b. repeat case_match; lia.
Qed.

(** Draining a prefix keeps exactly the other keys. *)
Definition drained (p : TradingPair) (m : gmap (TradingPair * AccountId) (Balance * Balance)) :=
  filter (fun kv => ~ (kv.1.1 = p)) m.

Lemma foldl_delete_lookup (p : TradingPair) (es : list (AccountId * (Balance * Balance)))
    (m : gmap (TradingPair * AccountId) (Balance * Balance)) (k : TradingPair * AccountId) :
  foldl (fun m e => delete (p, e.1) m) m es !! k =
  if bool_decide (k.1 = p /\ k.2 ∈ es.*1) then None else m !! k.
Proof.
  revert m. induction es as [|e es IH]; intros m; cbn [foldl fmap list_fmap].
  - rewrite bool_decide_eq_false_2; [done|]. intros [_ Hin]. by apply elem_of_nil in Hin.
  - rewrite IH. destruct k as [q a]. simpl. destruct (decide ((p, e.1) = (q, a))) as [Heq|Hne].
    + injection Heq as <- <-. rewrite lookup_delete_eq, (bool_decide_eq_true_2 (p = p /\ _ ∈ _ :: _))
        by (split; [done|left]). by destruct (bool_decide _).
    + rewrite lookup_delete_ne by done.
      rewrite (bool_decide_ext (q = p /\ a ∈ e.1 :: es.*1) (q = p /\ a ∈ es.*1)); [done|].
      rewrite elem_of_cons. naive_solver.
Qed.

Lemma drain_all (s : St) p :
  foldl (fun m e => delete (p, e.1) m) (provisioning_pool s) (provisions_of cfg s p)
  = drained p (provisioning_pool s).
Proof.
  apply map_eq. intros [q a]. rewrite foldl_delete_lookup. unfold drained. simpl.
  destruct (decide (q = p)) as [->|Hq].
  - transitivity (None : option (Balance * Balance)).
    + destruct (provisioning_pool s !! (p, a)) as [v|] eqn:E; [|by case_bool_decide].
      rewrite bool_decide_eq_true_2; [done|]. split; [done|].
      apply list_elem_of_fmap. exists (a, v). split; [done|]. by apply provisions_of_elem.
    + symmetry. apply map_lookup_filter_None. naive_solver.
  - rewrite bool_decide_eq_false_2 by naive_solver.
    destruct (provisioning_pool s !! (q, a)) as [v|] eqn:E; symmetry.
    + by apply map_lookup_filter_Some.
    + apply map_lookup_filter_None. by left.
Qed.

(** What draining removes from the sums. *)
Lemma map_sum_drained f p m :
  map_sum f (drained p m) = map_sum f m - map_sum (fun k v => if bool_decide (k.1 = p) then f k v else 0) m.
Proof. exact (map_sum_filter (fun k : TradingPair * AccountId => k.1 = p) f m). Qed.

Lemma reserved_drained c p (s : St) pools sts evs l :
  liquidity_pool s = pools ->
  reserved c (MkState pools sts (drained p (provisioning_pool s)) evs l) =
  reserved c s - side_value c p (prov_total true p s, prov_total false p s).
Proof.
  intros <-. unfold reserved. simpl. rewrite map_sum_drained, <- side_value_sum.
  rewrite (map_sum_ext (fun k v => if bool_decide (k.1 = p) then side_value c k.1 v else 0)
             (fun k v => if bool_decide (k.1 = p) then side_value c p v else 0)); [lia|].
  intros k v _. case_bool_decide; by subst.
Qed.

Lemma prov_total_drained b p q (s : St) pools sts evs l :
  q <> p -> prov_total b q (MkState pools sts (drained p (provisioning_pool s)) evs l) = prov_total b q s.
Proof.
  intros Hne. unfold prov_total. simpl. rewrite map_sum_drained.
  rewrite (map_sum_ext (fun k v => if bool_decide (k.1 = p) then _ else 0) (fun _ _ => 0)).
  - rewrite map_sum_zero. lia.
  - intros k v _. case_bool_decide; [|done]. subst. by rewrite bool_decide_eq_false_2.
Qed.

Lemma prov_total_range (s : St) p b : dex_inv s -> 0 <= prov_total b p s.
Proof.
  intros Hi. apply map_sum_nonneg. intros k v Hk. case_bool_decide; [|done].
  apply (inv_provisions s Hi) in Hk as [_ [Hk1 Hk2]]. unfold in_uint in *. destruct b; simpl; lia.
Qed.

(** ** Provisions *)

Lemma at_side_sat_add b v w :
  at_side b (sat_add 128 v.1 w.1, sat_add 128 v.2 w.2) = sat_add 128 (at_side b v) (at_side b w).
Proof. by destruct b. Qed.

Lemma pair_u128_at b v : pair_u128 v -> in_uint 128 (at_side b v).
Proof. intros []. by destruct b. Qed.

Lemma pair_u128_sat_add v w :
  pair_u128 v -> pair_u128 w -> pair_u128 (sat_add 128 v.1 w.1, sat_add 128 v.2 w.2).
Proof.
  intros [Hv1 Hv2] [Hw1 Hw2]. unfold in_uint in *. split; simpl; apply sat_add_range; lia.
Qed.

Lemma provision_u128 (s : St) k : dex_inv s -> pair_u128 (default (0, 0) (provisioning_pool s !! k)).
Proof.
  intros Hi. destruct (provisioning_pool s !! k) as [v|] eqn:E; simpl.
  - by apply (inv_provisions s Hi) in E as [_ E].
  - by vm_compute.
Qed.

(** One account's contribution is part of the total. *)
Lemma provision_at_le b (s : St) p who :
  dex_inv s ->
  at_side b (default (0, 0) (provisioning_pool s !! (p, who))) <= prov_total b p s.
Proof.
  intros Hi. unfold prov_total.
  pose proof (map_at_le_sum (fun (k : TradingPair * AccountId) v =>
    if bool_decide (k.1 = p) then at_side b v else 0) (provisioning_pool s) (p, who)) as Hle.
  unfold map_at in Hle. simpl in Hle. rewrite bool_decide_eq_true_2 in Hle by done.
  destruct (provisioning_pool s !! (p, who)) eqn:E; simpl.
  - apply Hle. intros k v Hk. case_bool_decide; [|done].
    apply (inv_provisions s Hi) in Hk as [_ Hk]. by apply (pair_u128_at b) in Hk as [? _].
  - replace (at_side b (0, 0)) with 0 by (by destruct b). by apply prov_total_range.
Qed.

(** A contribution is received and recorded. *)
Lemma inv_provide (s s' : St) p who pp contribution :
  dex_inv s -> status_of s p = Provisioning pp -> pair_u128 contribution ->
  let old := default (0, 0) (provisioning_pool s !! (p, who)) in
  let acc := accumulated_provision pp in
  liquidity_pool s' = liquidity_pool s ->
  trading_pair_statuses s' =
    <[p := Provisioning (MkProvision (min_contribution pp) (target_provision pp)
             (sat_add 128 acc.1 contribution.1, sat_add 128 acc.2 contribution.2) (not_before pp))]>
      (trading_pair_statuses s) ->
  provisioning_pool s' =
    <[(p, who) := (sat_add 128 old.1 contribution.1, sat_add 128 old.2 contribution.2)]>
      (provisioning_pool s) ->
  (forall c, held c s + side_value c p contribution <= held c s') ->
  dex_inv s'.
Proof.
  intros Hi Hst Hc old acc Hpool Hsts Hprov Hheld.
  pose proof (provision_u128 s (p, who) Hi) as Hold. fold old in Hold.
  destruct (inv_accumulated s Hi p pp true Hst) as [Hacc _]. fold acc in Hacc.
  assert (forall b q, prov_total b q s' = prov_total b q (set_provisions <[(p, who) :=
            (sat_add 128 old.1 contribution.1, sat_add 128 old.2 contribution.2)]> s)) as Hpt.
  { intros b q. unfold prov_total. by rewrite Hprov. }
  split.
  - intros q. unfold status_of. rewrite Hsts. destruct (decide (p = q)) as [<-|Hne].
    + intros _. apply (inv_pairs s Hi). by rewrite Hst.
    + rewrite lookup_insert_ne by done. apply (inv_pairs s Hi).
  - rewrite Hpool. apply (inv_pools s Hi).
  - intros k v. rewrite Hprov, lookup_insert_Some. intros [[<- <-]|[_ Hk]].
    + split; [|by apply pair_u128_sat_add]. apply (inv_pairs s Hi). simpl. by rewrite Hst.
    + by apply (inv_provisions s Hi).
  - intros q pp' b. unfold status_of. rewrite Hsts, Hpt, prov_total_insert. simpl.
    fold old. destruct (decide (p = q)) as [<-|Hne].
    + rewrite lookup_insert_eq, bool_decide_eq_true_2 by done. simpl. intros [= <-]. simpl.
      split; [by apply pair_u128_sat_add|]. rewrite !at_side_sat_add.
      destruct (inv_accumulated s Hi p pp b Hst) as [_ Hle]. fold acc in Hle.
      pose proof (provision_at_le b s p who Hi) as Hat. fold old in Hat.
      pose proof (pair_u128_at b _ Hc) as Hcb. pose proof (pair_u128_at b _ Hold) as Hob.
      unfold sat_add, in_uint in *. lia.
    + rewrite lookup_insert_ne, bool_decide_eq_false_2 by done. intros Hq. rewrite Z.add_0_r.
      by apply (inv_accumulated s Hi).
  - intros c. pose proof (inv_solvent s Hi c) as Hs. specialize (Hheld c).
    assert (reserved c s' = reserved c (set_provisions <[(p, who) :=
            (sat_add 128 old.1 contribution.1, sat_add 128 old.2 contribution.2)]> s)) as ->.
    { unfold reserved. by rewrite Hpool, Hprov. }
    rewrite reserved_set_provision. simpl. fold old.
    pose proof (side_value_mono c p (sat_add 128 old.1 contribution.1, sat_add 128 old.2 contribution.2)
                  (old.1 + contribution.1, old.2 + contribution.2)) as Hm.
    rewrite side_value_add in Hm. simpl in Hm.
    pose proof (sat_add_le 128 old.1 contribution.1). pose proof (sat_add_le 128 old.2 contribution.2).
    specialize (Hm ltac:(lia) ltac:(lia)). lia.
Qed.

Lemma in_pair_order_u128 c p a b : in_uint 128 a -> in_uint 128 b -> pair_u128 (in_pair_order c p a b).
Proof. intros. unfold in_pair_order. by case_match. Qed.

Lemma do_add_provision_inv who a b ca cb (s s' : St) u :
  do_add_provision cfg who a b ca cb s = (Ok u, s') ->
  who <> dex -> in_uint 128 ca -> in_uint 128 cb -> dex_inv s -> dex_inv s'.
Proof.
  unfold do_add_provision. set (p := TradingPair_new a b). intros Hrun Hwho Hca Hcb Hi.
  rewrite bind_ok in Hrun. destruct Hrun as (st & s0 & Hst & Hrun). apply gets_ok in Hst as [-> ->].
  destruct (status_of s p) as [|pp|] eqn:Hst; [by apply fail_ok in Hrun| |by apply fail_ok in Hrun].
  set (v := in_pair_order a p ca cb) in *.
  assert (pair_u128 v) as Hv by (by apply in_pair_order_u128).
  rewrite bind_ok in Hrun. destruct Hrun as (u1 & s1 & H1 & Hrun). apply ensure_ok in H1 as [_ ->].
  rewrite bind_ok in Hrun. destruct Hrun as (mp & s1 & H1 & Hrun). apply gets_ok in H1 as [-> ->].
  rewrite bind_ok in Hrun. destruct Hrun as (u2 & s2 & H2 & Hrun).
  rewrite bind_ok in Hrun. destruct Hrun as (u3 & s3 & H3 & Hrun).
  destruct (receive_pair_ok p who v s s2 s3 u2 u3 Hwho H2 H3) as (l & -> & Hheld).
  rewrite bind_ok in Hrun. destruct Hrun as (u4 & s4 & H4 & Hrun).
  assert (exists l', s4 = set_chain l' s /\ forall c, held c s + side_value c p v <= held c s4)
    as (l' & -> & Hheld').
  { destruct (provisioning_pool s !! (p, who)).
    - apply ret_ok in H4 as [_ ->]. by exists l.
    - apply modify_ok in H4 as ->. simpl. destruct (inc_consumers who l) as [l'|] eqn:El.
      + exists l'. split; [done|]. intros c. specialize (Hheld c). unfold held in *. simpl in *.
        by rewrite (inc_consumers_free _ _ _ c dex El).
      + by exists l. }
  unfold deposit_event in Hrun. run_inv Hrun. by eapply (inv_provide s _ p who pp v).
Qed.

(** ** From provisioning to enabled *)

Lemma initial_share_nonneg acc v : pair_u128 v -> 0 <= initial_share acc v.
Proof.
  intros [H1 H2]. unfold in_uint in *. unfold initial_share. cbv zeta.
  case_match; match goal with |- 0 <= sat_add _ (fp_saturating_mul_int ?r ?n) _ =>
    pose proof (fp_mul_nonneg r n ltac:(lia)) end; apply sat_add_range; lia.
Qed.

Lemma call_err {A : Type} (m : M L X A) (s s' : St) e :
  call m s = (Err e, s') -> exists x l, m (chain s) = (Err x, l) /\ s' = set_chain l s.
Proof. unfold call, zoom. destruct (m (chain s)) as [[]]; intros; simplify_eq; eauto. Qed.

(** One contributor gets shares; nothing the pools hold is lost. *)
Lemma issue_provision_share_held lp acc total e (s s' : St) t :
  issue_provision_share lp acc total e s = (Ok t, s') -> pair_u128 e.2 ->
  exists l, s' = set_chain l s /\ forall c, held c s <= held c s'.
Proof.
  unfold issue_provision_share. cbv zeta. intros Hrun He.
  rewrite bind_ok in Hrun. destruct Hrun as (res & s1 & H1 & Hrun).
  assert (exists l, s1 = set_chain l s /\ forall c, held c s <= held c s1) as (l & -> & Hl).
  { apply try_run_ok in H1. destruct res as [u|].
    - eapply deposit_held; [|done]. by apply initial_share_nonneg.
    - destruct H1 as [x H1]. apply call_err in H1 as (y & l & Hl & ->). exists l. split; [done|].
      apply mc_failed_deposit in Hl as ->. intros c. done. }
  run_inv Hrun.
  eexists. split; [reflexivity|]. intros c. specialize (Hl c). unfold held in *. simpl in *.
  by rewrite dec_consumers_free.
Qed.

Lemma issue_provision_shares_spec p lp acc es : forall total (s s' : St) t,
  issue_provision_shares p lp acc total es s = (Ok t, s') ->
  (forall e, e ∈ es -> pair_u128 e.2) ->
  liquidity_pool s' = liquidity_pool s
  /\ trading_pair_statuses s' = trading_pair_statuses s
  /\ provisioning_pool s' = foldl (fun m e => delete (p, e.1) m) (provisioning_pool s) es
  /\ (forall c, held c s <= held c s').
Proof.
  induction es as [|e es IH]; intros total s s' t Hrun He; cbn [issue_provision_shares] in Hrun.
  - apply ret_ok in Hrun as [_ ->]. done.
  - rewrite bind_ok in Hrun. destruct Hrun as (u & s1 & H1 & Hrun). apply modify_ok in H1 as ->.
    rewrite bind_ok in Hrun. destruct Hrun as (t' & s2 & H2 & Hrun).
    apply issue_provision_share_held in H2 as (l & -> & Hl); [|apply He; left].
    apply IH in Hrun as (-> & -> & -> & Hh); [|intros e' ?; apply He; by right].
    split_and!; try done. intros c. specialize (Hl c). specialize (Hh c).
    unfold held in *. simpl in *. lia.
Qed.

(** The provisions of a pair leave the map; what [f] makes of them may be kept. *)
Lemma inv_settle (s s' : St) p v st :
  dex_inv s -> (st <> NotEnabled -> valid_pair p = true /\ pair_0 p <> pair_1 p) ->
  (forall pp, st <> Provisioning pp) -> pair_u128 v ->
  (liquidity_pool s' = liquidity_pool s /\ v = pool_of s p \/
   valid_pair p = true /\ liquidity_pool s' = <[p := v]> (liquidity_pool s)) ->
  (forall q, status_of s' q = if decide (p = q) then st else status_of s q) ->
  provisioning_pool s' = drained p (provisioning_pool s) ->
  (forall c, held c s - side_value c p (prov_total true p s, prov_total false p s)
             + side_value c p v - side_value c p (pool_of s p) <= held c s') ->
  dex_inv s'.
Proof.
  intros Hi Hp Hst Hv Hpool Hsts Hprov Hheld.
  assert (s' = MkState (liquidity_pool s') (trading_pair_statuses s')
                 (drained p (provisioning_pool s)) (events s') (chain s')) as Es'
    by (destruct s'; simpl in *; by subst).
  split.
  - intros q. rewrite Hsts. case_decide; [by subst|]. apply (inv_pairs s Hi).
  - intros q w Hq. destruct Hpool as [[E _]|[Hvp E]]; rewrite E in Hq; [by apply (inv_pools s Hi)|].
    apply lookup_insert_Some in Hq as [[<- <-]|[_ Hq]]; [done|by apply (inv_pools s Hi)].
  - intros k w. rewrite Hprov. unfold drained. intros Hk. apply map_lookup_filter_Some in Hk as [Hk _].
    by apply (inv_provisions s Hi).
  - intros q pp b. rewrite Hsts. case_decide as Hq; [intros E; by destruct (Hst pp)|].
    intros E. rewrite Es', prov_total_drained by congruence. by apply (inv_accumulated s Hi).
  - intros c. specialize (Hheld c). pose proof (inv_solvent s Hi c).
    assert (reserved c s' = reserved c (MkState (liquidity_pool s) (trading_pair_statuses s')
              (drained p (provisioning_pool s)) (events s') (chain s'))
              - side_value c p (pool_of s p) + side_value c p v) as ->.
    { destruct Hpool as [[E Ev]|[_ E]].
      - rewrite Es', E, Ev. simpl. lia.
      - rewrite Es', E. apply (reserved_set_pool c p v (MkState (liquidity_pool s) _ _ _ _)). }
    rewrite reserved_drained by done. lia.
Qed.

Lemma convert_to_enabled_inv p (s s' : St) u :
  convert_to_enabled_if_possible cfg p s = (Ok u, s') -> dex_inv s -> dex_inv s'.
Proof.
  unfold convert_to_enabled_if_possible. intros Hrun Hi.
  rewrite bind_ok in Hrun. destruct Hrun as (st & s0 & Hst & Hrun). apply gets_ok in Hst as [-> ->].
  destruct (status_of s p) as [|pp|] eqn:Hst; [by apply ret_ok in Hrun as [_ ->]| |by apply ret_ok in Hrun as [_ ->]].
  rewrite bind_ok in Hrun. destruct Hrun as (now & s0 & Hn & Hrun). apply gets_ok in Hn as [-> ->].
  destruct (can_enable _ pp); [|by apply ret_ok in Hrun as [_ ->]].
  rewrite bind_ok in Hrun. destruct Hrun as (lp & s0 & Hlp & Hrun). apply expect_ok in Hlp as [Hlp ->].
  rewrite bind_ok in Hrun. destruct Hrun as (es & s0 & He & Hrun). apply gets_ok in He as [-> ->].
  rewrite bind_ok in Hrun. destruct Hrun as (t & s1 & H1 & Hrun).
  apply issue_provision_shares_spec in H1 as (E1 & E2 & E3 & Hheld).
  2: { intros e He. apply provisions_of_elem in He. by apply (inv_provisions s Hi) in He as [_ ?]. }
  rewrite drain_all in E3.
  unfold deposit_event in Hrun. run_inv Hrun.
  destruct (inv_accumulated s Hi p pp true Hst) as [Hacc Ha1].
  destruct (inv_accumulated s Hi p pp false Hst) as [_ Ha2].
  set (acc := accumulated_provision pp) in *. pose proof (inv_pool_u128 s p Hi) as Hpool.
  pose proof (inv_pairs s Hi p ltac:(by rewrite Hst)) as Hp.
  assert (pool_of s1 p = pool_of s p) as -> by (unfold pool_of; by rewrite E1).
  eapply (inv_settle s _ p (sat_add 128 (pool_of s p).1 acc.1, sat_sub (pool_of s p).2 acc.2) Enabled Hi);
    try done.
  - destruct Hpool, Hacc. unfold in_uint in *.
    split; simpl; [apply sat_add_range|apply sat_sub_range]; unfold in_uint; lia.
  - right. simpl. split; [apply Hp|by rewrite E1].
  - intros q. unfold status_of. simpl. rewrite E2, lookup_insert. by case_decide.
  - intros c. specialize (Hheld c). unfold held in *. simpl.
    pose proof (side_value_mono c p (sat_add 128 (pool_of s p).1 acc.1, sat_sub (pool_of s p).2 acc.2)
                  ((pool_of s p).1 + acc.1, (pool_of s p).2 + acc.2)) as Hm.
    pose proof (side_value_mono c p acc (prov_total true p s, prov_total false p s) Ha1 Ha2) as Hm2.
    rewrite side_value_add in Hm. simpl in Hm. destruct Hpool, Hacc.
    pose proof (sat_add_le 128 (pool_of s p).1 acc.1). unfold sat_sub, in_uint in *.
    specialize (Hm ltac:(lia) ltac:(lia)). lia.
Qed.

(** ** Liquidity *)

Lemma fp_share_nonneg a b total :
  0 <= total ->
  0 <= default 0 (fp_checked_from_rational a b ≫= fun n => fp_checked_mul_int n total).
Proof.
  intros Ht. destruct (fp_checked_from_rational a b) as [r|]; simpl; [|lia].
  destruct (fp_checked_mul_int r total) as [v|] eqn:E; simpl; [|lia].
  apply fp_checked_mul_int_floor in E as [-> _]; [|done].
  pose proof (fp_inner_range r) as Hr. pose proof fp_div_pos. unfold in_uint in Hr.
  apply Z.div_pos; nia.
Qed.

(** What [do_add_liquidity] takes is never negative. *)
Lemma liquidity_increments_nonneg total pool v i0 i1 sh :
  pair_u128 v -> 0 <= total -> liquidity_increments total pool v = (i0, i1, sh) ->
  0 <= i0 /\ 0 <= i1 /\ 0 <= sh.
Proof.
  intros Hv Ht Hinc. unfold liquidity_increments in Hinc.
  pose proof (initial_share_nonneg v v Hv) as Hsh. destruct Hv as [Hv1 Hv2]. unfold in_uint in *.
  destruct (total =? 0); [simplify_eq; lia|]. cbv zeta in Hinc.
  destruct (fp_leb _ _); simplify_eq; (split_and!; [try lia; apply fp_mul_nonneg; lia..|]);
    by apply fp_share_nonneg.
Qed.

(** The chain and one pool are replaced together. *)
Lemma inv_update_pool (s s' : St) p v :
  dex_inv s -> valid_pair p = true -> pair_u128 v ->
  liquidity_pool s' = <[p := v]> (liquidity_pool s) ->
  trading_pair_statuses s' = trading_pair_statuses s ->
  provisioning_pool s' = provisioning_pool s ->
  (forall c, is_dex_share_currency_id c = false ->
     reserved c s - side_value c p (pool_of s p) + side_value c p v <= held c s') ->
  dex_inv s'.
Proof.
  intros Hi Hp Hv Epool Ests Eprov Hh. split.
  - intros q. unfold status_of. rewrite Ests. apply Hi.
  - intros q w. rewrite Epool, lookup_insert_Some. intros [[<- <-]|[_ Hq]]; [done|].
    by apply (inv_pools s Hi).
  - rewrite Eprov. apply Hi.
  - intros q pp b. unfold status_of, prov_total. rewrite Ests, Eprov. apply Hi.
  - intros c. assert (reserved c s' = reserved c (set_pool <[p := v]> s)) as ->
      by (unfold reserved; by rewrite Epool, Eprov).
    rewrite reserved_set_pool.
    destruct (is_dex_share_currency_id c) eqn:Hc; [|by apply Hh].
    rewrite !side_value_share, (reserved_share c s Hi Hc) by done.
    pose proof (mc_free_nonneg c dex (chain s')) as Hf. unfold held. lia.
Qed.

Lemma do_add_liquidity_inv who a b ma mb mn dep (s s' : St) u :
  do_add_liquidity cfg who a b ma mb mn dep s = (Ok u, s') ->
  who <> dex -> in_uint 128 ma -> in_uint 128 mb -> dex_inv s -> dex_inv s'.
Proof.
  unfold do_add_liquidity. set (p := TradingPair_new a b). intros Hrun Hwho Hma Hmb Hi.
  rewrite bind_ok in Hrun. destruct Hrun as (lp & s0 & Hlp & Hrun). apply ok_or_ok in Hlp as [Hlp ->].
  rewrite bind_ok in Hrun. destruct Hrun as (st & s0 & Hst & Hrun). apply gets_ok in Hst as [-> ->].
  rewrite bind_ok in Hrun. destruct Hrun as (u0 & s0 & Hen & Hrun). apply ensure_ok in Hen as [Hen ->].
  rewrite bind_ok in Hrun. destruct Hrun as (pool & s0 & Hpl & Hrun). apply gets_ok in Hpl as [-> ->].
  rewrite bind_ok in Hrun. destruct Hrun as (total & s0 & Ht & Hrun). apply gets_ok in Ht as [-> ->].
  destruct (liquidity_increments _ _ _) as [[i0 i1] sh] eqn:Hinc.
  apply liquidity_increments_nonneg in Hinc as (H0 & H1 & Hsh);
    [|by apply in_pair_order_u128|apply mc_issuance_nonneg].
  rewrite bind_ok in Hrun. destruct Hrun as (u1 & s0 & H2 & Hrun). apply ensure_ok in H2 as [_ ->].
  rewrite bind_ok in Hrun. destruct Hrun as (u2 & s0 & H2 & Hrun). apply ensure_ok in H2 as [_ ->].
  rewrite bind_ok in Hrun. destruct Hrun as (u3 & s1 & H3 & Hrun).
  rewrite bind_ok in Hrun. destruct Hrun as (u4 & s2 & H4 & Hrun).
  destruct (receive_pair_ok p who (i0, i1) s s1 s2 u3 u4 Hwho H3 H4) as (l & -> & Hheld).
  rewrite bind_ok in Hrun. destruct Hrun as (u5 & s3 & H5 & Hrun).
  apply call_ok in H5 as (l2 & H5 & ->). destruct u5.
  rewrite bind_ok in Hrun. destruct Hrun as (u6 & s4 & H6 & Hrun).
  assert (exists l3, s4 = set_chain l3 s /\ forall c, is_dex_share_currency_id c = false ->
            mc_free_balance c dex l2 <= held c s4) as (l3 & -> & Hdep).
  { pose proof (dex_share_is_share p lp Hlp) as Hshare. destruct dep.
    - apply call_ok in H6 as (l3 & H6 & ->). exists l3. split; [done|]. intros c Hc. destruct u6.
      unfold held. simpl. rewrite (di_deposit_other _ _ _ _ _ c dex H6) by congruence. done.
    - apply ret_ok in H6 as [_ ->]. by exists l2. }
  unfold deposit_event in Hrun. run_inv Hrun.
  pose proof (inv_pool_u128 s p Hi) as [P1 P2]. unfold in_uint in *.
  eapply (inv_update_pool s _ p (sat_add 128 (pool_of s p).1 i0, sat_add 128 (pool_of s p).2 i1) Hi);
    simpl; try done.
  - by eapply get_dex_share_valid.
  - split; apply sat_add_range; simpl; lia.
  - intros c Hc. specialize (Hheld c). specialize (Hdep c Hc). unfold held in *. simpl in *.
    pose proof (mc_deposit_free _ _ _ _ _ c dex H5 Hsh) as Hfree.
    pose proof (side_value_mono c p (sat_add 128 (pool_of s p).1 i0, sat_add 128 (pool_of s p).2 i1)
                  ((pool_of s p).1 + i0, (pool_of s p).2 + i1)) as Hm.
    pose proof (side_value_add c p (pool_of s p) (i0, i1)) as Ha. simpl in Ha, Hm.
    pose proof (sat_add_le 128 (pool_of s p).1 i0). pose proof (sat_add_le 128 (pool_of s p).2 i1).
    specialize (Hm ltac:(lia) ltac:(lia)). pose proof (inv_solvent s Hi c) as Hs. unfold held in Hs. lia.
Qed.

(** Shares are burnt and the proportional part of the pool is paid. *)
Lemma proportional_le r total pool remove :
  0 <= remove <= total -> 0 <= pool ->
  r = fp_or_default (fp_checked_from_rational remove total) ->
  0 <= fp_saturating_mul_int r pool <= pool.
Proof.
  intros Hrm Hp ->. split; [by apply fp_mul_nonneg|].
  rewrite fp_saturating_mul_int_floor by done. pose proof fp_div_pos as Hd.
  assert (fp_inner (fp_or_default (fp_checked_from_rational remove total)) <= fp_div) as Hr.
  { unfold fp_or_default. destruct (fp_checked_from_rational remove total) as [r|] eqn:E; simpl.
    - apply fp_from_rational_floor in E as [Ht Hr]; [|lia..]. nia.
    - rewrite fp_inner_zero. lia. }
  apply Z.le_trans with (fp_inner (fp_or_default (fp_checked_from_rational remove total)) * pool / fp_div);
    [lia|]. apply Z.div_le_upper_bound; nia.
Qed.

Lemma do_remove_liquidity_inv who a b remove ma mb bw (s s' : St) u :
  do_remove_liquidity cfg who a b remove ma mb bw s = (Ok u, s') ->
  0 <= remove -> dex_inv s -> dex_inv s'.
Proof.
  unfold do_remove_liquidity. intros Hrun Hrm Hi. rewrite transactional_ok in Hrun. cbv zeta in Hrun.
  destruct (remove =? 0); [by apply ret_ok in Hrun as [_ ->]|].
  rewrite bind_ok in Hrun. destruct Hrun as (p & s0 & Hp & Hrun). apply ok_or_ok in Hp as [Hp ->].
  rewrite bind_ok in Hrun. destruct Hrun as (lp & s0 & Hlp & Hrun). apply ok_or_ok in Hlp as [Hlp ->].
  rewrite bind_ok in Hrun. destruct Hrun as (pool & s0 & Hpl & Hrun). apply gets_ok in Hpl as [-> ->].
  rewrite bind_ok in Hrun. destruct Hrun as (total & s0 & Ht & Hrun). apply gets_ok in Ht as [-> ->].
  set (r := fp_or_default _) in Hrun. set (d0 := fp_saturating_mul_int r _) in Hrun.
  set (d1 := fp_saturating_mul_int r (pool_of s p).2) in Hrun.
  rewrite bind_ok in Hrun. destruct Hrun as (u1 & s0 & H2 & Hrun). apply ensure_ok in H2 as [_ ->].
  rewrite bind_ok in Hrun. destruct Hrun as (u2 & s1 & H2 & Hrun).
  assert (exists l, s1 = set_chain l s /\ mc_total_issuance lp l = mc_total_issuance lp (chain s)
            /\ forall c, is_dex_share_currency_id c = false -> held c s <= held c s1)
    as (l & -> & Hiss & Hh1).
  { pose proof (dex_share_is_share p lp Hlp) as Hshare. destruct bw.
    - apply call_ok in H2 as (l & H2 & ->). destruct u2. exists l. split_and!; [done|..].
      + by eapply di_withdraw_issuance.
      + intros c Hc. unfold held. simpl. apply (di_withdraw_other _ _ _ _ _ c dex H2); congruence.
    - apply ret_ok in H2 as [_ ->]. exists (chain s). split_and!; try done. by destruct s. }
  rewrite bind_ok in Hrun. destruct Hrun as (u3 & s2 & H3 & Hrun).
  apply withdraw_held in H3 as (Hcov & l2 & -> & Hh2). simpl in Hcov. rewrite Hiss in Hcov.
  pose proof (inv_pool_u128 s p Hi) as [P1 P2]. unfold in_uint in *.
  pose proof (proportional_le r _ (pool_of s p).1 remove ltac:(split; [lia|exact Hcov]) ltac:(lia) eq_refl) as D0.
  pose proof (proportional_le r _ (pool_of s p).2 remove ltac:(split; [lia|exact Hcov]) ltac:(lia) eq_refl) as D1.
  fold d0 in D0. fold d1 in D1.
  rewrite bind_ok in Hrun. destruct Hrun as (u4 & s3 & H4 & Hrun).
  rewrite bind_ok in Hrun. destruct Hrun as (u5 & s4 & H5 & Hrun).
  destruct (pay_pair_ok p who (d0, d1) _ s3 s4 u4 u5 ltac:(simpl; lia) ltac:(simpl; lia) H4 H5)
    as (l4 & -> & Hh3).
  unfold deposit_event in Hrun. run_inv Hrun.
  eapply (inv_update_pool s _ p (sat_sub (pool_of s p).1 d0, sat_sub (pool_of s p).2 d1) Hi);
    simpl; try done.
  - by eapply get_dex_share_valid.
  - split; simpl; apply sat_sub_range; unfold in_uint; lia.
  - intros c Hc. specialize (Hh1 c Hc). specialize (Hh3 c).
    specialize (Hh2 c ltac:(intros ->; pose proof (dex_share_is_share p lp Hlp); congruence)).
    rewrite (sat_sub_exact _ d0), (sat_sub_exact _ d1) by lia.
    pose proof (side_value_sub c p (pool_of s p) (d0, d1)) as Hsub. simpl in Hsub.
    pose proof (inv_solvent s Hi c) as Hs. unfold held in *. simpl in *. lia.
Qed.

(** ** Swaps *)

Lemma valid_pair_from_token a b :
  valid_pair (TradingPair_new a b) = true ->
  from_token_currency_ids a b = Some (TradingPair_new a b).
Proof.
  intros Hv. unfold valid_pair in Hv. apply bool_decide_eq_true in Hv as [lp Hlp].
  unfold from_token_currency_ids. rewrite (TradingPair_new_comm b a).
  unfold get_dex_share_currency_id, join_dex_share_currency_id in Hlp.
  destruct (TradingPair_new_cases a b) as [E|E]; rewrite E in *; destruct a, b; simpl in *; done.
Qed.

(** The pair of a hop, and the reserves seen from its supply side. *)
Lemma get_liquidity_cases (s : St) a b :
  a <> b ->
  TradingPair_new a b = MkPair a b /\ get_liquidity s a b = pool_of s (MkPair a b) \/
  TradingPair_new a b = MkPair b a /\
  get_liquidity s a b = ((pool_of s (MkPair b a)).2, (pool_of s (MkPair b a)).1).
Proof.
  intros Hne. unfold get_liquidity, currency_eqb.
  destruct (TradingPair_new_cases a b) as [E|E]; rewrite E; simpl; [left|right].
  - rewrite bool_decide_eq_true_2 by done. by rewrite <- surjective_pairing.
  - by rewrite bool_decide_eq_false_2.
Qed.

Lemma get_liquidity_flip (s : St) a b :
  a <> b -> get_liquidity s b a = ((get_liquidity s a b).2, (get_liquidity s a b).1).
Proof.
  intros Hne. pose proof (TradingPair_new_comm a b) as Hc.
  destruct (get_liquidity_cases s a b Hne) as [[E1 ->]|[E1 ->]];
    destruct (get_liquidity_cases s b a (not_eq_sym Hne)) as [[E2 ->]|[E2 ->]];
    try (exfalso; congruence); simpl; [done|]. by rewrite <- surjective_pairing.
Qed.

Lemma get_liquidity_u128 (s : St) a b : dex_inv s -> pair_u128 (get_liquidity s a b).
Proof.
  intros Hi. unfold get_liquidity. pose proof (inv_pool_u128 s (TradingPair_new a b) Hi) as [P1 P2].
  by case_match.
Qed.

Lemma swap_pool_eq a b x y (s : St) :
  a <> b -> valid_pair (TradingPair_new a b) = true ->
  swap_pool a b x y s =
  set_pool <[TradingPair_new a b :=
    if currency_eqb a (pair_0 (TradingPair_new a b))
    then (sat_add 128 (get_liquidity s a b).1 x, sat_sub (get_liquidity s a b).2 y)
    else (sat_sub (get_liquidity s a b).2 y, sat_add 128 (get_liquidity s a b).1 x)]> s.
Proof.
  intros Hne Hv. unfold swap_pool. rewrite valid_pair_from_token by done.
  destruct (get_liquidity_cases s a b Hne) as [[E ->]|[E ->]]; rewrite E; unfold currency_eqb; simpl.
  - by rewrite bool_decide_eq_true_2.
  - by rewrite bool_decide_eq_false_2.
Qed.

(** A hop moves the supply side up and the target side down. *)
Lemma swap_pool_liquidity a b x y (s : St) :
  a <> b -> valid_pair (TradingPair_new a b) = true ->
  get_liquidity (swap_pool a b x y s) a b =
  (sat_add 128 (get_liquidity s a b).1 x, sat_sub (get_liquidity s a b).2 y).
Proof.
  intros Hne Hv. rewrite swap_pool_eq by done. unfold get_liquidity at 1, currency_eqb.
  rewrite pool_of_set_eq. destruct (TradingPair_new_cases a b) as [E|E]; rewrite E; simpl.
  - by rewrite !bool_decide_eq_true_2.
  - by rewrite !bool_decide_eq_false_2.
Qed.

Lemma swap_pool_other a b x y (s : St) c d :
  TradingPair_new a b <> TradingPair_new c d ->
  get_liquidity (swap_pool a b x y s) c d = get_liquidity s c d.
Proof.
  intros Hne. unfold get_liquidity. replace (pool_of (swap_pool a b x y s) (TradingPair_new c d))
    with (pool_of s (TradingPair_new c d)); [done|].
  unfold swap_pool. destruct (from_token_currency_ids a b) as [p|] eqn:Ep; [|done].
  apply from_token_currency_ids_Some in Ep as ->. by rewrite pool_of_set_ne.
Qed.

Lemma swap_pool_reserved c a b x y (s : St) :
  a <> b -> valid_pair (TradingPair_new a b) = true -> y <= (get_liquidity s a b).2 ->
  reserved c (swap_pool a b x y s) <=
  reserved c s + (if currency_eqb c a then x else 0) - (if currency_eqb c b then y else 0).
Proof.
  intros Hne Hv Hy. rewrite swap_pool_eq by done. rewrite reserved_set_pool.
  rewrite sat_sub_exact by done. pose proof (sat_add_le 128 (get_liquidity s a b).1 x) as Hle.
  assert (currency_eqb a a = true) as Ea by (by apply bool_decide_eq_true_2).
  assert (currency_eqb a b = false) as Eb by (by apply bool_decide_eq_false_2).
  destruct (get_liquidity_cases s a b Hne) as [[E El]|[E El]]; rewrite El in *; rewrite E; simpl in *;
    rewrite ?Ea, ?Eb; unfold side_value; simpl; clear Ea Eb; repeat case_match; lia.
Qed.

Definition pools_ok (s : St) : Prop :=
  forall p v, liquidity_pool s !! p = Some v -> valid_pair p = true /\ pair_u128 v.

Lemma swap_pool_ok a b x y (s : St) :
  a <> b -> valid_pair (TradingPair_new a b) = true -> 0 <= x -> 0 <= y ->
  pair_u128 (get_liquidity s a b) -> pools_ok s -> pools_ok (swap_pool a b x y s).
Proof.
  intros Hne Hv Hx Hy [L1 L2] Hok p v. unfold in_uint in *. rewrite swap_pool_eq by done. simpl.
  rewrite lookup_insert_Some. intros [[<- <-]|[_ Hp]]; [|by apply Hok]. split; [done|].
  case_match; split; simpl; (apply sat_add_range || apply sat_sub_range); unfold in_uint; lia.
Qed.

Lemma swap_pool_frame a b x y (s : St) :
  let s' := swap_pool a b x y s in
  trading_pair_statuses s' = trading_pair_statuses s /\ provisioning_pool s' = provisioning_pool s
  /\ chain s' = chain s /\ events s' = events s.
Proof. unfold swap_pool. by destruct (from_token_currency_ids a b). Qed.

Lemma swap_by_path_hop a b path x y amounts (s : St) :
  swap_by_path (a :: b :: path) (x :: y :: amounts) s =
  swap_by_path (b :: path) (y :: amounts) (swap_pool a b x y s).
Proof. done. Qed.

Lemma swap_by_path_frame path : forall amounts (s : St),
  let s' := swap_by_path path amounts s in
  trading_pair_statuses s' = trading_pair_statuses s /\ provisioning_pool s' = provisioning_pool s
  /\ chain s' = chain s /\ events s' = events s.
Proof.
  induction path as [|a [|b path] IH]; intros amounts s; try done.
  destruct amounts as [|x [|y amounts]]; try done. rewrite swap_by_path_hop.
  pose proof (IH (y :: amounts) (swap_pool a b x y s)) as Hs. cbv zeta in *.
  destruct Hs as (E1 & E2 & E3 & E4). rewrite E1, E2, E3, E4. apply swap_pool_frame.
Qed.

(** The amounts of a path are covered by the reserves they are taken from. *)
Inductive covered : St -> list CurrencyId -> list Balance -> Prop :=
| covered_last s a x : 0 <= x -> covered s [a] [x]
| covered_hop s a b path x y amounts :
    a <> b -> valid_pair (TradingPair_new a b) = true ->
    0 <= x -> 0 <= y <= (get_liquidity s a b).2 -> pair_u128 (get_liquidity s a b) ->
    covered (swap_pool a b x y s) (b :: path) (y :: amounts) ->
    covered s (a :: b :: path) (x :: y :: amounts).

(** Over a whole path, only the ends change what is reserved: the first currency by
    what came in and the last by what goes out. *)
Lemma covered_reserved (s : St) path amounts :
  covered s path amounts ->
  forall first x lst y, head path = Some first -> head amounts = Some x ->
  last path = Some lst -> last amounts = Some y ->
  (pools_ok s -> pools_ok (swap_by_path path amounts s)) /\ 0 <= x /\ 0 <= y
  /\ forall c, reserved c (swap_by_path path amounts s) <=
        reserved c s + (if currency_eqb c first then x else 0) - (if currency_eqb c lst then y else 0).
Proof.
  induction 1 as [s a x Hx|s a b path x y amounts Hne Hv Hx Hy Hu _ IH]; intros first x0 lst y0 Hf Hx0 Hl Hy0.
  - simpl in *. simplify_eq. split_and!; try done. intros c. lia.
  - cbn [head] in Hf, Hx0. simplify_eq. rewrite last_cons_cons in Hl. rewrite last_cons_cons in Hy0.
    destruct (IH b y lst y0 eq_refl eq_refl Hl Hy0) as (IHok & _ & IHy & IHr).
    split_and!; [|done..|].
    + intros Hok. apply IHok. apply swap_pool_ok; try done; lia.
    + intros c. rewrite swap_by_path_hop. specialize (IHr c).
      pose proof (swap_pool_reserved c first b x0 y s Hne Hv ltac:(lia)). lia.
Qed.

(** A swap: the supply comes in, the pools move, the target goes out. *)
Lemma swap_inv (s s' : St) who path amounts a x b y u1 u2 s1 s2 ev :
  dex_inv s -> who <> dex -> covered s path amounts ->
  head path = Some a -> head amounts = Some x -> last path = Some b -> last amounts = Some y ->
  call (mc_transfer a who dex x) s = (Ok u1, s1) ->
  call (mc_transfer b dex who y) (swap_by_path path amounts s1) = (Ok u2, s2) ->
  s' = MkState (liquidity_pool s2) (trading_pair_statuses s2) (provisioning_pool s2) ev (chain s2) ->
  dex_inv s'.
Proof.
  intros Hi Hwho Hcov Ha Hx Hb Hy Hin Hout ->.
  destruct (covered_reserved s path amounts Hcov a x b y Ha Hx Hb Hy) as (Hok & Hx0 & Hy0 & Hres).
  apply receive_ok in Hin as (l1 & -> & Hin); [|done].
  apply pay_ok in Hout as (l2 & -> & Hout); [|done].
  destruct (swap_by_path_frame path amounts (set_chain l1 s)) as (Es & Ep & Ec & _).
  assert (liquidity_pool (swap_by_path path amounts (set_chain l1 s)) =
          liquidity_pool (swap_by_path path amounts s)) as Epool.
  { clear. revert amounts s. induction path as [|c [|d path] IH]; intros amounts s; try done.
    destruct amounts as [|z [|w amounts]]; try done. rewrite !swap_by_path_hop.
    replace (swap_pool c d z w (set_chain l1 s)) with (set_chain l1 (swap_pool c d z w s)); [apply IH|].
    unfold swap_pool. by destruct (from_token_currency_ids c d). }
  split; simpl.
  - intros q. unfold status_of. simpl. rewrite Es. apply Hi.
  - rewrite Epool. apply Hok. exact (inv_pools s Hi).
  - rewrite Ep. apply Hi.
  - intros q pp b'. unfold status_of, prov_total. simpl. rewrite Es, Ep. apply Hi.
  - intros c. specialize (Hres c). specialize (Hin c). specialize (Hout c).
    pose proof (inv_solvent s Hi c) as Hs. unfold held in *. simpl in *. rewrite Ec in Hout. simpl in Hout.
    unfold reserved in *. simpl. rewrite Epool, Ep. simpl.
    destruct (swap_by_path_frame path amounts s) as (_ & Ep' & _). rewrite Ep' in Hres. lia.
Qed.

(** What the pricing loops establish about the reserves they were run on. *)
Inductive priced (s : St) : list CurrencyId -> list Balance -> Prop :=
| priced_last a x : 0 <= x -> priced s [a] [x]
| priced_hop a b path x y amounts :
    a <> b -> valid_pair (TradingPair_new a b) = true ->
    0 <= x -> 0 <= y <= (get_liquidity s a b).2 ->
    priced s (b :: path) (y :: amounts) -> priced s (a :: b :: path) (x :: y :: amounts).

Lemma hop_liquidity_ok (s : St) a b pools :
  dex_inv s -> @hop_liquidity L X AccountId _ _ s a b = Ok pools ->
  a <> b /\ valid_pair (TradingPair_new a b) = true /\ pools = get_liquidity s a b
  /\ pair_u128 pools.
Proof.
  intros Hi Hh. unfold hop_liquidity in Hh. cbv zeta in Hh. run_inv Hh.
  assert (status_of s (TradingPair_new a b) <> NotEnabled) as Hst by (by destruct (status_of s _)).
  destruct (inv_pairs s Hi _ Hst) as [Hv Hne]. split_and!; [|done..|by apply get_liquidity_u128].
  intros ->. destruct (TradingPair_new_cases b b) as [E|E]; rewrite E in Hne; done.
Qed.

Lemma target_amounts_priced (s : St) limit : forall path amount amounts,
  dex_inv s -> in_uint 128 amount -> path <> [] ->
  target_amounts_from cfg s limit amount path = Ok amounts ->
  priced s path amounts /\ head amounts = Some amount.
Proof.
  induction path as [|a [|b path] IH]; intros amount amounts Hi Ha Hne Hrun; [done|..].
  - simpl in Hrun. simplify_eq. split; [constructor; apply Ha|done].
  - change (target_amounts_from cfg s limit amount (a :: b :: path)) with
      (let? (supply_pool, target_pool) := @hop_liquidity L X AccountId _ _ s a b in
       let target_amount := get_target_amount cfg supply_pool target_pool amount in
       do? oensure (negb (target_amount =? 0)) (@dispatch_error X ZeroTargetAmount) in
       do? check_price_impact limit target_amount target_pool in
       let? amounts := target_amounts_from cfg s limit target_amount (b :: path) in
       Ok (amount :: amounts)) in Hrun.
    rewrite obind_ok in Hrun. destruct Hrun as ([sp tp] & Hh & Hrun). cbv zeta in Hrun.
    apply hop_liquidity_ok in Hh as (Hab & Hv & Ep & [P1 P2]); [|done]. simpl in P1, P2.
    pose proof (get_target_amount_range cfg fee_u32 sp tp amount P1 P2 Ha) as Hr.
    run_inv Hrun. assert (in_uint 128 (get_target_amount cfg sp tp amount)) as Hu
      by (unfold in_uint in *; lia).
    destruct (IH _ _ Hi Hu ltac:(done) R1) as [IHp IHh].
    destruct x1 as [|y ys]; simpl in IHh; [done|]. simplify_eq. split; [|done].
    constructor; try done; [apply Ha|]. rewrite <- Ep. simpl. exact Hr.
Qed.

Lemma supply_amounts_priced (s : St) limit : forall rpath b amount found suffix amounts,
  dex_inv s -> in_uint 128 amount ->
  priced s (b :: suffix) (amount :: found) ->
  supply_amounts_from cfg s limit amount (b :: rpath) found = Ok amounts ->
  priced s (reverse rpath ++ b :: suffix) amounts /\ last amounts = last (amount :: found).
Proof.
  induction rpath as [|a rpath IH]; intros b amount found suffix amounts Hi Ha Hp Hrun.
  - simpl in Hrun. simplify_eq. done.
  - change (supply_amounts_from cfg s limit amount (b :: a :: rpath) found) with
      (let? (supply_pool, target_pool) := @hop_liquidity L X AccountId _ _ s a b in
       let supply_amount := get_supply_amount cfg supply_pool target_pool amount in
       do? oensure (negb (supply_amount =? 0)) (@dispatch_error X ZeroSupplyAmount) in
       do? check_price_impact limit amount target_pool in
       supply_amounts_from cfg s limit supply_amount (a :: rpath) (amount :: found)) in Hrun.
    rewrite obind_ok in Hrun. destruct Hrun as ([sp tp] & Hh & Hrun). cbv zeta in Hrun.
    apply hop_liquidity_ok in Hh as (Hab & Hv & Ep & [P1 P2]); [|done]. simpl in P1, P2.
    rewrite obind_ok in Hrun. destruct Hrun as (u & Hnz & Hrun). apply oensure_ok in Hnz. bool_inv.
    rewrite obind_ok in Hrun. destruct Hrun as (u' & _ & Hrun).
    destruct (get_supply_amount_covered cfg fee_u32 sp tp amount P1 P2 Ha Hnz) as [Hlt Hx].
    destruct (IH a _ (amount :: found) (b :: suffix) amounts Hi Hx) as [IHp IHl]; [|done|].
    + unfold in_uint in *. constructor; try done; try lia. rewrite <- Ep. simpl. lia.
    + rewrite reverse_cons, <- app_assoc. by rewrite last_cons_cons in IHl.
Qed.

(** On the paths the runtime admits, pools priced once are still there when the hop is
    made: a second hop meets another pool, or the first one from the other side. *)
Lemma priced_covered (s : St) path amounts :
  dex_inv s -> priced s path amounts -> (length path <= 3)%nat -> covered s path amounts.
Proof.
  intros Hi Hp Hlen. destruct Hp as [a x Hx|a b path x y amounts Hab Hv Hx Hy Hp]; [by constructor|].
  constructor; try done; [by apply get_liquidity_u128|].
  inversion Hp as [|b' c path' y' z amounts' Hbc Hv' Hy' Hz Hp']; subst; [constructor; lia|].
  destruct path' as [|d path']; [|simpl in Hlen; lia].
  assert (pools_ok (swap_pool a b x y s)) as Hok
    by (apply swap_pool_ok; try done; [by apply get_liquidity_u128|exact (inv_pools s Hi)]).
  inversion Hp' as [c' z' Hz'|]; subst. constructor; try done.
  - destruct (decide (TradingPair_new a b = TradingPair_new b c)) as [E|Hne].
    + assert (c = a) as ->.
      { destruct (TradingPair_new_cases a b) as [E1|E1], (TradingPair_new_cases b c) as [E2|E2];
          congruence. }
      rewrite (get_liquidity_flip _ a b), swap_pool_liquidity by done. simpl.
      rewrite get_liquidity_flip in Hz by done. simpl in Hz.
      pose proof (get_liquidity_u128 s a b Hi) as [G1 _]. unfold sat_add, in_uint in *. lia.
    + rewrite swap_pool_other by done. done.
  - unfold get_liquidity, pool_of. destruct (liquidity_pool _ !! _) as [v|] eqn:Ev; simpl.
    + apply Hok in Ev as [_ [V1 V2]]. by case_match.
    + by case_match; vm_compute.
  - by constructor.
Qed.

(** The runtimes fix [TradingPathLimit = 3]. *)
Hypothesis path_limit : trading_path_limit cfg <= 3.

Lemma path_length_ok path u :
  @check_path_length L X AccountId Origin cfg path = Ok u -> path <> [] /\ (length path <= 3)%nat.
Proof.
  unfold check_path_length. cbv zeta. rewrite oensure_ok. intros Hb. bool_inv.
  split; [by intros ->|lia].
Qed.

Lemma event_state e (s s' : St) u :
  @deposit_event L X AccountId _ _ e s = (Ok u, s') ->
  s' = MkState (liquidity_pool s) (trading_pair_statuses s) (provisioning_pool s) (events s ++ [e])
         (chain s).
Proof. unfold deposit_event. by rewrite modify_ok. Qed.

Lemma do_swap_with_exact_supply_inv who path x mn limit (s s' : St) r :
  do_swap_with_exact_supply cfg who path x mn limit s = (Ok r, s') ->
  who <> dex -> in_uint 128 x -> dex_inv s -> dex_inv s'.
Proof.
  unfold do_swap_with_exact_supply. intros Hrun Hwho Hx Hi. run_step Hrun.
  apply event_state in R6. unfold get_target_amounts in R0. run_step R0.
  apply path_length_ok in R7 as [Hne Hlen].
  apply target_amounts_priced in R0 as [Hp Hh]; [|done..].
  eapply swap_inv; [exact Hi|exact Hwho|by apply priced_covered|done..].
Qed.

Lemma do_swap_with_exact_target_inv who path y mx limit (s s' : St) r :
  do_swap_with_exact_target cfg who path y mx limit s = (Ok r, s') ->
  who <> dex -> in_uint 128 y -> dex_inv s -> dex_inv s'.
Proof.
  unfold do_swap_with_exact_target. intros Hrun Hwho Hy Hi. run_step Hrun.
  apply event_state in R6. unfold get_supply_amounts in R0. run_step R0.
  apply path_length_ok in R7 as [Hne Hlen].
  destruct (reverse path) as [|b rpath] eqn:Erev.
  { by apply (f_equal reverse) in Erev; rewrite reverse_involutive in Erev. }
  apply (supply_amounts_priced s limit rpath b y [] []) in R0 as [Hp Hl];
    [|done..|constructor; apply Hy].
  replace (reverse rpath ++ [b]) with path in Hp
    by (rewrite <- (reverse_involutive path), Erev, reverse_cons; done).
  eapply swap_inv; [exact Hi|exact Hwho|by apply priced_covered|done..].
Qed.

(** ** Listing, enabling and disabling *)

Lemma provisioned_zero (s : St) p b : 0 <= prov_total b p s -> at_side b (0, 0) <= prov_total b p s.
Proof. by destruct b. Qed.

Lemma chain_held_inv (s : St) l :
  dex_inv s -> (forall c, held c s <= held c (set_chain l s)) -> dex_inv (set_chain l s).
Proof.
  intros Hi Hh. apply inv_set_chain; [done|]. intros c _.
  pose proof (inv_solvent s Hi c). specialize (Hh c). lia.
Qed.

(** Registering a contract does not move balances. *)
Definition mapping_keeps_balances : Prop :=
  forall addr l l', erc20_mapping cfg addr l = (Ok tt, l') ->
    forall c a, mc_free_balance c a l' = mc_free_balance c a l.

Lemma set_erc20_mapping_of_inv c (s s' : St) u :
  mapping_keeps_balances -> set_erc20_mapping_of cfg c s = (Ok u, s') -> dex_inv s ->
  dex_inv s' /\ forall p, status_of s' p = status_of s p.
Proof.
  intros Hmap Hrun Hi. destruct c; simpl in Hrun; try (by apply ret_ok in Hrun as [_ ->]).
  apply call_ok in Hrun as (l & Hl & ->). destruct u. split; [|done].
  apply chain_held_inv; [done|]. intros c. unfold held. simpl. by rewrite (Hmap _ _ _ Hl).
Qed.

Lemma listed_pair a b p lp :
  a <> b -> from_token_currency_ids a b = Some p -> get_dex_share_currency_id p = Some lp ->
  valid_pair p = true /\ pair_0 p <> pair_1 p.
Proof.
  intros Hne Hp Hlp. split; [by eapply get_dex_share_valid|].
  apply from_token_currency_ids_Some in Hp as ->.
  destruct (TradingPair_new_cases a b) as [-> | ->]; simpl; congruence.
Qed.

Lemma list_trading_pair_inv o a b m1 m2 t1 t2 nb (s s' : St) u :
  mapping_keeps_balances ->
  list_trading_pair cfg o a b m1 m2 t1 t2 nb s = (Ok u, s') -> dex_inv s -> dex_inv s'.
Proof.
  intros Hmap Hrun Hi. unfold list_trading_pair in Hrun. cbv zeta in Hrun.
  unfold ensure_listing_origin in Hrun. run_step Hrun. unfold currency_eqb in R1. bool_inv.
  destruct (set_erc20_mapping_of_inv _ _ _ _ Hmap R Hi) as [Hi1 _].
  destruct (set_erc20_mapping_of_inv _ _ _ _ Hmap R6 Hi1) as [Hi2 _].
  eapply inv_event; [exact Hrun|]. apply inv_set_status; [done|..].
  - intros _. by eapply listed_pair.
  - intros pp side [= <-]. simpl. split; [by vm_compute|]. apply provisioned_zero.
    by apply prov_total_range.
Qed.

Lemma enable_trading_pair_inv o a b (s s' : St) u :
  a <> b -> enable_trading_pair cfg o a b s = (Ok u, s') -> dex_inv s -> dex_inv s'.
Proof.
  intros Hne Hrun Hi. unfold enable_trading_pair, ensure_listing_origin in Hrun. run_step Hrun.
  eapply inv_event; [exact Hrun|]. apply inv_set_status; [done|..|done].
  intros _. destruct (from_token_dex_share _ _ _ R1) as [lp Hlp]. by eapply listed_pair.
Qed.

(** The refund loop pays every contributor what was recorded for it. *)
Lemma refund_provisions_spec p es : forall (s s' : St) u,
  for_each (fun entry => do! modify (set_provisions (delete (p, entry.1))) in
                         refund_provision cfg p entry) es s = (Ok u, s') ->
  (forall e, e ∈ es -> pair_u128 e.2) ->
  liquidity_pool s' = liquidity_pool s
  /\ trading_pair_statuses s' = trading_pair_statuses s
  /\ provisioning_pool s' = foldl (fun m e => delete (p, e.1) m) (provisioning_pool s) es
  /\ (forall c, held c s - zsum (fun e => side_value c p e.2) es <= held c s').
Proof.
  induction es as [|e es IH]; intros s s' u Hrun He; cbn [for_each] in Hrun.
  - apply ret_ok in Hrun as [_ ->]. split_and!; try done. intros c. simpl. lia.
  - rewrite bind_ok in Hrun. destruct Hrun as (u1 & s1 & H1 & Hrun).
    rewrite bind_ok in H1. destruct H1 as (u2 & s2 & H2 & H1). apply modify_ok in H2 as ->.
    unfold refund_provision in H1.
    rewrite bind_ok in H1. destruct H1 as (u3 & s3 & H3 & H1).
    rewrite bind_ok in H1. destruct H1 as (u4 & s4 & H4 & H1). apply modify_ok in H1 as ->.
    destruct (He e ltac:(left)) as [He1 He2].
    destruct (pay_pair_ok p e.1 e.2 _ _ _ _ _ (proj1 He1) (proj1 He2) H3 H4) as (l & -> & Hl).
    apply IH in Hrun as (-> & -> & -> & Hh); [|intros e' ?; apply He; by right].
    split_and!; try done. intros c. specialize (Hl c). specialize (Hh c). unfold held in *. simpl in *.
    rewrite dec_consumers_free in Hh. lia.
Qed.

Lemma disable_trading_pair_inv o a b (s s' : St) u :
  disable_trading_pair cfg o a b s = (Ok u, s') -> dex_inv s -> dex_inv s'.
Proof.
  intros Hrun Hi. unfold disable_trading_pair, ensure_listing_origin in Hrun.
  rewrite transactional_ok in Hrun.
  rewrite bind_ok in Hrun. destruct Hrun as (u0 & s0 & H0 & Hrun). apply ensure_ok in H0 as [_ ->].
  rewrite bind_ok in Hrun. destruct Hrun as (p & s0 & Hp & Hrun). apply ok_or_ok in Hp as [Hp ->].
  rewrite bind_ok in Hrun. destruct Hrun as (st & s0 & Hst & Hrun). apply gets_ok in Hst as [-> ->].
  destruct (status_of s p) as [|pp|] eqn:Hst.
  - by apply fail_ok in Hrun.
  - unfold drain_prefix in Hrun.
    rewrite bind_ok in Hrun. destruct Hrun as (u1 & s1 & H1 & Hrun).
    rewrite bind_ok in H1. destruct H1 as (es & s0 & He & H1). apply gets_ok in He as [-> ->].
    apply refund_provisions_spec in H1 as (E1 & E2 & E3 & Hheld).
    2: { intros e He. apply provisions_of_elem in He. by apply (inv_provisions s Hi) in He as [_ ?]. }
    rewrite drain_all in E3. unfold deposit_event in Hrun. run_inv Hrun.
    eapply (inv_settle s _ p (pool_of s p) NotEnabled Hi); simpl; try done.
    + by apply inv_pool_u128.
    + by left.
    + intros q. unfold status_of. simpl. rewrite E2, lookup_delete. by case_decide.
    + intros c. specialize (Hheld c). unfold held in *. simpl.
      rewrite (provisions_of_sum s p (side_value c p)), side_value_sum in Hheld. lia.
  - rewrite bind_ok in Hrun. destruct Hrun as (u1 & s1 & H1 & Hrun). apply modify_ok in H1 as ->.
    eapply inv_event; [exact Hrun|]. by apply inv_set_status.
Qed.

(** ** Every call *)

Lemma signed_not_dex o (s s' : St) who :
  ensure_signed cfg o s = (Ok who, s') -> who <> dex /\ s' = s.
Proof.
  unfold ensure_signed. intros Hs. apply ok_or_ok in Hs as [Hs ->]. split; [|done].
  intros ->. by destruct (dex_keyless o).
Qed.

(** The calls users and the governance make, with the amounts within [u128] that the
    types of the arguments impose. *)
Inductive dex_call : Type :=
| SwapWithExactSupply (path : list CurrencyId) (supply_amount min_target_amount : Balance)
| SwapWithExactTarget (path : list CurrencyId) (target_amount max_supply_amount : Balance)
| AddLiquidityCall (a b : CurrencyId) (ma mb min_share : Balance) (deposit : bool)
| RemoveLiquidityCall (a b : CurrencyId) (share ma mb : Balance) (by_withdraw : bool)
| ListPair (a b : CurrencyId) (m1 m2 t1 t2 : Balance) (nb : BlockNumber)
| EnablePair (a b : CurrencyId)
| DisablePair (a b : CurrencyId).

Definition run_call (o : Origin) (c : dex_call) : M (State L AccountId) (DexError + X) unit :=
  match c with
  | SwapWithExactSupply path x mn => swap_with_exact_supply cfg o path x mn
  | SwapWithExactTarget path y mx => swap_with_exact_target cfg o path y mx
  | AddLiquidityCall a b ma mb mn d => add_liquidity cfg o a b ma mb mn d
  | RemoveLiquidityCall a b sh ma mb bw => remove_liquidity cfg o a b sh ma mb bw
  | ListPair a b m1 m2 t1 t2 nb => list_trading_pair cfg o a b m1 m2 t1 t2 nb
  | EnablePair a b => enable_trading_pair cfg o a b
  | DisablePair a b => disable_trading_pair cfg o a b
  end.

(** [enable_trading_pair] does not compare its two currencies, as [list_trading_pair]
    does. What it enables when both are the same is not a pool that the account covers
    (an example is at the end of [DexExamples]), so the governance is trusted not to. *)
Definition enables_self_pair (c : dex_call) : bool :=
  match c with EnablePair a b => currency_eqb a b | _ => false end.

(** Amounts that fit their type. *)
Definition typed_amounts (c : dex_call) : bool :=
  let u128 v := (0 <=? v) && (v <=? umax 128) in
  match c with
  | SwapWithExactSupply _ x _ => u128 x
  | SwapWithExactTarget _ y _ => u128 y
  | AddLiquidityCall _ _ ma mb _ _ => u128 ma && u128 mb
  | RemoveLiquidityCall _ _ sh _ _ _ => u128 sh
  | _ => true
  end.

Definition call_ok_args (c : dex_call) : bool := typed_amounts c && negb (enables_self_pair c).

Lemma run_call_inv o c (s s' : St) u :
  mapping_keeps_balances -> call_ok_args c = true ->
  run_call o c s = (Ok u, s') -> dex_inv s -> dex_inv s'.
Proof.
  intros Hmap Hargs Hrun Hi. unfold call_ok_args in Hargs.
  destruct c; simpl in Hargs, Hrun; bool_inv.
  - unfold swap_with_exact_supply in Hrun. rewrite transactional_ok in Hrun.
    rewrite bind_ok in Hrun. destruct Hrun as (who & s1 & Hw & Hrun).
    apply signed_not_dex in Hw as [Hw ->]. run_step Hrun.
    by eapply do_swap_with_exact_supply_inv.
  - unfold swap_with_exact_target in Hrun. rewrite transactional_ok in Hrun.
    rewrite bind_ok in Hrun. destruct Hrun as (who & s1 & Hw & Hrun).
    apply signed_not_dex in Hw as [Hw ->]. run_step Hrun.
    by eapply do_swap_with_exact_target_inv.
  - unfold add_liquidity in Hrun. rewrite transactional_ok in Hrun.
    rewrite bind_ok in Hrun. destruct Hrun as (who & s1 & Hw & Hrun).
    apply signed_not_dex in Hw as [Hw ->].
    rewrite bind_ok in Hrun. destruct Hrun as (p & s1 & Hp & Hrun). apply ok_or_ok in Hp as [Hp ->].
    rewrite bind_ok in Hrun. destruct Hrun as (st & s1 & Hst & Hrun). apply gets_ok in Hst as [-> ->].
    destruct (status_of s p) eqn:Hst; [by apply fail_ok in Hrun|..].
    + rewrite bind_ok in Hrun. destruct Hrun as (u1 & s1 & Hprov & Hrun).
      eapply convert_to_enabled_inv; [exact Hrun|]. by eapply do_add_provision_inv.
    + by eapply do_add_liquidity_inv.
  - unfold remove_liquidity in Hrun. rewrite transactional_ok in Hrun.
    rewrite bind_ok in Hrun. destruct Hrun as (who & s1 & Hw & Hrun).
    apply signed_not_dex in Hw as [Hw ->]. by eapply do_remove_liquidity_inv.
  - by eapply list_trading_pair_inv.
  - eapply enable_trading_pair_inv; [|done..].
    intros ->. unfold currency_eqb in Hargs. by rewrite bool_decide_eq_true_2 in Hargs.
  - by eapply disable_trading_pair_inv.
Qed.

Lemma run_call_transactional o c : exists m, run_call o c = transactional m.
Proof. destruct c; by eexists. Qed.

End Safety.
