(* ===== verification/DexTheorems.v ===== *)
(** * What the DEX promises

    The properties of the DEX calls: solvency of every reachable state, roll-back of
    failed calls, the life cycle of a trading pair, what a swap pays, what liquidity
    providers get and give up. Their witnesses are in [DexExamples]. *)

From S2P Require Import Prelude Currency Externals Dex DexPricing DexSafety.

Section Theorems.
Context {L X AccountId Origin : Type} `{Countable AccountId}.
Context `{!MultiCurrency L X AccountId} `{!FrameSystem L AccountId} `{!DEXIncentives L X AccountId}.
Context `{F : FixedPoint} `{U : U256Ops}.
Variable cfg : Config L X AccountId Origin.

Abbreviation St := (State L AccountId).
Abbreviation dex := (dex_account cfg).

(** ** Reachable states *)

Definition fresh (s : St) : Prop :=
  liquidity_pool s = ∅ /\ trading_pair_statuses s = ∅ /\ provisioning_pool s = ∅.

(** A chain starts without pairs; then calls are dispatched, whatever their outcome and
    whoever sends them, but for the enabling of a pair of one currency with itself by the
    governance; and the other pallets run without taking from the DEX's account. *)
Inductive reachable : St -> Prop :=
| reachable_genesis s : fresh s -> reachable s
| reachable_call o c s :
    reachable s -> typed_amounts c = true -> enables_self_pair c = false -> reachable (run_call cfg o c s).2
| reachable_chain s l :
    reachable s -> (forall c, held cfg c s <= held cfg c (set_chain l s)) -> reachable (set_chain l s).

Section Laws.
Context `{!MultiCurrencyLaws L X AccountId} `{!DEXIncentivesLaws L X AccountId}.
Context `{!FixedPointLaws F} `{!U256Laws U}.

Lemma fresh_inv (s : St) : fresh s -> dex_inv cfg s.
Proof.
  intros (E1 & E2 & E3).
  assert (forall p, status_of s p = NotEnabled) as Hst by (intros p; unfold status_of; by rewrite E2).
  split.
  - intros p. by rewrite Hst.
  - intros p v. by rewrite E1.
  - intros k v. by rewrite E3.
  - intros p pp b. by rewrite Hst.
  - intros c. unfold reserved. rewrite E1, E3, !map_sum_empty. apply mc_free_nonneg.
Qed.

Lemma reachable_dex_inv (s : St) :
  (forall o, signed_by cfg o <> Some dex) -> keeps_dust dex = true -> pays_rewards dex = false ->
  (forall l, storage_order cfg l ≡ₚ l) ->
  in_uint 32 (exchange_fee cfg).1 /\ in_uint 32 (exchange_fee cfg).2 ->
  trading_path_limit cfg <= 3 -> mapping_keeps_balances cfg ->
  reachable s -> dex_inv cfg s.
Proof.
  intros Hkey Hdust Hvault Horder Hfee Hlimit Hmap Hr. induction Hr as [s Hf|o c s _ IH Hty Hself|s l _ IH Hh].
  - by apply fresh_inv.
  - destruct (run_call cfg o c s) as [r s'] eqn:Hrun. simpl.
    assert ((exists u, r = Ok u) \/ forall u, r <> Ok u) as [[u ->]|Hr]
      by (destruct r; [left; eauto|right; done..]).
    + eapply run_call_inv; [done..|unfold call_ok_args; by rewrite Hty, Hself|done|by apply IH].
    + destruct (run_call_transactional cfg o c) as [m Hm]. rewrite Hm in Hrun.
      apply transactional_rollback in Hrun as ->; done.
  - by apply chain_held_inv.
Qed.

(** C1: solvency. In every state the chain can reach by dispatching calls to the DEX
    (successful or not, in any order, of anyone) the reserves of all pools and the
    contributions still being provisioned, added up per currency, never exceed what the
    pallet's account holds in that currency; pools are only ever made of two different
    exchangeable currencies and their amounts fit in [u128]; and the provision
    accumulated for a pair is covered by the contributions recorded for it. The one call
    left out is the governance enabling a pair of a currency with itself, which the code
    does not refuse and after which the reserves do exceed the holdings. The account of
    the pallet has no key, is exempt from the removal of dust, is no reward vault, and
    the other pallets take nothing from it, nor does registering an ERC20 contract; a path
    has at most three currencies and the two numbers of the fee are [u32]. *)
Theorem reachable_solvent (s : St) :
  (forall o, signed_by cfg o <> Some dex) -> keeps_dust dex = true -> pays_rewards dex = false ->
  (forall l, storage_order cfg l ≡ₚ l) ->
  in_uint 32 (exchange_fee cfg).1 /\ in_uint 32 (exchange_fee cfg).2 ->
  trading_path_limit cfg <= 3 -> mapping_keeps_balances cfg ->
  reachable s -> dex_inv cfg s.
Proof. apply reachable_dex_inv. Qed.

End Laws.

(** All or nothing. A call that returns an error, or panics, leaves the storage of
    the pallet and of the chain exactly as it was. *)
Theorem failed_call_rolls_back (o : Origin) (c : dex_call) (s s' : St) r :
  run_call cfg o c s = (r, s') -> (forall u, r <> Ok u) -> s' = s.
Proof.
  intros Hrun Hr. destruct (run_call_transactional cfg o c) as [m Hm]. rewrite Hm in Hrun.
  by eapply transactional_rollback.
Qed.

(** ** The life cycle of a pair *)

Inductive status_step : TradingPairStatus -> TradingPairStatus -> Prop :=
| step_list pp : accumulated_provision pp = (0, 0) -> status_step NotEnabled (Provisioning pp)
| step_enable : status_step NotEnabled Enabled
| step_contribute pp v :
    ((min_contribution pp).1 <=? v.1) || ((min_contribution pp).2 <=? v.2) = true ->
    status_step (Provisioning pp)
      (Provisioning (MkProvision (min_contribution pp) (target_provision pp)
         (sat_add 128 (accumulated_provision pp).1 v.1, sat_add 128 (accumulated_provision pp).2 v.2)
         (not_before pp)))
| step_convert pp now : can_enable now pp = true -> status_step (Provisioning pp) Enabled
| step_disable st : st <> NotEnabled -> status_step st NotEnabled.

(** Calls that do not touch the statuses. *)
Definition same_statuses (s s' : St) : Prop := trading_pair_statuses s' = trading_pair_statuses s.

#[local] Instance same_statuses_preorder : PreOrder same_statuses.
Proof.
  split; [done|]. intros s1 s2 s3 E1 E2. unfold same_statuses in *. congruence.
Qed.

Lemma call_statuses {A : Type} (m : M L X A) : keeps same_statuses (@call L X AccountId _ _ A m).
Proof. intros s a s' Hc. by apply call_ok in Hc as (l & _ & ->). Qed.

Lemma event_statuses e : keeps same_statuses (@deposit_event L X AccountId _ _ e).
Proof. by apply keeps_modify. Qed.

Lemma set_pool_statuses f :
  keeps same_statuses (@modify (State L AccountId) (DexError + X) (set_pool f)).
Proof. by apply keeps_modify. Qed.

Lemma set_provisions_statuses f :
  keeps same_statuses (@modify (State L AccountId) (DexError + X) (set_provisions f)).
Proof. by apply keeps_modify. Qed.

Lemma swap_statuses path amounts :
  keeps same_statuses (@modify (State L AccountId) (DexError + X) (swap_by_path path amounts)).
Proof. apply keeps_modify. intros s. apply swap_by_path_frame. Qed.

#[local] Hint Resolve call_statuses event_statuses set_pool_statuses set_provisions_statuses
  swap_statuses : keeps.

Lemma set_erc20_statuses c : keeps same_statuses (set_erc20_mapping_of cfg c).
Proof. destruct c; simpl; auto with keeps typeclass_instances. Qed.

#[local] Hint Resolve set_erc20_statuses : keeps.

Lemma do_swap_supply_statuses who path x mn lim :
  keeps same_statuses (do_swap_with_exact_supply cfg who path x mn lim).
Proof. unfold do_swap_with_exact_supply. keeps_tac. Qed.

Lemma do_swap_target_statuses who path y mx lim :
  keeps same_statuses (do_swap_with_exact_target cfg who path y mx lim).
Proof. unfold do_swap_with_exact_target. keeps_tac. Qed.

Lemma do_add_liquidity_statuses who a b ma mb mn d :
  keeps same_statuses (do_add_liquidity cfg who a b ma mb mn d).
Proof. unfold do_add_liquidity. keeps_tac. Qed.

Lemma do_remove_liquidity_statuses who a b sh ma mb bw :
  keeps same_statuses (do_remove_liquidity cfg who a b sh ma mb bw).
Proof. unfold do_remove_liquidity. keeps_tac. Qed.

Lemma issue_statuses p lp acc es : forall total,
  keeps same_statuses (issue_provision_shares p lp acc total es).
Proof.
  assert (forall total e, keeps same_statuses (issue_provision_share lp acc total e)) as Hone.
  { intros total e s a s' Hrun. unfold issue_provision_share in Hrun. cbv zeta in Hrun.
    rewrite bind_ok in Hrun. destruct Hrun as (r & s1 & H1 & Hrun). run_inv Hrun.
    apply try_run_ok in H1. transitivity s1; [|done].
    destruct r; [by apply call_statuses in H1|].
    destruct H1 as [err H1]. by apply call_err in H1 as (y & l & _ & ->). }
  induction es as [|e es IH]; intros total; simpl; keeps_tac.
Qed.

#[local] Hint Resolve do_swap_supply_statuses do_swap_target_statuses do_add_liquidity_statuses
  do_remove_liquidity_statuses issue_statuses : keeps.

Lemma refund_statuses p e : keeps same_statuses (refund_provision cfg p e).
Proof. unfold refund_provision. keeps_tac. by apply keeps_modify. Qed.

Lemma drain_statuses p : keeps same_statuses (drain_prefix cfg p (refund_provision cfg p)).
Proof. unfold drain_prefix. keeps_tac. apply refund_statuses. Qed.

Definition statuses_step (s s' : St) : Prop := forall q, rtc status_step (status_of s q) (status_of s' q).

#[local] Instance statuses_step_preorder : PreOrder statuses_step.
Proof.
  split; [intros s q; reflexivity|]. intros s1 s2 s3 H1 H2 q. by transitivity (status_of s2 q).
Qed.

Lemma same_statuses_step {A : Type} (m : M (State L AccountId) (DexError + X) A) :
  keeps same_statuses m -> keeps statuses_step m.
Proof.
  intros Hm s a s' Hrun q. apply Hm in Hrun. unfold status_of. by rewrite Hrun.
Qed.

Lemma set_status_step p st (s : St) :
  status_step (status_of s p) st -> statuses_step s (set_statuses <[p := st]> s).
Proof.
  intros Hst q. unfold status_of in *. simpl.
  destruct (decide (p = q)) as [->|Hne]; [rewrite lookup_insert_eq|by rewrite lookup_insert_ne].
  by apply rtc_once.
Qed.

Lemma set_status_after p st (s s1 s2 : St) e u :
  same_statuses s s1 -> status_step (status_of s p) st ->
  @deposit_event L X AccountId _ _ e (set_statuses <[p := st]> s1) = (Ok u, s2) -> statuses_step s s2.
Proof.
  intros Hs Hst He. apply event_statuses in He. pose proof (set_status_step p st s Hst) as Hq.
  intros q. specialize (Hq q). unfold status_of in *. rewrite He. simpl in *. by rewrite Hs.
Qed.

Lemma is_not_enabled_true st : is_not_enabled st = true -> st = NotEnabled.
Proof. by destruct st. Qed.

Lemma list_trading_pair_step o a b m1 m2 t1 t2 nb :
  keeps statuses_step (list_trading_pair cfg o a b m1 m2 t1 t2 nb).
Proof.
  intros s u s' Hrun. unfold list_trading_pair, ensure_listing_origin in Hrun. cbv zeta in Hrun.
  run_step Hrun. apply set_erc20_statuses in R, R6. apply is_not_enabled_true in R4.
  refine (set_status_after _ _ _ _ _ _ _ _ _ Hrun); [|rewrite R4; by constructor].
  by transitivity x6.
Qed.

Lemma enable_trading_pair_step o a b : keeps statuses_step (enable_trading_pair cfg o a b).
Proof.
  intros s u s' Hrun. unfold enable_trading_pair, ensure_listing_origin in Hrun.
  run_step Hrun. apply is_not_enabled_true in R2.
  refine (set_status_after _ _ _ _ _ _ _ _ _ Hrun); [done|rewrite R2; by constructor].
Qed.

Lemma disable_trading_pair_step o a b : keeps statuses_step (disable_trading_pair cfg o a b).
Proof.
  intros s u s' Hrun. unfold disable_trading_pair, ensure_listing_origin in Hrun.
  rewrite transactional_ok in Hrun.
  rewrite bind_ok in Hrun. destruct Hrun as (u0 & s0 & H0 & Hrun). apply ensure_ok in H0 as [_ ->].
  rewrite bind_ok in Hrun. destruct Hrun as (p & s0 & Hp & Hrun). apply ok_or_ok in Hp as [Hp ->].
  rewrite bind_ok in Hrun. destruct Hrun as (st & s0 & Hst & Hrun). apply gets_ok in Hst as [-> ->].
  destruct (status_of s p) as [|pp|] eqn:Hst; [by apply fail_ok in Hrun|..].
  - rewrite bind_ok in Hrun. destruct Hrun as (u1 & s1 & H1 & Hrun). apply drain_statuses in H1.
    rewrite bind_ok in Hrun. destruct Hrun as (u2 & s2 & H2 & Hrun). apply modify_ok in H2 as ->.
    apply event_statuses in Hrun. intros q. unfold status_of in *. rewrite Hrun. simpl. rewrite H1.
    destruct (decide (p = q)) as [->|Hne]; [rewrite lookup_delete_eq|by rewrite lookup_delete_ne].
    apply rtc_once. rewrite Hst. by constructor.
  - rewrite bind_ok in Hrun. destruct Hrun as (u2 & s2 & H2 & Hrun). apply modify_ok in H2 as ->.
    refine (set_status_after _ _ _ _ _ _ _ _ _ Hrun); [done|rewrite Hst; by constructor].
Qed.

Lemma do_add_provision_step who a b ca cb : keeps statuses_step (do_add_provision cfg who a b ca cb).
Proof.
  intros s u s' Hrun. unfold do_add_provision in Hrun. cbv zeta in Hrun.
  set (p := TradingPair_new a b) in *.
  rewrite bind_ok in Hrun. destruct Hrun as (st & s0 & Hst & Hrun). apply gets_ok in Hst as [-> ->].
  destruct (status_of s p) as [|pp|] eqn:Hst; [by apply fail_ok in Hrun| |by apply fail_ok in Hrun].
  set (v := in_pair_order a p ca cb) in *.
  rewrite bind_ok in Hrun. destruct Hrun as (u1 & s0 & Hc & Hrun). apply ensure_ok in Hc as [Hc ->].
  rewrite bind_ok in Hrun. destruct Hrun as (mp & s0 & Hm & Hrun). apply gets_ok in Hm as [-> ->].
  rewrite bind_ok in Hrun. destruct Hrun as (u2 & s1 & H1 & Hrun). apply call_statuses in H1.
  rewrite bind_ok in Hrun. destruct Hrun as (u3 & s2 & H2 & Hrun). apply call_statuses in H2.
  rewrite bind_ok in Hrun. destruct Hrun as (u4 & s3 & H3 & Hrun).
  assert (same_statuses s2 s3) as H3'.
  { destruct (provisioning_pool s !! _); [by apply ret_ok in H3 as [_ ->]|].
    apply modify_ok in H3 as ->. by destruct (inc_consumers _ _). }
  rewrite bind_ok in Hrun. destruct Hrun as (u5 & s4 & H4 & Hrun). apply modify_ok in H4 as ->.
  assert (same_statuses s s3) as Hs by (unfold same_statuses in *; congruence).
  assert (status_of s3 p = Provisioning pp) as Hst3 by (unfold status_of in *; by rewrite Hs).
  transitivity (set_statuses <[p := Provisioning
    (MkProvision (min_contribution pp) (target_provision pp)
       (sat_add 128 (accumulated_provision pp).1 v.1, sat_add 128 (accumulated_provision pp).2 v.2)
       (not_before pp))]> s3).
  - transitivity s3; [intros q; unfold status_of; by rewrite Hs|].
    apply set_status_step. rewrite Hst3. by constructor.
  - revert Hrun. apply (same_statuses_step (do! _ in _)). keeps_tac.
Qed.

Lemma convert_to_enabled_step p : keeps statuses_step (convert_to_enabled_if_possible cfg p).
Proof.
  intros s u s' Hrun. unfold convert_to_enabled_if_possible in Hrun. cbv zeta in Hrun.
  rewrite bind_ok in Hrun. destruct Hrun as (st & s0 & Hst & Hrun). apply gets_ok in Hst as [-> ->].
  destruct (status_of s p) as [|pp|] eqn:Hst; [by apply ret_ok in Hrun as [_ ->]| |by apply ret_ok in Hrun as [_ ->]].
  rewrite bind_ok in Hrun. destruct Hrun as (now & s0 & Hn & Hrun). apply gets_ok in Hn as [-> ->].
  destruct (can_enable _ pp) eqn:Hcan; [|by apply ret_ok in Hrun as [_ ->]].
  rewrite bind_ok in Hrun. destruct Hrun as (lp & s0 & Hlp & Hrun). apply expect_ok in Hlp as [_ ->].
  rewrite bind_ok in Hrun. destruct Hrun as (es & s0 & He & Hrun). apply gets_ok in He as [-> ->].
  rewrite bind_ok in Hrun. destruct Hrun as (t & s1 & H1 & Hrun). apply issue_statuses in H1.
  rewrite bind_ok in Hrun. destruct Hrun as (u1 & s2 & H2 & Hrun). apply modify_ok in H2 as ->.
  rewrite bind_ok in Hrun. destruct Hrun as (u2 & s2 & H2 & Hrun). apply modify_ok in H2 as ->.
  apply event_statuses in Hrun. intros q.
  transitivity (status_of (set_statuses <[p := Enabled]> s) q).
  - apply set_status_step. rewrite Hst. by eapply step_convert.
  - unfold status_of. rewrite Hrun. simpl. by rewrite H1.
Qed.

#[local] Hint Resolve list_trading_pair_step enable_trading_pair_step disable_trading_pair_step
  do_add_provision_step convert_to_enabled_step same_statuses_step : keeps.

(** The life cycle of a trading pair. Whatever call succeeds, the status of every
    pair moves along the documented transitions: listed or enabled from not-enabled,
    contributions accumulating under unchanged parameters, enabled out of
    provisioning only when the targets and the start block allow it, and back to
    not-enabled by disabling. *)
Theorem status_life_cycle (o : Origin) (c : dex_call) (s s' : St) u (q : TradingPair) :
  run_call cfg o c s = (Ok u, s') -> rtc status_step (status_of s q) (status_of s' q).
Proof.
  assert (keeps statuses_step (run_call cfg o c)) as Hk; [|intros Hrun; apply (Hk _ _ _ Hrun)].
  destruct c; simpl.
  - unfold swap_with_exact_supply, ensure_signed. keeps_tac.
  - unfold swap_with_exact_target, ensure_signed. keeps_tac.
  - unfold add_liquidity, ensure_signed. keeps_tac.
  - unfold remove_liquidity, ensure_signed. keeps_tac.
  - auto with keeps.
  - auto with keeps.
  - auto with keeps.
Qed.

(** ** Swaps *)

Section Swaps.
Context `{!MultiCurrencyLaws L X AccountId} `{!U256Laws U}.

(** A swap with exact supply delivers. On success the trader asked for a route the
    DEX quotes, is paid exactly the quoted amount, which is at least the minimum he
    set, his balance in the last currency of the path grows by at least that, and no
    other currency of his than the first one went down. *)
Theorem swap_with_exact_supply_pays who path x mn lim (s s' : St) y a b :
  do_swap_with_exact_supply cfg who path x mn lim s = (Ok y, s') ->
  who <> dex -> head path = Some a -> last path = Some b -> a <> b ->
  get_swap_target_amount cfg s path x lim = Some y /\ mn <= y
  /\ mc_free_balance b who (chain s) + y <= mc_free_balance b who (chain s')
  /\ (forall c, c <> a -> mc_free_balance c who (chain s) <= mc_free_balance c who (chain s'))
  /\ last (events s') = Some (Swap who path x y).
Proof.
  unfold do_swap_with_exact_supply. intros Hrun Hwho Ha Hb Hne. run_step Hrun.
  rewrite R3 in Ha. rewrite R4 in Hb. simplify_eq.
  apply event_state in R6 as ->. apply call_ok in R as (l1 & Ht1 & ->), R5 as (l2 & Ht2 & ->).
  destruct (swap_by_path_frame path x0 (set_chain l1 s)) as (_ & _ & Ec & _).
  simpl in *. rewrite Ec in Ht2. simpl in Ht2. destruct x5, x8. bool_inv.
  split_and!.
  - unfold get_swap_target_amount. by rewrite R0.
  - done.
  - rewrite <- (mc_transfer_other_currency _ _ _ _ _ _ b who Ht1) by done.
    by apply (mc_transfer_receiver _ _ _ _ _ _ Ht2).
  - intros c Hc. rewrite <- (mc_transfer_other_currency _ _ _ _ _ _ c who Ht1) by done.
    destruct (decide (c = b)) as [->|Hcb].
    + by apply (mc_transfer_bystander _ _ _ _ _ _ who Ht2).
    + by rewrite (mc_transfer_other_currency _ _ _ _ _ _ c who Ht2).
  - by rewrite last_snoc.
Qed.

(** The pool a swap between two currencies leaves behind. *)
Lemma swap_pools_one_hop a b x y (s : St) :
  a <> b -> valid_pair (TradingPair_new a b) = true ->
  get_liquidity (swap_by_path [a; b] [x; y] s) a b =
    (sat_add 128 (get_liquidity s a b).1 x, sat_sub (get_liquidity s a b).2 y)
  /\ forall q, q <> TradingPair_new a b -> pool_of (swap_by_path [a; b] [x; y] s) q = pool_of s q.
Proof.
  intros Hne Hv. simpl. split; [by apply swap_pool_liquidity|]. intros q Hq.
  rewrite swap_pool_eq by done. by apply pool_of_set_ne.
Qed.

(** The quote for one hop. *)
Lemma one_hop_quote (s : St) a b x lim amounts :
  dex_inv cfg s -> get_target_amounts cfg s [a; b] x lim = Ok amounts ->
  let pools := get_liquidity s a b in
  let y := get_target_amount cfg pools.1 pools.2 x in
  a <> b /\ valid_pair (TradingPair_new a b) = true /\ pair_u128 pools
  /\ y <> 0 /\ amounts = [x; y].
Proof.
  intros Hi Hq. unfold get_target_amounts in Hq. rewrite obind_ok in Hq. destruct Hq as (u & _ & Hq).
  simpl in Hq. rewrite obind_ok in Hq. destruct Hq as (pools & Hh & Hq).
  apply (hop_liquidity_ok cfg) in Hh as (Hne & Hv & -> & Hu); [|done].
  destruct (get_liquidity s a b) as [S T]. run_step Hq. bool_inv. by simplify_eq.
Qed.

(** C18: a trade never costs the liquidity providers. A swap with exact supply between
    two currencies, in a state the invariant describes, takes the supply into the pool
    and the quoted amount out of it, strictly less than the reserve; the product of
    the two reserves does not fall, and no other pool moves. *)
Theorem swap_keeps_product who a b x mn lim (s s' : St) y :
  in_uint 32 (exchange_fee cfg).1 /\ in_uint 32 (exchange_fee cfg).2 ->
  dex_inv cfg s -> in_uint 128 x ->
  (get_liquidity s a b).1 + x <= umax 128 ->
  do_swap_with_exact_supply cfg who [a; b] x mn lim s = (Ok y, s') ->
  let before := get_liquidity s a b in
  let after := get_liquidity s' a b in
  after = (before.1 + x, before.2 - y) /\ 0 < y < before.2
  /\ before.1 * before.2 <= after.1 * after.2
  /\ forall q, q <> TradingPair_new a b -> pool_of s' q = pool_of s q.
Proof.
  intros Hfee Hi Hx Hfit Hrun before after. unfold do_swap_with_exact_supply in Hrun. run_step Hrun.
  apply event_state in R6. apply call_ok in R as (l1 & _ & ->), R5 as (l2 & _ & ->).
  apply one_hop_quote in R0 as (Hne & Hv & [Hs Ht] & Hy & ->); [|done].
  fold before in Hfit, Hs, Ht, Hy, R1, R6. simpl in R1. injection R1 as <-.
  destruct (get_target_amount_product cfg Hfee _ _ x Hs Ht Hx) as (Hprod & Hpos & _).
  pose proof (get_target_amount_range cfg Hfee _ _ x Hs Ht Hx) as Hrange.
  assert (before.1 <> 0 /\ before.2 <> 0) as [Hs0 Ht0].
  { unfold get_target_amount in Hy. destruct (_ || _) eqn:E in Hy; [done|]. by bool_inv. }
  set (y := get_target_amount _ _ _ _) in *.
  destruct (swap_pools_one_hop a b x y (set_chain l1 s) Hne Hv) as [Hpool Hother].
  change (get_liquidity (set_chain l1 s) a b) with before in Hpool.
  assert (after = (before.1 + x, before.2 - y)) as ->.
  { unfold after. subst x11. rewrite sat_add_exact, sat_sub_exact in Hpool by lia. exact Hpool. }
  assert (0 < before.1 * before.2) as Hpp by (unfold in_uint in *; apply Z.mul_pos_pos; lia).
  assert (y < before.2) as Hlt.
  { destruct (Z.lt_ge_cases y before.2) as [|Hge]; [done|].
    replace (before.2 - y) with 0 in Hprod by lia. lia. }
  simpl. split_and!; [done|lia|done|exact Hprod|]. intros q Hq. subst x11. apply (Hother q Hq).
Qed.

End Swaps.

(** A quote that fails is the error of the swap. *)
Lemma swap_quote_error who path x mn lim (s : St) e :
  get_target_amounts cfg s path x lim = Err e ->
  do_swap_with_exact_supply cfg who path x mn lim s = (Err e, s).
Proof.
  intros Hq. unfold do_swap_with_exact_supply, transactional, bind at 1, reads. by rewrite Hq.
Qed.

Lemma oensure_false {E : Type} (b : bool) (e : E) : b = false -> oensure b e = Err e.
Proof. by intros ->. Qed.

Lemma check_path_length_ok (path : list CurrencyId) :
  2 <= Z.of_nat (length path) <= trading_path_limit cfg ->
  check_path_length cfg path = @Ok (DexError + X) unit tt.
Proof.
  intros [H1 H2]. unfold check_path_length, oensure. cbv zeta.
  apply Z.leb_le in H1, H2. by rewrite H1, H2.
Qed.

(** What a route must satisfy. Quotes, and therefore swaps, refuse a path shorter
    than two currencies or longer than the limit, a hop through a pair that is not
    enabled, and a pool with an empty side; and a refused swap moves nothing. *)
Theorem swap_refusals who path x mn lim (s : St) :
  (Z.of_nat (length path) < 2 \/ trading_path_limit cfg < Z.of_nat (length path) ->
   do_swap_with_exact_supply cfg who path x mn lim s = (Err (inl InvalidTradingPathLength), s))
  /\ (forall a b rest, path = a :: b :: rest ->
      2 <= Z.of_nat (length path) <= trading_path_limit cfg ->
      (status_of s (TradingPair_new a b) <> Enabled ->
       do_swap_with_exact_supply cfg who path x mn lim s = (Err (inl MustBeEnabled), s))
      /\ (status_of s (TradingPair_new a b) = Enabled ->
          (get_liquidity s a b).1 = 0 \/ (get_liquidity s a b).2 = 0 ->
          do_swap_with_exact_supply cfg who path x mn lim s = (Err (inl InsufficientLiquidity), s))).
Proof.
  split.
  - intros Hlen. apply swap_quote_error. unfold get_target_amounts, check_path_length. cbv zeta.
    rewrite oensure_false; [done|]. apply not_true_is_false. intros E. bool_inv. lia.
  - intros a b rest -> Hlen.
    pose proof (check_path_length_ok _ Hlen) as Hok.
    assert (forall e : DexError + X, hop_liquidity s a b = Err e ->
              get_target_amounts cfg s (a :: b :: rest) x lim = Err e) as Hhop.
    { intros e He. unfold get_target_amounts. rewrite Hok. simpl. by rewrite He. }
    split; intros Hst; [|intros Hz]; apply swap_quote_error, Hhop; unfold hop_liquidity.
    + by destruct (status_of s _).
    + rewrite Hst. cbv zeta. simpl. rewrite oensure_false; [done|].
      apply not_true_is_false. intros E. bool_inv. lia.
Qed.

(** ** Liquidity *)

Section Liquidity.
Context `{!MultiCurrencyLaws L X AccountId} `{!FixedPointLaws F}.

(** Adding liquidity never dilutes. When a pool already has shares, the shares
    issued for an increment are at most the smaller of the two proportions of the
    increment to the reserve: [shares / total <= increment / reserve] on both sides,
    so the value behind every existing share does not fall. *)
Theorem liquidity_increments_no_dilution total (pool amount : Balance * Balance) i0 i1 sh :
  0 < total -> 0 <= pool.1 -> 0 <= pool.2 -> 0 <= amount.1 -> 0 <= amount.2 ->
  liquidity_increments total pool amount = (i0, i1, sh) ->
  sh <> 0 -> sh * pool.1 <= i0 * total /\ sh * pool.2 <= i1 * total.
Proof.
  intros Ht Hp0 Hp1 Ha0 Ha1 Hinc Hsh. unfold liquidity_increments in Hinc.
  destruct (Z.eqb_spec total 0); [lia|]. cbv zeta in Hinc. destruct (fp_leb _ _); simplify_eq.
  - pose proof (ratio_mul_le pool.1 pool.2 amount.2 Hp0 Hp1 Ha1) as H1.
    set (i0 := fp_saturating_mul_int _ _) in *.
    assert (0 <= i0) as H0 by (by apply fp_mul_nonneg).
    pose proof (ratio_checked_mul_le i0 pool.1 total H0 Hp0 ltac:(lia)) as H2.
    split; [done|].
    destruct (fp_checked_from_rational i0 pool.1) as [r|] eqn:E; [|done].
    apply fp_from_rational_floor in E as [Hpos _]; [|done..]. nia.
  - pose proof (ratio_mul_le pool.2 pool.1 amount.1 Hp1 Hp0 Ha0) as H1.
    set (i1 := fp_saturating_mul_int _ _) in *.
    assert (0 <= i1) as H0 by (by apply fp_mul_nonneg).
    pose proof (ratio_checked_mul_le i1 pool.2 total H0 Hp1 ltac:(lia)) as H2.
    split; [|done].
    destruct (fp_checked_from_rational i1 pool.2) as [r|] eqn:E; [|done].
    apply fp_from_rational_floor in E as [Hpos _]; [|done..]. nia.
Qed.

(** Removing liquidity is proportional. On success the pool gives up, on each side,
    at most the part of the reserve that the burnt shares are of all shares, and at
    least the minimum the caller set; nothing happens to the other pools. *)
Theorem do_remove_liquidity_proportional who a b share ma mb bw (s s' : St) u lp :
  do_remove_liquidity cfg who a b share ma mb bw s = (Ok u, s') ->
  0 < share -> dex_inv cfg s ->
  get_dex_share_currency_id (TradingPair_new a b) = Some lp ->
  let p := TradingPair_new a b in
  let total := mc_total_issuance lp (chain s) in
  let mins := in_pair_order a p ma mb in
  exists d0 d1, pool_of s' p = (sat_sub (pool_of s p).1 d0, sat_sub (pool_of s p).2 d1)
    /\ 0 <= d0 /\ 0 <= d1 /\ mins.1 <= d0 /\ mins.2 <= d1
    /\ d0 * total <= share * (pool_of s p).1 /\ d1 * total <= share * (pool_of s p).2
    /\ forall q, q <> p -> pool_of s' q = pool_of s q.
Proof.
  intros Hrun Hshare Hi Hlp p total mins. unfold do_remove_liquidity in Hrun. cbv zeta in Hrun.
  rewrite transactional_ok in Hrun. destruct (Z.eqb_spec share 0); [lia|].
  rewrite bind_ok in Hrun. destruct Hrun as (p' & s0 & Hp & Hrun). apply ok_or_ok in Hp as [Hp ->].
  apply from_token_currency_ids_Some in Hp as ->. fold p in Hrun, Hlp.
  rewrite Hlp in Hrun. rewrite bind_ok in Hrun. destruct Hrun as (lp' & s0 & Hlp' & Hrun).
  apply ok_or_ok in Hlp' as [[= ->] ->].
  rewrite bind_ok in Hrun. destruct Hrun as (pool & s0 & Hpl & Hrun). apply gets_ok in Hpl as [-> ->].
  rewrite bind_ok in Hrun. destruct Hrun as (tot & s0 & Ht & Hrun). apply gets_ok in Ht as [-> ->].
  fold total mins in Hrun.
  pose proof (inv_pool_u128 cfg s p Hi) as [P1 P2]. unfold in_uint in P1, P2.
  assert (0 <= total) as Htot by apply mc_issuance_nonneg.
  pose proof (ratio_mul_le share total (pool_of s p).1 ltac:(lia) Htot ltac:(lia)) as D0.
  pose proof (ratio_mul_le share total (pool_of s p).2 ltac:(lia) Htot ltac:(lia)) as D1.
  set (r := fp_or_default _) in *.
  pose proof (fp_mul_nonneg r (pool_of s p).1 ltac:(lia)) as N0.
  pose proof (fp_mul_nonneg r (pool_of s p).2 ltac:(lia)) as N1.
  set (d0 := fp_saturating_mul_int r (pool_of s p).1) in *.
  set (d1 := fp_saturating_mul_int r (pool_of s p).2) in *.
  rewrite bind_ok in Hrun. destruct Hrun as (u1 & s0 & Hmin & Hrun). apply ensure_ok in Hmin as [Hmin ->].
  bool_inv. exists d0, d1.
  rewrite bind_ok in Hrun. destruct Hrun as (u2 & s1 & R1 & Hrun).
  assert (liquidity_pool s1 = liquidity_pool s) as E1.
  { destruct bw; [by apply call_ok in R1 as (l & _ & ->)|by apply ret_ok in R1 as [_ ->]]. }
  run_step Hrun. apply call_ok in R as (l1 & _ & ->), R0 as (l2 & _ & ->), R2 as (l3 & _ & ->).
  apply event_state in R3. subst. unfold pool_of. simpl. rewrite E1. split_and!; try done.
  - by rewrite lookup_insert_eq.
  - intros q Hq. by rewrite lookup_insert_ne.
Qed.

(** What enabling a provisioned pair does to its pool. The first reserve gets the
    provision, but the second one is computed by a saturating subtraction where an
    addition is meant: from an empty pool the second side of the provision is dropped,
    and the enabled pair refuses every swap. *)
Theorem provisioning_drops_second_side (p : TradingPair) pp (s s' : St) u :
  convert_to_enabled_if_possible cfg p s = (Ok u, s') ->
  status_of s p = Provisioning pp -> can_enable (block_number (chain s)) pp = true ->
  pair_u128 (accumulated_provision pp) -> liquidity_pool s !! p = None ->
  (forall k v, provisioning_pool s !! k = Some v -> pair_u128 v) ->
  storage_order cfg = (fun l => l) -> TradingPair_new (pair_0 p) (pair_1 p) = p ->
  status_of s' p = Enabled
  /\ pool_of s' p = ((accumulated_provision pp).1, 0)
  /\ forall who x mn lim, 2 <= trading_path_limit cfg ->
       do_swap_with_exact_supply cfg who [pair_0 p; pair_1 p] x mn lim s'
       = (Err (inl InsufficientLiquidity), s').
Proof.
  intros Hrun Hst Hcan [A0 A1] Hnone Hprov Horder Hp. unfold in_uint in A0, A1.
  unfold convert_to_enabled_if_possible in Hrun. rewrite bind_ok in Hrun.
  destruct Hrun as (st & s0 & Est & Hrun). apply gets_ok in Est as [-> ->]. rewrite Hst in Hrun.
  rewrite bind_ok in Hrun. destruct Hrun as (now & s0 & Hn & Hrun). apply gets_ok in Hn as [-> ->].
  cbv zeta in Hrun. rewrite Hcan in Hrun.
  rewrite bind_ok in Hrun. destruct Hrun as (lp & s0 & Hlp & Hrun). apply expect_ok in Hlp as [_ ->].
  rewrite bind_ok in Hrun. destruct Hrun as (es & s0 & He & Hrun). apply gets_ok in He as [-> ->].
  rewrite bind_ok in Hrun. destruct Hrun as (t & s1 & H1 & Hrun).
  apply (issue_provision_shares_spec cfg) in H1 as (E1 & _ & _ & _).
  2: { intros e He. unfold provisions_of in He. rewrite Horder, list_elem_of_omap in He.
       destruct He as ([k v] & Hk & Hx). apply elem_of_map_to_list in Hk.
       case_bool_decide; [|done]. simplify_eq. simpl. by eapply Hprov. }
  unfold deposit_event in Hrun. run_inv Hrun.
  match goal with |- context [status_of ?t p] => set (s' := t) end.
  assert (status_of s' p = Enabled) as Hen by (unfold s', status_of; simpl; by rewrite lookup_insert_eq).
  assert (pool_of s' p = ((accumulated_provision pp).1, 0)) as Hpool.
  { unfold s', pool_of. simpl. rewrite lookup_insert_eq, E1, Hnone. simpl.
    rewrite sat_add_exact by lia. f_equal. unfold sat_sub. lia. }
  split_and!; [done..|]. intros who z mn lim Hlim. apply swap_quote_error.
  unfold get_target_amounts. rewrite check_path_length_ok by (split; [reflexivity || done|exact Hlim]).
  simpl. unfold hop_liquidity.
  rewrite Hp, Hen. simpl. unfold get_liquidity. rewrite Hp, Hpool. simpl.
  destruct (currency_eqb _ _); simpl; [|done]. by rewrite andb_false_r.
Qed.

End Liquidity.

End Theorems.
