(* ===== verification/DexExamples.v ===== *)
(** * The DEX on a concrete chain

    A runtime for the DEX pallet (its account, the fee of 0.3%, the path limit of the
    runtimes) over the ledger of [Externals], a run of calls from an empty chain, and the
    theorems of [DexPricing] and [DexTheorems] applied to it. *)

From S2P Require Import Prelude Currency Externals Dex DexPricing DexSafety DexTheorems.

(** Account 100 is the pallet's; origin 0 is the governance, any other a signer. *)
Definition sample_config : Config Ledger LedgerError Z Z :=
  MkConfig 100 3 (3, 1000) (fun l => l)
    (fun o => if (o =? 0) || (o =? 100) then None else Some o) (fun o => o =? 0) BadOrigin
    (fun _ => ret tt) (fun _ _ => None).

Definition DNAR_ID : CurrencyId := Token DNAR.
Definition USDJ_ID : CurrencyId := Token USDJ.

Definition sample_chain : Ledger :=
  MkLedger {[ (DNAR_ID, 1) := 10 ^ 12; (USDJ_ID, 1) := 10 ^ 12; (DNAR_ID, 2) := 1000; (USDJ_ID, 2) := 1000 ]} ∅ ∅ 5.

Definition sample_start : State Ledger Z := MkState ∅ ∅ ∅ [] sample_chain.

Definition sample_run (calls : list (Z * dex_call)) (s : State Ledger Z) : State Ledger Z :=
  fold_left (fun s oc => (run_call sample_config oc.1 oc.2 s).2) calls s.

Definition sample_pair : TradingPair := TradingPair_new DNAR_ID USDJ_ID.

(** The pair is enabled and account 1 provides liquidity. *)
Definition sample_market : State Ledger Z :=
  sample_run [(0, EnablePair DNAR_ID USDJ_ID); (1, AddLiquidityCall DNAR_ID USDJ_ID 100000 400000 0 false)] sample_start.

Lemma sample_keyless o : signed_by sample_config o <> Some (dex_account sample_config).
Proof.
  simpl. destruct ((o =? 0) || (o =? 100)) eqn:E; [done|]. intros [= ->]. done.
Qed.

Lemma sample_vault : pays_rewards (L := Ledger) (X := LedgerError) (dex_account sample_config) = false.
Proof. done. Qed.

Lemma sample_dust : keeps_dust (L := Ledger) (X := LedgerError) (dex_account sample_config) = true.
Proof. done. Qed.

Lemma sample_fee : in_uint 32 (exchange_fee sample_config).1 /\ in_uint 32 (exchange_fee sample_config).2.
Proof. by vm_compute. Qed.

Lemma sample_mapping : mapping_keeps_balances sample_config.
Proof. intros addr l l' [= <-]. done. Qed.

Lemma sample_run_reachable calls s :
  forallb (fun oc => call_ok_args oc.2) calls = true ->
  reachable sample_config s -> reachable sample_config (sample_run calls s).
Proof.
  revert s. induction calls as [|[o c] calls IH]; intros s Hargs Hr; [done|].
  simpl in Hargs. unfold call_ok_args in Hargs. bool_inv. apply IH; [done|]. by apply reachable_call.
Qed.

Lemma sample_run_inv calls s :
  forallb (fun oc => call_ok_args oc.2) calls = true ->
  dex_inv sample_config s -> dex_inv sample_config (sample_run calls s).
Proof.
  revert s. induction calls as [|[o c] calls IH]; intros s Hargs Hi; [done|].
  simpl in Hargs. bool_inv. apply IH; [done|]. cbn [fst snd].
  destruct (run_call sample_config o c s) as [r s'] eqn:Hrun. destruct r as [u|e|]; simpl.
  - eapply run_call_inv; [apply sample_keyless|apply sample_dust|apply sample_vault|done|apply sample_fee
      |vm_compute; discriminate|apply sample_mapping|done|exact Hrun|exact Hi].
  - destruct (run_call_transactional sample_config o c) as [m Hm]. rewrite Hm in Hrun.
    by apply transactional_rollback in Hrun as ->.
  - destruct (run_call_transactional sample_config o c) as [m Hm]. rewrite Hm in Hrun.
    by apply transactional_rollback in Hrun as ->.
Qed.

Lemma sample_start_reachable : reachable sample_config sample_start.
Proof. by apply reachable_genesis. Qed.

Lemma sample_market_reachable : reachable sample_config sample_market.
Proof. apply sample_run_reachable; [by vm_compute|apply sample_start_reachable]. Qed.

Lemma reachable_solvent_witness :
  pool_of sample_market sample_pair = (100000, 400000) /\ dex_inv sample_config sample_market.
Proof.
  split; [vm_compute; reflexivity|].
  apply (reachable_solvent sample_config sample_market sample_keyless sample_dust sample_vault
           (fun l => Permutation_refl l) sample_fee ltac:(vm_compute; discriminate) sample_mapping
           sample_market_reachable).
Defined.

(** Account 2 does not have 5000 DNAR. *)
Definition sample_failure : outcome (DexError + LedgerError) unit * State Ledger Z :=
  run_call sample_config 2 (SwapWithExactSupply [DNAR_ID; USDJ_ID] 5000 0) sample_market.

Lemma failed_call_rolls_back_witness :
  sample_failure.1 = Err (inr BalanceTooLow) /\ sample_failure.2 = sample_market.
Proof.
  split; [vm_compute; reflexivity|].
  refine (failed_call_rolls_back sample_config 2 (SwapWithExactSupply [DNAR_ID; USDJ_ID] 5000 0)
            sample_market sample_failure.2 (Err (inr BalanceTooLow)) _ _);
    [unfold sample_failure; apply outcome_split; vm_compute; reflexivity|discriminate].
Defined.

Definition sample_enable : outcome (DexError + LedgerError) unit * State Ledger Z :=
  run_call sample_config 0 (EnablePair DNAR_ID USDJ_ID) sample_start.

Lemma status_life_cycle_witness :
  status_of sample_start sample_pair = NotEnabled /\ status_of sample_enable.2 sample_pair = Enabled
  /\ rtc status_step (status_of sample_start sample_pair) (status_of sample_enable.2 sample_pair).
Proof.
  split; [vm_compute; reflexivity|]. split; [vm_compute; reflexivity|].
  refine (status_life_cycle sample_config 0 (EnablePair DNAR_ID USDJ_ID) sample_start sample_enable.2 tt
            sample_pair _).
  unfold sample_enable. apply outcome_split. vm_compute. reflexivity.
Defined.

(** A swap of account 2 on the sample market. *)
Definition sample_swap : outcome (DexError + LedgerError) Balance * State Ledger Z :=
  do_swap_with_exact_supply sample_config 2 [DNAR_ID; USDJ_ID] 1000 3000 None sample_market.

Lemma sample_swap_run :
  do_swap_with_exact_supply sample_config 2 [DNAR_ID; USDJ_ID] 1000 3000 None sample_market
  = (Ok 3948, sample_swap.2).
Proof. unfold sample_swap. apply outcome_split. vm_compute. reflexivity. Qed.

Lemma swap_with_exact_supply_pays_witness :
  mc_free_balance USDJ_ID 2 (chain sample_market) + 3948 <= mc_free_balance USDJ_ID 2 (chain sample_swap.2).
Proof.
  destruct (swap_with_exact_supply_pays sample_config 2 [DNAR_ID; USDJ_ID] 1000 3000 None sample_market
           sample_swap.2 3948 DNAR_ID USDJ_ID sample_swap_run ltac:(discriminate) eq_refl eq_refl
           ltac:(discriminate)) as (_ & _ & Hpaid & _).
  exact Hpaid.
Defined.

Lemma sample_market_inv : dex_inv sample_config sample_market.
Proof.
  apply sample_run_inv; [by vm_compute|]. exact (fresh_inv sample_config sample_start (conj eq_refl (conj eq_refl eq_refl))).
Qed.

Lemma sample_market_pools : get_liquidity sample_market DNAR_ID USDJ_ID = (100000, 400000).
Proof. vm_compute. reflexivity. Qed.

Lemma swap_keeps_product_witness :
  get_liquidity sample_swap.2 DNAR_ID USDJ_ID = (100000 + 1000, 400000 - 3948).
Proof.
  destruct (swap_keeps_product sample_config 2 DNAR_ID USDJ_ID 1000 3000 None sample_market sample_swap.2
              3948 sample_fee sample_market_inv) as (Hpool & _).
  - split; vm_compute; discriminate.
  - rewrite sample_market_pools. vm_compute. discriminate.
  - exact sample_swap_run.
  - rewrite sample_market_pools in Hpool. exact Hpool.
Defined.

Lemma sample_quote : get_supply_amount sample_config 100000 400000 3948 = 1000.
Proof. vm_compute. reflexivity. Qed.

Lemma get_supply_amount_buys_witness : 3948 <= get_target_amount sample_config 100000 400000 1000.
Proof.
  pose proof (get_supply_amount_buys sample_config sample_fee 100000 400000 3948) as Hbuys.
  cbv zeta in Hbuys. rewrite sample_quote in Hbuys.
  destruct Hbuys as [Hbuys _]; [..|exact Hbuys]; vm_compute; ((split; discriminate) || discriminate).
Defined.

Lemma swap_refusals_witness :
  do_swap_with_exact_supply sample_config 2 [DNAR_ID] 1000 0 None sample_market
  = (Err (inl InvalidTradingPathLength), sample_market).
Proof.
  apply (swap_refusals sample_config 2 [DNAR_ID] 1000 0 None sample_market). left. simpl. lia.
Defined.

Lemma liquidity_increments_no_dilution_witness :
  liquidity_increments 200000 (100000, 400000) (1000, 5000) = (1000, 4000, 2000)
  /\ 2000 * 100000 <= 1000 * 200000 /\ 2000 * 400000 <= 4000 * 200000.
Proof.
  split; [vm_compute; reflexivity|].
  apply (liquidity_increments_no_dilution 200000 (100000, 400000) (1000, 5000) 1000 4000 2000);
    [lia|simpl; lia..|vm_compute; reflexivity|lia].
Defined.

Definition sample_share : CurrencyId := default DNAR_ID (get_dex_share_currency_id sample_pair).

Definition sample_removal : outcome (DexError + LedgerError) unit * State Ledger Z :=
  do_remove_liquidity sample_config 1 DNAR_ID USDJ_ID 2000 0 0 false sample_market.

Lemma sample_removal_run :
  do_remove_liquidity sample_config 1 DNAR_ID USDJ_ID 2000 0 0 false sample_market = (Ok tt, sample_removal.2).
Proof. unfold sample_removal. apply outcome_split. vm_compute. reflexivity. Qed.

Lemma do_remove_liquidity_proportional_witness :
  exists d0 d1, pool_of sample_removal.2 sample_pair
                = (sat_sub (pool_of sample_market sample_pair).1 d0,
                   sat_sub (pool_of sample_market sample_pair).2 d1).
Proof.
  destruct (do_remove_liquidity_proportional sample_config 1 DNAR_ID USDJ_ID 2000 0 0 false sample_market
              sample_removal.2 tt sample_share sample_removal_run eq_refl sample_market_inv)
    as (d0 & d1 & Hpool & _).
  - vm_compute. reflexivity.
  - exists d0, d1. exact Hpool.
Defined.

(** A pair being provisioned: account 1 gave both sides. *)
Definition sample_provisioned : State Ledger Z :=
  sample_run [(0, ListPair DNAR_ID USDJ_ID 10 10 1000 1000 0)] sample_start.

Definition sample_pp : TradingPairProvisionParameters := MkProvision (10, 10) (1000, 1000) (5000, 20000) 0.

Definition sample_ready : State Ledger Z :=
  MkState ∅ {[ sample_pair := Provisioning sample_pp ]} {[ (sample_pair, 1) := (5000, 20000) ]} [] sample_chain.

Definition sample_converted : outcome (DexError + LedgerError) unit * State Ledger Z :=
  convert_to_enabled_if_possible sample_config sample_pair sample_ready.

Lemma sample_converted_run :
  convert_to_enabled_if_possible sample_config sample_pair sample_ready = (Ok tt, sample_converted.2).
Proof. unfold sample_converted. apply outcome_split. vm_compute. reflexivity. Qed.

Lemma provisioning_drops_second_side_witness :
  pool_of sample_converted.2 sample_pair = (5000, 0)
  /\ do_swap_with_exact_supply sample_config 2 [pair_0 sample_pair; pair_1 sample_pair] 100 0 None
       sample_converted.2 = (Err (inl InsufficientLiquidity), sample_converted.2).
Proof.
  destruct (provisioning_drops_second_side sample_config sample_pair sample_pp sample_ready
              sample_converted.2 tt sample_converted_run) as (_ & Hpool & Hswap).
  - vm_compute. reflexivity.
  - vm_compute. reflexivity.
  - repeat split; vm_compute; discriminate.
  - vm_compute. reflexivity.
  - intros k v Hk. simpl in Hk. apply lookup_singleton_Some in Hk as [_ <-]. repeat split; vm_compute; discriminate.
  - reflexivity.
  - vm_compute. reflexivity.
  - split; [exact Hpool|]. apply Hswap. vm_compute. discriminate.
Defined.

(** The maximum of one side is not always respected. The prices are rounded to 18
    decimals before they are compared, so that in a very unbalanced pool the side with
    room is misjudged: here a caller who allows at most 10^19 of the first currency is
    charged 5 * 10^20. *)
Theorem add_liquidity_exceeds_maximum :
  exists total pool amount i0 i1 sh,
    0 < total /\ pair_u128 pool /\ pair_u128 amount
    /\ @liquidity_increments fixed_u128 total pool amount = (i0, i1, sh)
    /\ sh <> 0 /\ i0 = 50 * amount.1.
Proof.
  exists (10 ^ 21), (10 ^ 21, 10), (10 ^ 19, 5), (5 * 10 ^ 20), 5, (5 * 10 ^ 20).
  repeat split; vm_compute; (reflexivity || discriminate).
Qed.

(** ** A pair of a currency with itself *)

(** The governance enables it, account 1 provides 100000 twice, and swaps through the pool
    and back: the amounts of the two hops are both computed on the pool as it was, the
    second takes out more than is left on its side, and that subtraction saturates. *)
Definition self_market : State Ledger Z :=
  sample_run [(0, EnablePair DNAR_ID DNAR_ID); (1, AddLiquidityCall DNAR_ID DNAR_ID 100000 100000 0 false);
              (1, SwapWithExactSupply [DNAR_ID; DNAR_ID; DNAR_ID] 1000000 0)] sample_start.

(** The account then holds less than the pool records, so [enables_self_pair] cannot be
    dropped from what [reachable_solvent] asks. *)
Example self_pair_is_insolvent :
  enables_self_pair (EnablePair DNAR_ID DNAR_ID) = true
  /\ reserved DNAR_ID self_market = 1190884 /\ held sample_config DNAR_ID self_market = 1152463.
Proof. by vm_compute. Qed.
