(* ===== verification/Incentives.v ===== *)
(** * Incentives: shares of the DEX staked for rewards

    [lib-serml/dex/incentives/src/lib.rs]: shares that are deposited with the pallet count
    in two reward pools, of the DEX currency and of the setter; rewards are issued every
    period and paid out on request. The book-keeping of pools is the third-party pallet
    [orml_rewards] (class [Rewards]). The period itself, whose storage does not type-check
    in the source, is an argument of [accumulate_reward]. *)

From S2P Require Import Prelude Currency Externals.

Inductive PoolId : Type :=
| DexIncentive (currency_id : CurrencyId)
| DexPremium (currency_id : CurrencyId).

#[export] Instance pool_id_eq_dec : EqDecision PoolId.
Proof. solve_decision. Defined.

(** [share_of] is the first half of [share_and_withdrawn_reward]; claiming, and removing
    shares, calls back [payout]; [pools] are those of [Pools::iter] with their total
    shares. *)
Class Rewards (L A : Type) : Type := {
  add_share : A -> PoolId -> Z -> L -> L;
  remove_share : (A -> PoolId -> Z -> L -> L) -> A -> PoolId -> Z -> L -> L;
  share_of : PoolId -> A -> L -> Z;
  total_shares : PoolId -> L -> Z;
  pools : L -> list PoolId;
  rewards_claim : (A -> PoolId -> Z -> L -> L) -> A -> PoolId -> L -> L;
  add_reward : PoolId -> Z -> L -> L
}.

Inductive IncentivesError : Type := NotEnough | InvalidCurrencyId | BadOrigin.

Inductive IncentivesEvent (A : Type) : Type :=
| DepositDexShare (who : A) (lp_currency_id : CurrencyId) (amount : Z)
| WithdrawDexShare (who : A) (lp_currency_id : CurrencyId) (amount : Z)
| ClaimRewards (who : A) (pool_id : PoolId).

Arguments DepositDexShare {A}.
Arguments WithdrawDexShare {A}.
Arguments ClaimRewards {A}.

Record State (L A : Type) : Type := MkState {
  dex_incentive_rewards : gmap CurrencyId Z;
  dex_premium_rewards : gmap CurrencyId Z;
  events : list (IncentivesEvent A);
  chain : L
}.

Arguments MkState {L A}.
Arguments dex_incentive_rewards {L A}.
Arguments dex_premium_rewards {L A}.
Arguments events {L A}.
Arguments chain {L A}.

Record Config (A : Type) : Type := MkConfig {
  DexIncentivePool : A;
  DexPremiumPool : A;
  StableCurrencyIds : list CurrencyId;
  IncentiveCurrencyId : CurrencyId;
  PremiumCurrencyId : CurrencyId;
  account_id : A
}.

Arguments MkConfig {A}.
Arguments DexIncentivePool {A}.
Arguments DexPremiumPool {A}.
Arguments StableCurrencyIds {A}.
Arguments IncentiveCurrencyId {A}.
Arguments PremiumCurrencyId {A}.
Arguments account_id {A}.

Section Incentives.
Context {L X A : Type} `{!MultiCurrency L X A} `{!Rewards L A}.
Variable cfg : Config A.

Abbreviation St := (State L A).
Abbreviation Run := (M (State L A) (IncentivesError + X)).

Definition set_incentives (f : gmap CurrencyId Z -> gmap CurrencyId Z) (s : St) : St :=
  MkState (f (dex_incentive_rewards s)) (dex_premium_rewards s) (events s) (chain s).

Definition set_premiums (f : gmap CurrencyId Z -> gmap CurrencyId Z) (s : St) : St :=
  MkState (dex_incentive_rewards s) (f (dex_premium_rewards s)) (events s) (chain s).

Definition set_chain (l : L) (s : St) : St := MkState (dex_incentive_rewards s) (dex_premium_rewards s) (events s) l.

Definition deposit_event (e : IncentivesEvent A) (s : St) : St :=
  MkState (dex_incentive_rewards s) (dex_premium_rewards s) (events s ++ [e]) (chain s).

Definition on_chain {B : Type} (m : M L X B) : Run B := zoom chain set_chain inr m.

Definition on_rewards (f : L -> L) : Run unit := modify (fun s => set_chain (f (chain s)) s).

(** ** [RewardHandler::payout] *)

Definition reward_account (pool_id : PoolId) : A * CurrencyId :=
  match pool_id with
  | DexIncentive _ => (DexIncentivePool cfg, IncentiveCurrencyId cfg)
  | DexPremium _ => (DexPremiumPool cfg, PremiumCurrencyId cfg)
  end.

(** The result of the transfer is ignored. *)
Definition payout (who : A) (pool_id : PoolId) (amount : Z) (l : L) : L :=
  let '(pool_account, currency_id) := reward_account pool_id in
  (mc_transfer currency_id pool_account who amount l).2.

(** ** [DEXIncentives] *)

Definition deposit_share (who : A) (lp_currency_id : CurrencyId) (amount : Z) : Run unit :=
  do! ensure (is_dex_share_currency_id lp_currency_id) (inl InvalidCurrencyId) in
  do! on_chain (mc_transfer lp_currency_id who (account_id cfg) amount) in
  do! on_rewards (add_share who (DexIncentive lp_currency_id) amount) in
  do! on_rewards (add_share who (DexPremium lp_currency_id) amount) in
  modify (deposit_event (DepositDexShare who lp_currency_id amount)).

Definition withdraw_share (who : A) (lp_currency_id : CurrencyId) (amount : Z) : Run unit :=
  do! ensure (is_dex_share_currency_id lp_currency_id) (inl InvalidCurrencyId) in
  let! l := gets chain in
  do! ensure
    ((amount <=? share_of (DexIncentive lp_currency_id) who l) && (amount <=? share_of (DexPremium lp_currency_id) who l))
    (inl NotEnough) in
  do! on_chain (mc_transfer lp_currency_id (account_id cfg) who amount) in
  do! on_rewards (remove_share payout who (DexIncentive lp_currency_id) amount) in
  do! on_rewards (remove_share payout who (DexPremium lp_currency_id) amount) in
  modify (deposit_event (WithdrawDexShare who lp_currency_id amount)).

(** ** [RewardHandler::accumulate_reward] *)

(** The reward of a pool per period. *)
Definition pool_reward (s : St) (pool_id : PoolId) : Z :=
  match pool_id with
  | DexIncentive currency_id => default 0 (dex_incentive_rewards s !! currency_id)
  | DexPremium currency_id => default 0 (dex_premium_rewards s !! currency_id)
  end.

(** [accumulated_incentive] and [accumulated_premium] so far. *)
Definition accumulated : Type := Z * Z.

Definition add_accumulated (pool_id : PoolId) (reward : Z) (acc : accumulated) : accumulated :=
  match pool_id with
  | DexIncentive _ => (sat_add 128 acc.1 reward, acc.2)
  | DexPremium _ => (acc.1, sat_add 128 acc.2 reward)
  end.

(** One round of the loop: the reward is issued; if that works, the pool learns of it. *)
Definition accumulate_pool (pool_id : PoolId) (acc : accumulated) : Run accumulated :=
  let! s := get in
  if total_shares pool_id (chain s) =? 0 then ret acc
  else
    let reward := pool_reward s pool_id in
    if reward =? 0 then ret acc
    else
      let '(pool_account, currency_id) := reward_account pool_id in
      let! issued := try_run (on_chain (mc_deposit currency_id pool_account reward)) in
      match issued with
      | Some _ =>
          do! on_rewards (add_reward pool_id reward) in
          ret (add_accumulated pool_id reward acc)
      | None => ret acc
      end.

Fixpoint accumulate_pools (l : list PoolId) (acc : accumulated) : Run accumulated :=
  match l with
  | [] => ret acc
  | pool_id :: l' => let! acc := accumulate_pool pool_id acc in accumulate_pools l' acc
  end.

Definition accumulate_reward (accumulation_period now : Z) : Run (list (CurrencyId * Z)) :=
  if accumulation_period =? 0 then panic
  else if now mod accumulation_period =? 0 then
    let! l := gets (fun s => pools (chain s)) in
    let! acc := accumulate_pools l (0, 0) in
    ret ((if acc.1 =? 0 then [] else [(IncentiveCurrencyId cfg, acc.1)])
         ++ (if acc.2 =? 0 then [] else [(PremiumCurrencyId cfg, acc.2)]))
  else ret [].

(** ** Calls *)

Definition deposit_dex_share (origin : option A) (lp_currency_id : CurrencyId) (amount : Z) : Run unit :=
  transactional (let! who := ok_or origin (inl BadOrigin) in deposit_share who lp_currency_id amount).

Definition withdraw_dex_share (origin : option A) (lp_currency_id : CurrencyId) (amount : Z) : Run unit :=
  transactional (let! who := ok_or origin (inl BadOrigin) in withdraw_share who lp_currency_id amount).

Definition claim_rewards (origin : option A) (pool_id : PoolId) : Run unit :=
  transactional (
    let! who := ok_or origin (inl BadOrigin) in
    do! on_rewards (rewards_claim payout who pool_id) in
    modify (deposit_event (ClaimRewards who pool_id))).

Definition update_dex_incentive_rewards (allowed : bool) (updates : list (CurrencyId * Z)) : Run unit :=
  transactional (
    do! ensure allowed (inl BadOrigin) in
    for_each (fun '(currency_id, amount) =>
      do! ensure (is_dex_share_currency_id currency_id) (inl InvalidCurrencyId) in
      modify (set_incentives <[currency_id := amount]>)) updates).

Definition update_dex_premium_rewards (allowed : bool) (updates : list (CurrencyId * Z)) : Run unit :=
  transactional (
    do! ensure allowed (inl BadOrigin) in
    for_each (fun '(currency_id, amount) =>
      do! ensure (is_dex_share_currency_id currency_id) (inl InvalidCurrencyId) in
      do! ensure (existsb (currency_eqb currency_id) (StableCurrencyIds cfg)) (inl InvalidCurrencyId) in
      modify (set_premiums <[currency_id := amount]>)) updates).

(** ** What the DEX sees: the state of the pallet is part of the chain *)

#[export] Instance incentives_currency : MultiCurrency (State L A) (IncentivesError + X) A :=
  part_currency chain set_chain inr.

#[export] Instance incentives_system `{!FrameSystem L A} : FrameSystem (State L A) A := part_system chain set_chain.

#[export] Instance incentives_pallet : DEXIncentives (State L A) (IncentivesError + X) A := {|
  do_deposit_dex_share := deposit_share;
  do_withdraw_dex_share := withdraw_share
|}.

End Incentives.
