(* ===== verification/IncentivesTheorems.v ===== *)
(** * Staked shares are counted twice and held once

    The pools of the incentives pallet agree with each other and with what the pallet
    holds; what is reported as accumulated is what was issued; and the DEX on top of this
    pallet is solvent, because the pallet keeps what the interface [DEXIncentives] asks. *)

From S2P Require Import Prelude Currency Externals Dex DexPricing DexSafety DexTheorems Incentives.

(** What a step of the reward books leaves alone. *)
Definition same_balances {L X A : Type} `{!MultiCurrency L X A} (l l' : L) : Prop :=
  (forall c (a : A), mc_free_balance c a l' = mc_free_balance c a l)
  /\ forall c, mc_total_issuance c l' = mc_total_issuance c l.

Definition same_shares {L A : Type} `{!Rewards L A} (l l' : L) : Prop :=
  (forall p (w : A), share_of p w l' = share_of p w l) /\ forall p, total_shares p l' = total_shares p l.

(** A claim calls the handler at most once. *)
Definition settled {L A : Type} (f : A -> PoolId -> Z -> L -> L) (w : A) (p : PoolId) (l l' : L) : Prop :=
  l' = l \/ exists v, l' = f w p v l.

(** [orml_rewards]: shares move by what is asked, removing them claims first, and the
    books move no balance. *)
Class RewardsLaws (L X A : Type) `{EqDecision A} `{MultiCurrency L X A} `{Rewards L A} : Prop := {
  share_added p w v l p' w' :
    share_of p' w' (add_share w p v l) = share_of p' w' l + (if bool_decide (p' = p /\ w' = w) then v else 0);
  total_added p w v l p' : total_shares p' (add_share w p v l) = total_shares p' l + (if bool_decide (p' = p) then v else 0);
  add_share_balances w p v l : same_balances (A:=A) l (add_share w p v l);
  share_removed f w p v l :
    v <= share_of p w l ->
    exists l1, settled f w p l l1 /\ same_balances (A:=A) l1 (remove_share f w p v l)
      /\ (forall p' w', share_of p' w' (remove_share f w p v l)
            = share_of p' w' l1 - (if bool_decide (p' = p /\ w' = w) then v else 0))
      /\ forall p', total_shares p' (remove_share f w p v l) = total_shares p' l1 - (if bool_decide (p' = p) then v else 0);
  claim_settles f w p l :
    exists l1, settled f w p l l1 /\ same_balances (A:=A) l1 (rewards_claim f w p l) /\ same_shares l1 (rewards_claim f w p l);
  add_reward_balances p v l : same_balances (A:=A) l (add_reward p v l);
  add_reward_shares p v l : same_shares l (add_reward p v l);
  transfer_shares c from to v l l' : mc_transfer c from to v l = (Ok tt, l') -> same_shares l l';
  deposit_shares c who v l l' : mc_deposit c who v l = (Ok tt, l') -> same_shares l l'
}.

Section Theorems.
Context {L X A : Type} `{Countable A} `{!MultiCurrency L X A} `{!FrameSystem L A} `{!Rewards L A}.
Context `{!MultiCurrencyLaws L X A} `{!RewardsLaws L X A}.
Variable cfg : Config A.

Abbreviation St := (Incentives.State L A).
Abbreviation Run := (M (Incentives.State L A) (IncentivesError + X)).

Lemma on_chain_ok {B : Type} (m : M L X B) (s : St) b s' :
  on_chain m s = (Ok b, s') <-> exists l, m (chain s) = (Ok b, l) /\ s' = set_chain l s.
Proof. unfold on_chain. rewrite zoom_ok. naive_solver. Qed.

Lemma on_chain_err {B : Type} (m : M L X B) (s : St) x s' :
  on_chain m s = (Err x, s') -> exists y l, m (chain s) = (Err y, l) /\ s' = set_chain l s.
Proof. unfold on_chain, zoom. destruct (m (chain s)) as [[b|y|] l]; [done| |done]. intros [= <- <-]. by exists y, l. Qed.

(** ** The interface of the DEX *)

(** A deposit of shares: what it does to balances. *)
Lemma deposit_share_inv who lp v (s s' : St) :
  deposit_share cfg who lp v s = (Ok tt, s') ->
  is_dex_share_currency_id lp = true /\
  exists l, mc_transfer lp who (account_id cfg) v (chain s) = (Ok tt, l)
    /\ chain s' = add_share who (DexPremium lp) v (add_share who (DexIncentive lp) v l).
Proof.
  intros Hrun. unfold deposit_share, on_rewards in Hrun. run_step Hrun.
  match goal with HC : on_chain _ _ = (Ok _, _) |- _ => apply on_chain_ok in HC as (l & Hl & ->) end.
  match type of Hl with _ = (Ok ?u, _) => destruct u end. split; [done|]. exists l. split; [done|]. by subst.
Qed.

(** ** Payouts *)

Definition is_vault (a : A) : bool := bool_decide (a = DexIncentivePool cfg \/ a = DexPremiumPool cfg).

(** Shares and issuance stay; only the vaults may have less. *)
Definition eased (l l' : L) : Prop :=
  same_shares l l' /\ (forall c, mc_total_issuance c l' = mc_total_issuance c l)
  /\ forall c a, is_vault a = false -> mc_free_balance c a l <= mc_free_balance c a l'.

Lemma eased_refl l : eased l l.
Proof. unfold eased, same_shares. naive_solver lia. Qed.

Lemma eased_trans l1 l2 l3 : eased l1 l2 -> eased l2 l3 -> eased l1 l3.
Proof.
  intros ([S1 T1] & I1 & B1) ([S2 T2] & I2 & B2). split_and!; [split|..]; intros; try congruence.
  specialize (B1 c a ltac:(done)). specialize (B2 c a ltac:(done)). lia.
Qed.

Lemma same_eased l l' : same_shares l l' -> same_balances (A:=A) l l' -> eased l l'.
Proof. intros Hs [Hb Hi]. split_and!; [done..|]. intros. rewrite Hb. lia. Qed.

Lemma payout_eased w p v l : eased l (payout cfg w p v l).
Proof.
  assert (is_vault (reward_account cfg p).1 = true) as Hv by (destruct p; apply bool_decide_eq_true; auto).
  unfold payout. destruct (reward_account cfg p) as [pool c]. simpl in Hv.
  destruct (mc_transfer c pool w v l) as [r l'] eqn:E. simpl. assert (r = Ok tt \/ r <> Ok tt) as [->|Hr] by (destruct r as [[]|?|]; auto).
  - split_and!; [by eapply transfer_shares|intros; by eapply mc_transfer_issuance|].
    intros c' a Ha. destruct (decide (c' = c)) as [->|Hc].
    + apply (mc_transfer_bystander _ _ _ _ _ _ _ E). congruence.
    + rewrite (mc_transfer_other_currency _ _ _ _ _ _ _ a E); [lia|done].
  - rewrite (mc_failed_transfer _ _ _ _ _ _ _ E Hr). apply eased_refl.
Qed.

Lemma settled_eased w p l l' : settled (payout cfg) w p l l' -> eased l l'.
Proof. intros [->|[v ->]]; [apply eased_refl|apply payout_eased]. Qed.

(** A removal of shares: books, and payouts to the one who leaves. *)
Lemma remove_share_spec w p v l :
  v <= share_of p w l ->
  let l' := remove_share (payout cfg) w p v l in
  (forall p' w', share_of p' w' l' = share_of p' w' l - (if bool_decide (p' = p /\ w' = w) then v else 0))
  /\ (forall p', total_shares p' l' = total_shares p' l - (if bool_decide (p' = p) then v else 0))
  /\ (forall c, mc_total_issuance c l' = mc_total_issuance c l)
  /\ forall c a, is_vault a = false -> mc_free_balance c a l <= mc_free_balance c a l'.
Proof.
  intros Hv l'. destruct (share_removed (payout cfg) w p v l Hv) as (l1 & Hset & [Hb Hi] & Hs & Ht).
  apply settled_eased in Hset as ([Hs1 Ht1] & Hi1 & Hb1). unfold l'. split_and!; intros.
  - by rewrite Hs, Hs1.
  - by rewrite Ht, Ht1.
  - by rewrite Hi, Hi1.
  - rewrite Hb. by apply Hb1.
Qed.

Lemma withdraw_share_inv who lp v (s s' : St) :
  withdraw_share cfg who lp v s = (Ok tt, s') ->
  is_dex_share_currency_id lp = true
  /\ v <= share_of (DexIncentive lp) who (chain s) /\ v <= share_of (DexPremium lp) who (chain s) /\
  exists l, mc_transfer lp (account_id cfg) who v (chain s) = (Ok tt, l)
    /\ chain s' = remove_share (payout cfg) who (DexPremium lp) v (remove_share (payout cfg) who (DexIncentive lp) v l).
Proof.
  intros Hrun. unfold withdraw_share, on_rewards in Hrun. run_step Hrun. subst.
  match goal with HC : on_chain _ _ = (Ok _, _) |- _ => apply on_chain_ok in HC as (l & Hl & ->) end.
  match type of Hl with _ = (Ok ?u, _) => destruct u end. bool_inv. split_and!; try done. by exists l.
Qed.

(** What a withdrawal does to shares and balances, after its transfer. *)
Lemma withdraw_share_spec who lp v (s s' : St) :
  withdraw_share cfg who lp v s = (Ok tt, s') ->
  exists l, mc_transfer lp (account_id cfg) who v (chain s) = (Ok tt, l)
    /\ (forall p w, share_of p w (chain s') = share_of p w (chain s)
          - (if bool_decide ((p = DexIncentive lp \/ p = DexPremium lp) /\ w = who) then v else 0))
    /\ (forall p, total_shares p (chain s') = total_shares p (chain s)
          - (if bool_decide (p = DexIncentive lp \/ p = DexPremium lp) then v else 0))
    /\ (forall c, mc_total_issuance c (chain s') = mc_total_issuance c (chain s))
    /\ forall c a, is_vault a = false -> mc_free_balance c a l <= mc_free_balance c a (chain s').
Proof.
  intros (_ & Hv1 & Hv2 & l & Hl & Hs')%withdraw_share_inv. exists l. split; [done|].
  destruct (transfer_shares _ _ _ _ _ _ Hl) as [Hsh Htot].
  destruct (remove_share_spec who (DexIncentive lp) v l) as (S1 & T1 & I1 & B1); [by rewrite Hsh|].
  destruct (remove_share_spec who (DexPremium lp) v (remove_share (payout cfg) who (DexIncentive lp) v l)) as (S2 & T2 & I2 & B2).
  { rewrite S1, Hsh, bool_decide_eq_false_2 by naive_solver. lia. }
  rewrite Hs'. split_and!; intros.
  - rewrite S2, S1, Hsh. repeat case_bool_decide; try lia; naive_solver.
  - rewrite T2, T1, Htot. repeat case_bool_decide; try lia; naive_solver.
  - rewrite I2, I1. by apply (mc_transfer_issuance _ _ _ _ _ _ _ Hl).
  - specialize (B1 c a ltac:(done)). specialize (B2 c a ltac:(done)). lia.
Qed.

#[export] Instance incentives_dex_laws : DEXIncentivesLaws St (IncentivesError + X) A (H0 := incentives_pallet cfg).
Proof.
  refine {| pays_rewards := is_vault |}.
  - intros who lp v s s' c a Hrun Hc. apply deposit_share_inv in Hrun as (_ & l & Hl & Hs). simpl.
    rewrite Hs, !(proj1 (add_share_balances _ _ _ _)). by apply (mc_transfer_other_currency _ _ _ _ _ _ _ _ Hl).
  - intros who lp v s s' c a Hrun Hc Ha. apply withdraw_share_spec in Hrun as (l & Hl & _ & _ & _ & Hb). simpl.
    rewrite <- (mc_transfer_other_currency _ _ _ _ _ _ _ a Hl Hc). by apply Hb.
  - intros who lp v s s' c Hrun. apply withdraw_share_spec in Hrun as (l & _ & _ & _ & Hi & _). apply Hi.
Defined.

(** The currencies are those of the chain. *)
#[export] Instance incentives_currency_laws : MultiCurrencyLaws St (IncentivesError + X) A.
Proof. apply part_laws; [done|by intros []|apply _]. Defined.

(** ** Staked shares *)

Record staked (s : St) : Prop := {
  staked_alike lp w : share_of (DexIncentive lp) w (chain s) = share_of (DexPremium lp) w (chain s);
  staked_totals lp : total_shares (DexIncentive lp) (chain s) = total_shares (DexPremium lp) (chain s);
  staked_held lp : is_dex_share_currency_id lp = true ->
    total_shares (DexIncentive lp) (chain s) <= mc_free_balance lp (account_id cfg) (chain s)
}.

(** A step that leaves shares alone and takes nothing from the pallet's account. *)
Lemma staked_kept (s s' : St) :
  same_shares (chain s) (chain s') ->
  (forall lp, is_dex_share_currency_id lp = true ->
     mc_free_balance lp (account_id cfg) (chain s) <= mc_free_balance lp (account_id cfg) (chain s')) ->
  staked s -> staked s'.
Proof.
  intros [Hs Ht] Hb [Ha Hto Hh]. split; intros; rewrite ?Hs, ?Ht; [done..|].
  etrans; [by apply Hh|by apply Hb].
Qed.

(** The account of the pallet has no key, keeps its dust and is not a vault. *)
Hypothesis account_keeps_dust : keeps_dust (account_id cfg) = true.
Hypothesis account_no_vault : is_vault (account_id cfg) = false.

Lemma deposit_staked who lp v (s s' : St) :
  who <> account_id cfg -> staked s -> deposit_share cfg who lp v s = (Ok tt, s') -> staked s'.
Proof.
  intros Hwho [Ha Ht Hh] Hrun. apply deposit_share_inv in Hrun as (_ & l & Hl & Hs).
  destruct (transfer_shares _ _ _ _ _ _ Hl) as [Hsh Htot].
  split; rewrite Hs.
  - intros lp' w. rewrite !share_added, !Hsh, Ha. repeat case_bool_decide; naive_solver lia.
  - intros lp'. rewrite !total_added, !Htot, Ht. repeat case_bool_decide; naive_solver lia.
  - intros lp' Hlp. rewrite !total_added, Htot, !(proj1 (add_share_balances _ _ _ _)). specialize (Hh lp' Hlp).
    rewrite (bool_decide_eq_false_2 (DexIncentive lp' = DexPremium lp)) by done.
    destruct (decide (lp' = lp)) as [->|Hne].
    + rewrite bool_decide_eq_true_2 by done. pose proof (mc_transfer_receiver _ _ _ _ _ _ Hl Hwho). lia.
    + rewrite bool_decide_eq_false_2 by congruence.
      rewrite (mc_transfer_other_currency _ _ _ _ _ _ lp' (account_id cfg) Hl) by done. lia.
Qed.

Lemma withdraw_staked who lp v (s s' : St) :
  0 <= v -> staked s -> withdraw_share cfg who lp v s = (Ok tt, s') -> staked s'.
Proof.
  intros Hv [Ha Ht Hh] (l & Hl & Hsh & Htot & _ & Hb)%withdraw_share_spec. split.
  - intros lp' w. rewrite !Hsh, Ha. repeat case_bool_decide; naive_solver lia.
  - intros lp'. rewrite !Htot, Ht. repeat case_bool_decide; naive_solver lia.
  - intros lp' Hlp. rewrite Htot. specialize (Hh lp' Hlp). specialize (Hb lp' (account_id cfg) account_no_vault).
    destruct (decide (lp' = lp)) as [->|Hne].
    + rewrite bool_decide_eq_true_2 by auto. pose proof (mc_transfer_sender _ _ _ _ _ _ Hl Hv account_keeps_dust). lia.
    + rewrite bool_decide_eq_false_2 by naive_solver.
      rewrite (mc_transfer_other_currency _ _ _ _ _ _ lp' (account_id cfg) Hl) in Hb by done. lia.
Qed.

(** ** Rewards *)

Definition rewards_nonneg (s : St) : Prop :=
  map_Forall (fun _ v => 0 <= v) (dex_incentive_rewards s) /\ map_Forall (fun _ v => 0 <= v) (dex_premium_rewards s).

Lemma pool_reward_nonneg p (s : St) : rewards_nonneg s -> 0 <= pool_reward s p.
Proof.
  intros [Hi Hp]. unfold pool_reward. destruct p as [c|c].
  - destruct (_ !! c) eqn:E; [by apply (Hi _ _ E)|done].
  - destruct (_ !! c) eqn:E; [by apply (Hp _ _ E)|done].
Qed.

(** What a list of amounts per currency says of one. *)
Definition listed (c : CurrencyId) (l : list (CurrencyId * Z)) : Z :=
  zsum (fun kv => if currency_eqb kv.1 c then kv.2 else 0) l.

Definition report (acc : accumulated) : list (CurrencyId * Z) :=
  [(IncentiveCurrencyId cfg, acc.1); (PremiumCurrencyId cfg, acc.2)].

(** One round: either nothing, or the reward of the pool is issued and reported. *)
Lemma accumulate_pool_spec p acc acc' (s s' : St) :
  rewards_nonneg s -> accumulate_pool cfg p acc s = (Ok acc', s') ->
  exists l r, s' = set_chain l s /\ 0 <= r /\ same_shares (chain s) l
    /\ (forall c a, mc_free_balance c a (chain s) <= mc_free_balance c a l)
    /\ (forall c, mc_total_issuance c l = mc_total_issuance c (chain s)
          + (if currency_eqb (reward_account cfg p).2 c then r else 0))
    /\ acc' = (if r =? 0 then acc else add_accumulated p r acc).
Proof.
  intros Hnn Hrun.
  assert (acc' = acc -> s' = s -> exists l r, s' = set_chain l s /\ 0 <= r /\ same_shares (chain s) l
    /\ (forall c a, mc_free_balance c a (chain s) <= mc_free_balance c a l)
    /\ (forall c, mc_total_issuance c l = mc_total_issuance c (chain s)
          + (if currency_eqb (reward_account cfg p).2 c then r else 0))
    /\ acc' = (if r =? 0 then acc else add_accumulated p r acc)) as Hnone.
  { intros -> ->. exists (chain s), 0. split_and!; try done; [by destruct s|intros]. destruct (currency_eqb _ _); lia. }
  unfold accumulate_pool, on_rewards in Hrun. rewrite bind_ok in Hrun.
  destruct Hrun as (s0 & s1 & H0 & Hrun). apply get_ok in H0 as [-> ->].
  destruct (_ =? 0) in Hrun; [by apply ret_ok in Hrun as [? ?]; apply Hnone|]. cbv zeta in Hrun.
  pose proof (pool_reward_nonneg p s Hnn) as Hr.
  revert Hr Hrun. generalize (pool_reward s p). intros r Hr Hrun.
  destruct (r =? 0) eqn:Er; [by apply ret_ok in Hrun as [? ?]; apply Hnone|].
  destruct (reward_account cfg p) as [pool c] eqn:Ep. rewrite bind_ok in Hrun.
  destruct Hrun as (o & s1 & Ho & Hrun). apply try_run_ok in Ho. destruct o as [[]|].
  - apply on_chain_ok in Ho as (l & Hl & ->). run_step Hrun. subst. exists (add_reward p r l), r.
    destruct (add_reward_balances p r l) as [Hb Hi], (add_reward_shares p r l) as [Hs Ht].
    destruct (deposit_shares _ _ _ _ _ Hl) as [Hs1 Ht1].
    split_and!; [done..|split; intros; by rewrite ?Hs, ?Ht|intros|intros|by rewrite Er].
    + rewrite Hb. by apply (mc_deposit_free _ _ _ _ _ _ _ Hl).
    + rewrite Hi. by apply (mc_deposit_issuance _ _ _ _ _ _ Hl).
  - destruct Ho as [e He]. apply on_chain_err in He as (y & l & Hl & ->). apply mc_failed_deposit in Hl as ->.
    apply ret_ok in Hrun as [? ->]. apply Hnone; [done|by destruct s].
Qed.

Lemma accumulate_pools_spec ps acc acc' (s s' : St) :
  rewards_nonneg s -> 0 <= acc.1 <= umax 128 -> 0 <= acc.2 <= umax 128 ->
  accumulate_pools cfg ps acc s = (Ok acc', s') ->
  exists l, s' = set_chain l s /\ same_shares (chain s) l
    /\ (forall c a, mc_free_balance c a (chain s) <= mc_free_balance c a l)
    /\ acc.1 <= acc'.1 <= umax 128 /\ acc.2 <= acc'.2 <= umax 128
    /\ (acc'.1 < umax 128 -> acc'.2 < umax 128 -> forall c,
          mc_total_issuance c l - listed c (report acc') = mc_total_issuance c (chain s) - listed c (report acc)).
Proof.
  revert acc s. induction ps as [|p ps IH]; intros acc s Hnn H1 H2 Hrun; simpl in Hrun.
  - apply ret_ok in Hrun as [-> ->]. exists (chain s). split_and!; try done; lia || by destruct s.
  - rewrite bind_ok in Hrun. destruct Hrun as (acc1 & s1 & Hp & Hrun).
    destruct (accumulate_pool_spec p acc acc1 s s1 Hnn Hp) as (l & r & -> & Hr & [Hs Ht] & Hb & Hi & Hacc).
    assert (acc.1 <= acc1.1 <= umax 128 /\ acc.2 <= acc1.2 <= umax 128
            /\ (acc1.1 < umax 128 -> acc1.2 < umax 128 ->
                  forall c, listed c (report acc1) = listed c (report acc) + (if currency_eqb (reward_account cfg p).2 c then r else 0)))
      as (B1 & B2 & Hl).
    { subst acc1. destruct (r =? 0) eqn:Hr0.
      - apply Z.eqb_eq in Hr0. rewrite Hr0. split_and!; try lia. intros _ _ c. destruct (currency_eqb _ _); lia.
      - unfold listed, report. destruct p; simpl; unfold sat_add; split_and!; try lia; intros ?? c;
          repeat destruct (currency_eqb _ _); lia. }
    destruct (IH acc1 (set_chain l s) Hnn ltac:(lia) ltac:(lia) Hrun) as (l' & -> & [Hs' Ht'] & Hb' & B1' & B2' & Hi').
    exists l'. simpl in *. split_and!; try lia; [by destruct s|split; intros; by rewrite ?Hs', ?Ht'|..].
    + intros c a. specialize (Hb c a). specialize (Hb' c a). lia.
    + intros M1 M2 c. specialize (Hi' M1 M2 c). specialize (Hl ltac:(lia) ltac:(lia) c). specialize (Hi c). lia.
Qed.

Lemma zero_u128 : 0 <= 0 <= umax 128.
Proof. unfold umax. lia. Qed.

Lemma accumulate_reward_inv period now reported (s s' : St) :
  rewards_nonneg s -> accumulate_reward cfg period now s = (Ok reported, s') ->
  period <> 0
  /\ ((now mod period <> 0 /\ reported = [] /\ s' = s)
      \/ exists acc l, now mod period = 0
        /\ accumulate_pools cfg (pools (chain s)) (0, 0) s = (Ok acc, s') /\ s' = set_chain l s
        /\ reported = (if acc.1 =? 0 then [] else [(IncentiveCurrencyId cfg, acc.1)])
                        ++ (if acc.2 =? 0 then [] else [(PremiumCurrencyId cfg, acc.2)])).
Proof.
  intros Hnn Hrun. unfold accumulate_reward in Hrun. destruct (Z.eqb_spec period 0); [done|]. split; [done|].
  destruct (Z.eqb_spec (now mod period) 0) as [Hm|Hm]; [right|left].
  - rewrite bind_ok in Hrun. destruct Hrun as (ps & s1 & Hp & Hrun). apply gets_ok in Hp as [-> ->].
    rewrite bind_ok in Hrun. destruct Hrun as (acc & s1 & Hp & Hrun). apply ret_ok in Hrun as [-> ->].
    destruct (accumulate_pools_spec _ (0, 0) _ _ _ Hnn zero_u128 zero_u128 Hp) as (l & -> & _).
    by exists acc, l.
  - by apply ret_ok in Hrun as [-> ->].
Qed.

Lemma listed_report c acc :
  listed c ((if acc.1 =? 0 then [] else [(IncentiveCurrencyId cfg, acc.1)])
            ++ (if acc.2 =? 0 then [] else [(PremiumCurrencyId cfg, acc.2)])) = listed c (report acc).
Proof.
  unfold listed, report. destruct (Z.eqb_spec acc.1 0) as [E1|], (Z.eqb_spec acc.2 0) as [E2|]; simpl;
    rewrite ?E1, ?E2; repeat destruct (currency_eqb _ _); lia.
Qed.

Lemma accumulate_staked period now reported (s s' : St) :
  rewards_nonneg s -> accumulate_reward cfg period now s = (Ok reported, s') -> staked s -> staked s'.
Proof.
  intros Hnn Hrun. apply accumulate_reward_inv in Hrun as (_ & [(_ & _ & ->)|(acc & l & _ & Hp & -> & _)]); [done| |done].
  destruct (accumulate_pools_spec _ (0, 0) _ _ _ Hnn zero_u128 zero_u128 Hp) as (l' & Hl & Hs & Hb & _).
  rewrite Hl. apply staked_kept; simpl; [done|intros; apply Hb].
Qed.

Lemma claim_staked who p (s s' : St) :
  claim_rewards cfg who p s = (Ok tt, s') -> staked s -> staked s'.
Proof.
  intros Hrun. unfold claim_rewards, on_rewards in Hrun. run_step Hrun. subst.
  destruct (claim_settles (payout cfg) x p (chain s)) as (l1 & Hset & Hb & Hs).
  destruct (eased_trans _ _ _ (settled_eased _ _ _ _ Hset) (same_eased _ _ Hs Hb)) as (He & _ & Hf).
  apply staked_kept; simpl; [done|]. intros. by apply Hf.
Qed.

(** Updates of the reward tables. *)
Definition tables_only (s s' : St) : Prop := chain s' = chain s /\ (rewards_nonneg s -> rewards_nonneg s').

#[local] Instance tables_only_preorder : PreOrder tables_only.
Proof. unfold tables_only. split; [intros s|intros s1 s2 s3]; naive_solver congruence. Qed.

Lemma set_incentives_tables c v (s : St) : 0 <= v -> tables_only s (set_incentives <[c := v]> s).
Proof. intros Hv. split; [done|]. intros [Hi Hp]. split; [by apply map_Forall_insert_2|done]. Qed.

Lemma set_premiums_tables c v (s : St) : 0 <= v -> tables_only s (set_premiums <[c := v]> s).
Proof. intros Hv. split; [done|]. intros [Hi Hp]. split; [done|by apply map_Forall_insert_2]. Qed.

Lemma update_incentives_tables allowed updates :
  Forall (fun kv => 0 <= kv.2) updates -> keeps tables_only (update_dex_incentive_rewards (X:=X) allowed updates).
Proof.
  intros Hnn. unfold update_dex_incentive_rewards. keeps_step. keeps_step; [keeps_step|].
  apply keeps_for_each_all; [apply _|]. eapply Forall_impl; [exact Hnn|]. intros [c v] Hv. keeps_tac.
  apply keeps_modify. intros s. by apply set_incentives_tables.
Qed.

Lemma update_premiums_tables allowed updates :
  Forall (fun kv => 0 <= kv.2) updates -> keeps tables_only (update_dex_premium_rewards (X:=X) cfg allowed updates).
Proof.
  intros Hnn. unfold update_dex_premium_rewards. keeps_step. keeps_step; [keeps_step|].
  apply keeps_for_each_all; [apply _|]. eapply Forall_impl; [exact Hnn|]. intros [c v] Hv. keeps_tac.
  apply keeps_modify. intros s. by apply set_premiums_tables.
Qed.

(** The other calls leave the tables alone. *)
Definition same_tables (s s' : St) : Prop :=
  dex_incentive_rewards s' = dex_incentive_rewards s /\ dex_premium_rewards s' = dex_premium_rewards s.

#[local] Instance same_tables_preorder : PreOrder same_tables.
Proof. unfold same_tables. split; [intros s|intros s1 s2 s3]; naive_solver congruence. Qed.

Lemma keeps_tables_on_chain {B : Type} (m : M L X B) : keeps same_tables (on_chain m).
Proof. intros s b s'. rewrite on_chain_ok. by intros (l & _ & ->). Qed.

Lemma keeps_tables_on_rewards f : keeps same_tables (on_rewards f : Run unit).
Proof. intros s b s'. unfold on_rewards. rewrite modify_ok. by intros ->. Qed.

Lemma keeps_tables_event e : keeps same_tables (modify (deposit_event e) : Run unit).
Proof. intros s b s'. rewrite modify_ok. by intros ->. Qed.

#[local] Hint Resolve keeps_tables_on_chain keeps_tables_on_rewards keeps_tables_event : keeps.

Lemma deposit_tables o lp v : keeps same_tables (deposit_dex_share cfg o lp v : Run unit).
Proof. unfold deposit_dex_share, deposit_share. keeps_tac. Qed.

Lemma withdraw_tables o lp v : keeps same_tables (withdraw_dex_share cfg o lp v : Run unit).
Proof. unfold withdraw_dex_share, withdraw_share. keeps_tac. Qed.

Lemma claim_tables o p : keeps same_tables (claim_rewards cfg o p : Run unit).
Proof. unfold claim_rewards. keeps_tac. Qed.

(** ** Reachable states *)

(** The pallet starts without shares; then its calls are dispatched, by anyone but its own
    account, rewards accumulate, and the other pallets run without taking from it. *)
Inductive pools_reachable : St -> Prop :=
| pools_genesis s :
    (forall p w, share_of p w (chain s) = 0) -> (forall p, total_shares p (chain s) = 0) ->
    rewards_nonneg s -> pools_reachable s
| pools_deposit o lp v s :
    pools_reachable s -> o <> Some (account_id cfg) -> pools_reachable (deposit_dex_share cfg o lp v s).2
| pools_withdraw o lp v s : pools_reachable s -> 0 <= v -> pools_reachable (withdraw_dex_share cfg o lp v s).2
| pools_claim o p s : pools_reachable s -> pools_reachable (claim_rewards cfg o p s).2
| pools_incentives b updates s :
    pools_reachable s -> Forall (fun kv => 0 <= kv.2) updates ->
    pools_reachable (update_dex_incentive_rewards (X:=X) b updates s).2
| pools_premiums b updates s :
    pools_reachable s -> Forall (fun kv => 0 <= kv.2) updates ->
    pools_reachable (update_dex_premium_rewards (X:=X) cfg b updates s).2
| pools_accumulate period now reported s s' :
    pools_reachable s -> accumulate_reward cfg period now s = (Ok reported, s') -> pools_reachable s'
| pools_chain s l :
    pools_reachable s -> same_shares (chain s) l ->
    (forall c, mc_free_balance c (account_id cfg) (chain s) <= mc_free_balance c (account_id cfg) l) ->
    pools_reachable (set_chain l s).

(** A dispatched call keeps what its successful runs keep. *)
Lemma dispatched {S E : Type} (m : M S E unit) (P : S -> Prop) (s : S) :
  (exists m', m = transactional m') -> (forall s', m s = (Ok tt, s') -> P s') -> P s -> P (m s).2.
Proof.
  intros [m' ->] Hok Hs. destruct (transactional m' s) as [r s'] eqn:Hm. simpl. destruct r as [[]|e|].
  - by apply Hok.
  - by apply transactional_rollback in Hm as ->.
  - by apply transactional_rollback in Hm as ->.
Qed.

Definition pools_sound (s : St) : Prop := staked s /\ rewards_nonneg s.

Lemma sound_by_tables (s s' : St) : tables_only s s' -> pools_sound s -> pools_sound s'.
Proof.
  intros [Hc Hn] [[Ha Ht Hh] Hnn]. split; [|by apply Hn]. split; by rewrite Hc.
Qed.

Lemma sound_by_staked (s s' : St) : same_tables s s' -> (staked s -> staked s') -> pools_sound s -> pools_sound s'.
Proof. intros [E1 E2] Hst [Hs Hnn]. split; [by apply Hst|]. unfold rewards_nonneg. by rewrite E1, E2. Qed.

Lemma pools_reachable_sound (s : St) : pools_reachable s -> pools_sound s.
Proof.
  induction 1 as [s Hz Ht Hnn|o lp v s _ IH Ho|o lp v s _ IH Hv|o p s _ IH|b ups s _ IH Hnn|b ups s _ IH Hnn
    |period now reported s s' _ IH Hrun|s l _ IH Hs Hb].
  - split; [|done]. split; intros; rewrite ?Hz, ?Ht; [done..|apply mc_free_nonneg].
  - apply dispatched; [by eexists| |done]. intros s' Hrun. eapply sound_by_staked; [by eapply (deposit_tables o lp v)| |done].
    intros Hst. unfold deposit_dex_share, withdraw_dex_share in Hrun. run_step Hrun. subst. eapply (deposit_staked x); [congruence|exact Hst|exact Hrun].
  - apply dispatched; [by eexists| |done]. intros s' Hrun. eapply sound_by_staked; [by eapply (withdraw_tables o lp v)| |done].
    intros Hst. unfold deposit_dex_share, withdraw_dex_share in Hrun. run_step Hrun. subst. by eapply withdraw_staked.
  - apply dispatched; [by eexists| |done]. intros s' Hrun. eapply sound_by_staked; [by eapply (claim_tables o p)| |done].
    by eapply claim_staked.
  - apply dispatched; [by eexists| |done]. intros s' Hrun. eapply sound_by_tables; [|done]. by eapply (update_incentives_tables b ups).
  - apply dispatched; [by eexists| |done]. intros s' Hrun. eapply sound_by_tables; [|done]. by eapply (update_premiums_tables b ups).
  - destruct IH as [Hst Hnn]. split; [by eapply accumulate_staked|].
    destruct (accumulate_reward_inv _ _ _ _ _ Hnn Hrun) as (_ & [(_ & _ & ->)|(acc & l & _ & _ & -> & _)]); done.
  - destruct IH as [Hst Hnn]. split; [|done]. revert Hst. by apply staked_kept.
Qed.

(** C31: staked shares are counted twice and held once. In every state the pallet can reach
    each staker has the same shares in the incentive pool and in the premium pool of a
    currency, the two pools have the same total, and the account of the pallet holds at
    least that total, so every staker can leave. *)
Theorem staked_shares_are_held (s : St) :
  pools_reachable s ->
  (forall lp w, share_of (DexIncentive lp) w (chain s) = share_of (DexPremium lp) w (chain s))
  /\ (forall lp, total_shares (DexIncentive lp) (chain s) = total_shares (DexPremium lp) (chain s))
  /\ (forall lp, is_dex_share_currency_id lp = true ->
        total_shares (DexPremium lp) (chain s) <= mc_free_balance lp (account_id cfg) (chain s)).
Proof.
  intros Hr. destruct (pools_reachable_sound s Hr) as [[Ha Ht Hh] _]. split_and!; [done..|].
  intros lp Hlp. rewrite <- Ht. by apply Hh.
Qed.

(** What is accumulated is what was issued. A block at which the period is due issues,
    currency by currency, exactly the amounts [accumulate_reward] reports (as long as the
    sum of a currency does not saturate [u128]), takes from no account and touches no
    share; at any other block nothing happens; and a period of zero panics. *)
Theorem accumulated_is_issued period now reported (s s' : St) :
  rewards_nonneg s -> accumulate_reward cfg period now s = (Ok reported, s') ->
  period <> 0
  /\ (now mod period <> 0 -> reported = [] /\ s' = s)
  /\ same_shares (chain s) (chain s')
  /\ (forall c a, mc_free_balance c a (chain s) <= mc_free_balance c a (chain s'))
  /\ (Forall (fun kv => kv.2 < umax 128) reported ->
      forall c, mc_total_issuance c (chain s') = mc_total_issuance c (chain s) + listed c reported).
Proof.
  intros Hnn Hrun. destruct (accumulate_reward_inv _ _ _ _ _ Hnn Hrun) as (Hp & Hcase). split; [done|].
  destruct Hcase as [(Hm & -> & ->)|(acc & l & Hm & Hps & -> & ->)].
  - split_and!; try done. intros _ c. unfold listed. simpl. lia.
  - destruct (accumulate_pools_spec _ (0, 0) _ _ _ Hnn zero_u128 zero_u128 Hps) as (l' & Hl & Hs & Hb & B1 & B2 & Hi).
    injection Hl as <-. split_and!; try done. intros Hlt c. rewrite listed_report. simpl in *.
    apply Forall_app in Hlt as [Hlt1 Hlt2].
    assert (acc.1 < umax 128) by (destruct (Z.eqb_spec acc.1 0) as [->|]; [by vm_compute|by inversion Hlt1]).
    assert (acc.2 < umax 128) by (destruct (Z.eqb_spec acc.2 0) as [->|]; [by vm_compute|by inversion Hlt2]).
    specialize (Hi ltac:(done) ltac:(done) c). unfold listed in Hi at 2. simpl in Hi.
    repeat destruct (currency_eqb _ _) in Hi; lia.
Qed.

(** Staking and leaving. Right after a deposit the depositor can withdraw the same
    amount: unless the transfer back is refused the withdrawal succeeds, every share is
    again what it was, and nobody but the reward vaults holds less. *)
Theorem deposit_then_withdraw who lp v (s s1 : St) :
  0 <= v -> (forall p, 0 <= share_of p who (chain s)) -> who <> account_id cfg ->
  deposit_share cfg who lp v s = (Ok tt, s1) ->
  (exists l, mc_transfer (X:=X) lp (account_id cfg) who v (chain s1) = (Ok tt, l)) ->
  exists s2, withdraw_share cfg who lp v s1 = (Ok tt, s2) /\ same_shares (chain s) (chain s2).
Proof.
  intros Hv Hnn Hwho Hd [l Hl]. pose proof Hd as Hd'.
  apply deposit_share_inv in Hd' as (Hlp & l0 & Hl0 & Hs1). destruct (transfer_shares _ _ _ _ _ _ Hl0) as [Hsh Htot].
  assert (forall p w, share_of p w (chain s1) = share_of p w (chain s)
           + (if bool_decide ((p = DexIncentive lp \/ p = DexPremium lp) /\ w = who) then v else 0)) as S1.
  { intros p w. rewrite Hs1, !share_added, Hsh. repeat case_bool_decide; try lia; naive_solver. }
  assert (forall p, total_shares p (chain s1) = total_shares p (chain s)
           + (if bool_decide (p = DexIncentive lp \/ p = DexPremium lp) then v else 0)) as T1.
  { intros p. rewrite Hs1, !total_added, Htot. repeat case_bool_decide; try lia; naive_solver. }
  assert (exists s2, withdraw_share cfg who lp v s1 = (Ok tt, s2)) as [s2 Hw].
  { unfold withdraw_share, bind, ensure, gets. rewrite Hlp. simpl.
    rewrite !S1, !bool_decide_eq_true_2 by auto.
    pose proof (Hnn (DexIncentive lp)). pose proof (Hnn (DexPremium lp)).
    rewrite !(proj2 (Z.leb_le _ _)) by lia. simpl. unfold on_chain, zoom. rewrite Hl. simpl. by eexists. }
  exists s2. split; [done|]. apply withdraw_share_spec in Hw as (l2 & _ & S2 & T2 & _).
  split; intros; rewrite ?S2, ?T2, ?S1, ?T1; lia.
Qed.

(** The premium rewards can never be set. The update insists that a currency is both a
    share of the exchange and one of the stable currencies, which are tokens: every update
    but the empty one is refused and changes nothing. *)
Theorem premium_updates_are_refused allowed updates (s : St) :
  Forall (fun c => is_dex_share_currency_id c = false) (StableCurrencyIds cfg) -> updates <> [] ->
  exists e, update_dex_premium_rewards (X:=X) cfg allowed updates s = (Err e, s).
Proof.
  intros Hst Hne. destruct updates as [|[c v] updates]; [done|].
  unfold update_dex_premium_rewards, transactional, bind, ensure. destruct allowed; simpl; [|by eexists].
  destruct (is_dex_share_currency_id c) eqn:Hc; simpl; [|by eexists].
  destruct (existsb _ _) eqn:Hx; simpl; [|by eexists]. exfalso.
  apply existsb_exists in Hx as (c' & Hin & Heq). apply bool_decide_eq_true in Heq as <-.
  rewrite List.Forall_forall in Hst. apply Hst in Hin. congruence.
Qed.

End Theorems.

(** ** The exchange on top of the pallet *)

Section Exchange.
Context {L X A Origin : Type} `{Countable A} `{!MultiCurrency L X A} `{!FrameSystem L A} `{!Rewards L A}.
Context `{!MultiCurrencyLaws L X A} `{!RewardsLaws L X A}.
Context `{F : FixedPoint} `{U : U256Ops} `{!FixedPointLaws F} `{!U256Laws U}.
Variable icfg : Incentives.Config A.

Abbreviation St := (Incentives.State L A).

#[local] Existing Instance incentives_currency.
#[local] Existing Instance incentives_system.
#[local] Existing Instance incentives_dex_laws.

Variable cfg : Dex.Config St (IncentivesError + X) A Origin.

Abbreviation dex := (dex_account cfg).
Abbreviation Market := (Dex.State St A).
Abbreviation on_pallet m s := (Dex.set_chain (m (Dex.chain s)).2 s).

(** The calls of both pallets, in any order: those of the exchange, whose deposits and
    withdrawals of shares run inside the pallet, and those of the pallet itself, with its
    claims and its periodic issue of rewards. Rewards per period are [u128]. The rest of
    the runtime takes nothing from the account of the exchange. *)
Inductive market_reachable : Market -> Prop :=
| market_genesis s : fresh s -> market_reachable s
| market_dex o c s :
    market_reachable s -> typed_amounts c = true -> enables_self_pair c = false ->
    market_reachable (run_call (DEXIncentives0 := incentives_pallet icfg) cfg o c s).2
| market_deposit o lp v s :
    market_reachable s -> o <> Some dex -> market_reachable (on_pallet (deposit_dex_share (X:=X) icfg o lp v) s)
| market_withdraw o lp v s :
    market_reachable s -> market_reachable (on_pallet (withdraw_dex_share (X:=X) icfg o lp v) s)
| market_claim o p s :
    market_reachable s -> market_reachable (on_pallet (claim_rewards (X:=X) icfg o p) s)
| market_incentives b updates s :
    market_reachable s -> Forall (fun kv => 0 <= kv.2) updates ->
    market_reachable (on_pallet (update_dex_incentive_rewards (X:=X) b updates) s)
| market_premiums b updates s :
    market_reachable s -> Forall (fun kv => 0 <= kv.2) updates ->
    market_reachable (on_pallet (update_dex_premium_rewards (X:=X) icfg b updates) s)
| market_accumulate period now reported s st :
    market_reachable s -> rewards_nonneg (Dex.chain s) ->
    accumulate_reward (X:=X) icfg period now (Dex.chain s) = (Ok reported, st) ->
    market_reachable (Dex.set_chain st s)
| market_chain s st :
    market_reachable s -> (forall c, held cfg c s <= held cfg c (Dex.set_chain st s)) ->
    market_reachable (Dex.set_chain st s).

Hypothesis exchange_no_vault : is_vault icfg dex = false.
Hypothesis exchange_no_pallet : dex <> account_id icfg.

(** What the account of the exchange holds, before and after a step of the pallet. *)
Definition dex_spared (st st' : St) : Prop :=
  forall c, mc_free_balance c dex (Incentives.chain st) <= mc_free_balance c dex (Incentives.chain st').

Lemma deposit_spares o lp v (st : St) : o <> Some dex -> dex_spared st (deposit_dex_share (X:=X) icfg o lp v st).2.
Proof.
  intros Ho. apply (dispatched (deposit_dex_share (X:=X) icfg o lp v)); [by eexists| |by intros c].
  intros st' Hrun c. unfold deposit_dex_share in Hrun. rewrite transactional_ok in Hrun. run_step Hrun.
  match goal with HD : deposit_share _ _ _ _ _ = _ |- _ => apply deposit_share_inv in HD as (_ & l & Hl & ->) end.
  rewrite !(proj1 (add_share_balances _ _ _ _)). destruct (decide (c = lp)) as [->|Hc].
  - apply (mc_transfer_bystander _ _ _ _ _ _ _ Hl). congruence.
  - by rewrite (mc_transfer_other_currency _ _ _ _ _ _ _ dex Hl).
Qed.

Lemma withdraw_spares o lp v (st : St) : dex_spared st (withdraw_dex_share (X:=X) icfg o lp v st).2.
Proof.
  apply (dispatched (withdraw_dex_share (X:=X) icfg o lp v)); [by eexists| |by intros c].
  intros st' Hrun c. unfold withdraw_dex_share in Hrun. rewrite transactional_ok in Hrun. run_step Hrun.
  match goal with HD : withdraw_share _ _ _ _ _ = _ |- _ =>
    apply withdraw_share_spec in HD as (l & Hl & _ & _ & _ & Hb) end.
  etrans; [|by apply Hb]. destruct (decide (c = lp)) as [->|Hc].
  - by apply (mc_transfer_bystander _ _ _ _ _ _ _ Hl).
  - by rewrite (mc_transfer_other_currency _ _ _ _ _ _ _ dex Hl).
Qed.

Lemma claim_spares o p (st : St) : dex_spared st (claim_rewards (X:=X) icfg o p st).2.
Proof.
  apply (dispatched (claim_rewards (X:=X) icfg o p)); [by eexists| |by intros c].
  intros st' Hrun c. unfold claim_rewards, on_rewards in Hrun. rewrite transactional_ok in Hrun. run_step Hrun.
  subst. simpl. match goal with |- context [rewards_claim _ ?w p _] =>
    destruct (claim_settles (payout icfg) w p (Incentives.chain st)) as (l & Hset & [Hb _] & _) end.
  rewrite Hb. by apply settled_eased in Hset as (_ & _ & Heased); apply Heased.
Qed.

Lemma tables_spare (m : M St (IncentivesError + X) unit) (st : St) :
  (exists m', m = transactional m') -> keeps tables_only m -> dex_spared st (m st).2.
Proof.
  intros Ht Hm. apply dispatched; [done| |by intros c]. intros st' Hrun c. by rewrite (proj1 (Hm _ _ _ Hrun)).
Qed.

Lemma accumulate_spares period now reported (st st' : St) :
  rewards_nonneg st -> accumulate_reward (X:=X) icfg period now st = (Ok reported, st') -> dex_spared st st'.
Proof.
  intros Hnn Hrun c. apply accumulate_reward_inv in Hrun as (_ & [(_ & _ & ->)|(acc & l & _ & Hps & -> & _)]); [done| |done].
  apply accumulate_pools_spec in Hps as (l' & E & _ & Hb & _); [|done|apply zero_u128..].
  rewrite E. apply Hb.
Qed.

(** For the exchange alone, what the pallet does in between is the chain moving. *)
Lemma market_is_reachable (s : Market) :
  market_reachable s -> DexTheorems.reachable (DEXIncentives0 := incentives_pallet icfg) cfg s.
Proof.
  induction 1; try (apply reachable_chain; [done|]).
  - by apply reachable_genesis.
  - by apply reachable_call.
  - by apply deposit_spares.
  - by apply withdraw_spares.
  - by apply claim_spares.
  - apply tables_spare; [by eexists|by apply update_incentives_tables].
  - apply tables_spare; [by eexists|by apply update_premiums_tables].
  - by eapply accumulate_spares.
  - done.
Qed.

(** C14: the exchange is solvent with the incentives pallet underneath. The calls of both
    pallets run in any order: trades and provision of liquidity, whose shares are staked
    and unstaked through the pallet with its payouts in the middle of a removal of
    liquidity, and deposits, withdrawals, claims, changes of the reward tables and the
    periodic issue of rewards by the pallet itself. In every state they reach the reserves
    and provisions are covered by what the account of the exchange holds, and pools are of
    two different currencies. As for the exchange alone, the governance does not enable a
    pair of a currency with itself; the account of the exchange has no key, is exempt from
    the removal of dust, and is neither a reward vault nor the account of the pallet, and
    the rest of the chain takes nothing from it, nor does registering a contract. *)
Theorem dex_with_incentives_solvent (s : Market) :
  (forall o, signed_by cfg o <> Some dex) -> keeps_dust dex = true ->
  (forall l, storage_order cfg l ≡ₚ l) ->
  in_uint 32 (exchange_fee cfg).1 /\ in_uint 32 (exchange_fee cfg).2 ->
  trading_path_limit cfg <= 3 -> mapping_keeps_balances cfg ->
  market_reachable s -> dex_inv cfg s.
Proof.
  intros ?????? Hr%market_is_reachable. by eapply (reachable_dex_inv (DEXIncentives0 := incentives_pallet icfg)).
Qed.

End Exchange.

(** * The incentives pallet on a concrete chain

    A small reward book beside the ledger of [Externals]: a log of share movements and of
    withdrawals per staker, and of the rewards per pool. A claim pays the share of the
    pool's rewards that was not withdrawn yet. The exchange runs on top of the pallet. *)

(** ** The reward book *)

Record Farm : Type := MkFarm {
  ledger : Ledger;
  shares : list (PoolId * Z * Z);
  given : list (PoolId * Z);
  withdrawn : list (PoolId * Z * Z)
}.

Definition put_ledger (l : Ledger) (f : Farm) : Farm := MkFarm l (shares f) (given f) (withdrawn f).

Definition log_share (p : PoolId) (w v : Z) (f : Farm) : Farm :=
  MkFarm (ledger f) ((p, w, v) :: shares f) (given f) (withdrawn f).

Definition log_withdrawal (p : PoolId) (w v : Z) (f : Farm) : Farm :=
  MkFarm (ledger f) (shares f) (given f) ((p, w, v) :: withdrawn f).

Definition logged (p : PoolId) (w : Z) (l : list (PoolId * Z * Z)) : Z :=
  zsum (fun e => if bool_decide (p = e.1.1 /\ w = e.1.2) then e.2 else 0) l.

Definition farm_total (p : PoolId) (f : Farm) : Z :=
  zsum (fun e => if bool_decide (p = e.1.1) then e.2 else 0) (shares f).

Definition due (p : PoolId) (w : Z) (f : Farm) : Z :=
  zsum (fun e => if bool_decide (p = e.1) then e.2 else 0) (given f) * logged p w (shares f) / farm_total p f
  - logged p w (withdrawn f).

Definition settle (h : Z -> PoolId -> Z -> Farm -> Farm) (w : Z) (p : PoolId) (f : Farm) : Farm :=
  if due p w f <=? 0 then f else log_withdrawal p w (due p w f) (h w p (due p w f) f).

#[local] Instance farm_rewards : Rewards Farm Z := {|
  add_share w p v f := log_share p w v f;
  remove_share h w p v f := log_share p w (- v) (settle h w p f);
  share_of p w f := logged p w (shares f);
  total_shares := farm_total;
  pools f := remove_dups (map (fun e => e.1.1) (shares f));
  rewards_claim := settle;
  add_reward p v f := MkFarm (ledger f) (shares f) ((p, v) :: given f) (withdrawn f)
|}.

#[local] Instance farm_currency : MultiCurrency Farm LedgerError Z := part_currency ledger put_ledger id.
#[local] Instance farm_system : FrameSystem Farm Z := part_system ledger put_ledger.
#[local] Instance farm_currency_laws : MultiCurrencyLaws Farm LedgerError Z.
Proof. apply part_laws; [done|by intros []|apply _]. Defined.

Lemma settle_settled h w p f :
  exists f1, settled h w p f f1 /\ same_balances (A:=Z) f1 (settle h w p f) /\ same_shares f1 (settle h w p f).
Proof.
  unfold settle. destruct (due p w f <=? 0).
  - exists f. split; [by left|done].
  - exists (h w p (due p w f) f). split; [right; by eexists|done].
Qed.

#[local] Instance farm_laws : RewardsLaws Farm LedgerError Z.
Proof.
  split; intros *.
  - simpl. unfold logged. simpl. lia.
  - simpl. unfold farm_total. simpl. lia.
  - done.
  - intros _. destruct (settle_settled f w p l) as (f1 & Hset & [Hb Hi] & [Hs Ht]). exists f1. split; [done|].
    split; [by split|]. split; intros; [rewrite <- Hs|rewrite <- Ht]; simpl; unfold logged, farm_total; simpl;
      case_bool_decide; lia.
  - apply settle_settled.
  - done.
  - done.
  - intros (k & _ & ->)%zoom_ok. done.
  - intros (k & _ & ->)%zoom_ok. done.
Qed.

(** ** A run *)

Definition DNAR_ID : CurrencyId := Token DNAR.
Definition USDJ_ID : CurrencyId := Token USDJ.
Definition pair : TradingPair := TradingPair_new DNAR_ID USDJ_ID.
Definition share : CurrencyId := default DNAR_ID (get_dex_share_currency_id pair).

(** Account 200 is the pallet's, 201 and 202 are the vaults. *)
Definition farm_config : Incentives.Config Z :=
  Incentives.MkConfig 201 202 [Token USDJ; Token SETT] (Token DRAM) (Token SETT) 200.

Abbreviation St := (Incentives.State Farm Z).

Definition farm_start : St :=
  Incentives.MkState ∅ ∅ [] (MkFarm (MkLedger {[(share, 1) := 1000; (share, 2) := 500]} {[share := 1500]} ∅ 5) [] [] []).

Definition rewarded : St := (update_dex_incentive_rewards (X:=LedgerError) true [(share, 300)] farm_start).2.
Definition one_staked : St := (deposit_dex_share (X:=LedgerError) farm_config (Some 1) share 400 rewarded).2.
Definition two_staked : St := (deposit_dex_share (X:=LedgerError) farm_config (Some 2) share 200 one_staked).2.
Definition accumulation := accumulate_reward (X:=LedgerError) farm_config 10 20 two_staked.
Definition one_left : St := (withdraw_dex_share (X:=LedgerError) farm_config (Some 1) share 400 accumulation.2).2.

Example farm_run :
  accumulation.1 = Ok [(Token DRAM, 300)]
  /\ balance_of (Token DRAM) 1 (ledger (chain one_left)) = 200
  /\ balance_of (Token DRAM) 201 (ledger (chain one_left)) = 100
  /\ balance_of share 1 (ledger (chain one_left)) = 1000
  /\ total_shares (DexPremium share) (chain one_left) = 200.
Proof. by vm_compute. Qed.

Lemma farm_nonneg : rewards_nonneg two_staked.
Proof.
  split; [|by vm_compute]. apply map_Forall_lookup. intros c v Hv.
  change (<[share := 300]> (∅ : gmap CurrencyId Z) !! c = Some v) in Hv.
  apply lookup_insert_Some in Hv as [[_ <-]|[_ Hv]]; [done|by rewrite lookup_empty in Hv].
Qed.

Lemma accumulation_ran : accumulation = (Ok [(Token DRAM, 300)], accumulation.2).
Proof. apply ran. by vm_compute. Qed.

Lemma one_left_reachable : pools_reachable (X:=LedgerError) farm_config one_left.
Proof.
  apply pools_withdraw; [|done]. eapply pools_accumulate; [|apply accumulation_ran].
  apply pools_deposit; [|done]. apply pools_deposit; [|done]. apply pools_incentives; [|by constructor].
  apply pools_genesis; done.
Qed.

Lemma farm_dust : keeps_dust (L:=Farm) (X:=LedgerError) (account_id farm_config) = true.
Proof. done. Qed.

Lemma farm_account : is_vault farm_config (account_id farm_config) = false.
Proof. by vm_compute. Qed.

Lemma staked_shares_are_held_witness :
  total_shares (DexPremium share) (chain one_left) = 200
  /\ total_shares (DexPremium share) (chain one_left) <= mc_free_balance (X:=LedgerError) share 200 (chain one_left).
Proof.
  split; [by vm_compute|].
  destruct (staked_shares_are_held (X:=LedgerError) farm_config farm_dust farm_account one_left one_left_reachable)
    as (_ & _ & Hheld). apply Hheld. by vm_compute.
Defined.

Lemma accumulated_is_issued_witness :
  mc_total_issuance (X:=LedgerError) (AccountId:=Z) (Token DRAM) (chain accumulation.2)
  = mc_total_issuance (X:=LedgerError) (AccountId:=Z) (Token DRAM) (chain two_staked) + 300.
Proof.
  destruct (accumulated_is_issued (X:=LedgerError) farm_config 10 20 _ _ _ farm_nonneg accumulation_ran)
    as (_ & _ & _ & _ & Hi).
  rewrite Hi; [by vm_compute|]. constructor; [by vm_compute|constructor].
Defined.

Lemma deposit_then_withdraw_witness :
  exists s2, withdraw_share (X:=LedgerError) farm_config 1 share 400 (deposit_share (X:=LedgerError) farm_config 1 share 400 rewarded).2
             = (Ok tt, s2) /\ same_shares (chain rewarded) (chain s2).
Proof.
  apply (deposit_then_withdraw (X:=LedgerError) farm_config 1 share 400 rewarded).
  - done.
  - intros p. by vm_compute.
  - done.
  - apply ran. by vm_compute.
  - eexists. apply ran. by vm_compute.
Defined.

Lemma premium_updates_are_refused_witness :
  exists e, update_dex_premium_rewards (X:=LedgerError) farm_config true [(share, 7)] rewarded = (Err e, rewarded).
Proof. apply (premium_updates_are_refused (X:=LedgerError) farm_config); [by repeat constructor|done]. Defined.

(** ** The exchange *)

Definition exchange_config : Dex.Config St (IncentivesError + LedgerError) Z Z :=
  Dex.MkConfig 100 3 (3, 1000) (fun l => l)
    (fun o => if (o =? 0) || (o =? 100) then None else Some o) (fun o => o =? 0) (inl BadOrigin)
    (fun _ => ret tt) (fun _ _ => None).

#[local] Existing Instance incentives_currency.
#[local] Existing Instance incentives_system.
#[local] Instance exchange_pallet : DEXIncentives St (IncentivesError + LedgerError) Z := incentives_pallet farm_config.

Definition market_start : Dex.State St Z :=
  Dex.MkState ∅ ∅ ∅ [] (Incentives.MkState ∅ ∅ [] (MkFarm
    (MkLedger {[ (DNAR_ID, 1) := 10 ^ 12; (USDJ_ID, 1) := 10 ^ 12 ]} ∅ ∅ 5) [] [] [])).

(** Liquidity is added and staked at once, and an eighth of the shares is taken out again. *)
Definition market_enabled := (run_call exchange_config 0 (EnablePair DNAR_ID USDJ_ID) market_start).2.
Definition market_open := (run_call exchange_config 1 (AddLiquidityCall DNAR_ID USDJ_ID 100000 400000 0 true) market_enabled).2.
Definition market_left := (run_call exchange_config 1 (RemoveLiquidityCall DNAR_ID USDJ_ID 100000 0 0 true) market_open).2.

Lemma exchange_keyless o : signed_by exchange_config o <> Some (dex_account exchange_config).
Proof. simpl. destruct ((o =? 0) || (o =? 100)) eqn:E; [done|]. intros [= ->]. done. Qed.

Lemma exchange_dust : keeps_dust (L:=St) (X:=IncentivesError + LedgerError) (dex_account exchange_config) = true.
Proof. done. Qed.

Lemma exchange_vault : is_vault farm_config (dex_account exchange_config) = false.
Proof. by vm_compute. Qed.

Lemma exchange_fee_u32 : in_uint 32 (exchange_fee exchange_config).1 /\ in_uint 32 (exchange_fee exchange_config).2.
Proof. by vm_compute. Qed.

Lemma exchange_mapping : mapping_keeps_balances exchange_config.
Proof. intros addr l l' [= <-]. done. Qed.

(** Account 1 takes out the rest by hand and is paid its rewards. *)
Definition market_unstaked : Dex.State St Z :=
  Dex.set_chain (withdraw_dex_share (X:=LedgerError) farm_config (Some 1) share 700000 (Dex.chain market_left)).2 market_left.

Lemma exchange_pallet_account : dex_account exchange_config <> account_id farm_config.
Proof. done. Qed.

Lemma market_unstaked_reachable : market_reachable farm_config exchange_config market_unstaked.
Proof.
  apply market_withdraw. apply market_dex; [|done..]. apply market_dex; [|done..]. apply market_dex; [|done..].
  by apply market_genesis.
Qed.

Lemma dex_with_incentives_solvent_witness :
  total_shares (DexPremium share) (chain (Dex.chain market_left)) = 700000
  /\ total_shares (DexPremium share) (chain (Dex.chain market_unstaked)) = 0
  /\ dex_inv exchange_config market_unstaked.
Proof.
  split; [by vm_compute|]. split; [by vm_compute|].
  apply (dex_with_incentives_solvent farm_config exchange_config exchange_vault exchange_pallet_account market_unstaked
           exchange_keyless exchange_dust (fun l => Permutation_refl l) exchange_fee_u32 ltac:(by vm_compute)
           exchange_mapping market_unstaked_reachable).
Defined.
