(* ===== verification/SlashingSpans.v ===== *)
(** * Slashing spans

    [lib-serml/serp/serp-staking/src/slashing.rs], the data structure: the eras of a
    stash are divided into consecutive spans, each with an index; the most recent one
    is ongoing. Eras and indices are [u32] and wrap as they do in a release build. The
    theorems say that the spans partition the eras from the earliest start on, and that
    ending a span and pruning keep every recorded era in the span it was in. *)

From S2P Require Import Prelude.

Record SlashingSpan : Type := MkSpan {
  index : Z;
  start : Z;
  span_length : option Z
}.

Definition contains_era (span : SlashingSpan) (era : Z) : bool :=
  (start span <=? era)
  && match span_length span with
     | Some l => era <? wrap 32 (start span + l)
     | None => true
     end.

Record SlashingSpans : Type := MkSpans {
  span_index : Z;
  last_start : Z;
  last_nonzero_slash : Z;
  prior : list Z
}.

Definition SlashingSpans_new (window_start : Z) : SlashingSpans := MkSpans 0 window_start 0 [].

(** [true] and the new spans, or [false] and the same ones. *)
Definition end_span (now : Z) (s : SlashingSpans) : bool * SlashingSpans :=
  let next_start := wrap 32 (now + 1) in
  if next_start <=? last_start s then (false, s)
  else
    let last_length := wrap 32 (next_start - last_start s) in
    (true, MkSpans (wrap 32 (span_index s + 1)) next_start (last_nonzero_slash s)
             (last_length :: prior s)).

(** The closure of [iter], which carries [last_start] and [index]. *)
Fixpoint prior_spans (last_start index : Z) (prior : list Z) : list SlashingSpan :=
  match prior with
  | [] => []
  | length :: rest =>
      let start := wrap 32 (last_start - length) in
      let index := wrap 32 (index - 1) in
      MkSpan index start (Some length) :: prior_spans start index rest
  end.

Definition iter (s : SlashingSpans) : list SlashingSpan :=
  MkSpan (span_index s) (last_start s) None :: prior_spans (last_start s) (span_index s) (prior s).

(** [iter().position(..)]. *)
Fixpoint position {A : Type} (f : A -> bool) (l : list A) : option nat :=
  match l with
  | [] => None
  | x :: l' => if f x then Some O else S <$> position f l'
  end.

Definition ends_by (window_start : Z) (span : SlashingSpan) : bool :=
  match span_length span with
  | Some len => wrap 32 (start span + len) <=? window_start
  | None => false
  end.

Definition prune (window_start : Z) (s : SlashingSpans) : option (Z * Z) * SlashingSpans :=
  let old_idx := position (ends_by window_start) (drop 1 (iter s)) in
  let earliest_span_index := wrap 32 (span_index s - Z.of_nat (length (prior s))) in
  let '(pruned, prior') :=
    match old_idx with
    | Some o =>
        let prior' := take o (prior s) in
        (Some (earliest_span_index, wrap 32 (span_index s - Z.of_nat (length prior'))), prior')
    | None => (None, prior s)
    end in
  (pruned, MkSpans (span_index s) (Z.max (last_start s) window_start) (last_nonzero_slash s) prior').

(** [self.spans.iter().find(|span| span.contains_era(era))]. *)
Definition find_span (era : Z) (s : SlashingSpans) : option SlashingSpan :=
  List.find (fun span => contains_era span era) (iter s).

(** The span an era belongs to, by its index. *)
Definition span_of (era : Z) (s : SlashingSpans) : option Z := index <$> find_span era s.

(** ** The invariant *)

Definition total_length (prior : list Z) : Z := zsum (fun l => l) prior.

Record spans_ok (s : SlashingSpans) : Prop := {
  ok_index : in_uint 32 (span_index s);
  ok_start : in_uint 32 (last_start s);
  ok_index_start : span_index s <= last_start s;
  ok_prior : Forall (fun l => 0 < l) (prior s);
  ok_total : total_length (prior s) <= last_start s;
  ok_count : Z.of_nat (length (prior s)) <= span_index s
}.

(** Where the recorded eras begin. *)
Definition earliest_start (s : SlashingSpans) : Z := last_start s - total_length (prior s).

(** The bounds under which the offsets of a list of prior spans do not wrap. *)
Definition prior_ok (ls idx : Z) (pr : list Z) : Prop :=
  ls <= umax 32 /\ idx <= umax 32 /\ Forall (fun l => 0 < l) pr /\ total_length pr <= ls
  /\ Z.of_nat (length pr) <= idx.

Lemma spans_prior_ok s : spans_ok s -> prior_ok (last_start s) (span_index s) (prior s).
Proof. intros [[? ?] [? ?] ? ? ? ?]. by repeat split. Qed.

Lemma total_length_nonneg pr : Forall (fun l => 0 < l) pr -> 0 <= total_length pr.
Proof.
  intros Hp. apply zsum_nonneg. intros x Hx. rewrite Forall_forall in Hp.
  specialize (Hp x Hx). lia.
Qed.

Lemma prior_ok_cons ls idx l pr :
  prior_ok ls idx (l :: pr) ->
  0 < l /\ 0 <= ls - l /\ ls <= umax 32 /\ prior_ok (ls - l) (idx - 1) pr
  /\ prior_spans ls idx (l :: pr) = MkSpan (idx - 1) (ls - l) (Some l) :: prior_spans (ls - l) (idx - 1) pr.
Proof.
  intros (Hls & Hidx & Hf & Ht & Hc). apply Forall_cons in Hf as [Hl Hf].
  pose proof (total_length_nonneg pr Hf) as Hn. unfold total_length in *. simpl in Ht, Hc.
  assert (0 <= ls - l /\ 0 <= idx - 1) as [H1 H2] by (unfold total_length in *; lia).
  split_and!; try lia; [split_and!; try done; unfold total_length; lia|].
  simpl. rewrite (wrap_exact 32 (ls - l)), (wrap_exact 32 (idx - 1)); [done|unfold in_uint; lia..].
Qed.

(** Every prior span lies below [ls], has its length, and an index below [idx]. *)
Lemma prior_spans_bounds pr : forall ls idx sp,
  prior_ok ls idx pr -> sp ∈ prior_spans ls idx pr ->
  exists l, span_length sp = Some l /\ 0 < l /\ start sp + l <= ls /\ ls - total_length pr <= start sp
    /\ 0 <= start sp /\ idx - Z.of_nat (length pr) <= index sp < idx.
Proof.
  induction pr as [|l pr IH]; intros ls idx sp Hok Hin; [by apply elem_of_nil in Hin|].
  apply prior_ok_cons in Hok as (Hl & H0 & Hmax & Hok & E). rewrite E in Hin.
  pose proof Hok as (_ & _ & Hf & _ & _). pose proof (total_length_nonneg pr Hf) as Hn.
  change (total_length (l :: pr)) with (l + total_length pr). cbn [length].
  apply elem_of_cons in Hin as [->|Hin].
  - exists l. simpl. split_and!; try done; lia.
  - apply IH in Hin as (l' & El & Hl' & He & Hs & H0' & Hi); [|done]. exists l'.
    split_and!; try done; lia.
Qed.

Lemma contains_bounded sp l era :
  span_length sp = Some l -> 0 <= start sp + l <= umax 32 ->
  contains_era sp era = (start sp <=? era) && (era <? start sp + l).
Proof. intros E Hb. unfold contains_era. by rewrite E, wrap_exact. Qed.

(** Below [ls], the prior spans are searched one after the other. *)
Lemma find_prior_cons ls idx l pr era :
  prior_ok ls idx (l :: pr) -> era < ls ->
  List.find (fun span => contains_era span era) (prior_spans ls idx (l :: pr)) =
  if ls - l <=? era then Some (MkSpan (idx - 1) (ls - l) (Some l))
  else List.find (fun span => contains_era span era) (prior_spans (ls - l) (idx - 1) pr).
Proof.
  intros Hok He. apply prior_ok_cons in Hok as (Hl & H0 & Hmax & Hok & ->). cbn [List.find].
  rewrite (contains_bounded _ l) by (simpl; try done; lia). simpl.
  destruct (Z.leb_spec (ls - l) era); simpl; [|done].
  destruct (Z.ltb_spec era (ls - l + l)); [done|lia].
Qed.

Lemma find_span_eq era s :
  find_span era s =
  if last_start s <=? era then Some (MkSpan (span_index s) (last_start s) None)
  else List.find (fun span => contains_era span era) (prior_spans (last_start s) (span_index s) (prior s)).
Proof. unfold find_span, iter. cbn [List.find]. unfold contains_era at 1. simpl. by rewrite andb_true_r. Qed.

Lemma find_prior_some pr : forall ls idx era,
  prior_ok ls idx pr -> era < ls ->
  match List.find (fun span => contains_era span era) (prior_spans ls idx pr) with
  | Some sp => sp ∈ prior_spans ls idx pr /\ contains_era sp era = true
               /\ forall sp', sp' ∈ prior_spans ls idx pr -> contains_era sp' era = true -> sp' = sp
  | None => era < ls - total_length pr
  end.
Proof.
  induction pr as [|l pr IH]; intros ls idx era Hok He; [unfold total_length; simpl; lia|].
  rewrite find_prior_cons by done. pose proof (prior_ok_cons _ _ _ _ Hok) as (Hl & H0 & Hmax & Hok' & E).
  rewrite E. change (total_length (l :: pr)) with (l + total_length pr).
  destruct (Z.leb_spec (ls - l) era) as [Hge|Hlt].
  - split_and!; [left| |].
    + rewrite (contains_bounded _ l) by (simpl; try done; lia). simpl. apply andb_true_iff. split.
      * by apply Z.leb_le.
      * apply Z.ltb_lt. lia.
    + intros sp' Hin Hc. apply elem_of_cons in Hin as [->|Hin]; [done|]. exfalso.
      apply (prior_spans_bounds _ _ _ _ Hok') in Hin as (l' & El & Hl' & Hend & _ & H0' & _).
      rewrite (contains_bounded _ l') in Hc by (done || lia). bool_inv. lia.
  - specialize (IH (ls - l) (idx - 1) era Hok' Hlt).
    destruct (List.find _ _) as [sp|]; [|lia]. destruct IH as (Hin & Hc & Hu). split_and!; [by right|done|].
    intros sp' Hin' Hc'. apply elem_of_cons in Hin' as [->|Hin']; [|by apply Hu]. exfalso.
    rewrite (contains_bounded _ l) in Hc' by (simpl; try done; lia). simpl in Hc'. bool_inv. lia.
Qed.

(** C28: the spans of a stash partition the eras. From the start of the earliest recorded
    span on, every era lies in exactly one span and the search finds it; before, in
    none. *)
Theorem spans_partition_eras (s : SlashingSpans) (era : Z) :
  spans_ok s ->
  match find_span era s with
  | Some sp => sp ∈ iter s /\ contains_era sp era = true
               /\ forall sp', sp' ∈ iter s -> contains_era sp' era = true -> sp' = sp
  | None => era < earliest_start s
  end.
Proof.
  intros Hok. pose proof (spans_prior_ok s Hok) as Hp. rewrite find_span_eq. unfold iter, earliest_start.
  destruct (Z.leb_spec (last_start s) era) as [Hge|Hlt].
  - split_and!; [left| |].
    + unfold contains_era. simpl. rewrite andb_true_r. by apply Z.leb_le.
    + intros sp' Hin Hc. apply elem_of_cons in Hin as [->|Hin]; [done|]. exfalso.
      apply (prior_spans_bounds _ _ _ _ Hp) in Hin as (l & El & Hl & Hend & _ & H0 & _).
      destruct Hok as [_ [_ Hmax] _ _ _ _]. rewrite (contains_bounded _ l) in Hc by (done || lia).
      bool_inv. lia.
  - pose proof (find_prior_some _ _ _ era Hp Hlt) as Hf.
    destruct (List.find _ _) as [sp|]; [|done]. destruct Hf as (Hin & Hc & Hu).
    split_and!; [by right|done|]. intros sp' Hin' Hc'.
    apply elem_of_cons in Hin' as [->|Hin']; [|by apply Hu]. exfalso.
    unfold contains_era in Hc'. simpl in Hc'. bool_inv. lia.
Qed.

Lemma SlashingSpans_new_ok w : in_uint 32 w -> spans_ok (SlashingSpans_new w).
Proof.
  intros Hw. split; simpl; [by vm_compute|done|apply Hw|constructor| |lia].
  unfold total_length, in_uint in *. simpl. lia.
Qed.

Lemma span_of_ge era s : last_start s <= era -> span_of era s = Some (span_index s).
Proof. intros He. unfold span_of. rewrite find_span_eq. apply Z.leb_le in He. by rewrite He. Qed.

Lemma span_of_lt era s :
  era < last_start s ->
  span_of era s = index <$> List.find (fun span => contains_era span era)
                             (prior_spans (last_start s) (span_index s) (prior s)).
Proof.
  intros He. unfold span_of. rewrite find_span_eq. destruct (Z.leb_spec (last_start s) era); [lia|done].
Qed.

Lemma end_span_ok (s : SlashingSpans) (now : Z) :
  spans_ok s -> 0 <= now < umax 32 -> spans_ok (end_span now s).2.
Proof.
  intros Hok Hnow. pose proof Hok as [[Hi0 Hi1] [Hs0 Hs1] Hidx Hf Ht Hc]. unfold end_span. cbv zeta.
  rewrite (wrap_exact 32 (now + 1)) by (unfold in_uint; lia).
  destruct (Z.leb_spec (now + 1) (last_start s)) as [Hle|Hgt]; [done|].
  rewrite (wrap_exact 32 (now + 1 - last_start s)) by (unfold in_uint; lia).
  rewrite (wrap_exact 32 (span_index s + 1)) by (unfold in_uint; lia).
  split; simpl; [unfold in_uint; lia..|lia|constructor; [lia|done]| |lia].
  change (now + 1 - last_start s + total_length (prior s) <= now + 1). lia.
Qed.

(** Ending a span. Unless the ongoing span starts after [now], in which case nothing
    changes and [false] is returned, a new span begins at the era after [now]: every
    era up to [now] stays in the span it was in, every later one is in the new span,
    whose index has not been used before. *)
Theorem end_span_extends (s : SlashingSpans) (now : Z) :
  spans_ok s -> 0 <= now < umax 32 ->
  let '(ended, s') := end_span now s in
  spans_ok s'
  /\ if now <? last_start s then ended = false /\ s' = s
     else ended = true /\ span_index s' = span_index s + 1
          /\ forall era, span_of era s' = if era <=? now then span_of era s else Some (span_index s + 1).
Proof.
  intros Hok Hnow. pose proof (end_span_ok s now Hok Hnow) as Hok'. revert Hok'.
  pose proof Hok as [[Hi0 Hi1] [Hs0 Hs1] Hidx Hf Ht Hc]. unfold end_span. cbv zeta.
  rewrite (wrap_exact 32 (now + 1)) by (unfold in_uint; lia).
  destruct (Z.leb_spec (now + 1) (last_start s)) as [Hle|Hgt]; intros Hok'.
  - split; [done|]. destruct (Z.ltb_spec now (last_start s)); [done|lia].
  - revert Hok'. rewrite (wrap_exact 32 (now + 1 - last_start s)) by (unfold in_uint; lia).
    rewrite (wrap_exact 32 (span_index s + 1)) by (unfold in_uint; lia).
    set (len := now + 1 - last_start s). set (s' := MkSpans _ _ _ _). intros Hok'. simpl in Hok'.
    split; [done|]. destruct (Z.ltb_spec now (last_start s)) as [|Hnlt]; [lia|].
    split_and!; [done|done|]. intros era. destruct (Z.leb_spec era now) as [Hera|Hera].
    + rewrite span_of_lt by (simpl; lia).
      pose proof (spans_prior_ok s' Hok') as Hp'. cbn [prior s'] in *.
      rewrite find_prior_cons by (done || (simpl; lia)). cbn [last_start span_index s'] in *.
      replace (now + 1 - len) with (last_start s) by lia.
      replace (span_index s + 1 - 1) with (span_index s) by lia.
      unfold span_of. rewrite find_span_eq. by destruct (Z.leb_spec (last_start s) era).
    + rewrite span_of_ge by (simpl; lia). done.
Qed.

Lemma position_take {A : Type} (f : A -> bool) (l : list A) o :
  position f l = Some o ->
  exists x, l !! o = Some x /\ f x = true /\ forall y, y ∈ take o l -> f y = false.
Proof.
  revert o. induction l as [|x l IH]; intros o; simpl; [done|]. destruct (f x) eqn:E.
  - intros [= <-]. exists x. split_and!; try done. intros y Hy. by apply elem_of_nil in Hy.
  - intros Hp. apply fmap_Some in Hp as (o' & Hp & ->). apply IH in Hp as (z & Hz & Hfz & Ht).
    exists z. split_and!; try done. simpl. intros y Hy. apply elem_of_cons in Hy as [->|Hy]; [done|by apply Ht].
Qed.

Lemma position_none {A : Type} (f : A -> bool) (l : list A) :
  position f l = None -> forall y, y ∈ l -> f y = false.
Proof.
  induction l as [|x l IH]; simpl; intros Hp y Hy; [by apply elem_of_nil in Hy|].
  destruct (f x) eqn:E; [done|]. apply fmap_None in Hp.
  apply elem_of_cons in Hy as [->|Hy]; [done|by apply IH].
Qed.

(** Cutting the list of offsets cuts the list of spans. *)
Lemma prior_spans_take pr : forall ls idx n,
  prior_spans ls idx (take n pr) = take n (prior_spans ls idx pr).
Proof. induction pr as [|l pr IH]; intros ls idx [|n]; simpl; try done. by rewrite IH. Qed.

Lemma prior_ok_take n pr : forall ls idx, prior_ok ls idx pr -> prior_ok ls idx (take n pr).
Proof.
  intros ls idx (Hls & Hidx & Hf & Ht & Hc).
  assert (total_length pr = total_length (take n pr) + total_length (drop n pr)) as Esum.
  { unfold total_length. by rewrite <- zsum_app, take_drop. }
  pose proof (total_length_nonneg (drop n pr) (Forall_drop _ _ _ Hf)).
  split_and!; try done; [by apply Forall_take|lia|]. rewrite length_take. lia.
Qed.

(** The spans before position [o] are the ones an era not before [w] can be in. *)
Lemma find_take pr : forall ls idx o w era,
  prior_ok ls idx pr -> era < ls -> w <= era ->
  (exists x, prior_spans ls idx pr !! o = Some x /\ ends_by w x = true) ->
  List.find (fun span => contains_era span era) (prior_spans ls idx (take o pr)) =
  List.find (fun span => contains_era span era) (prior_spans ls idx pr).
Proof.
  induction pr as [|l pr IH]; intros ls idx o w era Hok He Hw (x & Hx & Hends); [done|].
  pose proof (prior_ok_cons _ _ _ _ Hok) as (Hl & H0 & Hmax & Hok' & E). destruct o as [|o].
  - rewrite E in Hx. injection Hx as <-. unfold ends_by in Hends. simpl in Hends.
    rewrite wrap_exact in Hends by (unfold in_uint; lia). bool_inv. lia.
  - pose proof (prior_ok_take (S o) (l :: pr) ls idx Hok) as Hokt. cbn [take] in Hokt |- *.
    rewrite (find_prior_cons ls idx l pr), (find_prior_cons ls idx l (take o pr)) by done.
    destruct (Z.leb_spec (ls - l) era); [done|]. rewrite E in Hx.
    apply (IH _ _ o w); try done. by exists x.
Qed.

(** The indices of the prior spans count down from the ongoing one. *)
Lemma prior_spans_index pr : forall ls idx i,
  prior_ok ls idx pr ->
  (exists sp, sp ∈ prior_spans ls idx pr /\ index sp = i) <-> idx - Z.of_nat (length pr) <= i < idx.
Proof.
  induction pr as [|l pr IH]; intros ls idx i Hok.
  - simpl. split; [|lia]. intros (sp & Hin & _). by apply elem_of_nil in Hin.
  - apply prior_ok_cons in Hok as (_ & _ & _ & Hok & ->). specialize (IH _ _ i Hok). cbn [length].
    split.
    + intros (sp & Hin & Hi). apply elem_of_cons in Hin as [->|Hin]; [simpl in Hi; lia|].
      assert (idx - 1 - Z.of_nat (length pr) <= i < idx - 1) by (apply IH; eauto). lia.
    + intros Hi. destruct (decide (i = idx - 1)) as [->|Hne]; [eexists; split; [left|done]|].
      destruct (proj2 IH) as (sp & Hin & Hsp); [lia|]. exists sp. split; [by right|done].
Qed.

Lemma iter_index s i :
  spans_ok s ->
  (exists sp, sp ∈ iter s /\ index sp = i) <-> span_index s - Z.of_nat (length (prior s)) <= i <= span_index s.
Proof.
  intros Hok. pose proof (prior_spans_index _ _ _ i (spans_prior_ok s Hok)) as Hi. unfold iter.
  setoid_rewrite elem_of_cons. split.
  - intros (sp & [->|Hin] & <-); [simpl; lia|].
    assert (span_index s - Z.of_nat (length (prior s)) <= index sp < span_index s) by (apply Hi; eauto). lia.
  - intros Hb. destruct (decide (i = span_index s)) as [->|Hne]; [eexists; split; [by left|done]|].
    destruct (proj2 Hi) as (sp & Hin & Hsp); [lia|]. exists sp. split; [by right|done].
Qed.

Lemma length_prior_spans pr : forall ls idx, length (prior_spans ls idx pr) = length pr.
Proof. induction pr; intros; simpl; congruence. Qed.

(** The prior spans go down without gaps: an earlier one that ends by [w] is followed by
    such ones only, and one that starts an offset below [ls] keeps [ls] above [w]. *)
Lemma kept_prior pr : forall ls idx w,
  prior_ok ls idx pr -> position (ends_by w) (prior_spans ls idx pr) <> Some O -> pr <> [] -> w < ls.
Proof.
  intros ls idx w Hok Hp Hne. destruct pr as [|l pr]; [done|].
  apply prior_ok_cons in Hok as (Hl & H0 & Hmax & Hok & E). rewrite E in Hp. simpl in Hp.
  unfold ends_by at 1 in Hp. simpl in Hp. rewrite wrap_exact in Hp by (unfold in_uint; lia).
  destruct (Z.leb_spec (ls - l + l) w); [done|lia].
Qed.

(** What pruning keeps of the offsets, and that this is all an era of the window needs. *)
Lemma prune_cut (s : SlashingSpans) (w : Z) :
  spans_ok s ->
  exists kept,
  (prune w s).2 = MkSpans (span_index s) (Z.max (last_start s) w) (last_nonzero_slash s) kept
  /\ (kept = [] \/ Z.max (last_start s) w = last_start s)
  /\ (forall sp, sp ∈ prior_spans (last_start s) (span_index s) kept -> ends_by w sp = false)
  /\ (forall era, era < last_start s -> w <= era ->
       List.find (fun span => contains_era span era) (prior_spans (last_start s) (span_index s) kept)
       = List.find (fun span => contains_era span era) (prior_spans (last_start s) (span_index s) (prior s)))
  /\ match (prune w s).1 with
     | Some (first, last) =>
         first = span_index s - Z.of_nat (length (prior s)) /\ last = span_index s - Z.of_nat (length kept)
         /\ (length kept <= length (prior s))%nat
     | None => kept = prior s
     end.
Proof.
  intros Hok. pose proof Hok as [[Hi0 Hi1] [Hs0 Hs1] Hidx Hf Ht Hc]. pose proof (spans_prior_ok s Hok) as Hp. unfold prune.
  change (drop 1 (iter s)) with (prior_spans (last_start s) (span_index s) (prior s)).
  destruct (position (ends_by w) (prior_spans (last_start s) (span_index s) (prior s))) as [o|] eqn:Epos.
  - pose proof (position_take _ _ _ Epos) as (x & Hx & Hends & Hkeep).
    assert (o < length (prior s))%nat as Ho.
    { rewrite <- (length_prior_spans (prior s) (last_start s) (span_index s)). by eapply lookup_lt_Some. }
    assert (length (take o (prior s)) = o) as Hlen by (rewrite length_take; lia).
    exists (take o (prior s)). cbn [fst snd]. rewrite Hlen, !wrap_exact by (unfold in_uint; lia).
    split_and!; try done; try lia.
    + destruct o as [|o']; [by left|right]. enough (w < last_start s) by lia.
      apply (kept_prior (prior s) _ (span_index s)); [done|by rewrite Epos|]. intros E. rewrite E in Ho. simpl in Ho. lia.
    + intros sp. rewrite prior_spans_take. apply Hkeep.
    + intros era Hera Hw. apply (find_take _ _ _ o w); try done. by exists x.
  - exists (prior s). cbn [fst snd]. split_and!; try done.
    + destruct (decide (prior s = [])) as [|Hne]; [by left|right]. enough (w < last_start s) by lia.
      apply (kept_prior (prior s) _ (span_index s)); [done|by rewrite Epos|done].
    + by apply position_none.
Qed.

Lemma prune_ok (s : SlashingSpans) (w : Z) : spans_ok s -> in_uint 32 w -> spans_ok (prune w s).2.
Proof.
  intros Hok [Hw0 Hw1]. pose proof Hok as [[Hi0 Hi1] [Hs0 Hs1] Hidx Hf Ht Hc]. unfold prune.
  destruct (position _ _) as [o|]; simpl.
  - pose proof (prior_ok_take o _ _ _ (spans_prior_ok s Hok)) as (_ & _ & Hf' & Ht' & Hc').
    split; simpl; try done; [unfold in_uint|..]; lia.
  - split; simpl; try done; [unfold in_uint|..]; lia.
Qed.

(** Pruning against a window. Every era of the window stays in the span it was in;
    the indices reported as pruned are exactly those of the spans that disappear, and
    without a report none does; every completed span that is kept ends inside the
    window. *)
Theorem prune_keeps_window (s : SlashingSpans) (w : Z) :
  spans_ok s -> in_uint 32 w ->
  let '(pruned, s') := prune w s in
  spans_ok s'
  /\ (forall era, w <= era -> span_of era s' = span_of era s)
  /\ (forall sp, sp ∈ drop 1 (iter s') -> ends_by w sp = false)
  /\ match pruned with
     | Some (first, last) =>
         forall i, (exists sp, sp ∈ iter s /\ index sp = i)
                   <-> (exists sp, sp ∈ iter s' /\ index sp = i) \/ first <= i < last
     | None => prior s' = prior s
     end.
Proof.
  intros Hok Hw. pose proof (prune_ok s w Hok Hw) as Hok'. destruct (prune_cut s w Hok) as (kept & E & Hmax & Hends & Hfind & Hpr).
  destruct (prune w s) as [pruned s']. cbn [fst snd] in *. subst s'. split_and!; [done| | |].
  - intros era Hera. destruct (Z.leb_spec (last_start s) era) as [Hge|Hlt].
    + rewrite (span_of_ge era s), span_of_ge by (simpl; lia). done.
    + rewrite (span_of_lt era s), span_of_lt by (simpl; lia). cbn [last_start span_index prior].
      replace (Z.max (last_start s) w) with (last_start s) by lia. by rewrite Hfind.
  - intros sp Hin. change (sp ∈ prior_spans (Z.max (last_start s) w) (span_index s) kept) in Hin.
    destruct Hmax as [->|E]; [by apply elem_of_nil in Hin|]. rewrite E in Hin. by apply Hends.
  - destruct pruned as [[first last]|]; [|done]. destruct Hpr as (-> & -> & Hlen). intros i.
    rewrite !iter_index by done. cbn [span_index prior]. lia.
Qed.

(** ** Concrete spans *)

(** The spans of the tests: ongoing from 1000, before it 990, 981, 973 and 963. *)
Definition sample_spans : SlashingSpans := MkSpans 10 1000 0 [10; 9; 8; 10].

Lemma sample_spans_ok : spans_ok sample_spans.
Proof. split; [by vm_compute|by vm_compute|by vm_compute|by repeat constructor|by vm_compute|by vm_compute]. Qed.

Example many_prior_spans :
  iter sample_spans =
  [MkSpan 10 1000 None; MkSpan 9 990 (Some 10); MkSpan 8 981 (Some 9); MkSpan 7 973 (Some 8);
   MkSpan 6 963 (Some 10)].
Proof. reflexivity. Qed.

Example pruning_spans :
  (prune 981 sample_spans).1 = Some (6, 8) /\ (prune 2000 sample_spans) = (Some (6, 10), MkSpans 10 2000 0 []).
Proof. done. Qed.

Lemma spans_partition_eras_witness :
  find_span 985 sample_spans = Some (MkSpan 8 981 (Some 9))
  /\ forall sp', sp' ∈ iter sample_spans -> contains_era sp' 985 = true -> sp' = MkSpan 8 981 (Some 9).
Proof.
  split; [reflexivity|].
  pose proof (spans_partition_eras sample_spans 985 sample_spans_ok) as Hpart.
  change (find_span 985 sample_spans) with (Some (MkSpan 8 981 (Some 9))) in Hpart. apply Hpart.
Defined.

Lemma end_span_extends_witness :
  end_span 1005 sample_spans = (true, MkSpans 11 1006 0 [6; 10; 9; 8; 10])
  /\ forall era, span_of era (MkSpans 11 1006 0 [6; 10; 9; 8; 10])
                 = if era <=? 1005 then span_of era sample_spans else Some 11.
Proof.
  split; [reflexivity|].
  pose proof (end_span_extends sample_spans 1005 sample_spans_ok) as Hend.
  change (end_span 1005 sample_spans) with (true, MkSpans 11 1006 0 [6; 10; 9; 8; 10]) in Hend.
  destruct Hend as (_ & _ & _ & Hspan); [vm_compute; split; (reflexivity || discriminate)|exact Hspan].
Defined.

Lemma prune_keeps_window_witness :
  prune 981 sample_spans = (Some (6, 8), MkSpans 10 1000 0 [10; 9])
  /\ forall era, 981 <= era -> span_of era (MkSpans 10 1000 0 [10; 9]) = span_of era sample_spans.
Proof.
  split; [reflexivity|].
  pose proof (prune_keeps_window sample_spans 981 sample_spans_ok) as Hprune.
  change (prune 981 sample_spans) with (Some (6, 8), MkSpans 10 1000 0 [10; 9]) in Hprune.
  destruct Hprune as (_ & Hspan & _); [vm_compute; split; discriminate|exact Hspan].
Defined.
