(* ===== verification/StakingLedger.v ===== *)
(** * The ledger of a staker

    [lib-serml/serp/serp-staking/src/lib.rs], [StakingLedger] and its methods: what is
    bonded ([total]) is the active stake plus the chunks being unlocked. Balances are
    [u128] and wrap as they do in a release build; under [ledger_ok] they never do. *)

From S2P Require Import Prelude.

Record UnlockChunk : Type := MkChunk { chunk_value : Z; chunk_era : Z }.

Record StakingLedger (AccountId : Type) : Type := MkLedger {
  stash : AccountId;
  total : Z;
  active : Z;
  unlocking : list UnlockChunk;
  claimed_rewards : list Z
}.

Arguments MkLedger {AccountId}.
Arguments stash {AccountId}.
Arguments total {AccountId}.
Arguments active {AccountId}.
Arguments unlocking {AccountId}.
Arguments claimed_rewards {AccountId}.

Section Ledger.
Context {AccountId : Type}.

(** The chunks that are due leave the list and their value leaves [total]. *)
Definition consolidate_unlocked (current_era : Z) (l : StakingLedger AccountId) : StakingLedger AccountId :=
  let step '(total, kept) chunk :=
    if current_era <? chunk_era chunk then (total, kept ++ [chunk])
    else (sat_sub total (chunk_value chunk), kept) in
  let '(total', unlocking') := fold_left step (unlocking l) (total l, []) in
  MkLedger (stash l) total' (active l) unlocking' (claimed_rewards l).

(** The loop of [rebond], on the chunks from the last one. In the second branch
    [unlocking_balance] becomes [value], which ends the loop. *)
Fixpoint rebond_loop (value unlocking_balance active : Z) (chunks : list UnlockChunk) :
    Z * list UnlockChunk :=
  match chunks with
  | [] => (active, [])
  | last :: rest =>
      if wrap 128 (unlocking_balance + chunk_value last) <=? value then
        let unlocking_balance := wrap 128 (unlocking_balance + chunk_value last) in
        let active := wrap 128 (active + chunk_value last) in
        if value <=? unlocking_balance then (active, rest)
        else rebond_loop value unlocking_balance active rest
      else
        let diff := wrap 128 (value - unlocking_balance) in
        (wrap 128 (active + diff), MkChunk (wrap 128 (chunk_value last - diff)) (chunk_era last) :: rest)
  end.

Definition rebond_ledger (value : Z) (l : StakingLedger AccountId) : StakingLedger AccountId :=
  let '(active', chunks) := rebond_loop value 0 (active l) (reverse (unlocking l)) in
  MkLedger (stash l) (total l) active' (reverse chunks) (claimed_rewards l).

(** The closure of [slash]: [(total_remaining, target, value)] before and after. *)
Definition slash_out_of (minimum_balance total_remaining target value : Z) : Z * Z * Z :=
  let slash_from_target := Z.min value target in
  if slash_from_target =? 0 then (total_remaining, target, value)
  else
    let target := target - slash_from_target in
    let '(slash_from_target, value, target) :=
      if target <=? minimum_balance
      then (wrap 128 (slash_from_target + target), wrap 128 (value + target), 0)
      else (slash_from_target, value, target) in
    (sat_sub total_remaining slash_from_target, target, wrap 128 (value - slash_from_target)).

(** The lazy iteration over the chunks stops at the first one that is not drained; the
    drained ones are removed. *)
Fixpoint slash_chunks (minimum_balance total value : Z) (chunks : list UnlockChunk) :
    Z * list UnlockChunk :=
  match chunks with
  | [] => (total, [])
  | chunk :: rest =>
      let '(total, target, value) := slash_out_of minimum_balance total (chunk_value chunk) value in
      if target =? 0 then slash_chunks minimum_balance total value rest
      else (total, MkChunk target (chunk_era chunk) :: rest)
  end.

Definition slash_ledger (value minimum_balance : Z) (l : StakingLedger AccountId) :
    Z * StakingLedger AccountId :=
  let pre_total := total l in
  let '(total1, active', value1) := slash_out_of minimum_balance (total l) (active l) value in
  let '(total', unlocking') := slash_chunks minimum_balance total1 value1 (unlocking l) in
  (sat_sub pre_total total', MkLedger (stash l) total' active' unlocking' (claimed_rewards l)).

(** ** The invariant *)

Definition unlocking_sum (chunks : list UnlockChunk) : Z := zsum chunk_value chunks.

Definition chunks_nonneg (chunks : list UnlockChunk) : Prop :=
  forall c, c ∈ chunks -> 0 <= chunk_value c.

Record ledger_ok (l : StakingLedger AccountId) : Prop := {
  ok_ledger_total : total l = active l + unlocking_sum (unlocking l);
  ok_ledger_range : total l <= umax 128;
  ok_ledger_active : 0 <= active l;
  ok_ledger_chunks : chunks_nonneg (unlocking l)
}.

Lemma chunks_nonneg_cons c cs : chunks_nonneg (c :: cs) <-> 0 <= chunk_value c /\ chunks_nonneg cs.
Proof.
  split.
  - intros Hc. split; [apply Hc; left|]. intros d Hd. apply Hc. by right.
  - intros [Hc Hcs] d Hd. apply elem_of_cons in Hd as [->|Hd]; [done|by apply Hcs].
Qed.

Lemma unlocking_sum_nonneg cs : chunks_nonneg cs -> 0 <= unlocking_sum cs.
Proof. apply zsum_nonneg. Qed.

Lemma unlocking_sum_cons c cs : unlocking_sum (c :: cs) = chunk_value c + unlocking_sum cs.
Proof. done. Qed.

Lemma chunks_nonneg_reverse cs : chunks_nonneg (reverse cs) <-> chunks_nonneg cs.
Proof. unfold chunks_nonneg. by setoid_rewrite elem_of_reverse. Qed.

Lemma unlocking_sum_reverse cs : unlocking_sum (reverse cs) = unlocking_sum cs.
Proof. unfold unlocking_sum. by rewrite reverse_Permutation. Qed.

(** ** Consolidation *)

Definition due (current_era : Z) (c : UnlockChunk) : bool := chunk_era c <=? current_era.

Lemma consolidate_fold era chunks : forall t kept,
  chunks_nonneg chunks -> unlocking_sum chunks <= t ->
  fold_left (fun '(total, kept) chunk =>
               if era <? chunk_era chunk then (total, kept ++ [chunk])
               else (sat_sub total (chunk_value chunk), kept)) chunks (t, kept)
  = (t - unlocking_sum (List.filter (due era) chunks),
     kept ++ List.filter (fun c => negb (due era c)) chunks).
Proof.
  induction chunks as [|c cs IH]; intros t kept Hn Ht.
  - simpl. rewrite app_nil_r. f_equal. unfold unlocking_sum. simpl. lia.
  - apply chunks_nonneg_cons in Hn as [Hc Hn]. rewrite unlocking_sum_cons in Ht.
    pose proof (unlocking_sum_nonneg cs Hn). cbn [fold_left List.filter].
    assert (due era c = negb (era <? chunk_era c)) as -> by (unfold due; by rewrite Z.leb_antisym).
    destruct (Z.ltb_spec era (chunk_era c)); cbn [negb].
    + rewrite IH by (done || lia). by rewrite <- app_assoc.
    + rewrite sat_sub_exact by lia. rewrite IH by (done || lia). rewrite unlocking_sum_cons. f_equal. lia.
Qed.

Lemma unlocking_sum_split f cs :
  unlocking_sum cs = unlocking_sum (List.filter f cs) + unlocking_sum (List.filter (fun c => negb (f c)) cs).
Proof.
  unfold unlocking_sum. induction cs as [|c cs IH]; simpl; [done|]. destruct (f c); simpl; lia.
Qed.

Lemma consolidate_unlocked_ok (l : StakingLedger AccountId) (era : Z) :
  ledger_ok l -> ledger_ok (consolidate_unlocked era l) /\ stash (consolidate_unlocked era l) = stash l.
Proof.
  intros [Ht Hr Ha Hc]. unfold consolidate_unlocked. rewrite consolidate_fold by (done || lia).
  pose proof (unlocking_sum_split (due era) (unlocking l)) as Hs. split; [|done].
  assert (forall f, chunks_nonneg (List.filter f (unlocking l))) as Hf.
  { intros f c Hin. apply Hc. apply list_elem_of_In in Hin. apply List.filter_In in Hin as [Hin _].
    by apply list_elem_of_In. }
  pose proof (unlocking_sum_nonneg _ (Hf (due era))).
  split; simpl; [lia|lia|done|apply Hf].
Qed.

Lemma consolidate_unlocked_kept (l : StakingLedger AccountId) (era : Z) :
  ledger_ok l -> unlocking (consolidate_unlocked era l) = List.filter (fun c => negb (due era c)) (unlocking l).
Proof. intros [Ht Hr Ha Hc]. unfold consolidate_unlocked. by rewrite consolidate_fold by (done || lia). Qed.

(** Withdrawing what is due. Consolidation removes exactly the chunks whose era has
    come, takes exactly their value out of the total, and leaves the active stake and
    the other chunks, in order. *)
Theorem consolidate_unlocked_spec (l : StakingLedger AccountId) (era : Z) :
  ledger_ok l ->
  let l' := consolidate_unlocked era l in
  ledger_ok l' /\ active l' = active l
  /\ unlocking l' = List.filter (fun c => negb (due era c)) (unlocking l)
  /\ total l - total l' = unlocking_sum (List.filter (due era) (unlocking l)).
Proof.
  intros [Ht Hr Ha Hc]. unfold consolidate_unlocked. rewrite consolidate_fold by (done || lia).
  pose proof (unlocking_sum_split (due era) (unlocking l)) as Hs.
  assert (chunks_nonneg (List.filter (due era) (unlocking l))) as Hdue.
  { intros c Hin. apply Hc. apply list_elem_of_In in Hin. apply List.filter_In in Hin as [Hin _].
    by apply list_elem_of_In. }
  pose proof (unlocking_sum_nonneg _ Hdue). simpl. split_and!; [|done|done|lia].
  split; simpl; try lia. intros c Hin. apply Hc. apply list_elem_of_In in Hin.
  apply List.filter_In in Hin as [Hin _]. by apply list_elem_of_In.
Qed.

(** ** Rebonding *)

Lemma rebond_loop_spec chunks : forall value ub act,
  chunks_nonneg chunks -> 0 <= ub <= value -> 0 <= act ->
  act + unlocking_sum chunks <= umax 128 -> value <= umax 128 -> ub + unlocking_sum chunks <= umax 128 ->
  let '(act', chunks') := rebond_loop value ub act chunks in
  act' = act + Z.min (value - ub) (unlocking_sum chunks)
  /\ chunks_nonneg chunks' /\ act' + unlocking_sum chunks' = act + unlocking_sum chunks.
Proof.
  induction chunks as [|c cs IH]; intros value ub act Hn Hub Ha Hfit Hv Hub2; simpl.
  - unfold unlocking_sum. simpl. split_and!; [lia|done|lia].
  - apply chunks_nonneg_cons in Hn as [Hc Hn]. rewrite unlocking_sum_cons in *.
    pose proof (unlocking_sum_nonneg cs Hn).
    rewrite (wrap_exact 128 (ub + chunk_value c)), (wrap_exact 128 (act + chunk_value c)),
      (wrap_exact 128 (value - ub)) by (unfold in_uint; lia).
    destruct (Z.leb_spec (ub + chunk_value c) value) as [Hle|Hgt].
    + destruct (Z.leb_spec value (ub + chunk_value c)) as [Heq|Hlt].
      * split_and!; [lia|done|lia].
      * specialize (IH value (ub + chunk_value c) (act + chunk_value c) Hn ltac:(lia) ltac:(lia)
                      ltac:(lia) Hv ltac:(lia)).
        destruct (rebond_loop _ _ _ cs) as [act' chunks']. destruct IH as (E1 & E2 & E3).
        split_and!; [lia|done|lia].
    + rewrite (wrap_exact 128 (act + (value - ub))), (wrap_exact 128 (chunk_value c - (value - ub)))
        by (unfold in_uint; lia).
      split_and!; [lia|apply chunks_nonneg_cons; simpl; split; [lia|done]|].
      rewrite unlocking_sum_cons. simpl. lia.
Qed.

Lemma rebond_ledger_ok (l : StakingLedger AccountId) (value : Z) :
  ledger_ok l -> 0 <= value <= umax 128 -> ledger_ok (rebond_ledger value l).
Proof.
  intros [Ht Hr Ha Hc] Hv. unfold rebond_ledger. pose proof (unlocking_sum_nonneg _ Hc).
  pose proof (rebond_loop_spec (reverse (unlocking l)) value 0 (active l)) as Hloop.
  rewrite chunks_nonneg_reverse, unlocking_sum_reverse in Hloop.
  specialize (Hloop Hc ltac:(lia) Ha ltac:(lia) ltac:(lia) ltac:(lia)).
  destruct (rebond_loop _ _ _ _) as [act' chunks']. destruct Hloop as (E1 & E2 & E3).
  split; simpl; rewrite ?unlocking_sum_reverse, ?chunks_nonneg_reverse; (done || lia).
Qed.

Lemma stash_rebond_ledger value (l : StakingLedger AccountId) : stash (rebond_ledger value l) = stash l.
Proof. unfold rebond_ledger. by destruct (rebond_loop _ _ _ _). Qed.

(** Rebonding. The total does not change; as much as was asked for, but no more than
    is unlocking, becomes active again. *)
Theorem rebond_ledger_spec (l : StakingLedger AccountId) (value : Z) :
  ledger_ok l -> 0 <= value <= umax 128 ->
  let l' := rebond_ledger value l in
  ledger_ok l' /\ total l' = total l
  /\ active l' = active l + Z.min value (unlocking_sum (unlocking l)).
Proof.
  intros [Ht Hr Ha Hc] Hv. unfold rebond_ledger.
  pose proof (rebond_loop_spec (reverse (unlocking l)) value 0 (active l)) as Hloop.
  rewrite chunks_nonneg_reverse, unlocking_sum_reverse in Hloop.
  specialize (Hloop Hc ltac:(lia) Ha ltac:(lia) ltac:(lia) ltac:(lia)).
  destruct (rebond_loop _ _ _ _) as [act' chunks']. destruct Hloop as (E1 & E2 & E3).
  rewrite Z.sub_0_r in E1. simpl. split_and!; [|done|done].
  pose proof (unlocking_sum_nonneg _ Hc).
  split; simpl; rewrite ?unlocking_sum_reverse, ?chunks_nonneg_reverse; (done || lia).
Qed.

(** ** Slashing *)

(** One target: it loses what is asked for, or all it has, or all it has when only dust
    would remain; [value] is what is still to be slashed. *)
Lemma slash_out_of_spec minimum t target value :
  0 <= minimum -> 0 <= target -> target <= t -> t <= umax 128 -> 0 <= value <= umax 128 ->
  let '(t', target', value') := slash_out_of minimum t target value in
  0 <= target' /\ t - t' = target - target' /\ value' = value - Z.min value target
  /\ Z.min value target <= target - target' <= Z.min value target + minimum
  /\ (target' = 0 \/ value' = 0).
Proof.
  intros Hm Ht0 Ht Htmax Hv. unfold slash_out_of.
  destruct (Z.eqb_spec (Z.min value target) 0) as [E|E]; [split_and!; lia|].
  destruct (Z.leb_spec (target - Z.min value target) minimum).
  - rewrite (wrap_exact 128 (Z.min value target + _)) by (unfold in_uint; lia).
    replace (Z.min value target + (target - Z.min value target)) with target by lia.
    rewrite sat_sub_exact by lia.
    assert (wrap 128 (wrap 128 (value + (target - Z.min value target)) - target)
            = value - Z.min value target) as ->.
    { unfold wrap. rewrite Zminus_mod_idemp_l.
      replace (value + (target - Z.min value target) - target) with (value - Z.min value target) by lia.
      apply (wrap_exact 128). unfold in_uint. lia. }
    split_and!; lia.
  - rewrite wrap_exact by (unfold in_uint; lia). rewrite sat_sub_exact by lia. split_and!; lia.
Qed.

Lemma slash_out_of_none minimum t target : 0 <= target -> slash_out_of minimum t target 0 = (t, target, 0).
Proof. intros Ht. unfold slash_out_of. by rewrite Z.min_l. Qed.

Lemma slash_chunks_none minimum t chunks :
  chunks_nonneg chunks ->
  let '(t', chunks') := slash_chunks minimum t 0 chunks in
  t' = t /\ chunks_nonneg chunks' /\ unlocking_sum chunks' = unlocking_sum chunks.
Proof.
  induction chunks as [|c cs IH]; intros Hn; cbn [slash_chunks]; [done|].
  apply chunks_nonneg_cons in Hn as [Hc Hn]. rewrite slash_out_of_none by done.
  destruct (Z.eqb_spec (chunk_value c) 0) as [E|E].
  - specialize (IH Hn). destruct (slash_chunks _ _ _ cs) as [t' chunks']. rewrite unlocking_sum_cons, E.
    destruct IH as (-> & ? & ?). split_and!; [done|done|lia].
  - split_and!; [done|apply chunks_nonneg_cons; done|]. rewrite !unlocking_sum_cons. simpl. lia.
Qed.

Lemma slash_chunks_spec minimum chunks : forall t value,
  0 <= minimum -> chunks_nonneg chunks -> unlocking_sum chunks <= t -> t <= umax 128 -> 0 <= value <= umax 128 ->
  let '(t', chunks') := slash_chunks minimum t value chunks in
  chunks_nonneg chunks' /\ t - t' = unlocking_sum chunks - unlocking_sum chunks'
  /\ Z.min value (unlocking_sum chunks) <= t - t' <= Z.min value (unlocking_sum chunks) + minimum.
Proof.
  induction chunks as [|c cs IH]; intros t value Hm Hn Ht Htmax Hv; cbn [slash_chunks].
  { unfold unlocking_sum. simpl. split_and!; (done || lia). }
  apply chunks_nonneg_cons in Hn as [Hc Hn]. rewrite unlocking_sum_cons in *.
  pose proof (unlocking_sum_nonneg cs Hn) as Hcs.
  pose proof (slash_out_of_spec minimum t (chunk_value c) value Hm Hc ltac:(lia) Htmax Hv) as Hone.
  destruct (slash_out_of _ _ _ _) as [[t1 target] value1].
  destruct Hone as (Ht0 & Et & Ev & Hb & Hdone). destruct (Z.eqb_spec target 0) as [E|E].
  - destruct (Z.eq_dec value1 0) as [->|Hv1].
    + pose proof (slash_chunks_none minimum t1 cs Hn) as Hnone.
      destruct (slash_chunks _ _ _ cs) as [t' chunks']. destruct Hnone as (-> & ? & ->).
      split_and!; [done|lia|lia|lia].
    + specialize (IH t1 value1 Hm Hn ltac:(lia) ltac:(lia) ltac:(lia)).
      destruct (slash_chunks _ _ _ cs) as [t' chunks']. destruct IH as (? & ? & ?).
      split_and!; [done|lia|lia|lia].
  - destruct Hdone as [|Hv1]; [done|]. split_and!; [by apply chunks_nonneg_cons|..];
      rewrite ?unlocking_sum_cons; simpl; lia.
Qed.

Lemma slash_ledger_ok (l : StakingLedger AccountId) (value minimum : Z) :
  ledger_ok l -> 0 <= minimum -> 0 <= value <= umax 128 ->
  let '(taken, l') := slash_ledger value minimum l in
  ledger_ok l' /\ stash l' = stash l /\ total l' = total l - taken
  /\ Z.min value (total l) <= taken <= Z.min value (total l) + minimum.
Proof.
  intros [Et Hr Ha Hc] Hm Hv. unfold slash_ledger. pose proof (unlocking_sum_nonneg _ Hc) as Hs.
  pose proof (slash_out_of_spec minimum (total l) (active l) value Hm Ha ltac:(lia) Hr Hv) as Hone.
  destruct (slash_out_of _ _ _ _) as [[t1 act] value1]. destruct Hone as (Ha0 & E1 & Ev & Hb & Hdone).
  destruct (Z.eq_dec value1 0) as [->|Hv1].
  - pose proof (slash_chunks_none minimum t1 (unlocking l) Hc) as Hnone.
    destruct (slash_chunks _ _ _ _) as [t' chunks']. destruct Hnone as (-> & ? & E2).
    rewrite sat_sub_exact by lia. simpl. split_and!; try done; [split; simpl; (done || lia)|lia..].
  - pose proof (slash_chunks_spec minimum (unlocking l) t1 value1 Hm Hc ltac:(lia) ltac:(lia) ltac:(lia)) as Hch.
    destruct (slash_chunks _ _ _ _) as [t' chunks']. destruct Hch as (? & ? & ?).
    pose proof (unlocking_sum_nonneg chunks' ltac:(done)).
    rewrite sat_sub_exact by lia. simpl. split_and!; try done; [split; simpl; (done || lia)|lia..].
Qed.

(** The chunks are touched only once the active stake is gone. *)
Lemma slash_ledger_active_first (l : StakingLedger AccountId) (value minimum : Z) :
  ledger_ok l -> 0 <= minimum -> 0 <= value <= umax 128 ->
  let l' := (slash_ledger value minimum l).2 in
  active l' = 0 \/ unlocking_sum (unlocking l') = unlocking_sum (unlocking l).
Proof.
  intros [Et Hr Ha Hc] Hm Hv. unfold slash_ledger. pose proof (unlocking_sum_nonneg _ Hc) as Hs.
  pose proof (slash_out_of_spec minimum (total l) (active l) value Hm Ha ltac:(lia) Hr Hv) as Hone.
  destruct (slash_out_of _ _ _ _) as [[t1 act] value1]. destruct Hone as (_ & _ & _ & _ & [->| ->]).
  - left. by destruct (slash_chunks _ _ _ _).
  - right. pose proof (slash_chunks_none minimum t1 (unlocking l) Hc) as Hnone.
    destruct (slash_chunks _ _ _ _) as [t' chunks']. apply Hnone.
Qed.

(** C30: slashing a ledger. What is taken is what was asked for, or everything when there
    is less; the only excess is one remainder of dust, at most the minimum balance. It
    leaves the total, first from the active stake and then from the chunks, and the
    ledger stays balanced. *)
Theorem slash_ledger_spec (l : StakingLedger AccountId) (value minimum : Z) :
  ledger_ok l -> 0 <= minimum -> 0 <= value <= umax 128 ->
  let '(taken, l') := slash_ledger value minimum l in
  ledger_ok l' /\ stash l' = stash l /\ total l' = total l - taken
  /\ Z.min value (total l) <= taken <= Z.min value (total l) + minimum
  /\ (active l' = 0 \/ unlocking_sum (unlocking l') = unlocking_sum (unlocking l)).
Proof.
  intros Hok Hm Hv. pose proof (slash_ledger_ok l value minimum Hok Hm Hv) as H1.
  pose proof (slash_ledger_active_first l value minimum Hok Hm Hv) as H2.
  destruct (slash_ledger value minimum l) as [taken l']. destruct H1 as (? & ? & ? & ?). split_and!; (done || lia || exact H2).
Qed.

End Ledger.

(** ** A concrete ledger *)

Definition sample_ledger : StakingLedger Z :=
  MkLedger 1 1000 600 [MkChunk 100 5; MkChunk 200 7; MkChunk 100 9] [].

Lemma sample_ledger_ok : ledger_ok sample_ledger.
Proof.
  split; [by vm_compute|by vm_compute|by vm_compute|]. intros c Hc.
  repeat (apply elem_of_cons in Hc as [->|Hc]; [by vm_compute|]). by apply elem_of_nil in Hc.
Qed.

Lemma consolidate_unlocked_spec_witness :
  consolidate_unlocked 7 sample_ledger = MkLedger 1 700 600 [MkChunk 100 9] []
  /\ ledger_ok (consolidate_unlocked 7 sample_ledger).
Proof. split; [reflexivity|]. apply (consolidate_unlocked_spec sample_ledger 7 sample_ledger_ok). Defined.

Lemma rebond_ledger_spec_witness :
  rebond_ledger 150 sample_ledger = MkLedger 1 1000 750 [MkChunk 100 5; MkChunk 150 7] []
  /\ ledger_ok (rebond_ledger 150 sample_ledger).
Proof.
  split; [reflexivity|]. apply (rebond_ledger_spec sample_ledger 150 sample_ledger_ok).
  vm_compute. split; (reflexivity || discriminate).
Defined.

Lemma slash_ledger_spec_witness :
  slash_ledger 695 10 sample_ledger = (700, MkLedger 1 300 0 [MkChunk 200 7; MkChunk 100 9] [])
  /\ ledger_ok (MkLedger 1 300 0 [MkChunk 200 7; MkChunk 100 9] []).
Proof.
  split; [reflexivity|].
  pose proof (slash_ledger_spec sample_ledger 695 10 sample_ledger_ok) as Hs.
  change (slash_ledger 695 10 sample_ledger)
    with (700, MkLedger 1 300 0 [MkChunk 200 7; MkChunk 100 9] []) in Hs.
  destruct Hs as [Hok _]; [lia|vm_compute; split; discriminate|exact Hok].
Defined.
