(* ===== verification/Staking.v ===== *)
(** * The staking pallet: storage and shared helpers

    [lib-serml/serp/serp-staking/src/lib.rs]: the data, the storage and the functions
    that the calls ([StakingCalls]), the slashing machinery ([Slashing]) and the eras
    ([StakingEras]) share. The storage is grouped by what it is about: the bonds, the
    roles stakers take, the eras, the slashes. Functions that cannot fail are functions
    on the state. *)

From S2P Require Import Prelude Externals StakingLedger SlashingSpans.

(** ** The code the pallet relies on *)

(** [sp_arithmetic]'s [Perbill] and [Percent]: a proportion and its product with a balance. *)
Class Perthing (P : Type) : Type := {
  pt_zero : P;
  pt_deconstruct : P -> Z;
  pt_mul : P -> Z -> Z;
  pt_from_percent : Z -> P
}.

(** A proportion takes a part, more of more, and a larger one takes more. *)
Class PerthingLaws (P : Type) `{Perthing P} : Prop := {
  pt_mul_part p x : 0 <= x -> 0 <= pt_mul p x <= x;
  pt_mul_mono p x y : 0 <= x <= y -> pt_mul p x <= pt_mul p y;
  pt_deconstruct_nonneg p : 0 <= pt_deconstruct p;
  pt_zero_deconstruct : pt_deconstruct pt_zero = 0;
  pt_zero_mul x : pt_mul pt_zero x = 0;
  pt_deconstruct_mono p q x : pt_deconstruct p <= pt_deconstruct q -> 0 <= x -> pt_mul p x <= pt_mul q x
}.

(** [frame_support]'s [LockableCurrency] and its imbalances, as amounts: [sc_slash] gives
    the amount taken and the amount that was missing, [sc_on_slash] is the handler of
    slashed funds. *)
Class StakingCurrency (L AccountId : Type) : Type := {
  sc_minimum_balance : Z;
  sc_free_balance : AccountId -> L -> Z;
  sc_total_balance : AccountId -> L -> Z;
  sc_total_issuance : L -> Z;
  sc_set_lock : AccountId -> Z -> L -> L;
  sc_remove_lock : AccountId -> L -> L;
  sc_lock_of : AccountId -> L -> Z;
  sc_slash : AccountId -> Z -> L -> (Z * Z) * L;
  sc_resolve_creating : AccountId -> Z -> L -> L;
  sc_on_slash : Z -> L -> L
}.

(** [SessionInterface]. *)
Class Session (L AccountId : Type) : Type := {
  si_disable_validator : AccountId -> L -> option bool * L;
  si_prune_historical_up_to : Z -> L -> L
}.

(** Locks are set and removed by these two calls only; a lock of nothing may be ignored.
    Balances are [u128]. *)
Class StakingCurrencyLaws (L AccountId : Type) `{StakingCurrency L AccountId} `{Session L AccountId}
    `{FrameSystem L AccountId} : Prop := {
  sc_minimum_range : in_uint 128 sc_minimum_balance;
  sc_free_range who l : in_uint 128 (sc_free_balance who l);
  lock_set_same who v l : 0 < v -> sc_lock_of who (sc_set_lock who v l) = v;
  lock_set_other who other v l : other <> who -> sc_lock_of other (sc_set_lock who v l) = sc_lock_of other l;
  lock_removed who l : sc_lock_of who (sc_remove_lock who l) = 0;
  lock_removed_other who other l : other <> who -> sc_lock_of other (sc_remove_lock who l) = sc_lock_of other l;
  lock_slash who v l other : sc_lock_of other (sc_slash who v l).2 = sc_lock_of other l;
  lock_resolve who v l other : sc_lock_of other (sc_resolve_creating who v l) = sc_lock_of other l;
  lock_on_slash v l other : sc_lock_of other (sc_on_slash v l) = sc_lock_of other l;
  lock_disable who l other : sc_lock_of other (si_disable_validator who l).2 = sc_lock_of other l;
  lock_prune upto l other : sc_lock_of other (si_prune_historical_up_to upto l) = sc_lock_of other l;
  lock_inc_consumers who l l' other : inc_consumers who l = Some l' -> sc_lock_of other l' = sc_lock_of other l;
  lock_dec_consumers who l other : sc_lock_of other (dec_consumers who l) = sc_lock_of other l
}.

(** ** Data *)

Definition MAX_UNLOCKING_CHUNKS : nat := 32.

Inductive RewardDestination (AccountId : Type) : Type :=
| Staked | Stash | Controller | Account (a : AccountId) | NoReward.

Arguments Staked {AccountId}.
Arguments Stash {AccountId}.
Arguments Controller {AccountId}.
Arguments Account {AccountId}.
Arguments NoReward {AccountId}.

Inductive Forcing : Type := NotForcing | ForceNew | ForceNone | ForceAlways.

Inductive StakingError : Type :=
| NotController | NotStash | NoNativePayout | AlreadyBonded | AlreadyPaired | EmptyTargets
| DuplicateIndex | InvalidSlashIndex | InsufficientBond | NoMoreChunks | NoUnlockChunk | FundedTarget
| InvalidEraToReward | InvalidNumberOfNominations | NotSortedAndUnique | AlreadyClaimed
| IncorrectHistoryDepth | IncorrectSlashingSpans | BadState | TooManyTargets | BadTarget
| CannotChillOther | TooManyNominators | TooManyValidators.

Inductive StakingEvent (AccountId : Type) : Type :=
| EraPayout (era setter native rest : Z)
| Reward (who : AccountId) (v : Z)
| Slash (who : AccountId) (v : Z)
| OldSlashingReportDiscarded (session : Z)
| StakingElection
| BondedEvent (who : AccountId) (v : Z)
| Unbonded (who : AccountId) (v : Z)
| Withdrawn (who : AccountId) (v : Z)
| Kicked (nominator validator : AccountId)
| StakingElectionFailed
| Chilled (who : AccountId).

Arguments EraPayout {AccountId}.
Arguments Reward {AccountId}.
Arguments Slash {AccountId}.
Arguments OldSlashingReportDiscarded {AccountId}.
Arguments StakingElection {AccountId}.
Arguments BondedEvent {AccountId}.
Arguments Unbonded {AccountId}.
Arguments Withdrawn {AccountId}.
Arguments Kicked {AccountId}.
Arguments StakingElectionFailed {AccountId}.
Arguments Chilled {AccountId}.

Record ActiveEraInfo : Type := MkActiveEra { era_index : Z; era_start : option Z }.

Record ValidatorPrefs (Perbill : Type) : Type := MkPrefs { commission : Perbill; blocked : bool }.

Arguments MkPrefs {Perbill}.
Arguments commission {Perbill}.
Arguments blocked {Perbill}.

Record Nominations (AccountId : Type) : Type := MkNominations {
  targets : list AccountId;
  submitted_in : Z;
  suppressed : bool
}.

Arguments MkNominations {AccountId}.
Arguments targets {AccountId}.
Arguments submitted_in {AccountId}.
Arguments suppressed {AccountId}.

(** The individual exposures are pairs of an account and a value. *)
Record Exposure (AccountId : Type) : Type := MkExposure {
  exp_total : Z;
  exp_own : Z;
  exp_others : list (AccountId * Z)
}.

Arguments MkExposure {AccountId}.
Arguments exp_total {AccountId}.
Arguments exp_own {AccountId}.
Arguments exp_others {AccountId}.

Record UnappliedSlash (AccountId : Type) : Type := MkUnapplied {
  us_validator : AccountId;
  us_own : Z;
  us_others : list (AccountId * Z);
  us_reporters : list AccountId;
  us_payout : Z
}.

Arguments MkUnapplied {AccountId}.
Arguments us_validator {AccountId}.
Arguments us_own {AccountId}.
Arguments us_others {AccountId}.
Arguments us_reporters {AccountId}.
Arguments us_payout {AccountId}.

Record EraRewardPoints (AccountId : Type) `{Countable AccountId} : Type := MkPoints {
  points_total : Z;
  individual : gmap AccountId Z
}.

Arguments MkPoints {AccountId _ _}.
Arguments points_total {AccountId _ _}.
Arguments individual {AccountId _ _}.

Record SpanRecord : Type := MkSpanRecord { slashed : Z; paid_out : Z }.

(** ** Storage *)

Record Bonds (AccountId : Type) `{Countable AccountId} : Type := MkBonds {
  bonded : gmap AccountId AccountId;
  ledger : gmap AccountId (StakingLedger AccountId);
  payee : gmap AccountId (RewardDestination AccountId)
}.

Record Roles (AccountId Perbill Percent : Type) `{Countable AccountId} : Type := MkRoles {
  validators : gmap AccountId (ValidatorPrefs Perbill);
  counter_for_validators : Z;
  nominators : gmap AccountId (Nominations AccountId);
  counter_for_nominators : Z;
  min_nominator_bond : Z;
  min_validator_bond : Z;
  max_nominators_count : option Z;
  max_validators_count : option Z;
  chill_threshold : option Percent
}.

Record Eras (AccountId Perbill : Type) `{Countable AccountId} : Type := MkEras {
  history_depth : Z;
  validator_count : Z;
  minimum_validator_count : Z;
  current_era : option Z;
  active_era : option ActiveEraInfo;
  force_era : Forcing;
  bonded_eras : list (Z * Z);
  eras_start_session_index : gmap Z Z;
  eras_stakers : gmap (Z * AccountId) (Exposure AccountId);
  eras_stakers_clipped : gmap (Z * AccountId) (Exposure AccountId);
  eras_validator_prefs : gmap (Z * AccountId) (ValidatorPrefs Perbill);
  eras_validator_reward : gmap Z Z;
  eras_reward_points : gmap Z (EraRewardPoints AccountId);
  eras_total_stake : gmap Z Z
}.

Record Slashes (AccountId Perbill : Type) `{Countable AccountId} : Type := MkSlashes {
  invulnerables : list AccountId;
  slash_reward_fraction : Perbill;
  unapplied_slashes : gmap Z (list (UnappliedSlash AccountId));
  earliest_unapplied_slash : option Z;
  validator_slash_in_era : gmap (Z * AccountId) (Perbill * Z);
  nominator_slash_in_era : gmap (Z * AccountId) Z;
  slashing_spans : gmap AccountId SlashingSpans;
  span_slash : gmap (AccountId * Z) SpanRecord
}.

Record State (L AccountId Perbill Percent : Type) `{Countable AccountId} : Type := MkState {
  bonds : Bonds AccountId;
  roles : Roles AccountId Perbill Percent;
  eras : Eras AccountId Perbill;
  slashes : Slashes AccountId Perbill;
  events : list (StakingEvent AccountId);
  chain : L
}.

Arguments MkBonds {AccountId _ _}.
Arguments bonded {AccountId _ _}.
Arguments ledger {AccountId _ _}.
Arguments payee {AccountId _ _}.
Arguments MkRoles {AccountId Perbill Percent _ _}.
Arguments validators {AccountId Perbill Percent _ _}.
Arguments counter_for_validators {AccountId Perbill Percent _ _}.
Arguments nominators {AccountId Perbill Percent _ _}.
Arguments counter_for_nominators {AccountId Perbill Percent _ _}.
Arguments min_nominator_bond {AccountId Perbill Percent _ _}.
Arguments min_validator_bond {AccountId Perbill Percent _ _}.
Arguments max_nominators_count {AccountId Perbill Percent _ _}.
Arguments max_validators_count {AccountId Perbill Percent _ _}.
Arguments chill_threshold {AccountId Perbill Percent _ _}.
Arguments MkEras {AccountId Perbill _ _}.
Arguments history_depth {AccountId Perbill _ _}.
Arguments validator_count {AccountId Perbill _ _}.
Arguments minimum_validator_count {AccountId Perbill _ _}.
Arguments current_era {AccountId Perbill _ _}.
Arguments active_era {AccountId Perbill _ _}.
Arguments force_era {AccountId Perbill _ _}.
Arguments bonded_eras {AccountId Perbill _ _}.
Arguments eras_start_session_index {AccountId Perbill _ _}.
Arguments eras_stakers {AccountId Perbill _ _}.
Arguments eras_stakers_clipped {AccountId Perbill _ _}.
Arguments eras_validator_prefs {AccountId Perbill _ _}.
Arguments eras_validator_reward {AccountId Perbill _ _}.
Arguments eras_reward_points {AccountId Perbill _ _}.
Arguments eras_total_stake {AccountId Perbill _ _}.
Arguments MkSlashes {AccountId Perbill _ _}.
Arguments invulnerables {AccountId Perbill _ _}.
Arguments slash_reward_fraction {AccountId Perbill _ _}.
Arguments unapplied_slashes {AccountId Perbill _ _}.
Arguments earliest_unapplied_slash {AccountId Perbill _ _}.
Arguments validator_slash_in_era {AccountId Perbill _ _}.
Arguments nominator_slash_in_era {AccountId Perbill _ _}.
Arguments slashing_spans {AccountId Perbill _ _}.
Arguments span_slash {AccountId Perbill _ _}.
Arguments MkState {L AccountId Perbill Percent _ _}.
Arguments bonds {L AccountId Perbill Percent _ _}.
Arguments roles {L AccountId Perbill Percent _ _}.
Arguments eras {L AccountId Perbill Percent _ _}.
Arguments slashes {L AccountId Perbill Percent _ _}.
Arguments events {L AccountId Perbill Percent _ _}.
Arguments chain {L AccountId Perbill Percent _ _}.

(** What the runtime supplies. [elect] is the election provider (the genesis one for
    [true]): each winner with its voters and their votes. *)
Record Config (L X AccountId Source Origin : Type) : Type := MkConfig {
  bonding_duration : Z;
  slash_defer_duration : Z;
  sessions_per_era : Z;
  max_nominations : Z;
  max_nominator_rewarded_per_validator : Z;
  halving_interval : Z;
  initial_issuance : Z;
  lookup : Source -> option AccountId;
  cannot_lookup : X;
  signed_by : Origin -> option AccountId;
  is_root : Origin -> bool;
  is_slash_cancel_origin : Origin -> bool;
  bad_origin : X;
  unix_time : L -> Z;
  to_currency : Z -> Z -> Z;
  elect : bool -> L -> option (list (AccountId * list (AccountId * Z))) * L
}.

Arguments MkConfig {L X AccountId Source Origin}.
Arguments bonding_duration {L X AccountId Source Origin}.
Arguments slash_defer_duration {L X AccountId Source Origin}.
Arguments sessions_per_era {L X AccountId Source Origin}.
Arguments max_nominations {L X AccountId Source Origin}.
Arguments max_nominator_rewarded_per_validator {L X AccountId Source Origin}.
Arguments halving_interval {L X AccountId Source Origin}.
Arguments initial_issuance {L X AccountId Source Origin}.
Arguments lookup {L X AccountId Source Origin}.
Arguments cannot_lookup {L X AccountId Source Origin}.
Arguments signed_by {L X AccountId Source Origin}.
Arguments is_root {L X AccountId Source Origin}.
Arguments is_slash_cancel_origin {L X AccountId Source Origin}.
Arguments bad_origin {L X AccountId Source Origin}.
Arguments unix_time {L X AccountId Source Origin}.
Arguments to_currency {L X AccountId Source Origin}.
Arguments elect {L X AccountId Source Origin}.

Section Staking.
Context {L AccountId Perbill Percent : Type} `{Countable AccountId}.
Context `{!StakingCurrency L AccountId} `{!Session L AccountId} `{!FrameSystem L AccountId}.
Context `{!Perthing Perbill} `{!Perthing Percent}.

Abbreviation St := (State L AccountId Perbill Percent).

(** ** Writes *)

Definition over_bonds (f : Bonds AccountId -> Bonds AccountId) (s : St) : St :=
  MkState (f (bonds s)) (roles s) (eras s) (slashes s) (events s) (chain s).

Definition over_roles (f : Roles AccountId Perbill Percent -> Roles AccountId Perbill Percent) (s : St) : St :=
  MkState (bonds s) (f (roles s)) (eras s) (slashes s) (events s) (chain s).

Definition over_eras (f : Eras AccountId Perbill -> Eras AccountId Perbill) (s : St) : St :=
  MkState (bonds s) (roles s) (f (eras s)) (slashes s) (events s) (chain s).

Definition over_slashes (f : Slashes AccountId Perbill -> Slashes AccountId Perbill) (s : St) : St :=
  MkState (bonds s) (roles s) (eras s) (f (slashes s)) (events s) (chain s).

Definition over_chain (f : L -> L) (s : St) : St :=
  MkState (bonds s) (roles s) (eras s) (slashes s) (events s) (f (chain s)).

Definition deposit_event (e : StakingEvent AccountId) (s : St) : St :=
  MkState (bonds s) (roles s) (eras s) (slashes s) (events s ++ [e]) (chain s).

Definition set_bonded (f : gmap AccountId AccountId -> gmap AccountId AccountId) : St -> St :=
  over_bonds (fun b => MkBonds (f (bonded b)) (ledger b) (payee b)).

Definition set_ledger
    (f : gmap AccountId (StakingLedger AccountId) -> gmap AccountId (StakingLedger AccountId)) : St -> St :=
  over_bonds (fun b => MkBonds (bonded b) (f (ledger b)) (payee b)).

Definition set_payee_map
    (f : gmap AccountId (RewardDestination AccountId) -> gmap AccountId (RewardDestination AccountId)) :
    St -> St :=
  over_bonds (fun b => MkBonds (bonded b) (ledger b) (f (payee b))).

Definition set_validators (v : gmap AccountId (ValidatorPrefs Perbill)) (n : Z) : St -> St :=
  over_roles (fun r => MkRoles v n (nominators r) (counter_for_nominators r) (min_nominator_bond r)
    (min_validator_bond r) (max_nominators_count r) (max_validators_count r) (chill_threshold r)).

Definition set_nominators (v : gmap AccountId (Nominations AccountId)) (n : Z) : St -> St :=
  over_roles (fun r => MkRoles (validators r) (counter_for_validators r) v n (min_nominator_bond r)
    (min_validator_bond r) (max_nominators_count r) (max_validators_count r) (chill_threshold r)).

Definition set_spans (f : gmap AccountId SlashingSpans -> gmap AccountId SlashingSpans) : St -> St :=
  over_slashes (fun x => MkSlashes (invulnerables x) (slash_reward_fraction x) (unapplied_slashes x)
    (earliest_unapplied_slash x) (validator_slash_in_era x) (nominator_slash_in_era x)
    (f (slashing_spans x)) (span_slash x)).

Definition set_span_slash (f : gmap (AccountId * Z) SpanRecord -> gmap (AccountId * Z) SpanRecord) : St -> St :=
  over_slashes (fun x => MkSlashes (invulnerables x) (slash_reward_fraction x) (unapplied_slashes x)
    (earliest_unapplied_slash x) (validator_slash_in_era x) (nominator_slash_in_era x)
    (slashing_spans x) (f (span_slash x))).

Definition set_validator_slash (f : gmap (Z * AccountId) (Perbill * Z) -> gmap (Z * AccountId) (Perbill * Z)) :
    St -> St :=
  over_slashes (fun x => MkSlashes (invulnerables x) (slash_reward_fraction x) (unapplied_slashes x)
    (earliest_unapplied_slash x) (f (validator_slash_in_era x)) (nominator_slash_in_era x)
    (slashing_spans x) (span_slash x)).

Definition set_nominator_slash (f : gmap (Z * AccountId) Z -> gmap (Z * AccountId) Z) : St -> St :=
  over_slashes (fun x => MkSlashes (invulnerables x) (slash_reward_fraction x) (unapplied_slashes x)
    (earliest_unapplied_slash x) (validator_slash_in_era x) (f (nominator_slash_in_era x))
    (slashing_spans x) (span_slash x)).

Definition set_unapplied (f : gmap Z (list (UnappliedSlash AccountId)) -> gmap Z (list (UnappliedSlash AccountId)))
    (g : option Z -> option Z) : St -> St :=
  over_slashes (fun x => MkSlashes (invulnerables x) (slash_reward_fraction x) (f (unapplied_slashes x))
    (g (earliest_unapplied_slash x)) (validator_slash_in_era x) (nominator_slash_in_era x)
    (slashing_spans x) (span_slash x)).

Definition set_invulnerables_list (v : list AccountId) : St -> St :=
  over_slashes (fun x => MkSlashes v (slash_reward_fraction x) (unapplied_slashes x)
    (earliest_unapplied_slash x) (validator_slash_in_era x) (nominator_slash_in_era x)
    (slashing_spans x) (span_slash x)).

Definition set_force_era (v : Forcing) : St -> St :=
  over_eras (fun e => MkEras (history_depth e) (validator_count e) (minimum_validator_count e)
    (current_era e) (active_era e) v (bonded_eras e) (eras_start_session_index e) (eras_stakers e)
    (eras_stakers_clipped e) (eras_validator_prefs e) (eras_validator_reward e) (eras_reward_points e)
    (eras_total_stake e)).

Definition set_validator_count_value (v : Z) : St -> St :=
  over_eras (fun e => MkEras (history_depth e) v (minimum_validator_count e)
    (current_era e) (active_era e) (force_era e) (bonded_eras e) (eras_start_session_index e) (eras_stakers e)
    (eras_stakers_clipped e) (eras_validator_prefs e) (eras_validator_reward e) (eras_reward_points e)
    (eras_total_stake e)).

(** ** Getters with a default *)

Definition payee_of (s : St) (who : AccountId) : RewardDestination AccountId :=
  default Staked (payee (bonds s) !! who).

Definition prefs_of (s : St) (who : AccountId) : ValidatorPrefs Perbill :=
  default (MkPrefs pt_zero false) (validators (roles s) !! who).

Definition span_record (s : St) (key : AccountId * Z) : SpanRecord :=
  default (MkSpanRecord 0 0) (span_slash (slashes s) !! key).

Definition unapplied_of (s : St) (era : Z) : list (UnappliedSlash AccountId) :=
  default [] (unapplied_slashes (slashes s) !! era).

(** ** Ledgers and roles *)

Definition update_ledger (controller : AccountId) (l : StakingLedger AccountId) (s : St) : St :=
  set_ledger <[controller := l]> (over_chain (sc_set_lock (stash l) (total l)) s).

Definition slashable_balance_of (s : St) (who : AccountId) : Z :=
  default 0 (c ← bonded (bonds s) !! who; l ← ledger (bonds s) !! c; Some (active l)).

Definition is_validator (s : St) (who : AccountId) : bool := bool_decide (is_Some (validators (roles s) !! who)).

Definition is_nominator (s : St) (who : AccountId) : bool := bool_decide (is_Some (nominators (roles s) !! who)).

Definition do_add_nominator (who : AccountId) (n : Nominations AccountId) (s : St) : St :=
  let count := counter_for_nominators (roles s) in
  set_nominators (<[who := n]> (nominators (roles s)))
    (if is_nominator s who then count else sat_add 32 count 1) s.

Definition do_remove_nominator (who : AccountId) (s : St) : bool * St :=
  if is_nominator s who then
    (true, set_nominators (delete who (nominators (roles s))) (sat_sub (counter_for_nominators (roles s)) 1) s)
  else (false, s).

Definition do_add_validator (who : AccountId) (p : ValidatorPrefs Perbill) (s : St) : St :=
  let count := counter_for_validators (roles s) in
  set_validators (<[who := p]> (validators (roles s)))
    (if is_validator s who then count else sat_add 32 count 1) s.

Definition do_remove_validator (who : AccountId) (s : St) : bool * St :=
  if is_validator s who then
    (true, set_validators (delete who (validators (roles s))) (sat_sub (counter_for_validators (roles s)) 1) s)
  else (false, s).

Definition chill_stash (who : AccountId) (s : St) : St :=
  let '(chilled_as_validator, s) := do_remove_validator who s in
  let '(chilled_as_nominator, s) := do_remove_nominator who s in
  if chilled_as_validator || chilled_as_nominator then deposit_event (Chilled who) s else s.

Definition ensure_new_era (s : St) : St :=
  match force_era (eras s) with
  | ForceAlways | ForceNew => s
  | _ => set_force_era ForceNew s
  end.

End Staking.
