(* ===== verification/Slashing.v ===== *)
(** * Slashing

    [lib-serml/serp/serp-staking/src/slashing.rs], the part that works on the storage:
    computing a slash of a validator and its nominators, applying it, paying the
    reporters, and clearing the metadata. An [InspectingSpans] carries the writes that
    its [drop] performs; the two [&mut] balances it points to are its fields. *)

From S2P Require Import Prelude Externals StakingLedger SlashingSpans Staking.

Record InspectingSpans (AccountId Perbill : Type) : Type := MkInspecting {
  dirty : bool;
  is_window_start : Z;
  is_stash : AccountId;
  spans : SlashingSpans;
  is_paid_out : Z;
  slash_of : Z;
  is_reward_proportion : Perbill
}.

Arguments MkInspecting {AccountId Perbill}.
Arguments dirty {AccountId Perbill}.
Arguments is_window_start {AccountId Perbill}.
Arguments is_stash {AccountId Perbill}.
Arguments spans {AccountId Perbill}.
Arguments is_paid_out {AccountId Perbill}.
Arguments slash_of {AccountId Perbill}.
Arguments is_reward_proportion {AccountId Perbill}.

Record SlashParams (AccountId Perbill : Type) : Type := MkSlashParams {
  sp_stash : AccountId;
  sp_slash : Perbill;
  sp_exposure : Exposure AccountId;
  sp_slash_era : Z;
  sp_window_start : Z;
  sp_now : Z;
  sp_reward_proportion : Perbill
}.

Arguments MkSlashParams {AccountId Perbill}.
Arguments sp_stash {AccountId Perbill}.
Arguments sp_slash {AccountId Perbill}.
Arguments sp_exposure {AccountId Perbill}.
Arguments sp_slash_era {AccountId Perbill}.
Arguments sp_window_start {AccountId Perbill}.
Arguments sp_now {AccountId Perbill}.
Arguments sp_reward_proportion {AccountId Perbill}.

(** ** Paying the reporters: amounts *)

(** [Imbalance::split]. *)
Definition imbalance_split (v amount : Z) : Z * Z := (Z.min v amount, v - Z.min v amount).

(** The loop over the reporters: what each of them gets, and what remains. *)
Fixpoint split_rewards {A : Type} (per_reporter reward_payout : Z) (reporters : list A) : list (A * Z) * Z :=
  match reporters with
  | [] => ([], reward_payout)
  | reporter :: rest =>
      let '(reporter_reward, remaining) := imbalance_split reward_payout per_reporter in
      let '(paid, left_over) := split_rewards per_reporter remaining rest in
      ((reporter, reporter_reward) :: paid, left_over)
  end.

(** The payments of [pay_reporters] and the amount that goes to the slash handler. *)
Definition reporter_payments {A : Type} (reward_payout slashed_imbalance : Z) (reporters : list A) :
    list (A * Z) * Z :=
  if (reward_payout =? 0) || match reporters with [] => true | _ => false end then ([], slashed_imbalance)
  else
    let reward_payout := Z.min reward_payout slashed_imbalance in
    let '(reward_payout, value_slashed) := imbalance_split slashed_imbalance reward_payout in
    let per_reporter := reward_payout / Z.of_nat (length reporters) in
    let '(paid, reward_payout) := split_rewards per_reporter reward_payout reporters in
    (paid, sat_add 128 value_slashed reward_payout).

Section Slashing.
Context {L AccountId Perbill Percent : Type} `{Countable AccountId}.
Context `{!StakingCurrency L AccountId} `{!Session L AccountId} `{!FrameSystem L AccountId}.
Context `{!Perthing Perbill} `{!Perthing Percent}.

Abbreviation St := (State L AccountId Perbill Percent).
Abbreviation Inspecting := (InspectingSpans AccountId Perbill).

Definition REWARD_F1 : Perbill := pt_from_percent 50.

(** ** Inspecting the spans of one stash *)

Definition fetch_spans (who : AccountId) (window_start paid_out slash_of : Z) (reward_proportion : Perbill)
    (s : St) : Inspecting * St :=
  let '(spans, s) :=
    match slashing_spans (slashes s) !! who with
    | Some spans => (spans, s)
    | None => let spans := SlashingSpans_new window_start in (spans, set_spans <[who := spans]> s)
    end in
  (MkInspecting false window_start who spans paid_out slash_of reward_proportion, s).

Definition inspect_end_span (now : Z) (i : Inspecting) : Inspecting :=
  let '(ended, spans') := end_span now (spans i) in
  MkInspecting (ended || dirty i) (is_window_start i) (is_stash i) spans' (is_paid_out i) (slash_of i)
    (is_reward_proportion i).

Definition add_slash (amount slash_era : Z) (i : Inspecting) : Inspecting :=
  let sp := spans i in
  MkInspecting (dirty i) (is_window_start i) (is_stash i)
    (MkSpans (span_index sp) (last_start sp) (Z.max (last_nonzero_slash sp) slash_era) (prior sp))
    (is_paid_out i) (wrap 128 (slash_of i + amount)) (is_reward_proportion i).

Definition era_span (era : Z) (i : Inspecting) : option SlashingSpan := find_span era (spans i).

(** [REWARD_F1 * (self.reward_proportion * slash).saturating_sub(paid_out)]. *)
Definition span_reward (reward_proportion : Perbill) (slash paid : Z) : Z :=
  pt_mul REWARD_F1 (sat_sub (pt_mul reward_proportion slash) paid).

Definition compare_and_update_span_slash (slash_era slash : Z) (i : Inspecting) (s : St) :
    option Z * Inspecting * St :=
  match era_span slash_era i with
  | None => (None, i, s)
  | Some target_span =>
      let span_slash_key := (is_stash i, index target_span) in
      let record := span_record s span_slash_key in
      let '(reward, i, slashed', changed) :=
        if slashed record <? slash then
          let difference := slash - slashed record in
          (span_reward (is_reward_proportion i) slash (paid_out record),
           add_slash difference slash_era i, slash, true)
        else if slashed record =? slash then
          (span_reward (is_reward_proportion i) slash (paid_out record), i, slashed record, false)
        else (0, i, slashed record, false) in
      let '(paid', i, changed) :=
        if reward =? 0 then (paid_out record, i, changed)
        else (wrap 128 (paid_out record + reward),
              MkInspecting (dirty i) (is_window_start i) (is_stash i) (spans i)
                (wrap 128 (is_paid_out i + reward)) (slash_of i) (is_reward_proportion i), true) in
      if changed then
        (Some (index target_span),
         MkInspecting true (is_window_start i) (is_stash i) (spans i) (is_paid_out i) (slash_of i)
           (is_reward_proportion i),
         set_span_slash <[span_slash_key := MkSpanRecord slashed' paid']> s)
      else (Some (index target_span), i, s)
  end.

(** [Drop]: the writes, if the stash was slashed or a span ended. *)
Definition drop_spans (i : Inspecting) (s : St) : St :=
  if negb (dirty i) then s
  else
    let '(pruned, spans') := prune (is_window_start i) (spans i) in
    let s :=
      match pruned with
      | Some (start, end_) =>
          fold_left (fun s span_index => set_span_slash (delete (is_stash i, span_index)) s)
            (seqZ start (end_ - start)) s
      | None => s
      end in
    set_spans <[is_stash i := spans']> s.

(** ** Computing a slash *)

(** Misbehaviour within the current span: the span ends, the validator is chilled and
    disabled, and a new era is forced if the session asks for it. *)
Definition end_current_span (now : Z) (i : Inspecting) (s : St) : Inspecting * St :=
  let i := inspect_end_span now i in
  let s := chill_stash (is_stash i) s in
  let '(disabled, l) := si_disable_validator (is_stash i) (chain s) in
  let s := over_chain (fun _ => l) s in
  (i, if default false disabled then ensure_new_era s else s).

Definition kick_out_if_recent (params : SlashParams AccountId Perbill) (s : St) : St :=
  let '(i, s) := fetch_spans (sp_stash params) (sp_window_start params) 0 0 (sp_reward_proportion params) s in
  let '(i, s) :=
    if bool_decide (index <$> era_span (sp_slash_era params) i = Some (span_index (spans i)))
    then end_current_span (sp_now params) i s
    else (i, s) in
  drop_spans i s.

(** One turn of the loop of [slash_nominators]: the reward so far, and the amount the
    nominator is slashed. *)
Definition slash_nominator (params : SlashParams AccountId Perbill) (prior_slash_p : Perbill)
    (reward_payout : Z) (nominator : AccountId * Z) (s : St) : Z * Z * St :=
  let own_slash_prior := pt_mul prior_slash_p nominator.2 in
  let own_slash_by_validator := pt_mul (sp_slash params) nominator.2 in
  let own_slash_difference := sat_sub own_slash_by_validator own_slash_prior in
  let key := (sp_slash_era params, nominator.1) in
  let era_slash :=
    wrap 128 (default 0 (nominator_slash_in_era (slashes s) !! key) + own_slash_difference) in
  let s := set_nominator_slash <[key := era_slash]> s in
  let '(i, s) := fetch_spans nominator.1 (sp_window_start params) reward_payout 0
                   (sp_reward_proportion params) s in
  let '(target_span, i, s) := compare_and_update_span_slash (sp_slash_era params) era_slash i s in
  let i := if bool_decide (target_span = Some (span_index (spans i)))
           then inspect_end_span (sp_now params) i else i in
  (is_paid_out i, slash_of i, drop_spans i s).

Fixpoint slash_nominators (params : SlashParams AccountId Perbill) (prior_slash_p : Perbill)
    (reward_payout : Z) (nominators : list (AccountId * Z)) (s : St) : Z * list (AccountId * Z) * St :=
  match nominators with
  | [] => (reward_payout, [], s)
  | nominator :: rest =>
      let '(reward_payout, nom_slashed, s) := slash_nominator params prior_slash_p reward_payout nominator s in
      let '(reward_payout, others, s) := slash_nominators params prior_slash_p reward_payout rest s in
      (reward_payout, (nominator.1, nom_slashed) :: others, s)
  end.

Definition compute_slash (params : SlashParams AccountId Perbill) (s : St) :
    option (UnappliedSlash AccountId) * St :=
  let who := sp_stash params in
  let slash := sp_slash params in
  let own_slash := pt_mul slash (exp_own (sp_exposure params)) in
  if pt_mul slash (exp_total (sp_exposure params)) =? 0 then (None, kick_out_if_recent params s)
  else
    let key := (sp_slash_era params, who) in
    let prior_slash_p := (default (pt_zero, 0) (validator_slash_in_era (slashes s) !! key)).1 in
    if pt_deconstruct prior_slash_p <? pt_deconstruct slash then
      let s := set_validator_slash <[key := (slash, own_slash)]> s in
      let '(i, s) := fetch_spans who (sp_window_start params) 0 0 (sp_reward_proportion params) s in
      let '(target_span, i, s) := compare_and_update_span_slash (sp_slash_era params) own_slash i s in
      let '(i, s) := if bool_decide (target_span = Some (span_index (spans i)))
                     then end_current_span (sp_now params) i s else (i, s) in
      let s := drop_spans i s in
      let '(nominators_payout, others, s) :=
        slash_nominators params prior_slash_p 0 (exp_others (sp_exposure params)) s in
      (Some (MkUnapplied who (slash_of i) others [] (wrap 128 (is_paid_out i + nominators_payout))), s)
    else (None, s).

(** ** Clearing metadata *)

Definition clear_era_metadata (obsolete_era : Z) (s : St) : St :=
  set_nominator_slash (filter (fun kv => kv.1.1 <> obsolete_era))
    (set_validator_slash (filter (fun kv => kv.1.1 <> obsolete_era)) s).

Definition clear_stash_metadata (who : AccountId) (num_slashing_spans : Z) (s : St) : outcome StakingError St :=
  match slashing_spans (slashes s) !! who with
  | None => Ok s
  | Some spans =>
      if Z.of_nat (length (iter spans)) <=? num_slashing_spans then
        Ok (fold_left (fun s span => set_span_slash (delete (who, index span)) s) (iter spans)
              (set_spans (delete who) s))
      else Err IncorrectSlashingSpans
  end.

(** ** Applying a slash *)

(** The two [&mut] balances are the accumulator. *)
Definition do_slash (who : AccountId) (value : Z) (acc : Z * Z) (s : St) : (Z * Z) * St :=
  let '(reward_payout, slashed_imbalance) := acc in
  match bonded (bonds s) !! who with
  | None => (acc, s)
  | Some controller =>
      match ledger (bonds s) !! controller with
      | None => (acc, s)
      | Some l =>
          let '(value, l) := slash_ledger value sc_minimum_balance l in
          if value =? 0 then (acc, s)
          else
            let '((imbalance, missing), c) := sc_slash who value (chain s) in
            let s := over_chain (fun _ => c) s in
            let slashed_imbalance := sat_add 128 slashed_imbalance imbalance in
            let reward_payout := if missing =? 0 then reward_payout else sat_sub reward_payout missing in
            ((reward_payout, slashed_imbalance), deposit_event (Slash who value) (update_ledger controller l s))
      end
  end.

Definition pay_reporters (reward_payout slashed_imbalance : Z) (reporters : list AccountId) (s : St) : St :=
  let '(payments, to_handler) := reporter_payments reward_payout slashed_imbalance reporters in
  over_chain (sc_on_slash to_handler)
    (fold_left (fun s p => over_chain (sc_resolve_creating p.1 p.2) s) payments s).

Definition apply_slash (unapplied : UnappliedSlash AccountId) (s : St) : St :=
  let '(acc, s) := do_slash (us_validator unapplied) (us_own unapplied) (us_payout unapplied, 0) s in
  let '((reward_payout, slashed_imbalance), s) :=
    fold_left (fun '(acc, s) nominator => do_slash nominator.1 nominator.2 acc s) (us_others unapplied)
      (acc, s) in
  pay_reporters reward_payout slashed_imbalance (us_reporters unapplied) s.

End Slashing.
