(* ===== verification/StakingCalls.v ===== *)
(** * The calls of the staking pallet

    [lib-serml/serp/serp-staking/src/lib.rs]: bonding, unbonding, withdrawing, validating,
    nominating, chilling, the calls of the root, and [kill_stash]. The calls are not
    transactional: an error leaves the writes made before it ([StakingTheorems] shows
    that there are none). [payout_stakers] is in [StakingPayout]. *)

From S2P Require Import Prelude Externals StakingLedger SlashingSpans Staking Slashing.

(** ** Helpers on lists *)

(** [list.windows(2).all(|w| w[0] < w[1])]. *)
Fixpoint is_sorted_and_unique (l : list Z) : bool :=
  match l with
  | x :: (y :: _) as rest => (x <? y) && is_sorted_and_unique rest
  | _ => true
  end.

(** [for (removed, index) in slash_indices.into_iter().enumerate()]. *)
Fixpoint remove_indices {A : Type} (removed : Z) (indices : list Z) (l : list A) : list A :=
  match indices with
  | [] => l
  | index :: rest => remove_indices (removed + 1) rest (list_delete (Z.to_nat (index - removed)) l)
  end.

(** [Vec::swap_remove]. *)
Definition swap_remove {A : Type} (pos : nat) (l : list A) : list A :=
  match last l with
  | Some x => take (length l - 1) (<[pos := x]> l)
  | None => l
  end.

Section Calls.
Context {L X AccountId Source Origin Perbill Percent : Type} `{Countable AccountId}.
Context `{!StakingCurrency L AccountId} `{!Session L AccountId} `{!FrameSystem L AccountId}.
Context `{!Perthing Perbill} `{!Perthing Percent}.
Variable cfg : Config L X AccountId Source Origin.

Abbreviation St := (State L AccountId Perbill Percent).
Abbreviation Run := (M (State L AccountId Perbill Percent) (StakingError + X)).

Definition err (e : StakingError) : StakingError + X := inl e.

Definition ensure_signed (origin : Origin) : Run AccountId := ok_or (signed_by cfg origin) (inr (bad_origin cfg)).

Definition ensure_root (origin : Origin) : Run unit := ensure (is_root cfg origin) (inr (bad_origin cfg)).

Definition lookup_account (source : Source) : Run AccountId := ok_or (lookup cfg source) (inr (cannot_lookup cfg)).

(** [Self::ledger(&controller).ok_or(NotController)?]. *)
Definition controller_ledger (controller : AccountId) : Run (StakingLedger AccountId) :=
  let! l := gets (fun s => ledger (bonds s) !! controller) in
  ok_or l (err NotController).

(** ** Bonding *)

Definition bond (origin : Origin) (controller : Source) (value : Z) (payee : RewardDestination AccountId) :
    Run unit :=
  let! stash := ensure_signed origin in
  let! s := get in
  do! ensure (bool_decide (bonded (bonds s) !! stash = None)) (err AlreadyBonded) in
  let! controller := lookup_account controller in
  do! ensure (bool_decide (ledger (bonds s) !! controller = None)) (err AlreadyPaired) in
  do! ensure (sc_minimum_balance <=? value) (err InsufficientBond) in
  let! c := ok_or (inc_consumers stash (chain s)) (err BadState) in
  do! modify (over_chain (fun _ => c)) in
  do! modify (set_bonded <[stash := controller]>) in
  do! modify (set_payee_map <[stash := payee]>) in
  let! s := get in
  let current_era := default 0 (current_era (eras s)) in
  let last_reward_era := sat_sub current_era (history_depth (eras s)) in
  let value := Z.min value (sc_free_balance stash (chain s)) in
  do! modify (deposit_event (BondedEvent stash value)) in
  modify (update_ledger controller
            (MkLedger stash value value [] (seqZ last_reward_era (current_era - last_reward_era)))).

Definition bond_extra (origin : Origin) (max_additional : Z) : Run unit :=
  let! stash := ensure_signed origin in
  let! controller := gets (fun s => bonded (bonds s) !! stash) in
  let! controller := ok_or controller (err NotStash) in
  let! l := controller_ledger controller in
  let! stash_balance := gets (fun s => sc_free_balance stash (chain s)) in
  match checked_sub stash_balance (total l) with
  | Some extra =>
      let extra := Z.min extra max_additional in
      let l := MkLedger (StakingLedger.stash l) (wrap 128 (total l + extra)) (wrap 128 (active l + extra))
                 (unlocking l) (claimed_rewards l) in
      do! ensure (sc_minimum_balance <=? active l) (err InsufficientBond) in
      do! modify (deposit_event (BondedEvent stash extra)) in
      modify (update_ledger controller l)
  | None => ret tt
  end.

(** The part of the active stake a role requires. *)
Definition min_active_bond (s : St) (stash : AccountId) : Z :=
  if is_nominator s stash then min_nominator_bond (roles s)
  else if is_validator s stash then min_validator_bond (roles s) else 0.

(** What [unbond] takes out of the active stake and what is left of it. *)
Definition unbond_amounts (value active : Z) : Z * Z :=
  let active := active - value in
  if active <? sc_minimum_balance then (wrap 128 (value + active), 0) else (value, active).

Definition unbond (origin : Origin) (value : Z) : Run unit :=
  let! controller := ensure_signed origin in
  let! l := controller_ledger controller in
  do! ensure (length (unlocking l) <? MAX_UNLOCKING_CHUNKS)%nat (err NoMoreChunks) in
  let value := Z.min value (active l) in
  if value =? 0 then ret tt
  else
    let '(value, active') := unbond_amounts value (active l) in
    let! s := get in
    do! ensure (min_active_bond s (stash l) <=? active') (err InsufficientBond) in
    let era := wrap 32 (default 0 (current_era (eras s)) + bonding_duration cfg) in
    do! modify (update_ledger controller
                  (MkLedger (stash l) (total l) active' (unlocking l ++ [MkChunk value era])
                     (claimed_rewards l))) in
    modify (deposit_event (Unbonded (stash l) value)).

Definition kill_stash (stash : AccountId) (num_slashing_spans : Z) : Run unit :=
  let! controller := gets (fun s => bonded (bonds s) !! stash) in
  let! controller := ok_or controller (err NotStash) in
  let! s := get in
  let! s := match clear_stash_metadata stash num_slashing_spans s with
            | Ok s => ret s
            | Err e => fail (err e)
            | Panic => panic
            end in
  do! modify (fun _ => s) in
  do! modify (set_bonded (delete stash)) in
  do! modify (set_ledger (delete controller)) in
  do! modify (set_payee_map (delete stash)) in
  do! modify (fun s => (do_remove_validator stash s).2) in
  do! modify (fun s => (do_remove_nominator stash s).2) in
  modify (over_chain (dec_consumers stash)).

Definition withdraw_unbonded (origin : Origin) (num_slashing_spans : Z) : Run unit :=
  let! controller := ensure_signed origin in
  let! l := controller_ledger controller in
  let stash := stash l in
  let old_total := total l in
  let! era := gets (fun s => current_era (eras s)) in
  let l := match era with Some current_era => consolidate_unlocked current_era l | None => l end in
  do! (if match unlocking l with [] => true | _ => false end && (active l <? sc_minimum_balance) then
         do! kill_stash stash num_slashing_spans in
         modify (over_chain (sc_remove_lock stash))
       else modify (update_ledger controller l)) in
  if total l <? old_total then modify (deposit_event (Withdrawn stash (old_total - total l))) else ret tt.

Definition rebond (origin : Origin) (value : Z) : Run unit :=
  let! controller := ensure_signed origin in
  let! l := controller_ledger controller in
  do! ensure (match unlocking l with [] => false | _ => true end) (err NoUnlockChunk) in
  let l := rebond_ledger value l in
  do! ensure (sc_minimum_balance <=? active l) (err InsufficientBond) in
  do! modify (deposit_event (BondedEvent (stash l) value)) in
  modify (update_ledger controller l).

(** ** Roles *)

Definition validate (origin : Origin) (prefs : ValidatorPrefs Perbill) : Run unit :=
  let! controller := ensure_signed origin in
  let! l := controller_ledger controller in
  let! s := get in
  do! ensure (min_validator_bond (roles s) <=? active l) (err InsufficientBond) in
  do! ensure (is_validator s (stash l)
              || match max_validators_count (roles s) with
                 | Some max_validators => counter_for_validators (roles s) <? max_validators
                 | None => true
                 end) (err TooManyValidators) in
  do! modify (fun s => (do_remove_nominator (stash l) s).2) in
  modify (do_add_validator (stash l) prefs).

(** The targets looked up one by one; the first problem is the error. *)
Fixpoint resolve_targets (old : list AccountId) (s : St) (targets : list Source) :
    outcome (StakingError + X) (list AccountId) :=
  match targets with
  | [] => Ok []
  | t :: rest =>
      let? n := ok_or_err (lookup cfg t) (inr (cannot_lookup cfg)) in
      do? oensure (bool_decide (n ∈ old) || negb (blocked (prefs_of s n))) (err BadTarget) in
      let? ns := resolve_targets old s rest in
      Ok (n :: ns)
  end.

Definition nominate (origin : Origin) (targets : list Source) : Run unit :=
  let! controller := ensure_signed origin in
  let! l := controller_ledger controller in
  let! s := get in
  do! ensure (min_nominator_bond (roles s) <=? active l) (err InsufficientBond) in
  do! ensure (is_nominator s (stash l)
              || match max_nominators_count (roles s) with
                 | Some max_nominators => counter_for_nominators (roles s) <? max_nominators
                 | None => true
                 end) (err TooManyNominators) in
  do! ensure (match targets with [] => false | _ => true end) (err EmptyTargets) in
  do! ensure (Z.of_nat (length targets) <=? max_nominations cfg) (err TooManyTargets) in
  let old := match nominators (roles s) !! stash l with Some x => Staking.targets x | None => [] end in
  let! targets := reads (fun s => resolve_targets old s targets) in
  let nominations := MkNominations targets (default 0 (current_era (eras s))) false in
  do! modify (fun s => (do_remove_validator (stash l) s).2) in
  modify (do_add_nominator (stash l) nominations).

Definition chill (origin : Origin) : Run unit :=
  let! controller := ensure_signed origin in
  let! l := controller_ledger controller in
  modify (chill_stash (stash l)).

Definition set_payee (origin : Origin) (payee : RewardDestination AccountId) : Run unit :=
  let! controller := ensure_signed origin in
  let! l := controller_ledger controller in
  modify (set_payee_map <[stash l := payee]>).

Definition set_controller (origin : Origin) (controller : Source) : Run unit :=
  let! stash := ensure_signed origin in
  let! old_controller := gets (fun s => bonded (bonds s) !! stash) in
  let! old_controller := ok_or old_controller (err NotStash) in
  let! controller := lookup_account controller in
  let! s := get in
  do! ensure (bool_decide (ledger (bonds s) !! controller = None)) (err AlreadyPaired) in
  if bool_decide (controller = old_controller) then ret tt
  else
    do! modify (set_bonded <[stash := controller]>) in
    match ledger (bonds s) !! old_controller with
    | Some l => modify (set_ledger (fun m => <[controller := l]> (delete old_controller m)))
    | None => ret tt
    end.

(** The removal of one validator from the targets of a nominator. *)
Definition kick_one (stash nom_stash : AccountId) : Run unit :=
  let! s := get in
  match nominators (roles s) !! nom_stash with
  | Some nom =>
      match position (fun v => bool_decide (v = stash)) (Staking.targets nom) with
      | Some pos =>
          do! modify (set_nominators
                (<[nom_stash := MkNominations (swap_remove pos (Staking.targets nom)) (submitted_in nom)
                                  (suppressed nom)]> (nominators (roles s)))
                (counter_for_nominators (roles s))) in
          modify (deposit_event (Kicked nom_stash stash))
      | None => ret tt
      end
  | None => ret tt
  end.

Definition kick (origin : Origin) (who : list Source) : Run unit :=
  let! controller := ensure_signed origin in
  let! l := controller_ledger controller in
  let! who := ok_or (mapM (lookup cfg) who) (inr (cannot_lookup cfg)) in
  for_each (kick_one (stash l)) who.

(** The condition under which anyone may chill a staker. *)
Definition chill_bond (s : St) (stash : AccountId) : outcome (StakingError + X) Z :=
  let? threshold := ok_or_err (chill_threshold (roles s)) (err CannotChillOther) in
  if is_nominator s stash then
    let? max_nominator_count := ok_or_err (max_nominators_count (roles s)) (err CannotChillOther) in
    do? oensure (pt_mul threshold max_nominator_count <? counter_for_nominators (roles s))
          (err CannotChillOther) in
    Ok (min_nominator_bond (roles s))
  else if is_validator s stash then
    let? max_validator_count := ok_or_err (max_validators_count (roles s)) (err CannotChillOther) in
    do? oensure (pt_mul threshold max_validator_count <? counter_for_validators (roles s))
          (err CannotChillOther) in
    Ok (min_validator_bond (roles s))
  else Ok 0.

Definition chill_other (origin : Origin) (controller : AccountId) : Run unit :=
  let! caller := ensure_signed origin in
  let! l := controller_ledger controller in
  do! (if bool_decide (caller = controller) then ret tt
       else
         let! min_active_bond := reads (fun s => chill_bond s (stash l)) in
         ensure (active l <? min_active_bond) (err CannotChillOther)) in
  modify (chill_stash (stash l)).

(** ** Root *)

Definition set_validator_count (origin : Origin) (new : Z) : Run unit :=
  do! ensure_root origin in
  modify (set_validator_count_value new).

Definition increase_validator_count (origin : Origin) (additional : Z) : Run unit :=
  do! ensure_root origin in
  modify (fun s => set_validator_count_value (wrap 32 (validator_count (eras s) + additional)) s).

Definition scale_validator_count (origin : Origin) (factor : Percent) : Run unit :=
  do! ensure_root origin in
  modify (fun s => let n := validator_count (eras s) in
                   set_validator_count_value (wrap 32 (n + pt_mul factor n)) s).

Definition force_no_eras (origin : Origin) : Run unit :=
  do! ensure_root origin in modify (set_force_era ForceNone).

Definition force_new_era (origin : Origin) : Run unit :=
  do! ensure_root origin in modify (set_force_era ForceNew).

Definition force_new_era_always (origin : Origin) : Run unit :=
  do! ensure_root origin in modify (set_force_era ForceAlways).

Definition set_invulnerables (origin : Origin) (invulnerables : list AccountId) : Run unit :=
  do! ensure_root origin in modify (set_invulnerables_list invulnerables).

Definition force_unstake (origin : Origin) (stash : AccountId) (num_slashing_spans : Z) : Run unit :=
  do! ensure_root origin in
  do! kill_stash stash num_slashing_spans in
  modify (over_chain (sc_remove_lock stash)).

Definition reap_stash (origin : Origin) (stash : AccountId) (num_slashing_spans : Z) : Run unit :=
  let! s := get in
  do! ensure (sc_total_balance stash (chain s) =? sc_minimum_balance) (err FundedTarget) in
  do! kill_stash stash num_slashing_spans in
  modify (over_chain (sc_remove_lock stash)).

Definition cancel_deferred_slash (origin : Origin) (era : Z) (slash_indices : list Z) : Run unit :=
  do! ensure (is_slash_cancel_origin cfg origin) (inr (bad_origin cfg)) in
  do! ensure (match slash_indices with [] => false | _ => true end) (err EmptyTargets) in
  do! ensure (is_sorted_and_unique slash_indices) (err NotSortedAndUnique) in
  let! unapplied := gets (fun s => unapplied_of s era) in
  let! last_item := expect (last slash_indices) in
  do! ensure (last_item <? Z.of_nat (length unapplied)) (err InvalidSlashIndex) in
  modify (set_unapplied <[era := remove_indices 0 slash_indices unapplied]> (fun e => e)).

Definition set_staking_limits (origin : Origin) (min_nominator_bond min_validator_bond : Z)
    (max_nominator_count max_validator_count : option Z) (threshold : option Percent) : Run unit :=
  do! ensure_root origin in
  modify (over_roles (fun r => MkRoles (validators r) (counter_for_validators r) (nominators r)
    (counter_for_nominators r) min_nominator_bond min_validator_bond max_nominator_count
    max_validator_count threshold)).

(** What is recorded about an era is removed. *)
Definition clear_era_information (era : Z) (s : St) : St :=
  over_eras (fun e => MkEras (history_depth e) (validator_count e) (minimum_validator_count e)
    (current_era e) (active_era e) (force_era e) (bonded_eras e)
    (delete era (eras_start_session_index e))
    (filter (fun kv => kv.1.1 <> era) (eras_stakers e))
    (filter (fun kv => kv.1.1 <> era) (eras_stakers_clipped e))
    (filter (fun kv => kv.1.1 <> era) (eras_validator_prefs e))
    (delete era (eras_validator_reward e)) (delete era (eras_reward_points e))
    (delete era (eras_total_stake e))) s.

Definition set_history_depth (origin : Origin) (new_history_depth : Z) : Run unit :=
  do! ensure_root origin in
  let! s := get in
  match current_era (eras s) with
  | Some current_era =>
      let last_kept := default 0 (checked_sub current_era (history_depth (eras s))) in
      let new_last_kept := default 0 (checked_sub current_era new_history_depth) in
      do! modify (fun s => fold_left (fun s era => clear_era_information era s)
                             (seqZ last_kept (new_last_kept - last_kept)) s) in
      modify (over_eras (fun e => MkEras new_history_depth (validator_count e) (minimum_validator_count e)
        (Staking.current_era e) (active_era e) (force_era e) (bonded_eras e) (eras_start_session_index e)
        (eras_stakers e) (eras_stakers_clipped e) (eras_validator_prefs e) (eras_validator_reward e)
        (eras_reward_points e) (eras_total_stake e)))
  | None => ret tt
  end.

End Calls.
