(* ===== verification/StakingEras.v ===== *)
(** * Sessions, eras and offences

    [lib-serml/serp/serp-staking/src/lib.rs]: planning and starting eras, the exposures of
    the elected validators, applying deferred slashes, reward points, offences, and the
    halving of the native issuance. The end of an era and the payouts are in
    [StakingPayout]. *)

From S2P Require Import Prelude Externals StakingLedger SlashingSpans Staking Slashing StakingCalls.

(** ** Issuance *)

(** [SetheumHalving::native_issuance]; a division by zero panics. *)
Definition native_issuance (halving_interval initial_issuance era_duration : Z) : option Z :=
  halvings ← checked_div era_duration halving_interval;
  Some (if 64 <=? halvings then 0 else Z.shiftr initial_issuance halvings).

(** ** Exposures *)

(** The two [for_each] closures of [collect_exposures] on the voters of one winner. *)
Definition collect_exposure {A : Type} `{EqDecision A} (to_currency : Z -> Z) (support : A * list (A * Z)) :
    A * Exposure A :=
  let validator := support.1 in
  let step '(own, total, others) '(nominator, weight) :=
    let stake := to_currency weight in
    let total := sat_add 128 total stake in
    if bool_decide (nominator = validator) then (sat_add 128 own stake, total, others)
    else (own, total, others ++ [(nominator, stake)]) in
  let '(own, total, others) := fold_left step support.2 (0, 0, []) in
  (validator, MkExposure total own others).

(** [sort_by(|a, b| a.value.cmp(&b.value).reverse())], a stable sort. *)
Fixpoint insert_by_value {A : Type} (x : A * Z) (l : list (A * Z)) : list (A * Z) :=
  match l with
  | [] => [x]
  | y :: rest => if y.2 <=? x.2 then x :: y :: rest else y :: insert_by_value x rest
  end.

Definition sort_by_value {A : Type} (l : list (A * Z)) : list (A * Z) := foldr insert_by_value [] l.

Definition clip_exposure {A : Type} (clipped_max_len : Z) (e : Exposure A) : Exposure A :=
  if clipped_max_len <? Z.of_nat (length (exp_others e)) then
    MkExposure (exp_total e) (exp_own e) (take (Z.to_nat clipped_max_len) (sort_by_value (exp_others e)))
  else e.

(** The eras whose index is below the first one kept. *)
Fixpoint take_while {A : Type} (f : A -> bool) (l : list A) : list A :=
  match l with
  | x :: rest => if f x then x :: take_while f rest else []
  | [] => []
  end.

Section Eras.
Context {L X AccountId Source Origin Perbill Percent : Type} `{Countable AccountId}.
Context `{!StakingCurrency L AccountId} `{!Session L AccountId} `{!FrameSystem L AccountId}.
Context `{!Perthing Perbill} `{!Perthing Percent}.
Variable cfg : Config L X AccountId Source Origin.

Abbreviation St := (State L AccountId Perbill Percent).

Definition set_active_era (v : option ActiveEraInfo) : St -> St :=
  over_eras (fun e => MkEras (history_depth e) (validator_count e) (minimum_validator_count e)
    (current_era e) v (force_era e) (bonded_eras e) (eras_start_session_index e) (eras_stakers e)
    (eras_stakers_clipped e) (eras_validator_prefs e) (eras_validator_reward e) (eras_reward_points e)
    (eras_total_stake e)).

Definition set_bonded_eras (v : list (Z * Z)) : St -> St :=
  over_eras (fun e => MkEras (history_depth e) (validator_count e) (minimum_validator_count e)
    (current_era e) (active_era e) (force_era e) v (eras_start_session_index e) (eras_stakers e)
    (eras_stakers_clipped e) (eras_validator_prefs e) (eras_validator_reward e) (eras_reward_points e)
    (eras_total_stake e)).

Definition set_current_era (v start_session : Z) : St -> St :=
  over_eras (fun e => MkEras (history_depth e) (validator_count e) (minimum_validator_count e)
    (Some v) (active_era e) (force_era e) (bonded_eras e) (<[v := start_session]> (eras_start_session_index e))
    (eras_stakers e) (eras_stakers_clipped e) (eras_validator_prefs e) (eras_validator_reward e)
    (eras_reward_points e) (eras_total_stake e)).

Definition set_stakers (f g : gmap (Z * AccountId) (Exposure AccountId) -> gmap (Z * AccountId) (Exposure AccountId)) :
    St -> St :=
  over_eras (fun e => MkEras (history_depth e) (validator_count e) (minimum_validator_count e)
    (current_era e) (active_era e) (force_era e) (bonded_eras e) (eras_start_session_index e)
    (f (eras_stakers e)) (g (eras_stakers_clipped e)) (eras_validator_prefs e) (eras_validator_reward e)
    (eras_reward_points e) (eras_total_stake e)).

Definition set_prefs (f : gmap (Z * AccountId) (ValidatorPrefs Perbill) -> gmap (Z * AccountId) (ValidatorPrefs Perbill))
    (g : gmap Z Z -> gmap Z Z) : St -> St :=
  over_eras (fun e => MkEras (history_depth e) (validator_count e) (minimum_validator_count e)
    (current_era e) (active_era e) (force_era e) (bonded_eras e) (eras_start_session_index e)
    (eras_stakers e) (eras_stakers_clipped e) (f (eras_validator_prefs e)) (eras_validator_reward e)
    (eras_reward_points e) (g (eras_total_stake e))).

Definition set_points (f : gmap Z (EraRewardPoints AccountId) -> gmap Z (EraRewardPoints AccountId)) : St -> St :=
  over_eras (fun e => MkEras (history_depth e) (validator_count e) (minimum_validator_count e)
    (current_era e) (active_era e) (force_era e) (bonded_eras e) (eras_start_session_index e)
    (eras_stakers e) (eras_stakers_clipped e) (eras_validator_prefs e) (eras_validator_reward e)
    (f (eras_reward_points e)) (eras_total_stake e)).

(** [on_finalize]: the start of the first block of an era. *)
Definition on_finalize (s : St) : St :=
  match active_era (eras s) with
  | Some (MkActiveEra i None) => set_active_era (Some (MkActiveEra i (Some (unix_time cfg (chain s))))) s
  | _ => s
  end.

(** ** Planning an era *)

Definition collect_exposures (supports : list (AccountId * list (AccountId * Z))) (s : St) :
    list (AccountId * Exposure AccountId) :=
  let total_issuance := sc_total_issuance (chain s) in
  map (collect_exposure (fun e => to_currency cfg e total_issuance)) supports.

Definition store_stakers_info (exposures : list (AccountId * Exposure AccountId)) (new_planned_era : Z) (s : St) :
    list AccountId * St :=
  let elected_stashes := map fst exposures in
  let '(total_stake, s) :=
    fold_left (fun '(total_stake, s) '(stash, exposure) =>
      (sat_add 128 total_stake (exp_total exposure),
       set_stakers <[(new_planned_era, stash) := exposure]>
         <[(new_planned_era, stash) := clip_exposure (max_nominator_rewarded_per_validator cfg) exposure]> s))
      exposures (0, s) in
  let s := set_prefs (fun m => m) <[new_planned_era := total_stake]> s in
  (elected_stashes,
   fold_left (fun s stash => set_prefs <[(new_planned_era, stash) := prefs_of s stash]> (fun m => m) s)
     elected_stashes s).

Definition trigger_new_era (start_session_index : Z) (exposures : list (AccountId * Exposure AccountId)) (s : St) :
    list AccountId * St :=
  let new_planned_era :=
    match current_era (eras s) with Some e => wrap 32 (e + 1) | None => 0 end in
  let s := set_current_era new_planned_era start_session_index s in
  let s := match checked_sub new_planned_era (wrap 32 (history_depth (eras s) + 1)) with
           | Some old_era => clear_era_information old_era s
           | None => s
           end in
  store_stakers_info exposures new_planned_era s.

Definition try_trigger_new_era (start_session_index : Z) (is_genesis : bool) (s : St) :
    option (list AccountId) * St :=
  let '(election_result, l) := elect cfg is_genesis (chain s) in
  let s := over_chain (fun _ => l) s in
  match election_result with
  | None => (None, deposit_event StakingElectionFailed s)
  | Some supports =>
      let exposures := collect_exposures supports s in
      if wrap 32 (Z.of_nat (length exposures)) <? Z.max (minimum_validator_count (eras s)) 1 then
        let s := match current_era (eras s) with
                 | None => set_current_era 0 start_session_index s
                 | Some _ => s
                 end in
        (None, deposit_event StakingElectionFailed s)
      else
        let '(elected, s) := trigger_new_era start_session_index exposures (deposit_event StakingElection s) in
        (Some elected, s)
  end.

Definition new_session (session_index : Z) (is_genesis : bool) (s : St) : option (list AccountId) * St :=
  match current_era (eras s) with
  | Some current_era =>
      let current_era_start_session_index := default 0 (eras_start_session_index (eras s) !! current_era) in
      let era_length := default 0 (checked_sub session_index current_era_start_session_index) in
      let go_on :=
        match force_era (eras s) with
        | ForceNew | ForceAlways => true
        | NotForcing => sessions_per_era cfg <=? era_length
        | ForceNone => false
        end in
      if go_on then
        let '(maybe_new_era_validators, s) := try_trigger_new_era session_index is_genesis s in
        let s := match maybe_new_era_validators, force_era (eras s) with
                 | Some _, ForceNew => set_force_era NotForcing s
                 | _, _ => s
                 end in
        (maybe_new_era_validators, s)
      else (None, s)
  | None => try_trigger_new_era session_index is_genesis s
  end.

(** ** Starting an era *)

Definition apply_unapplied_slashes (active_era : Z) (s : St) : St :=
  match earliest_unapplied_slash (slashes s) with
  | Some earliest =>
      let keep_from := sat_sub active_era (slash_defer_duration cfg) in
      let s :=
        fold_left (fun s era =>
          let era_slashes := unapplied_of s era in
          let s := set_unapplied (delete era) (fun e => e) s in
          fold_left (fun s slash => apply_slash slash s) era_slashes s)
          (seqZ earliest (keep_from - earliest)) s in
      set_unapplied (fun m => m) (fun _ => Some (Z.max earliest keep_from)) s
  | None => s
  end.

(** The closure on [BondedEras]: what is kept, and the eras whose metadata is cleared. *)
Definition prune_bonded_eras (active_era start_session : Z) (bonded : list (Z * Z)) :
    list (Z * Z) * list (Z * Z) :=
  let bonded := bonded ++ [(active_era, start_session)] in
  if bonding_duration cfg <? active_era then
    let first_kept := active_era - bonding_duration cfg in
    let n_to_prune := length (take_while (fun e => e.1 <? first_kept) bonded) in
    (drop n_to_prune bonded, take n_to_prune bonded)
  else (bonded, []).

Definition start_era (start_session : Z) (s : St) : St :=
  let active_era :=
    match active_era (eras s) with Some info => wrap 32 (era_index info + 1) | None => 0 end in
  let s := set_active_era (Some (MkActiveEra active_era None)) s in
  let '(kept, pruned) := prune_bonded_eras active_era start_session (bonded_eras (eras s)) in
  let s := fold_left (fun s e => clear_era_metadata e.1 s) pruned s in
  let s :=
    if bonding_duration cfg <? active_era then
      match head kept with
      | Some (_, first_session) => over_chain (si_prune_historical_up_to first_session) s
      | None => s
      end
    else s in
  let s := set_bonded_eras kept s in
  apply_unapplied_slashes active_era s.

Definition start_session (start_session : Z) (s : St) : St :=
  let next_active_era :=
    match active_era (eras s) with Some e => wrap 32 (era_index e + 1) | None => 0 end in
  match eras_start_session_index (eras s) !! next_active_era with
  | Some next_active_era_start_session_index =>
      if next_active_era_start_session_index =? start_session then start_era start_session s
      else if next_active_era_start_session_index <? start_session then start_era start_session s
      else s
  | None => s
  end.

(** ** Reward points *)

Definition reward_by_ids (validators_points : list (AccountId * Z)) (s : St) : St :=
  match active_era (eras s) with
  | Some active_era =>
      let era_rewards := default (MkPoints 0 ∅) (eras_reward_points (eras s) !! era_index active_era) in
      let era_rewards :=
        fold_left (fun r '(validator, points) =>
          MkPoints (wrap 32 (points_total r + points))
            (<[validator := wrap 32 (default 0 (individual r !! validator) + points)]> (individual r)))
          validators_points era_rewards in
      set_points <[era_index active_era := era_rewards]> s
  | None => s
  end.

(** ** Offences *)

Record OffenceDetails : Type := MkOffence {
  offender : AccountId * Exposure AccountId;
  reporters : list AccountId
}.

(** One turn of the loop of [on_offence]. *)
Definition on_one_offence (active_era slash_era window_start : Z) (reward_proportion : Perbill)
    (s : St) (offence : OffenceDetails * Perbill) : St :=
  let '(details, slash_fraction) := offence in
  let '(stash, exposure) := offender details in
  if bool_decide (stash ∈ invulnerables (slashes s)) then s
  else
    let '(unapplied, s) :=
      compute_slash (MkSlashParams stash slash_fraction exposure slash_era window_start active_era
                       reward_proportion) s in
    match unapplied with
    | Some u =>
        let u := MkUnapplied (us_validator u) (us_own u) (us_others u) (reporters details) (us_payout u) in
        if slash_defer_duration cfg =? 0 then apply_slash u s
        else set_unapplied <[active_era := unapplied_of s active_era ++ [u]]> (fun e => e) s
    | None => s
    end.

(** The era an offence is charged to. *)
Definition offence_era (active_era slash_session : Z) (s : St) : option Z :=
  let active_era_start_session_index := default 0 (eras_start_session_index (eras s) !! active_era) in
  if active_era_start_session_index <=? slash_session then Some active_era
  else fst <$> List.find (fun e => e.2 <=? slash_session) (reverse (bonded_eras (eras s))).

Definition on_offence (offenders : list OffenceDetails) (slash_fraction : list Perbill) (slash_session : Z)
    (s : St) : St :=
  match active_era (eras s) with
  | Some info =>
      let active_era := era_index info in
      let window_start := sat_sub active_era (bonding_duration cfg) in
      match offence_era active_era slash_session s with
      | Some slash_era =>
          let s := set_unapplied (fun m => m)
                     (fun e => match e with None => Some active_era | Some e => Some e end) s in
          fold_left (on_one_offence active_era slash_era window_start (slash_reward_fraction (slashes s)))
            (combine offenders slash_fraction) s
      | None => s
      end
  | None => s
  end.

(** [FilterHistoricalOffences]: whether a report is of the current bonding period, and the
    report itself, passed on to [forward] or discarded. *)
Definition report_is_recent (offence_session : Z) (s : St) : bool :=
  match head (bonded_eras (eras s)) with
  | Some (_, start) => start <=? offence_session
  | None => false
  end.

Definition report_offence {E : Type} (offence_session : Z) (forward : M (State L AccountId Perbill Percent) E unit) :
    M (State L AccountId Perbill Percent) E unit :=
  let! s := get in
  if report_is_recent offence_session s then forward
  else modify (deposit_event (OldSlashingReportDiscarded offence_session)).

End Eras.
