(* ===== verification/StakingPayout.v ===== *)
(** * Ending eras and paying stakers

    [lib-serml/serp/serp-staking/src/lib.rs]: when a session ends an era, and the call that
    pays a validator and its nominators for one. Two things have no type in the source and
    are arguments here: what [end_era] stores as the reward of an era (it inserts two
    amounts in a map of one), and [make_payout], as [do_payout_stakers] calls it (with one
    amount, for an amount that was paid; it is declared with two and returns nothing).
    [make_native_payout], which [make_payout] calls, is modelled: the [ensure!] in it is
    read as paying nothing when there is nothing to pay. *)

From S2P Require Import Prelude Externals StakingLedger SlashingSpans Staking Slashing StakingCalls StakingEras.

(** [Perbill::from_rational]. *)
Class PerthingRational (P : Type) : Type := { pt_from_rational : Z -> Z -> P }.

(** [Currency::deposit_creating] and [deposit_into_existing]: the amount that was created. *)
Class PayoutCurrency (L AccountId : Type) : Type := {
  pc_deposit_creating : AccountId -> Z -> L -> Z * L;
  pc_deposit_into_existing : AccountId -> Z -> L -> option Z * L
}.

(** ** Claims *)

(** [binary_search] in the sorted list of the claimed eras, and [insert] where it is not. *)
Fixpoint claim_era (era : Z) (claimed : list Z) : option (list Z) :=
  match claimed with
  | [] => Some [era]
  | x :: rest =>
      if x <? era then cons x <$> claim_era era rest
      else if x =? era then None else Some (era :: x :: rest)
  end.

(** [retain(|&x| x >= first)]. *)
Definition retain_from (first : Z) (claimed : list Z) : list Z := List.filter (fun x => first <=? x) claimed.

Section Payout.
Context {L X AccountId Source Origin Perbill Percent : Type} `{Countable AccountId}.
Context `{!StakingCurrency L AccountId} `{!Session L AccountId} `{!FrameSystem L AccountId}.
Context `{!Perthing Perbill} `{!Perthing Percent} `{!PerthingRational Perbill} `{!PayoutCurrency L AccountId}.
Variable cfg : Config L X AccountId Source Origin.

Abbreviation St := (State L AccountId Perbill Percent).
Abbreviation Run := (M (State L AccountId Perbill Percent) (StakingError + X)).

Definition set_reward (f : gmap Z Z -> gmap Z Z) : St -> St :=
  over_eras (fun e => MkEras (history_depth e) (validator_count e) (minimum_validator_count e)
    (current_era e) (active_era e) (force_era e) (bonded_eras e) (eras_start_session_index e) (eras_stakers e)
    (eras_stakers_clipped e) (eras_validator_prefs e) (f (eras_validator_reward e)) (eras_reward_points e)
    (eras_total_stake e)).

(** ** Ending an era *)

(** The era that [end_session] ends. *)
Definition era_to_end (session_index : Z) (s : St) : option ActiveEraInfo :=
  active_era ← active_era (eras s);
  next_active_era_start_session_index ← eras_start_session_index (eras s) !! wrap 32 (era_index active_era + 1);
  if next_active_era_start_session_index =? wrap 32 (session_index + 1) then Some active_era else None.

(** [end_era] with the reward that it is to store. *)
Definition end_era (active_era : ActiveEraInfo) (reward : Z) (s : St) : St :=
  match era_start active_era with
  | Some _ => set_reward <[era_index active_era := reward]> s
  | None => s
  end.

Definition end_session (session_index reward : Z) (s : St) : St :=
  match era_to_end session_index s with
  | Some active_era => end_era active_era reward s
  | None => s
  end.

(** ** Paying one account *)

Definition make_native_payout (stash : AccountId) (native_amount : Z) (s : St) : option Z * St :=
  if native_amount =? 0 then (None, s)
  else
    let creating who s := let '(v, l) := pc_deposit_creating who native_amount (chain s) in (Some v, over_chain (fun _ => l) s) in
    let existing who s := let '(v, l) := pc_deposit_into_existing who native_amount (chain s) in (v, over_chain (fun _ => l) s) in
    match payee_of s stash with
    | Controller => match bonded (bonds s) !! stash with Some controller => creating controller s | None => (None, s) end
    | Stash => existing stash s
    | Staked =>
        match (controller ← bonded (bonds s) !! stash; l ← ledger (bonds s) !! controller; Some (controller, l)) with
        | Some (controller, l) =>
            let l := MkLedger (StakingLedger.stash l) (wrap 128 (total l + native_amount)) (wrap 128 (active l + native_amount))
                       (unlocking l) (claimed_rewards l) in
            let '(r, s) := existing stash s in
            (r, update_ledger controller l s)
        | None => (None, s)
        end
    | Account dest_account => creating dest_account s
    | NoReward => (None, s)
    end.

(** ** Paying a validator and its nominators *)

Variable make_payout : AccountId -> Z -> St -> option Z * St.

Definition pay (who : AccountId) (amount : Z) : Run unit :=
  let! paid := (fun s => let '(v, s) := make_payout who amount s in (Ok v, s)) in
  match paid with
  | Some imbalance => modify (deposit_event (Reward who imbalance))
  | None => ret tt
  end.

Definition era_points (s : St) (era : Z) : EraRewardPoints AccountId := default (MkPoints 0 ∅) (eras_reward_points (eras s) !! era).

Definition exposure_clipped (s : St) (era : Z) (who : AccountId) : Exposure AccountId :=
  default (MkExposure 0 0 []) (eras_stakers_clipped (eras s) !! (era, who)).

Definition era_prefs (s : St) (era : Z) (who : AccountId) : ValidatorPrefs Perbill :=
  default (MkPrefs pt_zero false) (eras_validator_prefs (eras s) !! (era, who)).

(** The checks, and the ledger that records the claim. *)
Definition claim_reward (validator_stash : AccountId) (era : Z) :
    Run (Z * (AccountId * StakingLedger AccountId)) :=
  let! s := get in
  let! current_era := ok_or (current_era (eras s)) (err InvalidEraToReward) in
  let history_depth := history_depth (eras s) in
  do! ensure ((era <=? current_era) && (sat_sub current_era history_depth <=? era)) (err InvalidEraToReward) in
  let! era_payout := ok_or (eras_validator_reward (eras s) !! era) (err InvalidEraToReward) in
  let! controller := ok_or (bonded (bonds s) !! validator_stash) (err NotStash) in
  let! l := ok_or (ledger (bonds s) !! controller) (err NotController) in
  let! claimed := ok_or (claim_era era (retain_from (sat_sub current_era history_depth) (claimed_rewards l))) (err AlreadyClaimed) in
  ret (era_payout, (controller, MkLedger (stash l) (total l) (active l) (unlocking l) claimed)).

(** What follows the checks cannot fail. *)
Definition distribute (validator_stash : AccountId) (era era_payout : Z) (l : StakingLedger AccountId) : Run unit :=
  let! s := get in
  let exposure := exposure_clipped s era (stash l) in
  let era_reward_points := era_points s era in
  let validator_reward_points := default 0 (individual era_reward_points !! stash l) in
  if validator_reward_points =? 0 then ret tt
  else
    let validator_total_reward_part : Perbill := pt_from_rational validator_reward_points (points_total era_reward_points) in
    let validator_total_payout := pt_mul validator_total_reward_part era_payout in
    let validator_commission_payout := pt_mul (commission (era_prefs s era validator_stash)) validator_total_payout in
    let validator_leftover_payout := validator_total_payout - validator_commission_payout in
    let validator_exposure_part : Perbill := pt_from_rational (exp_own exposure) (exp_total exposure) in
    let validator_staking_payout := pt_mul validator_exposure_part validator_leftover_payout in
    do! pay (stash l) (wrap 128 (validator_staking_payout + validator_commission_payout)) in
    for_each (fun nominator : AccountId * Z =>
      let nominator_exposure_part : Perbill := pt_from_rational nominator.2 (exp_total exposure) in
      pay nominator.1 (pt_mul nominator_exposure_part validator_leftover_payout)) (exp_others exposure).

Definition do_payout_stakers (validator_stash : AccountId) (era : Z) : Run unit :=
  let! claim := claim_reward validator_stash era in
  let '(era_payout, (controller, l)) := claim in
  do! modify (set_ledger <[controller := l]>) in
  distribute validator_stash era era_payout l.

Definition payout_stakers (origin : Origin) (validator_stash : AccountId) (era : Z) : Run unit :=
  let! _ := ensure_signed cfg origin in
  do_payout_stakers validator_stash era.
End Payout.
