(* ===== verification/StakingElection.v ===== *)
(** * The data for elections

    [lib-serml/serp/serp-staking/src/lib.rs], [ElectionDataProvider for Pallet]: the voters
    and the targets that the election provider takes, and the block at which it is expected
    to need them. Storage maps are iterated in the order of [map_to_list], which, like the
    order of hashed keys, says nothing. *)

From Stdlib Require Import String.
From S2P Require Import Prelude Externals StakingLedger SlashingSpans Staking.

Section Election.
Context {L X AccountId Source Origin Perbill Percent : Type} `{Countable AccountId}.
Context `{!StakingCurrency L AccountId} `{!Session L AccountId} `{!FrameSystem L AccountId}.
Context `{!Perthing Perbill} `{!Perthing Percent}.
Variable cfg : Config L X AccountId Source Origin.

(** [CurrencyToVote::to_vote], of an amount and the issuance. *)
Variable to_vote : Z -> Z -> Z.

Abbreviation St := (State L AccountId Perbill Percent).

Definition slashable_balance_of_vote_weight (s : St) (who : AccountId) (issuance : Z) : Z :=
  to_vote (slashable_balance_of s who) issuance.

Definition slashable_balance_of_fn (s : St) : AccountId -> Z :=
  let issuance := sc_total_issuance (chain s) in
  fun who => slashable_balance_of_vote_weight s who issuance.

(** The predicate of [targets.retain]: nominated since the validator was last slashed. *)
Definition still_nominates (spans : gmap AccountId SlashingSpans) (submitted : Z) (who : AccountId) : bool :=
  match spans !! who with
  | Some sp => last_nonzero_slash sp <=? submitted
  | None => true
  end.

Definition self_vote (s : St) (v : AccountId * ValidatorPrefs Perbill) : AccountId * Z * list AccountId :=
  (v.1, slashable_balance_of_fn s v.1, [v.1]).

Definition nominator_votes (s : St) (n : AccountId * Nominations AccountId) : list (AccountId * Z * list AccountId) :=
  match List.filter (still_nominates (slashing_spans (slashes s)) (submitted_in n.2)) (targets n.2) with
  | [] => []
  | kept => [(n.1, slashable_balance_of_fn s n.1, kept)]
  end.

Definition get_npos_voters (s : St) : list (AccountId * Z * list AccountId) :=
  map (self_vote s) (map_to_list (validators (roles s)))
  ++ concat (map (nominator_votes s) (map_to_list (nominators (roles s)))).

Definition get_npos_targets (s : St) : list AccountId := map fst (map_to_list (validators (roles s))).

(** [ElectionDataProvider], without the weights. *)
Definition desired_targets (s : St) : Z := validator_count (eras s).

Definition too_many (maybe_max_len : option Z) (count : Z) : bool :=
  match maybe_max_len with Some max_len => max_len <? count | None => false end.

Definition voters (maybe_max_len : option Z) (s : St) : outcome string (list (AccountId * Z * list AccountId)) :=
  let voter_count := sat_add 32 (counter_for_nominators (roles s)) (counter_for_validators (roles s)) in
  if too_many maybe_max_len voter_count then Err "Voter snapshot too big"%string else Ok (get_npos_voters s).

Definition election_targets (maybe_max_len : option Z) (s : St) : outcome string (list AccountId) :=
  let target_count := counter_for_validators (roles s) in
  if too_many maybe_max_len target_count then Err "Target snapshot too big"%string else Ok (get_npos_targets s).

(** [T::NextNewSession], and the session that was planned last; block numbers have [w] bits. *)
Variable estimate_next_new_session : Z -> L -> option Z.
Variable average_session_length : L -> Z.
Variable w : Z.

Definition sessions_left (s : St) (era_progress : Z) : Z :=
  match force_era (eras s) with
  | ForceNone => umax w
  | ForceNew | ForceAlways => 0
  | NotForcing =>
      if sessions_per_era cfg <=? era_progress then 0
      else sat_sub (sat_sub (sessions_per_era cfg) era_progress) 1
  end.

Definition next_election_prediction (current_planned_session now : Z) (s : St) : Z :=
  let era := default 0 (current_era (eras s)) in
  let era_start_session_index := default 0 (eras_start_session_index (eras s) !! era) in
  let era_progress := Z.min (sat_sub current_planned_session era_start_session_index) (sessions_per_era cfg) in
  let until_this_session_end := sat_sub (default 0 (estimate_next_new_session now (chain s))) now in
  let session_length := average_session_length (chain s) in
  sat_add w now (sat_add w until_this_session_end (sat_mul w (sessions_left s era_progress) session_length)).
End Election.
