(* ===== verification/StakingInvariant.v ===== *)
(** * The invariant of the staking storage

    What the pallet keeps true of its bonds, roles, slashing metadata and eras, and the
    lemmas that say how each elementary write keeps it. The calls, the slashing
    machinery and the eras are put together in [StakingSafety]. *)

From S2P Require Import Prelude Externals StakingLedger SlashingSpans Staking.

(** ** The parts of the invariant *)

Section Parts.
Context {L AccountId Perbill Percent : Type} `{Countable AccountId}.
Context `{!StakingCurrency L AccountId}.

(** Every bonded stash has the ledger of its controller and the other way round, every
    one has a payee, the ledgers are balanced, and what a ledger accounts for is locked. *)
Record bonds_inv (b : Bonds AccountId) (c : L) : Prop := {
  bonds_pair st ctl : bonded b !! st = Some ctl <-> exists l, ledger b !! ctl = Some l /\ stash l = st;
  bonds_payee st : is_Some (payee b !! st) <-> is_Some (bonded b !! st);
  bonds_ledger ctl l : ledger b !! ctl = Some l -> ledger_ok l;
  bonds_lock ctl l : ledger b !! ctl = Some l -> 0 < total l -> sc_lock_of (stash l) c = total l
}.

(** The counters count, nobody has both roles, and only bonded stashes have one. *)
Record roles_inv (r : Roles AccountId Perbill Percent) (b : Bonds AccountId) : Prop := {
  roles_validators_count : counter_for_validators r = Z.of_nat (size (validators r));
  roles_nominators_count : counter_for_nominators r = Z.of_nat (size (nominators r));
  roles_disjoint who : is_Some (validators r !! who) -> nominators r !! who = None;
  roles_validators_bonded who : is_Some (validators r !! who) -> is_Some (bonded b !! who);
  roles_nominators_bonded who : is_Some (nominators r !! who) -> is_Some (bonded b !! who)
}.

(** The amounts of an unapplied slash are balances. *)
Definition unapplied_ok (u : UnappliedSlash AccountId) : Prop :=
  in_uint 128 (us_own u) /\ Forall (fun o => in_uint 128 o.2) (us_others u).

Record slashes_inv (x : Slashes AccountId Perbill) : Prop := {
  slashes_spans who sp : slashing_spans x !! who = Some sp -> spans_ok sp;
  slashes_unapplied era us : unapplied_slashes x !! era = Some us -> Forall unapplied_ok us
}.

Definition eras_inv (e : Eras AccountId Perbill) : Prop :=
  forall info, active_era e = Some info -> in_uint 32 (era_index info).

Record staking_inv (s : State L AccountId Perbill Percent) : Prop := {
  inv_bonds : bonds_inv (bonds s) (chain s);
  inv_roles : roles_inv (roles s) (bonds s);
  inv_slashes : slashes_inv (slashes s);
  inv_eras : eras_inv (eras s)
}.

(** Two ledgers of the currency with the same locks. *)
Definition same_locks (c c' : L) : Prop := forall who : AccountId, sc_lock_of who c' = sc_lock_of who c.

#[global] Instance same_locks_preorder : PreOrder same_locks.
Proof. split; [intros c who; done|]. intros c1 c2 c3 H1 H2 who. by rewrite H2. Qed.

End Parts.

Create HintDb staking.

Section Writes.
Context {L AccountId Perbill Percent : Type} `{Countable AccountId}.
Context `{!StakingCurrency L AccountId} `{!Session L AccountId} `{!FrameSystem L AccountId}.
Context `{!Perthing Perbill} `{!Perthing Percent} `{!StakingCurrencyLaws L AccountId}.

Abbreviation St := (State L AccountId Perbill Percent).

(** ** Writes that concern one part *)

Lemma inv_deposit_event e (s : St) : staking_inv s -> staking_inv (deposit_event e s).
Proof. by intros []. Qed.

Lemma inv_over_chain f (s : St) :
  same_locks (chain s) (f (chain s)) -> staking_inv s -> staking_inv (over_chain f s).
Proof.
  intros Hf [[Hp Hpay Hl Hk] ? ? ?]. split; try done. split; try done.
  intros ctl l E Hpos. simpl. rewrite Hf. by apply (Hk ctl).
Qed.

Lemma inv_over_slashes f (s : St) :
  slashes_inv (f (slashes s)) -> staking_inv s -> staking_inv (over_slashes f s).
Proof. by intros ? []. Qed.

Lemma inv_over_eras f (s : St) : eras_inv (f (eras s)) -> staking_inv s -> staking_inv (over_eras f s).
Proof. by intros ? []. Qed.

Lemma inv_over_roles f (s : St) :
  roles_inv (f (roles s)) (bonds s) -> staking_inv s -> staking_inv (over_roles f s).
Proof. by intros ? []. Qed.

Lemma inv_set_force_era v (s : St) : staking_inv s -> staking_inv (set_force_era v s).
Proof. intros Hs. apply inv_over_eras; [apply (inv_eras _ Hs)|done]. Qed.

Lemma inv_set_validator_count_value v (s : St) : staking_inv s -> staking_inv (set_validator_count_value v s).
Proof. intros Hs. apply inv_over_eras; [apply (inv_eras _ Hs)|done]. Qed.

Lemma inv_ensure_new_era (s : St) : staking_inv s -> staking_inv (ensure_new_era s).
Proof. intros Hs. unfold ensure_new_era. destruct (force_era (eras s)); try done; by apply inv_set_force_era. Qed.

Lemma inv_set_spans who sp (s : St) :
  spans_ok sp -> staking_inv s -> staking_inv (set_spans <[who := sp]> s).
Proof.
  intros Hsp Hs. apply inv_over_slashes; [|done]. destruct (inv_slashes _ Hs) as [Hspans Hun].
  split; [|done]. intros w p. simpl. rewrite lookup_insert_Some. intros [[_ <-]|[_ Hw]]; [done|by eapply Hspans].
Qed.

Lemma inv_delete_spans who (s : St) : staking_inv s -> staking_inv (set_spans (delete who) s).
Proof.
  intros Hs. apply inv_over_slashes; [|done]. destruct (inv_slashes _ Hs) as [Hspans Hun].
  split; [|done]. intros w p. simpl. rewrite lookup_delete_Some. intros [_ Hw]. by eapply Hspans.
Qed.

Lemma inv_set_span_slash f (s : St) : staking_inv s -> staking_inv (set_span_slash f s).
Proof. intros Hs. apply inv_over_slashes; [|done]. by destruct (inv_slashes _ Hs). Qed.

Lemma inv_set_validator_slash f (s : St) : staking_inv s -> staking_inv (set_validator_slash f s).
Proof. intros Hs. apply inv_over_slashes; [|done]. by destruct (inv_slashes _ Hs). Qed.

Lemma inv_set_nominator_slash f (s : St) : staking_inv s -> staking_inv (set_nominator_slash f s).
Proof. intros Hs. apply inv_over_slashes; [|done]. by destruct (inv_slashes _ Hs). Qed.

Lemma inv_set_invulnerables v (s : St) : staking_inv s -> staking_inv (set_invulnerables_list v s).
Proof. intros Hs. apply inv_over_slashes; [|done]. by destruct (inv_slashes _ Hs). Qed.

Lemma inv_set_unapplied f g (s : St) :
  (forall era us, f (unapplied_slashes (slashes s)) !! era = Some us -> Forall unapplied_ok us) ->
  staking_inv s -> staking_inv (set_unapplied f g s).
Proof. intros Hf Hs. apply inv_over_slashes; [|done]. by destruct (inv_slashes _ Hs). Qed.

Lemma unapplied_of_ok (s : St) era : staking_inv s -> Forall unapplied_ok (unapplied_of s era).
Proof.
  intros Hs. unfold unapplied_of. destruct (_ !! era) as [us|] eqn:E; [|constructor].
  by apply (slashes_unapplied _ (inv_slashes _ Hs) era).
Qed.

Lemma inv_insert_unapplied era us g (s : St) :
  Forall unapplied_ok us -> staking_inv s -> staking_inv (set_unapplied <[era := us]> g s).
Proof.
  intros Hus Hs. apply inv_set_unapplied; [|done]. intros e vs. rewrite lookup_insert_Some.
  intros [[_ <-]|[_ He]]; [done|by eapply (slashes_unapplied _ (inv_slashes _ Hs))].
Qed.

Lemma inv_delete_unapplied era g (s : St) : staking_inv s -> staking_inv (set_unapplied (delete era) g s).
Proof.
  intros Hs. apply inv_set_unapplied; [|done]. intros e vs. rewrite lookup_delete_Some.
  intros [_ He]. by eapply (slashes_unapplied _ (inv_slashes _ Hs)).
Qed.

(** ** Roles *)

Lemma is_validator_true (s : St) who : is_validator s who = true <-> is_Some (validators (roles s) !! who).
Proof. apply bool_decide_eq_true. Qed.

Lemma is_nominator_true (s : St) who : is_nominator s who = true <-> is_Some (nominators (roles s) !! who).
Proof. apply bool_decide_eq_true. Qed.

Lemma is_validator_false (s : St) who : is_validator s who = false <-> validators (roles s) !! who = None.
Proof. unfold is_validator. rewrite bool_decide_eq_false. symmetry. apply eq_None_not_Some. Qed.

Lemma is_nominator_false (s : St) who : is_nominator s who = false <-> nominators (roles s) !! who = None.
Proof. unfold is_nominator. rewrite bool_decide_eq_false. symmetry. apply eq_None_not_Some. Qed.

(** One more or one fewer entry, as the counters count them. *)
Lemma size_insert_count {A : Type} (m : gmap AccountId A) who x count :
  count = Z.of_nat (size m) -> Z.of_nat (size m) < umax 32 ->
  (if bool_decide (is_Some (m !! who)) then count else sat_add 32 count 1) = Z.of_nat (size (<[who := x]> m)).
Proof.
  intros -> Hroom. case_bool_decide as Hin.
  - by rewrite map_size_insert_Some.
  - apply eq_None_not_Some in Hin. rewrite map_size_insert_None by done. rewrite sat_add_exact; lia.
Qed.

Lemma size_delete_count {A : Type} (m : gmap AccountId A) who count :
  count = Z.of_nat (size m) -> is_Some (m !! who) -> sat_sub count 1 = Z.of_nat (size (delete who m)).
Proof.
  intros -> [x Hin].
  assert (size m = S (size (delete who m))) as ->.
  { rewrite <- (insert_delete_id m who x Hin) at 1. rewrite map_size_insert_None; [done|apply lookup_delete_eq]. }
  rewrite sat_sub_exact; lia.
Qed.

Lemma roles_inv_remove_validator (s : St) who :
  roles_inv (roles s) (bonds s) ->
  roles_inv (roles (do_remove_validator who s).2) (bonds (do_remove_validator who s).2).
Proof.
  intros Hr. unfold do_remove_validator. destruct (is_validator s who) eqn:E; [|done].
  apply is_validator_true in E. destruct Hr as [Hv Hn Hd Hvb Hnb].
  split; simpl; [by apply size_delete_count|done|..]; intros w; rewrite ?lookup_delete_is_Some; naive_solver.
Qed.

Lemma roles_inv_remove_nominator (s : St) who :
  roles_inv (roles s) (bonds s) ->
  roles_inv (roles (do_remove_nominator who s).2) (bonds (do_remove_nominator who s).2).
Proof.
  intros Hr. unfold do_remove_nominator. destruct (is_nominator s who) eqn:E; [|done].
  apply is_nominator_true in E. destruct Hr as [Hv Hn Hd Hvb Hnb].
  split; simpl; [done|by apply size_delete_count|..]; intros w; rewrite ?lookup_delete_is_Some; [|naive_solver..].
  intros Hw. rewrite lookup_delete_None. by right; apply Hd.
Qed.

Lemma roles_inv_add_validator (s : St) who p :
  roles_inv (roles s) (bonds s) -> nominators (roles s) !! who = None -> is_Some (bonded (bonds s) !! who) ->
  Z.of_nat (size (validators (roles s))) < umax 32 ->
  roles_inv (roles (do_add_validator who p s)) (bonds s).
Proof.
  intros [Hv Hn Hd Hvb Hnb] Hnone Hb Hroom.
  split; simpl; [by apply size_insert_count|done|..]; intros w; rewrite ?lookup_insert_is_Some; [|naive_solver..].
  intros [->|[_ Hw]]; [done|by apply Hd].
Qed.

Lemma roles_inv_add_nominator (s : St) who n :
  roles_inv (roles s) (bonds s) -> validators (roles s) !! who = None -> is_Some (bonded (bonds s) !! who) ->
  Z.of_nat (size (nominators (roles s))) < umax 32 ->
  roles_inv (roles (do_add_nominator who n s)) (bonds s).
Proof.
  intros [Hv Hn Hd Hvb Hnb] Hnone Hb Hroom.
  split; simpl; [done|by apply size_insert_count|..]; intros w; rewrite ?lookup_insert_is_Some; [|naive_solver..].
  intros Hw. apply lookup_insert_None. split; [by apply Hd|]. intros ->. rewrite Hnone in Hw. by destruct Hw.
Qed.

(** Removing a role touches nothing else. *)
Lemma remove_validator_frame (s : St) who :
  let s' := (do_remove_validator who s).2 in
  bonds s' = bonds s /\ chain s' = chain s /\ slashes s' = slashes s /\ eras s' = eras s
  /\ nominators (roles s') = nominators (roles s) /\ validators (roles s') !! who = None.
Proof.
  unfold do_remove_validator. destruct (is_validator s who) eqn:E; simpl; split_and!; try done.
  - apply lookup_delete_eq.
  - by apply is_validator_false.
Qed.

Lemma remove_nominator_frame (s : St) who :
  let s' := (do_remove_nominator who s).2 in
  bonds s' = bonds s /\ chain s' = chain s /\ slashes s' = slashes s /\ eras s' = eras s
  /\ validators (roles s') = validators (roles s) /\ nominators (roles s') !! who = None.
Proof.
  unfold do_remove_nominator. destruct (is_nominator s who) eqn:E; simpl; split_and!; try done.
  - apply lookup_delete_eq.
  - by apply is_nominator_false.
Qed.

Lemma inv_remove_validator (s : St) who : staking_inv s -> staking_inv (do_remove_validator who s).2.
Proof.
  intros [Hb Hr Hsl He]. pose proof (roles_inv_remove_validator s who Hr).
  destruct (remove_validator_frame s who) as (E1 & E2 & E3 & E4 & _).
  split; [by rewrite E1, E2|done|by rewrite E3|by rewrite E4].
Qed.

Lemma inv_remove_nominator (s : St) who : staking_inv s -> staking_inv (do_remove_nominator who s).2.
Proof.
  intros [Hb Hr Hsl He]. pose proof (roles_inv_remove_nominator s who Hr).
  destruct (remove_nominator_frame s who) as (E1 & E2 & E3 & E4 & _).
  split; [by rewrite E1, E2|done|by rewrite E3|by rewrite E4].
Qed.

Lemma inv_chill_stash (s : St) who : staking_inv s -> staking_inv (chill_stash who s).
Proof.
  intros Hs. unfold chill_stash. pose proof (inv_remove_validator s who Hs) as H1.
  destruct (do_remove_validator who s) as [b1 s1]. simpl in H1.
  pose proof (inv_remove_nominator s1 who H1) as H2. destruct (do_remove_nominator who s1) as [b2 s2].
  simpl in H2. destruct (b1 || b2); [by apply inv_deposit_event|done].
Qed.

(** ** Bonds *)

Lemma bonds_pair_inj (b : Bonds AccountId) (c : L) ctl l ctl' l' :
  bonds_inv b c -> ledger b !! ctl = Some l -> ledger b !! ctl' = Some l' -> stash l = stash l' -> ctl = ctl'.
Proof.
  intros Hb E E' Est. assert (bonded b !! stash l = Some ctl) as H1 by (apply (bonds_pair _ _ Hb); eauto).
  assert (bonded b !! stash l = Some ctl') as H2 by (apply (bonds_pair _ _ Hb); eauto). congruence.
Qed.

(** A new ledger for a controller: the stash keeps it, its lock follows the total. *)
Lemma bonds_inv_update (b : Bonds AccountId) (c : L) ctl l0 l :
  bonds_inv b c -> ledger b !! ctl = Some l0 -> stash l = stash l0 -> ledger_ok l ->
  bonds_inv (MkBonds (bonded b) (<[ctl := l]> (ledger b)) (payee b)) (sc_set_lock (stash l) (total l) c).
Proof.
  intros Hb E0 Est Hl. pose proof Hb as [Hp Hpay Hok Hk]. split; simpl.
  - intros st k. rewrite Hp. setoid_rewrite lookup_insert_Some.
    destruct (decide (ctl = k)) as [<-|Hne]; split; intros (l' & El & Es); naive_solver congruence.
  - done.
  - intros k l'. rewrite lookup_insert_Some. intros [[<- <-]|[_ E]]; [done|by eapply Hok].
  - intros k l'. rewrite lookup_insert_Some. intros [[<- <-]|[Hne E]] Hpos; [by apply lock_set_same|].
    rewrite lock_set_other; [by eapply Hk|]. intros Est'. apply Hne.
    eapply (bonds_pair_inj b c); try done. congruence.
Qed.

Lemma inv_update_ledger (s : St) ctl l0 l :
  ledger (bonds s) !! ctl = Some l0 -> stash l = stash l0 -> ledger_ok l ->
  staking_inv s -> staking_inv (update_ledger ctl l s).
Proof.
  intros E0 Est Hl [Hb Hr Hsl He]. split; try done; simpl.
  - by eapply bonds_inv_update.
  - destruct Hr. by split.
Qed.

(** A stash that is not bonded and a controller without a ledger. *)
Lemma bonds_inv_bond (b : Bonds AccountId) (c : L) ctl l dest :
  bonds_inv b c -> bonded b !! stash l = None -> ledger b !! ctl = None -> ledger_ok l ->
  bonds_inv (MkBonds (<[stash l := ctl]> (bonded b)) (<[ctl := l]> (ledger b)) (<[stash l := dest]> (payee b)))
    (sc_set_lock (stash l) (total l) c).
Proof.
  intros Hb Eb El Hl. pose proof Hb as [Hp Hpay Hok Hk]. split; simpl.
  - intros st k. rewrite lookup_insert_Some. setoid_rewrite lookup_insert_Some. rewrite Hp. split.
    + intros [[<- <-]|[Hne (l' & E' & Es)]]; [eexists; split; [by left|done]|].
      exists l'. split; [|done]. right. split; [|done]. intros ->. congruence.
    + intros (l' & [[<- <-]|[Hne E']] & Es); [by left|]. right.
      assert (bonded b !! st = Some k) by (apply Hp; eauto). split; [congruence|eauto].
  - intros st. rewrite !lookup_insert_is_Some. naive_solver.
  - intros k l'. rewrite lookup_insert_Some. intros [[<- <-]|[_ E]]; [done|by eapply Hok].
  - intros k l'. rewrite lookup_insert_Some. intros [[<- <-]|[Hne E]] Hpos; [by apply lock_set_same|].
    rewrite lock_set_other; [by eapply Hk|]. intros Est.
    assert (bonded b !! stash l' = Some k) by (apply Hp; eauto). congruence.
Qed.

(** Unbonding a stash for good, and removing its lock. *)
Lemma bonds_inv_kill (b : Bonds AccountId) (c c' : L) st ctl :
  bonds_inv b c -> bonded b !! st = Some ctl -> (forall who, who <> st -> sc_lock_of who c' = sc_lock_of who c) ->
  bonds_inv (MkBonds (delete st (bonded b)) (delete ctl (ledger b)) (delete st (payee b))) c'.
Proof.
  intros Hb Eb Hc. pose proof Hb as [Hp Hpay Hok Hk].
  assert (forall k l, ledger b !! k = Some l -> ctl <> k -> stash l <> st) as Hother.
  { intros k l E Hne <-. apply Hne. assert (bonded b !! stash l = Some k) by (apply Hp; eauto). congruence. }
  pose proof (proj1 (Hp st ctl) Eb) as (l0 & E0 & Es0). split; simpl.
  - intros w k. rewrite lookup_delete_Some. setoid_rewrite lookup_delete_Some. rewrite Hp. split.
    + intros [Hne (l & E & Es)]. exists l. split_and!; try done. intros ->. congruence.
    + intros (l & [Hne E] & Es). split; [|eauto]. intros ->. by eapply Hother.
  - intros w. rewrite !lookup_delete_is_Some. naive_solver.
  - intros k l. rewrite lookup_delete_Some. intros [_ E]. by eapply Hok.
  - intros k l. rewrite lookup_delete_Some. intros [Hne E] Hpos. rewrite Hc; [by eapply Hk|].
    by eapply Hother.
Qed.

(** Moving a ledger to another controller. *)
Lemma bonds_inv_move (b : Bonds AccountId) (c : L) st old ctl l :
  bonds_inv b c -> bonded b !! st = Some old -> ledger b !! old = Some l -> ledger b !! ctl = None ->
  bonds_inv (MkBonds (<[st := ctl]> (bonded b)) (<[ctl := l]> (delete old (ledger b))) (payee b)) c.
Proof.
  intros Hb Eb El En. pose proof Hb as [Hp Hpay Hok Hk].
  pose proof (proj1 (Hp st old) Eb) as (l0 & E0 & Es). rewrite El in E0. injection E0 as <-.
  split; simpl.
  - intros w k. rewrite lookup_insert_Some. setoid_rewrite lookup_insert_Some.
    setoid_rewrite lookup_delete_Some. rewrite Hp. split.
    + intros [[<- <-]|[Hne (l' & E' & Es')]]; [eexists; split; [by left|done]|].
      exists l'. split; [|done]. right. split_and!; try done; intros ->; congruence.
    + intros (l' & [[<- <-]|(Hne & Hold & E')] & Es'); [left; split; congruence|]. right. split; [|eauto].
      intros ->. apply Hold. eapply (bonds_pair_inj b c); try done. congruence.
  - intros w. rewrite lookup_insert_is_Some, Hpay. split.
    + intros Hw. destruct (decide (st = w)); [by left|by right].
    + intros [<-|[_ Hw]]; [by exists old|done].
  - intros k l'. rewrite lookup_insert_Some, lookup_delete_Some.
    intros [[<- <-]|(_ & _ & E)]; by eapply Hok.
  - intros k l'. rewrite lookup_insert_Some, lookup_delete_Some.
    intros [[<- <-]|(_ & _ & E)]; by eapply Hk.
Qed.

(** What a controller's ledger says of the stash. *)
Lemma controller_bonded (s : St) ctl l :
  staking_inv s -> ledger (bonds s) !! ctl = Some l -> bonded (bonds s) !! stash l = Some ctl.
Proof. intros Hs E. apply (bonds_pair _ _ (inv_bonds _ Hs)). eauto. Qed.

Lemma bonded_ledger (s : St) st ctl :
  staking_inv s -> bonded (bonds s) !! st = Some ctl ->
  exists l, ledger (bonds s) !! ctl = Some l /\ stash l = st.
Proof. intros Hs E. by apply (bonds_pair _ _ (inv_bonds _ Hs)). Qed.

Lemma inv_ledger_ok (s : St) ctl l : staking_inv s -> ledger (bonds s) !! ctl = Some l -> ledger_ok l.
Proof. intros Hs. apply (bonds_ledger _ _ (inv_bonds _ Hs)). Qed.

End Writes.

#[export] Hint Resolve inv_deposit_event inv_set_force_era inv_set_validator_count_value inv_ensure_new_era
  inv_set_spans inv_delete_spans inv_set_span_slash inv_set_validator_slash inv_set_nominator_slash
  inv_set_invulnerables inv_insert_unapplied inv_delete_unapplied inv_remove_validator inv_remove_nominator
  inv_chill_stash inv_update_ledger controller_bonded inv_ledger_ok : staking.
