(* ===== verification/SlashingSafety.v ===== *)
(** * Slashing keeps the invariant

    Computing, deferring and applying slashes keep [staking_inv]; while a stash is
    inspected its spans stay well-formed ([inspect_ok]). *)

From S2P Require Import Prelude Externals StakingLedger SlashingSpans Staking Slashing StakingInvariant.

Section SlashingSafety.
Context {L AccountId Perbill Percent : Type} `{Countable AccountId}.
Context `{!StakingCurrency L AccountId} `{!Session L AccountId} `{!FrameSystem L AccountId}.
Context `{!Perthing Perbill} `{!Perthing Percent} `{!StakingCurrencyLaws L AccountId}.

Abbreviation St := (State L AccountId Perbill Percent).
Abbreviation Inspecting := (InspectingSpans AccountId Perbill).

Record inspect_ok (i : Inspecting) : Prop := {
  inspect_spans : spans_ok (spans i);
  inspect_window : in_uint 32 (is_window_start i);
  inspect_slash : in_uint 128 (slash_of i)
}.

Lemma fetch_spans_inv who w paid slash rp (s : St) :
  staking_inv s -> in_uint 32 w -> in_uint 128 slash ->
  inspect_ok (fetch_spans who w paid slash rp s).1 /\ staking_inv (fetch_spans who w paid slash rp s).2.
Proof.
  intros Hs Hw Hsl. unfold fetch_spans. destruct (slashing_spans (slashes s) !! who) as [sp|] eqn:E; simpl.
  - split; [|done]. split; try done. by apply (slashes_spans _ (inv_slashes _ Hs) who).
  - pose proof (SlashingSpans_new_ok w Hw). split; [by split|by apply inv_set_spans].
Qed.

Lemma inspect_end_span_ok now (i : Inspecting) :
  inspect_ok i -> 0 <= now < umax 32 -> inspect_ok (inspect_end_span now i).
Proof.
  intros [Hsp Hw Hsl] Hnow. unfold inspect_end_span. pose proof (end_span_ok (spans i) now Hsp Hnow) as Hok.
  destruct (end_span now (spans i)) as [ended sp]. by split.
Qed.

Lemma add_slash_ok amount era (i : Inspecting) : inspect_ok i -> inspect_ok (add_slash amount era i).
Proof.
  intros [[Hi Hst His Hp Ht Hc] Hw Hsl]. split; simpl; [by split|done|apply wrap_range; lia].
Qed.

Lemma compare_and_update_inv era slash (i : Inspecting) (s : St) :
  inspect_ok i -> staking_inv s ->
  let '(_, i', s') := compare_and_update_span_slash era slash i s in inspect_ok i' /\ staking_inv s'.
Proof.
  intros Hi Hs. unfold compare_and_update_span_slash. destruct (era_span era i) as [sp|]; [|done]. cbv zeta.
  pose proof (add_slash_ok (slash - slashed (span_record s (is_stash i, index sp))) era i Hi) as Ha.
  repeat case_match; simplify_eq; (split; [|auto with staking]);
    first [done | destruct Ha; by split | destruct Hi; by split].
Qed.

Lemma drop_spans_inv (i : Inspecting) (s : St) : inspect_ok i -> staking_inv s -> staking_inv (drop_spans i s).
Proof.
  intros [Hsp Hw _] Hs. unfold drop_spans. destruct (negb (dirty i)); [done|].
  pose proof (prune_ok (spans i) (is_window_start i) Hsp Hw) as Hok.
  destruct (prune _ _) as [pruned sp]. apply inv_set_spans; [done|]. destruct pruned as [[a b]|]; [|done].
  apply fold_left_inv; auto with staking.
Qed.

Lemma end_current_span_inv now (i : Inspecting) (s : St) :
  inspect_ok i -> staking_inv s -> 0 <= now < umax 32 ->
  inspect_ok (end_current_span now i s).1 /\ staking_inv (end_current_span now i s).2.
Proof.
  intros Hi Hs Hnow. unfold end_current_span.
  pose proof (inspect_end_span_ok now i Hi Hnow) as Hi'.
  destruct (si_disable_validator _ _) as [d c] eqn:E. simpl. split; [done|].
  assert (staking_inv (over_chain (fun _ => c) (chill_stash (is_stash (inspect_end_span now i)) s))).
  { apply inv_over_chain; [|auto with staking]. intros who.
    pose proof (lock_disable (is_stash (inspect_end_span now i))
                  (chain (chill_stash (is_stash (inspect_end_span now i)) s)) who) as Hk.
    by rewrite E in Hk. }
  destruct (default false d); auto with staking.
Qed.

(** The parameters an offence gives. *)
Definition params_ok (p : SlashParams AccountId Perbill) : Prop :=
  in_uint 32 (sp_window_start p) /\ 0 <= sp_now p < umax 32.

Lemma uint_zero w : 0 <= w -> in_uint w 0.
Proof. intros Hw. pose proof (umax_nonneg w Hw). unfold in_uint. lia. Qed.

Lemma kick_out_if_recent_inv p (s : St) : params_ok p -> staking_inv s -> staking_inv (kick_out_if_recent p s).
Proof.
  intros [Hw Hnow] Hs. unfold kick_out_if_recent.
  pose proof (fetch_spans_inv (sp_stash p) (sp_window_start p) 0 0 (sp_reward_proportion p) s Hs Hw
                (uint_zero 128 ltac:(lia))) as [Hi Hs1].
  destruct (fetch_spans _ _ _ _ _ s) as [i s1]. simpl in *. case_bool_decide; [|by apply drop_spans_inv].
  pose proof (end_current_span_inv (sp_now p) i s1 Hi Hs1 Hnow) as [Hi' Hs'].
  destruct (end_current_span _ _ _) as [i' s']. by apply drop_spans_inv.
Qed.

Lemma slash_nominator_inv p prior_p reward n (s : St) :
  params_ok p -> staking_inv s ->
  let '(_, slashed, s') := slash_nominator p prior_p reward n s in in_uint 128 slashed /\ staking_inv s'.
Proof.
  intros [Hw Hnow] Hs. unfold slash_nominator. cbv zeta.
  match goal with |- context [set_nominator_slash ?f s] =>
    pose proof (inv_set_nominator_slash f s Hs) as Hs0; generalize dependent (set_nominator_slash f s) end.
  intros s0 Hs0.
  pose proof (fetch_spans_inv n.1 (sp_window_start p) reward 0 (sp_reward_proportion p) s0 Hs0 Hw
                (uint_zero 128 ltac:(lia))) as [Hi Hs1].
  destruct (fetch_spans _ _ _ _ _ s0) as [i s1]. simpl in *.
  match goal with |- context [compare_and_update_span_slash ?e ?x i s1] =>
    pose proof (compare_and_update_inv e x i s1 Hi Hs1) as Hc;
    destruct (compare_and_update_span_slash e x i s1) as [[target i'] s'] end.
  destruct Hc as [Hi' Hs']. case_bool_decide.
  - pose proof (inspect_end_span_ok (sp_now p) i' Hi' Hnow) as Hi2.
    split; [apply (inspect_slash _ Hi2)|by apply drop_spans_inv].
  - split; [apply (inspect_slash _ Hi')|by apply drop_spans_inv].
Qed.

Lemma slash_nominators_inv p prior_p ns : forall reward (s : St),
  params_ok p -> staking_inv s ->
  let '(_, others, s') := slash_nominators p prior_p reward ns s in
  Forall (fun o => in_uint 128 o.2) others /\ staking_inv s'.
Proof.
  induction ns as [|n ns IH]; intros reward s Hp Hs; simpl; [by split; [constructor|]|].
  pose proof (slash_nominator_inv p prior_p reward n s Hp Hs) as H1.
  destruct (slash_nominator p prior_p reward n s) as [[reward1 slashed] s1]. destruct H1 as [Hsl Hs1].
  specialize (IH reward1 s1 Hp Hs1). destruct (slash_nominators p prior_p reward1 ns s1) as [[r o] s2].
  destruct IH. split; [by constructor|done].
Qed.

Lemma compute_slash_inv p (s : St) :
  params_ok p -> staking_inv s ->
  let '(u, s') := compute_slash p s in from_option unapplied_ok True u /\ staking_inv s'.
Proof.
  intros Hp Hs. pose proof Hp as [Hw Hnow]. unfold compute_slash. cbv zeta.
  destruct (_ =? 0); [split; [done|by apply kick_out_if_recent_inv]|].
  destruct (_ <? _); [|done].
  match goal with |- context [set_validator_slash ?f s] =>
    pose proof (inv_set_validator_slash f s Hs) as Hs0; generalize dependent (set_validator_slash f s) end.
  intros s0 Hs0.
  pose proof (fetch_spans_inv (sp_stash p) (sp_window_start p) 0 0 (sp_reward_proportion p) s0 Hs0 Hw
                (uint_zero 128 ltac:(lia))) as [Hi Hs1].
  destruct (fetch_spans _ _ _ _ _ s0) as [i s1]. simpl in *.
  match goal with |- context [compare_and_update_span_slash ?e ?x i s1] =>
    pose proof (compare_and_update_inv e x i s1 Hi Hs1) as Hc;
    destruct (compare_and_update_span_slash e x i s1) as [[target i'] s'] end.
  destruct Hc as [Hi' Hs'].
  match goal with |- context [if ?b then end_current_span ?n i' s' else (i', s')] =>
    assert (inspect_ok (if b then end_current_span n i' s' else (i', s')).1
            /\ staking_inv (if b then end_current_span n i' s' else (i', s')).2) as [Hi2 Hs2]
      by (destruct b; [by apply end_current_span_inv|done]);
    destruct (if b then end_current_span n i' s' else (i', s')) as [i2 s2] end.
  simpl in *. pose proof (drop_spans_inv i2 s2 Hi2 Hs2) as Hs3.
  match goal with |- context [slash_nominators p ?q 0 ?ns ?t] =>
    pose proof (slash_nominators_inv p q ns 0 t Hp Hs3) as Hn;
    destruct (slash_nominators p q 0 ns t) as [[r o] s4] end.
  destruct Hn as [Ho Hs4]. split; [|done]. split; [apply (inspect_slash _ Hi2)|done].
Qed.

(** ** Applying *)

Lemma do_slash_inv who value acc (s : St) :
  in_uint 128 value -> staking_inv s -> staking_inv (do_slash who value acc s).2.
Proof.
  intros Hv Hs. unfold do_slash. destruct acc as [reward imbalance].
  destruct (bonded (bonds s) !! who) as [ctl|] eqn:Eb; [|done].
  destruct (ledger (bonds s) !! ctl) as [l|] eqn:El; [|done].
  pose proof (slash_ledger_ok l value sc_minimum_balance (inv_ledger_ok _ _ _ Hs El)
                (proj1 sc_minimum_range) Hv) as Hl.
  destruct (slash_ledger value sc_minimum_balance l) as [taken l']. destruct Hl as (Hok & Est & _ & _).
  destruct (taken =? 0); [done|]. destruct (sc_slash who taken (chain s)) as [[im missing] c] eqn:Ec. simpl.
  apply inv_deposit_event. apply (inv_update_ledger _ ctl l); try done.
  apply inv_over_chain; [|done]. intros w. pose proof (lock_slash who taken (chain s) w) as Hk. by rewrite Ec in Hk.
Qed.

Lemma pay_reporters_inv reward imbalance reporters (s : St) :
  staking_inv s -> staking_inv (pay_reporters reward imbalance reporters s).
Proof.
  intros Hs. unfold pay_reporters. destruct (reporter_payments _ _ _) as [payments rest].
  apply inv_over_chain; [intros w; apply lock_on_slash|]. apply fold_left_inv; [|done].
  intros t p Ht. apply inv_over_chain; [intros w; apply lock_resolve|done].
Qed.

Lemma do_slash_all_inv others : forall acc (s : St),
  Forall (fun o : AccountId * Z => in_uint 128 o.2) others -> staking_inv s ->
  staking_inv (fold_left (fun '(acc, s) nominator => do_slash nominator.1 nominator.2 acc s) others (acc, s)).2.
Proof.
  induction others as [|o others IH]; intros acc s Ho Hs; simpl; [done|].
  apply Forall_cons in Ho as [Ho Hos]. pose proof (do_slash_inv o.1 o.2 acc s Ho Hs) as H1.
  destruct (do_slash o.1 o.2 acc s) as [acc' s']. by apply IH.
Qed.

Lemma apply_slash_inv u (s : St) : unapplied_ok u -> staking_inv s -> staking_inv (apply_slash u s).
Proof.
  intros [Hown Ho] Hs. unfold apply_slash.
  pose proof (do_slash_inv (us_validator u) (us_own u) (us_payout u, 0) s Hown Hs) as H1.
  destruct (do_slash _ _ _ s) as [acc s1]. simpl in H1.
  pose proof (do_slash_all_inv (us_others u) acc s1 Ho H1) as H2.
  destruct (fold_left _ _ _) as [[reward imbalance] s2]. by apply pay_reporters_inv.
Qed.

Lemma clear_era_metadata_inv era (s : St) : staking_inv s -> staking_inv (clear_era_metadata era s).
Proof. intros Hs. unfold clear_era_metadata. auto with staking. Qed.

Lemma clear_stash_metadata_inv who n (s s' : St) :
  clear_stash_metadata who n s = Ok s' -> staking_inv s ->
  staking_inv s' /\ bonds s' = bonds s /\ chain s' = chain s /\ roles s' = roles s.
Proof.
  unfold clear_stash_metadata. destruct (slashing_spans _ !! who) as [sp|]; [|by intros [= ->]].
  destruct (_ <=? n); [|done]. intros [= <-] Hs.
  apply (fold_left_inv (fun t => staking_inv t /\ bonds t = bonds s /\ chain t = chain s /\ roles t = roles s)).
  - intros t x (Ht & ?). split; [auto with staking|done].
  - split; [auto with staking|done].
Qed.

End SlashingSafety.
