(* ===== verification/StakingSafety.v ===== *)
(** * The calls and hooks of the staking pallet keep the invariant

    Every call ([dispatch]) either fails and leaves the storage as it was or keeps
    [staking_inv]; so do the hooks of the session and offence machinery. *)

From S2P Require Import Prelude Externals StakingLedger SlashingSpans Staking Slashing StakingCalls StakingEras StakingInvariant SlashingSafety.

(** ** The calls of the pallet *)

Inductive Call (AccountId Source Perbill Percent : Type) : Type :=
| CBond (controller : Source) (value : Z) (payee : RewardDestination AccountId)
| CBondExtra (max_additional : Z)
| CUnbond (value : Z)
| CWithdrawUnbonded (num_slashing_spans : Z)
| CRebond (value : Z)
| CValidate (prefs : ValidatorPrefs Perbill)
| CNominate (targets : list Source)
| CChill
| CSetPayee (payee : RewardDestination AccountId)
| CSetController (controller : Source)
| CKick (who : list Source)
| CChillOther (controller : AccountId)
| CSetValidatorCount (new : Z)
| CIncreaseValidatorCount (additional : Z)
| CScaleValidatorCount (factor : Percent)
| CForceNoEras
| CForceNewEra
| CForceNewEraAlways
| CSetInvulnerables (invulnerables : list AccountId)
| CForceUnstake (stash : AccountId) (num_slashing_spans : Z)
| CReapStash (stash : AccountId) (num_slashing_spans : Z)
| CCancelDeferredSlash (era : Z) (slash_indices : list Z)
| CSetStakingLimits (min_nominator_bond min_validator_bond : Z) (max_nominators max_validators : option Z)
    (threshold : option Percent)
| CSetHistoryDepth (new_history_depth : Z).

Arguments CBond {AccountId Source Perbill Percent}.
Arguments CBondExtra {AccountId Source Perbill Percent}.
Arguments CUnbond {AccountId Source Perbill Percent}.
Arguments CWithdrawUnbonded {AccountId Source Perbill Percent}.
Arguments CRebond {AccountId Source Perbill Percent}.
Arguments CValidate {AccountId Source Perbill Percent}.
Arguments CNominate {AccountId Source Perbill Percent}.
Arguments CChill {AccountId Source Perbill Percent}.
Arguments CSetPayee {AccountId Source Perbill Percent}.
Arguments CSetController {AccountId Source Perbill Percent}.
Arguments CKick {AccountId Source Perbill Percent}.
Arguments CChillOther {AccountId Source Perbill Percent}.
Arguments CSetValidatorCount {AccountId Source Perbill Percent}.
Arguments CIncreaseValidatorCount {AccountId Source Perbill Percent}.
Arguments CScaleValidatorCount {AccountId Source Perbill Percent}.
Arguments CForceNoEras {AccountId Source Perbill Percent}.
Arguments CForceNewEra {AccountId Source Perbill Percent}.
Arguments CForceNewEraAlways {AccountId Source Perbill Percent}.
Arguments CSetInvulnerables {AccountId Source Perbill Percent}.
Arguments CForceUnstake {AccountId Source Perbill Percent}.
Arguments CReapStash {AccountId Source Perbill Percent}.
Arguments CCancelDeferredSlash {AccountId Source Perbill Percent}.
Arguments CSetStakingLimits {AccountId Source Perbill Percent}.
Arguments CSetHistoryDepth {AccountId Source Perbill Percent}.

(** A call of the controller begins with its ledger. *)
Lemma controller_ledger_ok {L X AccountId Perbill Percent : Type} `{Countable AccountId} ctl
    (s : State L AccountId Perbill Percent) l s' :
  (controller_ledger ctl : M (State L AccountId Perbill Percent) (StakingError + X) _) s = (Ok l, s') ->
  s' = s /\ ledger (bonds s) !! ctl = Some l.
Proof. unfold controller_ledger. intros Hrun. run_inv Hrun. done. Qed.

Ltac ledger_inv lg El :=
  match goal with
  | H : controller_ledger ?ctl ?s = (Ok ?l, ?s') |- _ =>
      rename l into lg, H into El; apply controller_ledger_ok in El as [-> El]
  end.

Section Safety.
Context {L X AccountId Source Origin Perbill Percent : Type} `{Countable AccountId}.
Context `{!StakingCurrency L AccountId} `{!Session L AccountId} `{!FrameSystem L AccountId}.
Context `{!Perthing Perbill} `{!Perthing Percent} `{!StakingCurrencyLaws L AccountId}.
Variable cfg : Config L X AccountId Source Origin.

Abbreviation St := (State L AccountId Perbill Percent).
Abbreviation Run := (M (State L AccountId Perbill Percent) (StakingError + X)).

Definition dispatch (origin : Origin) (c : Call AccountId Source Perbill Percent) : Run unit :=
  match c with
  | CBond controller value payee => bond cfg origin controller value payee
  | CBondExtra v => bond_extra cfg origin v
  | CUnbond v => unbond cfg origin v
  | CWithdrawUnbonded n => withdraw_unbonded cfg origin n
  | CRebond v => rebond cfg origin v
  | CValidate p => validate cfg origin p
  | CNominate ts => nominate cfg origin ts
  | CChill => chill cfg origin
  | CSetPayee p => set_payee cfg origin p
  | CSetController c => set_controller cfg origin c
  | CKick who => kick cfg origin who
  | CChillOther c => chill_other cfg origin c
  | CSetValidatorCount n => set_validator_count cfg origin n
  | CIncreaseValidatorCount n => increase_validator_count cfg origin n
  | CScaleValidatorCount f => scale_validator_count cfg origin f
  | CForceNoEras => force_no_eras cfg origin
  | CForceNewEra => force_new_era cfg origin
  | CForceNewEraAlways => force_new_era_always cfg origin
  | CSetInvulnerables v => set_invulnerables cfg origin v
  | CForceUnstake stash n => force_unstake cfg origin stash n
  | CReapStash stash n => reap_stash origin stash n
  | CCancelDeferredSlash era indices => cancel_deferred_slash cfg origin era indices
  | CSetStakingLimits a b c d e => set_staking_limits cfg origin a b c d e
  | CSetHistoryDepth n => set_history_depth cfg origin n
  end.

(** Balances that can be written down in a call are [u128]. *)
Definition call_args_ok (c : Call AccountId Source Perbill Percent) : Prop :=
  match c with
  | CBond _ v _ | CBondExtra v | CUnbond v | CRebond v => in_uint 128 v
  | _ => True
  end.

(** ** Failing leaves no trace *)

Lemma kill_stash_clean (stash : AccountId) n : clean (kill_stash stash n : Run unit).
Proof. unfold kill_stash. clean_tac. Qed.

Hint Resolve kill_stash_clean : clean.

Lemma dispatch_clean origin c : clean (dispatch origin c).
Proof.
  destruct c; simpl;
    unfold bond, bond_extra, unbond, withdraw_unbonded, rebond, validate, nominate, chill, set_payee, set_controller,
      kick, kick_one, chill_other, set_validator_count, increase_validator_count, scale_validator_count, force_no_eras,
      force_new_era, force_new_era_always, set_invulnerables, force_unstake, reap_stash, cancel_deferred_slash,
      set_staking_limits, set_history_depth, controller_ledger, ensure_signed, ensure_root, lookup_account;
    clean_tac.
Qed.

(** ** A successful call keeps the invariant *)

Lemma unbond_amounts_spec value active :
  0 <= value <= active -> active <= umax 128 ->
  let '(value', active') := unbond_amounts value active in
  0 <= value' /\ 0 <= active' /\ value' + active' = active.
Proof.
  intros Hv Ha. unfold unbond_amounts. destruct (_ <? _); [|lia].
  rewrite wrap_exact by (unfold in_uint; lia). lia.
Qed.

(** The 32-bit counters have room for one more entry. *)
Definition room (s : St) : Prop :=
  Z.of_nat (size (validators (roles s))) < umax 32 /\ Z.of_nat (size (nominators (roles s))) < umax 32.

Definition keeps_inv (m : Run unit) : Prop :=
  forall s u s', m s = (Ok u, s') -> room s -> staking_inv s -> staking_inv s'.

Lemma ledger_ok_range (l : StakingLedger AccountId) :
  ledger_ok l -> 0 <= unlocking_sum (unlocking l) /\ 0 <= total l /\ 0 <= active l <= total l /\ total l <= umax 128.
Proof. intros [Et Hr Ha Hc]. pose proof (unlocking_sum_nonneg _ Hc). lia. Qed.

Lemma bond_keeps_inv origin controller value payee :
  in_uint 128 value -> keeps_inv (bond cfg origin controller value payee).
Proof.
  intros Hv s u s' Hrun _ Hs. unfold bond, ensure_signed, lookup_account in Hrun. cbv zeta in Hrun. run_inv Hrun.
  bool_inv. destruct Hs as [Hb Hr Hsl He]. pose proof (sc_free_range x x4) as Hfree. pose proof (proj1 sc_minimum_range) as Hmin.
  set (v := Z.min value (sc_free_balance x x4)). assert (in_uint 128 v) as Hv' by (unfold in_uint in *; lia).
  split; try done; simpl.
  - apply (bonds_inv_bond (bonds s) x4 _ (MkLedger x v v [] _) payee); simpl; try done.
    + destruct Hb as [Hp Hpay Hok Hk]. split; try done. intros ctl l E Hpos.
      rewrite (lock_inc_consumers x (chain s) x4) by done. by eapply Hk.
    + unfold in_uint in Hv'. split; simpl; unfold unlocking_sum; simpl; try lia.
      intros c Hc. by apply elem_of_nil in Hc.
  - destruct Hr as [H1 H2 H3 H4 H5]. split; try done; simpl; intros w Hw; rewrite lookup_insert_is_Some;
      (destruct (decide (x = w)); [by left|right]); eauto.
Qed.

Lemma bond_extra_keeps_inv origin v : in_uint 128 v -> keeps_inv (bond_extra cfg origin v).
Proof.
  intros Hv s u s' Hrun _ Hs. unfold bond_extra, ensure_signed in Hrun. run_step Hrun.
  ledger_inv lg El.
  destruct (checked_sub _ _) as [extra|] eqn:Ee; [|run_step Hrun; by subst]. cbv zeta in Hrun. run_inv Hrun.
  apply checked_sub_Some in Ee as [-> Hle]. apply inv_update_ledger with (l0 := lg); try done; [|auto with staking].
  pose proof (inv_ledger_ok _ _ _ Hs El) as Hl. pose proof (ledger_ok_range _ Hl) as (? & ? & ? & ?).
  pose proof (sc_free_range x (chain s)) as Hfree. unfold in_uint in *.
  set (e := Z.min _ v). assert (0 <= e /\ total lg + e <= umax 128) as [? ?] by (unfold e; lia).
  destruct Hl as [Et Hr Ha Hc].
  split; simpl; try done; rewrite ?wrap_exact by (unfold in_uint; lia); lia.
Qed.

Lemma unbond_keeps_inv origin v : in_uint 128 v -> keeps_inv (unbond cfg origin v).
Proof.
  intros Hv s u s' Hrun _ Hs. unfold unbond, ensure_signed in Hrun. run_step Hrun.
  ledger_inv lg El. cbv zeta in Hrun.
  destruct (Z.min v (active lg) =? 0); [run_step Hrun; by subst|].
  pose proof (inv_ledger_ok _ _ _ Hs El) as Hl. pose proof (ledger_ok_range _ Hl) as (? & ? & ? & ?).
  unfold in_uint in Hv.
  pose proof (unbond_amounts_spec (Z.min v (active lg)) (active lg) ltac:(lia) ltac:(lia)) as Hu.
  destruct (unbond_amounts _ _) as [v' a']. run_inv Hrun. apply inv_deposit_event.
  apply inv_update_ledger with (l0 := lg); try done. destruct Hu as (Hv0 & Ha0 & Esum). destruct Hl as [Et Hr Ha Hc].
  split; simpl; unfold unlocking_sum in *; rewrite ?zsum_app; simpl; try lia.
  intros c. rewrite elem_of_app, list_elem_of_singleton. intros [Hin| ->]; [by apply Hc|done].
Qed.

Lemma remove_validator_over_bonds f who (s : St) :
  (do_remove_validator who (over_bonds f s)).2 = over_bonds f (do_remove_validator who s).2.
Proof. unfold do_remove_validator, is_validator. simpl. by destruct (bool_decide _). Qed.

Lemma remove_nominator_over_bonds f who (s : St) :
  (do_remove_nominator who (over_bonds f s)).2 = over_bonds f (do_remove_nominator who s).2.
Proof. unfold do_remove_nominator, is_nominator. simpl. by destruct (bool_decide _). Qed.

(** Nothing of the stash is left. *)
Lemma roles_inv_unbond (r : Roles AccountId Perbill Percent) (b : Bonds AccountId) st ledgers payees :
  roles_inv r b -> validators r !! st = None -> nominators r !! st = None ->
  roles_inv r (MkBonds (delete st (bonded b)) ledgers payees).
Proof.
  intros [H1 H2 H3 H4 H5] Hv Hn. split; try done; simpl; intros w Hw; apply lookup_delete_is_Some; split; eauto;
    intros ->; [rewrite Hv in Hw|rewrite Hn in Hw]; by destruct Hw.
Qed.

(** [kill_stash] and what its callers do to the lock of the stash. *)
Lemma kill_stash_keeps_inv stash n f (s : St) (u : unit) s' :
  (kill_stash stash n : Run unit) s = (Ok u, s') -> staking_inv s ->
  (forall who c, who <> stash -> sc_lock_of who (f c) = sc_lock_of who c) ->
  staking_inv (over_chain f s').
Proof.
  intros Hrun Hs Hf. unfold kill_stash in Hrun. run_step Hrun.
  destruct (clear_stash_metadata stash n s) as [s0|e|] eqn:Ec; [|by run_step R|by run_step R]. run_step R. subst.
  destruct (clear_stash_metadata_inv _ _ _ _ Ec Hs) as (Hs0 & Eb & Echain & Eroles).
  unfold set_payee_map, set_ledger, set_bonded.
  rewrite !remove_validator_over_bonds, !remove_nominator_over_bonds.
  pose proof (inv_remove_validator s0 stash Hs0) as Hs1.
  pose proof (remove_validator_frame s0 stash) as (Eb1 & Ec1 & _ & _ & En1 & Ev1).
  set (s1 := (do_remove_validator stash s0).2) in *. clearbody s1.
  pose proof (inv_remove_nominator s1 stash Hs1) as Hs2.
  pose proof (remove_nominator_frame s1 stash) as (Eb2 & Ec2 & _ & _ & Ev2 & En2).
  set (s2 := (do_remove_nominator stash s1).2) in *. clearbody s2.
  destruct Hs2 as [Hb Hr Hsl He]. split; try done; simpl.
  - apply (bonds_inv_kill (bonds s2) (chain s2)); [done|by rewrite Eb2, Eb1, Eb|].
    intros who Hne. rewrite Hf by done. apply lock_dec_consumers.
  - apply roles_inv_unbond; [done|by rewrite Ev2|done].
Qed.

Lemma withdraw_unbonded_keeps_inv origin n : keeps_inv (withdraw_unbonded cfg origin n).
Proof.
  intros s u s' Hrun _ Hs. unfold withdraw_unbonded, ensure_signed in Hrun. cbv zeta in Hrun. run_step Hrun.
  ledger_inv lg El. subst.
  set (lg' := match current_era (eras s) with Some e => consolidate_unlocked e lg | None => lg end) in *.
  pose proof (inv_ledger_ok _ _ _ Hs El) as Hl.
  assert (ledger_ok lg' /\ stash lg' = stash lg) as [Hl' Est].
  { unfold lg'. destruct (current_era (eras s)) as [e|]; [|done]. by apply consolidate_unlocked_ok. }
  clearbody lg'.
  match goal with H : (if _ then _ else _) _ = (Ok _, ?t) |- _ => rename H into Hbr; assert (staking_inv t) as Ht end.
  { destruct (_ && _); run_step Hbr; subst.
    - eapply kill_stash_keeps_inv; try done. intros. by apply lock_removed_other.
    - by apply inv_update_ledger with (l0 := lg). }
  destruct (_ <? _); run_step Hrun; subst; auto with staking.
Qed.

Lemma rebond_keeps_inv origin v : in_uint 128 v -> keeps_inv (rebond cfg origin v).
Proof.
  intros Hv s u s' Hrun _ Hs. unfold rebond, ensure_signed in Hrun. cbv zeta in Hrun. run_step Hrun.
  ledger_inv lg El. subst. pose proof (inv_ledger_ok _ _ _ Hs El) as Hl.
  apply inv_update_ledger with (l0 := lg); auto with staking; [apply stash_rebond_ledger|by apply rebond_ledger_ok].
Qed.

Lemma validate_keeps_inv origin p : keeps_inv (validate cfg origin p).
Proof.
  intros s u s' Hrun [Hroom _] Hs. unfold validate, ensure_signed in Hrun. run_step Hrun. ledger_inv lg El. subst.
  pose proof (inv_remove_nominator s (stash lg) Hs) as Hs1.
  destruct (remove_nominator_frame s (stash lg)) as (Eb & _ & _ & _ & Ev & En).
  apply inv_over_roles; [|done]. apply roles_inv_add_validator; [apply (inv_roles _ Hs1)|done| |by rewrite Ev].
  rewrite Eb, (controller_bonded s _ lg Hs El). by eexists.
Qed.

Lemma nominate_keeps_inv origin ts : keeps_inv (nominate cfg origin ts).
Proof.
  intros s u s' Hrun [_ Hroom] Hs. unfold nominate, ensure_signed in Hrun. cbv zeta in Hrun. run_step Hrun.
  ledger_inv lg El. subst.
  pose proof (inv_remove_validator s (stash lg) Hs) as Hs1.
  destruct (remove_validator_frame s (stash lg)) as (Eb & _ & _ & _ & En & Ev).
  apply inv_over_roles; [|done]. apply roles_inv_add_nominator; [apply (inv_roles _ Hs1)|done| |by rewrite En].
  rewrite Eb, (controller_bonded s _ lg Hs El). by eexists.
Qed.

Lemma chill_keeps_inv origin : keeps_inv (chill cfg origin).
Proof.
  intros s u s' Hrun _ Hs. unfold chill, ensure_signed in Hrun. run_step Hrun. ledger_inv lg El. subst.
  auto with staking.
Qed.

Lemma chill_other_keeps_inv origin ctl : keeps_inv (chill_other cfg origin ctl).
Proof.
  intros s u s' Hrun _ Hs. unfold chill_other, ensure_signed in Hrun. run_step Hrun. ledger_inv lg El. subst.
  match goal with H : (if _ then _ else _) _ = (Ok _, ?t) |- _ => assert (t = s) as -> by (case_bool_decide; run_step H; by subst) end.
  auto with staking.
Qed.

Lemma set_payee_keeps_inv origin p : keeps_inv (set_payee cfg origin p).
Proof.
  intros s u s' Hrun _ Hs. unfold set_payee, ensure_signed in Hrun. run_step Hrun. ledger_inv lg El. subst.
  pose proof (controller_bonded s _ lg Hs El) as Eb. destruct Hs as [[Hp Hpay Hl Hk] [H1 H2 H3 H4 H5] ? ?].
  split; try done; split; try done. simpl. intros st. rewrite lookup_insert_is_Some, Hpay.
  split; [intros [<-|[_ ?]]; [by eexists|done]|]. destruct (decide (stash lg = st)); [by left|by right].
Qed.

Lemma set_controller_keeps_inv origin c : keeps_inv (set_controller cfg origin c).
Proof.
  intros s u s' Hrun _ Hs. unfold set_controller, ensure_signed, lookup_account in Hrun. run_step Hrun. subst.
  bool_inv. case_bool_decide as Hsame; [run_step Hrun; by subst|].
  run_step Hrun. subst. 
  destruct (bonded_ledger s _ _ Hs ltac:(done)) as (lg & El & Est). rewrite El in Hrun. run_step Hrun. subst.
  destruct Hs as [Hb [H1 H2 H3 H4 H5] ? ?]. split; try done; simpl.
  - by apply bonds_inv_move.
  - split; try done; simpl; intros w Hw; rewrite lookup_insert_is_Some;
      (destruct (decide (stash lg = w)); [by left|right]); eauto.
Qed.

Lemma kick_one_keeps_inv stash nom (s : St) (u : unit) s' :
  (kick_one stash nom : Run unit) s = (Ok u, s') -> staking_inv s -> staking_inv s'.
Proof.
  unfold kick_one. intros Hrun Hs. run_step Hrun. subst.
  destruct (nominators (roles s) !! nom) as [n|] eqn:En; [|run_step Hrun; by subst].
  destruct (position _ _); [|run_step Hrun; by subst]. run_step Hrun. subst. apply inv_deposit_event.
  apply inv_over_roles; [|done]. destruct (inv_roles _ Hs) as [H1 H2 H3 H4 H5].
  split; simpl; try done.
  - by rewrite map_size_insert_Some by (by eexists).
  - intros w Hw. apply lookup_insert_None. split; [by apply H3|]. intros <-. rewrite (H3 _ Hw) in En. done.
  - intros w. rewrite lookup_insert_is_Some. intros [<-|[_ Hw]]; [|by apply H5]. apply H5. by eexists.
Qed.

Lemma kick_keeps_inv origin who : keeps_inv (kick cfg origin who).
Proof.
  intros s u s' Hrun _ Hs. unfold kick, ensure_signed in Hrun. run_step Hrun. ledger_inv lg El. subst.
  match type of Hrun with for_each _ ?ws _ = _ => clear -Hrun Hs H; revert s Hs Hrun; induction ws as [|w ws IH] end;
    intros s Hs Hrun; simpl in Hrun; run_step Hrun; [by subst|].
  eapply IH; [|done]. by eapply kick_one_keeps_inv.
Qed.

(** The calls of the root. *)
Lemma force_unstake_keeps_inv origin st n : keeps_inv (force_unstake cfg origin st n).
Proof.
  intros s u s' Hrun _ Hs. unfold force_unstake, ensure_root in Hrun. run_step Hrun. subst.
  eapply kill_stash_keeps_inv; try done. intros. by apply lock_removed_other.
Qed.

Lemma reap_stash_keeps_inv origin st n : keeps_inv (reap_stash (origin : Origin) st n).
Proof.
  intros s u s' Hrun _ Hs. unfold reap_stash in Hrun. run_step Hrun. subst.
  eapply kill_stash_keeps_inv; try done. intros. by apply lock_removed_other.
Qed.

Lemma remove_indices_ok {A : Type} (P : A -> Prop) indices : forall removed l,
  Forall P l -> Forall P (remove_indices removed indices l).
Proof.
  induction indices as [|i indices IH]; intros removed l Hl; simpl; [done|]. apply IH. by apply Forall_delete.
Qed.

Lemma cancel_deferred_slash_keeps_inv origin era indices : keeps_inv (cancel_deferred_slash cfg origin era indices).
Proof.
  intros s u s' Hrun _ Hs. unfold cancel_deferred_slash in Hrun. run_step Hrun. subst.
  apply inv_insert_unapplied; [|done]. apply remove_indices_ok. by apply unapplied_of_ok.
Qed.

Lemma inv_clear_era_information era (s : St) : staking_inv s -> staking_inv (clear_era_information era s).
Proof. intros Hs. apply inv_over_eras; [apply (inv_eras _ Hs)|done]. Qed.

Lemma set_history_depth_keeps_inv origin n : keeps_inv (set_history_depth cfg origin n).
Proof.
  intros s u s' Hrun _ Hs. unfold set_history_depth, ensure_root in Hrun. run_step Hrun. subst.
  destruct (current_era (eras s)) as [e|]; [|run_step Hrun; by subst]. cbv zeta in Hrun. run_step Hrun. subst.
  match goal with |- context [fold_left ?f ?l s] => assert (staking_inv (fold_left f l s)) as Hs1 end.
  { apply fold_left_inv; [|done]. intros. by apply inv_clear_era_information. }
  apply inv_over_eras; [apply (inv_eras _ Hs1)|done].
Qed.

Lemma modify_keeps_inv (f : St -> St) : (forall s, staking_inv s -> staking_inv (f s)) -> keeps_inv (modify f).
Proof. intros Hf s u s' Hrun _ Hs. run_step Hrun. subst. by apply Hf. Qed.

Lemma root_keeps_inv origin m : keeps_inv m -> keeps_inv (do! ensure_root cfg origin in m).
Proof. intros Hm s u s' Hrun Hroom Hs. unfold ensure_root in Hrun. run_step Hrun. subst. by eapply Hm. Qed.

Lemma set_staking_limits_keeps_inv origin a b c d e : keeps_inv (set_staking_limits cfg origin a b c d e).
Proof.
  apply root_keeps_inv, modify_keeps_inv. intros s Hs. apply inv_over_roles; [|done].
  destruct (inv_roles _ Hs). by split.
Qed.

Lemma dispatch_keeps_inv origin c : call_args_ok c -> keeps_inv (dispatch origin c).
Proof.
  intros Hc. destruct c; simpl in *;
    eauto using bond_keeps_inv, bond_extra_keeps_inv, unbond_keeps_inv, withdraw_unbonded_keeps_inv, rebond_keeps_inv,
      validate_keeps_inv, nominate_keeps_inv, chill_keeps_inv, set_payee_keeps_inv, set_controller_keeps_inv,
      kick_keeps_inv, chill_other_keeps_inv, force_unstake_keeps_inv, reap_stash_keeps_inv,
      cancel_deferred_slash_keeps_inv, set_staking_limits_keeps_inv, set_history_depth_keeps_inv;
    apply root_keeps_inv, modify_keeps_inv; auto with staking.
Qed.

(** ** The hooks *)

(** The election of the runtime does not lock anything, and the durations are [u32]. *)
Record ConfigLaws : Prop := {
  elect_locks genesis c : same_locks c (elect cfg genesis c).2;
  bonding_duration_range : 0 <= bonding_duration cfg
}.

Hypothesis Hcfg : ConfigLaws.

Lemma inv_set_active_era i t (s : St) :
  in_uint 32 i -> staking_inv s -> staking_inv (set_active_era (Some (MkActiveEra i t)) s).
Proof. intros Hi Hs. apply inv_over_eras; [|done]. by intros info [= <-]. Qed.

Lemma on_finalize_inv (s : St) : staking_inv s -> staking_inv (on_finalize cfg s).
Proof.
  intros Hs. unfold on_finalize. destruct (active_era (eras s)) as [[i [t|]]|] eqn:E; try done.
  apply inv_set_active_era; [|done]. by apply (inv_eras _ Hs (MkActiveEra i None)).
Qed.

Lemma inv_set_current_era e n (s : St) : staking_inv s -> staking_inv (set_current_era e n s).
Proof. intros Hs. apply inv_over_eras; [apply (inv_eras _ Hs)|done]. Qed.

Lemma inv_set_stakers f g (s : St) : staking_inv s -> staking_inv (set_stakers f g s).
Proof. intros Hs. apply inv_over_eras; [apply (inv_eras _ Hs)|done]. Qed.

Lemma inv_set_prefs f g (s : St) : staking_inv s -> staking_inv (set_prefs f g s).
Proof. intros Hs. apply inv_over_eras; [apply (inv_eras _ Hs)|done]. Qed.

Lemma store_stakers_info_inv exposures era (s : St) :
  staking_inv s -> staking_inv (store_stakers_info cfg exposures era s).2.
Proof.
  intros Hs. unfold store_stakers_info.
  match goal with |- context [fold_left ?f exposures (0, s)] =>
    assert (staking_inv (fold_left f exposures (0, s)).2) as H1;
    [|destruct (fold_left f exposures (0, s)) as [total s1]] end.
  { apply (fold_left_inv (fun p => staking_inv p.2)); [|done].
    intros [total t] [st e] Ht. by apply inv_set_stakers. }
  simpl in *. apply fold_left_inv; [intros; by apply inv_set_prefs|by apply inv_set_prefs].
Qed.

Lemma trigger_new_era_inv session exposures (s : St) :
  staking_inv s -> staking_inv (trigger_new_era cfg session exposures s).2.
Proof.
  intros Hs. unfold trigger_new_era. cbv zeta. apply store_stakers_info_inv.
  destruct (checked_sub _ _); [apply inv_clear_era_information|]; by apply inv_set_current_era.
Qed.

Lemma try_trigger_new_era_inv session genesis (s : St) :
  staking_inv s -> staking_inv (try_trigger_new_era cfg session genesis s).2.
Proof.
  intros Hs. unfold try_trigger_new_era. pose proof (elect_locks Hcfg genesis (chain s)) as Hk.
  destruct (elect cfg genesis (chain s)) as [result c]. simpl in Hk.
  assert (staking_inv (over_chain (fun _ => c) s)) as Hs1 by by apply inv_over_chain.
  destruct result as [supports|]; [|by apply inv_deposit_event]. cbv zeta.
  destruct (_ <? _).
  - apply inv_deposit_event. destruct (current_era _); [done|by apply inv_set_current_era].
  - match goal with |- context [trigger_new_era cfg session ?e ?t] =>
      pose proof (trigger_new_era_inv session e t (inv_deposit_event _ _ Hs1)) as H1;
      destruct (trigger_new_era cfg session e t) end. done.
Qed.

Lemma new_session_inv i genesis (s : St) : staking_inv s -> staking_inv (new_session cfg i genesis s).2.
Proof.
  intros Hs. unfold new_session. destruct (current_era (eras s)); [|by apply try_trigger_new_era_inv].
  match goal with |- context [if ?b then _ else _] => destruct b; [|done] end.
  pose proof (try_trigger_new_era_inv i genesis s Hs) as H1.
  destruct (try_trigger_new_era cfg i genesis s) as [[v|] t]; [|done]. simpl in *.
  destruct (force_era (eras t)); auto with staking.
Qed.

Lemma apply_slashes_inv us : forall s : St,
  Forall unapplied_ok us -> staking_inv s -> staking_inv (fold_left (fun s u => apply_slash u s) us s).
Proof.
  induction us as [|u us IH]; intros s Hu Hs; simpl; [done|]. apply Forall_cons in Hu as [Hu Hus].
  apply IH; [done|]. by apply apply_slash_inv.
Qed.

Lemma apply_unapplied_slashes_inv active (s : St) :
  staking_inv s -> staking_inv (apply_unapplied_slashes cfg active s).
Proof.
  intros Hs. unfold apply_unapplied_slashes. destruct (earliest_unapplied_slash _); [|done]. cbv zeta.
  match goal with |- context [fold_left ?f ?l s] => assert (staking_inv (fold_left f l s)) as H1 end.
  { apply fold_left_inv; [|done]. intros t era Ht.
    apply apply_slashes_inv; [by apply unapplied_of_ok|by apply inv_delete_unapplied]. }
  apply inv_set_unapplied; [|done]. apply (slashes_unapplied _ (inv_slashes _ H1)).
Qed.

Lemma start_era_inv session (s : St) : staking_inv s -> staking_inv (start_era cfg session s).
Proof.
  intros Hs. unfold start_era. cbv zeta. set (era := match active_era (eras s) with Some _ => _ | None => 0 end).
  assert (in_uint 32 era) as Hera.
  { unfold era. destruct (active_era (eras s)); [apply wrap_range; lia|apply uint_zero; lia]. }
  clearbody era. destruct (prune_bonded_eras _ _ _ _) as [kept pruned]. apply apply_unapplied_slashes_inv.
  match goal with |- context [fold_left ?f pruned ?t] => assert (staking_inv (fold_left f pruned t)) as H1;
    [|generalize dependent (fold_left f pruned t)] end.
  { apply fold_left_inv; [intros; by apply clear_era_metadata_inv|by apply inv_set_active_era]. }
  intros t Ht. assert (forall t' : St, staking_inv t' -> staking_inv (set_bonded_eras kept t')) as Hkept.
  { intros t' Ht'. apply inv_over_eras; [apply (inv_eras _ Ht')|done]. }
  apply Hkept. destruct (_ <? _); [|done]. destruct (head kept) as [[e first]|]; [|done].
  apply inv_over_chain; [|done]. intros w. apply lock_prune.
Qed.

Lemma start_session_inv session (s : St) : staking_inv s -> staking_inv (start_session cfg session s).
Proof.
  intros Hs. unfold start_session. cbv zeta. destruct (_ !! _); [|done].
  repeat case_match; auto using start_era_inv.
Qed.

Lemma reward_by_ids_inv points (s : St) : staking_inv s -> staking_inv (reward_by_ids points s).
Proof.
  intros Hs. unfold reward_by_ids. destruct (active_era (eras s)) as [info|] eqn:E; [|done]. cbv zeta.
  apply inv_over_eras; [apply (inv_eras _ Hs)|done].
Qed.

Lemma on_one_offence_inv active era w rp o (s : St) :
  in_uint 32 w -> 0 <= active < umax 32 -> staking_inv s -> staking_inv (on_one_offence cfg active era w rp s o).
Proof.
  intros Hw Ha Hs. unfold on_one_offence. destruct o as [details fraction].
  destruct (offender details) as [st exposure]. case_bool_decide; [done|].
  match goal with |- context [compute_slash ?p s] =>
    pose proof (compute_slash_inv p s (conj Hw Ha) Hs) as Hc; destruct (compute_slash p s) as [[u|] t] end;
    [|apply Hc].
  destruct Hc as [Hu Ht]. cbv zeta. destruct (_ =? 0); [by apply apply_slash_inv|].
  apply inv_insert_unapplied; [|done]. apply Forall_app. split; [by apply unapplied_of_ok|by constructor].
Qed.

(** The last era a 32-bit index can count is not reached. *)
Definition era_room (s : St) : Prop :=
  match active_era (eras s) with Some info => era_index info < umax 32 | None => True end.

Lemma on_offence_inv offenders fractions session (s : St) :
  era_room s -> staking_inv s -> staking_inv (on_offence cfg offenders fractions session s).
Proof.
  intros Hroom Hs. unfold on_offence, era_room in *. destruct (active_era (eras s)) as [info|] eqn:E; [|done].
  pose proof (inv_eras _ Hs info E) as Hi. pose proof (bonding_duration_range Hcfg). cbv zeta.
  destruct (offence_era _ _ _) as [era|]; [|done].
  apply fold_left_inv.
  - intros t o Ht. apply on_one_offence_inv; [|unfold in_uint in *; lia|done].
    apply sat_sub_range; done.
  - apply inv_set_unapplied; [|done]. apply (slashes_unapplied _ (inv_slashes _ Hs)).
Qed.

(** ** Reachable storage *)

(** What happens to the storage: a call, whatever its outcome, or a hook. *)
Inductive step (s : St) : St -> Prop :=
| step_call origin c r s' : call_args_ok c -> dispatch origin c s = (r, s') -> step s s'
| step_finalize : step s (on_finalize cfg s)
| step_new_session i genesis : step s (new_session cfg i genesis s).2
| step_start_session i : step s (start_session cfg i s)
| step_reward points : step s (reward_by_ids points s)
| step_offence offenders fractions session : step s (on_offence cfg offenders fractions session s).

Inductive reachable (s0 : St) : St -> Prop :=
| reachable_start : reachable s0 s0
| reachable_step s s' : reachable s0 s -> room s -> era_room s -> step s s' -> reachable s0 s'.

Lemma step_inv (s s' : St) : room s -> era_room s -> step s s' -> staking_inv s -> staking_inv s'.
Proof.
  intros Hroom Hera Hstep Hs. destruct Hstep as [origin c r t Hc Hrun| | | | | ];
    [|by auto using on_finalize_inv, new_session_inv, start_session_inv, reward_by_ids_inv, on_offence_inv..].
  destruct r as [u|e|]; [by eapply dispatch_keeps_inv|..];
    by rewrite (dispatch_clean origin c _ _ _ Hrun ltac:(done)).
Qed.

Lemma reachable_inv (s0 s : St) : staking_inv s0 -> reachable s0 s -> staking_inv s.
Proof. intros H0. induction 1 as [|s s' _ IH Hroom Hera Hstep]; [done|]. by eapply step_inv. Qed.

End Safety.
