(* ===== verification/SlashingTheorems.v ===== *)
(** * What slashing amounts to

    The amounts: over a span a stash loses the maximum of what it was slashed for, not the
    sum; the same offence slashes once; the slashed funds are paid out completely. *)

From S2P Require Import Prelude Externals StakingLedger SlashingSpans Staking Slashing StakingCalls.

(** ** Paying the reporters *)

Lemma split_rewards_spec {A : Type} per (reporters : list A) : forall payout,
  0 <= per -> per * Z.of_nat (length reporters) <= payout ->
  split_rewards per payout reporters
  = (map (fun r => (r, per)) reporters, payout - per * Z.of_nat (length reporters)).
Proof.
  induction reporters as [|r reporters IH]; intros payout Hper Hfit; cbn [split_rewards map length] in *.
  - f_equal. lia.
  - unfold imbalance_split. rewrite Z.min_r by nia. rewrite IH by nia. f_equal. nia.
Qed.

(** The payments to the reporters and what goes to the slash handler add up to what was
    slashed. Every reporter gets the same amount, and together they get no more than
    the reward that was computed. *)
Theorem reporter_payments_conserve {A : Type} (reward slashed : Z) (reporters : list A) :
  in_uint 128 reward -> in_uint 128 slashed ->
  let '(payments, to_handler) := reporter_payments reward slashed reporters in
  zsum snd payments + to_handler = slashed
  /\ 0 <= zsum snd payments <= reward /\ 0 <= to_handler
  /\ (payments = [] \/ map fst payments = reporters)
  /\ forall p q, p ∈ payments -> q ∈ payments -> p.2 = q.2.
Proof.
  unfold in_uint. intros Hr Hs. unfold reporter_payments.
  destruct ((reward =? 0) || _) eqn:E.
  { simpl. split_and!; try lia; [by left|]. intros p q Hp. by apply elem_of_nil in Hp. }
  destruct reporters as [|r0 rs] eqn:Er; [by rewrite orb_true_r in E|]. rewrite <- Er in *. clear E.
  assert (0 < Z.of_nat (length reporters)) as Hlen by (rewrite Er; simpl; lia). cbv zeta.
  unfold imbalance_split. rewrite (Z.min_r slashed) by lia. set (payout := Z.min reward slashed).
  set (n := Z.of_nat (length reporters)) in *. pose proof (Z.div_mod payout n ltac:(lia)) as Hdiv.
  pose proof (Z.mod_pos_bound payout n Hlen). assert (0 <= payout / n) by (apply Z.div_pos; lia).
  rewrite split_rewards_spec by (unfold n in *; lia). fold n. rewrite sat_add_exact by lia.
  assert (zsum snd (map (fun r => (r, payout / n)) reporters) = payout / n * n) as ->.
  { unfold n. generalize (payout / Z.of_nat (length reporters)). intros v. clear.
    induction reporters as [|r l IH]; cbn [map zsum length snd]; [lia|]. rewrite IH. lia. }
  assert (0 <= payout / n * n <= payout) by nia. assert (payout <= reward /\ payout <= slashed) by (unfold payout; lia).
  split_and!; try lia; [right|].
  - rewrite map_map. apply map_id.
  - intros p q Hp Hq. apply list_elem_of_fmap in Hp as (? & -> & _), Hq as (? & -> & _). done.
Qed.

(** ** Cancelling deferred slashes *)

(** The elements at the positions that are not listed. *)
Fixpoint keep_except {A : Type} (pos : Z) (indices : list Z) (l : list A) : list A :=
  match l with
  | [] => []
  | x :: rest => if bool_decide (pos ∈ indices) then keep_except (pos + 1) indices rest
                 else x :: keep_except (pos + 1) indices rest
  end.

Lemma keep_except_skip {A : Type} indices i (l : list A) : forall pos,
  i < pos -> keep_except pos (i :: indices) l = keep_except pos indices l.
Proof.
  induction l as [|x l IH]; intros pos Hi; simpl; [done|]. rewrite !IH by lia.
  assert (bool_decide (pos ∈ i :: indices) = bool_decide (pos ∈ indices)) as ->; [|done].
  apply bool_decide_ext. rewrite elem_of_cons. intuition lia.
Qed.

Lemma keep_except_all {A : Type} indices (l : list A) : forall pos,
  (forall i, i ∈ indices -> i < pos) -> keep_except pos indices l = l.
Proof.
  induction l as [|x l IH]; intros pos Hi; simpl; [done|]. rewrite IH by (intros i Hin; specialize (Hi i Hin); lia).
  rewrite bool_decide_eq_false_2; [done|]. intros Hin. specialize (Hi _ Hin). lia.
Qed.

Lemma sorted_tail i rest :
  is_sorted_and_unique (i :: rest) = true ->
  is_sorted_and_unique rest = true /\ forall j, j ∈ rest -> i < j.
Proof.
  revert i. induction rest as [|k rest IH]; intros i Hs; [split; [done|]; intros j Hj; by apply elem_of_nil in Hj|].
  change ((i <? k) && is_sorted_and_unique (k :: rest) = true) in Hs. bool_inv. split; [done|].
  intros j Hj. apply elem_of_cons in Hj as [->|Hj]; [done|].
  destruct (IH k ltac:(done)) as [_ Hk]. specialize (Hk j Hj). lia.
Qed.

Lemma sorted_last indices li :
  is_sorted_and_unique indices = true -> last indices = Some li -> forall i, i ∈ indices -> i <= li.
Proof.
  induction indices as [|x rest IH]; intros Hs Hlast i Hi; [done|].
  pose proof (sorted_tail x rest Hs) as [Hs' Hlt]. destruct rest as [|y rest'].
  - injection Hlast as <-. apply list_elem_of_singleton in Hi as ->. lia.
  - rewrite last_cons_cons in Hlast. apply elem_of_cons in Hi as [->|Hi]; [|by apply IH].
    specialize (Hlt y ltac:(left)). specialize (IH Hs' Hlast y ltac:(left)). lia.
Qed.

Lemma remove_indices_from {A : Type} (l : list A) : forall pre indices removed,
  is_sorted_and_unique indices = true -> 0 <= removed ->
  (forall i, i ∈ indices -> Z.of_nat (length pre) + removed <= i < Z.of_nat (length pre) + removed + Z.of_nat (length l)) ->
  remove_indices removed indices (pre ++ l) = pre ++ keep_except (Z.of_nat (length pre) + removed) indices l.
Proof.
  induction l as [|x l IH]; intros pre indices removed Hs Hr Hin.
  - destruct indices as [|i rest]; [done|]. pose proof (Hin i ltac:(left)). simpl in *. lia.
  - destruct indices as [|i rest]; [simpl remove_indices; by rewrite keep_except_all by (intros i Hi; by apply elem_of_nil in Hi)|].
    pose proof (sorted_tail i rest Hs) as [Hs' Hlt]. pose proof (Hin i ltac:(left)) as Hi.
    cbn [keep_except]. case_bool_decide as Hpos.
    + assert (i = Z.of_nat (length pre) + removed) as ->.
      { apply elem_of_cons in Hpos as [->|Hpos]; [done|]. specialize (Hlt _ Hpos). lia. }
      cbn [remove_indices]. replace (Z.to_nat (_ + removed - removed)) with (length pre) by lia.
      change (list_delete (length pre) (pre ++ x :: l)) with (delete (length pre) (pre ++ x :: l)).
      rewrite delete_middle.
      rewrite IH; [|done|lia|]; last first.
      { intros j Hj. specialize (Hlt j Hj). pose proof (Hin j ltac:(by right)). simpl in *. lia. }
      rewrite keep_except_skip by lia. do 2 f_equal. lia.
    + assert (Z.of_nat (length pre) + removed <> i) as Hne by (intros <-; apply Hpos; left).
      replace (pre ++ x :: l) with ((pre ++ [x]) ++ l) by by rewrite <- app_assoc.
      rewrite IH; [|done|lia|]; last first.
      { intros j Hj. rewrite length_app. simpl. pose proof (Hin j Hj) as Hj'. simpl in Hj'.
        assert (j <> Z.of_nat (length pre) + removed) by (intros ->; done). lia. }
      rewrite length_app, <- app_assoc. simpl. do 3 f_equal. lia.
Qed.

Section CancelTheorem.
Context {L X AccountId Source Origin Perbill Percent : Type} `{Countable AccountId}.
Context `{!StakingCurrency L AccountId} `{!Session L AccountId} `{!FrameSystem L AccountId}.
Context `{!Perthing Perbill} `{!Perthing Percent}.
Variable cfg : Config L X AccountId Source Origin.

Abbreviation St := (State L AccountId Perbill Percent).
Abbreviation Run := (M (State L AccountId Perbill Percent) (StakingError + X)).

(** Cancelling deferred slashes removes exactly the slashes at the listed positions of
    the era, whatever the list, and touches no other era; a list that is not sorted, has
    a duplicate or leaves the queue is refused. *)
Theorem cancel_deferred_slash_removes (origin : Origin) (era : Z) (indices : list Z) (s : St) :
  is_slash_cancel_origin cfg origin = true -> indices <> [] -> (forall i, i ∈ indices -> 0 <= i) ->
  let '(r, s') := (cancel_deferred_slash cfg origin era indices : Run unit) s in
  if is_sorted_and_unique indices
     && forallb (fun i => i <? Z.of_nat (length (unapplied_of s era))) indices
  then r = Ok tt /\ unapplied_of s' era = keep_except 0 indices (unapplied_of s era)
       /\ (forall e, e <> era -> unapplied_of s' e = unapplied_of s e)
       /\ bonds s' = bonds s /\ roles s' = roles s /\ eras s' = eras s /\ chain s' = chain s
  else r = Err (err (if is_sorted_and_unique indices then InvalidSlashIndex else NotSortedAndUnique)) /\ s' = s.
Proof.
  intros Horigin Hne Hpos. unfold cancel_deferred_slash, bind, ensure. rewrite Horigin. cbn [ret fail].
  destruct indices as [|i0 rest] eqn:Ei; [done|]. rewrite <- Ei in *. clear Hne.
  destruct (is_sorted_and_unique indices) eqn:Hs; simpl; [|done].
  destruct (last indices) as [li|] eqn:Hlast; [|by apply last_None in Hlast; congruence]. simpl.
  assert (forallb (fun i => i <? Z.of_nat (length (unapplied_of s era))) indices
          = (li <? Z.of_nat (length (unapplied_of s era)))) as ->.
  { destruct (Z.ltb_spec li (Z.of_nat (length (unapplied_of s era)))) as [Hlt|Hge].
    - apply forallb_forall. intros i Hi. apply list_elem_of_In in Hi. apply Z.ltb_lt. pose proof (sorted_last _ _ Hs Hlast i Hi). lia.
    - apply not_true_iff_false. intros Hall. rewrite forallb_forall in Hall.
      specialize (Hall li (proj1 (list_elem_of_In _ _) (last_Some_elem_of _ _ Hlast))). bool_inv. lia. }
  destruct (Z.ltb_spec li (Z.of_nat (length (unapplied_of s era)))) as [Hlt|]; [|done].
  split_and!; try done.
  - unfold unapplied_of at 1. simpl. rewrite lookup_insert_eq. simpl.
    apply (remove_indices_from (unapplied_of s era) [] indices 0 Hs ltac:(lia)). simpl.
    intros i Hi. pose proof (sorted_last _ _ Hs Hlast i Hi). specialize (Hpos i Hi). lia.
  - intros e He. unfold unapplied_of. simpl. by rewrite lookup_insert_ne.
Qed.

End CancelTheorem.

(** ** Slashes within a span *)

Section SpanSlash.
Context {L AccountId Perbill Percent : Type} `{Countable AccountId}.
Context `{!StakingCurrency L AccountId} `{!Session L AccountId} `{!FrameSystem L AccountId}.
Context `{!Perthing Perbill} `{!Perthing Percent} `{!PerthingLaws Perbill}.

Abbreviation St := (State L AccountId Perbill Percent).
Abbreviation Inspecting := (InspectingSpans AccountId Perbill).

(** Offences recorded one after the other, each with its era and its slash. *)
Definition record_slashes (offences : list (Z * Z)) (i : Inspecting) (s : St) : Inspecting * St :=
  fold_left (fun '(i, s) o => let '(_, i, s) := compare_and_update_span_slash o.1 o.2 i s in (i, s)) offences (i, s).

Definition max_slash (offences : list (Z * Z)) (from : Z) : Z := fold_left (fun m o => Z.max m o.2) offences from.

(** What is recorded for a span is sound: the reward paid out is a part of the slash. *)
Definition record_ok (rp : Perbill) (r : SpanRecord) : Prop :=
  0 <= slashed r <= umax 128 /\ 0 <= paid_out r <= pt_mul rp (slashed r).

(** The spans as the search sees them. *)
Lemma find_span_add_slash era amount e (i : Inspecting) :
  find_span e (spans (add_slash amount era i)) = find_span e (spans i).
Proof. done. Qed.

Lemma span_reward_range (rp : Perbill) slash paid :
  0 <= slash -> 0 <= paid <= pt_mul rp slash -> 0 <= span_reward rp slash paid <= pt_mul rp slash - paid.
Proof.
  intros Hs Hp. unfold span_reward. rewrite sat_sub_exact by lia.
  apply (pt_mul_part (REWARD_F1 : Perbill)). lia.
Qed.

Lemma span_record_insert key r (s : St) : span_record (set_span_slash <[key := r]> s) key = r.
Proof. unfold span_record. simpl. by rewrite lookup_insert_eq. Qed.

(** The inspection after a slash [x] in the span [k] for which [r] was recorded. *)
Definition recorded (k x : Z) (r : SpanRecord) (i i' : Inspecting) (s s' : St) : Prop :=
  let r' := span_record s' (is_stash i, k) in
  is_stash i' = is_stash i /\ is_reward_proportion i' = is_reward_proportion i
  /\ (forall e, find_span e (spans i') = find_span e (spans i))
  /\ record_ok (is_reward_proportion i) r' /\ slashed r' = Z.max (slashed r) x
  /\ slash_of i' = slash_of i + (slashed r' - slashed r)
  /\ paid_out r <= paid_out r' /\ is_paid_out i' = is_paid_out i + (paid_out r' - paid_out r).

Lemma compare_and_update_spec era x k (i : Inspecting) (s : St) :
  let r := span_record s (is_stash i, k) in
  index <$> find_span era (spans i) = Some k -> record_ok (is_reward_proportion i) r -> in_uint 128 x ->
  0 <= slash_of i -> slash_of i + (Z.max (slashed r) x - slashed r) <= umax 128 ->
  0 <= is_paid_out i -> is_paid_out i + (Z.max (slashed r) x - paid_out r) <= umax 128 ->
  let '(target, i', s') := compare_and_update_span_slash era x i s in
  target = Some k /\ recorded k x r i i' s s'.
Proof.
  intros r Hspan [Hr Hp] [Hx0 Hx1] Hso Hso' Hpo Hpo'. unfold compare_and_update_span_slash, era_span.
  destruct (find_span era (spans i)) as [sp|] eqn:Esp; [|done]. injection Hspan as <-. cbv zeta. fold r.
  pose proof (pt_mul_part (is_reward_proportion i) x Hx0) as Hpart. pose proof (pt_mul_part (is_reward_proportion i) (slashed r) (proj1 Hr)) as Hpart'.
  destruct (Z.ltb_spec (slashed r) x) as [Hlt|Hge].
  - pose proof (pt_mul_mono (is_reward_proportion i) (slashed r) x ltac:(lia)) as Hmono.
    pose proof (span_reward_range (is_reward_proportion i) x (paid_out r) ltac:(lia) ltac:(lia)) as Hrew.
    destruct (Z.eqb_spec (span_reward (is_reward_proportion i) x (paid_out r)) 0) as [E0|E0]; cbv beta iota zeta; (split; [done|]);
      unfold recorded, record_ok; rewrite span_record_insert; simpl;
      rewrite ?wrap_exact by (unfold in_uint; lia); split_and!; (done || lia).
  - destruct (Z.eqb_spec (slashed r) x) as [Heq|Hne].
    + rewrite <- Heq in *. pose proof (span_reward_range (is_reward_proportion i) (slashed r) (paid_out r) ltac:(lia) ltac:(lia)) as Hrew.
      destruct (Z.eqb_spec (span_reward (is_reward_proportion i) (slashed r) (paid_out r)) 0) as [E0|E0]; cbv beta iota zeta; (split; [done|]);
        unfold recorded, record_ok.
      * change (span_record s (is_stash i, index sp)) with r. split_and!; (done || lia).
      * rewrite span_record_insert; simpl. rewrite ?wrap_exact by (unfold in_uint; lia); split_and!; (done || lia).
    + rewrite Z.eqb_refl. split; [done|]. unfold recorded, record_ok.
      change (span_record s (is_stash i, index sp)) with r. split_and!; (done || lia).
Qed.

Lemma max_slash_ge offences : forall m, m <= max_slash offences m.
Proof. induction offences as [|o l IH]; intros m; simpl; [lia|]. specialize (IH (Z.max m o.2)). lia. Qed.

(** C10: within one span a stash loses the maximum of what it was slashed for, not the sum:
    after any sequence of offences whose eras belong to the span, the amount to slash has
    grown by exactly as much as the recorded maximum, and the rewards paid out stay
    within the reporters' proportion of that maximum. *)
Theorem span_slash_is_maximum (offences : list (Z * Z)) (k : Z) (i : Inspecting) (s : St) :
  let r := span_record s (is_stash i, k) in
  let m := max_slash offences (slashed r) in
  (forall o, o ∈ offences -> index <$> find_span o.1 (spans i) = Some k /\ in_uint 128 o.2) ->
  record_ok (is_reward_proportion i) r ->
  0 <= slash_of i -> slash_of i + (m - slashed r) <= umax 128 ->
  0 <= is_paid_out i -> is_paid_out i + (m - paid_out r) <= umax 128 ->
  let '(i', s') := record_slashes offences i s in
  let r' := span_record s' (is_stash i, k) in
  slashed r' = m /\ slash_of i' = slash_of i + (m - slashed r)
  /\ 0 <= paid_out r' <= pt_mul (is_reward_proportion i) m
  /\ is_paid_out i' = is_paid_out i + (paid_out r' - paid_out r).
Proof.
  revert i s. induction offences as [|o offences IH]; intros i s r m Hall Hr Hso Hso' Hpo Hpo'.
  { unfold m. simpl. change (span_record s (is_stash i, k)) with r. destruct Hr as [? ?]. split_and!; lia. }
  assert (m = max_slash offences (Z.max (slashed r) o.2)) as Em by done.
  pose proof (max_slash_ge offences (Z.max (slashed r) o.2)) as Hge.
  assert (0 <= slashed r) as Hr0 by apply Hr.
  destruct (Hall o ltac:(left)) as [Hspan Hx].
  pose proof (compare_and_update_spec o.1 o.2 k i s Hspan Hr Hx Hso ltac:(fold r; lia) Hpo ltac:(fold r; lia)) as Hstep.
  unfold record_slashes. cbn [fold_left]. fold r in Hstep.
  destruct (compare_and_update_span_slash o.1 o.2 i s) as [[target i1] s1].
  destruct Hstep as (_ & Est & Erp & Ef & Hr' & Es1 & Eso & Hpaid & Epo). set (r1 := span_record s1 (is_stash i, k)) in *.
  specialize (IH i1 s1). cbv zeta in IH. rewrite Est, Erp in IH. fold r1 in IH. rewrite Es1 in IH.
  specialize (IH ltac:(intros o' Ho'; rewrite Ef; apply Hall; by right) Hr' ltac:(lia) ltac:(lia)).
  unfold record_slashes in IH. rewrite <- Em in IH.
  destruct (fold_left _ offences (i1, s1)) as [i' s'].
  destruct IH as (H1 & H2 & H3 & H4); [lia|lia|]. split_and!; (done || lia).
Qed.

End SpanSlash.

(** ** One offence, one slash *)

Section Once.
Context {L AccountId Perbill Percent : Type} `{Countable AccountId}.
Context `{!StakingCurrency L AccountId} `{!Session L AccountId} `{!FrameSystem L AccountId}.
Context `{!Perthing Perbill} `{!Perthing Percent}.

Abbreviation St := (State L AccountId Perbill Percent).
Abbreviation Inspecting := (InspectingSpans AccountId Perbill).

(** The record of the slashes of validators per era: the writes below do not touch it. *)
Definition same_validator_slashes (s s' : St) : Prop :=
  validator_slash_in_era (slashes s') = validator_slash_in_era (slashes s).

#[local] Instance same_validator_slashes_preorder : PreOrder same_validator_slashes.
Proof. split; [by intros s|]. intros s1 s2 s3 H1 H2. unfold same_validator_slashes in *. congruence. Qed.

Lemma vslash_fetch_spans who w paid slash rp (s : St) :
  same_validator_slashes s (fetch_spans who w paid slash rp s).2.
Proof. unfold fetch_spans. by destruct (slashing_spans _ !! _). Qed.

Lemma vslash_compare era x (i : Inspecting) (s : St) :
  same_validator_slashes s (compare_and_update_span_slash era x i s).2.
Proof. unfold compare_and_update_span_slash. cbv zeta. by repeat case_match; simplify_eq. Qed.

Lemma vslash_drop_spans (i : Inspecting) (s : St) : same_validator_slashes s (drop_spans i s).
Proof.
  unfold drop_spans. destruct (negb (dirty i)); [done|]. destruct (prune _ _) as [[[a b]|] sp]; [|done].
  apply (fold_left_inv (fun t => same_validator_slashes s t)); [|done]. by intros.
Qed.

Lemma vslash_chill_stash who (s : St) : same_validator_slashes s (chill_stash who s).
Proof.
  unfold chill_stash, do_remove_validator, do_remove_nominator.
  repeat (match goal with |- context [if ?b then _ else _] => destruct b end; simpl); done.
Qed.

Lemma vslash_end_current_span now (i : Inspecting) (s : St) :
  same_validator_slashes s (end_current_span now i s).2.
Proof.
  unfold end_current_span. destruct (si_disable_validator _ _) as [d c]. simpl.
  etransitivity; [apply (vslash_chill_stash (is_stash (inspect_end_span now i)))|].
  destruct (default false d); [|done]. unfold ensure_new_era. by destruct (force_era _).
Qed.

Lemma vslash_slash_nominator p q reward n (s : St) :
  same_validator_slashes s (slash_nominator p q reward n s).2.
Proof.
  unfold slash_nominator. cbv zeta. set (s0 := set_nominator_slash _ s).
  assert (same_validator_slashes s s0) as H0 by done. clearbody s0.
  pose proof (vslash_fetch_spans n.1 (sp_window_start p) reward 0 (sp_reward_proportion p) s0) as H1.
  destruct (fetch_spans _ _ _ _ _ s0) as [i s1].
  match goal with |- context [compare_and_update_span_slash ?e ?x i s1] =>
    pose proof (vslash_compare e x i s1) as H2; destruct (compare_and_update_span_slash e x i s1) as [[t i'] s2] end.
  simpl in *. etransitivity; [exact H0|]. etransitivity; [exact H1|]. etransitivity; [exact H2|]. apply vslash_drop_spans.
Qed.

Lemma vslash_slash_nominators p q ns : forall reward (s : St),
  same_validator_slashes s (slash_nominators p q reward ns s).2.
Proof.
  induction ns as [|n ns IH]; intros reward s; simpl; [done|].
  pose proof (vslash_slash_nominator p q reward n s) as H1.
  destruct (slash_nominator p q reward n s) as [[r1 x] s1]. specialize (IH r1 s1).
  destruct (slash_nominators p q r1 ns s1) as [[r2 o] s2]. simpl in *. by etransitivity.
Qed.

Lemma slash_nominators_accounts p q ns : forall reward (s : St),
  map fst (slash_nominators p q reward ns s).1.2 = map fst ns.
Proof.
  induction ns as [|n ns IH]; intros reward s; simpl; [done|].
  destruct (slash_nominator p q reward n s) as [[r1 x] s1]. specialize (IH r1 s1).
  destruct (slash_nominators p q r1 ns s1) as [[r2 o] s2]. simpl in *. by rewrite IH.
Qed.

Lemma compute_slash_records p u (s s' : St) :
  compute_slash p s = (Some u, s') ->
  pt_deconstruct (default (pt_zero, 0) (validator_slash_in_era (slashes s) !! (sp_slash_era p, sp_stash p))).1
    < pt_deconstruct (sp_slash p)
  /\ validator_slash_in_era (slashes s')
     = <[(sp_slash_era p, sp_stash p) := (sp_slash p, pt_mul (sp_slash p) (exp_own (sp_exposure p)))]>
         (validator_slash_in_era (slashes s))
  /\ us_validator u = sp_stash p /\ map fst (us_others u) = map fst (exp_others (sp_exposure p))
  /\ us_reporters u = [].
Proof.
  unfold compute_slash. cbv zeta. destruct (_ =? 0); [discriminate|].
  destruct (Z.ltb_spec (pt_deconstruct (default (pt_zero, 0) (validator_slash_in_era (slashes s)
    !! (sp_slash_era p, sp_stash p))).1) (pt_deconstruct (sp_slash p))) as [Hlt|]; [|discriminate].
  set (s0 := set_validator_slash _ s).
  assert (validator_slash_in_era (slashes s0) = <[(sp_slash_era p, sp_stash p) :=
    (sp_slash p, pt_mul (sp_slash p) (exp_own (sp_exposure p)))]> (validator_slash_in_era (slashes s))) as E0 by done.
  clearbody s0. rewrite <- E0.
  pose proof (vslash_fetch_spans (sp_stash p) (sp_window_start p) 0 0 (sp_reward_proportion p) s0) as H1.
  destruct (fetch_spans _ _ _ _ _ s0) as [i s1].
  match goal with |- context [compare_and_update_span_slash ?e ?x i s1] =>
    pose proof (vslash_compare e x i s1) as H2; destruct (compare_and_update_span_slash e x i s1) as [[t i'] s2] end.
  match goal with |- context [if ?b then end_current_span ?n i' s2 else (i', s2)] =>
    assert (same_validator_slashes s2 (if b then end_current_span n i' s2 else (i', s2)).2) as H3
      by (destruct b; [apply vslash_end_current_span|done]);
    destruct (if b then end_current_span n i' s2 else (i', s2)) as [i3 s3] end.
  pose proof (vslash_drop_spans i3 s3) as H4.
  match goal with |- context [slash_nominators p ?q 0 ?ns ?t] =>
    pose proof (vslash_slash_nominators p q ns 0 t) as H5; pose proof (slash_nominators_accounts p q ns 0 t) as H6;
    destruct (slash_nominators p q 0 ns t) as [[r o] s4] end.
  simpl in *. intros [= <- <-]. split_and!; try done. unfold same_validator_slashes in *. congruence.
Qed.

(** The same offence slashes once. A slash that was computed names the validator and
    exactly the nominators exposed to it; afterwards any report about the validator for
    that era that does not ask for a larger fraction computes no slash and changes
    nothing. *)
Theorem same_offence_slashes_once (p p' : SlashParams AccountId Perbill) u (s s' : St) :
  compute_slash p s = (Some u, s') ->
  sp_stash p' = sp_stash p -> sp_slash_era p' = sp_slash_era p ->
  pt_deconstruct (sp_slash p') <= pt_deconstruct (sp_slash p) ->
  pt_mul (sp_slash p') (exp_total (sp_exposure p')) <> 0 ->
  us_validator u = sp_stash p /\ map fst (us_others u) = map fst (exp_others (sp_exposure p))
  /\ compute_slash p' s' = (None, s').
Proof.
  intros Hrun Est Eera Hle Hne. destruct (compute_slash_records p u s s' Hrun) as (Hlt & Ev & H1 & H2 & _).
  split_and!; try done. unfold compute_slash. rewrite (proj2 (Z.eqb_neq _ _) Hne), Est, Eera. cbv zeta.
  rewrite Ev, lookup_insert_eq. cbn [from_option id fst].
  destruct (Z.ltb_spec (pt_deconstruct (sp_slash p)) (pt_deconstruct (sp_slash p'))); [lia|done].
Qed.

(** Clearing the metadata of a stash. It is refused when the stash has more spans than
    announced; otherwise the spans and the record of every one of them are gone, those of
    other stashes are not, and bonds, roles, eras and queued slashes have not changed. *)
Theorem clear_stash_metadata_spec (who : AccountId) (n : Z) (s : St) (sp : SlashingSpans) :
  slashing_spans (slashes s) !! who = Some sp ->
  match clear_stash_metadata who n s with
  | Ok s' =>
      Z.of_nat (length (iter sp)) <= n
      /\ slashing_spans (slashes s') = delete who (slashing_spans (slashes s))
      /\ (forall k, span_slash (slashes s') !! k
                    = if bool_decide (k.1 = who /\ k.2 ∈ map index (iter sp)) then None
                      else span_slash (slashes s) !! k)
      /\ bonds s' = bonds s /\ roles s' = roles s /\ eras s' = eras s /\ chain s' = chain s
      /\ unapplied_slashes (slashes s') = unapplied_slashes (slashes s)
  | Err e => e = IncorrectSlashingSpans /\ n < Z.of_nat (length (iter sp))
  | Panic => False
  end.
Proof.
  intros Hsp. unfold clear_stash_metadata. rewrite Hsp.
  destruct (Z.leb_spec (Z.of_nat (length (iter sp))) n) as [Hle|Hgt]; [|done]. split; [done|].
  assert (forall (l : list SlashingSpan) (t : St),
    let t' := fold_left (fun s span => set_span_slash (delete (who, index span)) s) l t in
    slashing_spans (slashes t') = slashing_spans (slashes t)
    /\ (forall k, span_slash (slashes t') !! k
                  = if bool_decide (k.1 = who /\ k.2 ∈ map index l) then None else span_slash (slashes t) !! k)
    /\ bonds t' = bonds t /\ roles t' = roles t /\ eras t' = eras t /\ chain t' = chain t
    /\ unapplied_slashes (slashes t') = unapplied_slashes (slashes t)) as Hfold.
  { induction l as [|x l IH]; intros t; simpl.
    - split_and!; try done. intros k. rewrite bool_decide_eq_false_2; [done|].
      intros [_ Hk]. by apply elem_of_nil in Hk.
    - destruct (IH (set_span_slash (delete (who, index x)) t)) as (E1 & E2 & E3). simpl in *.
      split_and!; [done| |apply E3..]. intros k. rewrite E2. destruct k as [w j]. simpl.
      destruct (decide ((w, j) = (who, index x))) as [[= -> ->]|Hne].
      + rewrite lookup_delete_eq. rewrite (bool_decide_eq_true_2 (_ /\ _ ∈ _ :: _)) by (split; [done|left]).
        by case_bool_decide.
      + rewrite lookup_delete_ne by congruence.
        destruct (decide (w = who /\ j ∈ map index l)) as [Hd|Hd].
        * rewrite !bool_decide_eq_true_2; [done|..]; rewrite ?elem_of_cons; naive_solver.
        * rewrite !bool_decide_eq_false_2; [done|..]; rewrite ?elem_of_cons; naive_solver. }
  destruct (Hfold (iter sp) (set_spans (delete who) s)) as (E1 & E2 & E3). split_and!; [exact E1|exact E2|apply E3..].
Qed.

End Once.
