(* ===== verification/StakingTheorems.v ===== *)
(** * Theorems on the calls of the staking pallet

    The invariant in every reachable storage, failing without a trace, and what bonding,
    unbonding, withdrawing and chilling others do to the ledger and its lock. *)

From S2P Require Import Prelude Externals StakingLedger SlashingSpans Staking Slashing StakingCalls StakingEras StakingInvariant SlashingSafety StakingSafety.

Section Theorems.
Context {L X AccountId Source Origin Perbill Percent : Type} `{Countable AccountId}.
Context `{!StakingCurrency L AccountId} `{!Session L AccountId} `{!FrameSystem L AccountId}.
Context `{!Perthing Perbill} `{!Perthing Percent} `{!StakingCurrencyLaws L AccountId}.
Variable cfg : Config L X AccountId Source Origin.

Abbreviation St := (State L AccountId Perbill Percent).
Abbreviation Run := (M (State L AccountId Perbill Percent) (StakingError + X)).

(** The storage of a new chain: nobody is bonded. *)
Definition nothing_staked (s : St) : Prop :=
  bonds s = MkBonds ∅ ∅ ∅ /\ validators (roles s) = ∅ /\ nominators (roles s) = ∅
  /\ counter_for_validators (roles s) = 0 /\ counter_for_nominators (roles s) = 0
  /\ slashing_spans (slashes s) = ∅ /\ unapplied_slashes (slashes s) = ∅ /\ active_era (eras s) = None.

Lemma nothing_staked_inv (s : St) : nothing_staked s -> staking_inv s.
Proof.
  intros (Eb & Ev & En & Ecv & Ecn & Esp & Eu & Ea). split.
  - rewrite Eb. split; simpl.
    + intros st ctl. rewrite lookup_empty. setoid_rewrite lookup_empty. split; [done|by intros (l & ? & _)].
    + intros st. by rewrite !lookup_empty.
    + intros ctl l. by rewrite lookup_empty.
    + intros ctl l. by rewrite lookup_empty.
  - split; rewrite ?Ev, ?En, ?Ecv, ?Ecn, ?map_size_empty; try done; intros w; rewrite lookup_empty; by intros [].
  - split; rewrite ?Esp, ?Eu; intros ? ?; by rewrite lookup_empty.
  - intros info. by rewrite Ea.
Qed.

(** C2: in every storage reachable from one where nobody is staked, by calls of any origin
    and any outcome, and by the hooks of sessions, eras and offences: controllers and
    stashes are paired one to one, every ledger's total is its active stake plus what is
    unlocking and is locked in the stash, the role counters count, nobody is a validator
    and a nominator, only bonded stashes have a role or a payee, and every slashing span
    is well-formed. *)
Theorem reachable_staking_inv (s0 s : St) :
  ConfigLaws cfg -> nothing_staked s0 -> reachable cfg s0 s ->
  (forall st ctl, bonded (bonds s) !! st = Some ctl
                  <-> exists l, ledger (bonds s) !! ctl = Some l /\ stash l = st)
  /\ (forall ctl l, ledger (bonds s) !! ctl = Some l ->
        ledger_ok l /\ (0 < total l -> sc_lock_of (stash l) (chain s) = total l))
  /\ roles_inv (roles s) (bonds s)
  /\ (forall st, is_Some (payee (bonds s) !! st) <-> is_Some (bonded (bonds s) !! st))
  /\ (forall who sp, slashing_spans (slashes s) !! who = Some sp -> spans_ok sp).
Proof.
  intros Hcfg H0 Hr.
  destruct (reachable_inv cfg Hcfg s0 s (nothing_staked_inv s0 H0) Hr) as [[Hp Hpay Hl Hk] Hroles [Hsp _] _].
  split_and!; try done. intros ctl l E. split; [by eapply Hl|by eapply Hk].
Qed.

(** The calls of the pallet are not transactional, and need not be: one that fails or
    panics leaves the storage, locks and events included, as it was. *)
Theorem failed_staking_call_no_trace (origin : Origin) (c : Call AccountId Source Perbill Percent) (s : St) r s' :
  dispatch cfg origin c s = (r, s') -> (forall u, r <> Ok u) -> s' = s.
Proof. intros Hrun Hr. by apply (dispatch_clean cfg origin c s r s' Hrun). Qed.

(** ** Bonding and unbonding *)

(** Unbonding. What leaves the active stake is what was asked for, or the whole of it
    when there is less or only dust would remain; it waits in a new chunk until the
    bonding duration is over. Total and lock stay, there are never more than 32 chunks,
    and who keeps a role keeps the stake it requires. *)
Theorem unbond_spec (origin : Origin) (value : Z) (ctl : AccountId) (l : StakingLedger AccountId) (s s' : St) u :
  staking_inv s -> in_uint 128 value -> signed_by cfg origin = Some ctl -> ledger (bonds s) !! ctl = Some l ->
  0 < Z.min value (active l) -> (unbond cfg origin value : Run unit) s = (Ok u, s') ->
  exists l' v, ledger (bonds s') !! ctl = Some l'
  /\ v = (if active l - Z.min value (active l) <? sc_minimum_balance then active l else Z.min value (active l))
  /\ active l' = active l - v /\ total l' = total l /\ stash l' = stash l
  /\ unlocking l' = unlocking l ++ [MkChunk v (wrap 32 (default 0 (current_era (eras s)) + bonding_duration cfg))]
  /\ (length (unlocking l') <= MAX_UNLOCKING_CHUNKS)%nat
  /\ sc_lock_of (stash l) (chain s') = total l
  /\ min_active_bond s (stash l) <= active l'.
Proof.
  intros Hs Hv Ho El Hpos Hrun. unfold unbond, ensure_signed in Hrun. rewrite Ho in Hrun. run_step Hrun.
  ledger_inv lg El'. simplify_eq. cbv zeta in Hrun.
  pose proof (inv_ledger_ok _ _ _ Hs El) as Hl. pose proof (ledger_ok_range _ Hl) as (? & ? & ? & ?).
  destruct (Z.eqb_spec (Z.min value (active l)) 0) as [|_]; [lia|].
  set (v := if active l - Z.min value (active l) <? sc_minimum_balance then active l else Z.min value (active l)).
  assert (unbond_amounts (Z.min value (active l)) (active l) = (v, active l - v)) as E.
  { unfold unbond_amounts, v. destruct (_ <? _); [|done]. unfold in_uint in *. rewrite wrap_exact by (unfold in_uint; lia).
    f_equal; lia. }
  rewrite E in Hrun. run_inv Hrun. bool_inv.
  match goal with H : (length (unlocking l) <? _)%nat = true |- _ => apply Nat.ltb_lt in H end.
  eexists _, v. split; [apply lookup_insert_eq|]. cbn [active total stash unlocking]. split_and!; try done.
  - rewrite length_app. simpl. lia.
  - apply lock_set_same. lia.
Qed.

(** What is left of a stash that is killed. *)
Definition stash_gone (st ctl : AccountId) (s : St) : Prop :=
  bonded (bonds s) !! st = None /\ ledger (bonds s) !! ctl = None /\ payee (bonds s) !! st = None
  /\ validators (roles s) !! st = None /\ nominators (roles s) !! st = None
  /\ slashing_spans (slashes s) !! st = None /\ sc_lock_of st (chain s) = 0.

Lemma clear_stash_metadata_gone who n (s s' : St) :
  clear_stash_metadata who n s = Ok s' -> slashing_spans (slashes s') !! who = None.
Proof.
  unfold clear_stash_metadata. destruct (slashing_spans _ !! who) as [sp|] eqn:E; [|by intros [= <-]].
  destruct (_ <=? n); [|done]. intros [= <-].
  apply (fold_left_inv (fun t => slashing_spans (slashes t) !! who = None)); [done|]. apply lookup_delete_eq.
Qed.

Lemma kill_stash_gone st ctl n (s s' : St) u :
  bonded (bonds s) !! st = Some ctl -> staking_inv s -> (kill_stash st n : Run unit) s = (Ok u, s') ->
  stash_gone st ctl (over_chain (sc_remove_lock st) s').
Proof.
  intros Eb Hs Hrun. unfold kill_stash in Hrun. run_step Hrun.
  destruct (clear_stash_metadata st n s) as [s0|e|] eqn:Ec; [|by run_step R|by run_step R]. run_step R. simplify_eq.
  pose proof (clear_stash_metadata_gone _ _ _ _ Ec) as Hsp.
  unfold set_payee_map, set_ledger, set_bonded. rewrite !remove_validator_over_bonds, !remove_nominator_over_bonds.
  pose proof (remove_validator_frame s0 st) as (Eb1 & Ec1 & Es1 & _ & En1 & Ev1).
  set (s1 := (do_remove_validator st s0).2) in *. clearbody s1.
  pose proof (remove_nominator_frame s1 st) as (Eb2 & Ec2 & Es2 & _ & Ev2 & En2).
  set (s2 := (do_remove_nominator st s1).2) in *. clearbody s2.
  unfold stash_gone. simpl. split_and!; try apply lookup_delete_eq; try done.
  - by rewrite Ev2.
  - by rewrite Es2, Es1.
  - apply lock_removed.
Qed.

(** Withdrawing. The due chunks, and only they, leave the ledger. The stash is
    forgotten (its bond, payee, roles, slashing spans and lock) exactly when nothing is
    unlocking any more and less than the minimum is active; otherwise the lock is the
    remaining total. *)
Theorem withdraw_unbonded_spec (origin : Origin) (n : Z) (ctl : AccountId) (l : StakingLedger AccountId) (s s' : St) u :
  staking_inv s -> signed_by cfg origin = Some ctl -> ledger (bonds s) !! ctl = Some l ->
  (withdraw_unbonded cfg origin n : Run unit) s = (Ok u, s') ->
  let l' := match current_era (eras s) with Some e => consolidate_unlocked e l | None => l end in
  if bool_decide (unlocking l' = []) && (active l <? sc_minimum_balance)
  then stash_gone (stash l) ctl s'
  else ledger (bonds s') !! ctl = Some l' /\ bonded (bonds s') = bonded (bonds s) /\ roles s' = roles s
       /\ active l' = active l
       /\ unlocking l' = match current_era (eras s) with
                         | Some e => List.filter (fun c => negb (due e c)) (unlocking l)
                         | None => unlocking l
                         end
       /\ (0 < total l' -> sc_lock_of (stash l) (chain s') = total l').
Proof.
  intros Hs Ho El Hrun l'. unfold withdraw_unbonded, ensure_signed in Hrun. rewrite Ho in Hrun. cbv zeta in Hrun.
  run_step Hrun. ledger_inv lg El'. simplify_eq.
  match goal with H : (if _ && _ then _ else _) _ = (Ok _, _) |- _ => rename H into Hbr end. fold l' in Hbr, Hrun.
  assert (active l' = active l /\ stash l' = stash l
    /\ unlocking l' = match current_era (eras s) with
                      | Some e => List.filter (fun c => negb (due e c)) (unlocking l)
                      | None => unlocking l
                      end) as (Ea & Est & Eun).
  { unfold l'. destruct (current_era (eras s)) as [e|]; [|done]. split_and!.
    - unfold consolidate_unlocked. by destruct (fold_left _ _ _).
    - unfold consolidate_unlocked. by destruct (fold_left _ _ _).
    - eapply consolidate_unlocked_kept, inv_ledger_ok; done. }
  assert (match unlocking l' with [] => true | _ => false end = bool_decide (unlocking l' = [])) as Enil
    by by destruct (unlocking l').
  rewrite Enil, Ea in Hbr.
  match type of Hbr with _ = (Ok _, ?t) => assert (bonds s' = bonds t /\ roles s' = roles t /\ chain s' = chain t
    /\ slashes s' = slashes t) as (E1 & E2 & E3 & E4) 
      by (destruct (_ <? _) in Hrun; run_step Hrun; subst; done) end.
  destruct (_ && _); run_step Hbr; simplify_eq.
  - unfold stash_gone. rewrite E1, E2, E3, E4. eapply kill_stash_gone; try done. by eapply controller_bonded.
  - rewrite E1, E2, E3. simpl. split_and!; try done; [apply lookup_insert_eq|].
    intros Hpos. rewrite <- Est. by apply lock_set_same.
Qed.

(** Nobody chills a staker against its will unless it is below the bar: when someone
    other than the controller succeeds with [chill_other], the threshold and the maximum
    of the role are set, the role is used beyond the threshold, and the stash has less
    than the minimum the role requires. *)
Theorem chill_other_guard (origin : Origin) (caller ctl : AccountId) (l : StakingLedger AccountId) (s s' : St) u :
  signed_by cfg origin = Some caller -> caller <> ctl -> ledger (bonds s) !! ctl = Some l ->
  0 <= active l -> (chill_other cfg origin ctl : Run unit) s = (Ok u, s') ->
  s' = chill_stash (stash l) s
  /\ exists threshold, chill_threshold (roles s) = Some threshold
     /\ (is_nominator s (stash l) = true /\ active l < min_nominator_bond (roles s)
         /\ (exists m, max_nominators_count (roles s) = Some m
                       /\ pt_mul threshold m < counter_for_nominators (roles s))
         \/ is_nominator s (stash l) = false /\ is_validator s (stash l) = true
            /\ active l < min_validator_bond (roles s)
            /\ (exists m, max_validators_count (roles s) = Some m
                          /\ pt_mul threshold m < counter_for_validators (roles s))).
Proof.
  intros Ho Hne El Ha Hrun. unfold chill_other, ensure_signed in Hrun. rewrite Ho in Hrun. run_step Hrun.
  ledger_inv lg El'. simplify_eq.
  match goal with H : (if _ then _ else _) _ = (Ok _, _) |- _ => rename H into Hbr end.
  rewrite bool_decide_eq_false_2 in Hbr by done. run_step Hbr. simplify_eq. split; [done|].
  match goal with H : chill_bond _ _ = Ok _ |- _ => rename H into Hbond end.
  unfold chill_bond in Hbond. run_step Hbond. eexists. split; [done|].
  destruct (is_nominator s (stash l)); [left|right].
  - run_step Hbond. bool_inv. simplify_eq. eauto 10.
  - destruct (is_validator s (stash l)); run_step Hbond; bool_inv; simplify_eq; [eauto 10|lia].
Qed.

End Theorems.
