(* ===== verification/StakingElectionTheorems.v ===== *)
(** * What the election provider is given

    In every reachable storage: nobody votes twice, every vote has the weight of a ledger,
    and only for validators that were not slashed since they were nominated, and the
    snapshot is no longer than was asked for. *)

From Stdlib Require Import String.
From S2P Require Import Prelude Externals StakingLedger SlashingSpans Staking Slashing StakingCalls StakingEras StakingElection StakingInvariant SlashingSafety StakingSafety StakingTheorems.

Section Snapshot.
Context {L X AccountId Source Origin Perbill Percent : Type} `{Countable AccountId}.
Context `{!StakingCurrency L AccountId} `{!Session L AccountId} `{!FrameSystem L AccountId}.
Context `{!Perthing Perbill} `{!Perthing Percent} `{!StakingCurrencyLaws L AccountId}.
Variable cfg : Config L X AccountId Source Origin.
Variable to_vote : Z -> Z -> Z.

Abbreviation St := (State L AccountId Perbill Percent).

(** ** The votes of nominators *)

Lemma elem_of_nominator_votes (s : St) n e :
  e ∈ nominator_votes to_vote s n
  <-> e = (n.1, slashable_balance_of_fn to_vote s n.1, List.filter (still_nominates (slashing_spans (slashes s)) (submitted_in n.2)) (targets n.2))
      /\ List.filter (still_nominates (slashing_spans (slashes s)) (submitted_in n.2)) (targets n.2) <> [].
Proof. unfold nominator_votes. destruct (List.filter _ _) eqn:E; [set_solver|]. rewrite list_elem_of_singleton. naive_solver. Qed.

Lemma nominators_of_votes (s : St) ns who :
  who ∈ map (fun e => e.1.1) (concat (map (nominator_votes to_vote s) ns)) -> who ∈ ns.*1.
Proof.
  induction ns as [|n ns IH]; simpl; [done|]. rewrite map_app, elem_of_app. intros [Hn|Hn]; [|set_solver].
  apply list_elem_of_fmap in Hn as (e & -> & He). apply elem_of_nominator_votes in He as [-> _]. simpl. set_solver.
Qed.

Lemma nominators_vote_once (s : St) ns : NoDup ns.*1 -> NoDup (map (fun e => e.1.1) (concat (map (nominator_votes to_vote s) ns))).
Proof.
  induction ns as [|n ns IH]; simpl; intros Hd; [constructor|]. apply NoDup_cons in Hd as [Hn Hd].
  rewrite map_app. apply NoDup_app. split_and!; [|intros who Hw Hw'%nominators_of_votes|by apply IH].
  - unfold nominator_votes. destruct (List.filter _ _); simpl; [constructor|apply NoDup_singleton].
  - apply list_elem_of_fmap in Hw as (e & -> & He). apply elem_of_nominator_votes in He as [-> _]. done.
Qed.

Lemma nominator_votes_length (s : St) ns : (length (concat (map (nominator_votes to_vote s) ns)) <= length ns)%nat.
Proof.
  induction ns as [|n ns IH]; simpl; [lia|]. rewrite length_app. unfold nominator_votes at 1.
  destruct (List.filter _ _); simpl; lia.
Qed.

(** ** Weights *)

(** The weight of the active bond of a stash. *)
Definition bond_weight (s : St) (who : AccountId) (weight : Z) : Prop :=
  exists ctl l, bonded (bonds s) !! who = Some ctl /\ ledger (bonds s) !! ctl = Some l /\ stash l = who
    /\ weight = to_vote (active l) (sc_total_issuance (chain s)).

Lemma bonded_weight (s : St) who :
  staking_inv s -> is_Some (bonded (bonds s) !! who) -> bond_weight s who (slashable_balance_of_fn to_vote s who).
Proof.
  intros Hs [ctl Hb]. destruct (proj1 (bonds_pair _ _ (inv_bonds s Hs) who ctl) Hb) as (l & Hl & Hst). exists ctl, l. split_and!; [done..|].
  unfold slashable_balance_of_fn, slashable_balance_of_vote_weight, slashable_balance_of. rewrite Hb. simpl. by rewrite Hl.
Qed.

(** What may vote: a validator for itself, and a nominator, for those it nominated that were
    not slashed since. *)
Definition justified (s : St) (who : AccountId) (votes : list AccountId) : Prop :=
  (is_Some (validators (roles s) !! who) /\ votes = [who])
  \/ exists n, nominators (roles s) !! who = Some n /\ votes <> []
       /\ forall v, v ∈ votes <-> v ∈ targets n
            /\ forall sp, slashing_spans (slashes s) !! v = Some sp -> last_nonzero_slash sp <= submitted_in n.

Lemma kept_targets spans submitted ts v :
  v ∈ List.filter (still_nominates spans submitted) ts
  <-> v ∈ ts /\ forall sp : SlashingSpans, spans !! (v : AccountId) = Some sp -> last_nonzero_slash sp <= submitted.
Proof.
  rewrite !list_elem_of_In, filter_In. unfold still_nominates. destruct (spans !! v) as [sp|].
  - rewrite Z.leb_le. naive_solver.
  - naive_solver.
Qed.

Lemma voter_justified (s : St) who weight votes :
  staking_inv s -> (who, weight, votes) ∈ get_npos_voters to_vote s -> justified s who votes /\ bond_weight s who weight.
Proof.
  intros Hs. pose proof (inv_roles s Hs) as Hroles. unfold get_npos_voters. rewrite elem_of_app. intros [Hv|Hn].
  - apply list_elem_of_fmap in Hv as ([v p] & [= -> -> ->] & Hv%elem_of_map_to_list). simpl.
    split; [left; by rewrite Hv|]. apply bonded_weight; [done|]. apply (roles_validators_bonded _ _ Hroles). by rewrite Hv.
  - rewrite list_elem_of_In in Hn. apply in_concat in Hn as (l & Hl & Hn). rewrite <- list_elem_of_In in Hn.
    apply in_map_iff in Hl as ([n ns] & <- & Hl). rewrite <- list_elem_of_In in Hl. apply elem_of_map_to_list in Hl.
    apply elem_of_nominator_votes in Hn as [[= -> -> ->] Hne]. simpl in *. split.
    + right. exists ns. split_and!; [done..|]. intros v. apply kept_targets.
    + apply bonded_weight; [done|]. apply (roles_nominators_bonded _ _ Hroles). by rewrite Hl.
Qed.

Lemma everybody_votes (s : St) who :
  (is_Some (validators (roles s) !! who) -> who ∈ map (fun e => e.1.1) (get_npos_voters to_vote s))
  /\ forall n v, nominators (roles s) !! who = Some n -> v ∈ targets n ->
       (forall sp, slashing_spans (slashes s) !! v = Some sp -> last_nonzero_slash sp <= submitted_in n) ->
       who ∈ map (fun e => e.1.1) (get_npos_voters to_vote s).
Proof.
  unfold get_npos_voters. rewrite map_app. split.
  - intros [p Hp]. apply elem_of_app. left. rewrite map_map. apply list_elem_of_fmap. exists (who, p). by rewrite elem_of_map_to_list.
  - intros n v Hn Hv Hsp. apply elem_of_app. right.
    assert (List.filter (still_nominates (slashing_spans (slashes s)) (submitted_in n)) (targets n) <> []) as Hne.
    { intros E. assert (v ∈ List.filter (still_nominates (slashing_spans (slashes s)) (submitted_in n)) (targets n)) as Hk by by apply kept_targets.
      rewrite E in Hk. by apply not_elem_of_nil in Hk. }
    apply list_elem_of_fmap. eexists (who, _, _). split; [done|]. apply list_elem_of_In, in_concat. exists (nominator_votes to_vote s (who, n)). split.
    + apply in_map, list_elem_of_In. by apply elem_of_map_to_list.
    + apply list_elem_of_In, elem_of_nominator_votes. done.
Qed.

(** ** The snapshots *)

Lemma votes_once (s : St) : staking_inv s -> NoDup (map (fun e => e.1.1) (get_npos_voters to_vote s)).
Proof.
  intros Hs. unfold get_npos_voters. rewrite map_app. apply NoDup_app. split_and!.
  - rewrite map_map. apply NoDup_fst_map_to_list.
  - intros who Hv Hn%nominators_of_votes. rewrite map_map in Hv.
    apply list_elem_of_fmap in Hv as ([v p] & -> & Hv%elem_of_map_to_list). apply list_elem_of_fmap in Hn as ([n ns] & Heq & Hn%elem_of_map_to_list).
    simpl in *. subst. pose proof (roles_disjoint _ _ (inv_roles s Hs) n ltac:(by eexists)). congruence.
  - apply nominators_vote_once, NoDup_fst_map_to_list.
Qed.

Lemma voters_length (s : St) :
  staking_inv s -> Z.of_nat (length (get_npos_voters to_vote s)) <= counter_for_nominators (roles s) + counter_for_validators (roles s).
Proof.
  intros Hs. rewrite (roles_validators_count _ _ (inv_roles s Hs)), (roles_nominators_count _ _ (inv_roles s Hs)).
  unfold get_npos_voters. rewrite length_app, length_map, length_map_to_list.
  pose proof (nominator_votes_length s (map_to_list (nominators (roles s)))) as Hn. rewrite length_map_to_list in Hn. lia.
Qed.

(** C34: in every reachable storage the election gets each voter once: every validator for
    itself, and every nominator with a nomination since which the nominated was not slashed,
    for exactly those; each with the weight of what its stash has bonded. Where the bound is
    below 2^32 - 1, where the sum of the counters saturates, the snapshot is within it. *)
Theorem snapshot_is_right (s0 s : St) maybe_max_len l :
  ConfigLaws cfg -> nothing_staked s0 -> reachable cfg s0 s -> voters to_vote maybe_max_len s = Ok l ->
  NoDup (map (fun e => e.1.1) l)
  /\ (forall who weight votes, (who, weight, votes) ∈ l -> justified s who votes /\ bond_weight s who weight)
  /\ (forall who, (exists votes, justified s who votes) -> who ∈ map (fun e => e.1.1) l)
  /\ (forall max_len, maybe_max_len = Some max_len -> max_len < umax 32 -> Z.of_nat (length l) <= max_len).
Proof.
  intros Hcfg H0 Hr Hv. pose proof (reachable_inv cfg Hcfg s0 s (nothing_staked_inv s0 H0) Hr) as Hs.
  unfold voters in Hv. destruct (too_many _ _) eqn:Hm; [done|]. injection Hv as <-. split_and!.
  - by apply votes_once.
  - intros who weight votes. by apply voter_justified.
  - intros who (votes & [[Hval _]|(n & Hn & Hne & Hvs)]); [by apply everybody_votes|].
    destruct votes as [|v votes]; [done|]. destruct (proj1 (Hvs v) ltac:(set_solver)) as [Hv Hsp]. by eapply everybody_votes.
  - intros m -> Hlt. simpl in Hm. apply Z.ltb_ge in Hm. pose proof (voters_length s Hs). unfold sat_add in Hm. lia.
Qed.

(** ** The prediction *)

(** The next election is not expected in the past; while eras are not forced, not later than
    the sessions that are left; never, when no era is to begin. *)
Lemma prediction_is_due estimate average w current_planned_session now (s : St) :
  0 <= w -> in_uint w now -> 0 <= sessions_per_era cfg -> 0 <= average (chain s) ->
  let p := next_election_prediction cfg estimate average w current_planned_session now s in
  now <= p <= umax w
  /\ (force_era (eras s) = ForceNone -> 1 <= average (chain s) -> p = umax w)
  /\ (force_era (eras s) = ForceNew \/ force_era (eras s) = ForceAlways ->
        p <= Z.max now (default 0 (estimate now (chain s)))).
Proof.
  intros Hw Hnow Hper Hav. pose proof (umax_nonneg w Hw). unfold in_uint in Hnow. cbn zeta. unfold next_election_prediction, sessions_left, sat_add, sat_sub, sat_mul.
  split_and!.
  - destruct (force_era (eras s)); try destruct (_ <=? _); nia.
  - destruct (force_era (eras s)); try destruct (_ <=? _); nia.
  - intros ->. nia.
  - intros [-> | ->]; nia.
Qed.
End Snapshot.
