(* ===== verification/EraTheorems.v ===== *)
(** * Theorems on eras

    The window of bonded eras, deferred slashes, exposures, the era of an offence,
    planning an era, and the halving of the issuance. *)

From S2P Require Import Prelude Externals StakingLedger SlashingSpans Staking Slashing StakingCalls StakingEras.

(** ** Issuance *)

(** The issuance is halved, rounding down, after every interval, and nothing is issued
    from the 64th halving on. *)
Theorem native_issuance_halves (interval initial era : Z) :
  0 < interval -> 0 <= era -> 0 <= initial ->
  exists v, native_issuance interval initial era = Some v
  /\ (era < 64 * interval -> v = initial / 2 ^ (era / interval))
  /\ (64 * interval <= era -> v = 0)
  /\ (era + interval < 64 * interval -> native_issuance interval initial (era + interval) = Some (v / 2)).
Proof.
  intros Hi He H0. unfold native_issuance, checked_div.
  destruct (Z.eqb_spec interval 0) as [|_]; [lia|]. cbn [mbind option_bind].
  pose proof (Z.div_pos era interval He Hi) as Hq.
  assert (era / interval < 64 <-> era < 64 * interval) as Hlt.
  { split; intros Hx; [|by apply Z.div_lt_upper_bound; lia]. pose proof (Z.mul_succ_div_gt era interval Hi). nia. }
  assert ((era + interval) / interval = era / interval + 1) as ->.
  { replace (era + interval) with (era + 1 * interval) by lia. by rewrite Z.div_add by lia. }
  eexists. split; [done|]. destruct (Z.leb_spec 64 (era / interval)) as [Hge|Hsmall].
  - split_and!; intros Hx; [apply Hlt in Hx; lia|done|]. assert (era < 64 * interval) as Hy by lia. apply Hlt in Hy. lia.
  - rewrite Z.shiftr_div_pow2 by lia. split_and!; intros Hx; [done|lia|].
    destruct (Z.leb_spec 64 (era / interval + 1)) as [Hge|_].
    { assert (era / interval < 63); [|lia]. apply Z.div_lt_upper_bound; lia. }
    rewrite Z.shiftr_div_pow2 by lia. rewrite Z.pow_add_r, Z.pow_1_r by lia.
    rewrite Z.div_div by (try apply Z.pow_nonzero; lia). done.
Qed.

(** ** Exposures *)

Section Exposures.
Context {A : Type} `{EqDecision A}.

Definition others_of (to_currency : Z -> Z) (validator : A) (voters : list (A * Z)) : list (A * Z) :=
  map (fun v => (v.1, to_currency v.2)) (List.filter (fun v => negb (bool_decide (v.1 = validator))) voters).

Definition own_of (to_currency : Z -> Z) (validator : A) (voters : list (A * Z)) : Z :=
  zsum (fun v => to_currency v.2) (List.filter (fun v => bool_decide (v.1 = validator)) voters).

Lemma zsum_split_filter (f : A * Z -> Z) (b : A * Z -> bool) l :
  zsum f l = zsum f (List.filter b l) + zsum f (List.filter (fun v => negb (b v)) l).
Proof. induction l as [|x l IH]; simpl; [done|]. destruct (b x); simpl; lia. Qed.

Lemma collect_fold to_currency validator voters : forall own total others,
  (forall v, 0 <= to_currency v) -> 0 <= own -> own <= total ->
  total + zsum (fun v => to_currency v.2) voters <= umax 128 ->
  fold_left (fun '(own, total, others) '(nominator, weight) =>
    let stake := to_currency weight in
    let total := sat_add 128 total stake in
    if bool_decide (nominator = validator) then (sat_add 128 own stake, total, others)
    else (own, total, others ++ [(nominator, stake)])) voters (own, total, others)
  = (own + own_of to_currency validator voters, total + zsum (fun v => to_currency v.2) voters,
     others ++ others_of to_currency validator voters).
Proof.
  induction voters as [|[n w] voters IH]; intros own total others Hc H0 Hle Hfit.
  { unfold own_of, others_of. simpl. rewrite app_nil_r. f_equal; f_equal; lia. }
  simpl in Hfit. pose proof (Hc w) as Hw.
  assert (0 <= zsum (fun v : A * Z => to_currency v.2) voters) as Hv by (apply zsum_nonneg; auto).
  unfold own_of, others_of. cbn [fold_left List.filter fst snd]. rewrite (sat_add_exact 128 total) by lia.
  case_bool_decide as Hn; cbn [negb zsum map].
  - rewrite (sat_add_exact 128 own) by lia. rewrite IH by (done || lia). unfold own_of, others_of. simpl. f_equal; f_equal; lia.
  - rewrite IH by (done || lia). rewrite <- app_assoc. unfold own_of, others_of. simpl. f_equal; f_equal; lia.
Qed.

(** The exposure of an elected validator. Own stake and the stakes of the others, in
    the order of the support, add up to the total: nothing is counted twice or lost. *)
Theorem collect_exposure_total (to_currency : Z -> Z) (validator : A) (voters : list (A * Z)) :
  (forall v, 0 <= to_currency v) -> zsum (fun v => to_currency v.2) voters <= umax 128 ->
  let '(who, e) := collect_exposure to_currency (validator, voters) in
  who = validator /\ exp_total e = zsum (fun v => to_currency v.2) voters
  /\ exp_total e = exp_own e + zsum snd (exp_others e)
  /\ exp_others e = others_of to_currency validator voters
  /\ validator ∉ map fst (exp_others e).
Proof.
  intros Hc Hfit. unfold collect_exposure. cbn [fst snd].
  pose proof (collect_fold to_currency validator voters 0 0 [] Hc ltac:(lia) ltac:(lia) ltac:(lia)) as Hfold.
  cbv zeta in Hfold |- *. rewrite Hfold.
  cbn [exp_total exp_own exp_others app]. split_and!; [done|lia| |done|].
  - rewrite (zsum_split_filter _ (fun v => bool_decide (v.1 = validator))). unfold own_of, others_of.
    assert (forall l : list (A * Z), zsum snd (map (fun v => (v.1, to_currency v.2)) l) = zsum (fun v => to_currency v.2) l)
      as Hmap by (induction l as [|x l IHl]; simpl; [done|]; by rewrite IHl).
    rewrite Hmap. lia.
  - unfold others_of. rewrite map_map. cbn [fst]. intros Hin. apply list_elem_of_fmap in Hin as (v & E & Hin).
    apply list_elem_of_In, List.filter_In in Hin as [_ Hb]. rewrite bool_decide_eq_true_2 in Hb; done.
Qed.

Lemma insert_by_value_perm (x : A * Z) l : insert_by_value x l ≡ₚ x :: l.
Proof.
  induction l as [|y l IH]; simpl; [done|]. destruct (_ <=? _); [done|]. rewrite IH. apply Permutation_swap.
Qed.

Lemma sort_by_value_perm (l : list (A * Z)) : sort_by_value l ≡ₚ l.
Proof. unfold sort_by_value. induction l as [|x l IH]; simpl; [done|]. by rewrite insert_by_value_perm, IH. Qed.

Definition descending (l : list (A * Z)) : Prop := forall i j x y, (i <= j)%nat -> l !! i = Some x -> l !! j = Some y -> y.2 <= x.2.

Lemma descending_cons x l : descending (x :: l) <-> (forall y, y ∈ l -> y.2 <= x.2) /\ descending l.
Proof.
  split.
  - intros Hd. split.
    + intros y Hy. apply list_elem_of_lookup in Hy as [j Hj]. by apply (Hd 0%nat (S j) x y ltac:(lia)).
    + intros i j a b Hij Ha Hb. by apply (Hd (S i) (S j) a b ltac:(lia)).
  - intros [Hx Hd] [|i] [|j] a b Hij Ha Hb; simpl in *; simplify_eq; [lia| |lia|].
    + apply Hx. by eapply list_elem_of_lookup_2.
    + by apply (Hd i j a b ltac:(lia)).
Qed.

Lemma insert_by_value_descending x l : descending l -> descending (insert_by_value x l).
Proof.
  induction l as [|y l IH]; simpl; intros Hd.
  - apply descending_cons. split; [|done]. intros z Hz. by apply elem_of_nil in Hz.
  - pose proof (proj1 (descending_cons y l) Hd) as [Hy Hd']. destruct (Z.leb_spec y.2 x.2).
    + apply descending_cons. split; [|done]. intros z Hz. apply elem_of_cons in Hz as [->|Hz]; [lia|].
      specialize (Hy z Hz). lia.
    + apply descending_cons. split; [|by apply IH]. intros z Hz.
      rewrite insert_by_value_perm in Hz. apply elem_of_cons in Hz as [->|Hz]; [lia|by apply Hy].
Qed.

Lemma sort_by_value_descending (l : list (A * Z)) : descending (sort_by_value l).
Proof.
  unfold sort_by_value. induction l as [|x l IH]; simpl; [intros i j x y _ Hi; by rewrite lookup_nil in Hi|].
  by apply insert_by_value_descending.
Qed.

(** Clipping an exposure. No more than the maximum number of nominators is kept; those
    kept are nominators of the exposure and none that is dropped has more at stake than
    one that is kept. Own stake and total are as before. *)
Theorem clip_exposure_keeps_largest (max_len : Z) (e : Exposure A) :
  0 <= max_len ->
  let e' := clip_exposure max_len e in
  exp_total e' = exp_total e /\ exp_own e' = exp_own e
  /\ Z.of_nat (length (exp_others e')) = Z.min max_len (Z.of_nat (length (exp_others e)))
  /\ exists dropped, exp_others e ≡ₚ exp_others e' ++ dropped
     /\ forall x y, x ∈ exp_others e' -> y ∈ dropped -> y.2 <= x.2.
Proof.
  intros Hm. unfold clip_exposure. destruct (Z.ltb_spec max_len (Z.of_nat (length (exp_others e)))) as [Hlt|Hge];
    cbn [exp_total exp_own exp_others].
  - split_and!; try done.
    + rewrite length_take, (Permutation_length (sort_by_value_perm (exp_others e))). lia.
    + exists (drop (Z.to_nat max_len) (sort_by_value (exp_others e))). split.
      * by rewrite take_drop, sort_by_value_perm.
      * intros x y Hx Hy. apply list_elem_of_lookup in Hx as [i Hi], Hy as [j Hj].
        apply lookup_take_Some in Hi as [Hi Hlti]. rewrite lookup_drop in Hj.
        eapply (sort_by_value_descending _ i (Z.to_nat max_len + j)%nat); [lia|done|done].
  - split_and!; try done; [lia|]. exists []. rewrite app_nil_r. split; [done|].
    intros x y _ Hy. by apply elem_of_nil in Hy.
Qed.

End Exposures.

Section EraTheorems.
Context {L X AccountId Source Origin Perbill Percent : Type} `{Countable AccountId}.
Context `{!StakingCurrency L AccountId} `{!Session L AccountId} `{!FrameSystem L AccountId}.
Context `{!Perthing Perbill} `{!Perthing Percent}.
Variable cfg : Config L X AccountId Source Origin.

Abbreviation St := (State L AccountId Perbill Percent).

(** ** The era of an offence *)

(** An offence is charged to the era its session belongs to: the active one if it has
    started by then, otherwise the latest bonded era that had started by then. It is
    dropped exactly when every era still bonded started later. *)
Theorem offence_era_contains (active session : Z) (s : St) :
  let active_start := default 0 (eras_start_session_index (eras s) !! active) in
  match offence_era active session s with
  | Some e =>
      active_start <= session /\ e = active
      \/ session < active_start
         /\ exists before start after, bonded_eras (eras s) = before ++ (e, start) :: after
            /\ start <= session /\ forall e' start', (e', start') ∈ after -> session < start'
  | None => session < active_start /\ forall e' start', (e', start') ∈ bonded_eras (eras s) -> session < start'
  end.
Proof.
  unfold offence_era. cbv zeta.
  destruct (Z.leb_spec (default 0 (eras_start_session_index (eras s) !! active)) session) as [Hle|Hlt]; [by left|].
  assert (forall l : list (Z * Z),
    match List.find (fun e => e.2 <=? session) l with
    | Some x => exists l1 l2, l = l1 ++ x :: l2 /\ x.2 <= session /\ forall y, y ∈ l1 -> session < y.2
    | None => forall y, y ∈ l -> session < y.2
    end) as Hfind.
  { induction l as [|x l IH]; simpl; [intros y Hy; by apply elem_of_nil in Hy|].
    destruct (Z.leb_spec x.2 session) as [Hx|Hx].
    - exists [], l. split_and!; try done. intros y Hy. by apply elem_of_nil in Hy.
    - destruct (List.find _ l) as [z|].
      + destruct IH as (l1 & l2 & -> & Hz & Hall). exists (x :: l1), l2. split_and!; try done.
        intros y Hy. apply elem_of_cons in Hy as [->|Hy]; [lia|by apply Hall].
      + intros y Hy. apply elem_of_cons in Hy as [->|Hy]; [lia|by apply IH]. }
  specialize (Hfind (reverse (bonded_eras (eras s)))).
  destruct (List.find _ _) as [[e start]|]; simpl.
  - right. split; [done|]. destruct Hfind as (l1 & l2 & E & Hs & Hall). exists (reverse l2), start, (reverse l1).
    split_and!; [|done|].
    + rewrite <- (reverse_involutive (bonded_eras (eras s))), E, reverse_app, reverse_cons, <- app_assoc. done.
    + intros e' st Hin. rewrite elem_of_reverse in Hin. by apply (Hall (e', st)).
  - split; [done|]. intros e' st Hin. apply (Hfind (e', st)). by rewrite elem_of_reverse.
Qed.

(** ** Deferred slashes *)

(** Applying a slash touches neither the queue nor the roles nor the eras, and does not
    depend on the queue. *)
Lemma do_slash_frame who v acc (s : St) :
  slashes (do_slash who v acc s).2 = slashes s /\ roles (do_slash who v acc s).2 = roles s
  /\ eras (do_slash who v acc s).2 = eras s.
Proof.
  unfold do_slash. destruct acc as [a b]. destruct (_ !! who) as [ctl|]; [|done].
  destruct (_ !! ctl) as [l|]; [|done]. destruct (slash_ledger _ _ l) as [t l']. destruct (t =? 0); [done|].
  by destruct (sc_slash _ _ _) as [[im mi] c].
Qed.

Lemma do_slash_unapplied who v acc f g (s : St) :
  do_slash who v acc (set_unapplied f g s)
  = let '(acc', s') := do_slash who v acc s in (acc', set_unapplied f g s').
Proof.
  unfold do_slash. destruct acc as [a b]. simpl. destruct (_ !! who) as [ctl|]; [|done].
  destruct (_ !! ctl) as [l|]; [|done]. destruct (slash_ledger _ _ l) as [t l']. destruct (t =? 0); [done|].
  by destruct (sc_slash _ _ _) as [[im mi] c].
Qed.

Lemma do_slash_all_frame others : forall acc (s : St),
  let s' := (fold_left (fun '(acc, s) nominator => do_slash nominator.1 nominator.2 acc s) others (acc, s)).2 in
  slashes s' = slashes s /\ roles s' = roles s /\ eras s' = eras s.
Proof.
  induction others as [|o others IH]; intros acc s; simpl; [done|].
  pose proof (do_slash_frame o.1 o.2 acc s) as (E1 & E2 & E3). destruct (do_slash o.1 o.2 acc s) as [acc' s'].
  destruct (IH acc' s') as (F1 & F2 & F3). simpl in *. split_and!; congruence.
Qed.

Lemma do_slash_all_unapplied f g others : forall acc (s : St),
  fold_left (fun '(acc, s) nominator => do_slash nominator.1 nominator.2 acc s) others (acc, set_unapplied f g s)
  = let '(acc', s') := fold_left (fun '(acc, s) (nominator : AccountId * Z) => do_slash nominator.1 nominator.2 acc s) others (acc, s) in
    (acc', set_unapplied f g s').
Proof.
  induction others as [|o others IH]; intros acc s; simpl; [done|]. rewrite do_slash_unapplied.
  destruct (do_slash o.1 o.2 acc s) as [acc' s']. apply IH.
Qed.

Lemma pay_all_frame payments : forall s : St,
  let s' := fold_left (fun s (p : AccountId * Z) => over_chain (sc_resolve_creating p.1 p.2) s) payments s in
  slashes s' = slashes s /\ roles s' = roles s /\ eras s' = eras s.
Proof. induction payments as [|p ps IH]; intros s; simpl; [done|]. apply (IH (over_chain _ s)). Qed.

Lemma pay_all_unapplied f g payments : forall s : St,
  fold_left (fun s (p : AccountId * Z) => over_chain (sc_resolve_creating p.1 p.2) s) payments (set_unapplied f g s)
  = set_unapplied f g (fold_left (fun s p => over_chain (sc_resolve_creating p.1 p.2) s) payments s).
Proof. induction payments as [|p ps IH]; intros s; simpl; [done|]. apply (IH (over_chain _ s)). Qed.

Lemma apply_slash_frame u (s : St) :
  slashes (apply_slash u s) = slashes s /\ roles (apply_slash u s) = roles s /\ eras (apply_slash u s) = eras s.
Proof.
  unfold apply_slash, pay_reporters.
  pose proof (do_slash_frame (us_validator u) (us_own u) (us_payout u, 0) s) as (E1 & E2 & E3).
  destruct (do_slash _ _ _ s) as [acc s1].
  pose proof (do_slash_all_frame (us_others u) acc s1) as (F1 & F2 & F3).
  destruct (fold_left _ _ _) as [[r im] s2]. destruct (reporter_payments _ _ _) as [ps rest].
  pose proof (pay_all_frame ps s2) as (G1 & G2 & G3). simpl in *. split_and!; congruence.
Qed.

Lemma apply_slash_unapplied u f g (s : St) :
  apply_slash u (set_unapplied f g s) = set_unapplied f g (apply_slash u s).
Proof.
  unfold apply_slash, pay_reporters. rewrite do_slash_unapplied. destruct (do_slash _ _ _ s) as [acc s1].
  rewrite do_slash_all_unapplied. destruct (fold_left _ _ _) as [[r im] s2].
  destruct (reporter_payments _ _ _) as [ps rest]. by rewrite pay_all_unapplied.
Qed.

Definition apply_all (us : list (UnappliedSlash AccountId)) (s : St) : St :=
  fold_left (fun s u => apply_slash u s) us s.

Lemma apply_all_frame us : forall s,
  slashes (apply_all us s) = slashes s /\ roles (apply_all us s) = roles s /\ eras (apply_all us s) = eras s.
Proof.
  induction us as [|u us IH]; intros s; [done|]. destruct (apply_slash_frame u s) as (E1 & E2 & E3).
  destruct (IH (apply_slash u s)) as (F1 & F2 & F3). unfold apply_all in *. simpl. split_and!; congruence.
Qed.

Lemma apply_all_unapplied f g us : forall s, apply_all us (set_unapplied f g s) = set_unapplied f g (apply_all us s).
Proof.
  induction us as [|u us IH]; intros s; [done|]. unfold apply_all in *. simpl. by rewrite apply_slash_unapplied, IH.
Qed.

(** The queues of the due eras, one after the other. *)
Lemma apply_due_eras eras : forall s : St,
  NoDup eras ->
  let s' := fold_left (fun s era =>
              fold_left (fun s slash => apply_slash slash s) (unapplied_of s era)
                (set_unapplied (delete era) (fun e => e) s)) eras s in
  exists f, (forall m k, f m !! k = if bool_decide (k ∈ eras) then None else m !! k)
            /\ s' = set_unapplied f (fun e => e) (apply_all (concat (map (unapplied_of s) eras)) s).
Proof.
  induction eras as [|era eras IH]; intros s Hnd; simpl.
  { exists (fun m => m). split; [|by destruct s as [? ? ? []]]. done. }
  apply NoDup_cons in Hnd as [Hera Hnd].
  fold (apply_all (unapplied_of s era) (set_unapplied (delete era) (fun e => e) s)). rewrite apply_all_unapplied.
  destruct (IH (set_unapplied (delete era) (fun e => e) (apply_all (unapplied_of s era) s)) Hnd) as (f & Hf & ->).
  exists (fun m => f (delete era m)). split.
  - intros m k. rewrite Hf. destruct (decide (k = era)) as [->|Hne].
    + rewrite lookup_delete_eq, (bool_decide_eq_true_2 (_ ∈ _ :: _)) by left. by case_bool_decide.
    + rewrite lookup_delete_ne by done. destruct (decide (k ∈ eras)).
      * rewrite !bool_decide_eq_true_2; try done. by right.
      * rewrite !bool_decide_eq_false_2; try done. by intros [->|?]%elem_of_cons.
  - assert (map (unapplied_of (set_unapplied (delete era) (fun e => e) (apply_all (unapplied_of s era) s))) eras
            = map (unapplied_of s) eras) as ->.
    { apply map_ext_in. intros e He%list_elem_of_In. unfold unapplied_of at 1. simpl.
      destruct (apply_all_frame (unapplied_of s era) s) as (-> & _). rewrite lookup_delete_ne; [done|]. by intros ->. }
    rewrite apply_all_unapplied. unfold apply_all at 3. by rewrite fold_left_app.
Qed.

(** When an era starts, the deferred slashes that are due (those of the eras from the
    earliest unapplied one to the one that is the deferral back) are applied, each once,
    in the order of the eras and of their queues, and leave the queue; the other queues
    stay, and nothing is skipped the next time. *)
Theorem due_slashes_applied_once (active : Z) (earliest : Z) (s : St) :
  earliest_unapplied_slash (slashes s) = Some earliest ->
  let keep_from := sat_sub active (slash_defer_duration cfg) in
  let due := seqZ earliest (keep_from - earliest) in
  let s1 := apply_all (concat (map (unapplied_of s) due)) s in
  let s' := apply_unapplied_slashes cfg active s in
  bonds s' = bonds s1 /\ chain s' = chain s1 /\ events s' = events s1 /\ roles s' = roles s /\ eras s' = eras s
  /\ (forall era, unapplied_slashes (slashes s') !! era
                  = if bool_decide (earliest <= era < keep_from) then None else unapplied_slashes (slashes s) !! era)
  /\ earliest_unapplied_slash (slashes s') = Some (Z.max earliest keep_from).
Proof.
  intros He keep_from due s1 s'. unfold s', apply_unapplied_slashes. rewrite He. cbv zeta. fold keep_from. fold due.
  destruct (apply_due_eras due s (NoDup_seqZ _ _)) as (f & Hf & E). cbv zeta in E. rewrite E. fold s1.
  destruct (apply_all_frame (concat (map (unapplied_of s) due)) s) as (F1 & F2 & F3). fold s1 in F1, F2, F3.
  split_and!; try done. intros era. simpl. rewrite Hf, F1.
  assert (era ∈ due <-> earliest <= era < keep_from) as Hdue by (unfold due; rewrite elem_of_seqZ; lia).
  destruct (decide (era ∈ due)) as [Hin|Hin].
  - rewrite !bool_decide_eq_true_2; [done|by apply Hdue|done].
  - rewrite !bool_decide_eq_false_2; [done| |done]. intros Hx. by apply Hin, Hdue.
Qed.

(** ** Starting an era *)

Lemma apply_unapplied_frame active (s : St) :
  let s' := apply_unapplied_slashes cfg active s in
  eras s' = eras s /\ validator_slash_in_era (slashes s') = validator_slash_in_era (slashes s)
  /\ nominator_slash_in_era (slashes s') = nominator_slash_in_era (slashes s).
Proof.
  unfold apply_unapplied_slashes. destruct (earliest_unapplied_slash _) as [e|]; [|done]. cbv zeta.
  set (due := seqZ e _). destruct (apply_due_eras due s (NoDup_seqZ _ _)) as (f & _ & E). cbv zeta in E. rewrite E.
  destruct (apply_all_frame (concat (map (unapplied_of s) due)) s) as (F1 & F2 & F3). simpl. by rewrite F1, F3.
Qed.

Lemma clear_eras_frame eras_gone : forall s : St,
  let s' := fold_left (fun s (e : Z * Z) => clear_era_metadata e.1 s) eras_gone s in
  eras s' = eras s
  /\ (forall e who, validator_slash_in_era (slashes s') !! (e, who)
        = if bool_decide (e ∈ map fst eras_gone) then None else validator_slash_in_era (slashes s) !! (e, who))
  /\ (forall e who, nominator_slash_in_era (slashes s') !! (e, who)
        = if bool_decide (e ∈ map fst eras_gone) then None else nominator_slash_in_era (slashes s) !! (e, who)).
Proof.
  induction eras_gone as [|[g n] l IH]; intros s; cbn [fold_left map fst].
  - by split_and!.
  - destruct (IH (clear_era_metadata g s)) as (E1 & E2 & E3). split_and!; [done| |].
    + intros e who. rewrite E2. simpl. destruct (decide (e = g)) as [->|Hne].
      * rewrite (bool_decide_eq_true_2 (_ ∈ _ :: _)) by left. case_bool_decide; [done|].
        apply map_lookup_filter_None. right. intros x _ Hx. by apply Hx.
      * assert (filter (fun kv : (Z * AccountId) * (Perbill * Z) => kv.1.1 <> g) (validator_slash_in_era (slashes s)) !! (e, who)
                = validator_slash_in_era (slashes s) !! (e, who)) as ->.
        { destruct (validator_slash_in_era (slashes s) !! (e, who)) as [x|] eqn:Ex.
          - by apply map_lookup_filter_Some.
          - apply map_lookup_filter_None. by left. }
        destruct (decide (e ∈ map fst l)); [rewrite !bool_decide_eq_true_2|rewrite !bool_decide_eq_false_2];
          rewrite ?elem_of_cons; naive_solver.
    + intros e who. rewrite E3. simpl. destruct (decide (e = g)) as [->|Hne].
      * rewrite (bool_decide_eq_true_2 (_ ∈ _ :: _)) by left. case_bool_decide; [done|].
        apply map_lookup_filter_None. right. intros x _ Hx. by apply Hx.
      * assert (filter (fun kv : (Z * AccountId) * Z => kv.1.1 <> g) (nominator_slash_in_era (slashes s)) !! (e, who)
                = nominator_slash_in_era (slashes s) !! (e, who)) as ->.
        { destruct (nominator_slash_in_era (slashes s) !! (e, who)) as [x|] eqn:Ex.
          - by apply map_lookup_filter_Some.
          - apply map_lookup_filter_None. by left. }
        destruct (decide (e ∈ map fst l)); [rewrite !bool_decide_eq_true_2|rewrite !bool_decide_eq_false_2];
          rewrite ?elem_of_cons; naive_solver.
Qed.

Lemma take_while_below (l : list (Z * Z)) k : forall first n,
  0 <= n -> map fst l = seqZ first n ->
  Z.of_nat (length (take_while (fun e => e.1 <? k) l)) = Z.min (Z.max (k - first) 0) n.
Proof.
  induction l as [|x l IH]; intros first n Hn E; simpl.
  - assert (n = 0) as ->; [|lia]. apply (f_equal length) in E. rewrite length_seqZ in E. simpl in E. lia.
  - assert (0 < n) as Hpos.
    { apply (f_equal length) in E. rewrite length_seqZ in E. simpl in E. lia. }
    rewrite seqZ_cons in E by done. injection E as E1 E2.
    specialize (IH (Z.succ first) (Z.pred n) ltac:(lia) E2). destruct (Z.ltb_spec x.1 k); simpl; lia.
Qed.

Lemma drop_seqZ m first n : drop m (seqZ first n) = seqZ (first + Z.of_nat m) (n - Z.of_nat m).
Proof.
  revert first n. induction m as [|m IH]; intros first n; [by rewrite drop_0, Z.add_0_r, Z.sub_0_r|].
  destruct (decide (0 < n)).
  - rewrite seqZ_cons by done. cbn [drop]. rewrite IH. f_equal; lia.
  - rewrite !seqZ_nil by lia. done.
Qed.

(** The first era that is kept. *)
Definition first_kept (active first : Z) : Z :=
  if bonding_duration cfg <? active then Z.max first (active - bonding_duration cfg) else first.

Lemma prune_bonded_eras_spec active session first (bonded : list (Z * Z)) :
  0 <= bonding_duration cfg -> first <= active -> map fst bonded = seqZ first (active - first) ->
  let '(kept, pruned) := prune_bonded_eras cfg active session bonded in
  map fst kept = seqZ (first_kept active first) (active + 1 - first_kept active first)
  /\ last kept = Some (active, session)
  /\ map fst pruned = seqZ first (first_kept active first - first).
Proof.
  intros Hbd Hle E. unfold prune_bonded_eras. cbv zeta.
  assert (map fst (bonded ++ [(active, session)]) = seqZ first (active + 1 - first)) as E'.
  { rewrite map_app, E. replace (active + 1 - first) with ((active - first) + 1) by lia.
    rewrite seqZ_app by lia. f_equal. simpl. rewrite seqZ_cons by lia. simpl. f_equal; lia. }
  unfold first_kept. destruct (Z.ltb_spec (bonding_duration cfg) active) as [Hlt|Hge]; cbv iota beta.
  - set (k := active - bonding_duration cfg). set (l := bonded ++ [(active, session)]) in *.
    pose proof (take_while_below l k first (active + 1 - first) ltac:(lia) E') as En.
    set (n := length (take_while (fun e => e.1 <? k) l)) in *.
    assert (Z.of_nat n = Z.max first k - first) as En' by (unfold k in *; lia).
    split_and!.
    + rewrite <- skipn_map, E', drop_seqZ. f_equal; lia.
    + assert (length l = Z.to_nat (active + 1 - first)) as Hlen.
      { rewrite <- (length_map fst), E', length_seqZ. done. }
      assert (n < length l)%nat as Hn by (unfold k in *; lia).
      rewrite last_lookup, lookup_drop, length_drop.
      replace (n + pred (length l - n))%nat with (pred (length l)) by lia.
      rewrite <- last_lookup. unfold l. by rewrite last_snoc.
    + rewrite <- firstn_map, E'. rewrite <- En'. replace (active + 1 - first) with (Z.of_nat n + (active + 1 - first - Z.of_nat n)) by lia.
      rewrite seqZ_app by (unfold k in *; lia). rewrite take_app_length'; [done|]. rewrite length_seqZ. lia.
  - split_and!; [done|by rewrite last_snoc|]. rewrite seqZ_nil by lia. done.
Qed.

(** Starting an era. The eras bonded stay consecutive and end with the new active one,
    those further back than the bonding duration are dropped, and with them goes the
    record of who was slashed in them; the record of the eras kept is not touched. *)
Theorem start_era_window (session first : Z) (s : St) :
  let active := match active_era (eras s) with Some info => era_index info + 1 | None => 0 end in
  0 <= active <= umax 32 -> first <= active -> 0 <= bonding_duration cfg ->
  map fst (bonded_eras (eras s)) = seqZ first (active - first) ->
  let s' := start_era cfg session s in
  let first' := first_kept active first in
  active_era (eras s') = Some (MkActiveEra active None)
  /\ map fst (bonded_eras (eras s')) = seqZ first' (active + 1 - first')
  /\ last (bonded_eras (eras s')) = Some (active, session)
  /\ (forall era who, first <= era < first' ->
        validator_slash_in_era (slashes s') !! (era, who) = None
        /\ nominator_slash_in_era (slashes s') !! (era, who) = None)
  /\ (forall era who, first' <= era ->
        validator_slash_in_era (slashes s') !! (era, who) = validator_slash_in_era (slashes s) !! (era, who)
        /\ nominator_slash_in_era (slashes s') !! (era, who) = nominator_slash_in_era (slashes s) !! (era, who)).
Proof.
  intros active Ha Hle Hbd E s' first'. unfold s', start_era. cbv zeta.
  assert (match active_era (eras s) with Some info => wrap 32 (era_index info + 1) | None => 0 end = active) as ->.
  { unfold active in *. destruct (active_era (eras s)); [|done]. apply wrap_exact. unfold in_uint. lia. }
  clearbody active. pose proof (prune_bonded_eras_spec active session first _ Hbd Hle E) as Hp.
  change (bonded_eras (eras (set_active_era (Some (MkActiveEra active None)) s))) with (bonded_eras (eras s)).
  destruct (prune_bonded_eras cfg active session (bonded_eras (eras s))) as [kept pruned].
  destruct Hp as (Hk & Hlast & Hpr).
  destruct (clear_eras_frame pruned (set_active_era (Some (MkActiveEra active None)) s)) as (E1 & E2 & E3).
  set (s2 := fold_left _ pruned _) in *. clearbody s2.
  match goal with |- context [set_bonded_eras kept ?t] => set (s3 := t) end.
  assert (eras s3 = eras s2 /\ slashes s3 = slashes s2) as [F1 F2].
  { unfold s3. destruct (_ <? _); [|done]. by destruct (head kept) as [[? ?]|]. }
  clearbody s3. destruct (apply_unapplied_frame active (set_bonded_eras kept s3)) as (G1 & G2 & G3).
  rewrite G1, G2, G3. simpl. rewrite F1, F2, E1. split_and!; try done; intros era who Hera; rewrite E2, E3; simpl.
  - rewrite !bool_decide_eq_true_2; [done|..]; rewrite Hpr, elem_of_seqZ; fold first'; lia.
  - rewrite !bool_decide_eq_false_2; [done|..]; rewrite Hpr, elem_of_seqZ; fold first'; lia.
Qed.

(** ** Planning an era *)

Lemma store_fold era exposures : forall total (s : St),
  let '(total', s') :=
    fold_left (fun '(total_stake, s) '(stash, exposure) =>
      (sat_add 128 total_stake (exp_total exposure),
       set_stakers <[(era, stash) := exposure]>
         <[(era, stash) := clip_exposure (max_nominator_rewarded_per_validator cfg) exposure]> s)) exposures (total, s) in
  (0 <= total -> (forall p, p ∈ exposures -> 0 <= exp_total p.2) ->
     total <= umax 128 -> total' = Z.min (total + zsum (fun p => exp_total p.2) exposures) (umax 128))
  /\ roles s' = roles s
  /\ (exists f g, eras s' = eras (set_stakers f g s)
      /\ (forall m k, k ∉ map (pair era) (map fst exposures) -> f m !! k = m !! k /\ g m !! k = m !! k)
      /\ (NoDup (map fst exposures) -> forall m who e, (who, e) ∈ exposures ->
          f m !! (era, who) = Some e
          /\ g m !! (era, who) = Some (clip_exposure (max_nominator_rewarded_per_validator cfg) e))).
Proof.
  induction exposures as [|[w x] l IH]; intros total s; cbn [fold_left].
  { split_and!; [simpl; lia|done|]. exists (fun m => m), (fun m => m). split_and!; [by destruct s as [? ? [] ? ? ?]|done|].
    intros _ m who e Hin. by apply elem_of_nil in Hin. }
  match goal with |- context [fold_left _ l (?t0, ?s0)] => specialize (IH t0 s0) end.
  destruct (fold_left _ l _) as [total' s']. destruct IH as (IHt & IHr & f & g & Ee & Hfar & Hin). split_and!.
  - intros H0 Hall Hmax. pose proof (Hall (w, x) ltac:(left)) as Hx. simpl in *.
    assert (0 <= zsum (fun p : AccountId * Exposure AccountId => exp_total p.2) l) as Hz
      by (apply zsum_nonneg; intros p Hp; apply Hall; by right).
    pose proof (sat_add_range 128 total (exp_total x) ltac:(lia) H0 Hx) as [R1 R2].
    rewrite IHt; [unfold sat_add in *; lia|done|intros p Hp; apply Hall; by right|done].
  - by rewrite IHr.
  - exists (fun m => f (<[(era, w) := x]> m)),
      (fun m => g (<[(era, w) := clip_exposure (max_nominator_rewarded_per_validator cfg) x]> m)). split_and!; [done| |].
    + intros m k Hk. simpl in Hk. apply not_elem_of_cons in Hk as [Hk1 Hk2].
      destruct (Hfar (<[(era, w) := x]> m) k Hk2) as [-> _].
      destruct (Hfar (<[(era, w) := clip_exposure (max_nominator_rewarded_per_validator cfg) x]> m) k Hk2) as [_ ->].
      by rewrite !lookup_insert_ne by done.
    + intros Hnd m who e He. simpl in Hnd. apply NoDup_cons in Hnd as [Hw Hnd].
      apply elem_of_cons in He as [[= -> ->]|He]; [|split; by apply Hin].
      assert ((era, w) ∉ map (pair era) (map fst l)) as Hne.
      { intros Hx. apply list_elem_of_fmap in Hx as (y & [= <-] & Hy). done. }
      destruct (Hfar (<[(era, w) := x]> m) _ Hne) as [-> _].
      destruct (Hfar (<[(era, w) := clip_exposure (max_nominator_rewarded_per_validator cfg) x]> m) _ Hne) as [_ ->].
      by rewrite !lookup_insert_eq.
Qed.

Lemma prefs_fold era stashes : forall s : St,
  let s' := fold_left (fun s stash => set_prefs <[(era, stash) := prefs_of s stash]> (fun m => m) s) stashes s in
  roles s' = roles s
  /\ exists f, eras s' = eras (set_prefs f (fun m => m) s)
     /\ (forall m k, k ∉ map (pair era) stashes -> f m !! k = m !! k)
     /\ forall m who, who ∈ stashes -> f m !! (era, who) = Some (prefs_of s who).
Proof.
  induction stashes as [|w l IH]; intros s; cbn [fold_left].
  { split; [done|]. exists (fun m => m). split_and!; [by destruct s as [? ? [] ? ? ?]|done|].
    intros m who Hin. by apply elem_of_nil in Hin. }
  match goal with |- context [fold_left _ l ?t] => specialize (IH t); destruct IH as (IHr & f & Ee & Hfar & Hin) end.
  split; [by rewrite IHr|]. exists (fun m => f (<[(era, w) := prefs_of s w]> m)). split_and!; [by rewrite Ee| |].
  - intros m k Hk. simpl in Hk. apply not_elem_of_cons in Hk as [Hk1 Hk2]. rewrite Hfar by done.
    by rewrite lookup_insert_ne by done.
  - intros m who Hw. destruct (decide (who ∈ l)) as [Hl|Hl]; [by apply Hin|].
    apply elem_of_cons in Hw as [->|Hw]; [|done]. rewrite Hfar; [apply lookup_insert_eq|].
    intros Hx. apply list_elem_of_fmap in Hx as (y & [= <-] & Hy). done.
Qed.

(** The storage of the eras after the stakers of [era] are recorded. *)
Lemma store_stakers_info_spec exposures era (s : St) :
  let '(elected, s') := store_stakers_info cfg exposures era s in
  elected = map fst exposures /\ roles s' = roles s
  /\ current_era (eras s') = current_era (eras s) /\ force_era (eras s') = force_era (eras s)
  /\ eras_start_session_index (eras s') = eras_start_session_index (eras s)
  /\ ((forall p, p ∈ exposures -> 0 <= exp_total p.2) ->
      eras_total_stake (eras s') !! era = Some (Z.min (zsum (fun p => exp_total p.2) exposures) (umax 128)))
  /\ (forall e who, e <> era -> eras_stakers (eras s') !! (e, who) = eras_stakers (eras s) !! (e, who)
      /\ eras_validator_prefs (eras s') !! (e, who) = eras_validator_prefs (eras s) !! (e, who))
  /\ (NoDup (map fst exposures) -> forall who e, (who, e) ∈ exposures ->
      eras_stakers (eras s') !! (era, who) = Some e
      /\ eras_stakers_clipped (eras s') !! (era, who)
         = Some (clip_exposure (max_nominator_rewarded_per_validator cfg) e)
      /\ eras_validator_prefs (eras s') !! (era, who) = Some (prefs_of s who)).
Proof.
  unfold store_stakers_info. pose proof (store_fold era exposures 0 s) as Hst.
  destruct (fold_left _ exposures (0, s)) as [total s1]. destruct Hst as (Ht & Er1 & f & g & Ee1 & Hfar & Hin).
  cbv zeta. set (s2 := set_prefs (fun m => m) <[era := total]> s1).
  destruct (prefs_fold era (map fst exposures) s2) as (Er2 & h & Ee2 & Hpfar & Hpin). cbv zeta in Er2, Ee2.
  set (s3 := fold_left _ (map fst exposures) s2) in *. clearbody s3. rewrite Ee2, Er2. simpl. rewrite Ee1, Er1. simpl.
  assert (forall e who, e <> era -> (e, who) ∉ map (pair era) (map fst exposures)) as Hne.
  { intros e who He Hx. apply list_elem_of_fmap in Hx as (y & [= -> _] & _). done. }
  split_and!; try done.
  - intros Hall. rewrite lookup_insert_eq. f_equal. apply Ht; [lia|done|by vm_compute].
  - intros e who He. split; [apply (proj1 (Hfar _ _ (Hne e who He)))|apply (Hpfar _ _ (Hne e who He))].
  - intros Hnd who e He. destruct (Hin Hnd (eras_stakers (eras s)) who e He) as [H1 _].
    destruct (Hin Hnd (eras_stakers_clipped (eras s)) who e He) as [_ H2]. split_and!; [done|done|].
    rewrite Hpin by (apply list_elem_of_fmap; by exists (who, e)). unfold prefs_of, s2. simpl. by rewrite Er1.
Qed.

(** Planning an era. The next era becomes the current one and remembers the session it
    is to start in; every elected validator is recorded for it with its exposure, the
    clipped exposure and its preferences, and the total at stake; the era that leaves
    the history is forgotten, and no other era's stakers change. *)
Theorem planned_era_recorded (session : Z) (exposures : list (AccountId * Exposure AccountId)) (s : St) :
  let era := match current_era (eras s) with Some e => e + 1 | None => 0 end in
  0 <= era <= umax 32 -> 0 <= history_depth (eras s) < umax 32 ->
  NoDup (map fst exposures) -> (forall p, p ∈ exposures -> 0 <= exp_total p.2) ->
  let '(elected, s') := trigger_new_era cfg session exposures s in
  elected = map fst exposures /\ current_era (eras s') = Some era
  /\ eras_start_session_index (eras s') !! era = Some session
  /\ eras_total_stake (eras s') !! era = Some (Z.min (zsum (fun p => exp_total p.2) exposures) (umax 128))
  /\ (forall who e, (who, e) ∈ exposures ->
      eras_stakers (eras s') !! (era, who) = Some e
      /\ eras_stakers_clipped (eras s') !! (era, who)
         = Some (clip_exposure (max_nominator_rewarded_per_validator cfg) e)
      /\ eras_validator_prefs (eras s') !! (era, who) = Some (prefs_of s who))
  /\ (forall e who, 0 <= e -> e <> era ->
      eras_stakers (eras s') !! (e, who)
      = if e =? era - history_depth (eras s) - 1 then None else eras_stakers (eras s) !! (e, who)).
Proof.
  intros era Hera Hd Hnd Hall. unfold trigger_new_era. cbv zeta.
  assert (match current_era (eras s) with Some e => wrap 32 (e + 1) | None => 0 end = era) as ->.
  { unfold era in *. destruct (current_era (eras s)); [|done]. by apply wrap_exact. }
  clearbody era. change (history_depth (eras (set_current_era era session s))) with (history_depth (eras s)).
  rewrite (wrap_exact 32 (history_depth (eras s) + 1)) by (unfold in_uint; lia).
  match goal with |- context [store_stakers_info cfg exposures era ?t] =>
    set (s1 := t); pose proof (store_stakers_info_spec exposures era s1) as Hst;
    destruct (store_stakers_info cfg exposures era s1) as [elected s'] end.
  destruct Hst as (-> & _ & Hce & _ & Hss & Hts & Hold & Hnew).
  assert (current_era (eras s1) = Some era /\ eras_start_session_index (eras s1) !! era = Some session
    /\ roles s1 = roles s
    /\ forall e who, 0 <= e -> eras_stakers (eras s1) !! (e, who)
       = if e =? era - history_depth (eras s) - 1 then None else eras_stakers (eras s) !! (e, who)) as (F1 & F2 & F3 & F4).
  { unfold s1, checked_sub. destruct (Z.leb_spec (history_depth (eras s) + 1) era) as [Hle|Hgt]; simpl; split_and!; try done.
    - rewrite lookup_delete_ne by lia. apply lookup_insert_eq.
    - intros e who He. destruct (Z.eqb_spec e (era - history_depth (eras s) - 1)) as [->|Hne].
      + apply map_lookup_filter_None. right. intros x _ Hx. simpl in Hx. lia.
      + destruct (eras_stakers (eras s) !! (e, who)) as [x|] eqn:Ex.
        * apply map_lookup_filter_Some. split; [done|]. simpl. lia.
        * apply map_lookup_filter_None. by left.
    - apply lookup_insert_eq.
    - intros e who He. destruct (Z.eqb_spec e (era - history_depth (eras s) - 1)); [lia|done]. }
  split_and!; [done|by rewrite Hce|by rewrite Hss|by apply Hts| |].
  - intros who e He. destruct (Hnew Hnd who e He) as (H1 & H2 & H3). split_and!; [done|done|].
    rewrite H3. unfold prefs_of. by rewrite F3.
  - intros e who H0 He. destruct (Hold e who He) as [-> _]. by apply F4.
Qed.

Lemma trigger_new_era_frame session exposures (s : St) :
  let '(elected, s') := trigger_new_era cfg session exposures s in
  elected = map fst exposures /\ force_era (eras s') = force_era (eras s)
  /\ current_era (eras s') = Some (match current_era (eras s) with Some e => wrap 32 (e + 1) | None => 0 end).
Proof.
  unfold trigger_new_era. cbv zeta.
  match goal with |- context [store_stakers_info cfg exposures ?era ?t] =>
    pose proof (store_stakers_info_spec exposures era t) as Hst;
    destruct (store_stakers_info cfg exposures era t) as [elected s'] end.
  destruct Hst as (-> & _ & Hce & Hf & _). rewrite Hce, Hf. split; [done|].
  by destruct (checked_sub _ _).
Qed.

(** When a session plans a new era. Only if the era has lasted its sessions or a new one
    is forced, and only with at least the minimum number of validators; the current era
    then advances by one and a forcing for one era is spent. Otherwise the current era
    stays, and so does the forcing. *)
Theorem new_session_plans (session : Z) (genesis : bool) (era : Z) (s : St) :
  current_era (eras s) = Some era ->
  let started := default 0 (eras_start_session_index (eras s) !! era) in
  let forcing := force_era (eras s) in
  let '(validators, s') := new_session cfg session genesis s in
  match validators with
  | Some elected =>
      (forcing = ForceNew \/ forcing = ForceAlways
       \/ forcing = NotForcing /\ sessions_per_era cfg <= Z.max 0 (session - started))
      /\ Z.max (minimum_validator_count (eras s)) 1 <= wrap 32 (Z.of_nat (length elected))
      /\ current_era (eras s') = Some (wrap 32 (era + 1))
      /\ force_era (eras s') = (match forcing with ForceNew => NotForcing | f => f end)
  | None => current_era (eras s') = Some era /\ force_era (eras s') = forcing
  end.
Proof.
  intros Hce started forcing. unfold new_session. rewrite Hce. cbv zeta. fold started forcing.
  assert (default 0 (checked_sub session started) = Z.max 0 (session - started)) as Elen.
  { unfold checked_sub. destruct (Z.leb_spec started session); simpl; unfold id; lia. }
  rewrite Elen. clear Elen.
  match goal with |- context [if ?b then _ else _] => destruct b eqn:Hgo end; [|done].
  assert (forcing = ForceNew \/ forcing = ForceAlways
    \/ forcing = NotForcing /\ sessions_per_era cfg <= Z.max 0 (session - started)) as Hwhy.
  { clearbody forcing. destruct forcing; try discriminate; bool_inv; auto. }
  unfold try_trigger_new_era. destruct (elect cfg genesis (chain s)) as [[supports|] c]; [|done]. cbv zeta.
  set (s0 := over_chain (fun _ => c) s). set (exposures := collect_exposures cfg supports s0).
  destruct (Z.ltb_spec (wrap 32 (Z.of_nat (length exposures))) (Z.max (minimum_validator_count (eras s0)) 1)) as [Hlt|Hge].
  { change (current_era (eras s0)) with (current_era (eras s)). by rewrite Hce. }
  pose proof (trigger_new_era_frame session exposures (deposit_event StakingElection s0)) as Hf.
  destruct (trigger_new_era cfg session exposures (deposit_event StakingElection s0)) as [elected s'].
  destruct Hf as (-> & Hforce & Hcur). change (force_era (eras s') = forcing) in Hforce.
  change (current_era (eras (deposit_event StakingElection s0))) with (current_era (eras s)) in Hcur.
  rewrite Hce in Hcur. rewrite Hforce. rewrite length_map. split_and!; [done|done| |]; by destruct forcing.
Qed.

End EraTheorems.
