(* ===== verification/StakingGenesis.v ===== *)
(** * The genesis of staking

    [GenesisBuild for GenesisConfig] of lib-serml/serp/serp-staking/src/lib.rs: the values
    that are put, and the stakers that are bonded and given a role. Two values that no
    modelled operation reads, the canceled payout and the version of the storage, are left
    out. A genesis that does not panic leaves a storage that satisfies the invariant of
    staking, and one whose stakers can pay bonds all of them. *)

From S2P Require Import Prelude Externals StakingLedger SlashingSpans Staking Slashing StakingCalls StakingInvariant StakingSafety StakingTheorems.

Inductive StakerStatus (AccountId : Type) : Type := Idle | StatusValidator | StatusNominator (votes : list AccountId).

Arguments Idle {AccountId}.
Arguments StatusValidator {AccountId}.
Arguments StatusNominator {AccountId}.

Record GenesisConfig (AccountId Perbill : Type) : Type := MkGenesis {
  genesis_history_depth : Z;
  genesis_validator_count : Z;
  genesis_minimum_validator_count : Z;
  genesis_invulnerables : list AccountId;
  genesis_force_era : Forcing;
  genesis_slash_reward_fraction : Perbill;
  stakers : list (AccountId * AccountId * Z * StakerStatus AccountId);
  genesis_min_nominator_bond : Z;
  genesis_min_validator_bond : Z
}.

Arguments MkGenesis {AccountId Perbill}.
Arguments genesis_history_depth {AccountId Perbill}.
Arguments genesis_validator_count {AccountId Perbill}.
Arguments genesis_minimum_validator_count {AccountId Perbill}.
Arguments genesis_invulnerables {AccountId Perbill}.
Arguments genesis_force_era {AccountId Perbill}.
Arguments genesis_slash_reward_fraction {AccountId Perbill}.
Arguments stakers {AccountId Perbill}.
Arguments genesis_min_nominator_bond {AccountId Perbill}.
Arguments genesis_min_validator_bond {AccountId Perbill}.

Section Genesis.
Context {L X AccountId Source Origin Perbill Percent : Type} `{Countable AccountId}.
Context `{!StakingCurrency L AccountId} `{!Session L AccountId} `{!FrameSystem L AccountId}.
Context `{!Perthing Perbill} `{!Perthing Percent}.
Variable cfg : Config L X AccountId Source Origin.

Abbreviation St := (State L AccountId Perbill Percent).
Abbreviation Run := (M (State L AccountId Perbill Percent) (StakingError + X)).

(** [T::Origin::from(Some(who).into())] and [T::Lookup::unlookup]. *)
Variable signed : AccountId -> Origin.
Variable unlookup : AccountId -> Source.

(** The role of a staker, taken by its controller. *)
Definition take_role (controller : AccountId) (status : StakerStatus AccountId) : Run unit :=
  match status with
  | StatusValidator => validate cfg (signed controller) (MkPrefs pt_zero false)
  | StatusNominator votes => nominate cfg (signed controller) (map unlookup votes)
  | Idle => ret tt
  end.

Definition add_staker (staker : AccountId * AccountId * Z * StakerStatus AccountId) : Run unit :=
  let '(stash, controller, balance, status) := staker in
  let! free := gets (fun s => sc_free_balance stash (chain s)) in
  do! (if balance <=? free then ret tt else panic) in
  do! try_run (bond cfg (signed stash) (unlookup controller) balance Staked) in
  do! try_run (take_role controller status) in
  ret tt.

(** The values put before the stakers. *)
Definition put_genesis (g : GenesisConfig AccountId Perbill) (s : St) : St :=
  over_slashes (fun x => MkSlashes (genesis_invulnerables g) (genesis_slash_reward_fraction g) (unapplied_slashes x)
    (earliest_unapplied_slash x) (validator_slash_in_era x) (nominator_slash_in_era x) (slashing_spans x) (span_slash x))
  (over_roles (fun r => MkRoles (validators r) (counter_for_validators r) (nominators r) (counter_for_nominators r)
    (genesis_min_nominator_bond g) (genesis_min_validator_bond g) (max_nominators_count r) (max_validators_count r)
    (chill_threshold r))
  (over_eras (fun e => MkEras (genesis_history_depth g) (genesis_validator_count g) (genesis_minimum_validator_count g)
    (current_era e) (active_era e) (genesis_force_era g) (bonded_eras e) (eras_start_session_index e) (eras_stakers e)
    (eras_stakers_clipped e) (eras_validator_prefs e) (eras_validator_reward e) (eras_reward_points e)
    (eras_total_stake e)) s)).

Definition build (g : GenesisConfig AccountId Perbill) : Run unit :=
  do! modify (put_genesis g) in
  for_each add_staker (stakers g).

(** ** The invariant *)

Context `{!StakingCurrencyLaws L AccountId}.

Lemma put_genesis_nothing g (s : St) : nothing_staked s -> nothing_staked (put_genesis g s).
Proof. by intros (? & ? & ? & ? & ? & ? & ? & ?). Qed.

(** How many have a role. *)
Definition crowd (s : St) : Z := Z.of_nat (size (validators (roles s))) + Z.of_nat (size (nominators (roles s))).

Lemma crowd_room (s : St) : crowd s < umax 32 -> room s.
Proof. unfold crowd, room. lia. Qed.

Lemma size_insert_le {V : Type} (k : AccountId) (v : V) (m : gmap AccountId V) : Z.of_nat (size (<[k := v]> m)) <= Z.of_nat (size m) + 1.
Proof. rewrite map_size_insert. destruct (m !! k); simpl; lia. Qed.

Lemma size_delete_le {V : Type} (k : AccountId) (m : gmap AccountId V) : Z.of_nat (size (delete k m)) <= Z.of_nat (size m).
Proof. rewrite map_size_delete. destruct (m !! k); simpl; lia. Qed.

(** A run that gives at most one more role. *)
Definition grows (n : Z) (m : Run unit) : Prop := forall s u s', m s = (Ok u, s') -> crowd s' <= crowd s + n.

Lemma bond_grows o c v p : grows 0 (bond cfg o c v p).
Proof. intros s u s' Hrun. unfold bond, ensure_signed, lookup_account in Hrun. cbv zeta in Hrun. run_inv Hrun. unfold crowd. simpl. lia. Qed.

Lemma remove_crowd who (s : St) :
  crowd (do_remove_nominator who s).2 <= crowd s /\ crowd (do_remove_validator who s).2 <= crowd s.
Proof.
  unfold do_remove_nominator, do_remove_validator, crowd. split; (case_match; [|done]); simpl.
  - pose proof (size_delete_le who (nominators (roles s))). lia.
  - pose proof (size_delete_le who (validators (roles s))). lia.
Qed.

Lemma take_role_grows c st : grows 1 (take_role c st).
Proof.
  intros s u s' Hrun. destruct st as [| |votes]; simpl in Hrun.
  - run_inv Hrun. lia.
  - unfold validate, ensure_signed in Hrun. run_inv Hrun. ledger_inv l El.
    destruct (remove_crowd (stash l) s) as [Hr _]. revert Hr. generalize (do_remove_nominator (stash l) s).2. intros s1 Hr.
    unfold crowd in *. simpl. pose proof (size_insert_le (stash l) (MkPrefs (pt_zero : Perbill) false) (validators (roles s1))). lia.
  - unfold nominate, ensure_signed in Hrun. run_inv Hrun. ledger_inv l El.
    destruct (remove_crowd (stash l) s) as [_ Hr]. revert Hr. generalize (do_remove_validator (stash l) s).2. intros s1 Hr.
    unfold crowd in *. simpl.
    match goal with |- context [<[stash l := ?n]> _] => pose proof (size_insert_le (stash l) n (nominators (roles s1))) end. lia.
Qed.

Lemma take_role_clean c st : clean (take_role c st).
Proof.
  destruct st as [| |votes]; [by intros s r s' [= _ <-]|apply (dispatch_clean cfg _ (CValidate _))|apply (dispatch_clean cfg _ (CNominate _))].
Qed.

Lemma take_role_keeps_inv c st : keeps_inv (take_role c st).
Proof.
  destruct st as [| |votes]; [by intros s u s' [= _ <-]|apply validate_keeps_inv|apply nominate_keeps_inv].
Qed.

(** What a call whose result is dropped does: all or nothing. *)
Lemma dropped n (m : Run unit) s o s' :
  clean m -> keeps_inv m -> grows n m -> 0 <= n -> try_run m s = (Ok o, s') -> crowd s < umax 32 -> staking_inv s ->
  staking_inv s' /\ crowd s' <= crowd s + n.
Proof.
  intros Hc Hk Hg Hn Hrun Hr Hs. unfold try_run in Hrun. destruct (m s) as [[u|e|] s1] eqn:E; [| |done]; injection Hrun as <- <-.
  - split; [by eapply Hk; [|by apply crowd_room|]|by eapply Hg].
  - apply Hc in E as ->; [split; [done|lia]|done].
Qed.

Lemma add_staker_inv stash controller balance status s u s' :
  in_uint 128 balance -> add_staker (stash, controller, balance, status) s = (Ok u, s') -> crowd s < umax 32 -> staking_inv s ->
  staking_inv s' /\ crowd s' <= crowd s + 1.
Proof.
  intros Hb Hrun Hr Hs. unfold add_staker in Hrun. run_inv Hrun.
  assert (x0 = s) as -> by (destruct (balance <=? _); [by injection R as _ ->|done]).
  destruct (dropped 0 (bond cfg (signed stash) (unlookup controller) balance Staked) s x1 x2) as [Hs1 Hc1]; try done;
    [apply (dispatch_clean cfg _ (CBond _ _ _))|by apply bond_keeps_inv|apply bond_grows|].
  destruct (dropped 1 (take_role controller status) x2 x3 x4) as [Hs2 Hc2]; try done;
    [apply take_role_clean|apply take_role_keeps_inv|apply take_role_grows|lia|]. split; [done|lia].
Qed.

Lemma add_stakers_inv l : forall s u s',
  Forall (fun staker => in_uint 128 staker.1.2) l -> crowd s + Z.of_nat (length l) <= umax 32 -> staking_inv s ->
  for_each add_staker l s = (Ok u, s') -> staking_inv s'.
Proof.
  induction l as [|[[[stash controller] balance] status] l IH]; intros s u s' Hl Hr Hs Hrun.
  - by injection Hrun as _ <-.
  - apply Forall_cons in Hl as [Hb Hl]. cbn [length] in Hr.
    change (bind (add_staker (stash, controller, balance, status)) (fun _ => for_each add_staker l) s = (Ok u, s')) in Hrun.
    apply bind_ok in Hrun as (u1 & s1 & Hadd & Hrun).
    destruct (add_staker_inv stash controller balance status s u1 s1) as [Hs1 Hc]; [done..|lia|done|].
    apply (IH s1 u s' Hl); [lia|done|done].
Qed.

(** C37: a genesis that does not panic, whatever its stakers and whether they are bonded or not,
    leaves a storage that satisfies the invariant of staking: the reachable storages of a
    chain begin there. *)
Theorem genesis_staking_inv g s s' :
  nothing_staked s -> Forall (fun staker => in_uint 128 staker.1.2) (stakers g) -> Z.of_nat (length (stakers g)) <= umax 32 ->
  build g s = (Ok tt, s') -> staking_inv s'.
Proof.
  intros Hs Hb Hlen Hrun. apply (put_genesis_nothing g) in Hs. unfold build in Hrun.
  apply bind_ok in Hrun as (u & s1 & Hput & Hrun). injection Hput as _ <-.
  apply (add_stakers_inv _ _ _ _ Hb) in Hrun; [done| |by apply nothing_staked_inv].
  destruct Hs as (_ & Hv & Hn & _). unfold crowd. by rewrite Hv, Hn, !map_size_empty.
Qed.

(** ** Stakers that can pay *)

Hypothesis signed_by_signed : forall who, signed_by cfg (signed who) = Some who.
Hypothesis lookup_unlookup : forall who, lookup cfg (unlookup who) = Some who.

(** An account with a balance has a provider, so that a consumer can be added; consumers and
    locks leave the free balance. *)
Hypothesis funded_provides : forall who l, 0 < sc_free_balance who l -> is_Some (inc_consumers who l).
Hypothesis consumers_free : forall who l l', inc_consumers who l = Some l' -> forall w, sc_free_balance w l' = sc_free_balance w l.
Hypothesis locks_free : forall who v l w, sc_free_balance w (sc_set_lock who v l) = sc_free_balance w l.

(** The first ledger of a staker. *)
Definition first_ledger (s : St) (stash : AccountId) (balance : Z) : StakingLedger AccountId :=
  let era := default 0 (current_era (eras s)) in
  let last := sat_sub era (history_depth (eras s)) in
  MkLedger stash balance balance [] (seqZ last (era - last)).

Definition no_prefs : ValidatorPrefs Perbill := MkPrefs pt_zero false.

(** What one validator needs, and what becomes of it. *)
Record can_bond (s : St) (stash controller : AccountId) (balance : Z) : Prop := {
  not_bonded : bonded (bonds s) !! stash = None;
  not_paired : ledger (bonds s) !! controller = None;
  bond_positive : 0 < balance;
  bond_enough : sc_minimum_balance <= balance;
  bond_paid : balance <= sc_free_balance stash (chain s);
  bond_validates : min_validator_bond (roles s) <= balance
}.

Record open_to_validators (s : St) : Prop := {
  no_nominators : nominators (roles s) = ∅;
  no_limit : max_validators_count (roles s) = None
}.

Record bonded_from (s s' : St) (stash controller : AccountId) (balance : Z) : Prop := {
  bonded_after : bonded (bonds s') = <[stash := controller]> (bonded (bonds s));
  ledger_after : ledger (bonds s') = <[controller := first_ledger s stash balance]> (ledger (bonds s));
  validators_after : validators (roles s') = <[stash := no_prefs]> (validators (roles s));
  open_after : open_to_validators s';
  bond_limit_after : min_validator_bond (roles s') = min_validator_bond (roles s);
  eras_after : eras s' = eras s;
  free_after who : sc_free_balance who (chain s') = sc_free_balance who (chain s)
}.

Lemma bond_runs s stash controller balance :
  can_bond s stash controller balance ->
  exists s', bond cfg (signed stash) (unlookup controller) balance Staked s = (Ok tt, s')
    /\ bonded (bonds s') = <[stash := controller]> (bonded (bonds s))
    /\ ledger (bonds s') = <[controller := first_ledger s stash balance]> (ledger (bonds s))
    /\ roles s' = roles s /\ eras s' = eras s /\ forall who, sc_free_balance who (chain s') = sc_free_balance who (chain s).
Proof.
  intros [Hb Hp Hpos Hmin Hpaid _]. destruct (funded_provides stash (chain s)) as [c Hc]; [lia|].
  assert (Z.min balance (sc_free_balance stash c) = balance) as Hv by (rewrite (consumers_free _ _ _ Hc); lia).
  unfold bond, ensure_signed, lookup_account. rewrite signed_by_signed, lookup_unlookup.
  unfold bind, ok_or, get, ensure. simpl. rewrite Hb. simpl. rewrite Hp. simpl.
  destruct (Z.leb_spec sc_minimum_balance balance); [|lia]. rewrite Hc. simpl. rewrite Hv. eexists. split; [reflexivity|].
  unfold first_ledger. simpl. split_and!; try done. intros who. by rewrite locks_free, (consumers_free _ _ _ Hc).
Qed.

Lemma add_validator_runs s stash controller balance :
  can_bond s stash controller balance -> open_to_validators s ->
  exists s', add_staker (stash, controller, balance, StatusValidator) s = (Ok tt, s') /\ bonded_from s s' stash controller balance.
Proof.
  intros Hcan [Hn Hmax]. destruct (bond_runs s stash controller balance Hcan) as (s1 & Hbond & Hb & Hl & Hr & He & Hf).
  destruct Hcan as [_ _ _ _ Hpaid Hvalid].
  assert (validate cfg (signed controller) no_prefs s1 = (Ok tt, do_add_validator stash no_prefs s1)) as Hval.
  { unfold validate, ensure_signed, controller_ledger. rewrite signed_by_signed. unfold bind, ok_or, gets, get, ensure. simpl.
    rewrite Hl, lookup_insert_eq. simpl. rewrite Hr. destruct (Z.leb_spec (min_validator_bond (roles s)) balance); [|lia].
    rewrite Hmax, orb_true_r. unfold do_remove_nominator, is_nominator, ret. by rewrite Hr, Hn, lookup_empty. }
  exists (do_add_validator stash no_prefs s1). split.
  - unfold add_staker, bind, gets, try_run. destruct (Z.leb_spec balance (sc_free_balance stash (chain s))); [|lia].
    unfold ret at 1. rewrite Hbond. unfold take_role. fold no_prefs. by rewrite Hval.
  - split; simpl; rewrite ?Hr; try done. split; simpl; by rewrite Hr.
Qed.

(** A stash that is bonded, with its controller and a whole ledger, and is a validator. *)
Definition validates (s0 s : St) (entry : AccountId * AccountId * Z) : Prop :=
  bonded (bonds s) !! entry.1.1 = Some entry.1.2 /\ ledger (bonds s) !! entry.1.2 = Some (first_ledger s0 entry.1.1 entry.2)
  /\ validators (roles s) !! entry.1.1 = Some no_prefs.

Abbreviation as_validators := (map (fun entry : AccountId * AccountId * Z => (entry, StatusValidator))).

(** What one more validator leaves of those to come, and of those that were. *)
Lemma can_bond_later s s' stash controller balance stash' controller' balance' :
  bonded_from s s' stash controller balance -> stash' <> stash -> controller' <> controller ->
  can_bond s stash' controller' balance' -> can_bond s' stash' controller' balance'.
Proof.
  intros [Hb Hl _ _ Hm _ Hf] Hst Hctl [H1 H2 H3 H4 H5 H6].
  split; try done; rewrite ?Hb, ?Hl, ?Hm, ?Hf, ?lookup_insert_ne by done; done.
Qed.

Lemma add_validators_run l : forall s,
  NoDup l.*1.*1 -> NoDup l.*1.*2 -> (forall entry, entry ∈ l -> can_bond s entry.1.1 entry.1.2 entry.2) -> open_to_validators s ->
  exists s', for_each add_staker (as_validators l) s = (Ok tt, s') /\ (forall entry, entry ∈ l -> validates s s' entry)
    /\ (forall st, st ∉ l.*1.*1 -> bonded (bonds s') !! st = bonded (bonds s) !! st /\ validators (roles s') !! st = validators (roles s) !! st)
    /\ (forall c, c ∉ l.*1.*2 -> ledger (bonds s') !! c = ledger (bonds s) !! c).
Proof.
  induction l as [|[[stash controller] balance] l IH]; intros s Hst Hctl Hcan Hopen.
  - exists s. split; [done|]. split; [by intros ? ?%not_elem_of_nil|done].
  - apply NoDup_cons in Hst as [Hst Hsts], Hctl as [Hctl Hctls].
    destruct (add_validator_runs s stash controller balance) as (s1 & Hadd & Hfrom); [exact (Hcan (stash, controller, balance) ltac:(apply list_elem_of_here))|done|].
    destruct (IH s1) as (s' & Hrun & Hvals & Hsame & Hledgers); [done|done| |apply Hfrom|].
    { intros [[st c] b] Hin. eapply can_bond_later; [done|..|by apply Hcan, list_elem_of_further].
      - simpl. intros ->. by apply Hst, (list_elem_of_fmap_2 fst _ (stash, c)), (list_elem_of_fmap_2 fst _ (stash, c, b)).
      - simpl. intros ->. by apply Hctl, (list_elem_of_fmap_2 snd _ (st, controller)), (list_elem_of_fmap_2 fst _ (st, controller, b)). }
    destruct Hfrom as [Hb Hl Hv _ _ He _].
    assert (forall st b, first_ledger s1 st b = first_ledger s st b) as Hfirst by (intros; unfold first_ledger; by rewrite He).
    exists s'. split; [|split; [|split]].
    + apply bind_ok. by exists tt, s1.
    + intros entry [->|Hin]%elem_of_cons.
      * unfold validates. simpl. destruct (Hsame stash Hst) as [-> ->]. rewrite (Hledgers controller Hctl), Hb, Hl, Hv.
        by rewrite !lookup_insert_eq.
      * destruct (Hvals entry Hin) as (H1 & H2 & H3). rewrite Hfirst in H2. done.
    + intros st [Hne Hnin]%not_elem_of_cons. destruct (Hsame st Hnin) as [-> ->]. rewrite Hb, Hv. simpl in Hne.
      by rewrite !lookup_insert_ne by done.
    + intros c [Hne Hnin]%not_elem_of_cons. rewrite (Hledgers c Hnin), Hl. simpl in Hne. by rewrite lookup_insert_ne by done.
Qed.

(** A genesis whose validators are different accounts with different controllers, who can pay
    what they are to bond and bond enough, does not panic, and leaves all of them bonded with
    all of it, and validators. *)
Theorem genesis_bonds_validators g l s :
  nothing_staked s -> max_validators_count (roles s) = None -> stakers g = as_validators l ->
  NoDup l.*1.*1 -> NoDup l.*1.*2 ->
  (forall stash controller balance, (stash, controller, balance) ∈ l ->
     0 < balance /\ sc_minimum_balance <= balance <= sc_free_balance stash (chain s) /\ genesis_min_validator_bond g <= balance) ->
  exists s', build g s = (Ok tt, s') /\ forall entry, entry ∈ l -> validates (put_genesis g s) s' entry.
Proof.
  intros (Hbonds & _ & Hnom & _) Hmax Hg Hst Hctl Hpay.
  destruct (add_validators_run l (put_genesis g s)) as (s' & Hrun & Hvals & _); [done|done| |by split|].
  { intros [[stash controller] balance] Hin. destruct (Hpay stash controller balance Hin) as (Hpos & [Hmin Hfree] & Hbond).
    split; simpl; try done; by rewrite Hbonds. }
  exists s'. split; [|done]. apply bind_ok. exists tt, (put_genesis g s). split; [done|]. by rewrite Hg.
Qed.
End Genesis.
