(* ===== verification/StakingExamples.v ===== *)
(** * The staking pallet on a concrete chain

    Proportions, a currency with locks, a runtime, a run of calls from an empty storage,
    and the theorems on staking applied to it. *)

From Stdlib Require Import String.
From S2P Require Import Prelude Externals StakingLedger SlashingSpans Staking Slashing StakingCalls StakingEras StakingElection StakingInvariant SlashingSafety StakingSafety SlashingTheorems StakingTheorems StakingElectionTheorems EraTheorems.

(** ** Instances of the code the pallet relies on *)

(** Parts of [D], and their product with a balance rounded to the nearest (down at a tie). *)
Record parts (D : Z) : Type := MkParts { parts_raw : Z }.

Arguments MkParts {D}.
Arguments parts_raw {D}.

Definition parts_of {D : Z} (p : parts D) : Z := Z.max 0 (Z.min (parts_raw p) D).

#[global] Instance parts_perthing D : Perthing (parts D) := {
  pt_zero := MkParts 0;
  pt_deconstruct := parts_of;
  pt_mul p x := (parts_of p * x + (D / 2 - 1)) / D;
  pt_from_percent n := MkParts (n * (D / 100))
}.

Definition BILLION : Z := 10 ^ 9.

Abbreviation perbill := (parts BILLION).
Abbreviation percent := (parts 100).

Lemma parts_of_range (p : perbill) : 0 <= parts_of p <= BILLION.
Proof. unfold parts_of. assert (0 < BILLION) by by vm_compute. lia. Qed.

#[global] Instance perbill_laws : PerthingLaws perbill.
Proof.
  assert (0 < BILLION) as HD by by vm_compute. assert (0 <= BILLION / 2 - 1 < BILLION) as Hh by by vm_compute.
  split; simpl; [intros p x Hx|intros p x y Hxy|apply parts_of_range|done|done|intros p q x Hpq Hx];
    try pose proof (parts_of_range p).
  - split; [apply Z.div_pos; nia|]. enough ((parts_of p * x + (BILLION / 2 - 1)) / BILLION < x + 1) by lia.
    apply Z.div_lt_upper_bound; nia.
  - apply Z.div_le_mono; nia.
  - apply Z.div_le_mono; nia.
Qed.

Record Chain : Type := MkChain { free : gmap Z Z; locks : gmap Z Z; handled : Z }.

Definition free_of (who : Z) (c : Chain) : Z := Z.max 0 (Z.min (default 0 (free c !! who)) (umax 128)).

#[global] Instance chain_currency : StakingCurrency Chain Z := {
  sc_minimum_balance := 10;
  sc_free_balance := free_of;
  sc_total_balance := free_of;
  sc_total_issuance c := 10 ^ 6;
  sc_set_lock who v c := if v =? 0 then c else MkChain (free c) (<[who := v]> (locks c)) (handled c);
  sc_remove_lock who c := MkChain (free c) (delete who (locks c)) (handled c);
  sc_lock_of who c := default 0 (locks c !! who);
  sc_slash who v c :=
    let taken := Z.min v (free_of who c) in
    ((taken, v - taken), MkChain (<[who := free_of who c - taken]> (free c)) (locks c) (handled c));
  sc_resolve_creating who v c := MkChain (<[who := free_of who c + v]> (free c)) (locks c) (handled c);
  sc_on_slash v c := MkChain (free c) (locks c) (handled c + v)
}.

#[global] Instance chain_session : Session Chain Z := {
  si_disable_validator who c := (Some true, c);
  si_prune_historical_up_to upto c := c
}.

#[global] Instance chain_system : FrameSystem Chain Z := {
  block_number c := 0;
  inc_consumers who c := Some c;
  dec_consumers who c := c
}.

#[global] Instance chain_laws : StakingCurrencyLaws Chain Z.
Proof.
  split; simpl; try done.
  - intros who c. unfold in_uint, free_of. pose proof (umax_nonneg 128 ltac:(lia)). lia.
  - intros who v c Hv. destruct (Z.eqb_spec v 0); [lia|]. simpl. by rewrite lookup_insert_eq.
  - intros who other v c Hne. destruct (v =? 0); [done|]. simpl. by rewrite lookup_insert_ne.
  - intros who c. by rewrite lookup_delete_eq.
  - intros who other c Hne. by rewrite lookup_delete_ne.
  - by intros who c c' other [= <-].
Qed.

(** ** A runtime and a run *)

(** Origin 0 is the root, any other signs for itself; two validators can be elected. *)
Definition stk_config : Config Chain unit Z Z Z :=
  MkConfig 2 1 6 16 1 4032 14400 Some tt (fun o => if o =? 0 then None else Some o) (fun o => o =? 0)
    (fun o => o =? 0) tt (fun _ => 1000) (fun v _ => v)
    (fun _ c => (Some [(10, [(10, 800); (1, 500); (3, 40)])], c)).

Definition stk_start : State Chain Z perbill percent :=
  MkState (MkBonds ∅ ∅ ∅) (MkRoles ∅ 0 ∅ 0 0 0 None None None)
    (MkEras 84 2 1 (Some 3) None NotForcing [] {[3 := 18]} ∅ ∅ ∅ ∅ ∅ ∅)
    (MkSlashes [] (MkParts (BILLION / 10)) ∅ None ∅ ∅ ∅ ∅) []
    (MkChain {[1 := 1000; 10 := 2000; 3 := 50]} ∅ 0).

Abbreviation StkCall := (Call Z Z perbill percent).

Definition stk_run (calls : list (Z * StkCall)) (s : State Chain Z perbill percent) : State Chain Z perbill percent :=
  fold_left (fun s oc => (dispatch stk_config oc.1 oc.2 s).2) calls s.

(** Stash 1 with controller 2 nominates stash 10 with controller 11, a validator. *)
Definition stk_calls : list (Z * StkCall) :=
  [(1, CBond 2 500 Staked); (10, CBond 11 800 Stash); (11, CValidate (MkPrefs (MkParts 0) false)); (2, CNominate [10])].

Definition stk_market : State Chain Z perbill percent := stk_run stk_calls stk_start.

Lemma stk_config_laws : ConfigLaws stk_config.
Proof. split; [by intros g c who|done]. Qed.

Lemma stk_start_nothing : nothing_staked stk_start.
Proof. done. Qed.

(** Few enough stakers, and an early era. *)
Definition roomy (s : State Chain Z perbill percent) : bool :=
  (Z.of_nat (size (validators (roles s))) <? umax 32) && (Z.of_nat (size (nominators (roles s))) <? umax 32)
  && match active_era (eras s) with Some info => era_index info <? umax 32 | None => true end.

Lemma roomy_room s : roomy s = true -> room s /\ era_room s.
Proof.
  unfold roomy, room, era_room. intros Hr. bool_inv. split; [done|]. destruct (active_era (eras s)); bool_inv; done.
Qed.

Definition args_fit (c : StkCall) : bool :=
  match c with
  | CBond _ v _ | CBondExtra v | CUnbond v | CRebond v => (0 <=? v) && (v <=? umax 128)
  | _ => true
  end.

Lemma args_fit_ok c : args_fit c = true -> call_args_ok c.
Proof. destruct c; simpl; try done; unfold in_uint; intros Hf; bool_inv; done. Qed.

Fixpoint run_fits (calls : list (Z * StkCall)) (s : State Chain Z perbill percent) : bool :=
  match calls with
  | [] => true
  | oc :: rest => roomy s && args_fit oc.2 && run_fits rest (dispatch stk_config oc.1 oc.2 s).2
  end.

Lemma stk_run_reachable calls : forall s,
  run_fits calls s = true -> reachable stk_config stk_start s -> reachable stk_config stk_start (stk_run calls s).
Proof.
  induction calls as [|[o c] calls IH]; intros s Hfit Hr; [done|]. simpl in Hfit. bool_inv. apply IH; [done|].
  destruct (roomy_room s) as [Hroom Hera]; [done|]. eapply reachable_step; [exact Hr|exact Hroom|exact Hera|].
  eapply step_call; [by apply args_fit_ok|apply surjective_pairing].
Qed.

Lemma stk_run_inv calls : run_fits calls stk_start = true -> staking_inv (stk_run calls stk_start).
Proof.
  intros Hfit. apply (reachable_inv stk_config stk_config_laws stk_start); [by apply nothing_staked_inv|].
  apply stk_run_reachable; [done|apply reachable_start].
Qed.

Lemma stk_market_fits : run_fits stk_calls stk_start = true.
Proof. by vm_compute. Qed.

Lemma stk_market_reachable : reachable stk_config stk_start stk_market.
Proof. apply stk_run_reachable; [exact stk_market_fits|apply reachable_start]. Qed.

Lemma stk_market_inv : staking_inv stk_market.
Proof. apply stk_run_inv. exact stk_market_fits. Qed.

(** ** The calls *)

Lemma reachable_staking_inv_witness :
  ledger (bonds stk_market) !! 2 = Some (MkLedger 1 500 500 [] (seqZ 0 3))
  /\ sc_lock_of 1 (chain stk_market) = 500
  /\ counter_for_validators (roles stk_market) = 1 /\ counter_for_nominators (roles stk_market) = 1.
Proof.
  destruct (reachable_staking_inv stk_config stk_start stk_market stk_config_laws stk_start_nothing
              stk_market_reachable) as (_ & Hl & Hr & _).
  assert (ledger (bonds stk_market) !! 2 = Some (MkLedger 1 500 500 [] (seqZ 0 3))) as E by (vm_compute; reflexivity).
  split; [exact E|]. split; [apply (proj2 (Hl 2 _ E)); simpl; lia|].
  rewrite (roles_validators_count _ _ Hr), (roles_nominators_count _ _ Hr). split; vm_compute; reflexivity.
Defined.

(** The validator and its nominator vote for the validator, with what they have bonded in
    units of ten. *)
Definition stk_to_vote (v issuance : Z) : Z := v / 10.

Definition stk_snapshot : list (Z * Z * list Z) := [(10, 80, [10]); (1, 50, [10])].

Lemma snapshot_is_right_witness :
  voters stk_to_vote (Some 2) stk_market = Ok stk_snapshot /\ Z.of_nat (length stk_snapshot) <= 2
  /\ bond_weight stk_to_vote stk_market 1 50.
Proof.
  assert (voters stk_to_vote (Some 2) stk_market = Ok stk_snapshot) as E by (vm_compute; reflexivity).
  destruct (snapshot_is_right stk_config stk_to_vote stk_start stk_market (Some 2) stk_snapshot stk_config_laws
              stk_start_nothing stk_market_reachable E) as (_ & Hj & _ & Hlen).
  split; [exact E|]. split; [by apply Hlen|]. apply (Hj 1 50 [10]). apply list_elem_of_further, list_elem_of_here.
Defined.

(** Slashed after the nomination, the validator keeps its own vote only; and a bound that is
    too low is an error. *)
Lemma snapshot_after_a_slash :
  voters stk_to_vote None (set_spans <[10 := MkSpans 0 0 4 []]> stk_market) = Ok [(10, 80, [10])]
  /\ voters stk_to_vote (Some 1) stk_market = Err "Voter snapshot too big"%string.
Proof. vm_compute. done. Qed.

Lemma failed_staking_call_no_trace_witness :
  dispatch stk_config 7 (CUnbond 5) stk_market = (Err (inl NotController), stk_market)
  /\ (dispatch stk_config 7 (CUnbond 5) stk_market).2 = stk_market.
Proof.
  assert ((dispatch stk_config 7 (CUnbond 5) stk_market).1 = Err (inl NotController)) as E by (vm_compute; reflexivity).
  pose proof (outcome_split _ _ E) as Hrun.
  pose proof (failed_staking_call_no_trace stk_config 7 (CUnbond 5) stk_market _ _ Hrun ltac:(discriminate)) as Hs.
  split; [rewrite Hrun, Hs; reflexivity|exact Hs].
Defined.

Lemma unbond_spec_witness :
  exists l', ledger (bonds (unbond stk_config 2 300 stk_market : _ * _).2) !! 2 = Some l'
  /\ active l' = 200 /\ unlocking l' = [MkChunk 300 5] /\ total l' = 500.
Proof.
  assert ((unbond stk_config 2 300 stk_market : outcome (StakingError + unit) unit * _).1 = Ok tt) as E by (vm_compute; reflexivity).
  pose proof (outcome_split _ _ E) as Hrun.
  destruct (unbond_spec stk_config 2 300 2 (MkLedger 1 500 500 [] (seqZ 0 3)) stk_market _ tt stk_market_inv
              ltac:(vm_compute; split; discriminate) ltac:(reflexivity) ltac:(vm_compute; reflexivity)
              ltac:(vm_compute; reflexivity) Hrun) as (l' & v & H1 & Ev & H2 & H3 & _ & H4 & _).
  exists l'. split; [exact H1|]. rewrite Ev in H2, H4. split; [exact H2|]. split; [exact H4|exact H3].
Defined.

(** Two eras after 300 of the 500 were unbonded. *)
Definition stk_unbonded : State Chain Z perbill percent :=
  set_current_era 5 30 (stk_run (stk_calls ++ [(2, CUnbond 300)]) stk_start).

Lemma stk_unbonded_inv : staking_inv stk_unbonded.
Proof. apply inv_set_current_era, stk_run_inv. by vm_compute. Qed.

Lemma withdraw_unbonded_spec_witness :
  ledger (bonds (withdraw_unbonded stk_config 2 0 stk_unbonded : outcome (StakingError + unit) unit * _).2) !! 2
  = Some (MkLedger 1 200 200 [] (seqZ 0 3))
  /\ sc_lock_of 1 (chain (withdraw_unbonded stk_config 2 0 stk_unbonded : outcome (StakingError + unit) unit * _).2) = 200.
Proof.
  assert ((withdraw_unbonded stk_config 2 0 stk_unbonded : outcome (StakingError + unit) unit * _).1 = Ok tt) as E
    by (vm_compute; reflexivity).
  pose proof (outcome_split _ _ E) as Hrun.
  pose proof (withdraw_unbonded_spec stk_config 2 0 2 (MkLedger 1 500 200 [MkChunk 300 5] (seqZ 0 3)) stk_unbonded _ tt
                stk_unbonded_inv ltac:(reflexivity) ltac:(vm_compute; reflexivity) Hrun) as Hw.
  change (current_era (eras stk_unbonded)) with (Some 5) in Hw.
  change (consolidate_unlocked 5 (MkLedger 1 500 200 [MkChunk 300 5] (seqZ 0 3)))
    with (MkLedger 1 200 200 [] (seqZ 0 3)) in Hw.
  destruct Hw as (H1 & _ & _ & _ & _ & H2). split; [exact H1|]. apply H2. reflexivity.
Defined.

(** The limits are raised above the stake of the nominator. *)
Definition stk_limited : State Chain Z perbill percent :=
  stk_run (stk_calls ++ [(0, CSetStakingLimits 600 0 (Some 1) (Some 1) (Some (MkParts 50)))]) stk_start.

Lemma chill_other_guard_witness :
  nominators (roles stk_limited) !! 1 = Some (MkNominations [10] 3 false)
  /\ (chill_other stk_config 99 2 stk_limited : outcome (StakingError + unit) unit * _)
     = (Ok tt, chill_stash 1 stk_limited).
Proof.
  assert ((chill_other stk_config 99 2 stk_limited : outcome (StakingError + unit) unit * _).1 = Ok tt) as E
    by (vm_compute; reflexivity).
  pose proof (outcome_split _ _ E) as Hrun.
  destruct (chill_other_guard stk_config 99 99 2 (MkLedger 1 500 500 [] (seqZ 0 3)) stk_limited _ tt
              ltac:(reflexivity) ltac:(discriminate) ltac:(vm_compute; reflexivity) ltac:(vm_compute; discriminate)
              Hrun) as [Hs _].
  split; [vm_compute; reflexivity|]. rewrite Hs in Hrun. exact Hrun.
Defined.

(** ** Slashing *)

Lemma reporter_payments_conserve_witness :
  reporter_payments 70 100 [5; 6; 7] = ([(5, 23); (6, 23); (7, 23)], 31)
  /\ zsum snd [(5, 23); (6, 23); (7, 23)] + 31 = 100.
Proof.
  split; [reflexivity|].
  pose proof (reporter_payments_conserve 70 100 [5; 6; 7]) as Hp.
  change (reporter_payments 70 100 [5; 6; 7]) with ([(5, 23); (6, 23); (7, 23)], 31) in Hp.
  destruct Hp as (Hsum & _); [vm_compute; split; discriminate|vm_compute; split; discriminate|exact Hsum].
Defined.

Definition queued (v : Z) : UnappliedSlash Z := MkUnapplied v 10 [] [] 0.

Definition stk_queue : State Chain Z perbill percent :=
  set_unapplied <[4 := [queued 10; queued 11; queued 12; queued 13]]> (fun _ => Some 4) stk_market.

Lemma cancel_deferred_slash_removes_witness :
  unapplied_of (cancel_deferred_slash stk_config 0 4 [0; 2] stk_queue : outcome (StakingError + unit) unit * _).2 4
  = [queued 11; queued 13].
Proof.
  pose proof (cancel_deferred_slash_removes stk_config 0 4 [0; 2] stk_queue ltac:(reflexivity) ltac:(discriminate)) as Hc.
  assert (forall i, i ∈ [0; 2] -> 0 <= i) as Hpos.
  { intros i Hi. apply elem_of_cons in Hi as [->|Hi]; [lia|]. apply list_elem_of_singleton in Hi as ->. lia. }
  specialize (Hc Hpos).
  destruct (cancel_deferred_slash stk_config 0 4 [0; 2] stk_queue : outcome (StakingError + unit) unit * _) as [r s'].
  assert (unapplied_of stk_queue 4 = [queued 10; queued 11; queued 12; queued 13]) as Eq by (vm_compute; reflexivity).
  rewrite Eq in Hc. destruct Hc as (_ & Hq & _). exact Hq.
Defined.

(** Three offences in one span of the sample, in two eras: 300 in all, not 600. *)
Definition stk_inspecting : InspectingSpans Z perbill :=
  MkInspecting false 960 10 sample_spans 0 0 (MkParts (BILLION / 10)).

Lemma span_slash_is_maximum_witness :
  slash_of (record_slashes [(985, 100); (986, 300); (984, 200)] stk_inspecting stk_market).1 = 300.
Proof.
  pose proof (span_slash_is_maximum [(985, 100); (986, 300); (984, 200)] 8 stk_inspecting stk_market) as Hm.
  cbv zeta in Hm. change (span_record stk_market (is_stash stk_inspecting, 8)) with (MkSpanRecord 0 0) in Hm.
  destruct (record_slashes [(985, 100); (986, 300); (984, 200)] stk_inspecting stk_market) as [i' s'].
  destruct Hm as (_ & Hso & _).
  - intros o Ho. repeat (apply elem_of_cons in Ho as [->|Ho]; [split; [reflexivity|vm_compute; split; discriminate]|]).
    by apply elem_of_nil in Ho.
  - vm_compute. repeat split; discriminate.
  - vm_compute. discriminate.
  - vm_compute. discriminate.
  - vm_compute. discriminate.
  - vm_compute. discriminate.
  - exact Hso.
Defined.

(** Validator 10, exposed with its nominator 1, is slashed a tenth for an offence in era 3. *)
Definition stk_offence : SlashParams Z perbill :=
  MkSlashParams 10 (MkParts (BILLION / 10)) (MkExposure 1300 800 [(1, 500)]) 3 1 3 (MkParts (BILLION / 10)).

Definition stk_slash : UnappliedSlash Z := MkUnapplied 10 80 [(1, 50)] [] 6.

Definition stk_slashed : State Chain Z perbill percent := (compute_slash stk_offence stk_market).2.

Lemma stk_slash_computed : compute_slash stk_offence stk_market = (Some stk_slash, stk_slashed).
Proof. unfold stk_slashed. apply outcome_split. vm_compute. reflexivity. Qed.

Lemma same_offence_slashes_once_witness : compute_slash stk_offence stk_slashed = (None, stk_slashed).
Proof.
  destruct (same_offence_slashes_once stk_offence stk_offence stk_slash stk_market stk_slashed stk_slash_computed
              ltac:(reflexivity) ltac:(reflexivity) ltac:(vm_compute; discriminate) ltac:(vm_compute; discriminate))
    as (_ & _ & Hn). exact Hn.
Defined.

Lemma clear_stash_metadata_spec_witness :
  slashing_spans (slashes stk_slashed) !! 10 = Some (MkSpans 1 4 3 [3])
  /\ clear_stash_metadata 10 1 stk_slashed = Err IncorrectSlashingSpans.
Proof.
  assert (slashing_spans (slashes stk_slashed) !! 10 = Some (MkSpans 1 4 3 [3])) as E by (vm_compute; reflexivity).
  split; [exact E|]. pose proof (clear_stash_metadata_spec 10 1 stk_slashed _ E) as Hc.
  destruct (clear_stash_metadata 10 1 stk_slashed) as [s'|e|].
  - destruct Hc as [Hle _]. exfalso. vm_compute in Hle. by apply Hle.
  - destruct Hc as [-> _]. reflexivity.
  - destruct Hc.
Defined.

(** ** Eras *)

(** 4032 eras to a halving, as in the documentation of the pallet. *)
Lemma native_issuance_halves_witness :
  native_issuance 4032 14400 5000 = Some 7200 /\ native_issuance 4032 14400 9032 = Some 3600.
Proof.
  destruct (native_issuance_halves 4032 14400 5000 ltac:(lia) ltac:(lia) ltac:(lia)) as (v & Ev & H1 & _ & H2).
  assert (v = 7200) as -> by (rewrite H1 by lia; reflexivity). split; [exact Ev|]. apply H2. lia.
Defined.

Lemma collect_exposure_total_witness :
  collect_exposure (fun v => v) (10, [(10, 800); (1, 500); (3, 40)]) = (10, MkExposure 1340 800 [(1, 500); (3, 40)])
  /\ 1340 = 800 + zsum snd [(1, 500); (3, 40)].
Proof.
  split; [reflexivity|].
  pose proof (collect_exposure_total (fun v => Z.max 0 v) 10 [(10, 800); (1, 500); (3, 40)] ltac:(lia)
                ltac:(vm_compute; discriminate)) as Hc.
  change (collect_exposure (fun v => Z.max 0 v) (10, [(10, 800); (1, 500); (3, 40)]))
    with (10, MkExposure 1340 800 [(1, 500); (3, 40)]) in Hc.
  destruct Hc as (_ & _ & Hsum & _). exact Hsum.
Defined.

Lemma clip_exposure_keeps_largest_witness :
  clip_exposure 1 (MkExposure 1340 800 [(3, 40); (1, 500)]) = MkExposure 1340 800 [(1, 500)]
  /\ Z.of_nat (length [(1, 500)]) = Z.min 1 2.
Proof.
  split; [reflexivity|].
  pose proof (clip_exposure_keeps_largest 1 (MkExposure 1340 800 [(3, 40); (1, 500)]) ltac:(lia)) as Hc.
  change (clip_exposure 1 (MkExposure 1340 800 [(3, 40); (1, 500)])) with (MkExposure 1340 800 [(1, 500)]) in Hc.
  destruct Hc as (_ & _ & Hlen & _). exact Hlen.
Defined.

Lemma due_slashes_applied_once_witness :
  unapplied_slashes (slashes (apply_unapplied_slashes stk_config 6 stk_queue)) !! 4 = None
  /\ earliest_unapplied_slash (slashes (apply_unapplied_slashes stk_config 6 stk_queue)) = Some 5.
Proof.
  destruct (due_slashes_applied_once stk_config 6 4 stk_queue ltac:(reflexivity)) as (_ & _ & _ & _ & _ & Hq & He).
  split; [|exact He]. rewrite Hq. vm_compute. reflexivity.
Defined.

Definition stk_bonded_eras : State Chain Z perbill percent :=
  set_bonded_eras [(2, 12); (3, 18); (4, 24)] (set_active_era (Some (MkActiveEra 4 None)) stk_market).

Lemma start_era_window_witness :
  map fst (bonded_eras (eras (start_era stk_config 30 stk_bonded_eras))) = [3; 4; 5]
  /\ last (bonded_eras (eras (start_era stk_config 30 stk_bonded_eras))) = Some (5, 30).
Proof.
  destruct (start_era_window stk_config 30 2 stk_bonded_eras) as (_ & Hw & Hl & _);
    [vm_compute; split; discriminate|vm_compute; discriminate|vm_compute; discriminate|reflexivity|].
  split; [exact Hw|exact Hl].
Defined.

Definition stk_exposures : list (Z * Exposure Z) := [(10, MkExposure 1340 800 [(3, 40); (1, 500)])].

Lemma planned_era_recorded_witness :
  eras_stakers_clipped (eras (trigger_new_era stk_config 24 stk_exposures stk_market).2) !! (4, 10)
  = Some (MkExposure 1340 800 [(1, 500)])
  /\ current_era (eras (trigger_new_era stk_config 24 stk_exposures stk_market).2) = Some 4.
Proof.
  pose proof (planned_era_recorded stk_config 24 stk_exposures stk_market) as Hp. cbv zeta in Hp.
  change (current_era (eras stk_market)) with (Some 3) in Hp. change (history_depth (eras stk_market)) with 84 in Hp.
  destruct (trigger_new_era stk_config 24 stk_exposures stk_market) as [elected s'].
  destruct Hp as (_ & Hce & _ & _ & Hst & _).
  - vm_compute. split; discriminate.
  - vm_compute. split; [discriminate|reflexivity].
  - apply NoDup_singleton.
  - intros p Hp. apply list_elem_of_singleton in Hp as ->. vm_compute. discriminate.
  - split; [|exact Hce]. apply (Hst 10 (MkExposure 1340 800 [(3, 40); (1, 500)])). left.
Defined.

Lemma new_session_plans_witness :
  (new_session stk_config 24 false stk_market).1 = Some [10]
  /\ current_era (eras (new_session stk_config 24 false stk_market).2) = Some 4.
Proof.
  assert ((new_session stk_config 24 false stk_market).1 = Some [10]) as E by (vm_compute; reflexivity).
  split; [exact E|]. pose proof (new_session_plans stk_config 24 false 3 stk_market ltac:(reflexivity)) as Hp.
  cbv zeta in Hp. destruct (new_session stk_config 24 false stk_market) as [v s']. simpl in E. rewrite E in Hp.
  destruct Hp as (_ & _ & Hce & _). exact Hce.
Defined.
