(* ===== verification/StakingPayoutTheorems.v ===== *)
(** * An era pays a validator once

    The eras that a stash has claimed are kept with its ledger ([claims_inv]): whatever
    calls are made and whatever eras begin and end, no validator is paid twice for an era,
    and what a claim pays is within the part of the reward that the validator has earned. *)

From Stdlib Require Import Sorted.
From S2P Require Import Prelude Externals SlashingSpans StakingLedger Staking Slashing StakingCalls StakingEras StakingPayout StakingInvariant SlashingSafety StakingSafety StakingExamples.

(** ** Lists of claimed eras *)

Abbreviation sorted := (StronglySorted Z.lt).

Lemma retain_sorted first l : sorted l -> sorted (retain_from first l).
Proof.
  unfold retain_from. induction 1 as [|x l Hl IH Hx]; simpl; [constructor|]. destruct (first <=? x); [|done].
  constructor; [done|]. rewrite List.Forall_forall in *. intros y Hy. apply List.filter_In in Hy as [Hy _]. by apply Hx.
Qed.

Lemma elem_of_retain first x l : x ∈ retain_from first l <-> first <= x /\ x ∈ l.
Proof. unfold retain_from. rewrite !list_elem_of_In, List.filter_In, Z.leb_le. tauto. Qed.

(** On a sorted list the search finds what is there and inserts what is not. *)
Lemma claim_era_spec era l :
  sorted l ->
  match claim_era era l with
  | Some l' => ~ era ∈ l /\ sorted l' /\ forall x, x ∈ l' <-> x = era \/ x ∈ l
  | None => era ∈ l
  end.
Proof.
  induction 1 as [|x l Hl IH Hx]; simpl.
  - split; [by apply not_elem_of_nil|]. split; [repeat constructor|]. intros x. by rewrite elem_of_cons.
  - rewrite List.Forall_forall in Hx. destruct (Z.ltb_spec x era) as [Hlt|Hge].
    + destruct (claim_era era l) as [l'|]; simpl; [|by rewrite elem_of_cons; right]. destruct IH as (Hno & Hs & Hin).
      rewrite not_elem_of_cons. split; [split; [lia|done]|]. split.
      * constructor; [done|]. rewrite List.Forall_forall. intros y Hy. apply list_elem_of_In, Hin in Hy as [->|Hy]; [done|].
        by apply Hx, list_elem_of_In.
      * intros y. rewrite !elem_of_cons, Hin. tauto.
    + destruct (Z.eqb_spec x era) as [->|Hne]; [by rewrite elem_of_cons; left|]. split.
      * rewrite not_elem_of_cons. split; [done|]. intros Hin. apply list_elem_of_In, Hx in Hin. lia.
      * split; [|intros y; by rewrite !elem_of_cons]. constructor; [constructor; [done|by rewrite List.Forall_forall]|].
        rewrite List.Forall_forall. intros y [<-|Hy]; [lia|]. apply Hx in Hy. lia.
Qed.

Lemma seqZ_sorted m n : sorted (seqZ m n).
Proof.
  destruct (Z.le_gt_cases n 0) as [Hn|Hn]; [rewrite seqZ_nil by lia; constructor|].
  assert (0 <= n) as Hn0 by lia. clear Hn. revert m. pattern n. apply natlike_ind; [| |exact Hn0].
  - intros m. change (sorted []). constructor.
  - intros k Hk IH m. cbv beta. rewrite seqZ_cons, Z.pred_succ by lia. constructor; [apply IH|].
    rewrite List.Forall_forall. intros y Hy. apply list_elem_of_In, elem_of_seqZ in Hy. lia.
Qed.

Section Claims.
Context {L X AccountId Source Origin Perbill Percent : Type} `{Countable AccountId}.
Context `{!StakingCurrency L AccountId} `{!Session L AccountId} `{!FrameSystem L AccountId}.
Context `{!Perthing Perbill} `{!Perthing Percent}.
Variable cfg : Config L X AccountId Source Origin.

(** The eras that have ended. *)
Variable ended : list Z.

Abbreviation St := (State L AccountId Perbill Percent).
Abbreviation Run := (M (State L AccountId Perbill Percent) (StakingError + X)).

(** ** What claims depend on *)

(** The stash of a ledger and the eras that it has claimed. *)
Definition claims_of (s : St) (ctl : AccountId) : option (AccountId * list Z) :=
  (fun l => (stash l, claimed_rewards l)) <$> ledger (bonds s) !! ctl.

Record same_claims (s s' : St) : Prop := {
  same_bonded : bonded (bonds s') = bonded (bonds s);
  same_claimed ctl : claims_of s' ctl = claims_of s ctl;
  same_reward : eras_validator_reward (eras s') = eras_validator_reward (eras s);
  same_current : current_era (eras s') = current_era (eras s);
  same_depth : history_depth (eras s') = history_depth (eras s);
  same_starts : eras_start_session_index (eras s') = eras_start_session_index (eras s)
}.

#[export] Instance same_claims_preorder : PreOrder same_claims.
Proof.
  split; [by split|]. intros s1 s2 s3 [A1 A2 A3 A4 A5 A6] [B1 B2 B3 B4 B5 B6].
  split; [by rewrite B1|intros ctl; by rewrite B2|by rewrite B3|by rewrite B4|by rewrite B5|by rewrite B6].
Qed.

(** The bonds and the eras are as they were. *)
Lemma same_parts (s s' : St) : bonds s' = bonds s -> eras s' = eras s -> same_claims s s'.
Proof. intros Hb He. split; unfold claims_of; by rewrite ?Hb, ?He. Qed.

Lemma same_over_chain f (s t : St) : same_claims s t -> same_claims s (over_chain f t).
Proof. intros Ht. transitivity t; [done|by apply same_parts]. Qed.

Lemma same_over_slashes f (s t : St) : same_claims s t -> same_claims s (over_slashes f t).
Proof. intros Ht. transitivity t; [done|by apply same_parts]. Qed.

Lemma same_update_ledger ctl l0 l (s : St) :
  ledger (bonds s) !! ctl = Some l0 -> stash l = stash l0 -> claimed_rewards l = claimed_rewards l0 ->
  same_claims s (update_ledger ctl l s).
Proof.
  intros E0 Es Ec. split; try done. intros k. unfold claims_of. simpl. destruct (decide (ctl = k)) as [<-|Hne].
  - rewrite lookup_insert_eq, E0. simpl. by rewrite Es, Ec.
  - by rewrite lookup_insert_ne.
Qed.

Lemma same_remove_validator who (s : St) : same_claims s (do_remove_validator who s).2.
Proof. destruct (remove_validator_frame s who) as (Eb & _ & _ & Ee & _). by apply same_parts. Qed.

Lemma same_remove_nominator who (s : St) : same_claims s (do_remove_nominator who s).2.
Proof. destruct (remove_nominator_frame s who) as (Eb & _ & _ & Ee & _). by apply same_parts. Qed.

Lemma same_chill who (s : St) : same_claims s (chill_stash who s).
Proof.
  unfold chill_stash. pose proof (same_remove_validator who s) as H1. destruct (do_remove_validator who s) as [b1 s1]. simpl in H1.
  pose proof (same_remove_nominator who s1) as H2. destruct (do_remove_nominator who s1) as [b2 s2]. simpl in H2.
  transitivity s1; [done|]. transitivity s2; [done|]. by destruct (b1 || b2).
Qed.

(** ** The invariant *)

(** Ledgers and stashes are paired, the claimed eras are sorted, an era that was paid is
    claimed as long as it has a reward, and rewards are of ended eras within the history. *)
Record claims_inv (paid : list (AccountId * Z)) (s : St) : Prop := {
  claims_pair st ctl : bonded (bonds s) !! st = Some ctl <-> exists l, ledger (bonds s) !! ctl = Some l /\ stash l = st;
  claims_sorted ctl l : ledger (bonds s) !! ctl = Some l -> sorted (claimed_rewards l);
  claims_paid st era ctl l : (st, era) ∈ paid -> ledger (bonds s) !! ctl = Some l -> stash l = st ->
    is_Some (eras_validator_reward (eras s) !! era) -> era ∈ claimed_rewards l;
  claims_window era : is_Some (eras_validator_reward (eras s) !! era) ->
    exists c, current_era (eras s) = Some c /\ sat_sub c (history_depth (eras s)) <= era < c;
  claims_starts era : is_Some (eras_start_session_index (eras s) !! era) ->
    exists c, current_era (eras s) = Some c /\ era <= c;
  claims_current c : current_era (eras s) = Some c -> in_uint 32 c;
  claims_depth : in_uint 32 (history_depth (eras s));
  claims_ended era : is_Some (eras_validator_reward (eras s) !! era) -> era ∈ ended
}.

(** A ledger, read off its claims. *)
Lemma same_claims_ledger (s s' : St) ctl l :
  same_claims s s' -> ledger (bonds s') !! ctl = Some l ->
  exists l0, ledger (bonds s) !! ctl = Some l0 /\ stash l = stash l0 /\ claimed_rewards l = claimed_rewards l0.
Proof.
  intros Hs E. pose proof (same_claimed _ _ Hs ctl) as Hc. unfold claims_of in Hc. rewrite E in Hc.
  destruct (ledger (bonds s) !! ctl) as [l0|]; [|done]. simpl in Hc. injection Hc as Es Ec. by exists l0.
Qed.

Lemma same_claims_sym (s s' : St) : same_claims s s' -> same_claims s' s.
Proof. intros [A1 A2 A3 A4 A5 A6]. by split. Qed.

Lemma inv_same paid (s s' : St) : same_claims s s' -> claims_inv paid s -> claims_inv paid s'.
Proof.
  intros Hs [Ip Iso Ipd Iw Ist Ic Id Ie]. pose proof Hs as [A1 A2 A3 A4 A5 A6].
  split; rewrite ?A1, ?A3, ?A4, ?A5, ?A6; try done.
  - intros st ctl. rewrite Ip. split; intros (l & El & Es).
    + destruct (same_claims_ledger _ _ ctl l (same_claims_sym _ _ Hs) El) as (l' & El' & Es' & _). exists l'. split; congruence.
    + destruct (same_claims_ledger _ _ ctl l Hs El) as (l' & El' & Es' & _). exists l'. split; congruence.
  - intros ctl l El. destruct (same_claims_ledger _ _ ctl l Hs El) as (l0 & El0 & _ & Ec). rewrite Ec. by eapply Iso.
  - intros st era ctl l Hp El Es Hr. destruct (same_claims_ledger _ _ ctl l Hs El) as (l0 & El0 & Es0 & Ec).
    rewrite Ec. apply (Ipd st era ctl l0); [done|done|congruence|done].
Qed.

Lemma inv_parts paid (s s' : St) : bonds s' = bonds s -> eras s' = eras s -> claims_inv paid s -> claims_inv paid s'.
Proof. intros Hb He. by apply inv_same, same_parts. Qed.

Lemma inv_update paid ctl l0 l (s : St) :
  ledger (bonds s) !! ctl = Some l0 -> stash l = stash l0 -> claimed_rewards l = claimed_rewards l0 ->
  claims_inv paid s -> claims_inv paid (update_ledger ctl l s).
Proof. intros E0 Es Ec. by eapply inv_same, same_update_ledger. Qed.

Lemma claims_event paid e (s : St) : claims_inv paid s -> claims_inv paid (deposit_event e s).
Proof. by apply inv_parts. Qed.

Lemma claims_chain paid f (s : St) : claims_inv paid s -> claims_inv paid (over_chain f s).
Proof. by apply inv_parts. Qed.

(** ** Calls *)

Definition keeps_claims (m : Run unit) : Prop :=
  forall paid s u s', m s = (Ok u, s') -> claims_inv paid s -> claims_inv paid s'.

Lemma keeps_same (m : Run unit) : keeps same_claims m -> keeps_claims m.
Proof. intros Hm paid s u s' Hrun. apply inv_same. by eapply Hm. Qed.

(** A stash that bonds starts with the eras of the history claimed. *)
Lemma bond_keeps_claims origin controller value payee : keeps_claims (bond cfg origin controller value payee).
Proof.
  intros paid s u s' Hrun Hs. unfold bond, ensure_signed, lookup_account in Hrun. cbv zeta in Hrun. run_inv Hrun. bool_inv.
  match goal with Hb : bonded (bonds s) !! ?a = None, Hl : ledger (bonds s) !! ?b = None |- _ =>
    rename a into st, b into ctl, Hb into Hnb, Hl into Hnl end.
  destruct Hs as [Ip Iso Ipd Iw Ist Ic Id Ie]. split; simpl; try done.
  - intros w k. rewrite lookup_insert_Some. setoid_rewrite lookup_insert_Some. rewrite Ip. split.
    + intros [[<- <-]|[Hne (l' & E' & Es)]]; [eexists; split; [by left|done]|].
      exists l'. split; [|done]. right. split; [|done]. intros ->. congruence.
    + intros (l' & [[<- <-]|[Hne E']] & Es); [by left|]. right.
      assert (bonded (bonds s) !! w = Some k) by (apply Ip; eauto). split; [congruence|eauto].
  - intros k l. rewrite lookup_insert_Some. intros [[<- <-]|[_ E]]; [apply seqZ_sorted|by eapply Iso].
  - intros w era k l Hp. rewrite lookup_insert_Some. intros [[<- <-]|[_ E]] Es Hr; [|by eapply Ipd].
    destruct (Iw era Hr) as (c & Ec & Hc). simpl. rewrite Ec. simpl. apply elem_of_seqZ. lia.
Qed.

Lemma bond_extra_keeps_claims origin v : keeps_claims (bond_extra cfg origin v).
Proof.
  intros paid s u s' Hrun Hs. unfold bond_extra, ensure_signed in Hrun. run_step Hrun. ledger_inv lg El.
  destruct (checked_sub _ _) as [extra|]; [|run_step Hrun; by subst]. cbv zeta in Hrun. run_inv Hrun.
  eapply inv_update; [done..|]. by apply claims_event.
Qed.

Lemma unbond_keeps_claims origin v : keeps_claims (unbond cfg origin v).
Proof.
  intros paid s u s' Hrun Hs. unfold unbond, ensure_signed in Hrun. run_step Hrun. ledger_inv lg El. cbv zeta in Hrun.
  destruct (Z.min v (active lg) =? 0); [run_step Hrun; by subst|]. destruct (unbond_amounts _ _) as [v' a']. run_inv Hrun.
  apply claims_event. by eapply inv_update.
Qed.

(** A stash that is gone claims nothing. *)
Lemma kill_stash_keeps_claims stash n : keeps_claims (kill_stash stash n).
Proof.
  intros paid s u s' Hrun Hs. unfold kill_stash in Hrun. run_step Hrun.
  destruct (clear_stash_metadata stash n s) as [s0|e|] eqn:Ec; [|by run_step R|by run_step R]. run_step R. subst.
  assert (same_claims s s0) as H0.
  { unfold clear_stash_metadata in Ec. destruct (slashing_spans (slashes s) !! stash); [|by injection Ec as <-]. destruct (_ <=? n); [|done].
    injection Ec as <-. apply (fold_left_inv (fun t => same_claims s t)); [|by split]. intros t y Ht. by transitivity t. }
  match goal with Hb : bonded (bonds s) !! stash = Some ?k |- _ => rename k into ctl, Hb into Eb end.
  assert (claims_inv paid (set_payee_map (delete stash) (set_ledger (delete ctl) (set_bonded (delete stash) s0)))) as Hk.
  { apply (inv_same _ _ _ H0) in Hs. rewrite <- (same_bonded _ _ H0) in Eb. clear -Hs Eb. destruct Hs as [Ip Iso Ipd Iw Ist Ic Id Ie].
    split; simpl; try done.
    - intros w k. rewrite lookup_delete_Some. setoid_rewrite lookup_delete_Some. rewrite Ip. split.
      + intros [Hne (l & E & Es)]. exists l. split_and!; try done. intros ->. apply Hne.
        destruct (proj1 (Ip stash k) Eb) as (l0 & E0 & E1). congruence.
      + intros (l & [Hne E] & Es). split; [|eauto]. intros ->. apply Hne.
        assert (bonded (bonds s0) !! w = Some k) by (apply Ip; eauto). congruence.
    - intros k l. rewrite lookup_delete_Some. intros [_ E]. by eapply Iso.
    - intros w era k l Hp. rewrite lookup_delete_Some. intros [_ E]. by eapply Ipd. }
  eapply inv_same; [|exact Hk].
  etransitivity; [apply (same_remove_validator stash)|]. etransitivity; [apply (same_remove_nominator stash)|]. by apply same_parts.
Qed.

Lemma kill_and_unlock paid stash n f (s : St) (u : unit) s' :
  (kill_stash stash n : Run unit) s = (Ok u, s') -> claims_inv paid s -> claims_inv paid (over_chain f s').
Proof. intros Hrun Hs. apply claims_chain. by eapply kill_stash_keeps_claims. Qed.

Lemma claimed_consolidate era (l : StakingLedger AccountId) :
  stash (consolidate_unlocked era l) = stash l /\ claimed_rewards (consolidate_unlocked era l) = claimed_rewards l.
Proof. unfold consolidate_unlocked. by destruct (fold_left _ _ _). Qed.

Lemma claimed_rebond value (l : StakingLedger AccountId) : claimed_rewards (rebond_ledger value l) = claimed_rewards l.
Proof. unfold rebond_ledger. by destruct (rebond_loop _ _ _ _). Qed.

Lemma claimed_slash value minimum (l : StakingLedger AccountId) :
  stash (slash_ledger value minimum l).2 = stash l /\ claimed_rewards (slash_ledger value minimum l).2 = claimed_rewards l.
Proof. unfold slash_ledger. destruct (slash_out_of _ _ _ _) as [[? ?] ?]. by destruct (slash_chunks _ _ _ _). Qed.

Lemma withdraw_unbonded_keeps_claims origin n : keeps_claims (withdraw_unbonded cfg origin n).
Proof.
  intros paid s u s' Hrun Hs. unfold withdraw_unbonded, ensure_signed in Hrun. cbv zeta in Hrun. run_step Hrun. ledger_inv lg El. subst.
  set (lg' := match current_era (eras s) with Some e => consolidate_unlocked e lg | None => lg end) in *.
  assert (stash lg' = stash lg /\ claimed_rewards lg' = claimed_rewards lg) as [Est Ecl]
    by (unfold lg'; destruct (current_era (eras s)); [apply claimed_consolidate|done]).
  clearbody lg'.
  match goal with Hb : (if _ then _ else _) _ = (Ok _, ?t) |- _ => rename Hb into Hbr; assert (claims_inv paid t) as Ht end.
  { destruct (_ && _); run_step Hbr; subst; [by eapply kill_and_unlock|by apply (inv_update paid _ lg)]. }
  destruct (_ <? _); run_step Hrun; subst; [by apply claims_event|done].
Qed.

Lemma rebond_keeps_claims origin v : keeps_claims (rebond cfg origin v).
Proof.
  intros paid s u s' Hrun Hs. unfold rebond, ensure_signed in Hrun. cbv zeta in Hrun. run_step Hrun. ledger_inv lg El. subst.
  apply (inv_update paid _ lg); [done|apply stash_rebond_ledger|apply claimed_rebond|by apply claims_event].
Qed.

(** The ledger moves to the new controller with its claims. *)
Lemma set_controller_keeps_claims origin c : keeps_claims (set_controller cfg origin c).
Proof.
  intros paid s u s' Hrun Hs. unfold set_controller, ensure_signed, lookup_account in Hrun. run_step Hrun. subst. bool_inv.
  case_bool_decide as Hsame; [run_step Hrun; by subst|]. run_step Hrun. subst.
  match goal with Hb : bonded (bonds s) !! ?a = Some ?b, Hn : ledger (bonds s) !! ?k = None |- _ =>
    rename a into st, b into old, k into ctl, Hb into Eb, Hn into En end.
  destruct Hs as [Ip Iso Ipd Iw Ist Ic Id Ie]. destruct (proj1 (Ip st old) Eb) as (lg & El & Est). simpl in Hrun. rewrite El in Hrun.
  run_step Hrun. subst. split; simpl; try done.
  - intros w k. rewrite lookup_insert_Some. setoid_rewrite lookup_insert_Some. setoid_rewrite lookup_delete_Some. rewrite Ip. split.
    + intros [[<- <-]|[Hne (l' & E' & Es')]]; [eexists; split; [by left|done]|].
      exists l'. split; [|done]. right. split_and!; try done; intros ->; congruence.
    + intros (l' & [[<- <-]|(Hne & Hold & E')] & Es'); [left; split; congruence|]. right. split; [|eauto].
      intros <-. assert (bonded (bonds s) !! stash lg = Some k) by (apply Ip; eauto). congruence.
  - intros k l. rewrite lookup_insert_Some, lookup_delete_Some. intros [[<- <-]|(_ & _ & E)]; by eapply Iso.
  - intros w era k l Hp. rewrite lookup_insert_Some, lookup_delete_Some. intros [[<- <-]|(_ & _ & E)]; by eapply Ipd.
Qed.

Lemma cleared_starts (l : list Z) (s : St) era :
  let s' := fold_left (fun s era => clear_era_information era s) l s in
  bonds s' = bonds s /\ current_era (eras s') = current_era (eras s) /\ history_depth (eras s') = history_depth (eras s)
  /\ (is_Some (eras_validator_reward (eras s') !! era) <-> is_Some (eras_validator_reward (eras s) !! era) /\ ~ era ∈ l)
  /\ (is_Some (eras_start_session_index (eras s') !! era) -> is_Some (eras_start_session_index (eras s) !! era)).
Proof.
  revert s. induction l as [|e l IH]; intros s; simpl; [split_and!; try done; rewrite elem_of_nil; tauto|].
  destruct (IH (clear_era_information e s)) as (E1 & E2 & E3 & E4 & E5). split_and!; try done.
  - rewrite E4. simpl. rewrite lookup_delete_is_Some, elem_of_cons. naive_solver.
  - intros Hs. apply E5 in Hs. simpl in Hs. by apply lookup_delete_is_Some in Hs as [_ Hs].
Qed.

Lemma set_history_depth_keeps_claims origin n paid s u s' :
  set_history_depth cfg origin n s = (Ok u, s') -> in_uint 32 (history_depth (eras s')) -> claims_inv paid s -> claims_inv paid s'.
Proof.
  intros Hrun Hn Hs. unfold set_history_depth, ensure_root in Hrun. run_step Hrun. subst.
  destruct (current_era (eras s)) as [c|] eqn:Ec; [|run_step Hrun; by subst]. cbv zeta in Hrun. run_step Hrun. subst.
  match goal with |- context [fold_left ?f ?l s] => pose proof (fun era => cleared_starts l s era) as Hf; cbv zeta in Hf;
    set (t := fold_left f l s) in *; clearbody t end.
  destruct Hs as [Ip Iso Ipd Iw Ist Ic Id Ie]. destruct (Hf 0) as (Eb & Ec' & Eh & _ & _).
  split; simpl; rewrite ?Eb; try done.
  - intros st era ctl l Hp El Es Hr. apply Hf in Hr as [Hr _]. by eapply Ipd.
  - intros era Hr. apply Hf in Hr as [Hr Hno]. destruct (Iw era Hr) as (c' & E' & Hw). exists c'. split; [congruence|].
    rewrite Ec in E'. injection E' as <-. rewrite elem_of_seqZ in Hno. unfold checked_sub, sat_sub in *.
    destruct (Z.leb_spec (history_depth (eras s)) c), (Z.leb_spec n c); simpl in *; lia.
  - intros era Hr. apply Hf in Hr. rewrite Ec'. by apply Ist.
  - intros c'. rewrite Ec'. apply Ic.
  - intros era Hr. apply Hf in Hr as [Hr _]. by apply Ie.
Qed.

(** The other calls write neither ledgers nor what is known of past eras. *)
Ltac same_tac :=
  keeps_tac; try (apply (keeps_modify _); intros ?;
    first [apply same_chill | apply same_remove_validator | apply same_remove_nominator | by split]).

Lemma other_calls_keep_claims origin (c : Call AccountId Source Perbill Percent) :
  match c with
  | CValidate _ | CNominate _ | CChill | CSetPayee _ | CKick _ | CChillOther _ | CSetValidatorCount _ | CIncreaseValidatorCount _
  | CScaleValidatorCount _ | CForceNoEras | CForceNewEra | CForceNewEraAlways | CSetInvulnerables _ | CCancelDeferredSlash _ _
  | CSetStakingLimits _ _ _ _ _ => keeps same_claims (dispatch cfg origin c)
  | _ => True
  end.
Proof.
  destruct c; try done; simpl;
    unfold validate, nominate, chill, set_payee, kick, kick_one, chill_other, set_validator_count, increase_validator_count,
      scale_validator_count, force_no_eras, force_new_era, force_new_era_always, set_invulnerables, cancel_deferred_slash,
      set_staking_limits, controller_ledger, ensure_signed, ensure_root;
    same_tac.
Qed.

(** The history depth is a [u32]. *)
Lemma dispatch_keeps_claims origin c paid s (u : unit) s' :
  dispatch cfg origin c s = (Ok u, s') -> in_uint 32 (history_depth (eras s')) -> claims_inv paid s -> claims_inv paid s'.
Proof.
  intros Hrun Hn Hs. pose proof (other_calls_keep_claims origin c) as Ho.
  destruct c; try (eapply keeps_same; [exact Ho|exact Hrun|exact Hs]); clear Ho; simpl in Hrun.
  - by eapply bond_keeps_claims.
  - by eapply bond_extra_keeps_claims.
  - by eapply unbond_keeps_claims.
  - by eapply withdraw_unbonded_keeps_claims.
  - by eapply rebond_keeps_claims.
  - by eapply set_controller_keeps_claims.
  - unfold force_unstake, ensure_root in Hrun. run_step Hrun. subst. by eapply kill_and_unlock.
  - unfold reap_stash in Hrun. run_step Hrun. subst. by eapply kill_and_unlock.
  - by eapply set_history_depth_keeps_claims.
Qed.

(** ** Slashes *)

Lemma same_do_slash who value acc (s : St) : same_claims s (do_slash who value acc s).2.
Proof.
  unfold do_slash. destruct acc as [reward imbalance]. destruct (bonded (bonds s) !! who) as [ctl|] eqn:Eb; [|done].
  destruct (ledger (bonds s) !! ctl) as [l|] eqn:El; [|done].
  pose proof (claimed_slash value sc_minimum_balance l) as [Est Ecl]. destruct (slash_ledger _ _ l) as [taken l'].
  destruct (taken =? 0); [done|]. destruct (sc_slash who taken (chain s)) as [[im missing] c]. simpl.
  transitivity (update_ledger ctl l' (over_chain (fun _ => c) s)); [|by apply same_parts].
  transitivity (over_chain (fun _ => c) s); [by apply same_parts|]. by apply (same_update_ledger _ l).
Qed.

Lemma same_apply_slash u (s : St) : same_claims s (apply_slash u s).
Proof.
  unfold apply_slash. pose proof (same_do_slash (us_validator u) (us_own u) (us_payout u, 0) s) as H1.
  destruct (do_slash _ _ _ s) as [acc s1]. simpl in H1.
  match goal with |- context [fold_left ?f ?l (acc, s1)] => assert (same_claims s1 (fold_left f l (acc, s1)).2) as H2;
    [|destruct (fold_left f l (acc, s1)) as [[reward imbalance] s2]] end.
  { apply (fold_left_inv (fun p => same_claims s1 p.2)); [|done]. intros [a t] o Ht. simpl in *. by rewrite Ht, <- same_do_slash. }
  simpl in H2. rewrite H1, H2. unfold pay_reporters. destruct (reporter_payments _ _ _) as [payments rest].
  apply same_over_chain, (fold_left_inv (fun t => same_claims s2 t)); [|done]. intros t p Ht. by apply same_over_chain.
Qed.

Lemma same_fetch who w paid slash rp (s : St) : same_claims s (fetch_spans who w paid slash rp s).2.
Proof. unfold fetch_spans. by destruct (slashing_spans (slashes s) !! who). Qed.

Lemma same_compare era slash (i : InspectingSpans AccountId Perbill) (s : St) : same_claims s (compare_and_update_span_slash era slash i s).2.
Proof. unfold compare_and_update_span_slash. destruct (era_span era i); [|done]. cbv zeta. by repeat case_match; simplify_eq. Qed.

Lemma same_drop (i : InspectingSpans AccountId Perbill) (s : St) : same_claims s (drop_spans i s).
Proof.
  unfold drop_spans. destruct (negb (dirty i)); [done|]. destruct (prune _ _) as [[[a b]|] sp]; [|by apply same_parts].
  apply same_over_slashes, (fold_left_inv (fun t => same_claims s t)); [|done]. intros t x Ht. by apply same_over_slashes.
Qed.

Lemma same_end_span now (i : InspectingSpans AccountId Perbill) (s : St) : same_claims s (end_current_span now i s).2.
Proof.
  unfold end_current_span. destruct (si_disable_validator _ _) as [d c]. simpl.
  etransitivity; [apply (same_chill (is_stash (inspect_end_span now i)))|].
  destruct (default false d); [|by apply same_parts]. unfold ensure_new_era. simpl. by destruct (force_era _).
Qed.

Lemma same_slash_nominators p prior ns : forall reward (s : St), same_claims s (slash_nominators p prior reward ns s).2.
Proof.
  induction ns as [|n ns IH]; intros reward s; simpl; [done|].
  assert (same_claims s (slash_nominator p prior reward n s).2) as H1.
  { unfold slash_nominator. cbv zeta. set (s0 := set_nominator_slash _ s).
    transitivity s0; [by apply same_parts|].
    match goal with |- context [fetch_spans ?a ?b ?c ?d ?e s0] => pose proof (same_fetch a b c d e s0) as Hx; destruct (fetch_spans a b c d e s0) as [i s1] end; (etransitivity; [exact Hx|clear Hx]).
    match goal with |- context [compare_and_update_span_slash ?a ?b i s1] =>
      pose proof (same_compare a b i s1) as Hx; destruct (compare_and_update_span_slash a b i s1) as [[target i'] s2] end; (etransitivity; [exact Hx|clear Hx]).
    simpl. apply same_drop. }
  destruct (slash_nominator p prior reward n s) as [[reward1 slashed] s1]. simpl in H1. transitivity s1; [done|].
  specialize (IH reward1 s1). by destruct (slash_nominators p prior reward1 ns s1) as [[r o] s2].
Qed.

Lemma same_compute_slash p (s : St) : same_claims s (compute_slash p s).2.
Proof.
  unfold compute_slash. cbv zeta. destruct (_ =? 0).
  - simpl. unfold kick_out_if_recent.
    match goal with |- context [fetch_spans ?a ?b ?c ?d ?e s] => pose proof (same_fetch a b c d e s) as Hx; destruct (fetch_spans a b c d e s) as [i s1] end; (etransitivity; [exact Hx|clear Hx]).
    simpl. case_bool_decide; [|apply same_drop]. pose proof (same_end_span (sp_now p) i s1) as Hx.
    destruct (end_current_span _ _ _) as [i' s']. etransitivity; [exact Hx|apply same_drop].
  - destruct (_ <? _); [|done]. set (s0 := set_validator_slash _ s). transitivity s0; [by apply same_parts|].
    match goal with |- context [fetch_spans ?a ?b ?c ?d ?e s0] => pose proof (same_fetch a b c d e s0) as Hx; destruct (fetch_spans a b c d e s0) as [i s1] end; (etransitivity; [exact Hx|clear Hx]).
    match goal with |- context [compare_and_update_span_slash ?a ?b i s1] =>
      pose proof (same_compare a b i s1) as Hx; destruct (compare_and_update_span_slash a b i s1) as [[target i'] s2] end; (etransitivity; [exact Hx|clear Hx]).
    simpl. match goal with |- context [if ?b then end_current_span ?n i' s2 else (i', s2)] =>
      assert (same_claims s2 (if b then end_current_span n i' s2 else (i', s2)).2) as Hx by (destruct b; [apply same_end_span|done]);
      destruct (if b then end_current_span n i' s2 else (i', s2)) as [i2 s3] end; (etransitivity; [exact Hx|clear Hx]).
    transitivity (drop_spans i2 s3); [apply same_drop|].
    match goal with |- context [slash_nominators p ?q 0 ?ns ?t] =>
      pose proof (same_slash_nominators p q ns 0 t) as Hx; by destruct (slash_nominators p q 0 ns t) as [[r o] s4] end.
Qed.

(** ** Hooks *)

Lemma same_on_offence offenders fractions session (s : St) : same_claims s (on_offence cfg offenders fractions session s).
Proof.
  unfold on_offence. destruct (active_era (eras s)) as [info|]; [|done]. cbv zeta. destruct (offence_era _ _ _) as [era|]; [|done].
  apply (fold_left_inv (fun t => same_claims s t)); [|by apply same_parts].
  intros t [details fraction] Ht. etransitivity; [exact Ht|]. unfold on_one_offence. destruct (offender details) as [st exposure].
  case_bool_decide; [done|].
  match goal with |- context [compute_slash ?p t] => pose proof (same_compute_slash p t) as Hx; destruct (compute_slash p t) as [[u|] t1] end; [|done]. etransitivity; [exact Hx|clear Hx].
  cbv zeta. destruct (_ =? 0); [apply same_apply_slash|by apply same_parts].
Qed.

Lemma same_apply_unapplied active (s : St) : same_claims s (apply_unapplied_slashes cfg active s).
Proof.
  unfold apply_unapplied_slashes. destruct (earliest_unapplied_slash _); [|done]. cbv zeta.
  apply same_over_slashes, (fold_left_inv (fun t => same_claims s t)); [|done]. intros t era Ht. etransitivity; [exact Ht|].
  apply (fold_left_inv (fun u => same_claims t u)); [|by apply same_parts]. intros u x Hu. etransitivity; [exact Hu|apply same_apply_slash].
Qed.

Lemma same_start_era session (s : St) : same_claims s (start_era cfg session s).
Proof.
  unfold start_era. cbv zeta. destruct (prune_bonded_eras _ _ _ _) as [kept pruned]. etransitivity; [|apply same_apply_unapplied].
  match goal with |- context [fold_left ?f pruned ?t] => assert (same_claims s (fold_left f pruned t)) as H1;
    [|generalize dependent (fold_left f pruned t)] end.
  { apply (fold_left_inv (fun t => same_claims s t)); [|by split]. intros t e Ht. by apply same_over_slashes, same_over_slashes. }
  intros t Ht. etransitivity; [exact Ht|]. repeat case_match; by split.
Qed.

Lemma same_start_session session (s : St) : same_claims s (start_session cfg session s).
Proof. unfold start_session. cbv zeta. repeat case_match; try done; apply same_start_era. Qed.

Lemma same_reward_by_ids points (s : St) : same_claims s (reward_by_ids points s).
Proof. unfold reward_by_ids. by destruct (active_era (eras s)). Qed.

Lemma same_on_finalize (s : St) : same_claims s (on_finalize cfg s).
Proof. unfold on_finalize. by destruct (active_era (eras s)) as [[i [t|]]|]. Qed.

(** A 32-bit index has room for one more era. *)
Definition planned_room (s : St) : Prop := forall c, current_era (eras s) = Some c -> c < umax 32.

Lemma same_store_stakers exposures era (s : St) : same_claims s (store_stakers_info cfg exposures era s).2.
Proof.
  unfold store_stakers_info.
  match goal with |- context [fold_left ?f exposures (0, s)] =>
    assert (same_claims s (fold_left f exposures (0, s)).2) as H1; [|destruct (fold_left f exposures (0, s)) as [total s1]] end.
  { apply (fold_left_inv (fun p => same_claims s p.2)); [|done]. intros [total t] [st e] Ht. simpl in *. etransitivity; [exact Ht|by split]. }
  simpl in *. etransitivity; [exact H1|]. apply (fold_left_inv (fun t => same_claims s1 t)); [|by split].
  intros t st Ht. etransitivity; [exact Ht|by split].
Qed.

(** The next era: what is before its history is cleared. *)
Lemma plan_era_claims paid n (s : St) :
  claims_inv paid s -> planned_room s ->
  let v := match current_era (eras s) with Some e => wrap 32 (e + 1) | None => 0 end in
  let t := set_current_era v n s in
  claims_inv paid (match checked_sub v (wrap 32 (history_depth (eras s) + 1)) with Some old => clear_era_information old t | None => t end).
Proof.
  intros [Ip Iso Ipd Iw Ist Ic Id Ie] Hroom v t. unfold in_uint in *.
  assert (in_uint 32 v /\ forall c, current_era (eras s) = Some c -> v = c + 1) as [Hv Hnext].
  { unfold v. destruct (current_era (eras s)) as [c|] eqn:Ec; [|split; [apply uint_zero; lia|done]].
    specialize (Ic c eq_refl). specialize (Hroom c Ec). rewrite wrap_exact by (unfold in_uint; lia). split; [unfold in_uint; lia|congruence]. }
  assert (wrap 32 (history_depth (eras s) + 1) = history_depth (eras s) + 1 \/ history_depth (eras s) = umax 32) as Hwrap.
  { destruct (decide (history_depth (eras s) = umax 32)); [by right|left]. apply wrap_exact. unfold in_uint. lia. }
  clearbody v. destruct (checked_sub v _) as [old|] eqn:Eold; split; simpl; try done.
  - intros st era ctl l Hp El Es Hr. apply lookup_delete_is_Some in Hr as [_ Hr]. by eapply Ipd.
  - intros era Hr. apply lookup_delete_is_Some in Hr as [Hne Hr]. destruct (Iw era Hr) as (c & Ec & Hc). exists v. split; [done|].
    specialize (Hnext c Ec). specialize (Ic c Ec). apply checked_sub_Some in Eold as [-> Hle]. unfold sat_sub in *. unfold in_uint in *. lia.
  - intros era Hr. exists v. split; [done|]. apply lookup_delete_is_Some in Hr as [_ Hr].
    apply lookup_insert_is_Some in Hr as [<-|[_ Hr]]; [lia|]. destruct (Ist era Hr) as (c & Ec & Hc). specialize (Hnext c Ec). lia.
  - by intros c [= <-].
  - intros era Hr. apply lookup_delete_is_Some in Hr as [_ Hr]. by apply Ie.
  - intros era Hr. destruct (Iw era Hr) as (c & Ec & Hc). exists v. split; [done|]. specialize (Hnext c Ec). specialize (Ic c Ec).
    unfold checked_sub in Eold. destruct (Z.leb_spec (wrap 32 (history_depth (eras s) + 1)) v); [done|]. unfold sat_sub in *. unfold in_uint in *. lia.
  - intros era Hr. exists v. split; [done|].
    apply lookup_insert_is_Some in Hr as [<-|[_ Hr]]; [lia|]. destruct (Ist era Hr) as (c & Ec & Hc). specialize (Hnext c Ec). lia.
  - by intros c [= <-].
Qed.

Lemma first_era_claims paid n (s : St) : claims_inv paid s -> current_era (eras s) = None -> claims_inv paid (set_current_era 0 n s).
Proof.
  intros [Ip Iso Ipd Iw Ist Ic Id Ie] Ec. split; simpl; try done.
  - intros era Hr. apply Iw in Hr as (c & Ec' & _). congruence.
  - intros era Hr. exists 0. split; [done|]. apply lookup_insert_is_Some in Hr as [<-|[_ Hr]]; [lia|].
    apply Ist in Hr as (c & Ec' & _). congruence.
  - intros c [= <-]. apply uint_zero. lia.
Qed.

Lemma new_session_claims paid i genesis (s : St) :
  claims_inv paid s -> planned_room s -> claims_inv paid (new_session cfg i genesis s).2.
Proof.
  intros Hs Hroom.
  assert (claims_inv paid (try_trigger_new_era cfg i genesis s).2) as Htry.
  { unfold try_trigger_new_era. destruct (elect cfg genesis (chain s)) as [[supports|] c]; [|by apply claims_event, claims_chain]. cbv zeta.
    destruct (_ <? _).
    - apply claims_event. simpl. destruct (current_era (eras s)) as [e|] eqn:Ec; [by apply claims_chain|].
      apply (inv_parts paid (set_current_era 0 i s)); [done..|]. by apply first_era_claims.
    - set (t := deposit_event StakingElection _). assert (claims_inv paid t) as Ht by (by apply claims_event, claims_chain).
      assert (planned_room t) as Hr by exact Hroom. clearbody t.
      match goal with |- context [trigger_new_era cfg i ?e t] => pose proof (plan_era_claims paid i t Ht Hr) as Hp;
        assert (claims_inv paid (trigger_new_era cfg i e t).2) as Hn; [|by destruct (trigger_new_era cfg i e t)] end.
      unfold trigger_new_era. cbv zeta. eapply inv_same; [apply same_store_stakers|]. exact Hp. }
  unfold new_session. destruct (current_era (eras s)); [|exact Htry].
  match goal with |- context [if ?b then _ else _] => destruct b; [|done] end.
  destruct (try_trigger_new_era cfg i genesis s) as [[v|] t]; [|done]. simpl in *.
  destruct (force_era (eras t)); try done. eapply inv_same; [|exact Htry]. by split.
Qed.

Lemma step_keeps_claims paid (s s' : St) :
  step cfg s s' -> planned_room s -> in_uint 32 (history_depth (eras s')) -> claims_inv paid s -> claims_inv paid s'.
Proof.
  intros Hstep Hroom Hd Hs. destruct Hstep as [origin c r t _ Hrun| |i genesis|i|points|offenders fractions session].
  - destruct r as [u|e|]; [by eapply dispatch_keeps_claims|..]; by rewrite (dispatch_clean cfg origin c _ _ _ Hrun ltac:(done)).
  - eapply inv_same; [apply same_on_finalize|exact Hs].
  - by apply new_session_claims.
  - eapply inv_same; [apply same_start_session|exact Hs].
  - eapply inv_same; [apply same_reward_by_ids|exact Hs].
  - eapply inv_same; [apply same_on_offence|exact Hs].
Qed.
End Claims.

(** ** What a claim pays *)

(** [from_rational] rounds down, and products to the nearest: the parts of an amount that
    shares of a whole stand for are together the amount, but for a unit each. *)
Class PerthingRationalLaws (P : Type) `{Perthing P} `{!PerthingRational P} : Prop := {
  pt_shares q x ps : Forall (Z.le 0) ps -> zsum id ps <= q -> 0 <= x ->
    zsum (fun p => pt_mul (pt_from_rational p q) x) ps <= x + Z.of_nat (length ps)
}.

Section Payments.
Context {L X AccountId Source Origin Perbill Percent : Type} `{Countable AccountId}.
Context `{!StakingCurrency L AccountId} `{!Session L AccountId} `{!FrameSystem L AccountId}.
Context `{!Perthing Perbill} `{!Perthing Percent} `{!PerthingRational Perbill}.
Variable make_payout : AccountId -> Z -> State L AccountId Perbill Percent -> option Z * State L AccountId Perbill Percent.

Abbreviation St := (State L AccountId Perbill Percent).
Abbreviation Run := (M (State L AccountId Perbill Percent) (StakingError + X)).

(** What a validator has earned of the reward of an era, with its nominators. *)
Definition validator_total_payout (s : St) (era era_payout : Z) (who : AccountId) : Z :=
  let points := era_points s era in
  pt_mul (pt_from_rational (default 0 (individual points !! who)) (points_total points) : Perbill) era_payout.

(** The payments for an era, the one to the validator first. *)
Definition payments (s : St) (era era_payout : Z) (who : AccountId) : list (AccountId * Z) :=
  if default 0 (individual (era_points s era) !! who) =? 0 then []
  else
    let exposure := exposure_clipped s era who in
    let total := validator_total_payout s era era_payout who in
    let commission_payout := pt_mul (commission (era_prefs s era who)) total in
    let part share := pt_mul (pt_from_rational share (exp_total exposure) : Perbill) (total - commission_payout) in
    (who, wrap 128 (part (exp_own exposure) + commission_payout)) :: map (fun n => (n.1, part n.2)) (exp_others exposure).

Lemma zsum_of_map {B C : Type} (f : C -> Z) (g : B -> C) l : zsum f (map g l) = zsum (fun x => f (g x)) l.
Proof. induction l as [|x l IH]; [done|]. simpl. by rewrite IH. Qed.

Lemma for_each_map {B C S E : Type} (f : B -> C) (body : C -> M S E unit) l :
  forall s, for_each body (map f l) s = for_each (fun x => body (f x)) l s.
Proof. induction l as [|x l IH]; intros s; [done|]. simpl. unfold bind. destruct (body (f x) s) as [[u|e|] t]; [apply IH|done..]. Qed.

Lemma distribute_pays era era_payout (l : StakingLedger AccountId) (s : St) :
  distribute (X := X) make_payout (stash l) era era_payout l s
  = for_each (fun p => pay make_payout p.1 p.2) (payments s era era_payout (stash l)) s.
Proof.
  unfold distribute, payments. unfold bind at 1, get. destruct (_ =? 0); [done|]. cbv zeta. simpl for_each.
  unfold bind. destruct (pay _ _ _ _) as [[u|e|] t]; [|done..]. by rewrite for_each_map.
Qed.

Lemma always_pay who v : always_ok (pay make_payout who v : Run unit).
Proof.
  apply always_bind; [intros s; destruct (make_payout who v s); by eexists _, _|]. intros [v'|]; [apply always_modify|apply always_ret].
Qed.

Lemma always_distribute stash era era_payout l : always_ok (distribute make_payout stash era era_payout l : Run unit).
Proof.
  unfold distribute. apply always_bind; [apply always_get|intros s]. cbv zeta. destruct (_ =? 0); [apply always_ret|].
  apply always_bind; [apply always_pay|intros _]. apply always_for_each. intros n. apply always_pay.
Qed.

Lemma payout_clean cfg (origin : Origin) st era : clean (payout_stakers (Source := Source) cfg make_payout origin st era : Run unit).
Proof.
  unfold payout_stakers, do_payout_stakers. apply clean_read_first; [unfold ensure_signed; readonly_tac|intros _].
  apply clean_read_first; [unfold claim_reward; readonly_tac|intros [v [ctl l]]].
  apply clean_always, always_bind; [apply always_modify|intros _; apply always_distribute].
Qed.

(** What is recorded of the exposures and the points of an era adds up. *)
Record era_adds_up (s : St) (era : Z) (whos : list AccountId) : Prop := {
  adds_shares who : who ∈ whos -> let e := exposure_clipped s era who in
    0 <= exp_own e /\ Forall (fun n => 0 <= n.2) (exp_others e) /\ exp_own e + zsum snd (exp_others e) <= exp_total e;
  adds_points who : 0 <= default 0 (individual (era_points s era) !! who);
  adds_total : zsum (fun who => default 0 (individual (era_points s era) !! who)) whos <= points_total (era_points s era)
}.

Context `{!PerthingLaws Perbill} `{!PerthingRationalLaws Perbill}.

(** The payments of one claim are within what the validator has earned, but for a unit each. *)
Lemma payments_within_part s era era_payout who whos :
  era_adds_up s era whos -> who ∈ whos -> 0 <= era_payout ->
  zsum snd (payments s era era_payout who) <= validator_total_payout s era era_payout who + Z.of_nat (length (payments s era era_payout who)).
Proof.
  intros Hadd Hwho Hpay. destruct (adds_shares _ _ _ Hadd who Hwho) as (Hown & Hothers & Hsum).
  unfold payments. pose proof (pt_mul_part (pt_from_rational (default 0 (individual (era_points s era) !! who)) (points_total (era_points s era)) : Perbill) era_payout Hpay) as [Htotal _].
  change (0 <= validator_total_payout s era era_payout who) in Htotal. destruct (_ =? 0); [simpl; lia|].
  cbv zeta. set (e := exposure_clipped s era who) in *.
  set (total := validator_total_payout s era era_payout who) in *. clearbody total.
  pose proof (pt_mul_part (commission (era_prefs s era who)) total Htotal) as Hcom.
  set (com := pt_mul (commission (era_prefs s era who)) total) in *. clearbody com.
  pose proof (pt_shares (P := Perbill) (exp_total e) (total - com) (exp_own e :: map snd (exp_others e))) as Hshares.
  simpl. simpl in Hshares. rewrite !zsum_of_map, length_map in Hshares. rewrite zsum_of_map, length_map. simpl.
  assert (Forall (Z.le 0) (exp_own e :: map snd (exp_others e))) as Hnn by (constructor; [done|]; rewrite Forall_map; exact Hothers).
  specialize (Hshares Hnn Hsum ltac:(lia)).
  pose proof (pt_mul_part (P := Perbill) (pt_from_rational (exp_own e) (exp_total e)) (total - com) ltac:(lia)) as Hpart.
  set (own := pt_mul (pt_from_rational (exp_own e) (exp_total e)) (total - com)) in *. clearbody own.
  pose proof (Z.mod_le (own + com) (2 ^ 128) ltac:(lia) ltac:(lia)).
  unfold wrap. lia.
Qed.

(** C12: a claim makes one payment to the validator and one to each exposed nominator, and
    however many validators of an era claim, all that is paid is at most the reward of the
    era, but for the rounding of each payment and each claim to a unit. *)
Theorem era_pays_its_reward s era era_payout whos :
  era_adds_up s era whos -> 0 <= era_payout ->
  (forall l, distribute (X := X) make_payout (stash l) era era_payout l s
             = for_each (fun p => pay make_payout p.1 p.2) (payments s era era_payout (stash l)) s)
  /\ zsum (fun who => zsum snd (payments s era era_payout who)) whos
  <= era_payout + Z.of_nat (length whos) + zsum (fun who => Z.of_nat (length (payments s era era_payout who))) whos.
Proof.
  intros Hadd Hpay. split; [intros l; apply distribute_pays|].
  assert (zsum (validator_total_payout s era era_payout) whos <= era_payout + Z.of_nat (length whos)) as Htotal.
  { set (points who := default 0 (individual (era_points s era) !! who)).
    pose proof (pt_shares (P := Perbill) (points_total (era_points s era)) era_payout (map points whos)) as Hs. rewrite length_map in Hs.
    rewrite !zsum_of_map in Hs. apply Hs; [|exact (adds_total _ _ _ Hadd)|done].
    rewrite Forall_map. apply List.Forall_forall. intros w _. apply (adds_points _ _ _ Hadd). }
  assert (forall l, (forall w, w ∈ l -> w ∈ whos) -> zsum (fun who => zsum snd (payments s era era_payout who)) l
    <= zsum (validator_total_payout s era era_payout) l + zsum (fun who => Z.of_nat (length (payments s era era_payout who))) l) as Hall.
  { induction l as [|w l IH]; intros Hin; simpl; [lia|].
    pose proof (payments_within_part s era era_payout w whos Hadd (Hin w ltac:(by apply list_elem_of_here)) Hpay).
    specialize (IH ltac:(intros v Hv; apply Hin; by apply list_elem_of_further)). lia. }
  specialize (Hall whos ltac:(done)). lia.
Qed.
End Payments.

(** ** Once *)

Section Paid.
Context {L X AccountId Source Origin Perbill Percent : Type} `{Countable AccountId}.
Context `{!StakingCurrency L AccountId} `{!Session L AccountId} `{!FrameSystem L AccountId}.
Context `{!Perthing Perbill} `{!Perthing Percent} `{!PerthingRational Perbill}.
Variable cfg : Config L X AccountId Source Origin.
Variable make_payout : AccountId -> Z -> State L AccountId Perbill Percent -> option Z * State L AccountId Perbill Percent.

Abbreviation St := (State L AccountId Perbill Percent).
Abbreviation Run := (M (State L AccountId Perbill Percent) (StakingError + X)).

(** Paying may add to a ledger, but not touch what it claims. *)
Hypothesis pays_only : forall who v s, same_claims s (make_payout who v s).2.

Lemma same_pay who v : keeps same_claims (pay make_payout who v : Run unit).
Proof.
  unfold pay. intros s u s' Hrun. run_step Hrun. pose proof (pays_only who v s) as Hp.
  destruct (make_payout who v s) as [r t]. simpl in Hp. run_inv R. destruct x; run_step Hrun; subst; [|done].
  transitivity x0; [done|by apply same_parts].
Qed.

Lemma same_distribute stash era era_payout l : keeps same_claims (distribute make_payout stash era era_payout l : Run unit).
Proof.
  unfold distribute. apply (keeps_bind _); [eauto with keeps typeclass_instances|intros s]. cbv zeta. destruct (_ =? 0); [by apply (keeps_ret _)|].
  apply (keeps_bind _); [apply same_pay|intros _]. apply (keeps_for_each _). intros n. apply same_pay.
Qed.

(** The checks of a claim. *)
Lemma claim_reward_ok st era (s : St) v ctl l' s' :
  (claim_reward st era : Run _) s = (Ok (v, (ctl, l')), s') ->
  s' = s /\ eras_validator_reward (eras s) !! era = Some v /\ bonded (bonds s) !! st = Some ctl
  /\ exists c l claimed, current_era (eras s) = Some c /\ sat_sub c (history_depth (eras s)) <= era
     /\ ledger (bonds s) !! ctl = Some l
     /\ claim_era era (retain_from (sat_sub c (history_depth (eras s))) (claimed_rewards l)) = Some claimed
     /\ l' = MkLedger (stash l) (total l) (active l) (unlocking l) claimed.
Proof.
  unfold claim_reward. intros Hrun. cbv zeta in Hrun. run_step Hrun. simplify_eq. bool_inv. split_and!; try done.
  eexists _, _, _. by split_and!.
Qed.

(** A claim that succeeds is the first of the stash for the era, and is recorded. *)
Lemma payout_claims ended paid st era (s : St) (u : unit) s' :
  (do_payout_stakers make_payout st era : Run unit) s = (Ok u, s') -> claims_inv ended paid s ->
  ~ (st, era) ∈ paid /\ is_Some (eras_validator_reward (eras s) !! era) /\ claims_inv ended ((st, era) :: paid) s'
  /\ eras_validator_reward (eras s') = eras_validator_reward (eras s).
Proof.
  intros Hrun Hs. unfold do_payout_stakers in Hrun. rewrite bind_ok in Hrun. destruct Hrun as ([v [ctl l']] & s0 & Hc & Hrun).
  apply claim_reward_ok in Hc as (-> & Hv & Eb & c & l & claimed & Ec & Hera & El & Hcl & ->).
  rewrite bind_ok in Hrun. destruct Hrun as (? & s1 & Hm & Hrun). rewrite modify_ok in Hm.
  destruct Hs as [Ip Iso Ipd Iw Ist Ic Id Ie].
  destruct (proj1 (Ip st ctl) Eb) as (l0 & El0 & Est). rewrite El in El0. injection El0 as <-.
  pose proof (claim_era_spec era _ (retain_sorted (sat_sub c (history_depth (eras s))) _ (Iso ctl l El))) as Hspec. rewrite Hcl in Hspec.
  destruct Hspec as (Hno & Hsorted & Hin). split_and!.
  - intros Hp. apply Hno, elem_of_retain. split; [done|]. apply (Ipd st era ctl l); try done; by eexists.
  - by eexists.
  - apply same_distribute in Hrun. eapply inv_same; [exact Hrun|]. subst s1. split; simpl; try done.
    + intros w k. rewrite Ip. destruct (decide (ctl = k)) as [<-|Hne]; [rewrite lookup_insert_eq|by rewrite lookup_insert_ne].
      rewrite El. split; intros (l2 & [= <-] & Es2); by eexists.
    + intros k l2. rewrite lookup_insert_Some. intros [[<- <-]|[_ E2]]; [done|by eapply Iso].
    + intros w e k l2 Hp. rewrite lookup_insert_Some. intros [[<- <-]|[Hne E2]] Es2 Hr; simpl in *.
      * apply Hin. apply elem_of_cons in Hp as [[= _ ->]|Hp]; [by left|right]. apply elem_of_retain.
        split; [|by eapply Ipd]. destruct (Iw e Hr) as (c' & E' & Hw). rewrite Ec in E'. injection E' as <-. lia.
      * apply elem_of_cons in Hp as [[= -> ->]|Hp]; [|by eapply Ipd]. exfalso. apply Hne.
        assert (bonded (bonds s) !! st = Some k) by (apply Ip; eauto). congruence.
  - apply same_distribute in Hrun. rewrite (same_reward _ _ Hrun). by subst s1.
Qed.

(** What has happened: the stashes and eras that were paid, the last first, and the eras
    that ended, each with a reward that the model leaves open, and each once. *)
Inductive history (s0 : St) : list (AccountId * Z) -> list Z -> St -> Prop :=
| history_start : history s0 [] [] s0
| history_step paid ended s s' :
    history s0 paid ended s -> step cfg s s' -> planned_room s -> in_uint 32 (history_depth (eras s')) -> history s0 paid ended s'
| history_end paid ended s session info reward :
    history s0 paid ended s -> era_to_end session s = Some info -> 0 <= era_index info < umax 32 -> ~ era_index info ∈ ended ->
    (forall c, current_era (eras s) = Some c -> sat_sub c (history_depth (eras s)) <= era_index info) ->
    history s0 paid (era_index info :: ended) (end_session session reward s)
| history_payout paid ended s origin st era s' :
    history s0 paid ended s -> payout_stakers cfg make_payout origin st era s = (Ok tt, s') -> history s0 ((st, era) :: paid) ended s'
| history_refused paid ended s origin st era r s' :
    history s0 paid ended s -> payout_stakers cfg make_payout origin st era s = (r, s') -> r <> Ok tt -> history s0 paid ended s'.

Lemma end_session_keeps ended paid session reward info (s : St) :
  era_to_end session s = Some info -> 0 <= era_index info < umax 32 -> (forall st, ~ (st, era_index info) ∈ paid) ->
  (forall c, current_era (eras s) = Some c -> sat_sub c (history_depth (eras s)) <= era_index info) ->
  claims_inv ended paid s -> claims_inv (era_index info :: ended) paid (end_session session reward s).
Proof.
  intros Hend Hi Hnew Hh [Ip Iso Ipd Iw Ist Ic Id Ie]. unfold end_session. rewrite Hend. unfold end_era.
  destruct (era_start info); [|split; try done; intros era Hr; apply list_elem_of_further; by apply Ie]. split; simpl; try done.
  - intros st era ctl l Hp El Es. rewrite lookup_insert_is_Some. intros [<-|[_ Hr]]; [by destruct (Hnew st)|by eapply Ipd].
  - intros era. rewrite lookup_insert_is_Some. intros [<-|[_ Hr]]; [|by apply Iw].
    unfold era_to_end in Hend. destruct (active_era (eras s)) as [a|]; [|done]. simpl in Hend.
    destruct (eras_start_session_index (eras s) !! _) as [n|] eqn:En; [|done]. simpl in Hend. case_match; [|done]. injection Hend as ->.
    destruct (Ist (wrap 32 (era_index info + 1))) as (c & Ec & Hc); [by eexists|].
    rewrite wrap_exact in Hc by (unfold in_uint; lia). exists c. split; [done|]. specialize (Hh c Ec). lia.
  - intros era. rewrite lookup_insert_is_Some, elem_of_cons. intros [<-|[_ Hr]]; [by left|right; by apply Ie].
Qed.

Lemma history_claims s0 paid ended s :
  claims_inv [] [] s0 -> history s0 paid ended s ->
  claims_inv ended paid s /\ NoDup paid /\ forall st era, (st, era) ∈ paid -> era ∈ ended.
Proof.
  intros H0. induction 1 as [|paid ended s s' _ IH Hstep Hroom Hd|paid ended s session info reward _ IH Hend Hi Hnew Hh
    |paid ended s origin st era s' _ IH Hrun|paid ended s origin st era r s' _ IH Hrun Hr].
  - split_and!; [done|constructor|]. intros st era Hp. by apply elem_of_nil in Hp.
  - destruct IH as (Hs & Hdup & Hended). split_and!; [by eapply step_keeps_claims|done|done].
  - destruct IH as (Hs & Hdup & Hended). split_and!; [|done|intros st era Hp; apply list_elem_of_further; by eapply Hended].
    eapply end_session_keeps; try done. intros st Hp. by apply Hended in Hp.
  - destruct IH as (Hs & Hdup & Hended). unfold payout_stakers in Hrun. rewrite bind_ok in Hrun. destruct Hrun as (who & s1 & Hw & Hrun).
    unfold ensure_signed in Hw. rewrite ok_or_ok in Hw. destruct Hw as [_ ->].
    destruct (payout_claims _ _ _ _ _ _ _ Hrun Hs) as (Hno & Hr & Hs' & _). split_and!; [done|by constructor|].
    intros w e. rewrite elem_of_cons. intros [[= -> ->]|Hp]; [by apply (claims_ended _ _ _ Hs)|by eapply Hended].
  - destruct r as [[]|e|]; [done|by rewrite (payout_clean make_payout cfg origin st era _ _ _ Hrun ltac:(done))..].
Qed.

(** C11: whatever calls are made, whoever bonds again or changes controller, however the depth
    of the history changes and whatever eras begin and end, no validator is paid twice for an
    era, as long as each era ends once and within the history. *)
Theorem era_is_paid_once s0 paid ended s : claims_inv [] [] s0 -> history s0 paid ended s -> NoDup paid.
Proof. intros H0 Hh. by destruct (history_claims s0 paid ended s H0 Hh) as (_ & Hdup & _). Qed.
End Paid.

(** ** The native payout *)

Section Native.
Context {L AccountId Perbill Percent : Type} `{Countable AccountId}.
Context `{!StakingCurrency L AccountId} `{!Session L AccountId} `{!FrameSystem L AccountId}.
Context `{!Perthing Perbill} `{!Perthing Percent} `{!PayoutCurrency L AccountId}.

Abbreviation St := (State L AccountId Perbill Percent).

(** It adds to the ledger of a stash that has its rewards staked, and to no claims. *)
Lemma native_pays_only who v (s : St) : same_claims s (make_native_payout who v s).2.
Proof.
  unfold make_native_payout. destruct (v =? 0); [done|]. cbv zeta.
  destruct (payee_of s who); simpl; [|destruct (pc_deposit_into_existing _ _ _)| |destruct (pc_deposit_creating _ _ _)|done]; try by apply same_parts.
  - destruct (bonded (bonds s) !! who) as [ctl|]; [|done]. simpl. destruct (ledger (bonds s) !! ctl) as [l|] eqn:El; [|done]. simpl.
    destruct (pc_deposit_into_existing _ _ _) as [r c]. simpl.
    transitivity (over_chain (fun _ => c) s); [by apply same_parts|]. by apply (same_update_ledger _ l).
  - destruct (bonded (bonds s) !! who) as [ctl|]; [|done]. destruct (pc_deposit_creating _ _ _). by apply same_parts.
Qed.

(** A storage without rewards and without planned eras ahead satisfies the invariant if that
    of staking holds. *)
Lemma claims_start (s : St) :
  staking_inv s -> (forall ctl l, ledger (bonds s) !! ctl = Some l -> sorted (claimed_rewards l)) -> eras_validator_reward (eras s) = ∅ ->
  (forall era, is_Some (eras_start_session_index (eras s) !! era) -> exists c, current_era (eras s) = Some c /\ era <= c) ->
  (forall c, current_era (eras s) = Some c -> in_uint 32 c) -> in_uint 32 (history_depth (eras s)) -> claims_inv [] [] s.
Proof.
  intros Hs Hsorted Hr Hst Hc Hd. split; try done.
  - apply (bonds_pair _ _ (inv_bonds _ Hs)).
  - intros st era ctl l Hp. by apply elem_of_nil in Hp.
  - intros era. rewrite Hr, lookup_empty. by intros [].
  - intros era. rewrite Hr, lookup_empty. by intros [].
Qed.
End Native.

(** * Paying for an era

    The runtime of [StakingExamples] with a validator and its nominator at the end of an
    era, paid in the native currency. *)

(** ** Shares, and a currency that pays *)

#[global] Instance perbill_rational : PerthingRational perbill := { pt_from_rational p q := MkParts (p * BILLION / Z.max 1 q) }.

Lemma shares_of_whole q ps : 0 < q -> Forall (Z.le 0) ps -> q * zsum (fun p => p * BILLION / q) ps <= BILLION * zsum id ps.
Proof.
  intros Hq. induction 1 as [|p ps Hp _ IH]; simpl; [lia|].
  pose proof (Z.mul_div_le (p * BILLION) q Hq). unfold id in *. lia.
Qed.

#[global] Instance perbill_rational_laws : PerthingRationalLaws perbill.
Proof.
  split. intros q x ps Hps Hsum Hx.
  assert (0 < BILLION) as HB by by vm_compute. assert (0 <= BILLION / 2 - 1 < BILLION) as Hh by by vm_compute.
  set (part p := p * BILLION / Z.max 1 q). set (h := BILLION / 2 - 1) in *.
  assert (zsum part ps <= BILLION) as Hwhole.
  { pose proof (shares_of_whole (Z.max 1 q) ps ltac:(lia) Hps) as Hs. fold part in Hs.
    assert (zsum id ps <= Z.max 1 q) by lia. nia. }
  assert (BILLION * zsum (fun p => pt_mul (pt_from_rational p q : perbill) x) ps <= zsum part ps * x + Z.of_nat (length ps) * h) as Hall.
  { clear Hsum Hwhole. induction Hps as [|p ps Hp _ IH]; [simpl; lia|]. cbn [zsum length].
    set (r := pt_from_rational p q) in *. assert (0 <= parts_of r <= part p) as Hpart.
    { unfold parts_of. change (parts_raw r) with (part p). assert (0 <= part p) by (apply Z.div_pos; lia). lia. }
    pose proof (Z.mul_div_le (parts_of r * x + h) BILLION HB) as Hdiv.
    change (pt_mul r x) with ((parts_of r * x + h) / BILLION).
    set (v := (parts_of r * x + h) / BILLION) in *. set (rest := zsum _ ps) in IH |- *. clearbody v rest r. nia. }
  set (paid := zsum _ ps) in Hall. change (paid <= x + Z.of_nat (length ps)). clearbody paid. clearbody h. set (whole := zsum part ps) in *. clearbody whole. clear part Hps Hsum.
  apply Zlt_succ_le. nia.
Qed.

#[global] Instance chain_payouts : PayoutCurrency Chain Z := {
  pc_deposit_creating who v c := (v, MkChain (<[who := free_of who c + v]> (free c)) (locks c) (handled c));
  pc_deposit_into_existing who v c :=
    if bool_decide (is_Some (free c !! who)) then (Some v, MkChain (<[who := free_of who c + v]> (free c)) (locks c) (handled c)) else (None, c)
}.

(** ** The end of era 2 *)

Abbreviation PaySt := (State Chain Z perbill percent).

(** Validator 10 with a commission of a tenth, exposed with 800 of its own and 500 of stash 1;
    both have claimed the two eras before, and stash 1 has its rewards staked. *)
Definition pay_start : PaySt :=
  MkState (MkBonds {[10 := 11; 1 := 2]} {[11 := StakingLedger.MkLedger 10 800 800 [] [0; 1]; 2 := StakingLedger.MkLedger 1 500 500 [] [0; 1]]} {[10 := Stash; 1 := Staked]})
    (MkRoles ∅ 0 ∅ 0 0 0 None None None)
    (MkEras 84 2 1 (Some 3) (Some (MkActiveEra 2 (Some 0))) NotForcing [] {[3 := 18]} ∅ {[(2, 10) := MkExposure 1300 800 [(1, 500)]]}
       {[(2, 10) := MkPrefs (MkParts (BILLION / 10)) false]} ∅ ∅ ∅)
    (MkSlashes [] (MkParts (BILLION / 10)) ∅ None ∅ ∅ ∅ ∅) [] (MkChain {[1 := 1000; 10 := 2000]} {[10 := 800; 1 := 500]} 0).

Definition pay_pointed : PaySt := reward_by_ids [(10, 20)] pay_start.
Definition pay_ended : PaySt := end_session 17 1000 pay_pointed.

Definition pay_out (stash era : Z) (s : PaySt) : outcome (StakingError + unit) unit * PaySt :=
  payout_stakers stk_config make_native_payout 5 stash era s.

Definition pay_paid : PaySt := (pay_out 10 2 pay_ended).2.

Example paid_once :
  (pay_out 10 2 pay_start).1 = Err (inl InvalidEraToReward) /\ (pay_out 10 2 pay_ended).1 = Ok tt
  /\ events pay_paid = [Reward 10 654; Reward 1 346]
  /\ free (chain pay_paid) = {[1 := 1346; 10 := 2654]} /\ ledger (bonds pay_paid) !! 2 = Some (StakingLedger.MkLedger 1 846 846 [] [0; 1])
  /\ (pay_out 10 2 pay_paid).1 = Err (inl AlreadyClaimed) /\ (pay_out 10 1 pay_paid).1 = Err (inl InvalidEraToReward).
Proof. by vm_compute. Qed.

(** ** The theorems, applied *)

Lemma pay_start_sorted ctl l : ledger (bonds pay_start) !! ctl = Some l -> StronglySorted Z.lt (claimed_rewards l).
Proof.
  simpl. rewrite lookup_insert_Some, lookup_singleton_Some. intros [[<- <-]|[_ [<- <-]]]; simpl; repeat constructor.
Qed.

Lemma pay_start_claims : claims_inv [] [] pay_start.
Proof.
  split; try done.
  - intros st ctl. simpl. setoid_rewrite lookup_insert_Some. setoid_rewrite lookup_singleton_Some. split.
    + intros [[<- <-]|[Hne [<- <-]]]; [exists (StakingLedger.MkLedger 10 800 800 [] [0; 1])|exists (StakingLedger.MkLedger 1 500 500 [] [0; 1])]; split; [by left|done|by right|done].
    + intros (l & [[<- <-]|[Hne [<- <-]]] & <-); [by left|by right].
  - exact pay_start_sorted.
  - intros st era ctl l Hp. by apply elem_of_nil in Hp.
  - intros era. simpl. rewrite lookup_empty. by intros [].
  - intros era. simpl. intros [n Hn]. apply lookup_singleton_Some in Hn as [<- _]. by exists 3.
  - intros c. simpl. intros [= <-]. by vm_compute.
  - intros era. simpl. rewrite lookup_empty. by intros [].
Qed.

Lemma pay_history : history stk_config make_native_payout pay_start [(10, 2)] [2] pay_paid.
Proof.
  eapply (history_payout _ _ _ [] [2] pay_ended 5 10 2); [|exact (outcome_split (pay_out 10 2 pay_ended) (Ok tt) ltac:(vm_compute; reflexivity))].
  apply (history_end stk_config make_native_payout pay_start [] [] pay_pointed 17 (MkActiveEra 2 (Some 0)) 1000).
  - eapply history_step; [apply history_start|apply (step_reward _ _ [(10, 20)])|by intros c [= <-]|by vm_compute].
  - by vm_compute.
  - by vm_compute.
  - apply not_elem_of_nil.
  - intros c [= <-]. by vm_compute.
Qed.

Lemma era_is_paid_once_witness : NoDup [(10, 2)] /\ (pay_out 10 2 pay_ended).1 = Ok tt.
Proof.
  split; [|vm_compute; reflexivity].
  exact (era_is_paid_once stk_config make_native_payout native_pays_only pay_start [(10, 2)] [2] pay_paid pay_start_claims pay_history).
Defined.

Lemma pay_adds_up : era_adds_up pay_ended 2 [10].
Proof.
  split.
  - intros who Hwho. apply list_elem_of_singleton in Hwho as ->. vm_compute. split; [discriminate|]. split; [|discriminate].
    constructor; [discriminate|constructor].
  - intros who. assert (individual (era_points pay_ended 2) = {[10 := 20]}) as -> by (vm_compute; reflexivity).
    destruct (decide (who = 10)) as [->|Hne]; [by rewrite lookup_singleton_eq|]. by rewrite lookup_singleton_ne.
  - by vm_compute.
Qed.

Lemma era_pays_its_reward_witness :
  payments pay_ended 2 1000 10 = [(10, 654); (1, 346)]
  /\ zsum (fun who => zsum snd (payments pay_ended 2 1000 who)) [10] <= 1003.
Proof.
  assert (payments pay_ended 2 1000 10 = [(10, 654); (1, 346)]) as E by (vm_compute; reflexivity). split; [exact E|].
  destruct (era_pays_its_reward (X := unit) make_native_payout pay_ended 2 1000 [10] pay_adds_up ltac:(lia)) as [_ Hp].
  assert (1000 + Z.of_nat (length [10]) + zsum (fun who => Z.of_nat (length (payments pay_ended 2 1000 who))) [10] = 1003) as Er
    by (cbn [zsum]; rewrite E; reflexivity).
  rewrite Er in Hp. exact Hp.
Defined.
