(* ===== verification/TransactionPayment.v ===== *)
(** * Fees: what a transaction costs and how it is paid

    [lib-serml/transaction-payment/src/lib.rs]: the fee of a transaction, the multiplier
    that follows the load of the blocks, the order of currencies a fee is paid in (swapped
    for the native one on the exchange), and the life of a fee: withdrawn before the
    dispatch, partly refunded and distributed after it. The native currency with its
    imbalances, the weights of the runtime and the types of [FixedU128] are parameters. *)

From S2P Require Import Prelude Currency Externals.

(** ** What the pallet uses of other crates *)

(** More of [FixedU128]; the division panics when there is no result. *)
Class FixedPointArith (F : FixedPoint) : Type := {
  fp_saturating_from_rational : Z -> Z -> FP;
  fp_saturating_add : FP -> FP -> FP;
  fp_saturating_sub : FP -> FP -> FP;
  fp_checked_div : FP -> FP -> option FP
}.

Inductive WithdrawReasons : Type := TRANSACTION_PAYMENT | TRANSACTION_PAYMENT_AND_TIP.

(** [SameOrOther] of two imbalances. *)
Inductive SameOrOther (N P : Type) : Type := Same (n : N) | NoneLeft | Other (p : P).

Arguments Same {N P}.
Arguments NoneLeft {N P}.
Arguments Other {N P}.

(** [T::Currency], the imbalances of its withdrawals [N] and deposits [P], and
    [T::OnTransactionPayment]. *)
Class FeeCurrency (L X A N P : Type) : Type := {
  native_free : A -> L -> Z;
  native_can_withdraw : A -> Z -> WithdrawReasons -> Z -> L -> bool;
  native_withdraw : A -> Z -> WithdrawReasons -> M L X N;
  native_deposit_into_existing : A -> Z -> M L X P;
  native_reserve : A -> Z -> M L X unit;
  native_unreserve : A -> Z -> L -> L;
  offset : N -> P -> SameOrOther N P;
  split : N -> Z -> N * N;
  no_imbalance : N;
  on_unbalanceds : list N -> L -> L
}.

Inductive DispatchClass : Type := Normal | Operational | Mandatory.
Inductive Pays : Type := Yes | No.

Record DispatchInfo : Type := MkInfo { weight : Z; class : DispatchClass; pays_fee : Pays }.

Record InclusionFee : Type := MkInclusionFee { base_fee : Z; len_fee : Z; adjusted_weight_fee : Z }.
Record FeeDetails : Type := MkFeeDetails { inclusion_fee : option InclusionFee; tip : Z }.

Record RuntimeDispatchInfo : Type := MkRuntimeInfo { info_weight : Z; info_class : DispatchClass; partial_fee : Z }.

(** The configuration. [final_fee] adds up a [FeeDetails]; [PostInfo] is [PostDispatchInfo]
    with its two readings; [swap] is [DEXManager::swap_with_exact_target] and [balance]
    [MultiCurrency::free_balance]. *)
Record Config (F : FixedPoint) (L X A PostInfo : Type) : Type := MkConfig {
  AllNonNativeCurrencyIds : list CurrencyId;
  NativeCurrencyId : CurrencyId;
  GetSetterCurrencyId : CurrencyId;
  TransactionByteFee : Z;
  WeightToFee : Z -> Z;
  MaxSlippageSwapWithDEX : FP;
  max_block : Z;
  base_extrinsic : DispatchClass -> Z;
  max_total : DispatchClass -> option Z;
  max_block_length : DispatchClass -> Z;
  block_weight : DispatchClass -> L -> Z;
  FeeMultiplierUpdate : FP -> L -> option FP;
  final_fee : FeeDetails -> Z;
  calc_actual_weight : PostInfo -> DispatchInfo -> Z;
  actual_pays_fee : PostInfo -> DispatchInfo -> Pays;
  swap : A -> list CurrencyId -> Z -> Z -> option FP -> M L X Z;
  balance : CurrencyId -> A -> L -> Z
}.

Arguments AllNonNativeCurrencyIds {F L X A PostInfo}.
Arguments NativeCurrencyId {F L X A PostInfo}.
Arguments GetSetterCurrencyId {F L X A PostInfo}.
Arguments TransactionByteFee {F L X A PostInfo}.
Arguments WeightToFee {F L X A PostInfo}.
Arguments MaxSlippageSwapWithDEX {F L X A PostInfo}.
Arguments max_block {F L X A PostInfo}.
Arguments base_extrinsic {F L X A PostInfo}.
Arguments max_total {F L X A PostInfo}.
Arguments max_block_length {F L X A PostInfo}.
Arguments block_weight {F L X A PostInfo}.
Arguments FeeMultiplierUpdate {F L X A PostInfo}.
Arguments final_fee {F L X A PostInfo}.
Arguments calc_actual_weight {F L X A PostInfo}.
Arguments actual_pays_fee {F L X A PostInfo}.
Arguments swap {F L X A PostInfo}.
Arguments balance {F L X A PostInfo}.

(** [InvalidTransaction::Payment], and the origin of the one call. *)
Inductive PaymentError : Type := Payment | BadOrigin.

Record State (F : FixedPoint) (L A : Type) `{Countable A} : Type := MkState {
  next_fee_multiplier : FP;
  default_fee_currency_id : gmap A CurrencyId;
  chain : L
}.

Arguments MkState {F L A _ _}.
Arguments next_fee_multiplier {F L A _ _}.
Arguments default_fee_currency_id {F L A _ _}.
Arguments chain {F L A _ _}.

(** ** [TargetedFeeAdjustment] *)

Section Adjustment.
Context `{F : FixedPoint} `{!FixedPointArith F}.

Definition fp_max (a b : FP) : FP := if fp_leb a b then b else a.

(** [target_of] multiplies with the target saturation, a [Perquintill]; [v] is the
    variability, [min] the smallest multiplier. *)
Definition targeted_adjustment (min v : FP) (target_of : Z -> Z) (normal_max block : Z) (previous : FP) : option FP :=
  let previous := fp_max previous min in
  let normal_block := Z.min block normal_max in
  let target := target_of normal_max in
  let positive := target <=? normal_block in
  let diff_abs := Z.max normal_block target - Z.min normal_block target in
  let diff := fp_saturating_from_rational diff_abs (Z.max normal_max 1) in
  let diff_squared := fp_saturating_mul diff diff in
  v_squared_2 ← fp_checked_div (fp_saturating_mul v v) (fp_saturating_from_integer 2);
  let first_term := fp_saturating_mul v diff in
  let second_term := fp_saturating_mul v_squared_2 diff_squared in
  if positive then
    let excess := fp_saturating_mul (fp_saturating_add first_term second_term) previous in
    Some (fp_max (fp_saturating_add previous excess) min)
  else
    let negative := fp_saturating_mul (fp_saturating_sub first_term second_term) previous in
    Some (fp_max (fp_saturating_sub previous negative) min).

End Adjustment.

(** [Vec::dedup]: of equal neighbours the first stays. *)
Fixpoint dedup (l : list CurrencyId) : list CurrencyId :=
  match l with
  | [] => []
  | c :: l' =>
      match dedup l' with
      | d :: r => if currency_eqb c d then d :: r else c :: d :: r
      | [] => [c]
      end
  end.

Section Payment.
Context {L X A N P PostInfo : Type} `{Countable A} `{F : FixedPoint} `{!FixedPointArith F} `{!FeeCurrency L X A N P}.
Variable cfg : Config F L X A PostInfo.

Abbreviation St := (State F L A).
Abbreviation Run := (M (State F L A) (PaymentError + X)).

Definition set_multiplier (m : FP) (s : St) : St := MkState m (default_fee_currency_id s) (chain s).

Definition set_defaults (f : gmap A CurrencyId -> gmap A CurrencyId) (s : St) : St :=
  MkState (next_fee_multiplier s) (f (default_fee_currency_id s)) (chain s).

Definition set_chain (l : L) (s : St) : St := MkState (next_fee_multiplier s) (default_fee_currency_id s) l.

Definition on_chain {B : Type} (m : M L X B) : Run B := zoom chain set_chain inr m.

(** ** Hooks and the call *)

Definition on_finalize : Run unit :=
  let! s := get in
  let! fm := expect (FeeMultiplierUpdate cfg (next_fee_multiplier s) (chain s)) in
  modify (set_multiplier fm).

Definition set_default_fee_token (origin : option A) (fee_token : option CurrencyId) : Run unit :=
  let! who := ok_or origin (inl BadOrigin) in
  modify (set_defaults (match fee_token with Some currency_id => <[who := currency_id]> | None => delete who end)).

(** ** Computing fees *)

Definition weight_to_fee (w : Z) : Z := WeightToFee cfg (Z.min w (max_block cfg)).

Definition compute_fee_raw (len w fee_tip : Z) (pays : Pays) (cls : DispatchClass) (s : St) : FeeDetails :=
  match pays with
  | Yes =>
      let fixed_len_fee := sat_mul 128 (TransactionByteFee cfg) len in
      let adjusted := fp_saturating_mul_int (next_fee_multiplier s) (weight_to_fee w) in
      let base := weight_to_fee (base_extrinsic cfg cls) in
      MkFeeDetails (Some (MkInclusionFee base fixed_len_fee adjusted)) fee_tip
  | No => MkFeeDetails None fee_tip
  end.

Definition compute_fee_details (len : Z) (info : DispatchInfo) (fee_tip : Z) (s : St) : FeeDetails :=
  compute_fee_raw len (weight info) fee_tip (pays_fee info) (class info) s.

Definition compute_fee (len : Z) (info : DispatchInfo) (fee_tip : Z) (s : St) : Z :=
  final_fee cfg (compute_fee_details len info fee_tip s).

Definition compute_actual_fee_details (len : Z) (info : DispatchInfo) (post_info : PostInfo) (fee_tip : Z) (s : St) : FeeDetails :=
  compute_fee_raw len (calc_actual_weight cfg post_info info) fee_tip (actual_pays_fee cfg post_info info) (class info) s.

Definition compute_actual_fee (len : Z) (info : DispatchInfo) (post_info : PostInfo) (fee_tip : Z) (s : St) : Z :=
  final_fee cfg (compute_actual_fee_details len info post_info fee_tip s).

Definition query_info {Extrinsic : Type} (get_dispatch_info : Extrinsic -> DispatchInfo) (xt : Extrinsic) (len : Z) (s : St) :
    RuntimeDispatchInfo :=
  let info := get_dispatch_info xt in
  MkRuntimeInfo (weight info) (class info) (compute_fee len info 0 s).

Definition query_fee_details {Extrinsic : Type} (get_dispatch_info : Extrinsic -> DispatchInfo) (xt : Extrinsic) (len : Z)
    (s : St) : FeeDetails :=
  compute_fee_details len (get_dispatch_info xt) 0 s.

(** [Convert<Weight, Balance>]. *)
Definition convert (w : Z) (s : St) : Z := fp_saturating_mul_int (next_fee_multiplier s) (weight_to_fee w).

(** ** Finding the money *)

Definition charge_fee_order (who : A) (s : St) : list CurrencyId :=
  dedup (match default_fee_currency_id s !! who with
         | Some default_id => [default_id; NativeCurrencyId cfg] ++ AllNonNativeCurrencyIds cfg
         | None => [NativeCurrencyId cfg] ++ AllNonNativeCurrencyIds cfg
         end).

Definition native_is_enough (who : A) (fee : Z) (reason : WithdrawReasons) (l : L) : bool :=
  match checked_sub (native_free who l) fee with
  | Some new_free_balance => native_can_withdraw who fee reason new_free_balance l
  | None => false
  end.

Definition trading_path (currency_id : CurrencyId) : list CurrencyId :=
  if currency_eqb currency_id (GetSetterCurrencyId cfg)
  then [GetSetterCurrencyId cfg; NativeCurrencyId cfg]
  else [currency_id; GetSetterCurrencyId cfg; NativeCurrencyId cfg].

(** One round of the loop: [true] breaks it. *)
Definition try_currency (who : A) (fee : Z) (reason : WithdrawReasons) (currency_id : CurrencyId) : Run bool :=
  if currency_eqb currency_id (NativeCurrencyId cfg)
  then gets (fun s => native_is_enough who fee reason (chain s))
  else
    let! l := gets chain in
    let! swapped := try_run (on_chain (swap cfg who (trading_path currency_id) fee (balance cfg currency_id who l)
                                         (Some (MaxSlippageSwapWithDEX cfg)))) in
    ret (bool_decide (is_Some swapped)).

Fixpoint try_currencies (who : A) (fee : Z) (reason : WithdrawReasons) (order : list CurrencyId) : Run unit :=
  match order with
  | [] => ret tt
  | currency_id :: order =>
      let! found := try_currency who fee reason currency_id in
      if found then ret tt else try_currencies who fee reason order
  end.

Definition ensure_can_charge_fee (who : A) (fee : Z) (reason : WithdrawReasons) : Run unit :=
  let! order := gets (charge_fee_order who) in
  try_currencies who fee reason order.

(** ** [ChargeTransactionPayment] *)

(** [T::Currency::withdraw] with its error mapped to [InvalidTransaction::Payment]. *)
Definition withdraw_or_refuse (who : A) (fee : Z) (reason : WithdrawReasons) : Run N :=
  let! imbalance := try_run (on_chain (native_withdraw who fee reason)) in
  ok_or imbalance (inl Payment).

Definition withdraw_fee (fee_tip : Z) (who : A) (info : DispatchInfo) (len : Z) : Run (Z * option N) :=
  let! fee := gets (compute_fee (wrap 32 len) info fee_tip) in
  if fee =? 0 then ret (fee, None)
  else
    let reason := if fee_tip =? 0 then TRANSACTION_PAYMENT else TRANSACTION_PAYMENT_AND_TIP in
    do! ensure_can_charge_fee who fee reason in
    let! imbalance := withdraw_or_refuse who fee reason in
    ret (fee, Some imbalance).

Definition get_priority (len : Z) (info : DispatchInfo) (fee : Z) : Z :=
  let weight_saturation := max_block cfg / Z.max (weight info) 1 in
  let len_saturation := max_block_length cfg Normal / Z.max len 1 in
  let coefficient := Z.min weight_saturation len_saturation in
  Z.min (sat_mul 128 fee coefficient) (umax 64).

Definition validate (fee_tip : Z) (who : A) (info : DispatchInfo) (len : Z) : Run Z :=
  let! (fee, _) := withdraw_fee fee_tip who info len in
  ret (get_priority len info fee).

(** What [pre_dispatch] hands to [post_dispatch]. *)
Definition Pre : Type := Z * A * option N * Z.

Definition pre_dispatch (fee_tip : Z) (who : A) (info : DispatchInfo) (len : Z) : Run Pre :=
  let! (fee, imbalance) := withdraw_fee fee_tip who info len in
  ret (fee_tip, who, imbalance, fee).

(** The refund: what is left of the payment after it. *)
Definition settle_refund (who : A) (refund : Z) (payed : N) : Run N :=
  let! refunded := try_run (on_chain (native_deposit_into_existing who refund)) in
  match refunded with
  | Some refund_imbalance =>
      match offset payed refund_imbalance with
      | Same actual_payment => ret actual_payment
      | NoneLeft => ret no_imbalance
      | Other _ => fail (inl Payment)
      end
  | None => ret payed
  end.

Definition distribute (l : list N) : Run unit := modify (fun s => set_chain (on_unbalanceds l (chain s)) s).

Definition post_dispatch (pre : Pre) (info : DispatchInfo) (post_info : PostInfo) (len : Z) : Run unit :=
  let '(fee_tip, who, imbalance, fee) := pre in
  match imbalance with
  | Some payed =>
      let! actual_fee := gets (compute_actual_fee (wrap 32 len) info post_info fee_tip) in
      let refund := sat_sub fee actual_fee in
      let! actual_payment := settle_refund who refund payed in
      let '(paid_tip, paid_fee) := split actual_payment fee_tip in
      distribute [paid_fee; paid_tip]
  | None => ret tt
  end.

(** ** [TransactionPayment] *)

Definition reserve_fee (who : A) (w : Z) : Run Z :=
  let fee := weight_to_fee w in
  do! ensure_can_charge_fee who fee TRANSACTION_PAYMENT in
  do! on_chain (native_reserve who fee) in
  ret fee.

Definition unreserve_fee (who : A) (fee : Z) : Run unit :=
  modify (fun s => set_chain (native_unreserve who fee (chain s)) s).

Definition unreserve_and_charge_fee (who : A) (w : Z) : Run (Z * N) :=
  let fee := weight_to_fee w in
  do! unreserve_fee who fee in
  let! imbalance := withdraw_or_refuse who fee TRANSACTION_PAYMENT in
  ret (fee, imbalance).

Definition refund_fee (who : A) (refund_weight : Z) (payed : N) : Run unit :=
  let! actual_payment := settle_refund who (weight_to_fee refund_weight) payed in
  distribute [actual_payment].

Definition charge_fee (who : A) (len w fee_tip : Z) (pays : Pays) (cls : DispatchClass) : Run unit :=
  let! fee := gets (fun s => final_fee cfg (compute_fee_raw len w fee_tip pays cls s)) in
  do! ensure_can_charge_fee who fee TRANSACTION_PAYMENT in
  let! actual_payment := withdraw_or_refuse who fee TRANSACTION_PAYMENT in
  distribute [actual_payment].

End Payment.
