(* ===== verification/TransactionPaymentTheorems.v ===== *)
(** * What a transaction pays, and to whom

    For the pallet of [TransactionPayment]: the multiplier stays above its floor and follows
    the load; the currencies a fee is looked for in, and that at most one of them is swapped;
    that what is withdrawn before a dispatch and not refunded after it is the actual fee,
    tip included, and is what is distributed; and that paying fees through the exchange
    keeps the exchange solvent. *)

From S2P Require Import Prelude Currency Externals Dex DexPricing DexSafety TransactionPayment.

(** ** What is relied on *)

Class FixedPointArithLaws (F : FixedPoint) `{!FixedPointLaws F} `{!FixedPointArith F} : Prop := {
  fp_add_inner a b : fp_inner (fp_saturating_add a b) = sat_add 128 (fp_inner a) (fp_inner b);
  fp_sub_inner a b : fp_inner (fp_saturating_sub a b) = sat_sub (fp_inner a) (fp_inner b);
  fp_halves a : is_Some (fp_checked_div a (fp_saturating_from_integer 2))
}.

(** An imbalance is worth [peek]. Withdrawals and deposits move exactly the amount, or fail
    without a trace. *)
Class FeeCurrencyLaws (L X A N P : Type) `{!FeeCurrency L X A N P} : Type := {
  peek : N -> Z;
  peek_deposit : P -> Z;
  withdraw_moves (who : A) v r l (n : N) l' :
    native_withdraw who v r l = (Ok n, l') -> peek n = v /\ native_free who l' = native_free who l - v;
  deposit_moves (who : A) v l (p : P) l' :
    native_deposit_into_existing who v l = (Ok p, l') -> peek_deposit p = v /\ native_free who l' = native_free who l + v;
  deposit_fails (who : A) v l r l' :
    native_deposit_into_existing who v l = (r, l') -> (forall p : P, r <> Ok p) -> l' = l /\ r <> Panic;
  offset_peek (n : N) (p : P) :
    match offset n p with
    | Same n' => peek_deposit p <= peek n /\ peek n' = peek n - peek_deposit p
    | NoneLeft => peek n = peek_deposit p
    | Other _ => peek n < peek_deposit p
    end;
  split_peek (n : N) v : peek (split n v).1 = Z.min (peek n) v /\ peek (split n v).2 = peek n - Z.min (peek n) v;
  no_imbalance_peek : peek no_imbalance = 0
}.

(** ** The multiplier *)

Section Multiplier.
Context `{F : FixedPoint} `{!FixedPointArith F} `{!FixedPointLaws F} `{!FixedPointArithLaws F}.

Lemma fp_max_inner a b : fp_inner (fp_max a b) = Z.max (fp_inner a) (fp_inner b).
Proof. unfold fp_max. rewrite fp_leb_inner. destruct (Z.leb_spec (fp_inner a) (fp_inner b)); lia. Qed.

(** The next multiplier always exists, is not below the floor, does not fall when the block
    was at least as full as the target and does not rise when it was less full. *)
Theorem multiplier_follows_load min v target_of normal_max block previous :
  exists next, targeted_adjustment min v target_of normal_max block previous = Some next
  /\ fp_inner min <= fp_inner next
  /\ (target_of normal_max <= Z.min block normal_max -> Z.max (fp_inner previous) (fp_inner min) <= fp_inner next)
  /\ (Z.min block normal_max < target_of normal_max -> fp_inner next <= Z.max (fp_inner previous) (fp_inner min)).
Proof.
  unfold targeted_adjustment. destruct (fp_halves (fp_saturating_mul v v)) as [h ->]. simpl.
  pose proof (fp_max_inner previous min) as Hp. set (p := fp_max previous min) in *.
  pose proof (fp_inner_range p) as [Hp0 Hpr].
  destruct (Z.leb_spec (target_of normal_max) (Z.min block normal_max)); (eexists; split; [reflexivity|]);
    rewrite fp_max_inner, ?fp_add_inner, ?fp_sub_inner;
    match goal with |- context [fp_inner (fp_saturating_mul ?a p)] =>
      pose proof (fp_inner_range (fp_saturating_mul a p)) as [Hx _]; revert Hx; generalize (fp_inner (fp_saturating_mul a p)); intros x Hx end;
    unfold sat_add, sat_sub; revert Hpr; generalize (umax 128); intros u Hpr; split_and!; lia.
Qed.

End Multiplier.

(** ** The order of currencies *)

Lemma elem_of_dedup c l : c ∈ dedup l <-> c ∈ l.
Proof.
  induction l as [|d l IH]; [done|]. simpl. destruct (dedup l) as [|e r] eqn:E.
  - set_solver.
  - unfold currency_eqb. case_bool_decide; subst; set_solver.
Qed.

Lemma head_dedup l : head (dedup l) = head l.
Proof.
  destruct l as [|d l]; [done|]. simpl. destruct (dedup l) as [|e r]; [done|].
  unfold currency_eqb. case_bool_decide; by subst.
Qed.

Section Payment.
Context {L X A N P PostInfo : Type} `{Countable A} `{F : FixedPoint} `{!FixedPointArith F} `{!FeeCurrency L X A N P}.
Context `{!FixedPointLaws F} `{!FeeCurrencyLaws L X A N P}.
Variable cfg : Config F L X A PostInfo.

Abbreviation St := (TransactionPayment.State F L A).
Abbreviation Run := (M (TransactionPayment.State F L A) (PaymentError + X)).

Lemma on_chain_runs {B : Type} (m : M L X B) (s : St) r s' :
  on_chain m s = (r, s') ->
  exists q l, m (chain s) = (q, l) /\ s' = set_chain l s
    /\ match q with Ok b => r = Ok b | Err x => r = Err (inr x) | Panic => r = Panic end.
Proof. unfold on_chain, zoom. destruct (m (chain s)) as [[b|x|] l]; intros [= <- <-]; by eexists _, l. Qed.

(** ** Where the fee comes from *)

(** A currency that does not help, in the state [s]. *)
Definition no_help (who : A) (fee : Z) (reason : WithdrawReasons) (s : St) (c : CurrencyId) : Prop :=
  if currency_eqb c (NativeCurrencyId cfg) then native_is_enough who fee reason (chain s) = false
  else exists e, (swap cfg who (trading_path cfg c) fee (balance cfg c who (chain s)) (Some (MaxSlippageSwapWithDEX cfg)) (chain s)).1 = Err e.

(** A currency that does, and what it leaves. *)
Definition helps (who : A) (fee : Z) (reason : WithdrawReasons) (s : St) (c : CurrencyId) (s' : St) : Prop :=
  if currency_eqb c (NativeCurrencyId cfg) then native_is_enough who fee reason (chain s) = true /\ s' = s
  else exists supply l, swap cfg who (trading_path cfg c) fee (balance cfg c who (chain s)) (Some (MaxSlippageSwapWithDEX cfg)) (chain s)
         = (Ok supply, l) /\ s' = set_chain l s.

(** The exchange takes back a swap that fails. *)
Definition swap_rolls_back : Prop :=
  forall who path target supply limit l e l', swap cfg who path target supply limit l = (Err e, l') -> l' = l.

Lemma try_currency_spec who fee reason c (s : St) found s' :
  swap_rolls_back -> try_currency cfg who fee reason c s = (Ok found, s') ->
  if found then helps who fee reason s c s' else no_help who fee reason s c /\ s' = s.
Proof.
  intros Hback Hrun. unfold try_currency, helps, no_help in *. destruct (currency_eqb c (NativeCurrencyId cfg)).
  - apply gets_ok in Hrun as [-> ->]. by destruct (native_is_enough _ _ _ _).
  - rewrite bind_ok in Hrun. destruct Hrun as (l0 & s0 & H0 & Hrun). apply gets_ok in H0 as [-> ->].
    rewrite bind_ok in Hrun. destruct Hrun as (o & s1 & Ho & Hrun). apply try_run_ok in Ho. apply ret_ok in Hrun as [-> ->].
    destruct o as [v|]; simpl.
    + apply on_chain_runs in Ho as (q & l & Hq & -> & Hr). destruct q; try done. by eexists _, l.
    + destruct Ho as [e Ho]. apply on_chain_runs in Ho as (q & l & Hq & -> & Hr). destruct q as [|x|]; try done.
      split; [exists x; by rewrite Hq|]. apply Hback in Hq as ->. by destruct s.
Qed.

(** The money for a fee is looked for in the default currency of the account, if any, the
    native one and the others, in this order. Up to the first that helps nothing changes;
    a native balance that is enough changes nothing either; otherwise exactly one swap is
    made, for exactly the fee. When nothing helps the storage is as before. *)
Theorem fee_comes_from_one_currency who fee reason (s s' : St) :
  swap_rolls_back -> ensure_can_charge_fee cfg who fee reason s = (Ok tt, s') ->
  (forall c, c ∈ charge_fee_order cfg who s <->
     default_fee_currency_id s !! who = Some c \/ c = NativeCurrencyId cfg \/ c ∈ AllNonNativeCurrencyIds cfg)
  /\ head (charge_fee_order cfg who s) = Some (default (NativeCurrencyId cfg) (default_fee_currency_id s !! who))
  /\ ((Forall (no_help who fee reason s) (charge_fee_order cfg who s) /\ s' = s)
      \/ exists tried c rest, charge_fee_order cfg who s = tried ++ c :: rest
           /\ Forall (no_help who fee reason s) tried /\ helps who fee reason s c s').
Proof.
  intros Hback Hrun. split.
  { intros c. unfold charge_fee_order. rewrite elem_of_dedup. destruct (default_fee_currency_id s !! who); set_solver. }
  split; [unfold charge_fee_order; rewrite head_dedup; by destruct (default_fee_currency_id s !! who)|].
  unfold ensure_can_charge_fee in Hrun. rewrite bind_ok in Hrun. destruct Hrun as (order & s0 & H0 & Hrun).
  apply gets_ok in H0 as [-> ->]. revert Hrun. generalize (charge_fee_order cfg who s). intros order.
  induction order as [|c order IH]; intros Hrun; simpl in Hrun.
  - apply ret_ok in Hrun as [_ ->]. by left.
  - rewrite bind_ok in Hrun. destruct Hrun as (found & s1 & Hc & Hrun). apply try_currency_spec in Hc; [|done].
    destruct found.
    + apply ret_ok in Hrun as [_ ->]. right. by exists [], c, order.
    + destruct Hc as [Hno ->]. destruct (IH Hrun) as [[Hall ->]|(tried & d & rest & -> & Htried & Hd)].
      * left. by split; [constructor|].
      * right. exists (c :: tried), d, rest. by split_and!; [|constructor|].
Qed.

(** ** What a transaction costs *)

(** The runtime: fees of weights grow with the weight, a dispatch uses at most the weight
    it announced, and [final_fee] adds up the parts of a fee, at 128 bits. *)
Record fees_sane : Prop := {
  sane_fee w w' : 0 <= w <= w' -> 0 <= WeightToFee cfg w <= WeightToFee cfg w';
  sane_final d : final_fee cfg d = sat_add 128 (match inclusion_fee d with
    | Some i => sat_add 128 (sat_add 128 (base_fee i) (len_fee i)) (adjusted_weight_fee i)
    | None => 0
    end) (tip d);
  sane_weight p i : 0 <= weight i -> 0 <= calc_actual_weight cfg p i <= weight i;
  sane_pays p i : pays_fee i = No -> actual_pays_fee cfg p i = No;
  sane_block : 0 <= max_block cfg;
  sane_base c : 0 <= base_extrinsic cfg c;
  sane_byte : 0 <= TransactionByteFee cfg
}.

Lemma weight_to_fee_mono w w' : fees_sane -> 0 <= w <= w' -> 0 <= weight_to_fee cfg w <= weight_to_fee cfg w'.
Proof. intros Hc Hw. pose proof (sane_block Hc). apply (sane_fee Hc). lia. Qed.

Lemma adjusted_mono m n n' : 0 <= n <= n' -> 0 <= fp_saturating_mul_int m n <= fp_saturating_mul_int m n'.
Proof.
  intros Hn. rewrite !fp_saturating_mul_int_floor by lia. pose proof (fp_inner_range m) as [Hm _]. pose proof fp_div_pos as Hd.
  pose proof (umax_nonneg 128 ltac:(lia)). assert (0 <= fp_inner m * n / fp_div) by (apply Z.div_pos; nia).
  assert (fp_inner m * n / fp_div <= fp_inner m * n' / fp_div) by (apply Z.div_le_mono; nia). lia.
Qed.

(** More weight never costs less, and the tip is part of the fee. *)
Lemma final_fee_mono len w w' t p p' c (s : St) :
  fees_sane -> 0 <= len -> 0 <= w <= w' -> (p' = No -> p = No) -> in_uint 128 t ->
  t <= final_fee cfg (compute_fee_raw cfg len w t p c s) <= final_fee cfg (compute_fee_raw cfg len w' t p' c s).
Proof.
  intros Hc Hlen Hw Hp [Ht Ht']. rewrite !(sane_final Hc).
  pose proof (weight_to_fee_mono w w' Hc Hw) as Hfee.
  pose proof (adjusted_mono (next_fee_multiplier s) _ _ Hfee) as Hadj.
  pose proof (sane_block Hc). pose proof (sane_base Hc c).
  pose proof (weight_to_fee_mono _ _ Hc (conj (sane_base Hc c) (Z.le_refl _))) as Hb.
  pose proof (sat_mul_nonneg 128 (TransactionByteFee cfg) len ltac:(lia) (sane_byte Hc) Hlen) as Hl.
  destruct p, p'; simpl; try (by specialize (Hp eq_refl)); unfold sat_add; lia.
Qed.

Lemma final_fee_range len w t p c (s : St) :
  fees_sane -> 0 <= len -> 0 <= w -> in_uint 128 t -> in_uint 128 (final_fee cfg (compute_fee_raw cfg len w t p c s)).
Proof.
  intros Hc Hlen Hw Ht. pose proof (final_fee_mono len w w t p p c s Hc Hlen ltac:(lia) (fun H => H) Ht) as [Hlow _].
  destruct Ht as [Ht _]. split; [lia|]. rewrite (sane_final Hc). unfold sat_add. lia.
Qed.

(** ** The life of a fee *)

Lemma settle_refund_spec who refund (payed : N) (s : St) r s' :
  settle_refund who refund payed s = (r, s') -> refund <= peek payed ->
  exists n l, r = Ok n /\ s' = set_chain l s
    /\ (((exists p, native_deposit_into_existing who refund (chain s) = (Ok p, l))
         /\ native_free who l = native_free who (chain s) + refund /\ peek n = peek payed - refund)
        \/ ((exists x, native_deposit_into_existing who refund (chain s) = (Err x, chain s)) /\ l = chain s /\ n = payed)).
Proof.
  intros Hrun Hle. unfold settle_refund, bind at 1, try_run, on_chain, zoom in Hrun.
  destruct (native_deposit_into_existing who refund (chain s)) as [q l] eqn:Hd. destruct q as [p|x|].
  - pose proof Hd as Hd0. apply deposit_moves in Hd as [Hp Hf]. pose proof (offset_peek payed p) as Ho.
    destruct (offset payed p) as [n| |p'].
    + injection Hrun as <- <-. exists n, l. split_and!; [done..|]. left. split_and!; [by eexists|done|lia].
    + injection Hrun as <- <-. exists no_imbalance, l. rewrite no_imbalance_peek. split_and!; [done..|]. left. split_and!; [by eexists|done|lia].
    + lia.
  - injection Hrun as <- <-. pose proof Hd as Hd0. apply deposit_fails in Hd as [-> _]; [|done].
    exists payed, (chain s). split_and!; [done..|]. right. split_and!; [by eexists|done..].
  - by apply deposit_fails in Hd as [_ []].
Qed.

Lemma withdraw_or_refuse_spec who fee reason (s : St) (n : N) s' :
  withdraw_or_refuse (P := P) who fee reason s = (Ok n, s') ->
  peek n = fee /\ native_free who (chain s') = native_free who (chain s) - fee /\ next_fee_multiplier s' = next_fee_multiplier s.
Proof.
  intros Hrun. unfold withdraw_or_refuse in Hrun. rewrite bind_ok in Hrun. destruct Hrun as (o & s1 & Ho & Hrun).
  apply ok_or_ok in Hrun as [-> ->]. apply try_run_ok in Ho. apply on_chain_runs in Ho as (q & l & Hq & -> & Hr).
  destruct q; simplify_eq. apply withdraw_moves in Hq as [Hp Hf]. done.
Qed.

Definition reason_of (fee_tip : Z) : WithdrawReasons :=
  if fee_tip =? 0 then TRANSACTION_PAYMENT else TRANSACTION_PAYMENT_AND_TIP.

(** C7: what a transaction pays. Before the dispatch the announced fee is withdrawn, from money
    found in the way of [fee_comes_from_one_currency]. After it the difference to the actual
    fee is deposited back, and what is distributed is the tip, in full, and the rest of the
    actual fee. Only when the currency refuses that deposit, the account being gone, is
    nothing given back and the whole announced fee distributed. The refund never exceeds
    the payment, so the hook after the dispatch cannot fail. The multiplier is that of the
    block throughout, and the runtime is as in [fees_sane]. *)
Theorem transaction_pays_actual_fee fee_tip who info post_info len (s s1 s2 : St) pre r s3 :
  fees_sane -> in_uint 128 fee_tip -> 0 <= weight info ->
  pre_dispatch cfg fee_tip who info len s = (Ok pre, s1) ->
  next_fee_multiplier s2 = next_fee_multiplier s ->
  post_dispatch cfg pre info post_info len s2 = (r, s3) ->
  let fee := compute_fee cfg (wrap 32 len) info fee_tip s in
  let actual := compute_actual_fee cfg (wrap 32 len) info post_info fee_tip s in
  r = Ok tt /\ fee_tip <= actual <= fee
  /\ ((fee = 0 /\ s1 = s /\ s3 = s2)
      \/ exists s0 l paid_fee paid_tip,
           ensure_can_charge_fee cfg who fee (reason_of fee_tip) s = (Ok tt, s0)
           /\ native_free who (chain s1) = native_free who (chain s0) - fee
           /\ chain s3 = on_unbalanceds [paid_fee; paid_tip] l /\ peek paid_tip = fee_tip
           /\ (((exists p, native_deposit_into_existing who (fee - actual) (chain s2) = (Ok p, l))
                /\ native_free who l = native_free who (chain s2) + (fee - actual) /\ peek paid_fee = actual - fee_tip)
               \/ ((exists x, native_deposit_into_existing who (fee - actual) (chain s2) = (Err x, chain s2))
                   /\ l = chain s2 /\ peek paid_fee = fee - fee_tip))).
Proof.
  intros Hc Htip Hw Hpre Hm Hpost fee actual.
  assert (fee_tip <= actual <= fee) as Hfees.
  { apply final_fee_mono; [done|apply (wrap_range 32); lia|by apply (sane_weight Hc)|apply (sane_pays Hc)|done]. }
  assert (compute_actual_fee cfg (wrap 32 len) info post_info fee_tip s2 = actual) as Hact.
  { unfold actual, compute_actual_fee, compute_actual_fee_details, compute_fee_raw. by rewrite Hm. }
  unfold pre_dispatch, withdraw_fee in Hpre. rewrite bind_ok in Hpre. destruct Hpre as ([fee' imb] & s1' & Hwd & Hpre).
  apply ret_ok in Hpre as [-> ->]. rewrite bind_ok in Hwd. destruct Hwd as (f & s0' & Hf & Hwd).
  apply gets_ok in Hf as [-> ->]. fold fee in Hwd. destruct (Z.eqb_spec fee 0) as [Hz|Hz].
  - apply ret_ok in Hwd as [[= -> ->] ->]. injection Hpost as <- <-. split_and!; try done; [lia..|]. by left.
  - rewrite bind_ok in Hwd. destruct Hwd as ([] & s0 & Hens & Hwd). rewrite bind_ok in Hwd. destruct Hwd as (n & s4 & Hn & Hwd).
    apply ret_ok in Hwd as [[= -> ->] ->]. apply withdraw_or_refuse_spec in Hn as (Hpeek & Hfree & _).
    unfold post_dispatch in Hpost. unfold bind at 1, gets in Hpost. rewrite Hact in Hpost.
    unfold bind at 1 in Hpost. destruct (settle_refund who (sat_sub fee actual) n s2) as [q s5] eqn:Hset.
    destruct Htip as [Ht0 _]. rewrite sat_sub_exact in Hset by lia. apply settle_refund_spec in Hset as (m & l & -> & -> & Hcase); [|lia].
    destruct (split m fee_tip) as [paid_tip paid_fee] eqn:Hsplit. injection Hpost as <- <-.
    pose proof (split_peek m fee_tip) as [Hs1 Hs2]. rewrite Hsplit in Hs1, Hs2. simpl in Hs1, Hs2.
    split_and!; [done|lia|lia|]. right. exists s0, l, paid_fee, paid_tip. split_and!; [done..|simpl|].
    + destruct Hcase as [(_ & _ & Hp)|(_ & _ & ->)]; lia.
    + destruct Hcase as [(Hd & Hl & Hp)|(Hd & -> & ->)]; [left; split_and!; [done..|lia]|right; split_and!; [done..|lia]].
Qed.

(** A fee that was reserved for a weight and charged for it can be refunded for any part of
    the weight: the refund does not fail, and what is distributed is the difference. *)
Theorem scheduled_fee_is_refunded who w w' (s s1 s2 : St) fee (n : N) r s3 :
  fees_sane -> 0 <= w' <= w ->
  unreserve_and_charge_fee cfg who w s = (Ok (fee, n), s1) -> refund_fee cfg who w' n s2 = (r, s3) ->
  r = Ok tt /\ fee = weight_to_fee cfg w /\ exists l actual, chain s3 = on_unbalanceds [actual] l
    /\ ((native_free who l = native_free who (chain s2) + weight_to_fee cfg w' /\ peek actual = fee - weight_to_fee cfg w')
        \/ ((exists x, native_deposit_into_existing who (weight_to_fee cfg w') (chain s2) = (Err x, chain s2))
            /\ l = chain s2 /\ actual = n /\ peek n = fee)).
Proof.
  intros Hc Hw Hcharge Hrefund. unfold unreserve_and_charge_fee in Hcharge.
  rewrite bind_ok in Hcharge. destruct Hcharge as (u & s0 & _ & Hcharge). rewrite bind_ok in Hcharge.
  destruct Hcharge as (m & s4 & Hm & Hcharge). apply ret_ok in Hcharge as [[= -> ->] ->].
  apply withdraw_or_refuse_spec in Hm as (Hpeek & _ & _). pose proof (weight_to_fee_mono w' w Hc Hw) as Hle.
  unfold refund_fee, bind at 1 in Hrefund. destruct (settle_refund who (weight_to_fee cfg w') m s2) as [q s5] eqn:Hset.
  apply settle_refund_spec in Hset as (a & l & -> & -> & Hcase); [|lia]. injection Hrefund as <- <-.
  split_and!; [done..|]. exists l, a. split; [done|]. destruct Hcase as [(_ & Hl & Ha)|(Hd & -> & ->)]; [left; lia|by right].
Qed.

(** Of two transactions with the same fee the one that takes more of a block has no higher
    priority; priorities fit 64 bits, and one that fits a block and pays has one. *)
Theorem larger_transactions_wait len len' info info' fee :
  0 <= max_block cfg -> 0 <= max_block_length cfg Normal -> 0 <= fee -> len <= len' -> weight info <= weight info' ->
  0 <= get_priority cfg len' info' fee <= get_priority cfg len info fee
  /\ get_priority cfg len info fee <= umax 64
  /\ (0 < fee -> 1 <= max_block cfg -> weight info <= max_block cfg -> 1 <= max_block_length cfg Normal ->
      len <= max_block_length cfg Normal -> 0 < get_priority cfg len info fee).
Proof.
  intros Hb Hl Hfee Hlen Hw. unfold get_priority.
  assert (forall m a b, 0 <= m -> a <= b -> 0 <= m / Z.max b 1 <= m / Z.max a 1) as Hdiv.
  { intros m a b Hm Hab. split; [apply Z.div_pos; lia|]. apply Z.div_le_compat_l; lia. }
  pose proof (Hdiv _ _ _ Hb Hw) as H1. pose proof (Hdiv _ _ _ Hl Hlen) as H2.
  set (c := Z.min (max_block cfg / Z.max (weight info) 1) (max_block_length cfg Normal / Z.max len 1)).
  set (c' := Z.min (max_block cfg / Z.max (weight info') 1) (max_block_length cfg Normal / Z.max len' 1)).
  assert (0 <= c' <= c) as Hcc by lia.
  pose proof (umax_nonneg 64 ltac:(lia)). pose proof (umax_nonneg 128 ltac:(lia)).
  unfold sat_mul. split_and!; [nia..|lia|]. intros Hf Hb1 Hwb Hl1 Hll.
  assert (forall m a, 1 <= m -> a <= m -> 1 <= m / Z.max a 1) as Hpos
    by (intros m a Hm Ha; apply Z.div_le_lower_bound; lia).
  pose proof (Hpos _ _ Hb1 Hwb). pose proof (Hpos _ _ Hl1 Hll).
  assert (1 <= umax 64) by (unfold umax; lia). assert (1 <= umax 128) by (unfold umax; lia). nia.
Qed.

End Payment.

(** ** Fees through the exchange

    The pallet on top of [Dex]: its [swap] is [DEXManager::swap_with_exact_target]. *)

Section Exchange.
Context {L X A Origin N P PostInfo : Type} `{Countable A}.
Context `{!MultiCurrency L X A} `{!FrameSystem L A} `{!DEXIncentives L X A}.
Context `{!MultiCurrencyLaws L X A} `{!DEXIncentivesLaws L X A}.
Context `{F : FixedPoint} `{U : U256Ops} `{!FixedPointLaws F} `{!U256Laws U}.
Variable dcfg : Dex.Config L X A Origin.

Abbreviation Exchange := (Dex.State L A).
Abbreviation dex := (dex_account dcfg).

Context `{!FeeCurrency Exchange (DexError + X) A N P}.
Variable cfg : Config F Exchange (DexError + X) A PostInfo.

Abbreviation St := (TransactionPayment.State F Exchange A).
Abbreviation Run := (M (TransactionPayment.State F Exchange A) (PaymentError + (DexError + X))).

(** The account of the exchange as in [DexSafety]. *)
Hypothesis dex_whitelisted : keeps_dust dex = true.
Hypothesis fee_u32 : in_uint 32 (exchange_fee dcfg).1 /\ in_uint 32 (exchange_fee dcfg).2.
Hypothesis path_limit : trading_path_limit dcfg <= 3.

Hypothesis swaps_here : forall who path target supply limit,
  swap cfg who path target supply limit = do_swap_with_exact_target dcfg who path target supply limit.

(** What the native currency does to others leaves the exchange alone. *)
Definition exchange_kept (l l' : Exchange) : Prop :=
  exists k, l' = Dex.set_chain k l /\ forall c, DexSafety.held dcfg c l <= DexSafety.held dcfg c l'.

Hypothesis withdraw_kept : forall who v r l q l', who <> dex -> native_withdraw who v r l = (q, l') -> exchange_kept l l'.
Hypothesis deposit_kept : forall who v l q l', native_deposit_into_existing who v l = (q, l') -> exchange_kept l l'.
Hypothesis reserve_kept : forall who v l q l', who <> dex -> native_reserve who v l = (q, l') -> exchange_kept l l'.
Hypothesis unreserve_kept : forall who v l, exchange_kept l (native_unreserve who v l).
Hypothesis distribution_kept : forall ns l, exchange_kept l (on_unbalanceds ns l).

(** A run after which, whatever its outcome, the exchange is still sound. *)
Definition sound (s : St) : Prop := dex_inv dcfg (TransactionPayment.chain s).

Definition stays_sound {B : Type} (m : Run B) : Prop := forall s, sound s -> sound (m s).2.

Lemma sound_bind {B C : Type} (m : Run B) (k : B -> Run C) :
  stays_sound m -> (forall b, stays_sound (k b)) -> stays_sound (bind m k).
Proof.
  intros Hm Hk s Hs. specialize (Hm s Hs). unfold bind. destruct (m s) as [[b|e|] s']; simpl in *; [by apply Hk|done..].
Qed.

Lemma sound_reads {B : Type} (m : Run B) : (forall s, (m s).2 = s) -> stays_sound m.
Proof. intros Hm s Hs. by rewrite Hm. Qed.

Lemma sound_gets {B C : Type} (f : St -> B) (k : B -> Run C) :
  (forall s, stays_sound (k (f s))) -> stays_sound (bind (gets f) k).
Proof. intros Hk s Hs. by apply Hk. Qed.

Lemma sound_try {B : Type} (m : Run B) : stays_sound m -> stays_sound (try_run m).
Proof. intros Hm s Hs. specialize (Hm s Hs). unfold try_run. by destruct (m s) as [[b|e|] s']. Qed.

Lemma sound_on_chain {B : Type} (m : M Exchange (DexError + X) B) :
  (forall l q l', m l = (q, l') -> dex_inv dcfg l -> dex_inv dcfg l') -> stays_sound (on_chain m).
Proof.
  intros Hm s Hs. unfold on_chain, zoom. destruct (m (TransactionPayment.chain s)) as [q l] eqn:Em.
  assert (dex_inv dcfg l) as Hl by by eapply Hm. by destruct q.
Qed.

Lemma kept_sound l l' : exchange_kept l l' -> dex_inv dcfg l -> dex_inv dcfg l'.
Proof. intros (k & -> & Hh) Hi. by apply chain_held_inv. Qed.

Lemma sound_modify f : (forall l, exchange_kept l (f l)) ->
  stays_sound (modify (fun s => TransactionPayment.set_chain (f (TransactionPayment.chain s)) s) : Run unit).
Proof. intros Hf s Hs. unfold sound, modify. simpl. by eapply kept_sound. Qed.

Lemma sound_swap who path fee supply limit :
  who <> dex -> in_uint 128 fee -> stays_sound (on_chain (swap cfg who path fee supply limit)).
Proof.
  intros Hwho Hfee. apply sound_on_chain. intros l q l' Hrun Hi. rewrite swaps_here in Hrun.
  assert ((exists b, q = Ok b) \/ forall b, q <> Ok b) as [[b ->]|Hq] by (destruct q; [left; eauto|right; done..]).
  - by eapply do_swap_with_exact_target_inv.
  - unfold do_swap_with_exact_target in Hrun. by apply transactional_rollback in Hrun as ->.
Qed.

Ltac sound_step :=
  match goal with
  | |- stays_sound (bind _ _) => apply sound_bind; [|intros ?]
  | |- stays_sound (try_run _) => apply sound_try
  | |- stays_sound (if _ then _ else _) => case_match
  | |- stays_sound (match _ with _ => _ end) => case_match
  | |- stays_sound (ret _) => by apply sound_reads
  | |- stays_sound (gets _) => by apply sound_reads
  | |- stays_sound (fail _) => by apply sound_reads
  | |- stays_sound (ok_or ?o _) => by destruct o; apply sound_reads
  end.

Lemma sound_ensure who fee reason : who <> dex -> in_uint 128 fee -> stays_sound (ensure_can_charge_fee cfg who fee reason).
Proof.
  intros Hwho Hfee. unfold ensure_can_charge_fee. apply sound_bind; [by apply sound_reads|intros order].
  induction order as [|c order IH]; simpl; [by apply sound_reads|]. unfold try_currency.
  repeat sound_step; try done. by apply sound_swap.
Qed.

Lemma sound_withdraw who fee reason : who <> dex -> stays_sound (withdraw_or_refuse (P := P) who fee reason).
Proof.
  intros Hwho. unfold withdraw_or_refuse. repeat sound_step. apply sound_on_chain. intros l q l' Hrun.
  by eapply kept_sound, withdraw_kept.
Qed.

Lemma sound_settle who refund payed : stays_sound (settle_refund who refund payed).
Proof.
  unfold settle_refund. repeat sound_step. apply sound_on_chain. intros l q l' Hrun. by eapply kept_sound, deposit_kept.
Qed.

Lemma sound_distribute ns : stays_sound (distribute (N := N) (P := P) ns).
Proof. apply (sound_modify (on_unbalanceds ns)). intros l. apply distribution_kept. Qed.

(** Paying fees keeps the exchange solvent. Whatever a transaction does to pay its fee, and
    however that ends (withdrawn, refused, reserved, refunded), a swap of the account's
    currency included, the reserves of the exchange stay covered by its account. *)
Theorem fees_keep_the_exchange_solvent who fee_tip w len info post_info payed fee :
  who <> dex -> fees_sane cfg -> (forall w, in_uint 128 (WeightToFee cfg w)) ->
  in_uint 128 fee_tip -> 0 <= weight info -> 0 <= w -> 0 <= len ->
  stays_sound (withdraw_fee cfg fee_tip who info len)
  /\ stays_sound (post_dispatch cfg (fee_tip, who, payed, fee) info post_info len)
  /\ stays_sound (reserve_fee cfg who w)
  /\ stays_sound (unreserve_and_charge_fee cfg who w)
  /\ (forall n, stays_sound (refund_fee cfg who w n))
  /\ forall pays cls, stays_sound (charge_fee cfg who len w fee_tip pays cls).
Proof.
  intros Hwho Hc Hw Htip Hweight Hw0 Hlen.
  pose proof (fun f r => sound_withdraw who f r Hwho) as Hwd. pose proof (sound_settle who) as Hst. pose proof sound_distribute as Hdi.
  pose proof (fun f r Hf => sound_ensure who f r Hwho Hf) as Hen.
  split_and!; intros.
  - unfold withdraw_fee. apply sound_gets. intros s. repeat sound_step; [|apply Hwd].
    apply Hen, final_fee_range; [done|apply (wrap_range 32); lia|done..].
  - unfold post_dispatch. repeat sound_step; [apply Hst|apply Hdi].
  - unfold reserve_fee. repeat sound_step; [by apply Hen, Hw|].
    apply sound_on_chain. intros l q l' Hrun. by eapply kept_sound, reserve_kept.
  - unfold unreserve_and_charge_fee. repeat sound_step; [|apply Hwd]. by apply (sound_modify (native_unreserve who _)).
  - unfold refund_fee. repeat sound_step; [apply Hst|apply Hdi].
  - unfold charge_fee. apply sound_gets. intros s. repeat sound_step; [|apply Hwd|apply Hdi].
    by apply Hen, final_fee_range.
Qed.

End Exchange.
