(* ===== verification/TransactionPaymentExamples.v ===== *)
(** * Paying on the ledger

    The pallet of [TransactionPayment] over the exchange of [Dex] and the ledger of
    [Externals]: the native currency is DNAR, reserves are held by shadow accounts, fees go
    to account 99, and a unit of weight costs one. *)

From S2P Require Import Prelude Currency Externals Dex DexPricing DexSafety DexTheorems DexExamples TransactionPayment TransactionPaymentTheorems.

#[local] Instance fixed_arith : FixedPointArith fixed_u128 := {|
  fp_saturating_from_rational n d := MkFixed (n * DIV / d);
  fp_saturating_add a b := MkFixed (sat_add 128 (fixed_inner a) (fixed_inner b));
  fp_saturating_sub a b := MkFixed (sat_sub (fixed_inner a) (fixed_inner b));
  fp_checked_div a b := if fixed_inner b =? 0 then None else Some (MkFixed (fixed_inner a * DIV / fixed_inner b))
|}.

Lemma fixed_in_range v : in_uint 128 v -> fixed_inner (MkFixed v) = v.
Proof. unfold fixed_inner, fix_trunc, in_uint. cbn [fixed_raw]. generalize (umax 128). lia. Qed.

Lemma fixed_halves a : is_Some (fp_checked_div (F:=fixed_u128) a (fp_saturating_from_integer 2)).
Proof.
  unfold fp_checked_div, fixed_arith.
  assert (fixed_inner (fp_saturating_from_integer (FixedPoint := fixed_u128) 2) =? 0 = false) as E by by vm_compute.
  rewrite E. by eexists.
Qed.

#[local] Instance fixed_arith_laws : FixedPointArithLaws fixed_u128.
Proof.
  split.
  - intros a b. pose proof (fix_trunc_range (fixed_raw a)) as [Ha _]. pose proof (fix_trunc_range (fixed_raw b)) as [Hb _].
    apply fixed_in_range, sat_add_range; [lia|exact Ha|exact Hb].
  - intros a b. apply fixed_in_range, sat_sub_range; [apply fix_trunc_range|apply (fix_trunc_range (fixed_raw b))].
  - intros a. apply fixed_halves.
Qed.

(** ** The native currency *)

Abbreviation Exchange := (Dex.State Ledger Z).

Definition native (who : Z) (s : Exchange) : Z := balance_of DNAR_ID who (Dex.chain s).

Definition put_native (who v : Z) (s : Exchange) : Exchange := Dex.set_chain (set_balance DNAR_ID who v (Dex.chain s)) s.

Definition shadow (who : Z) : Z := 1000 + Z.abs who.

#[local] Instance ledger_fees : FeeCurrency Exchange (DexError + LedgerError) Z Z Z := {|
  native_free := native;
  native_can_withdraw _ _ _ left _ := 0 <=? left;
  native_withdraw who v _ s :=
    if (0 <=? v) && (v <=? native who s) then (Ok v, put_native who (native who s - v) s) else (Err (inr BalanceTooLow), s);
  native_deposit_into_existing who v s :=
    if (0 <=? v) && (0 <? native who s) then (Ok v, put_native who (native who s + v) s) else (Err (inr BalanceTooLow), s);
  native_reserve who v s :=
    if (0 <=? v) && (v <=? native who s)
    then (Ok tt, put_native (shadow who) (native (shadow who) s + v) (put_native who (native who s - v) s))
    else (Err (inr BalanceTooLow), s);
  native_unreserve who v s :=
    let moved := Z.min (Z.max 0 v) (native (shadow who) s) in
    put_native who (native who s + moved) (put_native (shadow who) (native (shadow who) s - moved) s);
  offset n p := if n =? p then NoneLeft else if p <? n then Same (n - p) else Other (p - n);
  split n v := (Z.min n v, n - Z.min n v);
  no_imbalance := 0;
  on_unbalanceds ns s := put_native 99 (native 99 s + zsum (fun n => n) ns) s
|}.

Lemma native_put who v who' s : native who' (put_native who v s) = if decide (who = who') then Z.max 0 v else native who' s.
Proof. unfold native, put_native. simpl. rewrite balance_of_set. repeat case_decide; naive_solver. Qed.

Lemma native_nonneg who s : 0 <= native who s.
Proof. apply balance_of_nonneg. Qed.

#[local] Instance ledger_fee_laws : FeeCurrencyLaws Exchange (DexError + LedgerError) Z Z Z.
Proof.
  refine {| peek := id; peek_deposit := id |}; simpl; unfold id; intros.
  - destruct (_ && _) eqn:E in H; [|done]. injection H as <- <-. bool_inv. rewrite native_put, decide_True by done. lia.
  - destruct (_ && _) eqn:E in H; [|done]. injection H as <- <-. bool_inv. rewrite native_put, decide_True by done. lia.
  - destruct (_ && _) eqn:E in H; injection H as <- <-; [by destruct (H0 v)|done].
  - destruct (Z.eqb_spec n p); [done|]. destruct (Z.ltb_spec p n); lia.
  - lia.
  - done.
Defined.

(** The exchange does not notice. *)
Lemma put_native_kept who v s :
  who = 100 -> native 100 s <= v -> exchange_kept sample_config s (put_native who v s).
Proof.
  intros -> Hv. eexists. split; [reflexivity|]. intros c. unfold DexSafety.held, put_native. simpl.
  rewrite balance_of_set. unfold native in Hv. pose proof (balance_of_nonneg c 100 (Dex.chain s)).
  case_decide as E; [injection E as <-|done]. lia.
Qed.

Lemma put_native_other who v s : who <> 100 -> exchange_kept sample_config s (put_native who v s).
Proof.
  intros Hw. eexists. split; [reflexivity|]. intros c. unfold DexSafety.held, put_native. simpl.
  rewrite balance_of_set, decide_False by congruence. done.
Qed.

Lemma exchange_kept_trans s1 s2 s3 :
  exchange_kept sample_config s1 s2 -> exchange_kept sample_config s2 s3 -> exchange_kept sample_config s1 s3.
Proof.
  intros (k1 & -> & H1) (k2 & -> & H2). exists k2. split; [done|]. intros c. etrans; [apply H1|apply H2].
Qed.

Lemma exchange_kept_refl s : exchange_kept sample_config s s.
Proof. exists (Dex.chain s). split; [by destruct s|done]. Qed.

Lemma shadow_apart who : shadow who <> 100.
Proof. unfold shadow. lia. Qed.

(** ** A runtime and a payer *)

Definition sum_fee (d : FeeDetails) : Z :=
  sat_add 128 (match inclusion_fee d with
    | Some i => sat_add 128 (sat_add 128 (base_fee i) (len_fee i)) (adjusted_weight_fee i)
    | None => 0
    end) (tip d).

Definition fee_config : TransactionPayment.Config fixed_u128 Exchange (DexError + LedgerError) Z Z :=
  TransactionPayment.MkConfig fixed_u128 Exchange (DexError + LedgerError) Z Z
    [USDJ_ID] DNAR_ID USDJ_ID 1 fix_trunc (MkFixed DIV) (10 ^ 6) (fun _ => 10) (fun _ => Some (10 ^ 6)) (fun _ => 1000) (fun _ _ => 0)
    (fun m _ => targeted_adjustment (MkFixed 1) (MkFixed (DIV / 100)) (fun w => w / 4) (10 ^ 6) 0 m)
    sum_fee (fun used i => Z.max 0 (Z.min used (weight i))) (fun _ i => pays_fee i)
    (do_swap_with_exact_target sample_config) (fun c a s => balance_of c a (Dex.chain s)).

Abbreviation St := (TransactionPayment.State fixed_u128 Exchange Z).

(** Account 2 has 10 DNAR and 1000 USDJ. *)
Definition payer : St := TransactionPayment.MkState (MkFixed DIV) ∅ (put_native 2 10 sample_market).

Definition transaction : DispatchInfo := MkInfo 50 Normal Yes.

Definition before := pre_dispatch fee_config 5 2 transaction 20 payer.
Definition after := post_dispatch fee_config (5, 2, Some (85 : Z), 85) transaction 30 20 before.2.

Example paid_by_a_swap :
  before.1 = Ok (5, 2, Some 85, 85) /\ native 2 (TransactionPayment.chain before.2) = 10
  /\ balance_of USDJ_ID 2 (Dex.chain (TransactionPayment.chain before.2)) < 1000
  /\ after.1 = Ok tt /\ native 2 (TransactionPayment.chain after.2) = 30 /\ native 99 (TransactionPayment.chain after.2) = 65.
Proof. vm_compute. repeat split; discriminate || reflexivity. Qed.

Lemma payer_sane : fees_sane fee_config.
Proof.
  split; intros; try done.
  - cbn [WeightToFee fee_config]. unfold fix_trunc. pose proof (umax_nonneg 128 ltac:(lia)). lia.
  - cbn [calc_actual_weight fee_config]. lia.
Qed.

Lemma payer_before : before = (Ok (5, 2, Some 85, 85), before.2).
Proof. apply ran. by vm_compute. Qed.

Lemma payer_after : after = (Ok tt, after.2).
Proof. apply ran. by vm_compute. Qed.

Lemma payer_fee : compute_fee fee_config (wrap 32 20) transaction 5 payer = 85.
Proof. by vm_compute. Qed.

Lemma payer_multiplier : next_fee_multiplier before.2 = next_fee_multiplier payer.
Proof. by vm_compute. Qed.

Lemma payer_ensured : ensure_can_charge_fee fee_config 2 85 TRANSACTION_PAYMENT_AND_TIP payer
  = (Ok tt, (ensure_can_charge_fee fee_config 2 85 TRANSACTION_PAYMENT_AND_TIP payer).2).
Proof. apply ran. by vm_compute. Qed.

Lemma payer_swaps : swap_rolls_back fee_config.
Proof.
  intros who path target supply limit l e l' Hrun. cbn [swap fee_config] in Hrun. unfold do_swap_with_exact_target in Hrun.
  by apply transactional_rollback in Hrun as ->.
Qed.

Lemma multiplier_follows_load_witness :
  exists next, targeted_adjustment (F:=fixed_u128) (MkFixed 1) (MkFixed (DIV / 100)) (fun w => w / 4) 1000000 0 (MkFixed DIV) = Some next
  /\ fixed_inner next <= fixed_inner (MkFixed DIV).
Proof.
  destruct (multiplier_follows_load (F:=fixed_u128) (MkFixed 1) (MkFixed (DIV / 100)) (fun w => w / 4) 1000000 0 (MkFixed DIV))
    as (next & Hn & _ & _ & Hd).
  exists next. split; [exact Hn|]. etrans; [apply Hd; by vm_compute|by vm_compute].
Defined.

Lemma fee_comes_from_one_currency_witness :
  exists tried c rest, charge_fee_order fee_config 2 payer = tried ++ c :: rest
    /\ helps fee_config 2 85 TRANSACTION_PAYMENT_AND_TIP payer c (ensure_can_charge_fee fee_config 2 85 TRANSACTION_PAYMENT_AND_TIP payer).2.
Proof.
  destruct (fee_comes_from_one_currency fee_config 2 85 TRANSACTION_PAYMENT_AND_TIP payer _
              payer_swaps payer_ensured) as (_ & _ & [[_ Hs]|(tried & c & rest & E & _ & Hh)]).
  - exfalso. apply (f_equal (fun s => native 2 (TransactionPayment.chain s))) in Hs. vm_compute in Hs. discriminate.
  - by exists tried, c, rest.
Defined.

Lemma payer_actual : compute_actual_fee fee_config (wrap 32 20) transaction 30 5 payer = 65.
Proof. by vm_compute. Qed.

(** The dispatch uses 30 of the 50 units of weight: 20 of the 85 come back to the account,
    and 60 are distributed beside the tip of 5. *)
Lemma transaction_pays_actual_fee_witness :
  (exists (s0 : St) (l : Exchange) (paid_fee paid_tip : Z),
    native 2 (TransactionPayment.chain before.2) = native 2 (TransactionPayment.chain s0) - 85
    /\ TransactionPayment.chain after.2 = on_unbalanceds (FeeCurrency := ledger_fees) [paid_fee; paid_tip] l
    /\ native 2 l = native 2 (TransactionPayment.chain before.2) + 20
    /\ (paid_fee : Z) = 60 /\ (paid_tip : Z) = 5).
Proof.
  pose proof (transaction_pays_actual_fee fee_config 5 2 transaction 30 20 payer before.2 before.2 _ _ _ payer_sane
                ltac:(by vm_compute) ltac:(by vm_compute) payer_before payer_multiplier payer_after) as Hpay.
  cbv zeta in Hpay. rewrite payer_fee, payer_actual in Hpay.
  destruct Hpay as (_ & _ & [(Hz & _)|(s0 & l & f & t & _ & Hf & Hl & Ht & Hr)]); [discriminate Hz|].
  destruct Hr as [(_ & Hr & Hp)|((x & Hx) & _)]; [|apply (f_equal fst) in Hx; vm_compute in Hx; discriminate Hx].
  exists s0, l, f, t. split; [exact Hf|]. split; [exact Hl|]. split; [exact Hr|]. split; [exact Hp|exact Ht].
Defined.

(** 40 units of weight are reserved and charged; 15 of them are given back. *)
Definition reserved := reserve_fee fee_config 1 40 payer.
Definition charged := unreserve_and_charge_fee fee_config 1 40 reserved.2.

Lemma charged_ran : charged = (Ok (40, 40), charged.2).
Proof. apply ran. by vm_compute. Qed.

Definition refunded := refund_fee fee_config 1 15 (40 : Z) charged.2.

Lemma refunded_ran : refunded = (refunded.1, refunded.2).
Proof. apply surjective_pairing. Qed.

Lemma scheduled_fee_is_refunded_witness : refunded.1 = Ok tt /\ native 99 (TransactionPayment.chain refunded.2) = 25.
Proof.
  split; [|by vm_compute].
  destruct (scheduled_fee_is_refunded fee_config 1 40 15 reserved.2 charged.2 charged.2 40 40 _ _ payer_sane
              ltac:(by vm_compute) charged_ran refunded_ran) as (Hr & _). exact Hr.
Defined.

Lemma larger_transactions_wait_witness :
  0 <= get_priority fee_config 40 (MkInfo 60 Normal Yes) 85 <= get_priority fee_config 20 transaction 85.
Proof.
  destruct (larger_transactions_wait fee_config 20 40 transaction (MkInfo 60 Normal Yes) 85
              ltac:(by vm_compute) ltac:(by vm_compute) ltac:(by vm_compute) ltac:(by vm_compute) ltac:(by vm_compute)) as (H & _).
  exact H.
Defined.

(** ** The exchange under the fees *)

Lemma withdraw_keeps who v r l q l' :
  who <> 100 -> native_withdraw (FeeCurrency := ledger_fees) who v r l = (q, l') -> exchange_kept sample_config l l'.
Proof.
  intros Hw Hrun. cbn [native_withdraw ledger_fees] in Hrun. destruct (_ && _); injection Hrun as <- <-;
    [by apply put_native_other|apply exchange_kept_refl].
Qed.

Lemma put_more_kept who v s : native who s <= v -> exchange_kept sample_config s (put_native who v s).
Proof. intros Hv. destruct (decide (who = 100)) as [->|]; [by apply put_native_kept|by apply put_native_other]. Qed.

Lemma deposit_keeps who v l q l' :
  native_deposit_into_existing (FeeCurrency := ledger_fees) who v l = (q, l') -> exchange_kept sample_config l l'.
Proof.
  intros Hrun. cbn [native_deposit_into_existing ledger_fees] in Hrun. destruct (_ && _) eqn:E; injection Hrun as <- <-;
    [bool_inv; apply put_more_kept; lia|apply exchange_kept_refl].
Qed.

Lemma reserve_keeps who v l q l' :
  who <> 100 -> native_reserve (FeeCurrency := ledger_fees) who v l = (q, l') -> exchange_kept sample_config l l'.
Proof.
  intros Hw Hrun. cbn [native_reserve ledger_fees] in Hrun. destruct (_ && _); injection Hrun as <- <-; [|apply exchange_kept_refl].
  eapply exchange_kept_trans; [by apply put_native_other|by apply put_native_other, shadow_apart].
Qed.

Lemma unreserve_keeps who v l : exchange_kept sample_config l (native_unreserve (FeeCurrency := ledger_fees) who v l).
Proof.
  cbn [native_unreserve ledger_fees]. eapply exchange_kept_trans; [by apply put_native_other, shadow_apart|].
  apply put_more_kept. rewrite native_put, decide_False by (unfold shadow; lia). pose proof (native_nonneg (shadow who) l). lia.
Qed.

Lemma distribution_keeps ns l : exchange_kept sample_config l (on_unbalanceds (FeeCurrency := ledger_fees) ns l).
Proof. by apply put_native_other. Qed.

Lemma payer_sound : sound sample_config payer.
Proof.
  eapply kept_sound; [by apply put_native_other|]. 
  apply (reachable_dex_inv sample_config sample_market sample_keyless sample_dust sample_vault (fun l => Permutation_refl l)
           sample_fee ltac:(by vm_compute) sample_mapping sample_market_reachable).
Qed.

Lemma fees_keep_the_exchange_solvent_witness : sound sample_config (withdraw_fee fee_config 5 2 transaction 20 payer).2.
Proof.
  destruct (fees_keep_the_exchange_solvent sample_config fee_config sample_dust
              sample_fee ltac:(by vm_compute) ltac:(done)
              withdraw_keeps deposit_keeps reserve_keeps unreserve_keeps distribution_keeps
              2 5 40 20 transaction 30 None 0 ltac:(done) payer_sane fix_trunc_range
              ltac:(by vm_compute) ltac:(by vm_compute) ltac:(by vm_compute) ltac:(by vm_compute)) as [H _].
  apply H, payer_sound.
Defined.
