(* ===== verification/Democracy.v ===== *)
(** * Democracy: proposals, referenda and delegated votes

    [lib-serml/democracy/src/lib.rs]: the queue of public proposals and the external one,
    referenda from their start to the block that decides them, votes and delegations with
    the locks they need, and the preimages of proposals. Votes, convictions, tallies and the
    arithmetic on them are the third-party crate [pallet_democracy] (class [VoteTypes]);
    currencies, the scheduler and the dispatch of proposals are behind [DemocracyChain].

    Some functions of the source do not type-check: [propose] computes the smallest deposit
    from prices that are not declared, [backing_for] takes a triple for a pair, and [second]
    reserves a currency id. The first two are parameters of the functions that use them
    ([deposit_is_enough], [backing_for]); [second] and the calls that pass [note_preimage_inner]
    and [note_imminent_preimage_inner] too few arguments are left out. [try_delegate] leaves the
    reasons of [extend_lock] away, and the first component of what [slash_reserved] answers is
    handed to [T::Slash]: [extend_lock] has one kind of lock here, and [dc_slash_reserved] is
    the slash with what becomes of the slashed amount. *)

From S2P Require Import Prelude Currency.

Inductive VoteThreshold : Type := SuperMajorityApprove | SuperMajorityAgainst | SimpleMajority.

#[export] Instance vote_threshold_eq_dec : EqDecision VoteThreshold.
Proof. solve_decision. Defined.

Inductive UnvoteScope : Type := Any | OnlyExpired.

(** [Voting]: the votes of an account, by referendum, or its delegation. *)
Inductive Voting (A V C D R : Type) : Type :=
| Direct (votes : list (Z * V)) (delegations : D) (prior : R)
| Delegating (balance : Z) (target : A) (conviction : C) (delegations : D) (prior : R).

Arguments Direct {A V C D R}.
Arguments Delegating {A V C D R}.

(** [as_standard] tells the side of a vote that is not split; [locked_if] the lock periods
    and the balance of a vote if the referendum ends that way; [rejig] drops a prior lock
    that has expired. *)
Class VoteTypes (A V C D T R : Type) : Type := {
  vote_balance : V -> Z;
  as_standard : V -> option bool;
  locked_if : V -> bool -> option (Z * Z);
  conviction_votes : C -> Z -> D;
  lock_periods : C -> Z;
  deleg_default : D;
  deleg_add : D -> D -> D;
  deleg_sub : D -> D -> D;
  tally_default : T;
  tally_add : T -> V -> option T;
  tally_remove : T -> V -> option T;
  tally_increase : T -> bool -> D -> T;
  tally_reduce : T -> bool -> D -> T;
  prior_default : R;
  prior_accumulate : R -> Z -> Z -> R;
  rejig : Voting A V C D R -> Z -> Voting A V C D R;
  locked_balance : Voting A V C D R -> Z;
  approved_by : VoteThreshold -> T -> Z -> bool
}.

Record ReferendumStatus (T Hash : Type) : Type := MkReferendum {
  ref_end : Z;
  proposal_hash : Hash;
  threshold : VoteThreshold;
  delay : Z;
  tally : T
}.

Arguments MkReferendum {T Hash}.
Arguments ref_end {T Hash}.
Arguments proposal_hash {T Hash}.
Arguments threshold {T Hash}.
Arguments delay {T Hash}.
Arguments tally {T Hash}.

Inductive ReferendumInfo (T Hash : Type) : Type :=
| Ongoing (status : ReferendumStatus T Hash)
| Finished (approved : bool) (ended : Z).

Arguments Ongoing {T Hash}.
Arguments Finished {T Hash}.

Inductive PreimageStatus (A : Type) : Type :=
| Missing (expiry : Z)
| Available (data : list Z) (provider : A) (currency : CurrencyId) (deposit since : Z) (expiry : option Z).

Arguments Missing {A}.
Arguments Available {A}.

Definition to_missing_expiry {A : Type} (p : PreimageStatus A) : option Z :=
  match p with Missing expiry => Some expiry | _ => None end.

(** Currencies of proposals and of votes, the scheduler, the hash of a preimage. *)
Class DemocracyChain (L X A Hash : Type) : Type := {
  block_number : L -> Z;
  dc_reserve : CurrencyId -> A -> Z -> M L X unit;
  dc_unreserve : CurrencyId -> A -> Z -> L -> L;
  dc_slash_reserved : CurrencyId -> A -> Z -> L -> L;
  dc_repatriate_reserved : CurrencyId -> A -> A -> Z -> L -> L;
  dc_total_issuance : CurrencyId -> L -> Z;
  dc_free_balance : A -> L -> Z;
  extend_lock : A -> Z -> L -> L;
  set_lock : A -> Z -> L -> L;
  remove_lock : A -> L -> L;
  schedule_enactment : Z -> Z -> Hash -> L -> L;
  cancel_enactment : Z -> L -> option L;
  hash_preimage : list Z -> Hash
}.

Inductive DemocracyError : Type :=
| ProposalMissing | AlreadyCanceled | DuplicateProposal | ProposalBlacklisted | NotSimpleMajority | InvalidHash | NoProposal
| AlreadyVetoed | DuplicatePreimage | NotImminent | TooEarly | Imminent | PreimageIsMissing | ReferendumInvalid
| PreimageIsInvalid | NoneWaiting | InsufficientFunds | NotVoter | NoPermission | AlreadyDelegating | NotDelegating | VotesExist
| InstantNotAllowed | Nonsense | WrongUpperBound | MaxVotesReached | InvalidCurrencyType | TooManyProposals | ValueLow
| BadIndex | NotDelegated | NotLocked | NotExpired | InvalidWitness | Arithmetic | BadOrigin.

Inductive DemocracyEvent (A Hash : Type) : Type :=
| Proposed (index : Z) (currency_id : CurrencyId) (deposit : Z)
| Tabled (index deposit : Z) (depositors : list A)
| ExternalTabled
| Started (index : Z) (t : VoteThreshold)
| Passed (index : Z)
| NotPassed (index : Z)
| Cancelled (index : Z)
| Executed (index : Z) (is_ok : bool)
| Delegated (who target : A)
| Undelegated (who : A)
| Vetoed (who : A) (h : Hash) (until : Z)
| PreimageNoted (h : Hash) (who : A) (currency_id : CurrencyId) (deposit : Z)
| PreimageUsed (h : Hash) (who : A) (currency_id : CurrencyId) (deposit : Z)
| PreimageInvalid (h : Hash) (index : Z)
| PreimageMissing (h : Hash) (index : Z)
| PreimageReaped (h : Hash) (provider : A) (currency_id : CurrencyId) (deposit : Z) (reaper : A)
| Unlocked (who : A)
| Blacklisted (h : Hash).

Arguments Proposed {A Hash}.
Arguments Tabled {A Hash}.
Arguments ExternalTabled {A Hash}.
Arguments Started {A Hash}.
Arguments Passed {A Hash}.
Arguments NotPassed {A Hash}.
Arguments Cancelled {A Hash}.
Arguments Executed {A Hash}.
Arguments Delegated {A Hash}.
Arguments Undelegated {A Hash}.
Arguments Vetoed {A Hash}.
Arguments PreimageNoted {A Hash}.
Arguments PreimageUsed {A Hash}.
Arguments PreimageInvalid {A Hash}.
Arguments PreimageMissing {A Hash}.
Arguments PreimageReaped {A Hash}.
Arguments Unlocked {A Hash}.
Arguments Blacklisted {A Hash}.

(** [binary_search] on a sorted list: whether the key is there, and its position or the
    place to insert it. *)
Fixpoint search {K : Type} (before : K -> K -> bool) (key : K) (l : list K) : bool * nat :=
  match l with
  | [] => (false, 0%nat)
  | k :: l' =>
      if before k key then let '(found, i) := search before key l' in (found, S i)
      else (negb (before key k), 0%nat)
  end.

(** [Vec::insert] and [Vec::remove]. *)
Definition insert_at {B : Type} (i : nat) (x : B) (l : list B) : list B := take i l ++ x :: drop i l.
Definition remove_at {B : Type} (i : nat) (l : list B) : list B := take i l ++ drop (S i) l.

(** [Vec::swap_remove]: the last element takes the place. *)
Definition swap_remove {B : Type} (i : nat) (l : list B) : list B :=
  match last l with
  | Some z => take (length l - 1) (<[i := z]> l)
  | None => l
  end.

Section Democracy.
Context {L X A Hash V C D T R Proposal : Type} `{Countable A} `{Countable Hash}.
Context `{!VoteTypes A V C D T R} `{!DemocracyChain L X A Hash}.

Abbreviation Vot := (Voting A V C D R).
Abbreviation Status := (ReferendumStatus T Hash).
Abbreviation Info := (ReferendumInfo T Hash).

Record State : Type := MkState {
  public_prop_count : Z;
  public_props : list (Z * Hash * A);
  deposit_of : gmap Z (list A * CurrencyId * Z);
  preimages : gmap Hash (PreimageStatus A);
  referendum_count : Z;
  lowest_unbaked : Z;
  referendum_info : gmap Z Info;
  votings : gmap A Vot;
  last_tabled_was_external : bool;
  next_external : option (Hash * VoteThreshold);
  black_list : gmap Hash (Z * list A);
  cancellations : gset Hash;
  events : list (DemocracyEvent A Hash);
  chain : L
}.

Abbreviation Run := (M State (DemocracyError + X)).

Record Config : Type := MkConfig {
  EnactmentPeriod : Z;
  LaunchPeriod : Z;
  VotingPeriod : Z;
  GovernanceCurrencyIds : list CurrencyId;
  InstantAllowed : bool;
  FastTrackVotingPeriod : Z;
  CooloffPeriod : Z;
  PreimageByteDeposit : Z;
  MaxVotes : Z;
  MaxProposals : Z
}.

Variable cfg : Config.

(** [Ord] of the accounts; [T::Proposal::decode], and the dispatch of a proposal as root,
    which may be any call of the runtime, with whether it was well. *)
Variable account_before : A -> A -> bool.
Variable decode_proposal : list Z -> option Proposal.
Variable dispatch_root : Proposal -> State -> bool * State.

(** ** Writes *)

Definition set_props (f : list (Z * Hash * A) -> list (Z * Hash * A)) (s : State) : State :=
  MkState (public_prop_count s) (f (public_props s)) (deposit_of s) (preimages s) (referendum_count s) (lowest_unbaked s)
    (referendum_info s) (votings s) (last_tabled_was_external s) (next_external s) (black_list s) (cancellations s) (events s) (chain s).

Definition set_prop_count (n : Z) (s : State) : State :=
  MkState n (public_props s) (deposit_of s) (preimages s) (referendum_count s) (lowest_unbaked s)
    (referendum_info s) (votings s) (last_tabled_was_external s) (next_external s) (black_list s) (cancellations s) (events s) (chain s).

Definition set_deposits (f : gmap Z (list A * CurrencyId * Z) -> gmap Z (list A * CurrencyId * Z)) (s : State) : State :=
  MkState (public_prop_count s) (public_props s) (f (deposit_of s)) (preimages s) (referendum_count s) (lowest_unbaked s)
    (referendum_info s) (votings s) (last_tabled_was_external s) (next_external s) (black_list s) (cancellations s) (events s) (chain s).

Definition set_preimages (f : gmap Hash (PreimageStatus A) -> gmap Hash (PreimageStatus A)) (s : State) : State :=
  MkState (public_prop_count s) (public_props s) (deposit_of s) (f (preimages s)) (referendum_count s) (lowest_unbaked s)
    (referendum_info s) (votings s) (last_tabled_was_external s) (next_external s) (black_list s) (cancellations s) (events s) (chain s).

Definition set_referendum_count (n : Z) (s : State) : State :=
  MkState (public_prop_count s) (public_props s) (deposit_of s) (preimages s) n (lowest_unbaked s)
    (referendum_info s) (votings s) (last_tabled_was_external s) (next_external s) (black_list s) (cancellations s) (events s) (chain s).

Definition set_referenda (f : gmap Z Info -> gmap Z Info) (s : State) : State :=
  MkState (public_prop_count s) (public_props s) (deposit_of s) (preimages s) (referendum_count s) (lowest_unbaked s)
    (f (referendum_info s)) (votings s) (last_tabled_was_external s) (next_external s) (black_list s) (cancellations s) (events s) (chain s).

Definition set_votings (f : gmap A Vot -> gmap A Vot) (s : State) : State :=
  MkState (public_prop_count s) (public_props s) (deposit_of s) (preimages s) (referendum_count s) (lowest_unbaked s)
    (referendum_info s) (f (votings s)) (last_tabled_was_external s) (next_external s) (black_list s) (cancellations s) (events s) (chain s).

Definition set_last_external (b : bool) (s : State) : State :=
  MkState (public_prop_count s) (public_props s) (deposit_of s) (preimages s) (referendum_count s) (lowest_unbaked s)
    (referendum_info s) (votings s) b (next_external s) (black_list s) (cancellations s) (events s) (chain s).

Definition set_next_external (o : option (Hash * VoteThreshold)) (s : State) : State :=
  MkState (public_prop_count s) (public_props s) (deposit_of s) (preimages s) (referendum_count s) (lowest_unbaked s)
    (referendum_info s) (votings s) (last_tabled_was_external s) o (black_list s) (cancellations s) (events s) (chain s).

Definition set_black_list (f : gmap Hash (Z * list A) -> gmap Hash (Z * list A)) (s : State) : State :=
  MkState (public_prop_count s) (public_props s) (deposit_of s) (preimages s) (referendum_count s) (lowest_unbaked s)
    (referendum_info s) (votings s) (last_tabled_was_external s) (next_external s) (f (black_list s)) (cancellations s) (events s) (chain s).

Definition set_cancellations (f : gset Hash -> gset Hash) (s : State) : State :=
  MkState (public_prop_count s) (public_props s) (deposit_of s) (preimages s) (referendum_count s) (lowest_unbaked s)
    (referendum_info s) (votings s) (last_tabled_was_external s) (next_external s) (black_list s) (f (cancellations s)) (events s) (chain s).

Definition deposit_event (e : DemocracyEvent A Hash) (s : State) : State :=
  MkState (public_prop_count s) (public_props s) (deposit_of s) (preimages s) (referendum_count s) (lowest_unbaked s)
    (referendum_info s) (votings s) (last_tabled_was_external s) (next_external s) (black_list s) (cancellations s) (events s ++ [e]) (chain s).

Definition set_chain (l : L) (s : State) : State :=
  MkState (public_prop_count s) (public_props s) (deposit_of s) (preimages s) (referendum_count s) (lowest_unbaked s)
    (referendum_info s) (votings s) (last_tabled_was_external s) (next_external s) (black_list s) (cancellations s) (events s) l.

Definition on_chain {B : Type} (m : M L X B) : Run B := zoom chain set_chain inr m.

Definition on_l (f : L -> L) (s : State) : State := set_chain (f (chain s)) s.

Definition now : Run Z := gets (fun s => block_number (chain s)).

(** [VotingOf] is a [ValueQuery]. *)
Definition voting_default : Vot := Direct [] deleg_default prior_default.

Definition voting_of (s : State) (who : A) : Vot := default voting_default (votings s !! who).

Definition set_voting (who : A) (v : Vot) (s : State) : State := set_votings <[who := v]> s.

(** ** Referenda *)

Definition inject_referendum (end_ : Z) (h : Hash) (t : VoteThreshold) (d : Z) (s : State) : State :=
  let ref_index := referendum_count s in
  let s := set_referendum_count (wrap 32 (ref_index + 1)) s in
  let s := set_referenda <[ref_index := Ongoing (MkReferendum end_ h t d tally_default)]> s in
  deposit_event (Started ref_index t) s.

Definition internal_start_referendum (h : Hash) (t : VoteThreshold) (d : Z) (s : State) : State :=
  inject_referendum (wrap 32 (block_number (chain s) + VotingPeriod cfg)) h t d s.

Definition internal_cancel_referendum (ref_index : Z) (s : State) : State :=
  set_referenda (delete ref_index) (deposit_event (Cancelled ref_index) s).

Definition ensure_ongoing (r : Info) : option Status :=
  match r with Ongoing st => Some st | _ => None end.

Definition referendum_status (ref_index : Z) (s : State) : option Status := referendum_info s !! ref_index ≫= ensure_ongoing.

Definition maturing_referenda_at_inner (n next last : Z) (s : State) : list (Z * Status) :=
  omap (fun i => st ← referendum_status i s; if ref_end st =? n then Some (i, st) else None) (seqZ next (last - next)).

Definition maturing_referenda_at (n : Z) (s : State) : list (Z * Status) :=
  maturing_referenda_at_inner n (lowest_unbaked s) (referendum_count s) s.

(** ** Votes *)

Definition search_vote (ref_index : Z) (votes : list (Z * V)) : bool * nat := search Z.ltb ref_index (map fst votes).

(** [if let Some(approve) = as_standard() { tally.increase(approve, delegations) }] *)
Definition increase_standard (v : V) (d : D) (t : T) : T :=
  match as_standard v with Some approve => tally_increase t approve d | None => t end.

Definition reduce_standard (v : V) (d : D) (t : T) : T :=
  match as_standard v with Some approve => tally_reduce t approve d | None => t end.

Definition with_tally (t : T) (st : Status) : Status := MkReferendum (ref_end st) (proposal_hash st) (threshold st) (delay st) t.

(** The closure of [try_vote]: the votes and the tally afterwards. *)
Definition cast_vote (ref_index : Z) (v : V) (votes : list (Z * V)) (d : D) (t : T) :
    outcome (DemocracyError + X) (list (Z * V) * T) :=
  let '(found, i) := search_vote ref_index votes in
  let? (votes, t) :=
    match votes !! i with
    | Some (_, old) =>
        if found then
          let? t := ok_or_err (tally_remove t old) (inl Arithmetic) in
          Ok (<[i := (ref_index, v)]> votes, reduce_standard old d t)
        else
          do? oensure (Z.of_nat (length votes) <=? MaxVotes cfg) (inl MaxVotesReached) in
          Ok (insert_at i (ref_index, v) votes, t)
    | None =>
        do? oensure (Z.of_nat (length votes) <=? MaxVotes cfg) (inl MaxVotesReached) in
        Ok (insert_at i (ref_index, v) votes, t)
    end in
  let? t := ok_or_err (tally_add t v) (inl Arithmetic) in
  Ok (votes, increase_standard v d t).

Definition try_vote (who : A) (ref_index : Z) (v : V) : Run unit :=
  let! s := get in
  let! status := ok_or (referendum_status ref_index s) (inl ReferendumInvalid) in
  do! ensure (vote_balance v <=? dc_free_balance who (chain s)) (inl InsufficientFunds) in
  match voting_of s who with
  | Direct votes d prior =>
      let! (votes, t) := reads (fun _ => cast_vote ref_index v votes d (tally status)) in
      do! modify (set_voting who (Direct votes d prior)) in
      do! modify (on_l (extend_lock who (vote_balance v))) in
      modify (set_referenda <[ref_index := Ongoing (with_tally t status)]>)
  | Delegating _ _ _ _ _ => fail (inl AlreadyDelegating)
  end.

Definition try_remove_vote (who : A) (ref_index : Z) (scope : UnvoteScope) : Run unit :=
  let! s := get in
  let any := match scope with Any => true | OnlyExpired => false end in
  match voting_of s who with
  | Direct votes d prior =>
      let '(found, i) := search_vote ref_index votes in
      do! ensure found (inl NotVoter) in
      let! (_, v) := expect (votes !! i) in
      let! prior :=
        match referendum_info s !! ref_index with
        | Some (Ongoing status) =>
            do! ensure any (inl NoPermission) in
            let! t := ok_or (tally_remove (tally status) v) (inl Arithmetic) in
            do! modify (set_referenda <[ref_index := Ongoing (with_tally (reduce_standard v d t) status)]>) in
            ret prior
        | Some (Finished approved ended) =>
            match locked_if v approved with
            | Some (periods, balance) =>
                let unlock_at := wrap 32 (ended + wrap 32 (EnactmentPeriod cfg * periods)) in
                if block_number (chain s) <? unlock_at then
                  do! ensure any (inl NoPermission) in
                  ret (prior_accumulate prior unlock_at balance)
                else ret prior
            | None => ret prior
            end
        | None => ret prior
        end in
      modify (set_voting who (Direct (remove_at i votes) d prior))
  | Delegating _ _ _ _ _ => modify (set_voting who (voting_of s who))
  end.

(** ** Delegation *)

(** The tallies of the referenda an account voted on, unsplit. *)
Definition change_tallies (change : T -> bool -> D -> T) (amount : D) (votes : list (Z * V)) (m : gmap Z Info) : gmap Z Info :=
  fold_left (fun m '(ref_index, v) =>
    match as_standard v, m !! ref_index with
    | Some aye, Some (Ongoing status) => <[ref_index := Ongoing (with_tally (change (tally status) aye amount) status)]> m
    | _, _ => m
    end) votes m.

Definition increase_upstream_delegation (who : A) (amount : D) (s : State) : State :=
  match voting_of s who with
  | Delegating b t c d prior => set_voting who (Delegating b t c (deleg_add d amount) prior) s
  | Direct votes d prior =>
      set_voting who (Direct votes (deleg_add d amount) prior) (set_referenda (change_tallies tally_increase amount votes) s)
  end.

Definition reduce_upstream_delegation (who : A) (amount : D) (s : State) : State :=
  match voting_of s who with
  | Delegating b t c d prior => set_voting who (Delegating b t c (deleg_sub d amount) prior) s
  | Direct votes d prior =>
      set_voting who (Direct votes (deleg_sub d amount) prior) (set_referenda (change_tallies tally_reduce amount votes) s)
  end.

(** The closure works on the voting of [who] that was read first. *)
Definition try_delegate (who target : A) (c : C) (balance : Z) : Run unit :=
  let! s := get in
  do! ensure (bool_decide (who <> target)) (inl Nonsense) in
  do! ensure (balance <=? dc_free_balance who (chain s)) (inl InsufficientFunds) in
  let! (d, prior) :=
    match voting_of s who with
    | Delegating b t oc d prior => do! modify (reduce_upstream_delegation t (conviction_votes oc b)) in ret (d, prior)
    | Direct votes d prior => do! ensure (bool_decide (votes = [])) (inl VotesExist) in ret (d, prior)
    end in
  do! modify (increase_upstream_delegation target (conviction_votes c balance)) in
  do! modify (on_l (extend_lock who balance)) in
  do! modify (set_voting who (Delegating balance target c d prior)) in
  modify (deposit_event (Delegated who target)).

Definition try_undelegate (who : A) : Run unit :=
  let! s := get in
  match voting_of s who with
  | Delegating b t c d prior =>
      do! modify (reduce_upstream_delegation t (conviction_votes c b)) in
      let unlock_at := wrap 32 (block_number (chain s) + wrap 32 (EnactmentPeriod cfg * lock_periods c)) in
      do! modify (set_voting who (Direct [] d (prior_accumulate prior unlock_at b))) in
      modify (deposit_event (Undelegated who))
  | Direct _ _ _ => fail (inl NotDelegating)
  end.

Definition update_lock (who : A) (s : State) : State :=
  let v := rejig (voting_of s who) (block_number (chain s)) in
  let s := set_voting who v s in
  if locked_balance v =? 0 then on_l (remove_lock who) s else on_l (set_lock who (locked_balance v)) s.


(** ** Tabling *)

(** [Result::or_else]. *)
Definition or_else {B : Type} (m k : Run B) : Run B :=
  let! r := try_run m in match r with Some b => ret b | None => k end.

Definition launch_external (now : Z) : Run unit :=
  let! next := gets next_external in
  match next with
  | Some (proposal, t) =>
      do! modify (set_next_external None) in
      do! modify (set_last_external true) in
      do! modify (deposit_event ExternalTabled) in
      modify (inject_referendum (wrap 32 (now + VotingPeriod cfg)) proposal t (EnactmentPeriod cfg))
  | None => fail (inl NoneWaiting)
  end.

(** [max_by_key]: the last of the greatest, with its position. *)
Fixpoint max_by_key {B : Type} (key : B -> Z) (i : nat) (l : list B) : option (nat * B) :=
  match l with
  | [] => None
  | x :: l' =>
      match max_by_key key (S i) l' with
      | Some (j, y) => if key x <=? key y then Some (j, y) else Some (i, x)
      | None => Some (i, x)
      end
  end.

Definition launch_public (backing_for : Z -> State -> option Z) (now : Z) : Run unit :=
  let! s := get in
  match max_by_key (fun '(prop_index, _, _) => default 0 (backing_for prop_index s)) 0 (public_props s) with
  | Some (winner_index, (prop_index, proposal, _)) =>
      do! modify (set_props (fun _ => swap_remove winner_index (public_props s))) in
      match deposit_of s !! prop_index with
      | Some (depositors, currency_id, deposit) =>
          do! modify (set_deposits (delete prop_index)) in
          do! modify (on_l (fun l => fold_left (fun l d => dc_unreserve currency_id d deposit l) depositors l)) in
          do! modify (deposit_event (Tabled prop_index deposit depositors)) in
          modify (inject_referendum (wrap 32 (now + VotingPeriod cfg)) proposal SuperMajorityApprove (EnactmentPeriod cfg))
      | None => ret tt
      end
  | None => fail (inl NoneWaiting)
  end.

(** Whatever the error was, it is [NoneWaiting]. *)
Definition launch_next (backing_for : Z -> State -> option Z) (now : Z) : Run unit :=
  let! external := gets last_tabled_was_external in
  do! modify (set_last_external false) in
  or_else
    (if external then or_else (launch_public backing_for now) (launch_external now)
     else or_else (launch_external now) (launch_public backing_for now))
    (fail (inl NoneWaiting)).

(** ** Enactment *)

Definition do_enact_proposal (h : Hash) (index : Z) : Run unit :=
  let! s := get in
  do! modify (set_preimages (delete h)) in
  match preimages s !! h with
  | Some (Available data provider currency deposit _ _) =>
      match decode_proposal data with
      | Some proposal =>
          do! modify (on_l (dc_unreserve currency provider deposit)) in
          do! modify (deposit_event (PreimageUsed h provider currency deposit)) in
          let! ok := (fun s => let '(ok, s) := dispatch_root proposal s in (Ok ok, s)) in
          modify (deposit_event (Executed index ok))
      | None =>
          do! modify (on_l (dc_slash_reserved currency provider deposit)) in
          do! modify (deposit_event (PreimageInvalid h index)) in
          fail (inl PreimageIsInvalid)
      end
  | _ =>
      do! modify (deposit_event (PreimageMissing h index)) in
      fail (inl PreimageIsMissing)
  end.

(** The currency a preimage was paid for in, if it is there. *)
Definition preimage_currency (h : Hash) (s : State) : option CurrencyId :=
  match preimages s !! h with Some (Available _ _ currency _ _ _) => Some currency | _ => None end.

(** [mutate_exists]: the preimage is needed at [when]. *)
Definition need_preimage (h : Hash) (when : Z) (s : State) : State :=
  set_preimages <[h :=
    match preimages s !! h with
    | Some (Available data provider currency deposit since _) => Available data provider currency deposit since (Some when)
    | _ => Missing when
    end]> s.

Definition bake_referendum (now index : Z) (status : Status) : Run bool :=
  let! s := get in
  let! currency := ok_or (preimage_currency (proposal_hash status) s) (inl PreimageIsMissing) in
  let approved := approved_by (threshold status) (tally status) (dc_total_issuance currency (chain s)) in
  if approved then
    do! modify (deposit_event (Passed index)) in
    if delay status =? 0 then
      let! _ := try_run (do_enact_proposal (proposal_hash status) index) in
      ret true
    else
      let when := wrap 32 (now + delay status) in
      do! modify (need_preimage (proposal_hash status) when) in
      do! modify (on_l (schedule_enactment when index (proposal_hash status))) in
      ret true
  else
    do! modify (deposit_event (NotPassed index)) in
    ret false.

Definition bake_maturing (now : Z) : list (Z * Status) -> Run unit :=
  for_each (fun '(index, status) =>
    let! approved := bake_referendum now index status in
    modify (set_referenda <[index := Finished approved now]>)).

(** The weight is left out. *)
Definition begin_block (backing_for : Z -> State -> option Z) (now : Z) : Run unit :=
  if LaunchPeriod cfg =? 0 then panic
  else
    do! (when! now mod LaunchPeriod cfg =? 0 then let! _ := try_run (launch_next backing_for now) in ret tt) in
    let! maturing := gets (maturing_referenda_at now) in
    bake_maturing now maturing.

Definition on_initialize (backing_for : Z -> State -> option Z) (now : Z) : Run unit :=
  let! _ := try_run (begin_block backing_for now) in ret tt.

(** ** Preimages *)

(** The variant is the first byte of what is stored. *)
Definition check_pre_image_is_missing (h : Hash) : Run unit :=
  let! s := get in
  match preimages s !! h with
  | Some (Missing _) => ret tt
  | Some (Available _ _ _ _ _ _) => fail (inl DuplicatePreimage)
  | None => fail (inl NotImminent)
  end.

(** The length of the data comes right after the variant. *)
Definition pre_image_data_len (h : Hash) : Run Z :=
  let! s := get in
  match preimages s !! h with
  | Some (Available data _ _ _ _ _) => ret (Z.of_nat (length data))
  | _ => fail (inl PreimageIsMissing)
  end.

Definition is_governance_currency (currency_id : CurrencyId) : bool := existsb (currency_eqb currency_id) (GovernanceCurrencyIds cfg).

Definition note_preimage_inner (who : A) (currency_id : CurrencyId) (encoded_proposal : list Z) : Run unit :=
  let h := hash_preimage encoded_proposal in
  let! s := get in
  do! ensure (bool_decide (preimages s !! h = None)) (inl DuplicatePreimage) in
  do! ensure (is_governance_currency currency_id) (inl InvalidCurrencyType) in
  let deposit := sat_mul 128 (wrap 32 (Z.of_nat (length encoded_proposal))) (PreimageByteDeposit cfg) in
  do! on_chain (dc_reserve currency_id who deposit) in
  let! now := now in
  do! modify (set_preimages <[h := Available encoded_proposal who currency_id deposit now None]>) in
  modify (deposit_event (PreimageNoted h who currency_id deposit)).

Definition note_imminent_preimage_inner (who : A) (currency_id : CurrencyId) (encoded_proposal : list Z) : Run unit :=
  let h := hash_preimage encoded_proposal in
  do! check_pre_image_is_missing h in
  do! ensure (is_governance_currency currency_id) (inl InvalidCurrencyType) in
  let! s := get in
  let! status := ok_or (preimages s !! h) (inl NotImminent) in
  let! expiry := ok_or (to_missing_expiry status) (inl DuplicatePreimage) in
  let! now := now in
  do! modify (set_preimages <[h := Available encoded_proposal who currency_id 0 now (Some expiry)]>) in
  modify (deposit_event (PreimageNoted h who currency_id 0)).

(** The result of the repatriation is only asserted in debug builds. *)
Definition reap_preimage (origin : option A) (h : Hash) (proposal_len_upper_bound : Z) : Run unit :=
  let! who := ok_or origin (inl BadOrigin) in
  let! len := pre_image_data_len h in
  do! ensure (len <=? proposal_len_upper_bound) (inl WrongUpperBound) in
  let! s := get in
  match preimages s !! h with
  | Some (Available _ provider currency deposit since expiry) =>
      let! now := now in
      let additional := if decide (who = provider) then 0 else EnactmentPeriod cfg in
      do! ensure (wrap 32 (wrap 32 (since + VotingPeriod cfg) + additional) <=? now) (inl TooEarly) in
      do! ensure (match expiry with Some e => e <? now | None => true end) (inl Imminent) in
      do! modify (on_l (dc_repatriate_reserved currency provider who deposit)) in
      do! modify (set_preimages (delete h)) in
      modify (deposit_event (PreimageReaped h provider currency deposit who))
  | _ => fail (inl PreimageIsMissing)
  end.

(** ** Calls *)

(** [if let Some((until, _)) = Blacklist::get(..)]: until when a proposal may not be made. *)
Definition not_blacklisted (h : Hash) (s : State) : bool :=
  match black_list s !! h with Some (until, _) => until <=? block_number (chain s) | None => true end.

Definition propose (deposit_is_enough : CurrencyId -> Z -> bool)
    (origin : option A) (h : Hash) (currency_id : CurrencyId) (value : Z) : Run unit :=
  let! who := ok_or origin (inl BadOrigin) in
  do! ensure (is_governance_currency currency_id) (inl InvalidCurrencyType) in
  do! ensure (deposit_is_enough currency_id value) (inl ValueLow) in
  let! s := get in
  let index := public_prop_count s in
  do! ensure (wrap 32 (Z.of_nat (length (public_props s))) <? MaxProposals cfg) (inl TooManyProposals) in
  do! ensure (not_blacklisted h s) (inl ProposalBlacklisted) in
  do! on_chain (dc_reserve currency_id who value) in
  do! modify (set_prop_count (wrap 32 (index + 1))) in
  do! modify (set_deposits <[index := ([who], currency_id, value)]>) in
  do! modify (set_props (fun l => l ++ [(index, h, who)])) in
  modify (deposit_event (Proposed index currency_id value)).

Definition vote (origin : option A) (ref_index : Z) (v : V) : Run unit :=
  let! who := ok_or origin (inl BadOrigin) in
  try_vote who ref_index v.

Definition emergency_cancel (allowed : bool) (ref_index : Z) : Run unit :=
  do! ensure allowed (inl BadOrigin) in
  let! s := get in
  let! status := ok_or (referendum_status ref_index s) (inl ReferendumInvalid) in
  let h := proposal_hash status in
  do! ensure (bool_decide (h ∉ cancellations s)) (inl AlreadyCanceled) in
  do! modify (set_cancellations (fun c => {[h]} ∪ c)) in
  modify (internal_cancel_referendum ref_index).

Definition external_propose (allowed : bool) (h : Hash) : Run unit :=
  do! ensure allowed (inl BadOrigin) in
  let! s := get in
  do! ensure (match next_external s with None => true | _ => false end) (inl DuplicateProposal) in
  do! ensure (not_blacklisted h s) (inl ProposalBlacklisted) in
  modify (set_next_external (Some (h, SuperMajorityApprove))).

Definition external_propose_majority (allowed : bool) (h : Hash) : Run unit :=
  do! ensure allowed (inl BadOrigin) in
  modify (set_next_external (Some (h, SimpleMajority))).

Definition external_propose_default (allowed : bool) (h : Hash) : Run unit :=
  do! ensure allowed (inl BadOrigin) in
  modify (set_next_external (Some (h, SuperMajorityAgainst))).

Definition fast_track (is_fast_track is_instant : bool) (h : Hash) (voting_period delay : Z) : Run unit :=
  do! (when! (voting_period <? FastTrackVotingPeriod cfg) || negb is_fast_track then
         do! ensure is_instant (inl BadOrigin) in
         ensure (InstantAllowed cfg) (inl InstantNotAllowed)) in
  let! s := get in
  let! (e_proposal_hash, t) := ok_or (next_external s) (inl ProposalMissing) in
  do! ensure (bool_decide (t <> SuperMajorityApprove)) (inl NotSimpleMajority) in
  do! ensure (bool_decide (h = e_proposal_hash)) (inl InvalidHash) in
  do! modify (set_next_external None) in
  let! now := now in
  modify (inject_referendum (wrap 32 (now + voting_period)) h t delay).

Definition veto_external (origin : option A) (h : Hash) : Run unit :=
  let! who := ok_or origin (inl BadOrigin) in
  let! s := get in
  do! match next_external s with
      | Some (e_proposal_hash, _) => ensure (bool_decide (h = e_proposal_hash)) (inl ProposalMissing)
      | None => fail (inl NoProposal)
      end in
  let existing_vetoers := match black_list s !! h with Some (_, vetoers) => vetoers | None => [] end in
  let '(found, position) := search account_before who existing_vetoers in
  do! ensure (negb found) (inl AlreadyVetoed) in
  let until := wrap 32 (block_number (chain s) + CooloffPeriod cfg) in
  do! modify (set_black_list <[h := (until, insert_at position who existing_vetoers)]>) in
  do! modify (deposit_event (Vetoed who h until)) in
  modify (set_next_external None).

Definition cancel_referendum (is_root : bool) (ref_index : Z) : Run unit :=
  do! ensure is_root (inl BadOrigin) in
  modify (internal_cancel_referendum ref_index).

Definition cancel_queued (is_root : bool) (which : Z) : Run unit :=
  do! ensure is_root (inl BadOrigin) in
  let! s := get in
  let! l := ok_or (cancel_enactment which (chain s)) (inl ProposalMissing) in
  modify (set_chain l).

Definition delegate (origin : option A) (to : A) (c : C) (balance : Z) : Run unit :=
  let! who := ok_or origin (inl BadOrigin) in
  try_delegate who to c balance.

Definition undelegate (origin : option A) : Run unit :=
  let! who := ok_or origin (inl BadOrigin) in
  try_undelegate who.

Definition clear_public_proposals (is_root : bool) : Run unit :=
  do! ensure is_root (inl BadOrigin) in
  modify (set_props (fun _ => [])).

Definition unlock (origin : option A) (target : A) : Run unit :=
  let! _ := ok_or origin (inl BadOrigin) in
  modify (update_lock target).

Definition remove_vote (origin : option A) (index : Z) : Run unit :=
  let! who := ok_or origin (inl BadOrigin) in
  try_remove_vote who index Any.

Definition remove_other_vote (origin : option A) (target : A) (index : Z) : Run unit :=
  let! who := ok_or origin (inl BadOrigin) in
  try_remove_vote target index (if decide (target = who) then Any else OnlyExpired).

Definition enact_proposal (is_root : bool) (h : Hash) (index : Z) : Run unit :=
  do! ensure is_root (inl BadOrigin) in
  do_enact_proposal h index.

(** The deposit of a removed proposal is slashed from everybody who gave it. *)
Definition slash_deposit (prop_index : Z) (s : State) : State :=
  match deposit_of s !! prop_index with
  | Some (whos, currency_id, amount) =>
      on_l (fun l => fold_left (fun l who => dc_slash_reserved currency_id who amount l) whos l) (set_deposits (delete prop_index) s)
  | None => s
  end.

Fixpoint position {B : Type} (p : B -> bool) (l : list B) : option nat :=
  match l with [] => None | x :: l' => if p x then Some 0%nat else S <$> position p l' end.

Definition blacklist (allowed : bool) (h : Hash) (maybe_ref_index : option Z) : Run unit :=
  do! ensure allowed (inl BadOrigin) in
  do! modify (set_black_list <[h := (umax 32, [])]>) in
  do! modify (fun s =>
    match position (fun '(_, h', _) => bool_decide (h' = h)) (public_props s) with
    | Some index =>
        match public_props s !! index with
        | Some (prop_index, _, _) => slash_deposit prop_index (set_props (remove_at index) s)
        | None => s
        end
    | None => s
    end) in
  do! modify (fun s =>
    match next_external s with
    | Some (h', _) => if decide (h' = h) then set_next_external None s else s
    | None => s
    end) in
  do! modify (fun s =>
    match maybe_ref_index ≫= fun i => (fun st => (i, st)) <$> referendum_status i s with
    | Some (ref_index, status) => if decide (proposal_hash status = h) then internal_cancel_referendum ref_index s else s
    | None => s
    end) in
  modify (deposit_event (Blacklisted h)).

Definition cancel_proposal (allowed : bool) (prop_index : Z) : Run unit :=
  do! ensure allowed (inl BadOrigin) in
  do! modify (set_props (List.filter (fun '(i, _, _) => negb (i =? prop_index)))) in
  modify (slash_deposit prop_index).

(** Genesis. *)
Definition build (s : State) : State :=
  MkState 0 (public_props s) (deposit_of s) (preimages s) 0 0 (referendum_info s) (votings s)
    (last_tabled_was_external s) (next_external s) (black_list s) (cancellations s) (events s) (chain s).

End Democracy.
