(* ===== verification/DemocracyTallies.v ===== *)
(** * What a tally counts

    Every call and the block hook of the democracy pallet changes the votes in one of seven
    ways ([effect]); along them the tally of an ongoing referendum is the sum of the votes on
    it and of what is delegated to the voters, and what is delegated to an account is the sum
    over those that delegate to it. *)

From S2P Require Import Prelude Currency Democracy.

(** What of the state the votes are about. *)
Record Votes (A V C D T R Hash : Type) `{Countable A} : Type := MkVotes {
  infos : gmap Z (ReferendumInfo T Hash);
  accounts : gmap A (Voting A V C D R);
  started : Z
}.

Arguments MkVotes {A V C D T R Hash _ _}.
Arguments infos {A V C D T R Hash _ _}.
Arguments accounts {A V C D T R Hash _ _}.
Arguments started {A V C D T R Hash _ _}.

Inductive Component : Type := Ayes | Nays | Turnout.

(** What a tally says in each of its numbers, what a vote adds to it, and what delegations
    add on either side: [pallet_democracy] adds with saturation at 128 bits, subtracts down
    to zero, and refuses to add or remove a vote that does not fit. *)
Class VoteLaws (A V C D T R : Type) `{!VoteTypes A V C D T R} : Type := {
  tally_of : Component -> T -> Z;
  ballot_of : Component -> V -> Z;
  power_of : Component -> bool -> D -> Z;
  ballot_nonneg k v : 0 <= ballot_of k v;
  power_nonneg k b d : 0 <= power_of k b d;
  tally_default_zero k : tally_of k tally_default = 0;
  deleg_default_zero k b : power_of k b deleg_default = 0;
  tally_add_exact t v t' k : tally_add t v = Some t' -> tally_of k t' = tally_of k t + ballot_of k v;
  tally_remove_exact t v t' k : tally_remove t v = Some t' -> tally_of k t' = tally_of k t - ballot_of k v;
  tally_increase_exact t b d k :
    (forall k, tally_of k t + power_of k b d <= umax 128) -> tally_of k (tally_increase t b d) = tally_of k t + power_of k b d;
  tally_reduce_exact t b d k :
    (forall k, power_of k b d <= tally_of k t) -> tally_of k (tally_reduce t b d) = tally_of k t - power_of k b d;
  deleg_add_exact d e k b :
    (forall k b, power_of k b d + power_of k b e <= umax 128) -> power_of k b (deleg_add d e) = power_of k b d + power_of k b e;
  deleg_sub_exact d e k b :
    (forall k b, power_of k b e <= power_of k b d) -> power_of k b (deleg_sub d e) = power_of k b d - power_of k b e;
  rejig_keeps (v : Voting A V C D R) n :
    exists p, rejig v n = match v with
                          | Direct votes d _ => Direct votes d p
                          | Delegating b t c d _ => Delegating b t c d p
                          end
}.

Section Tallies.
Context {L X A Hash V C D T R Proposal : Type} `{Countable A} `{Countable Hash}.
Context `{!VoteTypes A V C D T R} `{!DemocracyChain L X A Hash} `{!VoteLaws A V C D T R}.

Abbreviation Vot := (Voting A V C D R).
Abbreviation Status := (ReferendumStatus T Hash).
Abbreviation Info := (ReferendumInfo T Hash).
Abbreviation St := (State (L:=L) (A:=A) (Hash:=Hash) (V:=V) (C:=C) (D:=D) (T:=T) (R:=R)).
Abbreviation Run := (M St (DemocracyError + X)).
Abbreviation Vs := (Votes A V C D T R Hash).

Definition view (s : St) : Vs := MkVotes (referendum_info s) (votings s) (referendum_count s).

Definition vote_of (vs : Vs) (who : A) : Vot := default voting_default (accounts vs !! who).

(** ** Votes as a sorted list *)

Fixpoint vote_on (i : Z) (votes : list (Z * V)) : option V :=
  match votes with
  | [] => None
  | (j, v) :: l => if j =? i then Some v else vote_on i l
  end.

(** Sorted by referendum, each at most once. *)
Fixpoint votes_from (low : Z) (votes : list (Z * V)) : Prop :=
  match votes with
  | [] => True
  | (j, _) :: l => low <= j /\ votes_from (j + 1) l
  end.

Lemma votes_from_weaken low low' l : low' <= low -> votes_from low l -> votes_from low' l.
Proof. destruct l as [|[j v] l]; simpl; [done|]. intros ? [? ?]. split; [lia|done]. Qed.

Lemma vote_on_below i low l : votes_from low l -> i < low -> vote_on i l = None.
Proof.
  revert low. induction l as [|[j v] l IH]; intros low; simpl; [done|]. intros [H1 H2] Hi.
  destruct (Z.eqb_spec j i); [lia|]. apply (IH (j + 1)); [done|lia].
Qed.

Lemma search_cons i j (v : V) l :
  search_vote i ((j, v) :: l) = if j <? i then let '(found, n) := search_vote i l in (found, S n) else (negb (i <? j), 0%nat).
Proof. done. Qed.

(** A vote that is found is there, and replacing or removing it touches no other. *)
Lemma search_found low i l n :
  votes_from low l -> search_vote i l = (true, n) ->
  exists v, l !! n = Some (i, v) /\ vote_on i l = Some v
    /\ (forall w, votes_from low (<[n := (i, w)]> l) /\ length (<[n := (i, w)]> l) = length l
          /\ forall j, vote_on j (<[n := (i, w)]> l) = if j =? i then Some w else vote_on j l)
    /\ votes_from low (remove_at n l) /\ S (length (remove_at n l)) = length l
    /\ forall j, vote_on j (remove_at n l) = if j =? i then None else vote_on j l.
Proof.
  revert low n. induction l as [|[j v] l IH]; intros low n; [done|]. rewrite search_cons. intros [H1 H2].
  destruct (Z.ltb_spec j i) as [Hji|Hji].
  - destruct (search_vote i l) as [found m] eqn:E. intros [= -> <-].
    destruct (IH _ _ H2 eq_refl) as (w & Hw & Hon & Hrep & Hfrom & Hlen & Hrem). exists w. unfold remove_at in *. simpl in *.
    rewrite (proj2 (Z.eqb_neq j i)) by lia. split_and!; [done|done|..|done|lia|].
    + intros w'. destruct (Hrep w') as (? & ? & Hj). split_and!; [done|done|lia|]. intros k. rewrite Hj.
      destruct (Z.eqb_spec j k), (Z.eqb_spec k i); lia || done.
    + done.
    + intros k. rewrite Hrem. destruct (Z.eqb_spec j k), (Z.eqb_spec k i); lia || done.
  - intros [= Hij <-]. apply negb_true_iff, Z.ltb_ge in Hij. assert (j = i) as -> by lia. exists v. simpl. rewrite Z.eqb_refl.
    assert (forall k, (if i =? k then Some v else vote_on k l) = if k =? i then Some v else vote_on k l) as Hk
      by (intros k; by rewrite Z.eqb_sym).
    split_and!; try done.
    + intros w. split_and!; [done|done|done|]. intros k. rewrite (Z.eqb_sym i k). by destruct (k =? i).
    + unfold remove_at. simpl. rewrite drop_0. eapply votes_from_weaken; [|done]. lia.
    + intros k. unfold remove_at. simpl. rewrite drop_0, Hk. destruct (Z.eqb_spec k i) as [->|]; [|done].
      apply (vote_on_below _ (i + 1)); [done|lia].
Qed.

(** One that is not found is inserted where it belongs. *)
Lemma search_missed low i l n v :
  votes_from low l -> low <= i -> search_vote i l = (false, n) ->
  vote_on i l = None /\ votes_from low (insert_at n (i, v) l) /\ length (insert_at n (i, v) l) = S (length l)
  /\ forall j, vote_on j (insert_at n (i, v) l) = if j =? i then Some v else vote_on j l.
Proof.
  revert low n. induction l as [|[j w] l IH]; intros low n.
  - intros _ Hi [= <-]. unfold insert_at. simpl. split_and!; try done. intros k. by rewrite Z.eqb_sym.
  - rewrite search_cons. intros [H1 H2] Hi. destruct (Z.ltb_spec j i) as [Hji|Hji].
    + destruct (search_vote i l) as [found m] eqn:E. intros [= -> <-].
      destruct (IH (j + 1) m H2 ltac:(lia) eq_refl) as (Hon & Hfrom & Hlen & Hins). unfold insert_at in *. simpl in *.
      rewrite (proj2 (Z.eqb_neq j i)) by lia. split_and!; [done|done|done|lia|].
      intros k. rewrite Hins. destruct (Z.eqb_spec j k), (Z.eqb_spec k i); lia || done.
    + intros [= Hij <-]. apply negb_false_iff, Z.ltb_lt in Hij. unfold insert_at. simpl.
      rewrite (proj2 (Z.eqb_neq j i)) by lia. rewrite (vote_on_below i (j + 1)) by (done || lia).
      split_and!; try done; try lia.
      intros k. by rewrite (Z.eqb_sym i k).
Qed.

(** ** What the tallies and the delegations should be *)

Definition cast (k : Component) (v : V) (d : D) : Z :=
  ballot_of k v + match as_standard v with Some aye => power_of k aye d | None => 0 end.

Definition contribution (k : Component) (i : Z) (x : Vot) : Z :=
  match x with
  | Direct votes d _ => match vote_on i votes with Some v => cast k v d | None => 0 end
  | Delegating _ _ _ _ _ => 0
  end.

(** The sum over all accounts of their votes on [i], with what is delegated to them. *)
Definition tally_due (k : Component) (i : Z) (m : gmap A Vot) : Z := map_sum (fun _ x => contribution k i x) m.

Definition delegated (k : Component) (aye : bool) (target : A) (x : Vot) : Z :=
  match x with
  | Delegating balance t c _ _ => if decide (t = target) then power_of k aye (conviction_votes c balance) else 0
  | Direct _ _ _ => 0
  end.

(** The sum over all accounts that delegate to [target]. *)
Definition delegations_due (k : Component) (aye : bool) (target : A) (m : gmap A Vot) : Z :=
  map_sum (fun _ x => delegated k aye target x) m.

Definition delegations_of (x : Vot) : D :=
  match x with Direct _ d _ => d | Delegating _ _ _ d _ => d end.

Lemma cast_nonneg k v d : 0 <= cast k v d.
Proof. unfold cast. pose proof (ballot_nonneg k v). destruct (as_standard v) as [b|]; [pose proof (power_nonneg k b d)|]; lia. Qed.

Lemma contribution_nonneg k i x : 0 <= contribution k i x.
Proof. destruct x as [votes d p|]; simpl; [|done]. destruct (vote_on i votes); [apply cast_nonneg|done]. Qed.

Lemma delegated_nonneg k b a x : 0 <= delegated k b a x.
Proof. destruct x as [|bal t c d p]; simpl; [done|]. case_decide; [apply power_nonneg|done]. Qed.

Lemma tally_due_insert k i m who x :
  tally_due k i (<[who := x]> m) = tally_due k i m - contribution k i (default voting_default (m !! who)) + contribution k i x.
Proof. unfold tally_due. rewrite map_sum_insert. unfold map_at. by destruct (m !! who). Qed.

Lemma delegations_due_insert k b a m who x :
  delegations_due k b a (<[who := x]> m)
  = delegations_due k b a m - delegated k b a (default voting_default (m !! who)) + delegated k b a x.
Proof. unfold delegations_due. rewrite map_sum_insert. unfold map_at. by destruct (m !! who). Qed.

Lemma contribution_le k i m who : contribution k i (default voting_default (m !! who)) <= tally_due k i m.
Proof.
  pose proof (map_at_le_sum (fun _ x => contribution k i x) m who (fun _ x _ => contribution_nonneg k i x)) as Hle.
  unfold map_at in Hle. destruct (m !! who) eqn:E; simpl; [done|]. exact Hle.
Qed.

Lemma delegated_le k b a m who : delegated k b a (default voting_default (m !! who)) <= delegations_due k b a m.
Proof.
  pose proof (map_at_le_sum (fun _ x => delegated k b a x) m who (fun _ x _ => delegated_nonneg k b a x)) as Hle.
  unfold map_at in Hle. destruct (m !! who) eqn:E; simpl; [done|]. exact Hle.
Qed.

(** ** The ways the votes change *)

(** Referenda are closed or removed; nothing else. *)
Definition closes (vs vs' : Vs) : Prop :=
  accounts vs' = accounts vs /\ started vs' = started vs
  /\ (forall i st, infos vs' !! i = Some (Ongoing st) -> infos vs !! i = Some (Ongoing st))
  /\ forall i, is_Some (infos vs' !! i) -> is_Some (infos vs !! i).

#[export] Instance closes_preorder : PreOrder closes.
Proof.
  split; [by intros vs; split_and!|]. intros v1 v2 v3 (A1 & N1 & O1 & S1) (A2 & N2 & O2 & S2).
  split_and!; [congruence|congruence|auto..].
Qed.

Definition open_referendum (st : Status) (vs : Vs) : Vs :=
  MkVotes (<[started vs := Ongoing st]> (infos vs)) (accounts vs) (wrap 32 (started vs + 1)).

(** [increase_upstream_delegation] and [reduce_upstream_delegation]. *)
Definition upstream (change : T -> bool -> D -> T) (update : D -> D -> D) (who : A) (amount : D) (vs : Vs) : Vs :=
  match vote_of vs who with
  | Delegating b t c d p => MkVotes (infos vs) (<[who := Delegating b t c (update d amount) p]> (accounts vs)) (started vs)
  | Direct votes d p =>
      MkVotes (change_tallies change amount votes (infos vs)) (<[who := Direct votes (update d amount) p]> (accounts vs)) (started vs)
  end.

Definition with_vote (who : A) (x : Vot) (vs : Vs) : Vs := MkVotes (infos vs) (<[who := x]> (accounts vs)) (started vs).

Definition with_info (i : Z) (st : Status) (vs : Vs) : Vs := MkVotes (<[i := Ongoing st]> (infos vs)) (accounts vs) (started vs).

Definition same_but_prior (x y : Vot) : Prop :=
  exists p, y = match x with Direct votes d _ => Direct votes d p | Delegating b t c d _ => Delegating b t c d p end.

Inductive effect (cfg : Config) : Vs -> Vs -> Prop :=
| eff_close vs vs' : closes vs vs' -> effect cfg vs vs'
| eff_start st vs vs' : tally st = tally_default -> closes (open_referendum st vs) vs' -> effect cfg vs vs'
| eff_vote who i v st votes d p votes' t vs :
    infos vs !! i = Some (Ongoing st) -> vote_of vs who = Direct votes d p ->
    cast_vote (X:=X) cfg i v votes d (tally st) = Ok (votes', t) ->
    effect cfg vs (with_info i (with_tally t st) (with_vote who (Direct votes' d p) vs))
| eff_unvote who i n j w votes d p p' vs :
    vote_of vs who = Direct votes d p -> search_vote i votes = (true, n) -> votes !! n = Some (j, w) ->
    (forall st, infos vs !! i <> Some (Ongoing st)) ->
    effect cfg vs (with_vote who (Direct (remove_at n votes) d p') vs)
| eff_unvote_ongoing who i n j w votes d p st t vs :
    vote_of vs who = Direct votes d p -> search_vote i votes = (true, n) -> votes !! n = Some (j, w) ->
    infos vs !! i = Some (Ongoing st) -> tally_remove (tally st) w = Some t ->
    effect cfg vs (with_info i (with_tally (reduce_standard w d t) st) (with_vote who (Direct (remove_at n votes) d p) vs))
| eff_prior who x vs : same_but_prior (vote_of vs who) x -> effect cfg vs (with_vote who x vs)
| eff_delegate who target c balance d p vs vs' :
    who <> target ->
    match vote_of vs who with
    | Delegating b t oc d' p' => d' = d /\ vs' = upstream tally_reduce deleg_sub t (conviction_votes oc b) vs
    | Direct votes d' p' => votes = [] /\ d' = d /\ vs' = vs
    end ->
    effect cfg vs (with_vote who (Delegating balance target c d p)
      (upstream tally_increase deleg_add target (conviction_votes c balance) vs'))
| eff_undelegate who b t c d p p' vs :
    vote_of vs who = Delegating b t c d p ->
    effect cfg vs (with_vote who (Direct [] d p') (upstream tally_reduce deleg_sub t (conviction_votes c b) vs)).

(** ** Reading the changed votes *)

Definition with_delegations (d : D) (x : Vot) : Vot :=
  match x with Direct votes _ p => Direct votes d p | Delegating b t c _ p => Delegating b t c d p end.

Lemma vote_of_with who x vs a : vote_of (with_vote who x vs) a = if decide (a = who) then x else vote_of vs a.
Proof.
  unfold vote_of, with_vote. simpl. destruct (decide (a = who)) as [->|Ha]; [by rewrite lookup_insert_eq|].
  by rewrite lookup_insert_ne by congruence.
Qed.

Lemma vote_of_upstream change update who amount vs a :
  vote_of (upstream change update who amount vs) a
  = if decide (a = who) then with_delegations (update (delegations_of (vote_of vs who)) amount) (vote_of vs who) else vote_of vs a.
Proof.
  unfold upstream. destruct (vote_of vs who) as [votes d p|b t c d p]; rewrite <- (vote_of_with who _ vs); done.
Qed.

Lemma accounts_upstream change update who amount vs :
  accounts (upstream change update who amount vs)
  = <[who := with_delegations (update (delegations_of (vote_of vs who)) amount) (vote_of vs who)]> (accounts vs).
Proof. unfold upstream. by destruct (vote_of vs who). Qed.

Lemma started_upstream change update who amount vs : started (upstream change update who amount vs) = started vs.
Proof. unfold upstream. by destruct (vote_of vs who). Qed.

(** Each referendum is met at most once. *)
Lemma change_tallies_lookup change amount low votes (m : gmap Z Info) i :
  votes_from low votes ->
  change_tallies change amount votes m !! i
  = match m !! i with
    | Some (Ongoing st) =>
        Some (Ongoing (match vote_on i votes ≫= as_standard with
                       | Some aye => with_tally (change (tally st) aye amount) st
                       | None => st
                       end))
    | x => x
    end.
Proof.
  revert low m. induction votes as [|[j v] votes IH]; intros low m; simpl; [by destruct (m !! i) as [[]|]|].
  intros [_ Hv]. unfold change_tallies in *. simpl. rewrite (IH (j + 1)) by done.
  assert (j = i -> vote_on i votes = None) as Hnone by (intros ->; apply (vote_on_below _ (i + 1)); [done|lia]).
  destruct (Z.eqb_spec j i) as [->|Hji]; simpl.
  - rewrite Hnone by done. destruct (as_standard v) as [aye|] eqn:Ea; [|by destruct (m !! i) as [[]|]].
    destruct (m !! i) as [[st|]|] eqn:Em; [by rewrite lookup_insert_eq|by rewrite Em..].
  - destruct (as_standard v); [|done]. destruct (m !! j) as [[st|]|]; [|done..]. by rewrite lookup_insert_ne.
Qed.

Lemma infos_upstream change update who amount vs i :
  (forall votes d p, vote_of vs who = Direct votes d p -> exists low, votes_from low votes) ->
  infos (upstream change update who amount vs) !! i
  = match infos vs !! i with
    | Some (Ongoing st) =>
        Some (Ongoing (match (match vote_of vs who with Direct votes _ _ => vote_on i votes | _ => None end) ≫= as_standard with
                       | Some aye => with_tally (change (tally st) aye amount) st
                       | None => st
                       end))
    | x => x
    end.
Proof.
  intros Hv. unfold upstream. destruct (vote_of vs who) as [votes d p|]; simpl.
  - destruct (Hv _ _ _ eq_refl) as [low Hl]. by rewrite (change_tallies_lookup _ _ low) by done.
  - by destruct (infos vs !! i) as [[]|].
Qed.

(** ** Casting and withdrawing a vote *)

Lemma cast_vote_spec cfg i v votes d t votes' t' :
  cast_vote (X:=X) cfg i v votes d t = Ok (votes', t') -> votes_from 0 votes -> 0 <= i ->
  votes_from 0 votes' /\ Z.of_nat (length votes') <= Z.max (Z.of_nat (length votes)) (MaxVotes cfg + 1)
  /\ (forall j, vote_on j votes' = if j =? i then Some v else vote_on j votes)
  /\ exists t1 t2, match vote_on i votes with
                   | Some old => exists t0, tally_remove t old = Some t0 /\ t1 = reduce_standard old d t0
                   | None => t1 = t
                   end
     /\ tally_add t1 v = Some t2 /\ t' = increase_standard v d t2.
Proof.
  intros Hc Hv Hi. unfold cast_vote in Hc. destruct (search_vote i votes) as [[] n] eqn:E.
  - destruct (search_found _ _ _ _ Hv E) as (old & Hn & Hon & Hrep & _). rewrite Hn in Hc. run_inv Hc. run_inv Hc.
    destruct (Hrep v) as (? & Hlen & ?). split_and!; [done|lia|done|]. rewrite Hon. naive_solver.
  - destruct (search_missed _ _ _ _ v Hv Hi E) as (Hon & Hfrom & Hlen & Hins).
    assert (exists t2, (Z.of_nat (length votes) <=? MaxVotes cfg) = true /\ votes' = insert_at n (i, v) votes
      /\ tally_add t v = Some t2 /\ t' = increase_standard v d t2) as (t2 & Hmax & -> & Hadd & ->)
      by (destruct (votes !! n) as [[]|]; run_inv Hc; run_inv Hc; naive_solver).
    bool_inv. rewrite Hon. split_and!; [done|lia|done|]. naive_solver.
Qed.

Lemma remove_cast t old d t0 k :
  tally_remove t old = Some t0 -> (forall k, cast k old d <= tally_of k t) ->
  tally_of k (reduce_standard old d t0) = tally_of k t - cast k old d.
Proof.
  intros Hr Hle. unfold reduce_standard, cast in *. destruct (as_standard old) as [aye|].
  - rewrite tally_reduce_exact; [rewrite (tally_remove_exact _ _ _ k Hr); lia|].
    intros k'. rewrite (tally_remove_exact _ _ _ k' Hr). specialize (Hle k'). lia.
  - rewrite (tally_remove_exact _ _ _ k Hr). lia.
Qed.

Lemma add_cast t v d t2 k :
  tally_add t v = Some t2 -> (forall k, tally_of k t + cast k v d <= umax 128) ->
  tally_of k (increase_standard v d t2) = tally_of k t + cast k v d.
Proof.
  intros Ha Hle. unfold increase_standard, cast in *.
  destruct (as_standard v) as [aye|].
  - rewrite tally_increase_exact; [rewrite (tally_add_exact _ _ _ k Ha); lia|].
    intros k'. rewrite (tally_add_exact _ _ _ k' Ha). specialize (Hle k'). lia.
  - rewrite (tally_add_exact _ _ _ k Ha). lia.
Qed.

(** ** Well-formed votes *)

(** The votes of an account are sorted by referendum, and there is one more than the maximum
    at most; nobody delegates to themselves. *)
Definition voting_wf (cfg : Config) (who : A) (x : Vot) : Prop :=
  match x with
  | Direct votes _ _ => votes_from 0 votes /\ Z.of_nat (length votes) <= MaxVotes cfg + 1
  | Delegating _ t _ _ _ => t <> who
  end.

Record votes_wf (cfg : Config) (vs : Vs) : Prop := {
  wf_voting who : voting_wf cfg who (vote_of vs who);
  wf_infos i : is_Some (infos vs !! i) -> 0 <= i;
  wf_started : 0 <= started vs
}.

Lemma wf_with_vote cfg who x vs : votes_wf cfg vs -> voting_wf cfg who x -> votes_wf cfg (with_vote who x vs).
Proof.
  intros [Hv Hi Hn] Hx. split; [|done..]. intros a. rewrite vote_of_with. by destruct (decide (a = who)) as [->|].
Qed.

Lemma wf_with_info cfg i st vs : votes_wf cfg vs -> 0 <= i -> votes_wf cfg (with_info i st vs).
Proof.
  intros [Hv Hi Hn] Hi0. split; [done| |done]. intros j. simpl. destruct (decide (j = i)) as [->|Hj]; [done|].
  rewrite lookup_insert_ne by congruence. apply Hi.
Qed.

Lemma wf_closes cfg vs vs' : closes vs vs' -> votes_wf cfg vs -> votes_wf cfg vs'.
Proof.
  intros (Ha & Hn & _ & Hs) [Hv Hi Hz]. split; [|eauto|congruence]. intros who. unfold vote_of. rewrite Ha. apply Hv.
Qed.

Lemma wf_open cfg st vs : votes_wf cfg vs -> votes_wf cfg (open_referendum st vs).
Proof.
  intros [Hv Hi Hz]. split; [done| |simpl; apply Z.mod_pos_bound; lia]. intros i. simpl.
  destruct (decide (i = started vs)) as [->|Hj]; [done|]. rewrite lookup_insert_ne by congruence. apply Hi.
Qed.

Lemma wf_upstream cfg change update who amount vs : votes_wf cfg vs -> votes_wf cfg (upstream change update who amount vs).
Proof.
  intros [Hv Hi Hz]. split.
  - intros a. rewrite vote_of_upstream. destruct (decide (a = who)) as [->|]; [|done].
    specialize (Hv who). by destruct (vote_of vs who).
  - intros i. rewrite infos_upstream.
    + intros Hsome. apply Hi. destruct (infos vs !! i) as [[]|]; eauto.
    + intros votes d p E. specialize (Hv who). rewrite E in Hv. exists 0. apply Hv.
  - by rewrite started_upstream.
Qed.

Lemma effect_wf cfg vs vs' : 0 <= MaxVotes cfg -> effect cfg vs vs' -> votes_wf cfg vs -> votes_wf cfg vs'.
Proof.
  intros Hmax Heff Hwf. pose proof (wf_voting _ _ Hwf) as Hv. destruct Heff as
    [vs vs' Hc|st vs vs' _ Hc|who i v st votes d p votes' t vs Hst Hw Hcast
    |who i n j w votes d p p' vs Hw Hn _ _|who i n j w votes d p st t vs Hw Hn _ Hst _|who x vs [p ->]
    |who target c balance d p vs vs' Hne Hold|who b t c d p p' vs Hw].
  - by eapply wf_closes.
  - eapply wf_closes; [done|]. by apply wf_open.
  - specialize (Hv who). rewrite Hw in Hv. destruct Hv as [Hf Hl].
    assert (0 <= i) as Hi by (apply (wf_infos _ _ Hwf); by rewrite Hst).
    destruct (cast_vote_spec _ _ _ _ _ _ _ _ Hcast Hf Hi) as (? & ? & _).
    apply wf_with_info; [|done]. apply wf_with_vote; [done|]. split; [done|lia].
  - specialize (Hv who). rewrite Hw in Hv. destruct Hv as [Hf Hl].
    destruct (search_found _ _ _ _ Hf Hn) as (? & _ & _ & _ & ? & ? & _).
    apply wf_with_vote; [done|]. split; [done|lia].
  - specialize (Hv who). rewrite Hw in Hv. destruct Hv as [Hf Hl].
    destruct (search_found _ _ _ _ Hf Hn) as (? & _ & _ & _ & ? & ? & _).
    apply wf_with_info; [|apply (wf_infos _ _ Hwf); by rewrite Hst].
    apply wf_with_vote; [done|]. split; [done|lia].
  - apply wf_with_vote; [done|]. specialize (Hv who). by destruct (vote_of vs who).
  - apply wf_with_vote; [|simpl; congruence]. apply wf_upstream.
    destruct (vote_of vs who); destruct_and! Hold; subst; [done|by apply wf_upstream].
  - apply wf_with_vote; [by apply wf_upstream|]. split; [done|]. simpl. lia.
Qed.

(** ** Exact tallies *)

Definition voted (i : Z) (x : Vot) : option V :=
  match x with Direct votes _ _ => vote_on i votes | Delegating _ _ _ _ _ => None end.

Lemma contribution_voted k i x :
  contribution k i x = match voted i x with Some v => cast k v (delegations_of x) | None => 0 end.
Proof. by destruct x. Qed.

(** The delegations to an account are off by [e]. *)
Record counted (e : Component -> bool -> A -> Z) (vs : Vs) : Prop := {
  ct_tally i st k : infos vs !! i = Some (Ongoing st) -> tally_of k (tally st) = tally_due k i (accounts vs);
  ct_deleg who k b : power_of k b (delegations_of (vote_of vs who)) = delegations_due k b who (accounts vs) + e k b who
}.

(** Votes are on referenda that were started. *)
Record fresh (vs : Vs) : Prop := {
  fr_voted who i : is_Some (voted i (vote_of vs who)) -> i < started vs;
  fr_infos i : is_Some (infos vs !! i) -> i < started vs
}.

Lemma counted_ext e e' vs : (forall k b a, e k b a = e' k b a) -> counted e vs -> counted e' vs.
Proof. intros He [Ht Hd]. split; [done|]. intros. by rewrite Hd, He. Qed.

Lemma tally_due_upstream k i change update who amount vs :
  tally_due k i (accounts (upstream change update who amount vs))
  = tally_due k i (accounts vs)
    + match voted i (vote_of vs who) ≫= as_standard with
      | Some aye => power_of k aye (update (delegations_of (vote_of vs who)) amount) - power_of k aye (delegations_of (vote_of vs who))
      | None => 0
      end.
Proof.
  rewrite accounts_upstream, tally_due_insert. fold (vote_of vs who). unfold contribution, cast.
  destruct (vote_of vs who) as [votes d p|]; simpl; [|lia].
  destruct (vote_on i votes) as [v|]; simpl; [|lia]. destruct (as_standard v); lia.
Qed.

Lemma delegations_due_upstream k b a change update who amount vs :
  delegations_due k b a (accounts (upstream change update who amount vs)) = delegations_due k b a (accounts vs).
Proof.
  rewrite accounts_upstream, delegations_due_insert. fold (vote_of vs who). destruct (vote_of vs who); simpl; lia.
Qed.

(** What a change of the delegations to [who] does, when it is exact on the tallies and on
    the delegations. *)
Lemma counted_upstream cfg change update (sign : Z) e who amount vs :
  votes_wf cfg vs -> counted e vs ->
  (forall k b, power_of k b (update (delegations_of (vote_of vs who)) amount)
      = power_of k b (delegations_of (vote_of vs who)) + sign * power_of k b amount) ->
  (forall i st b, infos vs !! i = Some (Ongoing st) -> voted i (vote_of vs who) ≫= as_standard = Some b ->
      forall k, tally_of k (change (tally st) b amount) = tally_of k (tally st) + sign * power_of k b amount) ->
  counted (fun k b a => e k b a + if decide (a = who) then sign * power_of k b amount else 0) (upstream change update who amount vs).
Proof.
  intros Hwf [Ht Hd] Hup Hch. split.
  - intros i st' k. rewrite infos_upstream.
    2: { intros votes d p E. pose proof (wf_voting _ _ Hwf who) as Hv. rewrite E in Hv. exists 0. apply Hv. }
    fold (voted i (vote_of vs who)). rewrite tally_due_upstream. destruct (infos vs !! i) as [[st|]|] eqn:Ei; [|done..].
    intros [= <-]. destruct (voted i (vote_of vs who) ≫= as_standard) as [b|] eqn:Eb.
    + simpl. rewrite (Hch i st b Ei Eb), Hup, (Ht _ _ _ Ei). lia.
    + rewrite (Ht _ _ _ Ei). lia.
  - intros a k b. rewrite delegations_due_upstream, vote_of_upstream. destruct (decide (a = who)) as [->|].
    + assert (delegations_of (with_delegations (update (delegations_of (vote_of vs who)) amount) (vote_of vs who))
              = update (delegations_of (vote_of vs who)) amount) as -> by (by destruct (vote_of vs who)).
      rewrite Hup, Hd. lia.
    + rewrite Hd. lia.
Qed.

Lemma counted_increase cfg e who amount vs :
  votes_wf cfg vs -> counted e vs ->
  (forall k b, power_of k b (delegations_of (vote_of vs who)) + power_of k b amount <= umax 128) ->
  (forall k i, tally_due k i (accounts (upstream tally_increase deleg_add who amount vs)) <= umax 128) ->
  counted (fun k b a => e k b a + if decide (a = who) then power_of k b amount else 0) (upstream tally_increase deleg_add who amount vs).
Proof.
  intros Hwf Hct Hd Ht.
  apply counted_ext with (fun k b a => e k b a + if decide (a = who) then 1 * power_of k b amount else 0).
  { intros k b a. destruct (decide (a = who)); lia. }
  apply (counted_upstream cfg); [done|done|..].
  - intros k b. rewrite deleg_add_exact by done. lia.
  - intros i st b Ei Eb k. rewrite tally_increase_exact; [lia|]. intros k'. rewrite (ct_tally _ _ Hct _ _ _ Ei).
    specialize (Ht k' i). rewrite tally_due_upstream, Eb, deleg_add_exact in Ht by done. lia.
Qed.

Lemma counted_reduce cfg e who amount vs :
  votes_wf cfg vs -> counted e vs ->
  (forall k b, power_of k b amount <= power_of k b (delegations_of (vote_of vs who))) ->
  counted (fun k b a => e k b a - if decide (a = who) then power_of k b amount else 0) (upstream tally_reduce deleg_sub who amount vs).
Proof.
  intros Hwf Hct Hd.
  apply counted_ext with (fun k b a => e k b a + if decide (a = who) then -1 * power_of k b amount else 0).
  { intros k b a. destruct (decide (a = who)); lia. }
  apply (counted_upstream cfg); [done|done|..].
  - intros k b. rewrite deleg_sub_exact by done. lia.
  - intros i st b Ei Eb k. rewrite tally_reduce_exact; [lia|]. intros k'. rewrite (ct_tally _ _ Hct _ _ _ Ei).
    pose proof (contribution_le k' i (accounts vs) who) as Hle. fold (vote_of vs who) in Hle. rewrite contribution_voted in Hle.
    destruct (voted i (vote_of vs who)) as [v|]; [|done]. simpl in Eb. unfold cast in Hle. rewrite Eb in Hle.
    pose proof (ballot_nonneg k' v). specialize (Hd k' b). lia.
Qed.

(** Replacing a voting that counts nowhere by another one of the kind. *)
Lemma counted_with_vote e who x vs :
  counted e vs ->
  (forall k i, contribution k i x = contribution k i (vote_of vs who)) ->
  delegations_of x = delegations_of (vote_of vs who) ->
  counted (fun k b a => e k b a + delegated k b a (vote_of vs who) - delegated k b a x) (with_vote who x vs).
Proof.
  intros [Ht Hd] Hc Hdel. split.
  - intros i st k Ei. simpl. rewrite tally_due_insert. fold (vote_of vs who). rewrite Hc, (Ht _ _ _ Ei). lia.
  - intros a k b. rewrite vote_of_with. simpl. rewrite delegations_due_insert. fold (vote_of vs who).
    destruct (decide (a = who)) as [->|]; [rewrite Hdel|]; rewrite Hd; lia.
Qed.

(** Nothing saturates: referenda can still be started, and what is to be counted fits. *)
Record room (vs : Vs) : Prop := {
  room_started : started vs < umax 32;
  room_tally k i : tally_due k i (accounts vs) <= umax 128;
  room_deleg k b a : delegations_due k b a (accounts vs) <= umax 128
}.

Definition none (k : Component) (b : bool) (a : A) : Z := 0.

Lemma counted_closes e vs vs' : closes vs vs' -> counted e vs -> counted e vs'.
Proof.
  intros (Ha & _ & Ho & _) [Ht Hd]. split; [intros i st k Hi; rewrite Ha; eauto|].
  intros. unfold vote_of. rewrite Ha. apply Hd.
Qed.

Lemma fresh_closes vs vs' : closes vs vs' -> fresh vs -> fresh vs'.
Proof.
  intros (Ha & Hn & _ & Hs) [Hv Hi]. split; rewrite Hn; [|auto]. intros who i. unfold vote_of. rewrite Ha. apply Hv.
Qed.

Lemma open_counted st vs :
  tally st = tally_default -> fresh vs -> counted none vs -> counted none (open_referendum st vs).
Proof.
  intros Hst Hfr [Ht Hd]. split; [|done]. intros i st' k. simpl. destruct (decide (i = started vs)) as [->|Hi].
  - rewrite lookup_insert_eq. intros [= <-]. rewrite Hst, tally_default_zero. unfold tally_due.
    rewrite <- (map_sum_zero (accounts vs)). apply map_sum_ext. intros who x Hx. rewrite contribution_voted.
    pose proof (fr_voted _ Hfr who (started vs)) as Hv. unfold vote_of in Hv. rewrite Hx in Hv. simpl in Hv.
    destruct (voted (started vs) x); [|done]. specialize (Hv ltac:(eauto)). lia.
  - rewrite lookup_insert_ne by congruence. eauto.
Qed.

Lemma open_fresh st vs : 0 <= started vs < umax 32 -> fresh vs -> fresh (open_referendum st vs).
Proof.
  intros Hn [Hv Hi]. assert (started (open_referendum st vs) = started vs + 1) as Hs
    by (apply (wrap_exact 32); unfold in_uint; lia).
  split; rewrite Hs.
  - intros who i Hw. specialize (Hv who i Hw). lia.
  - intros i. simpl. destruct (decide (i = started vs)) as [->|Hne]; [lia|]. rewrite lookup_insert_ne by congruence.
    intros Hw. specialize (Hi i Hw). lia.
Qed.

Lemma fresh_with_vote who x vs :
  fresh vs -> (forall i, is_Some (voted i x) -> i < started vs) -> fresh (with_vote who x vs).
Proof.
  intros [Hv Hi] Hx. split; [|done]. intros a i. rewrite vote_of_with. destruct (decide (a = who)) as [->|]; [apply Hx|apply Hv].
Qed.

Lemma fresh_with_info i st vs : fresh vs -> i < started vs -> fresh (with_info i st vs).
Proof.
  intros [Hv Hi] Hlt. split; [done|]. intros j. simpl. destruct (decide (j = i)) as [->|]; [done|].
  rewrite lookup_insert_ne by congruence. apply Hi.
Qed.

Lemma fresh_upstream cfg change update who amount vs : votes_wf cfg vs -> fresh vs -> fresh (upstream change update who amount vs).
Proof.
  intros Hwf [Hv Hi]. split; rewrite started_upstream.
  - intros a i. rewrite vote_of_upstream. destruct (decide (a = who)) as [->|]; [|apply Hv].
    intros Hw. apply (Hv who). by destruct (vote_of vs who).
  - intros i. rewrite infos_upstream; [intros Hs; apply Hi; destruct (infos vs !! i) as [[]|]; eauto|].
    intros votes d p E. pose proof (wf_voting _ _ Hwf who) as Hw. rewrite E in Hw. exists 0. apply Hw.
Qed.

(** A change of one vote, on a referendum whose tally follows. *)
Lemma counted_with_info i st t who x vs :
  counted none vs -> infos vs !! i = Some (Ongoing st) ->
  (forall k b a, delegated k b a x = delegated k b a (vote_of vs who)) ->
  delegations_of x = delegations_of (vote_of vs who) ->
  (forall k j, j <> i -> contribution k j x = contribution k j (vote_of vs who)) ->
  (forall k, tally_of k t = tally_of k (tally st) - contribution k i (vote_of vs who) + contribution k i x) ->
  counted none (with_info i (with_tally t st) (with_vote who x vs)).
Proof.
  intros [Ht Hd] Hst Hdeld Hdel Hother Hhere. split.
  - intros j st' k. simpl. rewrite tally_due_insert. fold (vote_of vs who). destruct (decide (j = i)) as [->|Hj].
    + rewrite lookup_insert_eq. intros [= <-]. simpl. rewrite Hhere, (Ht _ _ _ Hst). lia.
    + rewrite lookup_insert_ne by congruence. intros Hj'. rewrite Hother, (Ht _ _ _ Hj') by done. lia.
  - intros a k b. change (vote_of (with_info i (with_tally t st) (with_vote who x vs)) a) with (vote_of (with_vote who x vs) a).
    rewrite vote_of_with. simpl. rewrite delegations_due_insert. fold (vote_of vs who). rewrite Hdeld.
    destruct (decide (a = who)) as [->|]; [rewrite Hdel|]; rewrite Hd; lia.
Qed.

(** What an account delegates is part of what its target has. *)
Lemma delegated_held vs who b t c d p :
  counted none vs -> vote_of vs who = Delegating b t c d p ->
  forall k aye, power_of k aye (conviction_votes c b) <= power_of k aye (delegations_of (vote_of vs t)).
Proof.
  intros [_ Hd] Hw k aye. rewrite Hd. unfold none. pose proof (delegated_le k aye t (accounts vs) who) as Hle.
  fold (vote_of vs who) in Hle. rewrite Hw in Hle. simpl in Hle. destruct (decide (t = t)); [lia|done].
Qed.

Lemma counted_closed i who x vs :
  counted none vs -> (forall st, infos vs !! i <> Some (Ongoing st)) ->
  (forall k b a, delegated k b a x = delegated k b a (vote_of vs who)) ->
  delegations_of x = delegations_of (vote_of vs who) ->
  (forall k j, j <> i -> contribution k j x = contribution k j (vote_of vs who)) ->
  counted none (with_vote who x vs).
Proof.
  intros [Ht Hd] Hst Hdeld Hdel Hother. split.
  - intros j st' k. simpl. rewrite tally_due_insert. fold (vote_of vs who). intros Hj'.
    rewrite Hother, (Ht _ _ _ Hj'); [lia|]. intros ->. by destruct (Hst st').
  - intros a k b. rewrite vote_of_with. simpl. rewrite delegations_due_insert. fold (vote_of vs who). rewrite Hdeld.
    destruct (decide (a = who)) as [->|]; [rewrite Hdel|]; rewrite Hd; lia.
Qed.

Lemma counted_vote cfg who i v st votes d p votes' t vs :
  votes_wf cfg vs -> counted none vs ->
  infos vs !! i = Some (Ongoing st) -> vote_of vs who = Direct votes d p ->
  cast_vote (X:=X) cfg i v votes d (tally st) = Ok (votes', t) ->
  room (with_info i (with_tally t st) (with_vote who (Direct votes' d p) vs)) ->
  counted none (with_info i (with_tally t st) (with_vote who (Direct votes' d p) vs)).
Proof.
  intros Hwf Hct Hst Hw Hcast Hroom. pose proof (wf_voting _ _ Hwf who) as Hv. rewrite Hw in Hv. destruct Hv as [Hf _].
  assert (0 <= i) as Hi by (apply (wf_infos _ _ Hwf); by rewrite Hst).
  destruct (cast_vote_spec _ _ _ _ _ _ _ _ Hcast Hf Hi) as (_ & _ & Hon & t1 & t2 & Hold & Hadd & ->).
  assert (forall k, tally_of k t1 = tally_of k (tally st) - contribution k i (vote_of vs who)) as H1.
  { intros k. pose proof (fun k => contribution_le k i (accounts vs) who) as Hle. fold (vote_of vs who) in Hle.
    rewrite Hw in Hle |- *. simpl in Hle |- *. destruct (vote_on i votes) as [old|]; [|subst; lia].
    destruct Hold as (t0 & Hrem & ->). apply remove_cast; [done|]. intros k'. by rewrite (ct_tally _ _ Hct _ _ _ Hst). }
  assert (forall k, contribution k i (Direct votes' d p) = cast k v d) as H2 by (intros k; simpl; by rewrite Hon, Z.eqb_refl).
  apply counted_with_info; try done; try (by rewrite Hw).
  - intros k j Hj. rewrite Hw. simpl. by rewrite Hon, (proj2 (Z.eqb_neq j i) Hj).
  - intros k. rewrite (add_cast t1); [by rewrite H1, H2|done|].
    intros k'. pose proof (room_tally _ Hroom k' i) as Hfit. cbn [with_info with_vote accounts] in Hfit. rewrite tally_due_insert, H2 in Hfit.
    fold (vote_of vs who) in Hfit. rewrite H1, (ct_tally _ _ Hct _ _ _ Hst). lia.
Qed.

Lemma counted_delegate cfg who target c balance d p vs vs' :
  votes_wf cfg vs -> counted none vs -> who <> target ->
  match vote_of vs who with
  | Delegating b t oc d' p' => d' = d /\ vs' = upstream tally_reduce deleg_sub t (conviction_votes oc b) vs
  | Direct votes d' p' => votes = [] /\ d' = d /\ vs' = vs
  end ->
  let after := with_vote who (Delegating balance target c d p)
    (upstream tally_increase deleg_add target (conviction_votes c balance) vs') in
  room after -> counted none after.
Proof.
  intros Hwf Hct Hne Hold after Hroom.
  set (old := vote_of vs who) in *. set (new := Delegating balance target c d p) in *. set (amount := conviction_votes c balance) in *.
  assert (votes_wf cfg vs' /\ vote_of vs' who = old
    /\ counted (fun k b a => 0 - delegated k b a old) vs' /\ delegations_of old = d /\ forall k i, contribution k i old = 0)
    as (Hwf' & Hw' & Hct' & Hd & Hz).
  { pose proof (wf_voting _ _ Hwf who) as Hself. fold old in Hself. destruct old as [votes d' p'|b t oc d' p'] eqn:E; destruct_and! Hold; subst.
    - split_and!; [done|done| |done|by intros]. by eapply counted_ext, Hct.
    - simpl in Hself. split_and!; [by apply wf_upstream| | |done|done].
      + rewrite vote_of_upstream. by destruct (decide (who = t)); [congruence|].
      + refine (counted_ext _ _ _ _ (counted_reduce cfg _ _ _ _ Hwf Hct _)); [|by eapply delegated_held].
        intros k b' a. unfold none. simpl. destruct (decide (a = t)), (decide (t = a)); congruence || lia. }
  assert (vote_of (upstream tally_increase deleg_add target amount vs') who = old) as Hw2
    by (rewrite vote_of_upstream; by destruct (decide (who = target))).
  unfold after.
  refine (counted_ext _ _ _ _ (counted_with_vote _ _ _ _ (counted_increase cfg _ _ _ _ Hwf' Hct' _ _) _ _)).
  - intros k b a. rewrite Hw2. unfold new, none. simpl. fold amount. destruct (decide (a = target)), (decide (target = a)); congruence || lia.
  - intros k b. rewrite (ct_deleg _ _ Hct'). pose proof (room_deleg _ Hroom k b target) as Hfit. unfold after in Hfit. simpl in Hfit.
    rewrite delegations_due_insert in Hfit. fold (vote_of (upstream tally_increase deleg_add target amount vs') who) in Hfit.
    rewrite Hw2, delegations_due_upstream in Hfit. simpl in Hfit. fold amount in Hfit. destruct (decide (target = target)); [lia|done].
  - intros k i. pose proof (room_tally _ Hroom k i) as Hfit. unfold after in Hfit. simpl in Hfit. rewrite tally_due_insert in Hfit.
    fold (vote_of (upstream tally_increase deleg_add target amount vs') who) in Hfit. rewrite Hw2, Hz in Hfit. simpl in Hfit. lia.
  - intros k i. rewrite Hw2, Hz. done.
  - by rewrite Hw2.
Qed.

Lemma counted_undelegate cfg who b t c d p p' vs :
  votes_wf cfg vs -> counted none vs -> vote_of vs who = Delegating b t c d p ->
  counted none (with_vote who (Direct [] d p') (upstream tally_reduce deleg_sub t (conviction_votes c b) vs)).
Proof.
  intros Hwf Hct Hw. pose proof (wf_voting _ _ Hwf who) as Hself. rewrite Hw in Hself. simpl in Hself.
  assert (vote_of (upstream tally_reduce deleg_sub t (conviction_votes c b) vs) who = Delegating b t c d p) as Hw2
    by (rewrite vote_of_upstream; destruct (decide (who = t)); [congruence|done]).
  refine (counted_ext _ _ _ _ (counted_with_vote _ _ _ _ (counted_reduce cfg _ _ _ _ Hwf Hct _) _ _)).
  - intros k b' a. rewrite Hw2. unfold none. simpl. destruct (decide (a = t)), (decide (t = a)); congruence || lia.
  - by eapply delegated_held.
  - by rewrite Hw2.
  - by rewrite Hw2.
Qed.

(** ** Every change keeps the count *)

Lemma effect_fresh cfg vs vs' :
  effect cfg vs vs' -> votes_wf cfg vs -> started vs < umax 32 -> fresh vs -> fresh vs'.
Proof.
  intros Heff Hwf Hn Hfr. pose proof (wf_voting _ _ Hwf) as Hv. pose proof (wf_started _ _ Hwf). pose proof (fr_voted _ Hfr) as Hfv.
  destruct Heff as
    [vs vs' Hc|st vs vs' _ Hc|who i v st votes d p votes' t vs Hst Hw Hcast
    |who i n j w votes d p p' vs Hw Hse _ _|who i n j w votes d p st t vs Hw Hse _ Hst _|who x vs [p ->]
    |who target c balance d p vs vs' Hne Hold|who b t c d p p' vs Hw].
  - by eapply fresh_closes.
  - eapply fresh_closes; [done|]. by apply open_fresh.
  - assert (i < started vs) as Hi by (apply (fr_infos _ Hfr); by rewrite Hst).
    assert (0 <= i) as Hi0 by (apply (wf_infos _ _ Hwf); by rewrite Hst).
    specialize (Hv who). specialize (Hfv who). rewrite Hw in Hv, Hfv. destruct Hv as [Hf _].
    destruct (cast_vote_spec _ _ _ _ _ _ _ _ Hcast Hf Hi0) as (_ & _ & Hon & _).
    apply fresh_with_info; [|done]. apply fresh_with_vote; [done|]. intros j. simpl. rewrite Hon.
    destruct (Z.eqb_spec j i) as [->|]; [done|apply Hfv].
  - specialize (Hv who). specialize (Hfv who). rewrite Hw in Hv, Hfv. destruct Hv as [Hf _].
    destruct (search_found _ _ _ _ Hf Hse) as (? & _ & _ & _ & _ & _ & Hrem).
    apply fresh_with_vote; [done|]. intros j'. simpl. rewrite Hrem. destruct (j' =? i); [by intros []|apply Hfv].
  - specialize (Hv who). specialize (Hfv who). rewrite Hw in Hv, Hfv. destruct Hv as [Hf _].
    destruct (search_found _ _ _ _ Hf Hse) as (? & _ & _ & _ & _ & _ & Hrem).
    apply fresh_with_info; [|apply (fr_infos _ Hfr); by rewrite Hst]. apply fresh_with_vote; [done|].
    intros j'. simpl. rewrite Hrem. destruct (j' =? i); [by intros []|apply Hfv].
  - apply fresh_with_vote; [done|]. specialize (Hfv who). by destruct (vote_of vs who).
  - apply fresh_with_vote; [|by intros j []]. apply (fresh_upstream cfg).
    + destruct (vote_of vs who); destruct_and! Hold; subst; [done|by apply wf_upstream].
    + destruct (vote_of vs who); destruct_and! Hold; subst; [done|by apply (fresh_upstream cfg)].
  - apply fresh_with_vote; [|by intros j []]. by apply (fresh_upstream cfg).
Qed.

Lemma effect_counted cfg vs vs' :
  effect cfg vs vs' -> votes_wf cfg vs -> fresh vs -> room vs' -> counted none vs -> counted none vs'.
Proof.
  intros Heff Hwf Hfr Hroom Hct. pose proof (wf_voting _ _ Hwf) as Hv. destruct Heff as
    [vs vs' Hc|st vs vs' Hd Hc|who i v st votes d p votes' t vs Hst Hw Hcast
    |who i n j w votes d p p' vs Hw Hse Hn Hst|who i n j w votes d p st t vs Hw Hse Hn Hst Hrem|who x vs [p ->]
    |who target c balance d p vs vs' Hne Hold|who b t c d p p' vs Hw].
  - by eapply counted_closes.
  - eapply counted_closes; [done|]. by apply open_counted.
  - by eapply counted_vote.
  - specialize (Hv who). rewrite Hw in Hv. destruct (search_found _ _ _ _ (proj1 Hv) Hse) as (? & _ & _ & _ & _ & _ & Hon).
    apply (counted_closed i); try done; try (by rewrite Hw).
    intros k j' Hj. rewrite Hw. simpl. by rewrite Hon, (proj2 (Z.eqb_neq j' i) Hj).
  - specialize (Hv who). rewrite Hw in Hv. destruct (search_found _ _ _ _ (proj1 Hv) Hse) as (w' & Hn' & Hvo & _ & _ & _ & Hon).
    assert (w' = w) as -> by congruence.
    apply counted_with_info; try done; try (by rewrite Hw).
    + intros k j' Hj. rewrite Hw. simpl. by rewrite Hon, (proj2 (Z.eqb_neq j' i) Hj).
    + intros k. pose proof (fun k => contribution_le k i (accounts vs) who) as Hle. fold (vote_of vs who) in Hle.
      rewrite Hw in Hle |- *. simpl in Hle |- *. rewrite Hvo in Hle |- *. rewrite Hon, Z.eqb_refl.
      rewrite (remove_cast (tally st)); [lia|done|]. intros k'. by rewrite (ct_tally _ _ Hct _ _ _ Hst).
  - eapply counted_ext; [|apply counted_with_vote; [exact Hct|..]].
    + intros k b a. unfold none. destruct (vote_of vs who); simpl; lia.
    + intros k i. by destruct (vote_of vs who).
    + by destruct (vote_of vs who).
  - by eapply counted_delegate.
  - by eapply counted_undelegate.
Qed.

(** ** When there is room *)

Definition components : list Component := [Ayes; Nays; Turnout].

(** Everything an account has cast and delegated, together. *)
Definition heft (x : Vot) : Z :=
  match x with
  | Direct votes d _ => zsum (fun v => zsum (fun k => cast k v.2 d) components) votes
  | Delegating b _ c _ _ => zsum (fun k => power_of k true (conviction_votes c b) + power_of k false (conviction_votes c b)) components
  end.

Lemma contribution_heft k i x : contribution k i x <= heft x.
Proof.
  destruct x as [votes d p|b t c d p]; simpl.
  - induction votes as [|[j v] votes IH]; simpl; [lia|].
    assert (0 <= zsum (fun v : Z * V => zsum (fun k => cast k v.2 d) components) votes) as Hr
      by (apply zsum_nonneg; intros ? _; apply zsum_nonneg; intros; apply cast_nonneg).
    simpl in Hr. pose proof (cast_nonneg Ayes v d). pose proof (cast_nonneg Nays v d). pose proof (cast_nonneg Turnout v d).
    destruct (j =? i); [destruct k|]; lia.
  - pose proof (fun k b' => power_nonneg k b' (conviction_votes c b)) as Hn.
    pose proof (Hn Ayes true). pose proof (Hn Ayes false). pose proof (Hn Nays true). pose proof (Hn Nays false).
    pose proof (Hn Turnout true). pose proof (Hn Turnout false). lia.
Qed.

Lemma delegated_heft k aye a x : delegated k aye a x <= heft x.
Proof.
  destruct x as [votes d p|b t c d p]; simpl.
  - apply zsum_nonneg. intros v _. pose proof (cast_nonneg Ayes v.2 d). pose proof (cast_nonneg Nays v.2 d).
    pose proof (cast_nonneg Turnout v.2 d). lia.
  - pose proof (fun k b' => power_nonneg k b' (conviction_votes c b)) as Hn.
    pose proof (Hn Ayes true). pose proof (Hn Ayes false). pose proof (Hn Nays true). pose proof (Hn Nays false).
    pose proof (Hn Turnout true). pose proof (Hn Turnout false). case_decide; destruct k, aye; lia.
Qed.

(** A test that is enough for there to be room. *)
Definition has_room (vs : Vs) : bool :=
  (started vs <? umax 32) && (map_sum (fun _ x => heft x) (accounts vs) <=? umax 128).

Lemma has_room_ok vs : has_room vs = true -> room vs.
Proof.
  intros Hr. unfold has_room in Hr. bool_inv.
  split; [done|..]; intros; (etransitivity; [|eassumption]); apply zsum_le; intros [w x] _; [apply contribution_heft|apply delegated_heft].
Qed.

End Tallies.
