(* ===== verification/DemocracyTheorems.v ===== *)
(** * Votes, referenda and preimages

    The calls of the democracy pallet and its block hook change the votes in the ways of
    [DemocracyTallies]; the invariants of every reachable state; what the block hook does
    with the referenda that end; and how long a preimage is kept. *)

From S2P Require Import Prelude Currency Democracy DemocracyTallies.

(** What the enactment of proposals and the block hook leave of the issuances and of the
    block number. *)
Class DemocracyChainLaws (L X A Hash : Type) `{!DemocracyChain L X A Hash} : Prop := {
  unreserve_issuance c who v l c' : dc_total_issuance c' (dc_unreserve c who v l) = dc_total_issuance c' l;
  schedule_issuance n i h l c : dc_total_issuance c (schedule_enactment n i h l) = dc_total_issuance c l;
  unreserve_block c who v l : block_number (dc_unreserve c who v l) = block_number l;
  slash_block c who v l : block_number (dc_slash_reserved c who v l) = block_number l;
  schedule_block n i h l : block_number (schedule_enactment n i h l) = block_number l
}.

Section Effects.
Context {L X A Hash V C D T R Proposal : Type} `{Countable A} `{Countable Hash}.
Context `{!VoteTypes A V C D T R} `{!DemocracyChain L X A Hash} `{!VoteLaws A V C D T R}.

Abbreviation St := (State (L:=L) (A:=A) (Hash:=Hash) (V:=V) (C:=C) (D:=D) (T:=T) (R:=R)).
Abbreviation Run := (M St (DemocracyError + X)).
Abbreviation Vs := (Votes A V C D T R Hash).

Variable cfg : Config.
Variable account_before : A -> A -> bool.
Variable decode_proposal : list Z -> option Proposal.
Variable backing_for : Z -> St -> option Z.
Variable deposit_is_enough : CurrencyId -> Z -> bool.

(** The calls of the pallet that dispatch nothing. *)
Inductive direct : Run unit -> Prop :=
| by_propose o h c v : direct (propose cfg deposit_is_enough o h c v)
| by_vote o i v : direct (vote cfg o i v)
| by_emergency_cancel b i : direct (emergency_cancel b i)
| by_external_propose b h : direct (external_propose b h)
| by_external_propose_majority b h : direct (external_propose_majority b h)
| by_external_propose_default b h : direct (external_propose_default b h)
| by_fast_track b b' h n d : direct (fast_track cfg b b' h n d)
| by_veto_external o h : direct (veto_external cfg account_before o h)
| by_cancel_referendum b i : direct (cancel_referendum b i)
| by_cancel_queued b i : direct (cancel_queued b i)
| by_delegate o a c v : direct (delegate o a c v)
| by_undelegate o : direct (undelegate cfg o)
| by_clear_public_proposals b : direct (clear_public_proposals b)
| by_note_preimage a c l : direct (note_preimage_inner cfg a c l)
| by_note_imminent_preimage a c l : direct (note_imminent_preimage_inner cfg a c l)
| by_reap_preimage o h n : direct (reap_preimage cfg o h n)
| by_unlock o a : direct (unlock o a)
| by_remove_vote o i : direct (remove_vote cfg o i)
| by_remove_other_vote o a i : direct (remove_other_vote cfg o a i)
| by_blacklist b h o : direct (blacklist b h o)
| by_cancel_proposal b i : direct (cancel_proposal b i).

(** All calls, and the hook that begins a block, where enacted proposals are dispatched by
    [d]. *)
Inductive called (d : Proposal -> St -> bool * St) : Run unit -> Prop :=
| by_direct m : direct m -> called d m
| by_enact_proposal b h i : called d (enact_proposal decode_proposal d b h i)
| by_on_initialize n : called d (on_initialize cfg decode_proposal d backing_for n).

(** ** Runs that leave the votes alone *)

Definition quiet (s s' : St) : Prop := view s' = view s.

Definition closing (s s' : St) : Prop := closes (view s) (view s').

#[local] Instance quiet_preorder : PreOrder quiet.
Proof. split; [done|]. intros s1 s2 s3 H1 H2. unfold quiet in *. congruence. Qed.

#[local] Instance closing_preorder : PreOrder closing.
Proof. split; [by intros s|]. intros s1 s2 s3. unfold closing. apply transitivity. Qed.

Lemma quiet_closing {B : Type} (m : Run B) : moves quiet m -> moves closing m.
Proof. intros Hm s r s' Hrun. apply Hm in Hrun. unfold closing. by rewrite Hrun. Qed.

Lemma quiet_now : moves quiet (now (X:=X)).
Proof. apply moves_gets, _. Qed.

Lemma quiet_on_chain {B : Type} (m : M L X B) : moves quiet (on_chain m).
Proof. by apply moves_zoom. Qed.

Ltac quiet_tac :=
  repeat first
    [ moves_step | apply quiet_now | apply quiet_on_chain
    | apply moves_modify; intros ?; repeat case_match; reflexivity ].

Ltac closing_tac :=
  repeat first
    [ moves_step | apply quiet_closing; quiet_tac; fail
    | apply moves_modify; intros ?; repeat case_match; reflexivity ].

Lemma closing_cancel i : moves closing (modify (internal_cancel_referendum i) : Run unit).
Proof.
  apply moves_modify. intros s. unfold closing, closes. simpl. split_and!; [done|done|..].
  - intros j st. rewrite lookup_delete_Some. tauto.
  - intros j [x Hx]. apply lookup_delete_Some in Hx as [_ Hx]. eauto.
Qed.

Lemma quiet_slash_deposit i (s : St) : view (slash_deposit i s) = view s.
Proof. unfold slash_deposit. by destruct (deposit_of s !! i) as [[[]]|]. Qed.

Lemma quiet_propose o h c v : moves quiet (propose cfg deposit_is_enough o h c v).
Proof. unfold propose. quiet_tac. Qed.

Lemma quiet_veto o h : moves quiet (veto_external cfg account_before o h).
Proof. unfold veto_external. quiet_tac. Qed.

Lemma quiet_note a c l : moves quiet (note_preimage_inner cfg a c l).
Proof. unfold note_preimage_inner. quiet_tac. Qed.

Lemma quiet_note_imminent a c l : moves quiet (note_imminent_preimage_inner cfg a c l).
Proof. unfold note_imminent_preimage_inner, check_pre_image_is_missing. quiet_tac. Qed.

Lemma quiet_reap o h n : moves quiet (reap_preimage cfg o h n).
Proof. unfold reap_preimage, pre_image_data_len. quiet_tac. Qed.

Lemma quiet_cancel_proposal b i : moves quiet (cancel_proposal (X:=X) b i).
Proof. unfold cancel_proposal. quiet_tac. apply moves_modify. intros s. apply quiet_slash_deposit. Qed.

Lemma closing_emergency_cancel b i : moves closing (emergency_cancel (X:=X) b i).
Proof. unfold emergency_cancel. closing_tac. apply closing_cancel. Qed.

Lemma closing_blacklist b h o : moves closing (blacklist (X:=X) b h o).
Proof.
  unfold blacklist. closing_tac; apply moves_modify; intros s; repeat case_match; try reflexivity.
  - unfold closing. by rewrite quiet_slash_deposit.
  - by eapply (closing_cancel _ s).
Qed.

Lemma maturing_known n (s : St) : Forall (fun x => is_Some (referendum_info s !! x.1)) (maturing_referenda_at n s).
Proof.
  unfold maturing_referenda_at, maturing_referenda_at_inner. apply Forall_forall. intros [i st] Hin.
  apply list_elem_of_omap in Hin as (j & _ & Hj). unfold referendum_status in Hj.
  destruct (referendum_info s !! j) as [x|] eqn:E; [|done]. simpl in Hj.
  destruct (ensure_ongoing x); simpl in Hj; [|done]. destruct (ref_end _ =? n); [|done]. injection Hj as <- _. simpl. by rewrite E.
Qed.

Lemma maturing_spec n (s : St) i st :
  (i, st) ∈ maturing_referenda_at n s <->
  lowest_unbaked s <= i < referendum_count s /\ referendum_info s !! i = Some (Ongoing st) /\ ref_end st = n.
Proof.
  unfold maturing_referenda_at, maturing_referenda_at_inner. rewrite list_elem_of_omap. unfold referendum_status. split.
  - intros (j & Hj & Hs). apply elem_of_seqZ in Hj. destruct (referendum_info s !! j) as [[st'|]|] eqn:E; simpl in Hs; [|done..].
    destruct (Z.eqb_spec (ref_end st') n); [|done]. injection Hs as -> ->. split_and!; [lia|lia|done|done].
  - intros (Hi & E & Hend). exists i. split; [apply elem_of_seqZ; lia|]. rewrite E. simpl. by rewrite (proj2 (Z.eqb_eq _ _) Hend).
Qed.

(** ** Runs that open a referendum as the last they do *)

Definition opened (s s' : St) : Prop := exists st, tally st = tally_default /\ view s' = open_referendum st (view s).

Definition opens {B : Type} (m : Run B) : Prop :=
  forall s r s', m s = (r, s') -> quiet s s' \/ (exists b, r = Ok b) /\ opened s s'.

Lemma opens_quiet {B : Type} (m : Run B) : moves quiet m -> opens m.
Proof. intros Hm s r s' Hrun. left. by eapply Hm. Qed.

Lemma opens_inject end_ h t d : opens (modify (inject_referendum end_ h t d) : Run unit).
Proof. intros s r s' [= <- <-]. right. split; [by eexists|]. by eexists (MkReferendum _ _ _ _ _). Qed.

Lemma opens_bind {B E : Type} (m : Run B) (k : B -> Run E) : moves quiet m -> (forall b, opens (k b)) -> opens (bind m k).
Proof.
  intros Hm Hk s r s'. unfold bind. destruct (m s) as [[b|e|] s1] eqn:E1; intros Hrun; simplify_eq;
    pose proof (Hm _ _ _ E1) as Hq; [|by left..].
  apply Hk in Hrun. unfold quiet, opened in *. by rewrite Hq in Hrun.
Qed.

Lemma opens_or_else {B : Type} (m k : Run B) : opens m -> opens k -> opens (or_else m k).
Proof.
  intros Hm Hk s r s'. unfold or_else, bind, try_run. destruct (m s) as [[b|e|] s1] eqn:E1; pose proof (Hm _ _ _ E1) as Ho.
  - intros [= <- <-]. destruct Ho as [?|[_ ?]]; [by left|]. right. eauto.
  - destruct Ho as [Hq|[[b ?] _]]; [|done]. intros Hrun. apply Hk in Hrun. unfold quiet, opened in *. by rewrite Hq in Hrun.
  - intros [= <- <-]. destruct Ho as [?|[[b ?] _]]; [by left|done].
Qed.

Ltac opens_tac :=
  repeat first
    [ apply opens_quiet; quiet_tac; fail
    | apply opens_bind; [quiet_tac; fail|intros ?]
    | match goal with |- opens (match ?x with _ => _ end) => destruct x end
    | apply opens_inject | apply opens_or_else | progress cbv zeta ].

Lemma opens_launch_external n : opens (launch_external cfg n).
Proof. unfold launch_external. opens_tac. Qed.

Lemma opens_launch_public n : opens (launch_public cfg backing_for n).
Proof. unfold launch_public. opens_tac. Qed.

Lemma opens_launch_next n : opens (launch_next cfg backing_for n).
Proof. unfold launch_next. opens_tac; auto using opens_launch_external, opens_launch_public. Qed.

Lemma opens_launch n :
  opens (when! n mod LaunchPeriod cfg =? 0 then let! _ := try_run (launch_next cfg backing_for n) in ret tt).
Proof.
  destruct (n mod LaunchPeriod cfg =? 0); [|apply opens_quiet; quiet_tac]. intros s1 r1 s2.
  unfold bind, try_run. destruct (launch_next cfg backing_for n s1) as [[b|e|] s3] eqn:E; intros [= <- <-];
    destruct (opens_launch_next _ _ _ _ E) as [?|[[? Hr] ?]]; try discriminate Hr; eauto.
Qed.

Lemma opens_fast_track b b' h n d : opens (fast_track cfg b b' h n d).
Proof. unfold fast_track. opens_tac. Qed.

Lemma opens_effect {B : Type} (m : Run B) s r s' : opens m -> m s = (r, s') -> effect (X:=X) cfg (view s) (view s').
Proof.
  intros Hm Hrun. destruct (Hm _ _ _ Hrun) as [Hq|(_ & st & Hst & Hs)].
  - apply eff_close. by rewrite Hq.
  - apply (eff_start cfg st); [done|]. by rewrite Hs.
Qed.

(** ** Votes and delegations *)

Lemma referendum_status_Some i (s : St) st : referendum_status i s = Some st -> infos (view s) !! i = Some (Ongoing st).
Proof. unfold referendum_status. simpl. destruct (referendum_info s !! i) as [[]|]; simpl; congruence. Qed.

Lemma effect_refl (s : St) : effect (X:=X) cfg (view s) (view s).
Proof. by apply eff_close. Qed.

#[local] Hint Resolve effect_refl : core.

(** Take a run apart on every outcome. *)
Ltac run_cases :=
  repeat match goal with
    | |- (Ok _, _) = (_, _) -> _ => intros [= <- <-]
    | |- (Err _, _) = (_, _) -> _ => intros [= <- <-]
    | |- (Panic, _) = (_, _) -> _ => intros [= <- <-]
    | |- context [match ?x with _ => _ end] =>
        lazymatch x with context [match _ with _ => _ end] => fail | _ => destruct x eqn:? end
    end.

Lemma try_vote_effect who i v s r s' : try_vote cfg who i v s = (r, s') -> effect (X:=X) cfg (view s) (view s').
Proof.
  cbv [try_vote bind get ok_or ensure reads modify fail ret]. run_cases; auto.
  eapply (eff_vote cfg); [by apply referendum_status_Some|done|done].
Qed.

Lemma try_remove_vote_effect who i scope s r s' : try_remove_vote cfg who i scope s = (r, s') -> effect (X:=X) cfg (view s) (view s').
Proof.
  cbv [try_remove_vote bind get ok_or expect ensure reads modify fail panic ret]. run_cases; auto; subst.
  - by eapply (eff_unvote_ongoing cfg).
  - eapply (eff_unvote cfg); naive_solver.
  - eapply (eff_unvote cfg); naive_solver.
  - eapply (eff_unvote cfg); naive_solver.
  - eapply (eff_unvote cfg); naive_solver.
  - apply eff_prior. change (vote_of (view s) who) with (voting_of s who). rewrite Heqv. by eexists.
Qed.

Lemma update_lock_effect who (s : St) : effect (X:=X) cfg (view s) (view (update_lock who s)).
Proof.
  assert (view (update_lock who s) = with_vote who (rejig (voting_of s who) (block_number (chain s))) (view s)) as ->
    by (unfold update_lock; by case_match).
  apply eff_prior. apply rejig_keeps.
Qed.

Lemma view_increase who amount (s : St) :
  view (increase_upstream_delegation who amount s) = upstream tally_increase deleg_add who amount (view s).
Proof. unfold increase_upstream_delegation, upstream. change (vote_of (view s) who) with (voting_of s who). by destruct (voting_of s who). Qed.

Lemma view_reduce who amount (s : St) :
  view (reduce_upstream_delegation who amount s) = upstream tally_reduce deleg_sub who amount (view s).
Proof. unfold reduce_upstream_delegation, upstream. change (vote_of (view s) who) with (voting_of s who). by destruct (voting_of s who). Qed.

Lemma try_delegate_effect who target c balance s r s' :
  try_delegate who target c balance s = (r, s') -> effect (X:=X) cfg (view s) (view s').
Proof.
  cbv [try_delegate bind get ok_or expect ensure reads modify fail panic ret]. run_cases; auto; bool_inv.
  - match goal with |- effect _ _ ?v => replace v with
      (with_vote who (Delegating balance target c delegations prior)
        (upstream tally_increase deleg_add target (conviction_votes c balance) (view s))) by (by rewrite <- view_increase) end.
    apply eff_delegate; [done|]. change (vote_of (view s) who) with (voting_of s who). by rewrite Heqv.
  - match goal with |- effect _ _ ?v => replace v with
      (with_vote who (Delegating balance target c delegations prior)
        (upstream tally_increase deleg_add target (conviction_votes c balance)
          (upstream tally_reduce deleg_sub target0 (conviction_votes conviction balance0) (view s))))
      by (by rewrite <- view_reduce, <- view_increase) end.
    apply eff_delegate; [done|]. change (vote_of (view s) who) with (voting_of s who). by rewrite Heqv.
Qed.

Lemma try_undelegate_effect who s r s' :
  try_undelegate cfg who s = (r, s') -> effect (X:=X) cfg (view s) (view s').
Proof.
  cbv [try_undelegate bind get ok_or expect ensure reads modify fail panic ret]. run_cases; auto.
  match goal with |- effect _ _ (view (deposit_event _ (set_voting _ ?x _))) => set (new := x) end.
  match goal with |- effect _ _ ?v => replace v with
    (with_vote who new (upstream tally_reduce deleg_sub target (conviction_votes conviction balance) (view s)))
    by (by rewrite <- view_reduce) end.
  by eapply eff_undelegate.
Qed.

(** ** Every call that dispatches nothing *)

Lemma direct_effect m s r s' : direct m -> m s = (r, s') -> effect (X:=X) cfg (view s) (view s').
Proof.
  assert (forall m : Run unit, moves quiet m -> m s = (r, s') -> effect (X:=X) cfg (view s) (view s')) as Hq.
  { intros m' Hm Hrun. apply Hm in Hrun. rewrite Hrun. auto. }
  assert (forall m : Run unit, moves closing m -> m s = (r, s') -> effect (X:=X) cfg (view s) (view s')) as Hc.
  { intros m' Hm Hrun. apply eff_close. by eapply Hm. }
  assert (forall o (k : A -> Run unit), (forall a, k a s = (r, s') -> effect (X:=X) cfg (view s) (view s')) ->
    bind (ok_or o (inl BadOrigin)) k s = (r, s') -> effect (X:=X) cfg (view s) (view s')) as Ho.
  { intros [a|] k Hk; [apply Hk|]. intros [= _ <-]. auto. }
  intros [].
  - apply Hq, quiet_propose.
  - apply Ho. intros. by eapply try_vote_effect.
  - apply Hc, closing_emergency_cancel.
  - apply Hq. unfold external_propose. quiet_tac.
  - apply Hq. unfold external_propose_majority. quiet_tac.
  - apply Hq. unfold external_propose_default. quiet_tac.
  - apply opens_effect, opens_fast_track.
  - apply Hq, quiet_veto.
  - apply Hc. unfold cancel_referendum. closing_tac. apply closing_cancel.
  - apply Hq. unfold cancel_queued. quiet_tac.
  - apply Ho. intros. by eapply try_delegate_effect.
  - apply Ho. intros. by eapply try_undelegate_effect.
  - apply Hq. unfold clear_public_proposals. quiet_tac.
  - apply Hq, quiet_note.
  - apply Hq, quiet_note_imminent.
  - apply Hq, quiet_reap.
  - apply Ho. intros _ [= _ <-]. apply update_lock_effect.
  - apply Ho. intros. by eapply try_remove_vote_effect.
  - apply Ho. intros. by eapply try_remove_vote_effect.
  - apply Hc, closing_blacklist.
  - apply Hq, quiet_cancel_proposal.
Qed.

(** ** What enacted proposals do

    A proposal is any call of the runtime, made by root. Of the votes it changes what calls
    of this pallet change, which it may make for any account ([dispatch_as] of the
    authority), the enactment of another proposal among them; everything else in the runtime
    leaves them alone. Between its calls [P] holds of the votes. *)
Inductive dispatched (P : Vs -> Prop) : St -> St -> Prop :=
| disp_others s s' : view s' = view s -> dispatched P s s'
| disp_call m s r s' : direct m -> m s = (r, s') -> P (view s') -> dispatched P s s'
| disp_enact d b h i s r s' :
    (forall p s1, P (view s1) -> dispatched P s1 (d p s1).2) ->
    enact_proposal (X:=X) decode_proposal d b h i s = (r, s') -> dispatched P s s'
| disp_then s1 s2 s3 : dispatched P s1 s2 -> dispatched P s2 s3 -> dispatched P s1 s3.

Definition serves (P : Vs -> Prop) (d : Proposal -> St -> bool * St) : Prop :=
  forall p s, P (view s) -> dispatched P s (d p s).2.

(** [P] also if a block opens one more referendum. *)
Definition ahead (P : Vs -> Prop) (vs : Vs) : Prop := P vs /\ forall st, P (open_referendum st vs).

(** By calls and block hooks, whatever proposals they enact, with anything else happening to
    the rest of the chain in between, through states whose votes satisfy [P]. *)
Inductive reachable (P : Vs -> Prop) : St -> Prop :=
| at_genesis s : votings s = ∅ -> referendum_info s = ∅ -> reachable P (build s)
| after_call d m s r s' :
    reachable P s -> serves P d -> called d m -> m s = (r, s') -> ahead P (view s) -> P (view s') -> reachable P s'
| after_others s s' : reachable P s -> view s' = view s -> reachable P s'.

Definition finish (i : Z) (approved : bool) (end_ : Z) (vs : Vs) : Vs :=
  MkVotes (<[i := Finished approved end_]> (infos vs)) (accounts vs) (started vs).

(** What an invariant must allow: the effects of calls while [P] holds, and the end of one of
    the referenda below [n], [n] being at most the number of those started. *)
Record invariant (P : Vs -> Prop) (J : Z -> Vs -> Prop) : Prop := {
  inv_room vs vs' : accounts vs' = accounts vs -> started vs' = started vs -> P vs -> P vs';
  inv_effect n vs vs' : effect (X:=X) cfg vs vs' -> P vs -> P vs' -> J n vs -> J n vs';
  inv_raise n vs : J n vs -> J (started vs) vs;
  inv_lower n vs : J n vs -> J 0 vs;
  inv_known n vs i : J n vs -> is_Some (infos vs !! i) -> 0 <= i;
  inv_finish n i b e vs : 0 <= i < n -> J n vs -> J n (finish i b e vs)
}.

Section Invariants.
Variables (P : Vs -> Prop) (J : Z -> Vs -> Prop).
Hypothesis HJ : invariant P J.

Definition held_on (n : Z) (s s' : St) : Prop := P (view s) /\ J n (view s) -> P (view s') /\ J n (view s').

#[local] Instance held_on_preorder n : PreOrder (held_on n).
Proof. unfold held_on. split; [by intros s|intros s1 s2 s3; tauto]. Qed.

Lemma held_quiet n s s' : view s' = view s -> held_on n s s'.
Proof. intros E. unfold held_on. by rewrite E. Qed.

Lemma held_effect n s s' : effect (X:=X) cfg (view s) (view s') -> P (view s') -> held_on n s s'.
Proof. intros He HP [HP0 HJ0]. split; [done|]. by eapply (inv_effect _ _ HJ). Qed.

Lemma held_closing n s s' : closing s s' -> held_on n s s'.
Proof.
  intros Hc [HP HJ0]. assert (P (view s')) as HP' by (eapply (inv_room _ _ HJ); [apply Hc|apply Hc|done]).
  refine (held_effect n s s' _ HP' (conj HP HJ0)). by apply eff_close.
Qed.

Lemma moves_held n {B : Type} (m : Run B) : moves closing m -> moves (held_on n) m.
Proof. intros Hm s r s' Hrun. apply held_closing. by eapply Hm. Qed.

Lemma enact_held n d h i :
  (forall p s, P (view s) -> held_on n s (d p s).2) -> moves (held_on n) (do_enact_proposal decode_proposal d h i).
Proof.
  intros Hd. unfold do_enact_proposal.
  repeat first [moves_step | apply moves_held; closing_tac; fail].
  intros s r s'. match goal with |- context [d ?p s] => specialize (Hd p s); destruct (d p s) end.
  intros [= _ <-] [HP HJ0]. by apply Hd.
Qed.

Lemma dispatched_held s s' : dispatched P s s' -> forall n, held_on n s s'.
Proof.
  induction 1 as [s s' E|m s r s' Hm Hrun HP|d b h i s r s' _ IH Hrun|s1 s2 s3 _ IH1 _ IH2]; intros n.
  - by apply held_quiet.
  - apply held_effect; [|done]. by eapply direct_effect.
  - revert Hrun. assert (moves (held_on n) (enact_proposal (X:=X) decode_proposal d b h i)) as Hm; [|apply Hm].
    unfold enact_proposal. moves_step; [moves_step|]. apply enact_held. intros p s1 HP. by apply IH.
  - etransitivity; [apply IH1|apply IH2].
Qed.

Lemma serves_held n d : serves P d -> forall p s, P (view s) -> held_on n s (d p s).2.
Proof. intros Hd p s HP. by apply dispatched_held, Hd. Qed.

Lemma bake_held n d now i st : serves P d -> moves (held_on n) (bake_referendum decode_proposal d now i st).
Proof.
  intros Hd. unfold bake_referendum.
  repeat first [moves_step | apply moves_held; closing_tac; fail | by apply enact_held, serves_held].
Qed.

Lemma bake_maturing_held n d now l :
  serves P d -> Forall (fun x => 0 <= x.1 < n) l -> moves (held_on n) (bake_maturing decode_proposal d now l).
Proof.
  intros Hd. unfold bake_maturing. induction 1 as [|[i st] l Hi _ IH]; simpl; [moves_step|].
  apply (moves_bind _); [|intros _; exact IH]. apply (moves_bind _); [by apply bake_held|intros b].
  apply moves_modify. intros s [HP HJ0]. split.
  - by eapply (inv_room _ _ HJ); [..|exact HP].
  - by apply (inv_finish _ _ HJ n i b now (view s)).
Qed.

Lemma launch_held now s r s1 :
  ahead P (view s) ->
  (when! now mod LaunchPeriod cfg =? 0 then let! _ := try_run (launch_next cfg backing_for now) in ret tt) s = (r, s1) ->
  held_on 0 s s1.
Proof.
  intros [_ Hahead] E. destruct (opens_launch now _ _ _ E) as [Hq|(_ & st & Hst & Hs)]; [by apply held_quiet|].
  apply held_effect; rewrite Hs; [|apply Hahead]. by apply (eff_start cfg st).
Qed.

Lemma begin_held d now s r s' :
  serves P d -> ahead P (view s) -> begin_block cfg decode_proposal d backing_for now s = (r, s') -> held_on 0 s s'.
Proof.
  intros Hd Hahead. unfold begin_block. destruct (LaunchPeriod cfg =? 0); [by intros [= _ <-]|].
  unfold bind at 1. destruct ((when! now mod LaunchPeriod cfg =? 0 then _) s) as [q s1] eqn:E.
  pose proof (launch_held _ _ _ _ Hahead E) as H1. destruct q as [[]|e|]; [|by intros [= _ <-]..].
  intros Hrun HPJ. destruct (H1 HPJ) as [HP HJ1].
  destruct (bake_maturing_held (started (view s1)) d now (maturing_referenda_at now s1) Hd) with s1 r s' as [HP' HJ'].
  - apply Forall_forall. intros [i st] Hin. split.
    + apply (inv_known _ _ HJ _ _ _ HJ1). pose proof (maturing_known now s1) as Hk. rewrite Forall_forall in Hk. by apply (Hk _ Hin).
    + unfold maturing_referenda_at, maturing_referenda_at_inner in Hin.
      apply list_elem_of_omap in Hin as (j & Hj & Hs). apply elem_of_seqZ in Hj. simpl in *.
      destruct (referendum_status j s1); simpl in Hs; [|done]. destruct (_ =? now); [|done]. injection Hs as <- _. lia.
  - exact Hrun.
  - split; [done|by eapply (inv_raise _ _ HJ)].
  - split; [done|by eapply (inv_lower _ _ HJ)].
Qed.

Lemma called_held d m s r s' :
  serves P d -> called d m -> ahead P (view s) -> P (view s') -> m s = (r, s') -> held_on 0 s s'.
Proof.
  intros Hd [m' Hm|b h i|now] Hahead HP Hrun.
  - apply held_effect; [|done]. by eapply direct_effect.
  - apply dispatched_held. eapply disp_enact; [|exact Hrun]. intros p s1. apply Hd.
  - unfold on_initialize, bind, try_run in Hrun. destruct (begin_block _ _ _ _ now s) as [[b|e|] s1] eqn:E;
      injection Hrun as _ <-; by eapply begin_held.
Qed.

Lemma reachable_invariant (s : St) :
  (forall s : St, votings s = ∅ -> referendum_info s = ∅ -> J 0 (view (build s))) -> reachable P s -> J 0 (view s).
Proof.
  intros Hgen Hr. induction Hr as [s Hv Hi|d m s r s' _ IH Hd Hm Hrun Hahead HP|s s' _ IH ->]; [by apply Hgen| |done].
  apply (called_held d m s r s' Hd Hm Hahead HP Hrun). split; [apply Hahead|exact IH].
Qed.

End Invariants.

(** ** The invariants *)

Definition everywhere (vs : Vs) : Prop := True.

Lemma wf_finish i b e (vs : Vs) : 0 <= i -> votes_wf cfg vs -> votes_wf cfg (finish i b e vs).
Proof.
  intros Hi0 [Hv Hi Hn]. split; [done| |done]. intros j. simpl. destruct (decide (j = i)) as [->|Hj]; [done|].
  rewrite lookup_insert_ne by congruence. apply Hi.
Qed.

Lemma wf_invariant : 0 <= MaxVotes cfg -> invariant everywhere (fun _ => votes_wf cfg).
Proof.
  intros Hmax. split; try done.
  - intros n vs vs' Heff _ _. by apply (effect_wf (X:=X)).
  - intros n vs i Hwf. apply (wf_infos _ _ Hwf).
  - intros n i b e vs Hi. apply wf_finish. lia.
Qed.

Lemma genesis_wf (s : St) : votings s = ∅ -> referendum_info s = ∅ -> 0 <= MaxVotes cfg -> votes_wf cfg (view (build s)).
Proof.
  intros Hv Hi Hmax. split; simpl.
  - intros who. unfold vote_of. simpl. rewrite Hv, lookup_empty. simpl. lia.
  - intros i. rewrite Hi, lookup_empty. by intros [].
  - done.
Qed.

(** Counted, and [n] referenda were started at least. *)
Record counted_from (n : Z) (vs : Vs) : Prop := {
  cf_wf : votes_wf cfg vs;
  cf_fresh : fresh vs;
  cf_counted : counted none vs;
  cf_started : n <= started vs
}.

Lemma effect_started (vs vs' : Vs) : effect (X:=X) cfg vs vs' -> 0 <= started vs < umax 32 -> started vs <= started vs'.
Proof.
  intros Heff Hn. destruct Heff as [vs vs' Hc|st vs vs' _ Hc| | | | |who target c balance d p vs vs' _ Hold|]; simpl;
    rewrite ?started_upstream; try lia.
  - by rewrite (proj1 (proj2 Hc)).
  - rewrite (proj1 (proj2 Hc)). simpl. rewrite wrap_exact by (unfold in_uint; lia). lia.
  - destruct (vote_of vs who); destruct_and! Hold; subst; rewrite ?started_upstream; lia.
Qed.

Lemma fresh_finish i b e (vs : Vs) : i < started vs -> fresh vs -> fresh (finish i b e vs).
Proof.
  intros Hlt [Hv Hi]. split; [done|]. intros j. simpl. destruct (decide (j = i)) as [->|]; [done|].
  rewrite lookup_insert_ne by congruence. apply Hi.
Qed.

Lemma counted_finish i b e (vs : Vs) : counted none vs -> counted none (finish i b e vs).
Proof.
  intros [Ht Hd]. split; [|done]. intros j st k. simpl. destruct (decide (j = i)) as [->|].
  - by rewrite lookup_insert_eq.
  - rewrite lookup_insert_ne by congruence. apply Ht.
Qed.

Lemma counted_invariant : 0 <= MaxVotes cfg -> invariant room counted_from.
Proof.
  intros Hmax. split.
  - intros vs vs' Ha Hn [H1 H2 H3]. split; rewrite ?Ha, ?Hn; done.
  - intros n vs vs' Heff Hroom Hroom' [Hwf Hfr Hct Hn]. pose proof (room_started _ Hroom). pose proof (wf_started _ _ Hwf).
    split; [by apply (effect_wf (X:=X)) with vs|by apply (effect_fresh (X:=X) cfg) with vs|by apply (effect_counted (X:=X) cfg) with vs|].
    pose proof (effect_started _ _ Heff ltac:(lia)). lia.
  - intros n vs [Hwf Hfr Hct Hn]. by split.
  - intros n vs [Hwf Hfr Hct Hn]. split; [done..|apply (wf_started _ _ Hwf)].
  - intros n vs i [Hwf _ _ _]. apply (wf_infos _ _ Hwf).
  - intros n i b e vs Hi [Hwf Hfr Hct Hn].
    split; [apply wf_finish; [lia|done]|apply fresh_finish; [lia|done]|by apply counted_finish|done].
Qed.

Lemma genesis_counted (s : St) :
  0 <= MaxVotes cfg -> votings s = ∅ -> referendum_info s = ∅ -> counted_from 0 (view (build s)).
Proof.
  intros Hmax Hv Hi. split; [by apply genesis_wf|split|split|done]; simpl.
  - intros who i. unfold vote_of. simpl. rewrite Hv, lookup_empty. by intros [].
  - intros i. rewrite Hi, lookup_empty. by intros [].
  - intros i st k. by rewrite Hi, lookup_empty.
  - intros who k b. unfold vote_of, delegations_due, none, voting_default. simpl. rewrite Hv, lookup_empty, map_sum_empty. simpl. by rewrite deleg_default_zero.
Qed.

(** C27: a vote is recorded once, in the order of the referenda; an account has one vote more than
    the maximum at most (the source compares with [<=] before it inserts), and nobody
    delegates to themselves. So it is in every state that calls and block hooks reach,
    whatever the enacted proposals call in turn: they may vote for others, delegate, open
    and cancel referenda, and enact further proposals. *)
Theorem votes_stay_sorted s who :
  0 <= MaxVotes cfg -> reachable everywhere s -> voting_wf cfg who (voting_of s who).
Proof.
  intros Hmax Hr. apply (wf_voting _ _ (reachable_invariant _ _ (wf_invariant Hmax) s (fun s Hv Hi => genesis_wf s Hv Hi Hmax) Hr)).
Qed.

(** C6: while nothing saturates, the tally of every ongoing referendum is the sum of the votes on
    it with what is delegated to the voters, and what is delegated to an account is the sum
    of what the others delegate to it, in each of the numbers. Enacted proposals may vote,
    delegate, open and cancel referenda and enact others; that nothing saturates ([room]:
    no sum is above 128 bits and the number of referenda is below 32 bits, with one to
    spare before each call) is asked after each call, also of those a proposal makes. *)
Theorem tallies_are_sums s :
  0 <= MaxVotes cfg -> reachable room s ->
  (forall i st k, referendum_info s !! i = Some (Ongoing st) -> tally_of k (tally st) = tally_due k i (votings s))
  /\ forall who k aye, power_of k aye (delegations_of (voting_of s who)) = delegations_due k aye who (votings s).
Proof.
  intros Hmax Hr. pose proof (reachable_invariant _ _ (counted_invariant Hmax) s (fun s => genesis_counted s Hmax) Hr) as [_ _ Hct _]. split.
  - intros i st k. apply (ct_tally _ _ Hct).
  - intros who k aye. pose proof (ct_deleg _ _ Hct who k aye) as Hd. unfold none in Hd. rewrite Z.add_0_r in Hd. exact Hd.
Qed.

(** ** Preimages *)

Definition same_preimages (s s' : St) : Prop := preimages s' = preimages s.

#[local] Instance same_preimages_preorder : PreOrder same_preimages.
Proof. split; [done|]. intros s1 s2 s3 H1 H2. unfold same_preimages in *. congruence. Qed.

Ltac preimages_tac :=
  repeat first
    [ moves_step | apply moves_gets, _ | by apply moves_zoom
    | apply moves_modify; intros ?; unfold update_lock, increase_upstream_delegation, reduce_upstream_delegation, slash_deposit;
      repeat case_match; reflexivity ].

(** A noted preimage is a new one. *)
Lemma note_keeps a c l (s : St) r (s' : St) h p :
  note_preimage_inner cfg a c l s = (r, s') -> preimages s !! h = Some p -> preimages s' !! h = Some p.
Proof.
  cbv [note_preimage_inner bind get gets on_chain zoom now ensure modify fail ret]. run_cases; auto; bool_inv; simpl;
    intros Hp; (rewrite lookup_insert_ne by congruence); done.
Qed.

Lemma note_imminent_keeps a c l (s : St) r (s' : St) h data who cur d since e :
  note_imminent_preimage_inner cfg a c l s = (r, s') ->
  preimages s !! h = Some (Available data who cur d since e) -> preimages s' !! h = Some (Available data who cur d since e).
Proof.
  cbv [note_imminent_preimage_inner check_pre_image_is_missing bind get gets now ok_or ensure modify fail ret].
  run_cases; auto; bool_inv; simpl; intros Hp; (rewrite lookup_insert_ne by congruence); done.
Qed.

Lemma reap_keeps o h' n (s : St) r (s' : St) h data who cur d since e :
  reap_preimage cfg o h' n s = (r, s') ->
  preimages s !! h = Some (Available data who cur d since (Some e)) -> block_number (chain s) <= e ->
  preimages s' !! h = Some (Available data who cur d since (Some e)).
Proof.
  cbv [reap_preimage pre_image_data_len bind get gets now ok_or ensure modify fail ret].
  run_cases; auto; bool_inv; simpl; intros Hp Hn; rewrite lookup_delete_Some; (split; [|done]); intros ->; simplify_eq; lia.
Qed.

(** No call that dispatches nothing takes a preimage away that is needed later. *)
Lemma direct_keeps m (s : St) r (s' : St) h data who cur d since e :
  direct m -> m s = (r, s') ->
  preimages s !! h = Some (Available data who cur d since (Some e)) -> block_number (chain s) <= e ->
  preimages s' !! h = Some (Available data who cur d since (Some e)).
Proof.
  intros Hm. destruct Hm; try (intros Hrun Hp Hn;
    match type of Hrun with note_preimage_inner _ _ _ _ _ = _ => by eapply note_keeps
                          | note_imminent_preimage_inner _ _ _ _ _ = _ => by eapply note_imminent_keeps
                          | reap_preimage _ _ _ _ _ = _ => by eapply reap_keeps end);
    intros Hrun Hp _; (match type of Hrun with ?m _ = _ => assert (moves same_preimages m) as Hk end;
      [|apply Hk in Hrun; by rewrite Hrun]).
  - unfold propose. preimages_tac.
  - unfold vote, try_vote. preimages_tac.
  - unfold emergency_cancel. preimages_tac.
  - unfold external_propose. preimages_tac.
  - unfold external_propose_majority. preimages_tac.
  - unfold external_propose_default. preimages_tac.
  - unfold fast_track. preimages_tac.
  - unfold veto_external. preimages_tac.
  - unfold cancel_referendum. preimages_tac.
  - unfold cancel_queued. preimages_tac.
  - unfold delegate, try_delegate. preimages_tac.
  - unfold undelegate, try_undelegate. preimages_tac.
  - unfold clear_public_proposals. preimages_tac.
  - unfold unlock. preimages_tac.
  - unfold remove_vote, try_remove_vote. preimages_tac.
  - unfold remove_other_vote, try_remove_vote. preimages_tac.
  - unfold blacklist. preimages_tac.
  - unfold cancel_proposal. preimages_tac.
Qed.

(** What launching adds ends a voting period later. *)
Definition adds_later (n : Z) (s s' : St) : Prop :=
  forall i st, referendum_info s' !! i = Some (Ongoing st) ->
    ref_end st = wrap 32 (n + VotingPeriod cfg) \/ referendum_info s !! i = Some (Ongoing st).

#[local] Instance adds_later_preorder n : PreOrder (adds_later n).
Proof.
  unfold adds_later. split; [by right|]. intros s1 s2 s3 H1 H2 i st Hi. destruct (H2 i st Hi) as [|Hi2]; [by left|]. by apply H1.
Qed.

Lemma launch_ongoing n :
  moves (adds_later n) (when! n mod LaunchPeriod cfg =? 0 then let! _ := try_run (launch_next cfg backing_for n) in ret tt).
Proof.
  unfold launch_next, or_else, launch_external, launch_public.
  repeat first [moves_step | by apply moves_zoom | apply moves_modify; intros ?; by right].
  all: apply moves_modify; intros s i st; simpl; (destruct (decide (i = referendum_count s)) as [->|Hi];
    [rewrite lookup_insert_eq; intros [= <-]; by left|rewrite lookup_insert_ne by congruence; by right]).
Qed.

(** What an enacted proposal does that spares the preimage of [h] up to block [e]: calls of
    this pallet, for any account; the enactment of something else; and what the rest of the
    runtime does, which leaves the preimages alone. None of it ends the block. *)
Inductive spared (h : Hash) (e : Z) : St -> St -> Prop :=
| spared_others s s' :
    preimages s' !! h = preimages s !! h -> block_number (chain s') = block_number (chain s) -> spared h e s s'
| spared_call m s r s' :
    direct m -> m s = (r, s') -> block_number (chain s') = block_number (chain s) -> spared h e s s'
| spared_enact d b h' i s r s' :
    b = false \/ h' <> h -> (forall p s1, block_number (chain s1) <= e -> spared h e s1 (d p s1).2) ->
    enact_proposal (X:=X) decode_proposal d b h' i s = (r, s') -> spared h e s s'
| spared_then s1 s2 s3 : spared h e s1 s2 -> spared h e s2 s3 -> spared h e s1 s3.

(** The calls and blocks that do not enact [h] and in which no referendum on it ends. *)
Inductive passes_by (d : Proposal -> St -> bool * St) (h : Hash) (s : St) : Run unit -> Prop :=
| pass_call m : direct m -> passes_by d h s m
| pass_enact b h' i : b = false \/ h' <> h -> passes_by d h s (enact_proposal decode_proposal d b h' i)
| pass_block n :
    wrap 32 (n + VotingPeriod cfg) <> n ->
    (forall i st, referendum_info s !! i = Some (Ongoing st) -> ref_end st = n -> proposal_hash st <> h) ->
    passes_by d h s (on_initialize cfg decode_proposal d backing_for n).

Section Kept.
Context `{!DemocracyChainLaws L X A Hash}.
Variables (h : Hash) (e : Z) (data : list Z) (who : A) (cur : CurrencyId) (deposit since : Z).

Definition needed (s : St) : Prop :=
  preimages s !! h = Some (Available data who cur deposit since (Some e)) /\ block_number (chain s) <= e.

Definition kept (s s' : St) : Prop := needed s -> needed s'.

#[local] Instance kept_preorder : PreOrder kept.
Proof. unfold kept. split; [by intros s|intros s1 s2 s3; tauto]. Qed.

Lemma kept_same (s s' : St) :
  preimages s' !! h = preimages s !! h -> block_number (chain s') = block_number (chain s) -> kept s s'.
Proof. unfold kept, needed. by intros -> ->. Qed.

Lemma unreserve_all_block c d l : forall ch : L,
  block_number (fold_left (fun l (w : A) => dc_unreserve c w d l) l ch) = block_number ch.
Proof. induction l as [|w l IH]; intros ch; simpl; [done|]. by rewrite IH, unreserve_block. Qed.

Ltac kept_tac :=
  repeat first
    [ moves_step | apply moves_gets, _
    | apply moves_modify; intros ?; apply kept_same; simpl;
      rewrite ?unreserve_block, ?slash_block, ?schedule_block, ?unreserve_all_block; reflexivity ].

Lemma enact_kept d b h' i :
  b = false \/ h' <> h -> (forall p s, block_number (chain s) <= e -> kept s (d p s).2) ->
  moves kept (enact_proposal (X:=X) decode_proposal d b h' i).
Proof.
  intros Hh Hd. unfold enact_proposal, do_enact_proposal. destruct b; [|intros s r s' [= _ <-]; done].
  destruct Hh as [|Hh]; [done|]. kept_tac.
  - apply moves_modify. intros s. apply kept_same; simpl; [by rewrite lookup_delete_ne|done].
  - intros s r s'. match goal with |- context [d ?p s] => specialize (Hd p s); destruct (d p s) end.
    intros [= _ <-] Hn. by apply Hd; [apply Hn|].
Qed.

Lemma spared_kept s s' : spared h e s s' -> kept s s'.
Proof.
  induction 1 as [s s' E Hb|m s r s' Hm Hrun Hb|d b h' i s r s' Hh _ IH Hrun|s1 s2 s3 _ IH1 _ IH2].
  - by apply kept_same.
  - intros [Hp Hn]. split; [|by rewrite Hb]. by eapply direct_keeps.
  - eapply enact_kept; [exact Hh| |exact Hrun]. exact IH.
  - by etransitivity.
Qed.

Lemma bake_kept d n i st :
  proposal_hash st <> h -> (forall p s, block_number (chain s) <= e -> kept s (d p s).2) ->
  moves kept (bake_referendum (X:=X) decode_proposal d n i st).
Proof.
  intros Hst Hd. unfold bake_referendum. kept_tac.
  - apply (enact_kept d true (proposal_hash st)); auto.
  - apply moves_modify. intros s. apply kept_same; [|done]. unfold need_preimage. simpl. by rewrite lookup_insert_ne by congruence.
Qed.

Lemma bake_maturing_kept d n l :
  Forall (fun x => proposal_hash x.2 <> h) l -> (forall p s, block_number (chain s) <= e -> kept s (d p s).2) ->
  moves kept (bake_maturing (X:=X) decode_proposal d n l).
Proof.
  intros Hl Hd. unfold bake_maturing. induction Hl as [|[i st] l Hi _ IH]; simpl; [moves_step|].
  apply (moves_bind _); [|intros _; exact IH]. apply (moves_bind _); [by apply bake_kept|intros b]. kept_tac.
Qed.

Lemma launch_kept n :
  moves kept (when! n mod LaunchPeriod cfg =? 0 then let! _ := try_run (launch_next cfg backing_for n) in ret tt).
Proof. unfold launch_next, or_else, launch_external, launch_public. kept_tac. Qed.

Lemma block_kept d n s r s' :
  (forall p s, block_number (chain s) <= e -> kept s (d p s).2) ->
  wrap 32 (n + VotingPeriod cfg) <> n ->
  (forall i st, referendum_info s !! i = Some (Ongoing st) -> ref_end st = n -> proposal_hash st <> h) ->
  on_initialize (X:=X) cfg decode_proposal d backing_for n s = (r, s') -> kept s s'.
Proof.
  intros Hd Hw Hends.
  assert (forall q s1, begin_block (X:=X) cfg decode_proposal d backing_for n s = (q, s1) -> kept s s1) as Hb.
  { intros q s1. unfold begin_block. destruct (LaunchPeriod cfg =? 0); [by intros [= _ <-]|]. unfold bind at 1.
    destruct ((when! n mod LaunchPeriod cfg =? 0 then _) s) as [q0 s0] eqn:E.
    pose proof (launch_kept _ _ _ _ E) as Hk. destruct q0 as [[]|x|]; [|by intros [= _ <-]..].
    intros Hrun. transitivity s0; [exact Hk|]. eapply bake_maturing_kept; [|exact Hd|exact Hrun].
    apply Forall_forall. intros [i st] Hin. apply maturing_spec in Hin as (_ & Hi & Hend).
    destruct (launch_ongoing _ _ _ _ E i st Hi) as [Hst|Hst]; [congruence|]. by apply (Hends i). }
  unfold on_initialize, bind, try_run. destruct (begin_block _ _ _ _ n s) as [[b|x|] s1] eqn:E; intros [= _ <-]; by eapply Hb.
Qed.

End Kept.

(** C33: a preimage that a referendum has passed on is kept until its enactment is due. Up to
    that block no call takes it away, replaces it or moves the date, neither its provider's
    nor anybody else's, and no block does, except that root enacts this very proposal or
    that another referendum on the same hash ends. Proposals that are enacted meanwhile may
    make any of these calls too. *)
Theorem needed_preimage_is_kept `{!DemocracyChainLaws L X A Hash} d m (s : St) r (s' : St) h data who cur deposit since e :
  (forall p s1, block_number (chain s1) <= e -> spared h e s1 (d p s1).2) -> passes_by d h s m -> m s = (r, s') ->
  preimages s !! h = Some (Available data who cur deposit since (Some e)) -> block_number (chain s) <= e ->
  preimages s' !! h = Some (Available data who cur deposit since (Some e)).
Proof.
  intros Hd Hm Hrun Hp Hn.
  assert (forall p s1, block_number (chain s1) <= e -> kept h e data who cur deposit since s1 (d p s1).2) as Hk
    by (intros p s1 Hs1; by apply spared_kept, Hd).
  destruct Hm as [m Hm|b h' i Hh|n Hw Hends]; [by eapply direct_keeps| |].
  - eapply enact_kept; [exact Hh|exact Hk|exact Hrun|done].
  - by eapply (block_kept h e data who cur deposit since d n s).
Qed.

End Effects.

Section Endings.
Context {L X A Hash V C D T R Proposal : Type} `{Countable A} `{Countable Hash}.
Context `{!VoteTypes A V C D T R} `{!DemocracyChain L X A Hash} `{!DemocracyChainLaws L X A Hash}.

Abbreviation St := (State (L:=L) (A:=A) (Hash:=Hash) (V:=V) (C:=C) (D:=D) (T:=T) (R:=R)).
Abbreviation Run := (M St (DemocracyError + X)).
Abbreviation Status := (ReferendumStatus T Hash).

Variable cfg : Config.
Variable decode_proposal : list Z -> option Proposal.
Variable dispatch_root : Proposal -> St -> bool * St.
Variable backing_for : Z -> St -> option Z.

(** ** The referenda that end *)

Lemma omap_keys {K B : Type} (f : K -> option (K * B)) (l : list K) :
  (forall k x, f k = Some x -> x.1 = k) -> NoDup l -> NoDup (omap f l).*1.
Proof.
  intros Hf. induction 1 as [|k l Hk Hl IH]; simpl; [constructor|]. destruct (f k) as [[k' b]|] eqn:E; [|done].
  apply Hf in E as Hk'. simpl in Hk'. subst k'. simpl. constructor; [|done]. intros Hin. apply Hk.
  apply list_elem_of_fmap in Hin as ([k' b'] & Hk' & Hin). simpl in Hk'. subst k'. apply list_elem_of_omap in Hin as (j & Hj & Hfj).
  apply Hf in Hfj. simpl in Hfj. by subst.
Qed.

Lemma maturing_nodup n (s : St) : NoDup (maturing_referenda_at n s).*1.
Proof.
  apply omap_keys; [|apply NoDup_seqZ]. intros i x. destruct (referendum_status i s); simpl; [|done].
  destruct (_ =? n); [|done]. by intros [= <-].
Qed.

(** ** Deciding them *)

(** The electorate is the issuance of the currency that the deposit of the preimage is in. *)
Definition decided (st : Status) (currency : CurrencyId) (s : St) : bool :=
  approved_by (threshold st) (tally st) (dc_total_issuance currency (chain s)).

Definition has_preimage (st : Status) (s : St) : Prop := is_Some (preimage_currency (proposal_hash st) s).

(** The preimages stay what they are paid for in, and the issuances stay. *)
Definition steady (s s' : St) : Prop :=
  (forall h, preimage_currency h s' = preimage_currency h s) /\ (forall c, dc_total_issuance c (chain s') = dc_total_issuance c (chain s)).

#[local] Instance steady_preorder : PreOrder steady.
Proof. split; [by intros s|]. intros s1 s2 s3 [P1 I1] [P2 I2]. split; intros; congruence. Qed.

Lemma decided_steady st c s s' : steady s s' -> decided st c s' = decided st c s.
Proof. intros [_ Hi]. unfold decided. by rewrite Hi. Qed.

Lemma need_preimage_steady h n s : is_Some (preimage_currency h s) -> steady s (need_preimage h n s).
Proof.
  intros Hh. split; [|done]. intros h'. unfold need_preimage, preimage_currency in *. simpl. destruct (decide (h' = h)) as [->|Hne].
  - rewrite lookup_insert_eq. destruct (preimages s !! h) as [[]|]; [|done|]; by destruct Hh.
  - by rewrite lookup_insert_ne by congruence.
Qed.

Lemma bake_one n i st s c :
  delay st <> 0 -> preimage_currency (proposal_hash st) s = Some c ->
  exists s', bake_referendum (X:=X) decode_proposal dispatch_root n i st s = (Ok (decided st c s), s')
    /\ referendum_info s' = referendum_info s /\ steady s s'.
Proof.
  intros Hdelay Hc. unfold bake_referendum, bind, get, ok_or. rewrite Hc. unfold decided. simpl.
  destruct (approved_by _ _ _); simpl; [|by eexists]. rewrite (proj2 (Z.eqb_neq _ _) Hdelay). eexists. split_and!; [done|done|].
  etransitivity; [apply (need_preimage_steady (proposal_hash st) (wrap 32 (n + delay st))); by eexists|].
  split; [done|]. intros c'. simpl. apply schedule_issuance.
Qed.

Lemma bake_all n l : forall s,
  NoDup l.*1 -> (forall i st, (i, st) ∈ l -> delay st <> 0 /\ has_preimage st s) ->
  exists s', bake_maturing (X:=X) decode_proposal dispatch_root n l s = (Ok tt, s')
    /\ (forall i st, (i, st) ∈ l -> exists c, preimage_currency (proposal_hash st) s = Some c
          /\ referendum_info s' !! i = Some (Finished (decided st c s) n))
    /\ forall i, i ∉ l.*1 -> referendum_info s' !! i = referendum_info s !! i.
Proof.
  induction l as [|[i st] l IH]; intros s Hnd Hl; [by exists s; split_and!; [|intros ? ? ?%elem_of_nil|]|].
  apply NoDup_cons in Hnd as [Hi Hnd]. destruct (Hl i st) as [Hdelay [c Hc]]; [by left|].
  destruct (bake_one n i st s c Hdelay Hc) as (s1 & Hrun & Hinfo & Hst).
  set (s2 := set_referenda <[i := Finished (decided st c s) n]> s1). assert (steady s s2) as Hst2 by exact Hst.
  destruct (IH s2 Hnd) as (s' & Hrun' & Hdone & Hrest).
  { intros j st' Hj. destruct (Hl j st') as [? Hpre]; [by right|]. split; [done|]. unfold has_preimage. by rewrite (proj1 Hst2). }
  exists s'. split_and!.
  - unfold bake_maturing in *. simpl. unfold bind at 1 2. by rewrite Hrun.
  - intros j st' [Heq|Hj]%elem_of_cons.
    + injection Heq as -> ->. exists c. split; [done|]. rewrite Hrest by done. apply lookup_insert_eq.
    + destruct (Hdone j st' Hj) as (c' & Hc' & Hfin). exists c'. rewrite <- (proj1 Hst2). split; [done|].
      by rewrite Hfin, (decided_steady _ _ s).
  - intros j Hj. simpl in Hj. rewrite Hrest by set_solver. simpl. rewrite lookup_insert_ne by set_solver. by rewrite Hinfo.
Qed.

(** ** Tabling at the beginning of the block *)

Definition still (s s' : St) : Prop :=
  steady s s' /\ lowest_unbaked s' = lowest_unbaked s /\ referendum_info s' = referendum_info s /\ referendum_count s' = referendum_count s.

(** A new referendum, which ends a voting period later. *)
Definition tabled (n : Z) (s s' : St) : Prop :=
  steady s s' /\ lowest_unbaked s' = lowest_unbaked s
  /\ exists st, ref_end st = wrap 32 (n + VotingPeriod cfg)
    /\ referendum_info s' = <[referendum_count s := Ongoing st]> (referendum_info s)
    /\ referendum_count s' = wrap 32 (referendum_count s + 1).

Definition tables (n : Z) (m : Run unit) : Prop :=
  forall s, exists s', (m s = (Ok tt, s') /\ (still s s' \/ tabled n s s')) \/ (exists e, m s = (Err e, s')) /\ still s s'.

Lemma still_refl s : still s s.
Proof. by split_and!. Qed.

Lemma still_trans s1 s2 s3 : still s1 s2 -> still s2 s3 -> still s1 s3.
Proof. intros (S1 & L1 & I1 & C1) (S2 & L2 & I2 & C2). split_and!; [by etransitivity|congruence..]. Qed.

Lemma still_tabled n s1 s2 s3 : still s1 s2 -> tabled n s2 s3 -> tabled n s1 s3.
Proof.
  intros (S1 & L1 & I1 & C1) (S2 & L2 & st & E & I2 & C2). split_and!; [by etransitivity|congruence|].
  exists st. rewrite <- C1, <- I1. done.
Qed.

Lemma tables_external n : tables n (launch_external cfg n).
Proof.
  intros s. unfold launch_external, bind, gets. destruct (next_external s) as [[h t]|]; simpl.
  - eexists. left. split; [done|]. right. split_and!; [by split|done|]. by eexists (MkReferendum _ _ _ _ _).
  - exists s. right. split; [by eexists|]. apply still_refl.
Qed.

Lemma unreserve_all_issuance c d l c' :
  forall ch : L, dc_total_issuance c' (fold_left (fun l (who : A) => dc_unreserve c who d l) l ch) = dc_total_issuance c' ch.
Proof. induction l as [|who l IH]; intros ch; simpl; [done|]. by rewrite IH, unreserve_issuance. Qed.

Lemma tables_public n : tables n (launch_public cfg backing_for n).
Proof.
  intros s. unfold launch_public, bind, get. destruct (max_by_key _ 0 (public_props s)) as [[w [[i h] who]]|]; simpl.
  - destruct (deposit_of s !! i) as [[[depositors c] d]|]; simpl.
    + eexists. left. split; [done|]. right. split_and!; [|done|by eexists (MkReferendum _ _ _ _ _)].
      split; [done|]. intros c'. simpl. apply unreserve_all_issuance.
    + eexists. left. split; [done|]. left. by split_and!.
  - exists s. right. split; [by eexists|]. apply still_refl.
Qed.

Lemma tables_or_else n m k : tables n m -> tables n k -> tables n (or_else m k).
Proof.
  intros Hm Hk s. destruct (Hm s) as [s1 [[Hr Hs]|[[e Hr] Hs]]]; unfold or_else, bind, try_run; rewrite Hr.
  - exists s1. by left.
  - destruct (Hk s1) as [s2 [[Hr2 [Hs2|Hs2]]|[[e2 Hr2] Hs2]]]; exists s2; rewrite Hr2.
    + left. split; [done|]. left. by eapply still_trans.
    + left. split; [done|]. right. by eapply still_tabled.
    + right. split; [by eexists|by eapply still_trans].
Qed.

Lemma tables_fail n e : tables n (fail e).
Proof. intros s. exists s. right. split; [by eexists|apply still_refl]. Qed.

Lemma tabling n s :
  exists s', (when! n mod LaunchPeriod cfg =? 0 then let! _ := try_run (launch_next cfg backing_for n) in ret tt) s
      = (@Ok (DemocracyError + X) unit tt, s') /\ (still s s' \/ tabled n s s').
Proof.
  destruct (n mod LaunchPeriod cfg =? 0); [|exists s; split; [done|left; apply still_refl]].
  assert (tables n (launch_next cfg backing_for n)) as Ht.
  { intros s1. unfold launch_next, bind at 1 2, gets, modify. set (s2 := set_last_external false s1).
    assert (still s1 s2) as H2 by (by split_and!).
    match goal with |- context [or_else ?a ?b s2] => assert (tables n (or_else a b)) as Ht end.
    { apply tables_or_else; [|apply tables_fail]. destruct (last_tabled_was_external s1);
        apply tables_or_else; auto using tables_external, tables_public. }
    destruct (Ht s2) as [s3 [[Hr [Hs|Hs]]|[Hr Hs]]]; exists s3.
    - left. split; [done|]. left. by eapply still_trans.
    - left. split; [done|]. right. by eapply still_tabled.
    - right. split; [done|]. by eapply still_trans. }
  destruct (Ht s) as [s1 [[Hr Hs]|[[e Hr] Hs]]]; exists s1; unfold bind, try_run; rewrite Hr; auto.
Qed.

Lemma maturing_after_tabling n s s1 :
  still s s1 \/ tabled n s s1 -> wrap 32 (n + VotingPeriod cfg) <> n -> 0 <= referendum_count s < umax 32 ->
  steady s s1 /\ forall i st, (i, st) ∈ maturing_referenda_at n s1 <-> (i, st) ∈ maturing_referenda_at n s.
Proof.
  intros Hs Hn Hc. split; [destruct Hs as [Hs|Hs]; apply Hs|]. intros i st. rewrite !maturing_spec.
  destruct Hs as [(_ & -> & -> & ->)|(_ & -> & st1 & Hend & -> & ->)]; [done|].
  rewrite wrap_exact by (unfold in_uint; lia). destruct (decide (i = referendum_count s)) as [->|Hne].
  - rewrite lookup_insert_eq. split; intros ([? ?] & Heq & Hst); [|lia]. injection Heq as ->. congruence.
  - rewrite lookup_insert_ne by congruence. split; intros ([? ?] & ? & ?); (split_and!; [lia|lia|done|done]).
Qed.

(** C13: the hook of the block in which referenda end decides all of them, by their tally and
    the issuance of the currency of the preimage, if each has its preimage and a delay of at
    least one block before its enactment. (A referendum without delay is enacted on the
    spot, which uses its preimage up: see [enactment_on_the_spot_stops_the_block].) The
    launch period is not zero, and the voting period does not wrap around to this block. *)
Theorem ended_referenda_are_decided n s :
  LaunchPeriod cfg <> 0 -> wrap 32 (n + VotingPeriod cfg) <> n -> 0 <= referendum_count s < umax 32 ->
  (forall i st, (i, st) ∈ maturing_referenda_at n s -> delay st <> 0 /\ has_preimage st s) ->
  exists s', on_initialize (X:=X) cfg decode_proposal dispatch_root backing_for n s = (Ok tt, s')
    /\ forall i st, lowest_unbaked s <= i < referendum_count s -> referendum_info s !! i = Some (Ongoing st) -> ref_end st = n ->
        exists c, preimage_currency (proposal_hash st) s = Some c
          /\ referendum_info s' !! i = Some (Finished (decided st c s) n).
Proof.
  intros Hp Hn Hc Hready. destruct (tabling n s) as (s1 & Ht & Hs).
  destruct (maturing_after_tabling n s s1 Hs Hn Hc) as [Hst Hmat].
  destruct (bake_all n (maturing_referenda_at n s1) s1) as (s' & Hrun & Hdone & _); [apply maturing_nodup| |].
  { intros i st Hin. apply Hmat, Hready in Hin as [? ?]. split; [done|]. unfold has_preimage. by rewrite (proj1 Hst). }
  exists s'. split.
  - unfold on_initialize, bind at 1, try_run, begin_block. rewrite (proj2 (Z.eqb_neq _ _) Hp).
    unfold bind at 1. rewrite Ht. unfold bind at 1, gets. by rewrite Hrun.
  - intros i st Hi E Hend. assert ((i, st) ∈ maturing_referenda_at n s) as Hin by (by apply maturing_spec).
    destruct (Hdone i st) as (c & Hcur & Hfin); [by apply Hmat|]. exists c. rewrite <- (proj1 Hst). split; [done|].
    by rewrite Hfin, (decided_steady _ _ s).
Qed.

Lemma omap_agree {B E : Type} (f g : B -> option E) (l : list B) : Forall (fun x => f x = g x) l -> omap f l = omap g l.
Proof.
  induction 1 as [|x l Hx _ IH]; [done|].
  change (match f x with Some y => y :: omap f l | None => omap f l end = match g x with Some y => y :: omap g l | None => omap g l end).
  by rewrite Hx, IH.
Qed.

Lemma maturing_list_after_tabling n s s1 :
  still s s1 \/ tabled n s s1 -> wrap 32 (n + VotingPeriod cfg) <> n -> 0 <= referendum_count s < umax 32 ->
  lowest_unbaked s <= referendum_count s -> maturing_referenda_at n s1 = maturing_referenda_at n s.
Proof.
  intros Hs Hn Hc Hlow. unfold maturing_referenda_at, maturing_referenda_at_inner, referendum_status.
  destruct Hs as [(_ & -> & -> & ->)|(_ & -> & st1 & Hend & -> & ->)]; [done|].
  rewrite wrap_exact by (unfold in_uint; lia).
  replace (referendum_count s + 1 - lowest_unbaked s) with ((referendum_count s - lowest_unbaked s) + 1) by lia.
  rewrite seqZ_app, omap_app by lia. replace (lowest_unbaked s + (referendum_count s - lowest_unbaked s)) with (referendum_count s) by lia.
  simpl. rewrite lookup_insert_eq. simpl. rewrite Hend, (proj2 (Z.eqb_neq _ _) Hn), app_nil_r.
  apply omap_agree, Forall_seqZ. intros i Hi. by rewrite lookup_insert_ne by lia.
Qed.

(** A referendum without its preimage is not decided, and neither is any that comes after it
    in the block: they stay as they are. No later block looks at them again, since a block
    decides what ends in it. *)
Theorem missing_preimage_stops_the_block n s i st l :
  LaunchPeriod cfg <> 0 -> wrap 32 (n + VotingPeriod cfg) <> n -> 0 <= referendum_count s < umax 32 ->
  lowest_unbaked s <= referendum_count s ->
  maturing_referenda_at n s = (i, st) :: l -> preimage_currency (proposal_hash st) s = None ->
  exists s', on_initialize (X:=X) cfg decode_proposal dispatch_root backing_for n s = (Ok tt, s')
    /\ forall j, j <> referendum_count s -> referendum_info s' !! j = referendum_info s !! j.
Proof.
  intros Hp Hn Hc Hlow Hmat Hnone. destruct (tabling n s) as (s1 & Ht & Hs). exists s1.
  pose proof (maturing_list_after_tabling n s s1 Hs Hn Hc Hlow) as Hmat1. rewrite Hmat in Hmat1.
  destruct (maturing_after_tabling n s s1 Hs Hn Hc) as [[Hpre _] _]. split.
  - unfold on_initialize, bind at 1, try_run, begin_block. rewrite (proj2 (Z.eqb_neq _ _) Hp).
    unfold bind at 1. rewrite Ht. unfold bind at 1, gets. rewrite Hmat1. unfold bake_maturing. simpl.
    unfold bake_referendum, bind, get, ok_or. by rewrite Hpre, Hnone.
  - intros j Hj. destruct Hs as [(_ & _ & -> & _)|(_ & _ & st1 & _ & -> & _)]; [done|]. by rewrite lookup_insert_ne by congruence.
Qed.

(** A later block does not look at what has ended. *)
Lemma overdue_is_not_maturing n (s : St) i st :
  referendum_info s !! i = Some (Ongoing st) -> ref_end st <> n -> i ∉ (maturing_referenda_at n s).*1.
Proof.
  intros Hi Hn Hin. apply list_elem_of_fmap in Hin as ([j st'] & -> & Hin). apply maturing_spec in Hin as (_ & E & Hend).
  simpl in Hi. congruence.
Qed.

End Endings.

(** * A small electorate

    Votes with convictions, delegations and tallies of 128 bits that saturate as those of
    [pallet_democracy] do, on a chain that keeps locks: the witnesses of the theorems on
    democracy, and runs that show where the pallet does not do what its documentation says. *)

(** ** Votes *)

Inductive AccountVote : Type :=
| Standard (aye : bool) (conviction balance : N)
| Split (aye nay : N).

Definition most : N := Z.to_N (umax 128).

Lemma most_is : Z.of_N most = umax 128.
Proof. unfold most. rewrite Z2N.id; [done|]. apply umax_nonneg. lia. Qed.

Definition conviction_of (c balance : N) : N * N :=
  (if (c =? 0)%N then (balance / 10)%N else N.min (balance * c) most, balance).

(** The number of enactment periods a conviction locks for. *)
Definition periods (c : N) : Z := if (c =? 0)%N then 0 else 2 ^ (Z.of_N c - 1).

(** What a vote adds to ayes, nays and turnout. *)
Definition ballot (k : Component) (v : AccountVote) : Z :=
  match v, k with
  | Standard aye c b, Ayes => if aye then Z.of_N (conviction_of c b).1 else 0
  | Standard aye c b, Nays => if aye then 0 else Z.of_N (conviction_of c b).1
  | Standard _ _ b, Turnout => Z.of_N b
  | Split a n, Ayes => Z.of_N a / 10
  | Split a n, Nays => Z.of_N n / 10
  | Split a n, Turnout => Z.of_N a + Z.of_N n
  end.

Definition power (k : Component) (aye : bool) (d : N * N) : Z :=
  match k with
  | Ayes => if aye then Z.of_N d.1 else 0
  | Nays => if aye then 0 else Z.of_N d.1
  | Turnout => Z.of_N d.2
  end.

(** Ayes, nays and turnout. *)
Definition Tally : Type := Z * Z * Z.

Definition number (k : Component) (t : Tally) : Z :=
  match k with Ayes => t.1.1 | Nays => t.1.2 | Turnout => t.2 end.

Definition on_tally (f : Component -> Z -> Z) (t : Tally) : Tally := (f Ayes t.1.1, f Nays t.1.2, f Turnout t.2).

Definition fits (p : Z -> bool) (t : Tally) : option Tally :=
  if p t.1.1 && p t.1.2 && p t.2 then Some t else None.

(** The greater of two locks in both respects. *)
Definition accumulate (prior : Z * Z) (until amount : Z) : Z * Z := (Z.max prior.1 until, Z.max prior.2 amount).

Definition without_expired (now : Z) (prior : Z * Z) : Z * Z := if prior.1 <=? now then (0, 0) else prior.

#[export] Instance small_votes : VoteTypes Z AccountVote N (N * N) Tally (Z * Z) := {|
  vote_balance v := match v with Standard _ _ b => Z.of_N b | Split a n => sat_add 128 (Z.of_N a) (Z.of_N n) end;
  as_standard v := match v with Standard aye _ _ => Some aye | Split _ _ => None end;
  locked_if v approved :=
    match v with
    | Standard aye c b => if (negb (c =? 0)%N && Bool.eqb aye approved)%bool then Some (periods c, Z.of_N b) else None
    | Split _ _ => None
    end;
  conviction_votes c b := conviction_of c (Z.to_N b);
  lock_periods := periods;
  deleg_default := (0%N, 0%N);
  deleg_add d e := (N.min (d.1 + e.1) most, N.min (d.2 + e.2) most);
  deleg_sub d e := ((d.1 - e.1)%N, (d.2 - e.2)%N);
  tally_default := (0, 0, 0);
  tally_add t v := fits (fun z => z <=? umax 128) (on_tally (fun k z => z + ballot k v) t);
  tally_remove t v := fits (fun z => 0 <=? z) (on_tally (fun k z => z - ballot k v) t);
  tally_increase t aye d := on_tally (fun k z => sat_add 128 z (power k aye d)) t;
  tally_reduce t aye d := on_tally (fun k z => sat_sub z (power k aye d)) t;
  prior_default := (0, 0);
  prior_accumulate := accumulate;
  rejig v now :=
    match v with
    | Direct votes d p => Direct votes d (without_expired now p)
    | Delegating b t c d p => Delegating b t c d (without_expired now p)
    end;
  locked_balance v :=
    match v with
    | Direct votes _ p => fold_left (fun m x => Z.max m (match x.2 with Standard _ _ b => Z.of_N b | Split a n => Z.of_N a + Z.of_N n end)) votes p.2
    | Delegating b _ _ _ p => Z.max b p.2
    end;
  approved_by t y electorate :=
    match t with
    | SimpleMajority => y.1.2 <? y.1.1
    | SuperMajorityApprove => y.1.2 * Z.sqrt electorate <? y.1.1 * Z.sqrt y.2
    | SuperMajorityAgainst => y.1.2 * Z.sqrt y.2 <? y.1.1 * Z.sqrt electorate
    end
|}.

Lemma fits_number p f t t' k : fits p (on_tally f t) = Some t' -> number k t' = f k (number k t).
Proof. unfold fits. destruct (_ && _ && _); [|done]. intros [= <-]. by destruct k. Qed.

#[export] Instance small_laws : VoteLaws Z AccountVote N (N * N) Tally (Z * Z).
Proof.
  refine {| tally_of := number; ballot_of := ballot; power_of := power |}.
  - intros k [aye c b|a n]; destruct k; simpl; try destruct aye; lia || (apply Z.div_pos; lia) || idtac.
  - intros k aye d. destruct k, aye; simpl; lia.
  - by intros [].
  - by intros [] [].
  - intros t v t' k Ht. by apply fits_number with (k := k) in Ht.
  - intros t v t' k Ht. by apply fits_number with (k := k) in Ht.
  - intros t aye d k Hfit. specialize (Hfit k). assert (number k (tally_increase t aye d) = sat_add 128 (number k t) (power k aye d)) as -> by (by destruct k).
    by apply sat_add_exact.
  - intros t aye d k Hfit. specialize (Hfit k). assert (number k (tally_reduce t aye d) = sat_sub (number k t) (power k aye d)) as -> by (by destruct k).
    by apply sat_sub_exact.
  - intros d e k aye Hfit. pose proof (Hfit Ayes true) as H1. pose proof (Hfit Turnout true) as H2. simpl in H1, H2.
    rewrite <- most_is in H1, H2. destruct k, aye; simpl; lia.
  - intros d e k aye Hle. pose proof (Hle Ayes true) as H1. pose proof (Hle Turnout true) as H2. simpl in H1, H2.
    destruct k, aye; simpl; lia.
  - intros [] n; by eexists.
Defined.

(** ** The chain *)

Record Chain : Type := MkChain {
  height : Z;
  free : gmap Z Z;
  locks : gmap Z Z;
  agenda : list (Z * Z * Z)
}.

Definition at_height (n : Z) (l : Chain) : Chain := MkChain n (free l) (locks l) (agenda l).
Definition with_free (f : gmap Z Z -> gmap Z Z) (l : Chain) : Chain := MkChain (height l) (f (free l)) (locks l) (agenda l).
Definition with_locks (f : gmap Z Z -> gmap Z Z) (l : Chain) : Chain := MkChain (height l) (free l) (f (locks l)) (agenda l).
Definition with_agenda (f : list (Z * Z * Z) -> list (Z * Z * Z)) (l : Chain) : Chain := MkChain (height l) (free l) (locks l) (f (agenda l)).

Definition amount_at (who : Z) (m : gmap Z Z) : Z := default 0 (m !! who).

Definition golden : CurrencyId := Token DNAR.
Definition silver : CurrencyId := Token DRAM.

#[export] Instance small_chain : DemocracyChain Chain unit Z Z := {|
  block_number := height;
  dc_reserve _ who v l :=
    if v <=? amount_at who (free l) then (Ok tt, with_free <[who := amount_at who (free l) - v]> l) else (Err tt, l);
  dc_unreserve _ who v l := with_free <[who := amount_at who (free l) + v]> l;
  dc_slash_reserved _ _ _ l := l;
  dc_repatriate_reserved _ _ who v l := with_free <[who := amount_at who (free l) + v]> l;
  dc_total_issuance c _ := if currency_eqb c golden then 10000 else 100;
  dc_free_balance who l := amount_at who (free l);
  extend_lock who v l := with_locks <[who := Z.max v (amount_at who (locks l))]> l;
  set_lock who v l := with_locks <[who := v]> l;
  remove_lock who l := with_locks (delete who) l;
  schedule_enactment n i h l := with_agenda (cons (n, i, h)) l;
  cancel_enactment i l := if existsb (fun x => x.1.2 =? i) (agenda l) then Some (with_agenda (List.filter (fun x => negb (x.1.2 =? i))) l) else None;
  hash_preimage := from_be
|}.

#[export] Instance small_chain_laws : DemocracyChainLaws Chain unit Z Z.
Proof. by split. Qed.

Definition config : Config := {|
  EnactmentPeriod := 10; LaunchPeriod := 5; VotingPeriod := 20; GovernanceCurrencyIds := [golden; silver];
  InstantAllowed := false; FastTrackVotingPeriod := 3; CooloffPeriod := 50; PreimageByteDeposit := 1;
  MaxVotes := 1; MaxProposals := 10
|}.

Abbreviation St := (State (L:=Chain) (A:=Z) (Hash:=Z) (V:=AccountVote) (C:=N) (D:=N * N) (T:=Tally) (R:=Z * Z)).
Abbreviation Run := (M St (DemocracyError + unit)).

(** A proposal is bytes. Those that begin with 8 vote for the account of the second byte,
    unless that would saturate; the others do nothing. *)
Definition decode (l : list Z) : option (list Z) := Some l.
Definition dispatch (p : list Z) (s : St) : bool * St :=
  match p with
  | [k; who] =>
      let r := vote config (Some who) 0 (Standard true 0 10) s in
      if (k =? 8) && has_room (view r.2) then (match r.1 with Ok _ => true | _ => false end, r.2) else (true, s)
  | _ => (true, s)
  end.
Definition backing (i : Z) (s : St) : option Z :=
  match deposit_of s !! i with Some (l, _, d) => Some (d * Z.of_nat (length l)) | None => None end.
Definition enough (c : CurrencyId) (v : Z) : bool := 10 <=? v.

Definition hook (n : Z) : Run unit := on_initialize config decode dispatch backing n.

Definition genesis : St :=
  build (MkState 0 [] ∅ ∅ 0 0 ∅ ∅ false None ∅ ∅ [] (MkChain 0 (list_to_map [(1, 100); (2, 100); (3, 100)]) ∅ [])).

Definition later (n : Z) (s : St) : St := set_chain (at_height n (chain s)) s.

Definition did (m : Run unit) (s : St) : St := (m s).2.

(** A preimage is noted and the proposal tabled at the fifth block. *)
Definition proposal : list Z := [7; 7].

Definition tabled_at_5 : St :=
  did (hook 5) (later 5 (did (external_propose_majority true (from_be proposal)) (did (note_preimage_inner config 1 golden proposal) genesis))).

(** One votes, one delegates, one splits. *)
Definition voted : St :=
  did (vote config (Some 3) 0 (Split 30 20))
    (did (delegate (Some 2) 1 0%N 50) (did (vote config (Some 1) 0 (Standard true 1 90)) tabled_at_5)).

(** Root enacts a proposal that votes for account 3. *)
Definition instruction : list Z := [8; 3].

Definition overruled : St :=
  did (enact_proposal decode dispatch true (from_be instruction) 1) (did (note_preimage_inner config 1 golden instruction) voted).

Abbreviation reach := (reachable config Z.ltb decode backing enough).

Section Reach.
Variable P : Votes Z AccountVote N (N * N) Tally (Z * Z) Z -> Prop.
Hypothesis roomy : forall vs, has_room vs = true -> P vs.

Lemma dispatch_serves : serves config Z.ltb decode enough P dispatch.
Proof.
  intros p s HP. destruct p as [|k [|who [|]]]; try by apply disp_others. unfold dispatch. cbv zeta.
  destruct (_ && _) eqn:E; [|by apply disp_others]. bool_inv. cbn [snd].
  eapply disp_call; [apply by_vote|apply surjective_pairing|by apply roomy].
Qed.

Lemma go (m : Run unit) s :
  reach P s -> called config Z.ltb decode backing enough dispatch m ->
  has_room (view s) = true -> ((0 <=? referendum_count s) && (referendum_count s + 1 <? umax 32)) = true -> has_room (view (did m s)) = true -> reach P (did m s).
Proof.
  intros Hr Hm Hroom Hone Hroom'. eapply after_call; [exact Hr|exact dispatch_serves|exact Hm|apply surjective_pairing| |by apply roomy].
  split; [by apply roomy|]. intros st. apply roomy. unfold has_room in *. bool_inv. apply andb_true_iff.
  split; [apply Z.ltb_lt|by apply Z.leb_le]. simpl in *.
  rewrite wrap_exact by (unfold in_uint; lia). lia.
Qed.

Lemma tabled_reachable : reach P tabled_at_5.
Proof.
  apply go; [|apply by_on_initialize|by vm_compute..].
  apply (after_others _ _ _ _ _ _ (did (external_propose_majority true (from_be proposal)) (did (note_preimage_inner config 1 golden proposal) genesis)));
    [|reflexivity].
  apply go; [|apply by_direct, by_external_propose_majority|by vm_compute..].
  apply go; [|apply by_direct, by_note_preimage|by vm_compute..].
  by apply at_genesis.
Qed.

Lemma overruled_reachable : reach P overruled.
Proof.
  apply go; [|apply by_enact_proposal|by vm_compute..].
  apply go; [|apply by_direct, by_note_preimage|by vm_compute..].
  apply go; [|apply by_direct, by_vote|by vm_compute..].
  apply go; [|apply by_direct, by_delegate|by vm_compute..].
  apply go; [|apply by_direct, by_vote|by vm_compute..].
  exact tabled_reachable.
Qed.

End Reach.

Lemma votes_stay_sorted_witness :
  reach everywhere overruled /\ voting_of overruled 3 = Direct [(0, Standard true 0 10)] (0%N, 0%N) (0, 0)
  /\ voting_wf config 3 (voting_of overruled 3).
Proof.
  assert (reach everywhere overruled) as Hr by (by apply overruled_reachable). split; [exact Hr|]. split; [by vm_compute|].
  exact (votes_stay_sorted config Z.ltb decode backing enough overruled 3 ltac:(done) Hr).
Defined.

(** 90 with conviction, and without it 50 delegated and the 10 of the proposal, for a tenth
    each; the turnout is what they amount to. *)
Lemma tallies_are_sums_witness :
  (exists st, referendum_info overruled !! 0 = Some (Ongoing st) /\ tally st = (90 + 5 + 1, 0, 90 + 50 + 10)
     /\ forall k, tally_of k (tally st) = tally_due k 0 (votings overruled))
  /\ power_of Turnout true (delegations_of (voting_of overruled 1)) = 50.
Proof.
  destruct (tallies_are_sums config Z.ltb decode backing enough overruled ltac:(done)
    (overruled_reachable room has_room_ok)) as [Ht _].
  split; [|by vm_compute]. eexists. split; [by vm_compute|]. split; [by vm_compute|].
  intros k. apply Ht. by vm_compute.
Defined.

(** ** Ends *)

Definition due : St := later 25 voted.

Definition decided_at_25 : St := did (hook 25) due.

Lemma ended_referenda_are_decided_witness :
  maturing_referenda_at 25 due <> []
  /\ exists s', hook 25 due = (Ok tt, s') /\ referendum_info s' !! 0 = Some (Finished true 25).
Proof.
  assert (maturing_referenda_at 25 due = [(0, MkReferendum 25 1799 SimpleMajority 10 (98, 2, 190))]) as Hmat by (by vm_compute).
  split; [by rewrite Hmat|].
  destruct (ended_referenda_are_decided (X:=unit) config decode dispatch backing 25 due) as (s' & Hrun & Hdone).
  - done.
  - by vm_compute.
  - split; [by vm_compute|apply Z.ltb_lt; by vm_compute].
  - intros i st. rewrite Hmat. intros [= -> ->]%list_elem_of_singleton. split; [done|]. exists golden. by vm_compute.
  - exists s'. split; [exact Hrun|].
    destruct (Hdone 0 (MkReferendum 25 1799 SimpleMajority 10 (98, 2, 190))) as (c & _ & ->); [|by vm_compute|done|].
    + split; [apply Z.leb_le|apply Z.ltb_lt]; by vm_compute.
    + done.
Defined.

(** The same referendum without its preimage: the block decides nothing, and the referendum
    is still there when its time is over. *)
Definition unnoted : St := set_preimages (fun _ => ∅) due.

Lemma missing_preimage_stops_the_block_witness :
  exists s', hook 25 unnoted = (Ok tt, s') /\ exists st, referendum_info s' !! 0 = Some (Ongoing st) /\ ref_end st = 25.
Proof.
  destruct (missing_preimage_stops_the_block (X:=unit) config decode dispatch backing 25 unnoted 0
    (MkReferendum 25 1799 SimpleMajority 10 (98, 2, 190)) []) as (s' & Hrun & Hrest).
  - done.
  - by vm_compute.
  - split; [by vm_compute|apply Z.ltb_lt; by vm_compute].
  - apply Z.leb_le. by vm_compute.
  - by vm_compute.
  - by vm_compute.
  - exists s'. split; [exact Hrun|]. rewrite Hrest; [|by vm_compute]. eexists. split; by vm_compute.
Defined.

(** Much later it can still be voted on. *)
Example overdue_referendum_takes_votes :
  (vote config (Some 2) 0 (Standard false 0 10) (later 1000 (did (undelegate config (Some 2)) (did (hook 26) (later 26 (did (hook 25) unnoted)))))).1
  = Ok tt.
Proof. by vm_compute. Qed.

(** Two referenda on one proposal that is to be enacted at once: the first is decided and uses
    the preimage up, the second finds none and stays as it is. *)
Definition tracked (s : St) : St :=
  did (fast_track config true true 1799 20 0) (did (external_propose_majority true 1799) s).

Definition twice : St :=
  did (vote config (Some 1) 1 (Standard true 1 90)) (did (vote config (Some 1) 0 (Standard true 1 90))
    (tracked (tracked (later 5 (did (note_preimage_inner config 1 golden proposal) genesis))))).

Example enactment_on_the_spot_stops_the_block :
  let before := later 25 twice in
  preimage_currency 1799 before = Some golden
  /\ map (fun x => (x.1, ref_end x.2, delay x.2)) (maturing_referenda_at 25 before) = [(0, 25, 0); (1, 25, 0)]
  /\ referendum_info (did (hook 25) before) !! 0 = Some (Finished true 25)
  /\ referendum_info (did (hook 25) before) !! 1 = referendum_info before !! 1
  /\ is_Some (referendum_status 1 before).
Proof. vm_compute. repeat split. by eexists. Qed.

(** Nobody can reap the preimage of what has passed before its enactment is over. *)
Lemma vote_height who i v (s : St) : height (chain (vote config who i v s).2) = height (chain s).
Proof.
  set (same := fun s s' : St => height (chain s') = height (chain s)).
  assert (PreOrder same) as Hpre by (split; [done|intros s1 s2 s3; unfold same; congruence]).
  assert (moves same (vote config who i v)) as Hm; [|by eapply Hm, surjective_pairing].
  unfold vote, try_vote. repeat first [moves_step | apply moves_modify; by intros ?].
Qed.

Lemma dispatch_spares h e p (s : St) : spared config Z.ltb decode enough h e s (dispatch p s).2.
Proof.
  destruct p as [|k [|who [|]]]; try by apply spared_others. unfold dispatch. cbv zeta.
  destruct (_ && _) eqn:E; [|by apply spared_others]. cbn [snd].
  eapply spared_call; [apply by_vote|apply surjective_pairing|apply vote_height].
Qed.

(** In the block before the enactment root enacts another proposal, which votes. *)
Lemma needed_preimage_is_kept_witness :
  let before := did (note_preimage_inner config 1 golden instruction) (later 34 decided_at_25) in
  preimages (did (enact_proposal decode dispatch true (from_be instruction) 1) before) !! 1799
  = Some (Available proposal 1 golden 2 0 (Some 35)).
Proof.
  refine (needed_preimage_is_kept config Z.ltb decode backing enough dispatch
    (enact_proposal decode dispatch true (from_be instruction) 1) _ _ _ 1799 proposal 1 golden 2 0 35
    (fun p s _ => dispatch_spares 1799 35 p s) _ (surjective_pairing _) _ _).
  - apply pass_enact. by right.
  - by vm_compute.
  - by vm_compute.
Defined.

(** Root can enact the proposal itself before its time. *)
Example root_enacts_early :
  let before := later 30 decided_at_25 in
  preimages (did (enact_proposal decode dispatch true 1799 0) before) !! 1799 = None.
Proof. by vm_compute. Qed.

(** ** Where the documentation says otherwise *)

(** [MaxVotes] is one; both votes are taken. *)
Example one_vote_more_than_the_maximum :
  let two := did (hook 10) (later 10 (did (external_propose_majority true 5) tabled_at_5)) in
  let r := vote config (Some 1) 1 (Standard true 0 10) (did (vote config (Some 1) 0 (Standard true 0 10)) two) in
  r.1 = Ok tt /\ voting_of r.2 1 = Direct [(0, Standard true 0 10); (1, Standard true 0 10)] (0%N, 0%N) (0, 0).
Proof. by vm_compute. Qed.

(** A delegation with conviction locks 90 for ten blocks times its periods, when it ends. One
    that is replaced leaves no lock behind. *)
Example redelegation_forgets_the_lock :
  let delegated := did (delegate (Some 2) 1 6%N 90) genesis in
  let ended := did (unlock (Some 2) 2) (did (undelegate config (Some 2)) delegated) in
  let replaced := did (unlock (Some 2) 2) (did (undelegate config (Some 2)) (did (delegate (Some 2) 1 0%N 1) delegated)) in
  amount_at 2 (locks (chain ended)) = 90 /\ amount_at 2 (locks (chain replaced)) = 0.
Proof. by vm_compute. Qed.

(** A proposal that is blacklisted forever may be proposed again after it was vetoed. *)
Example veto_lifts_the_blacklist :
  let forever := did (blacklist true 5 None) genesis in
  let vetoed := did (veto_external config Z.ltb (Some 1) 5) (did (external_propose_majority true 5) forever) in
  (external_propose true 5 (later 50 forever)).1 = Err (inl ProposalBlacklisted)
  /\ (external_propose true 5 (later 50 vetoed)).1 = Ok tt.
Proof. by vm_compute. Qed.

(** Whoever notes the preimage chooses the electorate by the currency of the deposit. *)
Example electorate_of_the_depositor :
  let tally := (98, 100, 198) in
  let st := MkReferendum 25 1799 SuperMajorityApprove 10 tally in
  let noted c := did (note_preimage_inner config 1 c proposal) genesis in
  (bake_referendum decode dispatch 25 0 st (noted golden)).1 = Ok false
  /\ (bake_referendum decode dispatch 25 0 st (noted silver)).1 = Ok true.
Proof. by vm_compute. Qed.

(** Proposals that are cleared keep the deposits of their backers; cancelling them afterwards
    slashes them. *)
Example cleared_proposals_keep_deposits :
  let proposed := did (propose config enough (Some 1) 5 golden 10) genesis in
  let cleared := did (clear_public_proposals true) proposed in
  public_props cleared = [] /\ deposit_of cleared !! 0 = Some ([1], golden, 10).
Proof. by vm_compute. Qed.
