(* ===== verification/PrecompileInput.v ===== *)
(** * What a precompiled contract reads of its input

    [runtime/common/src/precompile/input.rs] and the helpers that write outputs: an input is
    a length word, a function selector and words of thirty-two bytes; every parameter is a
    range of it. Indices are of the width of [usize], which is thirty-two bits where the
    runtime is compiled to Wasm. *)

From Stdlib Require Import String.
From S2P Require Import Prelude Currency EvmManager EvmMeter Evm EvmRunner EvmBridge.

(** [support::CurrencyIdMapping], as far as the contracts use it. *)
Class CurrencyIdMapping (L : Type) : Type := {
  cm_name : CurrencyId -> L -> option bytes;
  cm_symbol : CurrencyId -> L -> option bytes;
  cm_decimals : CurrencyId -> L -> option Z;
  cm_decode_evm_address : H160 -> L -> option CurrencyId
}.

(** [EvmManager] implements it. *)
Definition manager_mapping {L : Type} (erc20_map : L -> gmap Z Erc20Info) : CurrencyIdMapping L := {|
  cm_name c l := manager_name (erc20_map l) c;
  cm_symbol c l := manager_symbol (erc20_map l) c;
  cm_decimals c l := manager_decimals (erc20_map l) c;
  cm_decode_evm_address a l := decode_evm_address (erc20_map l) a
|}.

Definition INPUT_BYTES_LENGTH : Z := 32.
Definition FUNCTION_SELECTOR_LENGTH : Z := 4.
Definition PER_PARAM_BYTES : Z := 32.
Definition ACTION_INDEX : Z := 0.

Definition BALANCE_BYTES : Z := 16.
Definition AMOUNT_BYTES : Z := 16.
Definition U64_BYTES : Z := 8.
Definition U32_BYTES : Z := 4.

Definition invalid {A : Type} (s : string) : outcome ExitError A := Err (OtherError s).

Section Input.
Context {L A : Type} `{!AddressMapping L A} `{!CurrencyIdMapping L}.
(** The width of [usize]. *)
Variable usize : Z.
Variable content : bytes.

(** Where a parameter begins and ends. *)
Definition param_range (n : Z) (len : option Z) : Z * Z :=
  if n =? ACTION_INDEX then (INPUT_BYTES_LENGTH, wrap usize (INPUT_BYTES_LENGTH + FUNCTION_SELECTOR_LENGTH))
  else
    let start := wrap usize (INPUT_BYTES_LENGTH + FUNCTION_SELECTOR_LENGTH + wrap usize (PER_PARAM_BYTES * (n - 1))) in
    (start, wrap usize (start + default PER_PARAM_BYTES len)).

Definition nth_param (n : Z) (len : option Z) : outcome ExitError bytes :=
  let '(first, last) := param_range n len in
  do? oensure (last <=? zlength content) (OtherError "invalid input") in
  slice_range content first last.

(** [u32::from_be_bytes] of four bytes, then the number of an action. *)
Definition action_at {Action : Type} (try_from : Z -> option Action) : outcome ExitError Action :=
  let? param := nth_param ACTION_INDEX None in
  ok_or_err (try_from (from_be param)) (OtherError "invalid action").

Definition evm_address_at (index : Z) : outcome ExitError H160 :=
  let? param := nth_param index None in
  Ok (from_be (drop 12 param)).

Definition account_id_at (index : Z) (l : L) : outcome ExitError A :=
  let? param := nth_param index None in
  Ok (get_account_id (from_be (drop 12 param)) l).

Definition currency_id_at (index : Z) (l : L) : outcome ExitError CurrencyId :=
  let? address := evm_address_at index in
  ok_or_err (cm_decode_evm_address address l) (OtherError "invalid currency id").

(** The last bytes of a word. *)
Definition last_bytes (n : Z) (param : bytes) : bytes := drop (Z.to_nat (PER_PARAM_BYTES - n)) param.

Definition balance_at (index : Z) : outcome ExitError Z :=
  let? param := nth_param index None in
  Ok (from_be (last_bytes BALANCE_BYTES param)).

Definition amount_at (index : Z) : outcome ExitError Z :=
  let? param := nth_param index None in
  Ok (to_signed 128 (from_be (last_bytes AMOUNT_BYTES param))).

Definition u64_at (index : Z) : outcome ExitError Z :=
  let? param := nth_param index None in
  Ok (from_be (last_bytes U64_BYTES param)).

Definition u32_at (index : Z) : outcome ExitError Z :=
  let? param := nth_param index None in
  Ok (from_be (last_bytes U32_BYTES param)).

Definition bytes_at (index len : Z) : outcome ExitError bytes := nth_param index (Some len).

(** The loop that reads a path of currencies, from the [i]th parameter on; the index is
    computed in thirty-two bits. *)
Fixpoint currency_ids_at (i : Z) (count : nat) (l : L) : outcome ExitError (list CurrencyId) :=
  match count with
  | O => Ok []
  | S count =>
      let? c := currency_id_at (wrap 32 i) l in
      let? path := currency_ids_at (i + 1) count l in
      Ok (c :: path)
  end.
End Input.

(** ** Outputs *)

(** [U256::from(v).to_big_endian]. *)
Definition word (v : Z) : bytes := be_bytes 32 v.

(** [U256::from_big_endian(b)], which holds at most thirty-two bytes. *)
Definition vec_u8_from_str (b : bytes) : outcome ExitError bytes :=
  let? v := u256_from_slice b in
  Ok (word v).
