(* ===== verification/Precompiles.v ===== *)
(** * The precompiled contracts

    [lib-serml/evm/evm/src/precompiles.rs] and [runtime/common/src/precompile/]: the
    contracts of Ethereum with their cost, and the ones that make calls of pallets available
    to system contracts: currencies, NFTs, the rent of contracts, prices, scheduled calls and
    the exchange; and who may call them. Cryptography, the scheduler, prices and NFTs are
    other crates; the rest is modelled in this development. *)

From Stdlib Require Import String.
From S2P Require Import Prelude Currency EvmManager EvmMeter Evm EvmRunner EvmBridge Currencies PrecompileInput.

(** What a contract answers: its output and the gas it costs. *)
Definition Answer : Type := ExitSucceed * bytes * Z.

Definition PrecompileRun (W : Type) : Type := bytes -> option Z -> Context -> M W ExitError Answer.

Definition returned (out : bytes) : Answer := (Returned, out, 0).

(** ** The contracts of Ethereum *)

Record PrecompileCrypto : Type := MkPrecompileCrypto {
  secp256k1_ecdsa_recover : bytes -> bytes -> option bytes;
  keccak_256 : bytes -> bytes;
  sha2_256 : bytes -> bytes;
  ripemd160_digest : bytes -> bytes;
  sha3_256 : bytes -> bytes;
  sha3_512 : bytes -> bytes
}.

Section Ethereum.
Variable usize : Z.
Variable crypto : PrecompileCrypto.

Definition ensure_linear_cost (target_gas : option Z) (len base word : Z) : outcome ExitError Z :=
  let? per_word := ok_or_err (checked_mul usize word (sat_add usize len 31 / 32)) OutOfGas in
  let? sum := ok_or_err (checked_add usize base per_word) OutOfGas in
  let cost := saturated_into 64 sum in
  match target_gas with
  | Some target_gas => if target_gas <? cost then Err OutOfGas else Ok cost
  | None => Ok cost
  end.

(** A contract that costs by the word of its input. *)
Definition linear (base word : Z) (f : bytes -> outcome ExitError bytes) (input : bytes) (target_gas : option Z) : outcome ExitError Answer :=
  let? cost := ensure_linear_cost target_gas (zlength input) base word in
  let? out := f input in
  Ok (Returned, out, cost).

Definition identity : bytes -> option Z -> outcome ExitError Answer := linear 15 3 Ok.

(** The input cut or filled with zeros to 128 bytes. *)
Definition padded_128 (i : bytes) : bytes := take 128 i ++ repeat 0 (128 - length i).

Definition recover (i : bytes) : outcome ExitError bytes :=
  let input := padded_128 i in
  let msg := take 32 input in
  let sig := slice 64 32 input ++ slice 96 32 input ++ slice 63 1 input in
  ok_or_err (secp256k1_ecdsa_recover crypto sig msg) (OtherError "Public key recover failed").

Definition ecrecover : bytes -> option Z -> outcome ExitError Answer :=
  linear 3000 0 (fun i => let? pubkey := recover i in Ok (repeat 0 12 ++ drop 12 (keccak_256 crypto pubkey))).

Definition ecrecover_public_key : bytes -> option Z -> outcome ExitError Answer := linear 3000 0 recover.

Definition ripemd160 : bytes -> option Z -> outcome ExitError Answer :=
  linear 600 120 (fun i => Ok (repeat 0 12 ++ ripemd160_digest crypto i)).

Definition sha256 : bytes -> option Z -> outcome ExitError Answer := linear 60 12 (fun i => Ok (sha2_256 crypto i)).

Definition sha3_fips256 : bytes -> option Z -> outcome ExitError Answer := linear 60 12 (fun i => Ok (sha3_256 crypto i)).

Definition sha3_fips512 : bytes -> option Z -> outcome ExitError Answer := linear 60 12 (fun i => Ok (sha3_512 crypto i)).

Definition evm_precompiles (address : H160) (input : bytes) (target_gas : option Z) : option (outcome ExitError Answer) :=
  if address =? 1 then Some (ecrecover input target_gas)
  else if address =? 2 then Some (sha256 input target_gas)
  else if address =? 3 then Some (ripemd160 input target_gas)
  else if address =? 4 then Some (identity input target_gas)
  else if address =? 128 then Some (ecrecover_public_key input target_gas)
  else if address =? 129 then Some (sha3_fips256 input target_gas)
  else if address =? 130 then Some (sha3_fips512 input target_gas)
  else None.
End Ethereum.

(** ** What the other contracts call *)

(** [DEXManager], without the limit on the impact of a price, which is always [None]. *)
Class DEXManager (L X A : Type) : Type := {
  dm_get_liquidity_pool : CurrencyId -> CurrencyId -> L -> Z * Z;
  dm_get_liquidity_token_address : CurrencyId -> CurrencyId -> L -> option H160;
  dm_get_swap_target_amount : list CurrencyId -> Z -> L -> option Z;
  dm_get_swap_supply_amount : list CurrencyId -> Z -> L -> option Z;
  dm_swap_with_exact_supply : A -> list CurrencyId -> Z -> Z -> M L X Z;
  dm_swap_with_exact_target : A -> list CurrencyId -> Z -> Z -> M L X Z;
  dm_add_liquidity : A -> CurrencyId -> CurrencyId -> Z -> Z -> Z -> bool -> M L X unit;
  dm_remove_liquidity : A -> CurrencyId -> CurrencyId -> Z -> Z -> Z -> bool -> M L X unit
}.

(** [orml_traits::NFT]. *)
Class NFT (L X A : Type) : Type := {
  nft_balance : A -> L -> Z;
  nft_owner : Z * Z -> L -> option A;
  nft_transfer : A -> A -> Z * Z -> M L X unit
}.

Class EVMStateRent (L X A : Type) : Type := {
  query_new_contract_extra_bytes : Z;
  query_storage_deposit_per_byte : Z;
  query_developer_deposit : Z;
  query_deployment_fee : Z;
  rent_query_maintainer : H160 -> L -> outcome X H160;
  rent_transfer_maintainer : A -> H160 -> H160 -> M L X unit
}.

(** The inner number of a price, 128 bits with eighteen decimals. *)
Class PriceProvider (L : Type) : Type := { get_price : CurrencyId -> L -> option Z }.

(** [EVM::scheduled_call]. *)
Record ScheduledCall : Type := MkScheduledCall {
  sc_from : H160;
  sc_target : H160;
  sc_input : bytes;
  sc_value : Z;
  sc_gas_limit : Z;
  sc_storage_limit : Z
}.

(** The scheduler, with calls named by bytes, and the fees of scheduled calls. *)
Class Scheduler (L X A : Type) : Type := {
  schedule_named : bytes -> Z -> ScheduledCall -> M L X unit;
  cancel_named : bytes -> M L X unit;
  reschedule_named : bytes -> Z -> M L X unit;
  sc_reserve_fee : A -> Z -> M L X Z;
  sc_unreserve_fee : A -> Z -> L -> L
}.

(** The name of a scheduled call, and its encoding. *)
Record TaskInfo : Type := MkTaskInfo {
  prefix : bytes;
  id : Z;
  sender : H160;
  task_fee : Z
}.

Record TaskCodec : Type := MkTaskCodec {
  task_encode : TaskInfo -> bytes;
  task_decode : bytes -> option TaskInfo
}.

(** ** The contracts that call pallets *)

(** [map_err(|e| ExitError::Other(e.into()))]. *)
Definition as_exit {L X B : Type} `{!DispatchErrorInto X} (m : M L X B) : M L ExitError B :=
  zoom (fun l => l) (fun l _ => l) (fun e => OtherError (dispatch_str e)) m.

(** [map_err(|_| ExitError::Other(s))]. *)
Definition as_error {L X B : Type} (s : string) (m : M L X B) : M L ExitError B :=
  zoom (fun l => l) (fun l _ => l) (fun _ => OtherError s) m.

Section Pallets.
Context {L X A : Type} `{!AddressMapping L A} `{!CurrencyIdMapping L} `{!DispatchErrorInto X}.
Variable usize : Z.

Abbreviation Run := (M L ExitError).

(** A parameter, in the state the call began in. *)
Definition param {B : Type} (f : L -> outcome ExitError B) : Run B := reads f.

Inductive CurrencyAction : Type := QueryName | QuerySymbol | QueryDecimals | QueryTotalIssuance | QueryCurrencyBalance | TransferCurrency.

Definition currency_action (n : Z) : option CurrencyAction :=
  if n =? 0x06fdde03 then Some QueryName
  else if n =? 0x95d89b41 then Some QuerySymbol
  else if n =? 0x313ce567 then Some QueryDecimals
  else if n =? 0x18160ddd then Some QueryTotalIssuance
  else if n =? 0x70a08231 then Some QueryCurrencyBalance
  else if n =? 0xbeabacc8 then Some TransferCurrency
  else None.

(** The currency is the one the calling contract stands for. *)
Definition multi_currency_execute `{!MultiCurrencies L X A} (input : bytes) (context : Context) : Run Answer :=
  let! action := param (fun _ => action_at usize input currency_action) in
  let! currency_id := param (fun l => ok_or_err (cm_decode_evm_address (caller context) l) (OtherError "invalid currency id")) in
  match action with
  | QueryName =>
      let! name := param (fun l => ok_or_err (cm_name currency_id l) (OtherError "Get name failed")) in
      let! out := param (fun _ => vec_u8_from_str name) in
      ret (returned out)
  | QuerySymbol =>
      let! symbol := param (fun l => ok_or_err (cm_symbol currency_id l) (OtherError "Get symbol failed")) in
      let! out := param (fun _ => vec_u8_from_str symbol) in
      ret (returned out)
  | QueryDecimals =>
      let! decimals := param (fun l => ok_or_err (cm_decimals currency_id l) (OtherError "Get decimals failed")) in
      ret (returned (word decimals))
  | QueryTotalIssuance =>
      let! total_issuance := as_exit (@bc_total_issuance _ _ _ (of_currency currency_id)) in
      ret (returned (word total_issuance))
  | QueryCurrencyBalance =>
      let! who := param (account_id_at usize input 1) in
      let! balance := as_exit (@bc_total_balance _ _ _ (of_currency currency_id) who) in
      ret (returned (word balance))
  | TransferCurrency =>
      let! from := param (account_id_at usize input 1) in
      let! to := param (account_id_at usize input 2) in
      let! amount := param (fun _ => balance_at usize input 3) in
      do! as_exit (@bc_transfer _ _ _ (of_currency currency_id) from to amount) in
      ret (returned [])
  end.

Inductive NFTAction : Type := QueryNFTBalance | QueryOwner | TransferNFT.

Definition nft_action (n : Z) : option NFTAction :=
  if n =? 0x70a08231 then Some QueryNFTBalance
  else if n =? 0xd9dad80d then Some QueryOwner
  else if n =? 0x411b252 then Some TransferNFT
  else None.

(** An address in the last twenty bytes of a word. *)
Definition address_word (a : H160) : bytes := repeat 0 12 ++ be_bytes 20 a.

Definition nft_execute `{!NFT L X A} (input : bytes) : Run Answer :=
  let! action := param (fun _ => action_at usize input nft_action) in
  match action with
  | QueryNFTBalance =>
      let! who := param (account_id_at usize input 1) in
      let! balance := gets (nft_balance who) in
      ret (returned (word balance))
  | QueryOwner =>
      let! class_id := param (fun _ => u32_at usize input 1) in
      let! token_id := param (fun _ => u64_at usize input 2) in
      let! owner := gets (fun l =>
        match nft_owner (class_id, token_id) l with
        | Some o => default (get_default_evm_address (L := L) o) (get_evm_address o l)
        | None => 0
        end) in
      ret (returned (address_word owner))
  | TransferNFT =>
      let! from := param (account_id_at usize input 1) in
      let! to := param (account_id_at usize input 2) in
      let! class_id := param (fun _ => u32_at usize input 3) in
      let! token_id := param (fun _ => u64_at usize input 4) in
      do! as_exit (nft_transfer from to (class_id, token_id)) in
      ret (returned [])
  end.

Inductive RentAction : Type :=
| QueryNewContractExtraBytes | QueryStorageDepositPerByte | QueryMaintainer | QueryDeveloperDeposit | QueryDeploymentFee | TransferMaintainer.

Definition rent_action (n : Z) : option RentAction :=
  if n =? 0xa23e8b82 then Some QueryNewContractExtraBytes
  else if n =? 0x6e043998 then Some QueryStorageDepositPerByte
  else if n =? 0x06ad1355 then Some QueryMaintainer
  else if n =? 0x68a18855 then Some QueryDeveloperDeposit
  else if n =? 0xf2cff57f then Some QueryDeploymentFee
  else if n =? 0xee0d2e12 then Some TransferMaintainer
  else None.

Definition state_rent_execute `{!EVMStateRent L X A} (input : bytes) : Run Answer :=
  let! action := param (fun _ => action_at usize input rent_action) in
  match action with
  | QueryNewContractExtraBytes => ret (returned (word query_new_contract_extra_bytes))
  | QueryStorageDepositPerByte => ret (returned (word query_storage_deposit_per_byte))
  | QueryMaintainer =>
      let! contract := param (fun _ => evm_address_at usize input 1) in
      let! maintainer := as_exit (reads (rent_query_maintainer contract)) in
      ret (returned (address_word maintainer))
  | QueryDeveloperDeposit => ret (returned (word query_developer_deposit))
  | QueryDeploymentFee => ret (returned (word query_deployment_fee))
  | TransferMaintainer =>
      let! from := param (account_id_at usize input 1) in
      let! contract := param (fun _ => evm_address_at usize input 2) in
      let! new_maintainer := param (fun _ => evm_address_at usize input 3) in
      do! as_exit (rent_transfer_maintainer from contract new_maintainer) in
      ret (returned [])
  end.
Definition oracle_action (n : Z) : option unit := if n =? 0x41976e09 then Some tt else None.

(** [10u128.checked_pow((18 - decimals).into())]; the difference of the [u8]s wraps. *)
Definition adjustment_multiplier (decimals : Z) : option Z :=
  let power := 10 ^ wrap 8 (18 - decimals) in
  if power <=? umax 128 then Some power else None.

(** [price.into_inner().wrapping_div(multiplier)]. *)
Definition vec_u8_from_price (price multiplier : Z) : outcome ExitError bytes :=
  if multiplier =? 0 then Panic else Ok (word (price / multiplier)).

Definition oracle_execute `{!PriceProvider L} (input : bytes) : Run Answer :=
  let! _ := param (fun _ => action_at usize input oracle_action) in
  let! currency_id := param (currency_id_at usize input 1) in
  let! price := gets (fun l => default 0 (get_price currency_id l)) in
  let! maybe_decimals := gets (cm_decimals currency_id) in
  let '(price, decimals) := match maybe_decimals with Some decimals => (price, decimals) | None => (0, 0) end in
  let '(price, multiplier) := match adjustment_multiplier decimals with Some m => (price, m) | None => (0, 0) end in
  let! out := param (fun _ => vec_u8_from_price price multiplier) in
  ret (returned out).

Inductive DexAction : Type :=
| GetLiquidityPool | GetLiquidityTokenAddress | GetSwapTargetAmount | GetSwapSupplyAmount
| SwapWithExactSupply | SwapWithExactTarget | AddLiquidity | RemoveLiquidity.

Definition dex_action (n : Z) : option DexAction :=
  if n =? 0xf4f31ede then Some GetLiquidityPool
  else if n =? 0xffd73c4a then Some GetLiquidityTokenAddress
  else if n =? 0x4d60beb1 then Some GetSwapTargetAmount
  else if n =? 0xdbcd19a2 then Some GetSwapSupplyAmount
  else if n =? 0x579baa18 then Some SwapWithExactSupply
  else if n =? 0x9782ac81 then Some SwapWithExactTarget
  else if n =? 0x67088D59 then Some AddLiquidity
  else if n =? 0x35315332 then Some RemoveLiquidity
  else None.

(** The length of a path, and the path behind it. *)
Definition path_at (input : bytes) (index : Z) : Run (list CurrencyId) :=
  let! path_len := param (fun _ => u32_at usize input index) in
  param (currency_ids_at usize input (index + 1) (Z.to_nat path_len)).

Definition dex_execute `{!DEXManager L X A} (input : bytes) : Run Answer :=
  let! action := param (fun _ => action_at usize input dex_action) in
  match action with
  | GetLiquidityPool =>
      let! currency_id_a := param (currency_id_at usize input 1) in
      let! currency_id_b := param (currency_id_at usize input 2) in
      let! (balance_a, balance_b) := gets (dm_get_liquidity_pool currency_id_a currency_id_b) in
      ret (returned (word balance_a ++ word balance_b))
  | GetLiquidityTokenAddress =>
      let! currency_id_a := param (currency_id_at usize input 1) in
      let! currency_id_b := param (currency_id_at usize input 2) in
      let! value := param (fun l => ok_or_err (dm_get_liquidity_token_address currency_id_a currency_id_b l)
                                      (OtherError "Dex get_liquidity_token_address failed")) in
      ret (returned (word value))
  | GetSwapTargetAmount =>
      let! supply_amount := param (fun _ => balance_at usize input 2) in
      let! path := path_at input 3 in
      let! value := param (fun l => ok_or_err (dm_get_swap_target_amount path supply_amount l)
                                      (OtherError "Dex get_swap_target_amount failed")) in
      ret (returned (word value))
  | GetSwapSupplyAmount =>
      let! target_amount := param (fun _ => balance_at usize input 2) in
      let! path := path_at input 3 in
      let! value := param (fun l => ok_or_err (dm_get_swap_supply_amount path target_amount l)
                                      (OtherError "Dex get_swap_supply_amount failed")) in
      ret (returned (word value))
  | SwapWithExactSupply =>
      let! who := param (account_id_at usize input 1) in
      let! supply_amount := param (fun _ => balance_at usize input 3) in
      let! min_target_amount := param (fun _ => balance_at usize input 4) in
      let! path := path_at input 5 in
      let! value := as_exit (dm_swap_with_exact_supply who path supply_amount min_target_amount) in
      ret (returned (word value))
  | SwapWithExactTarget =>
      let! who := param (account_id_at usize input 1) in
      let! target_amount := param (fun _ => balance_at usize input 3) in
      let! max_supply_amount := param (fun _ => balance_at usize input 4) in
      let! path := path_at input 5 in
      let! value := as_exit (dm_swap_with_exact_target who path target_amount max_supply_amount) in
      ret (returned (word value))
  | AddLiquidity =>
      let! who := param (account_id_at usize input 1) in
      let! currency_id_a := param (currency_id_at usize input 2) in
      let! currency_id_b := param (currency_id_at usize input 3) in
      let! max_amount_a := param (fun _ => balance_at usize input 4) in
      let! max_amount_b := param (fun _ => balance_at usize input 5) in
      let! min_share_increment := param (fun _ => balance_at usize input 6) in
      do! as_exit (dm_add_liquidity who currency_id_a currency_id_b max_amount_a max_amount_b min_share_increment false) in
      ret (returned [])
  | RemoveLiquidity =>
      let! who := param (account_id_at usize input 1) in
      let! currency_id_a := param (currency_id_at usize input 2) in
      let! currency_id_b := param (currency_id_at usize input 3) in
      let! remove_share := param (fun _ => balance_at usize input 4) in
      let! min_withdrawn_a := param (fun _ => balance_at usize input 5) in
      let! min_withdrawn_b := param (fun _ => balance_at usize input 6) in
      do! as_exit (dm_remove_liquidity who currency_id_a currency_id_b remove_share min_withdrawn_a min_withdrawn_b false) in
      ret (returned [])
  end.
End Pallets.

(** ** Scheduled calls *)

(** [EvmSchedulerNextID] is storage of its own. *)
Record ScheduleState (L : Type) : Type := MkScheduleState {
  scheduler_next_id : Z;
  sc_chain : L
}.

Arguments MkScheduleState {L}.
Arguments scheduler_next_id {L}.
Arguments sc_chain {L}.

Section Schedule.
Context {L X A : Type} `{!AddressMapping L A} `{!DispatchErrorInto X} `{!Scheduler L X A}.
Variable usize : Z.
Variable codec : TaskCodec.
Variable gas_to_weight : Z -> Z.

Abbreviation Run := (M (ScheduleState L) ExitError).

Definition set_next_id (n : Z) (s : ScheduleState L) : ScheduleState L := MkScheduleState n (sc_chain s).
Definition set_sc_chain (l : L) (s : ScheduleState L) : ScheduleState L := MkScheduleState (scheduler_next_id s) l.

Definition on_scheduler {B : Type} (m : M L ExitError B) : Run B := zoom sc_chain set_sc_chain (fun e => e) m.

Inductive ScheduleAction : Type := Schedule | Cancel | Reschedule.

Definition schedule_action (n : Z) : option ScheduleAction :=
  if n =? 0x64c91905 then Some Schedule
  else if n =? 0x93e32661 then Some Cancel
  else if n =? 0x28302f34 then Some Reschedule
  else None.

(** The bytes of [ScheduleCall]. *)
Definition schedule_prefix : bytes := string_bytes "ScheduleCall".

(** [task_id_with_len]: the length and the name, in ninety-six bytes. *)
Definition with_len (task_id : bytes) : outcome ExitError bytes :=
  if zlength task_id <=? 64 then Ok (word (zlength task_id) ++ task_id ++ repeat 0 (64 - length task_id)) else Panic.

(** The name of a scheduled call in the input, which its sender has to know. *)
Definition own_task_at (input : bytes) (from : H160) (index : Z) : Run (bytes * TaskInfo) :=
  let! task_id_len := reads (fun _ => u32_at usize input index) in
  let! task_id := reads (fun _ => bytes_at usize input (index + 1) (wrap usize task_id_len)) in
  let! task_info := ok_or (task_decode codec task_id) (OtherError "Decode task_id failed") in
  do! ensure (sender task_info =? from) (OtherError "NoPermission") in
  ret (task_id, task_info).

Definition schedule_execute (input : bytes) : Run Answer :=
  let! action := reads (fun _ => action_at usize input schedule_action) in
  match action with
  | Schedule =>
      let! from := reads (fun _ => evm_address_at usize input 1) in
      let! target := reads (fun _ => evm_address_at usize input 2) in
      let! value := reads (fun _ => balance_at usize input 3) in
      let! gas_limit := reads (fun _ => u64_at usize input 4) in
      let! storage_limit := reads (fun _ => u32_at usize input 5) in
      let! min_delay := reads (fun _ => u32_at usize input 6) in
      let! input_len := reads (fun _ => u32_at usize input 8) in
      let! input_data := reads (fun _ => bytes_at usize input 9 (wrap usize input_len)) in
      let! from_account := gets (fun s => get_account_id from (sc_chain s)) in
      let! fee := on_scheduler (as_exit (sc_reserve_fee from_account (gas_to_weight gas_limit))) in
      let! current_id := gets scheduler_next_id in
      let! next_id := ok_or (checked_add 32 current_id 1) (OtherError "Scheduler next id overflow") in
      do! modify (set_next_id next_id) in
      let task_id := task_encode codec (MkTaskInfo schedule_prefix current_id from fee) in
      do! on_scheduler (as_error "Schedule failed"
            (schedule_named task_id min_delay (MkScheduledCall from target input_data value gas_limit storage_limit))) in
      let! out := reads (fun _ => with_len task_id) in
      ret (returned out)
  | Cancel =>
      let! from := reads (fun _ => evm_address_at usize input 1) in
      let! (task_id, task_info) := own_task_at input from 3 in
      do! on_scheduler (as_error "Cancel schedule failed" (cancel_named task_id)) in
      let! from_account := gets (fun s => get_account_id from (sc_chain s)) in
      do! modify (fun s => set_sc_chain (sc_unreserve_fee from_account (task_fee task_info) (sc_chain s)) s) in
      ret (returned [])
  | Reschedule =>
      let! from := reads (fun _ => evm_address_at usize input 1) in
      let! min_delay := reads (fun _ => u32_at usize input 2) in
      let! (task_id, _) := own_task_at input from 4 in
      do! on_scheduler (as_exit (reschedule_named task_id min_delay)) in
      ret (returned [])
  end.
End Schedule.

(** ** All contracts, and who may call them *)

Definition PRECOMPILE_ADDRESS_START : Z := 0x400.

(** [starts_with(&SYSTEM_CONTRACT_ADDRESS_PREFIX)]. *)
Definition is_system_contract (a : H160) : bool := starts_with SYSTEM_CONTRACT_ADDRESS_PREFIX (be_bytes 20 a).

Definition is_setheum_precompile (a : H160) : bool := (PRECOMPILE_ADDRESS_START <=? a) && (a <? PREDEPLOY_ADDRESS_START).

(** [GasToWeight] of the runtimes. *)
Definition gas_to_weight_convert (a : Z) : Z := a.

Section All.
Context {W : Type}.
Variable evm : H160 -> bytes -> option Z -> option (outcome ExitError Answer).
Variable is_allowed : H160 -> bool.
Variables multi_currency nft state_rent oracle schedule_call dex : PrecompileRun W.

Definition run_precompile (m : M W ExitError Answer) (w : W) : option (outcome ExitError Answer) * W :=
  let '(r, w') := m w in (Some r, w').

Definition all_precompiles (address : H160) (input : bytes) (target_gas : option Z) (context : Context) (w : W) :
    option (outcome ExitError Answer) * W :=
  match evm address input target_gas with
  | Some r => (Some r, w)
  | None =>
      if is_setheum_precompile address && negb (is_allowed (caller context)) then (Some (Err (OtherError "no permission")), w)
      else if address =? PRECOMPILE_ADDRESS_START then run_precompile (multi_currency input target_gas context) w
      else if address =? PRECOMPILE_ADDRESS_START + 1 then run_precompile (nft input target_gas context) w
      else if address =? PRECOMPILE_ADDRESS_START + 2 then run_precompile (state_rent input target_gas context) w
      else if address =? PRECOMPILE_ADDRESS_START + 3 then run_precompile (oracle input target_gas context) w
      else if address =? PRECOMPILE_ADDRESS_START + 4 then run_precompile (schedule_call input target_gas context) w
      else if address =? PRECOMPILE_ADDRESS_START + 5 then run_precompile (dex input target_gas context) w
      else (None, w)
  end.
End All.
