(* ===== verification/PrecompileTheorems.v ===== *)
(** * The precompiled contracts: inputs, permissions, effects

    An input that encodes parameters is read back as those parameters; only system contracts
    reach the pallets; a swap through the EVM is the swap of the exchange; a scheduled call is
    cancelled by its sender, for the fee that was reserved; and where an input can make the
    runtime panic. *)

From Stdlib Require Import String.
From S2P Require Import Prelude Currency EvmManager EvmMeter Evm EvmRunner EvmBridge EvmBridgeTheorems Currencies PrecompileInput Precompiles.

(** ** Words *)

Lemma be_bytes_mod n v : be_bytes n (v mod 256 ^ Z.of_nat n) = be_bytes n v.
Proof.
  symmetry. rewrite (Z.div_mod v (256 ^ Z.of_nat n)) at 1 by (apply Z.pow_nonzero; lia).
  rewrite (Z.mul_comm (256 ^ _)). apply be_bytes_add.
Qed.

(** The last [n] of [m + n] bytes. *)
Lemma drop_be_bytes m n v : drop m (be_bytes (m + n) v) = be_bytes n v.
Proof. rewrite be_bytes_split, drop_app_length' by (by rewrite length_be_bytes). apply be_bytes_mod. Qed.

Lemma from_be_mod n v : from_be (be_bytes n v) = v mod 256 ^ Z.of_nat n.
Proof. rewrite <- be_bytes_mod. apply from_be_be_bytes, Z.mod_pos_bound, Z.pow_pos_nonneg; lia. Qed.

(** The number that the last bytes of a word stand for. *)
Lemma last_bytes_word n v : 0 <= n <= 32 -> from_be (last_bytes n (word v)) = v mod 2 ^ (8 * n).
Proof.
  intros Hn. unfold last_bytes, word, PER_PARAM_BYTES.
  replace 32%nat with (Z.to_nat (32 - n) + Z.to_nat n)%nat by lia. rewrite drop_be_bytes, from_be_mod.
  f_equal. rewrite Z.pow_mul_r by lia. f_equal. lia.
Qed.

(** ** An encoded input: a length, a selector, words and bytes *)

Definition abi_input (head : bytes) (selector : Z) (words : list Z) (tail : bytes) : bytes :=
  head ++ be_bytes 4 selector ++ concat (map word words) ++ tail.

Lemma length_words words : zlength (concat (map word words)) = 32 * Z.of_nat (length words).
Proof.
  induction words as [|w ws IH]; [done|]. cbn [map concat length]. rewrite zlength_app, IH. unfold word. rewrite zlength_be_bytes. lia.
Qed.

Lemma slice_words n words v rest :
  words !! n = Some v -> slice (32 * n) 32 (concat (map word words) ++ rest) = word v.
Proof.
  unfold slice. revert n. induction words as [|w ws IH]; intros n; [done|].
  cbn [map concat]. rewrite <- app_assoc. destruct n as [|n]; cbn [lookup list_lookup].
  - intros [= ->]. change (32 * 0)%nat with 0%nat. rewrite drop_0. apply take_app_length'. by unfold word; rewrite length_be_bytes.
  - intros Hn. replace (32 * S n)%nat with (length (word w) + 32 * n)%nat by (unfold word; rewrite length_be_bytes; lia).
    rewrite drop_app_add. by apply IH.
Qed.

Section Reading.
Variable usize : Z.
Variables (head : bytes) (selector : Z) (words : list Z) (tail : bytes).
Hypothesis length_head : zlength head = 32.
Hypothesis fits : 36 + 32 * Z.of_nat (length words) + zlength tail <= umax usize.

Abbreviation input := (abi_input head selector words tail).

Lemma length_input : zlength input = 36 + 32 * Z.of_nat (length words) + zlength tail /\ 0 <= zlength tail.
Proof. split; [|apply zlength_nonneg]. unfold abi_input. rewrite !zlength_app, length_head, zlength_be_bytes, length_words. lia. Qed.

Lemma action_bytes : nth_param usize input ACTION_INDEX None = Ok (be_bytes 4 selector).
Proof.
  unfold nth_param, param_range, ACTION_INDEX, INPUT_BYTES_LENGTH, FUNCTION_SELECTOR_LENGTH. rewrite Z.eqb_refl.
  pose proof length_input as [Hlen Htail]. rewrite wrap_exact by (unfold in_uint; lia). unfold oensure, obind.
  rewrite (proj2 (Z.leb_le _ _)) by lia. unfold slice_range. rewrite (proj2 (andb_true_iff _ _)); [|split; apply Z.leb_le; lia].
  f_equal. unfold slice, abi_input. replace (Z.to_nat 32) with (length head) by (unfold zlength in length_head; lia).
  rewrite drop_app_length. apply take_app_length'. by rewrite length_be_bytes.
Qed.

(** Where the words are, if the indices fit. *)
Lemma word_range n :
  36 + 32 * (Z.of_nat n + 1) <= umax usize ->
  param_range usize (Z.of_nat n + 1) None = (36 + 32 * Z.of_nat n, 36 + 32 * (Z.of_nat n + 1)).
Proof.
  intros Hfit. unfold param_range, ACTION_INDEX, INPUT_BYTES_LENGTH, FUNCTION_SELECTOR_LENGTH, PER_PARAM_BYTES.
  rewrite (proj2 (Z.eqb_neq _ _)) by lia. cbn [default]. replace (Z.of_nat n + 1 - 1) with (Z.of_nat n) by lia.
  rewrite (wrap_exact usize (32 * Z.of_nat n)) by (unfold in_uint; lia).
  rewrite (wrap_exact usize (32 + 4 + _)) by (unfold in_uint; lia).
  rewrite wrap_exact by (unfold in_uint; lia). f_equal; lia.
Qed.

Lemma param_word n v : words !! n = Some v -> nth_param usize input (Z.of_nat n + 1) None = Ok (word v).
Proof.
  intros Hn. apply lookup_lt_Some in Hn as Hlt. pose proof length_input as [Hlen Htail].
  unfold nth_param. rewrite word_range by lia. unfold oensure, obind.
  rewrite (proj2 (Z.leb_le _ _)) by lia. unfold slice_range. rewrite (proj2 (andb_true_iff _ _)); [|split; apply Z.leb_le; lia].
  f_equal. replace (Z.to_nat (36 + 32 * (Z.of_nat n + 1) - (36 + 32 * Z.of_nat n))) with 32%nat by lia.
  replace (Z.to_nat (36 + 32 * Z.of_nat n)) with (length (head ++ be_bytes 4 selector) + 32 * n)%nat
    by (rewrite length_app, length_be_bytes; unfold zlength in length_head; lia).
  unfold slice, abi_input. rewrite app_assoc, drop_app_add. by apply slice_words.
Qed.

Lemma param_missing n :
  32 * Z.of_nat (length words) + zlength tail < 32 * (Z.of_nat n + 1) -> 36 + 32 * (Z.of_nat n + 1) <= umax usize ->
  nth_param usize input (Z.of_nat n + 1) None = invalid "invalid input".
Proof.
  intros Hn Hfit. pose proof length_input as [Hlen Htail]. unfold nth_param. rewrite word_range by done.
  unfold oensure, obind. by rewrite (proj2 (Z.leb_gt _ _)) by lia.
Qed.

(** The bytes behind the words. *)
Lemma bytes_word (n : Z) : 0 <= n <= zlength tail -> bytes_at usize input (Z.of_nat (length words) + 1) n = Ok (take (Z.to_nat n) tail).
Proof.
  intros Hn. pose proof length_input as [Hlen Htail]. unfold bytes_at, nth_param, param_range, ACTION_INDEX, INPUT_BYTES_LENGTH, FUNCTION_SELECTOR_LENGTH, PER_PARAM_BYTES.
  rewrite (proj2 (Z.eqb_neq _ _)) by lia. change (default 32 (Some n)) with n. replace (Z.of_nat (length words) + 1 - 1) with (Z.of_nat (length words)) by lia.
  rewrite (wrap_exact usize (32 * _)) by (unfold in_uint; lia). rewrite (wrap_exact usize (32 + 4 + _)) by (unfold in_uint; lia).
  rewrite wrap_exact by (unfold in_uint; lia). unfold oensure, obind.
  rewrite (proj2 (Z.leb_le _ _)) by lia. unfold slice_range. rewrite (proj2 (andb_true_iff _ _)); [|split; apply Z.leb_le; lia].
  f_equal. unfold slice, abi_input. rewrite !app_assoc, drop_app_length'; [f_equal; lia|].
  rewrite !length_app, length_be_bytes. pose proof (length_words words) as Hw. unfold zlength in *. lia.
Qed.

Lemma balance_word n v : words !! n = Some v -> balance_at usize input (Z.of_nat n + 1) = Ok (v mod 2 ^ 128).
Proof. intros Hn. unfold balance_at. rewrite (param_word n v Hn). simpl obind. by rewrite last_bytes_word. Qed.

Lemma u64_word n v : words !! n = Some v -> u64_at usize input (Z.of_nat n + 1) = Ok (v mod 2 ^ 64).
Proof. intros Hn. unfold u64_at. rewrite (param_word n v Hn). simpl obind. by rewrite last_bytes_word. Qed.

Lemma u32_word n v : words !! n = Some v -> u32_at usize input (Z.of_nat n + 1) = Ok (v mod 2 ^ 32).
Proof. intros Hn. unfold u32_at. rewrite (param_word n v Hn). simpl obind. by rewrite last_bytes_word. Qed.

Lemma address_word_at n v : words !! n = Some v -> evm_address_at usize input (Z.of_nat n + 1) = Ok (v mod 2 ^ 160).
Proof. intros Hn. unfold evm_address_at. rewrite (param_word n v Hn). unfold obind. f_equal. apply (last_bytes_word 20). lia. Qed.

Lemma account_word {L A : Type} `{!AddressMapping L A} n v (l : L) :
  words !! n = Some v -> account_id_at usize input (Z.of_nat n + 1) l = Ok (get_account_id (v mod 2 ^ 160) l).
Proof.
  intros Hn. unfold account_id_at. rewrite (param_word n v Hn). unfold obind. do 2 f_equal. apply (last_bytes_word 20). lia.
Qed.

Lemma currency_word {L : Type} `{!CurrencyIdMapping L} n v (l : L) :
  words !! n = Some v ->
  currency_id_at usize input (Z.of_nat n + 1) l = ok_or_err (cm_decode_evm_address (v mod 2 ^ 160) l) (OtherError "invalid currency id").
Proof. intros Hn. unfold currency_id_at. by rewrite (address_word_at n v Hn). Qed.

Lemma action_word {Action : Type} (try_from : Z -> option Action) :
  0 <= selector < 2 ^ 32 -> action_at usize input try_from = ok_or_err (try_from selector) (OtherError "invalid action").
Proof. intros Hs. unfold action_at. rewrite action_bytes. unfold obind. by rewrite from_be_be_bytes. Qed.

(** A path of currencies, which the addresses behind its length stand for. *)
Lemma currency_ids_words {L : Type} `{!CurrencyIdMapping L} (l : L) addresses path n :
  Z.of_nat (length words) < 2 ^ 32 -> drop n words = addresses ->
  Forall2 (fun a c => cm_decode_evm_address (a mod 2 ^ 160) l = Some c) addresses path ->
  currency_ids_at usize input (Z.of_nat n + 1) (length addresses) l = Ok path.
Proof.
  intros Hlen Hd Hf. revert n Hd. induction Hf as [|a c addresses path Ha Hf IH]; intros n Hd; [done|]. cbn [length currency_ids_at].
  assert (words !! n = Some a) as Hn by (by rewrite <- (Nat.add_0_r n), <- lookup_drop, Hd).
  pose proof (lookup_lt_Some _ _ _ Hn). rewrite wrap_exact by (unfold in_uint, umax; lia).
  rewrite (currency_word n a) by done. rewrite Ha. cbn [ok_or_err obind].
  replace (Z.of_nat n + 1 + 1) with (Z.of_nat (S n) + 1) by lia. rewrite IH; [done|].
  rewrite <- Nat.add_1_r, <- drop_drop, Hd. done.
Qed.

Lemma path_words {L : Type} `{!CurrencyIdMapping L} (l : L) addresses path n :
  Z.of_nat (length words) < 2 ^ 32 -> drop n words = Z.of_nat (length addresses) :: addresses ->
  Forall2 (fun a c => cm_decode_evm_address (a mod 2 ^ 160) l = Some c) addresses path ->
  path_at usize input (Z.of_nat n + 1) l = (Ok path, l).
Proof.
  intros Hlen Hd Hf. assert (words !! n = Some (Z.of_nat (length addresses))) as Hn by (by rewrite <- (Nat.add_0_r n), <- lookup_drop, Hd).
  assert (length (drop n words) = S (length addresses)) as Hl by (by rewrite Hd). rewrite length_drop in Hl.
  unfold path_at, param, bind, reads. rewrite (u32_word _ _ Hn), Z.mod_small by lia. rewrite Nat2Z.id.
  replace (Z.of_nat n + 1 + 1) with (Z.of_nat (S n) + 1) by lia. rewrite (currency_ids_words l addresses path); [done..| |done].
  rewrite <- Nat.add_1_r, <- drop_drop, Hd. done.
Qed.

(** What was encoded is what is read: the selector, and of every word the number its last
    bytes stand for. Numbers and addresses that are too wide are cut without an error; a
    parameter that is missing is one. [tail] is whatever bytes are behind the words. *)
Theorem encoded_input_is_read_back {Action : Type} (try_from : Z -> option Action) :
  0 <= selector < 2 ^ 32 ->
  action_at usize input try_from = ok_or_err (try_from selector) (OtherError "invalid action")
  /\ (forall n v, words !! n = Some v ->
        balance_at usize input (Z.of_nat n + 1) = Ok (v mod 2 ^ 128)
        /\ u64_at usize input (Z.of_nat n + 1) = Ok (v mod 2 ^ 64)
        /\ u32_at usize input (Z.of_nat n + 1) = Ok (v mod 2 ^ 32)
        /\ evm_address_at usize input (Z.of_nat n + 1) = Ok (v mod 2 ^ 160))
  /\ forall n, 32 * Z.of_nat (length words) + zlength tail < 32 * (Z.of_nat n + 1) -> 36 + 32 * (Z.of_nat n + 1) <= umax usize ->
        nth_param usize input (Z.of_nat n + 1) None = invalid "invalid input".
Proof.
  intros Hs. split_and!; [by apply action_word| |apply param_missing].
  intros n v Hn. split_and!; [by apply balance_word|by apply u64_word|by apply u32_word|by apply address_word_at].
Qed.
End Reading.

(** ** What is read fits its type *)

Lemma nth_param_bytes usize input n param :
  0 <= usize -> nth_param usize input n None = Ok param -> Forall (fun b => 0 <= b < 256) input ->
  Forall (fun b => 0 <= b < 256) param /\ zlength param <= 32.
Proof.
  intros Hu Hp Hb. unfold nth_param in Hp. destruct (param_range usize n None) as [first last] eqn:Er.
  unfold oensure, obind in Hp. destruct (last <=? zlength input); [|done]. unfold slice_range in Hp.
  destruct (_ && _) eqn:E; [|done]. injection Hp as <-. bool_inv. split; [by apply Forall_take, Forall_drop|].
  assert (last - first <= 32).
  { unfold param_range, ACTION_INDEX, INPUT_BYTES_LENGTH, FUNCTION_SELECTOR_LENGTH, PER_PARAM_BYTES in Er.
    assert (forall x, 0 <= x -> wrap usize x <= x) as Hw by (intros x Hx; unfold wrap; apply Z.mod_le; lia).
    destruct (n =? 0); injection Er as <- <-; [pose proof (Hw (32 + 4)); lia|].
    pose proof (wrap_range usize (32 + 4 + wrap usize (32 * (n - 1))) Hu) as [Hs _]. pose proof (Hw _ ltac:(apply Z.add_nonneg_nonneg; [exact Hs|exact (Zle_0_pos 32)])).
    simpl in *. lia. }
  unfold zlength, slice. rewrite length_take. lia.
Qed.

(** A number of [n] bytes. *)
Lemma last_bytes_range usize input i n param :
  0 <= usize -> nth_param usize input i None = Ok param -> Forall (fun b => 0 <= b < 256) input -> 0 <= n <= 32 ->
  0 <= from_be (last_bytes n param) < 2 ^ (8 * n).
Proof.
  intros Hu Hp Hb Hn. destruct (nth_param_bytes _ _ _ _ Hu Hp Hb) as [Hf Hl].
  pose proof (from_be_range (last_bytes n param) ltac:(by apply Forall_drop)) as Hr. split; [lia|].
  eapply Z.lt_le_trans; [apply Hr|]. rewrite Z.pow_mul_r by lia. apply Z.pow_le_mono_r; [lia|].
  unfold last_bytes, PER_PARAM_BYTES, zlength in *. rewrite length_drop. lia.
Qed.

Lemma balance_at_u128 usize input i v :
  0 <= usize -> balance_at usize input i = Ok v -> Forall (fun b => 0 <= b < 256) input -> in_uint 128 v.
Proof.
  unfold balance_at. intros Hu Hv Hb. apply obind_ok in Hv as (param & Hp & [= <-]).
  pose proof (last_bytes_range _ _ _ BALANCE_BYTES _ Hu Hp Hb) as Hr. unfold BALANCE_BYTES in *. unfold in_uint, umax. lia.
Qed.

(** ** Who reaches the pallets *)

Lemma starts_with_take p l : starts_with p l = true <-> take (length p) l = p.
Proof.
  revert l. induction p as [|x p IH]; intros [|y l]; simpl; [done..|]. rewrite andb_true_iff, Z.eqb_eq, IH.
  split; [by intros [-> ->]|by intros [= -> ->]].
Qed.

(** A number of [m + n] bytes begins with [m] zeros if it is one of [n] bytes. *)
Lemma leading_zeros m n v :
  0 <= v < 256 ^ Z.of_nat (m + n) -> starts_with (repeat 0 m) (be_bytes (m + n) v) = (v <? 256 ^ Z.of_nat n).
Proof.
  intros Hv. assert (0 < 256 ^ Z.of_nat n) as Hn by (apply Z.pow_pos_nonneg; lia). apply eq_true_iff_eq.
  rewrite starts_with_take, Z.ltb_lt, repeat_length, be_bytes_split, take_app_length' by (by rewrite length_be_bytes).
  rewrite Nat2Z.inj_add, Z.pow_add_r in Hv by lia.
  assert (0 <= v / 256 ^ Z.of_nat n < 256 ^ Z.of_nat m) as Hq by (split; [apply Z.div_pos; lia|apply Z.div_lt_upper_bound; lia]).
  assert (be_bytes m 0 = repeat 0 m) as Hz.
  { clear. induction m as [|m IH]; [done|]. cbn [be_bytes repeat]. rewrite IH, Z.div_0_l by (apply Z.pow_nonzero; lia). done. }
  rewrite <- Hz. split.
  - intros He. apply (f_equal from_be) in He.
    rewrite !from_be_be_bytes in He by (first [done|split; [done|apply Z.pow_pos_nonneg; lia]]).
    apply Z.div_small_iff in He; lia.
  - intros Hlt. by rewrite Z.div_small by lia.
Qed.

Lemma is_system_contract_low a : 0 <= a < 2 ^ 160 -> is_system_contract a = (a <? 2 ^ 72).
Proof. intros Ha. apply (leading_zeros 11 9). exact Ha. Qed.

Section Contracts.
Context {W : Type}.
Variable usize : Z.
Variable crypto : PrecompileCrypto.
Variables multi_currency nft state_rent oracle schedule_call dex : PrecompileRun W.

(** C15: a caller whose address is not one of the low ones that are kept for system contracts
    cannot make a precompiled contract change anything, whatever the contracts behind the
    addresses do: the contracts of Ethereum answer, the others refuse. *)
Theorem other_callers_are_refused a input gas context (w : W) :
  2 ^ 72 <= caller context < 2 ^ 160 ->
  all_precompiles (evm_precompiles usize crypto) is_system_contract multi_currency nft state_rent oracle schedule_call dex
    a input gas context w
  = (match evm_precompiles usize crypto a input gas with
     | Some r => Some r
     | None => if is_setheum_precompile a then Some (Err (OtherError "no permission")) else None
     end, w).
Proof.
  intros Hc. unfold all_precompiles. destruct (evm_precompiles _ _ _ _ _); [done|].
  rewrite is_system_contract_low, (proj2 (Z.ltb_ge _ _)) by lia.
  unfold is_setheum_precompile, PRECOMPILE_ADDRESS_START, PREDEPLOY_ADDRESS_START. change (negb false) with true. rewrite andb_true_r.
  destruct ((0x400 <=? a) && (a <? 0x800)) eqn:E; [done|].
  repeat (rewrite (proj2 (Z.eqb_neq a _)) by (intros ->; discriminate E)). done.
Qed.
End Contracts.

(** ** The exchange through the EVM *)

Lemma param_run {L B C : Type} (f : L -> outcome ExitError B) (k : B -> M L ExitError C) l b :
  f l = Ok b -> bind (param f) k l = k b l.
Proof. intros Hf. unfold bind, param, reads. by rewrite Hf. Qed.

Lemma bind_run {S E A B : Type} (m : M S E A) (k : A -> M S E B) s a s' : m s = (Ok a, s') -> bind m k s = k a s'.
Proof. intros Hm. unfold bind. by rewrite Hm. Qed.

Section Exchange.
Context {L X A : Type} `{!AddressMapping L A} `{!CurrencyIdMapping L} `{!DispatchErrorInto X} `{!DEXManager L X A}.
Variable usize : Z.
Variables (head : bytes) (addresses : list H160).
Hypothesis length_head : zlength head = 32.
Hypothesis short : 5 + Z.of_nat (length addresses) < 2 ^ 32.
Hypothesis fits : 36 + 32 * (5 + Z.of_nat (length addresses)) <= umax usize.

(** The input of a swap: who, the offset of the path, two amounts and the path. *)
Definition swap_input (selector : Z) (who : H160) (offset first second : Z) : bytes :=
  abi_input head selector ([who; offset; first; second; Z.of_nat (length addresses)] ++ addresses) [].

(** C29: a swap that a contract asks for is the swap of the exchange, for the account of the
    address in the input, along the currencies that the addresses of the path stand for,
    and its amount or its error is the answer. *)
Theorem evm_swap_is_the_swap who offset amount limit path (l : L) :
  0 <= who < 2 ^ 160 -> 0 <= amount < 2 ^ 128 -> 0 <= limit < 2 ^ 128 ->
  Forall2 (fun a c => cm_decode_evm_address (a mod 2 ^ 160) l = Some c) addresses path ->
  dex_execute usize (swap_input 0x579baa18 who offset amount limit) l
  = (let! value := as_exit (dm_swap_with_exact_supply (get_account_id who l) path amount limit) in
     ret (returned (word value))) l
  /\ dex_execute usize (swap_input 0x9782ac81 who offset amount limit) l
  = (let! value := as_exit (dm_swap_with_exact_target (get_account_id who l) path amount limit) in
     ret (returned (word value))) l.
Proof.
  intros Hwho Hamount Hlimit Hpath. unfold swap_input. set (words := [who; _; _; _; _] ++ addresses).
  assert (36 + 32 * Z.of_nat (length words) + zlength [] <= umax usize) as Hfit by (subst words; rewrite length_app; unfold zlength; simpl length; lia).
  assert (Z.of_nat (length words) < 2 ^ 32) as Hshort by (subst words; rewrite length_app; simpl length; lia).
  split; (etransitivity; [apply param_run; rewrite (action_word _ head _ words [] length_head Hfit) by lia; reflexivity|]);
    (etransitivity; [apply param_run, (account_word _ head _ words [] length_head Hfit 0 who); done|]);
    (etransitivity; [apply param_run, (balance_word _ head _ words [] length_head Hfit 2 amount); done|]);
    (etransitivity; [apply param_run, (balance_word _ head _ words [] length_head Hfit 3 limit); done|]);
    (etransitivity; [apply bind_run, (path_words _ head _ words [] length_head Hfit l addresses path 4); done|]);
    by rewrite !Z.mod_small by done.
Qed.
End Exchange.

(** ** Scheduled calls *)

Section Scheduled.
Context {L X A : Type} `{!AddressMapping L A} `{!DispatchErrorInto X} `{!Scheduler L X A}.
Variable usize : Z.
Variable codec : TaskCodec.
Variable gas_to_weight : Z -> Z.

(** The numbers of a name at their widths. *)
Definition task_wf (t : TaskInfo) : Prop :=
  prefix t = schedule_prefix /\ in_uint 32 (id t) /\ 0 <= sender t < 2 ^ 160 /\ in_uint 128 (task_fee t).

(** What is encoded is decoded, and fees are balances. *)
Hypothesis codec_law : forall t, task_wf t -> task_decode codec (task_encode codec t) = Some t.
Hypothesis fees_fit : forall (who : A) weight (l : L) fee l', sc_reserve_fee who weight l = (Ok fee, l') -> in_uint 128 fee.
Hypothesis room : 196 <= umax usize.

Abbreviation execute := (schedule_execute (L := L) usize codec gas_to_weight).

(** The input that cancels a call: who asks, the offset and the length of the name, and the
    name. *)
Definition cancel_input (head : bytes) (from : H160) (offset : Z) (task_id : bytes) : bytes :=
  abi_input head 0x93e32661 [from; offset; zlength task_id] task_id.

(** The name in such an input is read, and its sender compared with the one who asks. *)
Lemma own_task_named head from offset t (s : ScheduleState L) :
  let task_id := task_encode codec t in
  task_wf t -> zlength head = 32 -> zlength task_id <= 64 -> 0 <= from < 2 ^ 160 ->
  own_task_at usize codec (cancel_input head from offset task_id) from 3 s
  = if sender t =? from then (Ok (task_id, t), s) else (Err (OtherError "NoPermission"), s).
Proof.
  intros task_id Hwf Hhead Hlen Hfrom. unfold own_task_at, cancel_input. pose proof (zlength_nonneg task_id).
  set (words := [from; offset; zlength task_id]).
  assert (36 + 32 * Z.of_nat (length words) + zlength task_id <= umax usize) as Hfit by (simpl; lia).
  etransitivity; [apply param_run, (u32_word _ head _ words task_id Hhead Hfit 2 (zlength task_id)); done|].
  rewrite Z.mod_small by lia. rewrite wrap_exact by (unfold in_uint; lia).
  etransitivity; [apply param_run, (bytes_word _ head _ words task_id Hhead Hfit); lia|].
  rewrite take_ge by (unfold zlength; lia). unfold task_id. rewrite codec_law by done.
  unfold ok_or, ensure, bind, ret, fail. by destruct (sender t =? from).
Qed.

Lemma cancel_run head from offset t (s : ScheduleState L) :
  let task_id := task_encode codec t in
  task_wf t -> zlength head = 32 -> zlength task_id <= 64 -> 0 <= from < 2 ^ 160 ->
  execute (cancel_input head from offset task_id) s
  = if sender t =? from then
      (do! on_scheduler (as_error "Cancel schedule failed" (cancel_named task_id)) in
       do! modify (fun s => set_sc_chain (sc_unreserve_fee (get_account_id from (sc_chain s)) (task_fee t) (sc_chain s)) s) in
       ret (returned [])) s
    else (Err (OtherError "NoPermission"), s).
Proof.
  intros task_id Hwf Hhead Hlen Hfrom. pose proof (own_task_named head from offset t s Hwf Hhead Hlen Hfrom) as Hown.
  unfold cancel_input in *. fold task_id in Hown. set (words := [from; offset; zlength task_id]) in *. pose proof (zlength_nonneg task_id).
  assert (36 + 32 * Z.of_nat (length words) + zlength task_id <= umax usize) as Hfit by (simpl; lia).
  unfold schedule_execute.
  etransitivity; [apply param_run; rewrite (action_word _ head _ words task_id Hhead Hfit) by lia; reflexivity|].
  etransitivity; [apply param_run, (address_word_at _ head _ words task_id Hhead Hfit 0 from); done|].
  rewrite Z.mod_small by done. unfold bind at 1. rewrite Hown. by destruct (sender t =? from).
Qed.

Lemma with_len_ok task_id out :
  with_len task_id = Ok out -> zlength task_id <= 64 /\ out = word (zlength task_id) ++ task_id ++ repeat 0 (64 - length task_id).
Proof. unfold with_len. destruct (Z.leb_spec (zlength task_id) 64); [|done]. by intros [= <-]. Qed.

(** C17: a call that was scheduled has a name, which the answer tells. With it the one who
    scheduled the call cancels it, at any later time, and gets back the fee that was
    reserved; nobody else can cancel it. The next call has the next number. *)
Theorem scheduled_call_is_cancelled_by_its_sender input from answer (s s1 : ScheduleState L) :
  0 <= usize -> Forall (fun b => 0 <= b < 256) input ->
  action_at usize input schedule_action = Ok Schedule -> evm_address_at usize input 1 = Ok from ->
  in_uint 32 (scheduler_next_id s) -> execute input s = (Ok answer, s1) ->
  exists task_id gas fee l,
    u64_at usize input 4 = Ok gas
    /\ sc_reserve_fee (get_account_id from (sc_chain s)) (gas_to_weight gas) (sc_chain s) = (Ok fee, l)
    /\ answer = returned (word (zlength task_id) ++ task_id ++ repeat 0 (64 - length task_id))
    /\ scheduler_next_id s1 = scheduler_next_id s + 1
    /\ forall head offset s2, zlength head = 32 ->
         execute (cancel_input head from offset task_id) s2
         = (do! on_scheduler (as_error "Cancel schedule failed" (cancel_named task_id)) in
            do! modify (fun s => set_sc_chain (sc_unreserve_fee (get_account_id from (sc_chain s)) fee (sc_chain s)) s) in
            ret (returned [])) s2
         /\ forall other, 0 <= other < 2 ^ 160 -> other <> from ->
              execute (cancel_input head other offset task_id) s2 = (Err (OtherError "NoPermission"), s2).
Proof.
  intros Hu Hb Haction Hfrom Hid Hrun.
  assert (0 <= from < 2 ^ 160) as Hrange.
  { unfold evm_address_at in Hfrom. apply obind_ok in Hfrom as (param & Hp & [= <-]).
    apply (last_bytes_range _ _ _ 20 _ Hu Hp Hb). lia. }
  unfold schedule_execute in Hrun. rewrite bind_ok in Hrun. destruct Hrun as (action & s0 & Ha & Hrun).
  apply reads_ok in Ha as [Ha ->]. rewrite Haction in Ha. injection Ha as <-. run_step Hrun.
  rewrite Hfrom in R0. injection R0 as <-.
  unfold on_scheduler, as_exit, as_error in R, R8. rewrite zoom_ok in R. rewrite zoom_ok in R8.
  destruct R as (l & R & ->), R8 as (l2 & R8 & ->). rewrite zoom_ok in R. rewrite zoom_ok in R8.
  destruct R as (l' & R & ->), R8 as (l3 & R8 & ->).
  apply checked_add_Some in R9 as [-> _]. apply with_len_ok in R11 as [Hlen ->]. simpl in *.
  assert (task_wf (MkTaskInfo schedule_prefix (scheduler_next_id s) from x7)) as Hwf by (unfold task_wf; simpl; split_and!; first [done|lia|by eapply fees_fit]).
  eexists _, _, _, l'. split_and!; [done..|]. intros head offset s2 Hhead. split.
  - rewrite cancel_run by done. simpl. by rewrite Z.eqb_refl.
  - intros other Hother Hne. rewrite cancel_run by done. simpl. by rewrite (proj2 (Z.eqb_neq _ _)) by done.
Qed.
End Scheduled.

(** ** Inputs that panic *)

(** The price of a currency with more than eighteen decimals, and at most 235, is not zero,
    as the comments of the code have it: the multiplier is, and the division panics. *)
Theorem prices_of_many_decimals_panic {L : Type} `{!CurrencyIdMapping L} `{!PriceProvider L} usize input currency_id decimals (l : L) :
  action_at usize input oracle_action = Ok tt -> currency_id_at usize input 1 l = Ok currency_id ->
  cm_decimals currency_id l = Some decimals -> 19 <= decimals <= 235 ->
  oracle_execute usize input l = (Panic, l).
Proof.
  intros Ha Hc Hd Hrange. assert (adjustment_multiplier decimals = None) as Hm.
  { unfold adjustment_multiplier. rewrite (proj2 (Z.leb_gt _ _)); [done|]. eapply Z.lt_le_trans; [|apply (Z.pow_le_mono_r 10 39)]; [done..|].
    unfold wrap. rewrite <- (Z.mod_unique (18 - decimals) (2 ^ 8) (-1) (274 - decimals)) by lia. lia. }
  unfold oracle_execute, bind, param, reads, gets. rewrite Ha, Hc, Hd, Hm. done.
Qed.
