(* ===== verification/PrecompileDex.v ===== *)
(** * The exchange behind its precompiled contract

    The [DEXManager] that the runtime gives to the contract is the dex pallet. Whatever a
    contract asks of it, what the pools and the provisions record stays covered by what the
    account of the pallet holds, and a request that fails changes nothing. *)

From Stdlib Require Import String.
From S2P Require Import Prelude Currency Externals EvmManager EvmMeter Evm EvmRunner EvmBridge Currencies Dex DexPricing DexSafety PrecompileInput Precompiles PrecompileTheorems.

Section Manager.
Context {L X AccountId Origin : Type} `{Countable AccountId}.
Context `{!MultiCurrency L X AccountId} `{!FrameSystem L AccountId} `{!DEXIncentives L X AccountId}.
Context `{F : FixedPoint} `{U : U256Ops}.
Variable cfg : Config L X AccountId Origin.

Abbreviation St := (State L AccountId).
Abbreviation Error := (DexError + X)%type.

#[export] Instance dex_manager : DEXManager St Error AccountId := {
  dm_get_liquidity_pool a b s := get_liquidity s a b;
  dm_get_liquidity_token_address a b s := get_liquidity_token_address cfg s a b;
  dm_get_swap_target_amount path amount s := get_swap_target_amount cfg s path amount None;
  dm_get_swap_supply_amount path amount s := get_swap_supply_amount cfg s path amount None;
  dm_swap_with_exact_supply who path amount limit := do_swap_with_exact_supply cfg who path amount limit None;
  dm_swap_with_exact_target who path amount limit := do_swap_with_exact_target cfg who path amount limit None;
  dm_add_liquidity := manager_add_liquidity cfg;
  dm_remove_liquidity := do_remove_liquidity cfg
}.

Context `{!AddressMapping St AccountId} `{!CurrencyIdMapping St} `{!DispatchErrorInto Error}.
Variable usize : Z.

(** ** A request that fails *)

Lemma clean_transactional {S E A : Type} (m : M S E A) : clean (transactional m).
Proof. intros s r s'. apply transactional_rollback. Qed.

Lemma clean_as_exit {B : Type} (m : M St Error B) : clean m -> clean (as_exit m).
Proof.
  intros Hm s r s'. unfold as_exit, zoom. destruct (m s) as [[b|e|] s1] eqn:E; intros [= <- <-] Hr;
    [by destruct (Hr b)|by eapply Hm..].
Qed.

Lemma clean_answer {B : Type} (m : M St Error B) (k : B -> Answer) : clean m -> clean (bind (as_exit m) (fun b => ret (k b))).
Proof. intros Hm. apply clean_write_last; [by apply clean_as_exit|]. intros b. apply always_ret. Qed.

Lemma readonly_path input index : readonly (path_at (L := St) usize input index).
Proof. unfold path_at, param. apply readonly_bind; [apply readonly_reads|]. intros n. apply readonly_reads. Qed.

Lemma clean_dex_execute input : clean (dex_execute usize input).
Proof.
  unfold dex_execute, param.
  apply clean_read_first; [apply readonly_reads|]. intros action.
  destruct action;
    repeat first [apply clean_answer, clean_transactional
                 |apply clean_read_first; [solve [apply readonly_reads|apply readonly_gets|apply readonly_path]|]; intros ?
                 |apply clean_readonly, readonly_ret|case_match].
Qed.

(** ** A request that is served *)

Context `{!MultiCurrencyLaws L X AccountId} `{!DEXIncentivesLaws L X AccountId} `{!FixedPointLaws F} `{!U256Laws U}.
Hypothesis dex_whitelisted : keeps_dust (dex_account cfg) = true.
Hypothesis dex_no_vault : pays_rewards (dex_account cfg) = false.
Hypothesis fee_u32 : in_uint 32 (exchange_fee cfg).1 /\ in_uint 32 (exchange_fee cfg).2.

(** Paths of at most three currencies, as the runtimes configure. *)
Hypothesis path_limit : trading_path_limit cfg <= 3.

(** The account of the pallet has no key, so no address of the EVM is mapped to it. *)
Hypothesis dex_unmapped : forall a (s : St), get_account_id a s <> dex_account cfg.

Lemma as_exit_ok {B : Type} (m : M St Error B) s b s' : as_exit m s = (Ok b, s') <-> m s = (Ok b, s').
Proof. unfold as_exit. rewrite zoom_ok. naive_solver. Qed.

Lemma account_not_dex input index s who : account_id_at usize input index s = Ok who -> who <> dex_account cfg.
Proof. unfold account_id_at. intros Hw. apply obind_ok in Hw as (param & _ & [= <-]). apply dex_unmapped. Qed.

Lemma path_at_ok input index (s s' : St) path : path_at usize input index s = (Ok path, s') -> s' = s.
Proof. apply readonly_path. Qed.

(** C16: however it ends, a call of the contract of the exchange leaves the pools and the
    provisions covered; and unless it succeeds, it leaves the exchange as it was. *)
Theorem dex_contract_stays_solvent input s r s' :
  0 <= usize -> Forall (fun b => 0 <= b < 256) input -> dex_inv cfg s -> dex_execute usize input s = (r, s') ->
  dex_inv cfg s' /\ ((forall answer, r <> Ok answer) -> s' = s).
Proof.
  intros Hu Hb Hi Hrun. assert ((forall answer, r <> Ok answer) -> s' = s) as Hclean by (by apply (clean_dex_execute input)).
  split; [|done]. destruct r as [answer|e|]; [|by rewrite Hclean..]. clear Hclean.
  unfold dex_execute, param in Hrun. rewrite bind_ok in Hrun. destruct Hrun as (action & s0 & Ha & Hrun).
  apply reads_ok in Ha as [_ ->]. destruct action; run_step Hrun;
    repeat match goal with R : path_at _ _ _ _ = (Ok _, _) |- _ => apply path_at_ok in R; subst end;
    repeat match goal with R : as_exit _ _ = (Ok _, _) |- _ => apply as_exit_ok in R; simpl in R end;
    try done.
  - destruct (dm_get_liquidity_pool _ _ _). by run_inv Hrun.
  - eapply do_swap_with_exact_supply_inv; [..|exact R3|by eapply account_not_dex|by eapply balance_at_u128|]; done.
  - eapply do_swap_with_exact_target_inv; [..|exact R3|by eapply account_not_dex|by eapply balance_at_u128|]; done.
  - unfold manager_add_liquidity in R. rewrite transactional_ok in R.
    eapply do_add_liquidity_inv; [..|exact R|by eapply account_not_dex|by eapply balance_at_u128|by eapply balance_at_u128|]; done.
  - eapply do_remove_liquidity_inv; [..|exact R| |]; [done..| |done]. eapply balance_at_u128; [| |exact Hb]; done.
Qed.
End Manager.
