(* ===== verification/PrecompileExamples.v ===== *)
(** * The precompiled contracts on concrete inputs

    The exchange of [DexExamples] behind its contract, a scheduler that keeps calls in a
    list, the theorems applied to them, and the inputs that make the runtime panic. *)

From Stdlib Require Import String.
From S2P Require Import Prelude Currency Externals EvmManager EvmMeter Evm EvmRunner EvmBridge Currencies Dex DexPricing DexSafety DexTheorems DexExamples PrecompileInput Precompiles PrecompileTheorems PrecompileDex.

Definition blank : bytes := repeat 0 32.

(** ** Reading *)

Lemma encoded_input_is_read_back_witness :
  action_at 32 (abi_input blank 0x4d60beb1 [7; 2 ^ 200 + 9] [5]) dex_action = Ok GetSwapTargetAmount
  /\ u64_at 32 (abi_input blank 0x4d60beb1 [7; 2 ^ 200 + 9] [5]) 2 = Ok 9
  /\ nth_param 32 (abi_input blank 0x4d60beb1 [7; 2 ^ 200 + 9] [5]) 3 None = invalid "invalid input".
Proof.
  destruct (encoded_input_is_read_back 32 blank 0x4d60beb1 [7; 2 ^ 200 + 9] [5] eq_refl ltac:(vm_compute; discriminate)
              dex_action ltac:(lia)) as (Ha & Hw & Hm).
  split; [exact Ha|]. split; [exact (proj1 (proj2 (Hw 1%nat (2 ^ 200 + 9) eq_refl)))|].
  apply (Hm 2%nat); vm_compute; [reflexivity|discriminate].
Defined.

(** ** Callers *)

Definition no_crypto : PrecompileCrypto :=
  MkPrecompileCrypto (fun _ _ => None) (fun b => b) (fun b => b) (fun b => b) (fun b => b) (fun b => b).

(** A contract that writes, whoever calls it. *)
Definition writes : PrecompileRun Z := fun _ _ _ => do! modify (fun z => z + 1) in ret (returned []).

Lemma other_callers_are_refused_witness :
  all_precompiles (evm_precompiles 32 no_crypto) is_system_contract writes writes writes writes writes writes
    0x405 [] None (MkContext 0x405 (2 ^ 100) 0) 41
  = (Some (Err (OtherError "no permission")), 41)
  /\ all_precompiles (evm_precompiles 32 no_crypto) is_system_contract writes writes writes writes writes writes
       0x405 [] None (MkContext 0x405 0x900 0) 41
     = (Some (Ok (returned [])), 42).
Proof.
  split; [|vm_compute; reflexivity].
  refine (other_callers_are_refused 32 no_crypto writes writes writes writes writes writes 0x405 [] None
            (MkContext 0x405 (2 ^ 100) 0) 41 _). simpl. lia.
Defined.

(** ** The exchange *)

Abbreviation Exchange := (State Ledger Z).

#[export] Instance exchange_mapping : AddressMapping Exchange Z := {|
  get_account_id a _ := if a =? 100 then 0 else a;
  get_evm_address who _ := Some who;
  get_or_create_evm_address who s := (who, s);
  get_default_evm_address who := who
|}.

#[export] Instance exchange_currencies : CurrencyIdMapping Exchange := manager_mapping (fun _ => ∅).

#[export] Instance exchange_errors : DispatchErrorInto (DexError + LedgerError) := {| dispatch_str _ := "dispatch"%string |}.

#[export] Instance sample_manager : DEXManager Exchange (DexError + LedgerError) Z := dex_manager sample_config.

Definition token_address (c : CurrencyId) : H160 := default 0 (encode_evm_address ∅ c).

Definition sample_path : list H160 := [token_address DNAR_ID; token_address USDJ_ID].

Lemma sample_decodes : Forall2 (fun a c => cm_decode_evm_address (a mod 2 ^ 160) sample_market = Some c) sample_path [DNAR_ID; USDJ_ID].
Proof. repeat constructor; vm_compute; reflexivity. Qed.

Lemma evm_swap_is_the_swap_witness :
  (dex_execute 32 (swap_input blank sample_path 0x579baa18 2 0 1000 3000) sample_market).1 = Ok (returned (word 3948)).
Proof.
  destruct (evm_swap_is_the_swap 32 blank sample_path eq_refl ltac:(vm_compute; reflexivity) ltac:(vm_compute; discriminate)
              2 0 1000 3000 [DNAR_ID; USDJ_ID] sample_market ltac:(lia) ltac:(lia) ltac:(lia) sample_decodes) as [Hs _].
  rewrite Hs. vm_compute. reflexivity.
Defined.

(** The same swap by its input, and one that asks for too much. *)
Definition evm_swap (limit : Z) : outcome ExitError Answer * Exchange :=
  dex_execute 32 (swap_input blank sample_path 0x579baa18 2 0 1000 limit) sample_market.

Lemma sample_unmapped a (s : Exchange) : get_account_id a s <> dex_account sample_config.
Proof. simpl. destruct (Z.eqb_spec a 100); [done|congruence]. Qed.

Lemma evm_swap_bytes limit : Forall (fun b => 0 <= b < 256) (swap_input blank sample_path 0x579baa18 2 0 1000 limit).
Proof.
  unfold swap_input, abi_input. rewrite !Forall_app. split_and!; [repeat constructor; lia|apply be_bytes_range| |constructor].
  apply Forall_concat, Forall_map, Forall_true. intros v. apply be_bytes_range.
Qed.

Lemma dex_contract_stays_solvent_witness :
  (evm_swap 3000).1 = Ok (returned (word 3948)) /\ dex_inv sample_config (evm_swap 3000).2
  /\ (evm_swap 4000).1 = Err (OtherError "dispatch") /\ (evm_swap 4000).2 = sample_market.
Proof.
  assert (forall limit, dex_inv sample_config (evm_swap limit).2 /\ ((forall answer, (evm_swap limit).1 <> Ok answer) -> (evm_swap limit).2 = sample_market)) as Hall.
  { intros limit.
    apply (dex_contract_stays_solvent sample_config 32 sample_dust sample_vault sample_fee ltac:(vm_compute; discriminate)
             sample_unmapped (swap_input blank sample_path 0x579baa18 2 0 1000 limit) sample_market _ _ ltac:(lia)
             (evm_swap_bytes limit) sample_market_inv).
    apply surjective_pairing. }
  split; [vm_compute; reflexivity|]. split; [apply Hall|]. split; [vm_compute; reflexivity|].
  apply Hall. intros answer. assert ((evm_swap 4000).1 = Err (OtherError "dispatch")) as -> by (vm_compute; reflexivity). discriminate.
Defined.

(** ** Scheduled calls *)

(** Accounts are addresses; the chain has the named calls and the reserved fees. *)
Record Agenda : Type := MkAgenda {
  calls : list (bytes * ScheduledCall);
  reserved_fees : Z
}.

#[export] Instance agenda_mapping : AddressMapping Agenda Z := {|
  get_account_id a _ := a;
  get_evm_address who _ := Some who;
  get_or_create_evm_address who s := (who, s);
  get_default_evm_address who := who
|}.

#[export] Instance agenda_errors : DispatchErrorInto string := {| dispatch_str e := e |}.

Definition named (name : bytes) (entry : bytes * ScheduledCall) : bool := bool_decide (entry.1 = name).

(** A fee of a hundredth of the weight. *)
#[export] Instance agenda_scheduler : Scheduler Agenda string Z := {|
  schedule_named name _ c := fun l =>
    if existsb (named name) (calls l) then (Err "in use"%string, l) else (Ok tt, MkAgenda ((name, c) :: calls l) (reserved_fees l));
  cancel_named name := fun l =>
    if existsb (named name) (calls l) then (Ok tt, MkAgenda (List.filter (fun e => negb (named name e)) (calls l)) (reserved_fees l))
    else (Err "not found"%string, l);
  reschedule_named name _ := fun l => if existsb (named name) (calls l) then (Ok tt, l) else (Err "not found"%string, l);
  sc_reserve_fee _ weight := fun l =>
    if weight / 100 <=? umax 64 then (Ok (Z.max 0 (weight / 100)), MkAgenda (calls l) (reserved_fees l + Z.max 0 (weight / 100)))
    else (Err "balance"%string, l);
  sc_unreserve_fee _ fee l := MkAgenda (calls l) (reserved_fees l - fee)
|}.

(** A codec in the shape of the real one, with the fee at its full width: the name of a call
    in fifty-three bytes, the prefix with its length, the number, the sender and
    the fee, numbers with their last byte first. *)
Definition scale_encode (t : TaskInfo) : bytes :=
  (48 :: prefix t) ++ rev (be_bytes 4 (id t)) ++ be_bytes 20 (sender t) ++ rev (be_bytes 16 (task_fee t)).

Definition scale_decode (b : bytes) : option TaskInfo :=
  if starts_with (48 :: schedule_prefix) b then
    Some (MkTaskInfo schedule_prefix (from_be (rev (slice 13 4 b))) (from_be (slice 17 20 b)) (from_be (rev (slice 37 16 b))))
  else None.

Definition scale : TaskCodec := MkTaskCodec scale_encode scale_decode.

Lemma slice_mid (a b c : bytes) i n : length a = i -> length b = n -> slice i n (a ++ b ++ c) = b.
Proof. intros <- <-. unfold slice. by rewrite drop_app_length, take_app_length. Qed.

Lemma scale_law t : task_wf t -> scale_decode (scale_encode t) = Some t.
Proof.
  destruct t as [p n a f]. unfold task_wf, in_uint, umax. simpl prefix. simpl id. simpl sender. simpl task_fee. intros (-> & Hn & Ha & Hf).
  unfold scale_decode, scale_encode, prefix, id, sender, task_fee. rewrite starts_with_app.
  assert (forall k v, length (rev (be_bytes k v)) = k) as Hrev by (intros; by rewrite length_rev, length_be_bytes).
  rewrite slice_mid by (first [reflexivity|apply Hrev]).
  rewrite (app_assoc _ (rev (be_bytes 4 n))).
  rewrite (slice_mid (_ ++ _) (be_bytes 20 a)) by (rewrite ?length_app, ?Hrev, ?length_be_bytes; reflexivity).
  rewrite (app_assoc _ (be_bytes 20 a)). rewrite <- (app_nil_r (rev (be_bytes 16 f))).
  rewrite (slice_mid (_ ++ _) (rev (be_bytes 16 f))) by (rewrite ?length_app, ?Hrev, ?length_be_bytes; reflexivity).
  rewrite !rev_involutive, !from_be_be_bytes by (simpl Z.of_nat; lia). done.
Qed.

Lemma agenda_fees (who : Z) weight (l : Agenda) fee l' :
  @sc_reserve_fee _ _ _ agenda_scheduler who weight l = (Ok fee, l') -> in_uint 128 fee.
Proof.
  simpl. destruct (Z.leb_spec (weight / 100) (umax 64)); [|done]. intros [= <- _].
  unfold in_uint. split; [lia|]. assert (umax 64 <= umax 128) by by vm_compute. assert (0 <= umax 128) by by vm_compute. lia.
Qed.

Lemma scale_codec t : task_wf t -> task_decode scale (task_encode scale t) = Some t.
Proof. exact (scale_law t). Qed.

(** A call of the contract at 9, by 7, with 210 of gas and three bytes of data. *)
Definition schedule_input : bytes :=
  abi_input blank 0x64c91905 [7; 9; 0; 210; 0; 5; 0; 3] [1; 2; 3].

Definition agenda : ScheduleState Agenda := MkScheduleState 41 (MkAgenda [] 0).

Definition scheduled : outcome ExitError Answer * ScheduleState Agenda :=
  schedule_execute (L := Agenda) 32 scale gas_to_weight_convert schedule_input agenda.

Definition task_name : bytes := scale_encode (MkTaskInfo schedule_prefix 41 7 2).

Lemma scheduled_run : scheduled.1 = Ok (returned (word 53 ++ task_name ++ repeat 0 11)).
Proof. vm_compute. reflexivity. Qed.

Lemma schedule_bytes : Forall (fun b => 0 <= b < 256) schedule_input.
Proof. unfold schedule_input, abi_input. repeat constructor; vm_compute; (discriminate || reflexivity). Qed.

(** The answer determines the name. *)
Lemma answer_names name task_id :
  word 53 ++ name ++ repeat 0 11 = word (zlength task_id) ++ task_id ++ repeat 0 (64 - length task_id) ->
  zlength name = 53 -> task_id = name.
Proof.
  intros He Hn. pose proof (f_equal length He) as Hl. rewrite !length_app, !repeat_length in Hl. unfold word in *. rewrite !length_be_bytes in Hl.
  unfold zlength in *. apply app_inj_1 in He as [Hw He]; [|by rewrite !length_be_bytes].
  apply (f_equal from_be) in Hw. rewrite !from_be_be_bytes in Hw by (simpl Z.of_nat; lia).
  apply app_inj_1 in He as [He _]; [done|lia].
Qed.

Lemma scheduled_call_is_cancelled_by_its_sender_witness :
  reserved_fees (sc_chain scheduled.2) = 2
  /\ (schedule_execute (L := Agenda) 32 scale gas_to_weight_convert (cancel_input blank 7 0 task_name) scheduled.2).2
     = MkScheduleState 42 (MkAgenda [] 0)
  /\ schedule_execute (L := Agenda) 32 scale gas_to_weight_convert (cancel_input blank 8 0 task_name) scheduled.2
     = (Err (OtherError "NoPermission"), scheduled.2).
Proof.
  destruct (scheduled_call_is_cancelled_by_its_sender (L := Agenda) 32 scale gas_to_weight_convert scale_codec agenda_fees
              ltac:(vm_compute; discriminate) schedule_input 7 (returned (word 53 ++ task_name ++ repeat 0 11)) agenda scheduled.2
              ltac:(lia) schedule_bytes eq_refl eq_refl ltac:(split; vm_compute; discriminate)
              ltac:(rewrite <- scheduled_run; apply surjective_pairing)) as (task_id & gas & fee & l & _ & _ & Hout & _ & Hcancel).
  split; [vm_compute; reflexivity|]. split; [vm_compute; reflexivity|].
  rewrite <- (answer_names _ _ (f_equal (fun a : Answer => a.1.2) Hout) eq_refl). apply Hcancel; [reflexivity|lia|lia].
Defined.

(** Where [usize] has thirty-two bits, the length of the data wraps the end of its range
    to before the beginning, and the slice panics; the input is only too short where it has
    sixty-four. *)
Lemma long_data_panics :
  let input := abi_input blank 0x64c91905 [7; 9; 0; 210; 0; 5; 0; 2 ^ 32 - 1] [1; 2; 3] in
  (schedule_execute (L := Agenda) 32 scale gas_to_weight_convert input agenda).1 = Panic
  /\ (schedule_execute (L := Agenda) 64 scale gas_to_weight_convert input agenda).1 = invalid "invalid input".
Proof. split; vm_compute; reflexivity. Qed.
