(* ===== verification/Nft.v ===== *)
(** * The NFT pallet

    [lib-serml/tokens/nft/src/lib.rs]: classes of tokens, each with an account of its own
    that its creator controls by proxy, tokens with a deposit that is reserved from whoever
    holds them, and the trait the precompiled contract of tokens uses. What stores classes
    and tokens ([orml_nft]), the proxies and the currency are other pallets. *)

From Stdlib Require Import String.
From S2P Require Import Prelude Currency EvmManager EvmMeter Evm EvmRunner EvmBridge Currencies PrecompileInput Precompiles.

(** ** Properties of a class *)

Inductive ClassProperty : Type := Transferable | Burnable.

Definition property_bit (p : ClassProperty) : Z :=
  match p with Transferable => 1 | Burnable => 2 end.

(** [BitFlags<ClassProperty>], by its bits. *)
Abbreviation Properties := Z.

Definition properties_contain (properties : Properties) (p : ClassProperty) : bool :=
  Z.land properties (property_bit p) =? property_bit p.

Definition properties_encode (properties : Properties) : bytes := [properties].

(** [from_bits] knows two bits. *)
Definition properties_decode (input : bytes) : option Properties :=
  match input with
  | field :: _ => if Z.land field (Z.lor (property_bit Transferable) (property_bit Burnable)) =? field then Some field else None
  | [] => None
  end.

(** ** Data *)

Record ClassData : Type := MkClassData {
  class_deposit : Z;
  properties : Properties
}.

Record TokenData : Type := MkTokenData { token_deposit : Z }.

(** [orml_nft::ClassInfo] and [orml_nft::TokenInfo]. *)
Record ClassInfo (A : Type) : Type := MkClassInfo {
  class_metadata : bytes;
  total_issuance : Z;
  class_owner : A;
  class_data : ClassData
}.

Record TokenInfo (A : Type) : Type := MkTokenInfo {
  token_metadata : bytes;
  token_owner : A;
  token_data : TokenData
}.

Arguments MkClassInfo {A}.
Arguments class_metadata {A}.
Arguments total_issuance {A}.
Arguments class_owner {A}.
Arguments class_data {A}.
Arguments MkTokenInfo {A}.
Arguments token_metadata {A}.
Arguments token_owner {A}.
Arguments token_data {A}.

(** [orml_nft]: its maps of classes and tokens and what writes them. *)
Class OrmlNft (L X A : Type) : Type := {
  nft_classes : L -> gmap Z (ClassInfo A);
  nft_tokens : L -> gmap (Z * Z) (TokenInfo A);
  tokens_by_owner : A -> L -> list (Z * Z);
  next_class_id : L -> Z;
  orml_create_class : A -> bytes -> ClassData -> M L X Z;
  orml_mint : A -> Z -> bytes -> TokenData -> M L X Z;
  orml_transfer : A -> A -> Z * Z -> M L X unit;
  orml_burn : A -> Z * Z -> M L X unit;
  orml_destroy_class : A -> Z -> M L X unit
}.

(** [pallet_proxy]: delegates of the default type without a delay. *)
Class Proxies (L X A : Type) : Type := {
  proxy_deposit : Z -> Z;
  add_proxy_delegate : A -> A -> M L X unit;
  remove_proxy_delegate : A -> A -> M L X unit
}.

(** [Currency] and [ReservableCurrency], as far as deposits need them. [dc_unreserve] answers
    what it could not unreserve. *)
Class DepositCurrency (L X A : Type) : Type := {
  dc_free_balance : A -> L -> Z;
  dc_reserved_balance : A -> L -> Z;
  dc_transfer : A -> A -> Z -> ExistenceRequirement -> M L X unit;
  dc_reserve : A -> Z -> M L X unit;
  dc_unreserve : A -> Z -> L -> Z * L
}.

Inductive NftError : Type :=
| ClassIdNotFound
| TokenIdNotFound
| NoPermission
| InvalidQuantity
| NonTransferable
| NonBurnable
| CannotDestroyClass.

Inductive NftEvent (A : Type) : Type :=
| CreatedClass (owner : A) (class_id : Z)
| MintedToken (from to : A) (class_id quantity : Z)
| TransferredToken (from to : A) (class_id token_id : Z)
| BurnedToken (owner : A) (class_id token_id : Z)
| BurnedTokenWithRemark (owner : A) (class_id token_id : Z) (remark_hash : bytes)
| DestroyedClass (owner : A) (class_id : Z).

Arguments CreatedClass {A}.
Arguments MintedToken {A}.
Arguments TransferredToken {A}.
Arguments BurnedToken {A}.
Arguments BurnedTokenWithRemark {A}.
Arguments DestroyedClass {A}.

(** The pallet has no storage: its events, and the rest of the chain. *)
Record State (L A : Type) : Type := MkState {
  events : list (NftEvent A);
  chain : L
}.

Arguments MkState {L A}.
Arguments events {L A}.
Arguments chain {L A}.

Record Config (X A Origin Source : Type) : Type := MkConfig {
  create_class_deposit : Z;
  create_token_deposit : Z;
  sub_account : Z -> A;
  signed_by : Origin -> option A;
  lookup : Source -> option A;
  bad_origin : X;
  lookup_error : X;
  hash : bytes -> bytes
}.

Arguments MkConfig {X A Origin Source}.
Arguments create_class_deposit {X A Origin Source}.
Arguments create_token_deposit {X A Origin Source}.
Arguments sub_account {X A Origin Source}.
Arguments signed_by {X A Origin Source}.
Arguments lookup {X A Origin Source}.
Arguments bad_origin {X A Origin Source}.
Arguments lookup_error {X A Origin Source}.
Arguments hash {X A Origin Source}.

Section Nft.
Context {L X A Origin Source : Type} `{EqDecision A}.
Context `{!OrmlNft L X A} `{!Proxies L X A} `{!DepositCurrency L X A}.
Variable cfg : Config X A Origin Source.

Abbreviation St := (State L A).
Abbreviation Error := (NftError + X)%type.
Abbreviation Run := (M (State L A) (NftError + X)).

Definition set_chain (l : L) (s : St) : St := MkState (events s) l.

Definition call {B : Type} (m : M L X B) : Run B := zoom chain set_chain inr m.

Definition deposit_event (e : NftEvent A) : Run unit := modify (fun s => MkState (events s ++ [e]) (chain s)).

Definition ensure_signed (origin : Origin) : Run A := ok_or (signed_by cfg origin) (inr (bad_origin cfg)).

Definition lookup_account (source : Source) : Run A := ok_or (lookup cfg source) (inr (lookup_error cfg)).

(** [T::Currency::unreserve], whose answer is dropped. *)
Definition unreserve (who : A) (value : Z) : Run unit := modify (fun s => set_chain (dc_unreserve who value (chain s)).2 s).

(** [orml_nft::Pallet::<T>::classes(id).ok_or(ClassIdNotFound)], and the same for tokens. *)
Definition class_info (class_id : Z) : Run (ClassInfo A) :=
  let! maybe_info := gets (fun s => nft_classes (chain s) !! class_id) in
  ok_or maybe_info (inl ClassIdNotFound).

Definition token_info (token : Z * Z) : Run (TokenInfo A) :=
  let! maybe_info := gets (fun s => nft_tokens (chain s) !! token) in
  ok_or maybe_info (inl TokenIdNotFound).

Definition do_transfer (from to : A) (token : Z * Z) : Run unit :=
  transactional (
    let! class := class_info token.1 in
    do! ensure (properties_contain (properties (class_data class)) Transferable) (inl NonTransferable) in
    let! info := token_info token in
    do! call (orml_transfer from to token) in
    do! unreserve from (token_deposit (token_data info)) in
    do! call (dc_transfer from to (token_deposit (token_data info)) AllowDeath) in
    do! call (dc_reserve to (token_deposit (token_data info))) in
    deposit_event (TransferredToken from to token.1 token.2)).

Definition do_burn (who : A) (token : Z * Z) : Run unit :=
  transactional (
    let! class := class_info token.1 in
    do! ensure (properties_contain (properties (class_data class)) Burnable) (inl NonBurnable) in
    let! info := token_info token in
    do! ensure (bool_decide (who = token_owner info)) (inl NoPermission) in
    do! call (orml_burn who token) in
    unreserve who (token_deposit (token_data info))).

(** ** Calls *)

Definition create_class (origin : Origin) (metadata : bytes) (properties : Properties) : Run unit :=
  transactional (
    let! who := ensure_signed origin in
    let! next_id := gets (fun s => next_class_id (chain s)) in
    let owner := sub_account cfg next_id in
    let class_deposit := create_class_deposit cfg in
    let total_deposit := sat_add 128 (proxy_deposit 1) class_deposit in
    do! call (dc_transfer who owner total_deposit KeepAlive) in
    do! call (dc_reserve owner class_deposit) in
    do! call (add_proxy_delegate owner who) in
    do! call (orml_create_class owner metadata (MkClassData class_deposit properties)) in
    deposit_event (CreatedClass owner next_id)).

Definition mint (origin : Origin) (to : Source) (class_id : Z) (metadata : bytes) (quantity : Z) : Run unit :=
  transactional (
    let! who := ensure_signed origin in
    let! to := lookup_account to in
    do! ensure (1 <=? quantity) (inl InvalidQuantity) in
    let! class := class_info class_id in
    do! ensure (bool_decide (who = class_owner class)) (inl NoPermission) in
    let deposit := create_token_deposit cfg in
    let total_deposit := sat_mul 128 deposit quantity in
    do! call (dc_transfer who to total_deposit KeepAlive) in
    do! call (dc_reserve to total_deposit) in
    do! for_each (fun _ => do! call (orml_mint to class_id metadata (MkTokenData deposit)) in ret tt) (seq 0 (Z.to_nat quantity)) in
    deposit_event (MintedToken who to class_id quantity)).

Definition transfer (origin : Origin) (to : Source) (token : Z * Z) : Run unit :=
  transactional (
    let! who := ensure_signed origin in
    let! to := lookup_account to in
    do_transfer who to token).

Definition burn (origin : Origin) (token : Z * Z) : Run unit :=
  transactional (
    let! who := ensure_signed origin in
    do! do_burn who token in
    deposit_event (BurnedToken who token.1 token.2)).

Definition burn_with_remark (origin : Origin) (token : Z * Z) (remark : bytes) : Run unit :=
  transactional (
    let! who := ensure_signed origin in
    do! do_burn who token in
    deposit_event (BurnedTokenWithRemark who token.1 token.2 (hash cfg remark))).

Definition destroy_class (origin : Origin) (class_id : Z) (dest : Source) : Run unit :=
  transactional (
    let! who := ensure_signed origin in
    let! dest := lookup_account dest in
    let! class := class_info class_id in
    do! ensure (bool_decide (who = class_owner class)) (inl NoPermission) in
    do! ensure (total_issuance class =? 0) (inl CannotDestroyClass) in
    do! unreserve who (class_deposit (class_data class)) in
    do! call (orml_destroy_class who class_id) in
    do! call (remove_proxy_delegate who dest) in
    let! free := gets (fun s => dc_free_balance who (chain s)) in
    do! call (dc_transfer who dest free AllowDeath) in
    deposit_event (DestroyedClass who class_id)).

(** ** [orml_traits::NFT] *)

#[export] Instance nft_pallet : NFT St Error A := {
  nft_balance who s := Z.of_nat (length (tokens_by_owner who (chain s)));
  nft_owner token s := token_owner <$> nft_tokens (chain s) !! token;
  nft_transfer := do_transfer
}.
End Nft.
