(* ===== verification/NftTheorems.v ===== *)
(** * Tokens, their owners and their deposits

    In every state that the calls of the pallet reach, what is reserved from an account
    covers the deposits of the tokens and classes it owns; tokens change hands and disappear
    only by calls of their owners, where the class allows it; a token that moves takes its
    deposit along. *)

From Stdlib Require Import String.
From S2P Require Import Prelude Currency EvmManager EvmMeter Evm EvmRunner EvmBridge Currencies PrecompileInput Precompiles Nft.

(** ** What the other pallets do

    [held] is what is reserved from an account for others than the proxies, which reserve
    and unreserve their own deposits. The existential deposit is zero, as the runtimes
    configure it, so that no account loses what is reserved from it by a transfer. *)
Class NftLaws (L X A : Type) `{EqDecision A} `{!OrmlNft L X A} `{!Proxies L X A} `{!DepositCurrency L X A} : Type := {
  held : A -> L -> Z;
  held_reserved a l : 0 <= held a l <= dc_reserved_balance a l;

  reserve_held who v l l' a : dc_reserve who v l = (Ok tt, l') -> held a l' = held a l + (if bool_decide (a = who) then v else 0);
  reserve_nft who v l l' : dc_reserve who v l = (Ok tt, l') -> nft_tokens l' = nft_tokens l /\ nft_classes l' = nft_classes l;
  unreserve_held who v l a :
    0 <= v <= held who l -> held a (dc_unreserve who v l).2 = held a l - (if bool_decide (a = who) then v else 0);
  unreserve_nft who v l : nft_tokens (dc_unreserve who v l).2 = nft_tokens l /\ nft_classes (dc_unreserve who v l).2 = nft_classes l;
  transfer_held from to v er l l' a : dc_transfer from to v er l = (Ok tt, l') -> held a l' = held a l;
  transfer_nft from to v er l l' :
    dc_transfer from to v er l = (Ok tt, l') -> nft_tokens l' = nft_tokens l /\ nft_classes l' = nft_classes l;

  add_proxy_held who d l l' a : add_proxy_delegate who d l = (Ok tt, l') -> held a l' = held a l;
  add_proxy_nft who d l l' :
    add_proxy_delegate who d l = (Ok tt, l') -> nft_tokens l' = nft_tokens l /\ nft_classes l' = nft_classes l;
  remove_proxy_held who d l l' a : remove_proxy_delegate who d l = (Ok tt, l') -> held a l' = held a l;
  remove_proxy_nft who d l l' :
    remove_proxy_delegate who d l = (Ok tt, l') -> nft_tokens l' = nft_tokens l /\ nft_classes l' = nft_classes l;

  create_ok who m d l id l' : orml_create_class who m d l = (Ok id, l') ->
    id = next_class_id l /\ nft_classes l !! id = None
    /\ nft_classes l' = <[id := MkClassInfo m 0 who d]> (nft_classes l) /\ nft_tokens l' = nft_tokens l
    /\ forall a, held a l' = held a l;
  mint_ok to c m d l t l' : orml_mint to c m d l = (Ok t, l') ->
    exists ci, nft_classes l !! c = Some ci /\ nft_tokens l !! (c, t) = None
    /\ nft_classes l' = <[c := MkClassInfo (class_metadata ci) (total_issuance ci + 1) (class_owner ci) (class_data ci)]> (nft_classes l)
    /\ nft_tokens l' = <[(c, t) := MkTokenInfo m to d]> (nft_tokens l)
    /\ forall a, held a l' = held a l;
  move_ok from to token l l' : orml_transfer from to token l = (Ok tt, l') ->
    exists ti, nft_tokens l !! token = Some ti /\ token_owner ti = from
    /\ nft_tokens l' = <[token := MkTokenInfo (token_metadata ti) to (token_data ti)]> (nft_tokens l)
    /\ nft_classes l' = nft_classes l /\ forall a, held a l' = held a l;
  burn_ok who token l l' : orml_burn who token l = (Ok tt, l') ->
    exists ti ci, nft_tokens l !! token = Some ti /\ token_owner ti = who /\ nft_classes l !! token.1 = Some ci
    /\ nft_tokens l' = delete token (nft_tokens l)
    /\ nft_classes l' = <[token.1 := MkClassInfo (class_metadata ci) (total_issuance ci - 1) (class_owner ci) (class_data ci)]> (nft_classes l)
    /\ forall a, held a l' = held a l;
  destroy_ok who c l l' : orml_destroy_class who c l = (Ok tt, l') ->
    exists ci, nft_classes l !! c = Some ci /\ class_owner ci = who /\ total_issuance ci = 0
    /\ nft_classes l' = delete c (nft_classes l) /\ nft_tokens l' = nft_tokens l
    /\ forall a, held a l' = held a l
}.

Section Tokens.
Context {L X A Origin Source : Type} `{EqDecision A}.
Context `{!OrmlNft L X A} `{!Proxies L X A} `{!DepositCurrency L X A} `{!NftLaws L X A}.
Variable cfg : Config X A Origin Source.

Abbreviation St := (State L A).
Abbreviation Error := (NftError + X)%type.

(** ** The deposits of what an account owns *)

Definition owns (a o : A) (v : Z) : Z := if bool_decide (a = o) then v else 0.

Definition token_deposits (a : A) (tokens : gmap (Z * Z) (TokenInfo A)) : Z :=
  map_sum (fun _ ti => owns a (token_owner ti) (token_deposit (token_data ti))) tokens.

Definition class_deposits (a : A) (classes : gmap Z (ClassInfo A)) : Z :=
  map_sum (fun _ ci => owns a (class_owner ci) (class_deposit (class_data ci))) classes.

Definition deposits (a : A) (l : L) : Z := token_deposits a (nft_tokens l) + class_deposits a (nft_classes l).

(** How many tokens a class has. *)
Definition tokens_of (c : Z) (tokens : gmap (Z * Z) (TokenInfo A)) : Z :=
  map_sum (fun k _ => if k.1 =? c then 1 else 0) tokens.

(** What every step of a call keeps. *)
Record well_formed (l : L) : Prop := {
  wf_token k ti : nft_tokens l !! k = Some ti -> 0 <= token_deposit (token_data ti) /\ is_Some (nft_classes l !! k.1);
  wf_class c ci : nft_classes l !! c = Some ci ->
    0 <= class_deposit (class_data ci) /\ total_issuance ci = tokens_of c (nft_tokens l)
}.

(** The invariant. *)
Record covered (l : L) : Prop := {
  cov_wf : well_formed l;
  cov_held a : deposits a l <= held a l
}.

Lemma owns_nonneg a o v : 0 <= v -> 0 <= owns a o v.
Proof. unfold owns. by case_bool_decide. Qed.

Lemma owns_self a v : owns a a v = v.
Proof. unfold owns. by rewrite bool_decide_eq_true_2. Qed.

Lemma tokens_of_absent c l : well_formed l -> nft_classes l !! c = None -> tokens_of c (nft_tokens l) = 0.
Proof.
  intros Hwf Hc. unfold tokens_of. rewrite (map_sum_ext _ (fun _ _ => 0)); [apply map_sum_zero|].
  intros k ti Hk. destruct (Z.eqb_spec k.1 c) as [<-|]; [|done]. apply (wf_token l Hwf) in Hk as [_ [ci Hci]]. congruence.
Qed.

(** One deposit is part of all. *)
Lemma token_deposit_le l k ti :
  well_formed l -> nft_tokens l !! k = Some ti -> token_deposit (token_data ti) <= deposits (token_owner ti) l.
Proof.
  intros Hwf Hk. unfold deposits, token_deposits.
  pose proof (map_at_le_sum (fun _ ti' => owns (token_owner ti) (token_owner ti') (token_deposit (token_data ti'))) (nft_tokens l) k) as Hle.
  unfold map_at in Hle. rewrite Hk, owns_self in Hle.
  assert (0 <= class_deposits (token_owner ti) (nft_classes l)).
  { apply map_sum_nonneg. intros c ci Hc. by apply owns_nonneg, (wf_class l Hwf c). }
  etransitivity; [apply Hle|lia]. intros k' ti' Hk'. by apply owns_nonneg, (wf_token l Hwf k').
Qed.

Lemma class_deposit_le l c ci :
  well_formed l -> nft_classes l !! c = Some ci -> class_deposit (class_data ci) <= deposits (class_owner ci) l.
Proof.
  intros Hwf Hc. unfold deposits, class_deposits.
  pose proof (map_at_le_sum (fun _ ci' => owns (class_owner ci) (class_owner ci') (class_deposit (class_data ci'))) (nft_classes l) c) as Hle.
  unfold map_at in Hle. rewrite Hc, owns_self in Hle.
  assert (0 <= token_deposits (class_owner ci) (nft_tokens l)).
  { apply map_sum_nonneg. intros k ti Hk. by apply owns_nonneg, (wf_token l Hwf k). }
  etransitivity; [apply Hle|lia]. intros c' ci' Hc'. by apply owns_nonneg, (wf_class l Hwf c').
Qed.

(** ** What the writes do to the deposits *)

Lemma moved_deposits l l' token ti to a :
  nft_tokens l !! token = Some ti ->
  nft_tokens l' = <[token := MkTokenInfo (token_metadata ti) to (token_data ti)]> (nft_tokens l) -> nft_classes l' = nft_classes l ->
  deposits a l' = deposits a l - owns a (token_owner ti) (token_deposit (token_data ti)) + owns a to (token_deposit (token_data ti)).
Proof.
  intros Hk Ht Hc. unfold deposits, token_deposits. rewrite Ht, Hc, map_sum_insert. unfold map_at. rewrite Hk. simpl. lia.
Qed.

Lemma moved_wf l l' token ti to :
  nft_tokens l !! token = Some ti ->
  nft_tokens l' = <[token := MkTokenInfo (token_metadata ti) to (token_data ti)]> (nft_tokens l) -> nft_classes l' = nft_classes l ->
  well_formed l -> well_formed l'.
Proof.
  intros Hk Ht Hc Hwf. split; rewrite Ht, Hc.
  - intros k ti'. rewrite lookup_insert_Some. intros [[<- <-]|[_ Hk']]; [|by apply (wf_token l Hwf)].
    simpl. by apply (wf_token l Hwf token).
  - intros c ci Hci. apply (wf_class l Hwf) in Hci as [Hd Hi]. split; [done|]. rewrite Hi. unfold tokens_of.
    rewrite map_sum_insert. unfold map_at. rewrite Hk. lia.
Qed.

(** A class with another number of tokens. *)
Definition recount (ci : ClassInfo A) (n : Z) : ClassInfo A := MkClassInfo (class_metadata ci) n (class_owner ci) (class_data ci).

Lemma recount_deposits a classes c ci n : classes !! c = Some ci -> class_deposits a (<[c := recount ci n]> classes) = class_deposits a classes.
Proof. intros Hc. unfold class_deposits. rewrite map_sum_insert. unfold map_at. rewrite Hc. simpl. lia. Qed.

(** The classes stay well-formed if one is counted again, as the tokens are. *)
Lemma recount_wf l l' c ci n :
  well_formed l -> nft_classes l !! c = Some ci -> nft_classes l' = <[c := recount ci n]> (nft_classes l) ->
  (forall k ti, nft_tokens l' !! k = Some ti -> (0 <= token_deposit (token_data ti) /\ k.1 = c) \/ nft_tokens l !! k = Some ti) ->
  n - total_issuance ci = tokens_of c (nft_tokens l') - tokens_of c (nft_tokens l) ->
  (forall c', c' <> c -> tokens_of c' (nft_tokens l') = tokens_of c' (nft_tokens l)) ->
  well_formed l'.
Proof.
  intros Hwf Hc Hcs Ht Hn Hother. split; rewrite Hcs.
  - intros k ti Hk. apply Ht in Hk as [[Hd Hkc]|Hk].
    + split; [done|]. rewrite Hkc, lookup_insert_eq. done.
    + apply (wf_token l Hwf) in Hk as [Hd Hk]. split; [done|]. destruct (decide (c = k.1)) as [<-|]; [by rewrite lookup_insert_eq|by rewrite lookup_insert_ne].
  - intros c' ci'. rewrite lookup_insert_Some. intros [[<- <-]|[Hne Hc']]; simpl.
    + pose proof (wf_class l Hwf c ci Hc). split; [apply (wf_class l Hwf c ci Hc)|lia].
    + rewrite Hother by done. by apply (wf_class l Hwf).
Qed.

Lemma burned_covers l l' token ti ci :
  nft_tokens l !! token = Some ti -> nft_classes l !! token.1 = Some ci ->
  nft_tokens l' = delete token (nft_tokens l) ->
  nft_classes l' = <[token.1 := recount ci (total_issuance ci - 1)]> (nft_classes l) -> well_formed l ->
  well_formed l' /\ forall a, deposits a l' = deposits a l - owns a (token_owner ti) (token_deposit (token_data ti)).
Proof.
  intros Hk Hc Ht Hcs Hwf.
  assert (forall c, tokens_of c (nft_tokens l') = tokens_of c (nft_tokens l) - (if token.1 =? c then 1 else 0)) as Hcount.
  { intros c. unfold tokens_of. rewrite Ht, map_sum_delete_at. unfold map_at. by rewrite Hk. }
  split.
  - eapply recount_wf; [exact Hwf|exact Hc|exact Hcs|..].
    + intros k ti'. rewrite Ht, lookup_delete_Some. intros [_ Hk']. by right.
    + rewrite Hcount, Z.eqb_refl. lia.
    + intros c' Hne. rewrite Hcount, (proj2 (Z.eqb_neq _ _)) by done. lia.
  - intros a. unfold deposits. rewrite Hcs, recount_deposits by done. unfold token_deposits. rewrite Ht, map_sum_delete_at.
    unfold map_at. rewrite Hk. lia.
Qed.

Lemma minted_covers l l' c t m to d ci :
  nft_tokens l !! (c, t) = None -> nft_classes l !! c = Some ci -> 0 <= token_deposit d ->
  nft_tokens l' = <[(c, t) := MkTokenInfo m to d]> (nft_tokens l) ->
  nft_classes l' = <[c := recount ci (total_issuance ci + 1)]> (nft_classes l) -> well_formed l ->
  well_formed l' /\ forall a, deposits a l' = deposits a l + owns a to (token_deposit d).
Proof.
  intros Hk Hc Hd Ht Hcs Hwf.
  assert (forall c', tokens_of c' (nft_tokens l') = tokens_of c' (nft_tokens l) + (if c =? c' then 1 else 0)) as Hcount.
  { intros c'. unfold tokens_of. rewrite Ht, map_sum_insert_new by done. simpl. lia. }
  split.
  - eapply recount_wf; [exact Hwf|exact Hc|exact Hcs|..].
    + intros k ti'. rewrite Ht, lookup_insert_Some. intros [[<- <-]|[_ Hk']]; [by left|by right].
    + rewrite Hcount, Z.eqb_refl. lia.
    + intros c' Hne. rewrite Hcount, (proj2 (Z.eqb_neq _ _)) by done. lia.
  - intros a. unfold deposits. rewrite Hcs, recount_deposits by done. unfold token_deposits. rewrite Ht, map_sum_insert_new by done. simpl. lia.
Qed.

Lemma created_covers l l' c ci :
  nft_classes l !! c = None -> total_issuance ci = 0 -> 0 <= class_deposit (class_data ci) ->
  nft_classes l' = <[c := ci]> (nft_classes l) -> nft_tokens l' = nft_tokens l -> well_formed l ->
  well_formed l' /\ forall a, deposits a l' = deposits a l + owns a (class_owner ci) (class_deposit (class_data ci)).
Proof.
  intros Hc Hn Hd Hcs Ht Hwf. split; [split; rewrite Hcs, Ht|].
  - intros k ti Hk. apply (wf_token l Hwf) in Hk as [Hkd [ci' Hk]]. split; [done|]. rewrite lookup_insert_ne; [by eexists|]. intros ->. congruence.
  - intros c' ci'. rewrite lookup_insert_Some. intros [[<- <-]|[_ Hc']]; [|by apply (wf_class l Hwf)]. split; [done|].
    by rewrite tokens_of_absent.
  - intros a. unfold deposits, class_deposits. rewrite Hcs, Ht, map_sum_insert_new by done. lia.
Qed.

Lemma destroyed_covers l l' c ci :
  nft_classes l !! c = Some ci -> total_issuance ci = 0 -> nft_classes l' = delete c (nft_classes l) -> nft_tokens l' = nft_tokens l ->
  well_formed l -> well_formed l' /\ forall a, deposits a l' = deposits a l - owns a (class_owner ci) (class_deposit (class_data ci)).
Proof.
  intros Hc Hn Hcs Ht Hwf. split; [split; rewrite Hcs, Ht|].
  - intros k ti Hk. pose proof (wf_token l Hwf k ti Hk) as [Hd Hkc]. split; [done|]. rewrite lookup_delete_ne; [done|]. intros ->.
    destruct (wf_class l Hwf _ _ Hc) as [_ Hcount]. rewrite Hn in Hcount. unfold tokens_of in Hcount.
    pose proof (map_at_le_sum (fun k' (_ : TokenInfo A) => if k'.1 =? k.1 then 1 else 0) (nft_tokens l) k) as Hle.
    unfold map_at in Hle. rewrite Hk, Z.eqb_refl in Hle. specialize (Hle ltac:(intros k' v _; simpl; destruct (k'.1 =? k.1); lia)). lia.
  - intros c' ci'. rewrite lookup_delete_Some. intros [_ Hc']. by apply (wf_class l Hwf).
  - intros a. unfold deposits, class_deposits. rewrite Hcs, Ht, map_sum_delete_at. unfold map_at. rewrite Hc. lia.
Qed.

(** A run of transactions that change neither tokens nor classes. *)
Definition same_nft (l l' : L) : Prop := nft_tokens l' = nft_tokens l /\ nft_classes l' = nft_classes l.

Lemma same_wf l l' : same_nft l l' -> well_formed l -> well_formed l'.
Proof. intros [Ht Hc] Hwf. split; rewrite Ht, Hc; apply Hwf. Qed.

Lemma same_deposits l l' a : same_nft l l' -> deposits a l' = deposits a l.
Proof. intros [Ht Hc]. unfold deposits. by rewrite Ht, Hc. Qed.

Lemma nft_call_ok {B : Type} (m : M L X B) (s s' : St) b :
  call m s = (Ok b, s') <-> exists l, m (chain s) = (Ok b, l) /\ s' = set_chain l s.
Proof. unfold call. apply zoom_ok. Qed.

Lemma class_info_ok c (s s' : St) ci : class_info c s = (Ok ci, s') <-> nft_classes (chain s) !! c = Some ci /\ s' = s.
Proof. unfold class_info. split; [intros Hrun; by run_inv Hrun|]. intros [Hc ->]. unfold bind, gets. by rewrite Hc. Qed.

Lemma token_info_ok k (s s' : St) ti : token_info k s = (Ok ti, s') <-> nft_tokens (chain s) !! k = Some ti /\ s' = s.
Proof. unfold token_info. split; [intros Hrun; by run_inv Hrun|]. intros [Hc ->]. unfold bind, gets. by rewrite Hc. Qed.
(** Take a call apart, the transactions of the other pallets included. *)
Ltac nft_inv H :=
  unfold class_info, token_info, unreserve, deposit_event, ensure_signed, lookup_account, call in H; run_inv H;
  repeat match goal with u : unit |- _ => destruct u end; bool_inv.

(** ** Moving and burning a token *)

Lemma do_transfer_effect from to token (s s' : St) u :
  do_transfer from to token s = (Ok u, s') -> covered (chain s) ->
  exists ci ti, nft_classes (chain s) !! token.1 = Some ci /\ properties_contain (properties (class_data ci)) Transferable = true
    /\ nft_tokens (chain s) !! token = Some ti /\ token_owner ti = from
    /\ nft_tokens (chain s') = <[token := MkTokenInfo (token_metadata ti) to (token_data ti)]> (nft_tokens (chain s))
    /\ nft_classes (chain s') = nft_classes (chain s)
    /\ forall a, held a (chain s') = held a (chain s) - owns a from (token_deposit (token_data ti)) + owns a to (token_deposit (token_data ti)).
Proof.
  unfold do_transfer. intros Hrun Hcov. nft_inv Hrun.
  destruct (move_ok _ _ _ _ _ R3) as (ti & Hti & Howner & Ht & Hc & Hh). rewrite R2 in Hti. injection Hti as <-.
  set (d := token_deposit _) in *.
  destruct (unreserve_nft from d x4) as [Ht1 Hc1]. destruct (transfer_nft _ _ _ _ _ _ R4) as [Ht2 Hc2]. destruct (reserve_nft _ _ _ _ R5) as [Ht3 Hc3].
  eexists _, _. split_and!; [done..| | |]; [by rewrite Ht3, Ht2, Ht1|by rewrite Hc3, Hc2, Hc1|].
  intros a. rewrite (reserve_held _ _ _ _ a R5), (transfer_held _ _ _ _ _ _ a R4), unreserve_held, Hh; [done|].
  rewrite Hh. pose proof (token_deposit_le _ _ _ (cov_wf _ Hcov) R2) as Hle. rewrite Howner in Hle.
  pose proof (cov_held _ Hcov from). pose proof (wf_token _ (cov_wf _ Hcov) _ _ R2) as [? _]. unfold d. lia.
Qed.

Lemma do_transfer_covered from to token (s s' : St) u :
  do_transfer from to token s = (Ok u, s') -> covered (chain s) -> covered (chain s').
Proof.
  intros Hrun Hcov. destruct (do_transfer_effect _ _ _ _ _ _ Hrun Hcov) as (ci & ti & _ & _ & Hti & Howner & Ht & Hc & Hh).
  split; [by eapply moved_wf; [..|apply Hcov]|]. intros a. rewrite (moved_deposits _ _ _ _ _ a Hti Ht Hc), Hh, Howner.
  pose proof (cov_held _ Hcov a). lia.
Qed.

Lemma do_burn_effect who token (s s' : St) u :
  do_burn who token s = (Ok u, s') -> covered (chain s) ->
  exists ci ti, nft_classes (chain s) !! token.1 = Some ci /\ properties_contain (properties (class_data ci)) Burnable = true
    /\ nft_tokens (chain s) !! token = Some ti /\ token_owner ti = who
    /\ nft_tokens (chain s') = delete token (nft_tokens (chain s))
    /\ nft_classes (chain s') = <[token.1 := MkClassInfo (class_metadata ci) (total_issuance ci - 1) (class_owner ci) (class_data ci)]> (nft_classes (chain s))
    /\ forall a, held a (chain s') = held a (chain s) - owns a who (token_deposit (token_data ti)).
Proof.
  unfold do_burn. intros Hrun Hcov. nft_inv Hrun. destruct (burn_ok _ _ _ _ R4) as (ti & ci & Hti & Howner & Hci & Ht & Hc & Hh).
  rewrite R2 in Hti. injection Hti as <-. rewrite R0 in Hci. injection Hci as <-.
  destruct (unreserve_nft who (token_deposit (token_data x1)) x5) as [Ht1 Hc1].
  eexists _, _. split_and!; [done..|by rewrite Ht1|by rewrite Hc1|]. intros a. rewrite unreserve_held, Hh; [done|]. rewrite Hh.
  pose proof (token_deposit_le _ _ _ (cov_wf _ Hcov) R2) as Hle. rewrite Howner in Hle.
  pose proof (cov_held _ Hcov who). pose proof (wf_token _ (cov_wf _ Hcov) _ _ R2) as [? _]. lia.
Qed.

Lemma do_burn_covered who token (s s' : St) u :
  do_burn who token s = (Ok u, s') -> covered (chain s) -> covered (chain s').
Proof.
  intros Hrun Hcov. destruct (do_burn_effect _ _ _ _ _ Hrun Hcov) as (ci & ti & Hci & _ & Hti & Howner & Ht & Hc & Hh).
  destruct (burned_covers _ _ _ _ _ Hti Hci Ht Hc (cov_wf _ Hcov)) as [Hwf Hd].
  split; [done|]. intros a. rewrite Hd, Hh, Howner. pose proof (cov_held _ Hcov a). lia.
Qed.
(** ** Minting, and the calls on classes *)

Hypothesis class_deposit_nonneg : 0 <= create_class_deposit cfg.
Hypothesis token_deposit_nonneg : 0 <= create_token_deposit cfg.

(** As many tokens as one call mints do not have more deposit than a balance holds. *)
Hypothesis deposits_fit : create_token_deposit cfg * umax 32 <= umax 128.

Lemma mint_all to c m d (xs : list nat) (s s' : St) u :
  for_each (fun _ => do! call (orml_mint to c m (MkTokenData d)) in ret tt) xs s = (Ok u, s') -> 0 <= d -> well_formed (chain s) ->
  well_formed (chain s')
  /\ (forall a, deposits a (chain s') = deposits a (chain s) + owns a to (d * Z.of_nat (length xs)))
  /\ (forall a, held a (chain s') = held a (chain s))
  /\ forall k ti, nft_tokens (chain s) !! k = Some ti -> nft_tokens (chain s') !! k = Some ti.
Proof.
  revert s. induction xs as [|x xs IH]; intros s Hrun Hd Hwf; cbn [for_each length] in Hrun |- *.
  - run_inv Hrun. split_and!; [done| |done..]. intros a. unfold owns. case_bool_decide; lia.
  - rewrite bind_ok in Hrun. destruct Hrun as ([] & s1 & Hone & Hrun). nft_inv Hone.
    destruct (mint_ok _ _ _ _ _ _ _ R0) as (ci & Hci & Hk & Hcs & Ht & Hh).
    match type of Hrun with _ (set_chain ?l _) = _ => destruct (minted_covers _ l _ _ _ _ (MkTokenData d) _ Hk Hci Hd Ht Hcs Hwf) as [Hwf1 Hd1] end.
    apply IH in Hrun as (Hwf2 & Hd2 & Hh2 & Ht2); [|done..]. split_and!; [done|..].
    + intros a. rewrite Hd2. simpl. rewrite Hd1. unfold owns. simpl. case_bool_decide; lia.
    + intros a. rewrite Hh2. apply Hh.
    + intros k ti Hki. apply Ht2. simpl. rewrite Ht, lookup_insert_ne; [done|]. intros <-. congruence.
Qed.

Lemma mint_covered o to c m q (s s' : St) u :
  mint cfg o to c m q s = (Ok u, s') -> in_uint 32 q -> covered (chain s) ->
  covered (chain s') /\ forall k ti, nft_tokens (chain s) !! k = Some ti -> nft_tokens (chain s') !! k = Some ti.
Proof.
  unfold mint. intros Hrun Hq Hcov. nft_inv Hrun.
  assert (sat_mul 128 (create_token_deposit cfg) q = create_token_deposit cfg * q) as Hmul.
  { unfold sat_mul. apply Z.min_l. unfold in_uint in Hq. nia. }
  rewrite Hmul in *. destruct (transfer_nft _ _ _ _ _ _ R5) as [Ht1 Hc1]. destruct (reserve_nft _ _ _ _ R6) as [Ht2 Hc2].
  assert (same_nft (chain s) x8) as Hsame by (split; congruence).
  apply mint_all in R as (Hwf & Hd & Hh & Hkeep); [|done|by eapply same_wf; [|apply Hcov]]. simpl in *. split.
  - split; [done|]. intros a. rewrite Hd, Hh, (same_deposits _ _ a Hsame), (reserve_held _ _ _ _ a R6), (transfer_held _ _ _ _ _ _ a R5).
    pose proof (cov_held _ Hcov a). rewrite length_seq, Z2Nat.id by lia. unfold owns. lia.
  - intros k ti Hk. apply Hkeep. by rewrite (proj1 Hsame).
Qed.

Lemma create_class_covered o m p (s s' : St) u :
  create_class cfg o m p s = (Ok u, s') -> covered (chain s) ->
  covered (chain s') /\ nft_tokens (chain s') = nft_tokens (chain s).
Proof.
  unfold create_class. intros Hrun Hcov. nft_inv Hrun. set (owner := sub_account cfg _) in *.
  destruct (transfer_nft _ _ _ _ _ _ R1) as [Ht1 Hc1]. destruct (reserve_nft _ _ _ _ R2) as [Ht2 Hc2]. destruct (add_proxy_nft _ _ _ _ R3) as [Ht3 Hc3].
  assert (same_nft (chain s) x6) as Hsame by (split; congruence).
  destruct (create_ok _ _ _ _ _ _ R4) as (_ & Hnew & Hcs & Ht & Hh).
  destruct (created_covers x6 x8 _ (MkClassInfo m 0 owner (MkClassData (create_class_deposit cfg) p)) Hnew eq_refl class_deposit_nonneg Hcs Ht (same_wf _ _ Hsame (cov_wf _ Hcov))) as [Hwf Hd].
  split; [split; [done|]|by rewrite Ht; apply Hsame]. intros a.
  rewrite Hd, Hh, (same_deposits _ _ a Hsame), (add_proxy_held _ _ _ _ a R3), (reserve_held _ _ _ _ a R2), (transfer_held _ _ _ _ _ _ a R1).
  pose proof (cov_held _ Hcov a). simpl. unfold owns. lia.
Qed.

Lemma destroy_class_covered o c dest (s s' : St) u :
  destroy_class cfg o c dest s = (Ok u, s') -> covered (chain s) ->
  covered (chain s') /\ nft_tokens (chain s') = nft_tokens (chain s).
Proof.
  unfold destroy_class. intros Hrun Hcov. nft_inv Hrun. subst x.
  destruct (unreserve_nft (class_owner x1) (class_deposit (class_data x1)) (chain s)) as [Ht1 Hc1].
  destruct (destroy_ok _ _ _ _ R5) as (ci & Hci & Howner & Hn & Hcs & Ht & Hh). rewrite Hc1, R2 in Hci. injection Hci as <-.
  destruct (destroyed_covers _ _ _ _ R2 Hn ltac:(by rewrite Hcs, Hc1) ltac:(by rewrite Ht, Ht1) (cov_wf _ Hcov)) as [Hwf Hd].
  destruct (remove_proxy_nft _ _ _ _ R6) as [Ht2 Hc2]. destruct (transfer_nft _ _ _ _ _ _ R7) as [Ht3 Hc3].
  assert (same_nft x7 x11) as Hsame by (split; congruence).
  split; [split; [by eapply same_wf|]|by rewrite Ht3, Ht2, Ht, Ht1]. intros a.
  rewrite (same_deposits _ _ a Hsame), Hd, (transfer_held _ _ _ _ _ _ a R7), (remove_proxy_held _ _ _ _ a R6), Hh.
  pose proof (cov_held _ Hcov a). pose proof (class_deposit_le _ _ _ (cov_wf _ Hcov) R2). pose proof (cov_held _ Hcov (class_owner x1)).
  destruct (wf_class _ (cov_wf _ Hcov) _ _ R2) as [Hnn _]. rewrite unreserve_held by lia. unfold owns. lia.
Qed.

(** ** Histories *)

(** The calls of users, with the arguments their types allow. *)
Inductive nft_call : Type :=
| CallCreateClass (metadata : bytes) (properties : Properties)
| CallMint (to : Source) (class_id : Z) (metadata : bytes) (quantity : Z)
| CallTransfer (to : Source) (token : Z * Z)
| CallBurn (token : Z * Z)
| CallBurnWithRemark (token : Z * Z) (remark : bytes)
| CallDestroyClass (class_id : Z) (dest : Source).

Definition run_call (o : Origin) (c : nft_call) : M St Error unit :=
  match c with
  | CallCreateClass metadata properties => create_class cfg o metadata properties
  | CallMint to class_id metadata quantity => mint cfg o to class_id metadata quantity
  | CallTransfer to token => transfer cfg o to token
  | CallBurn token => burn cfg o token
  | CallBurnWithRemark token remark => burn_with_remark cfg o token remark
  | CallDestroyClass class_id dest => destroy_class cfg o class_id dest
  end.

Definition call_in_range (c : nft_call) : Prop :=
  match c with CallMint _ _ _ quantity => in_uint 32 quantity | _ => True end.

(** From a chain without tokens: calls, transfers that contracts ask for, and what other
    pallets do, which do not touch the tokens or what is reserved for them. *)
Inductive reachable : St -> Prop :=
| Fresh s : nft_tokens (chain s) = ∅ -> nft_classes (chain s) = ∅ -> reachable s
| Called s o c r s' : reachable s -> call_in_range c -> run_call o c s = (r, s') -> reachable s'
| ByContract s from to token r s' : reachable s -> @nft_transfer _ _ _ nft_pallet from to token s = (r, s') -> reachable s'
| Elsewhere s l : reachable s -> same_nft (chain s) l -> (forall a, held a (chain s) <= held a l) -> reachable (set_chain l s).

(** Calls that do not succeed change nothing. *)
Lemma run_call_refused o c (s s' : St) r : run_call o c s = (r, s') -> (forall u, r <> Ok u) -> s' = s.
Proof. destruct c; apply transactional_rollback. Qed.

Lemma transfer_call o to token (s s' : St) u :
  transfer cfg o to token s = (Ok u, s') -> exists who dest, signed_by cfg o = Some who /\ lookup cfg to = Some dest /\ do_transfer who dest token s = (Ok u, s').
Proof.
  unfold transfer, ensure_signed, lookup_account. intros Hrun. run_step Hrun. by eexists _, _.
Qed.

Lemma burn_call o token e (s s' : St) u :
  transactional (let! who := ensure_signed cfg o in do! do_burn who token in deposit_event (e who)) s = (Ok u, s') ->
  exists who s1, signed_by cfg o = Some who /\ do_burn who token s = (Ok tt, s1) /\ chain s' = chain s1.
Proof.
  unfold ensure_signed, deposit_event. intros Hrun. run_inv Hrun. repeat match goal with u : unit |- _ => destruct u end. by eexists _, _.
Qed.

Lemma run_call_covered o c (s s' : St) u :
  run_call o c s = (Ok u, s') -> call_in_range c -> covered (chain s) -> covered (chain s').
Proof.
  destruct c; simpl; intros Hrun Hc Hcov.
  - by eapply create_class_covered.
  - by eapply mint_covered.
  - apply transfer_call in Hrun as (who & dest & _ & _ & Hrun). by eapply do_transfer_covered.
  - apply burn_call in Hrun as (who & s1 & _ & Hrun & ->). by eapply do_burn_covered.
  - apply (burn_call _ _ (fun who => BurnedTokenWithRemark who token.1 token.2 (hash cfg remark))) in Hrun as (who & s1 & _ & Hrun & ->).
    by eapply do_burn_covered.
  - by eapply destroy_class_covered.
Qed.

Lemma reachable_covered (s : St) : reachable s -> covered (chain s).
Proof.
  induction 1 as [s Ht Hc|s o c r s' _ IH Hc Hrun|s from to token r s' _ IH Hrun|s l _ IH Hsame Hheld].
  - split; [split; rewrite ?Ht, ?Hc; intros ? ? Hk; by rewrite lookup_empty in Hk|].
    intros a. unfold deposits, token_deposits, class_deposits. rewrite Ht, Hc, !map_sum_empty. apply held_reserved.
  - destruct r as [u|e|]; [eapply run_call_covered; [exact Hrun|exact Hc|exact IH]| |]; by rewrite (run_call_refused _ _ _ _ _ Hrun).
  - destruct r as [u|e|]; [eapply do_transfer_covered; [exact Hrun|exact IH]| |]; by rewrite (transactional_rollback _ _ _ _ Hrun).
  - split; [by eapply same_wf; [|apply IH]|]. intros a. simpl. rewrite (same_deposits _ _ a Hsame).
    etransitivity; [apply IH|apply Hheld].
Qed.
(** ** The properties *)

(** C19: what is reserved from an account covers the deposits of the tokens and the classes it
    owns, and a class counts the tokens it has. *)
Theorem deposits_stay_reserved (s : St) :
  reachable s ->
  (forall a, deposits a (chain s) <= dc_reserved_balance a (chain s))
  /\ forall c ci, nft_classes (chain s) !! c = Some ci -> total_issuance ci = tokens_of c (nft_tokens (chain s)).
Proof.
  intros Hr%reachable_covered. split.
  - intros a. etransitivity; [apply Hr|apply held_reserved].
  - intros c ci Hc. by apply (wf_class _ (cov_wf _ Hr)).
Qed.

(** C20: a call leaves a token as it is, unless its owner makes the call: then it moves to the
    account that the call names, if the class lets tokens be transferred, or it is gone, if
    the class lets them be burned. *)
Theorem tokens_obey_their_owner o c (s s' : St) r k ti :
  reachable s -> call_in_range c -> run_call o c s = (r, s') -> nft_tokens (chain s) !! k = Some ti ->
  nft_tokens (chain s') !! k = Some ti
  \/ exists ci, nft_classes (chain s) !! k.1 = Some ci /\ signed_by cfg o = Some (token_owner ti)
     /\ ((exists to dest, c = CallTransfer to k /\ lookup cfg to = Some dest
            /\ properties_contain (properties (class_data ci)) Transferable = true
            /\ nft_tokens (chain s') !! k = Some (MkTokenInfo (token_metadata ti) dest (token_data ti)))
         \/ (properties_contain (properties (class_data ci)) Burnable = true /\ nft_tokens (chain s') !! k = None)).
Proof.
  intros Hr%reachable_covered Hc Hrun Hk. destruct r as [u|e|]; [|left; by rewrite (run_call_refused _ _ _ _ _ Hrun)..].
  assert (forall who s1 token, signed_by cfg o = Some who -> do_burn who token s = (Ok tt, s1) -> chain s' = chain s1 ->
    nft_tokens (chain s') !! k = Some ti
    \/ exists ci, nft_classes (chain s) !! k.1 = Some ci /\ signed_by cfg o = Some (token_owner ti)
       /\ properties_contain (properties (class_data ci)) Burnable = true /\ nft_tokens (chain s') !! k = None) as Hburn.
  { intros who s1 token Hw Hb ->. destruct (do_burn_effect _ _ _ _ _ Hb Hr) as (ci & ti' & Hci & Hp & Hti & Ho & -> & _ & _).
    destruct (decide (token = k)) as [->|Hne]; [right|left; by rewrite lookup_delete_ne]. exists ci.
    rewrite Hk in Hti. injection Hti as <-. rewrite Ho, lookup_delete_eq. done. }
  destruct c; simpl in Hrun.
  - left. by rewrite (proj2 (create_class_covered _ _ _ _ _ _ Hrun Hr)).
  - left. by apply (mint_covered _ _ _ _ _ _ _ _ Hrun Hc Hr).
  - destruct (transfer_call _ _ _ _ _ _ Hrun) as (who & dest & Hw & Hl & Ht).
    destruct (do_transfer_effect _ _ _ _ _ _ Ht Hr) as (ci & ti' & Hci & Hp & Hti & Ho & -> & _ & _).
    destruct (decide (token = k)) as [->|Hne]; [right|left; by rewrite lookup_insert_ne]. exists ci.
    rewrite Hk in Hti. injection Hti as <-. rewrite Ho, lookup_insert_eq. split_and!; [done..|]. left. by eexists _, _.
  - apply burn_call in Hrun as (who & s1 & Hw & Hrun & Heq). destruct (Hburn _ _ _ Hw Hrun Heq) as [|(ci & ? & ? & ? & ?)]; [by left|right; eauto 10].
  - apply (burn_call _ _ (fun who => BurnedTokenWithRemark who token.1 token.2 (hash cfg remark))) in Hrun as (who & s1 & Hw & Hrun & Heq).
    destruct (Hburn _ _ _ Hw Hrun Heq) as [|(ci & ? & ? & ? & ?)]; [by left|right; eauto 10].
  - left. by rewrite (proj2 (destroy_class_covered _ _ _ _ _ _ Hrun Hr)).
Qed.

(** A token that moves takes its deposit along: it is reserved from the new owner and no
    more from the old one, and nothing else that is reserved changes. *)
Theorem transfer_takes_the_deposit_along from to token (s s' : St) u :
  reachable s -> from <> to -> do_transfer from to token s = (Ok u, s') ->
  exists ti, nft_tokens (chain s) !! token = Some ti /\ token_owner ti = from
    /\ nft_tokens (chain s') = <[token := MkTokenInfo (token_metadata ti) to (token_data ti)]> (nft_tokens (chain s))
    /\ nft_classes (chain s') = nft_classes (chain s)
    /\ held from (chain s') = held from (chain s) - token_deposit (token_data ti)
    /\ held to (chain s') = held to (chain s) + token_deposit (token_data ti)
    /\ forall a, a <> from -> a <> to -> held a (chain s') = held a (chain s).
Proof.
  intros Hr%reachable_covered Hne Hrun. destruct (do_transfer_effect _ _ _ _ _ _ Hrun Hr) as (ci & ti & _ & _ & Hti & Ho & Ht & Hc & Hh).
  exists ti. split_and!; [done..| | |]; [rewrite Hh, owns_self|rewrite Hh, owns_self|intros a Ha Hb; rewrite Hh]; unfold owns;
    rewrite !bool_decide_eq_false_2 by congruence; lia.
Qed.
End Tokens.

(** What is encoded of the properties of a class is decoded, if it has the two known bits
    only. *)
Lemma properties_round_trip p :
  Z.land p 3 = p -> properties_decode (properties_encode p) = Some p.
Proof. intros Hp. simpl. change (Z.lor 1 2) with 3. by rewrite Hp, Z.eqb_refl. Qed.

(** * Tokens on a concrete chain

    A ledger with what is free, reserved and reserved for proxies, the maps of classes and
    tokens, a class whose tokens move and burn, and the theorems applied to it. *)

Record Vault : Type := MkVault {
  vault_free : gmap Z N;
  vault_held : gmap Z N;
  vault_proxy : gmap Z N;
  vault_classes : gmap Z (ClassInfo Z);
  vault_tokens : gmap (Z * Z) (TokenInfo Z);
  vault_next_class : Z;
  vault_next_token : Z
}.

Inductive VaultError : Type := TooPoor | NotFound | NotOwner | NotEmpty | Origin | Lookup.

Definition at_key (m : gmap Z N) (a : Z) : Z := Z.of_N (default 0%N (m !! a)).

(** [v] more. *)
Definition plus_at (a v : Z) (m : gmap Z N) : gmap Z N := <[a := Z.to_N (at_key m a + v)]> m.

Lemma at_key_plus a b v m : 0 <= at_key m a + v -> at_key (plus_at a v m) b = at_key m b + (if bool_decide (b = a) then v else 0).
Proof.
  intros Hv. unfold plus_at, at_key at 1. case_bool_decide as E.
  - subst. rewrite lookup_insert_eq. simpl. by rewrite Z2N.id.
  - rewrite lookup_insert_ne by congruence. unfold at_key. lia.
Qed.

Lemma at_key_nonneg m a : 0 <= at_key m a.
Proof. unfold at_key. lia. Qed.

Definition set_money (f g h : gmap Z N -> gmap Z N) (l : Vault) : Vault :=
  MkVault (f (vault_free l)) (g (vault_held l)) (h (vault_proxy l)) (vault_classes l) (vault_tokens l) (vault_next_class l) (vault_next_token l).

Definition set_nft (f : gmap Z (ClassInfo Z) -> gmap Z (ClassInfo Z)) (g : gmap (Z * Z) (TokenInfo Z) -> gmap (Z * Z) (TokenInfo Z))
    (classes tokens : Z) (l : Vault) : Vault :=
  MkVault (vault_free l) (vault_held l) (vault_proxy l) (f (vault_classes l)) (g (vault_tokens l))
    (vault_next_class l + classes) (vault_next_token l + tokens).

(** What [v] of a map of balances can be taken from [a]. *)
Definition enough (m : gmap Z N) (a v : Z) : bool := (0 <=? v) && (v <=? at_key m a).

Definition same (m : gmap Z N) : gmap Z N := m.

#[export] Instance vault_currency : DepositCurrency Vault VaultError Z := {|
  dc_free_balance a l := at_key (vault_free l) a;
  dc_reserved_balance a l := at_key (vault_held l) a + at_key (vault_proxy l) a;
  dc_transfer from to v _ := fun l =>
    if enough (vault_free l) from v then (Ok tt, set_money (fun m => plus_at to v (plus_at from (- v) m)) same same l) else (Err TooPoor, l);
  dc_reserve who v := fun l =>
    if enough (vault_free l) who v then (Ok tt, set_money (plus_at who (- v)) (plus_at who v) same l) else (Err TooPoor, l);
  dc_unreserve who v l :=
    let actual := Z.max 0 (Z.min v (at_key (vault_held l) who)) in
    (v - actual, set_money (plus_at who actual) (plus_at who (- actual)) same l)
|}.

#[export] Instance vault_proxies : Proxies Vault VaultError Z := {|
  proxy_deposit n := 10 * n;
  add_proxy_delegate who _ := fun l =>
    if enough (vault_free l) who 10 then (Ok tt, set_money (plus_at who (-10)) same (plus_at who 10) l) else (Err TooPoor, l);
  remove_proxy_delegate who _ := fun l =>
    if enough (vault_proxy l) who 10 then (Ok tt, set_money (plus_at who 10) same (plus_at who (-10)) l) else (Err NotFound, l)
|}.

#[export] Instance vault_nft : OrmlNft Vault VaultError Z := {|
  nft_classes := vault_classes;
  nft_tokens := vault_tokens;
  tokens_by_owner who l := map fst (List.filter (fun kv => token_owner kv.2 =? who) (map_to_list (vault_tokens l)));
  next_class_id := vault_next_class;
  orml_create_class owner metadata data := fun l =>
    match vault_classes l !! vault_next_class l with
    | Some _ => (Err NotFound, l)
    | None => (Ok (vault_next_class l), set_nft <[vault_next_class l := MkClassInfo metadata 0 owner data]> (fun m => m) 1 0 l)
    end;
  orml_mint to c metadata data := fun l =>
    match vault_classes l !! c, vault_tokens l !! (c, vault_next_token l) with
    | Some ci, None =>
        (Ok (vault_next_token l),
         set_nft <[c := MkClassInfo (class_metadata ci) (total_issuance ci + 1) (class_owner ci) (class_data ci)]>
           <[(c, vault_next_token l) := MkTokenInfo metadata to data]> 0 1 l)
    | _, _ => (Err NotFound, l)
    end;
  orml_transfer from to token := fun l =>
    match vault_tokens l !! token with
    | Some ti => if token_owner ti =? from
                 then (Ok tt, set_nft (fun m => m) <[token := MkTokenInfo (token_metadata ti) to (token_data ti)]> 0 0 l)
                 else (Err NotOwner, l)
    | None => (Err NotFound, l)
    end;
  orml_burn who token := fun l =>
    match vault_tokens l !! token, vault_classes l !! token.1 with
    | Some ti, Some ci =>
        if token_owner ti =? who
        then (Ok tt, set_nft <[token.1 := MkClassInfo (class_metadata ci) (total_issuance ci - 1) (class_owner ci) (class_data ci)]>
                       (delete token) 0 0 l)
        else (Err NotOwner, l)
    | _, _ => (Err NotFound, l)
    end;
  orml_destroy_class who c := fun l =>
    match vault_classes l !! c with
    | Some ci => if (class_owner ci =? who) && (total_issuance ci =? 0)
                 then (Ok tt, set_nft (delete c) (fun m => m) 0 0 l) else (Err NotEmpty, l)
    | None => (Err NotFound, l)
    end
|}.

#[export] Instance vault_laws : NftLaws Vault VaultError Z.
Proof.
  refine {| held a l := at_key (vault_held l) a |}.
  - intros a l. simpl. pose proof (at_key_nonneg (vault_held l) a). pose proof (at_key_nonneg (vault_proxy l) a). lia.
  - simpl. intros who v l l' a. destruct (enough _ _ _) eqn:E; [|done]. intros [= <-]. simpl. unfold enough in E. bool_inv.
    apply at_key_plus. pose proof (at_key_nonneg (vault_held l) who). lia.
  - simpl. intros who v l l'. destruct (enough _ _ _); [|done]. by intros [= <-].
  - simpl. intros who v l a Hv. rewrite Z.max_r, Z.min_l by lia. rewrite at_key_plus by lia. case_bool_decide; lia.
  - done.
  - simpl. intros from to v er l l' a. destruct (enough _ _ _); [|done]. by intros [= <-].
  - simpl. intros from to v er l l'. destruct (enough _ _ _); [|done]. by intros [= <-].
  - simpl. intros who d l l' a. destruct (enough _ _ _); [|done]. by intros [= <-].
  - simpl. intros who d l l'. destruct (enough _ _ _); [|done]. by intros [= <-].
  - simpl. intros who d l l' a. destruct (enough _ _ _); [|done]. by intros [= <-].
  - simpl. intros who d l l'. destruct (enough _ _ _); [|done]. by intros [= <-].
  - simpl. intros who m d l id l'. destruct (vault_classes l !! _) eqn:E; [done|]. by intros [= <- <-].
  - simpl. intros to c m d l t l'. destruct (vault_classes l !! c) as [ci|] eqn:E; [|done].
    destruct (vault_tokens l !! _) eqn:E'; [done|]. intros [= <- <-]. by exists ci.
  - simpl. intros from to token l l'. destruct (vault_tokens l !! token) as [ti|] eqn:E; [|done].
    destruct (Z.eqb_spec (token_owner ti) from); [|done]. intros [= <-]. by exists ti.
  - simpl. intros who token l l'. destruct (vault_tokens l !! token) as [ti|] eqn:E; [|done].
    destruct (vault_classes l !! token.1) as [ci|] eqn:E'; [|done]. destruct (Z.eqb_spec (token_owner ti) who); [|done].
    intros [= <-]. by exists ti, ci.
  - simpl. intros who c l l'. destruct (vault_classes l !! c) as [ci|] eqn:E; [|done].
    destruct (_ && _) eqn:E'; [|done]. bool_inv. intros [= <-]. by exists ci.
Defined.

(** ** A class and its tokens *)

Definition vault_config : Config VaultError Z Z Z :=
  MkConfig 50 5 (fun n => 1000 + n) (fun o => if 0 <? o then Some o else None) (fun a => if 0 <? a then Some a else None)
    Origin Lookup (fun b => b).

Definition vault_start : State Vault Z := MkState [] (MkVault {[ 7 := 1000%N; 8 := 100%N; 1000 := 100%N ]} ∅ ∅ ∅ ∅ 0 0).

Definition vault_run (calls : list (Z * @nft_call Z)) : State Vault Z :=
  fold_left (fun s oc => (run_call vault_config oc.1 oc.2 s).2) calls vault_start.

(** Account 7 creates a class, whose account mints two tokens for account 8. *)
Definition vault_minted : State Vault Z := vault_run [(7, CallCreateClass [1; 2] 3); (1000, CallMint 8 0 [9] 2)].

(** Account 8 gives the first one away, and burns the other. *)
Definition vault_moved : outcome (NftError + VaultError) unit * State Vault Z := run_call vault_config 8 (CallTransfer 9 (0, 0)) vault_minted.

Definition vault_burned : outcome (NftError + VaultError) unit * State Vault Z := run_call vault_config 8 (CallBurn (0, 1)) vault_moved.2.

Lemma vault_runs :
  vault_moved.1 = Ok tt /\ vault_burned.1 = Ok tt
  /\ (run_call vault_config 8 (CallTransfer 7 (0, 0)) vault_moved.2).1 = Err (inr NotOwner)
  /\ (run_call vault_config 1000 (CallDestroyClass 0 7) vault_burned.2).1 = Err (inl CannotDestroyClass).
Proof. vm_compute. done. Qed.

(** The same by the function that the call and the trait share. *)
Definition vault_given : outcome (NftError + VaultError) unit * State Vault Z :=
  do_transfer 8 9 (0, 0) vault_minted.

Lemma vault_given_ok : vault_given.1 = Ok tt.
Proof. vm_compute. done. Qed.

Lemma vault_given_run : do_transfer 8 9 (0, 0) vault_minted = (Ok tt, vault_given.2).
Proof. apply outcome_split. exact vault_given_ok. Qed.

Lemma vault_class_deposit : 0 <= create_class_deposit vault_config.
Proof. done. Qed.

Lemma vault_token_deposit : 0 <= create_token_deposit vault_config.
Proof. done. Qed.

Lemma vault_deposits_fit : create_token_deposit vault_config * umax 32 <= umax 128.
Proof. vm_compute. discriminate. Qed.

Lemma vault_reachable calls : Forall (fun oc => call_in_range oc.2) calls -> reachable vault_config (vault_run calls).
Proof.
  unfold vault_run. assert (reachable vault_config vault_start) as Hs by (by apply Fresh). revert Hs. generalize vault_start.
  induction calls as [|[o c] calls IH]; intros s Hs Hc; [done|]. apply Forall_cons in Hc as [Hc Hcs]. simpl. apply IH; [|done].
  eapply Called; [exact Hs|exact Hc|]. apply surjective_pairing.
Qed.

Lemma vault_minted_reachable : reachable vault_config vault_minted.
Proof. apply vault_reachable. repeat constructor; vm_compute; discriminate. Qed.

Lemma deposits_stay_reserved_witness :
  deposits 8 (chain vault_minted) = 10 /\ 10 <= dc_reserved_balance 8 (chain vault_minted).
Proof.
  split; [vm_compute; reflexivity|].
  exact (proj1 (deposits_stay_reserved vault_config vault_class_deposit vault_token_deposit vault_deposits_fit
                  vault_minted vault_minted_reachable) 8).
Defined.

Lemma tokens_obey_their_owner_witness :
  nft_tokens (chain vault_moved.2) !! (0, 1) = Some (MkTokenInfo [9] 8 (MkTokenData 5)).
Proof.
  destruct (tokens_obey_their_owner vault_config vault_class_deposit vault_token_deposit vault_deposits_fit
              8 (CallTransfer 9 (0, 0)) vault_minted vault_moved.2 vault_moved.1 (0, 1) (MkTokenInfo [9] 8 (MkTokenData 5))
              vault_minted_reachable I ltac:(apply surjective_pairing) ltac:(vm_compute; reflexivity)) as [Hk|(ci & _ & _ & Hor)].
  - exact Hk.
  - exfalso. destruct Hor as [(to & dest & Heq & _)|(_ & Hgone)]; [congruence|]. vm_compute in Hgone. discriminate.
Defined.

Lemma transfer_takes_the_deposit_along_witness :
  at_key (vault_held (chain vault_minted)) 8 = 10 /\ at_key (vault_held (chain vault_given.2)) 8 = 10 - 5
  /\ at_key (vault_held (chain vault_given.2)) 9 = 5.
Proof.
  destruct (transfer_takes_the_deposit_along vault_config vault_class_deposit vault_token_deposit vault_deposits_fit
              8 9 (0, 0) vault_minted vault_given.2 tt vault_minted_reachable ltac:(discriminate)
              vault_given_run) as (ti & Hti & _ & _ & _ & Hf & Ht & _).
  assert (ti = MkTokenInfo [9] 8 (MkTokenData 5)) as -> by (vm_compute in Hti; congruence).
  split; [vm_compute; reflexivity|]. split; [exact Hf|exact Ht].
Defined.
