(* ===== verification/EvmRpc.v ===== *)
(** * The RPC of the EVM

    [lib-serml/evm/evm/rpc/src/lib.rs]: calling and creating contracts outside blocks, the
    messages of contracts that revert, and the search for the gas a call takes; and the
    runtime's side of it, [EVMRuntimeRPCApi for Runtime] of runtime/newrome/src/lib.rs. *)

From Stdlib Require Import String.
From S2P Require Import Prelude Currency EvmManager EvmMeter Evm EvmRunner EvmBridge.

(** ** UTF-8 ([std::str::from_utf8]) *)

Definition between (lo hi b : Z) : bool := (lo <=? b) && (b <=? hi).

Definition continuation (b : Z) : bool := between 128 191 b.

(** The second byte after the first of a sequence of three or of four. *)
Definition second_of_three (a b : Z) : bool :=
  if a =? 224 then between 160 191 b else if a =? 237 then between 128 159 b else between 224 239 a && continuation b.

Definition second_of_four (a b : Z) : bool :=
  if a =? 240 then between 144 191 b else if a =? 244 then between 128 143 b else between 240 244 a && continuation b.

Fixpoint utf8 (l : bytes) : bool :=
  match l with
  | [] => true
  | a :: l1 =>
      if between 0 127 a then utf8 l1
      else match l1 with
      | [] => false
      | b :: l2 =>
          if between 194 223 a then continuation b && utf8 l2
          else match l2 with
          | [] => false
          | c :: l3 =>
              if between 224 239 a then second_of_three a b && continuation c && utf8 l3
              else match l3 with
              | [] => false
              | d :: l4 => second_of_four a b && continuation c && continuation d && utf8 l4
              end
          end
      end
  end.

(** ** Errors *)

(** The errors of [jsonrpc_core] that are made here; the message and the data of one are
    written from its arguments. *)
Inductive RpcError (AE DE : Type) : Type :=
| UnsafeRpcError
| OutOfGasError
| ExecutionErrorOf (e : ExitError)
| ExecutionRevertOf (message : option bytes) (data : bytes)
| ExecutionFatalOf (code : Z)
| RuntimeErrorOf (e : AE)
| DispatchErrorOf (e : DE)
| InvalidValue (value : option Z)
| UnableToDryRun
| UnableToQueryFee (e : AE).

Arguments UnsafeRpcError {AE DE}.
Arguments OutOfGasError {AE DE}.
Arguments ExecutionErrorOf {AE DE}.
Arguments ExecutionRevertOf {AE DE}.
Arguments ExecutionFatalOf {AE DE}.
Arguments RuntimeErrorOf {AE DE}.
Arguments DispatchErrorOf {AE DE}.
Arguments InvalidValue {AE DE}.
Arguments UnableToDryRun {AE DE}.
Arguments UnableToQueryFee {AE DE}.

Inductive ErrorCode : Type := ServerError (n : Z) | InternalError | InvalidParams | MethodNotFound.

Definition code_of_error {AE DE : Type} (e : RpcError AE DE) : ErrorCode :=
  match e with
  | OutOfGasError => ServerError 0
  | InvalidValue _ => InvalidParams
  | UnsafeRpcError => MethodNotFound
  | _ => InternalError
  end.

Definition is_server_error_0 (c : ErrorCode) : bool := match c with ServerError n => n =? 0 | _ => false end.

(** ** Requests and answers *)

(** [CallRequest]; a value is [into_u256] of what was sent. *)
Record CallRequest : Type := MkCallRequest {
  req_from : option H160;
  req_to : option H160;
  req_gas_limit : option Z;
  req_storage_limit : option Z;
  req_value : option Z;
  req_data : option bytes
}.

Record EstimateResourcesResponse : Type := MkResponse {
  resp_gas : Z;
  resp_storage : Z;
  resp_weight_fee : Z
}.

(** What a runtime API returns: the [Result] of the API around that of the runtime. *)
Inductive api_result (AE DE A : Type) : Type :=
| ApiError (e : AE)
| ApiDispatchError (e : DE)
| ApiOk (a : A).

Arguments ApiError {AE DE A}.
Arguments ApiDispatchError {AE DE A}.
Arguments ApiOk {AE DE A}.

Section Rpc.
(** The width of [usize]. *)
Variable usize : Z.

(** The message of [Error(string)] after the selector, the offset and the length. *)
Definition decode_revert_message {E : Type} (data : bytes) : outcome E (option bytes) :=
  let msg_start := 68 in
  if msg_start <? zlength data then
    let? word := slice_range data 36 msg_start in
    let? length := u256_from_slice word in
    let message_len := saturated_into usize length in
    match checked_add usize msg_start message_len with
    | None => Ok None
    | Some msg_end =>
        if zlength data <? msg_end then Ok None
        else
          let? body := slice_range data msg_start msg_end in
          Ok (if utf8 body then Some body else None)
    end
  else Ok None.

Section Client.
Context {AE DE Hash : Type}.

Abbreviation Res := (outcome (RpcError AE DE)).

Definition error_on_execution_failure (reason : ExitReason) (data : bytes) : Res unit :=
  match reason with
  | Succeed _ => Ok tt
  | Error OutOfGas => Err OutOfGasError
  | Error e => Err (ExecutionErrorOf e)
  | Revert => let? message := decode_revert_message data in Err (ExecutionRevertOf message data)
  | Fatal code => Err (ExecutionFatalOf code)
  end.

Definition of_api {A : Type} (r : api_result AE DE A) : Res A :=
  match r with
  | ApiError e => Err (RuntimeErrorOf e)
  | ApiDispatchError e => Err (DispatchErrorOf e)
  | ApiOk a => Ok a
  end.

(** The client: the best block at each time it is asked for, and the APIs of the runtime at
    a block. *)
Class Client : Type := {
  best_hash : nat -> Hash;
  is_safe : bool;
  api_call : Hash -> H160 -> H160 -> bytes -> Z -> Z -> Z -> bool -> api_result AE DE CallInfo;
  api_create : Hash -> H160 -> bytes -> Z -> Z -> Z -> bool -> api_result AE DE CreateInfo;
  api_estimate_request : Hash -> bytes -> api_result AE DE CallRequest;
  decodes : bytes -> bool;
  api_weight_fee : Hash -> bytes -> Z -> AE + option Z
}.

Context {client : Client}.

Definition check_if_safe : Res unit := if is_safe then Ok tt else Err UnsafeRpcError.

Definition to_u128 (v : Z) : option Z := if v <=? umax 128 then Some v else None.

(** The balance of a request. *)
Definition balance_value (value : option Z) : Res Z :=
  match value with
  | None => Ok 0
  | Some v => match to_u128 v with Some v => Ok v | None => Err (InvalidValue value) end
  end.

Definition rpc_call (request : CallRequest) (at_ : option Hash) : Res bytes :=
  do? check_if_safe in
  let hash := default (best_hash 0) at_ in
  let gas_limit := default (umax 64) (req_gas_limit request) in
  let storage_limit := default (umax 32) (req_storage_limit request) in
  let data := default [] (req_data request) in
  let? value := balance_value (req_value request) in
  let from := default 0 (req_from request) in
  match req_to request with
  | Some to =>
      let? info := of_api (api_call hash from to data value gas_limit storage_limit false) in
      do? error_on_execution_failure (call_exit_reason info) (call_output info) in
      Ok (call_output info)
  | None =>
      let? info := of_api (api_create hash from data value gas_limit storage_limit false) in
      do? error_on_execution_failure (create_exit_reason info) (create_output info) in
      Ok (create_output info)
  end.

(** ** Estimating *)

(** The gas and the storage that are used at a block. *)
Definition calculate_gas_used (hash : Hash) (request : CallRequest) : Res (Z * Z) :=
  let gas_limit := default (umax 64) (req_gas_limit request) in
  let storage_limit := default (umax 32) (req_storage_limit request) in
  let data := default [] (req_data request) in
  let? value := balance_value (req_value request) in
  let from := default 0 (req_from request) in
  match req_to request with
  | Some to =>
      let? info := of_api (api_call hash from to data value gas_limit storage_limit true) in
      do? error_on_execution_failure (call_exit_reason info) (call_output info) in
      Ok (call_used_gas info, call_used_storage info)
  | None =>
      let? info := of_api (api_create hash from data value gas_limit storage_limit true) in
      do? error_on_execution_failure (create_exit_reason info) [] in
      Ok (create_used_gas info, create_used_storage info)
  end.

Definition with_gas_limit (limit : Z) (r : CallRequest) : CallRequest :=
  MkCallRequest (req_from r) (req_to r) (Some limit) (req_storage_limit r) (req_value r) (req_data r).

(** The operators of [U256], which panic out of range. *)
Definition u256 (v : Z) : Res Z := if (0 <=? v) && (v <=? umax 256) then Ok v else Panic.

Definition as_u64 (v : Z) : Res Z := if v <=? umax 64 then Ok v else Panic.

Definition middle (lower upper : Z) : Res Z := let? sum := u256 (lower + upper + 1) in Ok (sum / 2).

Definition threshold_pct : Z := 10.

Definition LOWER : Z := 21000.
Definition UPPER : Z := 1000000000.

Record Search : Type := MkSearch {
  s_lower : Z;
  s_upper : Z;
  s_mid : Z;
  s_best : Z;
  s_storage : Z;
  s_change_pct : Z
}.

Definition search_start : Search := MkSearch LOWER UPPER UPPER UPPER 0 100.

(** One turn of the loop on what [mid] used: where it goes on, or the break. *)
Definition search_turn (used : Res (Z * Z)) (s : Search) : Res (Search * bool) :=
  match used with
  | Ok (used_gas, used_storage) =>
      let? less := u256 (s_best s - used_gas) in
      let? hundred := u256 (100 * less) in
      let change_pct := default 0 (checked_div hundred (s_best s)) in
      let? mid := middle (s_lower s) (s_mid s) in
      Ok (MkSearch (s_lower s) (s_mid s) mid used_gas used_storage change_pct, true)
  | Err e =>
      if is_server_error_0 (code_of_error e) then
        let? mid := middle (s_mid s) (s_upper s) in
        Ok (MkSearch (s_mid s) (s_upper s) mid (s_best s) (s_storage s) (s_change_pct s), negb (mid =? s_mid s))
      else Err e
  | Panic => Panic
  end.

(** The loop; its time counts the questions for the best block. [None] is out of fuel. *)
Fixpoint search (fuel : nat) (time : nat) (request : CallRequest) (s : Search) : option (Res (Z * Z)) :=
  if s_change_pct s <=? threshold_pct then Some (Ok (s_best s, s_storage s))
  else match fuel with
  | O => None
  | S fuel =>
      match as_u64 (s_mid s) with
      | Ok limit =>
          match search_turn (calculate_gas_used (best_hash time) (with_gas_limit limit request)) s with
          | Ok (s, true) => search fuel (S time) request s
          | Ok (s, false) => Some (Ok (s_best s, s_storage s))
          | Err e => Some (Err e)
          | Panic => Some Panic
          end
      | Err e => Some (Err e)
      | Panic => Some Panic
      end
  end.

(** The fee of the extrinsic, zero for one that is not charged. *)
Definition weight_fee (hash : Hash) (unsigned_extrinsic : bytes) : Res Z :=
  if decodes unsigned_extrinsic then
    match api_weight_fee hash unsigned_extrinsic (wrap 32 (zlength unsigned_extrinsic)) with
    | inl e => Err (UnableToQueryFee e)
    | inr fee => Ok (default 0 fee)
    end
  else Err UnableToDryRun.

(** [cfg!(feature = "rpc_binary_search_estimate")] is an argument. *)
Definition estimate_resources (fuel : nat) (binary_search : bool) (from : H160) (unsigned_extrinsic : bytes)
    (at_ : option Hash) : option (Res EstimateResourcesResponse) :=
  let prepared :=
    do? check_if_safe in
    let? request := of_api (api_estimate_request (default (best_hash 0) at_) unsigned_extrinsic) in
    Ok (MkCallRequest (Some from) (req_to request) (req_gas_limit request) (req_storage_limit request)
          (req_value request) (req_data request)) in
  match prepared with
  | Ok request =>
      used ← (if binary_search then search fuel 1 request search_start
              else Some (calculate_gas_used (best_hash 1) request));
      Some (
        let? (gas, storage) := used in
        let? fee := weight_fee (default (best_hash 0) at_) unsigned_extrinsic in
        Ok (MkResponse gas storage fee))
  | Err e => Some (Err e)
  | Panic => Some Panic
  end.
End Client.

(** ** The APIs of the runtime *)

Section Runtime.
Context {L X AccountId Origin : Type} `{!AddressMapping L AccountId} `{!NativeCurrency L X AccountId}.
Context `{G : Gasometers} `{!Interpreter L AccountId}.
Context `{!DispatchErrorStr (EvmError + X)} `{!DispatchErrorInto (EvmError + X)}.
Variable cfg : Config X AccountId Origin.
Variable config : EvmConfig.

(** What the API gives if the runtime panics. *)
Context {AE : Type} (trap : AE).

Definition with_estimate (estimate_only : bool) : EvmConfig :=
  if estimate_only then MkEvmConfig (call_l64_after_gas config) (call_stipend config) true else config.

Definition api_of_run {A : Type} (r : outcome (EvmError + X) A) : api_result AE (EvmError + X) A :=
  match r with Ok a => ApiOk a | Err e => ApiDispatchError e | Panic => ApiError trap end.

(** Both run on the storage of a block, and leave none. *)
Definition runtime_call (block : State L AccountId) (from to : H160) (data : bytes) (value gas_limit storage_limit : Z)
    (estimate_only : bool) : api_result AE (EvmError + X) CallInfo :=
  api_of_run (runner_call cfg (with_estimate estimate_only) from from to data value gas_limit storage_limit block).1.

Definition runtime_create (block : State L AccountId) (from : H160) (data : bytes) (value gas_limit storage_limit : Z)
    (estimate_only : bool) : api_result AE (EvmError + X) CreateInfo :=
  api_of_run (runner_create cfg (with_estimate estimate_only) from data value gas_limit storage_limit block).1.

(** The calls of a decoded extrinsic. *)
Inductive EvmCall : Type :=
| RuntimeEvmCall (to : H160) (data : bytes) (value gas_limit storage_limit : Z)
| RuntimeEvmCreate (data : bytes) (value gas_limit storage_limit : Z)
| OtherCall.

Definition get_estimate_resources_request (decode : bytes -> option EvmCall) (extrinsic : bytes) : outcome string CallRequest :=
  match decode extrinsic with
  | None => Err "Invalid parameter extrinsic, decode failed"%string
  | Some (RuntimeEvmCall to data value gas_limit storage_limit) =>
      Ok (MkCallRequest None (Some to) (Some gas_limit) (Some storage_limit) (Some value) (Some data))
  | Some (RuntimeEvmCreate data value gas_limit storage_limit) =>
      Ok (MkCallRequest None None (Some gas_limit) (Some storage_limit) (Some value) (Some data))
  | Some OtherCall => Err "Invalid parameter extrinsic, not evm Call"%string
  end.
End Runtime.
End Rpc.
