(* ===== verification/EvmRpcTheorems.v ===== *)
(** * What the RPC of the EVM answers

    The message of a contract that reverts is read back and never read out of bounds; the
    search for gas ends, and what it answers. *)

From Stdlib Require Import String.
From S2P Require Import Prelude Currency EvmManager EvmMeter Evm EvmRunner EvmBridge EvmRpc.

Section Theorems.
Variable usize : Z.
Hypothesis usize_wide : 8 <= usize.

(** ** Searching *)

Section Searching.
Context {AE DE Hash : Type} `{!@Client AE DE Hash}.

Abbreviation Res := (outcome (RpcError AE DE)).

Variable request : CallRequest.

(** The node asks for the best block before each try, so that a try is made at a time: what
    the call uses under a limit may change when a block is imported. *)
Definition used_at (time : nat) (limit : Z) : Res (Z * Z) :=
  calculate_gas_used usize (best_hash time) (with_gas_limit limit request).

(** Gas is a [U256]. *)
Hypothesis gas_unsigned : forall time limit g s, used_at time limit = Ok (g, s) -> 0 <= g.

Definition out_of_gas_at (time : nat) (limit : Z) : Prop :=
  exists e, used_at time limit = Err e /\ is_server_error_0 (code_of_error e) = true.

Definition tried (limit : Z) : Prop := LOWER <= limit <= UPPER.

(** What the search answers, and why. *)
Definition answer_ok (r : Res (Z * Z)) : Prop :=
  match r with
  | Ok (g, s) =>
      (exists t limit, tried limit /\ used_at t limit = Ok (g, s)) \/ (out_of_gas_at 1 UPPER /\ g = UPPER /\ s = 0)
  | Err e => exists t limit, tried limit /\ used_at t limit = Err e /\ is_server_error_0 (code_of_error e) = false
  | Panic =>
      exists t limit, tried limit /\
        (used_at t limit = Panic
         \/ exists g s, used_at t limit = Ok (g, s) /\
              (UPPER < g \/ exists t' limit' g' s',
                 (t' < t)%nat /\ limit <= limit' <= UPPER /\ used_at t' limit' = Ok (g', s') /\ g' < g))
  end.

Lemma u256_ok v : 0 <= v <= 10 ^ 12 -> @u256 AE DE v = Ok v.
Proof.
  intros Hv. unfold u256. assert (10 ^ 12 <= umax 256) by by vm_compute.
  by rewrite (proj2 (Z.leb_le 0 v)), (proj2 (Z.leb_le v _)) by lia.
Qed.

Lemma u256_negative v : v < 0 -> @u256 AE DE v = Panic.
Proof. intros Hv. unfold u256. by rewrite (proj2 (Z.leb_gt 0 v)) by lia. Qed.

Lemma middle_ok l u : 0 <= l <= UPPER -> 0 <= u <= UPPER -> @middle AE DE l u = Ok ((l + u + 1) / 2).
Proof. intros Hl Hu. unfold middle, UPPER in *. by rewrite u256_ok by lia. Qed.

Lemma turn_ok l u mid best storage pct g s :
  0 <= l <= UPPER -> 0 <= mid <= UPPER -> 0 <= g <= best -> best <= UPPER ->
  search_turn (Ok (g, s) : Res (Z * Z)) (MkSearch l u mid best storage pct)
  = Ok (MkSearch l mid ((l + mid + 1) / 2) g s (default 0 (checked_div (100 * (best - g)) best)), true).
Proof.
  intros Hl Hm Hg Hb. unfold search_turn. cbn [s_lower s_upper s_mid s_best]. unfold UPPER in *. rewrite !u256_ok by lia. cbn [obind].
  rewrite u256_ok by lia. cbn [obind]. by rewrite middle_ok by (unfold UPPER; lia).
Qed.

Lemma turn_overflow l u mid best storage pct g s :
  best < g -> search_turn (Ok (g, s) : Res (Z * Z)) (MkSearch l u mid best storage pct) = Panic.
Proof. intros Hg. unfold search_turn. cbn [s_best]. by rewrite u256_negative by lia. Qed.

Lemma turn_out_of_gas l u mid best storage pct e :
  0 <= mid <= UPPER -> 0 <= u <= UPPER -> is_server_error_0 (code_of_error e) = true ->
  search_turn (Err e : Res (Z * Z)) (MkSearch l u mid best storage pct)
  = Ok (MkSearch mid u ((mid + u + 1) / 2) best storage pct, negb ((mid + u + 1) / 2 =? mid)).
Proof. intros Hm Hu He. unfold search_turn. cbn [s_lower s_upper s_mid s_best s_storage s_change_pct]. rewrite He. by rewrite middle_ok. Qed.

Lemma search_done fuel time (s : Search) :
  s_change_pct s <= threshold_pct -> search usize fuel time request s = Some (Ok (s_best s, s_storage s)).
Proof. intros Hp. destruct fuel; cbn [search]; by rewrite (proj2 (Z.leb_le _ _)). Qed.

Lemma search_step fuel time (s : Search) :
  threshold_pct < s_change_pct s -> s_mid s <= UPPER ->
  search usize (S fuel) time request s
  = match search_turn (used_at time (s_mid s)) s with
    | Ok (s, true) => search usize fuel (S time) request s
    | Ok (s, false) => Some (Ok (s_best s, s_storage s))
    | Err e => Some (Err e)
    | Panic => Some Panic
    end.
Proof.
  intros Hp Hm. cbn [search]. rewrite (proj2 (Z.leb_gt _ _)) by done. unfold as_u64. assert (UPPER <= umax 64) by by vm_compute.
  by rewrite (proj2 (Z.leb_le _ _)) by lia.
Qed.

(** Where the search is between two turns: the best answer was given under the upper limit,
    at some time before. *)
Definition between_turns (time : nat) (l u best storage : Z) : Prop :=
  LOWER <= l <= u /\ u <= UPPER /\ 0 <= best <= UPPER
  /\ exists t, (t < time)%nat /\ used_at t u = Ok (best, storage).

(** What is left of the best answer if the search goes on after it. *)
Definition shrink (best : Z) : Z := 89 * best / 100.

Lemma change_shrinks best g :
  0 <= g <= best -> threshold_pct < default 0 (checked_div (100 * (best - g)) best) -> g <= shrink best /\ g < best.
Proof.
  intros Hg. unfold checked_div, threshold_pct, shrink. destruct (Z.eqb_spec best 0) as [|Hb]; simpl; [lia|]. intros Hp.
  assert (11 <= 100 * (best - g) / best) as H11 by lia.
  pose proof (Z.mul_div_le (100 * (best - g)) best ltac:(lia)) as Hle.
  assert (11 * best <= 100 * (best - g)) as Hd by nia.
  split; [apply Z.div_le_lower_bound; lia|lia].
Qed.

(** A turn: the answer; or less between the limits, after a try that ran out of gas; or a
    better answer by at least a ninth, under a limit that is lower or the same. *)
Lemma turn_between fuel time l u best storage pct :
  let mid := (l + u + 1) / 2 in
  threshold_pct < pct -> between_turns time l u best storage ->
  (exists r, search usize (S fuel) time request (MkSearch l u mid best storage pct) = Some r /\ answer_ok r)
  \/ exists l' u' best' storage' pct',
       search usize (S fuel) time request (MkSearch l u mid best storage pct)
       = search usize fuel (S time) request (MkSearch l' u' ((l' + u' + 1) / 2) best' storage' pct')
       /\ between_turns (S time) l' u' best' storage' /\ 2 * (u' - l') <= u - l + 1
       /\ ((2 <= u - l /\ best' = best)
           \/ (pct' <= threshold_pct \/ best' <= shrink best /\ best' < best) /\ u' = mid /\ used_at time mid = Ok (best', storage')).
Proof.
  intros mid Hp (Hl & Hu & Hb & t0 & Ht0 & Hat). assert (0 <= LOWER) as HL by done.
  assert (l <= mid <= u /\ 2 * (mid - l) <= u - l + 1 /\ 2 * (u - mid) <= u - l) as (Hm & Hlow & Hhigh)
    by (unfold mid; pose proof (Z.div_mod (l + u + 1) 2 ltac:(lia)); pose proof (Z.mod_pos_bound (l + u + 1) 2 ltac:(lia)); lia).
  rewrite search_step by (simpl; lia). cbn [s_mid]. destruct (used_at time mid) as [[g st]|e|] eqn:E.
  - pose proof (gas_unsigned _ _ _ _ E) as Hg. destruct (Z.le_gt_cases g best) as [Hle|Hgt].
    + rewrite turn_ok by lia. right. eexists _, _, _, _, _. split; [reflexivity|].
      split; [split_and!; [lia..|by exists time; split; [lia|]]|]. split; [lia|]. right. split; [|done].
      destruct (Z.le_gt_cases (default 0 (checked_div (100 * (best - g)) best)) threshold_pct); [by left|right].
      by apply change_shrinks.
    + rewrite turn_overflow by lia. left. eexists. split; [done|]. exists time, mid. split; [unfold tried; lia|]. right.
      exists g, st. split; [done|]. right. exists t0, u, best, storage. split_and!; [done|lia|lia|done|lia].
  - destruct (is_server_error_0 (code_of_error e)) eqn:He.
    + rewrite turn_out_of_gas by (done || lia). destruct (Z.eqb_spec ((mid + u + 1) / 2) mid) as [Heq|Hne]; simpl.
      * left. eexists. split; [done|]. left. exists t0, u. split; [unfold tried; lia|done].
      * right. eexists _, _, _, _, _. split; [reflexivity|]. split; [split_and!; [lia..|exists t0; split; [lia|done]]|].
        split; [lia|]. left. split; [|done].
        assert (mid <> u) by (intros Hmu; apply Hne; rewrite Hmu; symmetry; apply (Z.div_unique _ _ _ 1); lia). lia.
    + left. unfold search_turn. rewrite He. eexists. split; [done|]. exists time, mid. split; [unfold tried; lia|done].
  - left. eexists. split; [done|]. exists time, mid. split; [unfold tried; lia|]. by left.
Qed.

Lemma stopped fuel time l u mid best storage pct :
  pct <= threshold_pct -> between_turns time l u best storage ->
  exists r, search usize fuel time request (MkSearch l u mid best storage pct) = Some r /\ answer_ok r.
Proof.
  intros Hp (Hl & Hu & _ & t & _ & Hat). rewrite search_done by done. eexists. split; [done|]. left. exists t, u.
  split; [unfold tried; lia|done].
Qed.

Lemma halved k w w' : 2 * w' <= w + 1 -> w <= 2 ^ Z.of_nat k -> w' <= 2 ^ Z.of_nat (pred k).
Proof.
  intros Hw Hk. destruct k as [|k]; cbn [pred].
  - rewrite Z.pow_0_r in *. lia.
  - rewrite Nat2Z.inj_succ, Z.pow_succ_r in Hk by lia. lia.
Qed.

Lemma shrink_mono a b : a <= b -> shrink a <= shrink b.
Proof. intros Hab. apply Z.div_le_mono; lia. Qed.

Lemma iter_mono j a b : a <= b -> Nat.iter j shrink a <= Nat.iter j shrink b.
Proof. intros Hab. induction j as [|j IH]; simpl; [done|by apply shrink_mono]. Qed.

Lemma iter_last j a : Nat.iter (S j) shrink a = Nat.iter j shrink (shrink a).
Proof. induction j as [|j IH]; [done|]. by change (shrink (Nat.iter (S j) shrink a) = shrink (Nat.iter j shrink (shrink a))); rewrite IH. Qed.

(** With [2 ^ k] limits left, and an answer that is nothing after shrinking [j] times, the
    search ends in [k + j + 1] turns, whatever blocks are imported. *)
Lemma search_between fuel : forall k j time l u best storage pct,
  (k + j < fuel)%nat -> between_turns time l u best storage -> u - l <= 2 ^ Z.of_nat k -> Nat.iter j shrink best <= 0 ->
  exists r, search usize fuel time request (MkSearch l u ((l + u + 1) / 2) best storage pct) = Some r /\ answer_ok r.
Proof.
  induction fuel as [|fuel IH]; intros k j time l u best storage pct Hf Hi Hk Hj; [lia|].
  destruct (Z.le_gt_cases pct threshold_pct) as [Hp|Hp]; [by apply stopped|].
  destruct (turn_between fuel time l u best storage pct Hp Hi) as [Hr|(l' & u' & b' & s' & p' & -> & Hi' & Hh & Hcase)]; [done|].
  destruct Hcase as [[Hw ->]|[[Hp'|[Hs Hlt]] _]]; [|by apply stopped|].
  - destruct k as [|k]; [rewrite Z.pow_0_r in Hk; lia|]. apply (IH k j); [lia|done|by apply (halved (S k) (u - l))|done].
  - destruct j as [|j].
    + exfalso. simpl in Hj. destruct Hi' as (_ & _ & Hb' & _). lia.
    + apply (IH (pred k) j); [lia|done|by apply (halved k (u - l))|].
      etransitivity; [by apply (iter_mono j b' (shrink best))|]. by rewrite <- iter_last.
Qed.

(** If no block is imported, [k + 1] turns are enough. *)
Lemma search_between_still block fuel : (forall n, best_hash n = block) -> forall k time l u best storage pct,
  (k < fuel)%nat -> between_turns time l u best storage -> u - l <= 2 ^ Z.of_nat k ->
  exists r, search usize fuel time request (MkSearch l u ((l + u + 1) / 2) best storage pct) = Some r /\ answer_ok r.
Proof.
  intros Hstill. induction fuel as [|fuel IH]; intros k time l u best storage pct Hf Hi Hk; [lia|].
  destruct (Z.le_gt_cases pct threshold_pct) as [Hp|Hp]; [by apply stopped|].
  destruct (turn_between fuel time l u best storage pct Hp Hi) as [Hr|(l' & u' & b' & s' & p' & -> & Hi' & Hh & Hcase)]; [done|].
  assert (2 <= u - l \/ p' <= threshold_pct) as [Hw|Hp']; [|destruct k as [|k]|by apply stopped].
  - destruct Hcase as [[Hw _]|[[Hp'|[_ Hlt]] [-> Hat]]]; [by left|by right|].
    left. destruct (Z.le_gt_cases 2 (u - l)) as [|Hw]; [done|]. exfalso. destruct Hi as (Hl & _ & _ & t & _ & Hat0).
    assert (used_at t u = used_at time ((l + u + 1) / 2)) as Heq.
    { unfold used_at. rewrite !Hstill. do 2 f_equal. apply (Z.div_unique _ _ _ (l + 1 - u)); lia. }
    rewrite <- Heq, Hat0 in Hat. injection Hat as -> _. lia.
  - rewrite Z.pow_0_r in Hk. lia.
  - apply (IH k); [lia|done|by apply (halved (S k) (u - l))].
Qed.

(** The turns that are enough: one for the largest limit, thirty to halve what is between the
    limits, and as many as the largest limit can shrink. *)
Definition enough_turns : nat := 200.

(** C36: the search for gas ends, within thirty-two turns if the best block stays the same and
    within two hundred if blocks are imported meanwhile (the node asks for the best block
    before each try). Nothing but what a try used is its answer, except that a call for which
    the largest limit is too little at the first try is answered with that limit. It fails
    with the error of a try that is not out of gas. It panics only if the run of a try does,
    if a try used more than the largest limit, or if a try used more gas than an earlier one
    under the same or a larger limit. *)
Theorem search_is_right fuel :
  (enough_turns <= fuel)%nat \/ ((32 <= fuel)%nat /\ exists block, forall n, best_hash n = block) ->
  exists r, search usize fuel 1 request search_start = Some r /\ answer_ok r.
Proof.
  intros Hf. destruct fuel as [|fuel]; [unfold enough_turns in Hf; lia|]. unfold search_start. assert (0 <= LOWER <= UPPER) as HL by done.
  assert (threshold_pct < 100) as Hp by done. rewrite search_step by (simpl; lia). cbn [s_mid].
  destruct (used_at 1 UPPER) as [[g st]|e|] eqn:E.
  - pose proof (gas_unsigned _ _ _ _ E) as Hg. destruct (Z.le_gt_cases g UPPER) as [Hle|Hgt].
    + rewrite turn_ok by lia. assert (between_turns 2 LOWER UPPER g st) as Hi by (split_and!; [lia..|exists 1%nat; split; [lia|done]]).
      assert (UPPER - LOWER <= 2 ^ Z.of_nat 30) as Hk by by vm_compute.
      destruct Hf as [Hf|[Hf [block Hstill]]]; [|apply (search_between_still block fuel Hstill 30); [lia|done..]].
      apply (search_between fuel 30 168); [unfold enough_turns in Hf; lia|done..|].
      etransitivity; [by apply (iter_mono _ g UPPER)|by vm_compute].
    + rewrite turn_overflow by lia. eexists. split; [done|]. exists 1%nat, UPPER. split; [unfold tried; lia|].
      right. exists g, st. split; [done|by left].
  - destruct (is_server_error_0 (code_of_error e)) eqn:He.
    + rewrite turn_out_of_gas by (done || lia). eexists. split; [done|]. right. split; [|done]. by exists e.
    + unfold search_turn. rewrite He. eexists. split; [done|]. exists 1%nat, UPPER. split; [unfold tried; lia|done].
  - eexists. split; [done|]. exists 1%nat, UPPER. split; [unfold tried; lia|by left].
Qed.
End Searching.

(** ** The message of a contract that reverts *)

Section Messages.
Context {E : Type}.

Abbreviation Out := (outcome E (option bytes)).

Lemma slice_range_bytes (data : bytes) a b :
  0 <= a <= b -> b <= zlength data -> @slice_range E data a b = Ok (slice (Z.to_nat a) (Z.to_nat (b - a)) data).
Proof. intros Ha Hb. unfold slice_range. by rewrite (proj2 (Z.leb_le a b)), (proj2 (Z.leb_le b _)) by lia. Qed.

Lemma slice_zlength (data : bytes) a n : 0 <= a -> 0 <= n -> a + n <= zlength data -> zlength (slice (Z.to_nat a) (Z.to_nat n) data) = n.
Proof. unfold zlength, slice. intros Ha Hn Hl. rewrite length_take, length_drop. lia. Qed.

(** Reading it with the bounds resolved. *)
Lemma decode_revert_message_read (data : bytes) :
  68 < zlength data ->
  (decode_revert_message usize data : Out)
  = match checked_add usize 68 (saturated_into usize (from_be (slice 36 32 data))) with
    | None => Ok None
    | Some msg_end =>
        if zlength data <? msg_end then Ok None
        else let? body := slice_range data 68 msg_end in Ok (if utf8 body then Some body else None)
    end.
Proof.
  intros Hl. unfold decode_revert_message. rewrite (proj2 (Z.ltb_lt _ _)) by lia. rewrite slice_range_bytes by lia. cbn [obind].
  unfold u256_from_slice. rewrite slice_zlength by lia. reflexivity.
Qed.

(** Whatever a contract returns, its message is looked for within it. *)
Theorem revert_message_in_bounds (data : bytes) :
  Forall (fun b => 0 <= b < 256) data -> exists m, (decode_revert_message usize data : Out) = Ok m.
Proof.
  intros Hb. destruct (Z.le_gt_cases (zlength data) 68) as [Hs|Hl].
  { exists None. unfold decode_revert_message. by rewrite (proj2 (Z.ltb_ge _ _)) by lia. }
  rewrite decode_revert_message_read by lia. unfold checked_add. destruct (_ <=? umax usize); [|by exists None].
  destruct (Z.ltb_spec (zlength data) (68 + saturated_into usize (from_be (slice 36 32 data)))); [by exists None|].
  assert (0 <= saturated_into usize (from_be (slice 36 32 data))).
  { unfold saturated_into. pose proof (umax_nonneg usize ltac:(lia)). assert (0 <= from_be (slice 36 32 data)); [|lia].
    apply from_be_range. unfold slice. by apply Forall_take, Forall_drop. }
  rewrite slice_range_bytes by lia. by eexists.
Qed.

(** A message that is encoded as [Error(string)] is read back. *)
Theorem revert_message_is_read (selector offset padding m : bytes) :
  length selector = 4%nat -> length offset = 32%nat -> utf8 m = true -> m ++ padding <> [] -> zlength m < 2 ^ 256 ->
  68 + zlength m <= umax usize ->
  (decode_revert_message usize (selector ++ offset ++ be_bytes 32 (zlength m) ++ m ++ padding) : Out) = Ok (Some m).
Proof.
  intros Hs Ho Hm Hne Hfit Husize. set (head := selector ++ offset).
  assert (length head = 36%nat) as Hh by (unfold head; rewrite length_app; lia).
  rewrite app_assoc. fold head. rewrite decode_revert_message_read.
  2:{ unfold zlength. rewrite !length_app, length_be_bytes, Hh. destruct (m ++ padding) eqn:E0; [done|]. rewrite <- length_app, E0. simpl. lia. }
  assert (slice 36 32 (head ++ be_bytes 32 (zlength m) ++ m ++ padding) = be_bytes 32 (zlength m)) as ->.
  { unfold slice. rewrite drop_app_length' by done. by rewrite take_app_length' by by rewrite length_be_bytes. }
  rewrite from_be_be_bytes by (unfold zlength in *; split; [lia|exact Hfit]).
  unfold saturated_into, checked_add. rewrite Z.min_l by lia. rewrite (proj2 (Z.leb_le _ _)) by lia.
  assert (zlength (head ++ be_bytes 32 (zlength m) ++ m ++ padding) = 68 + zlength m + zlength padding) as Hl.
  { unfold zlength. rewrite !length_app, length_be_bytes, Hh. lia. }
  rewrite Hl, (proj2 (Z.ltb_ge _ _)) by (unfold zlength; lia). rewrite slice_range_bytes by (rewrite ?Hl; unfold zlength; lia).
  cbn [obind]. replace (68 + zlength m - 68) with (zlength m) by lia.
  assert (slice (Z.to_nat 68) (Z.to_nat (zlength m)) (head ++ be_bytes 32 (zlength m) ++ m ++ padding) = m) as ->.
  { unfold slice, zlength. rewrite Nat2Z.id, app_assoc. rewrite drop_app_length' by (rewrite length_app, length_be_bytes, Hh; done).
    by rewrite take_app_length' by done. }
  by rewrite Hm.
Qed.
End Messages.
End Theorems.

(** * Estimates of a client

    A node whose runtime runs one contract, and what it estimates: gas that does not depend
    on the limit is found; a contract that uses more under a smaller limit makes the node
    panic; a call that no limit is enough for is estimated at the largest. *)

(** What a call uses under a limit; [None] is out of gas. *)
Definition usage : Type := Z -> option Z.

Definition answer (use : usage) (gas_limit : Z) : CallInfo :=
  match use gas_limit with
  | Some g => MkCallInfo (Succeed Returned) [1] g 64
  | None => MkCallInfo (Error OutOfGas) [] gas_limit 0
  end.

Definition sample_client (use : usage) : @Client unit unit unit := {|
  best_hash _ := tt;
  is_safe := true;
  api_call _ _ _ _ _ gas_limit _ _ := ApiOk (answer use gas_limit);
  api_create _ _ _ _ _ _ _ := ApiDispatchError tt;
  api_estimate_request _ _ := ApiOk (MkCallRequest None (Some 7) None None (Some 5) None);
  decodes _ := true;
  api_weight_fee _ _ len := inr (Some len)
|}.

Definition sample_request : CallRequest := MkCallRequest (Some 3) (Some 7) None None (Some 5) None.

Definition sample_search (use : usage) : option (outcome (RpcError unit unit) (Z * Z)) :=
  @search 32 unit unit unit (sample_client use) 32 1 sample_request search_start.

(** Sixty thousand gas, which must be given with some to spare. *)
Definition steady : usage := fun limit => if limit <? 61000 then None else Some 60000.

Lemma sample_estimate :
  @estimate_resources 32 unit unit unit (sample_client steady) 32 true 3 [0; 0] None = Some (Ok (MkResponse 60000 64 2))
  /\ @rpc_call 32 unit unit unit (sample_client steady) sample_request None = Ok [1].
Proof. vm_compute. done. Qed.

Lemma steady_unsigned time limit g s : @used_at 32 unit unit unit (sample_client steady) sample_request time limit = Ok (g, s) -> 0 <= g.
Proof.
  unfold used_at, calculate_gas_used, sample_request, with_gas_limit. cbn [req_gas_limit req_from req_to req_value req_data req_storage_limit].
  unfold balance_value, to_u128. destruct (5 <=? umax 128); [|done]. cbn [obind api_call sample_client of_api]. unfold answer, steady, default.
  unfold id. destruct (limit <? 61000); cbn; [done|]. intros [= <- _]. lia.
Qed.

Lemma search_is_right_witness :
  exists time limit, LOWER <= limit <= UPPER
    /\ @used_at 32 unit unit unit (sample_client steady) sample_request time limit = Ok (60000, 64).
Proof.
  destruct (@search_is_right 32 unit unit unit (sample_client steady) sample_request
              steady_unsigned 32 ltac:(right; split; [lia|exists tt; intros n; reflexivity])) as (r & Hr & Hok).
  assert (sample_search steady = Some (Ok (60000, 64))) as E by (vm_compute; reflexivity).
  unfold sample_search in E. rewrite E in Hr. injection Hr as <-.
  destruct Hok as [Hok|(_ & Hg & _)]; [exact Hok|]. vm_compute in Hg. discriminate.
Defined.

(** Blocks are imported while the node searches, and the call takes an eighth less in each: no
    limit is too low, and the search goes on after thirty-two turns. *)
Definition moving_client : @Client unit unit nat := {|
  best_hash n := n;
  is_safe := true;
  api_call hash _ _ _ _ gas_limit _ _ := ApiOk (answer (fun _ => Some (Nat.iter hash (fun gas => 7 * gas / 8) UPPER)) gas_limit);
  api_create _ _ _ _ _ _ _ := ApiDispatchError tt;
  api_estimate_request _ _ := ApiOk sample_request;
  decodes _ := true;
  api_weight_fee _ _ len := inr (Some len)
|}.

Example moving_blocks_take_longer :
  @search 32 unit unit nat moving_client 32 1 sample_request search_start = None
  /\ exists g, @search 32 unit unit nat moving_client enough_turns 1 sample_request search_start = Some (Ok (g, 64)) /\ g < 10.
Proof. split; [by vm_compute|]. eexists. split; by vm_compute. Qed.

(** A loop that gives up early the more gas it sees. *)
Definition grows : usage := fun limit => Some (if limit <? 600000000 then 30000 else 25000).

Lemma growing_usage_panics : sample_search grows = Some Panic.
Proof. vm_compute. reflexivity. Qed.

(** Every limit is too little, and yet there is an estimate, without storage. *)
Lemma impossible_call_is_estimated : sample_search (fun _ => None) = Some (Ok (UPPER, 0)).
Proof. vm_compute. reflexivity. Qed.

(** ["no!"], in UTF-8, as [revert] encodes it. *)
Definition sample_revert : bytes := [8; 195; 121; 160] ++ be_bytes 32 32 ++ be_bytes 32 3 ++ [110; 111; 33] ++ repeat 0 29.

Lemma revert_message_is_read_witness : @decode_revert_message 32 unit sample_revert = Ok (Some [110; 111; 33]).
Proof.
  apply (revert_message_is_read 32 [8; 195; 121; 160] (be_bytes 32 32) (repeat 0 29) [110; 111; 33]);
    [reflexivity..|discriminate|reflexivity|vm_compute; discriminate].
Defined.

Lemma revert_message_in_bounds_witness : exists m, @decode_revert_message 32 unit [8; 195] = Ok m.
Proof. apply (revert_message_in_bounds 32 ltac:(lia)). repeat constructor; lia. Defined.

(** A message that starts with the last byte of a character is none. *)
Lemma utf8_samples : utf8 [226; 130; 172] = true /\ utf8 [130; 172] = false /\ utf8 [237; 160; 128] = false /\ utf8 [240; 159; 153; 130] = true.
Proof. vm_compute. done. Qed.
