(* ===== verification/Governance.v ===== *)
(** * Who may govern

    The origins of the runtimes: runtime/newrome/src/lib.rs composes them from the root and
    shares of five collectives, and gives them to the pallets; authority.rs decides with
    them who may schedule, delay and cancel dispatches. The other two runtimes have the same
    text, on other instances of the collectives ([setheum_instance], [neom_instance]). *)

From Stdlib Require Import String.
From S2P Require Import Prelude.

(** ** What the origins are made of *)

Inductive Collective : Type := GeneralCouncil | SetheumJury | FinancialCouncil | ExchangeCouncil | TechnicalCommittee.

(** [EnsureOrigin] as its answer. The checks of frame_system, pallet_collective (by the
    number of an instance) and orml_authority; [caller] is what an origin is made by. *)
Class Origins (Origin AccountId Caller : Type) : Type := {
  ensure_root : Origin -> bool;
  signed_by : Origin -> option AccountId;
  ensure_proportion_more_than : Z -> Z -> Z -> Origin -> bool;
  ensure_member : Z -> Origin -> bool;
  ensure_delayed : Z -> (Origin -> bool) -> Origin -> bool;
  caller : Origin -> Caller;
  root_caller : Caller;
  signed_caller : AccountId -> Caller
}.

(** An origin is the root, an account, so many of the seats of a collective, or another one
    that was delayed. *)
Class OriginLaws (Origin AccountId Caller : Type) `{Origins Origin AccountId Caller} : Type := {
  approved_by : Z -> Origin -> option (Z * Z);
  delayed_by : Origin -> option (Z * Origin);
  more_than_approved n d i o :
    ensure_proportion_more_than n d i o = true <-> exists yes seats, approved_by i o = Some (yes, seats) /\ n * seats < yes * d;
  approved_range i o yes seats : approved_by i o = Some (yes, seats) -> 0 <= yes <= seats;
  approved_by_one i j o a b : approved_by i o = Some a -> approved_by j o = Some b -> i = j;
  root_is_no_collective i o : ensure_root o = true -> approved_by i o = None;
  root_is_not_signed o : ensure_root o = true -> signed_by o = None;
  account_is_no_collective i o who : signed_by o = Some who -> approved_by i o = None;
  delayed_is_another o d o' : delayed_by o = Some (d, o') -> ensure_root o = false /\ signed_by o = None /\ forall i, approved_by i o = None;
  ensure_delayed_spec d f o : ensure_delayed d f o = true <-> exists delay o', delayed_by o = Some (delay, o') /\ d <= delay /\ f o' = true;
  signed_caller_inj a b : signed_caller a = signed_caller b -> a = b
}.

(** The instances behind the names of the collectives. *)
Definition newrome_instance (c : Collective) : Z :=
  match c with
  | GeneralCouncil => 1 | SetheumJury => 2 | FinancialCouncil => 3 | ExchangeCouncil => 4 | TechnicalCommittee => 5
  end.

Definition setheum_instance (c : Collective) : Z :=
  match c with
  | GeneralCouncil => 1 | SetheumJury => 1 | FinancialCouncil => 2 | ExchangeCouncil => 2 | TechnicalCommittee => 4
  end.

Definition neom_instance (c : Collective) : Z :=
  match c with
  | GeneralCouncil => 1 | SetheumJury => 1 | FinancialCouncil => 2 | ExchangeCouncil => 2 | TechnicalCommittee => 4
  end.

(** ** constants.rs: time in blocks *)

Definition SECS_PER_BLOCK : Z := 4.
Definition MINUTES : Z := 60 / SECS_PER_BLOCK.
Definition HOURS : Z := MINUTES * 60.
Definition DAYS : Z := HOURS * 24.

Section Governance.
Context {Origin AccountId Caller : Type} `{!Origins Origin AccountId Caller} `{!EqDecision AccountId} `{!EqDecision Caller}.
Variable instance : Collective -> Z.

(** [EnsureOneOf], and [EnsureProportionMoreThan] of the collective of a name. *)
Definition one_of (f g : Origin -> bool) (o : Origin) : bool := f o || g o.

Definition more_than (n d : Z) (c : Collective) : Origin -> bool := ensure_proportion_more_than n d (instance c).

(** ** The composed origins *)

Definition EnsureRootOrAllGeneralCouncil : Origin -> bool := one_of ensure_root (more_than 1 1 GeneralCouncil).

Definition EnsureRootOrAllSetheumJury : Origin -> bool := one_of ensure_root (more_than 1 1 SetheumJury).

Definition EnsureAllSetheumJuryOrAllGeneralCouncil : Origin -> bool :=
  one_of (more_than 1 1 SetheumJury) (more_than 1 1 GeneralCouncil).

Definition EnsureRootOrOneThirdSetheumJury : Origin -> bool := one_of ensure_root (more_than 1 3 SetheumJury).

Definition EnsureRootOrTwoThirdsSetheumJury : Origin -> bool := one_of ensure_root (more_than 2 3 SetheumJury).

Definition EnsureRootOrHalfSetheumJury : Origin -> bool := one_of ensure_root (more_than 1 2 SetheumJury).

Definition EnsureTwoThirdsJuryOrTwoThirdsGeneralCouncil : Origin -> bool :=
  one_of (more_than 2 3 SetheumJury) (more_than 2 3 GeneralCouncil).

Definition EnsureQuarterSetheumJuryOrHalfGeneralCouncil : Origin -> bool :=
  one_of (more_than 1 4 SetheumJury) (more_than 1 2 GeneralCouncil).

Definition EnsureOneThirdSetheumJuryOrHalfGeneralCouncil : Origin -> bool :=
  one_of (more_than 1 3 SetheumJury) (more_than 1 2 GeneralCouncil).

Definition EnsureHalfSetheumJuryOrHalfGeneralCouncil : Origin -> bool :=
  one_of (more_than 1 2 SetheumJury) (more_than 1 2 GeneralCouncil).

Definition EnsureRootOrHalfGeneralCouncil : Origin -> bool := one_of ensure_root (more_than 1 2 GeneralCouncil).

Definition EnsureRootOrHalfFinancialCouncil : Origin -> bool := one_of ensure_root (more_than 1 2 FinancialCouncil).

Definition EnsureHalfSetheumJuryOrHalfFinancialCouncil : Origin -> bool :=
  one_of (more_than 1 2 SetheumJury) (more_than 1 2 FinancialCouncil).

Definition EnsureRootOrTwoThirdsFinancialCouncil : Origin -> bool :=
  one_of ensure_root (more_than 2 3 FinancialCouncil).

Definition EnsureHalfSetheumJuryOrTwoThirdsFinancialCouncil : Origin -> bool :=
  one_of (more_than 1 2 SetheumJury) (more_than 2 3 FinancialCouncil).

Definition EnsureRootOrAllFinancialCouncil : Origin -> bool := one_of ensure_root (more_than 2 3 FinancialCouncil).

Definition EnsureHalfSetheumJuryOrAllFinancialCouncil : Origin -> bool :=
  one_of (more_than 1 2 SetheumJury) (more_than 1 1 FinancialCouncil).

Definition EnsureTwoThirdsSetheumJuryOrAllFinancialCouncil : Origin -> bool :=
  one_of (more_than 2 3 SetheumJury) (more_than 1 1 FinancialCouncil).

Definition EnsureAllSetheumJuryOrAllFinancialCouncil : Origin -> bool :=
  one_of (more_than 1 1 SetheumJury) (more_than 1 1 FinancialCouncil).

Definition EnsureTwoThirdsFinancialCouncilOrTwoThirdsExchangeCouncil : Origin -> bool :=
  one_of (more_than 2 3 FinancialCouncil) (more_than 2 3 ExchangeCouncil).

Definition EnsureRootOrHalfExchangeCouncil : Origin -> bool := one_of ensure_root (more_than 1 2 ExchangeCouncil).

Definition EnsureHalfSetheumJuryOrHalfExchangeCouncil : Origin -> bool :=
  one_of (more_than 1 2 SetheumJury) (more_than 1 2 ExchangeCouncil).

Definition EnsureRootOrTwoThirdsExchangeCouncil : Origin -> bool :=
  one_of ensure_root (more_than 2 3 ExchangeCouncil).

Definition EnsureHalfFinancialCouncilOrTwoThirdsExchangeCouncil : Origin -> bool :=
  one_of (more_than 1 2 FinancialCouncil) (more_than 2 3 ExchangeCouncil).

Definition EnsureHalfSetheumJuryOrTwoThirdsExchangeCouncil : Origin -> bool :=
  one_of (more_than 1 2 SetheumJury) (more_than 2 3 ExchangeCouncil).

Definition EnsureRootOrAllExchangeCouncil : Origin -> bool := one_of ensure_root (more_than 2 3 ExchangeCouncil).

Definition EnsureHalfSetheumJuryOrAllExchangeCouncil : Origin -> bool :=
  one_of (more_than 1 2 SetheumJury) (more_than 1 1 ExchangeCouncil).

Definition EnsureTwoThirdsSetheumJuryOrAllExchangeCouncil : Origin -> bool :=
  one_of (more_than 2 3 SetheumJury) (more_than 1 1 ExchangeCouncil).

Definition EnsureAllSetheumJuryOrAllExchangeCouncil : Origin -> bool :=
  one_of (more_than 1 1 SetheumJury) (more_than 1 1 ExchangeCouncil).

Definition EnsureRootOrTwoThirdsGeneralCouncil : Origin -> bool := one_of ensure_root (more_than 2 3 GeneralCouncil).

Definition EnsureTwoThirdsSetheumJuryOrTwoThirdsGeneralCouncil : Origin -> bool :=
  one_of (more_than 2 3 SetheumJury) (more_than 2 3 GeneralCouncil).

Definition EnsureRootOrThreeFourthsGeneralCouncil : Origin -> bool :=
  one_of ensure_root (more_than 3 4 GeneralCouncil).

Definition EnsureRootOrThreeFourthsSetheumJury : Origin -> bool := one_of ensure_root (more_than 3 4 SetheumJury).

Definition EnsureThreeFourthsSetheumJuryOrThreeFourthsGeneralCouncil : Origin -> bool :=
  one_of (more_than 3 4 SetheumJury) (more_than 3 4 GeneralCouncil).

Definition EnsureRootOrOneThirdsTechnicalCommittee : Origin -> bool :=
  one_of ensure_root (more_than 1 3 TechnicalCommittee).

Definition EnsureOneThirdsSetheumJuryOrOneThirdsTechnicalCommittee : Origin -> bool :=
  one_of (more_than 1 3 SetheumJury) (more_than 1 3 TechnicalCommittee).

Definition EnsureTwoThirdsSetheumJuryOrTwoThirdsTechnicalCommittee : Origin -> bool :=
  one_of ensure_root (more_than 2 3 TechnicalCommittee).

Definition EnsureRootOrTwoThirdsTechnicalCommittee : Origin -> bool :=
  one_of (more_than 2 3 SetheumJury) (more_than 2 3 TechnicalCommittee).

(** ** Memberships *)

Inductive MembershipAction : Type := AddMember | RemoveMember | SwapMember | ResetMembers | ChangePrime.

Definition general_council_membership (a : MembershipAction) : Origin -> bool :=
  match a with
  | AddMember => EnsureRootOrThreeFourthsGeneralCouncil
  | RemoveMember => EnsureRootOrThreeFourthsGeneralCouncil
  | SwapMember => EnsureRootOrThreeFourthsGeneralCouncil
  | ResetMembers => EnsureRootOrThreeFourthsGeneralCouncil
  | ChangePrime => EnsureRootOrThreeFourthsGeneralCouncil
  end.

Definition setheum_jury_membership (a : MembershipAction) : Origin -> bool :=
  match a with
  | AddMember => EnsureRootOrThreeFourthsSetheumJury
  | RemoveMember => EnsureRootOrThreeFourthsSetheumJury
  | SwapMember => EnsureRootOrThreeFourthsSetheumJury
  | ResetMembers => EnsureRootOrThreeFourthsSetheumJury
  | ChangePrime => EnsureRootOrThreeFourthsSetheumJury
  end.

Definition financial_council_membership (a : MembershipAction) : Origin -> bool :=
  match a with
  | AddMember => EnsureRootOrTwoThirdsGeneralCouncil
  | RemoveMember => EnsureRootOrTwoThirdsGeneralCouncil
  | SwapMember => EnsureRootOrTwoThirdsGeneralCouncil
  | ResetMembers => EnsureRootOrTwoThirdsGeneralCouncil
  | ChangePrime => EnsureRootOrTwoThirdsGeneralCouncil
  end.

Definition exchange_council_membership (a : MembershipAction) : Origin -> bool :=
  match a with
  | AddMember => EnsureRootOrTwoThirdsExchangeCouncil
  | RemoveMember => EnsureRootOrTwoThirdsExchangeCouncil
  | SwapMember => EnsureRootOrTwoThirdsExchangeCouncil
  | ResetMembers => EnsureRootOrTwoThirdsExchangeCouncil
  | ChangePrime => EnsureRootOrTwoThirdsExchangeCouncil
  end.

Definition technical_committee_membership (a : MembershipAction) : Origin -> bool :=
  match a with
  | AddMember => EnsureRootOrTwoThirdsGeneralCouncil
  | RemoveMember => EnsureRootOrTwoThirdsGeneralCouncil
  | SwapMember => EnsureRootOrTwoThirdsGeneralCouncil
  | ResetMembers => EnsureRootOrTwoThirdsGeneralCouncil
  | ChangePrime => EnsureRootOrTwoThirdsGeneralCouncil
  end.

Definition operator_membership (a : MembershipAction) : Origin -> bool :=
  match a with
  | AddMember => EnsureRootOrTwoThirdsGeneralCouncil
  | RemoveMember => EnsureRootOrTwoThirdsGeneralCouncil
  | SwapMember => EnsureRootOrTwoThirdsGeneralCouncil
  | ResetMembers => EnsureRootOrTwoThirdsGeneralCouncil
  | ChangePrime => EnsureRootOrTwoThirdsGeneralCouncil
  end.

Definition membership_origin (c : Collective) : MembershipAction -> Origin -> bool :=
  match c with
  | GeneralCouncil => general_council_membership
  | SetheumJury => setheum_jury_membership
  | FinancialCouncil => financial_council_membership
  | ExchangeCouncil => exchange_council_membership
  | TechnicalCommittee => technical_committee_membership
  end.

(** ** The origins of the pallets *)

Definition treasury_approve_origin : Origin -> bool := EnsureRootOrHalfGeneralCouncil.
Definition treasury_reject_origin : Origin -> bool := EnsureRootOrHalfGeneralCouncil.
Definition staking_slash_cancel_origin : Origin -> bool := EnsureRootOrThreeFourthsGeneralCouncil.
Definition democracy_external_origin : Origin -> bool := EnsureRootOrHalfGeneralCouncil.
Definition democracy_external_majority_origin : Origin -> bool := EnsureRootOrHalfGeneralCouncil.
Definition democracy_external_default_origin : Origin -> bool := EnsureRootOrAllGeneralCouncil.
Definition democracy_fast_track_origin : Origin -> bool := EnsureRootOrTwoThirdsTechnicalCommittee.
Definition democracy_cancellation_origin : Origin -> bool := EnsureRootOrTwoThirdsGeneralCouncil.
Definition democracy_blacklist_origin : Origin -> bool := EnsureRootOrHalfSetheumJury.
Definition democracy_operational_preimage_origin : Origin -> bool := ensure_member (instance GeneralCouncil).
Definition prices_lock_origin : Origin -> bool := EnsureRootOrTwoThirdsGeneralCouncil.
Definition scheduler_schedule_origin : Origin -> bool := ensure_root.
Definition settmint_update_origin : Origin -> bool := EnsureRootOrHalfFinancialCouncil.
Definition dex_update_origin : Origin -> bool := EnsureRootOrHalfExchangeCouncil.
Definition dex_listing_origin : Origin -> bool := EnsureRootOrHalfExchangeCouncil.
Definition incentives_update_origin : Origin -> bool := EnsureRootOrHalfFinancialCouncil.
Definition incentives_accumulate_period_origin : Origin -> bool := EnsureRootOrTwoThirdsExchangeCouncil.
Definition evm_network_contract_origin : Origin -> bool := EnsureRootOrTwoThirdsTechnicalCommittee.
Definition evm_free_deployment_origin : Origin -> bool := EnsureRootOrHalfGeneralCouncil.
Definition chainbridge_admin_origin : Origin -> bool := ensure_root.
Definition chainbridge_registor_origin : Origin -> bool := EnsureRootOrHalfGeneralCouncil.

(** [SetheumFoundationAccounts] is an argument; the account is the success of the origin. *)
Definition EnsureSetheumFoundation (foundation : list AccountId) (o : Origin) : option AccountId :=
  match signed_by o with
  | Some who => if bool_decide (who ∈ foundation) then Some who else None
  | None => None
  end.

(** ** authority.rs *)

Inductive AuthorityError : Type := BadOrigin.

Abbreviation DispatchResult := (outcome AuthorityError unit).

Definition ensured (b : bool) : DispatchResult := if b then Ok tt else Err BadOrigin.

(** [ensure_root(origin.clone()).or_else(..)]. *)
Definition root_or (o : Origin) (otherwise : DispatchResult) : DispatchResult := if ensure_root o then Ok tt else otherwise.

Definition check_schedule_dispatch (o : Origin) (priority : Z) : DispatchResult :=
  ensured (ensure_root o || EnsureRootOrHalfGeneralCouncil o || EnsureRootOrHalfFinancialCouncil o).

Definition check_fast_track_schedule (o : Origin) (initial_origin : Caller) (new_delay : Z) : DispatchResult :=
  root_or o (
    if new_delay / HOURS <? 12 then ensured (EnsureRootOrTwoThirdsTechnicalCommittee o)
    else ensured (EnsureRootOrOneThirdsTechnicalCommittee o)).

Definition check_delay_schedule (o : Origin) (initial_origin : Caller) : DispatchResult :=
  root_or o (ensured (EnsureRootOrOneThirdsTechnicalCommittee o)).

Definition check_cancel_schedule (o : Origin) (initial_origin : Caller) : DispatchResult :=
  root_or o (
    if bool_decide (caller o = initial_origin) || EnsureRootOrThreeFourthsGeneralCouncil o then Ok tt else Err BadOrigin).

Inductive AuthoritysOriginId : Type := AuthorityRoot | SetheumTreasury.

(** The account of the treasury is an argument. *)
Definition into_origin (treasury_account : AccountId) (id : AuthoritysOriginId) : Caller :=
  match id with AuthorityRoot => root_caller | SetheumTreasury => signed_caller treasury_account end.

(** Of runtime/neom/src/authority.rs; the other two import them under names that their
    crates do not define. *)
Definition SevenDays : Z := 7 * DAYS.
Definition OneDay : Z := DAYS.

Definition check_dispatch_from (id : AuthoritysOriginId) (o : Origin) : DispatchResult :=
  root_or o (
    match id with
    | AuthorityRoot => ensured (ensure_delayed SevenDays EnsureRootOrThreeFourthsGeneralCouncil o)
    | SetheumTreasury => ensured (ensure_delayed OneDay EnsureRootOrHalfGeneralCouncil o)
    end).
End Governance.

(** ** Calls of the runtime *)

(** The pallets with calls, by the name of [construct_runtime]. *)
Inductive RuntimeCall : Type :=
| CallSystem | CallTimestamp | CallScheduler | CallRandomnessCollectiveFlip | CallBalances | CallCurrencies
| CallNFT | CallVesting | CallTransactionPayment | CallTreasury | CallBounties | CallTips
| CallUtility | CallMultisig | CallRecovery | CallProxy | CallIndices | CallAuthorship
| CallBabe | CallGrandpa | CallStaking | CallSession | CallGeneralCouncil | CallGeneralCouncilMembership
| CallSetheumJury | CallSetheumJuryMembership | CallFinancialCouncil | CallFinancialCouncilMembership | CallExchangeCouncil | CallExchangeCouncilMembership
| CallTechnicalCommittee | CallTechnicalCommitteeMembership | CallAuthority | CallSetheumOracle | CallOperatorMembershipSetheum | CallAuction
| CallRewards | CallPrices | CallSerpAuctionManager | CallSerpTreasury | CallDex | CallIncentives
| CallSettmintEngine | CallSettmintGateway | CallSettmintManager | CallEVM | CallEvmAccounts | CallRenVmBridge
| CallChainBridge | CallSetheumChainBridge | CallSudo.

(** [BaseCallFilter], and the filter that frame_system is configured with: [()], which lets
    every call pass. *)
Definition BaseCallFilter (c : RuntimeCall) : bool :=
  match c with
  | CallSystem | CallTimestamp | CallScheduler | CallUtility | CallMultisig
  | CallSudo | CallAuthority | CallGeneralCouncil | CallGeneralCouncilMembership | CallSetheumJury
  | CallSetheumJuryMembership | CallFinancialCouncil | CallFinancialCouncilMembership | CallExchangeCouncil | CallExchangeCouncilMembership
  | CallTechnicalCommittee | CallTechnicalCommitteeMembership | CallSetheumOracle | CallOperatorMembershipSetheum => true
  | _ => false
  end.

Definition configured_filter (c : RuntimeCall) : bool := true.
