(* ===== verification/GovernanceTheorems.v ===== *)
(** * What the origins of the runtimes allow

    Governing takes the root or a collective, never an account; more of a collective may do
    more; who controls which membership; who may hurry, delay and cancel dispatches. And
    where the origins are not what their names say: nobody can be unanimous, and the root is
    left out of one that is named after it. *)

From S2P Require Import Prelude Governance.

Section Theorems.
Context {Origin AccountId Caller : Type} `{OriginLaws Origin AccountId Caller} `{!EqDecision AccountId} `{!EqDecision Caller}.
Variable instance : Collective -> Z.

(** More than [n / d] of the seats of a collective stand behind an origin. *)
Definition backed (n d : Z) (c : Collective) (o : Origin) : Prop :=
  exists yes seats, approved_by (instance c) o = Some (yes, seats) /\ n * seats < yes * d.

Lemma more_than_backed n d c o : more_than instance n d c o = true <-> backed n d c o.
Proof. apply more_than_approved. Qed.

(** A larger share is also a smaller one. *)
Lemma backed_less n d n' d' c o : 0 < d -> 0 < d' -> n' * d <= n * d' -> backed n d c o -> backed n' d' c o.
Proof.
  intros Hd Hd' Hle (yes & seats & Ha & Hlt). exists yes, seats. split; [done|].
  pose proof (approved_range _ _ _ _ Ha) as Hr. assert (n * seats * d' < yes * d * d') by nia. assert (n' * d * seats <= n * d' * seats) by nia.
  apply (Z.mul_lt_mono_pos_r d); nia.
Qed.

Lemma one_of_true (f g : Origin -> bool) o : one_of f g o = true <-> f o = true \/ g o = true.
Proof. apply orb_true_iff. Qed.

(** ** Who governs *)

(** All that the runtimes compose. *)
Definition composed_origins : list (Origin -> bool) :=
  map (fun f => f instance) [
    EnsureRootOrAllGeneralCouncil; EnsureRootOrAllSetheumJury; EnsureAllSetheumJuryOrAllGeneralCouncil;
    EnsureRootOrOneThirdSetheumJury; EnsureRootOrTwoThirdsSetheumJury; EnsureRootOrHalfSetheumJury;
    EnsureTwoThirdsJuryOrTwoThirdsGeneralCouncil; EnsureQuarterSetheumJuryOrHalfGeneralCouncil;
    EnsureOneThirdSetheumJuryOrHalfGeneralCouncil; EnsureHalfSetheumJuryOrHalfGeneralCouncil;
    EnsureRootOrHalfGeneralCouncil; EnsureRootOrHalfFinancialCouncil;
    EnsureHalfSetheumJuryOrHalfFinancialCouncil; EnsureRootOrTwoThirdsFinancialCouncil;
    EnsureHalfSetheumJuryOrTwoThirdsFinancialCouncil; EnsureRootOrAllFinancialCouncil;
    EnsureHalfSetheumJuryOrAllFinancialCouncil; EnsureTwoThirdsSetheumJuryOrAllFinancialCouncil;
    EnsureAllSetheumJuryOrAllFinancialCouncil; EnsureTwoThirdsFinancialCouncilOrTwoThirdsExchangeCouncil;
    EnsureRootOrHalfExchangeCouncil; EnsureHalfSetheumJuryOrHalfExchangeCouncil;
    EnsureRootOrTwoThirdsExchangeCouncil; EnsureHalfFinancialCouncilOrTwoThirdsExchangeCouncil;
    EnsureHalfSetheumJuryOrTwoThirdsExchangeCouncil; EnsureRootOrAllExchangeCouncil;
    EnsureHalfSetheumJuryOrAllExchangeCouncil; EnsureTwoThirdsSetheumJuryOrAllExchangeCouncil;
    EnsureAllSetheumJuryOrAllExchangeCouncil; EnsureRootOrTwoThirdsGeneralCouncil;
    EnsureTwoThirdsSetheumJuryOrTwoThirdsGeneralCouncil; EnsureRootOrThreeFourthsGeneralCouncil;
    EnsureRootOrThreeFourthsSetheumJury; EnsureThreeFourthsSetheumJuryOrThreeFourthsGeneralCouncil;
    EnsureRootOrOneThirdsTechnicalCommittee; EnsureOneThirdsSetheumJuryOrOneThirdsTechnicalCommittee;
    EnsureTwoThirdsSetheumJuryOrTwoThirdsTechnicalCommittee; EnsureRootOrTwoThirdsTechnicalCommittee].

Lemma root_or_backed n d c o :
  n * 4 >= d -> 0 < d -> one_of ensure_root (more_than instance n d c) o = true -> ensure_root o = true \/ exists c, backed 1 4 c o.
Proof.
  intros Hn Hd [Hr|Hm%more_than_backed]%one_of_true; [by left|]. right. exists c. eapply backed_less; [..|exact Hm]; lia.
Qed.

Lemma both_backed n d c n' d' c' o :
  n * 4 >= d -> 0 < d -> n' * 4 >= d' -> 0 < d' -> one_of (more_than instance n d c) (more_than instance n' d' c') o = true ->
  ensure_root o = true \/ exists c, backed 1 4 c o.
Proof.
  intros Hn Hd Hn' Hd' [Hm%more_than_backed|Hm%more_than_backed]%one_of_true; right;
    [exists c|exists c']; (eapply backed_less; [..|exact Hm]; lia).
Qed.

(** Whatever origin of these a call asks for, it gets past only by the root or with more
    than a quarter of one collective behind it. *)
Theorem governing_takes_a_collective f o :
  f ∈ composed_origins -> f o = true ->
  (ensure_root o = true \/ exists c, backed 1 4 c o) /\ forall who, signed_by o <> Some who.
Proof.
  intros Hf Ho. assert (ensure_root o = true \/ exists c, backed 1 4 c o) as Hb.
  { unfold composed_origins in Hf. cbn [map] in Hf.
    repeat (apply elem_of_cons in Hf as [->|Hf];
      [first [eapply root_or_backed; [..|exact Ho]; lia | eapply both_backed; [..|exact Ho]; lia]|]).
    by apply not_elem_of_nil in Hf. }
  split; [done|]. intros who Hw. destruct Hb as [Hr|(c & yes & seats & Ha & _)].
  - by rewrite (root_is_not_signed o Hr) in Hw.
  - by rewrite (account_is_no_collective (instance c) o who Hw) in Ha.
Qed.

(** What three fourths of a collective may, and two thirds of it, and a half. *)
Lemma majorities_are_nested o :
  (EnsureRootOrThreeFourthsGeneralCouncil instance o = true -> EnsureRootOrTwoThirdsGeneralCouncil instance o = true)
  /\ (EnsureRootOrTwoThirdsGeneralCouncil instance o = true -> EnsureRootOrHalfGeneralCouncil instance o = true)
  /\ (EnsureRootOrThreeFourthsSetheumJury instance o = true -> EnsureRootOrTwoThirdsSetheumJury instance o = true)
  /\ (EnsureRootOrTwoThirdsSetheumJury instance o = true -> EnsureRootOrHalfSetheumJury instance o = true)
  /\ (EnsureRootOrHalfSetheumJury instance o = true -> EnsureRootOrOneThirdSetheumJury instance o = true)
  /\ (EnsureRootOrTwoThirdsFinancialCouncil instance o = true -> EnsureRootOrHalfFinancialCouncil instance o = true)
  /\ (EnsureRootOrTwoThirdsExchangeCouncil instance o = true -> EnsureRootOrHalfExchangeCouncil instance o = true).
Proof.
  split_and!; intros [Hr|Hm%more_than_backed]%one_of_true; apply one_of_true; try (by left);
    right; apply more_than_backed; (eapply backed_less; [..|exact Hm]; lia).
Qed.

(** ** Memberships *)

(** The collective that decides about the members of another, and its share. *)
Definition controller (c : Collective) : Collective * Z * Z :=
  match c with
  | GeneralCouncil => (GeneralCouncil, 3, 4)
  | SetheumJury => (SetheumJury, 3, 4)
  | FinancialCouncil => (GeneralCouncil, 2, 3)
  | ExchangeCouncil => (ExchangeCouncil, 2, 3)
  | TechnicalCommittee => (GeneralCouncil, 2, 3)
  end.

(** Every change of members takes the root, or the share of the collective in charge: the
    jury, the exchange council and the general council decide about themselves, and the
    general council about the two others. *)
Theorem membership_is_controlled c a o :
  membership_origin instance c a o = true
  <-> ensure_root o = true \/ backed (controller c).1.2 (controller c).2 (controller c).1.1 o.
Proof. destruct c, a; simpl; by rewrite <- more_than_backed, <- one_of_true. Qed.

(** ** Scheduled dispatches *)

Lemma ensured_ok b : ensured b = Ok tt <-> b = true.
Proof. by destruct b. Qed.

Lemma root_or_ok (o : Origin) r : root_or o r = Ok tt <-> ensure_root o = true \/ r = Ok tt.
Proof. unfold root_or. destruct (ensure_root o); naive_solver. Qed.

(** Hurrying takes two thirds of the technical committee or of the jury where less than
    twelve hours are left, and a third of the committee otherwise. *)
Lemma fast_track_spec o initial new_delay :
  0 <= new_delay ->
  check_fast_track_schedule instance o initial new_delay = Ok tt
  <-> ensure_root o = true
      \/ (new_delay < 12 * HOURS /\ (backed 2 3 SetheumJury o \/ backed 2 3 TechnicalCommittee o))
      \/ (12 * HOURS <= new_delay /\ backed 1 3 TechnicalCommittee o).
Proof.
  intros Hd. assert (HOURS = 900) as HH by done. unfold check_fast_track_schedule. rewrite root_or_ok.
  destruct (Z.ltb_spec (new_delay / HOURS) 12) as [Hs|Hl]; rewrite ensured_ok; unfold EnsureRootOrTwoThirdsTechnicalCommittee, EnsureRootOrOneThirdsTechnicalCommittee;
    rewrite one_of_true, !more_than_backed; rewrite HH in *.
  - assert (new_delay < 12 * 900) by (pose proof (Z.mul_succ_div_gt new_delay 900); lia). naive_solver lia.
  - assert (12 * 900 <= new_delay) by (pose proof (Z.mul_div_le new_delay 900); lia). naive_solver lia.
Qed.

(** Who may schedule a dispatch, hurry it, delay it, cancel it, and dispatch as another. *)
Theorem authority_decides o initial priority new_delay :
  0 <= new_delay ->
  (check_schedule_dispatch instance o priority = Ok tt
   <-> ensure_root o = true \/ backed 1 2 GeneralCouncil o \/ backed 1 2 FinancialCouncil o)
  /\ (check_fast_track_schedule instance o initial new_delay = Ok tt
      <-> ensure_root o = true
          \/ (new_delay < 12 * HOURS /\ (backed 2 3 SetheumJury o \/ backed 2 3 TechnicalCommittee o))
          \/ (12 * HOURS <= new_delay /\ backed 1 3 TechnicalCommittee o))
  /\ (check_delay_schedule instance o initial = Ok tt <-> ensure_root o = true \/ backed 1 3 TechnicalCommittee o)
  /\ (check_cancel_schedule instance o initial = Ok tt
      <-> ensure_root o = true \/ caller o = initial \/ backed 3 4 GeneralCouncil o)
  /\ (check_dispatch_from instance AuthorityRoot o = Ok tt
      <-> ensure_root o = true
          \/ exists delay o', delayed_by o = Some (delay, o') /\ 7 * DAYS <= delay /\ (ensure_root o' = true \/ backed 3 4 GeneralCouncil o'))
  /\ (check_dispatch_from instance SetheumTreasury o = Ok tt
      <-> ensure_root o = true
          \/ exists delay o', delayed_by o = Some (delay, o') /\ DAYS <= delay /\ (ensure_root o' = true \/ backed 1 2 GeneralCouncil o')).
Proof.
  intros Hd. split_and!.
  - unfold check_schedule_dispatch, EnsureRootOrHalfGeneralCouncil, EnsureRootOrHalfFinancialCouncil, one_of. rewrite ensured_ok, !orb_true_iff, !more_than_backed. naive_solver.
  - by apply fast_track_spec.
  - unfold check_delay_schedule. rewrite root_or_ok, ensured_ok. unfold EnsureRootOrOneThirdsTechnicalCommittee.
    rewrite one_of_true, more_than_backed. naive_solver.
  - unfold check_cancel_schedule. rewrite root_or_ok. unfold EnsureRootOrThreeFourthsGeneralCouncil.
    rewrite <- more_than_backed. unfold one_of. case_bool_decide; destruct (ensure_root o), (more_than instance 3 4 GeneralCouncil o); naive_solver.
  - unfold check_dispatch_from. rewrite root_or_ok, ensured_ok, ensure_delayed_spec. unfold EnsureRootOrThreeFourthsGeneralCouncil, SevenDays.
    setoid_rewrite one_of_true. setoid_rewrite more_than_backed. done.
  - unfold check_dispatch_from. rewrite root_or_ok, ensured_ok, ensure_delayed_spec. unfold EnsureRootOrHalfGeneralCouncil, OneDay.
    setoid_rewrite one_of_true. setoid_rewrite more_than_backed. done.
Qed.

(** ** What the names do not say *)

Lemma nobody_is_unanimous c o : more_than instance 1 1 c o = false.
Proof.
  apply not_true_iff_false. intros (yes & seats & Ha & Hlt)%more_than_backed. pose proof (approved_range _ _ _ _ Ha). lia.
Qed.

(** More than all of a collective is never reached: an origin that asks for all of it is the
    root alone, and nobody where there is no root in it. The default-carries referenda of a
    unanimous council are such an origin; and two that ask for all by their name ask for two
    thirds. *)
Theorem unanimity_is_out_of_reach o :
  EnsureRootOrAllGeneralCouncil instance o = ensure_root o
  /\ EnsureRootOrAllSetheumJury instance o = ensure_root o
  /\ democracy_external_default_origin instance o = ensure_root o
  /\ EnsureAllSetheumJuryOrAllGeneralCouncil instance o = false
  /\ EnsureAllSetheumJuryOrAllFinancialCouncil instance o = false
  /\ EnsureAllSetheumJuryOrAllExchangeCouncil instance o = false
  /\ (EnsureRootOrAllFinancialCouncil instance o = true <-> ensure_root o = true \/ backed 2 3 FinancialCouncil o)
  /\ (EnsureRootOrAllExchangeCouncil instance o = true <-> ensure_root o = true \/ backed 2 3 ExchangeCouncil o).
Proof.
  unfold democracy_external_default_origin, EnsureRootOrAllGeneralCouncil, EnsureRootOrAllSetheumJury, EnsureAllSetheumJuryOrAllGeneralCouncil,
    EnsureAllSetheumJuryOrAllFinancialCouncil, EnsureAllSetheumJuryOrAllExchangeCouncil, EnsureRootOrAllFinancialCouncil, EnsureRootOrAllExchangeCouncil.
  rewrite !one_of_true, !more_than_backed. unfold one_of. rewrite !nobody_is_unanimous, !orb_false_r. done.
Qed.

(** The definitions of two origins are exchanged: the one named after the root, with which
    referenda are hurried and contracts of the network made, refuses it; the one named after
    the jury takes the root instead. *)
Theorem root_cannot_fast_track o :
  ensure_root o = true ->
  democracy_fast_track_origin instance o = false /\ evm_network_contract_origin instance o = false
  /\ EnsureTwoThirdsSetheumJuryOrTwoThirdsTechnicalCommittee instance o = true.
Proof.
  intros Hr. assert (forall n d c, more_than instance n d c o = false) as Hn.
  { intros n d c. apply not_true_iff_false. intros (yes & seats & Ha & _)%more_than_backed. by rewrite (root_is_no_collective _ o Hr) in Ha. }
  unfold democracy_fast_track_origin, evm_network_contract_origin, EnsureRootOrTwoThirdsTechnicalCommittee, EnsureTwoThirdsSetheumJuryOrTwoThirdsTechnicalCommittee, one_of.
  by rewrite !Hn, Hr.
Qed.

End Theorems.

(** In the two other runtimes the jury is the general council, and the financial council is
    the exchange council; in this one all are different. *)
Theorem instances_collide {Origin AccountId Caller : Type} `{Origins Origin AccountId Caller} (o : Origin) :
  EnsureRootOrHalfSetheumJury setheum_instance o = EnsureRootOrHalfGeneralCouncil setheum_instance o
  /\ EnsureRootOrHalfFinancialCouncil neom_instance o = EnsureRootOrHalfExchangeCouncil neom_instance o
  /\ Inj (=) (=) newrome_instance.
Proof. split; [done|]. split; [done|]. by intros [] []. Qed.

(** Less than twelve hours away the jury may hurry a dispatch, and no other: it is two
    thirds of it then, and none of it later. *)
Theorem jury_hurries_only_the_urgent {Origin AccountId Caller : Type} `{OriginLaws Origin AccountId Caller} (o : Origin) (initial : Caller) new_delay :
  0 <= new_delay -> backed newrome_instance 2 3 SetheumJury o ->
  check_fast_track_schedule newrome_instance o initial new_delay = (if new_delay <? 12 * HOURS then Ok tt else Err BadOrigin).
Proof.
  intros Hd Hb. assert (forall r : outcome AuthorityError unit, r <> Panic -> r <> Ok tt -> r = Err BadOrigin) as Herr
    by (intros [[]|[]|]; done).
  assert (approved_by (newrome_instance TechnicalCommittee) o = None /\ ensure_root o = false) as [Hno Hr].
  { destruct Hb as (yes & seats & Ha & _). split.
    - destruct (approved_by (newrome_instance TechnicalCommittee) o) eqn:E; [|done]. by pose proof (approved_by_one _ _ _ _ _ Ha E).
    - apply not_true_iff_false. intros Hr. by rewrite (root_is_no_collective _ o Hr) in Ha. }
  destruct (Z.ltb_spec new_delay (12 * HOURS)).
  - apply fast_track_spec; [done|]. right. left. split; [done|by left].
  - apply Herr; [unfold check_fast_track_schedule, root_or, ensured; repeat case_match; done|].
    rewrite (fast_track_spec newrome_instance o initial new_delay Hd). intros [?|[[? _]|[_ (yes & seats & Ha & _)]]]; [congruence|lia|congruence].
Qed.

(** * Origins of a concrete chain

    Origins as the runtime's macro makes them, and the theorems on governance applied. *)

Inductive SampleOrigin : Type :=
| ByRoot
| BySigned (who : Z)
| ByMembers (i yes seats : Z)
| ByMember (i who : Z)
| ByDelay (delay : Z) (o : SampleOrigin).

#[export] Instance sample_origin_eq_dec : EqDecision SampleOrigin.
Proof. solve_decision. Defined.

(** The votes of a motion, of which there are no more than seats. *)
Definition motion (i : Z) (o : SampleOrigin) : option (Z * Z) :=
  match o with
  | ByMembers j yes seats => if (i =? j) && (0 <=? yes) && (yes <=? seats) then Some (yes, seats) else None
  | _ => None
  end.

#[export] Instance sample_origins : Origins SampleOrigin Z SampleOrigin := {|
  ensure_root o := match o with ByRoot => true | _ => false end;
  signed_by o := match o with BySigned who => Some who | _ => None end;
  ensure_proportion_more_than n d i o := match motion i o with Some (yes, seats) => n * seats <? yes * d | None => false end;
  ensure_member i o := match o with ByMember j _ => i =? j | _ => false end;
  ensure_delayed d f o := match o with ByDelay delay o' => (d <=? delay) && f o' | _ => false end;
  caller o := o;
  root_caller := ByRoot;
  signed_caller := BySigned
|}.

#[export] Instance sample_laws : OriginLaws SampleOrigin Z SampleOrigin.
Proof.
  refine {| approved_by := motion; delayed_by o := match o with ByDelay d o' => Some (d, o') | _ => None end |}.
  - intros n d i o. simpl. destruct (motion i o) as [[yes seats]|]; [rewrite Z.ltb_lt; naive_solver|naive_solver].
  - intros i [| |k y n| |] yes seats; simpl; try done. destruct (_ && _) eqn:E; [|done]. bool_inv. by intros [= <- <-].
  - intros i j [| |k y n| |] a b; simpl; try done. destruct (Z.eqb_spec i k), (Z.eqb_spec j k); simpl; try done. by subst.
  - by intros i [].
  - by intros [].
  - by intros i [| | | |].
  - intros []; try done; intros d o' [= <- <-]; done.
  - intros d f []; simpl; try (split; [done|naive_solver]). rewrite andb_true_iff, Z.leb_le. naive_solver.
  - by intros a b [= ->].
Defined.

(** Seven of twelve members of the general council. *)
Definition seven_of_twelve : SampleOrigin := ByMembers 1 7 12.

Lemma governing_takes_a_collective_witness :
  EnsureRootOrHalfGeneralCouncil newrome_instance seven_of_twelve = true
  /\ forall who, signed_by seven_of_twelve <> Some who.
Proof.
  split; [reflexivity|].
  apply (governing_takes_a_collective newrome_instance (EnsureRootOrHalfGeneralCouncil newrome_instance)); [|reflexivity].
  apply (list_elem_of_fmap_2 (fun f => f newrome_instance) _ EnsureRootOrHalfGeneralCouncil).
  do 15 (first [apply list_elem_of_here | apply list_elem_of_further]).
Defined.

(** They schedule a dispatch, and cannot hurry it; who made it cancels it. *)
Lemma authority_decides_witness :
  check_schedule_dispatch newrome_instance seven_of_twelve 0 = Ok tt
  /\ check_fast_track_schedule newrome_instance seven_of_twelve ByRoot 900 = Err BadOrigin
  /\ check_cancel_schedule newrome_instance seven_of_twelve seven_of_twelve = Ok tt
  /\ check_dispatch_from newrome_instance AuthorityRoot (ByDelay (7 * DAYS) (ByMembers 1 10 12)) = Ok tt.
Proof.
  destruct (authority_decides newrome_instance seven_of_twelve seven_of_twelve 0 900 ltac:(lia)) as (Hs & _ & _ & Hc & _ & _).
  split; [apply Hs; right; left; exists 7, 12; split; [reflexivity|lia]|]. split; [reflexivity|].
  split; [apply Hc; right; left; reflexivity|reflexivity].
Defined.

Lemma root_cannot_fast_track_witness : democracy_fast_track_origin newrome_instance ByRoot = false.
Proof. exact (proj1 (root_cannot_fast_track newrome_instance ByRoot eq_refl)). Defined.

Lemma jury_hurries_only_the_urgent_witness :
  check_fast_track_schedule newrome_instance (ByMembers 2 9 12) ByRoot 900 = Ok tt
  /\ check_fast_track_schedule newrome_instance (ByMembers 2 9 12) ByRoot 10800 = Err BadOrigin.
Proof.
  split; (rewrite jury_hurries_only_the_urgent; [reflexivity|lia|exists 9, 12; split; [reflexivity|lia]]).
Defined.

(** Twelve of twelve are not all of them. *)
Example all_of_twelve : EnsureRootOrAllGeneralCouncil newrome_instance (ByMembers 1 12 12) = false.
Proof. reflexivity. Qed.

(** The filter would refuse transfers and the EVM; what is configured lets them pass. *)
Example filter_is_not_configured :
  BaseCallFilter CallBalances = false /\ BaseCallFilter CallEVM = false
  /\ configured_filter CallBalances = true /\ configured_filter CallEVM = true.
Proof. done. Qed.
