(* ===== verification/RuntimeConfig.v ===== *)
(** * What the runtimes configure the pallets with

    The parameters of runtime/{newrome,setheum,neom}/src/lib.rs that the modelled pallets
    read, the amounts they are written in (runtime/common/src/lib.rs) and the balances at
    genesis (node/setheum/service/src/chain_spec/newrome.rs). The three runtimes share their
    text but for names and numbers. A configuration of a pallet overrides the constants, the
    accounts and the origins of [base], which stands for what the runtime takes from other
    crates. Left out are parameters of third-party pallets, and those that do not type-check
    in the source: [deposit] without a currency, [MinimumDeposit], [ExistentialDeposits] and
    [PegCurrencyIds] of an undeclared name. *)

From Stdlib Require Import String.
From S2P Require Import Prelude Currency Externals Governance Dex Staking StakingGenesis Evm Nft Democracy Incentives TransactionPayment.

Inductive Runtime : Type := NewromeRuntime | SetheumRuntime | NeomRuntime.

(** The instances behind the collectives. *)
Definition runtime_instance (rt : Runtime) : Collective -> Z :=
  match rt with
  | NewromeRuntime => newrome_instance
  | SetheumRuntime => setheum_instance
  | NeomRuntime => neom_instance
  end.

(** ** Amounts *)

(** [None] is the panic of [expect]. *)
Definition dollar (currency_id : CurrencyId) : option Z :=
  d ← decimals currency_id; Some (Z.min (10 ^ d) (umax 128)).

Definition cent (currency_id : CurrencyId) : option Z := d ← dollar currency_id; Some (d / 100).

Definition millicent (currency_id : CurrencyId) : option Z := c ← cent currency_id; Some (c / 1000).

Definition microcent (currency_id : CurrencyId) : option Z := m ← millicent currency_id; Some (m / 1000).

Definition deposit (items bytes : Z) (currency_id : CurrencyId) : option Z :=
  c ← cent currency_id;
  Some (wrap 128 (wrap 128 (items * 15 * c) + wrap 128 (bytes * 6 * c))).

(** ** Currencies *)

Definition GetNativeCurrencyId (rt : Runtime) : CurrencyId :=
  match rt with NewromeRuntime | SetheumRuntime => Token DNAR | NeomRuntime => Token NEOM end.

Definition SetterCurrencyId (rt : Runtime) : CurrencyId :=
  match rt with NewromeRuntime | SetheumRuntime => Token SETT | NeomRuntime => Token NSETT end.

Definition GetIncentiveCurrencyId (rt : Runtime) : CurrencyId :=
  match rt with NewromeRuntime | SetheumRuntime => Token DRAM | NeomRuntime => Token MENA end.

Definition GetPremiumCurrencyId (rt : Runtime) : CurrencyId :=
  match rt with NewromeRuntime | SetheumRuntime => Token SETT | NeomRuntime => Token NSETT end.

Definition StandardCurrencyIds (rt : Runtime) : list CurrencyId :=
  match rt with
  | NewromeRuntime | SetheumRuntime => map Token [USDJ; EURJ; JPYJ; GBPJ; AUDJ; CADJ; CHFJ; SGDJ; BRLJ; SARJ]
  | NeomRuntime => map Token [JUSD; JEUR; JJPY; JGBP; JAUD; JCAD; JCHF; JSGD; JBRL; JSAR]
  end.

Definition RuntimeStableCurrencyIds (rt : Runtime) : list CurrencyId :=
  match rt with
  | NewromeRuntime | SetheumRuntime => map Token [SETT; USDJ; EURJ; JPYJ; GBPJ; AUDJ; CADJ; CHFJ; SGDJ; BRLJ; SARJ]
  | NeomRuntime => map Token [NSETT; JUSD; JEUR; JJPY; JGBP; JAUD; JCAD; JCHF; JSGD; JBRL; JSAR]
  end.

(** All but the native one, in the order fees are charged in. *)
Definition FeeCurrencyIds (rt : Runtime) : list CurrencyId :=
  match rt with
  | NewromeRuntime | SetheumRuntime =>
      map Token [DRAM; SETT; USDJ; EURJ; JPYJ; GBPJ; AUDJ; CADJ; CHFJ; SGDJ; BRLJ; SARJ; RENBTC]
  | NeomRuntime => map Token [MENA; NSETT; JUSD; JEUR; JJPY; JGBP; JAUD; JCAD; JCHF; JSGD; JBRL; JSAR; RENBTC]
  end.

Definition GovernanceCurrencies (rt : Runtime) : list CurrencyId :=
  match rt with
  | NewromeRuntime | SetheumRuntime => map Token [DNAR; SETT; DRAM]
  | NeomRuntime => map Token [NEOM; SETT; MENA]
  end.

Definition pairs_with (setter : TokenSymbol) (tokens : list TokenSymbol) : list TradingPair :=
  map (fun t => TradingPair_new (Token setter) (Token t)) tokens.

Definition EnabledTradingPairs (rt : Runtime) : list TradingPair :=
  match rt with
  | NewromeRuntime | SetheumRuntime =>
      pairs_with SETT [DNAR; DRAM] ++ pairs_with SETT [USDJ; EURJ; JPYJ; GBPJ; AUDJ; CADJ; CHFJ; SGDJ; BRLJ; SARJ]
      ++ pairs_with SETT [RENBTC]
  | NeomRuntime =>
      pairs_with NSETT [NEOM; MENA] ++ pairs_with SETT [JUSD; JEUR; JJPY; JGBP; JAUD; JCAD; JCHF; JSGD; JBRL; JSAR]
      ++ pairs_with NSETT [RENBTC]
  end.

(** ** Fees *)

(** The coefficient of degree one: [ExtrinsicBaseWeight] is third-party; the fraction is the
    one [Perbill::from_rational_approximation] is given. *)
Record WeightToFeeCoefficient : Type := MkCoefficient { coeff_integer : Z; coeff_frac : Z * Z; negative : bool; degree : Z }.

Definition polynomial (ExtrinsicBaseWeight : Z) : option (list WeightToFeeCoefficient) :=
  c ← cent (Token DNAR);
  let p := c / 10 in
  let q := ExtrinsicBaseWeight in
  if q =? 0 then None else Some [MkCoefficient (p / q) (p mod q, q) false 1].

Section Multipliers.
Context `{F : FixedPoint} `{!FixedPointArith F}.

Definition AdjustmentVariable : FP := fp_saturating_from_rational 3 100000.

Definition MinimumMultiplier : FP := fp_saturating_from_rational 1 1000000000.

Definition MaxSlippageSwap : FP := fp_saturating_from_rational 5 100.

(** [TargetedFeeAdjustment<Self, TargetBlockFullness, AdjustmentVariable, MinimumMultiplier>];
    [target_of] multiplies with 25% as a [Perquintill]. *)
Definition fee_multiplier_update (target_of : Z -> Z) (normal_max block : Z) (previous : FP) : option FP :=
  targeted_adjustment MinimumMultiplier AdjustmentVariable target_of normal_max block previous.
End Multipliers.

(** ** The accounts of the pallets *)

Definition DexPalletId : string := "set/sdex".
Definition IncentivesPalletId : string := "set/inct".
Definition TreasuryPalletId : string := "set/trsy".

Section Configs.
Context {L X AccountId Origin Caller Source PostInfo : Type} `{!Origins Origin AccountId Caller}.
Variable rt : Runtime.

(** [PalletId::into_account]. *)
Variable into_account : string -> AccountId.

(** [AccountId::from([0u8; 32])]. *)
Variable ZeroAccountId : AccountId.

Definition get_all_module_accounts : list AccountId :=
  map into_account [TreasuryPalletId; "set/mint"; DexPalletId; "set/serp"; "set/stpy"; "set/welf"; IncentivesPalletId]%string
  ++ [ZeroAccountId].

(** ** The configurations *)

Definition TradingPathLimit : Z := 3.

Definition dex_config (base : Dex.Config L X AccountId Origin) : Dex.Config L X AccountId Origin :=
  Dex.MkConfig (into_account DexPalletId) TradingPathLimit (exchange_fee base) (storage_order base)
    Governance.signed_by (dex_listing_origin (runtime_instance rt)) (Dex.bad_origin base) (erc20_mapping base) (lp_address base).

Definition SessionsPerEra : Z := 3.
Definition BondingDuration : Z := 0.
Definition SlashDeferDuration : Z := 2.
Definition HalvingInterval : Z := match rt with NewromeRuntime => 6 | _ => 4032 end.
Definition InitialIssuance : Z := match rt with NewromeRuntime => 1440000 | _ => 144000 end.
Definition MaxNominatorRewardedPerValidator : Z := 64.

Definition staking_config (base : Staking.Config L X AccountId Source Origin) : Staking.Config L X AccountId Source Origin :=
  Staking.MkConfig BondingDuration SlashDeferDuration SessionsPerEra (max_nominations base) MaxNominatorRewardedPerValidator
    HalvingInterval InitialIssuance (Staking.lookup base) (cannot_lookup base) Governance.signed_by Governance.ensure_root
    (staking_slash_cancel_origin (runtime_instance rt)) (Staking.bad_origin base) (unix_time base) (to_currency base) (elect base).

Definition CreateClassDeposit : option Z := m ← millicent (GetNativeCurrencyId rt); Some (20 * m).
Definition CreateTokenDeposit : option Z := m ← millicent (GetNativeCurrencyId rt); Some (2 * m).

Definition nft_config (base : Nft.Config X AccountId Origin Source) : option (Nft.Config X AccountId Origin Source) :=
  class_deposit ← CreateClassDeposit;
  token_deposit ← CreateTokenDeposit;
  Some (Nft.MkConfig class_deposit token_deposit (sub_account base) Governance.signed_by (Nft.lookup base)
          (Nft.bad_origin base) (lookup_error base) (Nft.hash base)).

(** Of newrome, without the feature with-sevm; the other two name a deposit of an unknown
    currency. *)
Definition NewContractExtraBytes : Z := 10000.
Definition StorageDepositPerByte : option Z := microcent (Token DNAR).
Definition MaxCodeSize : Z := 60 * 1024.
Definition DeveloperDeposit : option Z := dollar (Token DNAR).
Definition DeploymentFee : option Z := dollar (Token DNAR).
Definition ChainId : Z := 852.
Definition NetworkContractSource : H160 := 0.

Definition evm_config (base : Evm.Config X AccountId Origin) : option (Evm.Config X AccountId Origin) :=
  storage_deposit ← StorageDepositPerByte;
  developer_deposit ← DeveloperDeposit;
  deployment_fee ← DeploymentFee;
  Some (Evm.MkConfig NewContractExtraBytes storage_deposit MaxCodeSize ChainId NetworkContractSource developer_deposit
          deployment_fee (into_account TreasuryPalletId) (ethereum_compatibility base) (keccak base) Governance.signed_by
          Governance.ensure_root (evm_network_contract_origin (runtime_instance rt))
          (evm_free_deployment_origin (runtime_instance rt)) (Evm.bad_origin base)).

Definition democracy_config : option Democracy.Config :=
  byte_deposit ← cent (GetNativeCurrencyId rt);
  Some (Democracy.MkConfig (28 * DAYS) (28 * DAYS) (28 * DAYS) (GovernanceCurrencies rt) true (3 * HOURS) (7 * DAYS)
          byte_deposit 100 100).

Definition incentives_config : Incentives.Config AccountId :=
  Incentives.MkConfig ZeroAccountId ZeroAccountId (RuntimeStableCurrencyIds rt) (GetIncentiveCurrencyId rt)
    (GetPremiumCurrencyId rt) (into_account IncentivesPalletId).

Definition payment_config `{F : FixedPoint} `{!FixedPointArith F}
    (base : TransactionPayment.Config F L X AccountId PostInfo) : option (TransactionPayment.Config F L X AccountId PostInfo) :=
  byte_fee ← millicent (GetNativeCurrencyId rt);
  Some (TransactionPayment.MkConfig _ _ _ _ _ (FeeCurrencyIds rt) (GetNativeCurrencyId rt) (SetterCurrencyId rt) byte_fee
          (TransactionPayment.WeightToFee base) MaxSlippageSwap (max_block base) (base_extrinsic base) (max_total base)
          (max_block_length base) (block_weight base) (FeeMultiplierUpdate base) (final_fee base)
          (calc_actual_weight base) (actual_pays_fee base) (swap base) (balance base)).

(** ** Genesis of newrome *)

(** One round of the fold: [None] is the panic of an overflow. *)
Definition add_balance `{Countable AccountId} (acc : gmap AccountId Z) (entry : AccountId * Z) : option (gmap AccountId Z) :=
  match acc !! entry.1 with
  | Some balance => sum ← checked_add 128 balance entry.2; Some (<[entry.1 := sum]> acc)
  | None => Some (<[entry.1 := entry.2]> acc)
  end.

Fixpoint add_balances `{Countable AccountId} (acc : gmap AccountId Z) (entries : list (AccountId * Z)) : option (gmap AccountId Z) :=
  match entries with
  | [] => Some acc
  | entry :: entries => acc ← add_balance acc entry; add_balances acc entries
  end.

Definition initial_balance : option Z := d ← dollar (Token DNAR); Some (1000000 * d).
Definition initial_staking : option Z := d ← dollar (Token DNAR); Some (100000 * d).

(** The authorities by stash and controller; their session keys are not read here. *)
Definition genesis_balances `{Countable AccountId} (existential_deposit : Z) (initial_authorities : list (AccountId * AccountId))
    (endowed_accounts : list AccountId) : option (gmap AccountId Z) :=
  d ← dollar (Token DNAR);
  staking ← initial_staking;
  balance ← initial_balance;
  add_balances ∅ (map (fun x => (x.1, staking + d)) initial_authorities ++ map (fun k => (k, balance)) endowed_accounts
                  ++ map (fun k => (k, existential_deposit)) get_all_module_accounts).

(** [StakingConfig] of [newrome_genesis]; what it does not name is the default. *)
Definition newrome_staking_genesis {Perbill : Type} `{!Perthing Perbill} (initial_authorities : list (AccountId * AccountId)) :
    option (StakingGenesis.GenesisConfig AccountId Perbill) :=
  staking ← initial_staking;
  Some (StakingGenesis.MkGenesis 84 5 1 initial_authorities.*1 NotForcing (pt_from_percent 10)
          (map (fun x => (x, staking, StatusValidator)) initial_authorities) 0 0).
End Configs.
