(* ===== verification/RuntimeTheorems.v ===== *)
(** * The configuration of the runtimes is sound

    The parameters of [RuntimeConfig] leave the pallets the room their theorems ask for;
    calls that govern take the origin that the runtime chose; every currency that fees may
    be paid in has a path of enabled pairs to the native one, in the runtimes where the
    configuration has it; and the multiplier of fees grows from its minimum under load. *)

From Stdlib Require Import String.
From S2P Require Import Prelude Currency Externals Governance GovernanceTheorems Dex Staking StakingCalls StakingSafety Evm EvmMeter EvmRunner Nft Democracy Incentives TransactionPayment TransactionPaymentTheorems RuntimeConfig.

(** ** Parameters *)

Section Parameters.
Context {L X AccountId Origin Caller Source PostInfo : Type} `{!Origins Origin AccountId Caller}.
Variable rt : Runtime.
Variable into_account : string -> AccountId.
Variable ZeroAccountId : AccountId.

(** Every amount of the configurations can be computed, and what the theorems on the pallets
    ask of the parameters holds: deposits of tokens and bytes cannot overflow, paths have at
    most three currencies, eras of bonding are not negative, votes are limited, and
    referenda are launched. *)
Theorem runtime_parameters_are_sound (nft : Nft.Config X AccountId Origin Source) (evm : Evm.Config X AccountId Origin)
    (dex : Dex.Config L X AccountId Origin) (staking : Staking.Config L X AccountId Source Origin) :
  (exists c, nft_config rt nft = Some c /\ 0 <= create_class_deposit c /\ 0 <= create_token_deposit c
     /\ create_token_deposit c * umax 32 <= umax 128)
  /\ (exists c, evm_config rt into_account evm = Some c
     /\ 0 <= storage_deposit_per_byte c /\ storage_deposit_per_byte c * 2 ^ 32 <= umax 128
     /\ 0 <= new_contract_extra_bytes c /\ 0 <= max_code_size c /\ max_code_size c + new_contract_extra_bytes c < 2 ^ 31)
  /\ trading_path_limit (dex_config rt into_account dex) <= 3
  /\ 0 <= bonding_duration (staking_config rt staking)
  /\ (exists c, democracy_config rt = Some c /\ 0 <= MaxVotes c /\ LaunchPeriod c <> 0
     /\ forall n, in_uint 32 n -> wrap 32 (n + VotingPeriod c) <> n).
Proof.
  split_and!.
  - unfold nft_config. destruct rt; (eexists; split; [reflexivity|]); split_and!; vm_compute; congruence.
  - eexists. split; [reflexivity|]. split_and!; vm_compute; congruence.
  - done.
  - done.
  - unfold democracy_config. destruct rt; (eexists; split; [reflexivity|]); (split_and!; [by vm_compute|by vm_compute|]);
      intros n Hn; unfold in_uint in Hn; change (VotingPeriod _) with 604800; change (umax 32) with 4294967295 in Hn;
      unfold wrap; change (2 ^ 32) with 4294967296;
      (destruct (Z.lt_ge_cases (n + 604800) 4294967296);
       [rewrite Z.mod_small by lia; lia|rewrite <- (Z_mod_plus_full _ (-1)), Z.mod_small by lia; lia]).
Qed.
End Parameters.

(** ** Who governs the pallets *)

Section Governed.
Context {AccountId Origin Caller Source : Type} `{Countable AccountId} `{OriginLaws Origin AccountId Caller}.
Variable rt : Runtime.
Variable into_account : string -> AccountId.

Abbreviation instance := (runtime_instance rt).

(** A run that is refused for its origin, and leaves no trace. *)
Definition refused {S E A : Type} (bad : E) (m : M S E A) : Prop := forall s, m s = (Err bad, s).

Lemma ensure_refused {S E A : Type} (b : bool) (bad : E) (k : unit -> M S E A) :
  b = false -> refused bad (bind (ensure b bad) k).
Proof. by intros -> s. Qed.

Lemma transactional_refused {S E A : Type} (bad : E) (m : M S E A) : refused bad m -> refused bad (transactional m).
Proof. intros Hm s. unfold transactional. by rewrite Hm. Qed.

Hint Resolve ensure_refused transactional_refused : core.

Lemma not_allowed (n d : Z) c o : Governance.ensure_root o = false -> ~ backed instance n d c o -> one_of Governance.ensure_root (more_than instance n d c) o = false.
Proof.
  intros Hr Hb. apply not_true_is_false. intros [Ho|Hm]%one_of_true; [congruence|]. by apply Hb, more_than_backed.
Qed.

(** The calls of staking that are for the root. *)
Definition for_root {Perbill Percent : Type} (c : StakingSafety.Call AccountId Source Perbill Percent) : bool :=
  match c with
  | CSetValidatorCount _ | CIncreaseValidatorCount _ | CScaleValidatorCount _ | CForceNoEras | CForceNewEra
  | CForceNewEraAlways | CSetInvulnerables _ | CForceUnstake _ _ | CSetStakingLimits _ _ _ _ _ | CSetHistoryDepth _ => true
  | _ => false
  end.

Section Exchange.
Context {L X : Type} `{!MultiCurrency L X AccountId} `{!FrameSystem L AccountId} `{!DEXIncentives L X AccountId}.
Variable dex : Dex.Config L X AccountId Origin.
Abbreviation dcfg := (dex_config rt into_account dex).
Abbreviation not_listing := (inr (Dex.bad_origin dex) : DexError + X).

Lemma listing_is_governed o :
  Governance.ensure_root o = false -> ~ backed instance 1 2 ExchangeCouncil o ->
  (forall a b m m' t t' n, refused not_listing (list_trading_pair dcfg o a b m m' t t' n))
  /\ (forall a b, refused not_listing (enable_trading_pair dcfg o a b) /\ refused not_listing (disable_trading_pair dcfg o a b)).
Proof.
  intros Hr Hb. assert (is_listing_origin dcfg o = false) as Ho by by apply not_allowed.
  split; [|split]; intros; apply transactional_refused, ensure_refused, Ho.
Qed.
End Exchange.

Section Stakes.
Context {L X : Type} `{!StakingCurrency L AccountId} `{!Session L AccountId} `{!FrameSystem L AccountId}.
Context {Perbill Percent : Type} `{!Perthing Perbill} `{!Perthing Percent}.
Variable staking : Staking.Config L X AccountId Source Origin.
Abbreviation scfg := (staking_config rt staking).
Abbreviation not_staking := (inr (Staking.bad_origin staking) : StakingError + X).

Lemma staking_is_governed o :
  (Governance.ensure_root o = false -> forall c : StakingSafety.Call AccountId Source Perbill Percent,
     for_root c = true -> refused not_staking (StakingSafety.dispatch scfg o c))
  /\ (Governance.ensure_root o = false -> ~ backed instance 3 4 GeneralCouncil o -> forall era indices,
     refused not_staking (StakingSafety.dispatch scfg o (CCancelDeferredSlash era indices : StakingSafety.Call AccountId Source Perbill Percent))).
Proof.
  split.
  - intros Hr c Hc. destruct c; try done; apply ensure_refused; exact Hr.
  - intros Hr Hb era indices. by apply ensure_refused, not_allowed.
Qed.
End Stakes.

Section Contracts.
Context {L X : Type} `{!AddressMapping L AccountId} `{!NativeCurrency L X AccountId}.
Context `{G : Gasometers} `{!Interpreter L AccountId}.
Context `{!DispatchErrorStr (EvmError + X)} `{!DispatchErrorInto (EvmError + X)}.
Variables (evm ecfg : Evm.Config X AccountId Origin).
Hypothesis configured : evm_config rt into_account evm = Some ecfg.
Abbreviation not_evm := (inr (Evm.bad_origin evm) : EvmError + X).

Lemma contracts_are_governed o :
  (Governance.ensure_root o = false -> ~ backed instance 1 2 GeneralCouncil o -> forall a, refused (S := Evm.State L AccountId) not_evm (deploy_free ecfg o a))
  /\ (~ backed instance 2 3 SetheumJury o -> ~ backed instance 2 3 TechnicalCommittee o -> forall config init v g st,
        refused (S := Evm.State L AccountId) not_evm (create_network_contract ecfg config o init v g st))
  /\ (Governance.ensure_root o = false -> forall (Imbalance : Type) w (charge : _ -> _ -> M L X Imbalance) refund from to data v g st,
        refused (S := Evm.State L AccountId) not_evm (scheduled_call ecfg w charge refund o from to data v g st)).
Proof.
  injection configured as <-. split_and!.
  - intros Hr Hb a. apply transactional_refused, ensure_refused. by apply not_allowed.
  - intros Hj Ht config init v g st. apply ensure_refused, not_true_is_false.
    intros [Hm|Hm]%one_of_true; apply more_than_backed in Hm; [by apply Hj|by apply Ht].
  - intros Hr Imbalance w charge refund from to data v g st. by apply transactional_refused, ensure_refused.
Qed.
End Contracts.

(** An account, whatever it signs, is neither the root nor a share of a collective. *)
Lemma account_is_nobody o who : Governance.signed_by o = Some who -> Governance.ensure_root o = false /\ forall n d c, ~ backed instance n d c o.
Proof.
  intros Hw. split.
  - apply not_true_is_false. intros Hr. by rewrite (root_is_not_signed o Hr) in Hw.
  - intros n d c (yes & seats & Ha & _). by rewrite (account_is_no_collective _ o who Hw) in Ha.
Qed.

Context {LD XD : Type} `{!MultiCurrency LD XD AccountId} `{!FrameSystem LD AccountId} `{!DEXIncentives LD XD AccountId}.
Context {LS XS : Type} `{!StakingCurrency LS AccountId} `{!Session LS AccountId} `{!FrameSystem LS AccountId}.
Context {Perbill Percent : Type} `{!Perthing Perbill} `{!Perthing Percent}.
Context {LE XE : Type} `{!AddressMapping LE AccountId} `{!NativeCurrency LE XE AccountId} `{G : Gasometers} `{!Interpreter LE AccountId}.
Context `{!DispatchErrorStr (EvmError + XE)} `{!DispatchErrorInto (EvmError + XE)}.

(** C35: no account governs: what lists, enables or disables trading pairs, configures staking,
    unstakes others or cancels slashes, deploys contracts for free or for the network, or
    calls them on schedule, is refused to an account as a bad origin and leaves no trace,
    in each runtime. *)
Theorem accounts_do_not_govern (dex : Dex.Config LD XD AccountId Origin) (staking : Staking.Config LS XS AccountId Source Origin)
    (evm ecfg : Evm.Config XE AccountId Origin) o who :
  Governance.signed_by o = Some who -> evm_config rt into_account evm = Some ecfg ->
  (forall a b m m' t t' n, refused (inr (Dex.bad_origin dex)) (list_trading_pair (dex_config rt into_account dex) o a b m m' t t' n))
  /\ (forall a b, refused (inr (Dex.bad_origin dex)) (enable_trading_pair (dex_config rt into_account dex) o a b)
       /\ refused (inr (Dex.bad_origin dex)) (disable_trading_pair (dex_config rt into_account dex) o a b))
  /\ (forall c : StakingSafety.Call AccountId Source Perbill Percent, for_root c = true ->
       refused (inr (Staking.bad_origin staking)) (StakingSafety.dispatch (staking_config rt staking) o c))
  /\ (forall era indices, refused (inr (Staking.bad_origin staking))
       (StakingSafety.dispatch (staking_config rt staking) o (CCancelDeferredSlash era indices : StakingSafety.Call AccountId Source Perbill Percent)))
  /\ (forall a, refused (S := Evm.State LE AccountId) (inr (Evm.bad_origin evm)) (deploy_free ecfg o a))
  /\ (forall config init v g st, refused (S := Evm.State LE AccountId) (inr (Evm.bad_origin evm)) (create_network_contract ecfg config o init v g st))
  /\ (forall (Imbalance : Type) w (charge : _ -> _ -> M LE XE Imbalance) refund from to data v g st,
       refused (S := Evm.State LE AccountId) (inr (Evm.bad_origin evm)) (scheduled_call ecfg w charge refund o from to data v g st)).
Proof.
  intros Hw Hcfg. destruct (account_is_nobody o who Hw) as [Hr Hb].
  destruct (listing_is_governed dex o Hr (Hb _ _ _)) as [Hl He], (staking_is_governed (Perbill := Perbill) (Percent := Percent) staking o) as [Hs Hcs],
    (contracts_are_governed evm ecfg Hcfg o) as (Hd & Hn & Hsc).
  split_and!; auto.
Qed.
End Governed.

(** ** Fees on the exchange *)

(** Neighbours on a path. *)
Definition hops (path : list CurrencyId) : list (CurrencyId * CurrencyId) := zip path (tail path).

(** What a runtime pays fees along. *)
Definition fee_path (rt : Runtime) (c : CurrencyId) : list CurrencyId :=
  if currency_eqb c (SetterCurrencyId rt) then [SetterCurrencyId rt; GetNativeCurrencyId rt]
  else [c; SetterCurrencyId rt; GetNativeCurrencyId rt].

(** A path from the currency to the native one, all of whose neighbours are pairs of the
    configuration. *)
Definition path_listed (rt : Runtime) (c : CurrencyId) : bool :=
  forallb (fun '(a, b) => bool_decide (TradingPair_new a b ∈ EnabledTradingPairs rt)) (hops (fee_path rt c))
  && bool_decide (head (fee_path rt c) = Some c) && bool_decide (last (fee_path rt c) = Some (GetNativeCurrencyId rt))
  && (Z.of_nat (length (fee_path rt c)) <=? 3).

Section Fees.
Context {L X LP XP AccountId Origin Caller PostInfo : Type} `{Countable AccountId} `{!Origins Origin AccountId Caller}.
Context `{!MultiCurrency L X AccountId} `{!FrameSystem L AccountId} `{!DEXIncentives L X AccountId} `{F : FixedPoint} `{U : U256Ops}.
Context `{!FixedPointArith F}.
Variable rt : Runtime.
Variable dex : Dex.Config L X AccountId Origin.

Abbreviation St := (Dex.State L AccountId).

(** The genesis of the exchange that every runtime is given. *)
Definition runtime_dex_genesis : Dex.GenesisConfig (AccountId := AccountId) := Dex.MkGenesis [] (EnabledTradingPairs rt) [].

(** Enabling pairs at genesis. *)
Lemma genesis_enables (l : list TradingPair) : forall s : St,
  Forall (fun p => valid_pair p = true) l ->
  exists s', for_each (fun trading_pair =>
      do! assert (valid_pair trading_pair) in
      modify (set_statuses <[trading_pair := Enabled]>)) l s = (@Ok (DexError + X) _ tt, s')
    /\ forall p, status_of s' p = if bool_decide (p ∈ l) then Enabled else status_of s p.
Proof.
  induction l as [|q l IH]; intros s Hl.
  - exists s. split; [done|]. intros p. by rewrite bool_decide_eq_false_2 by apply not_elem_of_nil.
  - apply Forall_cons in Hl as [Hq Hl].
    destruct (IH (set_statuses <[q := Enabled]> s) Hl) as (s' & Hrun & Hs'). exists s'. split.
    + simpl. unfold bind, assert at 1. rewrite Hq. exact Hrun.
    + intros p. rewrite Hs'. unfold status_of. simpl.
      destruct (decide (p = q)) as [->|Hpq].
      * rewrite (bool_decide_eq_true_2 (q ∈ q :: l)) by apply list_elem_of_here. rewrite lookup_insert_eq. by case_bool_decide.
      * rewrite lookup_insert_ne by done. repeat case_bool_decide; try done; exfalso; set_solver.
Qed.

Context (into_account : string -> AccountId) (base : TransactionPayment.Config F LP XP AccountId PostInfo).

Abbreviation dcfg := (dex_config rt into_account dex).

Lemma enabled_pairs_are_valid : Forall (fun p => valid_pair p = true) (EnabledTradingPairs rt).
Proof. destruct rt; repeat constructor. Qed.

Lemma runtime_genesis_runs (s : St) :
  exists s', genesis_build dcfg runtime_dex_genesis s = (Ok tt, s')
    /\ forall p, status_of s' p = if bool_decide (p ∈ EnabledTradingPairs rt) then Enabled else status_of s p.
Proof.
  destruct (genesis_enables (EnabledTradingPairs rt) s enabled_pairs_are_valid) as (s' & Hrun & Hs'). exists s'. split; [|done].
  apply bind_ok. exists tt, s. split; [done|]. apply bind_ok. by exists tt, s'.
Qed.

Lemma payment_config_paths pcfg :
  payment_config rt base = Some pcfg ->
  AllNonNativeCurrencyIds pcfg = FeeCurrencyIds rt /\ NativeCurrencyId pcfg = GetNativeCurrencyId rt
  /\ forall c, trading_path pcfg c = fee_path rt c.
Proof. unfold payment_config. destruct (millicent _); [|done]. by intros [= <-]. Qed.

(** In newrome and setheum the genesis of the exchange cannot fail, and after it every
    currency that fees may be paid in has a path to the native currency, no longer than the
    limit, all of whose pairs are enabled. *)
Theorem fee_currencies_are_exchangeable pcfg c (s : St) :
  rt <> NeomRuntime -> payment_config rt base = Some pcfg -> c ∈ AllNonNativeCurrencyIds pcfg ->
  exists s', genesis_build dcfg runtime_dex_genesis s = (Ok tt, s')
    /\ head (trading_path pcfg c) = Some c /\ last (trading_path pcfg c) = Some (NativeCurrencyId pcfg)
    /\ Z.of_nat (length (trading_path pcfg c)) <= trading_path_limit dcfg
    /\ forall a b, (a, b) ∈ hops (trading_path pcfg c) -> status_of s' (TradingPair_new a b) = Enabled.
Proof.
  intros Hrt Hcfg Hc. destruct (runtime_genesis_runs s) as (s' & Hrun & Hs'). exists s'. split; [exact Hrun|].
  apply payment_config_paths in Hcfg as (Hids & Hnative & Hpath). rewrite Hpath, Hnative. rewrite Hids in Hc.
  assert (forallb (path_listed rt) (FeeCurrencyIds rt) = true) as Hall by (destruct rt; [by vm_compute..|done]).
  rewrite forallb_forall in Hall. apply list_elem_of_In, Hall in Hc. unfold path_listed in Hc. bool_inv.
  split_and!; [done..|]. intros a b Hab. rewrite Hs'.
  match goal with Hf : forallb _ _ = true |- _ => rewrite forallb_forall in Hf; apply list_elem_of_In, Hf in Hab end. by rewrite Hab.
Qed.

(** In neom they have not: its stable currencies are paired with the setter of the other
    runtimes, so no swap for a fee that starts from one of them succeeds after a genesis on
    an empty exchange. *)
Theorem neom_currencies_are_stranded pcfg c (s s' : St) who target supply limit r s2 :
  rt = NeomRuntime -> payment_config rt base = Some pcfg -> c ∈ StandardCurrencyIds rt ->
  trading_pair_statuses s = ∅ -> genesis_build dcfg runtime_dex_genesis s = (Ok tt, s') ->
  do_swap_with_exact_target dcfg who (trading_path pcfg c) target supply limit s' = (r, s2) ->
  s2 = s' /\ forall v, r <> Ok v.
Proof.
  intros Hrt Hcfg Hc Hempty Hgen Hrun. destruct (runtime_genesis_runs s) as (s1 & Hgen' & Hs1).
  assert (s1 = s') as -> by congruence. clear Hgen'.
  apply payment_config_paths in Hcfg as (_ & _ & Hp).
  assert (fee_path rt c = [c; Token NSETT; Token NEOM] /\ is_enabled (status_of s' (TradingPair_new c (Token NSETT))) = false) as [Hc' Hn].
  { rewrite Hs1. unfold status_of. rewrite Hempty, lookup_empty, Hrt. rewrite Hrt in Hc.
    assert (forallb (fun c => bool_decide (fee_path NeomRuntime c = [c; Token NSETT; Token NEOM]) && negb (bool_decide (TradingPair_new c (Token NSETT) ∈ EnabledTradingPairs NeomRuntime)))
      (StandardCurrencyIds NeomRuntime) = true) as Hall by by vm_compute.
    rewrite forallb_forall in Hall. apply list_elem_of_In, Hall in Hc. bool_inv. split; [done|]. by rewrite bool_decide_eq_false_2. }
  rewrite Hp, Hc' in Hrun.
  assert (forall amounts, get_supply_amounts dcfg s' [c; Token NSETT; Token NEOM] target limit <> Ok amounts) as Hno.
  { intros amounts. unfold get_supply_amounts. destruct (check_path_length _ _) as [[]|e|]; [|done..]. simpl.
    unfold hop_liquidity at 2. rewrite Hn. simpl. repeat (destruct (hop_liquidity _ _ _) as [[]|e|]; simpl; try done).
    all: repeat (match goal with |- context [obind ?x _] => destruct x; simpl; try done end). }
  unfold do_swap_with_exact_target, transactional, bind, reads in Hrun.
  destruct (get_supply_amounts dcfg s' [c; Token NSETT; Token NEOM] target limit) as [amounts|e|] eqn:E; [by destruct (Hno amounts)|..]; by injection Hrun as <- <-.
Qed.
End Fees.

(** ** The multiplier of fees *)

(** More of [FixedU128]: a ratio is rounded down, a product by less than a unit; both saturate. *)
Class FixedPointRatioLaws (F : FixedPoint) `{!FixedPointLaws F} `{!FixedPointArith F} : Prop := {
  fp_unit : fp_div = 10 ^ 18;
  fp_from_rational_inner n d :
    0 <= n -> 0 < d -> fp_inner (fp_saturating_from_rational n d) = Z.min (n * fp_div / d) (umax 128);
  fp_mul_inner a b : Z.min (fp_inner a * fp_inner b / fp_div) (umax 128) <= fp_inner (fp_saturating_mul a b)
}.

Section Multiplier.
Context `{F : FixedPoint} `{!FixedPointArith F} `{!FixedPointLaws F} `{!FixedPointArithLaws F} `{!FixedPointRatioLaws F}.

Lemma umax_128_large : 10 ^ 30 <= umax 128.
Proof. by vm_compute. Qed.

Lemma parameters_inner : fp_inner MinimumMultiplier = 10 ^ 9 /\ fp_inner AdjustmentVariable = 3 * 10 ^ 13.
Proof.
  unfold MinimumMultiplier, AdjustmentVariable. rewrite !fp_from_rational_inner, fp_unit by lia.
  pose proof umax_128_large. split; (rewrite Z.min_l; [reflexivity|]); (etransitivity; [|eassumption]); by vm_compute.
Qed.

(** A product of numbers that are large enough. *)
Lemma fp_mul_at_least a b x y z :
  0 <= x <= fp_inner a -> 0 <= y <= fp_inner b -> 0 <= z <= 10 ^ 30 -> z * 10 ^ 18 <= x * y -> z <= fp_inner (fp_saturating_mul a b).
Proof.
  intros Hx Hy Hz Hxy. etransitivity; [|apply fp_mul_inner]. pose proof umax_128_large. rewrite fp_unit.
  apply Z.min_glb; [|lia]. apply Z.div_le_lower_bound; nia.
Qed.

(** However low the multiplier is, a block that is fuller than the target by a twenty
    thousandth of what normal dispatches may take raises it, until it saturates: it cannot
    be stuck at its minimum. *)
Theorem multiplier_grows_under_load target_of normal_max block previous :
  0 < normal_max -> 0 <= target_of normal_max ->
  target_of normal_max + normal_max / 20000 + 1 <= Z.min block normal_max ->
  exists next, fee_multiplier_update target_of normal_max block previous = Some next
    /\ Z.min (Z.max (fp_inner previous) (10 ^ 9) + 1) (umax 128) <= fp_inner next.
Proof.
  intros Hmax Htarget Hfull. unfold fee_multiplier_update, targeted_adjustment.
  destruct parameters_inner as [Hmin Hvar].
  destruct (fp_halves (fp_saturating_mul AdjustmentVariable AdjustmentVariable)) as [h ->]. simpl.
  assert (Z.max (Z.min block normal_max) (target_of normal_max) - Z.min (Z.min block normal_max) (target_of normal_max)
          = Z.min block normal_max - target_of normal_max) as -> by (pose proof (Z.div_pos normal_max 20000); lia).
  destruct (Z.leb_spec (target_of normal_max) (Z.min block normal_max)) as [_|Hlt]; [|pose proof (Z.div_pos normal_max 20000); lia].
  eexists. split; [reflexivity|]. rewrite fp_max_inner, Hmin.
  set (p := fp_max previous MinimumMultiplier).
  assert (fp_inner p = Z.max (fp_inner previous) (10 ^ 9)) as Hp by (unfold p; by rewrite fp_max_inner, Hmin).
  set (diff := fp_saturating_from_rational (Z.min block normal_max - target_of normal_max) (Z.max normal_max 1)).
  assert (5 * 10 ^ 13 <= fp_inner diff) as Hdiff.
  { unfold diff. pose proof umax_128_large. rewrite fp_from_rational_inner, fp_unit, Z.max_l by (pose proof (Z.div_pos normal_max 20000); lia).
    apply Z.min_glb; [|lia]. apply Z.div_le_lower_bound; [lia|]. pose proof (Z.mul_succ_div_gt normal_max 20000). nia. }
  assert (10 ^ 9 <= fp_inner (fp_saturating_mul AdjustmentVariable diff)) as Hfirst.
  { apply (fp_mul_at_least _ _ (3 * 10 ^ 13) (5 * 10 ^ 13)); lia. }
  set (second := fp_saturating_mul h _).
  assert (10 ^ 9 <= fp_inner (fp_saturating_add (fp_saturating_mul AdjustmentVariable diff) second)) as Hsum.
  { pose proof umax_128_large. rewrite fp_add_inner. unfold sat_add. pose proof (fp_inner_range second) as [Hs _]. lia. }
  assert (1 <= fp_inner (fp_saturating_mul (fp_saturating_add (fp_saturating_mul AdjustmentVariable diff) second) p)) as Hexcess.
  { apply (fp_mul_at_least _ _ (10 ^ 9) (10 ^ 9)); lia. }
  rewrite fp_add_inner. unfold sat_add. rewrite Hp. generalize (umax 128). lia.
Qed.
End Multiplier.
