(* ===== verification/RuntimeGenesis.v ===== *)
(** * The genesis of newrome

    The balances of its chain spec, and the staking that is built on them: every authority
    can pay its stake, and starts as a validator. *)

From Stdlib Require Import String.
From S2P Require Import Prelude Currency Externals Governance RuntimeConfig StakingLedger SlashingSpans Staking Slashing StakingCalls StakingInvariant StakingSafety StakingTheorems StakingGenesis.

(** ** Balances at genesis *)

Section Genesis.
Context {AccountId : Type} `{Countable AccountId}.

(** What a list of entries gives to an account. *)
Definition given (who : AccountId) (entries : list (AccountId * Z)) : Z :=
  zsum (fun entry => if decide (entry.1 = who) then entry.2 else 0) entries.

Lemma given_cons who k v entries : given who ((k, v) :: entries) = (if decide (k = who) then v else 0) + given who entries.
Proof. done. Qed.

Lemma given_nonneg who entries : Forall (fun entry => 0 <= entry.2) entries -> 0 <= given who entries.
Proof. induction 1 as [|[k v] l Hv _ IH]; [done|]. rewrite given_cons. simpl in Hv. case_decide; lia. Qed.

Lemma given_in who v entries : Forall (fun entry => 0 <= entry.2) entries -> (who, v) ∈ entries -> v <= given who entries.
Proof.
  induction 1 as [|[k w] l Hw Hl IH]; [by intros ?%not_elem_of_nil|]. simpl in Hw. pose proof (given_nonneg who l Hl).
  intros [[= <- <-]|Hin]%elem_of_cons; rewrite given_cons; [rewrite decide_True by done; lia|]. specialize (IH Hin). case_decide; lia.
Qed.

Lemma given_app who l l' : given who (l ++ l') = given who l + given who l'.
Proof. induction l as [|[k v] l IH]; simpl; [done|]. rewrite !given_cons, IH. lia. Qed.

Lemma add_balance_spec (acc : gmap AccountId Z) entry acc' who :
  add_balance acc entry = Some acc' ->
  default 0 (acc' !! who) = default 0 (acc !! who) + (if decide (entry.1 = who) then entry.2 else 0).
Proof.
  destruct entry as [k v]. unfold add_balance. simpl. destruct (acc !! k) as [b|] eqn:E.
  - destruct (checked_add 128 b v) as [n|] eqn:Hn; [|done]. apply checked_add_Some in Hn as [-> _]. intros [= <-].
    case_decide as Hk; [subst; by rewrite lookup_insert_eq, E|rewrite lookup_insert_ne by done; lia].
  - intros [= <-]. case_decide as Hk; [subst; by rewrite lookup_insert_eq, E|rewrite lookup_insert_ne by done; lia].
Qed.

Lemma add_balances_spec entries : forall (acc : gmap AccountId Z) m who,
  add_balances acc entries = Some m -> default 0 (m !! who) = default 0 (acc !! who) + given who entries.
Proof.
  induction entries as [|[k v] l IH]; intros acc m who; simpl.
  - intros [= <-]. change (given who []) with 0. lia.
  - destruct (add_balance acc (k, v)) as [acc'|] eqn:E; [|done]. simpl. intros Hm.
    rewrite (IH _ _ _ Hm), (add_balance_spec _ _ _ who E), given_cons. simpl. lia.
Qed.

(** The fold cannot overflow if nobody is given more than fits. *)
Lemma add_balances_fit entries : forall (acc : gmap AccountId Z),
  Forall (fun entry => 0 <= entry.2) entries -> (forall who, default 0 (acc !! who) + given who entries <= umax 128) ->
  is_Some (add_balances acc entries).
Proof.
  induction entries as [|[k v] l IH]; intros acc Hnn Hfit; [done|]. apply Forall_cons in Hnn as [Hv Hl]. simpl in Hv.
  assert (exists acc', add_balance acc (k, v) = Some acc') as [acc' E].
  { unfold add_balance. simpl. destruct (acc !! k) as [b|] eqn:E; [|by eexists]. specialize (Hfit k). rewrite E, given_cons, decide_True in Hfit by done.
    pose proof (given_nonneg k l Hl). simpl in Hfit.
    assert (b + v <= umax 128) as Hle by (revert Hfit; generalize (umax 128); lia).
    assert (checked_add 128 b v = Some (b + v)) as -> by (by apply checked_add_Some). by eexists. }
  simpl. rewrite E. apply IH; [done|]. intros who. rewrite (add_balance_spec _ _ _ who E). specialize (Hfit who).
  rewrite given_cons in Hfit. simpl. revert Hfit. generalize (umax 128). lia.
Qed.

Variable into_account : string -> AccountId.
Variable ZeroAccountId : AccountId.

(** At genesis every account gets the sum of what it is given as an authority, as an endowed
    account and as the account of a pallet: so every authority can pay its stake and has one
    more for fees. *)
Theorem genesis_funds_authorities existential_deposit authorities endowed balances staking d :
  0 <= existential_deposit -> initial_staking = Some staking -> dollar (Token DNAR) = Some d ->
  genesis_balances into_account ZeroAccountId existential_deposit authorities endowed = Some balances ->
  (forall who, default 0 (balances !! who)
     = given who (map (fun x => (x.1, staking + d)) authorities)
       + given who (map (fun k => (k, 10 * staking)) endowed)
       + given who (map (fun k => (k, existential_deposit)) (get_all_module_accounts into_account ZeroAccountId)))
  /\ forall stash controller, (stash, controller) ∈ authorities -> staking + d <= default 0 (balances !! stash).
Proof.
  intros Hed Hstaking Hd Hrun. injection Hstaking as <-. injection Hd as <-.
  assert (forall who, default 0 (balances !! who)
     = given who (map (fun x => (x.1, 100000 * Z.min (10 ^ 10) (umax 128) + Z.min (10 ^ 10) (umax 128))) authorities)
       + given who (map (fun k => (k, 10 * (100000 * Z.min (10 ^ 10) (umax 128)))) endowed)
       + given who (map (fun k => (k, existential_deposit)) (get_all_module_accounts into_account ZeroAccountId))) as Hspec.
  { intros who. apply (add_balances_spec _ _ _ who) in Hrun. rewrite !given_app, lookup_empty in Hrun.
    change (10 * (100000 * Z.min (10 ^ 10) (umax 128))) with (1000000 * Z.min (10 ^ 10) (umax 128)). simpl in Hrun. simpl. lia. }
  split; [exact Hspec|]. intros stash controller Hin. rewrite Hspec.
  assert (0 <= Z.min (10 ^ 10) (umax 128)) as Hpos by (by vm_compute). revert Hpos. generalize (Z.min (10 ^ 10) (umax 128)). intros u Hpos.
  assert (100000 * u + u <= given stash (map (fun x : AccountId * AccountId => (x.1, 100000 * u + u)) authorities)) as Hg.
  { apply given_in; [apply Forall_map, Forall_forall; simpl; intros; lia|]. apply list_elem_of_fmap. by exists (stash, controller). }
  assert (0 <= given stash (map (fun k => (k, 10 * (100000 * u))) endowed)) by (apply given_nonneg, Forall_map, Forall_forall; simpl; intros; lia).
  assert (0 <= given stash (map (fun k => (k, existential_deposit)) (get_all_module_accounts into_account ZeroAccountId)))
    by (apply given_nonneg, Forall_map, Forall_forall; simpl; intros; lia).
  lia.
Qed.

(** ** The validators of the first era *)

Context {L X Origin Caller Source Perbill Percent : Type} `{!Origins Origin AccountId Caller}.
Context `{!StakingCurrency L AccountId} `{!Session L AccountId} `{!FrameSystem L AccountId} `{!Perthing Perbill} `{!Perthing Percent}.
Variable rt : Runtime.
Variable base : Staking.Config L X AccountId Source Origin.
Variable signed : AccountId -> Origin.
Variable unlookup : AccountId -> Source.
Hypothesis signed_by_signed : forall who, Governance.signed_by (signed who) = Some who.
Hypothesis lookup_unlookup : forall who, Staking.lookup base (unlookup who) = Some who.
Hypothesis funded_provides : forall who (l : L), 0 < sc_free_balance who l -> is_Some (inc_consumers who l).
Hypothesis consumers_free : forall who (l l' : L), inc_consumers who l = Some l' -> forall w : AccountId, sc_free_balance w l' = sc_free_balance w l.
Hypothesis locks_free : forall who v (l : L) (w : AccountId), sc_free_balance w (sc_set_lock who v l) = sc_free_balance w l.

(** C38: the genesis of newrome makes every authority a validator: if the balances are those of
    its chain spec, stashes and controllers are different accounts, and an account may hold
    as little as a stake, then building the genesis of staking does not panic, and bonds
    every authority with the initial stake and a validator's preferences. *)
Theorem authorities_start_as_validators existential_deposit authorities endowed balances (g : GenesisConfig AccountId Perbill)
    (s : Staking.State L AccountId Perbill Percent) staking :
  NoDup authorities.*1 -> NoDup authorities.*2 -> 0 <= existential_deposit ->
  genesis_balances into_account ZeroAccountId existential_deposit authorities endowed = Some balances ->
  newrome_staking_genesis authorities = Some g -> initial_staking = Some staking ->
  nothing_staked s -> max_validators_count (roles s) = None ->
  (forall who, sc_free_balance who (Staking.chain s) = default 0 (balances !! who)) -> sc_minimum_balance <= staking ->
  exists s', build (staking_config rt base) signed unlookup g s = (Ok tt, s')
    /\ forall stash controller, (stash, controller) ∈ authorities ->
       bonded (bonds s') !! stash = Some controller
       /\ (exists claimed, ledger (bonds s') !! controller = Some (MkLedger stash staking staking [] claimed))
       /\ validators (roles s') !! stash = Some (MkPrefs pt_zero false).
Proof.
  intros Hst Hctl Hed Hbal Hg Hstaking Hs Hmax Hfree Hmin.
  assert (exists d, dollar (Token DNAR) = Some d /\ 0 < d /\ staking = 100000 * d) as (d & Hd & Hdpos & Hsd).
  { injection Hstaking as <-. eexists. split; [reflexivity|]. split; [by vm_compute|done]. }
  destruct (genesis_funds_authorities existential_deposit authorities endowed balances staking d Hed Hstaking Hd Hbal) as [_ Hfund].
  unfold newrome_staking_genesis in Hg. rewrite Hstaking in Hg. simpl in Hg. apply (inj Some) in Hg.
  set (l := map (fun x : AccountId * AccountId => (x, staking)) authorities).
  assert (l.*1 = authorities) as Hl1 by (unfold l; clear; induction authorities as [|x r IH]; [done|]; cbn; f_equal; exact IH).
  assert (forall stash controller balance, (stash, controller, balance) ∈ l -> (stash, controller) ∈ authorities /\ balance = staking) as Hin.
  { intros stash controller balance ([st c] & [= -> -> ->] & Hin)%list_elem_of_fmap. done. }
  edestruct (genesis_bonds_validators (Perbill := Perbill) (Percent := Percent) (staking_config rt base) signed unlookup) with (g := g) (l := l) (s := s) as (s' & Hrun & Hvals);
    [exact signed_by_signed|exact lookup_unlookup|exact funded_provides|exact consumers_free|exact locks_free|done|done| | | | |].
  - rewrite <- Hg. unfold l. by rewrite map_map.
  - by rewrite Hl1.
  - by rewrite Hl1.
  - intros stash controller balance [Ha ->]%Hin. rewrite Hfree, <- Hg. pose proof (Hfund stash controller Ha). simpl. lia.
  - exists s'. split; [exact Hrun|]. intros stash controller Ha.
    destruct (Hvals (stash, controller, staking)) as (Hb & Hl & Hv); [by apply (list_elem_of_fmap_2 (fun x => (x, staking)) _ (stash, controller))|].
    split_and!; [done|by eexists|done].
Qed.
End Genesis.
