(* ===== verification/RuntimeExamples.v ===== *)
(** * The runtimes on concrete chains

    The theorems on the configuration and the genesis of the runtimes applied, with the
    origins of [GovernanceTheorems], the chain of [StakingExamples] and the ledger of the
    exchange; and what the durations of staking allow. *)

From Stdlib Require Import String.
From S2P Require Import Prelude Currency Externals Governance GovernanceTheorems RuntimeConfig StakingLedger SlashingSpans Staking Slashing StakingCalls StakingEras StakingInvariant StakingSafety StakingTheorems StakingGenesis StakingExamples RuntimeGenesis.

(** ** The genesis of staking *)

(** Stashes 1 and 10 with controllers 2 and 11; what 3 is to bond is not enough, and it is
    skipped. *)
Definition sample_genesis : GenesisConfig Z perbill :=
  MkGenesis 84 2 1 [] NotForcing (MkParts (BILLION / 10))
    [(10, 11, 800, StatusValidator); (1, 2, 500, StatusNominator [10]); (3, 4, 5, StatusValidator)] 0 0.

Definition after_genesis : State Chain Z perbill percent :=
  (build stk_config id id sample_genesis stk_start : outcome (StakingError + unit) unit * _).2.

Lemma genesis_staking_inv_witness :
  ledger (bonds after_genesis) !! 2 = Some (MkLedger 1 500 500 [] (seqZ 0 3)) /\ ledger (bonds after_genesis) !! 4 = None
  /\ staking_inv after_genesis.
Proof.
  assert ((build stk_config id id sample_genesis stk_start : outcome (StakingError + unit) unit * _).1 = Ok tt) as E
    by (vm_compute; reflexivity).
  pose proof (outcome_split _ _ E) as Hrun. split; [vm_compute; reflexivity|]. split; [vm_compute; reflexivity|].
  apply (genesis_staking_inv stk_config id id sample_genesis stk_start); [exact stk_start_nothing| | |].
  - repeat constructor; vm_compute; discriminate.
  - vm_compute. discriminate.
  - exact Hrun.
Defined.

(** Nobody can bond what they do not have. *)
Lemma genesis_panics :
  (build stk_config id id (MkGenesis 84 2 1 [] NotForcing (MkParts 0) [(3, 4, 51, Idle)] 0 0) stk_start
     : outcome (StakingError + unit) unit * _).1 = Panic.
Proof. vm_compute. reflexivity. Qed.

(** ** The authorities of newrome *)

Definition pallet_account (id : string) : Z := 1000 + Z.of_nat (String.length id).

Definition two_authorities : list (Z * Z) := [(21, 22); (23, 24)].

(** 21 is endowed too. *)
Definition newrome_balances : gmap Z Z := default ∅ (genesis_balances pallet_account 0 10 two_authorities [21; 7]).

Definition newrome_start : State Chain Z perbill percent :=
  MkState (MkBonds ∅ ∅ ∅) (MkRoles ∅ 0 ∅ 0 0 0 None None None) (MkEras 0 0 0 None None NotForcing [] ∅ ∅ ∅ ∅ ∅ ∅ ∅)
    (MkSlashes [] (MkParts 0) ∅ None ∅ ∅ ∅ ∅) [] (MkChain newrome_balances ∅ 0).

Definition sample_base : Config Chain unit Z Z SampleOrigin :=
  MkConfig 0 0 0 16 0 0 0 Some tt (fun _ => None) (fun _ => false) (fun _ => false) tt (fun _ => 1000) (fun v _ => v) (fun _ c => (None, c)).

Lemma newrome_funds who : sc_free_balance who (chain newrome_start) = default 0 (newrome_balances !! who).
Proof.
  cbn [sc_free_balance chain_currency]. unfold free_of.
  assert (map_Forall (fun _ v => 0 <= v <= umax 128) newrome_balances) as Hall by (apply (bool_decide_unpack _); vm_compute; exact I).
  cbn [free chain newrome_start]. destruct (newrome_balances !! who) as [v|] eqn:E; simpl.
  - specialize (Hall who v E). simpl in Hall. revert Hall. generalize (umax 128). lia.
  - pose proof (umax_nonneg 128). lia.
Qed.

Lemma funds_stay who v c w : free_of w (sc_set_lock who v c) = free_of w c.
Proof. simpl. by destruct (v =? 0). Qed.

Definition authorities_genesis : GenesisConfig Z perbill :=
  MkGenesis 84 5 1 [21; 23] NotForcing (pt_from_percent 10)
    [(21, 22, 10 ^ 15, StatusValidator); (23, 24, 10 ^ 15, StatusValidator)] 0 0.

Lemma authorities_start_as_validators_witness :
  newrome_staking_genesis two_authorities = Some authorities_genesis
  /\ exists s', build (staking_config NewromeRuntime sample_base) BySigned id authorities_genesis newrome_start = (Ok tt, s')
    /\ bonded (bonds s') !! 21 = Some 22 /\ validators (roles s') !! 23 = Some (MkPrefs pt_zero false).
Proof.
  assert (newrome_staking_genesis two_authorities = Some authorities_genesis) as Hg by reflexivity. split; [exact Hg|].
  destruct (authorities_start_as_validators pallet_account 0 NewromeRuntime sample_base BySigned id
    ltac:(done) ltac:(done) ltac:(done) ltac:(intros who c c' [= <-]; done) funds_stay
    10 two_authorities [21; 7] newrome_balances authorities_genesis newrome_start (10 ^ 15)) as (s' & Hrun & Hvals);
    [..|exists s'; split; [exact Hrun|]; split].
  - apply (bool_decide_unpack _). vm_compute. exact I.
  - apply (bool_decide_unpack _). vm_compute. exact I.
  - lia.
  - vm_compute. reflexivity.
  - exact Hg.
  - vm_compute. reflexivity.
  - repeat split; reflexivity.
  - reflexivity.
  - exact newrome_funds.
  - vm_compute. discriminate.
  - apply (Hvals 21 22). apply list_elem_of_here.
  - apply (Hvals 23 24). apply list_elem_of_further, list_elem_of_here.
Defined.

(** ** Deferring a slash longer than bonding *)

(** The pallet wants a slash to be deferred for fewer eras than stakes stay bonded. The
    runtimes defer for two eras and do not keep anything bonded: a validator that is
    reported in era 3 takes its stake out in the same era, and the slash that is applied in era
    6 finds nothing to slash. *)
Definition newrome_staking : Config Chain unit Z Z SampleOrigin := staking_config NewromeRuntime sample_base.

Definition newrome_run (calls : list (SampleOrigin * StkCall)) (s : State Chain Z perbill percent) : State Chain Z perbill percent :=
  fold_left (fun s oc => (dispatch newrome_staking oc.1 oc.2 s).2) calls s.

Definition newrome_validator : State Chain Z perbill percent :=
  newrome_run [(BySigned 10, CBond 11 800 Stash); (BySigned 11, CValidate (MkPrefs (MkParts 0) false))]
    (set_active_era (Some (MkActiveEra 3 None)) stk_start).

Definition newrome_reported : State Chain Z perbill percent :=
  on_offence newrome_staking [MkOffence (10, MkExposure 800 800 []) []] [MkParts BILLION] 18 newrome_validator.

Definition newrome_left : State Chain Z perbill percent :=
  newrome_run [(BySigned 11, CChill); (BySigned 11, CUnbond 800); (BySigned 11, CWithdrawUnbonded 2)] newrome_reported.

Example deferred_slash_is_escaped :
  us_own <$> unapplied_of newrome_reported 3 = [800]
  /\ ledger (bonds newrome_left) !! 11 = None /\ sc_lock_of 10 (chain newrome_left) = 0
  /\ unapplied_of newrome_left 3 = unapplied_of newrome_reported 3
  /\ unapplied_of (apply_unapplied_slashes newrome_staking 6 newrome_left) 3 = []
  /\ sc_free_balance 10 (chain (apply_unapplied_slashes newrome_staking 6 newrome_left)) = sc_free_balance 10 (chain newrome_validator).
Proof. vm_compute. repeat split. Qed.

(** Left where it is, the stake is slashed when it is due. *)
Example deferred_slash_is_due :
  sc_free_balance 10 (chain (apply_unapplied_slashes newrome_staking 6 newrome_reported)) = sc_free_balance 10 (chain newrome_validator) - 800.
Proof. vm_compute. reflexivity. Qed.

(** * The configured pallets on concrete chains

    What [RuntimeTheorems] shows of the configured pallets, applied: who governs them, the
    pairs that fees are exchanged along, and the multiplier of fees. *)

From Stdlib Require Import String.
From S2P Require Import Prelude Currency Externals Governance GovernanceTheorems Staking StakingCalls StakingSafety StakingExamples EvmMeter Evm EvmRunner EvmExamples Dex DexExamples TransactionPayment TransactionPaymentTheorems TransactionPaymentExamples RuntimeConfig RuntimeTheorems.

#[local] Existing Instances fixed_arith fixed_arith_laws.

Definition sample_account (id : string) : Z := 1000 + Z.of_nat (String.length id).

(** ** Who governs *)

Definition dex_base : Dex.Config Ledger LedgerError Z SampleOrigin :=
  Dex.MkConfig 0 0 (3, 1000) (fun l => l) (fun _ => None) (fun _ => false) Externals.BadOrigin (fun _ => ret tt) (fun _ _ => None).

Definition staking_base : Staking.Config Chain unit Z Z SampleOrigin :=
  Staking.MkConfig 0 0 0 16 0 0 0 Some tt (fun _ => None) (fun _ => false) (fun _ => false) tt (fun _ => 1000) (fun v _ => v) (fun _ c => (None, c)).

Definition evm_base : Evm.Config string Z SampleOrigin :=
  Evm.MkConfig 0 0 0 0 0 0 0 0 false code_hash_of_bytes (fun _ => None) (fun _ => false) (fun _ => false) (fun _ => false) "BadOrigin"%string.

Definition evm_newrome : Evm.Config string Z SampleOrigin := default evm_base (evm_config NewromeRuntime sample_account evm_base).

(** Account 7 can neither list a pair, nor change the number of validators, nor deploy for
    free; the root can. *)
Lemma accounts_do_not_govern_witness :
  enable_trading_pair (dex_config NewromeRuntime sample_account dex_base) (BySigned 7) DNAR_ID USDJ_ID sample_start
    = (Err (inr Externals.BadOrigin), sample_start)
  /\ StakingSafety.dispatch (staking_config NewromeRuntime staking_base) (BySigned 7) (CSetValidatorCount 9) stk_market
    = (Err (inr tt), stk_market)
  /\ deploy_free evm_newrome (BySigned 7) 77 EvmExamples.genesis = (Err (inr "BadOrigin"%string), EvmExamples.genesis)
  /\ (deploy_free evm_newrome ByRoot 77 EvmExamples.genesis).1 <> Err (inr "BadOrigin"%string).
Proof.
  assert (evm_config NewromeRuntime sample_account evm_base = Some evm_newrome) as Hevm by reflexivity.
  assert (Governance.signed_by (BySigned 7) = Some 7) as Hw by reflexivity.
  destruct (accounts_do_not_govern (Caller := SampleOrigin) (Perbill := perbill) (Percent := percent) NewromeRuntime sample_account dex_base staking_base evm_base evm_newrome (BySigned 7) 7 Hw Hevm)
    as (_ & Hpairs & Hroot & _ & Hfree & _).
  split; [apply Hpairs|]. split; [by apply Hroot|]. split; [apply Hfree|]. vm_compute. discriminate.
Defined.

(** ** Fees *)

Definition payment_newrome : TransactionPayment.Config fixed_u128 Exchange (DexError + LedgerError) Z Z :=
  default fee_config (payment_config NewromeRuntime fee_config).

Lemma fee_currencies_are_exchangeable_witness :
  exists s', genesis_build (dex_config NewromeRuntime sample_account dex_base) (runtime_dex_genesis NewromeRuntime) sample_start = (Ok tt, s')
    /\ trading_path payment_newrome (Token RENBTC) = [Token RENBTC; Token SETT; Token DNAR]
    /\ status_of s' (TradingPair_new (Token RENBTC) (Token SETT)) = Enabled.
Proof.
  assert (payment_config NewromeRuntime fee_config = Some payment_newrome) as Hcfg by reflexivity.
  destruct (fee_currencies_are_exchangeable NewromeRuntime dex_base sample_account fee_config payment_newrome (Token RENBTC) sample_start)
    as (s' & Hrun & _ & _ & _ & Hhops); [discriminate|exact Hcfg|apply (bool_decide_unpack _); vm_compute; exact I|].
  exists s'. split; [exact Hrun|]. split; [reflexivity|]. apply Hhops, list_elem_of_here.
Defined.

Definition payment_neom : TransactionPayment.Config fixed_u128 Exchange (DexError + LedgerError) Z Z :=
  default fee_config (payment_config NeomRuntime fee_config).

(** In neom the dollar of the runtime has a pair with SETT, and no way to NEOM. *)
Lemma neom_currencies_are_stranded_witness :
  exists s', genesis_build (dex_config NeomRuntime sample_account dex_base) (runtime_dex_genesis NeomRuntime) sample_start = (Ok tt, s')
    /\ status_of s' (TradingPair_new (Token JUSD) (Token SETT)) = Enabled
    /\ forall v, (do_swap_with_exact_target (dex_config NeomRuntime sample_account dex_base) 2 (trading_path payment_neom (Token JUSD)) 1 1000 None s').1 <> Ok v.
Proof.
  assert (payment_config NeomRuntime fee_config = Some payment_neom) as Hcfg by reflexivity.
  destruct (runtime_genesis_runs NeomRuntime dex_base sample_account sample_start) as (s' & Hrun & Hs').
  exists s'. split; [exact Hrun|]. split.
  { rewrite Hs'. vm_compute. reflexivity. }
  destruct (do_swap_with_exact_target (dex_config NeomRuntime sample_account dex_base) 2 (trading_path payment_neom (Token JUSD)) 1 1000 None s') as [r s2] eqn:E.
  apply (neom_currencies_are_stranded NeomRuntime dex_base sample_account fee_config payment_neom (Token JUSD) sample_start s' 2 1 1000 None r s2);
    [reflexivity|exact Hcfg|apply (bool_decide_unpack _); vm_compute; exact I|reflexivity|exact Hrun|exact E].
Defined.

#[local] Instance fixed_ratio_laws : FixedPointRatioLaws fixed_u128.
Proof.
  split.
  - done.
  - intros n d Hn Hd. unfold fp_inner, fixed_u128_laws, fp_saturating_from_rational, fixed_arith, fixed_inner, fix_trunc. cbn [fixed_raw fp_div].
    assert (0 <= n * DIV / d) by (apply Z.div_pos; unfold DIV; lia). pose proof (umax_nonneg 128 ltac:(lia)). lia.
  - intros a b. change (Z.min (fixed_inner a * fixed_inner b / DIV) (umax 128) <= fix_trunc (Z.min (fixed_inner a * fixed_inner b / DIV) (umax 128))).
    unfold fix_trunc. generalize (fixed_inner a * fixed_inner b / DIV), (umax 128). lia.
Qed.

(** Full blocks at the lowest multiplier. *)
Lemma multiplier_grows_under_load_witness :
  exists next, fee_multiplier_update (F := fixed_u128) (fun w => w / 4) 750000000000 750000000000 (MkFixed 1) = Some next
    /\ 10 ^ 9 + 1 <= fixed_inner next.
Proof.
  destruct (multiplier_grows_under_load (F := fixed_u128) (fun w => w / 4) 750000000000 750000000000 (MkFixed 1)) as (next & Hrun & Hle);
    [lia|vm_compute; discriminate|vm_compute; discriminate|].
  exists next. split; [exact Hrun|]. etransitivity; [|exact Hle]. vm_compute. discriminate.
Defined.
