(* ===== verification/SerpTreasury.v ===== *)
(** * The SERP treasury

    [lib-serml/serp/serp-treasury/src/lib.rs]: issuing and burning stable currencies, what
    bidders pay to the treasury, the distribution of what is issued when a currency serps
    up, and the calls that open auctions. The decision to serp ([serp_tes], [on_serpdown])
    is left out: it mixes prices, options and amounts in ways that have no type. *)

From S2P Require Import Prelude Currency Externals Staking.

(** [SerpAuctionManager]: the auctions as the treasury sees them. The support crate is named as
    its home and does not declare it; these are the functions that the pallet of auctions
    implements. *)
Class SerpAuctionManager (S E : Type) : Type := {
  new_diamond_auction : Z -> Z -> M S E unit;
  new_setter_auction : Z -> Z -> CurrencyId -> M S E unit;
  new_serplus_auction : Z -> CurrencyId -> M S E unit;
  cancel_auction : Z -> M S E unit
}.

Inductive TreasuryError : Type := TreasuryInvalidCurrencyType | TreasuryInvalidAmount.

Inductive TreasuryEvent : Type :=
| CurrencySerpUpDelivered (amount : Z) (currency_id : CurrencyId)
| CurrencySerpedUp (amount : Z) (currency_id : CurrencyId).

(** What the runtime gives the pallet. The accounts are those that the identifiers of the
    pallets stand for, and the shares are parts of an amount, as the runtimes have them. *)
Record TreasuryConfig (A P : Type) : Type := MkTreasury {
  GetSetterCurrencyId : CurrencyId;
  GetDexerCurrencyId : CurrencyId;
  StableCurrencyIds : list CurrencyId;
  treasury_account_id : A;
  SettPayTreasuryAcc : A;
  SetheumTreasuryAcc : A;
  CharityFundAcc : A;
  SerplusSerpupRatio : P;
  SettPaySerpupRatio : P;
  SetheumTreasurySerpupRatio : P;
  CharityFundSerpupRatio : P
}.

Arguments MkTreasury {A P}.
Arguments GetSetterCurrencyId {A P}.
Arguments GetDexerCurrencyId {A P}.
Arguments StableCurrencyIds {A P}.
Arguments treasury_account_id {A P}.
Arguments SettPayTreasuryAcc {A P}.
Arguments SetheumTreasuryAcc {A P}.
Arguments CharityFundAcc {A P}.
Arguments SerplusSerpupRatio {A P}.
Arguments SettPaySerpupRatio {A P}.
Arguments SetheumTreasurySerpupRatio {A P}.
Arguments CharityFundSerpupRatio {A P}.

Definition contains (currency_id : CurrencyId) (l : list CurrencyId) : bool := existsb (currency_eqb currency_id) l.

Section Treasury.
Context {L X A P : Type} `{!MultiCurrency L X A} `{!Perthing P}.
Variable cfg : TreasuryConfig A P.

(** ** Issuing, burning and depositing *)

Definition issue_standard (currency_id : CurrencyId) (who : A) (standard : Z) : M L X unit :=
  do! mc_deposit currency_id who standard in ret tt.

Definition burn_standard (currency_id : CurrencyId) (who : A) (standard : Z) : M L X unit :=
  mc_withdraw currency_id who standard.

Definition issue_propper (currency_id : CurrencyId) (who : A) (propper : Z) : M L X unit :=
  do! mc_deposit currency_id who propper in ret tt.

Definition burn_propper (currency_id : CurrencyId) (who : A) (propper : Z) : M L X unit :=
  mc_withdraw currency_id who propper.

Definition issue_setter (who : A) (setter : Z) : M L X unit :=
  do! mc_deposit (GetSetterCurrencyId cfg) who setter in ret tt.

Definition burn_setter (who : A) (setter : Z) : M L X unit :=
  mc_withdraw (GetSetterCurrencyId cfg) who setter.

Definition issue_dexer (who : A) (dexer : Z) : M L X unit :=
  do! mc_deposit (GetDexerCurrencyId cfg) who dexer in ret tt.

Definition burn_dexer (who : A) (dexer : Z) : M L X unit :=
  mc_withdraw (GetDexerCurrencyId cfg) who dexer.

Definition deposit_serplus (currency_id : CurrencyId) (from : A) (serplus : Z) : M L X unit :=
  mc_transfer currency_id from (treasury_account_id cfg) serplus.

Definition deposit_setter (from : A) (amount : Z) : M L X unit :=
  mc_transfer (GetSetterCurrencyId cfg) from (treasury_account_id cfg) amount.

(** ** Serping up

    The events of the pallet, next to the ledger. The results of [issue_propper] are not
    looked at: what cannot be issued is not, and the event says it was. *)

Abbreviation Up := (M (list TreasuryEvent * L) (TreasuryError + X)).

Definition issue_or_ignore (currency_id : CurrencyId) (who : A) (propper : Z) : Up unit :=
  do! try_run (zoom snd (fun l s => (s.1, l)) inr (issue_propper currency_id who propper)) in ret tt.

Definition deposit_treasury_event (e : TreasuryEvent) : Up unit := modify (fun s => (s.1 ++ [e], s.2)).

Definition get_serplus_serpup (amount : Z) (currency_id : CurrencyId) : Up unit :=
  let serplus_propper := pt_mul (SerplusSerpupRatio cfg) amount in
  do! issue_or_ignore currency_id (treasury_account_id cfg) serplus_propper in
  deposit_treasury_event (CurrencySerpUpDelivered amount currency_id).

Definition get_settpay_serpup (amount : Z) (currency_id : CurrencyId) : Up unit :=
  let settpay_propper := pt_mul (SettPaySerpupRatio cfg) amount in
  do! issue_or_ignore currency_id (SettPayTreasuryAcc cfg) settpay_propper in
  deposit_treasury_event (CurrencySerpUpDelivered amount currency_id).

Definition get_treasury_serpup (amount : Z) (currency_id : CurrencyId) : Up unit :=
  let treasury_propper := pt_mul (SetheumTreasurySerpupRatio cfg) amount in
  do! issue_or_ignore currency_id (SetheumTreasuryAcc cfg) treasury_propper in
  deposit_treasury_event (CurrencySerpUpDelivered amount currency_id).

Definition get_charity_fund_serpup (amount : Z) (currency_id : CurrencyId) : Up unit :=
  let charity_fund_propper := pt_mul (CharityFundSerpupRatio cfg) amount in
  do! issue_or_ignore currency_id (CharityFundAcc cfg) charity_fund_propper in
  deposit_treasury_event (CurrencySerpUpDelivered amount currency_id).

(** The results of the four are not looked at either; they are never errors. *)
Definition on_serpup (currency_id : CurrencyId) (amount : Z) : Up unit :=
  do! ensure (contains currency_id (StableCurrencyIds cfg)) (inl TreasuryInvalidCurrencyType) in
  do! ensure (negb (amount =? 0)) (inl TreasuryInvalidAmount) in
  do! try_run (get_serplus_serpup amount currency_id) in
  do! try_run (get_settpay_serpup amount currency_id) in
  do! try_run (get_treasury_serpup amount currency_id) in
  do! try_run (get_charity_fund_serpup amount currency_id) in
  deposit_treasury_event (CurrencySerpedUp amount currency_id).
End Treasury.

(** ** The calls that open auctions *)

Section Calls.
Context {S E A P Origin : Type} `{!SerpAuctionManager S E}.
Variable cfg : TreasuryConfig A P.

(** [UpdateOrigin], its error, and [DispatchError::from]. *)
Variable update_origin : Origin -> bool.
Variable bad_origin : E.
Variable into_error : TreasuryError -> E.

Definition auction_serplus (origin : Origin) (amount : Z) (currency_id : CurrencyId) : M S E unit :=
  transactional (
    do! ensure (update_origin origin) bad_origin in
    do! ensure (contains currency_id (StableCurrencyIds cfg)) (into_error TreasuryInvalidCurrencyType) in
    new_serplus_auction amount currency_id).

Definition auction_diamond (origin : Origin) (setter_amount initial_price : Z) : M S E unit :=
  transactional (
    do! ensure (update_origin origin) bad_origin in
    new_diamond_auction initial_price setter_amount).

Definition auction_setter (origin : Origin) (accepted_currency : CurrencyId) (currency_amount initial_price : Z) : M S E unit :=
  transactional (
    do! ensure (update_origin origin) bad_origin in
    new_setter_auction initial_price currency_amount accepted_currency).
End Calls.

(** ** What serping up issues *)

Section Issuance.
Context {L X A P : Type} `{!MultiCurrency L X A} `{!FrameSystem L A} `{!MultiCurrencyLaws L X A} `{!Perthing P} `{!PerthingLaws P}.
Variable cfg : TreasuryConfig A P.

Abbreviation issued c s := (mc_total_issuance c (snd s)).

(** At most [v] of [c] is issued, and of nothing else. *)
Definition issues (c : CurrencyId) (v : Z) (s s' : list TreasuryEvent * L) : Prop :=
  issued c s <= issued c s' <= issued c s + v /\ forall c', c' <> c -> issued c' s' = issued c' s.

Lemma issues_trans c v w s s' s'' : issues c v s s' -> issues c w s' s'' -> issues c (v + w) s s''.
Proof. intros [H1 O1] [H2 O2]. split; [lia|]. intros c' Hc. by rewrite O2, O1. Qed.

Lemma share_issues c who v amount (s : list TreasuryEvent * L) u s' :
  0 <= v ->
  (do! issue_or_ignore (X := X) c who v in deposit_treasury_event (X := X) (CurrencySerpUpDelivered amount c)) s = (Ok u, s') ->
  issues c v s s'.
Proof.
  intros Hv Hrun. apply bind_ok in Hrun as (u1 & s1 & Hissue & Hrun). injection Hrun as _ <-. unfold issue_or_ignore in Hissue.
  apply bind_ok in Hissue as (r & s2 & Htry & Hret). injection Hret as _ <-. apply try_run_ok in Htry. destruct r as [[]|].
  - unfold issue_propper in Htry. run_inv Htry. unfold issues. simpl.
    match goal with Hd : mc_deposit _ _ _ _ = (Ok ?u, _) |- _ => destruct u; pose proof (fun c' => mc_deposit_issuance _ _ _ _ _ c' Hd Hv) as Hi end.
    split.
    + rewrite (Hi c). unfold currency_eqb. rewrite bool_decide_eq_true_2 by done. lia.
    + intros c' Hc. rewrite (Hi c'). unfold currency_eqb. rewrite bool_decide_eq_false_2 by congruence. lia.
  - destruct Htry as [x Htry]. unfold issue_propper, zoom, bind in Htry. destruct (mc_deposit c who v s.2) as [[?|y|] l] eqn:E; simplify_eq.
    apply mc_failed_deposit in E as ->. unfold issues. simpl. split; [lia|done].
Qed.

Lemma tried_issues {E B : Type} c v (m : M (list TreasuryEvent * L) E B) s r s' :
  (forall u s', m s = (Ok u, s') -> issues c v s s') -> (forall e s', m s <> (Err e, s')) ->
  try_run m s = (Ok r, s') -> issues c v s s'.
Proof. intros Hok Herr Hrun. apply try_run_ok in Hrun. destruct r as [u|]; [by eapply Hok|destruct Hrun as [e Hrun]; by apply Herr in Hrun]. Qed.

Lemma share_never_fails c who v amount (s : list TreasuryEvent * L) e s' :
  (do! issue_or_ignore (X := X) c who v in deposit_treasury_event (X := X) (CurrencySerpUpDelivered amount c)) s <> (Err e, s').
Proof. unfold issue_or_ignore, try_run, bind. by repeat case_match; simplify_eq. Qed.

(** Serping up issues at most the four shares of the amount, of the currency alone; a
    currency that is not stable and an amount of zero are refused. *)
Theorem serpup_issues_the_shares c amount (s : list TreasuryEvent * L) u s' :
  0 <= amount -> on_serpup (X := X) cfg c amount s = (Ok u, s') ->
  contains c (StableCurrencyIds cfg) = true /\ amount <> 0
  /\ issues c (pt_mul (SerplusSerpupRatio cfg) amount + pt_mul (SettPaySerpupRatio cfg) amount
               + pt_mul (SetheumTreasurySerpupRatio cfg) amount + pt_mul (CharityFundSerpupRatio cfg) amount) s s'.
Proof.
  intros Ha Hrun. assert (forall p : P, 0 <= pt_mul p amount) as Hp by (intros p; by apply (pt_mul_part p amount)).
  unfold on_serpup in Hrun. run_inv Hrun. bool_inv. split; [done|]. split; [done|].
  repeat match goal with Hm : try_run _ _ = _ |- _ => eapply tried_issues in Hm;
    [|intros ? ?; apply share_issues; apply Hp|intros ? ?; apply share_never_fails] end.
  injection Hrun as _ <-. eapply (issues_trans _ _ _ s _ _ (issues_trans _ _ _ s _ _ (issues_trans _ _ _ s _ _ R R2) R3) R4).
Qed.
End Issuance.
