(* ===== verification/SerpAuction.v ===== *)
(** * The SERP auctions

    [lib-serml/serp/serp-auction/src/lib.rs]: diamond auctions sell the native currency for
    setters, setter auctions sell setters for stable currencies, serplus auctions sell stable
    currencies for the native one. The pallet opens and cancels them, and handles what the
    auction pallet (orml) tells it: new bids, and ends.

    The source is read as follows where it has no type: the totals of setter and serplus
    auctions, declared as values with a query kind where a currency belongs, are maps from
    the currency, as their comments say; [TotalSurplusInAuction] is [TotalSerplusInAuction];
    [!settcurrency_id = x] is an inequality; an item has the fields of its type, and an event
    is deposited with what it is given. *)

From S2P Require Import Prelude Currency Externals Staking SerpTreasury.

(** The auction pallet: the last bid of an auction, its calls that this pallet makes, and
    what it stores when a bid was accepted. *)
Class Auctions (AU X A : Type) : Type := {
  auction_bid : Z -> AU -> option (A * Z);
  new_auction : Z -> option Z -> M AU X Z;
  remove_auction : Z -> AU -> AU;
  store_bid : Z -> A * Z -> option Z -> AU -> AU
}.

(** [checked_mul_int] of [Rate] and its doubling are those of [FixedPoint]. *)

Record DiamondAuctionItem : Type := MkDiamond {
  d_initial_amount : Z;
  d_amount : Z;
  d_fix : Z;
  d_start_time : Z
}.

Record SetterAuctionItem : Type := MkSetter {
  s_initial_amount : Z;
  s_amount : Z;
  s_currency : CurrencyId;
  s_fix : Z;
  s_start_time : Z
}.

Record SerplusAuctionItem : Type := MkSerplus {
  p_amount : Z;
  p_currency : CurrencyId;
  p_start_time : Z
}.

Inductive AuctionError : Type :=
| AuctionNonExistent
| CurrencyNotAccepted
| InvalidFeedPrice
| InvalidBidPrice
| InvalidAmount
| InvalidCurrencyType.

Inductive AuctionEvent (A : Type) : Type :=
| NewDiamondAuction (id initial_amount : Z) (diamond : CurrencyId) (fix_setter : Z)
| NewSetterAuction (id initial_amount fix_settcurrency : Z) (settcurrency_id : CurrencyId)
| NewSerplusAuction (id amount : Z) (currency_id : CurrencyId)
| CancelAuction (id : Z)
| DiamondAuctionDealt (id amount : Z) (winner : A) (fix_setter : Z)
| SetterAuctionDealt (id amount : Z) (winner : A) (fix_settcurrency : Z) (currency_id : CurrencyId)
| SerplusAuctionDealt (id amount : Z) (currency_id : CurrencyId) (winner : A) (bid_price : Z).

Arguments NewDiamondAuction {A}.
Arguments NewSetterAuction {A}.
Arguments NewSerplusAuction {A}.
Arguments CancelAuction {A}.
Arguments DiamondAuctionDealt {A}.
Arguments SetterAuctionDealt {A}.
Arguments SerplusAuctionDealt {A}.

Record Config `{FixedPoint} : Type := MkConfig {
  DiamondAuctionMinimumIncrementSize : FP;
  SetterAuctionMinimumIncrementSize : FP;
  SerplusAuctionMinimumIncrementSize : FP;
  AuctionTimeToClose : Z;
  AuctionDurationSoftCap : Z;
  GetNativeCurrencyId : CurrencyId
}.

Section Auction.
Context {L AU X A P : Type} `{Countable A} `{!MultiCurrency L X A} `{!FrameSystem L A} `{!Perthing P} `{!Auctions AU X A} `{F : FixedPoint}.
Variable treasury : TreasuryConfig A P.
Variable cfg : Config.

Record State : Type := MkState {
  diamond_auctions : gmap Z DiamondAuctionItem;
  setter_auctions : gmap Z SetterAuctionItem;
  serplus_auctions : gmap Z SerplusAuctionItem;
  total_setter_in_auction : Z;
  total_settcurrency : gmap CurrencyId Z;
  total_serplus : gmap CurrencyId Z;
  events : list (AuctionEvent A);
  auctions : AU;
  chain : L
}.

Abbreviation Run := (M State (AuctionError + X)).

Definition set_diamonds (f : gmap Z DiamondAuctionItem -> gmap Z DiamondAuctionItem) (s : State) : State :=
  MkState (f (diamond_auctions s)) (setter_auctions s) (serplus_auctions s) (total_setter_in_auction s)
    (total_settcurrency s) (total_serplus s) (events s) (auctions s) (chain s).

Definition set_setters (f : gmap Z SetterAuctionItem -> gmap Z SetterAuctionItem) (s : State) : State :=
  MkState (diamond_auctions s) (f (setter_auctions s)) (serplus_auctions s) (total_setter_in_auction s)
    (total_settcurrency s) (total_serplus s) (events s) (auctions s) (chain s).

Definition set_serpluses (f : gmap Z SerplusAuctionItem -> gmap Z SerplusAuctionItem) (s : State) : State :=
  MkState (diamond_auctions s) (setter_auctions s) (f (serplus_auctions s)) (total_setter_in_auction s)
    (total_settcurrency s) (total_serplus s) (events s) (auctions s) (chain s).

Definition set_total_setter (v : Z) (s : State) : State :=
  MkState (diamond_auctions s) (setter_auctions s) (serplus_auctions s) v
    (total_settcurrency s) (total_serplus s) (events s) (auctions s) (chain s).

Definition set_total_settcurrency (c : CurrencyId) (v : Z) (s : State) : State :=
  MkState (diamond_auctions s) (setter_auctions s) (serplus_auctions s) (total_setter_in_auction s)
    (<[c := v]> (total_settcurrency s)) (total_serplus s) (events s) (auctions s) (chain s).

Definition set_total_serplus (c : CurrencyId) (v : Z) (s : State) : State :=
  MkState (diamond_auctions s) (setter_auctions s) (serplus_auctions s) (total_setter_in_auction s)
    (total_settcurrency s) (<[c := v]> (total_serplus s)) (events s) (auctions s) (chain s).

Definition set_auctions (au : AU) (s : State) : State :=
  MkState (diamond_auctions s) (setter_auctions s) (serplus_auctions s) (total_setter_in_auction s)
    (total_settcurrency s) (total_serplus s) (events s) au (chain s).

Definition set_chain (l : L) (s : State) : State :=
  MkState (diamond_auctions s) (setter_auctions s) (serplus_auctions s) (total_setter_in_auction s)
    (total_settcurrency s) (total_serplus s) (events s) (auctions s) l.

Definition deposit_event (e : AuctionEvent A) (s : State) : State :=
  MkState (diamond_auctions s) (setter_auctions s) (serplus_auctions s) (total_setter_in_auction s)
    (total_settcurrency s) (total_serplus s) (events s ++ [e]) (auctions s) (chain s).

Definition on_chain {B : Type} (m : M L X B) : Run B := zoom chain set_chain inr m.

Definition on_auctions {B : Type} (m : M AU X B) : Run B := zoom auctions set_auctions inr m.

(** The getters. *)
Definition total_settcurrency_in_auction (s : State) (c : CurrencyId) : Z := default 0 (total_settcurrency s !! c).
Definition total_serplus_in_auction (s : State) (c : CurrencyId) : Z := default 0 (total_serplus s !! c).

(** ** Prices and times *)

(** [amount_for_sale] of a diamond and of a setter auction: one text, on the fields of the
    item. *)
Definition amount_for_sale (amount fix_ last_bid_price new_bid_price : Z) : Z :=
  if (last_bid_price <? new_bid_price) && (fix_ <? new_bid_price) then
    default amount (r ← fp_checked_from_rational (Z.max last_bid_price fix_) new_bid_price; fp_checked_mul_int r amount)
  else amount.

Definition check_minimum_increment (new_price last_price target_price : Z) (minimum_increment : FP) : bool :=
  match fp_checked_mul_int minimum_increment (Z.max target_price last_price), checked_sub new_price last_price with
  | Some target, Some result => target <=? result
  | _, _ => false
  end.

(** Past the soft cap. *)
Definition soft_capped (now start_block : Z) : bool := wrap 32 (start_block + AuctionDurationSoftCap cfg) <=? now.

Definition minimum_increment_size (size : FP) (now start_block : Z) : FP :=
  if soft_capped now start_block then fp_saturating_mul size (fp_saturating_from_integer 2) else size.

Definition get_diamond_auction_minimum_increment_size : Z -> Z -> FP := minimum_increment_size (DiamondAuctionMinimumIncrementSize cfg).
Definition get_setter_auction_minimum_increment_size : Z -> Z -> FP := minimum_increment_size (SetterAuctionMinimumIncrementSize cfg).
Definition get_serplus_auction_minimum_increment_size : Z -> Z -> FP := minimum_increment_size (SerplusAuctionMinimumIncrementSize cfg).

Definition get_auction_time_to_close (now start_block : Z) : Z :=
  if soft_capped now start_block then AuctionTimeToClose cfg / 2 else AuctionTimeToClose cfg.

(** ** Bids *)

(** The failure of [inc_consumers] is logged and ignored. *)
Definition swap_bidders (new_bidder : A) (last_bidder : option A) : Run unit :=
  do! modify (fun s => set_chain (default (chain s) (inc_consumers new_bidder (chain s))) s) in
  match last_bidder with
  | Some who => modify (fun s => set_chain (dec_consumers who (chain s)) s)
  | None => ret tt
  end.

Definition price_of (bid : option (A * Z)) : Z := from_option snd 0 bid.

Definition diamond_auction_bid_handler (now id : Z) (new_bid : A * Z) (last_bid : option (A * Z)) : Run Z :=
  transactional (
    let! s := get in
    let! item := ok_or (diamond_auctions s !! id) (inl AuctionNonExistent) in
    let '(new_bidder, new_bid_price) := new_bid in
    let last_bid_price := price_of last_bid in
    do! ensure (check_minimum_increment new_bid_price last_bid_price (d_fix item)
                  (get_diamond_auction_minimum_increment_size now (d_start_time item))
                && (d_fix item <=? new_bid_price)) (inl InvalidBidPrice) in
    let last_bidder := fst <$> last_bid in
    do! match last_bidder with
        | Some last_bidder => on_chain (mc_transfer (GetSetterCurrencyId treasury) new_bidder last_bidder (d_fix item))
        | None => on_chain (deposit_setter treasury new_bidder (d_fix item))
        end in
    do! swap_bidders new_bidder last_bidder in
    let amount := amount_for_sale (d_amount item) (d_fix item) last_bid_price new_bid_price in
    do! modify (set_diamonds <[id := MkDiamond (d_initial_amount item) amount (d_fix item) (d_start_time item)]>) in
    ret (wrap 32 (now + get_auction_time_to_close now (d_start_time item)))).

Definition setter_auction_bid_handler (now id : Z) (new_bid : A * Z) (last_bid : option (A * Z)) : Run Z :=
  transactional (
    let! s := get in
    let! item := ok_or (setter_auctions s !! id) (inl AuctionNonExistent) in
    let '(new_bidder, new_bid_price) := new_bid in
    let last_bid_price := price_of last_bid in
    let currency_id := s_currency item in
    do! ensure (check_minimum_increment new_bid_price last_bid_price (s_fix item)
                  (get_setter_auction_minimum_increment_size now (s_start_time item))
                && (s_fix item <=? new_bid_price)) (inl InvalidBidPrice) in
    do! ensure (contains currency_id (StableCurrencyIds treasury)) (inl InvalidCurrencyType) in
    let last_bidder := fst <$> last_bid in
    do! match last_bidder with
        | Some last_bidder => on_chain (mc_transfer currency_id new_bidder last_bidder (s_fix item))
        | None => on_chain (deposit_serplus treasury currency_id new_bidder (s_fix item))
        end in
    do! swap_bidders new_bidder last_bidder in
    let amount := amount_for_sale (s_amount item) (s_fix item) last_bid_price new_bid_price in
    do! modify (set_setters <[id := MkSetter (s_initial_amount item) amount (s_currency item) (s_fix item) (s_start_time item)]>) in
    ret (wrap 32 (now + get_auction_time_to_close now (s_start_time item)))).

Definition serplus_auction_bid_handler (now id : Z) (new_bid : A * Z) (last_bid : option (A * Z)) : Run Z :=
  transactional (
    let '(new_bidder, new_bid_price) := new_bid in
    do! ensure (negb (new_bid_price =? 0)) (inl InvalidBidPrice) in
    let! s := get in
    let! item := ok_or (serplus_auctions s !! id) (inl AuctionNonExistent) in
    let last_bid_price := price_of last_bid in
    let native_currency_id := GetNativeCurrencyId cfg in
    do! ensure (check_minimum_increment new_bid_price last_bid_price 0
                  (get_serplus_auction_minimum_increment_size now (p_start_time item))) (inl InvalidBidPrice) in
    let last_bidder := fst <$> last_bid in
    let! burn_amount :=
      match last_bidder with
      | Some last_bidder =>
          do! on_chain (mc_transfer native_currency_id new_bidder last_bidder last_bid_price) in
          ret (sat_sub new_bid_price last_bid_price)
      | None => ret new_bid_price
      end in
    do! on_chain (mc_withdraw native_currency_id new_bidder burn_amount) in
    do! swap_bidders new_bidder last_bidder in
    ret (wrap 32 (now + get_auction_time_to_close now (p_start_time item)))).

(** ** Ends *)

(** What the winner cannot be given is not given. *)
Definition diamond_auction_end_handler (auction_id : Z) (item : DiamondAuctionItem) (winner : option (A * Z)) : Run unit :=
  do! match winner with
      | Some (bidder, _) =>
          do! try_run (on_chain (mc_deposit (GetNativeCurrencyId cfg) bidder (d_amount item))) in
          modify (deposit_event (DiamondAuctionDealt auction_id (d_amount item) bidder (d_fix item)))
      | None => modify (deposit_event (CancelAuction auction_id))
      end in
  modify (fun s => set_total_setter (sat_sub (total_setter_in_auction s) (d_fix item)) s).

Definition setter_auction_end_handler (auction_id : Z) (item : SetterAuctionItem) (winner : option (A * Z)) : Run unit :=
  do! match winner with
      | Some (bidder, _) =>
          do! try_run (on_chain (issue_setter treasury bidder (s_amount item))) in
          modify (deposit_event (SetterAuctionDealt auction_id (s_amount item) bidder (s_fix item) (s_currency item)))
      | None => modify (deposit_event (CancelAuction auction_id))
      end in
  modify (fun s => set_total_settcurrency (s_currency item)
            (sat_sub (total_settcurrency_in_auction s (s_currency item)) (s_fix item)) s).

Definition serplus_auction_end_handler (auction_id : Z) (item : SerplusAuctionItem) (winner : option (A * Z)) : Run unit :=
  do! match winner with
      | Some (bidder, bid_price) =>
          do! try_run (on_chain (issue_propper (p_currency item) bidder (p_amount item))) in
          modify (deposit_event (SerplusAuctionDealt auction_id (p_amount item) (p_currency item) bidder bid_price))
      | None => modify (deposit_event (CancelAuction auction_id))
      end in
  modify (fun s => set_total_serplus (p_currency item)
            (sat_sub (total_serplus_in_auction s (p_currency item)) (p_amount item)) s).

(** ** [AuctionHandler] *)

(** [None] rejects the bid, [Some t] accepts it and lets the auction end at [t]. *)
Definition on_new_bid (now id : Z) (new_bid : A * Z) (last_bid : option (A * Z)) : Run (option Z) :=
  let! s := get in
  try_run (
    if bool_decide (is_Some (diamond_auctions s !! id)) then diamond_auction_bid_handler now id new_bid last_bid
    else if bool_decide (is_Some (setter_auctions s !! id)) then setter_auction_bid_handler now id new_bid last_bid
    else if bool_decide (is_Some (serplus_auctions s !! id)) then serplus_auction_bid_handler now id new_bid last_bid
    else fail (inl AuctionNonExistent)).

Definition on_auction_ended (id : Z) (winner : option (A * Z)) : Run unit :=
  let! s := get in
  do! match diamond_auctions s !! id, setter_auctions s !! id, serplus_auctions s !! id with
      | Some item, _, _ => do! modify (set_diamonds (delete id)) in diamond_auction_end_handler id item winner
      | None, Some item, _ => do! modify (set_setters (delete id)) in setter_auction_end_handler id item winner
      | None, None, Some item => do! modify (set_serpluses (delete id)) in serplus_auction_end_handler id item winner
      | None, None, None => ret tt
      end in
  match winner with
  | Some (bidder, _) => modify (fun s => set_chain (dec_consumers bidder (chain s)) s)
  | None => ret tt
  end.

(** ** Opening *)

Definition open_diamond_auction (initial_amount fix_setter : Z) : Run unit :=
  do! ensure (negb (initial_amount =? 0) && negb (fix_setter =? 0)) (inl InvalidAmount) in
  let! s := get in
  let! total := ok_or (checked_add 128 (total_setter_in_auction s) fix_setter) (inl InvalidAmount) in
  do! modify (set_total_setter total) in
  let! start_time := gets (fun s => block_number (chain s)) in
  let end_block := wrap 32 (start_time + AuctionTimeToClose cfg) in
  let! auction_id := on_auctions (new_auction start_time (Some end_block)) in
  do! modify (set_diamonds <[auction_id := MkDiamond initial_amount initial_amount fix_setter start_time]>) in
  modify (deposit_event (NewDiamondAuction auction_id initial_amount (GetNativeCurrencyId cfg) fix_setter)).

Definition open_setter_auction (initial_amount fix_settcurrency : Z) (settcurrency_id : CurrencyId) : Run unit :=
  do! ensure (negb (initial_amount =? 0) && negb (fix_settcurrency =? 0)) (inl InvalidAmount) in
  do! ensure (contains settcurrency_id (StableCurrencyIds treasury)) (inl InvalidCurrencyType) in
  let! s := get in
  let! total := ok_or (checked_add 128 (total_settcurrency_in_auction s settcurrency_id) fix_settcurrency) (inl InvalidAmount) in
  do! modify (set_total_settcurrency settcurrency_id total) in
  let! start_time := gets (fun s => block_number (chain s)) in
  let end_block := wrap 32 (start_time + AuctionTimeToClose cfg) in
  let! auction_id := on_auctions (new_auction start_time (Some end_block)) in
  if negb (currency_eqb settcurrency_id (GetSetterCurrencyId treasury)) then
    do! modify (set_setters <[auction_id := MkSetter initial_amount initial_amount settcurrency_id fix_settcurrency start_time]>) in
    modify (deposit_event (NewSetterAuction auction_id initial_amount fix_settcurrency settcurrency_id))
  else fail (inl CurrencyNotAccepted).

Definition open_serplus_auction (amount : Z) (currency_id : CurrencyId) : Run unit :=
  do! ensure (negb (amount =? 0)) (inl InvalidAmount) in
  do! ensure (contains currency_id (StableCurrencyIds treasury)) (inl InvalidCurrencyType) in
  let! s := get in
  let! total := ok_or (checked_add 128 (total_serplus_in_auction s currency_id) amount) (inl InvalidAmount) in
  do! modify (set_total_serplus currency_id total) in
  let! start_time := gets (fun s => block_number (chain s)) in
  let! auction_id := on_auctions (new_auction start_time None) in
  do! modify (set_serpluses <[auction_id := MkSerplus amount currency_id start_time]>) in
  modify (deposit_event (NewSerplusAuction auction_id amount currency_id)).

(** ** Cancelling *)

Definition get_last_bid (id : Z) : Run (option (A * Z)) := gets (fun s => auction_bid id (auctions s)).

Definition cancel_diamond_auction (id : Z) (item : DiamondAuctionItem) : Run unit :=
  let! bid := get_last_bid id in
  do! match bid with
      | Some (bidder, _) =>
          do! on_chain (issue_setter treasury bidder (d_fix item)) in
          modify (fun s => set_chain (dec_consumers bidder (chain s)) s)
      | None => ret tt
      end in
  modify (fun s => set_total_setter (sat_sub (total_setter_in_auction s) (d_fix item)) s).

Definition cancel_setter_auction (id : Z) (item : SetterAuctionItem) : Run unit :=
  let! bid := get_last_bid id in
  do! match bid with
      | Some (bidder, _) =>
          do! on_chain (issue_propper (s_currency item) bidder (s_fix item)) in
          modify (fun s => set_chain (dec_consumers bidder (chain s)) s)
      | None => ret tt
      end in
  modify (fun s => set_total_settcurrency (s_currency item)
            (sat_sub (total_settcurrency_in_auction s (s_currency item)) (s_fix item)) s).

Definition cancel_serplus_auction (id : Z) (item : SerplusAuctionItem) : Run unit :=
  let! bid := get_last_bid id in
  do! match bid with
      | Some (bidder, bid_price) =>
          do! on_chain (mc_deposit (GetNativeCurrencyId cfg) bidder bid_price) in
          modify (fun s => set_chain (dec_consumers bidder (chain s)) s)
      | None => ret tt
      end in
  modify (fun s => set_total_serplus (p_currency item)
            (sat_sub (total_serplus_in_auction s (p_currency item)) (p_amount item)) s).

(** Not transactional: an auction whose refund fails is gone all the same. *)
Definition cancel (id : Z) : Run unit :=
  let! s := get in
  do! match setter_auctions s !! id, diamond_auctions s !! id, serplus_auctions s !! id with
      | Some item, _, _ => do! modify (set_setters (delete id)) in cancel_setter_auction id item
      | None, Some item, _ => do! modify (set_diamonds (delete id)) in cancel_diamond_auction id item
      | None, None, Some item => do! modify (set_serpluses (delete id)) in cancel_serplus_auction id item
      | None, None, None => fail (inl AuctionNonExistent)
      end in
  modify (fun s => set_auctions (remove_auction id (auctions s)) s).

#[export] Instance serp_auction_manager : SerpAuctionManager State (AuctionError + X) := {
  new_diamond_auction := open_diamond_auction;
  new_setter_auction := open_setter_auction;
  new_serplus_auction := open_serplus_auction;
  cancel_auction := cancel
}.
End Auction.
