(* ===== verification/SerpAuctionLots.v ===== *)
(** * The lots of the SERP auctions

    One view of the three kinds of auctions: what is sold for what. What the operations of
    the pallet do, in terms of the lots, the bids of the auction pallet, the totals and what
    accounts hold. *)

From S2P Require Import Prelude Currency Externals Staking SerpTreasury SerpAuction.

(** ** What the auction pallet promises

    Its ids are new, a stored bid is the last one, and an auction that is removed has none. *)
Class AuctionsLaws (AU X A : Type) `{Auctions AU X A} : Type := {
  next_id : AU -> Z;
  new_auction_ok start end_ au id au' :
    new_auction start end_ au = (Ok id, au') ->
    next_id au <= id < next_id au' /\ auction_bid id au' = None /\ forall j, j <> id -> auction_bid j au' = auction_bid j au;
  remove_auction_next id au : next_id (remove_auction id au) = next_id au;
  remove_auction_bid id au j : j <> id -> auction_bid j (remove_auction id au) = auction_bid j au;
  store_bid_next id b e au : next_id (store_bid id b e au) = next_id au;
  store_bid_bid id b e au j : auction_bid j (store_bid id b e au) = if decide (j = id) then Some b else auction_bid j au
}.

(** More of the currencies: what is deposited arrives; what is withdrawn or transferred is
    taken from the payer and no more, except that a payer left with less than the existential
    deposit may lose the rest, which is below [dust_of], unless it is exempt; and paying
    oneself is free. *)
Class MultiCurrencyAmounts (L X A : Type) `{MultiCurrencyLaws L X A} : Type := {
  dust_of : CurrencyId -> A -> Z;
  dust_nonneg c a : 0 <= dust_of c a;
  dust_exempt c a : keeps_dust a = true -> dust_of c a = 0;
  mc_deposit_receiver c who v l l' :
    mc_deposit c who v l = (Ok tt, l') -> 0 <= v -> mc_free_balance c who l + v <= mc_free_balance c who l';
  mc_withdraw_payer c who v l l' :
    mc_withdraw c who v l = (Ok tt, l') -> 0 <= v -> mc_free_balance c who l - v - dust_of c who <= mc_free_balance c who l';
  mc_transfer_payer c who to v l l' :
    mc_transfer c who to v l = (Ok tt, l') -> 0 <= v -> mc_free_balance c who l - v - dust_of c who <= mc_free_balance c who l';
  mc_transfer_self c who v l l' :
    mc_transfer c who who v l = (Ok tt, l') -> mc_free_balance c who l <= mc_free_balance c who l'
}.

(** ** Lots *)

Inductive Kind : Type := Diamond | Setter | Serplus.

#[export] Instance kind_eq_dec : EqDecision Kind.
Proof. solve_decision. Defined.

(** What is paid is fixed, or, for a serplus auction, the price that was bid. *)
Record Lot : Type := MkLot {
  kind : Kind;
  pay_in : CurrencyId;
  pay_fix : option Z;
  sold_in : CurrencyId;
  sold : Z;
  initially : Z
}.

Definition with_sold (v : Z) (l : Lot) : Lot := MkLot (kind l) (pay_in l) (pay_fix l) (sold_in l) v (initially l).

(** What the winner pays. *)
Definition payment (l : Lot) (price : Z) : Z := default price (pay_fix l).

(** How many payments a bid makes, when it refunds the last bidder. *)
Definition payments (l : Lot) : Z := match kind l with Serplus => 2 | _ => 1 end.

(** What the totals count, and in which currency. *)
Definition counted (l : Lot) : Z := default (sold l) (pay_fix l).
Definition count_in (l : Lot) : CurrencyId := match kind l with Serplus => sold_in l | _ => pay_in l end.

Section Lots.
Context {L AU X A P : Type} `{Countable A} `{!MultiCurrency L X A} `{!FrameSystem L A} `{!Perthing P} `{!Auctions AU X A} `{F : FixedPoint}.
Variable treasury : TreasuryConfig A P.
Variable cfg : Config.

Abbreviation St := (@State L AU A).
Abbreviation native := (GetNativeCurrencyId cfg).
Abbreviation setter := (GetSetterCurrencyId treasury).

Definition diamond_lot (i : DiamondAuctionItem) : Lot := MkLot Diamond setter (Some (d_fix i)) native (d_amount i) (d_initial_amount i).
Definition setter_lot (i : SetterAuctionItem) : Lot := MkLot Setter (s_currency i) (Some (s_fix i)) setter (s_amount i) (s_initial_amount i).
Definition serplus_lot (i : SerplusAuctionItem) : Lot := MkLot Serplus native None (p_currency i) (p_amount i) (p_amount i).

Definition lots (s : St) : gmap Z Lot :=
  ((diamond_lot <$> diamond_auctions s) ∪ (setter_lot <$> setter_auctions s)) ∪ (serplus_lot <$> serplus_auctions s).

(** An id is of one kind. *)
Definition apart (s : St) : Prop :=
  forall id, (is_Some (diamond_auctions s !! id) -> setter_auctions s !! id = None /\ serplus_auctions s !! id = None)
          /\ (is_Some (setter_auctions s !! id) -> serplus_auctions s !! id = None).

Lemma lots_lookup (s : St) id :
  lots s !! id = match diamond_auctions s !! id, setter_auctions s !! id, serplus_auctions s !! id with
    | Some i, _, _ => Some (diamond_lot i)
    | None, Some i, _ => Some (setter_lot i)
    | None, None, i => serplus_lot <$> i
    end.
Proof.
  unfold lots. rewrite !lookup_union, !lookup_fmap.
  by destruct (diamond_auctions s !! id), (setter_auctions s !! id), (serplus_auctions s !! id).
Qed.

Lemma lots_insert_diamond (s : St) id i : lots (set_diamonds <[id := i]> s) = <[id := diamond_lot i]> (lots s).
Proof. unfold lots. simpl. by rewrite fmap_insert, !insert_union_l. Qed.

Lemma lots_insert_setter (s : St) id i :
  diamond_auctions s !! id = None -> lots (set_setters <[id := i]> s) = <[id := setter_lot i]> (lots s).
Proof.
  intros Hd. unfold lots. simpl. rewrite fmap_insert, insert_union_l. f_equal.
  symmetry. apply insert_union_r. by rewrite lookup_fmap, Hd.
Qed.

Lemma lots_insert_serplus (s : St) id i :
  diamond_auctions s !! id = None -> setter_auctions s !! id = None ->
  lots (set_serpluses <[id := i]> s) = <[id := serplus_lot i]> (lots s).
Proof.
  intros Hd Hs. unfold lots. simpl. rewrite fmap_insert. symmetry. apply insert_union_r.
  by rewrite lookup_union, !lookup_fmap, Hd, Hs.
Qed.

Lemma delete_absent {V : Type} (f : V -> Lot) (m : gmap Z V) id : m !! id = None -> delete id (f <$> m) = f <$> m.
Proof. intros Hm. apply delete_id. by rewrite lookup_fmap, Hm. Qed.

Lemma lots_delete_diamond (s : St) id :
  setter_auctions s !! id = None -> serplus_auctions s !! id = None -> lots (set_diamonds (delete id) s) = delete id (lots s).
Proof.
  intros Hs Hp. unfold lots. simpl. by rewrite fmap_delete, !delete_union, (delete_absent setter_lot), (delete_absent serplus_lot) by done.
Qed.

Lemma lots_delete_setter (s : St) id :
  diamond_auctions s !! id = None -> serplus_auctions s !! id = None -> lots (set_setters (delete id) s) = delete id (lots s).
Proof.
  intros Hd Hp. unfold lots. simpl. by rewrite fmap_delete, !delete_union, (delete_absent diamond_lot), (delete_absent serplus_lot) by done.
Qed.

Lemma lots_delete_serplus (s : St) id :
  diamond_auctions s !! id = None -> setter_auctions s !! id = None -> lots (set_serpluses (delete id) s) = delete id (lots s).
Proof.
  intros Hd Hs. unfold lots. simpl. by rewrite fmap_delete, !delete_union, (delete_absent diamond_lot), (delete_absent setter_lot) by done.
Qed.

(** What the pallet records of a kind and a currency. *)
Definition total_of (s : St) (k : Kind) (c : CurrencyId) : Z :=
  match k with
  | Diamond => total_setter_in_auction s
  | Setter => total_settcurrency_in_auction s c
  | Serplus => total_serplus_in_auction s c
  end.

(** The setter is the one currency of diamond auctions. *)
Definition counts (k : Kind) (c : CurrencyId) : Prop := k = Diamond -> c = setter.

(** ** Payments *)

Context `{!MultiCurrencyLaws L X A} `{!MultiCurrencyAmounts L X A}.

(** [who] pays [v] in [n] payments, each of which may cost the dust that is left, and the last
    bidder is refunded; nobody else has less. *)
Definition settles (c : CurrencyId) (who : A) (v n : Z) (last : option (A * Z)) (l l' : L) : Prop :=
  forall c' a,
    mc_free_balance c' a l
      + (match last with Some (b, w) => if decide (a = b /\ c' = c) then w else 0 | None => 0 end)
      - (if decide (a = who /\ c' = c) then v + n * dust_of c a else 0) <= mc_free_balance c' a l'.

Lemma transfer_settles c who b v l l' :
  mc_transfer c who b v l = (Ok tt, l') -> 0 <= v -> settles c who v 1 (Some (b, v)) l l'.
Proof.
  intros Hrun Hv c' a. pose proof (dust_nonneg c a) as Hd. destruct (decide (c' = c)) as [->|Hc].
  2:{ rewrite (mc_transfer_other_currency _ _ _ _ _ _ _ a Hrun Hc). rewrite !decide_False by tauto. lia. }
  destruct (decide (a = b)) as [->|Hb]; [destruct (decide (b = who)) as [->|Hw]|destruct (decide (a = who)) as [->|Hw]].
  - rewrite !decide_True by done. pose proof (mc_transfer_self _ _ _ _ _ Hrun). lia.
  - rewrite decide_True, decide_False by tauto. pose proof (mc_transfer_receiver _ _ _ _ _ _ Hrun ltac:(congruence)). lia.
  - rewrite decide_False, decide_True by tauto. pose proof (mc_transfer_payer _ _ _ _ _ _ Hrun Hv). lia.
  - rewrite !decide_False by tauto. pose proof (mc_transfer_bystander _ _ _ _ _ _ a Hrun Hw). lia.
Qed.

Lemma settles_anew c who v n b w l l' : settles c who v n (Some (b, w)) l l' -> 0 <= w -> settles c who v n None l l'.
Proof. intros Hs Hw c' a. specialize (Hs c' a). repeat case_decide; lia. Qed.

Lemma settles_more c who v n n' last l l' : settles c who v n last l l' -> n <= n' -> settles c who v n' last l l'.
Proof.
  intros Hs Hn c' a. specialize (Hs c' a). pose proof (dust_nonneg c a). destruct last as [[b w]|]; repeat case_decide; nia.
Qed.

Lemma withdraw_settles c who v l l' : mc_withdraw c who v l = (Ok tt, l') -> 0 <= v -> settles c who v 1 None l l'.
Proof.
  intros Hrun Hv c' a. destruct (decide (a = who /\ c' = c)) as [[-> ->]|Hn].
  - pose proof (mc_withdraw_payer _ _ _ _ _ Hrun Hv). lia.
  - assert (c' <> c \/ a <> who) as Ho by (destruct (decide (c' = c)), (decide (a = who)); tauto).
    pose proof (mc_withdraw_other _ _ _ _ _ c' a Hrun Ho). lia.
Qed.

Lemma settles_both c who v n w m last l l' l'' :
  settles c who v n last l l' -> settles c who w m None l' l'' -> settles c who (v + w) (n + m) last l l''.
Proof.
  intros H1 H2 c' a. specialize (H1 c' a). specialize (H2 c' a). destruct last as [[b x]|]; repeat case_decide; lia.
Qed.

Lemma settles_same c who v n last l l' l'' :
  settles c who v n last l l' -> (forall c a, mc_free_balance c a l'' = mc_free_balance c a l') -> settles c who v n last l l''.
Proof. intros Hs Hl c' a. rewrite Hl. by apply Hs. Qed.
End Lots.
