(* ===== verification/SerpAuctionSteps.v ===== *)
(** * What the operations of the SERP auctions do

    Each bid, end, cancellation and new auction as a change of lots, bids, totals and what
    accounts hold; the calls of the auction pallet are here as it makes them
    ([place_bid], [end_auction]). *)

From S2P Require Import Prelude Currency Externals Staking SerpTreasury SerpAuction SerpAuctionLots.

Section Steps.
Context {L AU X A P : Type} `{Countable A} `{!MultiCurrency L X A} `{!FrameSystem L A} `{!Perthing P} `{!Auctions AU X A} `{F : FixedPoint}.
Context `{!MultiCurrencyLaws L X A} `{!MultiCurrencyAmounts L X A} `{!AuctionsLaws AU X A} `{!FixedPointLaws F}.
Variable treasury : TreasuryConfig A P.
Variable cfg : Config.

Abbreviation St := (@State L AU A).
Abbreviation Run := (M St (AuctionError + X)).
Abbreviation lots := (lots treasury cfg).
Abbreviation native := (GetNativeCurrencyId cfg).
Abbreviation setter := (GetSetterCurrencyId treasury).

(** ** Bids *)

(** What an accepted bid does: the lot may be cut, the bidder pays and the last one is
    refunded. *)
Record bid_taken (id : Z) (who : A) (price : Z) (last : option (A * Z)) (lot : Lot) (v : Z) (s s' : St) : Prop := {
  taken_lot : lots s !! id = Some lot;
  taken_lots : lots s' = <[id := with_sold v lot]> (lots s);
  taken_totals k c : total_of s' k c = total_of s k c;
  taken_auctions : auctions s' = auctions s;
  taken_apart : apart s';
  taken_price : price_of last <= price;
  taken_cut f : pay_fix lot = Some f -> f <= price /\ v = amount_for_sale (sold lot) f (price_of last) price;
  taken_whole : pay_fix lot = None -> v = sold lot;
  taken_paid : settles (pay_in lot) who (payment lot price) (payments lot) ((fun b => (b.1, payment lot b.2)) <$> last) (chain s) (chain s')
}.

Lemma increment_up new last target size : check_minimum_increment new last target size = true -> last <= new.
Proof.
  unfold check_minimum_increment. destruct (fp_checked_mul_int _ _); [|done]. destruct (checked_sub new last) eqn:E; [|done].
  by apply checked_sub_Some in E as [_ ?].
Qed.

Lemma swap_bidders_run new last (s : St) u s' :
  swap_bidders (X := X) new last s = (Ok u, s') ->
  exists l, s' = set_chain l s /\ forall c a, mc_free_balance c a l = mc_free_balance c a (chain s).
Proof.
  unfold swap_bidders. intros Hrun.
  assert (forall c a, mc_free_balance c a (default (chain s) (inc_consumers new (chain s))) = mc_free_balance c a (chain s)) as Hinc.
  { intros c a. destruct (inc_consumers new (chain s)) as [l|] eqn:E; [|done]. by apply (inc_consumers_free new). }
  destruct last as [who|]; run_inv Hrun; (eexists; split; [reflexivity|]); intros c a; simpl; rewrite ?dec_consumers_free; apply Hinc.
Qed.

(** The fixed payment, to the last bidder or to the treasury. *)
Lemma fixed_payment_run c who v to (last : option (A * Z)) (s : St) u s' :
  match fst <$> last with
  | Some b => on_chain (mc_transfer c who b v)
  | None => on_chain (mc_transfer c who to v)
  end s = (@Ok (AuctionError + X) _ u, s') -> 0 <= v ->
  exists l, s' = set_chain l s /\ settles c who v 1 ((fun b => (b.1, v)) <$> last) (chain s) l.
Proof.
  intros Hrun Hv. destruct last as [[b w]|], u; simpl in Hrun; unfold on_chain in Hrun; run_inv Hrun; (eexists; split; [reflexivity|]);
    match goal with Hm : mc_transfer _ _ _ _ _ = _ |- _ => apply transfer_settles in Hm; [|done] end; [done|].
  by eapply settles_anew.
Qed.

Lemma apart_insert_diamond (s : St) id i : is_Some (diamond_auctions s !! id) -> apart s -> apart (set_diamonds <[id := i]> s).
Proof.
  intros Hid Hs j. destruct (Hs j) as [Hd Hset]. simpl. split; [|done]. destruct (decide (j = id)) as [->|Hne]; [by intros _; apply Hd|].
  by rewrite lookup_insert_ne.
Qed.

Lemma apart_insert_setter (s : St) id i : is_Some (setter_auctions s !! id) -> apart s -> apart (set_setters <[id := i]> s).
Proof.
  intros Hid Hs j. destruct (Hs j) as [Hd Hset]. simpl. destruct (decide (j = id)) as [->|Hne]; [|by rewrite lookup_insert_ne].
  split; [|by intros _; apply Hset]. intros Hj. destruct (Hd Hj) as [Hno _]. rewrite Hno in Hid. by destruct Hid.
Qed.

Lemma apart_diamond (s : St) id i : apart s -> diamond_auctions s !! id = Some i -> setter_auctions s !! id = None /\ serplus_auctions s !! id = None.
Proof. intros Hs Hi. apply (Hs id). by eexists. Qed.

Lemma apart_setter (s : St) id i : apart s -> setter_auctions s !! id = Some i -> diamond_auctions s !! id = None /\ serplus_auctions s !! id = None.
Proof.
  intros Hs Hi. split; [|apply (Hs id); by eexists]. destruct (diamond_auctions s !! id) eqn:E; [|done].
  apply apart_diamond in E as [E _]; [congruence|done].
Qed.

Lemma apart_serplus (s : St) id i : apart s -> serplus_auctions s !! id = Some i -> diamond_auctions s !! id = None /\ setter_auctions s !! id = None.
Proof.
  intros Hs Hi. split.
  - destruct (diamond_auctions s !! id) eqn:E; [|done]. apply apart_diamond in E as [_ E]; [congruence|done].
  - destruct (setter_auctions s !! id) eqn:E; [|done]. apply apart_setter in E as [_ E]; [congruence|done].
Qed.

Lemma diamond_bid_taken now id who price last (s : St) t s' :
  apart s -> (forall i, diamond_auctions s !! id = Some i -> 0 <= d_fix i) ->
  diamond_auction_bid_handler treasury cfg now id (who, price) last s = (Ok t, s') ->
  exists lot v, bid_taken id who price last lot v s s'.
Proof.
  intros Hs Hfix Hrun. unfold diamond_auction_bid_handler in Hrun. run_inv Hrun. bool_inv.
  apply fixed_payment_run in R as (l & -> & Hpaid); [|by apply Hfix]. apply swap_bidders_run in R2 as (l' & -> & Hfree).
  exists (diamond_lot treasury cfg x), (amount_for_sale (d_amount x) (d_fix x) (price_of last) price). split; try done.
  - by rewrite lots_lookup, R0.
  - by rewrite lots_insert_diamond.
  - by apply apart_insert_diamond; [eexists|].
  - by eapply increment_up.
  - by intros f [= <-].
  - eapply settles_same; [exact Hpaid|exact Hfree].
Qed.

Lemma setter_bid_taken now id who price last (s : St) t s' :
  apart s -> (forall i, setter_auctions s !! id = Some i -> 0 <= s_fix i) ->
  setter_auction_bid_handler treasury cfg now id (who, price) last s = (Ok t, s') ->
  exists lot v, bid_taken id who price last lot v s s'.
Proof.
  intros Hs Hfix Hrun. unfold setter_auction_bid_handler in Hrun. run_inv Hrun. bool_inv.
  match goal with Hm : match fst <$> last with _ => _ end _ = _ |- _ => apply fixed_payment_run in Hm as (l & -> & Hpaid); [|by apply Hfix] end.
  match goal with Hm : swap_bidders _ _ _ = _ |- _ => apply swap_bidders_run in Hm as (l' & -> & Hfree) end.
  destruct (apart_setter s id x Hs R0) as [Hd Hp].
  exists (setter_lot treasury x), (amount_for_sale (s_amount x) (s_fix x) (price_of last) price). split; try done.
  - by rewrite lots_lookup, R0, Hd.
  - by rewrite lots_insert_setter.
  - by apply apart_insert_setter; [eexists|].
  - by eapply increment_up.
  - by intros f [= <-].
  - eapply settles_same; [exact Hpaid|exact Hfree].
Qed.

Lemma serplus_bid_taken now id who price last (s : St) t s' :
  apart s -> 0 <= price_of last ->
  serplus_auction_bid_handler cfg now id (who, price) last s = (Ok t, s') ->
  exists lot v, bid_taken id who price last lot v s s'.
Proof.
  intros Hs Hlast Hrun. unfold serplus_auction_bid_handler in Hrun. run_inv Hrun. bool_inv.
  apply increment_up in R2 as Hup.
  assert (exists l, x5 = set_chain l s /\ settles native who price 2 ((fun b => (b.1, b.2)) <$> last) (chain s) l) as (l & -> & Hpaid).
  { destruct last as [[b w]|]; simpl in R, Hup, Hlast; unfold on_chain in *; run_inv R; run_inv R3; (eexists; split; [reflexivity|]); simpl;
      match goal with Hm : mc_withdraw _ _ _ _ = (Ok ?u, _) |- _ => destruct u; apply withdraw_settles in Hm; [|unfold sat_sub; lia] end.
    - replace price with (w + sat_sub price w) by (rewrite sat_sub_exact; lia). eapply (settles_both _ _ _ 1 _ 1); [|eassumption].
      match goal with Hm : mc_transfer _ _ _ _ _ = (Ok ?u, _) |- _ => destruct u; by apply transfer_settles in Hm end.
    - eapply settles_more; [eassumption|lia]. }
  apply swap_bidders_run in R4 as (l'' & -> & Hfree).
  destruct (apart_serplus s id x0 Hs R1) as [Hd Hset].
  exists (serplus_lot cfg x0), (p_amount x0). split; try done.
  - by rewrite lots_lookup, R1, Hd, Hset.
  - transitivity (lots s); [done|]. symmetry. apply insert_id. by rewrite lots_lookup, R1, Hd, Hset.
  - eapply settles_same; [exact Hpaid|exact Hfree].
Qed.

(** The auction pallet asks the handler with the last bid it stored, and stores the new one
    if it is accepted. *)
Definition place_bid (now id : Z) (who : A) (price : Z) : Run unit :=
  let! s := get in
  let! r := on_new_bid treasury cfg now id (who, price) (auction_bid id (auctions s)) in
  match r with
  | Some t => modify (fun s => set_auctions (store_bid id (who, price) (Some t) (auctions s)) s)
  | None => ret tt
  end.

(** A bid that is rejected leaves no trace. *)
Lemma on_new_bid_rejected now id b last (s s' : St) :
  on_new_bid (X := X) treasury cfg now id b last s = (Ok None, s') -> s' = s.
Proof.
  unfold on_new_bid. intros Hrun. unfold bind, get in Hrun. unfold try_run in Hrun.
  repeat case_bool_decide; unfold diamond_auction_bid_handler, setter_auction_bid_handler, serplus_auction_bid_handler in Hrun;
    try (match goal with Hm : context [transactional ?m ?st] |- _ =>
           destruct (transactional m st) as [[]] eqn:E; simplify_eq; eapply transactional_rollback; [exact E|done] end).
  by injection Hrun.
Qed.

(** Fixed payments and prices are amounts. *)
Definition pays_well (s : St) : Prop :=
  (forall id lot f, lots s !! id = Some lot -> pay_fix lot = Some f -> 0 <= f)
  /\ forall id lot b p, lots s !! id = Some lot -> auction_bid id (auctions s) = Some (b, p) -> 0 <= p.

Lemma on_new_bid_taken now id who price last (s s' : St) t :
  apart s -> pays_well s -> (forall lot, lots s !! id = Some lot -> 0 <= price_of last) ->
  on_new_bid (X := X) treasury cfg now id (who, price) last s = (Ok (Some t), s') ->
  exists lot v, bid_taken id who price last lot v s s'.
Proof.
  intros Hs [Hfix _] Hlast Hrun. unfold on_new_bid in Hrun. unfold bind, get in Hrun. apply try_run_ok in Hrun. simpl in Hrun.
  repeat case_bool_decide.
  - eapply diamond_bid_taken; [done| |exact Hrun]. intros i Hi. apply (Hfix id (diamond_lot treasury cfg i)); [by rewrite lots_lookup, Hi|done].
  - eapply setter_bid_taken; [done| |exact Hrun]. intros i Hi. apply (Hfix id (setter_lot treasury i)); [|done].
    destruct (apart_setter s id i Hs Hi) as [Hd Hp]. by rewrite lots_lookup, Hi, Hd.
  - eapply serplus_bid_taken; [done| |exact Hrun].
    match goal with Hx : is_Some (serplus_auctions _ !! _) |- _ => destruct Hx as [i Hi] end. destruct (apart_serplus s id i Hs Hi) as [Hd Hp].
    apply (Hlast (serplus_lot cfg i)). by rewrite lots_lookup, Hi, Hd, Hp.
  - by injection Hrun.
Qed.

(** ** Opening and removing *)

Lemma lots_none (s : St) id :
  lots s !! id = None <-> diamond_auctions s !! id = None /\ setter_auctions s !! id = None /\ serplus_auctions s !! id = None.
Proof.
  rewrite lots_lookup. destruct (diamond_auctions s !! id), (setter_auctions s !! id), (serplus_auctions s !! id); simpl; naive_solver.
Qed.

(** What the totals of a kind and a currency count of a lot. *)
Definition share (k : Kind) (c : CurrencyId) (lot : Lot) : Z :=
  if decide (kind lot = k /\ count_in lot = c) then counted lot else 0.

Record opened (id : Z) (lot : Lot) (s s' : St) : Prop := {
  opened_lots : lots s' = <[id := lot]> (lots s);
  opened_next : next_id (auctions s) <= id < next_id (auctions s');
  opened_bid : auction_bid id (auctions s') = None;
  opened_others j : j <> id -> auction_bid j (auctions s') = auction_bid j (auctions s);
  opened_chain : chain s' = chain s;
  opened_apart : apart s';
  opened_totals k c : counts treasury k c -> total_of s' k c = total_of s k c + share k c lot;
  opened_whole : sold lot = initially lot /\ in_uint 128 (sold lot) /\ forall f, pay_fix lot = Some f -> 0 <= f
}.

(** Ids that were not given are free. *)
Definition known_ids (s : St) : Prop := forall id, next_id (auctions s) <= id -> lots s !! id = None.

Ltac totals k c Hkc :=
  destruct k; simpl; unfold share, count_in, counted, total_settcurrency_in_auction, total_serplus_in_auction; simpl;
  [try rewrite (Hkc eq_refl)|..]; repeat case_decide; destruct_and?; subst;
  rewrite ?lookup_insert_eq; try (rewrite lookup_insert_ne by naive_solver); simpl; first [done | lia | exfalso; naive_solver].

Lemma apart_insert_new (s : St) id :
  lots s !! id = None -> apart s ->
  (forall i, apart (set_diamonds <[id := i]> s)) /\ (forall i, apart (set_setters <[id := i]> s)) /\ (forall i, apart (set_serpluses <[id := i]> s)).
Proof.
  intros (Hd & Hset & Hp)%lots_none Hs.
  split_and!; intros i j; specialize (Hs j); simpl; (destruct (decide (j = id)) as [->|Hne]; [rewrite ?lookup_insert_eq, ?Hd, ?Hset, ?Hp|by rewrite !lookup_insert_ne]);
    (split; [|done || by intros [? [=]]]); try done; by intros [? [=]].
Qed.

Tactic Notation "open_facts" ident(id) :=
  match goal with Hn : new_auction _ _ _ = (Ok ?i, _), Ht : checked_add _ _ _ = _, Hids : known_ids ?s |- _ =>
    rename i into id; apply new_auction_ok in Hn as (Hnext & Hbid & Hothers); apply checked_add_Some in Ht as [-> _];
    assert (lots s !! id = None) as Hfree by (apply Hids; lia) end.

Lemma open_diamond_run initial_amount fix_ (s : St) u s' :
  apart s -> known_ids s -> in_uint 128 initial_amount -> 0 <= fix_ ->
  open_diamond_auction (X := X) cfg initial_amount fix_ s = (Ok u, s') -> exists id lot, opened id lot s s'.
Proof.
  intros Hs Hids Ha Hf Hrun. unfold open_diamond_auction, on_auctions in Hrun. run_inv Hrun. bool_inv.
  open_facts id.
  exists id, (MkLot Diamond setter (Some fix_) native initial_amount initial_amount). split; simpl; try done.
  - by apply (lots_insert_diamond treasury cfg s).
  - by apply (apart_insert_new s id).
  - intros k c Hkc. totals k c Hkc.
  - split_and!; [done..|]. by intros f [= <-].
Qed.

Lemma contains_in c l : contains c l = true -> c ∈ l.
Proof. unfold contains, currency_eqb. intros (c' & Hin & Heq)%existsb_exists. apply bool_decide_eq_true in Heq as <-. by apply list_elem_of_In. Qed.

Lemma open_setter_run initial_amount fix_ c0 (s : St) u s' :
  apart s -> known_ids s -> in_uint 128 initial_amount -> 0 <= fix_ ->
  open_setter_auction (X := X) treasury cfg initial_amount fix_ c0 s = (Ok u, s') -> exists id lot, opened id lot s s'.
Proof.
  intros Hs Hids Ha Hf Hrun. unfold open_setter_auction, on_auctions in Hrun. run_inv Hrun. bool_inv.
  case_match; [|by run_inv Hrun]. run_inv Hrun. open_facts id. apply lots_none in Hfree as Hnone. destruct Hnone as (Hd & _ & _).
  exists id, (MkLot Setter c0 (Some fix_) setter initial_amount initial_amount). split; simpl; try done.
  - by apply (lots_insert_setter treasury cfg s).
  - by apply (apart_insert_new s id).
  - intros k c Hkc. totals k c Hkc.
  - split_and!; [done..|]. by intros f [= <-].
Qed.

Lemma open_serplus_run amount c0 (s : St) u s' :
  apart s -> known_ids s -> in_uint 128 amount ->
  open_serplus_auction (X := X) treasury amount c0 s = (Ok u, s') -> exists id lot, opened id lot s s'.
Proof.
  intros Hs Hids Ha Hrun. unfold open_serplus_auction, on_auctions in Hrun. run_inv Hrun. bool_inv.
  open_facts id. apply lots_none in Hfree as Hnone. destruct Hnone as (Hd & Hset & _).
  exists id, (MkLot Serplus native None c0 amount amount). split; simpl; try done.
  - by apply (lots_insert_serplus treasury cfg s).
  - by apply (apart_insert_new s id).
  - intros k c Hkc. totals k c Hkc.
Qed.

Record removed (id : Z) (lot : Lot) (s s' : St) : Prop := {
  removed_lot : lots s !! id = Some lot;
  removed_lots : lots s' = delete id (lots s);
  removed_apart : apart s';
  removed_totals k c : counts treasury k c ->
    total_of s' k c = if decide (kind lot = k /\ count_in lot = c) then sat_sub (total_of s k c) (counted lot) else total_of s k c
}.

(** What the last bidder is owed. *)
Definition owed (lot : Lot) (bid : option (A * Z)) (c : CurrencyId) (a : A) : Z :=
  match bid with Some (b, p) => if decide (a = b /\ c = pay_in lot) then payment lot p else 0 | None => 0 end.

Lemma set_chain_id (s : St) : set_chain (chain s) s = s.
Proof. by destruct s. Qed.

(** Issuing is depositing. *)
Lemma issue_is_deposit c b v (s : St) :
  on_chain (do! mc_deposit c b v in ret tt) s = (on_chain (mc_deposit c b v) : Run unit) s.
Proof. unfold on_chain, zoom, bind. by destruct (mc_deposit c b v (chain s)) as [[[]|e|] l]. Qed.

Lemma apart_delete (s : St) id :
  apart s -> apart (set_diamonds (delete id) s) /\ apart (set_setters (delete id) s) /\ apart (set_serpluses (delete id) s).
Proof.
  intros Hs. split_and!; intros j; destruct (Hs j) as [Hd Hset]; simpl; destruct (decide (j = id)) as [->|Hne];
    rewrite ?lookup_delete_eq, ?lookup_delete_ne by done; split; try done; try (by intros [? [=]]); naive_solver.
Qed.

(** The refund of a cancelled auction. *)
Lemma refund_run c (pay : Z -> Z) (m : A -> Z -> M L X unit) (bid : option (A * Z)) (s : St) u s' :
  (forall b v (s : St), on_chain (m b v) s = (on_chain (mc_deposit c b v) : Run unit) s) ->
  (forall p, 0 <= p -> 0 <= pay p) -> (forall b p, bid = Some (b, p) -> 0 <= p) ->
  match bid with
  | Some (bidder, p) =>
      do! on_chain (m bidder (pay p)) in
      modify (fun s => set_chain (dec_consumers bidder (chain s)) s)
  | None => ret tt
  end s = (@Ok (AuctionError + X) _ u, s') ->
  exists l, s' = set_chain l s /\ forall c' a, mc_free_balance c' a (chain s)
    + (match bid with Some (b, p) => if decide (a = b /\ c' = c) then pay p else 0 | None => 0 end) <= mc_free_balance c' a l.
Proof.
  intros Hm Hpay Hbid Hrun. destruct bid as [[b p]|]; [|run_inv Hrun; exists (chain s); rewrite set_chain_id; split; [done|]; intros; lia].
  specialize (Hpay p (Hbid b p eq_refl)). apply bind_ok in Hrun as ([] & s1 & Hdep & Hrun). rewrite Hm in Hdep. unfold on_chain in Hdep.
  run_inv Hdep. run_inv Hrun. eexists. split; [reflexivity|]. intros c' a. simpl. rewrite dec_consumers_free.
  match goal with Hd : mc_deposit _ _ _ _ = (Ok ?u, _) |- _ => destruct u; pose proof (mc_deposit_free _ _ _ _ _ c' a Hd Hpay); pose proof (mc_deposit_receiver _ _ _ _ _ Hd Hpay) end.
  case_decide as Hc; [destruct Hc as [-> ->]; lia|lia].
Qed.

Lemma apart_chain (s : St) l : apart s -> apart (set_chain l s).
Proof. done. Qed.

Lemma cancel_ok id (s : St) u s' :
  apart s -> pays_well s -> cancel (X := X) treasury cfg id s = (Ok u, s') ->
  exists lot, removed id lot s s' /\ auctions s' = remove_auction id (auctions s)
    /\ forall c a, mc_free_balance c a (chain s) + owed lot (auction_bid id (auctions s)) c a <= mc_free_balance c a (chain s').
Proof.
  intros Hs [Hfix Hprice] Hrun. destruct (apart_delete s id Hs) as (Ad & As & Ap). unfold cancel in Hrun. run_inv Hrun.
  destruct (setter_auctions s !! id) as [i|] eqn:Ei; [|destruct (diamond_auctions s !! id) as [i|] eqn:Ed; [|destruct (serplus_auctions s !! id) as [i|] eqn:Ep; [|by run_inv R]]].
  - destruct (apart_setter s id i Hs Ei) as [Hd Hp]. assert (lots s !! id = Some (setter_lot treasury i)) as Hlot by (by rewrite lots_lookup, Hd, Ei).
    exists (setter_lot treasury i). unfold cancel_setter_auction, get_last_bid in R. run_inv R.
    apply (refund_run (s_currency i) (fun _ => s_fix i) (fun b v => issue_propper (s_currency i) b v)) in R0 as (l & -> & Hpaid);
      [|by intros; apply issue_is_deposit|intros; by apply (Hfix _ _ _ Hlot)|intros b p; by apply (Hprice _ _ b p Hlot)].
    split; [|split; [done|exact Hpaid]]. split; [done|by apply (lots_delete_setter treasury cfg s)|done|intros k c Hkc; totals k c Hkc].
  - destruct (apart_diamond s id i Hs Ed) as [_ Hp]. assert (lots s !! id = Some (diamond_lot treasury cfg i)) as Hlot by (by rewrite lots_lookup, Ed).
    exists (diamond_lot treasury cfg i). unfold cancel_diamond_auction, get_last_bid in R. run_inv R.
    apply (refund_run setter (fun _ => d_fix i) (fun b v => issue_setter treasury b v)) in R0 as (l & -> & Hpaid);
      [|by intros; apply issue_is_deposit|intros; by apply (Hfix _ _ _ Hlot)|intros b p; by apply (Hprice _ _ b p Hlot)].
    split; [|split; [done|exact Hpaid]]. split; [done|by apply (lots_delete_diamond treasury cfg s)|done|intros k c Hkc; totals k c Hkc].
  - assert (lots s !! id = Some (serplus_lot cfg i)) as Hlot by (by rewrite lots_lookup, Ed, Ei, Ep).
    exists (serplus_lot cfg i). unfold cancel_serplus_auction, get_last_bid in R. run_inv R.
    apply (refund_run native (fun p => p) (fun b v => mc_deposit native b v)) in R0 as (l & -> & Hpaid);
      [|done|done|intros b p; by apply (Hprice _ _ b p Hlot)].
    split; [|split; [done|exact Hpaid]]. split; [done|by apply (lots_delete_serplus treasury cfg s)|done|intros k c Hkc; totals k c Hkc].
Qed.

Lemma bind_err {S E B C : Type} (m : M S E B) (k : B -> M S E C) s e s' :
  bind m k s = (Err e, s') -> m s = (Err e, s') \/ exists b s1, m s = (Ok b, s1) /\ k b s1 = (Err e, s').
Proof. unfold bind. destruct (m s) as [[b|e'|] s1]; intros Hrun; simplify_eq; eauto. Qed.

(** A refund fails only where the deposit does, and then leaves the chain. *)
Lemma refund_failed c (pay : Z -> Z) (m : A -> Z -> M L X unit) (bid : option (A * Z)) (k : Run unit) (s : St) e s' :
  (forall b v (s : St), on_chain (m b v) s = (on_chain (mc_deposit c b v) : Run unit) s) ->
  (forall (s : St) e s', k s <> (Err e, s')) ->
  (do! match bid with
       | Some (bidder, p) =>
           do! on_chain (m bidder (pay p)) in
           modify (fun s => set_chain (dec_consumers bidder (chain s)) s)
       | None => ret tt
       end in k) s = (Err e, s') -> s' = s.
Proof.
  intros Hm Hk [Hrun|(b & s1 & _ & Hrun)]%bind_err; [|by apply Hk in Hrun].
  destruct bid as [[b p]|]; [|done]. apply bind_err in Hrun as [Hrun|(? & s1 & _ & Hrun)]; [|done].
  rewrite Hm in Hrun. unfold on_chain, zoom in Hrun. destruct (mc_deposit c b (pay p) (chain s)) as [[?|x|] l] eqn:E; simplify_eq.
  apply mc_failed_deposit in E as ->. apply set_chain_id.
Qed.

(** A cancellation that fails has done nothing, or lost the lot to the totals. *)
Lemma cancel_failed id (s : St) e s' :
  apart s -> cancel (X := X) treasury cfg id s = (Err e, s') ->
  s' = s \/ apart s' /\ lots s' = delete id (lots s) /\ auctions s' = auctions s /\ chain s' = chain s /\ forall k c, total_of s' k c = total_of s k c.
Proof.
  intros Hs Hrun. destruct (apart_delete s id Hs) as (Ad & As & Ap). unfold cancel in Hrun.
  apply bind_err in Hrun as [[=]|(? & ? & [= <- <-] & Hrun)]. apply bind_err in Hrun as [Hrun|(? & ? & _ & [=])].
  destruct (setter_auctions s !! id) as [i|] eqn:Ei; [|destruct (diamond_auctions s !! id) as [i|] eqn:Ed; [|destruct (serplus_auctions s !! id) as [i|] eqn:Ep; [|left; by injection Hrun]]];
    right; (apply bind_err in Hrun as [[=]|(? & s1 & [= <- <-] & Hrun)]); unfold cancel_setter_auction, cancel_diamond_auction, cancel_serplus_auction, get_last_bid in Hrun;
    (apply bind_err in Hrun as [[=]|(b & s1 & [= <- <-] & Hrun)]).
  - apply (refund_failed (s_currency i) (fun _ => s_fix i) (fun b v => issue_propper (s_currency i) b v)) in Hrun as ->; [|by intros; apply issue_is_deposit|done].
    destruct (apart_setter s id i Hs Ei) as [Hd Hp]. split; [done|]. split; [by apply (lots_delete_setter treasury cfg s)|done].
  - apply (refund_failed setter (fun _ => d_fix i) (fun b v => issue_setter treasury b v)) in Hrun as ->; [|by intros; apply issue_is_deposit|done].
    destruct (apart_diamond s id i Hs Ed) as [_ Hp]. split; [done|]. split; [by apply (lots_delete_diamond treasury cfg s)|done].
  - apply (refund_failed native (fun p => p) (fun b v => mc_deposit native b v)) in Hrun as ->; [|done..].
    split; [done|]. split; [by apply (lots_delete_serplus treasury cfg s)|done].
Qed.

(** ** Ends *)

(** The auction pallet forgets the auction and names its last bidder the winner. *)
Definition end_auction (id : Z) : Run unit :=
  let! s := get in
  do! modify (set_auctions (remove_auction id (auctions s))) in
  on_auction_ended treasury cfg id (auction_bid id (auctions s)).

(** The winner gets [v] of [c], or the deposit is refused; nobody has less. *)
Definition awards (c : CurrencyId) (v : Z) (winner : option (A * Z)) (l l' : L) : Prop :=
  (forall c' a, mc_free_balance c' a l <= mc_free_balance c' a l')
  /\ match winner with
     | Some (b, _) => mc_free_balance c b l + v <= mc_free_balance c b l' \/ exists x, mc_deposit c b v l = (Err x, l)
     | None => True
     end.

Lemma award_run c v (m : A -> M L X unit) (winner : option (A * Z)) (e : A -> Z -> AuctionEvent A) e' (s : St) u s' :
  (forall b (s : St), on_chain (m b) s = (on_chain (mc_deposit c b v) : Run unit) s) -> 0 <= v ->
  match winner with
  | Some (bidder, p) =>
      do! try_run (on_chain (m bidder)) in
      modify (deposit_event (e bidder p))
  | None => modify (deposit_event e')
  end s = (@Ok (AuctionError + X) _ u, s') ->
  exists l ev, s' = deposit_event ev (set_chain l s) /\ awards c v winner (chain s) l.
Proof.
  intros Hm Hv Hrun. unfold awards. destruct winner as [[b p]|].
  2:{ run_inv Hrun. exists (chain s), e'. rewrite set_chain_id. by split. }
  apply bind_ok in Hrun as (r & s1 & Hdep & Hrun). apply try_run_ok in Hdep. injection Hrun as _ <-.
  destruct r as [[]|].
  - rewrite Hm in Hdep. unfold on_chain in Hdep. run_inv Hdep. eexists _, _. split; [reflexivity|].
    match goal with Hd : mc_deposit _ _ _ _ = (Ok ?u, _) |- _ => destruct u; split; [intros c' a; exact (mc_deposit_free _ _ _ _ _ c' a Hd Hv)|left; exact (mc_deposit_receiver _ _ _ _ _ Hd Hv)] end.
  - destruct Hdep as [x Hdep]. rewrite Hm in Hdep. unfold on_chain, zoom in Hdep.
    destruct (mc_deposit c b v (chain s)) as [[?|y|] l] eqn:E; simplify_eq. apply mc_failed_deposit in E as Hl. subst l.
    eexists _, _. split; [reflexivity|]. split; [done|]. right. by exists y.
Qed.

Lemma awards_same c v winner l l' l'' :
  awards c v winner l l' -> (forall c a, mc_free_balance c a l'' = mc_free_balance c a l') -> awards c v winner l l''.
Proof. intros [Hle Hw] Hl. split; [intros; by rewrite Hl|]. destruct winner as [[b p]|]; [|done]. by rewrite Hl. Qed.

(** The reference of the winner is given up. *)
Lemma release_run (winner : option (A * Z)) (s : St) u s' :
  match winner with
  | Some (bidder, _) => modify (fun s => set_chain (dec_consumers bidder (chain s)) s)
  | None => ret tt
  end s = (@Ok (AuctionError + X) _ u, s') ->
  exists l, s' = set_chain l s /\ forall c a, mc_free_balance c a l = mc_free_balance c a (chain s).
Proof.
  destruct winner as [[b p]|]; intros Hrun; run_inv Hrun.
  - eexists. split; [reflexivity|]. intros c a. apply dec_consumers_free.
  - exists (chain s). by rewrite set_chain_id.
Qed.

Lemma end_run id (s : St) u s' :
  apart s -> (forall id lot, lots s !! id = Some lot -> 0 <= sold lot) -> end_auction id s = (Ok u, s') ->
  auctions s' = remove_auction id (auctions s)
  /\ ((lots s !! id = None /\ lots s' = lots s /\ apart s' /\ (forall k c, total_of s' k c = total_of s k c)
        /\ forall c a, mc_free_balance c a (chain s') = mc_free_balance c a (chain s))
      \/ exists lot, removed id lot s s' /\ awards (sold_in lot) (sold lot) (auction_bid id (auctions s)) (chain s) (chain s')).
Proof.
  intros Hs Hsold Hrun. destruct (apart_delete s id Hs) as (Ad & As & Ap). unfold end_auction, on_auction_ended in Hrun. run_inv Hrun.
  apply release_run in Hrun as (lr & -> & Hfree).
  destruct (diamond_auctions s !! id) as [i|] eqn:Ed; [|destruct (setter_auctions s !! id) as [i|] eqn:Ei; [|destruct (serplus_auctions s !! id) as [i|] eqn:Ep]].
  - destruct (apart_diamond s id i Hs Ed) as [Hset Hp]. assert (lots s !! id = Some (diamond_lot treasury cfg i)) as Hlot by (by rewrite lots_lookup, Ed).
    unfold diamond_auction_end_handler in R. run_inv R.
    match goal with Hm : match _ with _ => _ end _ = _ |- _ => apply (award_run native (d_amount i) (fun b => mc_deposit native b (d_amount i)) _
      (fun b _ => DiamondAuctionDealt id (d_amount i) b (d_fix i))) in Hm as (l & ev & -> & Haw); [|done|by apply (Hsold id _ Hlot)] end.
    split; [done|]. right. exists (diamond_lot treasury cfg i). split; [|exact (awards_same _ _ _ _ _ _ Haw Hfree)].
    split; [done|by apply (lots_delete_diamond treasury cfg s)|done|intros k c Hkc; totals k c Hkc].
  - destruct (apart_setter s id i Hs Ei) as [_ Hp]. assert (lots s !! id = Some (setter_lot treasury i)) as Hlot by (by rewrite lots_lookup, Ed, Ei).
    unfold setter_auction_end_handler in R. run_inv R.
    match goal with Hm : match _ with _ => _ end _ = _ |- _ => apply (award_run setter (s_amount i) (fun b => issue_setter treasury b (s_amount i)) _
      (fun b _ => SetterAuctionDealt id (s_amount i) b (s_fix i) (s_currency i))) in Hm as (l & ev & -> & Haw); [|by intros; apply issue_is_deposit|by apply (Hsold id _ Hlot)] end.
    split; [done|]. right. exists (setter_lot treasury i). split; [|exact (awards_same _ _ _ _ _ _ Haw Hfree)].
    split; [done|by apply (lots_delete_setter treasury cfg s)|done|intros k c Hkc; totals k c Hkc].
  - assert (lots s !! id = Some (serplus_lot cfg i)) as Hlot by (by rewrite lots_lookup, Ed, Ei, Ep).
    unfold serplus_auction_end_handler in R. run_inv R.
    match goal with Hm : match _ with _ => _ end _ = _ |- _ => apply (award_run (p_currency i) (p_amount i) (fun b => issue_propper (p_currency i) b (p_amount i)) _
      (fun b p => SerplusAuctionDealt id (p_amount i) (p_currency i) b p)) in Hm as (l & ev & -> & Haw); [|by intros; apply issue_is_deposit|by apply (Hsold id _ Hlot)] end.
    split; [done|]. right. exists (serplus_lot cfg i). split; [|exact (awards_same _ _ _ _ _ _ Haw Hfree)].
    split; [done|by apply (lots_delete_serplus treasury cfg s)|done|intros k c Hkc; totals k c Hkc].
  - run_inv R. split; [done|]. left. split; [by rewrite lots_lookup, Ed, Ei, Ep|]. done.
Qed.
End Steps.
