(* ===== verification/SerpAuctionTheorems.v ===== *)
(** * The SERP auctions are fair

    Over any history of bids, ends, cancellations and new auctions: nobody is worse off for
    bidding, but by what they pay for the lots they win; what is sold for a fixed payment is
    never more than the best bid asks for; and the totals are the sums over the open
    auctions. *)

From S2P Require Import Prelude Currency Externals Staking StakingExamples SerpTreasury SerpAuction SerpAuctionLots SerpAuctionSteps.

(** A ratio of at most one is a number, and so is what fits. *)
Class FixedPointTotal (F : FixedPoint) `{!FixedPointLaws F} : Prop := {
  fp_from_rational_total n d : 0 <= n <= d -> 0 < d -> is_Some (fp_checked_from_rational n d);
  fp_mul_int_total r n : 0 <= n -> fp_inner r * n / fp_div <= umax 128 -> is_Some (fp_checked_mul_int r n)
}.

Section Theorems.
Context {L AU X A P Origin : Type} `{Countable A} `{!MultiCurrency L X A} `{!FrameSystem L A} `{!Perthing P} `{!Auctions AU X A} `{F : FixedPoint}.
Context `{!MultiCurrencyLaws L X A} `{!MultiCurrencyAmounts L X A} `{!AuctionsLaws AU X A} `{!FixedPointLaws F} `{!FixedPointTotal F}.
Variable treasury : TreasuryConfig A P.
Variable cfg : Config.
Variable update_origin : Origin -> bool.
Variable bad_origin : AuctionError + X.
Variable into_error : TreasuryError -> AuctionError + X.

Abbreviation St := (@State L AU A).
Abbreviation Run := (M St (AuctionError + X)).
Abbreviation lots := (lots treasury cfg).
Abbreviation bid_of s id := (auction_bid id (auctions s)).

(** ** Histories *)

(** What happens to the pallet; [Elsewhere] is all else that happens to what accounts hold. *)
Inductive action : Type :=
| Bid (now id : Z) (who : A) (price : Z)
| End_ (id : Z)
| Cancel (id : Z)
| NewDiamond (origin : Origin) (setter_amount initial_price : Z)
| NewSetter (origin : Origin) (accepted_currency : CurrencyId) (currency_amount initial_price : Z)
| NewSerplus (origin : Origin) (amount : Z) (currency_id : CurrencyId)
| Elsewhere (l : L).

Definition perform (a : action) : Run unit :=
  let manager := serp_auction_manager treasury cfg in
  match a with
  | Bid now id who price => place_bid treasury cfg now id who price
  | End_ id => end_auction treasury cfg id
  | Cancel id => cancel treasury cfg id
  | NewDiamond o v p => auction_diamond update_origin bad_origin o v p
  | NewSetter o c v p => auction_setter update_origin bad_origin o c v p
  | NewSerplus o v c => auction_serplus treasury update_origin bad_origin into_error o v c
  | Elsewhere l => modify (set_chain l)
  end.

(** Amounts are unsigned. *)
Definition unsigned (a : action) : Prop :=
  match a with
  | Bid _ _ _ p => in_uint 128 p
  | NewDiamond _ v p | NewSetter _ _ v p => in_uint 128 v /\ in_uint 128 p
  | NewSerplus _ v _ => in_uint 128 v
  | End_ _ | Cancel _ | Elsewhere _ => True
  end.

(** What an action takes from an account: the payment for a lot it wins, what it loses
    elsewhere, and for a bid of its own the dust that each payment of the bid may leave,
    which is nothing for an account that is exempt from the removal of dust. *)
Definition cost (a : action) (s : St) (c : CurrencyId) (who : A) : Z :=
  match a with
  | End_ id => match lots s !! id with Some lot => owed lot (bid_of s id) c who | None => 0 end
  | Elsewhere l => mc_free_balance c who (chain s) - mc_free_balance c who l
  | Bid _ id bidder _ =>
      match lots s !! id with
      | Some lot => if decide (who = bidder /\ c = pay_in lot) then payments lot * dust_of c who else 0
      | None => 0
      end
  | _ => 0
  end.

(** A failed call leaves what it does; where [strict] is set no cancellation fails. *)
Inductive history (strict : bool) (s0 : St) : (CurrencyId -> A -> Z) -> St -> Prop :=
| history_start : history strict s0 (fun _ _ => 0) s0
| history_done spent s a s' :
    history strict s0 spent s -> unsigned a -> perform a s = (Ok tt, s') ->
    history strict s0 (fun c who => spent c who + cost a s c who) s'
| history_failed spent s a e s' :
    history strict s0 spent s -> perform a s = (Err e, s') -> (strict = true -> forall id, a <> Cancel id) ->
    history strict s0 spent s'.

(** ** The invariant *)

(** What is sold for a fixed payment is worth that payment at the price of the last bid. *)
Definition lot_ok (lot : Lot) (bid : option (A * Z)) : Prop :=
  in_uint 128 (sold lot)
  /\ (forall b p, bid = Some (b, p) -> 0 <= p)
  /\ forall f, pay_fix lot = Some f ->
       0 <= f /\ sold lot <= initially lot
       /\ match bid with
          | Some (_, p) => f <= p /\ sold lot * p <= initially lot * f
          | None => sold lot = initially lot
          end.

Record auction_inv (s : St) : Prop := {
  inv_apart : apart s;
  inv_ids : known_ids treasury cfg s;
  inv_lots id lot : lots s !! id = Some lot -> lot_ok lot (bid_of s id)
}.

Lemma inv_pays_well s : auction_inv s -> pays_well treasury cfg s.
Proof.
  intros Hs. split.
  - intros id lot f Hlot Hf. by apply (inv_lots s Hs id lot Hlot).
  - intros id lot b p Hlot Hb. destruct (inv_lots s Hs id lot Hlot) as (_ & Hp & _). by eapply Hp.
Qed.

Lemma inv_sold s : auction_inv s -> forall id lot, lots s !! id = Some lot -> 0 <= sold lot.
Proof. intros Hs id lot Hlot. destruct (inv_lots s Hs id lot Hlot) as ([? _] & _). done. Qed.

(** The cut of a lot. *)
Lemma amount_for_sale_cut amount fix_ last price initial :
  0 <= amount <= umax 128 -> 0 <= fix_ <= price -> 0 <= last <= price -> amount * Z.max last fix_ <= initial * fix_ ->
  0 <= amount_for_sale amount fix_ last price <= amount
  /\ amount_for_sale amount fix_ last price * price <= initial * fix_.
Proof.
  intros Ha Hf Hl Hi. unfold amount_for_sale. destruct ((last <? price) && (fix_ <? price)) eqn:E; bool_inv.
  2:{ apply andb_false_iff in E as [E%Z.ltb_ge|E%Z.ltb_ge]; split; try lia.
      - replace price with (Z.max last fix_) by lia. done.
      - replace price with (Z.max last fix_) by lia. done. }
  set (n := Z.max last fix_) in *. pose proof fp_div_pos as Hdiv. pose proof umax_nonneg 128 as Hu.
  destruct (fp_from_rational_total n price) as [r Hr]; [lia..|]. rewrite Hr. simpl.
  destruct (fp_from_rational_floor n price r) as [_ Hfloor]; [lia..|done|]. pose proof (fp_inner_range r) as [Hr0 _].
  assert (fp_inner r <= fp_div) as Hle by nia.
  assert (0 <= fp_inner r * amount / fp_div <= amount) as Hv.
  { split; [apply Z.div_pos; nia|]. apply Z.div_le_upper_bound; nia. }
  destruct (fp_mul_int_total r amount) as [v Hv']; [lia..|]. rewrite Hv'. simpl.
  destruct (fp_checked_mul_int_floor r amount v) as [-> _]; [lia|done|]. split; [done|].
  etransitivity; [|exact Hi]. pose proof (Z.mul_div_le (fp_inner r * amount) fp_div ltac:(done)).
  set (q := fp_inner r * amount / fp_div) in *. apply (Z.mul_le_mono_pos_l _ _ fp_div); [done|]. nia.
Qed.

(** ** Every action keeps it *)

Lemma map_at_lot (f : Z -> Lot -> Z) (s : St) id lot : lots s !! id = Some lot -> map_at f (lots s) id = f id lot.
Proof. intros Hl. unfold map_at. by rewrite Hl. Qed.

Lemma bid_result now id who price (s s' : St) :
  auction_inv s -> place_bid (X := X) treasury cfg now id who price s = (Ok tt, s') ->
  s' = s \/ exists lot v s1 e, bid_taken treasury cfg id who price (bid_of s id) lot v s s1
                /\ s' = set_auctions (store_bid id (who, price) e (auctions s)) s1.
Proof.
  intros Hs Hrun. unfold place_bid in Hrun. run_inv Hrun.
  match goal with Hn : on_new_bid _ _ _ _ _ _ _ = (Ok ?r, _) |- _ => destruct r as [t|] end.
  - right. run_inv Hrun. match goal with Hn : on_new_bid _ _ _ _ _ _ _ = _ |- _ => apply on_new_bid_taken in Hn as (lot & v & Ht) end.
    + eexists lot, v, _, _. split; [exact Ht|]. by rewrite (taken_auctions _ _ _ _ _ _ _ _ _ _ Ht).
    + apply Hs.
    + by apply inv_pays_well.
    + intros lot Hlot. destruct (inv_lots s Hs id lot Hlot) as (_ & Hp & _). destruct (bid_of s id) as [[b p]|]; simpl; [by eapply Hp|done].
  - left. run_inv Hrun. by match goal with Hn : on_new_bid _ _ _ _ _ _ _ = _ |- _ => apply on_new_bid_rejected in Hn end.
Qed.

Lemma bid_keeps_inv now id who price (s s' : St) :
  in_uint 128 price -> auction_inv s -> place_bid (X := X) treasury cfg now id who price s = (Ok tt, s') -> auction_inv s'.
Proof.
  intros Hprice Hs Hrun. apply bid_result in Hrun as [->|(lot & v & s1 & e & Ht & ->)]; [done| |done]. split.
  - apply (taken_apart _ _ _ _ _ _ _ _ _ _ Ht).
  - intros j Hj. change (lots s1 !! j = None). rewrite (taken_lots _ _ _ _ _ _ _ _ _ _ Ht). simpl in Hj. rewrite store_bid_next in Hj.
    rewrite lookup_insert_ne; [by apply Hs|]. intros ->. pose proof (inv_ids s Hs j Hj). by rewrite (taken_lot _ _ _ _ _ _ _ _ _ _ Ht) in *.
  - intros j lot' Hlot'. change (lots s1 !! j = Some lot') in Hlot'. rewrite (taken_lots _ _ _ _ _ _ _ _ _ _ Ht) in Hlot'. simpl. rewrite store_bid_bid.
    case_decide as Hj; [subst j|by rewrite lookup_insert_ne in Hlot' by done; apply (inv_lots s Hs)].
    rewrite lookup_insert_eq in Hlot'. injection Hlot' as <-.
    destruct (inv_lots s Hs id lot (taken_lot _ _ _ _ _ _ _ _ _ _ Ht)) as (Hsold & Hp & Hfix).
    pose proof (taken_price _ _ _ _ _ _ _ _ _ _ Ht) as Hup. unfold lot_ok, with_sold. simpl.
    destruct (pay_fix lot) as [f|] eqn:Ef.
    2:{ rewrite (taken_whole _ _ _ _ _ _ _ _ _ _ Ht) by done. split_and!; [done|by intros ? ? [= _ <-]; exact (proj1 Hprice)|done]. }
    destruct (Hfix f eq_refl) as (Hf & Hle & Hworth). destruct (taken_cut _ _ _ _ _ _ _ _ _ _ Ht f Ef) as [Hfp ->].
    assert (0 <= price_of (bid_of s id)) by (destruct (bid_of s id) as [[b p]|]; simpl; [by eapply Hp|done]).
    destruct (amount_for_sale_cut (sold lot) f (price_of (bid_of s id)) price (initially lot)) as [Hcut Hw]; [done|lia|lia| |].
    { destruct (bid_of s id) as [[b p]|]; simpl in *; [destruct Hworth; by rewrite Z.max_l by lia|]. rewrite Z.max_r by done. rewrite Hworth. lia. }
    split; [unfold in_uint in *; lia|]. split; [by intros ? ? [= _ <-]; exact (proj1 Hprice)|]. intros ? [= <-]. split_and!; [done|lia|done|done].
Qed.

Lemma opened_keeps_inv id lot (s s' : St) : auction_inv s -> opened treasury cfg id lot s s' -> auction_inv s'.
Proof.
  intros Hs Ho. split.
  - apply (opened_apart _ _ _ _ _ _ Ho).
  - intros j Hj. pose proof (opened_next _ _ _ _ _ _ Ho). rewrite (opened_lots _ _ _ _ _ _ Ho), lookup_insert_ne by lia. apply Hs. lia.
  - intros j lot' Hlot'. rewrite (opened_lots _ _ _ _ _ _ Ho) in Hlot'. destruct (decide (j = id)) as [->|Hj].
    + rewrite lookup_insert_eq in Hlot'. injection Hlot' as <-. rewrite (opened_bid _ _ _ _ _ _ Ho).
      destruct (opened_whole _ _ _ _ _ _ Ho) as (Hw & Hpos & Hf). split_and!; [done|done|]. intros f Hpay. specialize (Hf f Hpay). split_and!; [done|lia|done].
    + rewrite lookup_insert_ne in Hlot' by done. rewrite (opened_others _ _ _ _ _ _ Ho) by done. by apply (inv_lots s Hs).
Qed.

(** The auctions that are left. *)
Lemma fewer_keep_inv id (s s' : St) :
  auction_inv s -> apart s' -> lots s' = delete id (lots s) -> next_id (auctions s') = next_id (auctions s) ->
  (forall j, j <> id -> bid_of s' j = bid_of s j) -> auction_inv s'.
Proof.
  intros Hs Ha Hl Hn Hb. split; [done|..].
  - intros j Hj. rewrite Hn in Hj. rewrite Hl. apply lookup_delete_None. right. by apply Hs.
  - intros j lot Hlot. rewrite Hl in Hlot. apply lookup_delete_Some in Hlot as [Hj Hlot]. rewrite Hb by done. by apply (inv_lots s Hs).
Qed.

(** A new auction by a call. *)
Lemma new_auction_opened a (s s' : St) :
  auction_inv s -> unsigned a -> perform a s = (Ok tt, s') ->
  match a with NewDiamond _ _ _ | NewSetter _ _ _ _ | NewSerplus _ _ _ => exists id lot, opened treasury cfg id lot s s' | _ => True end.
Proof.
  intros Hs Hu Hrun. destruct a; try done; simpl in Hu, Hrun.
  - unfold auction_diamond in Hrun. run_inv Hrun. destruct Hu as [Hv Hp].
    by apply (open_diamond_run treasury cfg) in Hrun; [..|apply Hs|apply Hs|done|exact (proj1 Hv)].
  - unfold auction_setter in Hrun. run_inv Hrun. destruct Hu as [Hv Hp].
    by apply (open_setter_run treasury cfg) in Hrun; [..|apply Hs|apply Hs|done|exact (proj1 Hv)].
  - unfold auction_serplus in Hrun. run_inv Hrun. by apply (open_serplus_run treasury cfg) in Hrun; [..|apply Hs|apply Hs|done].
Qed.

Lemma perform_keeps_inv a (s s' : St) : auction_inv s -> unsigned a -> perform a s = (Ok tt, s') -> auction_inv s'.
Proof.
  intros Hs Hu Hrun. pose proof (new_auction_opened a s s' Hs Hu Hrun) as Hnew.
  destruct a; simpl in Hu, Hrun; try (destruct Hnew as (j & lot & Ho); by eapply opened_keeps_inv).
  - by eapply bid_keeps_inv.
  - apply end_run in Hrun as (Hau & [(Hno & Hl & Ha & _)|(lot & Hr & _)]); [..|apply Hs|by apply inv_sold].
    + apply (fewer_keep_inv id s s' Hs Ha); rewrite ?Hau;
        [by rewrite Hl, delete_id|apply remove_auction_next|intros; by apply remove_auction_bid].
    + apply (fewer_keep_inv id s s' Hs (removed_apart _ _ _ _ _ _ Hr)); rewrite ?Hau;
        [apply (removed_lots _ _ _ _ _ _ Hr)|apply remove_auction_next|intros; by apply remove_auction_bid].
  - apply cancel_ok in Hrun as (lot & Hr & Hau & _); [|apply Hs|by apply inv_pays_well].
    apply (fewer_keep_inv id s s' Hs (removed_apart _ _ _ _ _ _ Hr)); rewrite ?Hau;
      [apply (removed_lots _ _ _ _ _ _ Hr)|apply remove_auction_next|intros; by apply remove_auction_bid].
  - injection Hrun as <-. destruct Hs as [Ha Hi Hl]. by split.
Qed.

(** ** Failures *)

Lemma place_bid_never_fails now id who price (s : St) e s' : place_bid (X := X) treasury cfg now id who price s <> (Err e, s').
Proof.
  unfold place_bid. intros [[=]|(? & ? & [= <- <-] & Hrun)]%bind_err. apply bind_err in Hrun as [Hrun|([t|] & s1 & _ & Hrun)]; [|done..].
  unfold on_new_bid in Hrun. apply bind_err in Hrun as [[=]|(? & ? & [= <- <-] & Hrun)]. unfold try_run in Hrun. by repeat case_match.
Qed.

Lemma award_never_fails (m : A -> Run unit) (k : A -> Z -> St -> St) (k' f : St -> St) (winner : option (A * Z)) (s : St) e s' :
  (do! match winner with
       | Some (b, p) => do! try_run (m b) in modify (k b p)
       | None => modify k'
       end in modify f) s <> (Err e, s').
Proof.
  intros [Hrun|(? & ? & _ & [=])]%bind_err. destruct winner as [[b p]|]; [|done].
  apply bind_err in Hrun as [Hrun|(? & ? & _ & [=])]. unfold try_run in Hrun. by repeat case_match.
Qed.

Lemma end_never_fails id (s : St) e s' : end_auction (X := X) treasury cfg id s <> (Err e, s').
Proof.
  unfold end_auction, on_auction_ended. intros [[=]|(? & ? & [= <- <-] & Hrun)]%bind_err. apply bind_err in Hrun as [[=]|(? & ? & _ & Hrun)].
  apply bind_err in Hrun as [[=]|(? & s1 & [= <- <-] & Hrun)]. apply bind_err in Hrun as [Hrun|(? & ? & _ & Hrun)].
  - case_match; [|case_match; [|case_match; [|done]]]; (apply bind_err in Hrun as [[=]|(? & ? & _ & Hrun)]).
    + by eapply (award_never_fails (fun b => on_chain (mc_deposit _ b _)) (fun b _ => deposit_event (DiamondAuctionDealt id _ b _))), Hrun.
    + by eapply (award_never_fails (fun b => on_chain (issue_setter treasury b _)) (fun b _ => deposit_event (SetterAuctionDealt id _ b _ _))), Hrun.
    + by eapply (award_never_fails (fun b => on_chain (issue_propper _ b _)) (fun b p => deposit_event (SerplusAuctionDealt id _ _ b p))), Hrun.
  - destruct (bid_of s id) as [[b p]|]; done.
Qed.

(** Only a cancellation leaves anything when it fails: the lot is gone. *)
Lemma failed_action a (s : St) e s' :
  auction_inv s -> perform a s = (Err e, s') ->
  s' = s \/ exists id, a = Cancel id /\ apart s' /\ lots s' = delete id (lots s) /\ auctions s' = auctions s
                 /\ chain s' = chain s /\ forall k c, total_of s' k c = total_of s k c.
Proof.
  intros Hs Hrun. destruct a; simpl in Hrun; try (left; eapply transactional_rollback; [exact Hrun|done]).
  - by apply place_bid_never_fails in Hrun.
  - by apply end_never_fails in Hrun.
  - apply cancel_failed in Hrun as [->|Hc]; [by left|right; by eexists|apply Hs].
  - done.
Qed.

Lemma history_inv strict s0 spent s : auction_inv s0 -> history strict s0 spent s -> auction_inv s.
Proof.
  intros Hs0. induction 1 as [|spent s a s' _ IH Hu Hrun|spent s a e s' _ IH Hrun _]; [done|by eapply perform_keeps_inv|].
  apply failed_action in Hrun as [->|(id & _ & Ha & Hl & Hau & _)]; [done| |done].
  apply (fewer_keep_inv id s s' IH Ha Hl); by rewrite Hau.
Qed.

(** ** What an account has in the auctions *)

(** Its payments for the lots where its bid is the last. *)
Definition stake (s : St) (c : CurrencyId) (who : A) : Z := map_sum (fun id lot => owed lot (bid_of s id) c who) (lots s).

Definition wealth (s : St) (c : CurrencyId) (who : A) : Z := mc_free_balance c who (chain s) + stake s c who.

Lemma stake_fewer (s s' : St) id c who :
  lots s' = delete id (lots s) -> (forall j, j <> id -> bid_of s' j = bid_of s j) ->
  stake s' c who = stake s c who - (match lots s !! id with Some lot => owed lot (bid_of s id) c who | None => 0 end).
Proof.
  intros Hl Hb. unfold stake. rewrite Hl.
  rewrite (map_sum_ext _ (fun id lot => owed lot (bid_of s id) c who) (delete id (lots s))).
  - by rewrite map_sum_delete_at.
  - intros j lot Hj. apply lookup_delete_Some in Hj as [Hj _]. by rewrite Hb.
Qed.

Lemma bid_keeps_wealth id who price last lot v e (s s1 : St) c x :
  last = bid_of s id -> bid_taken treasury cfg id who price last lot v s s1 ->
  wealth s c x <= wealth (set_auctions (store_bid id (who, price) e (auctions s)) s1) c x
    + (if decide (x = who /\ c = pay_in lot) then payments lot * dust_of c x else 0).
Proof.
  intros -> Ht. unfold wealth, stake. simpl.
  change (lots (set_auctions _ s1)) with (lots s1). rewrite (taken_lots _ _ _ _ _ _ _ _ _ _ Ht).
  rewrite (map_sum_update (fun id lot => owed lot (bid_of s id) c x)) by (intros j y Hj; by rewrite store_bid_bid, decide_False).
  rewrite (map_at_lot _ s id lot (taken_lot _ _ _ _ _ _ _ _ _ _ Ht)), store_bid_bid, decide_True by done.
  pose proof (taken_paid _ _ _ _ _ _ _ _ _ _ Ht c x) as Hpaid.
  assert (owed (with_sold v lot) (Some (who, price)) c x = if decide (x = who /\ c = pay_in lot) then payment lot price else 0) as -> by done.
  assert (owed lot (bid_of s id) c x = match (fun b => (b.1, payment lot b.2)) <$> bid_of s id with Some (b, w) => if decide (x = b /\ c = pay_in lot) then w else 0 | None => 0 end) as ->
    by (by destruct (bid_of s id) as [[b p]|]).
  destruct (decide (x = who /\ c = pay_in lot)) as [[-> ->]|_]; lia.
Qed.

Lemma opened_keeps_wealth id lot (s s' : St) c x : auction_inv s -> opened treasury cfg id lot s s' -> wealth s' c x = wealth s c x.
Proof.
  intros Hs Ho. unfold wealth, stake. rewrite (opened_lots _ _ _ _ _ _ Ho), (opened_chain _ _ _ _ _ _ Ho).
  rewrite (map_sum_update (fun id lot => owed lot (bid_of s id) c x)) by (intros j y Hj; by rewrite (opened_others _ _ _ _ _ _ Ho)).
  rewrite (opened_bid _ _ _ _ _ _ Ho). simpl. pose proof (opened_next _ _ _ _ _ _ Ho). unfold map_at. rewrite (inv_ids s Hs id) by lia. lia.
Qed.

Lemma perform_costs a (s s' : St) c x :
  auction_inv s -> unsigned a -> perform a s = (Ok tt, s') -> wealth s c x <= wealth s' c x + cost a s c x.
Proof.
  intros Hs Hu Hrun. pose proof (new_auction_opened a s s' Hs Hu Hrun) as Hnew.
  destruct a; simpl in Hrun; simpl cost;
    try (destruct Hnew as (j & lot & Ho); rewrite (opened_keeps_wealth j lot s s' c x Hs Ho); lia).
  - apply bid_result in Hrun as [->|(lot & v & s1 & e & Ht & ->)]; [| |done].
    + destruct (lots s !! id) as [lot|]; [|lia]. pose proof (dust_nonneg c x). unfold payments. case_decide; [destruct (kind lot)|]; lia.
    + rewrite (taken_lot _ _ _ _ _ _ _ _ _ _ Ht). exact (bid_keeps_wealth id who price _ lot v e s s1 c x eq_refl Ht).
  - apply end_run in Hrun as (Hau & [(Hno & Hl & _ & _ & Hfree)|(lot & Hr & Haw)]); [..|apply Hs|by apply inv_sold]; unfold wealth.
    + rewrite (stake_fewer s s' id c x), Hno, Hfree; [lia|by rewrite Hl, delete_id|]. intros j Hj. rewrite Hau. by apply remove_auction_bid.
    + rewrite (stake_fewer s s' id c x); [|apply (removed_lots _ _ _ _ _ _ Hr)|intros j Hj; rewrite Hau; by apply remove_auction_bid].
      destruct Haw as [Haw _]. specialize (Haw c x). lia.
  - apply cancel_ok in Hrun as (lot & Hr & Hau & Hfree); [|apply Hs|by apply inv_pays_well]. unfold wealth.
    rewrite (stake_fewer s s' id c x); [|apply (removed_lots _ _ _ _ _ _ Hr)|intros j Hj; rewrite Hau; by apply remove_auction_bid].
    rewrite (removed_lot _ _ _ _ _ _ Hr). specialize (Hfree c x). lia.
  - injection Hrun as <-. unfold wealth, stake. simpl. change (lots (set_chain l s)) with (lots s). lia.
Qed.

(** ** Totals *)

(** What the open auctions add up to. *)
Definition open_sum (s : St) (k : Kind) (c : CurrencyId) : Z := map_sum (fun _ lot => share k c lot) (lots s).

Definition totals_ok (strict : bool) (s : St) : Prop :=
  forall k c, counts treasury k c -> open_sum s k c <= total_of s k c /\ (strict = true -> total_of s k c = open_sum s k c).

Lemma share_nonneg k c (s : St) id lot : auction_inv s -> lots s !! id = Some lot -> 0 <= share k c lot.
Proof.
  intros Hs Hlot. destruct (inv_lots s Hs id lot Hlot) as ([Hsold _] & _ & Hfix). unfold share, counted. case_decide; [|done].
  destruct (pay_fix lot) as [f|]; simpl; [by apply (Hfix f)|done].
Qed.

Lemma bid_keeps_totals strict now id who price (s s' : St) :
  auction_inv s -> totals_ok strict s -> place_bid (X := X) treasury cfg now id who price s = (Ok tt, s') -> totals_ok strict s'.
Proof.
  intros Hs Ht Hrun. apply bid_result in Hrun as [->|(lot & v & s1 & e & Hb & ->)]; [done| |done]. intros k c Hkc.
  destruct (Ht k c Hkc) as [Hle Heq]. change (total_of (set_auctions _ s1) k c) with (total_of s1 k c). rewrite (taken_totals _ _ _ _ _ _ _ _ _ _ Hb).
  assert (open_sum s1 k c = open_sum s k c) as Hsum; [|change (open_sum (set_auctions _ s1) k c) with (open_sum s1 k c); by rewrite Hsum].
  unfold open_sum. rewrite (taken_lots _ _ _ _ _ _ _ _ _ _ Hb), map_sum_insert, (map_at_lot _ s id lot (taken_lot _ _ _ _ _ _ _ _ _ _ Hb)).
  assert (share k c (with_sold v lot) = share k c lot) as ->; [|lia].
  unfold share, with_sold, counted, count_in. simpl. case_decide; [|done].
  destruct (pay_fix lot) eqn:Ef; [done|]. by apply (taken_whole _ _ _ _ _ _ _ _ _ _ Hb).
Qed.

Lemma opened_keeps_totals strict id lot (s s' : St) :
  auction_inv s -> totals_ok strict s -> opened treasury cfg id lot s s' -> totals_ok strict s'.
Proof.
  intros Hs Ht Ho k c Hkc. destruct (Ht k c Hkc) as [Hle Heq]. unfold open_sum in *.
  rewrite (opened_lots _ _ _ _ _ _ Ho), (opened_totals _ _ _ _ _ _ Ho) by done. pose proof (opened_next _ _ _ _ _ _ Ho).
  rewrite map_sum_insert_new by (apply (inv_ids s Hs); lia). split; [lia|]. intros Hstrict. rewrite Heq by done. lia.
Qed.

Lemma removed_keeps_totals strict id lot (s s' : St) :
  auction_inv s -> totals_ok strict s -> removed treasury cfg id lot s s' -> totals_ok strict s'.
Proof.
  intros Hs Ht Hr k c Hkc. destruct (Ht k c Hkc) as [Hle Heq]. pose proof (removed_lot _ _ _ _ _ _ Hr) as Hlot. unfold open_sum in *.
  rewrite (removed_lots _ _ _ _ _ _ Hr), (removed_totals _ _ _ _ _ _ Hr), map_sum_delete_at, (map_at_lot _ s id lot Hlot) by done.
  assert (share k c lot <= map_sum (fun _ lot => share k c lot) (lots s)) as Hin.
  { rewrite <- (map_at_lot (fun _ lot => share k c lot) s id lot Hlot). apply map_at_le_sum. intros j y Hj. by eapply share_nonneg. }
  unfold share at 2 4. unfold share at 1 in Hin. case_decide; [rewrite sat_sub_exact by lia|]; (split; [lia|]); intros Hstrict; specialize (Heq Hstrict); lia.
Qed.

Lemma fewer_keep_totals id (s s' : St) :
  auction_inv s -> totals_ok false s -> lots s' = delete id (lots s) -> (forall k c, total_of s' k c = total_of s k c) -> totals_ok false s'.
Proof.
  intros Hs Ht Hl Htot k c Hkc. destruct (Ht k c Hkc) as [Hle _]. split; [|done]. unfold open_sum in *. rewrite Hl, Htot, map_sum_delete_at.
  destruct (lots s !! id) as [lot|] eqn:E; unfold map_at; rewrite E; [|lia]. pose proof (share_nonneg k c s id lot Hs E). lia.
Qed.

Lemma perform_keeps_totals strict a (s s' : St) :
  auction_inv s -> totals_ok strict s -> unsigned a -> perform a s = (Ok tt, s') -> totals_ok strict s'.
Proof.
  intros Hs Ht Hu Hrun. pose proof (new_auction_opened a s s' Hs Hu Hrun) as Hnew.
  destruct a; simpl in Hrun; try (destruct Hnew as (j & lot & Ho); by eapply opened_keeps_totals).
  - by eapply bid_keeps_totals.
  - apply end_run in Hrun as (_ & [(_ & Hl & _ & Htot & _)|(lot & Hr & _)]); [..|apply Hs|by apply inv_sold].
    + intros k c Hkc. rewrite Htot. unfold open_sum. rewrite Hl. by apply Ht.
    + by eapply removed_keeps_totals.
  - apply cancel_ok in Hrun as (lot & Hr & _); [|apply Hs|by apply inv_pays_well]. by eapply removed_keeps_totals.
  - injection Hrun as <-. exact Ht.
Qed.

(** ** What the auctions promise *)

(** C22: over any history in which no cancellation fails an account has, with its stakes in the
    open auctions, as much as before of every currency, but for what it paid for the lots it
    won, what it lost elsewhere, and the dust that its bids left: who is outbid or sees an
    auction cancelled gets back what was paid. A payment that leaves its payer with less
    than the existential deposit of the currency may cost it that rest, so this is less than
    one existential deposit per payment of its own, of which a bid makes one, for serplus
    two; accounts exempt from the removal of dust lose none. *)
Theorem bidders_are_made_whole s0 spent s c who :
  auction_inv s0 -> history true s0 spent s -> wealth s0 c who <= wealth s c who + spent c who.
Proof.
  intros Hs0 Hh. induction Hh as [|spent s a s' Hh IH Hu Hrun|spent s a e s' Hh IH Hrun Hstrict]; [lia|..];
    pose proof (history_inv true s0 spent s Hs0 Hh) as Hs.
  - pose proof (perform_costs a s s' c who Hs Hu Hrun). lia.
  - apply failed_action in Hrun as [->|(id & -> & _)]; [done| |done]. by destruct (Hstrict eq_refl id).
Qed.

(** C23: however auctions open, are bid on, end and are cancelled, what is left of a lot for a
    fixed payment is worth at most that payment at the price of the last bid, which is at
    least the payment; no lot grows. *)
Theorem lots_keep_their_price strict s0 spent s id lot f :
  auction_inv s0 -> history strict s0 spent s -> lots s !! id = Some lot -> pay_fix lot = Some f ->
  0 <= sold lot <= initially lot
  /\ match bid_of s id with
     | Some (_, price) => f <= price /\ sold lot * price <= initially lot * f
     | None => sold lot = initially lot
     end.
Proof.
  intros Hs0 Hh Hlot Hf. apply history_inv in Hh as Hs; [|done]. destruct (inv_lots s Hs id lot Hlot) as ([Hsold _] & _ & Hfix).
  destruct (Hfix f Hf) as (_ & Hle & Hworth). by split.
Qed.

(** C24: the totals in auction cover what the open auctions of a kind and a currency add up to,
    and are that sum as long as no cancellation fails. *)
Theorem auction_totals_are_sums strict s0 spent s k c :
  auction_inv s0 -> totals_ok strict s0 -> history strict s0 spent s -> counts treasury k c ->
  open_sum s k c <= total_of s k c /\ (strict = true -> total_of s k c = open_sum s k c).
Proof.
  intros Hs0 Ht0 Hh. revert k c. change (totals_ok strict s). induction Hh as [|spent s a s' Hh IH Hu Hrun|spent s a e s' Hh IH Hrun Hstrict]; [done|..];
    pose proof (history_inv strict s0 spent s Hs0 Hh) as Hs.
  - by eapply perform_keeps_totals.
  - apply failed_action in Hrun as [->|(id & -> & _ & Hl & _ & _ & Htot)]; [done| |done].
    destruct strict; [by destruct (Hstrict eq_refl id)|]. by eapply fewer_keep_totals.
Qed.

(** At the end of an auction with a bid the lot is gone, its last bidder gets what is left
    of it unless the currency refuses the deposit, and nobody has less. *)
Theorem winner_gets_the_lot (s s' : St) id lot b price :
  auction_inv s -> lots s !! id = Some lot -> bid_of s id = Some (b, price) -> end_auction (X := X) treasury cfg id s = (Ok tt, s') ->
  lots s' !! id = None
  /\ (mc_free_balance (sold_in lot) b (chain s) + sold lot <= mc_free_balance (sold_in lot) b (chain s')
      \/ exists x, mc_deposit (sold_in lot) b (sold lot) (chain s) = (Err x, chain s))
  /\ forall c a, mc_free_balance c a (chain s) <= mc_free_balance c a (chain s').
Proof.
  intros Hs Hlot Hb Hrun. apply end_run in Hrun as (_ & [(Hno & _)|(lot' & Hr & Haw & Hw)]); [congruence| |apply Hs|by apply inv_sold].
  assert (lot' = lot) as -> by (pose proof (removed_lot _ _ _ _ _ _ Hr); congruence). rewrite Hb in Hw.
  split; [rewrite (removed_lots _ _ _ _ _ _ Hr); apply lookup_delete_eq|by split].
Qed.
End Theorems.

(** * The SERP auctions on a small chain

    The auctions of the pallet's own tests, on the ledger of [Externals]: two bidders with a
    thousand of each currency, and an auction pallet that counts ids and keeps bids. *)

(** ** The pallets around *)

Record Book : Type := MkBook { book_next : Z; book_bids : gmap Z (Z * Z) }.

#[global] Instance book_auctions : Auctions Book LedgerError Z := {
  auction_bid id b := book_bids b !! id;
  new_auction _ _ b := (Ok (book_next b), MkBook (book_next b + 1) (delete (book_next b) (book_bids b)));
  remove_auction id b := MkBook (book_next b) (delete id (book_bids b));
  store_bid id bid _ b := MkBook (book_next b) (<[id := bid]> (book_bids b))
}.

#[global] Instance book_laws : AuctionsLaws Book LedgerError Z.
Proof.
  refine {| next_id := book_next : Book -> Z |}.
  - intros start end_ au id au'. simpl. intros [= <- <-]. simpl. split_and!; [lia|lia|apply lookup_delete_eq|].
    intros j Hj. by apply lookup_delete_ne.
  - done.
  - intros id au j Hj. by apply lookup_delete_ne.
  - done.
  - intros id b e au j. simpl. rewrite lookup_insert. by repeat case_decide; subst.
Defined.

#[global] Instance ledger_amounts : MultiCurrencyAmounts Ledger LedgerError Z.
Proof.
  refine {| dust_of _ _ := 0 |}; [done|done|..].
  - intros * Hd Hv. simpl in Hd. simplify_eq. simpl. ledger_solve.
  - intros * Hw Hv. simpl in Hw. destruct (_ || _) in Hw; [done|]. simplify_eq. simpl. ledger_solve.
  - intros * Ht Hv. pose proof (mc_transfer_sender _ _ _ _ _ _ Ht Hv eq_refl). lia.
  - intros * Ht. apply ledger_transfer_inv in Ht as [[-> _]|(_ & Hne & _)]; done.
Qed.

#[global] Instance fixed_u128_total : FixedPointTotal fixed_u128.
Proof.
  split.
  - intros n d Hn Hd. simpl. rewrite (proj2 (Z.eqb_neq _ _)) by lia.
    assert (n * DIV / d <= umax 128) as Hle; [|by rewrite (proj2 (Z.leb_le _ _)) by done].
    transitivity DIV; [apply Z.div_le_upper_bound; unfold DIV; nia|by vm_compute].
  - intros r n Hn Hle. simpl in *. by rewrite (proj2 (Z.leb_le _ _)) by done.
Qed.

(** ** The chain of the tests *)

Definition hundredths (n : Z) : @FP fixed_u128 := MkFixed (n * DIV / 100).

Definition test_treasury : TreasuryConfig Z perbill :=
  MkTreasury (Token SETT) (Token DRAM) [Token SETT; Token USDJ] 100 101 102 103
    (pt_from_percent 10) (pt_from_percent 60) (pt_from_percent 10) (pt_from_percent 20).

Definition test_config : @SerpAuction.Config fixed_u128 := MkConfig _ (hundredths 3) (hundredths 2) (hundredths 1) 100 2000 (Token DNAR).

Definition bob : Z := 2.
Definition carol : Z := 3.

Definition bidders : Ledger :=
  MkLedger (list_to_map (map (fun k => (k, 1000)) [(Token SETT, bob); (Token SETT, carol); (Token DNAR, bob); (Token DNAR, carol); (Token USDJ, bob); (Token USDJ, carol)]))
    (list_to_map (map (fun c => (c, 2000)) [Token SETT; Token DNAR; Token USDJ])) ∅ 1.

Abbreviation TestState := (@SerpAuction.State Ledger Book Z).

Definition opening : TestState := MkState ∅ ∅ ∅ 0 ∅ ∅ [] (MkBook 0 ∅) bidders.

Definition act (a : @action Ledger Z bool) (s : TestState) : outcome (AuctionError + LedgerError) unit * TestState :=
  perform test_treasury test_config (fun o : bool => o) (inr BadOrigin) (fun _ => inl InvalidCurrencyType) a s.

(** A lot of 200 dinars for 100 setters, two bids, and the end. *)
Definition offered : TestState := (act (NewDiamond true 100 200) opening).2.
Definition bob_bids : TestState := (act (Bid 1 0 bob 100) offered).2.
Definition carol_bids : TestState := (act (Bid 2 0 carol 200) bob_bids).2.
Definition dealt : TestState := (act (End_ 0) carol_bids).2.

Lemma offered_run : act (NewDiamond true 100 200) opening = (Ok tt, offered).
Proof. exact (outcome_split (act (NewDiamond true 100 200) opening) (Ok tt) ltac:(vm_compute; reflexivity)). Qed.

Lemma bob_run : act (Bid 1 0 bob 100) offered = (Ok tt, bob_bids).
Proof. exact (outcome_split (act (Bid 1 0 bob 100) offered) (Ok tt) ltac:(vm_compute; reflexivity)). Qed.

Lemma carol_run : act (Bid 2 0 carol 200) bob_bids = (Ok tt, carol_bids).
Proof. exact (outcome_split (act (Bid 2 0 carol 200) bob_bids) (Ok tt) ltac:(vm_compute; reflexivity)). Qed.

Lemma dealt_run : act (End_ 0) carol_bids = (Ok tt, dealt).
Proof. exact (outcome_split (act (End_ 0) carol_bids) (Ok tt) ltac:(vm_compute; reflexivity)). Qed.

Lemma end_run_0 : end_auction (X := LedgerError) test_treasury test_config 0 carol_bids = (Ok tt, dealt).
Proof. pose proof dealt_run as Hr. unfold dealt. cbv beta zeta iota delta [act perform] in *. exact Hr. Qed.

Lemma opening_inv : auction_inv test_treasury test_config opening.
Proof.
  split.
  - intros id. simpl. rewrite !lookup_empty. split; by intros [].
  - done.
  - intros id lot Hlot. done.
Qed.

Definition cost_of (a : @action Ledger Z bool) (s : TestState) : CurrencyId -> Z -> Z := cost test_treasury test_config a s.

Definition spending (spent : CurrencyId -> Z -> Z) (a : @action Ledger Z bool) (s : TestState) (c : CurrencyId) (who : Z) : Z :=
  spent c who + cost_of a s c who.

Definition spent_until_bob : CurrencyId -> Z -> Z :=
  spending (spending (fun _ _ => 0) (NewDiamond true 100 200) opening) (Bid 1 0 bob 100) offered.

Definition spent_until_carol : CurrencyId -> Z -> Z := spending spent_until_bob (Bid 2 0 carol 200) bob_bids.

Definition spent_in_all : CurrencyId -> Z -> Z := spending spent_until_carol (End_ 0) carol_bids.

Abbreviation test_history := (history test_treasury test_config (fun o : bool => o) (inr BadOrigin) (fun _ => inl InvalidCurrencyType)).

Lemma small_unsigned v : 0 <= v <= 1000 -> in_uint 128 v.
Proof. intros Hv. split; [lia|]. transitivity 1000; [lia|by vm_compute]. Qed.

Lemma history_and spent a (s s' : TestState) :
  test_history true opening spent s -> unsigned a -> act a s = (Ok tt, s') -> test_history true opening (spending spent a s) s'.
Proof. apply history_done. Qed.

Lemma history_until_carol : test_history true opening spent_until_carol carol_bids.
Proof.
  apply history_and; [|by apply small_unsigned|exact carol_run].
  apply history_and; [|by apply small_unsigned|exact bob_run].
  apply history_and; [apply history_start|split; by apply small_unsigned|exact offered_run].
Qed.

Lemma history_in_all : test_history true opening spent_in_all dealt.
Proof. by apply history_and; [exact history_until_carol| |exact dealt_run]. Qed.

(** Bob, who was outbid, has what he had; Carol paid a hundred for her lot. *)
Lemma bidders_are_made_whole_witness :
  wealth test_treasury test_config dealt (Token SETT) bob = 1000 /\ wealth test_treasury test_config dealt (Token SETT) carol = 900
  /\ 1000 <= 900 + spent_in_all (Token SETT) carol.
Proof.
  split; [vm_compute; reflexivity|]. split; [vm_compute; reflexivity|].
  pose proof (bidders_are_made_whole test_treasury test_config _ _ _ opening spent_in_all dealt (Token SETT) carol opening_inv history_in_all) as Hw.
  assert (wealth test_treasury test_config opening (Token SETT) carol = 1000) as Ho by (vm_compute; reflexivity).
  assert (wealth test_treasury test_config dealt (Token SETT) carol = 900) as Hd by (vm_compute; reflexivity).
  rewrite Ho, Hd in Hw. exact Hw.
Defined.

Definition halved_lot : Lot := MkLot Diamond (Token SETT) (Some 100) (Token DNAR) 100 200.

Lemma carol_lot : lots test_treasury test_config carol_bids !! 0 = Some halved_lot.
Proof. vm_compute. reflexivity. Qed.

Lemma carol_bid : auction_bid 0 (auctions carol_bids) = Some (carol, 200).
Proof. vm_compute. reflexivity. Qed.

(** Twice the price, half the lot. *)
Lemma lots_keep_their_price_witness : 100 <= 200 /\ 100 * 200 <= 200 * 100.
Proof.
  pose proof (lots_keep_their_price test_treasury test_config _ _ _ true opening spent_until_carol carol_bids 0 halved_lot 100
    opening_inv history_until_carol carol_lot eq_refl) as [_ Hw].
  rewrite carol_bid in Hw. exact Hw.
Defined.

Lemma opening_totals : totals_ok test_treasury test_config true opening.
Proof. intros k c Hk. destruct k; (split; [vm_compute; congruence|by intros _; vm_compute]). Qed.

Lemma auction_totals_are_sums_witness :
  total_of carol_bids Diamond (Token SETT) = 100 /\ open_sum test_treasury test_config carol_bids Diamond (Token SETT) = 100
  /\ total_of carol_bids Diamond (Token SETT) = open_sum test_treasury test_config carol_bids Diamond (Token SETT).
Proof.
  split; [vm_compute; reflexivity|]. split; [vm_compute; reflexivity|].
  apply (auction_totals_are_sums test_treasury test_config _ _ _ true opening spent_until_carol carol_bids Diamond (Token SETT)
    opening_inv opening_totals history_until_carol); [by intros _|reflexivity].
Defined.

Lemma winner_gets_the_lot_witness : balance_of (Token DNAR) carol (chain dealt) = 1100 /\ lots test_treasury test_config dealt !! 0 = None.
Proof.
  split; [vm_compute; reflexivity|].
  pose proof (winner_gets_the_lot test_treasury test_config carol_bids dealt 0 halved_lot carol 200
    (history_inv test_treasury test_config _ _ _ true opening spent_until_carol carol_bids opening_inv history_until_carol) carol_lot carol_bid end_run_0) as Hw.
  exact (proj1 Hw).
Defined.

(** ** What the tests say *)

Example amounts_for_sale :
  amount_for_sale 200 100 0 100 = 200 /\ amount_for_sale 200 100 100 200 = 100 /\ amount_for_sale 200 100 200 1000 = 40.
Proof. vm_compute. done. Qed.

Example times_to_close : get_auction_time_to_close test_config 2000 1 = 100 /\ get_auction_time_to_close test_config 2001 1 = 50.
Proof. vm_compute. done. Qed.

(** Past the soft cap the tests want 105 after 100 to be refused; with the increments they
    configure, two percent of setters doubled, it is enough, as 51 after 50 is with the one
    percent of serplus. *)
Example small_increments_are_enough :
  check_minimum_increment 105 100 100 (get_setter_auction_minimum_increment_size test_config 2001 1) = true
  /\ check_minimum_increment 105 100 100 (get_diamond_auction_minimum_increment_size test_config 2001 1) = false
  /\ check_minimum_increment 105 100 0 (get_serplus_auction_minimum_increment_size test_config 2001 1) = true
  /\ check_minimum_increment 51 50 0 (get_serplus_auction_minimum_increment_size test_config 2 1) = true.
Proof. vm_compute. done. Qed.

(** Setters are stable currencies of the runtimes, but not accepted for setters: the call
    is refused after the auction pallet gave an id and the total was raised, and leaves
    nothing only because it is transactional. *)
Example setters_for_setters :
  (act (NewSetter true (Token SETT) 100 200) opening).1 = Err (inl CurrencyNotAccepted)
  /\ book_next (auctions (act (NewSetter true (Token SETT) 100 200) opening).2) = 0
  /\ total_settcurrency_in_auction (open_setter_auction (X := LedgerError) test_treasury test_config 200 100 (Token SETT) opening).2 (Token SETT) = 100.
Proof. vm_compute. done. Qed.
