(* ===== verification/RuntimeSerp.v ===== *)
(** * The SERP in the runtimes

    The parameters that runtime/{newrome,setheum,neom}/src/lib.rs give the SERP auctions and
    the SERP treasury, the same in all three but for the currencies, and what follows for
    serping up. The runtimes name a mock as the manager of auctions and a test origin for
    the treasury; neither is defined there. *)

From Stdlib Require Import String.
From S2P Require Import Prelude Currency Externals Governance TransactionPayment RuntimeConfig Staking StakingExamples SerpTreasury SerpAuction SerpAuctionTheorems.

Definition GetDexerCurrencyId (rt : Runtime) : CurrencyId :=
  match rt with NewromeRuntime | SetheumRuntime => Token DRAM | NeomRuntime => Token MENA end.

(** The amounts are hundredths, as their comments say. *)
Definition auction_config `{F : FixedPoint} `{!FixedPointArith F} (rt : Runtime) : SerpAuction.Config :=
  SerpAuction.MkConfig F (fp_saturating_from_rational 3 100) (fp_saturating_from_rational 2 100) (fp_saturating_from_rational 1 100)
    (15 * MINUTES) (2 * HOURS) (RuntimeConfig.GetNativeCurrencyId rt).

Definition treasury_config {A P : Type} `{!Perthing P} (rt : Runtime) (into_account : string -> A) (CharityFundAccount : A) : TreasuryConfig A P :=
  MkTreasury (RuntimeConfig.SetterCurrencyId rt) (GetDexerCurrencyId rt) (RuntimeStableCurrencyIds rt)
    (into_account "set/serp"%string) (into_account "set/stpy"%string) (into_account TreasuryPalletId) CharityFundAccount
    (pt_from_percent 10) (pt_from_percent 60) (pt_from_percent 10) (pt_from_percent 20).

(** A percentage of an amount is rounded to the nearest. *)
Class PercentLaws (P : Type) `{Perthing P} : Prop := {
  pt_percent_nearest n x : 0 <= n <= 100 -> 0 <= x -> n * x - 50 <= 100 * pt_mul (pt_from_percent n) x <= n * x + 50
}.

Section Serp.
Context {L X A P : Type} `{!MultiCurrency L X A} `{!FrameSystem L A} `{!MultiCurrencyLaws L X A} `{!Perthing P} `{!PerthingLaws P} `{!PercentLaws P}.
Variable rt : Runtime.
Variable into_account : string -> A.
Variable charity : A.

Abbreviation shares := (treasury_config (P := P) rt into_account charity).

(** The runtimes distribute the whole amount that a currency serps up by: what is issued is
    at most the amount but for the rounding of four shares, and stable currencies only are
    issued. *)
Theorem runtime_serpup_issues_the_amount c amount (s : list TreasuryEvent * L) u s' :
  0 <= amount -> on_serpup (X := X) shares c amount s = (Ok u, s') ->
  c ∈ RuntimeStableCurrencyIds rt
  /\ mc_total_issuance c (snd s) <= mc_total_issuance c (snd s') <= mc_total_issuance c (snd s) + amount + 2
  /\ forall c', c' <> c -> mc_total_issuance c' (snd s') = mc_total_issuance c' (snd s).
Proof.
  intros Ha Hrun. destruct (serpup_issues_the_shares shares c amount s u s' Ha Hrun) as (Hc & _ & Hissued & Hothers).
  unfold contains, currency_eqb in Hc. apply existsb_exists in Hc as (c' & Hin & Heq). apply bool_decide_eq_true in Heq as <-.
  split; [by apply list_elem_of_In|]. split; [|done]. unfold treasury_config in Hissued. simpl in Hissued.
  pose proof (pt_percent_nearest (P := P) 10 amount). pose proof (pt_percent_nearest (P := P) 60 amount). pose proof (pt_percent_nearest (P := P) 20 amount). lia.
Qed.
End Serp.

(** ** Of a million, a million *)

#[global] Instance perbill_percent : PercentLaws perbill.
Proof.
  split. intros n x Hn Hx. simpl. unfold parts_of. simpl.
  unfold BILLION. change (10 ^ 9 / 100) with 10000000. change (10 ^ 9 / 2 - 1) with 499999999. change (10 ^ 9) with 1000000000.
  rewrite Z.min_l, Z.max_r by lia.
  pose proof (Z.mul_div_le (n * 10000000 * x + 499999999) 1000000000 ltac:(lia)). pose proof (Z.mul_succ_div_gt (n * 10000000 * x + 499999999) 1000000000 ltac:(lia)). lia.
Qed.

Definition runtime_shares : TreasuryConfig Z perbill := treasury_config NewromeRuntime (fun _ => 100) 103.

Definition serped_up : list TreasuryEvent * Ledger := (on_serpup (X := LedgerError) runtime_shares (Token USDJ) 1000000 ([], bidders)).2.

Lemma serped_up_run : on_serpup (X := LedgerError) runtime_shares (Token USDJ) 1000000 ([], bidders) = (Ok tt, serped_up).
Proof.
  assert ((on_serpup (X := LedgerError) runtime_shares (Token USDJ) 1000000 ([], bidders)).1 = Ok tt) as E by (vm_compute; reflexivity).
  exact (outcome_split _ _ E).
Qed.

Lemma runtime_serpup_issues_the_amount_witness :
  issuance_of (Token USDJ) serped_up.2 = 1002000 /\ 1002000 <= 2000 + 1000000 + 2 /\ issuance_of (Token SETT) serped_up.2 = 2000.
Proof.
  destruct (runtime_serpup_issues_the_amount NewromeRuntime (fun _ => 100) 103 (Token USDJ) 1000000 ([], bidders) tt serped_up ltac:(lia) serped_up_run)
    as (_ & [_ Hle] & Hothers).
  assert (issuance_of (Token USDJ) serped_up.2 = 1002000) as Hi by (vm_compute; reflexivity).
  split; [exact Hi|]. split; [|exact (Hothers (Token SETT) ltac:(discriminate))].
  change (issuance_of (Token USDJ) serped_up.2 <= 2000 + 1000000 + 2) in Hle. rewrite Hi in Hle. exact Hle.
Defined.
