(* ===== verification/SettmintGateway.v ===== *)
(** * The Settmint engine and gateway

    [lib-serml/settmint/settmint-engine/src/lib.rs] with its convertor, and
    [lib-serml/settmint/settmint-gateway/src/lib.rs]: the engine converts amounts and judges
    positions for the manager of [SettmintManager], with the treasury of [SerpTreasury]
    behind it; the gateway holds the calls of users and whom they have authorized.

    The sources are read as follows where they have no type. A function of the engine that
    returns no result cannot refuse a currency, so its [ensure] is left out. The
    authorizations, declared with balances, hold the booleans that are written and read. *)

From S2P Require Import Prelude Currency Externals Staking SettmintManager SerpTreasury.

(** ** The engine *)

Inductive EngineError : Type := EngineInvalidStandardType | RemainStandardValueTooSmall | InvalidFeedPrice.

Record EngineConfig `{FixedPoint} : Type := MkEngine {
  EngineStandardCurrencyIds : list CurrencyId;
  DefaultStandardExchangeRate : FP;
  MinimumStandardValue : Z;
  EngineReserveCurrencyId : CurrencyId
}.

(** The price source. *)
Class PriceProvider (L : Type) `{FixedPoint} : Type := {
  get_relative_price : CurrencyId -> CurrencyId -> L -> option FP
}.

Section Engine.
Context {L X A : Type} `{F : FixedPoint} `{!PriceProvider L} `{!MultiCurrency L X A}.
Variable cfg : EngineConfig.

(** [StandardExchangeRate]: nothing in the pallet writes it. *)
Variable rates : gmap CurrencyId FP.

Definition get_standard_exchange_rate (currency_id : CurrencyId) : FP := default (DefaultStandardExchangeRate cfg) (rates !! currency_id).

(** [StandardExchangeRateConvertor::convert]. *)
Definition convert_standard (currency_id : CurrencyId) (balance : Z) : Z :=
  fp_saturating_mul_int (get_standard_exchange_rate currency_id) balance.

Definition get_standard_value (currency_id : CurrencyId) (standard_balance : Z) : Z := convert_standard currency_id standard_balance.

Definition calculate_reserve_ratio (currency_id : CurrencyId) (reserve_balance standard_balance : Z) (price : FP) : FP :=
  let locked_reserve_value := fp_saturating_mul_int price reserve_balance in
  let standard_value := get_standard_value currency_id standard_balance in
  fp_or_default (fp_checked_from_rational locked_reserve_value standard_value).

(** The ratio is computed and not looked at. *)
Definition engine_check_position_valid (currency_id : CurrencyId) (reserve_balance standard_balance : Z) (l : L) : outcome EngineError unit :=
  if standard_balance =? 0 then Ok tt
  else
    let standard_value := get_standard_value currency_id standard_balance in
    let? feed_price := ok_or_err (get_relative_price (EngineReserveCurrencyId cfg) currency_id l) InvalidFeedPrice in
    let _ := calculate_reserve_ratio currency_id reserve_balance standard_balance feed_price in
    do? oensure (contains currency_id (EngineStandardCurrencyIds cfg)) EngineInvalidStandardType in
    oensure (MinimumStandardValue cfg <=? standard_value) RemainStandardValueTooSmall.

(** [DispatchError::from], and the handler of updates. *)
Variable into_error : EngineError -> X.
Variable on_update : A -> CurrencyId -> Z -> Z -> L -> L.

(** What the manager is configured with. *)
Definition engine_chain : SettmintChain L X A := {|
  convert currency_id balance _ := convert_standard currency_id balance;
  SettmintManager.issue_standard currency_id who standard := SerpTreasury.issue_standard currency_id who standard;
  SettmintManager.burn_standard who currency_id standard := SerpTreasury.burn_standard currency_id who standard;
  check_position_valid currency_id r st l :=
    match engine_check_position_valid currency_id r st l with Ok u => Ok u | Err e => Err (into_error e) | Panic => Panic end;
  on_update_settmint := on_update
|}.
End Engine.

(** ** The gateway *)

Inductive GatewayError : Type := NoAuthorization.

Inductive GatewayEvent (A : Type) : Type :=
| Authorization (authorizer authorizee : A) (currency_id : CurrencyId)
| UnAuthorization (authorizer authorizee : A) (currency_id : CurrencyId)
| UnAuthorizationAll (authorizer : A).

Arguments Authorization {A}.
Arguments UnAuthorization {A}.
Arguments UnAuthorizationAll {A}.

Section Gateway.
Context {L X A Origin Source : Type} `{Countable A} `{!MultiCurrency L X A} `{!FrameSystem L A} `{!SettmintChain L X A}.
Variable StandardCurrencyIds : list CurrencyId.
Variable GetReserveCurrencyId : CurrencyId.
Variable account_id : A.

(** [ensure_signed], [T::Lookup] and their errors. *)
Variable signed_by : Origin -> option A.
Variable lookup_source : Source -> option A.
Variable bad_origin cannot_lookup : X.

Record GatewayState : Type := MkGateway {
  authorization : gmap (A * (CurrencyId * A)) bool;
  gateway_events : list (GatewayEvent A);
  manager : @State L A _ _
}.

Abbreviation Run := (M GatewayState (GatewayError + (SettmintError + X))).

Definition set_authorization (f : gmap (A * (CurrencyId * A)) bool -> gmap (A * (CurrencyId * A)) bool) (s : GatewayState) : GatewayState :=
  MkGateway (f (authorization s)) (gateway_events s) (manager s).

Definition deposit_gateway_event (e : GatewayEvent A) (s : GatewayState) : GatewayState :=
  MkGateway (authorization s) (gateway_events s ++ [e]) (manager s).

Definition on_manager {B : Type} (m : M (@State L A _ _) (SettmintError + X) B) : Run B :=
  zoom manager (fun g s => MkGateway (authorization s) (gateway_events s) g) inr m.

Definition gateway_signed (origin : Origin) : Run A := ok_or (signed_by origin) (inr (inr bad_origin)).

Definition gateway_lookup (source : Source) : Run A := ok_or (lookup_source source) (inr (inr cannot_lookup)).

(** The getter of [Authorization]: absent is false. *)
Definition authorized (s : GatewayState) (from : A) (currency_id : CurrencyId) (to : A) : bool :=
  default false (authorization s !! (from, (currency_id, to))).

Definition check_authorization (from to : A) (currency_id : CurrencyId) : Run unit :=
  let! s := get in
  ensure (bool_decide (from = to) || authorized s from currency_id to) (inl NoAuthorization).

Definition gateway_adjust_position (origin : Origin) (currency_id : CurrencyId) (reserve_adjustment standard_adjustment : Amount) : Run unit :=
  transactional (
    let! who := gateway_signed origin in
    on_manager (adjust_position StandardCurrencyIds GetReserveCurrencyId account_id who currency_id reserve_adjustment standard_adjustment)).

Definition transfer_position_from (origin : Origin) (currency_id : CurrencyId) (from : Source) : Run unit :=
  transactional (
    let! to := gateway_signed origin in
    let! from := gateway_lookup from in
    do! check_authorization from to currency_id in
    on_manager (transfer_reserve from to currency_id)).

Definition authorize (origin : Origin) (currency_id : CurrencyId) (to : Source) : Run unit :=
  transactional (
    let! from := gateway_signed origin in
    let! to := gateway_lookup to in
    do! modify (set_authorization <[(from, (currency_id, to)) := true]>) in
    modify (deposit_gateway_event (Authorization from to currency_id))).

Definition unauthorize (origin : Origin) (currency_id : CurrencyId) (to : Source) : Run unit :=
  transactional (
    let! from := gateway_signed origin in
    let! to := gateway_lookup to in
    do! modify (set_authorization (delete (from, (currency_id, to)))) in
    modify (deposit_gateway_event (UnAuthorization from to currency_id))).

Definition unauthorize_all (origin : Origin) : Run unit :=
  transactional (
    let! from := gateway_signed origin in
    do! modify (set_authorization (filter (fun entry => entry.1.1 <> from))) in
    modify (deposit_gateway_event (UnAuthorizationAll from))).
End Gateway.
