(* ===== verification/SettmintGatewayTheorems.v ===== *)
(** * Positions obey their owners

    Over the calls of the gateway: an authorization is what the authorizer said last, a
    position changes only for its owner or for an account the owner authorized, and with
    the engine as the judge no position is left with dust. *)

From S2P Require Import Prelude Currency Externals Staking SettmintManager SettmintTheorems SerpTreasury SettmintGateway.

Section Gateway.
Context {L X A Origin Source : Type} `{Countable A} `{!MultiCurrency L X A} `{!FrameSystem L A} `{!SettmintChain L X A}.
Variable StandardCurrencyIds : list CurrencyId.
Variable GetReserveCurrencyId : CurrencyId.
Variable account_id : A.
Variable signed_by : Origin -> option A.
Variable lookup_source : Source -> option A.
Variable bad_origin cannot_lookup : X.

Abbreviation St := (@GatewayState L A _ _).
Abbreviation Run := (M St (GatewayError + (SettmintError + X))).

(** ** Calls *)

Inductive gateway_call : Type :=
| AdjustPosition (origin : Origin) (currency_id : CurrencyId) (reserve_adjustment standard_adjustment : Amount)
| TransferPositionFrom (origin : Origin) (currency_id : CurrencyId) (from : Source)
| Authorize (origin : Origin) (currency_id : CurrencyId) (to : Source)
| Unauthorize (origin : Origin) (currency_id : CurrencyId) (to : Source)
| UnauthorizeAll (origin : Origin).

Definition origin_of (call : gateway_call) : Origin :=
  match call with
  | AdjustPosition o _ _ _ | TransferPositionFrom o _ _ | Authorize o _ _ | Unauthorize o _ _ | UnauthorizeAll o => o
  end.

Definition dispatch (call : gateway_call) : Run unit :=
  match call with
  | AdjustPosition o c ra sa => gateway_adjust_position StandardCurrencyIds GetReserveCurrencyId account_id signed_by bad_origin o c ra sa
  | TransferPositionFrom o c from => transfer_position_from signed_by lookup_source bad_origin cannot_lookup o c from
  | Authorize o c to => authorize signed_by lookup_source bad_origin cannot_lookup o c to
  | Unauthorize o c to => unauthorize signed_by lookup_source bad_origin cannot_lookup o c to
  | UnauthorizeAll o => unauthorize_all signed_by bad_origin o
  end.

(** The calls so far, the last one first, whether they succeeded or not; and what else
    happens on the chain. *)
Inductive ran (s0 : St) : list gateway_call -> St -> Prop :=
| ran_start : ran s0 [] s0
| ran_call calls s call r s' : ran s0 calls s -> dispatch call s = (r, s') -> ran s0 (call :: calls) s'
| ran_elsewhere calls s l : ran s0 calls s -> ran s0 calls (MkGateway (authorization s) (gateway_events s) (set_chain l (manager s))).

(** ** Authorizations *)

(** Has [from] permitted [to] to take positions of [c], by what [from] said last of it? *)
Fixpoint permitted (calls : list gateway_call) (from : A) (c : CurrencyId) (to : A) : bool :=
  match calls with
  | [] => false
  | call :: calls =>
      let before := permitted calls from c to in
      match call with
      | Authorize o c' to' => if bool_decide (signed_by o = Some from /\ c' = c /\ lookup_source to' = Some to) then true else before
      | Unauthorize o c' to' => if bool_decide (signed_by o = Some from /\ c' = c /\ lookup_source to' = Some to) then false else before
      | UnauthorizeAll o => if bool_decide (signed_by o = Some from) then false else before
      | _ => before
      end
  end.

Lemma dispatch_err call s r s' : dispatch call s = (r, s') -> (forall a, r <> Ok a) -> s' = s.
Proof. intros Hrun Hr. destruct call; simpl in Hrun; eapply transactional_rollback; eauto. Qed.

Lemma on_manager_keeps {B : Type} (m : M (@State L A _ _) (SettmintError + X) B) (s : St) r s' :
  on_manager m s = (r, s') -> authorization s' = authorization s.
Proof. unfold on_manager, zoom. destruct (m (manager s)) as [[b|x|] g]; by intros [= _ <-]. Qed.

(** What a successful call does to the authorizations. *)
Lemma dispatch_authorized call (s : St) s' from c to :
  dispatch call s = (Ok tt, s') ->
  authorized s' from c to
  = match call with
    | Authorize o c' to' => if bool_decide (signed_by o = Some from /\ c' = c /\ lookup_source to' = Some to) then true else authorized s from c to
    | Unauthorize o c' to' => if bool_decide (signed_by o = Some from /\ c' = c /\ lookup_source to' = Some to) then false else authorized s from c to
    | UnauthorizeAll o => if bool_decide (signed_by o = Some from) then false else authorized s from c to
    | _ => authorized s from c to
    end.
Proof.
  intros Hrun. destruct call; simpl in Hrun.
  - unfold gateway_adjust_position, gateway_signed in Hrun. run_step Hrun. unfold authorized. by erewrite on_manager_keeps.
  - unfold transfer_position_from, gateway_signed, gateway_lookup, check_authorization in Hrun. run_step Hrun. subst.
    unfold authorized. by erewrite on_manager_keeps.
  - unfold authorize, gateway_signed, gateway_lookup in Hrun. run_inv Hrun. unfold authorized. simpl. case_bool_decide as Hk.
    + destruct Hk as (? & -> & ?). simplify_eq. by rewrite lookup_insert_eq.
    + rewrite lookup_insert_ne; [done|]. intros [= -> -> ->]. by apply Hk.
  - unfold unauthorize, gateway_signed, gateway_lookup in Hrun. run_inv Hrun. unfold authorized. simpl. case_bool_decide as Hk.
    + destruct Hk as (? & -> & ?). simplify_eq. by rewrite lookup_delete_eq.
    + rewrite lookup_delete_ne; [done|]. intros [= -> -> ->]. by apply Hk.
  - unfold unauthorize_all, gateway_signed in Hrun. run_inv Hrun. unfold authorized. simpl. case_bool_decide as Hk.
    + rewrite map_lookup_filter_None_2; [done|]. right. intros b _ Hne. simpl in Hne. congruence.
    + destruct (authorization s !! (from, (c, to))) as [b|] eqn:E.
      * rewrite (map_lookup_filter_Some_2 _ _ _ b); [done|done|]. simpl. congruence.
      * rewrite map_lookup_filter_None_2; [done|by left].
Qed.

(** The calls about authorizations fail only for an origin that is not signed or a name that
    is not found. *)
Lemma authorizing_succeeds call (s : St) r s' :
  dispatch call s = (r, s') -> (forall u, r <> Ok u) ->
  match call with
  | Authorize o _ to | Unauthorize o _ to => signed_by o = None \/ lookup_source to = None
  | UnauthorizeAll o => signed_by o = None
  | _ => True
  end.
Proof.
  intros Hrun Hr. destruct call as [| |o c to|o c to|o]; simpl in Hrun; try done;
    unfold authorize, unauthorize, unauthorize_all, gateway_signed, gateway_lookup, transactional, bind, ok_or, ret, modify in Hrun;
    destruct (signed_by o) as [from|]; try (by auto); try (destruct (lookup_source to) as [t|]; try (by auto));
    injection Hrun as <- <-; by destruct (Hr tt).
Qed.

Lemma follows s0 calls s from c to :
  authorization s0 = ∅ -> ran s0 calls s -> authorized s from c to = permitted calls from c to.
Proof.
  intros H0 Hran. induction Hran as [|calls s call r s' _ IH Hrun|calls s l _ IH]; [|simpl; rewrite <- IH|done].
  - unfold authorized. by rewrite H0, lookup_empty.
  - destruct r as [[]|e|].
    + rewrite (dispatch_authorized call s s' from c to Hrun). by destruct call.
    + pose proof (authorizing_succeeds call s _ s' Hrun ltac:(done)) as Hno. apply dispatch_err in Hrun as ->; [|done].
      destruct call; try done; case_bool_decide as Hk; naive_solver.
    + pose proof (authorizing_succeeds call s _ s' Hrun ltac:(done)) as Hno. apply dispatch_err in Hrun as ->; [|done].
      destruct call; try done; case_bool_decide as Hk; naive_solver.
Qed.

(** An account may take the positions of another in a currency exactly if the last that
    the other said of it, by name or of all at once, was to authorize it. *)
Theorem authorizations_follow_the_calls s0 calls s from c to :
  authorization s0 = ∅ -> ran s0 calls s -> authorized s from c to = permitted calls from c to.
Proof. apply follows. Qed.

(** ** Positions *)

Lemma position_tables (s s' : @State L A _ _) c who : tables s' = tables s -> position_of s' c who = position_of s c who.
Proof. intros Ht. unfold position_of. unfold tables in Ht. by injection Ht as -> _. Qed.

Lemma dispatch_consistent call (s : St) r s' : consistent (manager s) -> dispatch call s = (r, s') -> consistent (manager s').
Proof.
  intros Hs Hrun. destruct r as [[]|e|]; [|by rewrite (dispatch_err call s _ s' Hrun)..].
  destruct call; simpl in Hrun.
  - unfold gateway_adjust_position, gateway_signed, on_manager in Hrun. run_step Hrun. subst. simpl.
    match goal with Hm : adjust_position _ _ _ _ _ _ _ _ = _ |- _ => apply adjust_ok in Hm as (s1 & Hu & Ht & _) end.
    apply (consistent_same s1 _ Ht). by eapply update_reserve_consistent.
  - unfold transfer_position_from, gateway_signed, gateway_lookup, check_authorization, on_manager in Hrun. run_step Hrun. subst. simpl.
    match goal with Hm : transfer_reserve _ _ _ _ = _ |- _ => apply transfer_ok in Hm as (s1 & s2 & Hu1 & Hu2 & Ht & _) end.
    apply (consistent_same s2 _ Ht). eapply update_reserve_consistent, Hu2. by eapply update_reserve_consistent.
  - unfold authorize, gateway_signed, gateway_lookup in Hrun. by run_inv Hrun.
  - unfold unauthorize, gateway_signed, gateway_lookup in Hrun. by run_inv Hrun.
  - unfold unauthorize_all, gateway_signed in Hrun. by run_inv Hrun.
Qed.

Lemma ran_consistent s0 calls s : consistent (manager s0) -> ran s0 calls s -> consistent (manager s).
Proof.
  intros H0. induction 1 as [|calls s call r s' _ IH Hrun|calls s l _ IH]; [done|by eapply dispatch_consistent|].
  by apply (consistent_same (manager s)).
Qed.

Lemma dispatch_positions call (s : St) r s' c owner :
  consistent (manager s) -> dispatch call s = (r, s') ->
  position_of (manager s') c owner <> position_of (manager s) c owner ->
  exists caller, signed_by (origin_of call) = Some caller
    /\ (caller = owner \/ authorized s owner c caller = true /\ position_of (manager s') c owner = position_default).
Proof.
  intros Hs Hrun Hchanged. destruct r as [[]|e|]; [|by rewrite (dispatch_err call s _ s' Hrun) in Hchanged..]. destruct call; simpl in Hrun; simpl.
  - unfold gateway_adjust_position, gateway_signed, on_manager in Hrun. run_step Hrun. subst. simpl in *.
    eexists. split; [eassumption|]. left.
    match goal with Hm : adjust_position _ _ _ ?w _ _ _ _ = _ |- _ => apply adjust_ok in Hm as (s1 & Hu & Ht & _); destruct (decide (w = owner)) as [|Hne]; [done|exfalso] end.
    apply update_reserve_position in Hu as (_ & Ho & _); [|done]. apply Hchanged. rewrite (position_tables _ _ c owner Ht). apply Ho. congruence.
  - unfold transfer_position_from, gateway_signed, gateway_lookup, check_authorization, on_manager in Hrun. run_step Hrun. subst. simpl in *.
    eexists. split; [eassumption|].
    match goal with Hm : transfer_reserve ?f ?t _ _ = _, Hg : _ || _ = true |- _ =>
      destruct (decide (t = owner)) as [|Hto]; [by left|right]; destruct (decide (f = t)) as [->|Hne];
      [apply transfer_ok in Hm as (s1 & s2 & Hu1 & Hu2 & Ht & _)|apply transfer_reserve_spec in Hm as (Hf & _ & _ & Ho); [|done|done]] end.
    + exfalso. pose proof (update_reserve_consistent _ _ _ _ _ _ _ Hs Hu1) as Hs1.
      apply update_reserve_position in Hu1 as (_ & O1 & _); [|done]. apply update_reserve_position in Hu2 as (_ & O2 & _); [|done].
      apply Hchanged. rewrite (position_tables _ _ c owner Ht), O2, O1 by congruence. done.
    + match goal with Hm : forall _ _, (_, _) <> (_, ?f) -> _ |- _ => destruct (decide (f = owner)) as [->|Hfo] end.
      * match goal with Hg : _ || _ = true |- _ => rewrite bool_decide_eq_false_2 in Hg by done; simpl in Hg end.
        destruct (decide (c = currency_id)) as [->|Hc]; [done|]. exfalso. apply Hchanged. apply Ho; congruence.
      * exfalso. apply Hchanged. apply Ho; congruence.
  - unfold authorize, gateway_signed, gateway_lookup in Hrun. by run_inv Hrun.
  - unfold unauthorize, gateway_signed, gateway_lookup in Hrun. by run_inv Hrun.
  - unfold unauthorize_all, gateway_signed in Hrun. by run_inv Hrun.
Qed.

(** C25: a call changes a position only if its caller owns it, or was authorized by the owner
    and takes all of it; without a signature nothing changes. *)
Theorem positions_obey_their_owners s0 calls s call r s' c owner :
  authorization s0 = ∅ -> consistent (manager s0) -> ran s0 calls s -> dispatch call s = (r, s') ->
  position_of (manager s') c owner <> position_of (manager s) c owner ->
  exists caller, signed_by (origin_of call) = Some caller
    /\ (caller = owner \/ permitted calls owner c caller = true /\ position_of (manager s') c owner = position_default).
Proof.
  intros H0 Hc0 Hran Hrun Hchanged.
  destruct (dispatch_positions call s r s' c owner) as (caller & Hsigned & Hcaller); [by eapply ran_consistent|done|done|].
  exists caller. split; [done|]. destruct Hcaller as [->|[Ha Hp]]; [by left|right].
  split; [|done]. by rewrite <- (follows s0 calls s owner c caller H0 Hran).
Qed.
(** ** What the validator accepts *)

(** Whatever the validator grants of every position that it accepts holds of every position. *)
Lemma ran_valid (good : CurrencyId -> Position -> Prop) s0 calls s :
  (forall c, good c position_default) ->
  (forall c r st l, check_position_valid (A := A) c r st l = Ok tt -> good c (MkPosition r st)) ->
  positions (manager s0) = ∅ -> consistent (manager s0) -> ran s0 calls s ->
  forall c who, good c (position_of (manager s) c who).
Proof.
  intros Hzero Hgood Hempty Hc0 Hran. induction Hran as [|calls s call r s' Hran IH Hrun|calls s l _ IH].
  - intros c who. unfold position_of. rewrite Hempty, lookup_empty. apply Hzero.
  - assert (consistent (manager s)) as Hs by (by eapply ran_consistent).
    destruct r as [[]|e|]; [|by rewrite (dispatch_err call s _ s' Hrun)..]. intros c who. destruct call; simpl in Hrun.
    + unfold gateway_adjust_position, gateway_signed, on_manager in Hrun. run_step Hrun. subst. simpl.
      match goal with Hm : adjust_position _ _ _ ?w ?k _ _ _ = _ |- _ =>
        pose proof (adjust_checked _ _ _ _ _ _ _ _ _ _ Hm) as [l Hl]; apply adjust_ok in Hm as (s1 & Hu & Ht & _);
        destruct (decide ((c, who) = (k, w))) as [[= -> ->]|Hne] end.
      * apply Hgood in Hl. by destruct (position_of _ _ _).
      * apply update_reserve_position in Hu as (_ & Ho & _); [|done]. rewrite (position_tables _ _ c who Ht), Ho by done. apply IH.
    + unfold transfer_position_from, gateway_signed, gateway_lookup, check_authorization, on_manager in Hrun. run_step Hrun. subst. simpl.
      match goal with Hm : transfer_reserve ?f ?t ?k _ = _ |- _ =>
        pose proof (transfer_checked _ _ _ _ _ _ Hm) as [l Hl];
        destruct (decide (f = t)) as [->|Hft];
        [apply transfer_ok in Hm as (s1 & s2 & Hu1 & Hu2 & Ht & Hr & Hst)
        |apply transfer_reserve_spec in Hm as (Pf & Pt & _ & Po); [|done|done];
         destruct (decide ((c, who) = (k, f))) as [[= -> ->]|Hcf]; [by rewrite Pf|];
         destruct (decide ((c, who) = (k, t))) as [[= -> ->]|Hct]; [rewrite Pt; by eapply Hgood|rewrite Po by done; apply IH]] end.
      match goal with Hx : update_reserve ?t ?k _ _ (manager s) = _ |- _ => specialize (IH c who) as Hold; rename t into owner, k into kind end.
      pose proof (update_reserve_consistent _ _ _ _ _ _ _ Hs Hu1) as Hs1.
      apply update_reserve_position in Hu1 as (P1 & O1 & _); [|done]. apply update_reserve_position in Hu2 as (P2 & O2 & _); [|done].
      rewrite (position_tables _ _ c who Ht). destruct (decide ((c, who) = (kind, owner))) as [[= -> ->]|Hne]; [|by rewrite O2, O1].
      rewrite P2, P1. unfold moved. simpl. pose proof (position_fits _ kind owner Hs) as [[Hn1 _] [Hn2 _]].
      rewrite !delta_neg, !delta_exact by (unfold i128_min, i128_max in *; lia).
      destruct (position_of (manager s) kind owner) as [r0 st0]; simpl in *.
      replace (MkPosition _ _) with (MkPosition r0 st0) by (f_equal; lia). done.
    + unfold authorize, gateway_signed, gateway_lookup in Hrun. run_inv Hrun. apply IH.
    + unfold unauthorize, gateway_signed, gateway_lookup in Hrun. run_inv Hrun. apply IH.
    + unfold unauthorize_all, gateway_signed in Hrun. run_inv Hrun. apply IH.
  - apply IH.
Qed.
End Gateway.

(** ** With the engine as the validator *)

Section Engine.
Context {L X A Origin Source : Type} `{Countable A} `{!MultiCurrency L X A} `{!FrameSystem L A} `{F : FixedPoint} `{!PriceProvider L}.
Variable cfg : EngineConfig.
Variable rates : gmap CurrencyId FP.
Variable into_error : EngineError -> X.
Variable on_update : A -> CurrencyId -> Z -> Z -> L -> L.
Variable GetReserveCurrencyId : CurrencyId.
Variable account_id : A.
Variable signed_by : Origin -> option A.
Variable lookup_source : Source -> option A.
Variable bad_origin cannot_lookup : X.

#[local] Instance the_engine : SettmintChain L X A := engine_chain cfg rates into_error on_update.

(** What the engine grants of the positions that it accepts. *)
Lemma engine_accepts c r st (l : L) :
  engine_check_position_valid cfg rates c r st l = Ok tt <->
  st = 0 \/ (get_relative_price (EngineReserveCurrencyId cfg) c l <> None
             /\ c ∈ EngineStandardCurrencyIds cfg /\ MinimumStandardValue cfg <= get_standard_value cfg rates c st).
Proof.
  unfold engine_check_position_valid. destruct (Z.eqb_spec st 0) as [->|Hst]; [naive_solver|].
  assert (contains c (EngineStandardCurrencyIds cfg) = true <-> c ∈ EngineStandardCurrencyIds cfg) as Hc.
  { unfold contains. rewrite existsb_exists, list_elem_of_In. unfold currency_eqb. split; [|by exists c; rewrite bool_decide_eq_true_2].
    intros (c' & Hin & Heq). by apply bool_decide_eq_true in Heq as ->. }
  destruct (get_relative_price _ _ _); simpl; [|naive_solver].
  destruct (contains _ _); simpl; [|naive_solver].
  destruct (Z.leb_spec (MinimumStandardValue cfg) (get_standard_value cfg rates c st)); naive_solver lia.
Qed.

(** The calls of the gateway leave no dust: whatever has been called, an account that
    owes standards owes them in a standard currency and to at least the minimum value. *)
Theorem no_position_is_dust s0 calls s c who :
  positions (manager s0) = ∅ -> consistent (manager s0) ->
  ran (X := X) (EngineStandardCurrencyIds cfg) GetReserveCurrencyId account_id signed_by lookup_source bad_origin cannot_lookup s0 calls s ->
  let p := position_of (manager s) c who in
  standard p = 0 \/ (c ∈ EngineStandardCurrencyIds cfg /\ MinimumStandardValue cfg <= get_standard_value cfg rates c (standard p)).
Proof.
  intros Hempty Hc0 Hran.
  apply (ran_valid (X := X) (EngineStandardCurrencyIds cfg) GetReserveCurrencyId account_id signed_by lookup_source bad_origin cannot_lookup
    (fun c p => standard p = 0 \/ (c ∈ EngineStandardCurrencyIds cfg /\ MinimumStandardValue cfg <= get_standard_value cfg rates c (standard p)))
    s0 calls s); [by left| |done|done|exact Hran].
  intros k r st l Hok. simpl in *.
  destruct (engine_check_position_valid cfg rates k r st l) as [[]| |] eqn:E; [|done..].
  apply engine_accepts in E as [E|(_ & Hin & Hmin)]; [by left|by right].
Qed.
End Engine.

(** * Positions through the gateway, with the engine and the treasury

    The manager of [SettmintManager] over the engine of [SettmintGateway] and the treasury
    of [SerpTreasury], on the ledger of [Externals]. A price is one. *)

From S2P Require Import Prelude Currency Externals Staking StakingExamples SettmintManager SettmintTheorems SerpTreasury SettmintGateway.

Definition one : @FP fixed_u128 := MkFixed DIV.

#[local] Instance par : @PriceProvider Ledger fixed_u128 := {| get_relative_price _ _ _ := Some one |}.

Definition engine : @EngineConfig fixed_u128 := MkEngine _ [Token USDJ] one 10 (Token SETT).

Definition refuse (e : EngineError) : LedgerError := BadOrigin.

#[local] Instance engine_on_ledger : SettmintChain Ledger LedgerError Z :=
  engine_chain engine ∅ refuse (fun _ _ _ _ l => l).

Definition usdj : CurrencyId := Token USDJ.
Definition alice : Z := 1.
Definition bob : Z := 2.
Definition carol : Z := 3.

Definition start : GatewayState (L := Ledger) (A := Z) :=
  MkGateway ∅ [] (MkState ∅ ∅ [] (MkLedger {[(Token SETT, alice) := 1000; (Token SETT, bob) := 1000]} {[Token SETT := 2000]} ∅ 0)).

(** An origin is an account or none; a source is the account. *)
Definition run (call : @gateway_call (option Z) Z) (s : GatewayState (L := Ledger) (A := Z)) :=
  dispatch (X := LedgerError) [usdj] (Token SETT) 100 (fun o : option Z => o) (fun a : Z => Some a) BadOrigin BadOrigin call s.

Definition opened := (run (AdjustPosition (Some alice) usdj 50 20) start).2.
Definition trusted := (run (Authorize (Some alice) usdj bob) opened).2.
Definition handed := (run (TransferPositionFrom (Some bob) usdj alice) trusted).2.
Definition refused := (run (TransferPositionFrom (Some carol) usdj alice) trusted).2.
Definition forgotten := (run (UnauthorizeAll (Some alice)) trusted).2.

Abbreviation Ran := (SettmintGatewayTheorems.ran (X := LedgerError) [usdj] (Token SETT) 100 (fun o : option Z => o) (fun a : Z => Some a) BadOrigin BadOrigin start).

Lemma trusted_ran : Ran [Authorize (Some alice) usdj bob; AdjustPosition (Some alice) usdj 50 20] trusted.
Proof. repeat (eapply ran_call; [|apply surjective_pairing]). apply ran_start. Qed.

Lemma forgotten_ran : Ran [UnauthorizeAll (Some alice); Authorize (Some alice) usdj bob; AdjustPosition (Some alice) usdj 50 20] forgotten.
Proof. eapply ran_call; [apply trusted_ran|apply surjective_pairing]. Qed.

Lemma start_consistent : consistent (manager start).
Proof. apply (reachable_consistent (X := LedgerError) [] (Token SETT) 0). by apply Empty. Qed.

Example only_the_trusted_takes :
  position_of (manager handed) usdj bob = MkPosition 50 20 /\ position_of (manager handed) usdj alice = position_default
  /\ (run (TransferPositionFrom (Some carol) usdj alice) trusted).1 = Err (inl NoAuthorization)
  /\ (run (TransferPositionFrom (Some bob) usdj alice) forgotten).1 = Err (inl NoAuthorization)
  /\ balance_of usdj alice (chain (manager opened)) = 20 /\ balance_of (Token SETT) 100 (chain (manager opened)) = 50.
Proof. by vm_compute. Qed.

Example dust_is_refused :
  (run (AdjustPosition (Some alice) usdj 50 9) start).1 = Err (inr (inr BadOrigin))
  /\ (run (AdjustPosition (Some alice) usdj 0 (-11)) opened).1 = Err (inr (inr BadOrigin)).
Proof. by vm_compute. Qed.

(** The reserve is not asked for: standards are issued against nothing. *)
Example unbacked_standard_is_valid :
  let s := (run (AdjustPosition (Some carol) usdj 0 1000000) start).2 in
  (run (AdjustPosition (Some carol) usdj 0 1000000) start).1 = Ok tt
  /\ position_of (manager s) usdj carol = MkPosition 0 1000000 /\ balance_of usdj carol (chain (manager s)) = 1000000.
Proof. by vm_compute. Qed.

Lemma authorizations_follow_the_calls_witness :
  authorized trusted alice usdj bob = true /\ authorized forgotten alice usdj bob = false.
Proof.
  split.
  - exact (authorizations_follow_the_calls _ _ _ _ _ _ _ start _ trusted alice usdj bob eq_refl trusted_ran).
  - exact (authorizations_follow_the_calls _ _ _ _ _ _ _ start _ forgotten alice usdj bob eq_refl forgotten_ran).
Defined.

Lemma positions_obey_their_owners_witness :
  exists caller, Some bob = Some caller
    /\ (caller = alice
        \/ permitted (fun o : option Z => o) (fun a : Z => Some a) [Authorize (Some alice) usdj bob; AdjustPosition (Some alice) usdj 50 20] alice usdj caller = true
           /\ position_of (manager handed) usdj alice = position_default).
Proof.
  apply (positions_obey_their_owners (X := LedgerError) [usdj] (Token SETT) 100 (fun o : option Z => o) (fun a : Z => Some a) BadOrigin BadOrigin
           start _ trusted (TransferPositionFrom (Some bob) usdj alice) (Ok tt) handed usdj alice);
    [reflexivity|exact start_consistent|exact trusted_ran| |vm_compute; discriminate].
  assert ((run (TransferPositionFrom (Some bob) usdj alice) trusted).1 = Ok tt) as E by (vm_compute; reflexivity).
  exact (outcome_split _ _ E).
Defined.

Lemma no_position_is_dust_witness :
  standard (position_of (manager trusted) usdj alice) = 20 /\ usdj ∈ [usdj].
Proof.
  assert (standard (position_of (manager trusted) usdj alice) = 20) as E by (vm_compute; reflexivity). split; [exact E|].
  destruct (no_position_is_dust engine ∅ refuse (fun _ _ _ _ l => l) (Token SETT) 100 (fun o : option Z => o) (fun a : Z => Some a)
              BadOrigin BadOrigin start _ trusted usdj alice eq_refl start_consistent trusted_ran) as [H|[H _]].
  - rewrite E in H. discriminate.
  - exact H.
Defined.
