(* ===== verification/Inflation.v ===== *)
(** * The inflation function

    [lib-serml/serp/serp-staking/reward-fn/src/lib.rs], which computes the yearly inflation at
    a stake rate in whole parts of an accuracy, and [src/inflation.rs], which multiplies a
    curve with the length of an era. The big integers, the fractions and the piecewise linear
    functions of the Substrate libraries are parameters; the documented curve is stated with
    the exponential function of the real numbers, and what is computed stays close to it. *)

From Stdlib Require Import Reals Lra.
From S2P Require Import Prelude.

#[local] Open Scope Z_scope.

(** ** The code that the functions rely on *)

(** [sp_arithmetic::biguint::BigUint], in limbs of 32 bits. *)
Class BigUint (U : Type) : Type := {
  big_from : Z -> U;
  big_zero : U;
  big_lstrip : U -> U;
  big_len : U -> Z;
  big_checked_get : U -> Z -> option Z;
  big_add : U -> U -> U;
  big_sub : U -> U -> outcome U U;
  big_mul : U -> U -> U;
  big_div_unit : U -> Z -> U;
  big_div : U -> U -> bool -> option (U * option U);
  big_is_zero : U -> bool;
  big_le : U -> U -> bool;
  big_to_u128 : U -> option Z
}.

(** A number has no leading zeros: one limb, or a significant limb that is not zero. *)
Definition stripped {U : Type} `{!BigUint U} (value : U -> Z) (a : U) : Prop :=
  big_len a = 1 \/ 1 < big_len a /\ 2 ^ (32 * (big_len a - 1)) <= value a.

(** What is documented of them. Division asks for stripped numbers, at least two limbs in the
    divisor and more in the dividend. *)
Class BigUintLaws (U : Type) `{BigUint U} : Type := {
  big_value : U -> Z;
  big_value_range a : 0 <= big_value a < 2 ^ (32 * big_len a);
  big_from_value v : in_uint 128 v -> big_value (big_from v) = v;
  big_zero_value : big_value big_zero = 0;
  big_lstrip_value a : big_value (big_lstrip a) = big_value a;
  big_lstrip_stripped a : stripped big_value (big_lstrip a);
  big_get_value a : big_len a = 1 -> big_checked_get a 0 = Some (big_value a);
  big_add_value a b : big_value (big_add a b) = big_value a + big_value b;
  big_sub_value a b : big_value b <= big_value a ->
    exists c, big_sub a b = Ok c /\ big_value c = big_value a - big_value b;
  big_mul_value a b : big_value (big_mul a b) = big_value a * big_value b;
  big_div_unit_value a k : 0 < k < 2 ^ 32 -> big_value (big_div_unit a k) = big_value a / k;
  big_div_value a b : stripped big_value a -> stripped big_value b -> 1 < big_len b < big_len a ->
    exists q r, big_div a b false = Some (q, r) /\ big_value q = big_value a / big_value b;
  big_is_zero_value a : big_is_zero a = (big_value a =? 0);
  big_le_value a b : big_le a b = (big_value a <=? big_value b);
  big_to_u128_value a : big_to_u128 a = (if big_value a <? 2 ^ 128 then Some (big_value a) else None)
}.

(** [sp_arithmetic::PerThing]: a fraction in whole parts of an accuracy. *)
Class PerThing (P : Type) : Type := {
  ACCURACY : Z;
  per_zero : P;
  per_deconstruct : P -> Z;
  per_from_parts : Z -> P;
  per_from_percent : Z -> P;
  per_from_rational : Z -> Z -> P;
  per_div : P -> P -> P
}.

(** There are five such types, [Percent], [PerU16], [Permill], [Perbill] and [Perquintill]. *)
Class PerThingLaws (P : Type) `{PerThing P} : Prop := {
  per_accuracies : ACCURACY ∈ [100; 65535; 10 ^ 6; 10 ^ 9; 10 ^ 18];
  per_parts_range p : 0 <= per_deconstruct p <= ACCURACY;
  per_zero_parts : per_deconstruct per_zero = 0;
  per_from_parts_parts v : 0 <= v <= ACCURACY -> per_deconstruct (per_from_parts v) = v;
  per_one_percent : ACCURACY / 100 <= per_deconstruct (per_from_percent 1);
  per_rational_parts p q : 0 <= p <= q -> 0 < q ->
    Z.abs (per_deconstruct (per_from_rational p q) * q - p * ACCURACY) <= q
}.

(** [sp_runtime::curve::PiecewiseLinear], with the proportion that is its maximum. *)
Class PiecewiseLinear (C B : Type) : Type := {
  pb_from_rational : Z -> Z -> B;
  pb_mul : B -> Z -> Z;
  calculate_for_fraction_times_denominator : C -> Z -> Z -> Z;
  pl_maximum : C -> B
}.

(** A proportion takes more of more, and a curve stays below its maximum. *)
Class PiecewiseLinearLaws (C B : Type) `{PiecewiseLinear C B} : Prop := {
  pb_mul_mono (b : B) x y : 0 <= x <= y -> 0 <= pb_mul b x <= pb_mul b y;
  pb_mul_part (b : B) x : 0 <= x -> pb_mul b x <= x;
  curve_below_maximum c n d : 0 <= n <= d ->
    0 <= calculate_for_fraction_times_denominator c n d <= pb_mul (pl_maximum c) d
}.

(** ** inflation.rs *)

(** Milliseconds per year for the Julian year. *)
Definition MILLISECONDS_PER_YEAR : Z := 1000 * 3600 * 24 * 36525 / 100.

Definition compute_total_payout {C B : Type} `{!PiecewiseLinear C B} (yearly_inflation : C)
    (npos_token_staked total_tokens era_duration : Z) : Z * Z :=
  let portion : B := pb_from_rational era_duration MILLISECONDS_PER_YEAR in
  let payout := pb_mul portion (calculate_for_fraction_times_denominator yearly_inflation npos_token_staked total_tokens) in
  let maximum := pb_mul portion (pb_mul (pl_maximum yearly_inflation) total_tokens) in
  (payout, maximum).

(** ** reward-fn *)

Section Inflation.
Context {U P : Type} `{!BigUint U} `{!PerThing P}.

Definition unwrap_or_zero (o : option (U * option U)) : U :=
  match o with Some (q, _) => q | None => big_zero end.

(** [new_a] of the branch for equal lengths. *)
Definition scaled_dividend (a : U) : U := big_lstrip (big_mul a (big_from (100000 ^ 2))).

Definition div_by_stripped (a b : U) : U :=
  let a := big_lstrip a in
  if big_len b =? 0 then big_zero
  else if big_len b =? 1 then big_div_unit a (default 1 (big_checked_get b 0))
  else if big_len a <? big_len b then big_zero
  else if big_len b =? big_len a then
    big_div_unit (big_div_unit (unwrap_or_zero (big_div (scaled_dividend a) b false)) 100000) 100000
  else unwrap_or_zero (big_div a b false).

Record INPoSParam : Type := MkParam {
  ln2_div_d : U;
  x_ideal : U;
  x : U;
  accuracy : U
}.

Definition compute_taylor_term (k : Z) (previous_taylor_term : U) (p : INPoSParam) : U :=
  let x_minus_x_ideal := match big_sub (x p) (x_ideal p) with Ok d => d | _ => big_zero end in
  let res := big_div_unit (big_mul (big_mul previous_taylor_term x_minus_x_ideal) (ln2_div_d p)) k in
  let res := div_by_stripped res (accuracy p) in
  let res := div_by_stripped res (accuracy p) in
  big_lstrip res.

(** [a.sub(b).unwrap_or_else(|e| e)]. *)
Definition sub_or_rest (a b : U) : U :=
  match big_sub a b with Ok c => c | Err e => e | Panic => big_zero end.

(** A turn adds a term to the sum and its sign, by the parity of [k]. *)
Definition add_term (k : Z) (term : U) (sum : bool * U) : bool * U :=
  let '(taylor_sum_positive, taylor_sum) := sum in
  let last_taylor_term_positive := Z.even k in
  if Bool.eqb taylor_sum_positive last_taylor_term_positive then (taylor_sum_positive, big_add taylor_sum term)
  else if big_le term taylor_sum then (taylor_sum_positive, sub_or_rest taylor_sum term)
  else (negb taylor_sum_positive, sub_or_rest term taylor_sum).

(** [for k in 1..300], from [k] on for [turns] turns. *)
Fixpoint taylor_turns (turns : nat) (k : Z) (p : INPoSParam) (last_taylor_term : U) (sum : bool * U) : bool * U :=
  match turns with
  | O => sum
  | S turns =>
      let last_taylor_term := compute_taylor_term k last_taylor_term p in
      if big_is_zero last_taylor_term then sum
      else taylor_turns turns (k + 1) p last_taylor_term (add_term k last_taylor_term sum)
  end.

Definition compute_taylor_serie_part (p : INPoSParam) : U :=
  let '(taylor_sum_positive, taylor_sum) := taylor_turns 299 1 p (accuracy p) (true, accuracy p) in
  if negb taylor_sum_positive then big_zero else big_lstrip taylor_sum.

(** The natural logarithm of two in parts of 10^18. *)
Definition LN2 : Z := 693147180559945309.

(** [ln2_div_d]: what the exponent is multiplied with, in parts of the accuracy. *)
Definition ln2_over (falloff : P) : U :=
  let accuracy := big_lstrip (big_from (ACCURACY (P := P))) in
  let falloff := big_lstrip (big_from (per_deconstruct falloff)) in
  let ln2 := big_from (per_deconstruct (per_from_rational (P := P) LN2 (10 ^ 18))) in
  div_by_stripped (big_mul ln2 accuracy) falloff.

Definition inpos_param (stake ideal_stake falloff : P) : INPoSParam :=
  {| ln2_div_d := ln2_over falloff;
     x_ideal := big_from (per_deconstruct ideal_stake);
     x := big_from (per_deconstruct stake);
     accuracy := big_lstrip (big_from (ACCURACY (P := P))) |}.

Definition compute_inflation (stake ideal_stake falloff : P) : P :=
  if per_deconstruct stake <? per_deconstruct ideal_stake then per_div stake ideal_stake
  else if per_deconstruct falloff <? per_deconstruct (per_from_percent (P := P) 1) then per_zero
  else
    match big_to_u128 (compute_taylor_serie_part (inpos_param stake ideal_stake falloff)) with
    | Some res => if res <=? ACCURACY (P := P) then per_from_parts res else per_zero
    | None => per_zero
    end.

End Inflation.
Arguments INPoSParam U : clear implicits.

(** ** The payout *)

(** The payout of an era is no more than its maximum, which is no more than what there is. *)
Lemma payout_below_maximum {C B : Type} `{PiecewiseLinearLaws C B} c staked total duration :
  0 <= staked <= total ->
  0 <= (compute_total_payout (B := B) c staked total duration).1
    <= (compute_total_payout (B := B) c staked total duration).2
  /\ (compute_total_payout (B := B) c staked total duration).2 <= total.
Proof.
  intros Hs. unfold compute_total_payout. simpl.
  pose proof (curve_below_maximum c staked total Hs) as Hc.
  destruct (pb_mul_mono (pb_from_rational duration MILLISECONDS_PER_YEAR) _ _ Hc) as [H1 H2].
  pose proof (pb_mul_part (pb_from_rational duration MILLISECONDS_PER_YEAR) (pb_mul (pl_maximum c) total)).
  pose proof (pb_mul_part (pl_maximum c) total). lia.
Qed.

(** ** Division *)

Section Division.
Context {U : Type} `{BigUintLaws U}.

Abbreviation value := big_value.

Lemma stripped_len a : stripped value a -> 1 <= big_len a.
Proof. intros [H1|H1]; lia. Qed.

Lemma shorter_is_smaller a b : stripped value b -> 0 < value b -> big_len a < big_len b -> value a < value b.
Proof.
  intros [Hb|[_ Hb]] Hpos Hl; pose proof (big_value_range a) as Ha.
  - assert (2 ^ (32 * big_len a) <= 2 ^ 0) by (apply Z.pow_le_mono_r; lia). pose proof (big_value_range b). lia.
  - assert (2 ^ (32 * big_len a) <= 2 ^ (32 * (big_len b - 1))) by (apply Z.pow_le_mono_r; lia). lia.
Qed.

(** The assertion in the source: ten thousand million times a number of [n > 1] limbs has
    more than [n] of them. *)
Lemma scaled_dividend_is_longer a : 1 < big_len (big_lstrip a) -> big_len (big_lstrip a) < big_len (scaled_dividend (big_lstrip a)).
Proof.
  intros Hl. apply Z.nle_gt. intros Hle. pose proof (big_value_range (scaled_dividend (big_lstrip a))) as [_ Hr].
  unfold scaled_dividend in *. rewrite !big_lstrip_value, big_mul_value, big_lstrip_value, (big_from_value (100000 ^ 2)) in Hr by by vm_compute.
  destruct (big_lstrip_stripped a) as [?|[_ Ha]]; [lia|]. rewrite big_lstrip_value in Ha.
  set (n := big_len (big_lstrip a)) in *.
  pose proof (Z.pow_le_mono_r 2 _ (32 * n) eq_refl (Zmult_le_compat_l _ _ 32 Hle ltac:(lia))).
  replace (32 * n) with (32 * (n - 1) + 32) in * by lia. rewrite Z.pow_add_r in * by lia.
  change (100000 ^ 2) with 10000000000 in *. change (2 ^ 32) with 4294967296 in *.
  pose proof (Z.pow_pos_nonneg 2 (32 * (n - 1))). lia.
Qed.

(** Division with a detour for numbers of equal length is division. *)
Lemma div_by_stripped_is_div a b : stripped value b -> 0 < value b -> value (div_by_stripped a b) = value a / value b.
Proof.
  intros Hb Hpos. unfold div_by_stripped. pose proof (stripped_len b Hb).
  destruct (Z.eqb_spec (big_len b) 0) as [?|_]; [lia|].
  destruct (Z.eqb_spec (big_len b) 1) as [E1|N1].
  { rewrite big_get_value by done. simpl. pose proof (big_value_range b) as Hr. rewrite E1 in Hr.
    rewrite big_div_unit_value, big_lstrip_value by lia. done. }
  destruct (Z.ltb_spec (big_len (big_lstrip a)) (big_len b)) as [Hlt|Hge].
  { apply shorter_is_smaller in Hlt; [|done..]. rewrite big_lstrip_value in Hlt. pose proof (big_value_range a).
    rewrite big_zero_value, Z.div_small; lia. }
  destruct (Z.eqb_spec (big_len b) (big_len (big_lstrip a))) as [Heq|Hne].
  - pose proof (scaled_dividend_is_longer a ltac:(lia)) as Hlong. unfold scaled_dividend in *.
    destruct (big_div_value (big_lstrip (big_mul (big_lstrip a) (big_from (100000 ^ 2)))) b (big_lstrip_stripped _) Hb) as (q & r & -> & Hq); [lia|].
    simpl. rewrite !big_div_unit_value, Hq by lia. rewrite big_lstrip_value, big_mul_value, big_lstrip_value, big_from_value by by vm_compute.
    rewrite !Z.div_div by lia. change (100000 ^ 2) with 10000000000.
    replace (value b * 100000 * 100000) with (value b * 10000000000) by ring. by rewrite Z.div_mul_cancel_r by lia.
  - destruct (big_div_value (big_lstrip a) b (big_lstrip_stripped a) Hb) as (q & r & -> & Hq); [lia|].
    simpl. by rewrite Hq, big_lstrip_value.
Qed.

End Division.

(** ** The series in integers *)

(** The term after [t], for an exponent of [f / D]. *)
Definition next_term (D f k t : Z) : Z := t * f / (k * D).

(** The alternating sum of the terms after [t]: the first counts as it is. *)
Fixpoint alternating (turns : nat) (D f k t : Z) : Z :=
  match turns with
  | O => 0
  | S turns =>
      let t' := next_term D f k t in
      if t' =? 0 then 0 else t' - alternating turns D f (k + 1) t'
  end.

(** A term vanishes within so many turns. *)
Fixpoint vanishes (turns : nat) (D f k t : Z) : bool :=
  match turns with
  | O => false
  | S turns => let t' := next_term D f k t in (t' =? 0) || vanishes turns D f (k + 1) t'
  end.

Definition signed (sum : bool * Z) : Z := if sum.1 then sum.2 else - sum.2.

Lemma next_term_range D f k t : 0 < D -> 0 <= f -> 0 < k -> 0 <= t -> 0 <= next_term D f k t.
Proof. intros. unfold next_term. apply Z.div_pos; nia. Qed.

Lemma next_term_mono D f c k t u : 0 < D -> 0 <= f <= c * D -> 0 < k -> 0 <= t <= u -> next_term D f k t <= next_term 1 c k u.
Proof.
  intros HD Hf Hk Ht. unfold next_term. rewrite Z.mul_1_r. rewrite <- (Z.div_mul_cancel_r (u * c) k D) by lia.
  apply Z.div_le_mono; nia.
Qed.

Lemma next_term_0 D f k : next_term D f k 0 = 0.
Proof. unfold next_term. by rewrite Z.mul_0_l, Zdiv_0_l. Qed.

Lemma vanishes_0 turns D f k : (0 < turns)%nat -> vanishes turns D f k 0 = true.
Proof. destruct turns; [lia|]. intros _. cbn [vanishes]. by rewrite next_term_0. Qed.

(** A larger exponent and a larger term take no fewer turns. *)
Lemma vanishes_mono turns D f c k t u :
  0 < D -> 0 <= f <= c * D -> 0 < k -> 0 <= t <= u -> vanishes turns 1 c k u = true -> vanishes turns D f k t = true.
Proof.
  revert k t u. induction turns as [|turns IH]; intros k t u HD Hf Hk Ht; [done|]. cbn [vanishes].
  pose proof (next_term_mono D f c k t u HD Hf Hk Ht). pose proof (next_term_range D f k t).
  rewrite !orb_true_iff, !Z.eqb_eq. intros [E|E]; [left; lia|]. right. eapply IH, E; lia.
Qed.

(** Turns after the one in which a term vanishes do nothing. *)
Lemma alternating_enough n m D f k t : (m <= n)%nat -> vanishes m D f k t = true -> alternating n D f k t = alternating m D f k t.
Proof.
  revert n k t. induction m as [|m IH]; intros [|n] k t Hn; try (done || lia). cbn [vanishes alternating].
  destruct (next_term D f k t =? 0); [done|]. intros Hv. rewrite (IH n) by (done || lia). done.
Qed.

Lemma alternating_zero turns D k t : alternating turns D 0 k t = 0.
Proof. destruct turns; [done|]. cbn [alternating]. unfold next_term. by rewrite Z.mul_0_r, Zdiv_0_l. Qed.

(** Exponents up to one: the terms fall and the sum is between nothing and the first. *)
Lemma alternating_small turns D f k t :
  0 <= f <= D -> 0 < D -> 0 < k -> 0 <= t -> 0 <= alternating turns D f k t <= next_term D f k t.
Proof.
  intros Hf HD. revert k t. induction turns as [|turns IH]; intros k t Hk Ht; cbn [alternating];
    pose proof (next_term_range D f k t); [lia|].
  destruct (Z.eqb_spec (next_term D f k t) 0) as [E|N]; [lia|].
  specialize (IH (k + 1) (next_term D f k t)).
  assert (next_term D f (k + 1) (next_term D f k t) <= next_term D f k t); [|lia].
  unfold next_term at 1. apply Z.div_le_upper_bound; nia.
Qed.

(** ** The loop is the series *)

Section Series.
Context {U : Type} `{BigUintLaws U}.
Variables (p : INPoSParam U) (acc f : Z).
Hypothesis accuracy_stripped : stripped big_value (accuracy p).
Hypothesis accuracy_value : big_value (accuracy p) = acc.
Hypothesis accuracy_pos : 0 < acc.
Hypothesis stake_above : big_value (x_ideal p) <= big_value (x p).
Hypothesis exponent : f = (big_value (x p) - big_value (x_ideal p)) * big_value (ln2_div_d p).

Abbreviation value := big_value.
Abbreviation signed_value sum := (signed (sum.1, big_value sum.2)).

Lemma term_is_next k t : 0 < k < 2 ^ 32 -> value (compute_taylor_term k t p) = next_term (acc * acc) f k (value t).
Proof.
  intros Hk. unfold compute_taylor_term, next_term. rewrite big_lstrip_value.
  destruct (big_sub_value (x p) (x_ideal p) stake_above) as (d & -> & Hd).
  rewrite !div_by_stripped_is_div by (done || lia). rewrite big_div_unit_value, !big_mul_value, Hd, accuracy_value by done.
  rewrite !Z.div_div by nia. rewrite exponent. f_equal; ring.
Qed.

Lemma add_term_value k t sum :
  signed_value (add_term k t sum) = signed_value sum + (if Z.even k then value t else - value t).
Proof.
  destruct sum as [pos s]. unfold add_term.
  destruct (Bool.eqb pos (Z.even k)) eqn:E.
  - apply eqb_prop in E. subst pos. unfold signed. simpl. rewrite big_add_value. destruct (Z.even k); lia.
  - apply eqb_false_iff in E. rewrite big_le_value. unfold sub_or_rest, signed.
    destruct (Z.leb_spec (value t) (value s)) as [Hle|Hlt]; simpl.
    + destruct (big_sub_value s t Hle) as (c & -> & ->). destruct pos, (Z.even k); done || lia.
    + destruct (big_sub_value t s) as (c & -> & ->); [lia|]. destruct pos, (Z.even k); done || (simpl; lia).
Qed.

Lemma turns_are_the_series turns k t sum :
  0 < k -> k + Z.of_nat turns <= 2 ^ 32 ->
  signed_value (taylor_turns turns k p t sum)
  = signed_value sum + (if Z.even k then 1 else - 1) * alternating turns (acc * acc) f k (value t).
Proof.
  revert k t sum. induction turns as [|turns IH]; intros k t sum Hk Hb; cbn [taylor_turns alternating]; [lia|].
  rewrite big_is_zero_value, term_is_next by lia.
  destruct (Z.eqb_spec (next_term (acc * acc) f k (value t)) 0) as [E|N]; [lia|].
  rewrite IH by lia. rewrite (add_term_value k (compute_taylor_term k t p) sum).
  rewrite term_is_next by lia. rewrite Z.even_add. change (Z.even 1) with false.
  destruct (Z.even k); cbn [Bool.eqb]; lia.
Qed.

(** What the function computes: the series, cut off at zero. *)
Lemma serie_part_value :
  value (compute_taylor_serie_part p) = Z.max 0 (acc - alternating 299 (acc * acc) f 1 acc).
Proof.
  pose proof (turns_are_the_series 299 1 (accuracy p) (true, accuracy p) ltac:(lia)) as Hs.
  unfold compute_taylor_serie_part. destruct (taylor_turns _ _ _ _ _) as [pos s]. unfold signed in Hs.
  cbn [fst snd Z.even] in Hs. rewrite accuracy_value in Hs. pose proof (big_value_range s).
  destruct pos; cbn [negb]; [rewrite big_lstrip_value|rewrite big_zero_value]; lia.
Qed.

End Series.

(** ** The exponential function and the rest of its series *)

(** What is left of the series of [exp (- r)] after [k] terms, with the sign of the next. *)
Fixpoint rest (k : nat) (r : R) : R :=
  match k with
  | O => exp (- r)
  | S k => r ^ k / INR (fact k) - rest k r
  end%R.

Lemma rest_at_0 k : rest (S k) 0 = 0%R.
Proof.
  induction k as [|k IH].
  - simpl. rewrite Ropp_0, exp_0. lra.
  - change (0 ^ S k / INR (fact (S k)) - rest (S k) 0 = 0)%R. rewrite IH. simpl. unfold Rdiv. lra.
Qed.

Lemma power_derivative k r : derivable_pt_lim (fun r => r ^ S k / INR (fact (S k)))%R r (r ^ k / INR (fact k))%R.
Proof.
  pose proof (INR_fact_neq_0 k). pose proof (not_0_INR (S k) ltac:(done)).
  replace (r ^ k / INR (fact k))%R with ((INR (S k) * r ^ k) * / INR (fact (S k)) + r ^ S k * 0)%R.
  - apply (derivable_pt_lim_mult (fun r => r ^ S k)%R (fun _ => / INR (fact (S k)))%R); [|apply derivable_pt_lim_const].
    apply (derivable_pt_lim_pow r (S k)).
  - rewrite fact_simpl, mult_INR. field. done.
Qed.

Lemma rest_derivative k r : derivable_pt_lim (rest (S k)) r (rest k r).
Proof.
  revert r. induction k as [|k IH]; intros r.
  - replace (rest 0 r) with (0 - (exp (- r) * (- 1)))%R by (simpl; lra).
    apply (derivable_pt_lim_minus (fun r => r ^ 0 / INR (fact 0))%R (fun r => exp (- r))); [apply (derivable_pt_lim_const (1 / 1))|].
    apply (derivable_pt_lim_comp Ropp exp); [apply derivable_pt_lim_opp; apply derivable_pt_lim_id|apply derivable_pt_lim_exp].
  - apply (derivable_pt_lim_minus (fun r => r ^ S k / INR (fact (S k)))%R (rest (S k))); [apply power_derivative|apply IH].
Qed.

Lemma rest_nonneg k r : (0 <= r)%R -> (0 <= rest k r)%R.
Proof.
  revert r. induction k as [|k IH]; intros r Hr.
  - left. apply exp_pos.
  - destruct Hr as [Hr|<-]; [|rewrite rest_at_0; lra].
    destruct (MVT_cor2 (rest (S k)) (rest k) 0 r Hr) as (c & Hc & H0 & _); [intros; apply rest_derivative|].
    rewrite rest_at_0 in Hc. specialize (IH c ltac:(lra)). nra.
Qed.

(** The rest as a part of the next term: between nothing and all of it. *)
Lemma rest_parts r : (0 <= r)%R ->
  exists g : nat -> R, g 0%nat = exp (- r)
    /\ (forall k, (0 <= g k <= 1)%R) /\ forall k, (g k = 1 - r / INR (S k) * g (S k))%R.
Proof.
  intros [Hr|<-].
  2:{ exists (fun _ => 1%R). split; [by rewrite Ropp_0, exp_0|]. split; intros; [lra|]. unfold Rdiv. lra. }
  assert (forall k, 0 < r ^ k / INR (fact k))%R as Hpos.
  { intros k. apply Rdiv_lt_0_compat; [by apply pow_lt|apply INR_fact_lt_0]. }
  exists (fun k => rest k r / (r ^ k / INR (fact k)))%R. split; [simpl; field|]. split; intros k.
  - pose proof (rest_nonneg k r ltac:(lra)). pose proof (rest_nonneg (S k) r ltac:(lra)) as H1. cbn [rest] in H1.
    specialize (Hpos k). split.
    + apply Rmult_le_pos; [lra|]. left. by apply Rinv_0_lt_compat.
    + apply (Rmult_le_reg_r (r ^ k / INR (fact k))); [lra|]. unfold Rdiv at 1. rewrite Rmult_assoc, Rinv_l; lra.
  - change (rest (S k) r) with (r ^ k / INR (fact k) - rest k r)%R. rewrite fact_simpl, mult_INR.
    pose proof (INR_fact_neq_0 k). pose proof (not_0_INR (S k) ltac:(done)). pose proof (pow_nonzero r k ltac:(lra)).
    change (r ^ S k)%R with (r * r ^ k)%R. field. repeat split; (done || lra).
Qed.

(** ** The series is close to the exponential function *)

Lemma div_floor a b : 0 < b -> exists e, (0 <= e < 1)%R /\ IZR (a / b) = (IZR a / IZR b - e)%R.
Proof.
  intros Hb. exists (IZR a / IZR b - IZR (a / b))%R. split; [|lra].
  assert (0 < IZR b)%R as Hr by (by apply IZR_lt).
  pose proof (IZR_le _ _ (Z.mul_div_le a b Hb)) as H1. pose proof (IZR_lt _ _ (Z.mul_succ_div_gt a b Hb)) as H2.
  rewrite mult_IZR in H1, H2. rewrite succ_IZR in H2.
  assert (IZR a = IZR a / IZR b * IZR b)%R as Ha by (field; lra).
  rewrite Ha in H1, H2. split; nra.
Qed.

Section Error.
Variables (D f : Z) (g : nat -> R).
Abbreviation r := (IZR f / IZR D)%R.
Hypothesis D_pos : 0 < D.
Hypothesis parts : forall k, (0 <= g k <= 1)%R.
Hypothesis parts_next : forall k, (g k = 1 - r / INR (S k) * g (S k))%R.

Lemma next_term_floor j t :
  exists e, (0 <= e < 1)%R /\ IZR (next_term D f (Z.of_nat (S j)) t) = (IZR t * (r / INR (S j)) - e)%R.
Proof.
  unfold next_term. destruct (div_floor (t * f) (Z.of_nat (S j) * D)) as (e & He & ->); [lia|].
  exists e. split; [done|]. rewrite !mult_IZR, <- INR_IZR_INZ. pose proof (not_0_INR (S j) ltac:(done)).
  pose proof (IZR_lt 0 D D_pos). field. split; (done || lra).
Qed.

(** Half a unit for each turn. *)
Lemma alternating_error turns j t :
  0 <= t -> vanishes turns D f (Z.of_nat (S j)) t = true -> 0 <= f ->
  (- (INR turns + 1) / 2 <= IZR (alternating turns D f (Z.of_nat (S j)) t) - IZR t * (r / INR (S j)) * g (S j) <= INR turns / 2)%R.
Proof.
  intros Ht Hv Hf. revert j t Ht Hv. induction turns as [|turns IH]; intros j t Ht Hv; [done|]. cbn [vanishes alternating] in *.
  destruct (next_term_floor j t) as (e & He & Hn). pose proof (parts (S j)) as Hg. rewrite S_INR. pose proof (pos_INR turns).
  pose proof (next_term_range D f (Z.of_nat (S j)) t) as Hpos.
  set (t' := next_term D f (Z.of_nat (S j)) t) in *. set (q := (IZR t * (r / INR (S j)))%R) in *.
  destruct (Z.eqb_spec t' 0) as [E|N].
  - rewrite E in Hn. assert (q = e) as -> by lra. nra.
  - simpl in Hv. replace (Z.of_nat (S j) + 1) with (Z.of_nat (S (S j))) in * by lia.
    specialize (IH (S j) t' ltac:(lia) Hv). rewrite minus_IZR.
    pose proof (parts_next (S j)) as Hp. set (a := alternating turns D f _ t') in *.
    assert (IZR t' * (r / INR (S (S j))) * g (S (S j)) = IZR t' * (1 - g (S j)))%R as Hr by (rewrite Hp at 1; ring).
    rewrite Hr in IH. assert (q = IZR t' + e)%R as -> by lra. nra.
Qed.

End Error.

(** The sum is within half a unit for each turn of what it stands for. *)
Lemma series_error turns D f acc :
  0 < D -> 0 <= f -> 0 <= acc -> (turns <= 299)%nat -> vanishes turns D f 1 acc = true ->
  (- (INR turns / 2) <= IZR (acc - alternating 299 D f 1 acc) - IZR acc * exp (- (IZR f / IZR D)) <= (INR turns + 1) / 2)%R.
Proof.
  intros HD Hf Hacc Hn Hv. rewrite (alternating_enough 299 turns) by done.
  assert (0 <= IZR f / IZR D)%R as Hr.
  { apply Rmult_le_pos; [by apply IZR_le|]. left. apply Rinv_0_lt_compat. by apply IZR_lt. }
  destruct (rest_parts _ Hr) as (g & H0 & Hg & Hs).
  pose proof (alternating_error D f g HD Hg Hs turns 0 acc Hacc Hv Hf) as He. pose proof (Hs 0%nat) as Hs0.
  change (Z.of_nat 1) with 1 in He. rewrite <- H0, minus_IZR, Hs0. lra.
Qed.

(** ** The accuracies *)

Lemma exp_minus_1 : (exp (- (1)) <= / 2)%R.
Proof. rewrite exp_Ropp. apply Rinv_le_contravar; [lra|]. left. pose proof (exp_ineq1 1 ltac:(lra)). lra. Qed.

Lemma exp_minus_5 : (exp (- (5)) <= / 32)%R.
Proof.
  replace (- (5))%R with (- (1) + - (1) + - (1) + - (1) + - (1))%R by lra. rewrite !exp_plus.
  pose proof exp_minus_1 as H. pose proof (exp_pos (- (1))) as Hp. set (e := exp (- (1))) in *.
  assert (e * e <= / 4)%R by nra. assert (e * e * e <= / 8)%R by nra. assert (e * e * e * e <= / 16)%R by nra. nra.
Qed.

Lemma exp_minus_le a b : (a <= b)%R -> (exp (- b) <= exp (- a))%R.
Proof. intros [H| ->]; [|lra]. left. apply exp_increasing. lra. Qed.

Section Accuracy.
Variables (acc f : Z).
Hypothesis known : acc ∈ [100; 65535; 10 ^ 6; 10 ^ 9; 10 ^ 18].
Abbreviation D := (acc * acc).
Hypothesis exponent_range : 0 <= f <= 70 * D.

Lemma accuracy_range : 100 <= acc <= 10 ^ 18.
Proof. clear exponent_range. repeat (apply elem_of_cons in known as [->|known]; [by vm_compute|]). by apply elem_of_nil in known. Qed.

Lemma vanishes_in turns c u : f <= c * D -> acc <= u -> vanishes turns 1 c 1 u = true -> vanishes turns D f 1 acc = true.
Proof. intros Hc Hu. pose proof accuracy_range. apply vanishes_mono; nia || lia. Qed.

(** The terms vanish within 225 turns; the source allows 299. *)
Lemma vanishes_in_time : vanishes 225 D f 1 acc = true.
Proof. apply (vanishes_in 225 70 (10 ^ 18)); [lia|apply accuracy_range|by vm_compute]. Qed.

Lemma ratio_le c : c * D <= f -> (IZR c <= IZR f / IZR D)%R.
Proof.
  intros Hc. pose proof accuracy_range. assert (0 < IZR D)%R as HD by (apply IZR_lt; nia).
  apply (Rmult_le_reg_r (IZR D)); [done|]. unfold Rdiv. rewrite Rmult_assoc, Rinv_l, Rmult_1_r, <- mult_IZR by lra. by apply IZR_le.
Qed.

Lemma error_within turns : (turns <= 299)%nat -> vanishes turns D f 1 acc = true ->
  (IZR (acc - alternating 299 D f 1 acc) <= IZR acc * exp (- (IZR f / IZR D)) + (INR turns + 1) / 2)%R.
Proof.
  intros Ht Hv. pose proof accuracy_range. pose proof (series_error turns D f acc ltac:(nia) ltac:(lia) ltac:(lia) Ht Hv). lra.
Qed.

(** The sum does not exceed one: for small exponents the terms fall, for others the
    error is less than the distance of the exponential function from one. *)
Lemma series_at_most_one : acc - alternating 299 D f 1 acc <= acc.
Proof.
  pose proof accuracy_range as Hr. apply Z.nlt_ge. intros Hgt.
  destruct (Z.le_gt_cases f D) as [H1|H1].
  { pose proof (alternating_small 299 D f 1 acc). nia. }
  apply IZR_lt in Hgt. assert (100 <= IZR acc)%R by (apply IZR_le; lia).
  pose proof (exp_pos (- (IZR f / IZR D))) as He0.
  destruct (Z.le_gt_cases f (5 * D)) as [H5|H5].
  - pose proof (error_within 38 ltac:(lia) (vanishes_in 38 5 (10 ^ 18) H5 (proj2 Hr) ltac:(by vm_compute))) as Hb.
    pose proof (exp_minus_le _ _ (ratio_le 1 ltac:(lia))) as He. pose proof exp_minus_1. rewrite INR_IZR_INZ in Hb. change (IZR (Z.of_nat 38)) with 38%R in Hb. nra.
  - pose proof (exp_minus_le _ _ (ratio_le 5 ltac:(lia))) as He. pose proof exp_minus_5.
    destruct (Z.eq_dec acc 100) as [H100|Hne].
    + pose proof (error_within 192 ltac:(lia) (vanishes_in 192 70 100 ltac:(lia) ltac:(lia) ltac:(by vm_compute))) as Hb.
      assert (IZR acc = 100)%R as Hacc by (by rewrite H100). rewrite INR_IZR_INZ in Hb. change (IZR (Z.of_nat 192)) with 192%R in Hb. nra.
    + pose proof (error_within 225 ltac:(lia) vanishes_in_time) as Hb. rewrite INR_IZR_INZ in Hb. change (IZR (Z.of_nat 225)) with 225%R in Hb.
      assert (65535 <= IZR acc)%R; [|nra]. apply IZR_le. apply elem_of_cons in known as [->|Hk]; [done|].
      repeat (apply elem_of_cons in Hk as [->|Hk]; [by vm_compute|]). by apply elem_of_nil in Hk.
Qed.

(** What is left of the sum above zero is close to the exponential function. *)
Lemma series_close :
  (Rabs (IZR (Z.max 0 (acc - alternating 299 D f 1 acc)) - IZR acc * exp (- (IZR f / IZR D))) <= 113)%R.
Proof.
  pose proof accuracy_range as Hr.
  pose proof (series_error 225 D f acc ltac:(nia) ltac:(lia) ltac:(lia) ltac:(lia) vanishes_in_time) as Hb.
  rewrite INR_IZR_INZ in Hb. change (IZR (Z.of_nat 225)) with 225%R in Hb. pose proof (exp_pos (- (IZR f / IZR D))). pose proof (IZR_le 0 acc ltac:(lia)).
  apply Rabs_le. destruct (Z.max_spec 0 (acc - alternating 299 D f 1 acc)) as [[Hm ->]|[Hm ->]]; [lra|].
  apply IZR_le in Hm. nra.
Qed.

End Accuracy.

(** ** The logarithm of two *)

(** The sums of the series at [n / d], in parts of [d ^ k] times the factorial of [k]. *)
Fixpoint sum_parts (k : nat) (n d : Z) : Z :=
  match k with
  | O => 0
  | S k => (n ^ Z.of_nat k - sum_parts k n d) * (d * Z.of_nat (S k))
  end.

Fixpoint sum_unit (k : nat) (d : Z) : Z :=
  match k with
  | O => 1
  | S k => sum_unit k d * (d * Z.of_nat (S k))
  end.

Lemma sum_unit_value k d : IZR (sum_unit k d) = (IZR d ^ k * INR (fact k))%R.
Proof.
  induction k as [|k IH]; [simpl; lra|]. cbn [sum_unit]. rewrite !mult_IZR, IH, <- INR_IZR_INZ, fact_simpl, mult_INR. simpl pow. ring.
Qed.

Lemma sum_unit_pos k d : 0 < d -> 0 < sum_unit k d.
Proof. intros Hd. induction k as [|k IH]; [done|]. cbn [sum_unit]. nia. Qed.

(** The sums of the series approach the exponential function from both sides. *)
Lemma rest_is_rational k n d : 0 < d ->
  (rest k (IZR n / IZR d) = (if Nat.even k then 1 else - (1)) * exp (- (IZR n / IZR d)) + IZR (sum_parts k n d) / IZR (sum_unit k d))%R.
Proof.
  intros Hd. assert (IZR d <> 0)%R as HD by (apply IZR_neq; lia).
  induction k as [|k IH]; [simpl; lra|]. cbn [rest]. rewrite IH, Nat.even_succ, <- Nat.negb_even.
  assert (IZR (sum_parts (S k) n d) / IZR (sum_unit (S k) d)
    = (IZR n / IZR d) ^ k / INR (fact k) - IZR (sum_parts k n d) / IZR (sum_unit k d))%R as ->.
  - pose proof (IZR_neq _ 0 (Z.neq_sym _ _ (Z.lt_neq _ _ (sum_unit_pos k d Hd)))) as Hu. rewrite sum_unit_value in Hu.
    cbn [sum_parts sum_unit]. rewrite !mult_IZR, minus_IZR, <- pow_IZR, !sum_unit_value, <- INR_IZR_INZ.
    pose proof (not_0_INR (S k) ltac:(done)). pose proof (INR_fact_neq_0 k). pose proof (pow_nonzero _ k HD).
    unfold Rdiv at 3. rewrite Rpow_mult_distr, pow_inv. field. done.
  - destruct (Nat.even k); cbn [negb]; lra.
Qed.

Section Log.
Variables (n d : Z) (k : nat).
Hypothesis (d_pos : 0 < d) (n_nonneg : 0 <= n).

Lemma exp_minus_at : (exp (- (IZR n / IZR d)) * exp (IZR n / IZR d) = 1)%R.
Proof. rewrite <- exp_plus, <- exp_0. f_equal. lra. Qed.

Lemma quotient_nonneg : (0 <= IZR n / IZR d)%R.
Proof. apply Rmult_le_pos; [by apply IZR_le|]. left. apply Rinv_0_lt_compat. by apply IZR_lt. Qed.

Lemma half_unit a : 2 * a <= sum_unit k d -> (IZR a / IZR (sum_unit k d) <= / 2)%R.
Proof.
  intros Ha%IZR_le. rewrite mult_IZR in Ha. pose proof (IZR_lt _ _ (sum_unit_pos k d d_pos)) as Hp.
  apply (Rmult_le_reg_r (IZR (sum_unit k d))); [done|]. unfold Rdiv. rewrite Rmult_assoc, Rinv_l; lra.
Qed.

Lemma ln_2_from_above : Nat.even k = false -> 2 * sum_parts k n d <= sum_unit k d -> (ln 2 <= IZR n / IZR d)%R.
Proof.
  intros Hk Hq%half_unit. pose proof (rest_is_rational k n d d_pos) as Hr. rewrite Hk in Hr.
  pose proof (rest_nonneg k _ quotient_nonneg) as Hn. apply Rnot_lt_le. intros Hlt%exp_increasing. rewrite exp_ln in Hlt by lra.
  pose proof exp_minus_at. pose proof (exp_pos (IZR n / IZR d)). nra.
Qed.

Lemma ln_2_from_below : Nat.even k = true -> sum_unit k d <= 2 * - sum_parts k n d -> (IZR n / IZR d <= ln 2)%R.
Proof.
  intros Hk Hq. pose proof (rest_is_rational k n d d_pos) as Hr. rewrite Hk in Hr.
  assert (/ 2 <= - (IZR (sum_parts k n d) / IZR (sum_unit k d)))%R as Hh.
  { pose proof (IZR_lt _ _ (sum_unit_pos k d d_pos)) as Hp. apply IZR_le in Hq. rewrite mult_IZR, opp_IZR in Hq.
    apply (Rmult_le_reg_r (IZR (sum_unit k d))); [done|]. unfold Rdiv. rewrite <- Ropp_mult_distr_l, Rmult_assoc, Rinv_l; lra. }
  pose proof (rest_nonneg k _ quotient_nonneg) as Hn. apply Rnot_lt_le. intros Hlt%exp_increasing. rewrite exp_ln in Hlt by lra.
  pose proof exp_minus_at. pose proof (exp_pos (- (IZR n / IZR d))). nra.
Qed.

End Log.

(** The constant of the source is the logarithm of two to its last digit. *)
Lemma LN2_is_ln_2 : (IZR LN2 / IZR (10 ^ 18) <= ln 2 <= IZR (LN2 + 1) / IZR (10 ^ 18))%R.
Proof.
  split.
  - apply (ln_2_from_below _ _ 20); [done..|]. apply Z.leb_le. by vm_compute.
  - apply (ln_2_from_above _ _ 21); [done..|]. apply Z.leb_le. by vm_compute.
Qed.

(** ** The function follows the curve *)

(** The exponential function falls no faster than its argument grows. *)
Lemma exp_minus_lipschitz a b : (0 <= a)%R -> (0 <= b)%R -> (Rabs (exp (- a) - exp (- b)) <= Rabs (a - b))%R.
Proof.
  assert (forall a b, 0 <= a <= b -> 0 <= exp (- a) - exp (- b) <= b - a)%R as Hle.
  { clear. intros a b Hab. pose proof (exp_minus_le a b ltac:(lra)). split; [lra|].
    replace (- b)%R with (- a + - (b - a))%R by lra. rewrite exp_plus.
    pose proof (exp_ineq1_le (- (b - a))). pose proof (exp_pos (- a)).
    pose proof (exp_minus_le 0 a ltac:(lra)) as Hone. rewrite Ropp_0, exp_0 in Hone. nra. }
  intros Ha Hb. destruct (Rle_lt_dec a b) as [H|H].
  - specialize (Hle a b ltac:(lra)). rewrite Rabs_pos_eq, Rabs_left1; lra.
  - specialize (Hle b a ltac:(lra)). rewrite Rabs_left1, Rabs_pos_eq; lra.
Qed.

Lemma percent_of_accuracy a : a ∈ [100; 65535; 10 ^ 6; 10 ^ 9; 10 ^ 18] ->
  1 <= a / 100 /\ a <= 101 * (a / 100) /\ LN2 * a + 10 ^ 18 < (70 * (a / 100) + 1) * 10 ^ 18.
Proof.
  intros Hk. repeat (apply elem_of_cons in Hk as [->|Hk]; [repeat split; by vm_compute|]). by apply elem_of_nil in Hk.
Qed.

Lemma Rabs_between x b : (Rabs x <= b)%R -> (- b <= x <= b)%R.
Proof. intros Hb. pose proof (Rle_abs x). pose proof (Rle_abs (- x)). rewrite Rabs_Ropp in *. lra. Qed.

Section Curve.
Context {U P : Type} `{BigUintLaws U} `{PerThingLaws P}.
Variables stake ideal_stake falloff : P.
Hypothesis above_ideal : per_deconstruct ideal_stake <= per_deconstruct stake.
Hypothesis falloff_allowed : per_deconstruct (per_from_percent (P := P) 1) <= per_deconstruct falloff.

Abbreviation acc := (ACCURACY (P := P)).
Abbreviation xi := (per_deconstruct ideal_stake).
Abbreviation xs := (per_deconstruct stake).
Abbreviation fall := (per_deconstruct falloff).
Abbreviation ln2 := (per_deconstruct (per_from_rational (P := P) LN2 (10 ^ 18))).
Abbreviation exponent := ((xs - xi) * (ln2 * acc / fall)).
Abbreviation param := (inpos_param (U := U) stake ideal_stake falloff).

Lemma parts_fit (q : P) : in_uint 128 (per_deconstruct q).
Proof.
  pose proof (per_parts_range q). pose proof (accuracy_range acc per_accuracies).
  assert (10 ^ 18 <= umax 128) by by vm_compute. unfold in_uint. lia.
Qed.

Lemma falloff_range : 1 <= fall <= acc /\ acc <= 101 * fall.
Proof.
  pose proof per_one_percent. pose proof (per_parts_range falloff). pose proof (percent_of_accuracy acc per_accuracies). lia.
Qed.

(** The logarithm in parts of the accuracy is at most seventy percent. *)
Lemma ln2_range : 0 <= ln2 <= 70 * fall /\ Z.abs (ln2 * 10 ^ 18 - LN2 * acc) <= 10 ^ 18.
Proof.
  assert (0 <= LN2 <= 10 ^ 18 /\ 0 < 10 ^ 18) as [HL Hten] by (repeat split; by vm_compute).
  pose proof (per_rational_parts (P := P) LN2 (10 ^ 18) HL Hten) as Hr. pose proof (per_parts_range (per_from_rational (P := P) LN2 (10 ^ 18))).
  pose proof per_one_percent. destruct (percent_of_accuracy acc per_accuracies) as (_ & _ & Hl). split; [|done]. nia.
Qed.

Lemma exponent_in_range : 0 <= exponent <= 70 * (acc * acc).
Proof.
  destruct falloff_range as [Hf _]. destruct ln2_range as [Hl _]. pose proof (accuracy_range acc per_accuracies).
  pose proof (per_parts_range stake). pose proof (per_parts_range ideal_stake).
  assert (0 <= ln2 * acc / fall <= 70 * acc); [|nia].
  split; [apply Z.div_pos; nia|]. apply Z.div_le_upper_bound; nia.
Qed.

(** What the series is computed from. *)
Lemma param_values :
  stripped big_value (accuracy param) /\ big_value (accuracy param) = acc
  /\ big_value (x_ideal param) = xi /\ big_value (x param) = xs /\ big_value (ln2_div_d param) = ln2 * acc / fall.
Proof.
  pose proof (accuracy_range acc per_accuracies). assert (10 ^ 18 <= umax 128) by by vm_compute.
  assert (in_uint 128 acc) as Ha by (unfold in_uint; lia). pose proof (parts_fit falloff) as Hf. destruct falloff_range.
  unfold inpos_param, ln2_over. cbn [accuracy x_ideal x ln2_div_d].
  repeat split; [apply big_lstrip_stripped|by rewrite big_lstrip_value, big_from_value|apply big_from_value, parts_fit..|].
  rewrite div_by_stripped_is_div; [|apply big_lstrip_stripped|rewrite big_lstrip_value, big_from_value by done; lia].
  by rewrite big_mul_value, !big_lstrip_value, !big_from_value by (done || apply parts_fit).
Qed.

(** The value of the series is a fraction: what the source calls an unexpected result does
    not happen. *)
Lemma inflation_is_the_series :
  per_deconstruct (compute_inflation (U := U) stake ideal_stake falloff) = big_value (compute_taylor_serie_part param)
  /\ big_value (compute_taylor_serie_part param) = Z.max 0 (acc - alternating 299 (acc * acc) exponent 1 acc).
Proof.
  pose proof (accuracy_range acc per_accuracies). destruct param_values as (Hs & Ha & Hi & Hx & Hl).
  pose proof (series_at_most_one acc exponent per_accuracies exponent_in_range) as Hle.
  pose proof (serie_part_value param acc exponent Hs Ha ltac:(lia) ltac:(lia) ltac:(by rewrite Hi, Hx, Hl)) as Hv.
  unfold compute_inflation. rewrite (proj2 (Z.ltb_ge _ _) above_ideal), (proj2 (Z.ltb_ge _ _) falloff_allowed).
  rewrite big_to_u128_value, Hv. assert (10 ^ 18 < 2 ^ 128) by by vm_compute.
  set (v := Z.max 0 _) in *. assert (0 <= v <= acc) by (subst v; lia).
  rewrite (proj2 (Z.ltb_lt _ _)), (proj2 (Z.leb_le _ _)) by lia. split; [|done]. by apply per_from_parts_parts.
Qed.

Lemma log_close : (Rabs (IZR ln2 - IZR acc * ln 2) <= 2)%R.
Proof.
  destruct ln2_range as [_ Hl]. pose proof (accuracy_range acc per_accuracies) as [Ha Ha']. pose proof LN2_is_ln_2 as [H1' H2'].
  apply IZR_le in Ha, Ha', Hl. rewrite abs_IZR, minus_IZR, !mult_IZR in Hl. rewrite plus_IZR in H2'. apply Rabs_between in Hl.
  set (B := IZR (10 ^ 18)) in *. assert (0 < B)%R as HB by (subst B; apply IZR_lt; done).
  set (A := IZR acc) in *. set (T := Rpower.ln 2) in *. set (K := IZR LN2) in *. set (L := IZR ln2) in *.
  assert (K <= T * B <= K + 1)%R as HT.
  { split; apply (Rmult_le_compat_r B) in H1', H2'; try lra; unfold Rdiv in *; rewrite Rmult_assoc, Rinv_l in *; lra. }
  apply Rabs_le. split; apply (Rmult_le_reg_r B); nra.
Qed.

(** The exponent is close to the one of the documented curve. *)
Lemma exponent_close :
  (IZR acc * Rabs (IZR exponent / IZR (acc * acc) - (IZR xs - IZR xi) / IZR fall * ln 2) <= 203)%R.
Proof.
  destruct falloff_range as [[Hf _] H101], ln2_range as [_ Hl]. pose proof (accuracy_range acc per_accuracies) as [Ha _].
  pose proof (per_parts_range stake) as [_ Hs]. pose proof (per_parts_range ideal_stake) as [Hi _].
  assert (0 < fall) as Hpos by lia. destruct (div_floor (ln2 * acc) fall Hpos) as (e & He & Hfl). pose proof log_close as Hd.
  pose proof (IZR_le _ _ above_ideal) as Hx. apply IZR_le in Hf, H101, Ha, Hs, Hi. rewrite mult_IZR in H101, Hfl.
  rewrite !mult_IZR, minus_IZR, Hfl. set (A := IZR acc) in *. set (F := IZR fall) in *. set (T := ln 2) in *.
  set (part := ((IZR xs - IZR xi) / A)%R). set (ratio := (A / F)%R).
  assert (0 <= part <= 1)%R as Hpart.
  { subst part. split; [apply Rmult_le_pos; [lra|left; apply Rinv_0_lt_compat; lra]|].
    apply (Rmult_le_reg_r A); [lra|]. unfold Rdiv. rewrite Rmult_assoc, Rinv_l; lra. }
  assert (0 <= ratio <= 101)%R as Hratio.
  { subst ratio. split; [apply Rmult_le_pos; [lra|left; apply Rinv_0_lt_compat; lra]|].
    apply (Rmult_le_reg_r F); [lra|]. unfold Rdiv. rewrite Rmult_assoc, Rinv_l; lra. }
  replace ((IZR xs - IZR xi) * (IZR ln2 * A / F - e) / (A * A) - (IZR xs - IZR xi) / F * T)%R
    with (part * (ratio * (IZR ln2 - A * T) - e) / A)%R by (subst part ratio; field; lra).
  unfold Rdiv at 1. rewrite Rabs_mult, (Rabs_pos_eq (/ A)) by (left; apply Rinv_0_lt_compat; lra).
  replace (A * (Rabs (part * (ratio * (IZR ln2 - A * T) - e)) * / A))%R with (Rabs (part * (ratio * (IZR ln2 - A * T) - e))) by (field; lra).
  rewrite Rabs_mult, (Rabs_pos_eq part) by lra. apply Rabs_between in Hd.
  assert (Rabs (ratio * (IZR ln2 - A * T) - e) <= 203)%R as Hb by (apply Rabs_le; nra).
  pose proof (Rabs_pos (ratio * (IZR ln2 - A * T) - e)). nra.
Qed.

(** At the ideal stake the inflation is one. *)
Lemma inflation_at_ideal : xs = xi -> per_deconstruct (compute_inflation (U := U) stake ideal_stake falloff) = acc.
Proof.
  intros Heq. destruct inflation_is_the_series as [-> ->]. rewrite Heq, Z.sub_diag, Z.mul_0_l, alternating_zero.
  pose proof (accuracy_range acc per_accuracies). lia.
Qed.

(** C39: From the ideal stake on, with a falloff of at least one percent, what is returned is the
    sum of the series, never the zero of an unexpected result, and it is the documented curve,
    two to the power of the distance to the ideal stake over the falloff, but for at most 316
    units of the accuracy, whatever the accuracy. *)
Theorem inflation_follows_the_curve :
  per_deconstruct (compute_inflation (U := U) stake ideal_stake falloff) = big_value (compute_taylor_serie_part param)
  /\ (Rabs (IZR (per_deconstruct (compute_inflation (U := U) stake ideal_stake falloff))
        - IZR acc * Rpower 2 ((IZR xi - IZR xs) / IZR fall)) <= 316)%R.
Proof.
  destruct inflation_is_the_series as [Heq Hv]. split; [done|]. rewrite Heq, Hv. unfold Rpower.
  pose proof (accuracy_range acc per_accuracies) as [Ha _]. apply IZR_le in Ha. destruct falloff_range as [[Hf _] _].
  pose proof (series_close acc exponent per_accuracies exponent_in_range) as Hc. pose proof exponent_close as He.
  pose proof exponent_in_range as [Hn _]. assert (0 < acc * acc) as HD by (pose proof (accuracy_range acc per_accuracies); nia).
  pose proof (quotient_nonneg exponent (acc * acc) HD Hn) as Hq.
  assert (0 <= (IZR xs - IZR xi) / IZR fall * ln 2)%R as Hr.
  { apply Rmult_le_pos; [rewrite <- minus_IZR; apply quotient_nonneg; lia|]. left. rewrite <- ln_1. apply ln_increasing; lra. }
  pose proof (exp_minus_lipschitz _ _ Hq Hr) as Hl.
  replace ((IZR xi - IZR xs) / IZR fall * ln 2)%R with (- ((IZR xs - IZR xi) / IZR fall * ln 2))%R by (unfold Rdiv; ring).
  set (r1 := exp (- _)) in *. set (r2 := exp (- ((IZR xs - IZR xi) / IZR fall * ln 2))) in *. set (v := IZR (Z.max 0 _)) in *.
  replace (v - IZR acc * r2)%R with ((v - IZR acc * r1) + IZR acc * (r1 - r2))%R by ring.
  eapply Rle_trans; [apply Rabs_triang|]. rewrite Rabs_mult, (Rabs_pos_eq (IZR acc)) by lra. nra.
Qed.

End Curve.

(** ** Concrete numbers *)

(** A number and how many leading zero limbs it has. *)
Record Limbs : Type := MkLimbs { limbs_value : N; limbs_zeros : N }.

Definition needed_limbs (v : Z) : Z := if v =? 0 then 1 else Z.log2 v / 32 + 1.

Definition limbs_of (v : Z) : Limbs := MkLimbs (Z.to_N v) 0.

Definition limbs_value_of (a : Limbs) : Z := Z.of_N (limbs_value a).

#[global] Instance limbs_big : BigUint Limbs := {
  big_from v := MkLimbs (Z.to_N v) 1;
  big_zero := limbs_of 0;
  big_lstrip a := MkLimbs (limbs_value a) 0;
  big_len a := needed_limbs (limbs_value_of a) + Z.of_N (limbs_zeros a);
  big_checked_get a i := if i =? 0 then Some (limbs_value_of a mod 2 ^ 32) else None;
  big_add a b := MkLimbs (limbs_value a + limbs_value b) 1;
  big_sub a b :=
    if limbs_value_of b <=? limbs_value_of a then Ok (limbs_of (limbs_value_of a - limbs_value_of b)) else Err (limbs_of 0);
  big_mul a b := MkLimbs (limbs_value a * limbs_value b) 1;
  big_div_unit a k := limbs_of (limbs_value_of a / k);
  big_div a b _ := if limbs_value_of b =? 0 then None else Some (limbs_of (limbs_value_of a / limbs_value_of b), None);
  big_is_zero a := limbs_value_of a =? 0;
  big_le a b := limbs_value_of a <=? limbs_value_of b;
  big_to_u128 a := if limbs_value_of a <? 2 ^ 128 then Some (limbs_value_of a) else None
}.

Lemma needed_limbs_range v : 0 <= v ->
  1 <= needed_limbs v /\ v < 2 ^ (32 * needed_limbs v) /\ (1 < needed_limbs v -> 2 ^ (32 * (needed_limbs v - 1)) <= v).
Proof.
  intros Hv. unfold needed_limbs. destruct (Z.eqb_spec v 0) as [->|Hne]; [split; [lia|]; split; [done|lia]|].
  pose proof (Z.log2_spec v ltac:(lia)) as [H1 H2]. pose proof (Z.log2_nonneg v).
  pose proof (Z.div_mod (Z.log2 v) 32 ltac:(lia)). pose proof (Z.mod_pos_bound (Z.log2 v) 32 ltac:(lia)).
  pose proof (Z.div_pos (Z.log2 v) 32 ltac:(lia) ltac:(lia)). split; [lia|]. split.
  - eapply Z.lt_le_trans; [exact H2|]. apply Z.pow_le_mono_r; lia.
  - intros _. eapply Z.le_trans; [|exact H1]. apply Z.pow_le_mono_r; lia.
Qed.

Lemma limbs_of_value v : 0 <= v -> limbs_value_of (limbs_of v) = v.
Proof. intros. unfold limbs_value_of, limbs_of. simpl. lia. Qed.

#[global] Instance limbs_laws : BigUintLaws Limbs.
Proof.
  assert (forall a, 0 <= limbs_value_of a) as Hpos by (intros a; unfold limbs_value_of; lia).
  exists limbs_value_of; simpl.
  - intros a. split; [done|]. destruct (needed_limbs_range (limbs_value_of a) (Hpos a)) as (H1 & H2 & _).
    eapply Z.lt_le_trans; [exact H2|]. apply Z.pow_le_mono_r; lia.
  - intros v [Hv _]. unfold limbs_value_of. simpl. lia.
  - done.
  - done.
  - intros a. unfold stripped. simpl. change (limbs_value_of (MkLimbs (limbs_value a) 0)) with (limbs_value_of a). rewrite Z.add_0_r.
    destruct (needed_limbs_range (limbs_value_of a) (Hpos a)) as (H1 & _ & H3).
    destruct (Z.eq_dec (needed_limbs (limbs_value_of a)) 1); [by left|right]. split; [lia|]. apply H3. lia.
  - intros a Hl. destruct (needed_limbs_range (limbs_value_of a) (Hpos a)) as (H1 & H2 & _).
    assert (needed_limbs (limbs_value_of a) = 1) as E by lia. rewrite E in H2. specialize (Hpos a). by rewrite Z.mod_small by lia.
  - intros a b. unfold limbs_value_of. simpl. lia.
  - intros a b Hab. apply Z.leb_le in Hab as E. rewrite E. eexists. split; [done|]. apply limbs_of_value. lia.
  - intros a b. unfold limbs_value_of. simpl. lia.
  - intros a k Hk. specialize (Hpos a). apply limbs_of_value, Z.div_pos; lia.
  - intros a b _ Hb Hl. destruct (Hb) as [Hb1|[_ Hb2]]; simpl in *; [lia|].
    assert (0 < limbs_value_of b) by (pose proof (Z.pow_pos_nonneg 2 (32 * (needed_limbs (limbs_value_of b) + Z.of_N (limbs_zeros b) - 1))); lia).
    rewrite (proj2 (Z.eqb_neq _ _)) by lia. eexists _, _. split; [done|]. specialize (Hpos a). apply limbs_of_value, Z.div_pos; lia.
  - done.
  - done.
  - done.
Defined.

(** Fractions in parts of 10^18. *)
Record Perquintill : Type := MkPerquintill { perquintill_raw : Z }.

Definition perquintill_parts (p : Perquintill) : Z := Z.max 0 (Z.min (perquintill_raw p) (10 ^ 18)).

#[global] Instance perquintill_thing : PerThing Perquintill := {
  ACCURACY := 10 ^ 18;
  per_zero := MkPerquintill 0;
  per_deconstruct := perquintill_parts;
  per_from_parts := MkPerquintill;
  per_from_percent v := MkPerquintill (v * 10 ^ 18 / 100);
  per_from_rational p q := MkPerquintill (p * 10 ^ 18 / q);
  per_div p q := MkPerquintill (perquintill_parts p * 10 ^ 18 / perquintill_parts q)
}.

#[global] Instance perquintill_laws : PerThingLaws Perquintill.
Proof.
  split; simpl; unfold perquintill_parts; simpl.
  - by repeat (apply elem_of_cons; first [by left|right]).
  - intros. lia.
  - done.
  - intros. lia.
  - done.
  - intros p q Hp Hq. pose proof (Z.div_mod (p * 10 ^ 18) q ltac:(lia)). pose proof (Z.mod_pos_bound (p * 10 ^ 18) q Hq).
    assert (0 <= p * 10 ^ 18 / q <= 10 ^ 18) by (split; [apply Z.div_pos; lia|apply Z.div_le_upper_bound; lia]).
    replace (Z.max 0 (Z.min (p * 10 ^ 18 / q) (10 ^ 18))) with (p * 10 ^ 18 / q) by lia. lia.
Qed.

Definition hundredths (n : Z) : Perquintill := MkPerquintill (n * 10 ^ 16).

(** Ten percent above the ideal stake, with a falloff of five, a quarter is left. *)
Lemma inflation_follows_the_curve_witness :
  per_deconstruct (compute_inflation (U := Limbs) (hundredths 60) (hundredths 50) (hundredths 5)) = 250000000000000000
  /\ (Rabs (IZR (per_deconstruct (compute_inflation (U := Limbs) (hundredths 60) (hundredths 50) (hundredths 5)))
        - IZR (10 ^ 18) * Rpower 2 ((IZR (50 * 10 ^ 16) - IZR (60 * 10 ^ 16)) / IZR (5 * 10 ^ 16))) <= 316)%R.
Proof.
  split; [by vm_compute|].
  destruct (inflation_follows_the_curve (U := Limbs) (hundredths 60) (hundredths 50) (hundredths 5)) as [_ H].
  - by vm_compute.
  - by vm_compute.
  - exact H.
Defined.

(** Below the ideal stake the inflation is proportional to the stake; a falloff below one
    percent gives nothing. *)
Example other_inflations :
  per_deconstruct (compute_inflation (U := Limbs) (hundredths 25) (hundredths 50) (hundredths 5)) = 500000000000000000
  /\ per_deconstruct (compute_inflation (U := Limbs) (hundredths 60) (hundredths 50) (MkPerquintill (10 ^ 16 - 1))) = 0
  /\ per_deconstruct (compute_inflation (U := Limbs) (hundredths 50) (hundredths 50) (hundredths 1)) = 10 ^ 18.
Proof. repeat split; by vm_compute. Qed.

(** A curve that is a line, in billionths. *)
Record Line : Type := MkLine { slope_raw : Z }.

Definition slope (c : Line) : Z := Z.max 0 (Z.min (slope_raw c) (10 ^ 9)).

#[global] Instance lines : PiecewiseLinear Line Line := {
  pb_from_rational p q := MkLine (p * 10 ^ 9 / q);
  pb_mul c v := slope c * v / 10 ^ 9;
  calculate_for_fraction_times_denominator c n d := slope c * n / 10 ^ 9;
  pl_maximum c := c
}.

#[global] Instance lines_laws : PiecewiseLinearLaws Line Line.
Proof.
  split; simpl; intros b; pose proof (eq_refl : slope b = Z.max 0 (Z.min (slope_raw b) (10 ^ 9))).
  - intros u v Hu. split; [apply Z.div_pos; nia|apply Z.div_le_mono; nia].
  - intros u Hu. apply Z.div_le_upper_bound; nia.
  - intros n d Hn. split; [apply Z.div_pos; nia|apply Z.div_le_mono; nia].
Qed.

(** An hour of ten percent a year, with half of the tokens staked. *)
Example payout_of_an_hour :
  compute_total_payout (B := Line) (MkLine (10 ^ 8)) (5 * 10 ^ 20) (10 ^ 21) (60 * 60 * 1000)
  = (5703850000000000, 11407700000000000).
Proof. by vm_compute. Qed.

Lemma payout_below_maximum_witness :
  0 <= (compute_total_payout (B := Line) (MkLine (10 ^ 8)) (5 * 10 ^ 20) (10 ^ 21) (60 * 60 * 1000)).1
    <= (compute_total_payout (B := Line) (MkLine (10 ^ 8)) (5 * 10 ^ 20) (10 ^ 21) (60 * 60 * 1000)).2
  /\ (compute_total_payout (B := Line) (MkLine (10 ^ 8)) (5 * 10 ^ 20) (10 ^ 21) (60 * 60 * 1000)).2 <= 10 ^ 21.
Proof. apply (payout_below_maximum (B := Line)). by vm_compute. Defined.
