(* ===== verification/RewardCurve.v ===== *)
(** * The curve of rewards

    [lib-serml/serp/serp-staking/reward-curve/src]: the macro that turns six parameters into
    the points of a piecewise linear curve, with the logarithm it needs, all in unsigned
    integers. A panic of the macro is a failed build. Neither loop has a bound in the
    source; both take fuel here, and running out of it is the only error. *)

From Stdlib Require Import String.
From S2P Require Import Prelude.

Inductive OutOfFuel : Type := out_of_fuel.

Abbreviation Outcome := (outcome OutOfFuel).

(** [assert!], [try_into().unwrap()] and division. *)
Definition assert (b : bool) : Outcome unit := if b then Ok tt else Panic.

Definition unwrap_u32 (v : Z) : Outcome Z := if v <=? umax 32 then Ok v else Panic.

Definition div (a b : Z) : Outcome Z := if b =? 0 then Panic else Ok (a / b).

(** [wrap 128], with the power computed once. *)
Definition two_128 : Z := Eval vm_compute in 2 ^ 128.

Definition wrap128 (v : Z) : Z := v mod two_128.

Definition mul128 (a b : Z) : Z := wrap128 (a * b).

(** ** log.rs *)

(** [1_u32 << n]. *)
Definition pow2 (n : Z) : Z := wrap 32 (Z.shiftl 1 (n mod 32)).

(** Two over the logarithm of two, in millionths. *)
Definition two_div_ln_2 : Z := 2885390.

(** [a * y_num.pow(n) / y_den.pow(n)] in 128 bits. *)
Definition scaled (a y_num y_den n : Z) : Outcome Z := div (mul128 a (wrap128 (y_num ^ n))) (wrap128 (y_den ^ n)).

(** [for _ in 1..k]. *)
Fixpoint scaled_times (k : nat) (res y_num y_den : Z) : Outcome Z :=
  match k with
  | O => Ok res
  | S k => let? res := scaled res y_num y_den 2 in scaled_times k res y_num y_den
  end.

Definition taylor_term (k y_num y_den : Z) : Outcome Z :=
  if k =? 0 then
    let? res := scaled two_div_ln_2 y_num y_den 1 in
    unwrap_u32 res
  else
    let? res := scaled two_div_ln_2 y_num y_den 3 in
    let? res := scaled_times (Z.to_nat (k - 1)) res y_num y_den in
    let? res := div res (2 * k + 1) in
    unwrap_u32 res.

(** The power of two that the loop looks for; with a fuel of 31 it panics where the
    assertion in the loop does. *)
Fixpoint find_power (fuel : nat) (n p q : Z) : Outcome Z :=
  if (wrap 32 (pow2 n * q) <=? p) && (p <? wrap 32 (pow2 (n + 1) * q)) then Ok n
  else match fuel with O => Panic | S fuel => find_power fuel (n + 1) p q end.

Fixpoint sum_terms (fuel : nat) (k res y_num y_den : Z) : Outcome Z :=
  match fuel with
  | O => Err out_of_fuel
  | S fuel =>
      let? term := taylor_term k y_num y_den in
      if term =? 0 then Ok res else sum_terms fuel (k + 1) (wrap 32 (res + term)) y_num y_den
  end.

(** The seventh term is zero. *)
Definition terms_fuel : nat := 7.

Definition log2 (p q : Z) : Outcome Z :=
  do? assert (q <=? p) in
  do? assert (p <=? umax 32 / 2) in
  do? assert (p <=? 1000000) in
  do? assert (q <=? 1000000) in
  if p =? q then Ok 0
  else
    let? n := find_power 31 0 p q in
    do? assert (p <? wrap 32 (pow2 (n + 1) * q)) in
    let y_num := wrap 32 (p - wrap 32 (pow2 n * q)) in
    let y_den := wrap 32 (p + wrap 32 (pow2 n * q)) in
    sum_terms terms_fuel 0 (wrap 32 (n * 1000000)) y_num y_den.

(** ** lib.rs: the parameters *)

Definition MILLION : Z := 1000000.

Record INposInput : Type := MkInput {
  min_inflation : Z;
  ideal_stake : Z;
  max_inflation : Z;
  falloff : Z;
  max_piece_count : Z;
  test_precision : Z
}.

Record Bounds : Type := MkBounds {
  bound_min : Z;
  min_strict : bool;
  bound_max : Z;
  max_strict : bool
}.

Definition check (b : Bounds) (value : Z) : bool :=
  let wrong :=
    (min_strict b && (value <=? bound_min b)) || (negb (min_strict b) && (value <? bound_min b))
    || (max_strict b && (bound_max b <=? value)) || (negb (max_strict b) && (bound_max b <? value)) in
  negb wrong.

(** The error names the field. *)
Definition parse_field (name : string) (b : Bounds) (value : Z) : outcome string Z :=
  if check b value then Ok value else Err name.

(** [INposInput::parse], on the numbers of the fields in their order. *)
Definition parse (min max ideal fall pieces precision : Z) : outcome string INposInput :=
  let? min := parse_field "min_inflation" (MkBounds 0 true 1000000 false) min in
  let? max := parse_field "max_inflation" (MkBounds min true 1000000 false) max in
  let? ideal := parse_field "ideal_stake" (MkBounds 100000 false 900000 false) ideal in
  let? fall := parse_field "falloff" (MkBounds 10000 false 1000000 false) fall in
  let? pieces := parse_field "max_piece_count" (MkBounds 2 false 1000 false) pieces in
  let? precision := parse_field "test_precision" (MkBounds 0 false 1000000 false) precision in
  Ok (MkInput min ideal max fall pieces precision).

Record INPoS : Type := MkINPoS {
  i_0 : Z;
  i_ideal_times_x_ideal : Z;
  i_ideal : Z;
  x_ideal : Z;
  d : Z
}.

Definition from_input (input : INposInput) : Outcome INPoS :=
  let? ideal := div (wrap 64 (max_inflation input * MILLION)) (ideal_stake input) in
  let? ideal := unwrap_u32 ideal in
  Ok (MkINPoS (min_inflation input) (max_inflation input) ideal (ideal_stake input) (falloff input)).

(** ** The points *)

Definition compute_opposite_after_x_ideal (c : INPoS) (y : Z) : Outcome Z :=
  if y =? i_0 c then Ok (umax 32)
  else
    let? log := log2 (wrap 32 (i_ideal_times_x_ideal c - i_0 c)) (wrap 32 (y - i_0 c)) in
    let? term := unwrap_u32 (wrap 64 (d c * log) / 1000000) in
    Ok (wrap 32 (x_ideal c + term)).

Section Points.
Variable input : INposInput.
Variable inpos : INPoS.
Variable max_length : Z.

(** The point at one, between the last one and the next, which is behind. *)
Definition last_point (prev next : Z * Z) : Outcome (Z * Z) :=
  let? q := div (wrap 64 (wrap 32 (next.1 - 1000000) * wrap 32 (prev.2 - next.2))) (wrap 32 (next.1 - prev.1)) in
  let? delta_y := unwrap_u32 q in
  Ok (1000000, wrap 32 (next.2 + delta_y)).

Fixpoint points_loop (fuel : nat) (delta_y y : Z) (points : list (Z * Z)) : Outcome (list (Z * Z)) :=
  match fuel with
  | O => Err out_of_fuel
  | S fuel =>
      if delta_y =? 0 then Ok (points ++ [(1000000, i_0 inpos)])
      else
        let next_y := wrap 32 (y - delta_y) in
        if next_y <=? min_inflation input then points_loop fuel (sat_sub delta_y 1) y points
        else
          let? next_x := compute_opposite_after_x_ideal inpos next_y in
          match last points with
          | None => Panic
          | Some prev =>
              if max_length <? wrap 32 (next_x - prev.1) then points_loop fuel (sat_sub delta_y 1) y points
              else if 1000000 <=? next_x then
                let? p := last_point prev (next_x, next_y) in
                Ok (points ++ [p])
              else points_loop fuel delta_y next_y (points ++ [(next_x, next_y)])
          end
  end.
End Points.

Definition compute_points (fuel : nat) (input : INposInput) : Outcome (list (Z * Z)) :=
  let? inpos := from_input input in
  let? max_length := div (wrap 32 (max_inflation input - min_inflation input + 1000000 - x_ideal inpos)) (wrap 32 (max_piece_count input - 1)) in
  points_loop input inpos max_length fuel max_length (max_inflation input)
    [(0, i_0 inpos); (x_ideal inpos, i_ideal_times_x_ideal inpos)].

(** ** The curve, in billionths *)

Definition max_of (l : list Z) : Z := fold_left Z.max l 0.

Definition to_perbill (v : Z) : Outcome Z :=
  match checked_mul 32 v 1000 with Some v => Ok v | None => Panic end.

Fixpoint perbill_points (points : list (Z * Z)) : Outcome (list (Z * Z)) :=
  match points with
  | [] => Ok []
  | (x, y) :: points =>
      let? x := to_perbill x in
      let? y := to_perbill y in
      let? points := perbill_points points in
      Ok ((x, y) :: points)
  end.

(** The points and the maximum of the curve that is declared. *)
Definition generate_piecewise_linear (points : list (Z * Z)) : Outcome (list (Z * Z) * Z) :=
  let maximum := default 1000000000 (checked_mul 32 (max_of (map snd points)) 1000) in
  let? points := perbill_points points in
  Ok (points, maximum).
