(* ===== verification/RewardCurveTheorems.v ===== *)
(** * What the macro of the curve computes

    The logarithm ends, is right in its whole part and falls with its second argument; from
    parameters whose pieces are short enough the macro makes a curve that rises to the ideal
    stake and falls from there to the stake of one; from others it panics, or makes more
    pieces than it was asked for. *)

From Stdlib Require Import String.
From stdpp Require Import sorting.
From S2P Require Import Prelude RewardCurve.

(** ** The terms of the series, without widths *)

Definition part (a n d e : Z) : Z := a * n ^ e / d ^ e.

Fixpoint part_times (k : nat) (res n d : Z) : Z :=
  match k with O => res | S k => part_times k (part res n d 2) n d end.

Definition term (k n d : Z) : Z :=
  if k =? 0 then part two_div_ln_2 n d 1 else part_times (Z.to_nat (k - 1)) (part two_div_ln_2 n d 3) n d / (2 * k + 1).

(** The terms up to the first that is zero. *)
Fixpoint terms (fuel : nat) (k n d : Z) : Z :=
  match fuel with
  | O => 0
  | S fuel => if term k n d =? 0 then 0 else term k n d + terms fuel (k + 1) n d
  end.

(** A fraction of two numbers of the width of the macro. *)
Definition fraction (n d : Z) : Prop := 0 <= n <= d /\ 0 < d <= 2000000.

Lemma part_range a n d e : 0 <= a -> 0 <= e -> fraction n d -> 0 <= part a n d e <= a.
Proof.
  intros Ha He [Hn Hd]. unfold part. assert (0 < d ^ e) by (apply Z.pow_pos_nonneg; lia).
  assert (0 <= n ^ e <= d ^ e) by (split; [apply Z.pow_nonneg; lia|apply Z.pow_le_mono_l; lia]).
  split; [apply Z.div_pos; nia|]. apply Z.div_le_upper_bound; nia.
Qed.

Lemma part_mono a a' n d n' d' e :
  0 <= a <= a' -> 0 <= e -> fraction n d -> fraction n' d' -> n * d' <= n' * d -> part a n d e <= part a' n' d' e.
Proof.
  intros Ha He [Hn Hd] [Hn' Hd'] Hle. unfold part.
  assert (0 < d ^ e) by (apply Z.pow_pos_nonneg; lia). assert (0 < d' ^ e) by (apply Z.pow_pos_nonneg; lia).
  assert (0 <= n ^ e) by (apply Z.pow_nonneg; lia). assert (0 <= n' ^ e) by (apply Z.pow_nonneg; lia).
  assert (n ^ e * d' ^ e <= n' ^ e * d ^ e) by (rewrite <- !Z.pow_mul_l; apply Z.pow_le_mono_l; nia).
  apply Z.div_le_lower_bound; [done|].
  etransitivity; [apply Z.div_mul_le; lia|]. apply Z.div_le_upper_bound; [done|]. nia.
Qed.

Lemma part_times_range k res n d : 0 <= res -> fraction n d -> 0 <= part_times k res n d <= res.
Proof.
  revert res. induction k as [|k IH]; intros res Hr Hf; [simpl; lia|]. cbn [part_times].
  pose proof (part_range res n d 2 Hr ltac:(lia) Hf) as Hp. specialize (IH (part res n d 2) ltac:(lia) Hf). lia.
Qed.

Lemma part_times_mono k res res' n d n' d' :
  0 <= res <= res' -> fraction n d -> fraction n' d' -> n * d' <= n' * d -> part_times k res n d <= part_times k res' n' d'.
Proof.
  revert res res'. induction k as [|k IH]; intros res res' Hr Hf Hf' Hle; [simpl; lia|]. cbn [part_times]. apply IH; [|done..].
  split; [apply part_range; [lia..|done]|by apply part_mono].
Qed.

Lemma term_range k n d : 0 <= k -> fraction n d -> 0 <= term k n d <= two_div_ln_2.
Proof.
  intros Hk Hf. unfold term. assert (0 <= two_div_ln_2) by done.
  destruct (Z.eqb_spec k 0); [by apply part_range|].
  pose proof (part_range two_div_ln_2 n d 3 ltac:(done) ltac:(lia) Hf) as Hp.
  pose proof (part_times_range (Z.to_nat (k - 1)) _ n d (proj1 Hp) Hf) as Ht.
  split; [apply Z.div_pos; lia|]. apply Z.div_le_upper_bound; nia.
Qed.

Lemma term_mono k n d n' d' :
  0 <= k -> fraction n d -> fraction n' d' -> n * d' <= n' * d -> term k n d <= term k n' d'.
Proof.
  intros Hk Hf Hf' Hle. unfold term. destruct (Z.eqb_spec k 0); [by apply part_mono|].
  apply Z.div_le_mono; [lia|]. apply part_times_mono; [|done..]. split; [by apply part_range|by apply part_mono].
Qed.

Lemma terms_mono fuel k n d n' d' :
  0 <= k -> fraction n d -> fraction n' d' -> n * d' <= n' * d -> 0 <= terms fuel k n d <= terms fuel k n' d'.
Proof.
  revert k. induction fuel as [|fuel IH]; intros k Hk Hf Hf' Hle; [simpl; lia|]. cbn [terms].
  pose proof (term_mono k n d n' d' Hk Hf Hf' Hle) as Ht. pose proof (term_range k n d Hk Hf).
  specialize (IH (k + 1) ltac:(lia) Hf Hf' Hle).
  destruct (Z.eqb_spec (term k n d) 0), (Z.eqb_spec (term k n' d') 0); lia.
Qed.

(** A third is the largest fraction that the logarithm sums. *)
Lemma third_terms : terms terms_fuel 0 1 3 = 999997 /\ term 6 1 3 = 0.
Proof. vm_compute. done. Qed.

Lemma third : fraction 1 3.
Proof. unfold fraction. lia. Qed.

(** ** The widths suffice *)

Lemma wrap128_exact v : 0 <= v < 2 ^ 128 -> wrap128 v = v.
Proof. intros Hv. unfold wrap128. apply Z.mod_small. exact Hv. Qed.

Lemma scaled_exact a n d e :
  0 <= a <= two_div_ln_2 -> 0 <= e <= 3 -> fraction n d -> scaled a n d e = Ok (part a n d e).
Proof.
  intros Ha He [Hn Hd]. unfold scaled, mul128, div. unfold two_div_ln_2 in Ha.
  assert (0 <= n ^ e <= 2000000 ^ 3) as Hne.
  { split; [apply Z.pow_nonneg; lia|]. etransitivity; [apply (Z.pow_le_mono_l n 2000000); lia|apply Z.pow_le_mono_r; lia]. }
  assert (0 < d ^ e <= 2000000 ^ 3) as Hde.
  { split; [apply Z.pow_pos_nonneg; lia|]. etransitivity; [apply (Z.pow_le_mono_l d 2000000); lia|apply Z.pow_le_mono_r; lia]. }
  rewrite (wrap128_exact (n ^ e)), (wrap128_exact (d ^ e)), wrap128_exact by nia.
  by rewrite (proj2 (Z.eqb_neq _ _)) by lia.
Qed.

Lemma scaled_times_exact k res n d :
  0 <= res <= two_div_ln_2 -> fraction n d -> scaled_times k res n d = Ok (part_times k res n d).
Proof.
  revert res. induction k as [|k IH]; intros res Hr Hf; [done|]. cbn [scaled_times part_times].
  rewrite scaled_exact by (done || lia). cbn [obind]. apply IH; [|done].
  pose proof (part_range res n d 2 ltac:(lia) ltac:(lia) Hf). lia.
Qed.

Lemma taylor_term_exact k n d : 0 <= k -> fraction n d -> taylor_term k n d = Ok (term k n d).
Proof.
  intros Hk Hf. pose proof (term_range k n d Hk Hf) as Hr. assert (two_div_ln_2 <= umax 32) by by vm_compute.
  unfold taylor_term, term in *. assert (0 <= two_div_ln_2) by done. destruct (Z.eqb_spec k 0).
  - rewrite scaled_exact by (done || lia). cbn [obind]. unfold unwrap_u32. by rewrite (proj2 (Z.leb_le _ _)) by lia.
  - rewrite scaled_exact by (done || lia). cbn [obind]. pose proof (part_range two_div_ln_2 n d 3 ltac:(lia) ltac:(lia) Hf).
    rewrite scaled_times_exact by (done || lia). cbn [obind]. unfold div. rewrite (proj2 (Z.eqb_neq _ _)) by lia. cbn [obind].
    unfold unwrap_u32. by rewrite (proj2 (Z.leb_le _ _)) by lia.
Qed.

(** The loop ends at the first zero, and its sum does not overflow. *)
Lemma sum_terms_exact fuel k res n d :
  0 <= k -> fraction n d -> 0 <= res -> res + terms fuel k n d <= umax 32 ->
  term (k + Z.of_nat fuel - 1) n d = 0 -> (0 < fuel)%nat ->
  sum_terms fuel k res n d = Ok (res + terms fuel k n d).
Proof.
  revert k res. induction fuel as [|fuel IH]; intros k res Hk Hf Hres Hfit Hz Hpos; [lia|]. cbn [sum_terms terms] in *.
  rewrite taylor_term_exact by done. cbn [obind]. pose proof (term_range k n d Hk Hf).
  destruct (Z.eqb_spec (term k n d) 0) as [|Hne]; [f_equal; lia|].
  destruct fuel as [|fuel].
  { exfalso. apply Hne. rewrite <- Hz. f_equal. lia. }
  pose proof (terms_mono (S fuel) (k + 1) n d n d ltac:(lia) Hf Hf ltac:(lia)).
  rewrite wrap_exact by (unfold in_uint; lia). rewrite IH; [f_equal; lia|lia|done|lia|lia| |lia].
  rewrite <- Hz. f_equal. lia.
Qed.

(** ** The logarithm *)

Lemma pow2_exact n : 0 <= n < 32 -> pow2 n = 2 ^ n.
Proof.
  intros Hn. unfold pow2. rewrite Z.mod_small by lia. rewrite Z.shiftl_mul_pow2, Z.mul_1_l by lia.
  apply wrap_exact. unfold in_uint, umax. assert (2 ^ n < 2 ^ 32) by (apply Z.pow_lt_mono_r; lia). pose proof (Z.pow_nonneg 2 n). lia.
Qed.

Lemma small_power n p q : 0 <= n -> 1 <= q -> 2 ^ n * q <= p -> p <= 1000000 -> n < 20.
Proof.
  intros Hn Hq Hle Hp. destruct (Z.lt_ge_cases n 20) as [|Hge]; [done|]. exfalso.
  assert (2 ^ 20 <= 2 ^ n) by (apply Z.pow_le_mono_r; lia). change (2 ^ 20) with 1048576 in *. nia.
Qed.

Lemma find_power_ok fuel n p q :
  1 <= q -> p <= 1000000 -> 0 <= n -> n + Z.of_nat fuel = 31 -> 2 ^ n * q <= p ->
  exists m, find_power fuel n p q = Ok m /\ 0 <= m /\ 2 ^ m * q <= p < 2 ^ (m + 1) * q.
Proof.
  revert n. induction fuel as [|fuel IH]; intros n Hq Hp Hn Hf Hle; pose proof (small_power n p q Hn Hq Hle Hp) as Hs; [lia|].
  cbn [find_power]. rewrite !pow2_exact by lia. rewrite Z.pow_add_r, Z.pow_1_r by lia. pose proof (Z.pow_pos_nonneg 2 n ltac:(lia) Hn).
  assert (2000000 <= umax 32) by by vm_compute. rewrite !wrap_exact by (unfold in_uint; nia).
  rewrite (proj2 (Z.leb_le _ _)) by lia. destruct (Z.ltb_spec p (2 ^ n * 2 * q)) as [Hlt|Hge].
  - exists n. split_and!; [done|lia..|]. rewrite Z.pow_add_r by lia. lia.
  - apply IH; [lia..|]. rewrite Z.pow_add_r by lia. lia.
Qed.

(** The value of the logarithm: the power of two, and the series of the rest. *)
Lemma log2_value p q :
  1 <= q <= p -> p <= 1000000 ->
  exists n, 0 <= n < 20 /\ 2 ^ n * q <= p < 2 * (2 ^ n * q)
    /\ log2 p q = Ok (n * 1000000 + terms terms_fuel 0 (p - 2 ^ n * q) (p + 2 ^ n * q)).
Proof.
  intros Hq Hp. assert (20999997 <= umax 32) by by vm_compute. unfold log2.
  rewrite (proj2 (Z.leb_le q p)), (proj2 (Z.leb_le p 1000000)), (proj2 (Z.leb_le q 1000000)) by lia.
  rewrite (proj2 (Z.leb_le p (umax 32 / 2))) by (change (umax 32 / 2) with 2147483647; lia). cbn [assert obind].
  destruct (Z.eqb_spec p q) as [->|Hne].
  - exists 0. rewrite Z.pow_0_r, Z.mul_1_l, Z.sub_diag. split_and!; [lia..|].
    reflexivity.
  - destruct (find_power_ok 31 0 p q ltac:(lia) Hp ltac:(lia) eq_refl ltac:(rewrite Z.pow_0_r; lia)) as (n & -> & Hn & Hle & Hlt).
    pose proof (small_power n p q Hn ltac:(lia) Hle Hp) as Hs. cbn [obind]. rewrite !pow2_exact by lia.
    rewrite Z.pow_add_r, Z.pow_1_r in * by lia. pose proof (Z.pow_pos_nonneg 2 n ltac:(lia) Hn) as Hpos.
    set (A := 2 ^ n * q) in *. replace (2 ^ n * 2 * q) with (2 * A) in * by (unfold A; lia). rewrite !(wrap_exact 32 A), !(wrap_exact 32 (2 * A)) by (unfold in_uint; nia).
    rewrite (proj2 (Z.ltb_lt _ _)) by lia. cbn [assert obind]. rewrite !wrap_exact by (unfold in_uint; nia).
    exists n. fold A. split_and!; [lia..|].
    assert (fraction (p - A) (p + A)) as Hf by (unfold fraction; nia).
    pose proof (terms_mono terms_fuel 0 (p - A) (p + A) 1 3 ltac:(lia) Hf third ltac:(lia)) as Ht. rewrite (proj1 third_terms) in Ht.
    rewrite sum_terms_exact; [done|lia|done|lia| | |unfold terms_fuel; lia].
    + lia.
    + pose proof (term_mono 6 (p - A) (p + A) 1 3 ltac:(lia) Hf third ltac:(lia)) as H6. rewrite (proj2 third_terms) in H6.
      pose proof (term_range 6 (p - A) (p + A) ltac:(lia) Hf). change (0 + Z.of_nat terms_fuel - 1) with 6. lia.
Qed.

Lemma log2_range p q r : 1 <= q <= p -> p <= 1000000 -> log2 p q = Ok r -> 0 <= r <= 20000000.
Proof.
  intros Hq Hp H. destruct (log2_value p q Hq Hp) as (n & Hn & Hle & Hv). rewrite H in Hv. assert (r = n * 1000000 + terms terms_fuel 0 (p - 2 ^ n * q) (p + 2 ^ n * q)) as -> by congruence.
  pose proof (Z.pow_pos_nonneg 2 n ltac:(lia) ltac:(lia)).
  assert (fraction (p - 2 ^ n * q) (p + 2 ^ n * q)) as Hf by (unfold fraction; nia).
  pose proof (terms_mono terms_fuel 0 (p - 2 ^ n * q) (p + 2 ^ n * q) 1 3 ltac:(lia) Hf third ltac:(lia)) as Ht.
  rewrite (proj1 third_terms) in Ht. lia.
Qed.

(** Both arguments in range, the logarithm is right in its whole part, and it does not fall
    when the second argument does: no panic, no overflow, and seven terms are enough. *)
Lemma log2_mono p q q' :
  1 <= q' <= q -> q <= p -> p <= 1000000 ->
  exists r r' n, log2 p q = Ok r /\ log2 p q' = Ok r' /\ r <= r'
    /\ 2 ^ n * q <= p < 2 ^ (n + 1) * q /\ n * 1000000 <= r < (n + 1) * 1000000.
Proof.
  intros Hq' Hq Hp. destruct (log2_value p q ltac:(lia) Hp) as (n & Hn & Hle & ->). destruct (log2_value p q' ltac:(lia) Hp) as (n' & Hn' & Hle' & ->).
  eexists _, _, n. split; [done|]. split; [done|].
  pose proof (Z.pow_pos_nonneg 2 n ltac:(lia) ltac:(lia)) as Hpos. pose proof (Z.pow_pos_nonneg 2 n' ltac:(lia) ltac:(lia)) as Hpos'.
  rewrite Z.pow_add_r, Z.pow_1_r by lia.
  assert (fraction (p - 2 ^ n * q) (p + 2 ^ n * q)) as Hf by (unfold fraction; nia).
  assert (fraction (p - 2 ^ n' * q') (p + 2 ^ n' * q')) as Hf' by (unfold fraction; nia).
  pose proof (terms_mono terms_fuel 0 (p - 2 ^ n * q) (p + 2 ^ n * q) 1 3 ltac:(lia) Hf third ltac:(lia)) as Ht.
  pose proof (terms_mono terms_fuel 0 (p - 2 ^ n' * q') (p + 2 ^ n' * q') 1 3 ltac:(lia) Hf' third ltac:(lia)) as Ht'.
  rewrite (proj1 third_terms) in Ht, Ht'.
  split; [|lia]. destruct (Z.lt_trichotomy n n') as [Hlt|[->|Hgt]]; [lia| |].
  - assert (p * (2 ^ n' * q') <= p * (2 ^ n' * q)) by (apply Z.mul_le_mono_nonneg_l; nia).
    pose proof (terms_mono terms_fuel 0 (p - 2 ^ n' * q) (p + 2 ^ n' * q) (p - 2 ^ n' * q') (p + 2 ^ n' * q') ltac:(lia) Hf Hf' ltac:(nia)). lia.
  - exfalso. assert (2 ^ n' * 2 <= 2 ^ n) by (replace (2 ^ n' * 2) with (2 ^ (n' + 1)) by (rewrite Z.pow_add_r; lia); apply Z.pow_le_mono_r; lia). nia.
Qed.

(** ** The parameters *)

Definition in_range (i : INposInput) : Prop :=
  0 < min_inflation i < max_inflation i /\ max_inflation i <= 1000000 /\ 100000 <= ideal_stake i <= 900000
  /\ 10000 <= falloff i <= 1000000 /\ 2 <= max_piece_count i <= 1000.

Lemma parse_field_ok name b v v' : parse_field name b v = Ok v' -> v' = v /\ check b v = true.
Proof. unfold parse_field. by case_match; intros [= ->]. Qed.

Lemma check_open lo hi v : check (MkBounds lo true hi false) v = true <-> lo < v <= hi.
Proof. unfold check. simpl. rewrite !orb_false_r, negb_true_iff, orb_false_iff, Z.leb_gt, Z.ltb_ge. lia. Qed.

Lemma check_closed lo hi v : check (MkBounds lo false hi false) v = true <-> lo <= v <= hi.
Proof. unfold check. simpl. rewrite !orb_false_r, negb_true_iff, orb_false_iff, !Z.ltb_ge. lia. Qed.

Lemma parse_in_range a b c e p t i : parse a b c e p t = Ok i -> in_range i.
Proof.
  unfold parse. intros H.
  repeat match type of H with
  | context [obind (parse_field ?s ?b ?v) _] =>
      let E := fresh in destruct (parse_field s b v) eqn:E; [apply parse_field_ok in E as [-> E]; cbn [obind] in H|done|done];
      rewrite ?check_open, ?check_closed in E
  end.
  injection H as <-. unfold in_range. simpl. lia.
Qed.

(** ** The stake at which the curve has a given height *)

Definition inpos_of (i : INposInput) : INPoS :=
  MkINPoS (min_inflation i) (max_inflation i) (max_inflation i * MILLION / ideal_stake i) (ideal_stake i) (falloff i).

Definition max_length_of (i : INposInput) : Z :=
  (max_inflation i - min_inflation i + 1000000 - ideal_stake i) / (max_piece_count i - 1).

Lemma from_input_ok i : in_range i -> from_input i = Ok (inpos_of i).
Proof.
  intros (? & ? & ? & _). unfold from_input, inpos_of, div, unwrap_u32, MILLION.
  rewrite (proj2 (Z.eqb_neq _ _)) by lia. cbn [obind].
  assert (1000000000000 <= umax 64 /\ 10000000 <= umax 32) as [? ?] by by vm_compute.
  rewrite wrap_exact by (unfold in_uint; lia).
  rewrite (proj2 (Z.leb_le _ _)); [done|]. etransitivity; [|done]. apply Z.div_le_upper_bound; lia.
Qed.

Lemma max_length_range i : in_range i -> 0 <= max_length_of i <= 2000000.
Proof.
  intros (? & ? & ? & _ & ?). unfold max_length_of. split; [apply Z.div_pos; lia|]. apply Z.div_le_upper_bound; nia.
Qed.

Lemma compute_points_ok fuel i :
  in_range i ->
  compute_points fuel i
  = points_loop i (inpos_of i) (max_length_of i) fuel (max_length_of i) (max_inflation i)
      [(0, min_inflation i); (ideal_stake i, max_inflation i)].
Proof.
  intros Hr. unfold compute_points. rewrite from_input_ok by done. destruct Hr as (? & ? & ? & _ & ?). cbn [obind].
  assert (2000000 <= umax 32) by by vm_compute. unfold div, inpos_of, max_length_of. cbn [x_ideal i_0 i_ideal_times_x_ideal].
  rewrite !wrap_exact by (unfold in_uint; lia). by rewrite (proj2 (Z.eqb_neq _ _)) by lia.
Qed.

(** Lower heights come later. *)
Lemma opposite_mono i y y' :
  in_range i -> min_inflation i < y' <= y -> y <= max_inflation i ->
  exists x x', compute_opposite_after_x_ideal (inpos_of i) y = Ok x /\ compute_opposite_after_x_ideal (inpos_of i) y' = Ok x'
    /\ ideal_stake i <= x <= x' /\ x' <= 21000000.
Proof.
  intros (? & ? & ? & ? & _) Hy' Hy.
  destruct (log2_mono (max_inflation i - min_inflation i) (y - min_inflation i) (y' - min_inflation i)) as (r & r' & n & Hl & Hl' & Hle & _ & Hr); [lia..|].
  assert (0 <= r) as Hr0 by (eapply log2_range; [..|exact Hl]; lia). assert (r' <= 20000000) as Hr' by (eapply log2_range; [..|exact Hl']; lia).
  assert (0 <= falloff i * r <= falloff i * r' /\ falloff i * r' <= 20000000000000) as [Hm Hm'] by nia.
  assert (21000000 <= umax 32 /\ 20000000000000 <= umax 64) as [? ?] by by vm_compute.
  unfold compute_opposite_after_x_ideal, inpos_of. cbn [i_0 i_ideal_times_x_ideal x_ideal d].
  rewrite !(proj2 (Z.eqb_neq _ _)) by lia. rewrite !(wrap_exact 32 (_ - _)) by (unfold in_uint; lia). rewrite Hl, Hl'. cbn [obind].
  rewrite !(wrap_exact 64) by (unfold in_uint; lia).
  assert (0 <= falloff i * r / 1000000 <= falloff i * r' / 1000000) as Hq by (split; [apply Z.div_pos; lia|apply Z.div_le_mono; lia]).
  assert (falloff i * r' / 1000000 <= 20000000) by (apply Z.div_le_upper_bound; lia).
  unfold unwrap_u32. rewrite !(proj2 (Z.leb_le _ _)) by lia. cbn [obind].
  rewrite !wrap_exact by (unfold in_uint; lia). eexists _, _. split_and!; [done..|lia|lia|lia].
Qed.

Lemma opposite_of_max i : in_range i -> compute_opposite_after_x_ideal (inpos_of i) (max_inflation i) = Ok (ideal_stake i).
Proof.
  intros (? & ? & ? & ? & _). unfold compute_opposite_after_x_ideal, inpos_of. cbn [i_0 i_ideal_times_x_ideal x_ideal d].
  rewrite (proj2 (Z.eqb_neq _ _)) by lia. assert (2000000 <= umax 32) by by vm_compute.
  rewrite !(wrap_exact 32 (_ - _)) by (unfold in_uint; lia). unfold log2. rewrite !(proj2 (Z.leb_le _ _)), Z.eqb_refl by (change (umax 32 / 2) with 2147483647; lia).
  cbn [assert obind]. rewrite Z.mul_0_r. change (wrap 64 0 / 1000000) with 0. unfold unwrap_u32. rewrite (proj2 (Z.leb_le _ _)) by lia.
  cbn [obind]. rewrite Z.add_0_r. f_equal. apply wrap_exact. unfold in_uint. lia.
Qed.

(** ** The loop *)

(** To the right and down. *)
Definition falls (p q : Z * Z) : Prop := p.1 <= q.1 /\ q.2 < p.2.

(** By at most [max_length] each way. *)
Definition piece (i : INposInput) (p q : Z * Z) : Prop :=
  falls p q /\ q.1 - p.1 <= max_length_of i /\ p.2 - q.2 <= max_length_of i.

Definition on_curve (i : INposInput) (p : Z * Z) : Prop :=
  compute_opposite_after_x_ideal (inpos_of i) p.2 = Ok p.1.

Lemma sorted_snoc {A} (R : A -> A -> Prop) l a b : Sorted R (l ++ [a]) -> R a b -> Sorted R ((l ++ [a]) ++ [b]).
Proof.
  intros Hs Hab. induction l as [|c l IH]; simpl in *; [by repeat constructor|].
  apply Sorted_inv in Hs as [Hs Hc]. constructor; [by apply IH|].
  destruct l; simpl in *; by apply HdRel_inv in Hc; constructor.
Qed.

Lemma sorted_falls i l : Sorted (piece i) l -> Sorted falls l.
Proof.
  induction 1 as [|a l Hs IH Hd]; constructor; [done|]. destruct Hd as [|b l [Hf _]]; by constructor.
Qed.

Lemma last_point_ok prev next :
  0 <= prev.1 < 1000000 -> 1000000 <= next.1 <= 21000000 -> 0 <= next.2 < prev.2 -> prev.2 <= 1000000 ->
  exists y, last_point prev next = Ok (1000000, y) /\ next.2 <= y < prev.2.
Proof.
  destruct prev as [px py], next as [nx ny]. cbn [fst snd]. intros Hp Hn Hy Hpy. unfold last_point. cbn [fst snd].
  assert (21000000 <= umax 32 /\ 21000000000000 <= umax 64) as [? ?] by by vm_compute.
  assert (0 <= (nx - 1000000) * (py - ny) /\ (nx - 1000000) * (py - ny) < (nx - px) * (py - ny) /\ (nx - 1000000) * (py - ny) <= 21000000000000) as (Hm0 & Hm1 & Hm2) by nia.
  rewrite !(wrap_exact 32 (_ - _)) by (unfold in_uint; lia). rewrite (wrap_exact 64) by (unfold in_uint; lia).
  unfold div. rewrite (proj2 (Z.eqb_neq _ _)) by lia. cbn [obind].
  assert (0 <= (nx - 1000000) * (py - ny) / (nx - px) < py - ny) as Hq
    by (split; [apply Z.div_pos; lia|apply Z.div_lt_upper_bound; lia]).
  unfold unwrap_u32. rewrite (proj2 (Z.leb_le _ _)) by lia. cbn [obind]. rewrite wrap_exact by (unfold in_uint; lia).
  eexists. split; [done|]. lia.
Qed.

Lemma points_loop_ok i fuel delta y curve x :
  in_range i -> max_length_of i <= min_inflation i + 1 -> 0 <= delta <= max_length_of i ->
  min_inflation i < y <= max_inflation i -> x < 1000000 ->
  Sorted (piece i) (curve ++ [(x, y)]) -> Forall (on_curve i) (curve ++ [(x, y)]) ->
  delta + (y - min_inflation i) < Z.of_nat fuel ->
  exists rest y', let all := curve ++ (x, y) :: rest in
    points_loop i (inpos_of i) (max_length_of i) fuel delta y ((0, min_inflation i) :: curve ++ [(x, y)])
      = Ok ((0, min_inflation i) :: all ++ [(1000000, y')])
    /\ Sorted (piece i) all /\ Forall (on_curve i) all /\ Sorted falls (all ++ [(1000000, y')]) /\ min_inflation i <= y'.
Proof.
  intros Hr HL. revert delta y curve x. induction fuel as [|fuel IH]; intros delta y curve x Hd Hy Hx Hs Hc Hf; [lia|].
  cbn [points_loop]. destruct (Z.eqb_spec delta 0) as [->|Hne].
  { exists [], (min_inflation i). cbn zeta. split_and!; [done..| |lia].
    apply sorted_snoc; [by eapply sorted_falls|]. unfold falls. simpl. lia. }
  destruct Hr as (Hr1 & Hr2 & Hr3 & Hr4 & Hr5). assert (1000000 <= umax 32) by by vm_compute.
  rewrite (wrap_exact 32 (y - delta)) by (unfold in_uint; lia).
  assert (sat_sub delta 1 = delta - 1) as -> by (unfold sat_sub; lia).
  destruct (Z.leb_spec (y - delta) (min_inflation i)); [by apply IH; [lia..|done|done|lia]|].
  assert (in_range i) as Hr by done.
  destruct (opposite_mono i y (y - delta) Hr ltac:(lia) ltac:(lia)) as (x0 & nx & Hx0 & Hnx & Hle & Hbig).
  assert (x0 = x) as -> by (apply Forall_app in Hc as [_ Hc%Forall_inv]; unfold on_curve in Hc; simpl in Hc; congruence).
  rewrite Hnx. cbn [obind]. change ((0, min_inflation i) :: curve ++ [(x, y)]) with (((0, min_inflation i) :: curve) ++ [(x, y)]).
  rewrite last_snoc. cbn [fst snd]. assert (21000000 <= umax 32) by by vm_compute.
  rewrite (wrap_exact 32 (nx - x)) by (unfold in_uint; lia).
  destruct (Z.ltb_spec (max_length_of i) (nx - x)); [by apply IH; [lia..|done|done|lia]|].
  destruct (Z.leb_spec 1000000 nx) as [Hend|Hgo].
  - destruct (last_point_ok (x, y) (nx, y - delta)) as (y' & -> & Hy'); cbn [fst snd] in *; [lia..|]. cbn [obind].
    exists [], y'. cbn zeta. split_and!; [done..| |lia].
    apply sorted_snoc; [by eapply sorted_falls|]. unfold falls. simpl. lia.
  - destruct (IH delta (y - delta) (curve ++ [(x, y)]) nx) as (rest & y' & He & G1 & G2 & G3 & G4); [lia..| | |lia|].
    + apply sorted_snoc; [done|]. unfold piece, falls. simpl. lia.
    + apply Forall_app. split; [done|]. by constructor.
    + cbn zeta in *. assert ((curve ++ [(x, y)]) ++ (nx, y - delta) :: rest = curve ++ (x, y) :: (nx, y - delta) :: rest) as Hall by by rewrite <- app_assoc.
      rewrite Hall in He, G1, G2, G3. by exists ((nx, y - delta) :: rest), y'.
Qed.

(** ** The curve in billionths *)

#[export] Instance falls_transitive : Transitive falls.
Proof. intros p q r [] []. unfold falls. lia. Qed.

Definition scale (p : Z * Z) : Z * Z := (p.1 * 1000, p.2 * 1000).

Lemma to_perbill_ok v : 0 <= v <= 1000000 -> to_perbill v = Ok (v * 1000).
Proof.
  intros Hv. unfold to_perbill, checked_mul. assert (1000000000 <= umax 32) by by vm_compute.
  by rewrite (proj2 (Z.leb_le _ _)) by lia.
Qed.

Lemma perbill_points_ok l :
  Forall (fun p => 0 <= p.1 <= 1000000 /\ 0 <= p.2 <= 1000000) l -> perbill_points l = Ok (map scale l).
Proof.
  induction 1 as [|[x y] l [Hx Hy] _ IH]; [done|]. cbn [perbill_points map fst snd] in *.
  rewrite !to_perbill_ok by done. cbn [obind]. by rewrite IH.
Qed.

Lemma fold_max_absorbs l M : Forall (fun v => v <= M) l -> fold_left Z.max l M = M.
Proof. induction 1 as [|v l Hv _ IH]; [done|]. simpl. by rewrite Z.max_l by lia. Qed.

(** A curve that starts below its second point and falls from there is in range, and the
    second point is its maximum. *)
Lemma generated m c M rest e y' :
  0 <= m <= M -> M <= 1000000 -> 0 <= c -> e = 1000000 -> m <= y' -> Sorted falls ((c, M) :: rest ++ [(e, y')]) ->
  generate_piecewise_linear ((0, m) :: (c, M) :: rest ++ [(e, y')]) = Ok (map scale ((0, m) :: (c, M) :: rest ++ [(e, y')]), M * 1000).
Proof.
  intros Hm HM Hc -> Hy' Hs. apply (Sorted_StronglySorted falls) in Hs.
  assert (Forall (fun p => falls (c, M) p) (rest ++ [(1000000, y')])) as Hle by (apply StronglySorted_cons in Hs as [Hs _]; exact Hs).
  assert (Forall (fun p => p.1 <= 1000000 /\ y' <= p.2) ((c, M) :: rest ++ [(1000000, y')])) as Hge.
  { rewrite app_comm_cons. apply Forall_app. split; [|by repeat constructor; simpl; lia].
    apply Forall_forall. intros p Hp. rewrite app_comm_cons in Hs.
    pose proof (StronglySorted_app_1_elem_of falls _ _ p (1000000, y') Hs Hp ltac:(set_solver)) as []. simpl in *. lia. }
  assert (Forall (fun p => 0 <= p.1 <= 1000000 /\ 0 <= p.2 <= 1000000) ((0, m) :: (c, M) :: rest ++ [(1000000, y')])) as Hin.
  { constructor; [simpl; lia|]. apply Forall_cons in Hge as [Hg Hge]. constructor; [simpl in *; lia|].
    apply Forall_forall. intros p Hp. rewrite Forall_forall in Hle, Hge. specialize (Hle p Hp) as []. specialize (Hge p Hp) as []. simpl in *. lia. }
  unfold generate_piecewise_linear. rewrite perbill_points_ok by done. cbn [obind].
  assert (max_of (map snd ((0, m) :: (c, M) :: rest ++ [(1000000, y')])) = M) as ->.
  { unfold max_of. simpl. rewrite !Z.max_r by lia. apply fold_max_absorbs. apply Forall_map.
    eapply Forall_impl; [exact Hle|]. intros p []. simpl in *. lia. }
  unfold checked_mul. assert (1000000000 <= umax 32) by by vm_compute. by rewrite (proj2 (Z.leb_le _ _)) by lia.
Qed.

(** C40: from parameters that are parsed, with a bound on the length of pieces ([max_length]) of
    at most the least inflation and one, the macro ends, without a panic, and declares a
    curve: it starts at the least inflation, has its maximum at the ideal stake, and falls
    from there until the stake of one, where it is at least the least inflation. From the
    ideal stake to its last point but one its points are where [compute_opposite_after_x_ideal]
    puts them, the macro's own integer version of the ideal curve, and no two of these that
    follow each other are further apart than [max_length] either way. The last piece may be
    longer ([last_piece_exceeds_the_bound]). *)
Theorem curve_rises_then_falls fuel a b c e p t i :
  parse a b c e p t = Ok i -> max_length_of i <= min_inflation i + 1 ->
  max_length_of i + (max_inflation i - min_inflation i) < Z.of_nat fuel ->
  exists rest y', let falling := (ideal_stake i, max_inflation i) :: rest in
    let points := (0, min_inflation i) :: falling ++ [(1000000, y')] in
    compute_points fuel i = Ok points
    /\ generate_piecewise_linear points = Ok (map scale points, max_inflation i * 1000)
    /\ Sorted falls (falling ++ [(1000000, y')]) /\ min_inflation i <= y'
    /\ Forall (on_curve i) falling /\ Sorted (piece i) falling.
Proof.
  intros Hr%parse_in_range HL Hf. rewrite compute_points_ok by done. pose proof (max_length_range i Hr) as HL0.
  pose proof Hr as (H1 & H2 & H3 & _).
  destruct (points_loop_ok i fuel (max_length_of i) (max_inflation i) [] (ideal_stake i)) as (rest & y' & He & Hs & Hc & Hfa & Hy); try (done || lia).
  - by repeat constructor.
  - repeat constructor. by apply opposite_of_max.
  - exists rest, y'. cbn zeta. split; [exact He|]. split; [|done]. apply generated; [lia..|done].
Qed.

(** Parameters in range that ask for few pieces make the macro panic: the first step down
    is longer than the curve is high. *)
Theorem few_pieces_panic fuel a b c e p t i :
  parse a b c e p t = Ok i -> max_inflation i < max_length_of i -> compute_points (S fuel) i = Panic.
Proof.
  intros Hr%parse_in_range HL. rewrite compute_points_ok by done. pose proof (max_length_range i Hr) as HL0.
  destruct Hr as (H1 & H2 & H3 & H4 & H5). cbn [points_loop]. rewrite (proj2 (Z.eqb_neq _ _)) by lia.
  assert (wrap 32 (max_inflation i - max_length_of i) = max_inflation i - max_length_of i + 2 ^ 32) as ->.
  { unfold wrap. symmetry. apply (Z.mod_unique_pos _ _ (-1)); lia. }
  rewrite (proj2 (Z.leb_gt _ _)) by lia.
  unfold compute_opposite_after_x_ideal, inpos_of. cbn [i_0 i_ideal_times_x_ideal x_ideal d].
  rewrite (proj2 (Z.eqb_neq _ _)) by lia. assert (2 ^ 32 = umax 32 + 1) as H32 by done. assert (2000000 <= umax 32) by by vm_compute.
  rewrite !wrap_exact by (unfold in_uint; lia). unfold log2. by rewrite (proj2 (Z.leb_gt (_ + _ - _) _)) by lia.
Qed.

(** * The curve of the runtimes, and three others

    The parameters that the runtimes give the macro make a curve; with five pieces they make
    the macro panic, and other parameters make more pieces than were asked for. *)

(** [runtime/newrome/src/lib.rs], [REWARD_CURVE]. *)
Lemma curve_rises_then_falls_witness :
  exists rest y', compute_points (Z.to_nat 90000) (MkInput 25000 500000 100000 50000 40 5000)
    = Ok ((0, 25000) :: ((500000, 100000) :: rest) ++ [(1000000, y')]) /\ 25000 <= y'.
Proof.
  set (i := MkInput 25000 500000 100000 50000 40 5000).
  destruct (curve_rises_then_falls (Z.to_nat 90000) 25000 100000 500000 50000 40 5000 i) as (rest & y' & H & _ & _ & Hy & _).
  - reflexivity.
  - vm_compute. discriminate.
  - rewrite Z2Nat.id by lia. reflexivity.
  - exists rest, y'. split; [exact H|exact Hy].
Defined.

(** The same with at most five pieces, which is in the range of the field. *)
Lemma few_pieces_panic_witness : compute_points 1 (MkInput 25000 500000 100000 50000 5 5000) = Panic.
Proof. apply (few_pieces_panic 0 25000 100000 500000 50000 5 5000); reflexivity. Defined.

(** At most eight pieces: the curve has twelve. *)
Example more_pieces_than_asked :
  exists i points, parse 783406 783431 861145 94019 8 5000 = Ok i /\ max_piece_count i = 8
    /\ compute_points (Z.to_nat 20000) i = Ok points /\ length points = 13%nat.
Proof. eexists _, _. split; [reflexivity|]. split; [reflexivity|]. split; vm_compute; reflexivity. Qed.

(** The parameters of the test of a small falloff: when no step down is short enough any more
    the macro goes to the end in one piece, here 85 times as long as the bound. *)
Example last_piece_exceeds_the_bound :
  exists i points rest, parse 20000 200000 600000 10000 200 5000 = Ok i /\ max_length_of i = 2914
    /\ compute_points (Z.to_nat 190000) i = Ok points /\ points = rest ++ [(751357, 20005); (1000000, 20000)].
Proof.
  eexists _, _, _. split; [reflexivity|]. split; [reflexivity|]. split; [vm_compute; reflexivity|].
  match goal with |- ?l = _ => instantiate (1 := take 100 l) end. vm_compute. reflexivity.
Qed.

(** Within its whole part the logarithm is close; of three it is
    1.584962. *)
Example log2_of_three : log2 3 1 = Ok 1584961.
Proof. vm_compute. reflexivity. Qed.

Example parse_refuses :
  parse 0 100000 500000 50000 40 5000 = Err "min_inflation"%string
  /\ parse 25000 100000 500000 9999 40 5000 = Err "falloff"%string.
Proof. split; reflexivity. Qed.
